(* ===== verification/_CoqProject ===== *)
-Q . S2P
Prelude.v
StateMonad.v
Mmio.v
Bitops.v
Cell.v
Irqchip.v
FixedPriority.v
Tdma.v
Kernel.v
Scheduler.v
SchedPartitioned.v
Dprem.v
System.v
OsekApi.v
Boot.v
Counter.v
TriggerQueue.v
Alarm.v
CounterApi.v
SchedTable.v
Distributor.v
PagePool.v
Paging.v
PageTree.v
PageMap.v
PageStep.v
PageDestroy.v
PageCreate.v
AddressSpace.v
PagePrepare.v
PagingInit.v
CellMemory.v
CellExamples.v
CpuControl.v
CpuSuspend.v
CpuProgress.v
CpuExamples.v
Psci.v
Management.v
CellLifecycle.v
CellPartition.v
CellCalls.v
CellManagement.v
CellRegions.v
CellScenario.v
Coloring.v
ColoringExamples.v
Dcache.v
PagingScenario.v
Barrier.v
Startup.v
Shutdown.v
Printk.v
ConsoleLog.v
ConsoleScenario.v
GicCpu.v
DataAbort.v
Application.v
