(* ===== verification/Prelude.v ===== *)
(** * Fixed-priority memory-centric scheduling: verification library

    The program is a mixed-criticality system in which the CPUs of a board
    take turns in accessing main memory. It has two sides.

    - The Jailhouse hypervisor (src/jailhouse-master_dprem) divides the board
      into cells and owns the memory token. Cells ask for the token and give it
      back by hypercalls; an arbiter, either by fixed priority
      (hypervisor/arch/arm64/fixed_priority.c) or by time slots (tdma.c),
      decides, and tells a cell about a change by two software generated
      interrupts, 13 for the start and 14 for the end of its memory phase,
      which the virtual interrupt injection of arch/arm-common delivers. The
      isolation of the cells rests on page tables, the emulation of the
      interrupt distributor, the dispatch of intercepted accesses and on the
      way CPUs are stopped and moved between cells.
    - The ERIKA kernel (src/ee_files/pkg) runs in a cell. Its DPREM library
      (arch/aarch64/dprem.c) splits a task into a memory and an execution
      phase. A task that starts a memory phase issues the hypercall; without
      the token it leaves the stack of the scheduler and waits in a list of
      suspended tasks. The handlers of the two interrupts move the task in and
      out of this list when the token comes and goes.

    ** Files

    Each file requires the ones above it that it uses.

    Common.
    - [Prelude]: machine integers with their conversion written out; generic
      list lemmas; the tactics and the hint database.
    - [StateMonad]: state and failure, and frame properties of computations.

    Arbitration and signals.
    - [Cell]: CPU sets, their iteration ([next_cpu] of hypervisor/control.c)
      and the cell descriptor.
    - [Irqchip]: [irqchip_set_pending], the ring buffer of pending interrupts,
      the GICv2 list registers and the maintenance interrupt
      (arch/arm-common/irqchip.c, gic-v2.c). Its promise to the arbiters is
      the class [IrqSink]; the arbiters are proved against the class and this
      file gives the instance.
    - [FixedPriority]: the static variables of fixed_priority.c as the record
      [arbiter]; request, release, the hypercall, parking of a CPU.
    - [Tdma]: the slots and timers of tdma.c, its timer interrupt handler, the
      interrupt priority setup, cell creation and destruction.

    The guest.
    - [Kernel]: the data of the ERIKA kernel: scheduler nodes, task
      descriptors and control blocks, the core control block, as typed stores
      indexed by addresses. [repr] relates a store to the four abstract lists
      it represents: ready queue, stack, free nodes, suspended tasks.
    - [Scheduler]: ee_oo_scheduler.c for the linked-list ready queue.
    - [SchedPartitioned]: ee_oo_sched_partitioned.c, ee_oo_kernel.c and the
      entry points: activation, termination, blocking, unblocking, preemption
      point, interrupt tasks (ISR2). [sched_inv] is the scheduling invariant.
    - [Dprem]: dprem.c. The hypercall is a parameter, a function of a state of
      its own that answers with a code; what a theorem needs of the answer is
      a hypothesis of it.
    - [System]: arbiter and guests together, a transition system in which the
      hypercall of [Dprem] is that of [FixedPriority] and its signals reach the
      handlers of the guests.
    - [OsekApi]: the task, event and interrupt services of ee_oo_api_osek.c.
    - [Boot]: InitOS, CreateTask, SetISR2Source, the stack pool, StartOS, the
      interrupt dispatch, [DPREM_init].
    - [Counter], [TriggerQueue], [Alarm], [CounterApi], [SchedTable]:
      ee_oo_counter.c, ee_oo_alarm.c and ee_ar_sched_table.c: the trigger queue
      of a counter and its meaning as a list of distances, the increment, the
      services, the expiry points of schedule tables.

    Isolation of the cells.
    - [Mmio]: hypervisor/mmio.c: the table of intercepted regions, its changes
      store by store, the lookup and the dispatch.
    - [Bitops]: bitmaps and masks.
    - [Distributor]: the emulation of the GICv2 distributor and the assignment
      of interrupts to cells (irqchip.c, gic-v2.c).
    - [PagePool], [Paging]: the page allocator and the page table code of
      hypervisor/paging.c for the format of arm64. [PageTree], [PageMap],
      [PageStep], [PageDestroy], [PageCreate]: tables as trees, their
      invariant, mapping and unmapping; [AddressSpace]: an address space as a
      map from addresses to pages; [CellMemory]: the regions of a cell
      (mmu_cell.c); [CellExamples]: a concrete machine.
    - [CpuControl]: arch/arm-common/control.c, arch/arm64/control.c and the
      power-on of psci.c as a transition system of all CPUs, one access to
      shared data per step. [CpuSuspend] (safety), [CpuProgress] (progress and
      deadlock), [CpuExamples] (schedules); [Psci]: the calls of a guest.
    - [Management]: the management hypercalls of hypervisor/control.c on the
      list of cells, over any platform (memory, devices, communication pages).
      [CellLifecycle], [CellPartition], [CellCalls]: lemmas and the
      specification of each call; [CellManagement], [CellRegions]: theorems;
      [CellScenario]: a concrete system.
    - [Coloring]: the colored memory of a cell (arch/arm-common/coloring.c):
      the color mask, its ranges, the fragments of a region and what is done
      with them when cells come and go; [ColoringExamples]: a concrete system.
    - [PagingInit]: the start-up of the page management (paging.c); it uses
      [PagePrepare], on tables that mappings leave behind. [Dcache]: flushing
      the memory of a cell through the temporary pages (mmu_cell.c, coloring.c,
      arch/arm64/caches.S). [PagingScenario]: a hypervisor that starts and
      flushes a cell.

    - [GicCpu]: the CPU interface of the GICv2: taken over at start-up, reset
      with a cell, given back with what is pending at shutdown.
    - [DataAbort]: arch/arm64/mmio.c: an intercepted access is decoded, handed
      to the dispatch of [Mmio] and completed in the registers of the guest.

    The hypervisor as a whole.
    - [Barrier]: counting CPUs. [Startup]: [entry] of hypervisor/setup.c on all
      CPUs at once; [Shutdown]: [hypervisor_disable] of control.c.
    - [Printk]: the formatted output of hypervisor/printk-core.c, which the
      guest shares, against a reference that gives the text of a format.
    - [ConsoleLog]: the console page: the writer in hypervisor/printk.c and
      the reader in driver/main.c as two programs whose accesses interleave;
      the delta and the reads of the console file. [ConsoleScenario]: runs.

    The application.
    - [Application]: main.c: the timer interrupt that releases the periodic
      tasks and counts missed deadlines, the jobs of a task, and the average of
      benchmarking/average.c.

    ** How code becomes definitions

    A definition has the name of the C function or type it translates.
    Integers are [Z] with the width of the C type applied where the code
    stores or computes at that width. The arbiters pass their state
    explicitly; the other parts use the monad [ST]: a computation takes the
    state and gives a result and a new state, or [None] when C would have
    undefined behaviour (an access through a pointer that points to no object)
    or a loop exceeds its fuel. Theorems about operations say that the result
    is [Some], so they show the absence of both. Code that other CPUs can
    observe while it runs is a transition system or records every state that
    can be observed.

    A context switch is an event in the trace of the kernel followed by what
    the wrapper of the target task does; a service that switches ends there,
    and its remainder is a definition with suffix [_resumed].

    ** Fuel and bounds

    The loops over linked lists have as fuel the number of nodes of the store
    ([list_fuel]); a chain has no repeated node, so this is enough
    ([repr_fuel]). Loops over CPU sets, pending interrupts and task arrays
    have the size of the set or array. The emulated division needs at most
    as many rounds as its dividend. The loop of
    [DPREM_begin_memory_phase] that retries until the token is there takes
    its fuel as an argument: two rounds suffice in a task, and in an
    interrupt or the idle task no fuel does ([begin_in_isr_never_returns]).
    The array sizes (8 tasks, 8 nodes, 65536 bytes of stack) are those of
    conf.oil. The search for free pages takes the number of pages plus one,
    a mapping or unmapping the number of pages of its size, a walk the number
    of levels. The trigger queue takes its length, nested increments the rank
    of the counter in the order of nesting. A message exchange with a cell
    takes its reply timeout; with a timeout of zero it may not end, which
    [good_config] excludes. The wait in [arch_suspend_cpu] takes as many looks
    as the argument [patience] says; [responsive] is the hypothesis that they
    are enough, and the wait itself is the subject of [CpuProgress]. Printing takes the length of the format, a number
    one round per digit of the largest power of its base.

    ** What the theorems show

    - The system: if signals are served in time at most one guest is in a
      memory phase, the one of highest priority ([one_memory_phase]); if an
      older end signal is served after a start signal the guest waits for a
      token it owns ([own_token_wait_persists]).
    - Arbitration: the token is with a requesting CPU of highest priority
      ([token_highest_priority], by induction on reachable states), both
      hypercalls on all branches, the numbers of priorities and ticks. Under
      TDMA two CPUs are in the memory phase at once only while a timer
      interrupt is due, or after one was served a slot too late
      ([tdma_exclusive]).
    - Signals: the ring buffer is a bounded FIFO queue, a raised interrupt
      becomes visible, draining ends and keeps the order.
    - Scheduling: every operation ends and keeps [sched_inv]; the running task
      is one of highest priority; preemption is on strictly higher priority;
      equal priorities are served in order of arrival.
    - Memory phases: with the token the task runs at the ceiling priority,
      without it the task waits and the next runs; losing and regaining the
      token restores the queues.
    - Services: [ActivateTask], [WaitEvent], [SetEvent], the interrupt
      services and ISR2 entry and end, errors included.
    - Start-up: it establishes [sched_inv] with every created task
      activatable; stacks are disjoint; interrupts reach the handler that was
      registered.
    - Time: an alarm runs at the tick it was set for, with a prescaler or
      without; the linked queue refines the abstract list of distances;
      increments end if their actions do. While a schedule table is started
      this does not hold: its expiry points have theorems of their own.
    - Intercepted accesses: binary search agrees with linear search, the table
      stays well-formed, a concurrent lookup never sees a half-written region,
      but in a removal from a full table the entry behind it.
    - Interrupts of a cell: distributor accesses by word and the assignment of
      pins confine a cell to its own interrupts.
    - Memory of a cell: a mapped region translates with the rights it asks
      for, unmapping undoes mapping but for large pages that were split, and no
      change to one cell is visible in another.
    - CPUs: a suspended CPU runs no guest code, a parked one stays off, a reset
      one starts at its entry; a request is acknowledged unless it comes in a
      window that the theorems delimit.
    - Cells: any sequence of management calls keeps every CPU in one cell, and
      ends if CPUs acknowledge their suspension and cells are passive or have
      a reply timeout; creation is atomic; creating and destroying undo each other;
      changes happen only while the CPUs concerned are stopped.
    - Colors: the fragments of a colored region are exactly the addresses with
      a color of the mask, in the periods that an int can count
      ([fragments_cover]), so cells with disjoint colors
      share none ([colors_separate]).
    - Start-up of the page management: it sets up exactly the mappings of the
      image and of the registers and leaves consistent pools and the tables
      for temporary pages behind ([paging_init_established]); thanks to these
      tables a flush of a cell cannot fail and acts on exactly its lines
      ([cell_flush_complete]).
    - The hypervisor as a whole: at start-up all CPUs activate it or all fail
      ([startup_agreement]), in at most seven steps per CPU ([startup_ends]);
      it is shut down once, without cells and by all CPUs ([shutdown_once],
      [shutdown_proceeds]).
    - Output: printing accesses the buffer in bounds and gives the text of the
      format ([vprintk_prints]), numbers read back ([uint2str_reads_back]); a
      copy of the console page taken while it is written is consistent up to
      its oldest character ([snapshot_consistent], [delta_of_snapshot]), the
      copying ends ([copy_console_page_ends]) and successive reads of such copies
      return the output in order with every gap reported ([reads_in_order]).
    - Intercepted accesses have the effect of the instruction
      ([access_emulated]), others change nothing ([access_refused]); no pending
      interrupt is lost when the hypervisor leaves a CPU
      ([irqchip_cpu_shutdown_migrates]) and Linux gets its CPU interface back
      ([init_shutdown_roundtrip]).
    - The application: jobs are released periodically without drift
      ([releases_periodic]), also after a late interrupt
      ([late_interrupt_catches_up]); the first missed deadline is counted
      ([first_miss_detected]), one after it need not be ([later_miss_hidden]);
      the average does not overflow ([calc_avg_correct]).

    Some theorems state behaviour that differs from what comments or the
    design suggest: a cell with id 6 never gets the token
    ([cell_six_never_granted]), the emulated division is one off on exact
    quotients ([emul_division_exact]), a late start interrupt still enters the
    memory phase ([tdma_late_start]), no signal is sent at the start of a slot
    ([tdma_start_not_signalled]), the wrong timer is disabled
    ([tdma_destroy_wrong_timer]), slot numbers wrap ([tdma_slot_assignment]),
    a signal raised while active is lost ([active_interrupt_lost]), a priority
    inversion at the end of an execution phase ([end_execution_inversion]), a
    leak of reserved activations ([create_task_leak]), an alarm that is dead
    after it cancelled itself ([cancelled_in_action_dead]), splitting a large
    page above 4 GiB ([split_loses_high_bits]), unmapping a range that starts
    inside of a large page ([unmap_misses_range]), the alignment of aligned
    allocations ([page_alloc_aligned_offset]), a byte access to the priority
    of another cell's interrupt ([byte_priority_escapes]), a suspension that
    is never acknowledged ([missed_suspension_deadlock]), two management calls
    that block each other ([crossed_suspension_deadlock]), a power-on that
    survives a park or is lost to one ([parked_cpu_restarts],
    [stale_park_loses_power_on]), a message exchange that does not know a
    terminal state ([comm_rev_failure_never_ends]), a suspension that nobody
    acknowledges ([silent_cpu_never_ends]), colored memory that stays
    mapped in a destroyed cell ([destroy_stops_at_warning]), a copy of the
    console whose oldest character is the newest ([snapshot_race]), a position
    in the console that is not reset ([stale_position]), text that a fault
    loses ([fault_loses_text]), a colored region with too many periods for an
    int ([huge_region_empty]), list registers whose status is not seen
    ([high_register_unseen]), a schedule table that blocks its queue
    ([table_past_maximum_blocks]), a load that fills the
    upper half of its register ([sign_fills_upper_half]), formats that read
    behind their end or overflow ([print_percent_last], [print_least]), a
    bitmap that is not allocated ([missing_bitmap]) and a missed deadline that
    is not counted ([missed_deadline_hidden]).

    ** What is not modelled

    The kernel is the build that conf.oil configures: one core, standard
    status, events and the dynamic API, without resources, hooks for errors or
    stack monitoring; counters, alarms and schedule tables are modelled as if
    they were configured. Register saving in the context switch is assembly.
    The hypervisor is the build for GICv2 on arm64; cells are created with plain
    regions, the colored ones are on their own in [Coloring]. Of what
    the initialization calls do at start-up only the page management is
    modelled; the walk through page tables of a guest, TLB maintenance beyond a
    record of the flushed addresses, GICv3, PCI and shared-memory devices are
    not. Interleavings are sequentially
    consistent.
    The bandwidth guard (memguard.c) and the phase lock prem.c are called by
    nothing in the repository; the former is register writes without a
    decision of its own. Serial devices, the Linux driver apart from its console,
    tools, demos, board configurations and the ports to other architectures are
    outside. *)

From Stdlib Require Import ZArith Lia.
From stdpp Require Import base tactics list list_numbers option gmap.

Declare Scope mcs_scope.
Delimit Scope mcs_scope with mcs.

#[global] Open Scope Z_scope.

(** ** Machine integers

    An unsigned C integer of width [w] is a [Z] in [0, 2^w); conversions are
    written out with [wrap]. [s8] is the conversion to a signed 8 bit
    integer. *)
Definition wrap (w x : Z) : Z := x mod 2 ^ w.
Definition u8 (x : Z) : Z := wrap 8 x.
Definition u16 (x : Z) : Z := wrap 16 x.
Definition u32 (x : Z) : Z := wrap 32 x.
Definition u64 (x : Z) : Z := wrap 64 x.
Definition s8 (x : Z) : Z := let y := wrap 8 x in if y <? 128 then y else y - 256.
Definition s32 (x : Z) : Z := let y := wrap 32 x in if y <? 2 ^ 31 then y else y - 2 ^ 32.
Definition s64 (x : Z) : Z := let y := u64 x in if y <? 2 ^ 63 then y else y - 2 ^ 64.

(** The representable unsigned values of a width. *)
Definition is_u (w x : Z) : Prop := 0 <= x < 2 ^ w.

Create HintDb mcs.

(** Turn boolean comparisons in hypotheses and goal into propositions. *)
Ltac b2p :=
  repeat match goal with
  | H : (_ && _)%bool = true |- _ => apply andb_true_iff in H; destruct H
  | H : (_ || _)%bool = false |- _ => apply orb_false_iff in H; destruct H
  | H : negb _ = true |- _ => apply negb_true_iff in H
  | H : negb _ = false |- _ => apply negb_false_iff in H
  | H : (_ <? _) = true |- _ => apply Z.ltb_lt in H
  | H : (_ <? _) = false |- _ => apply Z.ltb_ge in H
  | H : (_ <=? _) = true |- _ => apply Z.leb_le in H
  | H : (_ <=? _) = false |- _ => apply Z.leb_gt in H
  | H : (_ >? _) = _ |- _ => rewrite Z.gtb_ltb in H
  | H : (_ >=? _) = _ |- _ => rewrite Z.geb_leb in H
  | H : (_ =? _) = true |- _ => apply Z.eqb_eq in H
  | H : (_ =? _) = false |- _ => apply Z.eqb_neq in H
  end.

(** Case split on a boolean test of the goal, leaving arithmetic facts. *)
Ltac zcase :=
  match goal with
  | |- context [if ?b then _ else _] => destruct b eqn:?; b2p
  end.

(** Case split on a boolean test of a hypothesis. *)
Ltac zcase_in H :=
  match type of H with
  | context [if ?b then _ else _] => destruct b eqn:?; b2p
  end.

Lemma wrap_bounds (w x : Z) : 0 <= w -> is_u w (wrap w x).
Proof. intros. unfold wrap, is_u. apply Z.mod_pos_bound. lia. Qed.

Lemma wrap_small (w x : Z) : is_u w x -> wrap w x = x.
Proof. intros. unfold wrap. apply Z.mod_small. exact H. Qed.

Lemma wrap_wrap (w x : Z) : 0 <= w -> wrap w (wrap w x) = wrap w x.
Proof. intros. apply wrap_small, wrap_bounds. lia. Qed.

Lemma u32_bounds (x : Z) : 0 <= u32 x < 2 ^ 32.
Proof. apply (wrap_bounds 32). lia. Qed.

Lemma u64_bounds (x : Z) : 0 <= u64 x < 2 ^ 64.
Proof. apply (wrap_bounds 64). lia. Qed.

Lemma u8_bounds (x : Z) : 0 <= u8 x < 2 ^ 8.
Proof. apply (wrap_bounds 8). lia. Qed.

Lemma u32_small (x : Z) : 0 <= x < 2 ^ 32 -> u32 x = x.
Proof. apply (wrap_small 32). Qed.

Lemma u64_small (x : Z) : 0 <= x < 2 ^ 64 -> u64 x = x.
Proof. apply (wrap_small 64). Qed.

Lemma u8_small (x : Z) : 0 <= x < 2 ^ 8 -> u8 x = x.
Proof. apply (wrap_small 8). Qed.

(** Masking out the low bits aligns downwards. *)
Lemma land_align (w n x : Z) :
  0 <= n <= w -> 0 <= x < 2 ^ w -> Z.land x (wrap w (Z.lnot (Z.ones n))) = x - x mod 2 ^ n.
Proof.
  intros Hn Hx. unfold wrap. rewrite <- Z.land_ones by lia.
  rewrite (Z.land_comm (Z.lnot _)), Z.land_assoc, (Z.land_ones x w) by lia.
  rewrite Z.mod_small, <- Z.ldiff_land, Z.ldiff_ones_r by lia.
  rewrite Z.shiftl_mul_pow2, Z.shiftr_div_pow2 by lia.
  pose proof (Z.div_mod x (2 ^ n)). lia.
Qed.

#[export] Hint Resolve wrap_bounds u32_bounds u64_bounds u8_bounds : mcs.

(** ** Arrays

    A C array is a list; an access outside of it has no defined result and is
    [None]. *)
Section Arrays.
Context {A : Type}.

Definition aget (l : list A) (i : Z) : option A :=
  if i <? 0 then None else l !! Z.to_nat i.

Definition aset (l : list A) (i : Z) (x : A) : option (list A) :=
  if (i <? 0) || (Z.of_nat (length l) <=? i) then None
  else Some (<[Z.to_nat i := x]> l).

Lemma aget_Some_range (l : list A) (i : Z) (x : A) :
  aget l i = Some x -> 0 <= i < Z.of_nat (length l).
Proof.
  unfold aget. zcase; intros H; [done|]. apply lookup_lt_Some in H. lia.
Qed.

Lemma aget_in_range (l : list A) (i : Z) :
  0 <= i < Z.of_nat (length l) -> is_Some (aget l i).
Proof.
  intros H. unfold aget. zcase; [lia|]. apply lookup_lt_is_Some. lia.
Qed.

Lemma aset_in_range (l : list A) (i : Z) (x : A) :
  0 <= i < Z.of_nat (length l) -> aset l i x = Some (<[Z.to_nat i := x]> l).
Proof.
  intros H. unfold aset. zcase; [|done].
  apply orb_true_iff in Heqb as [?|?]; b2p; lia.
Qed.

Lemma aset_Some (l l' : list A) (i : Z) (x : A) :
  aset l i x = Some l' ->
  0 <= i < Z.of_nat (length l) /\ l' = <[Z.to_nat i := x]> l.
Proof. unfold aset. zcase; intros; simplify_eq. split; [lia|done]. Qed.

Lemma aget_middle (l1 l2 : list A) (x : A) : aget (l1 ++ x :: l2) (Z.of_nat (length l1)) = Some x.
Proof. unfold aget. zcase; [lia|]. rewrite Nat2Z.id. by apply list_lookup_middle. Qed.

Lemma aget_insert_eq (l : list A) (i : Z) (x : A) :
  0 <= i < Z.of_nat (length l) -> aget (<[Z.to_nat i := x]> l) i = Some x.
Proof.
  intros H. unfold aget. zcase; [lia|]. apply list_lookup_insert_eq. lia.
Qed.

Lemma aget_insert_ne (l : list A) (i j : Z) (x : A) :
  0 <= i -> i <> j -> aget (<[Z.to_nat i := x]> l) j = aget l j.
Proof.
  intros Hi H. unfold aget. zcase; [done|].
  apply list_lookup_insert_ne. lia.
Qed.

Lemma aget_aset_eq (l l' : list A) (i : Z) (x : A) :
  aset l i x = Some l' -> aget l' i = Some x.
Proof. intros [? ->]%aset_Some. by apply aget_insert_eq. Qed.

Lemma aget_aset_ne (l l' : list A) (i j : Z) (x : A) :
  aset l i x = Some l' -> i <> j -> aget l' j = aget l j.
Proof. intros [? ->]%aset_Some ?. apply aget_insert_ne; lia. Qed.

Lemma aset_length (l l' : list A) (i : Z) (x : A) :
  aset l i x = Some l' -> length l' = length l.
Proof. intros [_ ->]%aset_Some. apply length_insert. Qed.

End Arrays.

(** ** Lists *)
Lemma filter_none {A} (P : A -> Prop) `{!forall x, Decision (P x)} (l : list A) :
  Forall (fun x => ~ P x) l -> filter P l = [].
Proof.
  induction 1 as [|x l Hx _ IH]; [done|]. by rewrite filter_cons_False.
Qed.

Lemma filter_all {A} (P : A -> Prop) `{!forall x, Decision (P x)} (l : list A) :
  Forall P l -> filter P l = l.
Proof.
  induction 1 as [|x l Hx _ IH]; [done|]. by rewrite filter_cons_True, IH.
Qed.

Lemma elem_of_mid {A} (x1 x2 : list A) (a b : A) : b ∈ x1 ++ x2 -> b ∈ x1 ++ a :: x2.
Proof. rewrite !elem_of_app, elem_of_cons. tauto. Qed.

Lemma NoDup_mid {A} (x1 x2 : list A) (a : A) :
  NoDup (x1 ++ a :: x2) -> NoDup (x1 ++ x2) /\ a ∉ x1 ++ x2.
Proof. rewrite <- Permutation_middle, NoDup_cons. tauto. Qed.

Lemma app_mid_inj {A} (x : A) (x1 x2 y1 y2 : list A) :
  NoDup (x1 ++ x :: x2) -> x1 ++ x :: x2 = y1 ++ x :: y2 -> x1 = y1 /\ x2 = y2.
Proof.
  revert y1. induction x1 as [|a x1 IH]; intros [|b y1] Hnd He; simplify_eq/=.
  - done.
  - apply NoDup_cons in Hnd as [Hnd _]. exfalso. apply Hnd.
    apply elem_of_app. right. apply list_elem_of_here.
  - apply NoDup_cons in Hnd as [Hnd _]. exfalso. apply Hnd.
    apply elem_of_app. right. apply list_elem_of_here.
  - apply NoDup_cons in Hnd as [_ Hnd]. by destruct (IH y1 Hnd) as [-> ->].
Qed.
