(* ===== verification/StateMonad.v ===== *)
(** * A state and failure monad

    Computations on a state that can fail: [None] stands for undefined
    behaviour of the C code (an access through a bad pointer, a loop that
    exceeds its fuel). Each component instantiates the state. [Keeps] is the
    frame property of a computation: a view of the state it does not change;
    its instances follow the structure of the program. *)

From stdpp Require Import base tactics option.
From S2P Require Import Prelude.

(** ** The monad *)
Definition ST (S A : Type) : Type := S -> option (A * S).

#[global] Instance st_ret {S} : MRet (ST S) := fun A x s => Some (x, s).
#[global] Instance st_bind {S} : MBind (ST S) := fun A B f m s =>
  match m s with Some (x, s') => f x s' | None => None end.

Section StateOps.
Context {S : Type}.

Definition gets {A} (f : S -> A) : ST S A := fun s => Some (f s, s).
Definition modify (f : S -> S) : ST S unit := fun s => Some (tt, f s).
Definition undefined {A} : ST S A := fun _ => None.
Definition from_option {A} (o : S -> option A) : ST S A := fun s =>
  match o s with Some x => Some (x, s) | None => None end.

End StateOps.

(** ** Runs *)
Lemma bind_run {S A B} (m : ST S A) (f : A -> ST S B) s x s' :
  m s = Some (x, s') -> (m ≫= f) s = f x s'.
Proof. intros H. unfold mbind, st_bind. by rewrite H. Qed.

Lemma bind_assoc_run {S A B C} (m : ST S A) (f : A -> ST S B) (g : B -> ST S C) s :
  (m ≫= (fun x => f x ≫= g)) s = ((m ≫= f) ≫= g) s.
Proof. unfold mbind, st_bind. by destruct (m s) as [[x s']|]. Qed.

(** A prefix of three computations. *)
Lemma bind3_run {S A B C D} (m1 : ST S A) (m2 : ST S B) (m3 : ST S C) (f : C -> ST S D) s x s' :
  (_ ← m1; _ ← m2; m3) s = Some (x, s') -> (_ ← m1; _ ← m2; y ← m3; f y) s = f x s'.
Proof.
  unfold mbind, st_bind. destruct (m1 s) as [[? s1]|]; [|done].
  destruct (m2 s1) as [[? s2]|]; [|done]. by intros ->.
Qed.

(** A bind that runs, runs in two parts. *)
Lemma bind_Some {S A B} (m : ST S A) (f : A -> ST S B) s y s' :
  (m ≫= f) s = Some (y, s') -> exists x s1, m s = Some (x, s1) /\ f x s1 = Some (y, s').
Proof. unfold mbind, st_bind. destruct (m s) as [[x s1]|]; [|done]. eauto. Qed.

(** ** Frames *)

(** A computation that does not change a view of the state. *)
Class Keeps {S V A} (view : S -> V) (m : ST S A) : Prop :=
  keeps : forall s x s', m s = Some (x, s') -> view s' = view s.

Section Keeping.
Context {S V A B : Type} (view : S -> V).

#[global] Instance keeps_ret (x : A) : Keeps view (mret x).
Proof. by intros s y s' [= -> ->]. Qed.
#[global] Instance keeps_undefined : Keeps view (@undefined S A).
Proof. done. Qed.
#[global] Instance keeps_gets (f : S -> A) : Keeps view (gets f).
Proof. by intros s y s' [= <- <-]. Qed.
#[global] Instance keeps_from_option (f : S -> option A) : Keeps view (from_option f).
Proof. intros s y s'. unfold from_option. destruct (f s); [|done]. by intros [= <- <-]. Qed.
#[global] Instance keeps_bind (m : ST S A) (f : A -> ST S B) :
  Keeps view m -> (forall x, Keeps view (f x)) -> Keeps view (m ≫= f).
Proof.
  intros Hm Hf s y s'. unfold mbind, st_bind. destruct (m s) as [[x s1]|] eqn:E; [|done].
  intros H. by rewrite (Hf _ _ _ _ H), (Hm _ _ _ E).
Qed.
#[global] Instance keeps_bool (b : bool) (m1 m2 : ST S A) :
  Keeps view m1 -> Keeps view m2 -> Keeps view (if b then m1 else m2).
Proof. by destruct b. Qed.
#[global] Instance keeps_decide P Q (d : {P} + {Q}) (m1 m2 : ST S A) :
  Keeps view m1 -> Keeps view m2 -> Keeps view (if d then m1 else m2).
Proof. by destruct d. Qed.
#[global] Instance keeps_pair {C} (p : B * C) (f : B -> C -> ST S A) :
  (forall x y, Keeps view (f x y)) -> Keeps view (let '(x, y) := p in f x y).
Proof. by destruct p. Qed.

End Keeping.

Ltac solve_keeps := cbv zeta; intros; apply _.
