(* ===== verification/Mmio.v ===== *)
(** * MMIO region dispatch of the hypervisor

    Models hypervisor/mmio.c: the table of intercepted regions of a cell,
    sorted by start address, its registration and removal, the lookup by
    binary search, the dispatch, and the handler of sub-page regions.

    The parallel arrays [mmio_locations] and [mmio_handlers] are one list of
    regions. The table is read without the lock that its writers hold, so the
    writers are modelled store by store: the state records every table that
    another CPU can observe. A region structure is read as a whole.

    The theorems compare the lookup with a reference definition, give
    registration and removal, and say what a lookup finds while a writer is
    at work. *)

From Stdlib Require Import ZArith Lia.
From stdpp Require Import base tactics list list_numbers option sorting.
From S2P Require Import Prelude StateMonad.

(** ** The table *)
Record mmio_region := mk_region {
  r_start : Z;
  r_size : Z;
  r_handler : Z;
  r_arg : Z;
}.

Record mmio_table := mk_table {
  num_mmio_regions : Z;
  max_mmio_regions : Z;
  regions : list mmio_region;
}.

Definition set_r_start (x : Z) (r : mmio_region) : mmio_region :=
  mk_region x (r_size r) (r_handler r) (r_arg r).
Definition set_r_size (x : Z) (r : mmio_region) : mmio_region :=
  mk_region (r_start r) x (r_handler r) (r_arg r).
Definition set_r_handler (h a : Z) (r : mmio_region) : mmio_region :=
  mk_region (r_start r) (r_size r) h a.

(** The state of a writer: the table and all tables since it took the lock. *)
Record mstate := mk_mstate { tab : mmio_table; seen : list mmio_table }.

Definition store (f : mmio_table -> option mmio_table) : ST mstate unit := fun s =>
  match f (tab s) with
  | Some t => Some (tt, mk_mstate t (seen s ++ [t]))
  | None => None
  end.

(** A store to one field of region [i]. *)
Definition store_region (i : Z) (f : mmio_region -> mmio_region) : ST mstate unit :=
  store (fun t => r ← aget (regions t) i; l ← aset (regions t) i (f r);
                  Some (mk_table (num_mmio_regions t) (max_mmio_regions t) l)).
Definition store_num (n : Z) : ST mstate unit :=
  store (fun t => Some (mk_table n (max_mmio_regions t) (regions t))).

Section Writers.
(** What is in memory behind the last region of the table. *)
Context (beyond : mmio_region).

Definition load_region (i : Z) : ST mstate mmio_region := fun s =>
  if i =? max_mmio_regions (tab s) then Some (beyond, s)
  else match aget (regions (tab s)) i with Some r => Some (r, s) | None => None end.

Definition copy_region (src dst : Z) : ST mstate unit :=
  _ ← store_region dst (set_r_size 0);
  r ← load_region src;
  _ ← store_region dst (set_r_start (r_start r));
  _ ← store_region dst (set_r_handler (r_handler r) (r_arg r));
  store_region dst (set_r_size (r_size r)).

(** [for (index = 0; index < num; index++) if (start_index > start) break] *)
Fixpoint insert_index (l : list mmio_region) (start : Z) : Z :=
  match l with
  | [] => 0
  | r :: l => if r_start r >? start then 0 else 1 + insert_index l start
  end.

(** [for (n = num - 1; n > index; n--) copy_region(n - 1, n)] *)
Fixpoint shift_up (count : nat) (n : Z) : ST mstate unit :=
  match count with
  | O => mret tt
  | S count => _ ← copy_region (n - 1) n; shift_up count (n - 1)
  end.

(** [for (; index < num; index++) copy_region(index + 1, index)] *)
Fixpoint shift_down (count : nat) (index : Z) : ST mstate unit :=
  match count with
  | O => mret tt
  | S count => _ ← copy_region (index + 1) index; shift_down count (index + 1)
  end.

(** The result is [false] for "Overflow during MMIO region registration!". *)
Definition mmio_region_register (start size handler handler_arg : Z) : ST mstate bool :=
  t ← gets tab;
  if num_mmio_regions t >=? max_mmio_regions t then mret false
  else
    let num := num_mmio_regions t in
    let index := insert_index (take (Z.to_nat num) (regions t)) start in
    _ ← store_region num (set_r_start (u64 (-1)));
    _ ← store_region num (set_r_size 0);
    _ ← store_num (u32 (num + 1));
    _ ← shift_up (Z.to_nat (num - index)) num;
    _ ← store_region index (set_r_size 0);
    _ ← store_region index (set_r_start start);
    _ ← store_region index (set_r_handler handler handler_arg);
    _ ← store_region index (set_r_size size);
    mret true.

End Writers.

(** ** Lookup *)

(** The result is the index, [-1] without a region, or [None] for a read
    outside of the table. *)
Fixpoint find_region_loop (fuel : nat) (l : list mmio_region) (address size range_start range_size : Z)
    : option Z :=
  if range_size >? 0 then
    match fuel with
    | O => None
    | S fuel =>
        let index := u32 (range_start + range_size / 2) in
        region ← aget l index;
        if address <? r_start region then
          find_region_loop fuel l address size range_start (u32 (index - range_start))
        else if u64 (r_start region + r_size region) <? u64 (address + size) then
          find_region_loop fuel l address size (u32 (index + 1))
            (u32 (range_size - (index + 1 - range_start)))
        else Some index
    end
  else Some (-1).

Definition find_region (t : mmio_table) (address size : Z) : option Z :=
  find_region_loop (Z.to_nat (num_mmio_regions t)) (regions t) address size 0 (num_mmio_regions t).

Definition mmio_region_unregister (beyond : mmio_region) (start : Z) : ST mstate unit :=
  index ← from_option (fun s => find_region (tab s) start 1);
  if index >=? 0 then
    t ← gets tab;
    _ ← shift_down beyond (Z.to_nat (num_mmio_regions t - index)) index;
    store_num (num_mmio_regions t - 1)
  else mret tt.

(** ** Accesses *)
Record mmio_access := mk_access {
  address : Z;
  size : Z;
  is_write : bool;
  value : Z;
}.

Inductive mmio_result := MMIO_ERROR | MMIO_UNHANDLED | MMIO_HANDLED.

Definition PAGE_SIZE : Z := 4096.
Definition PAGE_MASK : Z := u64 (Z.lnot (PAGE_SIZE - 1)).
Definition PAGE_OFFS_MASK : Z := PAGE_SIZE - 1.
Definition NUM_TEMPORARY_PAGES : Z := 16.
Definition JAILHOUSE_MEM_READ : Z := 1.
Definition JAILHOUSE_MEM_WRITE : Z := 2.
Definition JAILHOUSE_MEM_IO_UNALIGNED : Z := 256.
Definition JAILHOUSE_MEM_IO_WIDTH_SHIFT : Z := 16.

Section Access.
(** Device memory: reads and writes of a width (in bytes) at an address. *)
Context {W : Type} (mmio_read : Z -> Z -> W -> Z * W) (mmio_write : Z -> Z -> Z -> W -> W).

(** Other widths do nothing. *)
Definition mmio_perform_access (base : Z) (m : mmio_access) (w : W) : mmio_access * W :=
  let addr := u64 (base + address m) in
  if (size m =? 1) || (size m =? 2) || (size m =? 4) || (size m =? 8) then
    if is_write m then (m, mmio_write (size m) addr (wrap (8 * size m) (value m)) w)
    else let '(v, w) := mmio_read (size m) addr w in
         (mk_access (address m) (size m) false v, w)
  else (m, w).

(** [handler(arg, mmio)] for the registered handlers. *)
Context (call : Z -> Z -> mmio_access -> W -> option (mmio_result * mmio_access * W)).

Definition mmio_handle_access (t : mmio_table) (m : mmio_access) (w : W)
    : option (mmio_result * mmio_access * W) :=
  index ← find_region t (address m) (size m);
  if index <? 0 then Some (MMIO_UNHANDLED, m, w)
  else
    r ← aget (regions t) index;
    call (r_handler r) (r_arg r)
      (mk_access (u64 (address m - r_start r)) (size m) (is_write m) (value m)) w.

End Access.

(** *** Sub-page regions *)
Record jailhouse_memory := mk_memory {
  phys_start : Z;
  virt_start : Z;
  mem_size : Z;
  mem_flags : Z;
}.

(** The checks of [mmio_handle_subpage]. *)
Definition subpage_allowed (mem : jailhouse_memory) (m : mmio_access) : bool :=
  let perm := if is_write m then JAILHOUSE_MEM_WRITE else JAILHOUSE_MEM_READ in
  negb (Z.land (mem_flags mem) perm =? 0) &&
  negb (Z.land (u32 (Z.shiftl (size m) JAILHOUSE_MEM_IO_WIDTH_SHIFT)) (mem_flags mem) =? 0) &&
  ((Z.land (address m) (u32 (size m - 1)) =? 0) ||
   negb (Z.land (mem_flags mem) JAILHOUSE_MEM_IO_UNALIGNED =? 0)).

Section Subpage.
Context {W : Type} (mmio_read : Z -> Z -> W -> Z * W) (mmio_write : Z -> Z -> Z -> W -> W).
(** [paging_create] of one device page: physical page, virtual page. *)
Context (paging_create_page : Z -> Z -> W -> option W) (temporary_mapping_base this_cpu_id : Z).

Definition subpage_phys (mem : jailhouse_memory) (m : mmio_access) : Z :=
  Z.land (u64 (phys_start mem + address m)) PAGE_MASK.
Definition subpage_virt : Z :=
  u64 (temporary_mapping_base + this_cpu_id * PAGE_SIZE * NUM_TEMPORARY_PAGES).
Definition subpage_base (mem : jailhouse_memory) (m : mmio_access) : Z :=
  u64 (subpage_virt + Z.land (phys_start mem) PAGE_OFFS_MASK - Z.land (address m) PAGE_MASK).

(** A failed mapping is an invalid access; the console message is omitted. *)
Definition mmio_handle_subpage (mem : jailhouse_memory) (m : mmio_access) (w : W)
    : mmio_result * mmio_access * W :=
  if subpage_allowed mem m then
    match paging_create_page (subpage_phys mem m) subpage_virt w with
    | Some w =>
        let '(m, w) := mmio_perform_access mmio_read mmio_write (subpage_base mem m) m w in
        (MMIO_HANDLED, m, w)
    | None => (MMIO_ERROR, m, w)
    end
  else (MMIO_ERROR, m, w).

End Subpage.

Definition mmio_subpage_register (beyond : mmio_region) (handler mem_ptr : Z)
    (mem : jailhouse_memory) : ST mstate bool :=
  mmio_region_register beyond (virt_start mem) (mem_size mem) handler mem_ptr.
Definition mmio_subpage_unregister (beyond : mmio_region) (mem : jailhouse_memory)
    : ST mstate unit :=
  mmio_region_unregister beyond (virt_start mem).

(** ** The table as a list of regions *)
Definition active (t : mmio_table) : list mmio_region :=
  take (Z.to_nat (num_mmio_regions t)) (regions t).

Definition region_ok (r : mmio_region) : Prop :=
  0 <= r_start r /\ 0 <= r_size r /\ r_start r + r_size r < 2 ^ 64.

Definition before (r1 r2 : mmio_region) : Prop :=
  r_start r1 <= r_start r2 /\ r_start r1 + r_size r1 <= r_start r2.

(** The access [a], [sz] lies in the region. *)
Definition covers (a sz : Z) (r : mmio_region) : Prop :=
  r_start r <= a /\ a + sz <= r_start r + r_size r.
#[global] Instance covers_dec a sz r : Decision (covers a sz r).
Proof. unfold covers. apply _. Defined.

Record table_ok (t : mmio_table) : Prop := {
  t_num : 0 <= num_mmio_regions t <= max_mmio_regions t;
  t_max : max_mmio_regions t < 2 ^ 31;
  t_len : length (regions t) = Z.to_nat (max_mmio_regions t);
  t_ok : Forall region_ok (active t);
  t_sorted : StronglySorted before (active t)
}.

(** The reference definition of the lookup: the first region that covers the
    access. *)
Definition lookup_region (l : list mmio_region) (a sz : Z) : Z :=
  match list_find (covers a sz) l with Some (i, _) => Z.of_nat i | None => -1 end.

Lemma sorted_lookup {A} (R : A -> A -> Prop) (l : list A) i j x y :
  StronglySorted R l -> (i < j)%nat -> l !! i = Some x -> l !! j = Some y -> R x y.
Proof.
  intros Hs. revert i j. induction Hs as [|z l Hs IH Hz]; intros i j Hij Hi Hj; [done|].
  destruct j as [|j]; [lia|]. simpl in Hj. destruct i as [|i].
  - injection Hi as ->. rewrite Forall_forall in Hz. apply Hz. by eapply list_elem_of_lookup_2.
  - simpl in Hi. eapply IH; [|done..]. lia.
Qed.

Lemma active_lookup t (i : nat) r :
  (Z.of_nat i < num_mmio_regions t) -> regions t !! i = Some r -> active t !! i = Some r.
Proof. intros Hi Hr. unfold active. rewrite lookup_take_lt by lia. done. Qed.

Lemma active_length t : table_ok t -> Z.of_nat (length (active t)) = num_mmio_regions t.
Proof.
  intros [[??] ? Hl _ _]. unfold active. rewrite length_take, Hl. lia.
Qed.

(** *** The search *)
Section Search.
Context (t : mmio_table) (Ht : table_ok t) (a sz : Z) (Ha : 0 <= a) (Hsz : 0 < sz)
  (Hend : a + sz < 2 ^ 64).

Lemma active_ge (i : Z) :
  0 <= i < num_mmio_regions t -> exists r, aget (regions t) i = Some r /\
    active t !! Z.to_nat i = Some r /\ region_ok r.
Proof.
  intros Hi. destruct (aget_in_range (regions t) i) as [r Hr].
  { rewrite (t_len _ Ht). pose proof (t_num _ Ht). lia. }
  exists r. assert (active t !! Z.to_nat i = Some r) as Hact.
  { apply active_lookup; [lia|]. unfold aget in Hr. by zcase_in Hr. }
  split_and!; [done|done|]. eapply Forall_lookup_1; [apply Ht|done].
Qed.

(** What a range of indices has to contain for the search to succeed. *)
Definition none_covers (lo hi : Z) : Prop :=
  forall i r, lo <= Z.of_nat i < hi -> active t !! i = Some r -> ~ covers a sz r.

Lemma find_region_loop_spec fuel rs n :
  0 <= rs -> 0 <= n <= Z.of_nat fuel -> rs + n <= num_mmio_regions t ->
  exists res, find_region_loop fuel (regions t) a sz rs n = Some res /\
    ((res = -1 /\ none_covers rs (rs + n)) \/
     (0 <= res /\ exists r, active t !! Z.to_nat res = Some r /\ covers a sz r)).
Proof.
  revert rs n. induction fuel as [|fuel IH]; intros rs n Hrs Hn Hin; simpl.
  - assert (n = 0) as -> by lia. simpl. eexists. split; [done|]. left. split; [done|].
    intros i r ?. lia.
  - zcase; [|assert (n = 0) as -> by lia; eexists; split; [done|]; left; split; [done|];
      intros i r ?; lia].
    pose proof (t_num _ Ht). pose proof (t_max _ Ht).
    assert (0 <= n / 2 < n) as Hhalf by (split; [apply Z.div_pos; lia|apply Z.div_lt; lia]).
    rewrite (u32_small (rs + n / 2)) by lia. set (m := rs + n / 2) in *.
    destruct (active_ge m) as (r & Hr & Hact & Hok); [lia|]. rewrite Hr. simpl.
    destruct Hok as (Hr0 & Hr1 & Hr2).
    rewrite (u64_small (r_start r + r_size r)), (u64_small (a + sz)) by lia.
    zcase; [|zcase].
    + rewrite u32_small by lia. destruct (IH rs (m - rs)) as (res & Hres & Hcase); [lia..|].
      exists res. split; [done|]. destruct Hcase as [[-> Hnone]|?]; [left|by right].
      split; [done|]. intros i r' Hi Hr' [Hc1 Hc2].
      destruct (decide (Z.of_nat i < m)) as [|Hge]; [eapply (Hnone i); [lia|done|split; lia]|].
      destruct (decide (Z.of_nat i = m)) as [Hm|]; [rewrite <- Hm, Nat2Z.id in Hact; simplify_eq; lia|].
      pose proof (sorted_lookup _ _ (Z.to_nat m) i _ _ (t_sorted _ Ht) ltac:(lia) Hact Hr') as [??].
      lia.
    + rewrite !u32_small by lia.
      destruct (IH (m + 1) (n - (m + 1 - rs))) as (res & Hres & Hcase); [lia..|].
      exists res. split; [done|]. destruct Hcase as [[-> Hnone]|?]; [left|by right].
      split; [done|]. intros i r' Hi Hr' [Hc1 Hc2].
      destruct (decide (m < Z.of_nat i)) as [|Hge]; [eapply (Hnone i); [lia|done|split; lia]|].
      destruct (decide (Z.of_nat i = m)) as [Hm|]; [rewrite <- Hm, Nat2Z.id in Hact; simplify_eq; lia|].
      pose proof (sorted_lookup _ _ i (Z.to_nat m) _ _ (t_sorted _ Ht) ltac:(lia) Hr' Hact) as [??].
      lia.
    + exists m. split; [done|]. right. split; [lia|]. exists r. split; [done|]. split; lia.
Qed.

(** At most one region covers an access. *)
Lemma covers_unique i j ri rj :
  active t !! i = Some ri -> active t !! j = Some rj -> covers a sz ri -> covers a sz rj -> i = j.
Proof.
  intros Hi Hj [Hi1 Hi2] [Hj1 Hj2]. destruct (lt_eq_lt_dec i j) as [[Hlt| ->]|Hlt]; [|done|].
  - pose proof (sorted_lookup _ _ i j _ _ (t_sorted _ Ht) Hlt Hi Hj) as [??]. lia.
  - pose proof (sorted_lookup _ _ j i _ _ (t_sorted _ Ht) Hlt Hj Hi) as [??]. lia.
Qed.

Lemma find_region_lookup : find_region t a sz = Some (lookup_region (active t) a sz).
Proof.
  pose proof (t_num _ Ht). unfold find_region, lookup_region.
  destruct (find_region_loop_spec (Z.to_nat (num_mmio_regions t)) 0 (num_mmio_regions t))
    as (res & -> & Hcase); [lia..|]. f_equal.
  destruct (list_find (covers a sz) (active t)) as [[i r]|] eqn:Hf.
  - apply list_find_Some in Hf as (Hi & Hc & _). destruct Hcase as [[-> Hn]|(H0 & r' & Hr' & Hc')].
    + exfalso. apply (Hn i r); [|done|done]. apply lookup_lt_Some in Hi as Hlt.
      rewrite <- (active_length t) by done. lia.
    + rewrite (covers_unique i (Z.to_nat res) r r') by done. lia.
  - destruct Hcase as [[-> _]|(H0 & r' & Hr' & Hc')]; [done|].
    apply list_find_None in Hf. by eapply Forall_lookup_1 in Hf.
Qed.

End Search.

(** *** Writers *)
Definition with_region (i : Z) (r : mmio_region) (t : mmio_table) : mmio_table :=
  mk_table (num_mmio_regions t) (max_mmio_regions t) (<[Z.to_nat i := r]> (regions t)).
Definition with_num (n : Z) (t : mmio_table) : mmio_table :=
  mk_table n (max_mmio_regions t) (regions t).

Definition in_table (t : mmio_table) (i : Z) : Prop := 0 <= i < Z.of_nat (length (regions t)).

Lemma with_region_length i r t : length (regions (with_region i r t)) = length (regions t).
Proof. apply length_insert. Qed.

Lemma with_region_twice i r1 r2 t : with_region i r2 (with_region i r1 t) = with_region i r2 t.
Proof. unfold with_region. simpl. by rewrite list_insert_insert_eq. Qed.

Lemma aget_with_region i r t : in_table t i -> aget (regions (with_region i r t)) i = Some r.
Proof. intros Hi. apply aget_insert_eq. done. Qed.

Lemma store_region_run i f t sn r :
  aget (regions t) i = Some r ->
  store_region i f (mk_mstate t sn) =
    Some (tt, mk_mstate (with_region i (f r) t) (sn ++ [with_region i (f r) t])).
Proof.
  intros Hr. unfold store_region, store. simpl. rewrite Hr. simpl.
  pose proof (aget_Some_range _ _ _ Hr). rewrite aset_in_range by done. done.
Qed.

(** The region that a copy reads. *)
Definition source (beyond : mmio_region) (t : mmio_table) (i : Z) : option mmio_region :=
  if i =? max_mmio_regions t then Some beyond else aget (regions t) i.

(** A copy: the intermediate tables have an empty region at the target. *)
Lemma copy_region_run beyond src dst t sn r :
  in_table t dst -> src <> dst -> dst <> max_mmio_regions t -> source beyond t src = Some r ->
  exists mid, copy_region beyond src dst (mk_mstate t sn) =
    Some (tt, mk_mstate (with_region dst r t) (sn ++ mid ++ [with_region dst r t])) /\
    Forall (fun t' => exists e, t' = with_region dst e t /\ r_size e = 0 /\
      (Some (r_start e) = r_start <$> aget (regions t) dst \/ r_start e = r_start r)) mid.
Proof.
  intros Hd Hne Hmax Hs. destruct (aget_in_range (regions t) dst) as [d Hdst]; [done|].
  set (e1 := set_r_size 0 d). set (e2 := set_r_start (r_start r) e1).
  set (e3 := set_r_handler (r_handler r) (r_arg r) e2).
  exists [with_region dst e1 t; with_region dst e2 t; with_region dst e3 t].
  split; [|rewrite Hdst; repeat constructor; eexists; eauto].
  unfold copy_region. erewrite bind_run by by apply store_region_run. fold e1.
  assert (load_region beyond src
    (mk_mstate (with_region dst e1 t) (sn ++ [with_region dst e1 t])) =
    Some (r, mk_mstate (with_region dst e1 t) (sn ++ [with_region dst e1 t]))) as Hl.
  { unfold load_region. simpl. unfold source in Hs. destruct (src =? max_mmio_regions t) eqn:E.
    { by injection Hs as ->. }
    destruct Hd as [Hd _]. rewrite aget_insert_ne by (done || congruence). by rewrite Hs. }
  erewrite bind_run by apply Hl.
  assert (Hin : forall e, in_table (with_region dst e t) dst).
  { intros e. unfold in_table. by rewrite with_region_length. }
  erewrite bind_run by (apply store_region_run; by apply aget_with_region).
  rewrite with_region_twice. fold e2.
  erewrite bind_run by (apply store_region_run; by apply aget_with_region).
  rewrite with_region_twice. fold e3.
  erewrite store_region_run by by apply aget_with_region. rewrite with_region_twice.
  assert (set_r_size (r_size r) e3 = r) as -> by by destruct r.
  by rewrite <- !app_assoc.
Qed.

(** **** What a concurrent lookup can see *)

Definition unsigned (r : mmio_region) : Prop := 0 <= r_start r /\ 0 <= r_size r.

(** Every region that covers anything is one of [S]. *)
Definition only_of (S : list mmio_region) (t : mmio_table) : Prop :=
  length (regions t) = Z.to_nat (max_mmio_regions t) /\
  (0 <= num_mmio_regions t <= max_mmio_regions t /\ max_mmio_regions t < 2 ^ 31) /\
  Forall unsigned (regions t) /\
  forall i r, Z.of_nat i < num_mmio_regions t -> regions t !! i = Some r -> 0 < r_size r -> r ∈ S.

Lemma only_of_with S i r t :
  only_of S t -> 0 <= i -> unsigned r -> (0 < r_size r -> r ∈ S) ->
  only_of S (with_region i r t).
Proof.
  intros (Hl & Hn & H0 & Hs) Hi Hr0 Hr.
  split_and!; [by rewrite with_region_length|cbn; lia..|by apply Forall_insert|].
  intros j r' Hj Hr'. simpl in Hr', Hj.
  apply list_lookup_insert_Some in Hr' as [(? & <- & _)|[_ Hr']]; [done|eauto].
Qed.

Lemma only_start S t i r : only_of S t -> aget (regions t) i = Some r -> unsigned r.
Proof.
  intros (_ & _ & H0 & _) Hr. unfold aget in Hr. zcase_in Hr; [done|].
  by eapply Forall_lookup_1 in H0.
Qed.

Definition all_only (S : list mmio_region) (s : mstate) : Prop :=
  only_of S (tab s) /\ Forall (only_of S) (seen s).

Lemma copy_only beyond S src dst t sn r :
  all_only S (mk_mstate t sn) -> in_table t dst -> src <> dst -> dst <> max_mmio_regions t ->
  source beyond t src = Some r -> unsigned r -> (0 < r_size r -> r ∈ S) ->
  exists sn', copy_region beyond src dst (mk_mstate t sn) =
      Some (tt, mk_mstate (with_region dst r t) sn') /\
    all_only S (mk_mstate (with_region dst r t) sn').
Proof.
  intros [Ht Hsn] Hd Hne Hmax Hs Hr0 Hr. simpl in Ht, Hsn.
  destruct (copy_region_run beyond src dst t sn r) as (mid & -> & Hmid); [done..|].
  destruct (aget_in_range (regions t) dst Hd) as [d Hdst].
  destruct Hd as [Hd _]. eexists. split; [done|]. assert (only_of S (with_region dst r t)).
  { by apply only_of_with. }
  split; [done|]. simpl. rewrite !Forall_app. split_and!; [done| |by constructor].
  eapply Forall_impl; [exact Hmid|]. intros t' (e & -> & He & Hst).
  destruct Hr0 as [Hr0 ?]. apply only_of_with; [done..| |lia]. split; [|lia]. rewrite Hdst in Hst.
  destruct Hst as [[= ->]| ->]; [|done]. by destruct (only_start S t dst d).
Qed.

Lemma in_table_with i j r t : in_table (with_region i r t) j <-> in_table t j.
Proof. unfold in_table. by rewrite with_region_length. Qed.

(** The loops move a block of regions by one. *)
Lemma shift_up_run beyond S count : forall t sn p m x q,
  all_only S (mk_mstate t sn) -> length m = count ->
  regions t = p ++ m ++ x :: q -> Z.of_nat (length (p ++ m)) < num_mmio_regions t ->
  exists sn', shift_up beyond count (Z.of_nat (length (p ++ m))) (mk_mstate t sn) =
      Some (tt, mk_mstate (mk_table (num_mmio_regions t) (max_mmio_regions t)
        (p ++ match m with [] => [x] | y :: _ => y :: m end ++ q)) sn') /\
    all_only S (mk_mstate (mk_table (num_mmio_regions t) (max_mmio_regions t)
        (p ++ match m with [] => [x] | y :: _ => y :: m end ++ q)) sn').
Proof.
  induction count as [|count IH]; intros t sn p m x q Hok Hlen Hreg Hnum.
  { destruct m; [|done]. exists sn. cbn [shift_up app]. simpl in Hreg. rewrite <- Hreg.
    by destruct t. }
  destruct m as [|y m _] using rev_ind; [done|].
  rewrite length_app in Hlen. simpl in Hlen.
  assert (Hpos : Z.of_nat (length (p ++ m ++ [y])) = Z.of_nat (length (p ++ m)) + 1).
  { rewrite !length_app. simpl. lia. }
  pose proof Hok as [(Hl & Hmx & H0 & Hs) _]. simpl in Hl, Hmx, H0, Hs.
  assert (Hsrc : regions t !! length (p ++ m) = Some y).
  { rewrite Hreg. replace (p ++ (m ++ [y]) ++ x :: q) with ((p ++ m) ++ y :: x :: q)
      by (by rewrite <- !app_assoc). by rewrite list_lookup_middle. }
  assert (Hlt : Z.of_nat (length (p ++ m)) + 1 < Z.of_nat (length (regions t))).
  { rewrite Hl. rewrite Hpos in Hnum. lia. }
  destruct (copy_only beyond S (Z.of_nat (length (p ++ m))) (Z.of_nat (length (p ++ m)) + 1) t sn y)
    as (sn1 & H1 & Hok1); try done.
  { unfold in_table. lia. }
  { lia. }
  { lia. }
  { unfold source. zcase; [lia|]. unfold aget. zcase; [lia|]. by rewrite Nat2Z.id. }
  { by eapply Forall_lookup_1 in H0. }
  { eapply Hs; [|done]. lia. }
  cbn [shift_up]. rewrite Hpos. rewrite Z.add_simpl_r. erewrite bind_run by exact H1.
  set (t1 := with_region (Z.of_nat (length (p ++ m)) + 1) y t) in *.
  assert (Hreg1 : regions t1 = p ++ m ++ y :: y :: q).
  { unfold t1, with_region. simpl. rewrite Hreg.
    replace (Z.to_nat (Z.of_nat (length (p ++ m)) + 1)) with (length ((p ++ m) ++ [y]))
      by (rewrite length_app; simpl; lia).
    replace (p ++ (m ++ [y]) ++ x :: q) with (((p ++ m) ++ [y]) ++ x :: q)
      by (by rewrite <- !app_assoc).
    rewrite insert_app_r_alt by done. rewrite Nat.sub_diag. simpl. by rewrite <- !app_assoc. }
  destruct (IH t1 sn1 p m y (y :: q)) as (sn2 & H2 & Hok2);
    [done|lia|done|simpl; lia|].
  exists sn2. cbn [num_mmio_regions max_mmio_regions t1 with_region] in H2, Hok2.
  assert (Hfin : p ++ match m with [] => [y] | z :: _ => z :: m end ++ y :: q =
    p ++ match m ++ [y] with [] => [x] | z :: _ => z :: m ++ [y] end ++ q).
  { f_equal. destruct m; simpl; [done|]. by rewrite <- app_assoc. }
  rewrite <- Hfin. done.
Qed.

Lemma shift_down_run beyond S m : forall t sn p x z q,
  all_only S (mk_mstate t sn) -> regions t = p ++ x :: m ++ q ->
  Z.of_nat (length (p ++ x :: m)) = num_mmio_regions t ->
  source beyond t (num_mmio_regions t) = Some z -> unsigned z ->
  (0 < r_size z -> z ∈ S) ->
  let t' := mk_table (num_mmio_regions t) (max_mmio_regions t) (p ++ m ++ z :: q) in
  exists sn', shift_down beyond (Datatypes.S (length m)) (Z.of_nat (length p)) (mk_mstate t sn) =
      Some (tt, mk_mstate t' sn') /\ all_only S (mk_mstate t' sn').
Proof.
  induction m as [|y m IH]; intros t sn p x z q Hok Hreg Hnum Hz Hz0 HzS t';
    pose proof Hok as [(Hl & Hmx & H0 & Hs) _]; simpl in Hl, Hmx, H0, Hs;
    rewrite length_app in Hnum; simpl in Hnum.
  - destruct (copy_only beyond S (Z.of_nat (length p) + 1) (Z.of_nat (length p)) t sn z)
      as (sn1 & H1 & Hok1); try done; [|lia|lia| |].
    { unfold in_table. rewrite Hreg, length_app. simpl. lia. }
    { replace (Z.of_nat (length p) + 1) with (num_mmio_regions t) by lia. done. }
    exists sn1. assert (with_region (Z.of_nat (length p)) z t = t') as <-.
    { unfold t', with_region. f_equal. rewrite Hreg, Nat2Z.id, insert_app_r_alt, Nat.sub_diag by done.
      done. }
    cbn [shift_down length]. erewrite bind_run by exact H1. done.
  - assert (Hsrc : regions t !! Datatypes.S (length p) = Some y).
    { rewrite Hreg. replace (p ++ x :: (y :: m) ++ q) with ((p ++ [x]) ++ y :: m ++ q)
        by (by rewrite <- app_assoc).
      apply list_lookup_middle. rewrite length_app. simpl. lia. }
    destruct (copy_only beyond S (Z.of_nat (length p) + 1) (Z.of_nat (length p)) t sn y)
      as (sn1 & H1 & Hok1); try done; [|lia|lia| | | |].
    { unfold in_table. rewrite Hreg, length_app. simpl. lia. }
    { unfold source. zcase; [lia|]. unfold aget. zcase; [lia|].
      by replace (Z.to_nat (Z.of_nat (length p) + 1)) with (Datatypes.S (length p)) by lia. }
    { by eapply Forall_lookup_1 in H0. }
    { eapply (Hs (Datatypes.S (length p))); [lia|done]. }
    set (t1 := with_region (Z.of_nat (length p)) y t) in *.
    assert (Hreg1 : regions t1 = (p ++ [y]) ++ y :: m ++ q).
    { unfold t1, with_region. simpl. rewrite Hreg, Nat2Z.id, insert_app_r_alt, Nat.sub_diag by done.
      by rewrite <- app_assoc. }
    destruct (IH t1 sn1 (p ++ [y]) y z q) as (sn2 & H2 & Hok2); try done.
    { rewrite !length_app. simpl. lia. }
    { unfold source in *. cbn [t1 with_region num_mmio_regions max_mmio_regions].
      destruct (num_mmio_regions t =? max_mmio_regions t); [done|].
      unfold t1, with_region. cbn [regions]. rewrite aget_insert_ne; [done|lia|lia]. }
    exists sn2. cbn [t1 with_region num_mmio_regions max_mmio_regions] in H2, Hok2.
    rewrite length_app in H2. simpl length in H2.
    replace (Z.of_nat (length p + 1)) with (Z.of_nat (length p) + 1) in H2 by lia.
    rewrite <- app_assoc in H2, Hok2. split; [|exact Hok2].
    change (shift_down beyond (Datatypes.S (length (y :: m))) (Z.of_nat (length p)))
      with (_ ← copy_region beyond (Z.of_nat (length p) + 1) (Z.of_nat (length p));
            shift_down beyond (Datatypes.S (length m)) (Z.of_nat (length p) + 1)).
    erewrite bind_run by exact H1. exact H2.
Qed.

(** **** Registration *)
Lemma insert_index_split l start :
  exists l1 l2, l = l1 ++ l2 /\ insert_index l start = Z.of_nat (length l1) /\
    Forall (fun r => r_start r <= start) l1 /\
    match l2 with [] => True | r :: _ => start < r_start r end.
Proof.
  induction l as [|r l IH]; simpl.
  - by exists [], [].
  - zcase.
    + by exists [], (r :: l).
    + destruct IH as (l1 & l2 & -> & -> & H1 & H2). exists (r :: l1), l2.
      split_and!; [done|simpl length; lia|by constructor|done].
Qed.

(** An empty or inactive entry may have anything else in it. *)
Lemma only_of_with_inactive S i r t :
  only_of S t -> num_mmio_regions t <= i -> 0 <= i -> unsigned r ->
  only_of S (with_region i r t).
Proof.
  intros (Hl & Hn & H0 & Hs) Hi Hi0 Hr0.
  split_and!; [by rewrite with_region_length|cbn; lia..|by apply Forall_insert|].
  intros j r' Hj Hr'. simpl in Hr', Hj.
  apply list_lookup_insert_Some in Hr' as [(? & <- & _)|[_ Hr']]; [lia|eauto].
Qed.

Lemma only_of_grow S t r :
  only_of S t -> 0 <= num_mmio_regions t < max_mmio_regions t ->
  aget (regions t) (num_mmio_regions t) = Some r -> r_size r = 0 ->
  only_of S (with_num (num_mmio_regions t + 1) t).
Proof.
  intros (Hl & Hn & H0 & Hs) Hlt Hr Hz. split_and!; [done|simpl; lia..|done|].
  intros i r' Hi Hr' Hpos. simpl in *. destruct (decide (Z.of_nat i = num_mmio_regions t)) as [He|].
  - unfold aget in Hr. zcase_in Hr; [lia|]. rewrite <- He, Nat2Z.id in Hr. simplify_eq. lia.
  - apply (Hs i); [lia|done..].
Qed.

(** The stores that fill an entry. *)
Lemma fill_run S i start sz h arg t sn :
  all_only S (mk_mstate t sn) -> in_table t i -> 0 <= start -> 0 <= sz -> (0 < sz -> mk_region start sz h arg ∈ S) ->
  exists sn', (_ ← store_region i (set_r_size 0); _ ← store_region i (set_r_start start);
               _ ← store_region i (set_r_handler h arg); _ ← store_region i (set_r_size sz);
               mret true) (mk_mstate t sn) =
      Some (true, mk_mstate (with_region i (mk_region start sz h arg) t) sn') /\
    all_only S (mk_mstate (with_region i (mk_region start sz h arg) t) sn').
Proof.
  intros [Ht Hsn] Hi Hst Hsz HS. simpl in Ht, Hsn. destruct (aget_in_range (regions t) i) as [d Hd]; [done|].
  destruct (only_start _ _ _ _ Ht Hd) as [Hd0 _].
  assert (Hin : forall e, in_table (with_region i e t) i) by (intros; by apply in_table_with).
  assert (Hw : forall e, 0 <= r_start e -> r_size e = 0 -> only_of S (with_region i e t)).
  { intros e He0 He. destruct Hi. apply only_of_with; [done..|split; lia|lia]. }
  erewrite bind_run by by apply store_region_run.
  do 3 (erewrite bind_run by (apply store_region_run; by apply aget_with_region);
        rewrite with_region_twice).
  eexists. split; [done|]. destruct Hi as [Hi _].
  assert (only_of S (with_region i (mk_region start sz h arg) t)) by by apply only_of_with.
  split; [done|]. simpl. rewrite !Forall_app. split_and!; try (constructor; [|done]); auto.
Qed.

(** "Set and commit a dummy region at the end of the list" and extend it. *)
Lemma grow_run S t l d q :
  only_of S t -> 0 <= num_mmio_regions t < max_mmio_regions t -> max_mmio_regions t < 2 ^ 31 ->
  regions t = l ++ d :: q -> Z.of_nat (length l) = num_mmio_regions t ->
  let num := num_mmio_regions t in
  exists e sn, (_ ← store_region num (set_r_start (u64 (-1))); _ ← store_region num (set_r_size 0);
                store_num (u32 (num + 1))) (mk_mstate t []) =
      Some (tt, mk_mstate (mk_table (num + 1) (max_mmio_regions t) (l ++ e :: q)) sn) /\
    all_only S (mk_mstate (mk_table (num + 1) (max_mmio_regions t) (l ++ e :: q)) sn).
Proof.
  intros HokS Hnum Hmax Hreg Hlen num. pose proof HokS as (Hl & _ & _ & _).
  assert (Hin : in_table t num) by (unfold in_table; rewrite Hl; lia).
  assert (Hlk : aget (regions t) num = Some d).
  { unfold aget. zcase; [lia|]. rewrite Hreg. apply list_lookup_middle. lia. }
  erewrite bind_run by by apply store_region_run.
  erewrite bind_run by (apply store_region_run; by apply aget_with_region).
  rewrite with_region_twice. set (e := set_r_size 0 (set_r_start (u64 (-1)) d)).
  rewrite (u32_small (num + 1)) by lia. set (t2 := with_region num e t).
  exists e. eexists.
  assert (Hok2 : only_of S t2) by (apply only_of_with_inactive; [done|lia|lia|by split]).
  assert (with_num (num + 1) t2 = mk_table (num + 1) (max_mmio_regions t) (l ++ e :: q)) as <-.
  { unfold with_num, t2, with_region. simpl. f_equal. rewrite Hreg, insert_app_r_alt by lia.
    by replace (Z.to_nat num - length l)%nat with 0%nat by lia. }
  assert (Hok3 : only_of S (with_num (num + 1) t2)).
  { apply (only_of_grow S t2 e); [done|done| |done]. by apply aget_with_region. }
  split; [done|]. split; [done|]. cbn [seen]. rewrite !Forall_app, !Forall_singleton.
  split_and!; [constructor| |done|done]. apply only_of_with_inactive; [done|lia|lia|].
  destruct (only_start _ _ _ _ HokS Hlk). by split; [change (0 <= u64 (-1))|].
Qed.

Lemma mmio_region_register_run beyond t start sz h arg :
  only_of (active t) t -> 0 <= num_mmio_regions t < max_mmio_regions t ->
  max_mmio_regions t < 2 ^ 31 -> 0 <= start -> 0 <= sz ->
  exists l1 l2 q sn', active t = l1 ++ l2 /\
    Forall (fun r => r_start r <= start) l1 /\
    match l2 with [] => True | r :: _ => start < r_start r end /\
    let t' := mk_table (num_mmio_regions t + 1) (max_mmio_regions t)
                (l1 ++ mk_region start sz h arg :: l2 ++ q) in
    mmio_region_register beyond start sz h arg (mk_mstate t []) = Some (true, mk_mstate t' sn') /\
    all_only (mk_region start sz h arg :: active t) (mk_mstate t' sn').
Proof.
  intros Hok Hnum Hmax Hst Hsz. set (new := mk_region start sz h arg). set (S := new :: active t).
  assert (HokS : only_of S t).
  { destruct Hok as (? & ? & ? & Hs). do 3 (split; [done|]). intros i r Hi Hr Hp. right. eauto. }
  destruct (insert_index_split (active t) start) as (l1 & l2 & Hl12 & Hidx & Hl1 & Hl2).
  pose proof Hok as (Hlen & _ & _ & _). set (num := num_mmio_regions t) in *.
  assert (Z.of_nat (length (l1 ++ l2)) = num) as Hlen12.
  { rewrite <- Hl12. unfold active. rewrite length_take, Hlen. fold num. lia. }
  destruct (drop (Z.to_nat num) (regions t)) as [|d q] eqn:Hdrop.
  { apply (f_equal length) in Hdrop. rewrite length_drop, Hlen in Hdrop. simpl in Hdrop. lia. }
  assert (Hreg : regions t = (l1 ++ l2) ++ d :: q).
  { rewrite <- Hl12, <- Hdrop. unfold active. by rewrite take_drop. }
  unfold mmio_region_register. erewrite bind_run by done. cbn [tab]. fold num.
  zcase; [lia|]. unfold active in Hidx. fold num in Hidx. rewrite Hidx.
  destruct (grow_run S t (l1 ++ l2) d q) as (e & sn3 & H3 & Hok3); [done..|]. fold num in H3, Hok3.
  erewrite bind3_run by exact H3. set (t3 := mk_table _ _ _) in Hok3 |- *.
  destruct (shift_up_run beyond S (length l2) t3 sn3 l1 l2 e q Hok3 eq_refl)
    as (sn4 & H4 & Hok4); [unfold t3; by rewrite <- app_assoc|rewrite Hlen12; simpl; lia|].
  rewrite Hlen12 in H4.
  replace (Z.to_nat (num - Z.of_nat (length l1))) with (length l2)
    by (rewrite length_app in Hlen12; lia).
  erewrite bind_run by exact H4.
  set (t4 := mk_table (num_mmio_regions t3) (max_mmio_regions t3) _) in *.
  destruct (fill_run S (Z.of_nat (length l1)) start sz h arg t4 sn4) as (sn5 & H5 & Hok5).
  { done. }
  { unfold in_table, t4. cbn [regions]. rewrite !length_app. destruct l2; simpl; lia. }
  { done. }
  { done. }
  { intros _. left. }
  exists l1, l2, q, sn5. do 3 (split; [done|]).
  assert (with_region (Z.of_nat (length l1)) new t4 =
    mk_table (num + 1) (max_mmio_regions t) (l1 ++ new :: l2 ++ q)) as <-; [|done].
  unfold with_region, t4, t3. cbn [num_mmio_regions max_mmio_regions regions].
  f_equal. rewrite Nat2Z.id, insert_app_r_alt, Nat.sub_diag by done. by destruct l2.
Qed.

(** **** Removal *)
Lemma table_only t :
  table_ok t -> Forall unsigned (regions t) -> only_of (active t) t.
Proof.
  intros Ht H0. pose proof (t_num _ Ht). pose proof (t_max _ Ht).
  split_and!; [apply Ht|lia..|done|].
  intros i r Hi Hr _. eapply list_elem_of_lookup_2, active_lookup; eauto.
Qed.

Lemma active_split t : table_ok t -> regions t = active t ++ drop (Z.to_nat (num_mmio_regions t)) (regions t).
Proof. intros _. unfold active. by rewrite take_drop. Qed.

Lemma mmio_region_unregister_run beyond t start p r m z :
  table_ok t -> Forall unsigned (regions t) ->
  active t = p ++ r :: m -> covers start 1 r -> 0 <= start -> start + 1 < 2 ^ 64 ->
  source beyond t (num_mmio_regions t) = Some z -> unsigned z ->
  exists sn q, let t' := mk_table (num_mmio_regions t - 1) (max_mmio_regions t) (p ++ m ++ z :: q) in
    mmio_region_unregister beyond start (mk_mstate t []) = Some (tt, mk_mstate t' sn) /\
    regions t = (p ++ r :: m) ++ q /\
    Forall (only_of (if decide (r_size z = 0) then active t else z :: active t)) sn.
Proof.
  intros Ht H0 Hact Hc Hst0 Hst Hz Hz0.
  set (S := if decide (r_size z = 0) then active t else z :: active t).
  assert (only_of S t) as HokS.
  { destruct (table_only t Ht H0) as (? & ? & ? & Hs). do 3 (split; [done|]).
    intros i r' Hi Hr' Hp. unfold S. case_decide; [|right]; eauto. }
  assert (0 < r_size z -> z ∈ S) as HzS.
  { intros Hp. unfold S. case_decide; [lia|left]. }
  unfold mmio_region_unregister.
  assert (find_region t start 1 = Some (Z.of_nat (length p))) as Hf.
  { rewrite find_region_lookup by (done || lia). f_equal. unfold lookup_region.
    assert (active t !! length p = Some r) as Hlk by (rewrite Hact; by apply list_lookup_middle).
    destruct (list_find (covers start 1) (active t)) as [[i x]|] eqn:Hl.
    - apply list_find_Some in Hl as (Hi & Hci & _). f_equal.
      by apply (covers_unique t Ht start 1 ltac:(lia) i (length p) x r).
    - apply list_find_None in Hl. by eapply Forall_lookup_1 in Hl. }
  erewrite bind_run; [|unfold StateMonad.from_option; simpl; by rewrite Hf].
  zcase; [|lia]. erewrite bind_run by done. cbn [tab].
  pose proof (active_length t Ht) as Hlen. rewrite Hact, length_app in Hlen. simpl in Hlen.
  replace (Z.to_nat (num_mmio_regions t - Z.of_nat (length p))) with (Datatypes.S (length m)) by lia.
  pose proof (active_split t Ht) as Hreg. rewrite Hact in Hreg.
  set (q := drop (Z.to_nat (num_mmio_regions t)) (regions t)) in *.
  destruct (shift_down_run beyond S m t [] p r z q) as (sn & Hrun & Hok'); try done.
  { by rewrite Hreg at 1; rewrite <- app_assoc. }
  { rewrite length_app. simpl. lia. }
  eexists _, q. cbv zeta. split; [|split; [done|]].
  - erewrite bind_run by exact Hrun. cbv beta. unfold store_num, store. simpl. reflexivity.
  - destruct Hok' as [Ht' Hsn]. apply Forall_app. split; [done|]. apply Forall_singleton.
    destruct Ht' as (Hl' & Hn' & H0' & Hs'). simpl in *. split_and!; simpl; [done|lia..|done|].
    intros i r' Hi Hr' Hp. apply (Hs' i); [lia|done..].
Qed.

(** A lookup in any table that has only regions of [S] finds one of them. *)
Lemma find_region_loop_sound l a sz fuel : forall rs n,
  0 <= rs -> 0 <= n <= Z.of_nat fuel -> rs + n <= Z.of_nat (length l) -> rs + n < 2 ^ 31 ->
  exists res, find_region_loop fuel l a sz rs n = Some res /\
    (res = -1 \/ rs <= res < rs + n /\ exists r, aget l res = Some r /\ r_start r <= a /\
      u64 (a + sz) <= u64 (r_start r + r_size r)).
Proof.
  induction fuel as [|fuel IH]; intros rs n Hrs Hn Hlen Hlt; simpl.
  { zcase; [lia|]. eexists. split; [done|by left]. }
  zcase; [|eexists; split; [done|by left]].
  assert (0 <= n / 2 < n) as Hhalf by (split; [apply Z.div_pos; lia|apply Z.div_lt; lia]).
  rewrite (u32_small (rs + n / 2)) by lia. set (m := rs + n / 2) in *.
  destruct (aget_in_range l m) as [r Hr]; [lia|]. rewrite Hr. simpl. zcase; [|zcase].
  - rewrite u32_small by lia. destruct (IH rs (m - rs)) as (res & Hf & Hc); [lia..|].
    exists res. split; [done|]. destruct Hc as [?|[? ?]]; [by left|right]. split; [lia|done].
  - rewrite !u32_small by lia.
    destruct (IH (m + 1) (n - (m + 1 - rs))) as (res & Hf & Hc); [lia..|].
    exists res. split; [done|]. destruct Hc as [?|[? ?]]; [by left|right]. split; [lia|done].
  - exists m. split; [done|]. right. split; [lia|]. exists r. split_and!; [done|lia|lia].
Qed.

Definition finds_one_of (S : list mmio_region) (t : mmio_table) : Prop :=
  forall a sz, 0 <= a -> 0 < sz -> a + sz < 2 ^ 64 ->
  exists res, find_region t a sz = Some res /\
    (res = -1 \/ exists r, aget (regions t) res = Some r /\ r ∈ S /\ covers a sz r).

Lemma find_region_sound S t : only_of S t -> Forall region_ok S -> finds_one_of S t.
Proof.
  intros Hok HS a sz Ha Hsz Hend. pose proof Hok as (Hl & Hn & _ & Hs).
  destruct (find_region_loop_sound (regions t) a sz (Z.to_nat (num_mmio_regions t)) 0
    (num_mmio_regions t)) as (res & Hf & Hc); [lia..|]. exists res. split; [exact Hf|].
  destruct Hc as [?|(Hr & r & Hg & Hst & Hle)]; [by left|right].
  exists r. split; [done|]. destruct (only_start _ _ _ _ Hok Hg) as [H0 H1].
  rewrite (u64_small (a + sz)) in Hle by lia.
  assert (Hlk : regions t !! Z.to_nat res = Some r) by (unfold aget in Hg; by zcase_in Hg).
  destruct (decide (0 < r_size r)) as [Hp|Hp].
  - assert (r ∈ S) as Hin by (apply (Hs (Z.to_nat res)); [lia|done..]). split; [done|].
    rewrite Forall_forall in HS. destruct (HS r Hin) as (? & ? & ?).
    rewrite u64_small in Hle by lia. split; lia.
  - exfalso. rewrite u64_small in Hle by lia. lia.
Qed.

(** As [finds_one_of], but the lookup may also find the entry [z]. *)
Definition finds_one_of_or (z : mmio_region) (S : list mmio_region) (t : mmio_table) : Prop :=
  forall a sz, 0 <= a -> 0 < sz -> a + sz < 2 ^ 64 ->
  exists res, find_region t a sz = Some res /\
    (res = -1 \/ exists r, aget (regions t) res = Some r /\ (r = z \/ r ∈ S /\ covers a sz r)).

Lemma only_of_mono S S' t : (forall r, r ∈ S -> r ∈ S') -> only_of S t -> only_of S' t.
Proof. intros Hs (? & ? & ? & Hr). split; [done|]. split; [done|]. split; [done|]. eauto. Qed.

Lemma find_region_sound_or z S t : only_of (z :: S) t -> Forall region_ok S -> finds_one_of_or z S t.
Proof.
  intros Hok HS a sz Ha Hsz Hend. pose proof Hok as (Hl & Hn & _ & Hs).
  destruct (find_region_loop_sound (regions t) a sz (Z.to_nat (num_mmio_regions t)) 0
    (num_mmio_regions t)) as (res & Hf & Hc); [lia..|]. exists res. split; [exact Hf|].
  destruct Hc as [?|(Hr & r & Hg & Hst & Hle)]; [by left|right].
  exists r. split; [done|]. destruct (only_start _ _ _ _ Hok Hg) as [H0 H1].
  rewrite (u64_small (a + sz)) in Hle by lia.
  assert (Hlk : regions t !! Z.to_nat res = Some r) by (unfold aget in Hg; by zcase_in Hg).
  destruct (decide (0 < r_size r)) as [Hp|Hp].
  - assert (r ∈ z :: S) as [->|Hin]%elem_of_cons by (apply (Hs (Z.to_nat res)); [lia|done..]); [by left|].
    right. split; [done|]. rewrite Forall_forall in HS. destruct (HS r Hin) as (? & ? & ?).
    rewrite u64_small in Hle by lia. split; lia.
  - exfalso. rewrite u64_small in Hle by lia. lia.
Qed.

(** *** Registration keeps the table well-formed *)
Definition disjoint (r1 r2 : mmio_region) : Prop :=
  r_start r1 + r_size r1 <= r_start r2 \/ r_start r2 + r_size r2 <= r_start r1.
#[global] Instance disjoint_dec r1 r2 : Decision (disjoint r1 r2).
Proof. unfold disjoint. apply _. Defined.

Lemma StronglySorted_mid {A} (R : A -> A -> Prop) l1 l2 x :
  StronglySorted R (l1 ++ l2) -> Forall (fun y => R y x) l1 -> Forall (R x) l2 ->
  StronglySorted R (l1 ++ x :: l2).
Proof.
  induction l1 as [|y l1 IH]; simpl; intros Hs H1 H2.
  - by constructor.
  - inversion_clear Hs as [|? ? Hs' Hy]. inversion_clear H1 as [|? ? Hyx H1'].
    constructor; [by apply IH|]. apply Forall_app in Hy as [? ?]. apply Forall_app. auto.
Qed.

(** The new region fits between the regions of lower and of higher start. *)
Lemma sorted_insert l1 l2 new :
  StronglySorted before (l1 ++ l2) -> Forall region_ok (l1 ++ l2) -> 0 < r_size new ->
  Forall (disjoint new) (l1 ++ l2) -> Forall (fun r => r_start r <= r_start new) l1 ->
  match l2 with [] => True | r :: _ => r_start new < r_start r end ->
  StronglySorted before (l1 ++ new :: l2).
Proof.
  intros Hs Hok Hpos Hd H1 H2. apply Forall_app in Hok as [_ Hok2], Hd as [Hd1 Hd2].
  apply StronglySorted_mid; [done| |].
  - rewrite Forall_forall in Hd1, H1 |- *. intros r Hr. pose proof (H1 r Hr).
    destruct (Hd1 r Hr); unfold before; lia.
  - assert (Forall (fun r => r_start new < r_start r) l2) as Hgt.
    { destruct l2 as [|r l2]; [done|]. constructor; [done|].
      assert (StronglySorted before (r :: l2)) as Hs2 by by eapply StronglySorted_app_1_r.
      inversion_clear Hs2 as [|? ? _ Hr]. eapply Forall_impl; [exact Hr|].
      intros x [? _]. lia. }
    rewrite Forall_forall in Hd2, Hgt, Hok2 |- *. intros r Hr. pose proof (Hgt r Hr).
    destruct (Hok2 r Hr) as (? & ? & ?). destruct (Hd2 r Hr); unfold before; lia.
Qed.

Definition inserted (new : mmio_region) (t t' : mmio_table) : Prop :=
  exists l1 l2, active t = l1 ++ l2 /\ active t' = l1 ++ new :: l2.

Lemma register_active t new t' l1 l2 q :
  table_ok t -> active t = l1 ++ l2 ->
  t' = mk_table (num_mmio_regions t + 1) (max_mmio_regions t) (l1 ++ new :: l2 ++ q) ->
  active t' = l1 ++ new :: l2.
Proof.
  intros Ht Hl ->. pose proof (active_length t Ht) as Hlen. rewrite Hl, length_app in Hlen.
  unfold active. cbn [num_mmio_regions regions].
  replace (l1 ++ new :: l2 ++ q) with ((l1 ++ new :: l2) ++ q) by by rewrite <- app_assoc.
  rewrite take_app_le by (rewrite length_app; simpl; lia).
  apply take_ge. rewrite length_app. simpl. lia.
Qed.

Lemma register_ok beyond t start sz h arg :
  let new := mk_region start sz h arg in
  table_ok t -> Forall unsigned (regions t) -> num_mmio_regions t < max_mmio_regions t ->
  region_ok new -> 0 < sz -> Forall (disjoint new) (active t) ->
  exists s', mmio_region_register beyond start sz h arg (mk_mstate t []) = Some (true, s') /\
    table_ok (tab s') /\ inserted new t (tab s') /\ all_only (new :: active t) s' /\
    num_mmio_regions (tab s') = num_mmio_regions t + 1 /\
    max_mmio_regions (tab s') = max_mmio_regions t.
Proof.
  intros new Ht Hu Hlt Hok Hpos Hd. pose proof (t_num _ Ht). pose proof (t_max _ Ht).
  destruct (mmio_region_register_run beyond t start sz h arg)
    as (l1 & l2 & q & sn & Hl & H1 & H2 & Hrun & Hall);
    [by apply table_only|lia|done|apply Hok|lia|].
  eexists. split; [exact Hrun|]. cbn [tab].
  pose proof (register_active t new _ l1 l2 q Ht Hl eq_refl) as Hact.
  split_and!; [|by exists l1, l2|done|done|done].
  pose proof (t_ok _ Ht) as Hoks. pose proof (t_sorted _ Ht) as Hs. rewrite Hl in Hoks, Hs, Hd.
  split; [cbn; lia|done|apply Hall| |]; fold new; rewrite Hact.
  - apply Forall_app in Hoks as [? ?]. apply Forall_app. split; [done|by constructor].
  - by apply sorted_insert.
Qed.

(** **** Removal *)
Lemma unregister_ok beyond t start p r m z :
  table_ok t -> Forall unsigned (regions t) -> active t = p ++ r :: m -> covers start 1 r ->
  0 <= start -> start + 1 < 2 ^ 64 -> source beyond t (num_mmio_regions t) = Some z -> unsigned z ->
  exists s', mmio_region_unregister beyond start (mk_mstate t []) = Some (tt, s') /\
    table_ok (tab s') /\ active (tab s') = p ++ m /\
    Forall (only_of (if decide (r_size z = 0) then active t else z :: active t)) (seen s').
Proof.
  intros Ht Hu Hact Hc Hst0 Hst Hz Hzu.
  destruct (mmio_region_unregister_run beyond t start p r m z) as (sn & q & Hrun & Hreg & Hsn);
    [done..|].
  eexists. split; [exact Hrun|]. cbn [tab seen].
  pose proof (active_length t Ht) as Hlen. rewrite Hact, length_app in Hlen. simpl in Hlen.
  set (t' := mk_table _ _ _). assert (active t' = p ++ m) as Hact'.
  { unfold active, t'. cbn [num_mmio_regions regions]. rewrite app_assoc.
    rewrite take_app_le by (rewrite length_app; lia). apply take_ge. rewrite length_app. lia. }
  split_and!; [|done|done].
  pose proof (t_num _ Ht). pose proof (t_max _ Ht) as Hm. pose proof (t_len _ Ht) as Hl.
  pose proof (t_ok _ Ht) as Hoks. pose proof (t_sorted _ Ht) as Hs. rewrite Hact in Hoks, Hs.
  split; rewrite ?Hact'; [cbn; lia|exact Hm| | |].
  - cbn. rewrite <- Hl, Hreg, !length_app. simpl. lia.
  - apply Forall_app in Hoks as [? Hoks]. apply Forall_app. split; [done|].
    by inversion_clear Hoks.
  - apply StronglySorted_app in Hs as (Hx & Hp & Hr). apply StronglySorted_app.
    split_and!; [|done|by inversion_clear Hr]. intros x1 x2 ??. apply Hx; [done|by right].
Qed.

(** ** Theorems *)

(** A free entry past the last region has size 0, as the pages of the table
    are cleared when they are allocated. *)
Definition free_empty (t : mmio_table) : Prop :=
  forall i r, num_mmio_regions t <= Z.of_nat i -> regions t !! i = Some r -> r_size r = 0.

Lemma mmio_handle_access_run {W} (call : Z -> Z -> mmio_access -> W -> option (mmio_result * mmio_access * W))
    t m w :
  table_ok t -> 0 <= address m -> 0 < size m -> address m + size m < 2 ^ 64 ->
  mmio_handle_access call t m w =
    match list_find (covers (address m) (size m)) (active t) with
    | Some (_, r) => call (r_handler r) (r_arg r)
        (mk_access (address m - r_start r) (size m) (is_write m) (value m)) w
    | None => Some (MMIO_UNHANDLED, m, w)
    end.
Proof.
  intros Ht Ha Hs He.
  unfold mmio_handle_access. rewrite find_region_lookup by done. simpl. unfold lookup_region.
  destruct (list_find _ _) as [[i r]|] eqn:Hf; [|done].
  apply list_find_Some in Hf as (Hi & [Hc1 Hc2] & _). zcase; [lia|].
  pose proof (lookup_lt_Some _ _ _ Hi) as Hlt. apply Nat2Z.inj_lt in Hlt.
  rewrite active_length in Hlt by done.
  destruct (active_ge t Ht (Z.of_nat i)) as (r' & Hr' & Hact & H0 & _ & _); [lia|].
  rewrite Nat2Z.id in Hact. simplify_eq. rewrite Hr'. simpl. rewrite u64_small by lia. done.
Qed.

(** C34: The dispatch agrees with the reference definition: an access that lies in
    a registered region goes to the handler of this region, with its offset in
    the region for address; any other access, also one that straddles a
    region, is unhandled and not changed. The region is unique. *)
Theorem mmio_dispatch_reference {W} (call : Z -> Z -> mmio_access -> W -> option (mmio_result * mmio_access * W))
    t m w :
  table_ok t -> 0 <= address m -> 0 < size m -> address m + size m < 2 ^ 64 ->
  mmio_handle_access call t m w =
    match list_find (covers (address m) (size m)) (active t) with
    | Some (_, r) => call (r_handler r) (r_arg r)
        (mk_access (address m - r_start r) (size m) (is_write m) (value m)) w
    | None => Some (MMIO_UNHANDLED, m, w)
    end /\
  (forall r1 r2, r1 ∈ active t -> r2 ∈ active t -> covers (address m) (size m) r1 ->
    covers (address m) (size m) r2 -> r1 = r2).
Proof.
  intros Ht Ha Hs He. split.
  - by apply mmio_handle_access_run.
  - intros r1 r2 [i Hi]%list_elem_of_lookup_1 [j Hj]%list_elem_of_lookup_1 H1 H2.
    assert (i = j) as -> by by apply (covers_unique t Ht (address m) (size m) Hs i j r1 r2).
    by simplify_eq.
Qed.

(** C35: Registration of a region that is disjoint from the registered ones keeps
    the table sorted and without overlap and adds exactly the new region; a
    full table is left alone. *)
Theorem mmio_region_register_inserts beyond t start sz h arg :
  let new := mk_region start sz h arg in
  table_ok t -> Forall unsigned (regions t) -> region_ok new -> 0 < sz ->
  Forall (disjoint new) (active t) ->
  if num_mmio_regions t <? max_mmio_regions t then
    exists s', mmio_region_register beyond start sz h arg (mk_mstate t []) = Some (true, s') /\
      table_ok (tab s') /\ Forall unsigned (regions (tab s')) /\ inserted new t (tab s')
  else mmio_region_register beyond start sz h arg (mk_mstate t []) = Some (false, mk_mstate t []).
Proof.
  intros new Ht Hu Hok Hpos Hd. zcase.
  - destruct (register_ok beyond t start sz h arg) as (s' & ? & ? & ? & Hall & _); [done..|].
    exists s'. split_and!; [done..| |done]. apply Hall.
  - unfold mmio_region_register. erewrite bind_run by done. cbn [tab]. by zcase; [|lia].
Qed.

(** Removing the region that was registered gives the regions from before. *)
Theorem mmio_register_unregister beyond t start sz h arg :
  let new := mk_region start sz h arg in
  table_ok t -> Forall unsigned (regions t) -> num_mmio_regions t < max_mmio_regions t ->
  region_ok new -> 0 < sz -> Forall (disjoint new) (active t) -> unsigned beyond ->
  exists s1 s2, mmio_region_register beyond start sz h arg (mk_mstate t []) = Some (true, s1) /\
    mmio_region_unregister beyond start (mk_mstate (tab s1) []) = Some (tt, s2) /\
    table_ok (tab s2) /\ active (tab s2) = active t.
Proof.
  intros new Ht Hu Hlt Hok Hpos Hd Hb.
  destruct (register_ok beyond t start sz h arg)
    as (s1 & Hr1 & Ht1 & (l1 & l2 & Hl & Hl1) & Hall & Hn & Hm); [done..|].
  destruct Hall as [(Hlen & Hnum & Hu1 & _) _].
  assert (exists z, source beyond (tab s1) (num_mmio_regions (tab s1)) = Some z /\ unsigned z)
    as (z & Hz & Hzu).
  { unfold source. zcase; [by exists beyond|].
    destruct (aget_in_range (regions (tab s1)) (num_mmio_regions (tab s1))) as [z Hz]; [lia|].
    exists z. split; [done|]. unfold aget in Hz. zcase_in Hz; [done|]. by eapply Forall_lookup_1 in Hu1. }
  destruct Hok as (H0 & _ & He). simpl in H0, He.
  destruct (unregister_ok beyond (tab s1) start l1 new l2 z) as (s2 & H2 & Ht2 & Hact & _);
    [done..|split; simpl; lia|lia|lia|done|done|].
  exists s1, s2. split_and!; [done..|]. by rewrite Hact, Hl.
Qed.

(** C36: A lookup on a CPU that does not hold the lock, in any table that it can
    observe while a region is registered or removed, ends without an access
    outside of the table and finds either nothing or a registered region (or
    the new one) that the access lies in; never a half-written region. The one
    exception is the removal from a full table, which copies the entry behind
    the array: there a lookup can also find this entry. The new region is
    disjoint from the registered ones, a removed one is not empty, and the free
    entries are empty. *)
Theorem mmio_concurrent_lookup beyond t start sz h arg :
  let new := mk_region start sz h arg in
  table_ok t -> Forall unsigned (regions t) -> free_empty t ->
  (num_mmio_regions t < max_mmio_regions t ->
   region_ok new -> 0 < sz -> Forall (disjoint new) (active t) ->
   exists s', mmio_region_register beyond start sz h arg (mk_mstate t []) = Some (true, s') /\
    Forall (finds_one_of (new :: active t)) (seen s')) /\
  (forall r, r ∈ active t -> covers (r_start r) 1 r -> unsigned beyond ->
   exists s', mmio_region_unregister beyond (r_start r) (mk_mstate t []) = Some (tt, s') /\
    Forall (if num_mmio_regions t <? max_mmio_regions t then finds_one_of (active t)
            else finds_one_of_or beyond (active t)) (seen s')).
Proof.
  intros new Ht Hu Hfree. pose proof (t_ok _ Ht) as Hoks. split.
  - intros Hlt Hok Hpos Hd.
    destruct (register_ok beyond t start sz h arg) as (s' & Hr1 & _ & _ & [_ Hsn] & _); [done..|].
    exists s'. split; [done|]. eapply Forall_impl; [exact Hsn|]. intros t' Ht'.
    apply find_region_sound; [done|]. by constructor.
  - intros r Hin Hc Hb. pose proof Hin as Hin'. rewrite Forall_forall in Hoks.
    destruct (Hoks r Hin) as (? & ? & ?). apply list_elem_of_split in Hin' as (p & m & Hact).
    pose proof (t_num _ Ht). pose proof (t_max _ Ht). pose proof (t_len _ Ht). destruct Hc as [? ?].
    destruct (Z.ltb_spec (num_mmio_regions t) (max_mmio_regions t)) as [Hlt|Hge].
    + destruct (aget_in_range (regions t) (num_mmio_regions t)) as [z Hz]; [lia|].
      assert (Hlk : regions t !! Z.to_nat (num_mmio_regions t) = Some z)
        by (unfold aget in Hz; by zcase_in Hz).
      destruct (unregister_ok beyond t (r_start r) p r m z) as (s' & Hr1 & _ & _ & Hsn);
        [done..|lia| |by eapply Forall_lookup_1 in Hu|]; [unfold source; by zcase; [lia|]|].
      exists s'. split; [done|]. rewrite decide_True in Hsn by (eapply Hfree; [|done]; lia).
      eapply Forall_impl; [exact Hsn|]. intros t' Ht'.
      apply find_region_sound; [done|]. by apply Forall_forall.
    + destruct (unregister_ok beyond t (r_start r) p r m beyond) as (s' & Hr1 & _ & _ & Hsn);
        [done..|lia| |done|]; [unfold source; by zcase; [|lia]|].
      exists s'. split; [done|]. eapply Forall_impl; [exact Hsn|]. intros t' Ht'.
      apply (find_region_sound_or beyond (active t)); [|by apply Forall_forall].
      case_decide; [by eapply only_of_mono; [|exact Ht']; intros ? ?; right|done].
Qed.

(** The comment in the code promises that a region stays visible while it is
    moved. It does not: [copy_region] writes the start of the target while
    the target is still empty, and a search that meets this entry first goes
    on to the right of it, past the region that is being moved. *)
Definition table3 : mmio_table :=
  mk_table 3 4 [mk_region 8192 256 1 0; mk_region 12288 256 2 0; mk_region 16384 256 3 0;
                mk_region 0 0 0 0].

Theorem mmio_lookup_transient_miss :
  exists s', mmio_region_register (mk_region 0 0 0 0) 4096 256 4 0 (mk_mstate table3 []) = Some (true, s') /\
    find_region table3 12288 4 = Some 1 /\ find_region (tab s') 12288 4 = Some 2 /\
    exists t', t' ∈ seen s' /\ find_region t' 12288 4 = Some (-1).
Proof.
  eexists. split; [cbv; reflexivity|]. split; [reflexivity|]. split; [reflexivity|].
  exists (mk_table 4 4 [mk_region 8192 256 1 0; mk_region 12288 256 2 0; mk_region 12288 0 3 0;
                        mk_region 16384 256 3 0]).
  split; [|reflexivity]. eapply (list_elem_of_lookup_2 _ 8%nat). reflexivity.
Qed.

(** Removal from a full table reads the entry behind the array and shows it
    to other CPUs until the table shrinks. *)
Theorem mmio_unregister_full_table :
  let t := mk_table 1 1 [mk_region 4096 256 1 0] in
  exists s', mmio_region_unregister (mk_region 8192 65536 7 9) 4096 (mk_mstate t []) = Some (tt, s') /\
    find_region t 8192 4 = Some (-1) /\ exists t', t' ∈ seen s' /\ find_region t' 8192 4 = Some 0.
Proof.
  eexists. split; [cbv; reflexivity|]. split; [reflexivity|].
  exists (mk_table 1 1 [mk_region 8192 65536 7 9]).
  split; [|reflexivity]. eapply (list_elem_of_lookup_2 _ 3%nat). reflexivity.
Qed.

(** *** Sub-page regions *)
Lemma land_page_offs x : Z.land x PAGE_OFFS_MASK = x mod PAGE_SIZE.
Proof. apply (Z.land_ones x 12). lia. Qed.

Lemma land_page_mask x : 0 <= x < 2 ^ 64 -> Z.land x PAGE_MASK = x - x mod PAGE_SIZE.
Proof. apply (land_align 64 12). lia. Qed.

(** The address that [mmio_perform_access] computes from the base. *)
Lemma subpage_effective base cpu mem m :
  0 <= phys_start mem -> 0 <= address m -> phys_start mem + address m < 2 ^ 64 ->
  0 <= subpage_virt base cpu <= 2 ^ 64 - 2 * PAGE_SIZE ->
  u64 (subpage_base base cpu mem m + address m) =
    subpage_virt base cpu + phys_start mem mod PAGE_SIZE + address m mod PAGE_SIZE.
Proof.
  intros Hp Ha Hs Hv. unfold subpage_base. rewrite land_page_offs, land_page_mask by lia.
  pose proof (Z.mod_pos_bound (phys_start mem) PAGE_SIZE eq_refl).
  pose proof (Z.mod_pos_bound (address m) PAGE_SIZE eq_refl).
  unfold u64, wrap. rewrite Zplus_mod_idemp_l.
  rewrite Z.mod_small; [lia|]. unfold PAGE_SIZE in *. lia.
Qed.

(** Which device byte a sub-page access reaches. The handler maps one page,
    the physical page of [phys_start + address], at its temporary page. An
    allowed access is performed at the offset of this address in the page if
    the page offsets of the region and of the access add up to less than a
    page; otherwise it is performed in the next temporary page, which the
    handler has not mapped. An access that is not allowed, or whose page
    cannot be mapped, is an error and reaches nothing. *)
Theorem mmio_subpage_address {W} read write (create : Z -> Z -> W -> option W) base cpu mem m w :
  0 <= phys_start mem -> 0 <= address m -> phys_start mem + address m < 2 ^ 64 ->
  0 <= subpage_virt base cpu <= 2 ^ 64 - 2 * PAGE_SIZE ->
  let pa := phys_start mem + address m in
  let carry := if phys_start mem mod PAGE_SIZE + address m mod PAGE_SIZE <? PAGE_SIZE
               then 0 else PAGE_SIZE in
  let va := subpage_virt base cpu + carry + pa mod PAGE_SIZE in
  mmio_handle_subpage read write create base cpu mem m w =
    match (if subpage_allowed mem m
           then create (pa - pa mod PAGE_SIZE) (subpage_virt base cpu) w else None) with
    | None => (MMIO_ERROR, m, w)
    | Some w1 =>
        if bool_decide (size m ∈ [1; 2; 4; 8]) then
          if is_write m then (MMIO_HANDLED, m, write (size m) va (wrap (8 * size m) (value m)) w1)
          else let '(v, w2) := read (size m) va w1 in
               (MMIO_HANDLED, mk_access (address m) (size m) false v, w2)
        else (MMIO_HANDLED, m, w1)
    end.
Proof.
  intros Hp Ha Hs Hv pa carry va.
  assert (u64 (subpage_base base cpu mem m + address m) = va) as Hva.
  { rewrite subpage_effective by done. unfold va, carry, pa.
    pose proof (Z.mod_pos_bound (phys_start mem) PAGE_SIZE eq_refl).
    pose proof (Z.mod_pos_bound (address m) PAGE_SIZE eq_refl).
    rewrite Z.add_mod by done. zcase.
    - rewrite (Z.mod_small (_ + _)); lia.
    - rewrite <- (Z.mod_unique (phys_start mem mod PAGE_SIZE + address m mod PAGE_SIZE) PAGE_SIZE 1
        (phys_start mem mod PAGE_SIZE + address m mod PAGE_SIZE - PAGE_SIZE)); lia. }
  unfold mmio_handle_subpage, subpage_phys. fold pa. rewrite (u64_small pa), land_page_mask by (unfold pa; lia).
  destruct (subpage_allowed mem m); [|done]. destruct (create _ _ w) as [w1|]; [|done].
  unfold mmio_perform_access. rewrite Hva.
  assert ((size m =? 1) || (size m =? 2) || (size m =? 4) || (size m =? 8) =
    bool_decide (size m ∈ [1; 2; 4; 8])) as ->.
  { apply eq_bool_prop_intro. rewrite bool_decide_spec, !elem_of_cons, elem_of_nil.
    rewrite !orb_True, !Is_true_true, !Z.eqb_eq. tauto. }
  case_bool_decide; [|done]. destruct (is_write m); [done|]. by destruct (read _ _ _).
Qed.

(** ** Witnesses *)
Definition handlers (h a : Z) (m : mmio_access) (w : list Z) : option (mmio_result * mmio_access * list Z) :=
  Some (MMIO_HANDLED, m, h :: address m :: w).

Lemma table3_ok : table_ok table3.
Proof.
  split; [cbn; lia|cbn; lia|done| |].
  - by repeat constructor.
  - by repeat constructor.
Qed.

Lemma table3_unsigned : Forall unsigned (regions table3).
Proof. by repeat constructor. Qed.

Lemma mmio_dispatch_witness :
  mmio_handle_access handlers table3 (mk_access 12544 4 true 7) [] =
    Some (MMIO_UNHANDLED, mk_access 12544 4 true 7, []) /\
  mmio_handle_access handlers table3 (mk_access 12292 4 true 7) [] =
    Some (MMIO_HANDLED, mk_access 4 4 true 7, [2; 4]).
Proof.
  split.
  - destruct (mmio_dispatch_reference handlers table3 (mk_access 12544 4 true 7) [] table3_ok)
      as [H _]; [cbn; lia..|]. exact H.
  - destruct (mmio_dispatch_reference handlers table3 (mk_access 12292 4 true 7) [] table3_ok)
      as [H _]; [cbn; lia..|]. exact H.
Defined.

Definition nothing : mmio_region := mk_region 0 0 0 0.

Lemma mmio_register_witness :
  exists s', mmio_region_register nothing 4096 256 4 0 (mk_mstate table3 []) = Some (true, s') /\
    table_ok (tab s') /\ Forall unsigned (regions (tab s')) /\
    inserted (mk_region 4096 256 4 0) table3 (tab s').
Proof.
  apply (mmio_region_register_inserts nothing table3 4096 256 4 0 table3_ok table3_unsigned).
  - by split.
  - done.
  - by apply (bool_decide_unpack _).
Defined.

Lemma mmio_register_unregister_witness :
  exists s1 s2, mmio_region_register nothing 4096 256 4 0 (mk_mstate table3 []) = Some (true, s1) /\
    mmio_region_unregister nothing 4096 (mk_mstate (tab s1) []) = Some (tt, s2) /\
    table_ok (tab s2) /\ active (tab s2) = active table3.
Proof.
  apply (mmio_register_unregister nothing table3 4096 256 4 0 table3_ok table3_unsigned).
  - done.
  - by split.
  - done.
  - by apply (bool_decide_unpack _).
  - by split.
Defined.

Definition full_table : mmio_table := mk_table 1 1 [mk_region 4096 256 1 0].

Lemma mmio_concurrent_lookup_witness :
  (exists s', mmio_region_unregister nothing 12288 (mk_mstate table3 []) = Some (tt, s') /\
    Forall (finds_one_of (active table3)) (seen s')) /\
  exists s', mmio_region_unregister (mk_region 8192 65536 7 9) 4096 (mk_mstate full_table []) = Some (tt, s') /\
    Forall (finds_one_of_or (mk_region 8192 65536 7 9) (active full_table)) (seen s').
Proof.
  split.
  - destruct (mmio_concurrent_lookup nothing table3 4096 256 4 0 table3_ok table3_unsigned)
      as [_ H].
    + intros i r Hi Hr. do 3 (destruct i as [|i]; [cbn in Hi; lia|]).
      destruct i; [cbn in Hr; by injection Hr as <-|done].
    + apply (H (mk_region 12288 256 2 0)); [right; left|by split|by split].
  - destruct (mmio_concurrent_lookup (mk_region 8192 65536 7 9) full_table 4096 256 4 0) as [_ H].
    + split; [by split|done|done|by repeat constructor|by repeat constructor].
    + by repeat constructor.
    + intros i r Hi Hr. destruct i as [|[|i]]; [cbn in Hi; lia|done..].
    + apply (H (mk_region 4096 256 1 0)); [left|by split|by split].
Defined.

(** A region of 16 bytes at the end of a page: the access at its last word
    stays in the page, one that crosses to the next page does not reach it. *)
Definition uart : jailhouse_memory := mk_memory 4080 0 32 (1 + 2 + 262144).

Lemma mmio_subpage_address_witness :
  mmio_handle_subpage (W := list (Z * Z)) (fun _ a w => (0, w)) (fun _ a v w => (a, v) :: w)
    (fun _ _ w => Some w) 65536 0 uart (mk_access 12 4 true 5) [] =
    (MMIO_HANDLED, mk_access 12 4 true 5, [(65536 + 4092, 5)]) /\
  mmio_handle_subpage (W := list (Z * Z)) (fun _ a w => (0, w)) (fun _ a v w => (a, v) :: w)
    (fun _ _ w => Some w) 65536 0 uart (mk_access 16 4 true 5) [] =
    (MMIO_HANDLED, mk_access 16 4 true 5, [(65536 + 4096, 5)]).
Proof.
  split; (etransitivity; [apply mmio_subpage_address; vm_compute; try split; congruence|done]).
Defined.
