(* ===== verification/Bitops.v ===== *)
(** * Bit operations

    hypervisor/arch/arm64/include/asm/bitops.h on bitmaps as lists of 64-bit
    words, and lemmas on masks. The exclusive load and store loops are one
    atomic step. *)

From Stdlib Require Import ZArith Lia.
From stdpp Require Import base tactics list option.
From S2P Require Import Prelude.

Definition BITS_PER_LONG : Z := 64.

(** [BITOPT_ALIGN] splits the number into word and bit. *)
Definition set_bit (nr : Z) (addr : list Z) : option (list Z) :=
  let nr := u32 nr in
  w ← aget addr (nr / BITS_PER_LONG);
  aset addr (nr / BITS_PER_LONG) (Z.lor w (Z.shiftl 1 (nr mod BITS_PER_LONG))).


(** The number is an [int]: a negative one is outside of the bitmap. *)
Definition clear_bit (nr : Z) (addr : list Z) : option (list Z) :=
  let nr := s32 nr in
  if nr <? 0 then None
  else
    w ← aget addr (nr / BITS_PER_LONG);
    aset addr (nr / BITS_PER_LONG) (Z.ldiff w (Z.shiftl 1 (nr mod BITS_PER_LONG))).

(** [test_bit] *)
Definition bitmap_test_bit (nr : Z) (addr : list Z) : option bool :=
  let nr := u32 nr in
  w ← aget addr (nr / BITS_PER_LONG); Some (Z.testbit w (nr mod BITS_PER_LONG)).

(** [rbit] and [clz]: the number of trailing zeros. *)
Fixpoint ctz (p : positive) : Z :=
  match p with
  | xO p => 1 + ctz p
  | _ => 0
  end.
Definition ffsl (word : Z) : Z :=
  match word with
  | Zpos p => ctz p
  | _ => 0
  end.
Definition ffzl (word : Z) : Z := ffsl (u64 (Z.lnot word)).

(** ** Masks *)
Lemma land_bit w k : 0 <= k -> negb (Z.land w (Z.shiftl 1 k) =? 0) = Z.testbit w k.
Proof.
  intros Hk. rewrite Z.shiftl_1_l. destruct (Z.testbit w k) eqn:Hb.
  - apply negb_true_iff, Z.eqb_neq. intros H. apply (f_equal (fun x => Z.testbit x k)) in H.
    rewrite Z.land_spec, Hb, Z.pow2_bits_true, Z.bits_0 in H by done. done.
  - apply negb_false_iff, Z.eqb_eq, Z.bits_inj'. intros i Hi.
    rewrite Z.land_spec, Z.bits_0. destruct (decide (i = k)) as [->|]; [by rewrite Hb|].
    by rewrite Z.pow2_bits_false, andb_false_r.
Qed.

Lemma wrap_bit n x i : 0 <= n -> 0 <= i -> Z.testbit (wrap n x) i = (i <? n) && Z.testbit x i.
Proof.
  intros Hn Hi. unfold wrap. destruct (i <? n) eqn:H; b2p.
  - by rewrite Z.mod_pow2_bits_low.
  - by rewrite Z.mod_pow2_bits_high.
Qed.

(** Bits [n * k .. n * k + k - 1] of a word. *)
Lemma shifted_ones_bit k n i :
  0 < k -> 0 <= n -> 0 <= i ->
  Z.testbit (Z.shiftl (Z.shiftl 1 k - 1) (n * k)) i = (i / k =? n).
Proof.
  intros Hk Hn Hi. rewrite Z.shiftl_spec by done.
  replace (Z.shiftl 1 k - 1) with (Z.ones k) by (rewrite Z.ones_equiv, Z.shiftl_1_l; lia).
  destruct (decide (i < n * k)) as [Hlt|Hge].
  - rewrite Z.testbit_neg_r by lia. symmetry. apply Z.eqb_neq. intros <-.
    pose proof (Z.mul_div_le i k Hk). lia.
  - rewrite Z.testbit_ones_nonneg by lia. apply eq_bool_prop_intro. rewrite !Is_true_true.
    rewrite Z.ltb_lt, Z.eqb_eq. split.
    + intros H. symmetry. apply (Z.div_unique i k n (i - n * k)); lia.
    + intros <-. pose proof (Z.mod_pos_bound i k Hk). pose proof (Z.div_mod i k). lia.
Qed.

Lemma ctz_spec p : 0 <= ctz p /\ Z.testbit (Zpos p) (ctz p) = true /\
  forall i, 0 <= i < ctz p -> Z.testbit (Zpos p) i = false.
Proof.
  induction p as [p _|p (H0 & H1 & H2)|]; cbn [ctz]; [|change (Zpos p~0) with (2 * Zpos p)|].
  - split; [done|]. split; [done|]. lia.
  - split; [lia|]. split.
    + replace (1 + ctz p) with (Z.succ (ctz p)) by lia. by rewrite Z.double_bits_succ.
    + intros i Hi. destruct (decide (i = 0)) as [->|]; [done|].
      replace i with (Z.succ (i - 1)) by lia. rewrite Z.double_bits_succ. apply H2. lia.
  - split; [done|]. split; [done|]. lia.
Qed.

(** The first clear bit of a word that is not full. *)
Lemma ffzl_spec w : 0 <= w < 2 ^ 64 -> w <> 2 ^ 64 - 1 ->
  0 <= ffzl w < 64 /\ Z.testbit w (ffzl w) = false /\ forall i, 0 <= i < ffzl w -> Z.testbit w i = true.
Proof.
  intros Hw Hf. unfold ffzl.
  assert (Hbit : forall i, 0 <= i -> Z.testbit (u64 (Z.lnot w)) i = (i <? 64) && negb (Z.testbit w i)).
  { intros i Hi. unfold u64. by rewrite wrap_bit, Z.lnot_spec by lia. }
  assert (Hval : u64 (Z.lnot w) = 2 ^ 64 - 1 - w).
  { unfold u64, wrap, Z.lnot. rewrite <- (Z.mod_unique (Z.pred (- w)) (2 ^ 64) (-1) (2 ^ 64 - 1 - w)); lia. }
  destruct (u64 (Z.lnot w)) as [|p|] eqn:Hp; [lia| |lia]. cbn [ffsl].
  destruct (ctz_spec p) as (H0 & H1 & H2). rewrite Hbit in H1 by done. b2p.
  split; [lia|]. split; [done|]. intros i Hi. specialize (H2 i Hi). rewrite Hbit in H2 by lia.
  apply andb_false_iff in H2 as [H2|H2]; b2p; [lia|done].
Qed.

(** ** Bits of a bitmap *)
Definition word_bit (b : list Z) (i : Z) : bool :=
  Z.testbit (default 0 (aget b (i / BITS_PER_LONG))) (i mod BITS_PER_LONG).

Definition words_ok (b : list Z) : Prop := Forall (fun w => 0 <= w < 2 ^ 64) b.

Lemma words_ok_get b i w : words_ok b -> aget b i = Some w -> 0 <= w < 2 ^ 64.
Proof.
  unfold aget. destruct (i <? 0); [done|]. intros H Hw. unfold words_ok in H. rewrite Forall_lookup in H. by eapply H.
Qed.

Lemma bit_position n : 0 <= n -> 0 <= n / 64 /\ 0 <= n mod 64 < 64 /\ n = 64 * (n / 64) + n mod 64.
Proof.
  intros Hn. split; [by apply Z.div_pos|]. split; [by apply Z.mod_pos_bound|]. by apply Z.div_mod.
Qed.

(** An update of one bit. *)
Lemma word_bit_update b n w w' f :
  0 <= n -> aget b (n / 64) = Some w ->
  (forall i, 0 <= i -> Z.testbit w' i = if i =? n mod 64 then f else Z.testbit w i) ->
  exists b', aset b (n / 64) w' = Some b' /\ length b' = length b /\
    forall i, 0 <= i -> word_bit b' i = if i =? n then f else word_bit b i.
Proof.
  intros Hn Hw Hw'. apply aget_Some_range in Hw as Hr. rewrite aset_in_range by lia.
  eexists. split; [done|]. split; [apply length_insert|]. intros i Hi. unfold word_bit, BITS_PER_LONG.
  destruct (bit_position n Hn) as (? & ? & ?), (bit_position i Hi) as (? & ? & ?).
  destruct (decide (i / 64 = n / 64)) as [He|Hne].
  - rewrite He, aget_insert_eq, Hw by lia. simpl. rewrite Hw' by lia.
    destruct (Z.eqb_spec (i mod 64) (n mod 64)), (Z.eqb_spec i n); first [done|exfalso; lia].
  - rewrite aget_insert_ne by lia. destruct (Z.eqb_spec i n) as [->|]; [done|done].
Qed.

Lemma set_bit_run b n : words_ok b -> 0 <= n < 2 ^ 32 -> n / 64 < Z.of_nat (length b) ->
  exists b', set_bit n b = Some b' /\ length b' = length b /\ words_ok b' /\
    forall i, 0 <= i -> word_bit b' i = (i =? n) || word_bit b i.
Proof.
  intros Hok Hn Hl. unfold set_bit. rewrite u32_small by done. unfold BITS_PER_LONG.
  destruct (bit_position n) as (? & ? & ?); [lia|].
  destruct (aget_in_range b (n / 64)) as [w Hw]; [lia|]. rewrite Hw. cbn [mbind option_bind].
  pose proof (words_ok_get _ _ _ Hok Hw) as Hwr.
  assert (Hbit : forall i, 0 <= i -> Z.testbit (Z.lor w (Z.shiftl 1 (n mod 64))) i = if i =? n mod 64 then true else Z.testbit w i).
  { intros i Hi. rewrite Z.lor_spec, Z.shiftl_1_l, Z.pow2_bits_eqb by lia. rewrite Z.eqb_sym.
    destruct (i =? _); [apply orb_true_r|apply orb_false_r]. }
  destruct (word_bit_update b n w _ true ltac:(lia) Hw Hbit) as (b' & Hset & Hlen & Hb'). exists b'.
  split; [done|]. split; [done|]. split; [|intros i Hi; rewrite Hb' by done; by destruct (i =? n)].
  rewrite aset_in_range in Hset by lia. injection Hset as <-. apply Forall_insert; [done|].
  split; [apply Z.lor_nonneg; split; [lia|apply Z.shiftl_nonneg; lia]|].
  destruct (Z.eq_dec (Z.lor w (Z.shiftl 1 (n mod 64))) 0) as [->|Hz]; [done|].
  assert (0 <= Z.lor w (Z.shiftl 1 (n mod 64))) by (apply Z.lor_nonneg; split; [lia|apply Z.shiftl_nonneg; lia]).
  apply Z.log2_lt_pow2; [lia|]. rewrite Z.log2_lor by (first [lia|apply Z.shiftl_nonneg; lia]).
  apply Z.max_lub_lt; [|rewrite Z.shiftl_1_l, Z.log2_pow2; lia].
  destruct (decide (w = 0)) as [->|]; [done|]. apply Z.log2_lt_pow2; lia.
Qed.

Lemma clear_bit_run b n : words_ok b -> 0 <= n < 2 ^ 31 -> n / 64 < Z.of_nat (length b) ->
  exists b', clear_bit n b = Some b' /\ length b' = length b /\ words_ok b' /\
    forall i, 0 <= i -> word_bit b' i = negb (i =? n) && word_bit b i.
Proof.
  intros Hok Hn Hl. unfold clear_bit.
  assert (s32 n = n) as -> by (unfold s32; rewrite wrap_small by (unfold is_u; lia);
    rewrite (proj2 (Z.ltb_lt _ _)) by lia; done).
  rewrite (proj2 (Z.ltb_ge _ _)) by lia. unfold BITS_PER_LONG.
  destruct (bit_position n) as (? & ? & ?); [lia|].
  destruct (aget_in_range b (n / 64)) as [w Hw]; [lia|]. rewrite Hw. cbn [mbind option_bind].
  pose proof (words_ok_get _ _ _ Hok Hw) as Hwr.
  assert (Hbit : forall i, 0 <= i -> Z.testbit (Z.ldiff w (Z.shiftl 1 (n mod 64))) i = if i =? n mod 64 then false else Z.testbit w i).
  { intros i Hi. rewrite Z.ldiff_spec, Z.shiftl_1_l, Z.pow2_bits_eqb by lia. rewrite Z.eqb_sym.
    destruct (i =? _); [apply andb_false_r|apply andb_true_r]. }
  destruct (word_bit_update b n w _ false ltac:(lia) Hw Hbit) as (b' & Hset & Hlen & Hb'). exists b'.
  split; [done|]. split; [done|]. split; [|intros i Hi; rewrite Hb' by done; by destruct (i =? n)].
  rewrite aset_in_range in Hset by lia. injection Hset as <-. apply Forall_insert; [done|].
  split; [apply Z.ldiff_nonneg; lia|]. apply Z.le_lt_trans with w; [|lia]. apply Z.ldiff_le; [lia|].
  apply Z.bits_inj'. intros i Hi. rewrite !Z.ldiff_spec, Z.bits_0. by destruct (Z.testbit w i), (Z.testbit _ i).
Qed.
