(* ===== verification/Cell.v ===== *)
(** * Cells and CPU sets of the hypervisor

    [struct cpu_set], [struct jailhouse_cell_desc] and [struct cell] as far as
    the arbitration and interrupt code reads them
    (hypervisor/include/jailhouse/cell.h, include/jailhouse/cell-config.h), the
    bitmap walk [next_cpu] (hypervisor/control.c) and the iteration macros of
    hypervisor/include/jailhouse/control.h. *)

From Stdlib Require Import ZArith Lia.
From stdpp Require Import base tactics list list_numbers option.
From S2P Require Import Prelude.

(** The bitmap is a [Z] whose bit [i] is CPU [i]. *)
Record cpu_set := mk_cpu_set {
  max_cpu_id : Z;
  bitmap : Z;
}.

Record cell_desc := mk_cell_desc {
  id : Z;
  flags : Z;
  cpu_reset_address : Z;
}.

Record cell := mk_cell {
  config : cell_desc;
  cell_cpu_set : cpu_set;
  irq_bitmap : list Z;
}.

Definition test_bit (nr : Z) (addr : Z) : bool := Z.testbit addr nr.

(** [do cpu++; while (cpu <= max && (cpu == exception || !test_bit(cpu)))] on
    [unsigned int]s. *)
Fixpoint next_cpu_loop (fuel : nat) (cpu : Z) (set : cpu_set) (exception : Z) : option Z :=
  let cpu := u32 (cpu + 1) in
  if (cpu <=? max_cpu_id set) &&
     ((cpu =? u32 exception) || negb (test_bit cpu (bitmap set)))
  then match fuel with
       | O => None
       | S fuel => next_cpu_loop fuel cpu set exception
       end
  else Some cpu.

(** The loop leaves after at most [max_cpu_id + 2] increments
    ([next_cpu_total]). *)
Definition next_cpu (cpu : Z) (set : cpu_set) (exception : Z) : option Z :=
  next_cpu_loop (Z.to_nat (max_cpu_id set + 1)) cpu set exception.

Definition first_cpu (set : cpu_set) : option Z := next_cpu (u32 (-1)) set (-1).

Definition cell_owns_cpu (c : cell) (cpu_id : Z) : bool :=
  (cpu_id <=? max_cpu_id (cell_cpu_set c)) && test_bit cpu_id (bitmap (cell_cpu_set c)).

(** The CPUs visited by [for_each_cpu_except], in the order of the visits. *)
Fixpoint for_each_cpu_loop (fuel : nat) (cpu : Z) (set : cpu_set) (exception : Z)
  : option (list Z) :=
  cpu ← next_cpu cpu set exception;
  if cpu <=? max_cpu_id set then
    match fuel with
    | O => None
    | S fuel => rest ← for_each_cpu_loop fuel cpu set exception; Some (cpu :: rest)
    end
  else Some [].

Definition for_each_cpu_except (set : cpu_set) (exception : Z) : option (list Z) :=
  for_each_cpu_loop (Z.to_nat (max_cpu_id set + 1)) (u32 (-1)) set exception.

Definition for_each_cpu (set : cpu_set) : option (list Z) := for_each_cpu_except set (-1).

(** ** The walk over a CPU set *)

Definition cpu_set_ok (set : cpu_set) : Prop := 0 <= max_cpu_id set < 2 ^ 32 - 1.

(** A CPU the walk stops at. *)
Definition visits (set : cpu_set) (exception cpu : Z) : bool :=
  negb (cpu =? u32 exception) && test_bit cpu (bitmap set).

Lemma skips_visits (set : cpu_set) (exc cpu : Z) :
  (cpu =? u32 exc) || negb (test_bit cpu (bitmap set)) = negb (visits set exc cpu).
Proof. unfold visits. by destruct (_ =? _), (test_bit _ _). Qed.

Lemma next_cpu_loop_spec (fuel : nat) (cpu : Z) (set : cpu_set) (exc : Z) :
  cpu_set_ok set ->
  -1 <= cpu <= max_cpu_id set ->
  max_cpu_id set - cpu <= Z.of_nat fuel ->
  exists c, next_cpu_loop fuel cpu set exc = Some c /\
    cpu < c <= max_cpu_id set + 1 /\
    (forall k, cpu < k < c -> visits set exc k = false) /\
    (c <= max_cpu_id set -> visits set exc c = true).
Proof.
  intros Hok. revert cpu. induction fuel as [|fuel IH]; intros cpu Hcpu Hf; simpl;
    rewrite (u32_small (cpu + 1)) by (unfold cpu_set_ok in Hok; lia); zcase.
  - lia.
  - exists (cpu + 1). repeat split; lia.
  - b2p. destruct (IH (cpu + 1)) as (c & -> & ? & Hl & Hc); [lia|lia|].
    exists c. repeat split; try lia; [|done].
    intros k Hk. destruct (decide (k = cpu + 1)) as [->|]; [|apply Hl; lia].
    by rewrite skips_visits in H0; b2p.
  - exists (cpu + 1). repeat split; try lia. intros.
    apply andb_false_iff in Heqb as [?|Hs]; [b2p; lia|].
    by rewrite skips_visits in Hs; b2p.
Qed.

(** [next_cpu] returns the least CPU above the given one that the walk visits,
    or [max_cpu_id + 1] when there is none. *)
Lemma next_cpu_total (cpu : Z) (set : cpu_set) (exc : Z) :
  cpu_set_ok set -> -1 <= cpu <= max_cpu_id set ->
  exists c, next_cpu (u32 cpu) set exc = Some c /\
    cpu < c <= max_cpu_id set + 1 /\
    (forall k, cpu < k < c -> visits set exc k = false) /\
    (c <= max_cpu_id set -> visits set exc c = true).
Proof.
  intros Hok Hcpu. unfold next_cpu.
  assert (next_cpu_loop (Z.to_nat (max_cpu_id set + 1)) (u32 cpu) set exc =
          next_cpu_loop (Z.to_nat (max_cpu_id set + 1)) cpu set exc) as ->.
  { destruct (decide (cpu = -1)) as [->|].
    - destruct (Z.to_nat _); reflexivity.
    - rewrite u32_small by (unfold cpu_set_ok in Hok; lia). done. }
  apply next_cpu_loop_spec; [done|lia|unfold cpu_set_ok in Hok; lia].
Qed.

(** The CPUs of [lo .. lo+n-1] that the walk visits, in order. *)
Definition cpus_from (set : cpu_set) (exc lo : Z) (n : nat) : list Z :=
  filter (λ c, visits set exc c = true) (seqZ lo (Z.of_nat n)).

Lemma cpus_from_skip (set : cpu_set) (exc lo c hi : Z) :
  lo <= c <= hi -> (forall k, lo <= k < c -> visits set exc k = false) ->
  cpus_from set exc lo (Z.to_nat (hi - lo)) = cpus_from set exc c (Z.to_nat (hi - c)).
Proof.
  intros Hr Hno. unfold cpus_from. rewrite !Z2Nat.id by lia.
  replace (hi - lo) with ((c - lo) + (hi - c)) by lia.
  rewrite seqZ_app by lia. rewrite list.filter_app.
  replace (lo + (c - lo)) with c by lia.
  assert (filter (λ c, visits set exc c = true) (seqZ lo (c - lo)) = []) as ->; [|done].
  apply elem_of_nil_inv. intros x [Hv Hx%elem_of_seqZ]%list_elem_of_filter.
  rewrite Hno in Hv by lia. done.
Qed.

Lemma for_each_cpu_loop_spec (fuel : nat) (cpu : Z) (set : cpu_set) (exc : Z) :
  cpu_set_ok set -> -1 <= cpu <= max_cpu_id set ->
  max_cpu_id set - cpu <= Z.of_nat fuel ->
  for_each_cpu_loop fuel (u32 cpu) set exc =
  Some (cpus_from set exc (cpu + 1) (Z.to_nat (max_cpu_id set - cpu))).
Proof.
  intros Hok. revert cpu. induction fuel as [|fuel IH]; intros cpu Hcpu Hf; simpl;
    destruct (next_cpu_total cpu set exc) as (c & -> & Hc & Hno & Hv); try done; simpl.
  - assert (c = max_cpu_id set + 1) as -> by lia. zcase; [lia|].
    replace (max_cpu_id set - cpu) with 0 by lia. reflexivity.
  - replace (max_cpu_id set - cpu) with (max_cpu_id set + 1 - (cpu + 1)) by lia.
    rewrite (cpus_from_skip _ _ _ c) by (try lia; intros; apply Hno; lia).
    zcase.
    + rewrite <- (u32_small c) at 1 by (unfold cpu_set_ok in Hok; lia).
      rewrite IH by lia. simpl. f_equal. unfold cpus_from.
      replace (max_cpu_id set + 1 - c) with (Z.succ (max_cpu_id set - c)) by lia.
      rewrite !Z2Nat.id by lia. rewrite (seqZ_cons c) by lia.
      rewrite filter_cons_True by (apply Hv; lia).
      by replace (Z.pred (Z.succ (max_cpu_id set - c))) with (max_cpu_id set - c) by lia.
    + assert (c = max_cpu_id set + 1) as -> by lia. by rewrite Z.sub_diag.
Qed.

(** [for_each_cpu] visits exactly the CPUs of the set, in increasing order. *)
Lemma for_each_cpu_except_eq (set : cpu_set) (exc : Z) :
  cpu_set_ok set ->
  for_each_cpu_except set exc =
  Some (cpus_from set exc 0 (Z.to_nat (max_cpu_id set + 1))).
Proof.
  intros Hok. unfold for_each_cpu_except.
  rewrite for_each_cpu_loop_spec by (unfold cpu_set_ok in Hok; try lia; done).
  by replace (max_cpu_id set - -1) with (max_cpu_id set + 1) by lia.
Qed.

(** [first_cpu] is the least CPU of a non-empty set. *)
Lemma first_cpu_least (set : cpu_set) (c : Z) :
  cpu_set_ok set -> 0 <= c <= max_cpu_id set -> test_bit c (bitmap set) = true ->
  exists f, first_cpu set = Some f /\ 0 <= f <= c /\ test_bit f (bitmap set) = true.
Proof.
  intros Hok Hc Hb.
  destruct (next_cpu_total (-1) set (-1)) as (f & Hf & Hr & Hno & Hv);
    [done | unfold cpu_set_ok in Hok; lia |].
  assert (f <= c).
  { destruct (decide (f <= c)) as [|Hn]; [done|].
    assert (visits set (-1) c = false) as Hvc by (apply Hno; lia).
    unfold visits in Hvc. rewrite Hb, andb_true_r in Hvc. b2p.
    unfold cpu_set_ok in Hok. change (u32 (-1)) with 4294967295 in Hvc. lia. }
  exists f. split; [exact Hf|]. split; [lia|].
  specialize (Hv ltac:(lia)). unfold visits in Hv. b2p. done.
Qed.

(** The CPUs of a set. *)
Definition in_set (set : cpu_set) (cpu : Z) : Prop :=
  0 <= cpu <= max_cpu_id set /\ test_bit cpu (bitmap set) = true.

Lemma elem_of_for_each_cpu set cpu :
  cpu_set_ok set -> exists l, for_each_cpu set = Some l /\ (cpu ∈ l <-> in_set set cpu).
Proof.
  intros Hok. unfold for_each_cpu. rewrite for_each_cpu_except_eq by done.
  eexists. split; [done|]. unfold cpus_from. rewrite list_elem_of_filter, elem_of_seqZ.
  unfold in_set, visits, cpu_set_ok in *. change (u32 (-1)) with 4294967295. split.
  - intros [Hv Hr]. b2p. split; [lia|done].
  - intros [Hr Hb]. rewrite Hb, andb_true_r. split; [|lia].
    apply negb_true_iff, Z.eqb_neq. lia.
Qed.
