(* ===== verification/Irqchip.v ===== *)
(** * Virtual interrupt injection of the hypervisor

    The software queue of pending interrupts ([struct pending_irqs]), the
    GICv2 list registers and the injection paths of
    hypervisor/arch/arm-common/irqchip.c and gic-v2.c. The arbitration code
    raises its signals through [irqchip_set_pending]; what it relies on is the
    class [IrqSink], which this file instantiates. *)

From Stdlib Require Import ZArith Lia.
From stdpp Require Import base tactics list list_numbers option.
From S2P Require Import Prelude Bitops.

Definition MAX_PENDING_IRQS : Z := 256.
Definition EEXIST : Z := 17.
Definition EBUSY : Z := 16.
Definition EINVAL : Z := 22.
Definition SGI_INJECT : Z := 0.
Definition GICD_ISPENDR : Z := 512.
Definition GICD_SGIR : Z := 3840.
Definition GICH_LR_PENDING_BIT : Z := Z.shiftl 1 28.
Definition GICH_LR_HW_BIT : Z := Z.shiftl 1 31.
Definition GICH_LR_VIRT_ID_MASK : Z := 1023.
Definition GICH_LR_CPUID_SHIFT : Z := 10.
Definition GICH_LR_PHYS_ID_SHIFT : Z := 10.
Definition GICH_HCR_UIE : Z := 2.

Definition is_sgi (irqn : Z) : bool := u32 irqn <? 16.

Record pending_irqs := mk_pending_irqs {
  p_lock : bool;
  p_irqs : list Z;
  p_sender : list Z;
  p_head : Z;
  p_tail : Z;
}.

(** What a CPU owns of the interrupt machinery: its software queue and its
    banked hypervisor interface (list registers and GICH_HCR). *)
Record cpu_irq := mk_cpu_irq {
  pending : pending_irqs;
  lrs : list Z;
  gich_hcr : Z;
}.

(** All CPUs, the writes to the distributor (offset and value, oldest first)
    and [gicv2_target_cpu_map]. *)
Record irq_state := mk_irq_state {
  cpu_irqs : list cpu_irq;
  gicd_log : list (Z * Z);
  target_map : list Z;
}.

Record sgi := mk_sgi {
  routing_mode : Z;
  cluster_id : Z;
  targets : Z;
  sgi_id : Z;
}.

(** The empty-list-register status of the GIC hardware: the registers
    GICH_ELSR0 and GICH_ELSR1 as a function of the list registers. *)
Class GicHw := gich_elsr : list Z -> nat -> Z.

(** The GICv2 architecture: a status register has 32 bits, and the bit of a
    list register is set exactly when its state field (bits 28 and 29) says
    invalid. *)
Class GicHwSpec `{GicHw} : Prop :=
  gich_elsr_spec : forall l i lr, l !! i = Some lr ->
    Z.testbit (gich_elsr l (i / 32)) (Z.of_nat (i mod 32)) = true <-> Z.land (Z.shiftr lr 28) 3 = 0.

Section Operations.
Context `{GicHw}.

Definition gicv2_read_lr (l : list Z) (i : nat) : option Z := l !! i.

(** [unsigned long elsr[2]], of two 32-bit reads *)
Definition elsr (l : list Z) : list Z := [u32 (gich_elsr l 0); u32 (gich_elsr l 1)].

(** Whether [test_bit(i, elsr)] finds the bit set; the registers are fewer
    than the bits of the array. *)
Definition lr_free (i : nat) (l : list Z) : bool := default false (bitmap_test_bit (Z.of_nat i) (elsr l)).

(** The loop of [gicv2_inject_irq]: the first free list register, or
    [inl (-EEXIST)] when a used one holds the interrupt. *)
Fixpoint gicv2_inject_scan (l : list Z) (i n : nat) (first_free : option nat) (irq_id : Z)
  : Z + option nat :=
  match n with
  | O => inr first_free
  | S n =>
      if lr_free i l then
        gicv2_inject_scan l (S i) n
          (match first_free with None => Some i | Some f => Some f end) irq_id
      else
        match gicv2_read_lr l i with
        | Some lr =>
            if Z.land lr GICH_LR_VIRT_ID_MASK =? irq_id then inl (- EEXIST)
            else gicv2_inject_scan l (S i) n first_free irq_id
        | None => inr first_free
        end
  end.

(** The value written to a free list register. *)
Definition gicv2_lr_value (irq_id sender : Z) : Z :=
  let lr := Z.lor irq_id GICH_LR_PENDING_BIT in
  if is_sgi irq_id then Z.lor lr (Z.shiftl (Z.land sender 7) GICH_LR_CPUID_SHIFT)
  else Z.lor (Z.lor lr GICH_LR_HW_BIT) (u32 (Z.shiftl irq_id GICH_LR_PHYS_ID_SHIFT)).

Definition gicv2_inject_irq (c : cpu_irq) (irq_id sender : Z) : Z * cpu_irq :=
  match gicv2_inject_scan (lrs c) 0 (length (lrs c)) None irq_id with
  | inl err => (err, c)
  | inr None => (- EBUSY, c)
  | inr (Some f) =>
      (0, mk_cpu_irq (pending c) (<[f := gicv2_lr_value irq_id sender]> (lrs c)) (gich_hcr c))
  end.

Definition gicv2_enable_maint_irq (c : cpu_irq) (enable : bool) : cpu_irq :=
  mk_cpu_irq (pending c) (lrs c)
    (if enable then Z.lor (gich_hcr c) GICH_HCR_UIE
     else Z.ldiff (gich_hcr c) GICH_HCR_UIE).

Definition gicv2_send_sgi (g : sgi) (log : list (Z * Z)) : Z * list (Z * Z) :=
  if is_sgi (sgi_id g) then
    let val := Z.lor (Z.lor (Z.shiftl (Z.land (routing_mode g) 3) 24)
                            (Z.shiftl (Z.land (targets g) 255) 16))
                     (Z.land (sgi_id g) 15) in
    (0, log ++ [(GICD_SGIR, val)])
  else (- EINVAL, log).

(** The queueing part of [irqchip_set_pending]; [None] when the lock is
    already held. A full queue drops the interrupt. *)
Definition pending_enqueue (p : pending_irqs) (irq_id sender : Z) : option pending_irqs :=
  if p_lock p then None else
  let new_tail := u32 (p_tail p + 1) mod MAX_PENDING_IRQS in
  if negb (new_tail =? p_head p) then
    irqs' ← aset (p_irqs p) (p_tail p) irq_id;
    sender' ← aset (p_sender p) (p_tail p) sender;
    Some (mk_pending_irqs false irqs' sender' (p_head p) new_tail)
  else Some (mk_pending_irqs false (p_irqs p) (p_sender p) (p_head p) (p_tail p)).

Definition set_cpu_irq (s : irq_state) (cpu : Z) (c : cpu_irq) : option irq_state :=
  l ← aset (cpu_irqs s) cpu c;
  Some (mk_irq_state l (gicd_log s) (target_map s)).

(** [irqchip_set_pending] executed on CPU [this_cpu]; [target] is [None] for a
    null [cpu_data], which injects through the distributor. *)
Definition irqchip_set_pending (this_cpu : Z) (target : option Z) (irq_id : Z)
  (s : irq_state) : option irq_state :=
  match target with
  | None =>
      Some (mk_irq_state (cpu_irqs s)
              (gicd_log s ++ [(GICD_ISPENDR + (irq_id / 32) * 4, Z.shiftl 1 (irq_id mod 32))])
              (target_map s))
  | Some tgt =>
      c ← aget (cpu_irqs s) tgt;
      let local_injection := this_cpu =? tgt in
      let sender := u16 this_cpu in
      let inj := gicv2_inject_irq c irq_id sender in
      if local_injection && negb (fst inj =? - EBUSY) then set_cpu_irq s tgt (snd inj)
      else
        p ← pending_enqueue (pending c) irq_id sender;
        let c := mk_cpu_irq p (lrs c) (gich_hcr c) in
        if local_injection then set_cpu_irq s tgt (gicv2_enable_maint_irq c true)
        else
          s ← set_cpu_irq s tgt c;
          t ← aget (target_map s) tgt;
          let '(_, log) := gicv2_send_sgi (mk_sgi 0 0 t SGI_INJECT) (gicd_log s) in
          Some (mk_irq_state (cpu_irqs s) log (target_map s))
  end.

(** [irqchip_inject_pending] on the CPU's own state. One iteration per queued
    interrupt: at most [MAX_PENDING_IRQS - 1] of them. *)
Fixpoint inject_pending_loop (fuel : nat) (c : cpu_irq) : option cpu_irq :=
  let p := pending c in
  if p_head p =? p_tail p then Some (gicv2_enable_maint_irq c false)
  else
    match fuel with
    | O => None
    | S fuel =>
        irq_id ← aget (p_irqs p) (p_head p);
        sender ← aget (p_sender p) (p_head p);
        let '(r, c) := gicv2_inject_irq c irq_id sender in
        if r =? - EBUSY then Some (gicv2_enable_maint_irq c true)
        else
          let p := pending c in
          let head := u32 (p_head p + 1) mod MAX_PENDING_IRQS in
          inject_pending_loop fuel
            (mk_cpu_irq (mk_pending_irqs (p_lock p) (p_irqs p) (p_sender p) head (p_tail p))
                        (lrs c) (gich_hcr c))
    end.

Definition irqchip_inject_pending (c : cpu_irq) : option cpu_irq :=
  inject_pending_loop (Z.to_nat MAX_PENDING_IRQS) c.

End Operations.

(** ** The software queue as a FIFO *)

Definition ring_ok (p : pending_irqs) : Prop :=
  p_lock p = false /\
  length (p_irqs p) = Z.to_nat MAX_PENDING_IRQS /\
  length (p_sender p) = Z.to_nat MAX_PENDING_IRQS /\
  0 <= p_head p < MAX_PENDING_IRQS /\ 0 <= p_tail p < MAX_PENDING_IRQS.

Definition ring_len (p : pending_irqs) : Z := (p_tail p - p_head p) mod MAX_PENDING_IRQS.

Definition ring_entry (p : pending_irqs) (k : Z) : Z * Z :=
  let j := (p_head p + k) mod MAX_PENDING_IRQS in
  (default 0 (aget (p_irqs p) j), default 0 (aget (p_sender p) j)).

(** The queued (interrupt, sender) pairs, oldest first. *)
Definition ring_queue (p : pending_irqs) : list (Z * Z) :=
  ring_entry p <$> seqZ 0 (ring_len p).

Ltac ring_unfold := unfold ring_ok, ring_len, MAX_PENDING_IRQS in *.

Lemma ring_len_bounds (p : pending_irqs) : 0 <= ring_len p < 256.
Proof. unfold ring_len. apply Z.mod_pos_bound. done. Qed.

Lemma ring_queue_length (p : pending_irqs) : length (ring_queue p) = Z.to_nat (ring_len p).
Proof. unfold ring_queue. by rewrite length_fmap, length_seqZ. Qed.

Lemma u32_succ_small (x : Z) : 0 <= x < 256 -> u32 (x + 1) = x + 1.
Proof. intros. apply u32_small. lia. Qed.

(** A queue with room appends, and stays well formed. *)
Lemma pending_enqueue_room (p : pending_irqs) (irq sender : Z) :
  ring_ok p -> ring_len p < 255 ->
  exists p', pending_enqueue p irq sender = Some p' /\ ring_ok p' /\
    ring_queue p' = ring_queue p ++ [(irq, sender)].
Proof.
  intros (Hl & Hi & Hs & Hh & Ht) Hlen. unfold pending_enqueue. rewrite Hl.
  unfold ring_len, MAX_PENDING_IRQS in *. rewrite u32_succ_small by done.
  zcase.
  2:{ exfalso. revert Hlen Heqb. Z.to_euclidean_division_equations. lia. }
  rewrite !aset_in_range by lia. simpl.
  eexists. split; [reflexivity|]. split.
  { unfold ring_ok, MAX_PENDING_IRQS. simpl. rewrite !length_insert.
    pose proof (Z.mod_pos_bound (p_tail p + 1) 256). split_and!; auto; lia. }
  unfold ring_queue, ring_len, MAX_PENDING_IRQS. simpl.
  assert (((p_tail p + 1) mod 256 - p_head p) mod 256 =
          (p_tail p - p_head p) mod 256 + 1) as ->.
  { revert Hlen Heqb. Z.to_euclidean_division_equations. lia. }
  set (n := (p_tail p - p_head p) mod 256) in *.
  assert (0 <= n) by (apply Z.mod_pos_bound; done).
  assert ((p_head p + n) mod 256 = p_tail p) as Hn
    by (unfold n; Z.to_euclidean_division_equations; lia).
  rewrite seqZ_app by lia. rewrite fmap_app. f_equal.
  - apply list_fmap_ext. intros k x [Hx ?]%lookup_seqZ. unfold ring_entry. simpl.
    unfold MAX_PENDING_IRQS. assert ((p_head p + x) mod 256 <> p_tail p).
    { rewrite <- Hn. Z.to_euclidean_division_equations. lia. }
    by rewrite !aget_insert_ne by lia.
  - simpl. unfold ring_entry. simpl. unfold MAX_PENDING_IRQS.
    change (Z.of_nat 0 + (0 + n)) with n.
    rewrite Hn, !aget_insert_eq by lia. done.
Qed.

(** A full queue drops the interrupt and nothing else. *)
Lemma pending_enqueue_full (p : pending_irqs) (irq sender : Z) :
  ring_ok p -> ring_len p = 255 -> pending_enqueue p irq sender = Some p.
Proof.
  intros (Hl & Hi & Hs & Hh & Ht) Hlen. unfold pending_enqueue. rewrite Hl.
  unfold ring_len, MAX_PENDING_IRQS in *. rewrite u32_succ_small by done.
  zcase.
  - exfalso. revert Hlen Heqb. Z.to_euclidean_division_equations. lia.
  - destruct p; simpl in *. by subst.
Qed.

(** Removing the head of a non-empty queue. *)
Lemma ring_dequeue (p : pending_irqs) :
  ring_ok p -> p_head p <> p_tail p ->
  let p' := mk_pending_irqs (p_lock p) (p_irqs p) (p_sender p)
              (u32 (p_head p + 1) mod MAX_PENDING_IRQS) (p_tail p) in
  exists irq sender, aget (p_irqs p) (p_head p) = Some irq /\
    aget (p_sender p) (p_head p) = Some sender /\
    ring_ok p' /\ ring_queue p = (irq, sender) :: ring_queue p'.
Proof.
  intros (Hl & Hi & Hs & Hh & Ht) Hne p'. unfold MAX_PENDING_IRQS in *.
  destruct (aget_in_range (p_irqs p) (p_head p)) as [irq Hirq]; [lia|].
  destruct (aget_in_range (p_sender p) (p_head p)) as [sender Hsender]; [lia|].
  exists irq, sender. subst p'. rewrite u32_succ_small by done.
  split_and!; try done.
  { unfold ring_ok, MAX_PENDING_IRQS. simpl.
    pose proof (Z.mod_pos_bound (p_head p + 1) 256). split_and!; auto; lia. }
  unfold ring_queue, ring_len, MAX_PENDING_IRQS. simpl.
  assert ((p_tail p - p_head p) mod 256 =
          (p_tail p - (p_head p + 1) mod 256) mod 256 + 1) as ->.
  { Z.to_euclidean_division_equations. lia. }
  set (n := (p_tail p - (p_head p + 1) mod 256) mod 256) in *.
  assert (0 <= n) by (apply Z.mod_pos_bound; done).
  rewrite seqZ_cons by lia. simpl. f_equal.
  - unfold ring_entry, MAX_PENDING_IRQS. rewrite Z.add_0_r, Z.mod_small by lia.
    by rewrite Hirq, Hsender.
  - replace (Z.pred (n + 1)) with n by lia. change (Z.succ 0) with (0 + 1).
    rewrite <- (fmap_add_seqZ 1 0), <- list_fmap_compose.
    apply list_fmap_ext. intros k x [Hx ?]%lookup_seqZ. unfold ring_entry. simpl.
    unfold MAX_PENDING_IRQS.
    replace ((p_head p + (1 + x)) mod 256) with (((p_head p + 1) mod 256 + x) mod 256);
      [done|]. Z.to_euclidean_division_equations. lia.
Qed.

(** ** The list registers *)

Definition lr_valid (lr : Z) : Prop := Z.land (Z.shiftr lr 28) 3 <> 0.

(** A used list register holds the interrupt (pending or active). *)
Definition lr_holds (lr irq : Z) : Prop :=
  lr_valid lr /\ Z.land lr GICH_LR_VIRT_ID_MASK = irq.

(** A list register holds the interrupt as pending. *)
Definition lr_pending (lr irq : Z) : Prop :=
  Z.testbit lr 28 = true /\ Z.land lr GICH_LR_VIRT_ID_MASK = irq.

(** Bits of the register value, below and at the state field. *)
Lemma testbit_u_high (w x n : Z) : is_u w x -> 0 <= w <= n -> Z.testbit x n = false.
Proof.
  intros Hx Hn. rewrite <- (wrap_small w x Hx). unfold wrap.
  apply Z.mod_pow2_bits_high. lia.
Qed.

Lemma testbit_shiftl_low (a k n : Z) : 0 <= n < k -> Z.testbit (Z.shiftl a k) n = false.
Proof. intros. rewrite Z.shiftl_spec by lia. apply Z.testbit_neg_r. lia. Qed.

Lemma testbit_u32_shiftl_low (a k n : Z) :
  0 <= n < k -> k < 32 -> Z.testbit (u32 (Z.shiftl a k)) n = false.
Proof.
  intros. unfold u32, wrap. rewrite Z.mod_pow2_bits_low by lia.
  by apply testbit_shiftl_low.
Qed.

Lemma gicv2_lr_value_id (irq sender : Z) :
  is_u 10 irq -> Z.land (gicv2_lr_value irq sender) GICH_LR_VIRT_ID_MASK = irq.
Proof.
  intros Hirq. apply Z.bits_inj'. intros n Hn.
  change GICH_LR_VIRT_ID_MASK with (Z.ones 10). rewrite Z.land_spec.
  destruct (decide (n < 10)).
  - rewrite Z.ones_spec_low by lia. rewrite andb_true_r. unfold gicv2_lr_value,
      GICH_LR_PENDING_BIT, GICH_LR_HW_BIT, GICH_LR_CPUID_SHIFT, GICH_LR_PHYS_ID_SHIFT.
    destruct (is_sgi irq); rewrite !Z.lor_spec;
      rewrite ?testbit_u32_shiftl_low, ?testbit_shiftl_low by lia;
      by rewrite ?orb_false_r.
  - rewrite Z.ones_spec_high by lia. rewrite andb_false_r.
    symmetry. apply (testbit_u_high 10); [done|lia].
Qed.

Lemma gicv2_lr_value_pending (irq sender : Z) :
  is_u 10 irq -> lr_pending (gicv2_lr_value irq sender) irq.
Proof.
  intros Hirq. split; [|by apply gicv2_lr_value_id].
  unfold gicv2_lr_value, GICH_LR_PENDING_BIT.
  destruct (is_sgi irq); rewrite !Z.lor_spec;
    replace (Z.testbit (Z.shiftl 1 28) 28) with true by reflexivity;
    by rewrite ?orb_true_r.
Qed.

Lemma lr_pending_holds (lr irq : Z) : lr_pending lr irq -> lr_holds lr irq.
Proof.
  intros [Hb Hid]. split; [|done]. intros Hz.
  assert (Z.testbit (Z.land (Z.shiftr lr 28) 3) 0 = true) as Ht; [|by rewrite Hz in Ht].
  rewrite Z.land_spec, Z.shiftr_spec by done. by rewrite Z.add_0_l, Hb.
Qed.

Section Injection.
Context `{GicHwSpec}.

(** The outcome of the scan, on the registers from [i] on. *)
Definition scan_result (l : list Z) (i : nat) (ff : option nat) (irq : Z)
  (r : Z + option nat) : Prop :=
  match r with
  | inl e => e = - EEXIST /\ exists j lr, (i <= j)%nat /\ l !! j = Some lr /\ lr_holds lr irq
  | inr r =>
      (forall j lr, (i <= j)%nat -> l !! j = Some lr -> ~ lr_holds lr irq) /\
      match ff, r with
      | Some f, _ => r = Some f
      | None, Some f => (i <= f)%nat /\ exists lr, l !! f = Some lr /\ ~ lr_valid lr
      | None, None => forall j lr, (i <= j)%nat -> l !! j = Some lr -> lr_valid lr
      end
  end.

Lemma elsr_spec (l : list Z) (i : nat) (lr : Z) :
  (i < 32)%nat -> l !! i = Some lr -> lr_free i l = true <-> Z.land (Z.shiftr lr 28) 3 = 0.
Proof.
  intros Hi Hl. rewrite <- (gich_elsr_spec l i lr Hl). unfold lr_free, bitmap_test_bit, BITS_PER_LONG.
  rewrite u32_small, Z.div_small, Z.mod_small, Nat.div_small, Nat.mod_small by lia.
  change (Z.testbit (u32 (gich_elsr l 0)) (Z.of_nat i) = true <-> Z.testbit (gich_elsr l 0) (Z.of_nat i) = true).
  unfold u32, wrap.
  by rewrite Z.mod_pow2_bits_low by lia.
Qed.

Lemma elsr_false (l : list Z) (i : nat) (lr : Z) :
  (i < 32)%nat -> l !! i = Some lr -> lr_free i l = false <-> lr_valid lr.
Proof.
  intros Hi Hl. pose proof (elsr_spec l i lr Hi Hl) as Hs. unfold lr_valid.
  destruct (lr_free i l); split; intros ?; try done; try (intros ?); intuition congruence.
Qed.

(** The status of the list registers from 32 on is never seen: the second
    register is read into the second long, and their bits are looked for in the
    upper half of the first. *)
Lemma elsr_high (l : list Z) (i : nat) : (32 <= i < 64)%nat -> lr_free i l = false.
Proof.
  intros Hi. unfold lr_free, bitmap_test_bit, BITS_PER_LONG. rewrite u32_small, Z.div_small, Z.mod_small by lia.
  change (Z.testbit (u32 (gich_elsr l 0)) (Z.of_nat i) = false).
  unfold u32, wrap. by rewrite Z.mod_pow2_bits_high by lia.
Qed.

Lemma gicv2_inject_scan_spec (l : list Z) (n i : nat) (ff : option nat) (irq : Z) :
  (length l <= 32)%nat -> (i + n = length l)%nat -> scan_result l i ff irq (gicv2_inject_scan l i n ff irq).
Proof.
  intros H32. revert i ff. induction n as [|n IH]; intros i ff Hn; simpl.
  - split; [|destruct ff; [done|]]; intros j lr Hj Hl;
      apply lookup_lt_Some in Hl; lia.
  - destruct (lookup_lt_is_Some_2 l i) as [lr Hlr]; [lia|].
    unfold gicv2_read_lr. rewrite Hlr.
    assert (Hi : (i < 32)%nat) by lia. destruct (lr_free i l) eqn:He.
    + apply (elsr_spec l i lr Hi Hlr) in He.
      specialize (IH (S i) (match ff with None => Some i | Some f => Some f end)
                    ltac:(lia)).
      destruct (gicv2_inject_scan _ _ _ _ _) as [e|r]; simpl in *.
      * destruct IH as (? & j & lr' & ? & ?). split; [done|]. exists j, lr'. split; [lia|done].
      * destruct IH as [Hno Hr]. split.
        { intros j lr' Hj Hl'. destruct (decide (i = j)) as [<-|]; [|apply (Hno j lr'); [lia|done]].
          simplify_eq. intros [Hv _]. by apply Hv. }
        destruct ff; simplify_eq; [done|]. split; [lia|]. exists lr. split; [done|].
        intros Hv. by apply Hv.
    + apply (elsr_false l i lr Hi Hlr) in He. zcase.
      * simpl. split; [done|]. exists i, lr. split; [lia|]. by split.
      * specialize (IH (S i) ff ltac:(lia)).
        destruct (gicv2_inject_scan _ _ _ _ _) as [e|r]; simpl in *.
        -- destruct IH as (? & j & lr' & ? & ?). split; [done|]. exists j, lr'.
           split; [lia|done].
        -- destruct IH as [Hno Hr]. split.
           { intros j lr' Hj Hl'. destruct (decide (i = j)) as [<-|];
               [|apply (Hno j lr'); [lia|done]]. simplify_eq. by intros [_ ?]. }
           destruct ff as [f|]; [done|]. destruct r as [f|].
           ++ destruct Hr as [? Hr]. split; [lia|done].
           ++ intros j lr' Hj Hl'. destruct (decide (i = j)) as [<-|];
                [by simplify_eq|]. apply (Hr j); [lia|done].
Qed.

(** The three outcomes of [gicv2_inject_irq]. *)
Lemma gicv2_inject_irq_cases (c : cpu_irq) (irq sender : Z) :
  (length (lrs c) <= 32)%nat ->
  (fst (gicv2_inject_irq c irq sender) = - EEXIST /\ snd (gicv2_inject_irq c irq sender) = c /\
   exists j lr, lrs c !! j = Some lr /\ lr_holds lr irq) \/
  (fst (gicv2_inject_irq c irq sender) = - EBUSY /\ snd (gicv2_inject_irq c irq sender) = c /\
   (forall j lr, lrs c !! j = Some lr -> lr_valid lr /\ ~ lr_holds lr irq)) \/
  (fst (gicv2_inject_irq c irq sender) = 0 /\
   (forall j lr, lrs c !! j = Some lr -> ~ lr_holds lr irq) /\
   exists f lr, lrs c !! f = Some lr /\ ~ lr_valid lr /\
     snd (gicv2_inject_irq c irq sender) =
     mk_cpu_irq (pending c) (<[f := gicv2_lr_value irq sender]> (lrs c)) (gich_hcr c)).
Proof.
  intros H32. unfold gicv2_inject_irq.
  pose proof (gicv2_inject_scan_spec (lrs c) (length (lrs c)) 0 None irq H32 eq_refl) as Hs.
  destruct (gicv2_inject_scan _ _ _ _ _) as [e|[f|]]; simpl in *.
  - left. destruct Hs as (-> & j & lr & _ & ? & ?). eauto 10.
  - right; right. destruct Hs as (Hno & _ & lr & ? & ?). split_and!; try done.
    + intros j lr' ?. apply (Hno j); [lia|done].
    + exists f, lr. done.
  - right; left. destruct Hs as [Hno Hv]. split_and!; try done. intros j lr ?.
    split; [apply (Hv j)|apply (Hno j)]; [lia|done|lia|done].
Qed.

(** An interrupt that a list register holds as active but not pending is lost
    when it is injected again: the register state is left as it is. *)
Lemma gicv2_inject_irq_active_lost (c : cpu_irq) (irq sender : Z) (j : nat) (lr : Z) :
  (length (lrs c) <= 32)%nat -> lrs c !! j = Some lr -> lr_holds lr irq ->
  snd (gicv2_inject_irq c irq sender) = c.
Proof.
  intros H32 Hl Hh. destruct (gicv2_inject_irq_cases c irq sender H32) as [(_&?&_)|[(_&?&_)|(_&Hno&_)]];
    try done. by destruct (Hno j lr Hl).
Qed.

End Injection.

(** ** Delivery *)

(** The interrupt is on its way to the CPU: queued or pending in a register. *)
Definition cpu_sees (c : cpu_irq) (irq : Z) : Prop :=
  (exists sender, (irq, sender) ∈ ring_queue (pending c)) \/
  (exists j lr, lrs c !! j = Some lr /\ lr_pending lr irq).

Definition irq_sees (s : irq_state) (cpu irq : Z) : Prop :=
  exists c, aget (cpu_irqs s) cpu = Some c /\ cpu_sees c irq.

(** The CPU can take the interrupt: its queue has room, no register holds
    the interrupt as merely active, and the status of all registers is seen. *)
Definition cpu_ready (c : cpu_irq) (irq : Z) : Prop :=
  ring_ok (pending c) /\ ring_len (pending c) < 255 /\ (length (lrs c) <= 32)%nat /\
  forall j lr, lrs c !! j = Some lr -> lr_holds lr irq -> lr_pending lr irq.

Definition irq_ready (s : irq_state) (cpu irq : Z) : Prop :=
  is_Some (aget (target_map s) cpu) /\
  exists c, aget (cpu_irqs s) cpu = Some c /\ cpu_ready c irq.

(** Raising [irq] on [tgt] adds that interrupt and nothing else. *)
Definition sees_update (s s' : irq_state) (tgt irq : Z) : Prop :=
  forall cpu i, irq_sees s' cpu i <-> irq_sees s cpu i \/ (cpu = tgt /\ i = irq).

Lemma set_cpu_irq_Some (s : irq_state) (cpu : Z) (c c' : cpu_irq) :
  aget (cpu_irqs s) cpu = Some c ->
  set_cpu_irq s cpu c' =
  Some (mk_irq_state (<[Z.to_nat cpu := c']> (cpu_irqs s)) (gicd_log s) (target_map s)).
Proof.
  intros Hr%aget_Some_range. unfold set_cpu_irq. by rewrite aset_in_range.
Qed.

(** Replacing the state of one CPU by one that sees [irq] in addition. *)
Lemma sees_update_cpu (s : irq_state) (tgt irq : Z) (c c' : cpu_irq) log :
  aget (cpu_irqs s) tgt = Some c ->
  (forall i, cpu_sees c' i <-> cpu_sees c i \/ i = irq) ->
  sees_update s (mk_irq_state (<[Z.to_nat tgt := c']> (cpu_irqs s)) log (target_map s)) tgt irq.
Proof.
  intros Hc Hs cpu i. pose proof (aget_Some_range _ _ _ Hc). unfold irq_sees. simpl.
  destruct (decide (cpu = tgt)) as [->|Hne].
  - rewrite aget_insert_eq by lia. split.
    + intros (? & ? & Hv). simplify_eq. apply Hs in Hv as [?| ->]; eauto.
    + intros [(? & ? & Hv)|[_ ->]]; simplify_eq; eexists; split; try done; apply Hs; eauto.
  - rewrite aget_insert_ne by lia. split; [by left|]. by intros [?|[? _]].
Qed.

Lemma ring_queue_sees (p p' : pending_irqs) l h (irq sender : Z) :
  ring_queue p' = ring_queue p ++ [(irq, sender)] ->
  forall i, cpu_sees (mk_cpu_irq p' l h) i <->
    cpu_sees (mk_cpu_irq p l h) i \/ i = irq.
Proof.
  intros Hq i. unfold cpu_sees. simpl. rewrite Hq. split.
  - intros [(sd & [Hin|Hin]%elem_of_app)|Hl]; eauto.
    apply list_elem_of_singleton in Hin. simplify_eq. eauto.
  - intros [[(sd & Hin)|Hl]| ->]; [left|by right|left].
    + exists sd. apply elem_of_app. by left.
    + exists sender. apply elem_of_app. right. by apply list_elem_of_singleton.
Qed.

Section Delivery.
Context `{GicHwSpec}.

Lemma gicv2_inject_irq_sees (c : cpu_irq) (irq sender : Z) :
  is_u 10 irq -> cpu_ready c irq -> fst (gicv2_inject_irq c irq sender) <> - EBUSY ->
  forall i, cpu_sees (snd (gicv2_inject_irq c irq sender)) i <-> cpu_sees c i \/ i = irq.
Proof.
  intros Hu (_ & _ & H32 & Hact) Hb i.
  destruct (gicv2_inject_irq_cases c irq sender H32)
    as [(_ & -> & j & lr & Hl & Hh)|[(He & _)|(_ & Hno & f & lr & Hf & Hv & ->)]]; [|done|].
  - split; [by left|]. intros [?| ->]; [done|]. right. exists j, lr. eauto.
  - pose proof (lookup_lt_Some _ _ _ Hf) as Hlen. unfold cpu_sees. simpl. split.
    + intros [Hq|(j & lr' & Hj & Hp)]; [by left; left|].
      destruct (decide (f = j)) as [<-|].
      * rewrite list_lookup_insert_eq in Hj by done. simplify_eq. right.
        destruct Hp as [_ <-]. by rewrite gicv2_lr_value_id.
      * rewrite list_lookup_insert_ne in Hj by done. left; right; eauto.
    + intros [[Hq|(j & lr' & Hj & Hp)]| ->]; [by left| |].
      * right. exists j, lr'. rewrite list_lookup_insert_ne; [done|].
        intros <-. simplify_eq. by apply lr_pending_holds in Hp as [? _].
      * right. exists f, (gicv2_lr_value irq sender).
        rewrite list_lookup_insert_eq by done. split; [done|].
        by apply gicv2_lr_value_pending.
Qed.

(** [irqchip_set_pending] always gets through to a ready CPU, whichever path it
    takes, and affects no other interrupt. *)
Lemma irqchip_set_pending_delivers (this tgt irq : Z) (s : irq_state) :
  is_u 10 irq -> irq_ready s tgt irq ->
  exists s', irqchip_set_pending this (Some tgt) irq s = Some s' /\
    target_map s' = target_map s /\ sees_update s s' tgt irq.
Proof.
  intros Hu ([t Ht] & c & Hc & Hr). unfold irqchip_set_pending. rewrite Hc. simpl.
  destruct (pending_enqueue_room (pending c) irq (u16 this)) as (p' & Hp & _ & Hq);
    [by destruct Hr|by destruct Hr as (_&?&_)|].
  rewrite Hp. simpl. pose proof (set_cpu_irq_Some s tgt c) as Hset.
  pose proof (ring_queue_sees _ _ (lrs c) (gich_hcr c) _ _ Hq) as Hqs.
  assert (mk_cpu_irq (pending c) (lrs c) (gich_hcr c) = c) as Hceq by by destruct c.
  rewrite Hceq in Hqs.
  zcase.
  - rewrite Hset by done. eexists; split; [done|]. split; [done|].
    apply sees_update_cpu with c; [done|]. by apply gicv2_inject_irq_sees.
  - zcase.
    + rewrite Hset by done. eexists; split; [done|]. split; [done|].
      by apply sees_update_cpu with c.
    + rewrite Hset by done. simpl. rewrite Ht. simpl.
      eexists; split; [done|]. split; [done|]. by apply sees_update_cpu with c.
Qed.

End Delivery.

(** ** Draining the queue *)

Definition uie (c : cpu_irq) : bool := Z.testbit (gich_hcr c) 1.

Lemma enable_maint_uie (c : cpu_irq) (b : bool) : uie (gicv2_enable_maint_irq c b) = b.
Proof.
  unfold uie, gicv2_enable_maint_irq, GICH_HCR_UIE. destruct b; cbn [gich_hcr].
  - rewrite Z.lor_spec. apply orb_true_r.
  - rewrite Z.ldiff_spec. apply andb_false_r.
Qed.

(** What a drain leaves: the interrupts it moved are held by list registers,
    and the maintenance interrupt is enabled exactly if some are left. *)
Definition drained (c c' : cpu_irq) (moved : list (Z * Z)) : Prop :=
  ring_ok (pending c') /\
  ring_queue (pending c) = moved ++ ring_queue (pending c') /\
  (forall irq sender, (irq, sender) ∈ moved ->
     exists j lr, lrs c' !! j = Some lr /\ lr_holds lr irq) /\
  (forall j lr, lrs c !! j = Some lr -> lr_valid lr -> lrs c' !! j = Some lr) /\
  (uie c' = true <-> ring_queue (pending c') <> []) /\
  (ring_queue (pending c') <> [] -> Forall lr_valid (lrs c')).

Section Draining.
Context `{GicHwSpec}.

Lemma ring_empty (p : pending_irqs) :
  ring_ok p -> ring_queue p = [] <-> p_head p = p_tail p.
Proof.
  intros (_ & _ & _ & Hh & Ht). unfold MAX_PENDING_IRQS in *.
  rewrite <- length_zero_iff_nil, ring_queue_length. unfold ring_len, MAX_PENDING_IRQS.
  pose proof (Z.mod_pos_bound (p_tail p - p_head p) 256).
  split; intros Hz; [|rewrite Hz, Z.sub_diag; done].
  assert ((p_tail p - p_head p) mod 256 = 0) as Hm by lia.
  revert Hm. Z.to_euclidean_division_equations. lia.
Qed.

Lemma inject_pending_loop_spec (fuel : nat) (c : cpu_irq) :
  ring_ok (pending c) -> (length (lrs c) <= 32)%nat ->
  (forall irq sender, (irq, sender) ∈ ring_queue (pending c) -> is_u 10 irq) ->
  (length (ring_queue (pending c)) <= fuel)%nat ->
  exists c' moved, inject_pending_loop fuel c = Some c' /\ drained c c' moved.
Proof.
  revert c. induction fuel as [|fuel IH]; intros c Hok H32 Hu Hlen; simpl; zcase.
  1, 3: exists (gicv2_enable_maint_irq c false), [];
    apply ring_empty in Heqb; [|done];
    split; [done|]; split_and!; try done;
    [intros ?? []%not_elem_of_nil|by rewrite enable_maint_uie].
  { destruct (ring_queue (pending c)) eqn:E;
      [|simpl in Hlen; lia]. by apply ring_empty in E. }
  destruct (ring_dequeue (pending c) Hok Heqb) as (irq & sd & -> & -> & Hok' & Hq).
  set (p' := mk_pending_irqs _ _ _ _ _) in *. simpl.
  destruct (gicv2_inject_irq c irq sd) as [r c1] eqn:Hinj.
  pose proof (gicv2_inject_irq_cases c irq sd H32) as Hcases. rewrite Hinj in Hcases. simpl in Hcases.
  assert (is_u 10 irq) as Hirq.
  { apply (Hu irq sd). rewrite Hq. apply list_elem_of_here. }
  assert (length (lrs c1) <= 32)%nat as H32'.
  { destruct Hcases as [(_ & -> & _)|[(_ & -> & _)|(_ & _ & f & lr & _ & _ & ->)]]; [done|done|].
    cbn. by rewrite length_insert. }
  assert (r <> - EBUSY -> pending c1 = pending c /\
    (exists j lr, lrs c1 !! j = Some lr /\ lr_holds lr irq) /\
    (forall j lr, lrs c !! j = Some lr -> lr_valid lr -> lrs c1 !! j = Some lr)) as Hstep.
  { intros Hr. destruct Hcases as [(_ & -> & ?)|[(? & _)|(_ & _ & f & lr & Hf & Hv & ->)]];
      [eauto|done|]. simpl. split; [done|].
    pose proof (lookup_lt_Some _ _ _ Hf). split.
    - exists f, (gicv2_lr_value irq sd). rewrite list_lookup_insert_eq by done.
      split; [done|]. by apply lr_pending_holds, gicv2_lr_value_pending.
    - intros j lr' Hj Hval. rewrite list_lookup_insert_ne; [done|]. intros <-. by simplify_eq. }
  zcase.
  - exists (gicv2_enable_maint_irq c1 true), [].
    destruct Hcases as [(? & _)|[(_ & -> & Hall)|(? & _)]]; [by subst|  |by subst].
    split; [done|]. split_and!; try done.
    + by intros ?? []%not_elem_of_nil.
    + rewrite enable_maint_uie. simpl. rewrite Hq. by split.
    + intros _. simpl. apply Forall_lookup. intros j lr Hj. by apply (Hall j).
  - destruct (Hstep Heqb0) as (Hp1 & (j & lr & Hj & Hh) & Hkeep). rewrite Hp1.
    destruct (IH (mk_cpu_irq p' (lrs c1) (gich_hcr c1))) as (c' & mv & Hrun & Hd).
    { done. }
    { done. }
    { intros i sender Hin. apply (Hu i sender). rewrite Hq. by apply list_elem_of_further. }
    { simpl. rewrite Hq in Hlen. simpl in Hlen. lia. }
    fold p'. exists c', ((irq, sd) :: mv). split; [exact Hrun|].
    destruct Hd as (? & Hqq & Hmv & Hk & Huie & Hfull). simpl in *.
    split_and!; try done.
    + rewrite Hq, Hqq. done.
    + intros i sender [[=-> ->]|Hin]%elem_of_cons; [|by apply (Hmv i sender)].
      exists j, lr. split; [|done]. apply Hk; [done|by destruct Hh].
    + intros j' lr' ??. apply Hk; [by apply Hkeep|done].
Qed.

(** [irqchip_inject_pending] terminates and hands over a prefix of the queue,
    in order, until the list registers are full. *)
Lemma irqchip_inject_pending_drains (c : cpu_irq) :
  ring_ok (pending c) -> (length (lrs c) <= 32)%nat ->
  (forall irq sender, (irq, sender) ∈ ring_queue (pending c) -> is_u 10 irq) ->
  exists c' moved, irqchip_inject_pending c = Some c' /\ drained c c' moved.
Proof.
  intros Hok H32 Hu. apply inject_pending_loop_spec; [done..|].
  rewrite ring_queue_length. pose proof (ring_len_bounds (pending c)).
  unfold MAX_PENDING_IRQS. lia.
Qed.

End Draining.

(** ** The interface of the arbitration code

    What the arbiters need of interrupt injection: raising a signal on a CPU
    that can take it makes it visible there and changes nothing else. *)
Class IrqSink (H : Type) := {
  sink_raise : Z -> Z -> Z -> H -> option H;
  sink_ready : H -> Z -> Z -> Prop;
  sink_sees : H -> Z -> Z -> Prop;
  sink_raise_ok : forall (h : H) (this tgt irq : Z),
    is_u 10 irq -> sink_ready h tgt irq ->
    exists h', sink_raise this tgt irq h = Some h' /\
      forall cpu i, sink_sees h' cpu i <-> sink_sees h cpu i \/ (cpu = tgt /\ i = irq);
}.

(** The interrupt controller implements the interface. *)
#[export] Program Instance irqchip_sink `{GicHwSpec} : IrqSink irq_state := {|
  sink_raise := fun this tgt irq s => irqchip_set_pending this (Some tgt) irq s;
  sink_ready := irq_ready;
  sink_sees := irq_sees;
|}.
Next Obligation.
  intros ?? s this tgt irq Hu Hr.
  destruct (irqchip_set_pending_delivers this tgt irq s Hu Hr) as (s' & ? & _ & ?).
  exists s'. split; done.
Qed.

(** A log of raised signals (CPU and interrupt), newest first. *)
#[export] Program Instance log_sink : IrqSink (list (Z * Z)) := {|
  sink_raise := fun this tgt irq l => Some ((tgt, irq) :: l);
  sink_ready := fun _ _ _ => True;
  sink_sees := fun l cpu i => (cpu, i) ∈ l;
|}.
Next Obligation.
  intros l this tgt irq _ _. exists ((tgt, irq) :: l). split; [done|].
  intros cpu i. rewrite elem_of_cons. split; intros [?|?]; simplify_eq; eauto.
  left. destruct H as [-> ->]. done.
Qed.

(** The list register status of the GICv2 architecture. *)
Fixpoint status_word (free : nat -> bool) (n : nat) : Z :=
  match n with
  | O => 0
  | S n => if free n then Z.setbit (status_word free n) (Z.of_nat n) else status_word free n
  end.

Lemma status_word_bit free n k : Z.testbit (status_word free n) (Z.of_nat k) = bool_decide (k < n)%nat && free k.
Proof.
  induction n as [|n IH]; cbn [status_word]; [by rewrite Z.bits_0|].
  assert (Hs : Z.testbit (if free n then Z.setbit (status_word free n) (Z.of_nat n) else status_word free n) (Z.of_nat k) =
    if decide (k = n) then free n else Z.testbit (status_word free n) (Z.of_nat k)).
  { destruct (free n) eqn:Hf, (decide (k = n)) as [Hk|Hk].
    - subst. by rewrite Z.setbit_eq by lia.
    - by rewrite Z.setbit_neq by lia.
    - subst. rewrite IH. by rewrite bool_decide_eq_false_2 by lia.
    - done. }
  rewrite Hs, IH. destruct (decide (k = n)) as [Hk|Hk]; [subst; by rewrite bool_decide_eq_true_2 by lia|].
  f_equal. apply bool_decide_ext. lia.
Qed.

#[export] Instance gicv2_hw : GicHw := fun l w =>
  status_word (fun j => match l !! (32 * w + j)%nat with
                        | Some lr => Z.land (Z.shiftr lr 28) 3 =? 0
                        | None => false
                        end) 32.

#[export] Instance gicv2_hw_spec : GicHwSpec.
Proof.
  intros l i lr Hl. unfold gich_elsr, gicv2_hw. rewrite status_word_bit.
  pose proof (Nat.mod_upper_bound i 32 ltac:(done)). rewrite bool_decide_eq_true_2 by done.
  rewrite <- Nat.div_mod_eq, Hl. apply Z.eqb_eq.
Qed.

(** ** Properties *)

Section Properties.
Context `{GicHwSpec}.

(** C11: the software queue of a CPU is a FIFO of capacity 255: an interrupt
    for another CPU is appended to the target's queue and the target is kicked
    by a physical SGI; when the queue is full the interrupt is dropped and only
    the kick remains. *)
Theorem remote_set_pending (this tgt irq t : Z) (s : irq_state) (c : cpu_irq) :
  this <> tgt -> aget (cpu_irqs s) tgt = Some c -> ring_ok (pending c) ->
  aget (target_map s) tgt = Some t ->
  exists s' c', irqchip_set_pending this (Some tgt) irq s = Some s' /\
    aget (cpu_irqs s') tgt = Some c' /\ ring_ok (pending c') /\ lrs c' = lrs c /\
    ring_queue (pending c') =
      (if ring_len (pending c) <? 255 then ring_queue (pending c) ++ [(irq, u16 this)]
       else ring_queue (pending c)) /\
    gicd_log s' = gicd_log s ++ [(GICD_SGIR, Z.shiftl (Z.land t 255) 16)].
Proof.
  intros Hne Hc Hok Ht. unfold irqchip_set_pending. rewrite Hc. simpl.
  replace (this =? tgt) with false by lia. simpl.
  assert (exists p', pending_enqueue (pending c) irq (u16 this) = Some p' /\ ring_ok p' /\
    ring_queue p' = if ring_len (pending c) <? 255
      then ring_queue (pending c) ++ [(irq, u16 this)] else ring_queue (pending c))
    as (p' & -> & Hok' & Hq).
  { zcase; [by apply pending_enqueue_room|]. pose proof (ring_len_bounds (pending c)).
    rewrite pending_enqueue_full by (done || lia). eauto. }
  simpl. rewrite (set_cpu_irq_Some s tgt c) by done. simpl. rewrite Ht. simpl.
  pose proof (aget_Some_range _ _ _ Hc). eexists _, _. split; [done|]. simpl.
  rewrite aget_insert_eq by done. split_and!; try done. simpl. do 3 f_equal.
  rewrite Z.lor_0_r. done.
Qed.

(** an interrupt raised on a CPU that can take it becomes visible there,
    queued or pending in a list register, on the local and on the remote path,
    and no other interrupt appears or disappears anywhere. *)
Theorem set_pending_visible (this tgt irq : Z) (s : irq_state) :
  is_u 10 irq -> irq_ready s tgt irq ->
  exists s', irqchip_set_pending this (Some tgt) irq s = Some s' /\
    forall cpu i, irq_sees s' cpu i <-> irq_sees s cpu i \/ (cpu = tgt /\ i = irq).
Proof.
  intros Hu Hr. destruct (irqchip_set_pending_delivers this tgt irq s Hu Hr) as (s' & ? & _ & ?).
  by exists s'.
Qed.

(** draining the queue terminates; it moves a prefix of the queue in
    order into list registers, never touches a used register, and enables the
    maintenance interrupt exactly when interrupts are left over, in which case
    all registers are in use. *)
Theorem inject_pending_drains (c : cpu_irq) :
  ring_ok (pending c) -> (length (lrs c) <= 32)%nat ->
  (forall irq sender, (irq, sender) ∈ ring_queue (pending c) -> is_u 10 irq) ->
  exists c' moved, irqchip_inject_pending c = Some c' /\ drained c c' moved.
Proof. apply irqchip_inject_pending_drains. Qed.

(** an interrupt raised on its own CPU while a list register holds it as
    active (its handler is running) is lost: nothing changes. *)
Theorem active_interrupt_lost (cpu irq : Z) (s : irq_state) (c : cpu_irq) (j : nat) (lr : Z) :
  aget (cpu_irqs s) cpu = Some c -> (length (lrs c) <= 32)%nat -> lrs c !! j = Some lr ->
  lr_holds lr irq -> ~ lr_pending lr irq ->
  irqchip_set_pending cpu (Some cpu) irq s = Some s.
Proof.
  intros Hc H32 Hl Hh _. unfold irqchip_set_pending. rewrite Hc. simpl. rewrite Z.eqb_refl. simpl.
  pose proof (gicv2_inject_irq_active_lost c irq (u16 cpu) j lr H32 Hl Hh) as Hsnd.
  destruct (gicv2_inject_irq_cases c irq (u16 cpu) H32) as [(-> & _)|[(_ & _ & Hno)|(-> & _)]].
  - simpl. rewrite Hsnd, (set_cpu_irq_Some s cpu c) by done.
    rewrite list_insert_id; [by destruct s|].
    unfold aget in Hc. by zcase_in Hc.
  - by destruct (Hno j lr Hl).
  - simpl. rewrite Hsnd, (set_cpu_irq_Some s cpu c) by done.
    rewrite list_insert_id; [by destruct s|].
    unfold aget in Hc. by zcase_in Hc.
Qed.

End Properties.

(** ** Witnesses *)

Definition demo_ring : pending_irqs :=
  mk_pending_irqs false (<[255%nat := 7]> (replicate 256 0)) (replicate 256 0) 255 0.
Definition demo_cpu_irq : cpu_irq := mk_cpu_irq demo_ring [0; 0; 0; 0] 0.
Definition demo_active : cpu_irq := mk_cpu_irq demo_ring [Z.lor 14 (Z.shiftl 1 29)] 0.
Definition demo_irqs (c : cpu_irq) : irq_state := mk_irq_state [c; demo_cpu_irq] [] [1; 2].

Lemma demo_ring_ok : ring_ok demo_ring.
Proof. unfold ring_ok, demo_ring, MAX_PENDING_IRQS. simpl. split_and!; done || lia. Qed.

Lemma demo_ring_queue : ring_queue demo_ring = [(7, 0)].
Proof. vm_compute. reflexivity. Qed.

Lemma remote_set_pending_witness : exists s' c',
  irqchip_set_pending 1 (Some 0) 13 (demo_irqs demo_cpu_irq) = Some s' /\
  aget (cpu_irqs s') 0 = Some c' /\ ring_queue (pending c') = [(7, 0); (13, 1)].
Proof.
  destruct (remote_set_pending 1 0 13 1 (demo_irqs demo_cpu_irq) demo_cpu_irq
    ltac:(done) eq_refl demo_ring_ok eq_refl) as (s' & c' & Hs & Hc & _ & _ & Hq & _).
  exists s', c'. split; [exact Hs|]. split; [exact Hc|]. rewrite Hq. vm_compute. reflexivity.
Defined.

Lemma set_pending_visible_witness : exists s',
  irqchip_set_pending 0 (Some 0) 13 (demo_irqs demo_cpu_irq) = Some s' /\ irq_sees s' 0 13.
Proof.
  destruct (set_pending_visible 0 0 13 (demo_irqs demo_cpu_irq)) as (s' & Hs & Hv).
  - unfold is_u. lia.
  - split; [eexists; reflexivity|]. exists demo_cpu_irq. split; [reflexivity|].
    split; [apply demo_ring_ok|]. split; [reflexivity|]. split; [cbn; lia|].
    intros j lr Hj [Hval _]. exfalso. apply Hval.
    do 4 (destruct j as [|j]; [injection Hj as <-; reflexivity|]). done.
  - exists s'. split; [exact Hs|]. apply Hv. right. split; reflexivity.
Defined.

Lemma inject_pending_drains_witness : exists c' moved,
  irqchip_inject_pending demo_cpu_irq = Some c' /\ drained demo_cpu_irq c' moved.
Proof.
  apply (inject_pending_drains demo_cpu_irq demo_ring_ok); [cbn; lia|].
  intros irq sender Hin. cbn [pending demo_cpu_irq] in Hin. rewrite demo_ring_queue in Hin.
  apply list_elem_of_singleton in Hin. injection Hin as -> _. unfold is_u. lia.
Defined.

Lemma active_interrupt_lost_witness :
  irqchip_set_pending 0 (Some 0) 14 (demo_irqs demo_active) = Some (demo_irqs demo_active).
Proof.
  apply (active_interrupt_lost 0 14 (demo_irqs demo_active) demo_active 0
    (Z.lor 14 (Z.shiftl 1 29)) eq_refl (le_n_S _ _ (Nat.le_0_l _)) eq_refl).
  - split; [intros Hz; vm_compute in Hz; discriminate|reflexivity].
  - intros [Hb _]. vm_compute in Hb. discriminate.
Defined.

(** With 33 list registers, an empty last one is not found; and a stale number
    in it loses the interrupt. *)
Example high_register_unseen :
  fst (gicv2_inject_irq (mk_cpu_irq demo_ring (replicate 32 (gicv2_lr_value 40 0) ++ [0]) 0) 41 0) = - EBUSY /\
  fst (gicv2_inject_irq (mk_cpu_irq demo_ring (replicate 32 (gicv2_lr_value 40 0) ++ [41]) 0) 41 0) = - EEXIST.
Proof. split; vm_compute; reflexivity. Qed.
