(* ===== verification/FixedPriority.v ===== *)
(** * The fixed-priority memory arbiter

    hypervisor/arch/arm64/fixed_priority.c: one memory token, requested and
    released by hypercalls, held by the requesting CPU of highest priority.
    The static variables of the file are the record [arbiter]; the signals to
    the cells go through [irqchip_set_pending], here the class [IrqSink]. *)

From Stdlib Require Import ZArith Lia.
From stdpp Require Import base tactics list list_numbers option relations.
From S2P Require Import Prelude Cell Irqchip.

Definition MAX_PRIORITY : Z := 6.
Definition TOKEN_FREE : Z := 255.
Definition TOKEN_NULL_PRIORITY : Z := 0.
Definition NUM_REQUESTS : Z := 6.

Definition SGI_MEMORY_PHASE_STARTED : Z := 13.
Definition SGI_MEMORY_PHASE_ENDED : Z := 14.
Definition BEGIN_MEM_PHASE : Z := 1.
Definition END_MEM_PHASE : Z := 2.
Definition ARBITRATION_INVALID : Z := -1.
Definition ARBITRATION_ACK : Z := 0.
Definition ARBITRATION_NACK : Z := 1.

(** The fields of [struct per_cpu] the arbiter reads. *)
Record per_cpu := mk_per_cpu {
  cpu_id : Z;
  pc_cell : cell;
}.

(** The system registers read by the overhead measurement: the timer frequency
    and the two reads of CNTHP_TVAL_EL2. *)
Record sysregs := mk_sysregs {
  cntfrq_el0 : Z;
  tval_start : Z;
  tval_end : Z;
}.

(** [while (val > div) { val -= div; cnt++; }] *)
Fixpoint emul_division (fuel : nat) (val div cnt : Z) : option Z :=
  if val >? div then
    match fuel with
    | O => None
    | S fuel => emul_division fuel (val - div) div (u64 (cnt + 1))
    end
  else Some cnt.

Definition timer_ticks_to_ns (fuel : nat) (r : sysregs) (ticks : Z) : option Z :=
  emul_division fuel (u64 (ticks * 1000)) (cntfrq_el0 r / 1000 / 1000) 0.

Definition cell_priority (c : cell) : Z := u32 (MAX_PRIORITY - id (config c)).

Section Arbiter.
Context {H : Type} `{IrqSink H}.

Record arbiter := mk_arbiter {
  memory_lock : bool;
  memory_requests : list Z;
  token_owner : Z;
  token_priority : Z;
  irqs : H;
}.

(** Taking the lock while it is held would spin forever. *)
Definition spin_lock (s : arbiter) : option arbiter :=
  if memory_lock s then None
  else Some (mk_arbiter true (memory_requests s) (token_owner s) (token_priority s) (irqs s)).

Definition spin_unlock (s : arbiter) : arbiter :=
  mk_arbiter false (memory_requests s) (token_owner s) (token_priority s) (irqs s).

Definition set_request (s : arbiter) (cpu prio : Z) : option arbiter :=
  l ← aset (memory_requests s) cpu prio;
  Some (mk_arbiter (memory_lock s) l (token_owner s) (token_priority s) (irqs s)).

Definition set_token (s : arbiter) (owner prio : Z) : arbiter :=
  mk_arbiter (memory_lock s) (memory_requests s) owner prio (irqs s).

(** [irqchip_set_pending(per_cpu(target), irq)] executed on [this]. *)
Definition signal (s : arbiter) (this target irq : Z) : option arbiter :=
  h ← sink_raise this target irq (irqs s);
  Some (mk_arbiter (memory_lock s) (memory_requests s) (token_owner s) (token_priority s) h).

Definition request_memory (cpu_data : per_cpu) (s : arbiter) : option (Z * arbiter) :=
  let cpu := cpu_id cpu_data in
  let priority := cell_priority (pc_cell cpu_data) in
  s ← spin_lock s;
  s ← set_request s cpu priority;
  s ← (if priority >? token_priority s then
         s ← (if negb (token_owner s =? TOKEN_FREE) && negb (token_owner s =? cpu)
              then signal s cpu (token_owner s) SGI_MEMORY_PHASE_ENDED
              else Some s);
         Some (set_token s cpu priority)
       else Some s);
  let got_token := if token_owner s =? cpu then 1 else 0 in
  Some (got_token, spin_unlock s).

(** The [for_each_cell] loop that looks for the next owner. *)
Fixpoint next_owner (cells : list cell) (reqs : list Z) (owner prio : Z) : option (Z * Z) :=
  match cells with
  | [] => Some (owner, prio)
  | c :: cells =>
      cpu_id_it ← first_cpu (cell_cpu_set c);
      r ← aget reqs cpu_id_it;
      if r >? prio then next_owner cells reqs cpu_id_it r
      else next_owner cells reqs owner prio
  end.

Definition disable_memory_request (cells : list cell) (cpu : Z) (s : arbiter)
  : option (Z * arbiter) :=
  s ← spin_lock s;
  s ← set_request s cpu TOKEN_NULL_PRIORITY;
  s ← (if token_owner s =? cpu then
         t ← next_owner cells (memory_requests s) TOKEN_FREE TOKEN_NULL_PRIORITY;
         let s := set_token s (fst t) (snd t) in
         if negb (token_owner s =? TOKEN_FREE)
         then signal s cpu (token_owner s) SGI_MEMORY_PHASE_STARTED
         else Some s
       else Some s);
  Some (0, spin_unlock s).

Definition enable_memory_request_test_arbitration_overhead (fuel : nat) (r : sysregs)
  (cells : list cell) (cpu_data : per_cpu) (priority : Z) (s : arbiter)
  : option (Z * arbiter) :=
  let cpu := cpu_id cpu_data in
  s ← spin_lock s;
  s ← set_request s cpu priority;
  s ← (if priority >? token_priority s then
         s ← (if negb (token_owner s =? TOKEN_FREE)
              then signal s cpu (token_owner s) 10 else Some s);
         Some (set_token s cpu priority)
       else Some s);
  let s := spin_unlock s in
  _ ← timer_ticks_to_ns fuel r (u64 (tval_start r - tval_end r));
  res ← disable_memory_request cells cpu s;
  let s := snd res in
  Some (if token_owner s =? cpu then 1 else 0, s).

Definition fixed_priority_hypercall (fuel : nat) (r : sysregs) (cells : list cell)
  (cpu_data : per_cpu) (action_code : Z) (s : arbiter) : option (Z * arbiter) :=
  if action_code =? BEGIN_MEM_PHASE then
    res ← request_memory cpu_data s;
    Some (if fst res =? 1 then ARBITRATION_ACK else ARBITRATION_NACK, snd res)
  else if action_code =? END_MEM_PHASE then
    res ← disable_memory_request cells (cpu_id cpu_data) s;
    Some (ARBITRATION_ACK, snd res)
  else if action_code =? 65535 then
    res ← enable_memory_request_test_arbitration_overhead fuel r cells cpu_data 0 s;
    Some (ARBITRATION_ACK, snd res)
  else Some (ARBITRATION_INVALID, s).

Definition on_arch_park_cpu (cells : list cell) (cpu : Z) (s : arbiter) : option arbiter :=
  res ← disable_memory_request cells cpu s;
  Some (snd res).

(** The state at boot. *)
Definition arbiter_init (h : H) : arbiter :=
  mk_arbiter false (replicate (Z.to_nat NUM_REQUESTS) TOKEN_NULL_PRIORITY)
    TOKEN_FREE TOKEN_NULL_PRIORITY h.

End Arbiter.

Arguments arbiter : clear implicits.

(** ** The emulated division *)

Lemma emul_division_spec (fuel : nat) (val div cnt : Z) :
  0 < div -> 0 <= val < 2 ^ 64 -> 0 <= cnt -> cnt + val < 2 ^ 64 ->
  (Z.to_nat val <= fuel)%nat ->
  emul_division fuel val div cnt = Some (cnt + Z.max 0 ((val - 1) / div)).
Proof.
  revert val cnt. induction fuel as [|fuel IH]; intros val cnt Hd Hv Hc Hs Hf; simpl.
  - assert (val = 0) as -> by lia. zcase; [lia|].
    rewrite Z.max_l; [by rewrite Z.add_0_r|].
    assert ((0 - 1) / div < 0) by (apply Z.div_lt_upper_bound; lia). lia.
  - zcase.
    + rewrite u64_small by lia. rewrite IH by lia. f_equal.
      replace (val - 1) with ((val - div - 1) + 1 * div) by lia.
      rewrite Z.div_add by lia.
      assert (0 <= (val - div - 1) / div) by (apply Z.div_pos; lia). lia.
    + destruct (decide (val = 0)) as [->|].
      * rewrite Z.max_l; [by rewrite Z.add_0_r|].
        assert ((0 - 1) / div < 0) by (apply Z.div_lt_upper_bound; lia). lia.
      * rewrite Z.div_small by lia. f_equal. lia.
Qed.

(** ** The arbitration invariant *)

(** The configuration: every cell's first CPU has a slot in the request table,
    and no two cells share it. *)
Record cells_ok (cells : list cell) : Prop := {
  cells_first : forall c, c ∈ cells ->
    exists f, first_cpu (cell_cpu_set c) = Some f /\ 0 <= f < NUM_REQUESTS;
  cells_unique : forall c1 c2, c1 ∈ cells -> c2 ∈ cells ->
    first_cpu (cell_cpu_set c1) = first_cpu (cell_cpu_set c2) -> c1 = c2;
}.

(** The caller of a hypercall is the first CPU of its (registered) cell. *)
Definition caller_ok (cells : list cell) (p : per_cpu) : Prop :=
  pc_cell p ∈ cells /\ first_cpu (cell_cpu_set (pc_cell p)) = Some (cpu_id p).

Section Invariant.
Context {H : Type} `{IrqSink H}.
Implicit Types s : arbiter H.

Record arb_inv (cells : list cell) (s : arbiter H) : Prop := {
  inv_lock : memory_lock s = false;
  inv_len : length (memory_requests s) = Z.to_nat NUM_REQUESTS;
  (** the token has the highest priority that is requested *)
  inv_max : forall j r, aget (memory_requests s) j = Some r -> 0 <= r <= token_priority s;
  inv_free : token_owner s = TOKEN_FREE -> token_priority s = TOKEN_NULL_PRIORITY;
  (** the owner has requested it *)
  inv_owner : token_owner s <> TOKEN_FREE ->
    aget (memory_requests s) (token_owner s) = Some (token_priority s) /\ 0 < token_priority s;
  (** every request is that of the first CPU of some cell *)
  inv_req : forall j r, aget (memory_requests s) j = Some r -> r <> 0 ->
    exists c, c ∈ cells /\ first_cpu (cell_cpu_set c) = Some j /\ r = cell_priority c;
}.

(** Every CPU can take the two arbitration signals. *)
Definition signals_ready (h : H) : Prop :=
  forall cpu, 0 <= cpu < NUM_REQUESTS ->
    sink_ready h cpu SGI_MEMORY_PHASE_STARTED /\ sink_ready h cpu SGI_MEMORY_PHASE_ENDED.

Lemma cell_priority_bounds (c : cell) : 0 <= cell_priority c < 2 ^ 32.
Proof. apply u32_bounds. Qed.

Lemma arbiter_init_inv (cells : list cell) (h : H) : arb_inv cells (arbiter_init h).
Proof.
  assert (forall j r, aget (replicate 6 0) j = Some r -> r = 0) as Hz.
  { intros j r. unfold aget. zcase; [done|]. intros Hr.
    by apply lookup_replicate in Hr as [-> _]. }
  split; unfold arbiter_init; simpl; try done.
  - intros j r Hr. apply Hz in Hr. by subst.
  - intros j r Hr Hne. by apply Hz in Hr.
Qed.

Lemma owner_in_range cells s :
  arb_inv cells s -> token_owner s <> TOKEN_FREE -> 0 <= token_owner s < NUM_REQUESTS.
Proof.
  intros Hi Ho. destruct (inv_owner _ _ Hi Ho) as [Hg _].
  apply aget_Some_range in Hg. rewrite (inv_len _ _ Hi) in Hg. done.
Qed.

Lemma caller_in_range cells p :
  cells_ok cells -> caller_ok cells p -> 0 <= cpu_id p < NUM_REQUESTS.
Proof.
  intros Hc [Hin Hf]. destruct (cells_first _ Hc _ Hin) as (f & Hf' & ?).
  by simplify_eq.
Qed.

(** A request table entry of the caller is empty or its own priority. *)
Lemma caller_request cells s p r :
  cells_ok cells -> arb_inv cells s -> caller_ok cells p ->
  aget (memory_requests s) (cpu_id p) = Some r -> r = 0 \/ r = cell_priority (pc_cell p).
Proof.
  intros Hc Hi [Hin Hf] Hr. destruct (decide (r = 0)) as [|Hne]; [by left|right].
  destruct (inv_req _ _ Hi _ _ Hr Hne) as (c & Hcin & Hcf & ->).
  by rewrite (cells_unique _ Hc (pc_cell p) c Hin Hcin) by congruence.
Qed.

Lemma aget_insert_cases {A} (l : list A) (i j : Z) (x y : A) :
  0 <= i -> aget (<[Z.to_nat i := x]> l) j = Some y -> (j = i /\ y = x) \/
  (j <> i /\ aget l j = Some y).
Proof.
  intros Hi Hg. destruct (decide (j = i)) as [->|]; [|right].
  - left. pose proof (aget_Some_range _ _ _ Hg) as Hr. rewrite length_insert in Hr.
    rewrite aget_insert_eq in Hg by done. by simplify_eq.
  - by rewrite aget_insert_ne in Hg by done.
Qed.

Lemma set_request_Some s cpu prio :
  length (memory_requests s) = Z.to_nat NUM_REQUESTS -> 0 <= cpu < NUM_REQUESTS ->
  set_request s cpu prio =
  Some (mk_arbiter (memory_lock s) (<[Z.to_nat cpu := prio]> (memory_requests s))
          (token_owner s) (token_priority s) (irqs s)).
Proof.
  unfold NUM_REQUESTS. intros Hl Hc. unfold set_request.
  rewrite aset_in_range by lia. done.
Qed.

(** The effect of a signal on what the CPUs see. *)
Definition raised (h h' : H) (tgt irq : Z) : Prop :=
  forall cpu i, sink_sees h' cpu i <-> sink_sees h cpu i \/ (cpu = tgt /\ i = irq).

Lemma signal_ok s this tgt irq :
  is_u 10 irq -> sink_ready (irqs s) tgt irq ->
  exists h', signal s this tgt irq =
    Some (mk_arbiter (memory_lock s) (memory_requests s) (token_owner s) (token_priority s) h')
    /\ raised (irqs s) h' tgt irq.
Proof.
  intros Hu Hr. destruct (sink_raise_ok (irqs s) this tgt irq Hu Hr) as (h' & Hh & Hs).
  exists h'. unfold signal. by rewrite Hh.
Qed.

(** *** Requests *)

(** The state after a request: the caller takes the token iff its priority
    beats the current one, and a displaced owner gets the end signal. *)
Definition request_post (p : per_cpu) (s s' : arbiter H) : Prop :=
  let prio := cell_priority (pc_cell p) in
  memory_requests s' = <[Z.to_nat (cpu_id p) := prio]> (memory_requests s) /\
  memory_lock s' = false /\
  if prio >? token_priority s then
    token_owner s' = cpu_id p /\ token_priority s' = prio /\
    if negb (token_owner s =? TOKEN_FREE) && negb (token_owner s =? cpu_id p)
    then raised (irqs s) (irqs s') (token_owner s) SGI_MEMORY_PHASE_ENDED
    else irqs s' = irqs s
  else token_owner s' = token_owner s /\ token_priority s' = token_priority s /\
       irqs s' = irqs s.

(** The part of it that does not depend on the delivery of signals. *)
Definition request_tok (p : per_cpu) (s s' : arbiter H) : Prop :=
  let prio := cell_priority (pc_cell p) in
  memory_requests s' = <[Z.to_nat (cpu_id p) := prio]> (memory_requests s) /\
  memory_lock s' = false /\
  if prio >? token_priority s
  then token_owner s' = cpu_id p /\ token_priority s' = prio
  else token_owner s' = token_owner s /\ token_priority s' = token_priority s.

Lemma signal_fields s s' this tgt irq :
  signal s this tgt irq = Some s' ->
  memory_lock s' = memory_lock s /\ memory_requests s' = memory_requests s /\
  token_owner s' = token_owner s /\ token_priority s' = token_priority s.
Proof.
  unfold signal. destruct (sink_raise _ _ _ _); simpl; intros; by simplify_eq.
Qed.

Lemma request_memory_tok cells s s' p r :
  cells_ok cells -> arb_inv cells s -> caller_ok cells p ->
  request_memory p s = Some (r, s') ->
  request_tok p s s' /\ r = (if token_owner s' =? cpu_id p then 1 else 0).
Proof.
  intros Hc Hi Hp. pose proof (caller_in_range _ _ Hc Hp) as Hr.
  unfold request_memory, request_tok, spin_lock. rewrite (inv_lock _ _ Hi). simpl.
  rewrite set_request_Some by (simpl; eauto using inv_len). simpl.
  zcase; simpl; [|intros; by simplify_eq].
  destruct (negb (token_owner s =? TOKEN_FREE) && negb (token_owner s =? cpu_id p));
    simpl; [|intros; by simplify_eq].
  destruct (signal _ _ _ _) as [s1|] eqn:Hs; [|done]. apply signal_fields in Hs as (? & ? & ? & ?).
  simpl in *. intros; simplify_eq. done.
Qed.

Lemma request_memory_run cells s p :
  cells_ok cells -> arb_inv cells s -> caller_ok cells p -> signals_ready (irqs s) ->
  exists r s', request_memory p s = Some (r, s') /\
    r = (if token_owner s' =? cpu_id p then 1 else 0) /\ request_post p s s'.
Proof.
  intros Hc Hi Hp Hrdy. pose proof (caller_in_range _ _ Hc Hp) as Hr.
  unfold request_memory, request_post, spin_lock. rewrite (inv_lock _ _ Hi). simpl.
  rewrite set_request_Some by (simpl; eauto using inv_len). simpl.
  zcase; simpl; [|eexists _, _; split; [done|]; by split_and!].
  destruct (negb (token_owner s =? TOKEN_FREE) && negb (token_owner s =? cpu_id p)) eqn:E;
    simpl; [|eexists _, _; split; [done|]; by split_and!].
  b2p. destruct (signal_ok (mk_arbiter true
    (<[Z.to_nat (cpu_id p) := cell_priority (pc_cell p)]> (memory_requests s))
    (token_owner s) (token_priority s) (irqs s)) (cpu_id p) (token_owner s)
    SGI_MEMORY_PHASE_ENDED) as (h' & -> & Hh).
  - done.
  - apply Hrdy. by eapply owner_in_range.
  - simpl. eexists _, _. split; [done|]. by split_and!.
Qed.

Lemma request_tok_inv cells s s' p :
  cells_ok cells -> arb_inv cells s -> caller_ok cells p ->
  request_tok p s s' -> arb_inv cells s'.
Proof.
  intros Hc Hi Hp (Hreq & Hlock & Hrest). pose proof (caller_in_range _ _ Hc Hp) as Hr.
  pose proof (cell_priority_bounds (pc_cell p)) as Hb.
  assert (forall j r, aget (memory_requests s') j = Some r ->
    (j = cpu_id p /\ r = cell_priority (pc_cell p)) \/
    (j <> cpu_id p /\ aget (memory_requests s) j = Some r)) as Hg.
  { intros j r. rewrite Hreq. apply aget_insert_cases. lia. }
  assert (aget (memory_requests s') (cpu_id p) = Some (cell_priority (pc_cell p))) as Hself.
  { rewrite Hreq. apply aget_insert_eq. rewrite (inv_len _ _ Hi). done. }
  split; try done.
  - rewrite Hreq, length_insert. apply (inv_len _ _ Hi).
  - intros j r [[-> ->]|[? Hj]]%Hg; zcase_in Hrest; destruct Hrest as (_ & ->); try lia;
      pose proof (inv_max _ _ Hi _ _ Hj); lia.
  - zcase_in Hrest; destruct Hrest as (-> & ->); [|apply (inv_free _ _ Hi)].
    unfold TOKEN_FREE, NUM_REQUESTS in *. lia.
  - zcase_in Hrest; destruct Hrest as (-> & ->).
    + intros _. split; [done|]. pose proof (inv_max _ _ Hi) as Hm.
      destruct (aget_in_range (memory_requests s) (cpu_id p)) as [r Hrr];
        [rewrite (inv_len _ _ Hi); done|]. pose proof (Hm _ _ Hrr). lia.
    + intros Ho. destruct (inv_owner _ _ Hi Ho) as [Hown Hpos]. split; [|done].
      destruct (decide (token_owner s = cpu_id p)) as [He|].
      * destruct (caller_request _ _ _ _ Hc Hi Hp ltac:(rewrite <- He; exact Hown)); [lia|].
        congruence.
      * rewrite Hreq, aget_insert_ne; [done|lia|done].
  - intros j r [[-> ->]|[? Hj]]%Hg Hne; [|by apply (inv_req _ _ Hi)].
    destruct Hp as [Hin Hf]. eauto.
Qed.

(** *** Releases *)

(** The request of the first CPU of a cell. *)
Definition cell_request (reqs : list Z) (c : cell) : option Z :=
  f ← first_cpu (cell_cpu_set c); aget reqs f.

(** The scan picks the first cell, in list order, of the highest request above
    [prio]; without one it keeps what it started with. *)
Lemma next_owner_spec cells reqs (owner prio : Z) :
  (forall c, c ∈ cells -> is_Some (cell_request reqs c)) ->
  exists o' p', next_owner cells reqs owner prio = Some (o', p') /\ prio <= p' /\
    (forall c r, c ∈ cells -> cell_request reqs c = Some r -> r <= p') /\
    ((o' = owner /\ p' = prio) \/
     exists l1 c l2, cells = l1 ++ c :: l2 /\ first_cpu (cell_cpu_set c) = Some o' /\
       aget reqs o' = Some p' /\ prio < p' /\
       forall c' r, c' ∈ l1 -> cell_request reqs c' = Some r -> r < p').
Proof.
  revert owner prio. induction cells as [|c cells IH]; intros owner prio Hall; simpl.
  { exists owner, prio. split_and!; [done|lia| |by left]. by intros ??[]%not_elem_of_nil. }
  destruct (Hall c (list_elem_of_here _ _)) as [r Hr]. pose proof Hr as Hr'.
  unfold cell_request in Hr'. destruct (first_cpu (cell_cpu_set c)) as [f|] eqn:Hf; [|done].
  simpl in *. rewrite Hr'. simpl.
  assert (forall c, c ∈ cells -> is_Some (cell_request reqs c)) as Hall'
    by (intros; by apply Hall, list_elem_of_further).
  zcase.
  - destruct (IH f r Hall') as (o' & p' & -> & Hle & Hmax & Hcase). exists o', p'.
    split; [done|]. split; [lia|]. split.
    { intros c' r' [->|Hin]%elem_of_cons Hc'; [simplify_eq; lia|eauto]. }
    right. destruct Hcase as [[-> ->]|(l1 & c1 & l2 & -> & ? & ? & ? & Hl)].
    + exists [], c, cells. split_and!; try done. by intros ??[]%not_elem_of_nil.
    + exists (c :: l1), c1, l2. split_and!; try done; [lia|].
      intros c' r' [->|Hin]%elem_of_cons Hc'; [simplify_eq; lia|eauto].
  - destruct (IH owner prio Hall') as (o' & p' & -> & Hle & Hmax & Hcase). exists o', p'.
    split; [done|]. split; [lia|]. split.
    { intros c' r' [->|Hin]%elem_of_cons Hc'; [simplify_eq; lia|eauto]. }
    destruct Hcase as [?|(l1 & c1 & l2 & -> & ? & ? & ? & Hl)]; [by left|right].
    exists (c :: l1), c1, l2. split_and!; try done.
    intros c' r' [->|Hin]%elem_of_cons Hc'; [simplify_eq; lia|eauto].
Qed.

(** The state after a release of CPU [cpu]. *)
Definition release_post (cells : list cell) (cpu : Z) (s s' : arbiter H) : Prop :=
  let reqs := <[Z.to_nat cpu := TOKEN_NULL_PRIORITY]> (memory_requests s) in
  memory_requests s' = reqs /\ memory_lock s' = false /\
  if token_owner s =? cpu then
    (forall c r, c ∈ cells -> cell_request reqs c = Some r -> r <= token_priority s') /\
    ((token_owner s' = TOKEN_FREE /\ token_priority s' = TOKEN_NULL_PRIORITY /\
      irqs s' = irqs s) \/
     exists l1 c l2, cells = l1 ++ c :: l2 /\
       first_cpu (cell_cpu_set c) = Some (token_owner s') /\
       aget reqs (token_owner s') = Some (token_priority s') /\ 0 < token_priority s' /\
       (forall c' r, c' ∈ l1 -> cell_request reqs c' = Some r -> r < token_priority s') /\
       raised (irqs s) (irqs s') (token_owner s') SGI_MEMORY_PHASE_STARTED)
  else token_owner s' = token_owner s /\ token_priority s' = token_priority s /\
       irqs s' = irqs s.

(** The part of it that does not depend on the delivery of signals. *)
Definition release_tok (cells : list cell) (cpu : Z) (s s' : arbiter H) : Prop :=
  let reqs := <[Z.to_nat cpu := TOKEN_NULL_PRIORITY]> (memory_requests s) in
  memory_requests s' = reqs /\ memory_lock s' = false /\
  if token_owner s =? cpu then
    next_owner cells reqs TOKEN_FREE TOKEN_NULL_PRIORITY =
      Some (token_owner s', token_priority s')
  else token_owner s' = token_owner s /\ token_priority s' = token_priority s.

Lemma disable_memory_request_tok cells s s' cpu r :
  memory_lock s = false -> length (memory_requests s) = Z.to_nat NUM_REQUESTS ->
  0 <= cpu < NUM_REQUESTS ->
  disable_memory_request cells cpu s = Some (r, s') -> release_tok cells cpu s s' /\ r = 0.
Proof.
  intros Hl Hn0 Hr. unfold disable_memory_request, release_tok, spin_lock.
  rewrite Hl. simpl. rewrite set_request_Some by done. simpl.
  zcase; simpl; [|intros; by simplify_eq].
  destruct (next_owner _ _ _ _) as [[o p]|] eqn:Hn; [|done]. simpl. unfold set_token. simpl.
  destruct (negb (o =? TOKEN_FREE)); simpl; [|intros; by simplify_eq].
  destruct (signal _ _ _ _) as [s1|] eqn:Hs; [|done]. apply signal_fields in Hs as (? & ? & ? & ?).
  simpl in *. intros; simplify_eq. by split_and!.
Qed.

(** The scan over the requests of the registered cells. *)
Lemma next_owner_cells cells s cpu :
  cells_ok cells -> arb_inv cells s -> 0 <= cpu < NUM_REQUESTS ->
  let reqs := <[Z.to_nat cpu := TOKEN_NULL_PRIORITY]> (memory_requests s) in
  forall c, c ∈ cells -> is_Some (cell_request reqs c).
Proof.
  intros Hc Hi Hr reqs c Hin. destruct (cells_first _ Hc c Hin) as (f & Hf & Hfr).
  unfold cell_request. rewrite Hf. simpl. apply aget_in_range. subst reqs.
  rewrite length_insert, (inv_len _ _ Hi). done.
Qed.

Lemma disable_memory_request_run cells s cpu :
  cells_ok cells -> arb_inv cells s -> 0 <= cpu < NUM_REQUESTS -> signals_ready (irqs s) ->
  exists s', disable_memory_request cells cpu s = Some (0, s') /\ release_post cells cpu s s'.
Proof.
  intros Hc Hi Hr Hrdy. unfold disable_memory_request, release_post, spin_lock.
  rewrite (inv_lock _ _ Hi). simpl.
  rewrite set_request_Some by (simpl; eauto using inv_len). simpl.
  set (reqs := <[Z.to_nat cpu := TOKEN_NULL_PRIORITY]> (memory_requests s)) in *.
  zcase; simpl; [|eexists; split; [done|]; by split_and!].
  destruct (next_owner_spec cells reqs TOKEN_FREE TOKEN_NULL_PRIORITY)
    as (o' & p' & -> & Hle & Hmax & Hcase).
  { by apply (next_owner_cells cells s cpu). }
  simpl. unfold set_token. simpl.
  destruct Hcase as [[-> ->]|(l1 & c & l2 & -> & Hf & Hg & Hpos & Hl1)].
  { simpl. eexists. split; [done|]. split_and!; try done. by left. }
  destruct (cells_first _ Hc c) as (f & Hf' & Hfr).
  { apply elem_of_app. right. apply list_elem_of_here. }
  rewrite Hf in Hf'. injection Hf' as <-. zcase; [|unfold TOKEN_FREE, NUM_REQUESTS in *; lia].
  destruct (signal_ok (mk_arbiter true reqs o' p' (irqs s)) cpu o' SGI_MEMORY_PHASE_STARTED)
    as (h' & -> & Hh); [done|by apply Hrdy|].
  simpl. eexists. split; [done|]. split_and!; try done. right.
  exists l1, c, l2. by split_and!.
Qed.

Lemma release_tok_inv cells s s' cpu :
  cells_ok cells -> arb_inv cells s -> 0 <= cpu < NUM_REQUESTS ->
  release_tok cells cpu s s' -> arb_inv cells s'.
Proof.
  intros Hc Hi Hr (Hreq & Hlock & Hrest).
  assert (forall j r, aget (memory_requests s') j = Some r ->
    (j = cpu /\ r = 0) \/ (j <> cpu /\ aget (memory_requests s) j = Some r)) as Hg.
  { intros j r. rewrite Hreq. apply aget_insert_cases. lia. }
  assert (inv_req' : forall j r, aget (memory_requests s') j = Some r -> r <> 0 ->
    exists c, c ∈ cells /\ first_cpu (cell_cpu_set c) = Some j /\ r = cell_priority c).
  { intros j r [[-> ->]|[? Hj]]%Hg Hne; [done|]. by apply (inv_req _ _ Hi). }
  assert (length (memory_requests s') = Z.to_nat NUM_REQUESTS) as Hlen.
  { rewrite Hreq, length_insert. apply (inv_len _ _ Hi). }
  assert (forall j r, aget (memory_requests s') j = Some r -> 0 <= r) as Hpos.
  { intros j r [[-> ->]|[? Hj]]%Hg; [done|]. by apply (inv_max _ _ Hi j). }
  zcase_in Hrest.
  - destruct (next_owner_spec cells (memory_requests s') TOKEN_FREE TOKEN_NULL_PRIORITY)
      as (o' & p' & Hno & Hle & Hmax & Hcase).
    { rewrite Hreq. by apply (next_owner_cells cells s cpu). }
    rewrite Hreq, Hrest in Hno. injection Hno as <- <-. split; try done.
    + intros j r Hj. split; [by apply (Hpos j)|].
      destruct (decide (r = 0)) as [->|Hne]; [done|].
      destruct (inv_req' j r Hj Hne) as (c & Hin & Hf & _).
      apply (Hmax c); [done|]. unfold cell_request. by rewrite Hf.
    + intros Ho. destruct Hcase as [[_ ->]|(l1 & c & l2 & Hcs & Hf & _)]; [done|].
      destruct (cells_first _ Hc c) as (f & Hf' & Hfr).
      { rewrite Hcs. apply elem_of_app. right. apply list_elem_of_here. }
      rewrite Ho in Hf. simplify_eq. unfold TOKEN_FREE, NUM_REQUESTS in *. lia.
    + intros Ho. destruct Hcase as [[? _]|(l1 & c & l2 & _ & _ & Hget & ? & _)]; done.
  - destruct Hrest as [Ho Hp]. split; try done; rewrite ?Ho, ?Hp.
    + intros j r Hj. split; [by apply (Hpos j)|]. apply Hg in Hj as [[-> ->]|[? Hj]];
        [|by apply (inv_max _ _ Hi j)].
      destruct (aget_in_range (memory_requests s) cpu) as [x Hx];
        [rewrite (inv_len _ _ Hi); done|]. pose proof (inv_max _ _ Hi _ _ Hx). lia.
    + apply (inv_free _ _ Hi).
    + rewrite Hreq, aget_insert_ne by lia. apply (inv_owner _ _ Hi).
Qed.

(** The overhead measurement at priority 0 is a release. *)
Lemma overhead_is_release fuel r cells p s s' res :
  arb_inv cells s -> 0 <= cpu_id p < NUM_REQUESTS ->
  enable_memory_request_test_arbitration_overhead fuel r cells p 0 s = Some (res, s') ->
  release_tok cells (cpu_id p) s s'.
Proof.
  intros Hi Hr. unfold enable_memory_request_test_arbitration_overhead, spin_lock.
  rewrite (inv_lock _ _ Hi). simpl.
  rewrite set_request_Some by (simpl; eauto using inv_len). simpl.
  assert (0 <= token_priority s) as Hp.
  { destruct (aget_in_range (memory_requests s) (cpu_id p)) as [x Hx];
      [rewrite (inv_len _ _ Hi); done|]. pose proof (inv_max _ _ Hi _ _ Hx). lia. }
  zcase; [lia|]. simpl. destruct (timer_ticks_to_ns _ _ _); [|done]. simpl.
  destruct (disable_memory_request _ _ _) as [[x s2]|] eqn:Hd; [|done].
  apply disable_memory_request_tok in Hd as [Ht _]; simpl; try done;
    [|rewrite length_insert; apply (inv_len _ _ Hi)].
  intros [= <- <-]. unfold release_tok in *. simpl in *.
  rewrite list_insert_insert_eq in Ht. done.
Qed.

(** *** Runs of the arbiter *)

(** A run interleaves hypercalls of registered callers, parked CPUs and the
    consumption of signals by the cells. *)
Inductive arb_step (cells : list cell) : arbiter H -> arbiter H -> Prop :=
  | step_hypercall fuel regs p code r s s' :
      caller_ok cells p ->
      fixed_priority_hypercall fuel regs cells p code s = Some (r, s') ->
      arb_step cells s s'
  | step_park cpu s s' :
      0 <= cpu < NUM_REQUESTS -> on_arch_park_cpu cells cpu s = Some s' ->
      arb_step cells s s'
  | step_irq h s :
      arb_step cells s (mk_arbiter (memory_lock s) (memory_requests s)
                          (token_owner s) (token_priority s) h).

Lemma arb_step_inv cells s s' :
  cells_ok cells -> arb_inv cells s -> arb_step cells s s' -> arb_inv cells s'.
Proof.
  intros Hc Hi Hstep. inversion Hstep as [fuel regs p code r s1 s2 Hp Hh|cpu s1 s2 Hr Hk|h s1];
    subst.
  - pose proof (caller_in_range _ _ Hc Hp) as Hr. unfold fixed_priority_hypercall in Hh.
    zcase_in Hh; [|zcase_in Hh; [|zcase_in Hh; [|by simplify_eq]]].
    + destruct (request_memory p s) as [[x s3]|] eqn:Hq; [|done]. simpl in Hh.
      eapply request_memory_tok in Hq as [Ht _]; [|done..].
      simplify_eq. by eapply request_tok_inv.
    + destruct (disable_memory_request _ _ s) as [[x s3]|] eqn:Hq; [|done]. simpl in Hh.
      apply disable_memory_request_tok in Hq as [Ht _]; [|by eapply inv_lock|by eapply inv_len|done].
      simplify_eq. by eapply release_tok_inv.
    + destruct (enable_memory_request_test_arbitration_overhead _ _ _ _ _ _)
        as [[x s3]|] eqn:Hq; [|done]. simpl in Hh.
      eapply overhead_is_release in Hq; [|done..]. simplify_eq. by eapply release_tok_inv.
  - unfold on_arch_park_cpu in Hk.
    destruct (disable_memory_request _ _ s) as [[x s3]|] eqn:Hq; [|done]. simpl in Hk.
    apply disable_memory_request_tok in Hq as [Ht _]; [|by eapply inv_lock|by eapply inv_len|done].
    simplify_eq. by eapply release_tok_inv.
  - destruct Hi. by split.
Qed.

Lemma arb_reachable_inv cells h s :
  cells_ok cells -> rtc (arb_step cells) (arbiter_init h) s -> arb_inv cells s.
Proof.
  intros Hc Hs. remember (arbiter_init h) as s0 eqn:E.
  assert (arb_inv cells s0) as Hi by (subst; apply arbiter_init_inv). clear E.
  induction Hs; [done|]. eauto using arb_step_inv.
Qed.

End Invariant.

(** ** Properties *)

Section Properties.
Context {H : Type} `{IrqSink H}.

(** C2: in every reachable state the token is free exactly when no CPU
    requests it, and otherwise it is held by a requesting CPU whose priority is
    at least that of every outstanding request. *)
Theorem token_highest_priority cells (h : H) (s : arbiter H) :
  cells_ok cells -> rtc (arb_step cells) (arbiter_init h) s ->
  (token_owner s = TOKEN_FREE <->
     forall j r, aget (memory_requests s) j = Some r -> r = TOKEN_NULL_PRIORITY) /\
  (token_owner s <> TOKEN_FREE ->
     aget (memory_requests s) (token_owner s) = Some (token_priority s) /\
     TOKEN_NULL_PRIORITY < token_priority s /\
     forall j r, aget (memory_requests s) j = Some r -> r <= token_priority s).
Proof.
  intros Hc Hr. apply arb_reachable_inv in Hr as Hi; [|done]. split; [split|].
  - intros Hf j r Hj. pose proof (inv_max _ _ Hi _ _ Hj).
    rewrite (inv_free _ _ Hi Hf) in *. unfold TOKEN_NULL_PRIORITY in *. lia.
  - intros Hall. destruct (decide (token_owner s = TOKEN_FREE)) as [|Hn]; [done|].
    destruct (inv_owner _ _ Hi Hn) as [Hg ?]. apply Hall in Hg.
    unfold TOKEN_NULL_PRIORITY in *. lia.
  - intros Hn. destruct (inv_owner _ _ Hi Hn). split_and!; try done.
    intros j r Hj. by apply (inv_max _ _ Hi j).
Qed.

(** C9: a begin-memory-phase hypercall always returns; it answers ACK exactly
    when the caller owns the token afterwards, the caller gets the token iff
    its priority beats that of the token (else nothing but its request
    changes), and a displaced owner is sent the end signal. *)
Theorem begin_hypercall_correct fuel regs cells (s : arbiter H) p :
  cells_ok cells -> arb_inv cells s -> caller_ok cells p -> signals_ready (irqs s) ->
  exists r s', fixed_priority_hypercall fuel regs cells p BEGIN_MEM_PHASE s = Some (r, s') /\
    r = (if token_owner s' =? cpu_id p then ARBITRATION_ACK else ARBITRATION_NACK) /\
    request_post p s s' /\ arb_inv cells s'.
Proof.
  intros Hc Hi Hp Hr. destruct (request_memory_run _ _ _ Hc Hi Hp Hr) as (r & s' & Hrun & -> & Hpost).
  exists (if token_owner s' =? cpu_id p then ARBITRATION_ACK else ARBITRATION_NACK), s'.
  unfold fixed_priority_hypercall. simpl. rewrite Hrun. simpl.
  split_and!; try done.
  - by destruct (token_owner s' =? cpu_id p).
  - eapply request_memory_tok in Hrun as [Ht _]; [|done..]. by eapply request_tok_inv.
Qed.

(** C10: an end-memory-phase hypercall always returns ACK; if the caller owned
    the token it goes to the first cell of highest outstanding priority, which
    is sent the start signal, or becomes free when nobody requests it; if the
    caller did not own it the token stays where it is. *)
Theorem end_hypercall_correct fuel regs cells (s : arbiter H) p :
  cells_ok cells -> arb_inv cells s -> caller_ok cells p -> signals_ready (irqs s) ->
  exists s', fixed_priority_hypercall fuel regs cells p END_MEM_PHASE s =
      Some (ARBITRATION_ACK, s') /\
    release_post cells (cpu_id p) s s' /\ arb_inv cells s'.
Proof.
  intros Hc Hi Hp Hr. pose proof (caller_in_range _ _ Hc Hp) as Hcpu.
  destruct (disable_memory_request_run _ _ _ Hc Hi Hcpu Hr) as (s' & Hrun & Hpost).
  exists s'. unfold fixed_priority_hypercall. simpl. rewrite Hrun. simpl.
  split_and!; try done.
  eapply disable_memory_request_tok in Hrun as [Ht _];
    [by eapply release_tok_inv|by eapply inv_lock|by eapply inv_len|done].
Qed.

(** a cell with id 6 has the null priority: its requests are answered NACK
    and leave owner and priority of the token unchanged, whoever holds it. *)
Theorem cell_six_never_granted fuel regs cells (s : arbiter H) p :
  cells_ok cells -> arb_inv cells s -> caller_ok cells p -> signals_ready (irqs s) ->
  id (config (pc_cell p)) = 6 ->
  exists s', fixed_priority_hypercall fuel regs cells p BEGIN_MEM_PHASE s =
      Some (ARBITRATION_NACK, s') /\
    token_owner s' = token_owner s /\ token_priority s' = token_priority s /\
    irqs s' = irqs s.
Proof.
  intros Hc Hi Hp Hr Hid. pose proof (caller_in_range _ _ Hc Hp) as Hcpu.
  destruct (request_memory_run _ _ _ Hc Hi Hp Hr) as (r & s' & Hrun & -> & _ & _ & Hpost).
  assert (cell_priority (pc_cell p) = 0) as Hprio
    by (unfold cell_priority; rewrite Hid; done).
  destruct (aget_in_range (memory_requests s) (cpu_id p)) as [x Hx];
    [rewrite (inv_len _ _ Hi); done|].
  pose proof (inv_max _ _ Hi _ _ Hx). rewrite Hprio in Hpost.
  zcase_in Hpost; [lia|]. destruct Hpost as (Ho & ? & ?). exists s'.
  unfold fixed_priority_hypercall. simpl. rewrite Hrun, Ho. simpl.
  destruct (token_owner s =? cpu_id p) eqn:Hown'; [|done]. b2p. exfalso. unfold NUM_REQUESTS, TOKEN_FREE in *.
  destruct (inv_owner _ _ Hi ltac:(unfold TOKEN_FREE; lia)) as [Hown ?].
  destruct (caller_request _ _ _ _ Hc Hi Hp ltac:(rewrite <- Hown'; exact Hown)); lia.
Qed.

End Properties.

(** up to id 6 a higher cell id means a lower priority, as the comment on
    MAX_PRIORITY says; above it the unsigned subtraction wraps around and the
    priority exceeds MAX_PRIORITY, hence that of every cell with id 0 to 6. *)
Theorem cell_priority_order (c1 c2 : cell) :
  0 <= id (config c1) < id (config c2) -> id (config c2) < 2 ^ 32 ->
  (id (config c2) <= 6 -> cell_priority c2 < cell_priority c1) /\
  (6 < id (config c2) -> id (config c1) <= 6 ->
     MAX_PRIORITY < cell_priority c2 /\ cell_priority c1 < cell_priority c2).
Proof.
  intros H1 H2. unfold cell_priority, MAX_PRIORITY. split; intros.
  - rewrite !u32_small by lia. lia.
  - rewrite (u32_small (6 - id (config c1))) by lia.
    replace (u32 (6 - id (config c2))) with (2 ^ 32 + 6 - id (config c2)); [lia|].
    unfold u32, wrap. rewrite <- (Z.mod_add _ 1) by done.
    rewrite Z.mod_small; lia.
Qed.

(** with a timer of at least 1 MHz the tick conversion terminates; the
    emulated division rounds an exact quotient down by one. *)
Theorem emul_division_exact (fuel : nat) (val div : Z) :
  0 < div -> 0 <= val < 2 ^ 64 -> (Z.to_nat val <= fuel)%nat ->
  emul_division fuel val div 0 =
  Some (if (val mod div =? 0) && (0 <? val) then val / div - 1 else val / div).
Proof.
  intros Hd Hv Hf. rewrite emul_division_spec by lia. f_equal. rewrite Z.add_0_l.
  pose proof (Z.div_mod val div ltac:(lia)) as Hdm.
  pose proof (Z.mod_pos_bound val div Hd) as Hm. zcase.
  - assert ((val - 1) / div = val / div - 1) as ->.
    { symmetry. apply (Z.div_unique _ _ _ (div - 1)); lia. }
    assert (1 <= val / div) by nia. lia.
  - destruct (decide (val = 0)) as [->|].
    + rewrite Z.div_0_l by lia. apply Z.max_l.
      assert ((0 - 1) / div < 0) by (apply Z.div_lt_upper_bound; lia). lia.
    + assert ((val - 1) / div = val / div) as ->.
      { symmetry. apply (Z.div_unique _ _ _ (val mod div - 1)); lia. }
      apply Z.max_r. apply Z.div_pos; lia.
Qed.

(** ** Witnesses: a root cell on CPUs 1, 2 and 5 and three single-CPU cells *)

Definition demo_root : cell := mk_cell (mk_cell_desc 0 0 0) (mk_cpu_set 5 38) [].
Definition demo_cell (i cpu : Z) : cell :=
  mk_cell (mk_cell_desc i 0 0) (mk_cpu_set 5 (Z.shiftl 1 cpu)) [].
Definition demo_cells : list cell := [demo_root; demo_cell 1 0; demo_cell 2 3; demo_cell 6 4].
Definition demo_cpu (i cpu : Z) : per_cpu := mk_per_cpu cpu (demo_cell i cpu).
Definition demo_regs : sysregs := mk_sysregs 31250000 0 0.

(** Cell 2 on CPU 3 has the token. *)
Definition demo_held : arbiter (list (Z * Z)) := mk_arbiter false [0; 0; 0; 4; 0; 0] 3 4 [].

Lemma demo_cells_ok : cells_ok demo_cells.
Proof.
  split.
  - intros c Hc. repeat (apply elem_of_cons in Hc as [->|Hc];
      [eexists; split; [vm_compute; reflexivity|unfold NUM_REQUESTS; lia]|]).
    by apply not_elem_of_nil in Hc.
  - intros c1 c2 H1 H2.
    repeat (apply elem_of_cons in H1 as [->|H1]); repeat (apply elem_of_cons in H2 as [->|H2]);
      try (by apply not_elem_of_nil in H1); try (by apply not_elem_of_nil in H2);
      vm_compute; intros; done.
Qed.

Lemma demo_caller (i cpu : Z) :
  demo_cell i cpu ∈ demo_cells -> first_cpu (cell_cpu_set (demo_cell i cpu)) = Some cpu ->
  caller_ok demo_cells (demo_cpu i cpu).
Proof. by split. Qed.

Lemma demo_cell_in (i cpu : Z) :
  (i, cpu) ∈ [(1, 0); (2, 3); (6, 4)] -> demo_cell i cpu ∈ demo_cells.
Proof.
  intros Hin. unfold demo_cells. rewrite !elem_of_cons.
  repeat (apply elem_of_cons in Hin as [[= -> ->]|Hin]; [eauto 10|]).
  by apply not_elem_of_nil in Hin.
Qed.

Lemma demo_caller_1 : caller_ok demo_cells (demo_cpu 1 0).
Proof. apply demo_caller; [apply demo_cell_in; set_solver|reflexivity]. Qed.

Lemma demo_caller_2 : caller_ok demo_cells (demo_cpu 2 3).
Proof. apply demo_caller; [apply demo_cell_in; set_solver|reflexivity]. Qed.

Lemma demo_caller_6 : caller_ok demo_cells (demo_cpu 6 4).
Proof. apply demo_caller; [apply demo_cell_in; set_solver|reflexivity]. Qed.

Lemma demo_held_reachable : rtc (arb_step demo_cells) (arbiter_init []) demo_held.
Proof.
  eapply rtc_l; [|apply rtc_refl].
  eapply (step_hypercall _ 0 demo_regs (demo_cpu 2 3) BEGIN_MEM_PHASE);
    [apply demo_caller_2|vm_compute; reflexivity].
Qed.

Lemma demo_held_inv : arb_inv demo_cells demo_held.
Proof. eapply arb_reachable_inv; [apply demo_cells_ok|apply demo_held_reachable]. Qed.

Lemma demo_ready (l : list (Z * Z)) : signals_ready l.
Proof. by intros cpu _. Qed.

Lemma token_highest_priority_witness :
  token_owner demo_held <> TOKEN_FREE /\ TOKEN_NULL_PRIORITY < token_priority demo_held.
Proof.
  split; [done|].
  apply (token_highest_priority demo_cells [] demo_held demo_cells_ok demo_held_reachable).
  done.
Defined.

Lemma begin_hypercall_witness : exists r s',
  fixed_priority_hypercall 0 demo_regs demo_cells (demo_cpu 1 0) BEGIN_MEM_PHASE demo_held =
  Some (r, s').
Proof.
  destruct (begin_hypercall_correct 0 demo_regs demo_cells demo_held (demo_cpu 1 0)
    demo_cells_ok demo_held_inv demo_caller_1 (demo_ready _)) as (r & s' & Hrun & _).
  exists r, s'. exact Hrun.
Defined.

Lemma end_hypercall_witness : exists s',
  fixed_priority_hypercall 0 demo_regs demo_cells (demo_cpu 2 3) END_MEM_PHASE demo_held =
  Some (ARBITRATION_ACK, s').
Proof.
  destruct (end_hypercall_correct 0 demo_regs demo_cells demo_held (demo_cpu 2 3)
    demo_cells_ok demo_held_inv demo_caller_2 (demo_ready _)) as (s' & Hrun & _).
  exists s'. exact Hrun.
Defined.

Lemma cell_six_witness : exists s',
  fixed_priority_hypercall 0 demo_regs demo_cells (demo_cpu 6 4) BEGIN_MEM_PHASE demo_held =
  Some (ARBITRATION_NACK, s').
Proof.
  destruct (cell_six_never_granted 0 demo_regs demo_cells demo_held (demo_cpu 6 4)
    demo_cells_ok demo_held_inv demo_caller_6 (demo_ready _) eq_refl) as (s' & Hrun & _).
  exists s'. exact Hrun.
Defined.

Lemma cell_priority_order_witness :
  MAX_PRIORITY < cell_priority (demo_cell 7 0) /\
  cell_priority (demo_cell 2 0) < cell_priority (demo_cell 1 0).
Proof.
  split.
  - apply (cell_priority_order (demo_cell 1 0) (demo_cell 7 0)); simpl; lia.
  - apply (cell_priority_order (demo_cell 1 0) (demo_cell 2 0)); simpl; lia.
Defined.

Lemma emul_division_witness : emul_division 62 62 31 0 = Some 1.
Proof. exact (emul_division_exact 62 62 31 ltac:(lia) ltac:(lia) ltac:(lia)). Defined.
