(* ===== verification/Tdma.v ===== *)
(** * The TDMA memory arbiter

    hypervisor/arch/arm64/tdma.c: the alternative to the fixed-priority
    arbiter. Time is divided into slots of [tdma_slot_period] ticks, one per
    cell; a cell is in its memory phase only during its slot, which the
    physical hypervisor timer of its CPU delimits. Commented-out code (the
    performance counter budget) is not modelled. *)

From Stdlib Require Import ZArith Lia.
From stdpp Require Import base tactics list list_numbers option relations.
From S2P Require Import Prelude Cell Irqchip.

Definition tdma_num_slots : Z := 3.
Definition S_TO_US (s : Z) : Z := u64 (s * 1000000).
Definition tdma_slot_period_us : Z := S_TO_US 2.
Definition CCPLEX_IRQ_SIZE : nat := 384.
Definition IRQ_PRIORITY_MIN : Z := 240.
Definition IRQ_PRIORITY_MAX : Z := 0.
Definition IRQ_PRIORITY_INC : Z := 16.
Definition IRQ_PRIORITY_THR : Z := 16.
Definition CNTHP_CTL_EL2_ENABLE : Z := 1.
Definition CNTHP_CTL_EL2_IMASK : Z := 2.
Definition UINT64_MAX : Z := 2 ^ 64 - 1.
Definition MDCR_EL2_HPME : Z := 128.
Definition MDCR_EL2_HPMN_MASK : Z := 31.
Definition PMU_INDEX : Z := 5.
Definition HYPERVISOR_TIMER_IRQ : Z := 26.
Definition GICD_ISENABLER : Z := 256.
Definition GICD_ICENABLER : Z := 384.

Definition TIMER_TARGET_START : Z := 0.
Definition TIMER_TARGET_END : Z := 1.

Definition STATE_COMPUTING_PHASE : Z := 0.
Definition STATE_MEMORY_PHASE : Z := 1.
Definition STATE_WAITING_FOR_MEMORY : Z := 2.
Definition STATE_BLOCKED_BY_OVERUSAGE : Z := 3.

Definition SGI_MEMORY_PHASE_ENDED : Z := 14.
Definition BEGIN_MEM_PHASE : Z := 1.
Definition END_MEM_PHASE : Z := 2.
Definition ARBITRATION_INVALID : Z := -1.
Definition ARBITRATION_ACK : Z := 0.
Definition ARBITRATION_NACK : Z := 1.

(** The TDMA fields of [struct per_cpu] and the banked system registers of a
    CPU that the code accesses. *)
Record tcpu := mk_tcpu {
  tdma_slot_id : Z;
  tdma_state : Z;
  tdma_suspended_from_state : Z;
  tdma_timer_target : Z;
  cnthp_ctl : Z;
  cnthp_cval : Z;
  mdcr_el2 : Z;
}.

Definition set_state (c : tcpu) (st : Z) : tcpu :=
  mk_tcpu (tdma_slot_id c) st (tdma_suspended_from_state c) (tdma_timer_target c)
    (cnthp_ctl c) (cnthp_cval c) (mdcr_el2 c).

Definition set_target (c : tcpu) (t : Z) : tcpu :=
  mk_tcpu (tdma_slot_id c) (tdma_state c) (tdma_suspended_from_state c) t
    (cnthp_ctl c) (cnthp_cval c) (mdcr_el2 c).

Definition set_ctl (c : tcpu) (v : Z) : tcpu :=
  mk_tcpu (tdma_slot_id c) (tdma_state c) (tdma_suspended_from_state c)
    (tdma_timer_target c) v (cnthp_cval c) (mdcr_el2 c).

(** ** Interrupt priorities

    The GICD_IPRIORITYR (and GICD_ITARGETSR) registers as a list of words. *)

Definition IRQ_BYTE_POSITION (x : Z) : Z := (x mod 4) * 8.
Definition IRQ_BYTE_MASK : Z := 255.

Definition gicv2_get_prio (words : list Z) (irqn : Z) : option Z :=
  prio ← aget words (irqn / 4);
  Some (Z.land (Z.shiftr prio (IRQ_BYTE_POSITION irqn)) IRQ_BYTE_MASK).

Definition gicv2_set_prio (words : list Z) (irqn prio : Z) : option (list Z) :=
  p ← aget words (irqn / 4);
  let p := Z.ldiff p (Z.shiftl IRQ_BYTE_MASK (IRQ_BYTE_POSITION irqn)) in
  let p := Z.lor p (Z.shiftl (Z.land prio IRQ_BYTE_MASK) (IRQ_BYTE_POSITION irqn)) in
  aset words (irqn / 4) p.

Definition gicv2_get_targets (words : list Z) (irqn : Z) : option Z :=
  t ← aget words (irqn / 4);
  Some (Z.land (Z.shiftr t (IRQ_BYTE_POSITION irqn)) IRQ_BYTE_MASK).

Definition gicv2_set_targets (words : list Z) (irqn targets : Z) : option (list Z) :=
  t ← aget words (irqn / 4);
  let t := Z.ldiff t (Z.shiftl IRQ_BYTE_MASK (IRQ_BYTE_POSITION irqn)) in
  let t := Z.lor t (Z.shiftl (Z.land targets IRQ_BYTE_MASK) (IRQ_BYTE_POSITION irqn)) in
  aset words (irqn / 4) t.

(** [while (prio < THR && prio < MIN - INC) prio += INC] *)
Fixpoint lower_prio (fuel : nat) (prio : Z) : option Z :=
  if (prio <? IRQ_PRIORITY_THR) && (prio <? IRQ_PRIORITY_MIN - IRQ_PRIORITY_INC) then
    match fuel with
    | O => None
    | S fuel => lower_prio fuel (u32 (prio + IRQ_PRIORITY_INC))
    end
  else Some prio.

(** The loop over the interrupts from [i] on. *)
Fixpoint init_priorities_loop (n : nat) (i : Z) (words : list Z) : option (list Z) :=
  match n with
  | O => Some words
  | S n =>
      prio ← gicv2_get_prio words i;
      prio ← lower_prio 16 prio;
      words ← gicv2_set_prio words i prio;
      init_priorities_loop n (i + 1) words
  end.

Definition tdma_init_priorities (words : list Z) : option (list Z) :=
  words ← init_priorities_loop CCPLEX_IRQ_SIZE 0 words;
  gicv2_set_prio words HYPERVISOR_TIMER_IRQ IRQ_PRIORITY_MAX.

(** ** The timer of a CPU *)

Definition tdma_timer_enable (c : tcpu) : tcpu :=
  set_ctl c (Z.lor (cnthp_ctl c) CNTHP_CTL_EL2_ENABLE).

Definition tdma_timer_disable (c : tcpu) : tcpu :=
  set_ctl c (Z.ldiff (cnthp_ctl c) CNTHP_CTL_EL2_ENABLE).

Definition tdma_timer_set_cmpval (c : tcpu) (cmp : Z) : tcpu :=
  mk_tcpu (tdma_slot_id c) (tdma_state c) (tdma_suspended_from_state c)
    (tdma_timer_target c) (cnthp_ctl c) cmp (mdcr_el2 c).

(** The register part of the interrupt enabling; the second component is the
    write to the distributor. *)
Definition tdma_timer_irq_enable (c : tcpu) : tcpu * (Z * Z) :=
  (set_ctl c (Z.ldiff (cnthp_ctl c) CNTHP_CTL_EL2_IMASK),
   (GICD_ISENABLER, Z.shiftl 1 HYPERVISOR_TIMER_IRQ)).

Definition tdma_timer_irq_disable (c : tcpu) : tcpu * (Z * Z) :=
  (set_ctl c (Z.lor (cnthp_ctl c) CNTHP_CTL_EL2_IMASK),
   (GICD_ICENABLER, Z.shiftl 1 HYPERVISOR_TIMER_IRQ)).

Definition tdma_timer_init (c : tcpu) : tcpu * (Z * Z) :=
  tdma_timer_irq_enable (tdma_timer_set_cmpval c UINT64_MAX).

(** [tdma_timer_start] at counter value [timer_count] for a slot length of
    [period] ticks; [None] for a division by zero. *)
Definition tdma_timer_start (period timer_count : Z) (c : tcpu) : option (bool * tcpu) :=
  let slot_id := u8 (tdma_slot_id c) in
  let cycle_period := u64 (period * tdma_num_slots) in
  if (period =? 0) || (cycle_period =? 0) then None else
  let current_slot_id := u8 ((timer_count / period) mod tdma_num_slots) in
  let cycle_start_timestamp := u64 (timer_count / cycle_period * cycle_period) in
  let '(mem, c) :=
    if current_slot_id =? slot_id then
      (true, set_target (tdma_timer_set_cmpval c
               (u64 (cycle_start_timestamp + u64 ((slot_id + 1) * period)))) TIMER_TARGET_END)
    else if current_slot_id <? slot_id then
      (false, set_target (tdma_timer_set_cmpval c
               (u64 (cycle_start_timestamp + u64 (slot_id * period)))) TIMER_TARGET_START)
    else
      (false, set_target (tdma_timer_set_cmpval c
               (u64 (cycle_start_timestamp + u64 (slot_id * period) + cycle_period)))
               TIMER_TARGET_START) in
  Some (mem, tdma_timer_enable c).

(** ** The arbiter *)

Section Tdma.
Context {H : Type} `{IrqSink H}.

(** The timer interrupt of CPU [cpu] (which executes it). *)
Definition tdma_timer_isr (period now cpu : Z) (c : tcpu) (h : H) : option (tcpu * H) :=
  if tdma_timer_target c =? TIMER_TARGET_START then
    let c := if tdma_state c =? STATE_BLOCKED_BY_OVERUSAGE
             then set_state c (tdma_suspended_from_state c) else c in
    if tdma_state c =? STATE_WAITING_FOR_MEMORY then
      r ← tdma_timer_start period now c;
      Some (set_state (snd r) STATE_MEMORY_PHASE, h)
    else Some (c, h)
  else if negb (tdma_state c =? STATE_MEMORY_PHASE) then Some (c, h)
  else
    h ← sink_raise cpu cpu SGI_MEMORY_PHASE_ENDED h;
    r ← tdma_timer_start period now c;
    Some (set_state (snd r) STATE_WAITING_FOR_MEMORY, h).

Definition tdma_handle_interrupt (period now cpu : Z) (irqn : Z) (c : tcpu) (h : H)
  : option (bool * tcpu * H) :=
  if irqn =? HYPERVISOR_TIMER_IRQ then
    r ← tdma_timer_isr period now cpu c h;
    Some (true, fst r, snd r)
  else Some (false, c, h).

Definition tdma_hypercall (period now : Z) (action_code : Z) (c : tcpu) : option (Z * tcpu) :=
  if action_code =? BEGIN_MEM_PHASE then
    if tdma_state c =? STATE_COMPUTING_PHASE then
      '(currently_in_mem_phase, c) ← tdma_timer_start period now c;
      if (currently_in_mem_phase : bool)
      then Some (ARBITRATION_ACK, set_state c STATE_MEMORY_PHASE)
      else Some (ARBITRATION_NACK, set_state c STATE_WAITING_FOR_MEMORY)
    else Some (ARBITRATION_INVALID, c)
  else if action_code =? END_MEM_PHASE then
    if tdma_state c =? STATE_COMPUTING_PHASE then Some (ARBITRATION_INVALID, c)
    else Some (ARBITRATION_ACK, set_state (tdma_timer_disable c) STATE_COMPUTING_PHASE)
  else Some (ARBITRATION_INVALID, c).

End Tdma.

(** *** Cell setup

    All CPUs, the slot length, the distributor writes and priorities. The code
    that runs on behalf of a cell reads and writes the banked registers of the
    CPU that executes it, [this_cpu]. *)
Record tdma_sys := mk_tdma_sys {
  tcpus : list tcpu;
  tdma_slot_period : Z;
  tdma_gicd_log : list (Z * Z);
  ipriorityr : list Z;
}.

Definition set_tcpu (s : tdma_sys) (cpu : Z) (c : tcpu) : option tdma_sys :=
  l ← aset (tcpus s) cpu c;
  Some (mk_tdma_sys l (tdma_slot_period s) (tdma_gicd_log s) (ipriorityr s)).

Definition tdma_setup_irq_target (this_cpu : Z) (this_is_root : bool) (s : tdma_sys)
  : option tdma_sys :=
  if this_is_root then Some s
  else
    c ← aget (tcpus s) this_cpu;
    let '(c, w) := tdma_timer_init c in
    s ← set_tcpu s this_cpu c;
    words ← tdma_init_priorities (ipriorityr s);
    Some (mk_tdma_sys (tcpus s) (tdma_slot_period s) (tdma_gicd_log s ++ [w]) words).

Definition tdma_on_cell_create (freq : Z) (is_root : bool) (cl : cell) (s : tdma_sys)
  : option tdma_sys :=
  cpu ← first_cpu (cell_cpu_set cl);
  c ← aget (tcpus s) cpu;
  let c := mk_tcpu (-1) STATE_COMPUTING_PHASE STATE_COMPUTING_PHASE 0
             (cnthp_ctl c) (cnthp_cval c) (mdcr_el2 c) in
  if is_root then set_tcpu s cpu c
  else
    let s := mk_tdma_sys (tcpus s) (u64 (tdma_slot_period_us * u32 freq) / S_TO_US 1)
               (tdma_gicd_log s) (ipriorityr s) in
    let slot := s8 (u32 (id (config cl) - 1)) in
    let slot := if slot >=? tdma_num_slots then -1 else slot in
    set_tcpu s cpu (mk_tcpu slot (tdma_state c) (tdma_suspended_from_state c)
      (tdma_timer_target c) (cnthp_ctl c) (cnthp_cval c) (mdcr_el2 c)).

Definition tdma_on_cell_destroy (this_cpu : Z) (is_root : bool) (cl : cell) (s : tdma_sys)
  : option tdma_sys :=
  cpu ← first_cpu (cell_cpu_set cl);
  _ ← aget (tcpus s) cpu;
  if is_root then Some s
  else
    c ← aget (tcpus s) this_cpu;
    let c := tdma_timer_disable c in
    let '(c, w) := tdma_timer_irq_disable c in
    let reg32 := Z.ldiff (u32 (mdcr_el2 c)) MDCR_EL2_HPMN_MASK in
    let reg32 := Z.lor reg32 (MDCR_EL2_HPME + PMU_INDEX + 1) in
    let c := mk_tcpu (tdma_slot_id c) (tdma_state c) (tdma_suspended_from_state c)
               (tdma_timer_target c) (cnthp_ctl c) (cnthp_cval c) reg32 in
    s ← set_tcpu s this_cpu c;
    Some (mk_tdma_sys (tcpus s) (tdma_slot_period s) (tdma_gicd_log s ++ [w]) (ipriorityr s)).

(** ** Byte fields of the distributor registers *)

Lemma testbit_255 (n : Z) : Z.testbit 255 n = (0 <=? n) && (n <? 8).
Proof.
  change 255 with (Z.ones 8). destruct (Z.leb_spec 0 n); simpl.
  - destruct (Z.ltb_spec n 8); [by rewrite Z.ones_spec_low|by rewrite Z.ones_spec_high].
  - by apply Z.testbit_neg_r.
Qed.

Definition byte_of (w pos : Z) : Z := Z.land (Z.shiftr w pos) IRQ_BYTE_MASK.

Definition with_byte (w pos v : Z) : Z :=
  Z.lor (Z.ldiff w (Z.shiftl IRQ_BYTE_MASK pos)) (Z.shiftl (Z.land v IRQ_BYTE_MASK) pos).

Lemma byte_of_with_byte_eq (w pos v : Z) :
  0 <= pos -> byte_of (with_byte w pos v) pos = Z.land v IRQ_BYTE_MASK.
Proof.
  intros Hp. apply Z.bits_inj'. intros n Hn. unfold byte_of, with_byte, IRQ_BYTE_MASK.
  rewrite Z.land_spec, Z.shiftr_spec, Z.lor_spec, Z.ldiff_spec, !Z.shiftl_spec,
    !Z.land_spec by lia.
  replace (n + pos - pos) with n by lia. rewrite !testbit_255.
  by destruct ((0 <=? n) && (n <? 8)), (Z.testbit w (n + pos)), (Z.testbit v n).
Qed.

Lemma byte_of_with_byte_ne (w pos pos' v : Z) :
  0 <= pos -> 0 <= pos' -> (pos + 8 <= pos' \/ pos' + 8 <= pos) ->
  byte_of (with_byte w pos v) pos' = byte_of w pos'.
Proof.
  intros Hp Hp' Hd. apply Z.bits_inj'. intros n Hn. unfold byte_of, with_byte, IRQ_BYTE_MASK.
  rewrite !Z.land_spec, !Z.shiftr_spec, Z.lor_spec, Z.ldiff_spec, !Z.shiftl_spec,
    !Z.land_spec by lia.
  rewrite !testbit_255. destruct (Z.ltb_spec n 8).
  - replace ((0 <=? n + pos' - pos) && (n + pos' - pos <? 8)) with false by lia.
    by rewrite !andb_false_r, orb_false_r, andb_true_r.
  - by rewrite andb_false_r, !andb_false_r.
Qed.

Lemma byte_of_bounds (w pos : Z) : 0 <= byte_of w pos < 256.
Proof.
  unfold byte_of, IRQ_BYTE_MASK. change 255 with (Z.ones 8).
  rewrite Z.land_ones by done. by apply Z.mod_pos_bound.
Qed.

Lemma irq_byte_position_ne (i j : Z) :
  i / 4 = j / 4 -> i <> j ->
  IRQ_BYTE_POSITION i + 8 <= IRQ_BYTE_POSITION j \/ IRQ_BYTE_POSITION j + 8 <= IRQ_BYTE_POSITION i.
Proof. unfold IRQ_BYTE_POSITION. Z.to_euclidean_division_equations. lia. Qed.

Lemma irq_byte_position_nonneg (i : Z) : 0 <= IRQ_BYTE_POSITION i.
Proof. unfold IRQ_BYTE_POSITION. pose proof (Z.mod_pos_bound i 4). lia. Qed.

(** Setting a priority writes that byte and no other. *)
Lemma gicv2_set_prio_spec (words : list Z) (i prio : Z) :
  0 <= i / 4 < Z.of_nat (length words) ->
  exists words', gicv2_set_prio words i prio = Some words' /\
    length words' = length words /\
    gicv2_get_prio words' i = Some (Z.land prio IRQ_BYTE_MASK) /\
    forall j, j <> i -> gicv2_get_prio words' j = gicv2_get_prio words j.
Proof.
  intros Hr. unfold gicv2_set_prio, gicv2_get_prio.
  destruct (aget_in_range words (i / 4) Hr) as [w Hw]. rewrite Hw. simpl.
  change (Z.lor _ _) with (with_byte w (IRQ_BYTE_POSITION i) prio).
  rewrite aset_in_range by done. eexists. split; [done|]. rewrite length_insert.
  split; [done|]. rewrite aget_insert_eq by done. simpl. split.
  - f_equal. apply byte_of_with_byte_eq, irq_byte_position_nonneg.
  - intros j Hj. destruct (decide (j / 4 = i / 4)) as [He|].
    + rewrite He, aget_insert_eq, Hw by done. simpl. f_equal.
      apply byte_of_with_byte_ne; auto using irq_byte_position_nonneg.
      apply irq_byte_position_ne; congruence.
    + by rewrite aget_insert_ne by lia.
Qed.

Definition lowered (p : Z) : Z := if p <? 16 then p + 16 else p.

Lemma lower_prio_stop (fuel : nat) (p : Z) : 16 <= p -> lower_prio fuel p = Some p.
Proof.
  intros. destruct fuel; cbn [lower_prio]; unfold IRQ_PRIORITY_THR;
    by replace (p <? 16) with false by lia.
Qed.

Lemma lower_prio_spec (fuel : nat) (p : Z) :
  0 <= p < 256 -> lower_prio (S fuel) p = Some (lowered p).
Proof.
  intros Hp. unfold lowered. destruct (Z.ltb_spec p 16); [|by apply lower_prio_stop].
  cbn [lower_prio]. unfold IRQ_PRIORITY_THR, IRQ_PRIORITY_MIN, IRQ_PRIORITY_INC.
  replace ((p <? 16) && (p <? 240 - 16)) with true by lia.
  rewrite u32_small by lia. apply lower_prio_stop. lia.
Qed.

Lemma land_255_small (p : Z) : 0 <= p < 256 -> Z.land p IRQ_BYTE_MASK = p.
Proof.
  intros. unfold IRQ_BYTE_MASK. change 255 with (Z.ones 8).
  rewrite Z.land_ones by done. by apply Z.mod_small.
Qed.

Lemma init_priorities_loop_spec (n : nat) (i : Z) (words : list Z) :
  0 <= i -> i + Z.of_nat n <= 4 * Z.of_nat (length words) ->
  exists words', init_priorities_loop n i words = Some words' /\
    length words' = length words /\
    forall j, gicv2_get_prio words' j =
      if decide (i <= j < i + Z.of_nat n) then lowered <$> gicv2_get_prio words j
      else gicv2_get_prio words j.
Proof.
  revert i words. induction n as [|n IH]; intros i words Hi Hn; cbn [init_priorities_loop].
  { exists words. split_and!; try done. intros j.
    case_decide; [lia|done]. }
  assert (0 <= i / 4 < Z.of_nat (length words)) as Hr
    by (Z.to_euclidean_division_equations; lia).
  destruct (aget_in_range words (i / 4) Hr) as [w Hw].
  assert (gicv2_get_prio words i = Some (byte_of w (IRQ_BYTE_POSITION i))) as Hg
    by (unfold gicv2_get_prio; by rewrite Hw).
  pose proof (byte_of_bounds w (IRQ_BYTE_POSITION i)) as Hb.
  rewrite Hg. cbn [mbind option_bind]. rewrite lower_prio_spec by done. cbn [mbind option_bind].
  destruct (gicv2_set_prio_spec words i (lowered (byte_of w (IRQ_BYTE_POSITION i))) Hr)
    as (w1 & -> & Hlen & Heq & Hne). cbn [mbind option_bind].
  destruct (IH (i + 1) w1) as (w2 & -> & Hlen2 & Hall); [lia|lia|].
  exists w2. split; [done|]. split; [congruence|]. intros j. rewrite Hall.
  destruct (decide (j = i)) as [->|Hj].
  - rewrite decide_False, decide_True by lia.
    rewrite Heq, Hg. simpl. f_equal. apply land_255_small.
    unfold lowered. zcase; lia.
  - rewrite Hne by done. repeat case_decide; done || lia.
Qed.

(** ** Slots

    Slot number [k] (counted from time 0) is the interval
    [k * period, (k + 1) * period); it belongs to the cell of slot id
    [k mod 3]. *)

Definition slot_of (period t : Z) : Z := t / period.

(** The counter is far enough from its wrap-around for the next cycle. *)
Definition in_range (period now : Z) : Prop :=
  0 < period /\ 0 <= now /\ now + 4 * period < 2 ^ 64.

Definition slot_valid (c : tcpu) : Prop := 0 <= tdma_slot_id c < tdma_num_slots.

Definition slots_to_wait (period now slot : Z) : Z := (slot - slot_of period now) mod 3.

Lemma slot_of_bounds (period t : Z) :
  0 < period -> slot_of period t * period <= t < (slot_of period t + 1) * period.
Proof.
  intros. unfold slot_of. pose proof (Z.div_mod t period ltac:(lia)).
  pose proof (Z.mod_pos_bound t period). lia.
Qed.

Lemma slot_of_unique (period t k : Z) :
  0 < period -> k * period <= t < (k + 1) * period -> slot_of period t = k.
Proof. intros. symmetry. unfold slot_of. apply (Z.div_unique _ _ _ (t - k * period)); lia. Qed.

(** In its own slot the CPU is sent to the end of it, otherwise to the start of
    its next one. *)
Lemma tdma_timer_start_spec (period now : Z) (c : tcpu) :
  in_range period now -> slot_valid c ->
  let d := slots_to_wait period now (tdma_slot_id c) in
  tdma_timer_start period now c =
  Some (d =? 0,
        mk_tcpu (tdma_slot_id c) (tdma_state c) (tdma_suspended_from_state c)
          (if d =? 0 then TIMER_TARGET_END else TIMER_TARGET_START)
          (Z.lor (cnthp_ctl c) CNTHP_CTL_EL2_ENABLE)
          ((slot_of period now + (if d =? 0 then 1 else d)) * period)
          (mdcr_el2 c)).
Proof.
  intros (Hp & Hn & Hov) Hs d. unfold slot_valid, tdma_num_slots in Hs.
  unfold tdma_timer_start, tdma_num_slots.
  pose proof (slot_of_bounds period now Hp) as Hk. unfold slot_of in Hk.
  assert (0 <= now / period) as Hk0 by (apply Z.div_pos; lia).
  rewrite (u64_small (period * 3)) by lia.
  replace ((period =? 0) || (period * 3 =? 0)) with false by lia.
  assert (now / (period * 3) = now / period / 3) as -> by (rewrite Z.div_div; lia).
  subst d. unfold slots_to_wait, slot_of.
  set (k := now / period) in *. set (s := tdma_slot_id c) in *.
  rewrite (u8_small s) by lia.
  assert (0 <= k mod 3 < 3) as Hm by (by apply Z.mod_pos_bound).
  rewrite (u8_small (k mod 3)) by lia.
  assert (k / 3 * (period * 3) = (k - k mod 3) * period) as ->.
  { pose proof (Z.div_mod k 3 ltac:(lia)). nia. }
  assert (0 <= (k - k mod 3) * period <= k * period) as Hcs.
  { pose proof (Z.mod_le k 3 Hk0 ltac:(lia)). nia. }
  rewrite (u64_small ((k - k mod 3) * period)) by lia.
  assert (0 <= s * period <= 2 * period) as Hsp by nia.
  rewrite (u64_small ((s + 1) * period)), (u64_small (s * period)) by lia.
  assert (0 <= (s - k) mod 3 < 3) as Hd by (by apply Z.mod_pos_bound).
  destruct (Z.eqb_spec (k mod 3) s) as [He|Hne].
  - assert ((s - k) mod 3 = 0) as -> by (Z.to_euclidean_division_equations; lia).
    simpl. rewrite u64_small by nia. unfold tdma_timer_enable, set_ctl, set_target. simpl.
    do 3 f_equal. rewrite <- He. nia.
  - destruct (Z.ltb_spec (k mod 3) s).
    + assert ((s - k) mod 3 = s - k mod 3) as -> by (Z.to_euclidean_division_equations; lia).
      replace (s - k mod 3 =? 0) with false by lia.
      rewrite u64_small by nia. unfold tdma_timer_enable, set_ctl, set_target. simpl.
      do 3 f_equal. nia.
    + assert ((s - k) mod 3 = s - k mod 3 + 3) as -> by (Z.to_euclidean_division_equations; lia).
      replace (s - k mod 3 + 3 =? 0) with false by lia.
      rewrite u64_small by nia. unfold tdma_timer_enable, set_ctl, set_target. simpl.
      do 3 f_equal. nia.
Qed.

(** ** Runs of the TDMA arbiter *)

(** The timer is set to the end of a slot of the CPU that has begun. *)
Definition slot_running (period now : Z) (c : tcpu) : Prop :=
  tdma_timer_target c = TIMER_TARGET_END /\
  exists n, n mod 3 = tdma_slot_id c /\ cnthp_cval c = (n + 1) * period /\ n * period <= now.

(** The timer is set to the start of a slot of the CPU. *)
Definition slot_awaited (period : Z) (c : tcpu) : Prop :=
  tdma_timer_target c = TIMER_TARGET_START /\
  exists n, n mod 3 = tdma_slot_id c /\ cnthp_cval c = n * period.

(** In its memory phase a CPU waits for the end of a slot of its own, and in the
    state before it for the start of one. Only when an interrupt may be served
    [d] ticks late, more than a slot, the memory phase can have a timer that
    waits for a start, and a waiting CPU one that waits for an end. *)
Definition tcpu_ok (period d now : Z) (c : tcpu) : Prop :=
  slot_valid c /\
  (tdma_state c = STATE_COMPUTING_PHASE \/
   (tdma_state c = STATE_MEMORY_PHASE /\
    (slot_running period now c \/ period < d /\ tdma_timer_target c = TIMER_TARGET_START)) \/
   (tdma_state c = STATE_WAITING_FOR_MEMORY /\
    (slot_awaited period c \/ period < d /\ tdma_timer_target c = TIMER_TARGET_END))).

(** [tdma_timer_start] sets the timer to the end of the running slot if it is
    one of the CPU, and else to the start of its next one. *)
Lemma timer_start_ok (period now : Z) (c : tcpu) :
  in_range period now -> slot_valid c ->
  exists mem c', tdma_timer_start period now c = Some (mem, c') /\
    tdma_slot_id c' = tdma_slot_id c /\
    (mem = true <-> slot_of period now mod 3 = tdma_slot_id c) /\
    (if mem then slot_running period now c' else slot_awaited period c').
Proof.
  intros Hr Hs. rewrite tdma_timer_start_spec by done.
  eexists _, _. split; [reflexivity|]. simpl. split; [done|].
  unfold slots_to_wait. set (k := slot_of period now).
  destruct Hr as (Hp & _). pose proof (slot_of_bounds period now Hp) as Hk. fold k in Hk.
  assert ((tdma_slot_id c - k) mod 3 = 0 <-> k mod 3 = tdma_slot_id c) as Hiff.
  { unfold slot_valid, tdma_num_slots in Hs. Z.to_euclidean_division_equations. lia. }
  rewrite Z.eqb_eq. split; [done|]. destruct (Z.eqb_spec ((tdma_slot_id c - k) mod 3) 0) as [Hd|Hd].
  - split; [done|]. exists k. split_and!; simpl; [by apply Hiff|done|lia].
  - split; [done|]. exists (k + (tdma_slot_id c - k) mod 3). split; [|done]. simpl.
    unfold slot_valid, tdma_num_slots in Hs. Z.to_euclidean_division_equations. lia.
Qed.

Lemma tdma_hypercall_ok (period d now code : Z) (c c' : tcpu) (r : Z) :
  in_range period now -> tcpu_ok period d now c ->
  tdma_hypercall period now code c = Some (r, c') -> tcpu_ok period d now c'.
Proof.
  intros Hr [Hs Hst]. unfold tdma_hypercall. zcase; [zcase|zcase; [zcase|]].
  - destruct (timer_start_ok period now c Hr Hs) as (mem & c1 & -> & Hid & _ & Hm).
    assert (slot_valid c1) by (unfold slot_valid; by rewrite Hid).
    simpl. destruct mem; intros; simplify_eq; (split; [done|]); right; [left|right]; (split; [done|]); by left.
  - intros; simplify_eq. by split.
  - intros; simplify_eq. by split.
  - intros; simplify_eq. split; [done|]. by left.
  - intros; simplify_eq. by split.
Qed.

Section Runs.
Context {H : Type} `{IrqSink H}.

Record tworld := mk_tworld {
  w_now : Z;
  w_cpus : list tcpu;
  w_irqs : H;
}.

(** The timer of the CPU raises its interrupt. *)
Definition timer_fires (now : Z) (c : tcpu) : Prop :=
  Z.testbit (cnthp_ctl c) 0 = true /\ cnthp_cval c <= now.

(** Time passes, cells make hypercalls, and timer interrupts are served less
    than [d] ticks after they were due. *)
Inductive tdma_step (period d : Z) : tworld -> tworld -> Prop :=
  | tdma_tick w now' :
      w_now w <= now' -> in_range period now' ->
      tdma_step period d w (mk_tworld now' (w_cpus w) (w_irqs w))
  | tdma_call w cpu c code r c' l :
      aget (w_cpus w) cpu = Some c ->
      tdma_hypercall period (w_now w) code c = Some (r, c') ->
      aset (w_cpus w) cpu c' = Some l ->
      tdma_step period d w (mk_tworld (w_now w) l (w_irqs w))
  | tdma_irq w cpu c b c' h' l :
      aget (w_cpus w) cpu = Some c ->
      timer_fires (w_now w) c -> w_now w < cnthp_cval c + d ->
      tdma_handle_interrupt period (w_now w) cpu HYPERVISOR_TIMER_IRQ c (w_irqs w) =
        Some (b, c', h') ->
      aset (w_cpus w) cpu c' = Some l ->
      tdma_step period d w (mk_tworld (w_now w) l h').

Definition tworld_ok (period d : Z) (w : tworld) : Prop :=
  in_range period (w_now w) /\
  forall cpu c, aget (w_cpus w) cpu = Some c -> tcpu_ok period d (w_now w) c.

(** Serving an interrupt keeps the invariant: what comes out of step with the
    slots does so because it was served a slot late or more. *)
Lemma tdma_timer_isr_ok (period d now cpu : Z) (c c' : tcpu) (h h' : H) :
  in_range period now -> tcpu_ok period d now c ->
  cnthp_cval c <= now < cnthp_cval c + d ->
  tdma_timer_isr period now cpu c h = Some (c', h') -> tcpu_ok period d now c'.
Proof.
  intros Hr Hok Ht. pose proof Hok as [Hs Hst]. pose proof Hr as (Hp & _).
  unfold tdma_timer_isr.
  destruct (timer_start_ok period now c Hr Hs) as (mem & c1 & Hrun & Hid & Hmem & Hm).
  assert (slot_valid c1) as Hs1 by (unfold slot_valid; by rewrite Hid).
  destruct Hst as [Hc|[[Hc Hcase]|[Hc Hcase]]].
  - rewrite Hc. simpl. rewrite Hc. zcase; [|by intros [= <- <-]]. simpl.
    by intros [= <- <-].
  - destruct Hcase as [(Htg & n & Hn & Hcv & Hle)|[Hd Htg]]; rewrite Htg, Hc; simpl; rewrite ?Hc; simpl; [|by intros [= <- <-]].
    destruct (sink_raise _ _ _ _); [|done]. simpl.
    rewrite Hrun. simpl. intros [= <- <-]. split; [done|]. right; right. split; [done|].
    destruct mem; [|by left]. right. destruct Hm as [Htg1 _]. split; [|done].
    destruct (Z.ltb_spec period d) as [|Hd]; [done|]. exfalso.
    assert (slot_of period now = n + 1) as Hso by (apply slot_of_unique; lia).
    destruct Hmem as [Hmem _]. specialize (Hmem eq_refl). rewrite Hso in Hmem.
    revert Hmem Hn. clear. Z.to_euclidean_division_equations. lia.
  - destruct Hcase as [(Htg & n & Hn & Hcv)|[Hd Htg]]; rewrite Htg, Hc; simpl; rewrite ?Hc; simpl; [|by intros [= <- <-]].
    rewrite Hrun. simpl. intros [= <- <-]. split; [done|]. right; left. split; [done|].
    destruct mem; [by left|]. right. destruct Hm as [Htg1 _]. split; [|done].
    destruct (Z.ltb_spec period d) as [|Hd]; [done|].
    destruct Hmem as [_ Hmem]. rewrite (slot_of_unique period now n) in Hmem by lia. by specialize (Hmem Hn).
Qed.

Lemma tcpu_ok_mono (period d now now' : Z) (c : tcpu) :
  now <= now' -> tcpu_ok period d now c -> tcpu_ok period d now' c.
Proof.
  intros Hle [Hs [?|[[? Hc]|?]]]; split; auto.
  right; left. split; [done|]. destruct Hc as [(? & n & ? & ? & ?)|?]; [left|by right].
  split; [done|]. exists n. split_and!; try done. lia.
Qed.

Lemma tdma_step_ok (period d : Z) (w w' : tworld) :
  tworld_ok period d w -> tdma_step period d w w' -> tworld_ok period d w'.
Proof.
  intros [Hr Hall] Hstep. destruct Hstep as [w now' Hle Hr'|w cpu c code r c' l Hg Hh Hl
    |w cpu c b c' h' l Hg Hf Hin Hh Hl]; (split; [done|]); simpl; intros cpu' c1 Hg1.
  - apply (tcpu_ok_mono _ _ (w_now w)); [done|]. eauto.
  - destruct (decide (cpu' = cpu)) as [->|Hne].
    + rewrite (aget_aset_eq _ _ _ _ Hl) in Hg1. simplify_eq.
      eapply tdma_hypercall_ok; eauto.
    + rewrite (aget_aset_ne _ _ _ _ _ Hl) in Hg1 by done. eauto.
  - destruct (decide (cpu' = cpu)) as [->|Hne].
    + rewrite (aget_aset_eq _ _ _ _ Hl) in Hg1. simplify_eq.
      unfold tdma_handle_interrupt in Hh. simpl in Hh.
      destruct (tdma_timer_isr _ _ _ _ _) as [[c2 h2]|] eqn:Hi; [|done].
      simpl in Hh. simplify_eq. destruct Hf as [_ Hf].
      eapply tdma_timer_isr_ok; [done|eauto|..|done]. lia.
    + rewrite (aget_aset_ne _ _ _ _ _ Hl) in Hg1 by done. eauto.
Qed.

End Runs.

Arguments tworld : clear implicits.

(** ** Properties *)

Section Properties.
Context {H : Type} `{IrqSink H}.

(** The start of a run: all CPUs compute, with valid slots. *)
Definition tworld_start (period : Z) (w : tworld H) : Prop :=
  in_range period (w_now w) /\
  forall cpu c, aget (w_cpus w) cpu = Some c ->
    slot_valid c /\ tdma_state c = STATE_COMPUTING_PHASE.

Lemma tdma_run_ok (period d : Z) (w0 w : tworld H) :
  tworld_start period w0 -> rtc (tdma_step period d) w0 w -> tworld_ok period d w.
Proof.
  intros [Hr Hall] Hrun. assert (tworld_ok period d w0) as Hok.
  { split; [done|]. intros cpu c Hg. destruct (Hall cpu c Hg). split; [done|]. by left. }
  clear Hr Hall. induction Hrun; eauto using tdma_step_ok.
Qed.

(** The memory phase was entered by a start interrupt that came after the slot:
    its timer waits for a start instead of an end. *)
Definition late_entry (c : tcpu) : Prop := tdma_timer_target c = TIMER_TARGET_START.

(** A CPU in its memory phase is in its own slot, or its timer is due, or it
    entered late. *)
Lemma memory_phase_slot (period d : Z) (w : tworld H) (cpu : Z) (c : tcpu) :
  tworld_ok period d w -> aget (w_cpus w) cpu = Some c ->
  tdma_state c = STATE_MEMORY_PHASE ->
  cnthp_cval c <= w_now w \/ (period < d /\ late_entry c) \/
  slot_of period (w_now w) mod tdma_num_slots = tdma_slot_id c.
Proof.
  intros [[Hp _] Hall] Hg Hst. destruct (Hall cpu c Hg) as [_ Hcase].
  rewrite Hst in Hcase. destruct Hcase as [?|[(_ & [(_ & n & Hn & Hcv & Hle)|?])|(? & _)]]; [done| | by right; left | done].
  destruct (Z.leb_spec (cnthp_cval c) (w_now w)); [by left|]. right; right.
  by rewrite (slot_of_unique period (w_now w) n) by lia.
Qed.

(** C5: In every run from a state in which all CPUs compute, with slots 0 to 2
    and the counter below its wrap-around: two CPUs with different slots are
    both in their memory phase only while the timer interrupt of one of them
    is due and not yet served. The only exception needs interrupts that are
    served a whole slot late or more: then a CPU can have entered its memory
    phase by a start interrupt that came after its slot, and its timer waits
    for a start. *)
Theorem tdma_exclusive (period d : Z) (w0 w : tworld H) (i j : Z) (ci cj : tcpu) :
  tworld_start period w0 -> rtc (tdma_step period d) w0 w ->
  aget (w_cpus w) i = Some ci -> aget (w_cpus w) j = Some cj ->
  tdma_slot_id ci <> tdma_slot_id cj ->
  tdma_state ci = STATE_MEMORY_PHASE -> tdma_state cj = STATE_MEMORY_PHASE ->
  (cnthp_cval ci <= w_now w \/ cnthp_cval cj <= w_now w) \/
  (period < d /\ (late_entry ci \/ late_entry cj)).
Proof.
  intros Hs Hrun Hi Hj Hne Hmi Hmj. pose proof (tdma_run_ok _ _ _ _ Hs Hrun) as Hok.
  destruct (memory_phase_slot period d w i ci) as [?|[[? ?]|Hsi]]; try done; [tauto..|].
  destruct (memory_phase_slot period d w j cj) as [?|[[? ?]|Hsj]]; try done; [tauto..|].
  destruct Hne. congruence.
Qed.

(** at the start of its slot a waiting CPU enters its memory phase, but the
    handler raises no signal: the cell is not told that its phase has begun. *)
Theorem tdma_start_not_signalled (period now cpu : Z) (c : tcpu) (h : H) :
  in_range period now -> slot_valid c ->
  tdma_timer_target c = TIMER_TARGET_START -> tdma_state c = STATE_WAITING_FOR_MEMORY ->
  exists c', tdma_timer_isr period now cpu c h = Some (c', h) /\
    tdma_state c' = STATE_MEMORY_PHASE.
Proof.
  intros Hr Hs Ht Hst. unfold tdma_timer_isr. rewrite Ht, Hst. simpl. rewrite Hst. simpl.
  rewrite tdma_timer_start_spec by done. simpl. eexists. done.
Qed.

(** a start interrupt that is served after the slot has passed still puts
    the CPU into its memory phase, with the timer set to the start of the next
    slot instead of an end. *)
Theorem tdma_late_start (period now cpu : Z) (c : tcpu) (h : H) :
  in_range period now -> slot_valid c ->
  tdma_timer_target c = TIMER_TARGET_START -> tdma_state c = STATE_WAITING_FOR_MEMORY ->
  slot_of period now mod tdma_num_slots <> tdma_slot_id c ->
  exists c', tdma_timer_isr period now cpu c h = Some (c', h) /\
    tdma_state c' = STATE_MEMORY_PHASE /\ tdma_timer_target c' = TIMER_TARGET_START /\
    now < cnthp_cval c'.
Proof.
  intros Hr Hs Ht Hst Hne. unfold tdma_timer_isr. rewrite Ht, Hst. simpl. rewrite Hst. simpl.
  rewrite tdma_timer_start_spec by done. simpl. eexists. split; [done|]. simpl.
  destruct Hr as (Hp & _). pose proof (slot_of_bounds period now Hp).
  unfold slots_to_wait, tdma_num_slots in *.
  assert (0 <= (tdma_slot_id c - slot_of period now) mod 3 < 3) by (by apply Z.mod_pos_bound).
  assert ((tdma_slot_id c - slot_of period now) mod 3 <> 0) as Hd.
  { unfold slot_valid, tdma_num_slots in Hs. revert Hne.
    Z.to_euclidean_division_equations. lia. }
  rewrite (proj2 (Z.eqb_neq _ _) Hd). split_and!; try done. nia.
Qed.

End Properties.

(** the priority setup gives the hypervisor timer priority 0 and every
    other interrupt of the cluster a lower one, raising those below the
    threshold by one level and leaving the rest alone. *)
Theorem tdma_init_priorities_correct (words : list Z) :
  length words = 96%nat ->
  exists words', tdma_init_priorities words = Some words' /\
    gicv2_get_prio words' HYPERVISOR_TIMER_IRQ = Some IRQ_PRIORITY_MAX /\
    forall j, 0 <= j < Z.of_nat CCPLEX_IRQ_SIZE -> j <> HYPERVISOR_TIMER_IRQ ->
      exists p p', gicv2_get_prio words j = Some p /\ gicv2_get_prio words' j = Some p' /\
        p' = (if p <? IRQ_PRIORITY_THR then p + IRQ_PRIORITY_INC else p) /\
        IRQ_PRIORITY_MAX < p'.
Proof.
  intros Hlen. unfold tdma_init_priorities.
  destruct (init_priorities_loop_spec CCPLEX_IRQ_SIZE 0 words) as (w1 & -> & Hl1 & Hall);
    [done|rewrite Hlen; done|]. cbn [mbind option_bind].
  destruct (gicv2_set_prio_spec w1 HYPERVISOR_TIMER_IRQ IRQ_PRIORITY_MAX)
    as (w2 & -> & Hl2 & Heq & Hne).
  { rewrite Hl1, Hlen. unfold HYPERVISOR_TIMER_IRQ. change (26 / 4) with 6. lia. }
  exists w2. split; [done|]. split; [exact Heq|]. intros j Hj Hjne.
  rewrite Hne, Hall, decide_True by (done || lia).
  assert (0 <= j / 4 < Z.of_nat (length words)) as Hr.
  { rewrite Hlen. change (Z.of_nat CCPLEX_IRQ_SIZE) with 384 in Hj.
    Z.to_euclidean_division_equations. lia. }
  destruct (aget_in_range _ _ Hr) as [w Hw].
  exists (byte_of w (IRQ_BYTE_POSITION j)), (lowered (byte_of w (IRQ_BYTE_POSITION j))).
  unfold gicv2_get_prio. rewrite Hw. simpl.
  pose proof (byte_of_bounds w (IRQ_BYTE_POSITION j)).
  split_and!; try done. unfold lowered, IRQ_PRIORITY_MAX. zcase; lia.
Qed.

(** destroying a cell from another CPU leaves the timer registers of the
    cell's own CPU as they are; the caller's timer is disabled instead. *)
Theorem tdma_destroy_wrong_timer (this cpu : Z) (cl : cell) (s : tdma_sys) (c ct : tcpu) :
  first_cpu (cell_cpu_set cl) = Some cpu -> this <> cpu ->
  aget (tcpus s) cpu = Some c -> aget (tcpus s) this = Some ct ->
  exists s', tdma_on_cell_destroy this false cl s = Some s' /\
    aget (tcpus s') cpu = Some c /\
    exists ct', aget (tcpus s') this = Some ct' /\
      Z.testbit (cnthp_ctl ct') 0 = false /\ Z.testbit (cnthp_ctl ct') 1 = true.
Proof.
  intros Hf Hne Hc Hct. unfold tdma_on_cell_destroy. rewrite Hf. cbn [mbind option_bind].
  rewrite Hc. cbn [mbind option_bind]. rewrite Hct. cbn [mbind option_bind]. unfold set_tcpu.
  pose proof (aget_Some_range _ _ _ Hct) as Hr.
  cbn [tdma_timer_irq_disable]. rewrite aset_in_range by done. cbn [mbind option_bind].
  eexists. split; [done|]. cbn [tcpus].
  rewrite aget_insert_ne, aget_insert_eq by lia. split; [done|].
  eexists. split; [done|]. unfold set_ctl, tdma_timer_disable, set_ctl. cbn [cnthp_ctl].
  unfold CNTHP_CTL_EL2_ENABLE, CNTHP_CTL_EL2_IMASK.
  rewrite !Z.lor_spec, !Z.ldiff_spec. split.
  - rewrite andb_false_r. done.
  - by rewrite orb_true_r.
Qed.

Lemma s8_low (x : Z) : 0 <= x < 128 -> s8 x = x.
Proof. intros. unfold s8. rewrite wrap_small by (unfold is_u; lia). by zcase; [|lia]. Qed.

(** cells 1 to 3 get the slots 0 to 2 and cells 4 to 128 none, but the
    8 bit slot id aliases: a cell with id 257 gets slot 0 again. *)
Theorem tdma_slot_assignment (freq : Z) (cl : cell) (s : tdma_sys) (cpu : Z) (c : tcpu) :
  first_cpu (cell_cpu_set cl) = Some cpu -> aget (tcpus s) cpu = Some c ->
  1 <= id (config cl) < 2 ^ 32 ->
  exists s' c', tdma_on_cell_create freq false cl s = Some s' /\
    aget (tcpus s') cpu = Some c' /\ tdma_state c' = STATE_COMPUTING_PHASE /\
    (id (config cl) <= 3 -> tdma_slot_id c' = id (config cl) - 1) /\
    (4 <= id (config cl) <= 128 -> tdma_slot_id c' = -1) /\
    (257 <= id (config cl) <= 259 -> tdma_slot_id c' = id (config cl) - 257).
Proof.
  intros Hf Hc Hid. unfold tdma_on_cell_create. rewrite Hf. simpl. rewrite Hc.
  cbn [mbind option_bind]. unfold set_tcpu. cbn [tcpus].
  pose proof (aget_Some_range _ _ _ Hc) as Hr. rewrite aset_in_range by done. simpl.
  eexists _, _. split; [done|]. simpl. rewrite aget_insert_eq by done.
  split; [done|]. simpl. split; [done|].
  rewrite u32_small by lia. unfold tdma_num_slots. split_and!; intros Hb.
  - rewrite s8_low by lia. zcase; lia.
  - rewrite s8_low by lia. zcase; lia.
  - assert (s8 (id (config cl) - 1) = id (config cl) - 257) as ->.
    { rewrite <- (s8_low (id (config cl) - 257)) by lia. unfold s8, wrap.
      replace (id (config cl) - 1) with (id (config cl) - 257 + 1 * 2 ^ 8) by lia.
      by rewrite Z.mod_add. }
    zcase; lia.
Qed.

(** ** Witnesses: two CPUs with slots 0 and 1 of ten ticks *)

Definition demo_tcpu (slot st target ctl cval : Z) : tcpu := mk_tcpu slot st 0 target ctl cval 0.

Definition demo_w0 : tworld (list (Z * Z)) :=
  mk_tworld 5 [demo_tcpu 0 0 0 0 0; demo_tcpu 1 0 0 0 0] [].

(** CPU 0 is still in its slot's memory phase when CPU 1 has entered its own:
    the end interrupt of CPU 0 is due at time 10. *)
Definition demo_w4 : tworld (list (Z * Z)) :=
  mk_tworld 10 [demo_tcpu 0 1 1 1 10; demo_tcpu 1 1 1 1 20] [].

Lemma demo_start : tworld_start 10 demo_w0.
Proof.
  split; [unfold in_range; simpl; lia|]. intros cpu c Hg.
  pose proof (aget_Some_range _ _ _ Hg) as Hr. simpl in Hr.
  assert (cpu = 0 \/ cpu = 1) as [-> | ->] by lia; vm_compute in Hg; simplify_eq;
    (split; [unfold slot_valid, tdma_num_slots; simpl; lia|done]).
Qed.

Lemma demo_run : rtc (tdma_step 10 10) demo_w0 demo_w4.
Proof.
  apply rtc_l with (mk_tworld 5 [demo_tcpu 0 1 1 1 10; demo_tcpu 1 0 0 0 0] []).
  { exact (tdma_call 10 10 demo_w0 0 (demo_tcpu 0 0 0 0 0) BEGIN_MEM_PHASE ARBITRATION_ACK
             (demo_tcpu 0 1 1 1 10) _ eq_refl eq_refl eq_refl). }
  apply rtc_l with (mk_tworld 5 [demo_tcpu 0 1 1 1 10; demo_tcpu 1 2 0 1 10] []).
  { exact (tdma_call 10 10 (mk_tworld 5 [demo_tcpu 0 1 1 1 10; demo_tcpu 1 0 0 0 0] []) 1
             (demo_tcpu 1 0 0 0 0) BEGIN_MEM_PHASE ARBITRATION_NACK
             (demo_tcpu 1 2 0 1 10) _ eq_refl eq_refl eq_refl). }
  apply rtc_l with (mk_tworld 10 [demo_tcpu 0 1 1 1 10; demo_tcpu 1 2 0 1 10] []).
  { apply (tdma_tick 10 10 (mk_tworld 5 [demo_tcpu 0 1 1 1 10; demo_tcpu 1 2 0 1 10] []) 10);
      [simpl; lia|unfold in_range; lia]. }
  apply rtc_once.
  refine (tdma_irq 10 10 (mk_tworld 10 [demo_tcpu 0 1 1 1 10; demo_tcpu 1 2 0 1 10] []) 1
            (demo_tcpu 1 2 0 1 10) true (demo_tcpu 1 1 1 1 20) [] _ eq_refl _ _ eq_refl eq_refl);
    [split; [reflexivity|simpl; lia]|simpl; lia].
Qed.

Lemma tdma_exclusive_witness :
  (cnthp_cval (demo_tcpu 0 1 1 1 10) <= w_now demo_w4 \/
   cnthp_cval (demo_tcpu 1 1 1 1 20) <= w_now demo_w4) \/
  (10 < 10 /\ (late_entry (demo_tcpu 0 1 1 1 10) \/ late_entry (demo_tcpu 1 1 1 1 20))).
Proof.
  exact (tdma_exclusive 10 10 demo_w0 demo_w4 0 1 _ _ demo_start demo_run
           eq_refl eq_refl ltac:(done) eq_refl eq_refl).
Defined.

Lemma tdma_start_not_signalled_witness : exists c',
  tdma_timer_isr 10 10 1 (demo_tcpu 1 2 0 1 10) [] = Some (c', []).
Proof.
  destruct (tdma_start_not_signalled 10 10 1 (demo_tcpu 1 2 0 1 10) ([] : list (Z * Z)))
    as (c' & Hc & _);
    [unfold in_range; lia|unfold slot_valid, tdma_num_slots; simpl; lia|done|done|].
  exists c'. exact Hc.
Defined.

Lemma tdma_late_start_witness : exists c',
  tdma_timer_isr 10 25 1 (demo_tcpu 1 2 0 1 10) [] = Some (c', []) /\
  tdma_timer_target c' = TIMER_TARGET_START.
Proof.
  destruct (tdma_late_start 10 25 1 (demo_tcpu 1 2 0 1 10) ([] : list (Z * Z)))
    as (c' & Hc & _ & Ht & _);
    [unfold in_range; lia|unfold slot_valid, tdma_num_slots; simpl; lia|done|done|done|].
  exists c'. split; [exact Hc|exact Ht].
Defined.

Lemma tdma_init_priorities_witness : exists words',
  tdma_init_priorities (replicate 96 0) = Some words' /\
  gicv2_get_prio words' HYPERVISOR_TIMER_IRQ = Some IRQ_PRIORITY_MAX.
Proof.
  destruct (tdma_init_priorities_correct (replicate 96 0) eq_refl) as (w & Hw & Ht & _).
  exists w. split; [exact Hw|exact Ht].
Defined.

Definition demo_tcell (i cpu : Z) : cell :=
  mk_cell (mk_cell_desc i 0 0) (mk_cpu_set 5 (Z.shiftl 1 cpu)) [].

Definition demo_sys : tdma_sys :=
  mk_tdma_sys [demo_tcpu 0 1 1 1 10; demo_tcpu (-1) 0 0 0 0] 10 [] [].

Lemma tdma_destroy_wrong_timer_witness : exists s',
  tdma_on_cell_destroy 1 false (demo_tcell 1 0) demo_sys = Some s' /\
  aget (tcpus s') 0 = Some (demo_tcpu 0 1 1 1 10).
Proof.
  destruct (tdma_destroy_wrong_timer 1 0 (demo_tcell 1 0) demo_sys (demo_tcpu 0 1 1 1 10)
    (demo_tcpu (-1) 0 0 0 0) eq_refl ltac:(done) eq_refl eq_refl) as (s' & Hs & Hc & _).
  exists s'. split; [exact Hs|exact Hc].
Defined.

Lemma tdma_slot_assignment_witness : exists s' c',
  tdma_on_cell_create 31250000 false (demo_tcell 257 0) demo_sys = Some s' /\
  aget (tcpus s') 0 = Some c' /\ tdma_slot_id c' = 0.
Proof.
  destruct (tdma_slot_assignment 31250000 (demo_tcell 257 0) demo_sys 0
    (demo_tcpu 0 1 1 1 10) eq_refl eq_refl ltac:(simpl; lia))
    as (s' & c' & Hs & Hc & _ & _ & _ & Hslot).
  exists s', c'. split; [exact Hs|]. split; [exact Hc|]. apply Hslot. simpl. lia.
Defined.
