(* ===== verification/Kernel.v ===== *)
(** * ERIKA kernel: data structures and store

    Models the run-time data of the ERIKA guest: scheduler nodes, task
    descriptors and control blocks, the core control block
    (ee_scheduler_types.h, ee_kernel_types.h, ee_api_types.h) for the build
    that conf.oil configures: one core, dynamic API, events, linked-list
    ready queue; no resources, counters, error hooks or extended checks.

    Pointers are addresses ([Z], [NULL] = 0) into typed stores, so that the
    singly linked lists of the kernel are modelled with their aliasing. An
    access through a bad pointer is undefined and makes the operation [None].
    [lseg]/[chain] relate a pointer to the list of nodes it leads to. *)

From Stdlib Require Import ZArith Lia String.
From stdpp Require Import base tactics list option gmap.
From S2P Require Import Prelude StateMonad.

(** ** Data types *)
Definition NULL : Z := 0.

Inductive OsEE_task_type :=
  | OSEE_TASK_TYPE_BASIC
  | OSEE_TASK_TYPE_EXTENDED
  | OSEE_TASK_TYPE_ISR2
  | OSEE_TASK_TYPE_IDLE.

Inductive OsEE_task_status :=
  | OSEE_TASK_SUSPENDED
  | OSEE_TASK_READY
  | OSEE_TASK_READY_STACKED
  | OSEE_TASK_WAITING
  | OSEE_TASK_RUNNING
  | OSEE_TASK_CHAINED.

Inductive OsEE_kernel_status :=
  | OSEE_KERNEL_UNINITIALIZED
  | OSEE_KERNEL_INITIALIZED
  | OSEE_KERNEL_STARTING
  | OSEE_KERNEL_STARTED
  | OSEE_KERNEL_SHUTDOWN.

Inductive OsEE_mem_arbit_status :=
  | MEMORY_TOKEN_NONE
  | MEMORY_TOKEN_REQUESTED
  | MEMORY_TOKEN_ACQUIRED.

#[global] Instance task_type_eq_dec : EqDecision OsEE_task_type.
Proof. solve_decision. Defined.
#[global] Instance task_status_eq_dec : EqDecision OsEE_task_status.
Proof. solve_decision. Defined.
#[global] Instance kernel_status_eq_dec : EqDecision OsEE_kernel_status.
Proof. solve_decision. Defined.
#[global] Instance mem_arbit_status_eq_dec : EqDecision OsEE_mem_arbit_status.
Proof. solve_decision. Defined.

(** [TaskPrio] and [TaskActivation] are 8 bit, [EventMaskType] is a 64 bit
    register. *)
Definition OSEE_ISR2_PRIO_BIT : Z := Z.shiftl 1 (8 - 1).
Definition OSEE_ISR_ALL_PRIO : Z := u8 (-1).

(** Scheduler node. *)
Record OsEE_SN := mkSN {
  sn_next : Z;
  sn_tdb : Z
}.

Definition set_sn_next (x : Z) (r : OsEE_SN) : OsEE_SN :=
  mkSN x (sn_tdb r).
Definition set_sn_tdb (x : Z) (r : OsEE_SN) : OsEE_SN :=
  mkSN (sn_next r) x.

(** Task control block. *)
Record OsEE_TCB := mkTCB {
  current_num_of_act : Z;
  current_prio : Z;
  status : OsEE_task_status;
  wait_mask : Z;
  event_mask : Z;
  p_own_sn : Z
}.

Definition set_current_num_of_act (x : Z) (r : OsEE_TCB) : OsEE_TCB :=
  mkTCB x (current_prio r) (status r) (wait_mask r) (event_mask r)
    (p_own_sn r).
Definition set_current_prio (x : Z) (r : OsEE_TCB) : OsEE_TCB :=
  mkTCB (current_num_of_act r) x (status r) (wait_mask r) (event_mask r)
    (p_own_sn r).
Definition set_status (x : OsEE_task_status) (r : OsEE_TCB) : OsEE_TCB :=
  mkTCB (current_num_of_act r) (current_prio r) x (wait_mask r)
    (event_mask r) (p_own_sn r).
Definition set_wait_mask (x : Z) (r : OsEE_TCB) : OsEE_TCB :=
  mkTCB (current_num_of_act r) (current_prio r) (status r) x (event_mask
    r) (p_own_sn r).
Definition set_event_mask (x : Z) (r : OsEE_TCB) : OsEE_TCB :=
  mkTCB (current_num_of_act r) (current_prio r) (status r) (wait_mask r) x
    (p_own_sn r).
Definition set_p_own_sn (x : Z) (r : OsEE_TCB) : OsEE_TCB :=
  mkTCB (current_num_of_act r) (current_prio r) (status r) (wait_mask r)
    (event_mask r) x.

(** Task descriptor block; of the hardware part only the interrupt source. *)
Record OsEE_TDB := mkTDB {
  p_tcb : Z;
  tid : Z;
  task_type : OsEE_task_type;
  task_func : Z;
  ready_prio : Z;
  dispatch_prio : Z;
  max_num_of_act : Z;
  isr2_src : Z
}.

Definition set_p_tcb (x : Z) (r : OsEE_TDB) : OsEE_TDB :=
  mkTDB x (tid r) (task_type r) (task_func r) (ready_prio r)
    (dispatch_prio r) (max_num_of_act r) (isr2_src r).
Definition set_tid (x : Z) (r : OsEE_TDB) : OsEE_TDB :=
  mkTDB (p_tcb r) x (task_type r) (task_func r) (ready_prio r)
    (dispatch_prio r) (max_num_of_act r) (isr2_src r).
Definition set_task_type (x : OsEE_task_type) (r : OsEE_TDB) : OsEE_TDB :=
  mkTDB (p_tcb r) (tid r) x (task_func r) (ready_prio r) (dispatch_prio r)
    (max_num_of_act r) (isr2_src r).
Definition set_task_func (x : Z) (r : OsEE_TDB) : OsEE_TDB :=
  mkTDB (p_tcb r) (tid r) (task_type r) x (ready_prio r) (dispatch_prio r)
    (max_num_of_act r) (isr2_src r).
Definition set_ready_prio (x : Z) (r : OsEE_TDB) : OsEE_TDB :=
  mkTDB (p_tcb r) (tid r) (task_type r) (task_func r) x (dispatch_prio r)
    (max_num_of_act r) (isr2_src r).
Definition set_dispatch_prio (x : Z) (r : OsEE_TDB) : OsEE_TDB :=
  mkTDB (p_tcb r) (tid r) (task_type r) (task_func r) (ready_prio r) x
    (max_num_of_act r) (isr2_src r).
Definition set_max_num_of_act (x : Z) (r : OsEE_TDB) : OsEE_TDB :=
  mkTDB (p_tcb r) (tid r) (task_type r) (task_func r) (ready_prio r)
    (dispatch_prio r) x (isr2_src r).
Definition set_isr2_src (x : Z) (r : OsEE_TDB) : OsEE_TDB :=
  mkTDB (p_tcb r) (tid r) (task_type r) (task_func r) (ready_prio r)
    (dispatch_prio r) (max_num_of_act r) x.

(** Core control block. *)
Record OsEE_CCB := mkCCB {
  p_curr : Z;
  rq : Z;
  p_free_sn : Z;
  free_sn_counter : Z;
  p_stk_sn : Z;
  os_status : OsEE_kernel_status;
  last_error : Z;
  prev_s_isr_all_status : Z;
  prev_s_isr_os_status : Z;
  s_isr_all_cnt : Z;
  s_isr_os_cnt : Z;
  d_isr_all_cnt : Z;
  p_suspended_sn : Z;
  mem_arbit_status : OsEE_mem_arbit_status
}.

Definition set_p_curr (x : Z) (r : OsEE_CCB) : OsEE_CCB :=
  mkCCB x (rq r) (p_free_sn r) (free_sn_counter r) (p_stk_sn r) (os_status
    r) (last_error r) (prev_s_isr_all_status r) (prev_s_isr_os_status r)
    (s_isr_all_cnt r) (s_isr_os_cnt r) (d_isr_all_cnt r) (p_suspended_sn r)
    (mem_arbit_status r).
Definition set_rq (x : Z) (r : OsEE_CCB) : OsEE_CCB :=
  mkCCB (p_curr r) x (p_free_sn r) (free_sn_counter r) (p_stk_sn r)
    (os_status r) (last_error r) (prev_s_isr_all_status r)
    (prev_s_isr_os_status r) (s_isr_all_cnt r) (s_isr_os_cnt r)
    (d_isr_all_cnt r) (p_suspended_sn r) (mem_arbit_status r).
Definition set_p_free_sn (x : Z) (r : OsEE_CCB) : OsEE_CCB :=
  mkCCB (p_curr r) (rq r) x (free_sn_counter r) (p_stk_sn r) (os_status r)
    (last_error r) (prev_s_isr_all_status r) (prev_s_isr_os_status r)
    (s_isr_all_cnt r) (s_isr_os_cnt r) (d_isr_all_cnt r) (p_suspended_sn r)
    (mem_arbit_status r).
Definition set_free_sn_counter (x : Z) (r : OsEE_CCB) : OsEE_CCB :=
  mkCCB (p_curr r) (rq r) (p_free_sn r) x (p_stk_sn r) (os_status r)
    (last_error r) (prev_s_isr_all_status r) (prev_s_isr_os_status r)
    (s_isr_all_cnt r) (s_isr_os_cnt r) (d_isr_all_cnt r) (p_suspended_sn r)
    (mem_arbit_status r).
Definition set_p_stk_sn (x : Z) (r : OsEE_CCB) : OsEE_CCB :=
  mkCCB (p_curr r) (rq r) (p_free_sn r) (free_sn_counter r) x (os_status
    r) (last_error r) (prev_s_isr_all_status r) (prev_s_isr_os_status r)
    (s_isr_all_cnt r) (s_isr_os_cnt r) (d_isr_all_cnt r) (p_suspended_sn r)
    (mem_arbit_status r).
Definition set_os_status (x : OsEE_kernel_status) (r : OsEE_CCB) : OsEE_CCB :=
  mkCCB (p_curr r) (rq r) (p_free_sn r) (free_sn_counter r) (p_stk_sn r) x
    (last_error r) (prev_s_isr_all_status r) (prev_s_isr_os_status r)
    (s_isr_all_cnt r) (s_isr_os_cnt r) (d_isr_all_cnt r) (p_suspended_sn r)
    (mem_arbit_status r).
Definition set_last_error (x : Z) (r : OsEE_CCB) : OsEE_CCB :=
  mkCCB (p_curr r) (rq r) (p_free_sn r) (free_sn_counter r) (p_stk_sn r)
    (os_status r) x (prev_s_isr_all_status r) (prev_s_isr_os_status r)
    (s_isr_all_cnt r) (s_isr_os_cnt r) (d_isr_all_cnt r) (p_suspended_sn r)
    (mem_arbit_status r).
Definition set_prev_s_isr_all_status (x : Z) (r : OsEE_CCB) : OsEE_CCB :=
  mkCCB (p_curr r) (rq r) (p_free_sn r) (free_sn_counter r) (p_stk_sn r)
    (os_status r) (last_error r) x (prev_s_isr_os_status r) (s_isr_all_cnt
    r) (s_isr_os_cnt r) (d_isr_all_cnt r) (p_suspended_sn r)
    (mem_arbit_status r).
Definition set_prev_s_isr_os_status (x : Z) (r : OsEE_CCB) : OsEE_CCB :=
  mkCCB (p_curr r) (rq r) (p_free_sn r) (free_sn_counter r) (p_stk_sn r)
    (os_status r) (last_error r) (prev_s_isr_all_status r) x (s_isr_all_cnt
    r) (s_isr_os_cnt r) (d_isr_all_cnt r) (p_suspended_sn r)
    (mem_arbit_status r).
Definition set_s_isr_all_cnt (x : Z) (r : OsEE_CCB) : OsEE_CCB :=
  mkCCB (p_curr r) (rq r) (p_free_sn r) (free_sn_counter r) (p_stk_sn r)
    (os_status r) (last_error r) (prev_s_isr_all_status r)
    (prev_s_isr_os_status r) x (s_isr_os_cnt r) (d_isr_all_cnt r)
    (p_suspended_sn r) (mem_arbit_status r).
Definition set_s_isr_os_cnt (x : Z) (r : OsEE_CCB) : OsEE_CCB :=
  mkCCB (p_curr r) (rq r) (p_free_sn r) (free_sn_counter r) (p_stk_sn r)
    (os_status r) (last_error r) (prev_s_isr_all_status r)
    (prev_s_isr_os_status r) (s_isr_all_cnt r) x (d_isr_all_cnt r)
    (p_suspended_sn r) (mem_arbit_status r).
Definition set_d_isr_all_cnt (x : Z) (r : OsEE_CCB) : OsEE_CCB :=
  mkCCB (p_curr r) (rq r) (p_free_sn r) (free_sn_counter r) (p_stk_sn r)
    (os_status r) (last_error r) (prev_s_isr_all_status r)
    (prev_s_isr_os_status r) (s_isr_all_cnt r) (s_isr_os_cnt r) x
    (p_suspended_sn r) (mem_arbit_status r).
Definition set_p_suspended_sn (x : Z) (r : OsEE_CCB) : OsEE_CCB :=
  mkCCB (p_curr r) (rq r) (p_free_sn r) (free_sn_counter r) (p_stk_sn r)
    (os_status r) (last_error r) (prev_s_isr_all_status r)
    (prev_s_isr_os_status r) (s_isr_all_cnt r) (s_isr_os_cnt r)
    (d_isr_all_cnt r) x (mem_arbit_status r).
Definition set_mem_arbit_status (x : OsEE_mem_arbit_status) (r : OsEE_CCB) : OsEE_CCB :=
  mkCCB (p_curr r) (rq r) (p_free_sn r) (free_sn_counter r) (p_stk_sn r)
    (os_status r) (last_error r) (prev_s_isr_all_status r)
    (prev_s_isr_os_status r) (s_isr_all_cnt r) (s_isr_os_cnt r)
    (d_isr_all_cnt r) (p_suspended_sn r) x.

(** What the kernel does outside of its data: context switches, interrupt
    acknowledgements and messages. *)
Inductive kevent :=
  | EvChangeContext (p_from p_to : Z) (restored : bool)
  | EvEndContext (p_to : Z) (restored : bool)
  | EvEoi (irqn : Z)
  | EvPrintk (msg : string).

(** The store: the arrays of nodes, descriptors and control blocks, the core
    descriptor (its control block, idle task and idle hook), the kernel
    descriptor (task table, first free task index) and the events so far. *)
Record kernel := mkKernel {
  sn_mem : gmap Z OsEE_SN;
  tdb_mem : gmap Z OsEE_TDB;
  tcb_mem : gmap Z OsEE_TCB;
  ccb : OsEE_CCB;
  p_idle_task : Z;
  p_idle_hook : Z;
  tdb_ptr_array : list Z;
  free_task_index : Z;
  trace : list kevent
}.

Definition set_sn_mem (x : gmap Z OsEE_SN) (r : kernel) : kernel :=
  mkKernel x (tdb_mem r) (tcb_mem r) (ccb r) (p_idle_task r) (p_idle_hook
    r) (tdb_ptr_array r) (free_task_index r) (trace r).
Definition set_tdb_mem (x : gmap Z OsEE_TDB) (r : kernel) : kernel :=
  mkKernel (sn_mem r) x (tcb_mem r) (ccb r) (p_idle_task r) (p_idle_hook
    r) (tdb_ptr_array r) (free_task_index r) (trace r).
Definition set_tcb_mem (x : gmap Z OsEE_TCB) (r : kernel) : kernel :=
  mkKernel (sn_mem r) (tdb_mem r) x (ccb r) (p_idle_task r) (p_idle_hook
    r) (tdb_ptr_array r) (free_task_index r) (trace r).
Definition set_ccb (x : OsEE_CCB) (r : kernel) : kernel :=
  mkKernel (sn_mem r) (tdb_mem r) (tcb_mem r) x (p_idle_task r)
    (p_idle_hook r) (tdb_ptr_array r) (free_task_index r) (trace r).
Definition set_p_idle_task (x : Z) (r : kernel) : kernel :=
  mkKernel (sn_mem r) (tdb_mem r) (tcb_mem r) (ccb r) x (p_idle_hook r)
    (tdb_ptr_array r) (free_task_index r) (trace r).
Definition set_p_idle_hook (x : Z) (r : kernel) : kernel :=
  mkKernel (sn_mem r) (tdb_mem r) (tcb_mem r) (ccb r) (p_idle_task r) x
    (tdb_ptr_array r) (free_task_index r) (trace r).
Definition set_tdb_ptr_array (x : list Z) (r : kernel) : kernel :=
  mkKernel (sn_mem r) (tdb_mem r) (tcb_mem r) (ccb r) (p_idle_task r)
    (p_idle_hook r) x (free_task_index r) (trace r).
Definition set_free_task_index (x : Z) (r : kernel) : kernel :=
  mkKernel (sn_mem r) (tdb_mem r) (tcb_mem r) (ccb r) (p_idle_task r)
    (p_idle_hook r) (tdb_ptr_array r) x (trace r).
Definition set_trace (x : list kevent) (r : kernel) : kernel :=
  mkKernel (sn_mem r) (tdb_mem r) (tcb_mem r) (ccb r) (p_idle_task r)
    (p_idle_hook r) (tdb_ptr_array r) (free_task_index r) x.

(** ** Access through pointers *)
Definition get_sn (p : Z) : ST kernel OsEE_SN := from_option (fun k => sn_mem k !! p).
Definition get_tdb (p : Z) : ST kernel OsEE_TDB := from_option (fun k => tdb_mem k !! p).
Definition get_tcb (p : Z) : ST kernel OsEE_TCB := from_option (fun k => tcb_mem k !! p).

Definition put_sn (p : Z) (n : OsEE_SN) : ST kernel unit := fun k =>
  match sn_mem k !! p with
  | Some _ => Some (tt, set_sn_mem (<[p := n]> (sn_mem k)) k)
  | None => None
  end.
Definition put_tdb (p : Z) (d : OsEE_TDB) : ST kernel unit := fun k =>
  match tdb_mem k !! p with
  | Some _ => Some (tt, set_tdb_mem (<[p := d]> (tdb_mem k)) k)
  | None => None
  end.
Definition put_tcb (p : Z) (c : OsEE_TCB) : ST kernel unit := fun k =>
  match tcb_mem k !! p with
  | Some _ => Some (tt, set_tcb_mem (<[p := c]> (tcb_mem k)) k)
  | None => None
  end.

(** [p->field = x] *)
Definition upd_sn (p : Z) (f : OsEE_SN -> OsEE_SN) : ST kernel unit :=
  n ← get_sn p; put_sn p (f n).
Definition upd_tcb (p : Z) (f : OsEE_TCB -> OsEE_TCB) : ST kernel unit :=
  c ← get_tcb p; put_tcb p (f c).
Definition upd_tdb (p : Z) (f : OsEE_TDB -> OsEE_TDB) : ST kernel unit :=
  d ← get_tdb p; put_tdb p (f d).
Definition get_ccb : ST kernel OsEE_CCB := gets ccb.
Definition upd_ccb (f : OsEE_CCB -> OsEE_CCB) : ST kernel unit :=
  modify (fun k => set_ccb (f (ccb k)) k).
Definition emit (e : kevent) : ST kernel unit :=
  modify (fun k => set_trace (trace k ++ [e]) k).
Definition printk (s : string) : ST kernel unit := emit (EvPrintk s).

(** [p_tdb->p_tcb] *)
Definition get_tdb_tcb (p : Z) : ST kernel OsEE_TCB :=
  d ← get_tdb p; get_tcb (p_tcb d).
Definition upd_tdb_tcb (p : Z) (f : OsEE_TCB -> OsEE_TCB) : ST kernel unit :=
  d ← get_tdb p; upd_tcb (p_tcb d) f.

(** The list heads of the core control block that are passed by reference. *)
Inductive sn_list := L_rq | L_free | L_stk | L_suspended.

Definition head_of (l : sn_list) (c : OsEE_CCB) : Z :=
  match l with
  | L_rq => rq c | L_free => p_free_sn c
  | L_stk => p_stk_sn c | L_suspended => p_suspended_sn c
  end.
Definition set_head (l : sn_list) (p : Z) (c : OsEE_CCB) : OsEE_CCB :=
  match l with
  | L_rq => set_rq p c | L_free => set_p_free_sn p c
  | L_stk => set_p_stk_sn p c | L_suspended => set_p_suspended_sn p c
  end.
Definition get_head (l : sn_list) : ST kernel Z := gets (fun k => head_of l (ccb k)).
Definition put_head (l : sn_list) (p : Z) : ST kernel unit := upd_ccb (set_head l p).

#[global] Instance sn_list_eq_dec : EqDecision sn_list.
Proof. solve_decision. Defined.

(** Every node of a list is stored, so the number of stored nodes bounds the
    length of every list and is enough fuel to walk it. *)
Definition list_fuel (k : kernel) : nat := S (size (sn_mem k)).

(** ** Lists of nodes *)
Section Segments.
Implicit Types (m : gmap Z OsEE_SN) (p q a t : Z) (l : list (Z * Z)).

(** The nodes [l] (address and task of each) lead from [p] to [q]. *)
Fixpoint lseg m p l q : Prop :=
  match l with
  | [] => p = q
  | (a, t) :: l' =>
      p = a /\ a <> NULL /\ exists r, m !! a = Some (mkSN r t) /\ lseg m r l' q
  end.

Definition chain m p l : Prop := lseg m p l NULL.

Definition addrs l : list Z := l.*1.
Definition tasks l : list Z := l.*2.

Lemma lseg_cons m a t r l q :
  a <> NULL -> m !! a = Some (mkSN r t) -> lseg m r l q -> lseg m a ((a, t) :: l) q.
Proof. intros. simpl. eauto. Qed.

Lemma lseg_app m p q l1 l2 :
  lseg m p (l1 ++ l2) q <-> exists r, lseg m p l1 r /\ lseg m r l2 q.
Proof.
  revert p. induction l1 as [|[a t] l1 IH]; intros p; simpl.
  - split; [intros H; by exists p | by intros (r & -> & H)].
  - split.
    + intros (-> & Hn & r & Hr & (r' & H1 & H2)%IH). eauto 10.
    + intros (r' & (-> & Hn & r & Hr & H1) & H2). split_and!; [done..|].
      exists r. split; [done|]. apply IH. eauto.
Qed.

Lemma lseg_frame m p q l a n :
  a ∉ addrs l -> lseg m p l q -> lseg (<[a := n]> m) p l q.
Proof.
  revert p. induction l as [|[b t] l IH]; intros p Ha; simpl; [done|].
  intros (-> & Hn & r & Hr & H). unfold addrs in Ha.
  rewrite fmap_cons, not_elem_of_cons in Ha. destruct Ha as [Hne Ha].
  split_and!; [done..|]. exists r. split; [|by apply IH].
  rewrite lookup_insert_ne; [done|]. simpl in Hne. congruence.
Qed.

(** Redirecting the last node of a segment. *)
Lemma lseg_set_last m p q r l a t :
  a ∉ addrs l -> lseg m p (l ++ [(a, t)]) q ->
  lseg (<[a := mkSN r t]> m) p (l ++ [(a, t)]) r.
Proof.
  intros Ha (s & H1 & -> & Hn & s' & Hs & _)%lseg_app. apply lseg_app.
  exists a. split; [by apply lseg_frame|]. simpl. split_and!; [done..|].
  exists r. by rewrite lookup_insert_eq.
Qed.

Lemma lseg_head m p q l a t :
  lseg m p ((a, t) :: l) q -> p = a /\ a <> NULL.
Proof. intros (-> & ? & _). done. Qed.

Lemma chain_null_nil m l : chain m NULL l -> l = [].
Proof. destruct l as [|[a t] l]; [done|]. simpl. intros (<- & ? & _). done. Qed.

Lemma chain_not_null m p l :
  chain m p l -> p <> NULL -> exists t l', l = (p, t) :: l'.
Proof.
  destruct l as [|[a t] l]; [done|]. intros (-> & _) _. eauto.
Qed.

Lemma chain_nil_null m p : chain m p [] <-> p = NULL.
Proof. done. Qed.

(** A pointer leads to one list only. *)
Lemma chain_fun m p l1 l2 : chain m p l1 -> chain m p l2 -> l1 = l2.
Proof.
  revert p l2. induction l1 as [|[a t] l1 IH]; intros p l2 H1 H2.
  - apply chain_nil_null in H1 as ->. by apply chain_null_nil in H2 as ->.
  - destruct H1 as (-> & Hn & r & Hr & H1).
    destruct l2 as [|[b u] l2]; [done|].
    destruct H2 as (-> & _ & r' & Hr' & H2). simplify_eq.
    f_equal. by eapply IH.
Qed.

Lemma lseg_stored m p q l a : lseg m p l q -> a ∈ addrs l -> is_Some (m !! a).
Proof.
  revert p. induction l as [|[b t] l IH]; intros p H Ha.
  - by apply elem_of_nil in Ha.
  - destruct H as (-> & _ & r & Hr & H).
    unfold addrs in Ha. rewrite fmap_cons, elem_of_cons in Ha.
    destruct Ha as [-> | Ha]; [by eexists | by apply (IH r)].
Qed.

Lemma lseg_not_null m p q l : lseg m p l q -> NULL ∉ addrs l.
Proof.
  revert p. induction l as [|[b t] l IH]; intros p H Ha.
  - by apply elem_of_nil in Ha.
  - destruct H as (-> & Hn & r & Hr & H).
    unfold addrs in Ha. rewrite fmap_cons, elem_of_cons in Ha.
    destruct Ha as [Ha | Ha]; [by apply Hn | by apply (IH r H)].
Qed.

Lemma chain_length m p l :
  chain m p l -> NoDup (addrs l) -> (length l <= size m)%nat.
Proof.
  intros H Hnd. rewrite <- (length_fmap fst l). fold (addrs l).
  rewrite <- (size_list_to_set (C := gset Z) (addrs l)) by done.
  rewrite <- size_dom. apply subseteq_size. intros a Ha.
  apply elem_of_list_to_set in Ha. apply elem_of_dom.
  by apply (lseg_stored _ _ _ _ _ H).
Qed.

Lemma addrs_app l1 l2 : addrs (l1 ++ l2) = addrs l1 ++ addrs l2.
Proof. apply fmap_app. Qed.

Lemma tasks_app l1 l2 : tasks (l1 ++ l2) = tasks l1 ++ tasks l2.
Proof. apply fmap_app. Qed.

Lemma addrs_mid l1 a t l2 : addrs (l1 ++ (a, t) :: l2) = addrs l1 ++ a :: addrs l2.
Proof. apply addrs_app. Qed.

Lemma tasks_mid l1 a t l2 : tasks (l1 ++ (a, t) :: l2) = tasks l1 ++ t :: tasks l2.
Proof. apply tasks_app. Qed.

End Segments.

(** ** Priorities of tasks *)
Definition tcb_of (k : kernel) (t : Z) : option OsEE_TCB :=
  tdb_mem k !! t ≫= fun d => tcb_mem k !! p_tcb d.
Definition cprio (k : kernel) (t : Z) : Z :=
  match tcb_of k t with Some c => current_prio c | None => 0 end.
Definition rprio (k : kernel) (t : Z) : Z :=
  match tdb_mem k !! t with Some d => ready_prio d | None => 0 end.
Definition is_task (k : kernel) (t : Z) : Prop := is_Some (tcb_of k t).

(** The node lists of a core. *)
Record lists := mkLists {
  rdy : list (Z * Z); free : list (Z * Z);
  stk : list (Z * Z); sus : list (Z * Z)
}.

Definition nodes (L : lists) (l : sn_list) : list (Z * Z) :=
  match l with
  | L_rq => rdy L | L_free => free L | L_stk => stk L | L_suspended => sus L
  end.
Definition set_nodes (l : sn_list) (x : list (Z * Z)) (L : lists) : lists :=
  match l with
  | L_rq => mkLists x (free L) (stk L) (sus L)
  | L_free => mkLists (rdy L) x (stk L) (sus L)
  | L_stk => mkLists (rdy L) (free L) x (sus L)
  | L_suspended => mkLists (rdy L) (free L) (stk L) x
  end.

Lemma nodes_set_eq l x L : nodes (set_nodes l x L) l = x.
Proof. by destruct l. Qed.
Lemma nodes_set_ne l l' x L : l <> l' -> nodes (set_nodes l x L) l' = nodes L l'.
Proof. by destruct l, l'. Qed.
Lemma head_set_eq l p c : head_of l (set_head l p c) = p.
Proof. by destruct l. Qed.
Lemma head_set_ne l l' p c : l <> l' -> head_of l' (set_head l p c) = head_of l' c.
Proof. by destruct l, l'. Qed.

(** A node that is in no list of the core. *)
Definition loose (L : lists) (a : Z) : Prop := forall l, a ∉ addrs (nodes L l).

(** The store represents the lists [L]: each head leads to its list, no node
    is in two places, and the nodes in use belong to known tasks. *)
Record repr (k : kernel) (L : lists) : Prop := {
  repr_chain l : chain (sn_mem k) (head_of l (ccb k)) (nodes L l);
  repr_nodup l : NoDup (addrs (nodes L l));
  repr_disj l l' a :
    l <> l' -> a ∈ addrs (nodes L l) -> a ∈ addrs (nodes L l') -> False;
  repr_task l t : l <> L_free -> t ∈ tasks (nodes L l) -> is_task k t
}.

Lemma lseg_agree m m' p q l :
  (forall a, a ∈ addrs l -> m' !! a = m !! a) -> lseg m p l q -> lseg m' p l q.
Proof.
  revert p. induction l as [|[b t] l IH]; intros p Ha; simpl; [done|].
  intros (-> & Hn & r & Hr & H). split_and!; [done..|]. exists r. split.
  - rewrite Ha; [done|]. apply elem_of_cons. by left.
  - apply IH; [|done]. intros a Hin. apply Ha. apply elem_of_cons. by right.
Qed.

(** Relinking one list, possibly with nodes that were in no list before. *)
Lemma repr_relink k k' L l x :
  repr k L ->
  (forall l', l <> l' -> head_of l' (ccb k') = head_of l' (ccb k)) ->
  (forall l' a, l <> l' -> a ∈ addrs (nodes L l') -> sn_mem k' !! a = sn_mem k !! a) ->
  (forall t, is_task k t -> is_task k' t) ->
  chain (sn_mem k') (head_of l (ccb k')) x ->
  NoDup (addrs x) ->
  (forall a, a ∈ addrs x -> a ∈ addrs (nodes L l) \/ loose L a) ->
  (l <> L_free -> forall t, t ∈ tasks x -> is_task k' t) ->
  repr k' (set_nodes l x L).
Proof.
  intros [Hc Hn Hd Ht] Hh Hm Hk Hx Hxn Hxa Hxt. split.
  - intros l'. destruct (decide (l = l')) as [<-|Hne].
    + by rewrite nodes_set_eq.
    + rewrite nodes_set_ne, Hh by done. eapply lseg_agree; [|apply Hc].
      intros a Ha. by apply (Hm l').
  - intros l'. destruct (decide (l = l')) as [<-|Hne].
    + by rewrite nodes_set_eq.
    + rewrite nodes_set_ne by done. apply Hn.
  - intros l1 l2 a Hne H1 H2.
    destruct (decide (l = l1)) as [<-|Hne1]; [|destruct (decide (l = l2)) as [<-|Hne2]].
    + rewrite nodes_set_eq in H1. rewrite nodes_set_ne in H2 by done.
      destruct (Hxa a H1) as [Hin|Hl]; [by apply (Hd l l2 a) | by apply (Hl l2)].
    + rewrite nodes_set_eq in H2. rewrite nodes_set_ne in H1 by done.
      destruct (Hxa a H2) as [Hin|Hl]; [by apply (Hd l l1 a) | by apply (Hl l1)].
    + rewrite nodes_set_ne in H1, H2 by done. by apply (Hd l1 l2 a).
  - intros l' t Hf Hin. destruct (decide (l = l')) as [<-|Hne].
    + rewrite nodes_set_eq in Hin. by apply Hxt.
    + rewrite nodes_set_ne in Hin by done. apply Hk. by apply (Ht l').
Qed.

(** ** Symbolic execution *)
Lemma get_sn_run k p n : sn_mem k !! p = Some n -> get_sn p k = Some (n, k).
Proof. intros H. unfold get_sn, from_option. by rewrite H. Qed.

Lemma upd_sn_run k p n f :
  sn_mem k !! p = Some n ->
  upd_sn p f k = Some (tt, set_sn_mem (<[p := f n]> (sn_mem k)) k).
Proof.
  intros H. unfold upd_sn. erewrite bind_run by by apply get_sn_run.
  unfold put_sn. by rewrite H.
Qed.

Lemma get_tdb_run k p d : tdb_mem k !! p = Some d -> get_tdb p k = Some (d, k).
Proof. intros H. unfold get_tdb, from_option. by rewrite H. Qed.

Lemma get_tcb_run k p c : tcb_mem k !! p = Some c -> get_tcb p k = Some (c, k).
Proof. intros H. unfold get_tcb, from_option. by rewrite H. Qed.

(** The effect of an assignment through [t->p_tcb]. *)
Definition tcb_upd (t : Z) (f : OsEE_TCB -> OsEE_TCB) (k : kernel) : kernel :=
  match tdb_mem k !! t with
  | Some d => set_tcb_mem (alter f (p_tcb d) (tcb_mem k)) k
  | None => k
  end.

Lemma is_task_inv k t :
  is_task k t -> exists d c, tdb_mem k !! t = Some d /\ tcb_mem k !! p_tcb d = Some c.
Proof.
  intros [c Hc]. unfold tcb_of in Hc.
  destruct (tdb_mem k !! t) as [d|] eqn:Hd; simpl in Hc; [eauto|done].
Qed.

Lemma insert_as_alter {A} (m : gmap Z A) i x f :
  m !! i = Some x -> <[i := f x]> m = alter f i m.
Proof.
  intros H. apply map_eq. intros j. destruct (decide (i = j)) as [<-|Hne].
  - by rewrite lookup_insert_eq, lookup_alter_eq, H.
  - rewrite lookup_insert_ne, lookup_alter_ne by done. done.
Qed.

Lemma upd_tcb_run k d t f :
  tdb_mem k !! t = Some d -> is_task k t ->
  upd_tcb (p_tcb d) f k = Some (tt, tcb_upd t f k).
Proof.
  intros Hd (d' & c & Hd' & Hc)%is_task_inv. simplify_eq.
  unfold upd_tcb. erewrite bind_run by by apply get_tcb_run.
  unfold put_tcb, tcb_upd. rewrite Hc, Hd. by erewrite insert_as_alter.
Qed.

Lemma upd_tdb_tcb_run k t f :
  is_task k t -> upd_tdb_tcb t f k = Some (tt, tcb_upd t f k).
Proof.
  intros H. pose proof (is_task_inv _ _ H) as (d & c & Hd & Hc).
  unfold upd_tdb_tcb. erewrite bind_run by by apply get_tdb_run.
  by apply upd_tcb_run.
Qed.

Lemma tcb_upd_tdb_mem t f k : tdb_mem (tcb_upd t f k) = tdb_mem k.
Proof. unfold tcb_upd. by destruct (tdb_mem k !! t). Qed.
Lemma tcb_upd_sn_mem t f k : sn_mem (tcb_upd t f k) = sn_mem k.
Proof. unfold tcb_upd. by destruct (tdb_mem k !! t). Qed.
Lemma tcb_upd_ccb t f k : ccb (tcb_upd t f k) = ccb k.
Proof. unfold tcb_upd. by destruct (tdb_mem k !! t). Qed.
Lemma tcb_upd_idle t f k : p_idle_task (tcb_upd t f k) = p_idle_task k.
Proof. unfold tcb_upd. by destruct (tdb_mem k !! t). Qed.
Lemma tcb_upd_trace t f k : trace (tcb_upd t f k) = trace k.
Proof. unfold tcb_upd. by destruct (tdb_mem k !! t). Qed.

(** Distinct descriptors have distinct control blocks. *)
Definition tcb_inj (k : kernel) : Prop := forall t t' d d',
  tdb_mem k !! t = Some d -> tdb_mem k !! t' = Some d' ->
  p_tcb d = p_tcb d' -> t = t'.

Lemma tcb_upd_same t f k c :
  tcb_of k t = Some c -> tcb_of (tcb_upd t f k) t = Some (f c).
Proof.
  unfold tcb_of, tcb_upd. destruct (tdb_mem k !! t) as [d|] eqn:Hd; [|done].
  simpl. rewrite Hd. simpl. intros H. by rewrite lookup_alter_eq, H.
Qed.

Lemma tcb_upd_other t t' f k :
  tcb_inj k -> t <> t' -> tcb_of (tcb_upd t f k) t' = tcb_of k t'.
Proof.
  intros Hi Hne. unfold tcb_of, tcb_upd.
  destruct (tdb_mem k !! t) as [d|] eqn:Hd; [|done]. simpl.
  destruct (tdb_mem k !! t') as [d'|] eqn:Hd'; [|done]. simpl.
  apply lookup_alter_ne. intros He. apply Hne. by eapply Hi.
Qed.

Lemma tcb_upd_is_task t t' f k : is_task k t' <-> is_task (tcb_upd t f k) t'.
Proof.
  unfold is_task, tcb_of, tcb_upd. destruct (tdb_mem k !! t) as [d|] eqn:Hd; [|done].
  simpl. destruct (tdb_mem k !! t') as [d'|] eqn:Hd'; [|done]. simpl.
  destruct (decide (p_tcb d = p_tcb d')) as [->|Hne].
  - by rewrite lookup_alter_eq, fmap_is_Some.
  - by rewrite lookup_alter_ne.
Qed.

(** An assignment that does not touch the priority of any task. *)
Lemma tcb_upd_cprio t t' f k :
  (forall c, current_prio (f c) = current_prio c) ->
  cprio (tcb_upd t f k) t' = cprio k t'.
Proof.
  intros Hf. unfold cprio, tcb_of, tcb_upd.
  destruct (tdb_mem k !! t) as [d|] eqn:Hd; [|done]. simpl.
  destruct (tdb_mem k !! t') as [d'|] eqn:Hd'; [|done]. simpl.
  destruct (decide (p_tcb d = p_tcb d')) as [->|Hne].
  - rewrite lookup_alter_eq. destruct (tcb_mem k !! p_tcb d'); simpl; [apply Hf|done].
  - by rewrite lookup_alter_ne.
Qed.

Lemma tcb_upd_rprio t t' f k : rprio (tcb_upd t f k) t' = rprio k t'.
Proof. unfold rprio. by rewrite tcb_upd_tdb_mem. Qed.

(** Everything but the node store and the list heads. *)
Definition strip (k : kernel) : kernel :=
  set_sn_mem ∅ (set_ccb (set_rq NULL (set_p_free_sn NULL (set_p_stk_sn NULL
    (set_p_suspended_sn NULL (ccb k))))) k).

Lemma strip_tdb_mem k k' : strip k' = strip k -> tdb_mem k' = tdb_mem k.
Proof. intros H. by apply (f_equal tdb_mem) in H. Qed.
Lemma strip_tcb_mem k k' : strip k' = strip k -> tcb_mem k' = tcb_mem k.
Proof. intros H. by apply (f_equal tcb_mem) in H. Qed.
Lemma strip_idle k k' : strip k' = strip k -> p_idle_task k' = p_idle_task k.
Proof. intros H. by apply (f_equal p_idle_task) in H. Qed.
Lemma strip_curr k k' : strip k' = strip k -> p_curr (ccb k') = p_curr (ccb k).
Proof. intros H. by apply (f_equal (fun k => p_curr (ccb k))) in H. Qed.
Lemma strip_tcb_of k k' t : strip k' = strip k -> tcb_of k' t = tcb_of k t.
Proof. intros H. unfold tcb_of. by rewrite (strip_tdb_mem _ _ H), (strip_tcb_mem _ _ H). Qed.
Lemma strip_cprio k k' t : strip k' = strip k -> cprio k' t = cprio k t.
Proof. intros H. unfold cprio. by rewrite (strip_tcb_of _ _ _ H). Qed.
Lemma strip_rprio k k' t : strip k' = strip k -> rprio k' t = rprio k t.
Proof. intros H. unfold rprio. by rewrite (strip_tdb_mem _ _ H). Qed.
Lemma strip_is_task k k' t : strip k' = strip k -> is_task k' t <-> is_task k t.
Proof. intros H. unfold is_task. by rewrite (strip_tcb_of _ _ _ H). Qed.
Lemma strip_tcb_upd k k' t f :
  strip k' = strip k -> strip (tcb_upd t f k') = strip (tcb_upd t f k).
Proof.
  intros H. unfold tcb_upd. rewrite (strip_tdb_mem _ _ H).
  destruct (tdb_mem k !! t) as [d|]; [|done].
  rewrite (strip_tcb_mem _ _ H).
  exact (f_equal (set_tcb_mem (alter f (p_tcb d) (tcb_mem k))) H).
Qed.

(** Lists are kept by assignments that leave nodes and heads alone. *)
Lemma repr_same k k' L :
  sn_mem k' = sn_mem k ->
  (forall l, head_of l (ccb k') = head_of l (ccb k)) ->
  (forall t, is_task k t -> is_task k' t) ->
  repr k L -> repr k' L.
Proof.
  intros Hm Hh Ht [Hc Hn Hd Hk]. split; [|done..|].
  - intros l. rewrite Hm, Hh. apply Hc.
  - intros l t ? ?. apply Ht. by apply (Hk l).
Qed.

Lemma repr_tcb_upd t f k L : repr k L -> repr (tcb_upd t f k) L.
Proof.
  apply repr_same; [apply tcb_upd_sn_mem | by rewrite tcb_upd_ccb |].
  intros t'. apply tcb_upd_is_task.
Qed.

(** Walk one step of a list. *)
Lemma chain_cons_lookup m p a t x :
  chain m p ((a, t) :: x) ->
  p = a /\ a <> NULL /\ exists r, m !! a = Some (mkSN r t) /\ chain m r x.
Proof. done. Qed.

(** Taking the first node off a list. *)
Lemma repr_pop k L l a t x r :
  repr k L -> nodes L l = (a, t) :: x -> sn_mem k !! a = Some (mkSN r t) ->
  repr (set_ccb (set_head l r (ccb k)) k) (set_nodes l x L) /\
  loose (set_nodes l x L) a.
Proof.
  intros HR Hl Ha. pose proof (repr_chain _ _ HR l) as Hc.
  pose proof (repr_nodup _ _ HR l) as Hn. rewrite Hl in Hc, Hn.
  destruct Hc as (_ & Ha0 & r' & Hr' & Hc).
  rewrite Ha in Hr'. injection Hr' as <-.
  unfold addrs in Hn. simpl in Hn. apply NoDup_cons in Hn as [Hax Hn]. split.
  - apply (repr_relink k _ L); simpl; try done.
    + intros l' ?. by apply head_set_ne.
    + by rewrite head_set_eq.
    + intros b Hb. left. rewrite Hl. apply elem_of_cons. by right.
    + intros Hf u Hu. apply (repr_task _ _ HR l u Hf). rewrite Hl.
      apply elem_of_cons. by right.
  - intros l'. destruct (decide (l = l')) as [<-|Hne].
    + by rewrite nodes_set_eq.
    + rewrite nodes_set_ne by done. intros Hin.
      apply (repr_disj _ _ HR l l' a Hne); [|done].
      rewrite Hl. apply elem_of_cons. by left.
Qed.

(** Putting a node that is in no list in front of a list. *)
Lemma repr_push k L l a t n :
  repr k L -> loose L a -> a <> NULL -> sn_mem k !! a = Some n ->
  (l <> L_free -> is_task k t) ->
  repr (set_ccb (set_head l a (ccb k))
         (set_sn_mem (<[a := mkSN (head_of l (ccb k)) t]> (sn_mem k)) k))
       (set_nodes l ((a, t) :: nodes L l) L).
Proof.
  intros HR Hl Ha Hn Ht. apply (repr_relink k _ L); simpl; try done.
  - intros l' ?. by apply head_set_ne.
  - intros l' b Hne Hb. apply lookup_insert_ne. intros ->. by apply (Hl l').
  - rewrite head_set_eq. split_and!; [done..|]. exists (head_of l (ccb k)).
    rewrite lookup_insert_eq. split; [done|]. apply lseg_frame; [apply Hl|].
    apply (repr_chain _ _ HR).
  - unfold addrs. simpl. apply NoDup_cons. split; [apply Hl|]. apply (repr_nodup _ _ HR).
  - intros b. unfold addrs. simpl. rewrite elem_of_cons. intros [-> | ?]; auto.
  - intros Hf u. unfold tasks. simpl. rewrite elem_of_cons.
    intros [-> | Hu]; [by apply Ht | by apply (repr_task _ _ HR l u)].
Qed.
