(* ===== verification/Scheduler.v ===== *)
(** * ERIKA kernel: scheduler queues

    Models ee_oo_scheduler.c and the node allocation of ee_scheduler_types.h
    for the linked-list ready queue: priority insertion, preemption of the
    stacked task by the ready queue, and removal of the running task. The
    queue references ([OsEE_RQ *], [OsEE_SN **]) are the list heads of the
    core control block.

    The theorems show that each operation terminates on a well-formed store
    and acts on the abstract lists as the scheduler promises: the ready queue
    is kept in descending priority with equal priorities in order of arrival,
    and a task of the ready queue takes over exactly when its priority is
    strictly higher. *)

From Stdlib Require Import ZArith Lia.
From stdpp Require Import base tactics list option gmap sorting.
From S2P Require Import Prelude StateMonad Kernel.

(** ** Node allocation (ee_scheduler_types.h) *)
Definition osEE_sn_alloc (pp_first : sn_list) : ST kernel Z :=
  p_sn_allocated ← get_head pp_first;
  n ← get_sn p_sn_allocated;
  _ ← put_head pp_first (sn_next n);
  _ ← upd_sn p_sn_allocated (set_sn_next NULL);
  mret p_sn_allocated.

Definition osEE_sn_release (pp_first : sn_list) (p_to_free : Z) : ST kernel unit :=
  p_first ← get_head pp_first;
  _ ← upd_sn p_to_free (set_sn_next p_first);
  put_head pp_first p_to_free.

(** ** Priority insertion *)

(** The traversal loop: the last node passed and the first one not passed. *)
Fixpoint sn_priority_scan (fuel : nat) (new_task_prio : Z) (as_ready : bool)
    (p_prev p_curr : Z) : ST kernel (Z * Z) :=
  if decide (p_curr = NULL) then mret (p_prev, p_curr)
  else match fuel with
  | O => undefined
  | S fuel' =>
      n ← get_sn p_curr;
      p_cur_tdb ← get_tdb (sn_tdb n);
      p_cur_tcb ← get_tcb (p_tcb p_cur_tdb);
      let prio_to_check :=
        if as_ready then ready_prio p_cur_tdb else current_prio p_cur_tcb in
      if decide (new_task_prio <= prio_to_check)
      then sn_priority_scan fuel' new_task_prio as_ready p_curr (sn_next n)
      else mret (p_prev, p_curr)
  end.

Definition osEE_sn_priority_insert (pp_first : sn_list) (p_sn_new : Z)
    (as_ready : bool) : ST kernel bool :=
  n_new ← get_sn p_sn_new;
  p_tdb_new ← get_tdb (sn_tdb n_new);
  p_tcb_new ← get_tcb (p_tcb p_tdb_new);
  let new_task_prio :=
    if as_ready then ready_prio p_tdb_new else current_prio p_tcb_new in
  p_first ← get_head pp_first;
  fuel ← gets list_fuel;
  '(p_prev, p_curr) ← sn_priority_scan fuel new_task_prio as_ready NULL p_first;
  head_changed ←
    (if decide (p_prev <> NULL)
     then _ ← upd_sn p_prev (set_sn_next p_sn_new); mret false
     else _ ← put_head pp_first p_sn_new; mret true);
  _ ← upd_sn p_sn_new (set_sn_next p_curr);
  mret head_changed.

Definition osEE_scheduler_rq_insert (p_rq : sn_list) (p_sn_new p_tdb_new : Z)
    : ST kernel bool :=
  _ ← upd_sn p_sn_new (set_sn_tdb p_tdb_new);
  osEE_sn_priority_insert p_rq p_sn_new true.

(** ** Dispatching *)
Definition osEE_scheduler_stk_next (p_rq_sn : Z) : ST kernel unit :=
  n ← get_sn p_rq_sn;
  p_tdb ← get_tdb (sn_tdb n);
  c ← get_ccb;
  _ ← upd_sn p_rq_sn (set_sn_next (p_stk_sn c));
  _ ← upd_ccb (set_p_stk_sn p_rq_sn);
  _ ← upd_ccb (set_p_curr (sn_tdb n));
  p_tcb_ ← get_tcb (p_tcb p_tdb);
  if decide (current_prio p_tcb_ < dispatch_prio p_tdb)
  then upd_tcb (p_tcb p_tdb) (set_current_prio (dispatch_prio p_tdb))
  else mret tt.

(** The first half of the preemption: does the ready queue take over, and
    from which task. [osEE_call_post_task_hook] does nothing in this
    configuration. *)
Definition rq_preemption_check (p_rq_sn p_ret_sn : Z) : ST kernel (bool * Z) :=
  if decide (p_ret_sn <> NULL) then
    ret_sn ← get_sn p_ret_sn;
    let p_ret_tdb := sn_tdb ret_sn in
    if decide (p_rq_sn <> NULL) then
      ret_tdb ← get_tdb p_ret_tdb;
      ret_tcb ← get_tcb (p_tcb ret_tdb);
      rq_sn ← get_sn p_rq_sn;
      rq_tcb ← get_tdb_tcb (sn_tdb rq_sn);
      if decide (current_prio ret_tcb < current_prio rq_tcb)
      then _ ← upd_tcb (p_tcb ret_tdb) (set_status OSEE_TASK_READY_STACKED);
           mret (true, p_ret_tdb)
      else mret (false, p_ret_tdb)
    else mret (false, p_ret_tdb)
  else if decide (p_rq_sn <> NULL) then
    p_ret_tdb ← gets p_idle_task;
    _ ← upd_tdb_tcb p_ret_tdb (set_status OSEE_TASK_READY_STACKED);
    mret (true, p_ret_tdb)
  else mret (false, NULL).

(** The result is the preempted task, or [NULL] without preemption. *)
Definition osEE_scheduler_core_rq_preempt_stk (p_rq : sn_list) : ST kernel Z :=
  p_rq_sn ← get_head p_rq;
  c ← get_ccb;
  '(is_rq_preemption, p_ret_tdb) ← rq_preemption_check p_rq_sn (p_stk_sn c);
  if (is_rq_preemption : bool) then
    rq_sn ← get_sn p_rq_sn;
    _ ← put_head p_rq (sn_next rq_sn);
    _ ← osEE_scheduler_stk_next p_rq_sn;
    mret p_ret_tdb
  else mret NULL.

(** "Resume STK TASK" or the idle task. *)
Definition resume_stk (p_curr_stk_sn : Z) : ST kernel unit :=
  p_tdb_stk ←
    (if decide (p_curr_stk_sn <> NULL)
     then n ← get_sn p_curr_stk_sn; mret (sn_tdb n)
     else gets p_idle_task);
  upd_ccb (set_p_curr p_tdb_stk).

Definition osEE_scheduler_core_pop_running (p_rq : sn_list) : ST kernel Z :=
  c ← get_ccb;
  let p_prev_stk_sn := p_stk_sn c in
  prev_sn ← get_sn p_prev_stk_sn;
  let p_next_stk_sn := sn_next prev_sn in
  _ ← upd_ccb (set_p_stk_sn p_next_stk_sn);
  p_preempt ← osEE_scheduler_core_rq_preempt_stk p_rq;
  c' ← get_ccb;
  _ ← (if decide (p_preempt = NULL) then resume_stk (p_stk_sn c') else mret tt);
  mret p_prev_stk_sn.

(** ** Abstract insertion *)
Section PrioInsert.
Context (prio : Z -> Z).

(** Behind every element of at least the same priority in front. *)
Fixpoint prio_insert (x : Z * Z) (l : list (Z * Z)) : list (Z * Z) :=
  match l with
  | [] => [x]
  | y :: l' => if decide (prio x.2 <= prio y.2) then y :: prio_insert x l' else x :: l
  end.

Definition by_prio (x y : Z * Z) : Prop := prio y.2 <= prio x.2.

Lemma prio_insert_perm x l : prio_insert x l ≡ₚ x :: l.
Proof.
  induction l as [|y l IH]; simpl; [done|]. case_decide; [|done].
  rewrite IH. apply perm_swap.
Qed.

Lemma prio_insert_split x l :
  exists l1 l2, l = l1 ++ l2 /\ prio_insert x l = l1 ++ x :: l2 /\
    Forall (fun y => prio x.2 <= prio y.2) l1 /\
    match l2 with [] => True | y :: _ => prio y.2 < prio x.2 end.
Proof.
  induction l as [|y l IH]; simpl.
  - exists [], []. done.
  - case_decide as H.
    + destruct IH as (l1 & l2 & -> & -> & H1 & H2).
      exists (y :: l1), l2. split_and!; try done. by constructor.
    + exists [], (y :: l). split_and!; try done. simpl. lia.
Qed.

Lemma prio_insert_sorted x l :
  StronglySorted by_prio l -> StronglySorted by_prio (prio_insert x l).
Proof.
  induction 1 as [|y l Hs IH Hy]; simpl; [by repeat constructor|].
  case_decide as H.
  - constructor; [done|]. rewrite prio_insert_perm. by constructor.
  - constructor; [by constructor|]. constructor; [unfold by_prio; lia|].
    eapply Forall_impl; [exact Hy|]. unfold by_prio. simpl. intros z Hz. lia.
Qed.

(** Equal priorities are served in order of arrival. *)
Lemma prio_insert_fifo x l p :
  StronglySorted by_prio l ->
  filter (fun y => prio y.2 = p) (prio_insert x l) =
  filter (fun y => prio y.2 = p) (l ++ [x]).
Proof.
  induction 1 as [|y l Hs IH Hy]; [done|]. simpl prio_insert.
  case_decide as H.
  - change ((y :: l) ++ [x]) with (y :: (l ++ [x])). by rewrite !filter_cons, IH.
  - rewrite list.filter_app, (filter_cons _ x (y :: l)), filter_singleton by exact [].
    case_decide as Hp; [|by rewrite app_nil_r].
    rewrite (filter_none _ (y :: l)); [done|]. constructor; [lia|].
    eapply Forall_impl; [exact Hy|]. unfold by_prio. intros z Hz. lia.
Qed.

End PrioInsert.

Lemma prio_insert_ext f g x l :
  (forall t, f t = g t) -> prio_insert f x l = prio_insert g x l.
Proof. intros H. induction l as [|y l IH]; simpl; [done|]. by rewrite !H, IH. Qed.

(** ** The operations on the lists *)
Definition prio_key (as_ready : bool) (k : kernel) : Z -> Z :=
  if as_ready then rprio k else cprio k.

Lemma prio_key_run (as_ready : bool) k t d c :
  tdb_mem k !! t = Some d -> tcb_mem k !! p_tcb d = Some c ->
  (if as_ready then ready_prio d else current_prio c) = prio_key as_ready k t.
Proof.
  intros Hd Hc. unfold prio_key, rprio, cprio, tcb_of. destruct as_ready.
  - by rewrite Hd.
  - rewrite Hd. simpl. by rewrite Hc.
Qed.

(** The last node of a segment, or what came before it. *)
Definition last_addr (p_prev : Z) (x : list (Z * Z)) : Z :=
  default p_prev (last (addrs x)).

Lemma last_addr_cons p_prev a t x :
  last_addr a x = last_addr p_prev ((a, t) :: x).
Proof.
  unfold last_addr, addrs. rewrite fmap_cons, last_cons. by destruct (last _).
Qed.

Lemma last_addr_snoc p_prev a t x : last_addr p_prev (x ++ [(a, t)]) = a.
Proof. unfold last_addr, addrs. rewrite fmap_app. simpl. by rewrite last_snoc. Qed.

Lemma sn_priority_scan_run k np as_ready x : forall fuel p_prev p,
  chain (sn_mem k) p x -> (length x <= fuel)%nat ->
  Forall (is_task k) (tasks x) ->
  exists x1 x2 q, x = x1 ++ x2 /\
    sn_priority_scan fuel np as_ready p_prev p k = Some ((last_addr p_prev x1, q), k) /\
    lseg (sn_mem k) p x1 q /\ chain (sn_mem k) q x2 /\
    forall y, prio_key as_ready k y.2 = np ->
      prio_insert (prio_key as_ready k) y x = x1 ++ y :: x2.
Proof.
  induction x as [|[a t] x IH]; intros fuel p_prev p Hc Hf Ht.
  - apply chain_nil_null in Hc as ->. exists [], [], NULL.
    split_and!; [done| |done..]. by destruct fuel.
  - apply chain_cons_lookup in Hc as (-> & Ha & r & Hr & Hc).
    destruct fuel as [|fuel]; simpl in Hf; [lia|].
    change (Forall (is_task k) (t :: tasks x)) in Ht. apply Forall_cons in Ht as [Hta Ht].
    pose proof (is_task_inv _ _ Hta) as (d & c & Hd & Hc').
    simpl sn_priority_scan. rewrite decide_False by done.
    erewrite bind_run by by apply get_sn_run. simpl sn_tdb.
    erewrite bind_run by by apply get_tdb_run.
    erewrite bind_run by by apply get_tcb_run.
    erewrite prio_key_run by done. cbn [sn_next].
    destruct (decide (np <= prio_key as_ready k t)) as [Hle|Hgt].
    + destruct (IH fuel a r Hc ltac:(lia) Ht) as (x1 & x2 & q & -> & Hrun & H1 & H2 & Hi).
      exists ((a, t) :: x1), x2, q. split_and!; [done| |by eapply lseg_cons|done|].
      * by rewrite Hrun, <- last_addr_cons.
      * intros y Hy. simpl. rewrite Hy, decide_True, Hi by done. done.
    + exists [], ((a, t) :: x), a. split_and!; [done..|by eapply lseg_cons|].
      intros y Hy. simpl. rewrite Hy. by rewrite decide_False.
Qed.

(** Linking a node behind a segment that starts at a list head. *)
Lemma lseg_insert_after m p a t b u x q y r :
  chain m p ((x ++ [(a, t)]) ++ y) -> lseg m p (x ++ [(a, t)]) q -> chain m q y ->
  NoDup (addrs ((x ++ [(a, t)]) ++ y)) ->
  b ∉ addrs ((x ++ [(a, t)]) ++ y) -> b <> NULL -> m !! b = Some (mkSN r u) ->
  chain (<[b := mkSN q u]> (<[a := mkSN b t]> m)) p ((x ++ [(a, t)]) ++ (b, u) :: y).
Proof.
  intros _ H1 H2 Hnd Hb Hb0 Hmb. rewrite !addrs_app in Hnd, Hb.
  apply not_elem_of_app in Hb as [[Hbx Hba]%not_elem_of_app Hby].
  apply NoDup_app in Hnd as (Hnd & Hdis & _).
  apply NoDup_app in Hnd as (_ & Hdx & _).
  assert (a ∉ addrs x) as Hax by (intros Hin; apply (Hdx a Hin); by apply list_elem_of_here).
  assert (a ∉ addrs y) as Hay.
  { apply Hdis. apply elem_of_app. right. by apply list_elem_of_here. }
  assert (a <> b) as Hab by (intros ->; apply Hba; by apply list_elem_of_here).
  apply lseg_app. exists b. split.
  - apply lseg_frame.
    { rewrite addrs_app. apply not_elem_of_app. done. }
    by apply (lseg_set_last _ _ q).
  - split_and!; [done..|]. exists q. rewrite lookup_insert_eq. split; [done|].
    by do 2 (apply lseg_frame; [done|]).
Qed.

Lemma repr_fuel k L l : repr k L -> (length (nodes L l) <= list_fuel k)%nat.
Proof.
  intros HR. unfold list_fuel.
  pose proof (chain_length _ _ _ (repr_chain _ _ HR l) (repr_nodup _ _ HR l)). lia.
Qed.

Lemma repr_Forall_task k L l :
  repr k L -> l <> L_free -> Forall (is_task k) (tasks (nodes L l)).
Proof.
  intros HR Hl. apply Forall_forall. intros t Ht. by apply (repr_task _ _ HR l).
Qed.

(** The memory of a list after a new node has been linked in. *)
Lemma repr_insert k k' L l a t x1 x2 :
  repr k L -> nodes L l = x1 ++ x2 -> loose L a -> is_task k t ->
  strip k' = strip k ->
  (forall l', l <> l' -> head_of l' (ccb k') = head_of l' (ccb k)) ->
  (forall b, b ∉ addrs x1 -> b <> a -> sn_mem k' !! b = sn_mem k !! b) ->
  chain (sn_mem k') (head_of l (ccb k')) (x1 ++ (a, t) :: x2) ->
  repr k' (set_nodes l (x1 ++ (a, t) :: x2) L).
Proof.
  intros HR Hl Ha Ht Hs Hh Hm Hc.
  pose proof (repr_nodup _ _ HR l) as Hnd. pose proof (Ha l) as Hal. rewrite Hl in Hnd, Hal.
  assert (addrs (x1 ++ (a, t) :: x2) ≡ₚ a :: addrs (x1 ++ x2)) as Hperm.
  { rewrite !addrs_app. symmetry. apply Permutation_middle. }
  apply (repr_relink k); try done.
  - intros l' b Hne Hb. apply Hm.
    + intros Hb1. apply (repr_disj _ _ HR l l' b Hne); [|done].
      rewrite Hl, addrs_app. apply elem_of_app. by left.
    + intros ->. by apply (Ha l').
  - intros u Hu. by apply (strip_is_task _ _ _ Hs).
  - rewrite Hperm. by apply NoDup_cons.
  - intros b. rewrite Hperm, Hl. rewrite elem_of_cons. intros [-> | Hb]; auto.
  - intros Hf u. rewrite (strip_is_task _ _ _ Hs). rewrite tasks_app, elem_of_app.
    change (tasks ((a, t) :: x2)) with (t :: tasks x2). rewrite elem_of_cons.
    intros Hu. destruct (decide (u = t)) as [->|Hne]; [done|].
    apply (repr_task _ _ HR l u Hf). rewrite Hl, tasks_app, elem_of_app. tauto.
Qed.

Lemma osEE_sn_priority_insert_run k L l a t r as_ready :
  repr k L -> l <> L_free -> loose L a -> a <> NULL ->
  sn_mem k !! a = Some (mkSN r t) -> is_task k t ->
  exists k', osEE_sn_priority_insert l a as_ready k =
      Some (bool_decide (head_of l (ccb k') = a), k') /\
    repr k' (set_nodes l (prio_insert (prio_key as_ready k) (a, t) (nodes L l)) L) /\
    strip k' = strip k.
Proof.
  intros HR Hl Ha Ha0 Hma Ht.
  pose proof (is_task_inv _ _ Ht) as (d & c & Hd & Hc).
  unfold osEE_sn_priority_insert.
  erewrite bind_run by by apply get_sn_run. cbn [sn_tdb].
  erewrite bind_run by by apply get_tdb_run.
  erewrite bind_run by by apply get_tcb_run.
  erewrite prio_key_run by done.
  erewrite bind_run by done. erewrite bind_run by done.
  destruct (sn_priority_scan_run k (prio_key as_ready k t) as_ready (nodes L l)
    (list_fuel k) NULL (head_of l (ccb k)) (repr_chain _ _ HR l) (repr_fuel _ _ _ HR)
    (repr_Forall_task _ _ _ HR Hl)) as (x1 & x2 & q & Hx & Hrun & H1 & H2 & Hi).
  erewrite bind_run by exact Hrun. rewrite (Hi (a, t) eq_refl).
  pose proof (Ha l) as Hal. rewrite Hx in Hal.
  destruct x1 as [|[b u] x1 _] using rev_ind; cbn [last_addr addrs].
  - change (last_addr NULL []) with NULL. simpl in H1. subst q.
    rewrite decide_False by (intros H; by apply H).
    eexists. split; [|split].
    + cbn [mbind st_bind]. erewrite bind_run by (erewrite bind_run by done; done).
      erewrite bind_run by by apply upd_sn_run.
      unfold mret, st_ret. f_equal. f_equal. symmetry. apply bool_decide_eq_true.
      apply head_set_eq.
    + apply (repr_insert k _ L l a t [] x2); simpl; try done.
      * by destruct l.
      * intros l' Hne. by apply head_set_ne.
      * intros b' _ Hb. by rewrite lookup_insert_ne.
      * rewrite head_set_eq. eapply lseg_cons; [done|by rewrite lookup_insert_eq|].
        by apply lseg_frame.
    + by destruct l.
  - rewrite last_addr_snoc.
    pose proof (repr_chain _ _ HR l) as Hch. pose proof (repr_nodup _ _ HR l) as Hnd.
    rewrite Hx in Hch, Hnd.
    assert (b <> NULL /\ exists s, sn_mem k !! b = Some (mkSN s u)) as (Hb0 & s & Hb).
    { apply lseg_app in H1 as (s & _ & _ & Hb0 & s' & Hb & _). eauto. }
    assert (a <> b) as Hab.
    { intros ->. apply Hal. rewrite addrs_app, addrs_app. apply elem_of_app. left.
      apply elem_of_app. right. by apply list_elem_of_here. }
    rewrite decide_True by done.
    eexists. split; [|split].
    + erewrite bind_run by ((erewrite bind_run by (by apply upd_sn_run)); done).
      erewrite bind_run by (apply upd_sn_run; simpl; by rewrite lookup_insert_ne).
      cbn [set_sn_next sn_tdb]. unfold mret, st_ret. f_equal. f_equal.
      symmetry. apply bool_decide_eq_false. intros He. apply Hal.
      rewrite <- He. destruct x1 as [|[e v] x1]; destruct Hch as [Hp _]; simpl; rewrite Hp;
        by apply list_elem_of_here.
    + apply (repr_insert k _ L l a t (x1 ++ [(b, u)]) x2); simpl; try done.
      * intros b' Hb' Hne. rewrite !lookup_insert_ne; [done| |done].
        intros ->. apply Hb'. rewrite addrs_app. apply elem_of_app. right.
        by apply list_elem_of_here.
      * by apply (lseg_insert_after _ _ _ _ _ _ _ _ _ r).
    + done.
Qed.

(** Writing to a node that is in no list. *)
Lemma repr_loose_upd k L a n :
  repr k L -> loose L a -> repr (set_sn_mem (<[a := n]> (sn_mem k)) k) L.
Proof.
  intros [Hc Hn Hd Ht] Ha. split; simpl; [|done..].
  intros l. apply lseg_frame; [apply Ha | apply Hc].
Qed.

Lemma osEE_scheduler_rq_insert_run k L a n t :
  repr k L -> loose L a -> a <> NULL -> sn_mem k !! a = Some n -> is_task k t ->
  exists k', osEE_scheduler_rq_insert L_rq a t k =
      Some (bool_decide (rq (ccb k') = a), k') /\
    repr k' (set_nodes L_rq (prio_insert (rprio k) (a, t) (rdy L)) L) /\
    strip k' = strip k.
Proof.
  intros HR Ha Ha0 Hn Ht. unfold osEE_scheduler_rq_insert.
  erewrite bind_run by by apply upd_sn_run. destruct n as [r u]. cbn [set_sn_tdb sn_next].
  set (k1 := set_sn_mem _ k).
  destruct (osEE_sn_priority_insert_run k1 L L_rq a t r true) as (k' & H1 & H2 & H3);
    try done.
  - by apply repr_loose_upd.
  - subst k1. simpl. apply lookup_insert_eq.
  - by exists k'.
Qed.

Lemma osEE_sn_alloc_run k L a t x :
  repr k L -> free L = (a, t) :: x ->
  exists k', osEE_sn_alloc L_free k = Some (a, k') /\
    repr k' (set_nodes L_free x L) /\ loose (set_nodes L_free x L) a /\
    a <> NULL /\ sn_mem k' !! a = Some (mkSN NULL t) /\ strip k' = strip k.
Proof.
  intros HR Hf. pose proof (repr_chain _ _ HR L_free) as Hc. simpl in Hc.
  rewrite Hf in Hc. apply chain_cons_lookup in Hc as (Hp & Ha0 & r & Hr & _).
  unfold osEE_sn_alloc. erewrite bind_run by done. simpl head_of. rewrite Hp.
  erewrite bind_run by by apply get_sn_run. erewrite bind_run by done.
  erewrite bind_run by by apply upd_sn_run.
  destruct (repr_pop k L L_free a t x r HR Hf Hr) as [HR' Hl].
  eexists. split_and!; [done|by apply repr_loose_upd|done|done| |done].
  simpl. apply lookup_insert_eq.
Qed.

Lemma osEE_sn_release_run k L a n :
  repr k L -> loose L a -> a <> NULL -> sn_mem k !! a = Some n ->
  exists k', osEE_sn_release L_free a k = Some (tt, k') /\
    repr k' (set_nodes L_free ((a, sn_tdb n) :: free L) L) /\ strip k' = strip k.
Proof.
  intros HR Hl Ha0 Hn. unfold osEE_sn_release. erewrite bind_run by done.
  erewrite bind_run by by apply upd_sn_run. eexists. split_and!; [done| |done].
  by apply (repr_push k L L_free a (sn_tdb n) n).
Qed.

(** *** Dispatching *)
Definition set_curr (t : Z) (k : kernel) : kernel :=
  set_ccb (set_p_curr t (ccb k)) k.

(** The priority of a dispatched task is at least its dispatch priority. *)
Definition raise_prio (t : Z) (k : kernel) : kernel :=
  match tdb_mem k !! t with
  | Some d => tcb_upd t (fun c => if decide (current_prio c < dispatch_prio d)
                                  then set_current_prio (dispatch_prio d) c else c) k
  | None => k
  end.

Definition dispatched (t prev : Z) (k : kernel) : kernel :=
  set_curr t (raise_prio t (tcb_upd prev (set_status OSEE_TASK_READY_STACKED) k)).

Lemma strip_set_curr k k' t :
  strip k' = strip k -> strip (set_curr t k') = strip (set_curr t k).
Proof. intros H. exact (f_equal (set_curr t) H). Qed.

Lemma strip_raise_prio k k' t :
  strip k' = strip k -> strip (raise_prio t k') = strip (raise_prio t k).
Proof.
  intros H. unfold raise_prio. rewrite (strip_tdb_mem _ _ H).
  destruct (tdb_mem k !! t); [by apply strip_tcb_upd|done].
Qed.

Lemma strip_dispatched k k' t p :
  strip k' = strip k -> strip (dispatched t p k') = strip (dispatched t p k).
Proof. intros H. by apply strip_set_curr, strip_raise_prio, strip_tcb_upd. Qed.

Lemma tcb_upd_id t f k c : tcb_of k t = Some c -> f c = c -> tcb_upd t f k = k.
Proof.
  unfold tcb_of, tcb_upd. intros H Hf.
  destruct (tdb_mem k !! t) as [d|] eqn:Hd; [|done]. simpl in H.
  replace (alter f (p_tcb d) (tcb_mem k)) with (tcb_mem k); [by destruct k|].
  rewrite <- (insert_as_alter _ _ c f H), Hf. by rewrite insert_id.
Qed.

Lemma tcb_upd_ext t f g k c :
  tcb_of k t = Some c -> f c = g c -> tcb_upd t f k = tcb_upd t g k.
Proof.
  unfold tcb_of, tcb_upd. intros H Hf.
  destruct (tdb_mem k !! t) as [d|] eqn:Hd; [|done]. simpl in H.
  by rewrite <- (insert_as_alter _ _ c f H), <- (insert_as_alter _ _ c g H), Hf.
Qed.

Lemma repr_set_curr t k L : repr k L -> repr (set_curr t k) L.
Proof. apply repr_same; [done|by intros []|done]. Qed.

Lemma osEE_scheduler_stk_next_run k L a r t :
  repr k L -> loose L a -> a <> NULL -> sn_mem k !! a = Some (mkSN r t) -> is_task k t ->
  exists k', osEE_scheduler_stk_next a k = Some (tt, k') /\
    repr k' (set_nodes L_stk ((a, t) :: stk L) L) /\
    strip k' = strip (set_curr t (raise_prio t k)) /\
    (forall b, b <> a -> sn_mem k' !! b = sn_mem k !! b).
Proof.
  intros HR Hl Ha0 Hn Ht. pose proof (is_task_inv _ _ Ht) as (d & c & Hd & Hc).
  assert (tcb_of k t = Some c) as Htc by (unfold tcb_of; by rewrite Hd).
  unfold osEE_scheduler_stk_next.
  erewrite bind_run by by apply get_sn_run. cbn [sn_tdb].
  erewrite bind_run by by apply get_tdb_run. erewrite bind_run by done.
  erewrite bind_run by by apply upd_sn_run. do 2 erewrite bind_run by done.
  erewrite bind_run by by apply get_tcb_run.
  pose proof (repr_push k L L_stk a t _ HR Hl Ha0 Hn (fun _ => Ht)) as HR'.
  apply (repr_set_curr t) in HR'. unfold set_sn_next. cbn [sn_tdb].
  unfold raise_prio. rewrite Hd.
  destruct (decide (current_prio c < dispatch_prio d)) as [Hlt|Hge].
  - match goal with |- context [upd_tcb _ _ ?k1] => set (k2 := k1) in * end.
    rewrite (upd_tcb_run k2 d t) by done. eexists. split_and!; [done| | |].
    + by apply repr_tcb_upd.
    + transitivity (strip (set_curr t (tcb_upd t (set_current_prio (dispatch_prio d)) k))).
      { unfold tcb_upd, k2. simpl. by rewrite Hd. }
      do 2 f_equal. apply (tcb_upd_ext _ _ _ _ c); [done|]. by rewrite decide_True.
    + intros b Hb. rewrite tcb_upd_sn_mem. simpl. by rewrite lookup_insert_ne.
  - eexists. split_and!; [done|done| |].
    + rewrite (tcb_upd_id _ _ _ c); [done|done|]. by rewrite decide_False.
    + intros b Hb. simpl. by rewrite lookup_insert_ne.
Qed.

(** *** Preemption by the ready queue *)

(** The task on top of the stack, the idle task when it is empty. *)
Definition top (k : kernel) (L : lists) : Z :=
  match stk L with (_, u) :: _ => u | [] => p_idle_task k end.

(** The head of the ready queue if it takes over. *)
Definition preempts (k : kernel) (L : lists) : option (Z * Z * list (Z * Z)) :=
  match rdy L with
  | [] => None
  | (a, t) :: x =>
      match stk L with
      | [] => Some (a, t, x)
      | (_, u) :: _ => if decide (cprio k u < cprio k t) then Some (a, t, x) else None
      end
  end.

(** The task table is sound: no descriptor at [NULL], the idle task exists,
    no control block is shared. *)
Record kwf (k : kernel) : Prop := {
  kwf_null : tdb_mem k !! NULL = None;
  kwf_idle : is_task k (p_idle_task k);
  kwf_inj : tcb_inj k
}.

Lemma top_is_task k L : kwf k -> repr k L -> is_task k (top k L).
Proof.
  intros Hk HR. unfold top. pose proof (repr_task _ _ HR L_stk) as H. simpl in H.
  destruct (stk L) as [|[b u] y]; [apply Hk|]. apply H; [done|].
  by apply list_elem_of_here.
Qed.

Lemma is_task_not_null k t : kwf k -> is_task k t -> t <> NULL.
Proof.
  intros [Hn _ _] (d & c & Hd & _)%is_task_inv ->. by rewrite Hn in Hd.
Qed.

Lemma kwf_strip k k' : strip k' = strip k -> kwf k -> kwf k'.
Proof.
  intros Hs [Hn Hi Hj]. pose proof (strip_tdb_mem _ _ Hs) as Ht. split.
  - by rewrite Ht.
  - rewrite (strip_idle _ _ Hs). by apply (strip_is_task _ _ _ Hs).
  - unfold tcb_inj. by rewrite Ht.
Qed.

Lemma kwf_tcb_upd k t f : kwf k -> kwf (tcb_upd t f k).
Proof.
  intros [Hn Hi Hj]. split.
  - by rewrite tcb_upd_tdb_mem.
  - rewrite tcb_upd_idle. by apply tcb_upd_is_task.
  - unfold tcb_inj. by rewrite tcb_upd_tdb_mem.
Qed.

Lemma kwf_set_curr k t : kwf k -> kwf (set_curr t k).
Proof. by intros [? ? ?]; split. Qed.

Lemma kwf_raise_prio k t : kwf k -> kwf (raise_prio t k).
Proof.
  intros H. unfold raise_prio. destruct (tdb_mem k !! t); [by apply kwf_tcb_upd|done].
Qed.

Lemma kwf_dispatched k t prev : kwf k -> kwf (dispatched t prev k).
Proof. intros H. by apply kwf_set_curr, kwf_raise_prio, kwf_tcb_upd. Qed.

#[export] Hint Resolve kwf_tcb_upd kwf_set_curr kwf_raise_prio kwf_dispatched : mcs.

Lemma cprio_run k t d c :
  tdb_mem k !! t = Some d -> tcb_mem k !! p_tcb d = Some c -> cprio k t = current_prio c.
Proof. intros Hd Hc. unfold cprio, tcb_of. rewrite Hd. simpl. by rewrite Hc. Qed.

Lemma get_tdb_tcb_run k t d c :
  tdb_mem k !! t = Some d -> tcb_mem k !! p_tcb d = Some c ->
  get_tdb_tcb t k = Some (c, k).
Proof.
  intros Hd Hc. unfold get_tdb_tcb. erewrite bind_run by by apply get_tdb_run.
  by apply get_tcb_run.
Qed.

(** Moving the head of the ready queue to the stack. *)
Lemma rq_to_stk_run k L a t x r :
  repr k L -> rdy L = (a, t) :: x -> sn_mem k !! a = Some (mkSN r t) ->
  exists k', (_ ← put_head L_rq r; osEE_scheduler_stk_next a) k = Some (tt, k') /\
    repr k' (mkLists x (free L) ((a, t) :: stk L) (sus L)) /\
    strip k' = strip (set_curr t (raise_prio t k)) /\
    (forall b, b <> a -> sn_mem k' !! b = sn_mem k !! b).
Proof.
  intros HR Hx Hr. erewrite bind_run by done.
  destruct (repr_pop k L L_rq a t x r HR Hx Hr) as [HR1 Hl].
  assert (a <> NULL) as Ha0.
  { pose proof (repr_chain _ _ HR L_rq) as Hc. simpl in Hc. rewrite Hx in Hc.
    by apply chain_cons_lookup in Hc as (_ & ? & _). }
  assert (is_task k t) as Ht.
  { apply (repr_task _ _ HR L_rq); [done|]. simpl. rewrite Hx. by apply list_elem_of_here. }
  destruct (osEE_scheduler_stk_next_run _ _ a r t HR1 Hl Ha0 Hr Ht) as (k' & H1 & H2 & H3 & H4).
  exists k'. split_and!; [done|done| |done]. rewrite H3. unfold raise_prio, tcb_upd. simpl.
  by destruct (tdb_mem k !! t).
Qed.

(** The test of the code is [preempts], with the status of the preempted task
    changed. *)
Lemma rq_preemption_check_run k L :
  kwf k -> repr k L ->
  match preempts k L with
  | Some _ => rq_preemption_check (rq (ccb k)) (p_stk_sn (ccb k)) k =
      Some ((true, top k L), tcb_upd (top k L) (set_status OSEE_TASK_READY_STACKED) k)
  | None => exists p, rq_preemption_check (rq (ccb k)) (p_stk_sn (ccb k)) k = Some ((false, p), k)
  end.
Proof.
  intros Hk HR. unfold rq_preemption_check, preempts, top.
  pose proof (repr_chain _ _ HR L_rq) as Hq. pose proof (repr_chain _ _ HR L_stk) as Hs.
  pose proof (repr_Forall_task _ _ L_rq HR ltac:(done)) as Htq.
  pose proof (repr_Forall_task _ _ L_stk HR ltac:(done)) as Hts.
  simpl in Hq, Hs, Htq, Hts.
  destruct (stk L) as [|[b u] y].
  - apply chain_nil_null in Hs as ->. rewrite decide_False by (intros H; by apply H).
    destruct (rdy L) as [|[a t] x].
    + apply chain_nil_null in Hq as ->. rewrite decide_False by (intros H; by apply H).
      by eexists.
    + apply chain_cons_lookup in Hq as (-> & Ha0 & _). rewrite decide_True by done.
      erewrite bind_run by done. by erewrite bind_run by (apply upd_tdb_tcb_run; apply Hk).
  - apply chain_cons_lookup in Hs as (-> & Hb0 & s & Hb & _). rewrite decide_True by done.
    erewrite bind_run by by apply get_sn_run. cbn [sn_tdb].
    destruct (rdy L) as [|[a t] x].
    + apply chain_nil_null in Hq as ->. rewrite decide_False by (intros H; by apply H).
      by eexists.
    + apply chain_cons_lookup in Hq as (-> & Ha0 & r & Hr & _).
      rewrite (decide_True (P := a <> NULL)) by done.
      apply Forall_cons in Htq as [Ht _]. apply Forall_cons in Hts as [Hu _].
      pose proof (is_task_inv _ _ Hu) as (du & cu & Hdu & Hcu).
      pose proof (is_task_inv _ _ Ht) as (dt & ct & Hdt & Hct). cbn [snd] in *.
      rewrite (cprio_run _ _ _ _ Hdu Hcu), (cprio_run _ _ _ _ Hdt Hct).
      erewrite bind_run by by apply get_tdb_run.
      erewrite bind_run by by apply get_tcb_run.
      erewrite bind_run by by apply get_sn_run. cbn [sn_tdb].
      erewrite bind_run by by eapply get_tdb_tcb_run.
      destruct (decide (current_prio cu < current_prio ct)); [|by eexists].
      by erewrite bind_run by by apply upd_tcb_run.
Qed.

Lemma preempts_inv k L a t x : preempts k L = Some (a, t, x) -> rdy L = (a, t) :: x.
Proof.
  unfold preempts. intros H. destruct (rdy L) as [|[a' t'] x']; [done|].
  destruct (stk L) as [|[b u] y]; [by simplify_eq|].
  destruct (decide _); [by simplify_eq|done].
Qed.

Lemma osEE_scheduler_core_rq_preempt_stk_run k L :
  kwf k -> repr k L ->
  match preempts k L with
  | Some (a, t, x) => exists k',
      osEE_scheduler_core_rq_preempt_stk L_rq k = Some (top k L, k') /\
      repr k' (mkLists x (free L) ((a, t) :: stk L) (sus L)) /\
      strip k' = strip (dispatched t (top k L) k) /\
      (forall b, b <> a -> sn_mem k' !! b = sn_mem k !! b)
  | None => osEE_scheduler_core_rq_preempt_stk L_rq k = Some (NULL, k)
  end.
Proof.
  intros Hk HR. pose proof (rq_preemption_check_run k L Hk HR) as Hc.
  unfold osEE_scheduler_core_rq_preempt_stk. do 2 erewrite bind_run by done.
  simpl head_of.
  destruct (preempts k L) as [[[a t] x]|] eqn:Hp.
  - erewrite bind_run by exact Hc. cbn iota beta.
    apply preempts_inv in Hp. set (k1 := tcb_upd (top k L) _ k) in *.
    assert (repr k1 L) as HR1 by by apply repr_tcb_upd.
    pose proof (repr_chain _ _ HR1 L_rq) as Hq. simpl in Hq. rewrite Hp in Hq.
    apply chain_cons_lookup in Hq as (Hq & _ & r & Hr & _).
    unfold k1 in Hq. rewrite tcb_upd_ccb in Hq. rewrite Hq.
    destruct (rq_to_stk_run k1 L a t x r HR1 Hp Hr) as (k' & H1 & H2 & H3 & H4).
    exists k'. split_and!; [|done|done|].
    2: { intros b Hb. rewrite H4 by done. unfold k1. by rewrite tcb_upd_sn_mem. }
    erewrite bind_run by by apply get_sn_run. cbn [sn_next].
    rewrite bind_assoc_run. by erewrite bind_run by exact H1.
  - destruct Hc as [p Hc]. by erewrite bind_run by exact Hc.
Qed.

Lemma resume_stk_run k L :
  repr k L -> resume_stk (p_stk_sn (ccb k)) k = Some (tt, set_curr (top k L) k).
Proof.
  intros HR. pose proof (repr_chain _ _ HR L_stk) as Hst. simpl in Hst.
  unfold resume_stk, top. destruct (stk L) as [|[e v] z].
  - apply chain_nil_null in Hst as ->. rewrite decide_False by (intros H; by apply H). done.
  - apply chain_cons_lookup in Hst as (-> & He0 & s & He & _). rewrite decide_True by done.
    by erewrite bind_run by (erewrite bind_run by (by apply get_sn_run); done).
Qed.

(** Removing the running task: its node is in no list afterwards, and the
    next task is the head of the ready queue if it takes over, else the next
    on the stack. *)
Lemma osEE_scheduler_core_pop_running_run k L b u y :
  kwf k -> repr k L -> stk L = (b, u) :: y ->
  let L1 := set_nodes L_stk y L in
  exists k' L', osEE_scheduler_core_pop_running L_rq k = Some (b, k') /\
    repr k' L' /\ loose L' b /\ b <> NULL /\ (exists r, sn_mem k' !! b = Some (mkSN r u)) /\
    match preempts k L1 with
    | Some (a, t, x) =>
        L' = mkLists x (free L) ((a, t) :: y) (sus L) /\
        strip k' = strip (dispatched t (top k L1) k)
    | None => L' = L1 /\ strip k' = strip (set_curr (top k L1) k)
    end.
Proof.
  intros Hk HR Hs L1. pose proof (repr_chain _ _ HR L_stk) as Hc. simpl in Hc.
  rewrite Hs in Hc. apply chain_cons_lookup in Hc as (Hp & Hb0 & r & Hr & Hy).
  destruct (repr_pop k L L_stk b u y r HR Hs Hr) as [HR1 Hl]. fold L1 in HR1, Hl.
  set (k1 := set_ccb (set_head L_stk r (ccb k)) k) in *.
  assert (kwf k1) as Hk1 by (by apply (kwf_strip k)).
  unfold osEE_scheduler_core_pop_running. erewrite bind_run by done.
  rewrite Hp. erewrite bind_run by by apply get_sn_run. cbn [sn_next].
  rewrite (bind_run _ _ _ tt k1) by done.
  pose proof (osEE_scheduler_core_rq_preempt_stk_run k1 L1 Hk1 HR1) as Hpre.
  change (preempts k1 L1) with (preempts k L1) in Hpre.
  change (top k1 L1) with (top k L1) in Hpre.
  destruct (preempts k L1) as [[[a t] x]|] eqn:Hpr.
  - destruct Hpre as (k' & H1 & H2 & H3 & H4).
    assert (top k L1 <> NULL) as Hnn.
    { apply (is_task_not_null k1); [done|]. by apply (top_is_task k1 L1). }
    apply preempts_inv in Hpr. pose proof (Hl L_rq) as Hlq. simpl in Hlq, Hpr.
    rewrite Hpr in Hlq. apply not_elem_of_cons in Hlq as [Hba Hbx].
    eexists k', _. split_and!; [|exact H2| |done| |done|].
    + erewrite bind_run by exact H1. erewrite bind_run by done.
      rewrite decide_False by done. done.
    + intros l. pose proof (Hl l) as Hll. destruct l; simpl in *; try done.
      by apply not_elem_of_cons.
    + exists r. by rewrite H4.
    + rewrite H3. by apply strip_dispatched.
  - eexists _, L1. split_and!; [|apply (repr_set_curr (top k L1) _ _ HR1)|done|done| |done|done].
    + erewrite bind_run by exact Hpre. erewrite bind_run by done.
      rewrite decide_True by done.
      by erewrite bind_run by exact (resume_stk_run k1 L1 HR1).
    + by exists r.
Qed.
