(* ===== verification/SchedPartitioned.v ===== *)
(** * ERIKA kernel: the partitioned scheduler

    Models ee_oo_sched_partitioned.c, the task operations of ee_oo_kernel.c,
    ee_oo_sched_entry_points.c (task wrapper) and ee_std_change_context.c on
    one core. The assembly of the context switch (ee_aarch64_ctx.S) saves and
    restores registers and then continues in the task wrapper of the target
    task; here it is an event followed by the wrapper.

    The invariant [sched_inv] says that the current task is the top of the
    stack, that the stack and the ready queue are in priority order, and that
    no ready task has a higher priority than the current one. The theorems
    show that activation, termination and the preemption point keep it and
    run the task of highest priority. *)

From Stdlib Require Import ZArith Lia.
From stdpp Require Import base tactics list option gmap sorting.
From S2P Require Import Prelude StateMonad Kernel Scheduler.

(** ** Task wrapper and context switch *)

(** Pre-task hook, context tracking and stack monitoring are not configured. *)
Definition osEE_scheduler_task_wrapper_restore (p_tdb_to : Z) : ST kernel unit :=
  upd_tdb_tcb p_tdb_to (set_status OSEE_TASK_RUNNING).

(** The switch returns in the target task: restored where it was preempted or
    started at its entry. *)
Definition osEE_change_context_from_running (p_from p_to : Z) : ST kernel unit :=
  p_to_tcb ← get_tdb_tcb p_to;
  _ ← (if decide (status p_to_tcb = OSEE_TASK_READY_STACKED)
       then emit (EvChangeContext p_from p_to true)
       else emit (EvChangeContext p_from p_to false));
  osEE_scheduler_task_wrapper_restore p_to.

Definition osEE_change_context_from_task_end (p_from p_to : Z) : ST kernel unit :=
  p_to_tcb ← get_tdb_tcb p_to;
  _ ← (if decide (status p_to_tcb = OSEE_TASK_READY_STACKED)
       then emit (EvEndContext p_to true)
       else emit (EvEndContext p_to false));
  osEE_scheduler_task_wrapper_restore p_to.

Definition osEE_change_context_from_isr2_end (p_from p_to : Z) : ST kernel unit :=
  d ← get_tdb p_from;
  _ ← emit (EvEoi (isr2_src d));
  osEE_change_context_from_task_end p_from p_to.

(** ** Task operations (ee_oo_kernel.c) *)
Definition E_OK : Z := 0.
Definition E_OS_ACCESS : Z := 1.
Definition E_OS_ID : Z := 3.
Definition E_OS_LIMIT : Z := 4.
Definition E_OS_STATE : Z := 7.

Definition osEE_task_activated (p_tdb_act : Z) : ST kernel Z :=
  d ← get_tdb p_tdb_act;
  c ← get_tcb (p_tcb d);
  if decide (current_num_of_act c < max_num_of_act d)
  then _ ← upd_tcb (p_tcb d) (fun c => set_current_num_of_act (u8 (current_num_of_act c + 1)) c);
       mret E_OK
  else mret E_OS_LIMIT.

(** The control block after the end of an activation. *)
Definition task_end_tcb (d : OsEE_TDB) (c : OsEE_TCB) : OsEE_TCB :=
  let n := u8 (current_num_of_act c - 1) in
  set_status (if decide (n = 0) then OSEE_TASK_SUSPENDED else OSEE_TASK_READY)
    (set_current_num_of_act n (set_current_prio (ready_prio d) c)).

Definition osEE_task_end (p_tdb : Z) : ST kernel unit :=
  d ← get_tdb p_tdb;
  upd_tcb (p_tcb d) (task_end_tcb d).

Definition osEE_task_event_reset_mask (p_tcb_ : Z) : ST kernel unit :=
  upd_tcb p_tcb_ (set_event_mask 0).

(** Without extended checks the mask is set whatever the type and status of
    the task. The result is the node to wake up, and the status. *)
Definition osEE_task_event_set_mask (p_tdb_waking_up Mask : Z) : ST kernel (Z * Z) :=
  d ← get_tdb p_tdb_waking_up;
  _ ← upd_tcb (p_tcb d) (fun c => set_event_mask (Z.lor (event_mask c) Mask) c);
  c ← get_tcb (p_tcb d);
  if decide (Z.land (wait_mask c) Mask <> 0) then
    let p_own := p_own_sn c in
    _ ← (if decide (p_own <> NULL)
         then upd_tcb (p_tcb d) (set_p_own_sn NULL) else mret tt);
    mret (p_own, E_OK)
  else mret (NULL, E_OK).

(** ** Scheduler operations (ee_oo_sched_partitioned.c) *)
Definition osEE_scheduler_task_insert_rq (p_tdb_act : Z) : ST kernel bool :=
  d ← get_tdb p_tdb_act;
  c ← get_tcb (p_tcb d);
  _ ← (if decide (status c = OSEE_TASK_SUSPENDED)
       then _ ← upd_tcb (p_tcb d) (set_status OSEE_TASK_READY);
            osEE_task_event_reset_mask (p_tcb d)
       else mret tt);
  sn ← osEE_sn_alloc L_free;
  osEE_scheduler_rq_insert L_rq sn p_tdb_act.

(** "Set the activated TASK as current" *)
Definition set_activated_current (p_new_stk p_tdb_act : Z) : ST kernel unit :=
  _ ← upd_sn p_new_stk (set_sn_tdb p_tdb_act);
  c ← get_ccb;
  _ ← upd_sn p_new_stk (set_sn_next (p_stk_sn c));
  _ ← upd_ccb (set_p_stk_sn p_new_stk);
  upd_ccb (set_p_curr p_tdb_act).

Definition osEE_scheduler_task_activated (p_tdb_act : Z) : ST kernel bool :=
  d_act ← get_tdb p_tdb_act;
  c ← get_ccb;
  let p_curr_ := p_curr c in
  d_curr ← get_tdb p_curr_;
  curr_tcb ← get_tcb (p_tcb d_curr);
  act_tcb ← get_tcb (p_tcb d_act);
  if decide (current_prio curr_tcb < current_prio act_tcb) then
    p_new_stk ← osEE_sn_alloc L_free;
    _ ← upd_tcb (p_tcb d_curr) (set_status OSEE_TASK_READY_STACKED);
    _ ← set_activated_current p_new_stk p_tdb_act;
    _ ← osEE_task_event_reset_mask (p_tcb d_act);
    _ ← osEE_change_context_from_running p_curr_ p_tdb_act;
    mret true
  else
    _ ← osEE_scheduler_task_insert_rq p_tdb_act;
    mret false.

Definition osEE_scheduler_task_insert (p_tdb_act : Z) : ST kernel bool :=
  osEE_scheduler_task_insert_rq p_tdb_act.

(** The result is the next task and the blocked node. *)
Definition osEE_scheduler_task_block_current : ST kernel (Z * Z) :=
  c ← get_ccb;
  let p_tdb_blocked := p_curr c in
  p_sn_blocked ← osEE_scheduler_core_pop_running L_rq;
  _ ← upd_tdb_tcb p_tdb_blocked (set_status OSEE_TASK_WAITING);
  c' ← get_ccb;
  mret (p_curr c', p_sn_blocked).

Definition osEE_scheduler_task_unblocked (p_sn_released : Z) : ST kernel bool :=
  n ← get_sn p_sn_released;
  let p_tdb_released := sn_tdb n in
  d ← get_tdb p_tdb_released;
  _ ← upd_tcb (p_tcb d) (set_status OSEE_TASK_READY_STACKED);
  _ ← upd_tcb (p_tcb d) (set_current_prio (ready_prio d));
  rq_head_changed ← osEE_scheduler_rq_insert L_rq p_sn_released p_tdb_released;
  if (rq_head_changed : bool) then
    c ← get_ccb;
    rel_tcb ← get_tcb (p_tcb d);
    curr_tcb ← get_tdb_tcb (p_curr c);
    mret (bool_decide (current_prio curr_tcb < current_prio rel_tcb))
  else mret false.

(** Normal termination: the node of the task is released. *)
Definition task_terminated_normal (p_tdb_term : Z) : ST kernel Z :=
  p_sn_term ← osEE_scheduler_core_pop_running L_rq;
  c ← get_ccb;
  let p_tdb_to := p_curr c in
  _ ← (if decide (p_tdb_term <> p_tdb_to)
       then osEE_task_end p_tdb_term
       else upd_tdb_tcb p_tdb_term
              (fun c => set_current_num_of_act (u8 (current_num_of_act c - 1)) c));
  _ ← osEE_sn_release L_free p_sn_term;
  mret p_tdb_to.

(** Chained termination: the node goes back to the ready queue. *)
Definition task_terminated_chained (p_tdb_term : Z) : ST kernel Z :=
  c ← get_ccb;
  let p_sn_term := p_stk_sn c in
  n ← get_sn p_sn_term;
  _ ← upd_ccb (set_p_stk_sn (sn_next n));
  d ← get_tdb p_tdb_term;
  _ ← upd_tcb (p_tcb d) (set_current_prio (ready_prio d));
  _ ← upd_tcb (p_tcb d) (set_status OSEE_TASK_READY);
  term_tcb ← get_tcb (p_tcb d);
  _ ← (if decide (current_num_of_act term_tcb = 1)
       then osEE_task_event_reset_mask (p_tcb d) else mret tt);
  _ ← osEE_scheduler_rq_insert L_rq p_sn_term p_tdb_term;
  p_prev ← osEE_scheduler_core_rq_preempt_stk L_rq;
  c' ← get_ccb;
  if decide (p_prev = NULL) then
    stk_sn ← get_sn (p_stk_sn c');
    _ ← upd_ccb (set_p_curr (sn_tdb stk_sn));
    mret (sn_tdb stk_sn)
  else mret (p_curr c').

(** The result is the task to run and the task that terminated. *)
Definition osEE_scheduler_task_terminated : ST kernel (Z * Z) :=
  c ← get_ccb;
  let p_tdb_term := p_curr c in
  term_tcb ← get_tdb_tcb p_tdb_term;
  p_tdb_to ←
    (if decide (status term_tcb = OSEE_TASK_RUNNING)
     then task_terminated_normal p_tdb_term
     else task_terminated_chained p_tdb_term);
  mret (p_tdb_to, p_tdb_term).

Definition osEE_scheduler_task_preemption_point : ST kernel bool :=
  p_prev ← osEE_scheduler_core_rq_preempt_stk L_rq;
  if decide (p_prev <> NULL) then
    c ← get_ccb;
    _ ← osEE_change_context_from_running p_prev (p_curr c);
    mret true
  else mret false.

Definition osEE_scheduler_task_set_running (p_tdb p_sn : Z) : ST kernel unit :=
  c ← get_ccb;
  let p_preempted := p_curr c in
  let p_preempted_sn := p_stk_sn c in
  d ← get_tdb p_preempted;
  tcb ← get_tcb (p_tcb d);
  _ ← (if decide (status tcb = OSEE_TASK_RUNNING)
       then upd_tcb (p_tcb d) (set_status OSEE_TASK_READY_STACKED) else mret tt);
  _ ← upd_ccb (set_p_curr p_tdb);
  new ← (if decide (p_sn = NULL) then osEE_sn_alloc L_free else mret p_sn);
  _ ← upd_ccb (set_p_stk_sn new);
  _ ← upd_sn new (set_sn_tdb p_tdb);
  _ ← upd_sn new (set_sn_next p_preempted_sn);
  osEE_change_context_from_running p_preempted p_tdb.

Definition osEE_scheduler_task_reserve_activations (activations : Z) : ST kernel bool :=
  c ← get_ccb;
  if decide (activations <= free_sn_counter c) then
    _ ← upd_ccb (set_free_sn_counter (u64 (free_sn_counter c - activations)));
    mret true
  else mret false.

(** ** Interrupt service routines *)
Definition osEE_activate_isr2 (isr2_id irqn : Z) : ST kernel unit :=
  p_act_tdb ← from_option (fun k => aget (tdb_ptr_array k) isr2_id);
  _ ← upd_tdb p_act_tdb (set_isr2_src (u16 irqn));
  _ ← upd_tdb_tcb p_act_tdb
        (fun c => set_current_num_of_act (u8 (current_num_of_act c + 1)) c);
  osEE_scheduler_task_set_running p_act_tdb NULL.

(** End of a task or ISR2: the callback of [osEE_hal_terminate_activation]. *)
Definition osEE_scheduler_task_end : ST kernel unit :=
  '(p_to, p_from) ← osEE_scheduler_task_terminated;
  d ← get_tdb p_from;
  if decide (task_type d <> OSEE_TASK_TYPE_ISR2)
  then osEE_change_context_from_task_end p_from p_to
  else osEE_change_context_from_isr2_end p_from p_to.

(** ** The scheduling invariant *)

(** Priority order of both queues; every task has one activation in them. *)
Record sched_wf (k : kernel) (L : lists) : Prop := {
  sw_kwf : kwf k;
  sw_repr : repr k L;
  sw_stk : StronglySorted (by_prio (cprio k)) (stk L);
  sw_rdy : StronglySorted (by_prio (rprio k)) (rdy L);
  sw_ready t : t ∈ tasks (rdy L) -> cprio k t = rprio k t /\ 0 < rprio k t;
  sw_nodup : NoDup (p_idle_task k :: tasks (stk L ++ rdy L ++ sus L));
  sw_idle : cprio k (p_idle_task k) = 0
}.

(** The current task is on top and no ready task has a higher priority. *)
Record sched_inv (k : kernel) (L : lists) : Prop := {
  si_wf : sched_wf k L;
  si_curr : p_curr (ccb k) = top k L;
  si_high t : t ∈ tasks (rdy L) -> cprio k t <= cprio k (top k L)
}.

(** *** Priorities after a dispatch *)
Definition dprio (k : kernel) (t : Z) : Z :=
  match tdb_mem k !! t with Some d => dispatch_prio d | None => 0 end.

Lemma cprio_raise k t v :
  kwf k -> is_task k t ->
  cprio (raise_prio t k) v =
  if decide (v = t) then Z.max (cprio k t) (dprio k t) else cprio k v.
Proof.
  intros Hk Ht. pose proof (is_task_inv _ _ Ht) as (d & c & Hd & Hc).
  assert (tcb_of k t = Some c) as Htc by (unfold tcb_of; by rewrite Hd).
  unfold raise_prio, dprio. rewrite Hd.
  destruct (decide (v = t)) as [->|Hne]; unfold cprio.
  - erewrite tcb_upd_same by done. rewrite Htc.
    destruct (decide (current_prio c < dispatch_prio d)); simpl; lia.
  - rewrite tcb_upd_other; [done|apply Hk|done].
Qed.

Lemma cprio_dispatched k t p v :
  kwf k -> is_task k t ->
  cprio (dispatched t p k) v =
  if decide (v = t) then Z.max (cprio k t) (dprio k t) else cprio k v.
Proof.
  intros Hk Ht. unfold dispatched.
  change (cprio (set_curr t ?k1) v) with (cprio k1 v).
  rewrite cprio_raise; [|by apply kwf_tcb_upd|by apply tcb_upd_is_task].
  rewrite !tcb_upd_cprio by done. unfold dprio. by rewrite tcb_upd_tdb_mem.
Qed.

Lemma rprio_dispatched k t p v : rprio (dispatched t p k) v = rprio k v.
Proof.
  unfold dispatched, rprio. simpl. unfold raise_prio.
  destruct (tdb_mem (tcb_upd p _ k) !! t); by rewrite ?tcb_upd_tdb_mem.
Qed.

Lemma idle_dispatched k t p : p_idle_task (dispatched t p k) = p_idle_task k.
Proof.
  unfold dispatched. simpl. unfold raise_prio.
  destruct (tdb_mem (tcb_upd p _ k) !! t); by rewrite ?tcb_upd_idle.
Qed.

Lemma curr_dispatched k t p : p_curr (ccb (dispatched t p k)) = t.
Proof. done. Qed.

(** Sorting under another priority that agrees on the list. *)
Lemma sorted_agree f g (x : list (Z * Z)) :
  (forall t, t ∈ tasks x -> f t = g t) ->
  StronglySorted (by_prio f) x -> StronglySorted (by_prio g) x.
Proof.
  intros Hfg. induction 1 as [|y x Hs IH Hy]; [constructor|].
  assert (forall t, t ∈ tasks x -> f t = g t) as Hx.
  { intros t Ht. apply Hfg. apply elem_of_cons. by right. }
  constructor; [by apply IH|]. apply Forall_forall. intros z Hz.
  rewrite Forall_forall in Hy. unfold by_prio in *.
  rewrite <- (Hx z.2) by (by apply list_elem_of_fmap_2).
  rewrite <- (Hfg y.2) by (apply elem_of_cons; by left). by apply Hy.
Qed.

Lemma sorted_head_max f a t x u :
  StronglySorted (by_prio f) ((a, t) :: x) -> u ∈ tasks x -> f u <= f t.
Proof.
  intros Hs (z & -> & Hz)%list_elem_of_fmap. apply StronglySorted_inv in Hs as [_ Hs].
  rewrite Forall_forall in Hs. by apply (Hs z).
Qed.

(** On a well-formed state only the test of the code decides. *)
Lemma sched_wf_strip k k' L :
  sched_wf k L -> repr k' L -> strip k' = strip k -> sched_wf k' L.
Proof.
  intros [Hk HR Hs Hr Hrd Hn Hi] HR' He. split.
  - by apply (kwf_strip k).
  - done.
  - eapply sorted_agree; [|done]. intros. symmetry. by apply strip_cprio.
  - eapply sorted_agree; [|done]. intros. symmetry. by apply strip_rprio.
  - intros t Ht. rewrite (strip_cprio _ _ _ He), (strip_rprio _ _ _ He). by apply Hrd.
  - by rewrite (strip_idle _ _ He).
  - by rewrite (strip_idle _ _ He), (strip_cprio _ _ _ He).
Qed.

Lemma top_strip k k' L : strip k' = strip k -> top k' L = top k L.
Proof. intros H. unfold top. by rewrite (strip_idle _ _ H). Qed.

Lemma sched_inv_strip k k' L :
  sched_inv k L -> repr k' L -> strip k' = strip k -> sched_inv k' L.
Proof.
  intros [Hw Hc Hh] HR He. split.
  - by apply (sched_wf_strip k).
  - by rewrite (strip_curr _ _ He), (top_strip _ _ _ He).
  - intros t Ht. rewrite (top_strip _ _ _ He), !(strip_cprio _ _ _ He). by apply Hh.
Qed.

Lemma tasks_cons a t x : tasks ((a, t) :: x) = t :: tasks x.
Proof. done. Qed.

(** Every task of the stack is below the head of the ready queue when the
    latter takes over. *)
Lemma preempts_above k L a t x u :
  sched_wf k L -> preempts k L = Some (a, t, x) -> u ∈ tasks (stk L) ->
  cprio k u < cprio k t.
Proof.
  intros HW Hp Hu. unfold preempts in Hp. pose proof (sw_stk _ _ HW) as Hs.
  destruct (rdy L) as [|[a' t'] x']; [done|].
  destruct (stk L) as [|[b v] y]; [by apply elem_of_nil in Hu|].
  destruct (decide (cprio k v < cprio k t')); simplify_eq.
  rewrite tasks_cons, elem_of_cons in Hu. destruct Hu as [->|Hu]; [done|].
  pose proof (sorted_head_max _ _ _ _ _ Hs Hu). lia.
Qed.

(** Dispatching the head of the ready queue restores the invariant. *)
Lemma sched_inv_dispatched k k' L a t x :
  sched_wf k L -> preempts k L = Some (a, t, x) ->
  repr k' (mkLists x (free L) ((a, t) :: stk L) (sus L)) ->
  strip k' = strip (dispatched t (top k L) k) ->
  sched_inv k' (mkLists x (free L) ((a, t) :: stk L) (sus L)).
Proof.
  intros HW Hp HR' He. pose proof (preempts_above k L a t x) as Habove.
  pose proof (preempts_inv _ _ _ _ _ Hp) as Hx. pose proof HW as [Hk HR Hs Hr Hrd Hn Hi].
  assert (is_task k t) as Ht.
  { apply (repr_task _ _ HR L_rq); [done|]. simpl. rewrite Hx. by apply list_elem_of_here. }
  assert (Hcp : forall v, cprio k' v =
    if decide (v = t) then Z.max (cprio k t) (dprio k t) else cprio k v).
  { intros v. rewrite (strip_cprio _ _ _ He). by apply cprio_dispatched. }
  assert (Hrp : forall v, rprio k' v = rprio k v).
  { intros v. rewrite (strip_rprio _ _ _ He). apply rprio_dispatched. }
  assert (Hid : p_idle_task k' = p_idle_task k).
  { rewrite (strip_idle _ _ He). apply idle_dispatched. }
  rewrite Hx in Hn, Hr, Hrd.
  assert (p_idle_task k :: tasks (((a, t) :: stk L) ++ x ++ sus L) ≡ₚ
          p_idle_task k :: tasks (stk L ++ ((a, t) :: x) ++ sus L)) as Hperm.
  { rewrite !tasks_app, !tasks_cons. constructor. simpl.
    by rewrite Permutation_middle. }
  assert (Hne : forall v, v ∈ tasks (stk L ++ x ++ sus L) -> v <> t).
  { rewrite <- Hperm in Hn. apply NoDup_cons in Hn as [_ Hn].
    change (NoDup (t :: tasks (stk L ++ x ++ sus L))) in Hn.
    apply NoDup_cons in Hn as [Hn _]. by intros v Hv ->. }
  rewrite tasks_app in Hne. setoid_rewrite elem_of_app in Hne.
  split; [split|..]; simpl.
  - apply (kwf_strip _ _ He). by apply kwf_dispatched.
  - done.
  - constructor.
    + eapply sorted_agree; [|exact Hs]. intros v Hv. rewrite Hcp, decide_False; auto.
    + apply Forall_forall. intros [b v] Hv. unfold by_prio. simpl.
      assert (v ∈ tasks (stk L)) as Hv' by (by apply (list_elem_of_fmap_2 snd) in Hv).
      rewrite !Hcp, decide_False, decide_True by auto.
      specialize (Habove v ltac:(done) Hp Hv'). lia.
  - apply StronglySorted_inv in Hr as [Hr _].
    eapply sorted_agree; [|exact Hr]. intros v _. by rewrite Hrp.
  - intros v Hv. rewrite Hrp, Hcp, decide_False.
    + apply Hrd. rewrite tasks_cons. apply elem_of_cons. by right.
    + apply Hne. right. rewrite tasks_app. apply elem_of_app. by left.
  - rewrite Hid, Hperm. done.
  - rewrite Hid, Hcp, decide_False; [done|]. intros Heq.
    apply NoDup_cons in Hn as [Hn _]. apply Hn. rewrite !tasks_app, tasks_cons, Heq.
    apply elem_of_app. right. by apply list_elem_of_here.
  - rewrite (strip_curr _ _ He). done.
  - intros v Hv. unfold top. simpl.
    rewrite !Hcp, decide_False, decide_True by (try done; apply Hne; right;
      rewrite tasks_app; apply elem_of_app; by left).
    destruct (Hrd v) as [-> _]; [rewrite tasks_cons; apply elem_of_cons; by right|].
    destruct (Hrd t) as [-> _]; [rewrite tasks_cons; apply elem_of_cons; by left|].
    pose proof (sorted_head_max _ _ _ _ _ Hr Hv). lia.
Qed.

(** Without a takeover the top of the stack is already the right task. *)
Lemma sched_inv_resumed k k' L :
  sched_wf k L -> preempts k L = None -> repr k' L ->
  strip k' = strip (set_curr (top k L) k) -> sched_inv k' L.
Proof.
  intros HW Hp HR' He.
  assert (sched_wf k' L) as HW'.
  { apply (sched_wf_strip (set_curr (top k L) k)); try done.
    destruct HW. split; try done; [by apply kwf_set_curr | by apply repr_set_curr]. }
  split; [done|..].
  - rewrite (strip_curr _ _ He), (top_strip _ _ _ He). done.
  - intros v Hv. rewrite (top_strip _ _ _ He), !(strip_cprio _ _ _ He).
    change (top (set_curr _ k) L) with (top k L). change (cprio (set_curr _ k)) with (cprio k).
    unfold preempts in Hp. unfold top in *. destruct HW as [Hk HR Hs Hr Hrd Hn Hi].
    destruct (rdy L) as [|[a t] x]; [by apply elem_of_nil in Hv|].
    destruct (stk L) as [|[b u] y]; [done|].
    destruct (decide (cprio k u < cprio k t)); [done|].
    rewrite tasks_cons in Hv. apply elem_of_cons in Hv as [->|Hv]; [lia|].
    destruct (Hrd v) as [-> _]; [rewrite tasks_cons; apply elem_of_cons; by right|].
    destruct (Hrd t) as [Ht _]; [rewrite tasks_cons; apply elem_of_cons; by left|].
    pose proof (sorted_head_max _ _ _ _ _ Hr Hv). lia.
Qed.

(** ** Steps the invariant does not see *)

(** Same lists, priorities and current task. *)
Record sched_eq (k k' : kernel) : Prop := {
  se_sn : sn_mem k' = sn_mem k;
  se_head l : head_of l (ccb k') = head_of l (ccb k);
  se_tdb : tdb_mem k' = tdb_mem k;
  se_task t : is_task k' t <-> is_task k t;
  se_cprio t : cprio k' t = cprio k t;
  se_idle : p_idle_task k' = p_idle_task k;
  se_curr : p_curr (ccb k') = p_curr (ccb k)
}.

#[global] Instance sched_eq_refl : Reflexive sched_eq.
Proof. by intros k. Qed.
#[global] Instance sched_eq_trans : Transitive sched_eq.
Proof.
  intros k1 k2 k3 [S1 H1 T1 I1 C1 D1 R1] [S2 H2 T2 I2 C2 D2 R2].
  split; intros; congruence || (etransitivity; eauto).
Qed.

Lemma sched_eq_tcb_upd t f k :
  (forall c, current_prio (f c) = current_prio c) -> sched_eq k (tcb_upd t f k).
Proof.
  intros Hf. split; intros.
  - apply tcb_upd_sn_mem.
  - by rewrite tcb_upd_ccb.
  - apply tcb_upd_tdb_mem.
  - symmetry. apply tcb_upd_is_task.
  - by apply tcb_upd_cprio.
  - apply tcb_upd_idle.
  - by rewrite tcb_upd_ccb.
Qed.

Lemma sched_eq_trace e k : sched_eq k (set_trace (trace k ++ [e]) k).
Proof. by split. Qed.

#[export] Hint Resolve sched_eq_refl sched_eq_tcb_upd sched_eq_trace : mcs.

Lemma sched_eq_repr k k' L : sched_eq k k' -> repr k L -> repr k' L.
Proof.
  intros [Hs Hh _ Ht _ _ _]. apply repr_same; [done|done|]. intros t. by apply Ht.
Qed.

Lemma sched_eq_wf k k' L : sched_eq k k' -> sched_wf k L -> sched_wf k' L.
Proof.
  intros He [Hk HR Hs Hr Hrd Hn Hi]. pose proof (sched_eq_repr _ _ _ He HR) as HR'.
  destruct He as [_ _ Htdb Ht Hc Hid _].
  assert (forall t, rprio k' t = rprio k t) as Hrp by (intros; unfold rprio; by rewrite Htdb).
  split; [|done|..].
  - destruct Hk as [H1 H2 H3]. split.
    + by rewrite Htdb.
    + rewrite Hid. by apply Ht.
    + unfold tcb_inj. by rewrite Htdb.
  - by eapply sorted_agree; [|exact Hs].
  - by eapply sorted_agree; [|exact Hr].
  - intros t Hin. rewrite Hc, Hrp. by apply Hrd.
  - by rewrite Hid.
  - by rewrite Hid, Hc.
Qed.

Lemma sched_eq_inv k k' L : sched_eq k k' -> sched_inv k L -> sched_inv k' L.
Proof.
  intros He [Hw Hc Hh]. split; [by apply (sched_eq_wf k)|..].
  - rewrite (se_curr _ _ He), Hc. unfold top. by rewrite (se_idle _ _ He).
  - intros t Ht. unfold top. rewrite (se_idle _ _ He), !(se_cprio _ _ He). by apply Hh.
Qed.

Lemma change_context_run k p_from p_to :
  is_task k p_to -> exists e,
  osEE_change_context_from_running p_from p_to k =
    Some (tt, tcb_upd p_to (set_status OSEE_TASK_RUNNING) (set_trace (trace k ++ [e]) k)).
Proof.
  intros Ht. pose proof (is_task_inv _ _ Ht) as (d & c & Hd & Hc).
  unfold osEE_change_context_from_running, osEE_scheduler_task_wrapper_restore.
  erewrite bind_run by by eapply get_tdb_tcb_run.
  destruct (decide (status c = OSEE_TASK_READY_STACKED)); eexists;
    by erewrite bind_run by done; rewrite upd_tdb_tcb_run.
Qed.

Lemma change_context_eq k p_from p_to :
  is_task k p_to -> exists k',
  osEE_change_context_from_running p_from p_to k = Some (tt, k') /\ sched_eq k k' /\
  (exists c, tcb_of k' p_to = Some c /\ status c = OSEE_TASK_RUNNING) /\
  tcb_of k' p_to = set_status OSEE_TASK_RUNNING <$> tcb_of k p_to.
Proof.
  intros Ht. destruct (change_context_run k p_from p_to Ht) as [e He].
  eexists. split_and!; [done| | |].
  - etransitivity; [apply (sched_eq_trace e)|]. by apply sched_eq_tcb_upd.
  - destruct Ht as [c Hc]. eexists. split; [by apply tcb_upd_same|done].
  - destruct Ht as [c Hc]. rewrite Hc. by apply tcb_upd_same.
Qed.

(** *** Preemption point *)
Lemma preemption_point_run k L :
  sched_wf k L -> p_curr (ccb k) = top k L ->
  exists k' L' b, osEE_scheduler_task_preemption_point k = Some (b, k') /\
    sched_inv k' L' /\
    match preempts k L with
    | Some (a, t, x) => b = true /\ L' = mkLists x (free L) ((a, t) :: stk L) (sus L) /\
        p_curr (ccb k') = t /\ exists c, tcb_of k' t = Some c /\ status c = OSEE_TASK_RUNNING
    | None => b = false /\ L' = L /\ k' = k
    end.
Proof.
  intros HW Hc. pose proof (osEE_scheduler_core_rq_preempt_stk_run k L (sw_kwf _ _ HW) (sw_repr _ _ HW)) as Hp.
  unfold osEE_scheduler_task_preemption_point.
  destruct (preempts k L) as [[[a t] x]|] eqn:Hpre.
  - destruct Hp as (k1 & H1 & H2 & H3 & _).
    pose proof (sched_inv_dispatched _ _ _ _ _ _ HW Hpre H2 H3) as HI.
    assert (p_curr (ccb k1) = t) as Hcur by (rewrite (strip_curr _ _ H3); done).
    assert (is_task k1 t) as Ht.
    { apply (repr_task _ _ H2 L_stk); [done|]. by apply list_elem_of_here. }
    destruct (change_context_eq k1 (top k L) t Ht) as (k2 & H4 & H5 & H6 & _).
    erewrite bind_run by exact H1. rewrite decide_True.
    2: { apply (is_task_not_null k); [apply HW|]. apply top_is_task; apply HW. }
    erewrite bind_run by done. rewrite Hcur. erewrite bind_run by exact H4.
    eexists k2, _, true. split_and!; [done|by apply (sched_eq_inv k1)|done..| |done].
    by rewrite (se_curr _ _ H5).
  - erewrite bind_run by exact Hp. rewrite decide_False by (intros H; by apply H).
    eexists k, L, false. split_and!; [done| |done..].
    apply (sched_inv_resumed k); try done; [apply HW|].
    rewrite <- Hc. unfold set_curr. by destruct k as [? ? ? []].
Qed.

(** *** Activation *)

(** A task that can be activated: known, in no list, at its ready priority. *)
Record activatable (k : kernel) (L : lists) (t : Z) : Prop := {
  act_task : is_task k t;
  act_new : t ∉ p_idle_task k :: tasks (stk L ++ rdy L ++ sus L);
  act_prio : cprio k t = rprio k t;
  act_pos : 0 < rprio k t
}.

Lemma set_activated_current_run k L a n t :
  repr k L -> loose L a -> a <> NULL -> sn_mem k !! a = Some n -> is_task k t ->
  exists k', set_activated_current a t k = Some (tt, k') /\
    repr k' (set_nodes L_stk ((a, t) :: stk L) L) /\ strip k' = strip (set_curr t k).
Proof.
  intros HR Hl Ha0 Hn Ht. unfold set_activated_current.
  erewrite bind_run by by apply upd_sn_run. erewrite bind_run by done.
  erewrite bind_run by (apply upd_sn_run; simpl; apply lookup_insert_eq).
  erewrite bind_run by done. eexists. split_and!; [done| |done].
  apply (repr_same (set_ccb (set_head L_stk a (ccb k))
    (set_sn_mem (<[a := mkSN (head_of L_stk (ccb k)) t]> (sn_mem k)) k))); [|by intros []|done|].
  - simpl. apply insert_insert_eq.
  - by apply (repr_push k L L_stk a t n).
Qed.

(** Adding a task to the front of the stack above everything else. *)
Lemma sched_inv_pushed k k' L a t x :
  sched_inv k L -> is_task k t -> t ∉ p_idle_task k :: tasks (stk L ++ rdy L ++ sus L) ->
  cprio k (top k L) <= cprio k t ->
  let L' := mkLists (rdy L) x ((a, t) :: stk L) (sus L) in
  repr k' L' -> p_curr (ccb k') = t ->
  tdb_mem k' = tdb_mem k -> (forall u, is_task k u -> is_task k' u) ->
  (forall u, cprio k' u = cprio k u) -> p_idle_task k' = p_idle_task k ->
  sched_inv k' L'.
Proof.
  intros [HW Hc Hh] Ht Hnew Hle L' HR' Hcur Htdb Htask Hcp Hid.
  pose proof HW as [Hk HR Hs Hr Hrd Hn Hi].
  assert (forall u, rprio k' u = rprio k u) as Hrp by (intros; unfold rprio; by rewrite Htdb).
  split; [split|..]; simpl.
  - destruct Hk as [H1 H2 H3]. split.
    + by rewrite Htdb.
    + rewrite Hid. by apply Htask.
    + unfold tcb_inj. by rewrite Htdb.
  - done.
  - constructor; [by eapply sorted_agree; [|exact Hs]|].
    apply Forall_forall. intros [b v] Hv%(list_elem_of_fmap_2 snd).
    unfold by_prio. simpl in *. rewrite !Hcp. unfold top in Hle.
    destruct (stk L) as [|[b' v'] y]; [by apply elem_of_nil in Hv|].
    simpl in Hv. apply elem_of_cons in Hv as [->|Hv]; [done|].
    pose proof (sorted_head_max _ _ _ _ _ Hs Hv). lia.
  - by eapply sorted_agree; [|exact Hr].
  - intros u Hu. rewrite Hcp, Hrp. by apply Hrd.
  - rewrite Hid. change (NoDup (p_idle_task k :: t :: tasks (stk L ++ rdy L ++ sus L))).
    apply not_elem_of_cons in Hnew as [Hne Hnew].
    apply NoDup_cons in Hn as [Hin Hn]. apply NoDup_cons. split.
    + apply not_elem_of_cons. by split; [intros ?; apply Hne|].
    + by apply NoDup_cons.
  - by rewrite Hid, Hcp.
  - done.
  - intros u Hu. unfold top. simpl. rewrite !Hcp. specialize (Hh u Hu). lia.
Qed.

Lemma sched_inv_free k k' L x :
  sched_inv k L -> repr k' (set_nodes L_free x L) -> strip k' = strip k ->
  sched_inv k' (set_nodes L_free x L).
Proof.
  intros [HW Hc Hh] HR He.
  assert (sched_wf k' (set_nodes L_free x L)) as HW'.
  { destruct HW as [Hk _ Hs Hr Hrd Hn Hi]. split; try done.
    - by apply (kwf_strip k).
    - eapply sorted_agree; [|exact Hs]. intros. symmetry. by apply strip_cprio.
    - eapply sorted_agree; [|exact Hr]. intros. symmetry. by apply strip_rprio.
    - intros t Ht. rewrite (strip_cprio _ _ _ He), (strip_rprio _ _ _ He). by apply Hrd.
    - by rewrite (strip_idle _ _ He).
    - by rewrite (strip_idle _ _ He), (strip_cprio _ _ _ He). }
  split; [done|..].
  - by rewrite (strip_curr _ _ He), (top_strip _ _ _ He).
  - intros t Ht. rewrite (top_strip _ _ _ He), !(strip_cprio _ _ _ He). by apply Hh.
Qed.

(** The tasks a state schedules. *)
Definition sched_tasks (k : kernel) (L : lists) : list Z :=
  p_idle_task k :: tasks (stk L ++ rdy L ++ sus L).

Lemma top_sched_task k L : top k L ∈ sched_tasks k L.
Proof.
  unfold top, sched_tasks. destruct (stk L) as [|[b u] y].
  - by apply list_elem_of_here.
  - apply elem_of_cons. right. by apply list_elem_of_here.
Qed.

Lemma activated_preempt_run k L a u x t :
  sched_inv k L -> activatable k L t -> free L = (a, u) :: x ->
  cprio k (top k L) < cprio k t ->
  let L' := mkLists (rdy L) x ((a, t) :: stk L) (sus L) in
  exists k', osEE_scheduler_task_activated t k = Some (true, k') /\ sched_inv k' L' /\
    p_curr (ccb k') = t /\
    tcb_of k' t = set_status OSEE_TASK_RUNNING ∘ set_event_mask 0 <$> tcb_of k t.
Proof.
  intros HI [Hta Hnew Hcr Hpos] Hf Hlt L'. pose proof (si_wf _ _ HI) as HW.
  pose proof HW as [Hk HR _ _ _ _ _].
  assert (is_task k (p_curr (ccb k))) as Htc by (rewrite (si_curr _ _ HI); by apply top_is_task).
  pose proof (is_task_inv _ _ Hta) as (da & ca & Hda & Hca).
  pose proof (is_task_inv _ _ Htc) as (dc & cc & Hdc & Hcc).
  unfold osEE_scheduler_task_activated.
  erewrite bind_run by by apply get_tdb_run. erewrite bind_run by done.
  erewrite bind_run by by apply get_tdb_run. do 2 erewrite bind_run by by apply get_tcb_run.
  rewrite <- (cprio_run _ _ _ _ Hda Hca), <- (cprio_run _ _ _ _ Hdc Hcc), (si_curr _ _ HI).
  rewrite decide_True by done. rewrite <- (si_curr _ _ HI).
  destruct (osEE_sn_alloc_run k L a u x HR Hf) as (k1 & H1 & HR1 & Hl & Ha0 & Hm & Hs).
  erewrite bind_run by exact H1.
  assert (tdb_mem k1 = tdb_mem k) as Htdb by by apply strip_tdb_mem.
  erewrite bind_run by (apply (upd_tcb_run k1 dc (p_curr (ccb k)));
    [by rewrite Htdb | by apply (strip_is_task _ _ _ Hs)]).
  set (k2 := tcb_upd _ _ k1).
  assert (sched_eq k1 k2) as He2 by by apply sched_eq_tcb_upd.
  destruct (set_activated_current_run k2 (set_nodes L_free x L) a (mkSN NULL u) t)
    as (k3 & H3 & HR3 & Hs3); [by apply (sched_eq_repr k1)|done|done| | |].
  { by rewrite (se_sn _ _ He2). }
  { apply (se_task _ _ He2). by apply (strip_is_task _ _ _ Hs). }
  erewrite bind_run by exact H3.
  assert (sched_inv k2 (set_nodes L_free x L)) as HI2.
  { apply (sched_eq_inv k1); [done|]. by apply (sched_inv_free k). }
  assert (forall v, cprio k2 v = cprio k v) as Hcp.
  { intros v. by rewrite (se_cprio _ _ He2), (strip_cprio _ _ _ Hs). }
  assert (p_idle_task k2 = p_idle_task k) as Hid.
  { by rewrite (se_idle _ _ He2), (strip_idle _ _ Hs). }
  assert (sched_inv k3 L') as HI3.
  { apply (sched_inv_pushed k2 k3 (set_nodes L_free x L) a t x); try done.
    - apply (se_task _ _ He2). by apply (strip_is_task _ _ _ Hs).
    - by rewrite Hid.
    - unfold top. rewrite Hid, !Hcp. unfold top in Hlt. simpl. lia.
    - by rewrite (strip_curr _ _ Hs3).
    - apply (strip_tdb_mem _ _ Hs3).
    - intros v Hv. by apply (strip_is_task _ _ _ Hs3).
    - intros v. apply (strip_cprio _ _ _ Hs3).
    - apply (strip_idle _ _ Hs3). }
  assert (is_task k3 t) as Ht3.
  { apply (repr_task _ _ (sw_repr _ _ (si_wf _ _ HI3)) L_stk); [done|]. by apply list_elem_of_here. }
  unfold osEE_task_event_reset_mask.
  assert (tdb_mem k3 = tdb_mem k) as Htdb3.
  { rewrite (strip_tdb_mem _ _ Hs3), <- Htdb. apply (se_tdb _ _ He2). }
  erewrite bind_run by (apply (upd_tcb_run k3 da t); [by rewrite Htdb3 | done]).
  set (k4 := tcb_upd t _ k3).
  assert (sched_eq k3 k4) as He4 by by apply sched_eq_tcb_upd.
  destruct (change_context_eq k4 (p_curr (ccb k)) t) as (k5 & H5 & He5 & _ & Hrun).
  { by apply (se_task _ _ He4). }
  assert (tcb_of k4 t = set_event_mask 0 <$> tcb_of k t) as Htcb4.
  { destruct Hta as [c Hc]. assert (tcb_of k3 t = Some c) as Hc3.
    { rewrite (strip_tcb_of _ _ _ Hs3). change (tcb_of (set_curr t k2) t) with (tcb_of k2 t).
      unfold k2. rewrite tcb_upd_other; [by rewrite (strip_tcb_of _ _ _ Hs)|apply (kwf_strip k); done|].
      intros <-. apply Hnew. rewrite (si_curr _ _ HI). apply top_sched_task. }
    rewrite Hc. by apply tcb_upd_same. }
  erewrite bind_run by exact H5. exists k5. split_and!; [done| | |].
  - by apply (sched_eq_inv k4), (sched_eq_inv k3).
  - by rewrite (se_curr _ _ He5), (se_curr _ _ He4), (strip_curr _ _ Hs3).
  - rewrite Hrun, Htcb4. by destruct (tcb_of k t).
Qed.

(** Same tasks and priorities; the lists may differ. *)
Record prio_eq (k k' : kernel) : Prop := {
  pe_tdb : tdb_mem k' = tdb_mem k;
  pe_task t : is_task k' t <-> is_task k t;
  pe_cprio t : cprio k' t = cprio k t;
  pe_idle : p_idle_task k' = p_idle_task k;
  pe_curr : p_curr (ccb k') = p_curr (ccb k)
}.

Lemma prio_eq_strip k k' : strip k' = strip k -> prio_eq k k'.
Proof.
  intros H. split; intros.
  - by apply strip_tdb_mem.
  - by apply strip_is_task.
  - by apply strip_cprio.
  - by apply strip_idle.
  - by apply strip_curr.
Qed.

Lemma prio_eq_sched k k' : sched_eq k k' -> prio_eq k k'.
Proof. by intros []. Qed.

#[global] Instance prio_eq_trans : Transitive prio_eq.
Proof.
  intros k1 k2 k3 [T1 I1 C1 D1 R1] [T2 I2 C2 D2 R2].
  split; intros; congruence || (etransitivity; eauto).
Qed.

#[export] Hint Resolve prio_eq_strip prio_eq_sched : mcs.

Lemma prio_eq_rprio k k' t : prio_eq k k' -> rprio k' t = rprio k t.
Proof. intros H. unfold rprio. by rewrite (pe_tdb _ _ H). Qed.

Lemma prio_eq_kwf k k' : prio_eq k k' -> kwf k -> kwf k'.
Proof.
  intros [Ht Hk _ Hi _] [H1 H2 H3]. split.
  - by rewrite Ht.
  - rewrite Hi. by apply Hk.
  - unfold tcb_inj. by rewrite Ht.
Qed.

(** Queueing a ready task keeps the order. *)
Lemma sched_wf_inserted k k' L a t x :
  sched_wf k L -> prio_eq k k' ->
  t ∉ p_idle_task k :: tasks (stk L ++ rdy L ++ sus L) ->
  cprio k t = rprio k t -> 0 < rprio k t ->
  let L' := mkLists (prio_insert (rprio k) (a, t) (rdy L)) x (stk L) (sus L) in
  repr k' L' -> sched_wf k' L'.
Proof.
  intros [Hk HR Hs Hr Hrd Hn Hi] He Hnew Hcr Hpos L' HR'.
  assert (forall u, rprio k' u = rprio k u) as Hrp by (intros; by apply prio_eq_rprio).
  assert (Hperm : tasks (prio_insert (rprio k) (a, t) (rdy L)) ≡ₚ t :: tasks (rdy L)).
  { unfold tasks. by rewrite prio_insert_perm. }
  split; simpl.
  - by apply (prio_eq_kwf k).
  - done.
  - eapply sorted_agree; [|exact Hs]. intros u _. by rewrite (pe_cprio _ _ He).
  - eapply sorted_agree; [|by apply prio_insert_sorted]. done.
  - intros u. rewrite Hperm, elem_of_cons, (pe_cprio _ _ He), Hrp.
    intros [->|Hu]; [done|by apply Hrd].
  - rewrite (pe_idle _ _ He), !tasks_app, Hperm. rewrite !tasks_app in Hn, Hnew.
    assert (p_idle_task k :: tasks (stk L) ++ (t :: tasks (rdy L)) ++ tasks (sus L) ≡ₚ
      t :: p_idle_task k :: tasks (stk L) ++ tasks (rdy L) ++ tasks (sus L)) as ->.
    { simpl. rewrite <- Permutation_middle. apply perm_swap. }
    by apply NoDup_cons.
  - by rewrite (pe_idle _ _ He), (pe_cprio _ _ He).
Qed.

Lemma sched_inv_inserted k k' L a t x :
  sched_inv k L -> prio_eq k k' -> activatable k L t ->
  cprio k t <= cprio k (top k L) ->
  let L' := mkLists (prio_insert (rprio k) (a, t) (rdy L)) x (stk L) (sus L) in
  repr k' L' -> sched_inv k' L'.
Proof.
  intros [HW Hc Hh] He [_ Hnew Hcr Hpos] Hle L' HR'.
  assert (top k' L' = top k L) as Htop by (unfold top; simpl; by rewrite (pe_idle _ _ He)).
  split.
  - by apply (sched_wf_inserted k).
  - rewrite Htop. by rewrite (pe_curr _ _ He).
  - intros u. simpl. unfold tasks. rewrite prio_insert_perm, fmap_cons, elem_of_cons.
    rewrite Htop, !(pe_cprio _ _ He). intros [->|Hu]; [done|by apply Hh].
Qed.

(** The control block after queueing: a suspended task gets ready, without
    events; any other keeps its status. *)
Definition queued_tcb (c : OsEE_TCB) : OsEE_TCB :=
  if decide (status c = OSEE_TASK_SUSPENDED)
  then set_event_mask 0 (set_status OSEE_TASK_READY c) else c.

Lemma task_insert_rq_run k L a u x t :
  repr k L -> is_task k t -> free L = (a, u) :: x ->
  exists k', osEE_scheduler_task_insert_rq t k = Some (bool_decide (rq (ccb k') = a), k') /\
    prio_eq k k' /\
    repr k' (mkLists (prio_insert (rprio k) (a, t) (rdy L)) x (stk L) (sus L)) /\
    tcb_of k' t = queued_tcb <$> tcb_of k t.
Proof.
  intros HR Ht Hf. pose proof (is_task_inv _ _ Ht) as (d & c & Hd & Hc).
  unfold osEE_scheduler_task_insert_rq.
  erewrite bind_run by by apply get_tdb_run. erewrite bind_run by by apply get_tcb_run.
  assert (exists k1, (if decide (status c = OSEE_TASK_SUSPENDED)
       then _ ← upd_tcb (p_tcb d) (set_status OSEE_TASK_READY);
            osEE_task_event_reset_mask (p_tcb d)
       else mret tt) k = Some (tt, k1) /\ sched_eq k k1 /\ tcb_of k1 t = queued_tcb <$> tcb_of k t)
    as (k1 & H1 & He1 & Hq).
  { assert (tcb_of k t = Some c) as Hct by (unfold tcb_of; by rewrite Hd). rewrite Hct. cbn [fmap option_fmap option_map].
    unfold queued_tcb. destruct (decide (status c = OSEE_TASK_SUSPENDED)); [|by exists k].
    erewrite bind_run by by apply (upd_tcb_run k d t). unfold osEE_task_event_reset_mask.
    erewrite (upd_tcb_run _ d t); [|by rewrite tcb_upd_tdb_mem|by apply tcb_upd_is_task].
    eexists. split_and!; [done|etransitivity; by apply sched_eq_tcb_upd|].
    by apply (tcb_upd_same t (set_event_mask 0)), tcb_upd_same. }
  erewrite bind_run by exact H1.
  pose proof (sched_eq_repr _ _ _ He1 HR) as HR1.
  destruct (osEE_sn_alloc_run k1 L a u x HR1 Hf) as (k2 & H2 & HR2 & Hl & Ha0 & Hm & Hs2).
  erewrite bind_run by exact H2.
  destruct (osEE_scheduler_rq_insert_run k2 _ a _ t HR2 Hl Ha0 Hm) as (k3 & H3 & HR3 & Hs3).
  { apply (strip_is_task _ _ _ Hs2). by apply (se_task _ _ He1). }
  assert (prio_eq k k2) as He2 by (transitivity k1; auto with mcs).
  exists k3. split_and!; [done|transitivity k2; auto with mcs| |by rewrite (strip_tcb_of _ _ _ Hs3), (strip_tcb_of _ _ _ Hs2)].
  simpl in HR3. replace (prio_insert (rprio k) (a, t) (rdy L))
    with (prio_insert (rprio k2) (a, t) (rdy L)); [done|].
  apply prio_insert_ext. intros v. by apply prio_eq_rprio.
Qed.

(** Activation without preemption: the task, new or with activations
    outstanding, is queued behind the ready tasks of its priority. *)
Lemma task_activated_queued_run k L a u x t :
  repr k L -> is_task k t -> is_task k (p_curr (ccb k)) -> free L = (a, u) :: x ->
  cprio k t <= cprio k (p_curr (ccb k)) ->
  exists k', osEE_scheduler_task_activated t k = Some (false, k') /\ prio_eq k k' /\
    repr k' (mkLists (prio_insert (rprio k) (a, t) (rdy L)) x (stk L) (sus L)) /\
    tcb_of k' t = queued_tcb <$> tcb_of k t.
Proof.
  intros HR Ht Htc Hf Hle.
  pose proof (is_task_inv _ _ Ht) as (da & ca & Hda & Hca).
  pose proof (is_task_inv _ _ Htc) as (dc & cc & Hdc & Hcc).
  destruct (task_insert_rq_run k L a u x t HR Ht Hf) as (k' & H1 & He & HR' & Htcb).
  exists k'. split_and!; try done. unfold osEE_scheduler_task_activated.
  erewrite bind_run by by apply get_tdb_run. erewrite bind_run by done.
  erewrite bind_run by by apply get_tdb_run. do 2 erewrite bind_run by by apply get_tcb_run.
  rewrite <- (cprio_run _ _ _ _ Hda Hca), <- (cprio_run _ _ _ _ Hdc Hcc).
  rewrite decide_False by lia. by erewrite bind_run by exact H1.
Qed.

(** Activation, either way. *)
Lemma task_activated_run k L a u x t :
  sched_inv k L -> activatable k L t -> free L = (a, u) :: x ->
  exists k' L' b, osEE_scheduler_task_activated t k = Some (b, k') /\ sched_inv k' L' /\
    b = bool_decide (cprio k (top k L) < cprio k t) /\
    p_curr (ccb k') = (if b then t else p_curr (ccb k)) /\ free L' = x /\ sus L' = sus L /\
    (if b then stk L' = (a, t) :: stk L /\ rdy L' = rdy L
     else stk L' = stk L /\ rdy L' = prio_insert (rprio k) (a, t) (rdy L)) /\
    tcb_of k' t = (if b then set_status OSEE_TASK_RUNNING ∘ set_event_mask 0 else queued_tcb) <$> tcb_of k t.
Proof.
  intros HI Ha Hf. destruct (decide (cprio k (top k L) < cprio k t)) as [Hlt|Hge].
  - destruct (activated_preempt_run k L a u x t HI Ha Hf Hlt) as (k' & H1 & H2 & H3 & H4).
    eexists k', _, true. by rewrite bool_decide_true.
  - pose proof Ha as [Ht _ _ _]. pose proof (si_wf _ _ HI) as HW.
    assert (is_task k (p_curr (ccb k))) as Htc.
    { rewrite (si_curr _ _ HI). apply top_is_task; apply HW. }
    destruct (task_activated_queued_run k L a u x t (sw_repr _ _ HW) Ht Htc Hf) as (k' & H1 & He & HR' & Htcb).
    { rewrite (si_curr _ _ HI). lia. }
    exists k', (mkLists (prio_insert (rprio k) (a, t) (rdy L)) x (stk L) (sus L)), false.
    split_and!; [done|by apply (sched_inv_inserted k); (done || lia)|by rewrite bool_decide_false|apply (pe_curr _ _ He)|done..].
Qed.

(** *** Termination *)

(** Taking the running task off the stack keeps the order of the rest. *)
Lemma sched_wf_popped k k' L b u y :
  sched_wf k L -> stk L = (b, u) :: y -> repr k' (set_nodes L_stk y L) ->
  strip k' = strip k ->
  sched_wf k' (set_nodes L_stk y L) /\ u ∉ sched_tasks k' (set_nodes L_stk y L).
Proof.
  intros [Hk _ Hs Hr Hrd Hn Hi] Hy HR He. rewrite Hy in Hs, Hn.
  apply StronglySorted_inv in Hs as [Hs _].
  change (NoDup (p_idle_task k :: u :: tasks (y ++ rdy L ++ sus L))) in Hn.
  apply NoDup_cons in Hn as [Hiu Hn]. apply NoDup_cons in Hn as [Hu Hn].
  apply not_elem_of_cons in Hiu as [Hiu Hin].
  split; [split|]; simpl; unfold sched_tasks; rewrite ?(strip_idle _ _ He).
  - by apply (kwf_strip k).
  - done.
  - eapply sorted_agree; [|exact Hs]. intros. symmetry. by apply strip_cprio.
  - eapply sorted_agree; [|exact Hr]. intros. symmetry. by apply strip_rprio.
  - intros t Ht. rewrite (strip_cprio _ _ _ He), (strip_rprio _ _ _ He). by apply Hrd.
  - by apply NoDup_cons.
  - by rewrite (strip_cprio _ _ _ He).
  - apply not_elem_of_cons. by split.
Qed.

(** The control block of a task that is not involved in a dispatch. *)
Lemma tcb_of_dispatched k t p u :
  kwf k -> u <> t -> u <> p -> tcb_of (dispatched t p k) u = tcb_of k u.
Proof.
  intros Hk Ht Hp. unfold dispatched. change (tcb_of (set_curr t ?k1) u) with (tcb_of k1 u).
  unfold raise_prio. destruct (tdb_mem (tcb_upd p _ k) !! t).
  - rewrite tcb_upd_other; [|by apply kwf_inj, kwf_tcb_upd|done].
    rewrite tcb_upd_other; [done|apply Hk|done].
  - rewrite tcb_upd_other; [done|apply Hk|done].
Qed.

Lemma tdb_mem_dispatched k t p : tdb_mem (dispatched t p k) = tdb_mem k.
Proof.
  unfold dispatched. simpl. unfold raise_prio.
  destruct (tdb_mem (tcb_upd p _ k) !! t); by rewrite ?tcb_upd_tdb_mem.
Qed.

(** Removing the running task: the invariant holds for the others, and the
    task and its node are out of the lists. *)
Lemma pop_running_inv k L b u y :
  sched_wf k L -> stk L = (b, u) :: y ->
  exists k' L', osEE_scheduler_core_pop_running L_rq k = Some (b, k') /\
    sched_inv k' L' /\ loose L' b /\ (b <> NULL) /\
    (exists r, sn_mem k' !! b = Some (mkSN r u)) /\
    (u ∉ sched_tasks k' L') /\ tcb_of k' u = tcb_of k u /\ tdb_mem k' = tdb_mem k /\
    p_idle_task k' = p_idle_task k /\
    free L' = free L /\ sus L' = sus L /\ (stk L' ++ rdy L' ≡ₚ y ++ rdy L).
Proof.
  intros HW Hs. pose proof HW as [Hk HR _ _ _ _ _].
  destruct (osEE_scheduler_core_pop_running_run k L b u y Hk HR Hs)
    as (k' & L' & H1 & HR' & Hl & Hb0 & Hm & Hcase).
  pose proof (repr_chain _ _ HR L_stk) as Hc. simpl in Hc. rewrite Hs in Hc.
  apply chain_cons_lookup in Hc as (_ & _ & r & Hr & _).
  destruct (repr_pop k L L_stk b u y r HR Hs Hr) as [HR0 _].
  set (k0 := set_ccb (set_head L_stk r (ccb k)) k) in *.
  set (L1 := set_nodes L_stk y L) in *.
  assert (strip k0 = strip k) as He0 by done.
  destruct (sched_wf_popped k k0 L b u y HW Hs HR0 He0) as [HW0 Hu]. fold L1 in HW0, Hu.
  change (preempts k L1) with (preempts k0 L1) in Hcase.
  change (top k L1) with (top k0 L1) in Hcase.
  exists k', L'. destruct (preempts k0 L1) as [[[a t] x]|] eqn:Hp.
  - destruct Hcase as [-> He]. rewrite <- (strip_dispatched _ _ t (top k0 L1) He0) in He.
    pose proof (preempts_inv _ _ _ _ _ Hp) as Hx.
    pose proof (top_sched_task k0 L1) as Htop.
    assert (t ∈ sched_tasks k0 L1) as Ht.
    { unfold sched_tasks. rewrite Hx, !tasks_app. apply elem_of_cons. right.
      apply elem_of_app. right. by apply list_elem_of_here. }
    assert (Hid : p_idle_task k' = p_idle_task k) by (rewrite (strip_idle _ _ He); apply (idle_dispatched k0)).
    split_and!; try done.
    + by apply (sched_inv_dispatched k0 k' L1 a t x).
    + assert (sched_tasks k' (mkLists x (free L) ((a, t) :: y) (sus L)) ≡ₚ sched_tasks k0 L1) as Hperm.
      { unfold sched_tasks. rewrite Hx, Hid, !tasks_app, !tasks_cons. cbn [stk rdy sus].
        constructor. change (stk L1) with y. change (sus L1) with (sus L).
        rewrite tasks_cons. exact (Permutation_middle (tasks y) (tasks x ++ tasks (sus L)) t). }
      by rewrite Hperm.
    + rewrite (strip_tcb_of _ _ _ He). apply (tcb_of_dispatched k0); [apply HW0|..].
      * by intros ->.
      * by intros ->.
    + rewrite (strip_tdb_mem _ _ He). apply (tdb_mem_dispatched k0).
    + simpl. change (rdy L) with (rdy L1). rewrite Hx. by rewrite Permutation_middle.
  - destruct Hcase as [-> He]. split_and!; try done.
    + by apply (sched_inv_resumed k0).
    + unfold sched_tasks. by rewrite (strip_idle _ _ He).
    + by rewrite (strip_tcb_of _ _ _ He).
    + by rewrite (strip_tdb_mem _ _ He).
    + by rewrite (strip_idle _ _ He).
Qed.

(** Any update of a task that is neither stacked nor ready. *)
Lemma sched_inv_tcb_upd_other k L u f :
  sched_inv k L -> u ∉ p_idle_task k :: tasks (stk L ++ rdy L) -> sched_inv (tcb_upd u f k) L.
Proof.
  intros [HW Hc Hh] Hu. pose (act := p_idle_task k :: tasks (stk L ++ rdy L)). fold act in Hu.
  assert (Hcp : forall v, v ∈ act -> cprio (tcb_upd u f k) v = cprio k v).
  { intros v Hv. unfold cprio. rewrite tcb_upd_other; [done|apply HW|]. by intros ->. }
  assert (top (tcb_upd u f k) L = top k L) as Htop by (unfold top; by rewrite tcb_upd_idle).
  assert (Hin : forall v, v ∈ tasks (stk L) \/ v ∈ tasks (rdy L) -> v ∈ act).
  { intros v Hv. unfold act. rewrite !tasks_app, elem_of_cons, !elem_of_app. tauto. }
  assert (top k L ∈ act) as Hta.
  { unfold act, top. destruct (stk L) as [|[b v] y]; [by apply list_elem_of_here|].
    apply elem_of_cons. right. by apply list_elem_of_here. }
  destruct HW as [Hk HR Hs Hr Hrd Hn Hi]. split; [split|..].
  - by apply kwf_tcb_upd.
  - by apply repr_tcb_upd.
  - eapply sorted_agree; [|exact Hs]. intros v Hv. symmetry. apply Hcp, Hin. by left.
  - eapply sorted_agree; [|exact Hr]. intros v Hv. by rewrite tcb_upd_rprio.
  - intros v Hv. rewrite tcb_upd_rprio, Hcp; [by apply Hrd|]. apply Hin. by right.
  - by rewrite tcb_upd_idle.
  - rewrite tcb_upd_idle, Hcp; [done|]. by apply list_elem_of_here.
  - by rewrite tcb_upd_ccb, Htop.
  - intros v Hv. rewrite Htop, !Hcp; [by apply Hh|done|apply Hin; by right].
Qed.

Lemma sched_tasks_other k L u :
  u ∉ sched_tasks k L -> u ∉ p_idle_task k :: tasks (stk L ++ rdy L).
Proof.
  unfold sched_tasks. rewrite app_assoc, (tasks_app (stk L ++ rdy L)).
  rewrite !not_elem_of_cons, not_elem_of_app. tauto.
Qed.

(** Putting a task that is in no list on the suspended list. *)
Lemma sched_inv_sus k k' L b u :
  sched_inv k L -> u ∉ sched_tasks k L ->
  repr k' (set_nodes L_suspended ((b, u) :: sus L) L) -> strip k' = strip k ->
  sched_inv k' (set_nodes L_suspended ((b, u) :: sus L) L).
Proof.
  intros [HW Hc Hh] Hu HR He.
  assert (sched_wf k' (set_nodes L_suspended ((b, u) :: sus L) L)) as HW'.
  { destruct HW as [Hk _ Hs Hr Hrd Hn Hi]. split; try done.
    - by apply (kwf_strip k).
    - eapply sorted_agree; [|exact Hs]. intros. symmetry. by apply strip_cprio.
    - eapply sorted_agree; [|exact Hr]. intros. symmetry. by apply strip_rprio.
    - intros t Ht. rewrite (strip_cprio _ _ _ He), (strip_rprio _ _ _ He). by apply Hrd.
    - rewrite (strip_idle _ _ He). simpl. rewrite app_assoc, tasks_mid, app_comm_cons.
      rewrite <- Permutation_middle. unfold sched_tasks in Hu.
      rewrite app_assoc, tasks_app in Hn, Hu. by apply NoDup_cons.
    - by rewrite (strip_idle _ _ He), (strip_cprio _ _ _ He). }
  split; [done|..].
  - by rewrite (strip_curr _ _ He), (top_strip _ _ _ He).
  - intros t Ht. rewrite (top_strip _ _ _ He), !(strip_cprio _ _ _ He). by apply Hh.
Qed.

Lemma task_end_run k t d :
  tdb_mem k !! t = Some d -> is_task k t ->
  osEE_task_end t k = Some (tt, tcb_upd t (task_end_tcb d) k).
Proof.
  intros Hd Ht. unfold osEE_task_end. erewrite bind_run by by apply get_tdb_run.
  by apply upd_tcb_run.
Qed.

Lemma task_terminated_run k L b u y d c :
  sched_inv k L -> stk L = (b, u) :: y ->
  tdb_mem k !! u = Some d -> tcb_of k u = Some c -> status c = OSEE_TASK_RUNNING ->
  exists k' L' t, osEE_scheduler_task_terminated k = Some ((t, u), k') /\
    sched_inv k' L' /\ p_curr (ccb k') = t /\
    tcb_of k' u = Some (task_end_tcb d c) /\ (u ∉ sched_tasks k' L') /\
    free L' = (b, u) :: free L /\ sus L' = sus L /\ (stk L' ++ rdy L' ≡ₚ y ++ rdy L).
Proof.
  intros HI Hs Hd Hc Hrun. pose proof (si_wf _ _ HI) as HW.
  assert (p_curr (ccb k) = u) as Hcur.
  { rewrite (si_curr _ _ HI). unfold top. by rewrite Hs. }
  assert (tcb_mem k !! p_tcb d = Some c) as Hc'.
  { unfold tcb_of in Hc. by rewrite Hd in Hc. }
  unfold osEE_scheduler_task_terminated. erewrite bind_run by done. rewrite Hcur.
  erewrite bind_run by by eapply get_tdb_tcb_run. rewrite decide_True by done.
  unfold task_terminated_normal.
  destruct (pop_running_inv k L b u y HW Hs)
    as (k1 & L1 & H1 & HI1 & Hl & Hb0 & (r & Hm) & Hu & Htcb & Htdb & Hid & Hf & Hsu & Hperm).
  assert (u <> p_curr (ccb k1)) as Hne.
  { rewrite (si_curr _ _ HI1). intros ->. apply Hu. apply top_sched_task. }
  assert (is_task k1 u) as Htu by (unfold is_task; rewrite Htcb, Hc; by eexists).
  set (k2 := tcb_upd u (task_end_tcb d) k1).
  assert (sched_inv k2 L1) as HI2 by by apply sched_inv_tcb_upd_other, sched_tasks_other.
  destruct (osEE_sn_release_run k2 L1 b (mkSN r u)) as (k3 & H3 & HR3 & He3); [apply HI2|done|done|..].
  { unfold k2. by rewrite tcb_upd_sn_mem. }
  exists k3, (set_nodes L_free ((b, u) :: free L1) L1), (p_curr (ccb k1)). split_and!.
  - erewrite bind_run; [done|]. erewrite bind_run by exact H1. erewrite bind_run by done.
    rewrite decide_True by done.
    erewrite bind_run by (apply task_end_run; [by rewrite Htdb | done]).
    by erewrite bind_run by exact H3.
  - by apply (sched_inv_free k2).
  - rewrite (strip_curr _ _ He3). unfold k2. by rewrite tcb_upd_ccb.
  - rewrite (strip_tcb_of _ _ _ He3). apply tcb_upd_same. by rewrite Htcb.
  - unfold sched_tasks. rewrite (strip_idle _ _ He3). unfold k2. by rewrite tcb_upd_idle.
  - simpl. by rewrite Hf.
  - done.
  - done.
Qed.

(** *** Entering an ISR2 *)
Lemma set_running_run k L a u x t :
  sched_inv k L -> is_task k t -> t ∉ sched_tasks k L ->
  cprio k (top k L) <= cprio k t -> free L = (a, u) :: x ->
  exists k', osEE_scheduler_task_set_running t NULL k = Some (tt, k') /\
    sched_inv k' (mkLists (rdy L) x ((a, t) :: stk L) (sus L)) /\ p_curr (ccb k') = t /\
    tdb_mem k' = tdb_mem k /\ p_idle_task k' = p_idle_task k /\
    (forall v, cprio k' v = cprio k v) /\ exists c, tcb_of k' t = Some c /\ status c = OSEE_TASK_RUNNING.
Proof.
  intros HI Ht Hnew Hle Hf. pose proof (si_wf _ _ HI) as HW.
  assert (is_task k (p_curr (ccb k))) as Htc.
  { rewrite (si_curr _ _ HI). apply top_is_task; apply HW. }
  pose proof (is_task_inv _ _ Htc) as (d & c & Hd & Hc).
  unfold osEE_scheduler_task_set_running.
  erewrite bind_run by done. erewrite bind_run by by apply get_tdb_run.
  erewrite bind_run by by apply get_tcb_run.
  assert (exists k1, (if decide (status c = OSEE_TASK_RUNNING)
     then upd_tcb (p_tcb d) (set_status OSEE_TASK_READY_STACKED) else mret tt) k = Some (tt, k1) /\
     sched_eq k k1) as (k1 & H1 & He1).
  { destruct (decide _); [|by exists k]. rewrite (upd_tcb_run k d (p_curr (ccb k))) by done.
    eexists. split; [done|]. by apply sched_eq_tcb_upd. }
  erewrite bind_run by exact H1. erewrite bind_run by done. rewrite decide_True by done.
  pose proof (sched_eq_repr _ _ _ He1 (sw_repr _ _ HW)) as HR1.
  destruct (osEE_sn_alloc_run (set_curr t k1) L a u x (repr_set_curr t _ _ HR1) Hf)
    as (k2 & H2 & HR2 & Hl & Ha0 & Hm & He2).
  unfold set_curr in H2. erewrite bind_run by exact H2. erewrite bind_run by done.
  erewrite bind_run by (apply upd_sn_run; done).
  erewrite bind_run by (apply upd_sn_run; simpl; apply lookup_insert_eq).
  set (k3 := set_sn_mem _ _).
  assert (p_stk_sn (ccb k2) = p_stk_sn (ccb k)) as Hstk.
  { pose proof (repr_chain _ _ HR2 L_stk) as Hch. pose proof (repr_chain _ _ (sw_repr _ _ HW) L_stk) as Hch'.
    simpl in Hch, Hch'. destruct (stk L) as [|[e v] z].
    - apply chain_nil_null in Hch as ->. by apply chain_nil_null in Hch' as ->.
    - apply chain_cons_lookup in Hch as (-> & _). by apply chain_cons_lookup in Hch' as (-> & _). }
  assert (Hsn : sn_mem k3 = <[a := mkSN (p_stk_sn (ccb k)) t]> (sn_mem k2)).
  { unfold k3. simpl. apply insert_insert_eq. }
  assert (is_task k2 t) as Ht2.
  { apply (strip_is_task _ _ _ He2). by apply (se_task _ _ He1). }
  assert (repr k3 (mkLists (rdy L) x ((a, t) :: stk L) (sus L))) as HR3.
  { pose proof (repr_push k2 _ L_stk a t _ HR2 Hl Ha0 Hm (fun _ => Ht2)) as HRp.
    simpl in HRp. rewrite Hstk in HRp. revert HRp. apply repr_same; [done|by intros []|done]. }
  assert (sched_inv k3 (mkLists (rdy L) x ((a, t) :: stk L) (sus L))) as HI3.
  { apply (sched_inv_pushed k); try done.
    - by apply (strip_curr _ _ He2).
    - rewrite <- (se_tdb _ _ He1). apply (strip_tdb_mem _ _ He2).
    - intros v Hv. apply (strip_is_task _ _ v He2). by apply (se_task _ _ He1).
    - intros v. rewrite <- (se_cprio _ _ He1). apply (strip_cprio _ _ v He2).
    - rewrite <- (se_idle _ _ He1). apply (strip_idle _ _ He2). }
  destruct (change_context_eq k3 (p_curr (ccb k)) t Ht2) as (k4 & H4 & He4 & Hrun & _).
  exists k4. split_and!; [done|by apply (sched_eq_inv k3)| | | | |done].
  - rewrite (se_curr _ _ He4). by apply (strip_curr _ _ He2).
  - rewrite (se_tdb _ _ He4), <- (se_tdb _ _ He1). apply (strip_tdb_mem _ _ He2).
  - rewrite (se_idle _ _ He4), <- (se_idle _ _ He1). apply (strip_idle _ _ He2).
  - intros v. rewrite (se_cprio _ _ He4), <- (se_cprio _ _ He1). apply (strip_cprio _ _ v He2).
Qed.

(** ** The scheduler runs the task of highest priority *)
Definition runs_highest (k : kernel) (L : lists) : Prop :=
  forall t, t ∈ tasks (stk L ++ rdy L) -> cprio k t <= cprio k (p_curr (ccb k)).

Lemma sched_inv_highest k L : sched_inv k L -> runs_highest k L.
Proof.
  intros [HW Hc Hh] t Ht. rewrite Hc. rewrite tasks_app in Ht.
  apply elem_of_app in Ht as [Ht|Ht]; [|by apply Hh].
  unfold top. pose proof (sw_stk _ _ HW) as Hs.
  destruct (stk L) as [|[b u] y]; [by apply elem_of_nil in Ht|].
  rewrite tasks_cons in Ht. apply elem_of_cons in Ht as [->|Ht]; [done|].
  by eapply sorted_head_max.
Qed.

(** C3: Activating a task terminates, keeps the scheduling invariant, and
    preempts the running task exactly when the priority of the activated task
    is strictly higher; afterwards the running task has the highest priority
    of all stacked and ready tasks, to which exactly the activated one was
    added, and its node came from the free list. *)
Theorem activation_correct k L a u x t :
  sched_inv k L -> activatable k L t -> free L = (a, u) :: x ->
  exists k' L' b, osEE_scheduler_task_activated t k = Some (b, k') /\
    sched_inv k' L' /\ runs_highest k' L' /\
    (b = true <-> cprio k (p_curr (ccb k)) < cprio k t) /\
    p_curr (ccb k') = (if b then t else p_curr (ccb k)) /\
    stk L' ++ rdy L' ≡ₚ (a, t) :: stk L ++ rdy L /\ free L' = x /\ sus L' = sus L.
Proof.
  intros HI Ha Hf.
  destruct (task_activated_run k L a u x t HI Ha Hf)
    as (k' & L' & b & H1 & HI' & Hb & Hc & H2 & H3 & H4 & _).
  exists k', L', b. split_and!; try done.
  - by apply sched_inv_highest.
  - rewrite Hb, (si_curr _ _ HI). apply bool_decide_eq_true.
  - destruct b, H4 as [-> ->]; [done|].
    by rewrite prio_insert_perm, Permutation_middle.
Qed.


(** An ISR2 of at least the running priority is entered above everything
    else: it becomes the current, running task on top of the stack, and the
    scheduling invariant is kept. *)
Theorem isr2_entry_correct k L a u x t :
  sched_inv k L -> is_task k t -> t ∉ sched_tasks k L ->
  cprio k (p_curr (ccb k)) <= cprio k t -> free L = (a, u) :: x ->
  exists k', osEE_scheduler_task_set_running t NULL k = Some (tt, k') /\
    sched_inv k' (mkLists (rdy L) x ((a, t) :: stk L) (sus L)) /\ p_curr (ccb k') = t /\
    exists c, tcb_of k' t = Some c /\ status c = OSEE_TASK_RUNNING.
Proof.
  intros HI Ht Hn Hle Hf. rewrite (si_curr _ _ HI) in Hle.
  destruct (set_running_run k L a u x t HI Ht Hn Hle Hf) as (k' & H1 & H2 & H3 & _ & _ & _ & H4).
  by exists k'.
Qed.

(** The preemption point switches to the head of the ready queue exactly
    when its priority is strictly higher than that of the task on top of the
    stack, and afterwards the running task has the highest priority. *)
Theorem preemption_point_correct k L :
  sched_wf k L -> p_curr (ccb k) = top k L ->
  exists k' L' b, osEE_scheduler_task_preemption_point k = Some (b, k') /\
    sched_inv k' L' /\ runs_highest k' L' /\
    (b = true <-> exists a t x, rdy L = (a, t) :: x /\
       (stk L = [] \/ cprio k (top k L) < cprio k t)) /\
    (b = false -> k' = k).
Proof.
  intros HW Hc. destruct (preemption_point_run k L HW Hc) as (k' & L' & b & H1 & HI & H2).
  exists k', L', b. split_and!; [done|done|by apply sched_inv_highest|..];
    unfold preempts, top in *; destruct (rdy L) as [|[a t] x]; try naive_solver;
    destruct (stk L) as [|[e v] y]; try naive_solver;
    destruct (decide (cprio k v < cprio k t)); naive_solver.
Qed.

(** ** A concrete core *)

(** Tasks at descriptors 1 (idle), 2, 3, 4 and an ISR2 at 5; the control block
    of descriptor [t] is at [100 + t], the nodes are at 11 to 14. *)
Definition demo_tdb (t : Z) (ty : OsEE_task_type) (prio : Z) : OsEE_TDB :=
  mkTDB (100 + t) t ty 0 prio prio 1 0.
Definition demo_tcb (prio : Z) (st : OsEE_task_status) (acts : Z) : OsEE_TCB :=
  mkTCB acts prio st 0 0 NULL.

Definition demo_tdbs : gmap Z OsEE_TDB := list_to_map [
  (1, demo_tdb 1 OSEE_TASK_TYPE_IDLE 0); (2, demo_tdb 2 OSEE_TASK_TYPE_EXTENDED 2);
  (3, demo_tdb 3 OSEE_TASK_TYPE_EXTENDED 1); (4, demo_tdb 4 OSEE_TASK_TYPE_EXTENDED 3);
  (5, demo_tdb 5 OSEE_TASK_TYPE_ISR2 128)].

Definition demo_ccb (curr rdy_ free_ stk_ sus_ : Z) (st : OsEE_mem_arbit_status) : OsEE_CCB :=
  mkCCB curr rdy_ free_ 4 stk_ OSEE_KERNEL_STARTED 0 0 0 0 0 0 sus_ st.

(** Task 2 runs, task 3 is ready, task 4 and the ISR2 are not active. *)
Definition demo : kernel := mkKernel
  (list_to_map [(11, mkSN 0 2); (12, mkSN 0 3); (13, mkSN 14 0); (14, mkSN 0 0)])
  demo_tdbs
  (list_to_map [(101, demo_tcb 0 OSEE_TASK_READY_STACKED 1); (102, demo_tcb 2 OSEE_TASK_RUNNING 1);
    (103, demo_tcb 1 OSEE_TASK_READY 1); (104, demo_tcb 3 OSEE_TASK_SUSPENDED 0);
    (105, demo_tcb 128 OSEE_TASK_SUSPENDED 0)])
  (demo_ccb 2 12 13 11 0 MEMORY_TOKEN_NONE) 1 0 [2; 3; 4; 5; 1] 4 [].
Definition demo_lists : lists := mkLists [(12, 3)] [(13, 0); (14, 0)] [(11, 2)] [].

(** Decide a concrete representation. *)
Ltac solve_chain :=
  repeat match goal with
  | |- chain _ _ _ => unfold chain; simpl
  | |- _ /\ _ => split
  | |- exists _, _ => eexists
  | |- _ = _ => reflexivity
  | |- _ <> _ => discriminate
  end.

Ltac solve_elem :=
  repeat match goal with
  | H : _ ∈ [] |- _ => by apply elem_of_nil in H
  | H : _ ∈ addrs _ |- _ => unfold addrs in H; simpl in H
  | H : _ ∈ tasks _ |- _ => unfold tasks in H; simpl in H
  | H : _ ∈ _ :: _ |- _ => apply elem_of_cons in H as [H|H]
  end; subst; try discriminate; try lia.

Ltac solve_repr :=
  split;
  [ intros []; solve_chain
  | intros []; apply (bool_decide_unpack _); vm_compute; exact I
  | intros [] []; intros; simpl in *; try done; solve_elem
  | intros [] ? ?; intros; simpl in *; try done; solve_elem; eexists; reflexivity ].

Ltac solve_kwf :=
  split;
  [ reflexivity | eexists; reflexivity | ].

Ltac solve_sorted :=
  repeat first [ apply SSorted_nil | apply SSorted_cons | apply Forall_cons; split | apply Forall_nil ];
  try exact I; try (unfold by_prio; vm_compute; discriminate).

(** The control blocks of [demo_tdbs] are distinct. *)
Lemma demo_inj k : tdb_mem k = demo_tdbs -> tcb_inj k.
Proof.
  intros Hk t t' d d' H H' He. rewrite Hk in H, H'. unfold demo_tdbs in *.
  apply elem_of_list_to_map_2 in H, H'.
  solve_elem; simplify_eq; first [reflexivity | discriminate He].
Qed.

Lemma demo_inv : sched_inv demo demo_lists.
Proof.
  split; [split|..].
  - solve_kwf. by apply demo_inj.
  - solve_repr.
  - solve_sorted.
  - solve_sorted.
  - intros t Ht. simpl in Ht. solve_elem. done.
  - apply (bool_decide_unpack _). vm_compute. exact I.
  - reflexivity.
  - reflexivity.
  - intros t Ht. simpl in Ht. solve_elem.
Qed.

Lemma demo_activatable : activatable demo demo_lists 4.
Proof.
  split; [by eexists| |done|done].
  intros H. simpl in H. solve_elem.
Qed.

Lemma activation_witness : exists k' L' b,
  osEE_scheduler_task_activated 4 demo = Some (b, k') /\
  sched_inv k' L' /\ runs_highest k' L' /\
  (b = true <-> cprio demo (p_curr (ccb demo)) < cprio demo 4) /\
  p_curr (ccb k') = (if b then 4 else p_curr (ccb demo)) /\
  stk L' ++ rdy L' ≡ₚ (13, 4) :: stk demo_lists ++ rdy demo_lists /\
  free L' = [(14, 0)] /\ sus L' = sus demo_lists.
Proof.
  apply (activation_correct demo demo_lists 13 0 [(14, 0)] 4 demo_inv demo_activatable).
  reflexivity.
Defined.


Lemma isr2_entry_witness : exists k',
  osEE_scheduler_task_set_running 5 NULL demo = Some (tt, k') /\
  sched_inv k' (mkLists (rdy demo_lists) [(14, 0)] ((13, 5) :: stk demo_lists) (sus demo_lists)) /\
  p_curr (ccb k') = 5 /\ exists c, tcb_of k' 5 = Some c /\ status c = OSEE_TASK_RUNNING.
Proof.
  apply (isr2_entry_correct demo demo_lists 13 0 [(14, 0)] 5 demo_inv).
  - by eexists.
  - intros H. unfold sched_tasks in H. simpl in H. solve_elem.
  - vm_compute. discriminate.
  - reflexivity.
Defined.

Lemma preemption_point_witness : exists k' L' b,
  osEE_scheduler_task_preemption_point demo = Some (b, k') /\
  sched_inv k' L' /\ runs_highest k' L' /\
  (b = true <-> exists a t x, rdy demo_lists = (a, t) :: x /\
     (stk demo_lists = [] \/ cprio demo (top demo demo_lists) < cprio demo t)) /\
  (b = false -> k' = demo).
Proof. exact (preemption_point_correct demo demo_lists (si_wf _ _ demo_inv) eq_refl). Defined.

(** ** The ready queue *)

(** C32: Inserting into a ready queue that is in priority order terminates and
    yields the queue with exactly the new node added, still in descending
    priority, with tasks of equal priority in order of arrival; the result
    says whether the new node is now the head; nothing else changes. *)
Theorem rq_insert_priority_fifo k L a n t :
  repr k L -> loose L a -> a <> NULL -> sn_mem k !! a = Some n -> is_task k t ->
  StronglySorted (by_prio (rprio k)) (rdy L) ->
  exists k' q head_changed, osEE_scheduler_rq_insert L_rq a t k = Some (head_changed, k') /\
    repr k' (set_nodes L_rq q L) /\ strip k' = strip k /\
    (q ≡ₚ (a, t) :: rdy L) /\ StronglySorted (by_prio (rprio k)) q /\
    (forall p, filter (fun y => rprio k y.2 = p) q =
               filter (fun y => rprio k y.2 = p) (rdy L ++ [(a, t)])) /\
    (head_changed = true <-> head q = Some (a, t)).
Proof.
  intros HR Hl Ha Hn Ht Hs.
  destruct (osEE_scheduler_rq_insert_run k L a n t HR Hl Ha Hn Ht) as (k' & H1 & HR' & He).
  exists k', (prio_insert (rprio k) (a, t) (rdy L)), (bool_decide (rq (ccb k') = a)).
  split_and!; [done|done|done|apply prio_insert_perm|by apply prio_insert_sorted|
    intros p; by apply prio_insert_fifo|].
  rewrite bool_decide_eq_true. pose proof (repr_chain _ _ HR' L_rq) as Hc. simpl in Hc.
  destruct (prio_insert_split (rprio k) (a, t) (rdy L)) as (l1 & l2 & Hl12 & Hq & _).
  rewrite Hq in Hc |- *. destruct l1 as [|[b u] l1]; destruct Hc as (-> & _); simpl; [done|].
  split; [|by intros [= -> ->]]. intros ->. exfalso. apply (Hl L_rq). simpl. rewrite Hl12.
  by apply list_elem_of_here.
Qed.

(** The demo core with its first free node taken. *)
Definition demo_taken : kernel := set_ccb (set_head L_free 14 (ccb demo)) demo.

Lemma rq_insert_witness : exists k' q head_changed,
  osEE_scheduler_rq_insert L_rq 13 4 demo_taken = Some (head_changed, k') /\
  repr k' (set_nodes L_rq q (set_nodes L_free [(14, 0)] demo_lists)) /\
  strip k' = strip demo_taken /\
  (q ≡ₚ [(13, 4); (12, 3)]) /\ StronglySorted (by_prio (rprio demo_taken)) q /\
  (forall p, filter (fun y => rprio demo_taken y.2 = p) q =
             filter (fun y => rprio demo_taken y.2 = p) ([(12, 3)] ++ [(13, 4)])) /\
  (head_changed = true <-> head q = Some (13, 4)).
Proof.
  pose proof (repr_pop demo demo_lists L_free 13 0 [(14, 0)] 14
    (sw_repr _ _ (si_wf _ _ demo_inv)) eq_refl eq_refl) as [HR Hl].
  apply (rq_insert_priority_fifo demo_taken (set_nodes L_free [(14, 0)] demo_lists) 13
    (mkSN 14 0) 4 HR Hl); try done.
  - by eexists.
  - solve_sorted.
Defined.
