(* ===== verification/Dprem.v ===== *)
(** * ERIKA: the DPREM library

    Models ee_files/pkg/arch/aarch64/dprem.c: the guest side of the memory
    arbitration. A task asks the hypervisor for the memory token at the start
    of its memory phase; without the token it is moved from the stack of the
    core to the list of suspended tasks. The two interrupt handlers move the
    memory phase of the core in and out when the hypervisor takes or grants
    the token.

    The hypervisor is a parameter: the hypercall [hvc] with its own state.
    [DPREM_init] is in [Boot].
    The dump of the queues ([print_scheduler_queues]) is reduced to the
    message in front of it. *)

From Stdlib Require Import ZArith Lia String.
From stdpp Require Import base tactics list option gmap sorting.
From S2P Require Import Prelude StateMonad Cell Irqchip FixedPriority Kernel Scheduler SchedPartitioned.

Definition JAILHOUSE_HC_MEMORY_ARBITRATION : Z := 11.
Definition MAX_TASK_PRIORITY : Z := OSEE_ISR2_PRIO_BIT - 1.

(** ** List helpers *)
Fixpoint list_remove_loop (fuel : nat) (p_curr_sn p_sn : Z) : ST kernel unit :=
  if decide (p_curr_sn = NULL) then mret tt
  else match fuel with
  | O => undefined
  | S fuel' =>
      n ← get_sn p_curr_sn;
      if decide (sn_next n = p_sn) then
        m ← get_sn p_sn;
        upd_sn p_curr_sn (set_sn_next (sn_next m))
      else list_remove_loop fuel' (sn_next n) p_sn
  end.

Definition list_remove (p_list_sn : sn_list) (p_sn : Z) : ST kernel unit :=
  h ← get_head p_list_sn;
  if decide (h = p_sn) then
    m ← get_sn p_sn;
    put_head p_list_sn (sn_next m)
  else
    fuel ← gets list_fuel;
    list_remove_loop fuel h p_sn.

Definition list_push_to_head (p_list_sn : sn_list) (p_sn : Z) : ST kernel unit :=
  h ← get_head p_list_sn;
  _ ← upd_sn p_sn (set_sn_next h);
  put_head p_list_sn p_sn.

Fixpoint list_insert_before_loop (fuel : nat) (p_curr_sn p_sn p_ref_sn : Z) : ST kernel unit :=
  if decide (p_curr_sn = NULL) then mret tt
  else match fuel with
  | O => undefined
  | S fuel' =>
      n ← get_sn p_curr_sn;
      if decide (sn_next n = p_ref_sn \/ sn_next n = NULL) then
        _ ← upd_sn p_sn (set_sn_next (sn_next n));
        upd_sn p_curr_sn (set_sn_next p_sn)
      else list_insert_before_loop fuel' (sn_next n) p_sn p_ref_sn
  end.

Definition list_insert_before (p_list_sn : sn_list) (p_sn p_ref_sn : Z) : ST kernel unit :=
  h ← get_head p_list_sn;
  if decide (h = NULL) then
    _ ← upd_sn p_sn (set_sn_next NULL);
    put_head p_list_sn p_sn
  else
    fuel ← gets list_fuel;
    list_insert_before_loop fuel h p_sn p_ref_sn.

Definition list_push_to_tail (p_list_sn : sn_list) (p_sn : Z) : ST kernel unit :=
  list_insert_before p_list_sn p_sn NULL.

Fixpoint list_insert_after_loop (fuel : nat) (p_curr_sn p_sn p_ref_sn : Z) : ST kernel unit :=
  if decide (p_curr_sn = NULL) then mret tt
  else match fuel with
  | O => undefined
  | S fuel' =>
      n ← get_sn p_curr_sn;
      if decide (p_curr_sn = p_ref_sn) then
        _ ← upd_sn p_sn (set_sn_next (sn_next n));
        upd_sn p_curr_sn (set_sn_next p_sn)
      else list_insert_after_loop fuel' (sn_next n) p_sn p_ref_sn
  end.

Definition list_insert_after (p_list_sn : sn_list) (p_sn p_ref_sn : Z) : ST kernel unit :=
  h ← get_head p_list_sn;
  if decide (h = NULL) then
    _ ← upd_sn p_sn (set_sn_next NULL);
    put_head p_list_sn p_sn
  else
    fuel ← gets list_fuel;
    list_insert_after_loop fuel h p_sn p_ref_sn.

Definition list_is_empty (p_list_sn : sn_list) : ST kernel bool :=
  h ← get_head p_list_sn;
  mret (bool_decide (h = NULL)).

(** ** Searching the queues *)
Definition is_regular (d : OsEE_TDB) : bool :=
  bool_decide (task_type d = OSEE_TASK_TYPE_BASIC \/ task_type d = OSEE_TASK_TYPE_EXTENDED).

(** Is the current node of higher priority than the best so far? *)
Definition sn_is_highest (p_curr_tcb : Z) (p_highest_sn : Z) : ST kernel bool :=
  if decide (p_highest_sn = NULL) then mret true
  else
    c ← get_tcb p_curr_tcb;
    h ← get_sn p_highest_sn;
    hc ← get_tdb_tcb (sn_tdb h);
    mret (bool_decide (current_prio hc < current_prio c)).

(** "find highest priority (regular) task in ... queue": the first node of
    highest priority among the tasks [ok] accepts. *)
Fixpoint find_highest (fuel : nat) (ok : OsEE_TDB -> bool) (p_curr_sn p_highest_sn : Z)
    : ST kernel Z :=
  if decide (p_curr_sn = NULL) then mret p_highest_sn
  else match fuel with
  | O => undefined
  | S fuel' =>
      n ← get_sn p_curr_sn;
      d ← get_tdb (sn_tdb n);
      hi ← sn_is_highest (p_tcb d) p_highest_sn;
      find_highest fuel' ok (sn_next n) (if ok d && hi then p_curr_sn else p_highest_sn)
  end.

(** "find first regular task in stacked queue" *)
Fixpoint find_first_regular (fuel : nat) (p_curr_sn : Z) : ST kernel Z :=
  if decide (p_curr_sn = NULL) then mret NULL
  else match fuel with
  | O => undefined
  | S fuel' =>
      n ← get_sn p_curr_sn;
      d ← get_tdb (sn_tdb n);
      if is_regular d then mret p_curr_sn else find_first_regular fuel' (sn_next n)
  end.

(** ** Moving tasks between the stack and the suspended list *)
Definition DPREM_suspend_highest_priority_active_task_from_ISR : ST kernel bool :=
  h ← get_head L_stk;
  fuel ← gets list_fuel;
  p_highest ← find_highest fuel is_regular h NULL;
  if decide (p_highest <> NULL) then
    _ ← list_remove L_stk p_highest;
    _ ← list_push_to_head L_suspended p_highest;
    mret true
  else mret false.

Definition DPREM_resume_highest_priority_task_from_ISR : ST kernel bool :=
  h ← get_head L_suspended;
  fuel ← gets list_fuel;
  p_highest ← find_highest fuel (fun _ => true) h NULL;
  s ← get_head L_stk;
  p_first_regular ← find_first_regular fuel s;
  if decide (p_highest <> NULL) then
    n ← get_sn p_highest;
    _ ← upd_tdb_tcb (sn_tdb n) (set_current_prio MAX_TASK_PRIORITY);
    _ ← list_remove L_suspended p_highest;
    _ ← (if decide (p_first_regular = NULL)
         then list_push_to_tail L_stk p_highest
         else list_insert_before L_stk p_highest p_first_regular);
    mret true
  else mret false.

Definition DPREM_resume_highest_priority_task : ST kernel bool :=
  h ← get_head L_suspended;
  fuel ← gets list_fuel;
  p_highest ← find_highest fuel (fun _ => true) h NULL;
  if decide (p_highest <> NULL) then
    _ ← list_remove L_suspended p_highest;
    s ← get_head L_stk;
    _ ← list_insert_after L_stk p_highest s;
    mret true
  else mret false.

(** The result says whether the caller was switched away; otherwise the call
    is ignored. *)
Definition DPREM_suspend_running_task : ST kernel bool :=
  c ← get_ccb;
  let p_stk_sn_ := p_stk_sn c in
  let p_curr_tdb := p_curr c in
  if decide (p_stk_sn_ <> NULL) then
    n ← get_sn p_stk_sn_;
    d ← get_tdb (sn_tdb n);
    if is_regular d then
      own ← osEE_scheduler_core_pop_running L_rq;
      d_curr ← get_tdb p_curr_tdb;
      _ ← upd_tcb (p_tcb d_curr) (set_p_own_sn own);
      _ ← list_push_to_head L_suspended own;
      _ ← upd_tcb (p_tcb d_curr) (set_status OSEE_TASK_READY_STACKED);
      _ ← upd_tcb (p_tcb d_curr) (set_current_prio (ready_prio d_curr));
      c' ← get_ccb;
      _ ← osEE_change_context_from_running p_curr_tdb (p_curr c');
      mret true
    else
      _ ← printk "Erika: DPREM_suspend_running_task called from isr? (ignored)"%string;
      mret false
  else
    _ ← printk "Erika: DPREM_suspend_running_task called from idle? (ignored)"%string;
    mret false.

(** ** Interrupt handlers *)
Definition memory_phase_started_ISR : ST kernel unit :=
  c ← get_ccb;
  if decide (mem_arbit_status c = MEMORY_TOKEN_REQUESTED) then
    _ ← upd_ccb (set_mem_arbit_status MEMORY_TOKEN_ACQUIRED);
    ret ← DPREM_resume_highest_priority_task_from_ISR;
    if (ret : bool) then mret tt
    else printk "Erika: memory_phase_started_ISR should resume task, but there was none!"%string
  else mret tt.

Definition memory_phase_ended_ISR : ST kernel unit :=
  c ← get_ccb;
  if decide (mem_arbit_status c = MEMORY_TOKEN_ACQUIRED) then
    _ ← upd_ccb (set_mem_arbit_status MEMORY_TOKEN_REQUESTED);
    ret ← DPREM_suspend_highest_priority_active_task_from_ISR;
    if (ret : bool) then mret tt
    else printk "Erika: memory_phase_ended_ISR should suspend task, but there was none!"%string
  else mret tt.

(** ** The API *)
Section Api.
Context {W : Type} (hvc : Z -> Z -> Z -> ST W Z).

(** The core: kernel store, interrupt mask, hypervisor. *)
Record dstate := mkD { dk : kernel; irq_masked : bool; hv : W }.

Definition on_kernel {A} (m : ST kernel A) : ST dstate A := fun s =>
  match m (dk s) with Some (x, k) => Some (x, mkD k (irq_masked s) (hv s)) | None => None end.
Definition on_hv {A} (m : ST W A) : ST dstate A := fun s =>
  match m (hv s) with Some (x, w) => Some (x, mkD (dk s) (irq_masked s) w) | None => None end.

Definition osEE_begin_primitive : ST dstate bool := fun s =>
  Some (irq_masked s, mkD (dk s) true (hv s)).
Definition osEE_end_primitive (flags : bool) : ST dstate unit := fun s =>
  Some (tt, mkD (dk s) (if flags then irq_masked s else false) (hv s)).

(** The loop of [DPREM_begin_memory_phase]: [true] when the token is held,
    [false] when the task has been switched away; it then continues with the
    same loop when it is resumed. *)
Fixpoint begin_memory_phase_loop (fuel : nat) : ST dstate bool :=
  c ← on_kernel get_ccb;
  if decide (mem_arbit_status c = MEMORY_TOKEN_ACQUIRED) then mret true
  else match fuel with
  | O => undefined
  | S fuel' =>
      if decide (mem_arbit_status c <> MEMORY_TOKEN_REQUESTED) then
        hvc_res ← on_hv (hvc JAILHOUSE_HC_MEMORY_ARBITRATION BEGIN_MEM_PHASE 0);
        _ ← (if decide (hvc_res = ARBITRATION_ACK)
             then on_kernel (upd_ccb (set_mem_arbit_status MEMORY_TOKEN_ACQUIRED))
             else if decide (hvc_res = ARBITRATION_NACK)
             then on_kernel (upd_ccb (set_mem_arbit_status MEMORY_TOKEN_REQUESTED))
             else on_kernel (printk "Erika: hvc(TDMA_HYPERCALL_ACTION_BEGIN_MEM_PHASE) responded"%string));
        begin_memory_phase_loop fuel'
      else
        switched ← on_kernel DPREM_suspend_running_task;
        if (switched : bool) then mret false else begin_memory_phase_loop fuel'
  end.

(** After the loop: "set priority to ceiling priority". *)
Definition begin_memory_phase_finish (flags : bool) : ST dstate unit :=
  c ← on_kernel get_ccb;
  _ ← on_kernel (upd_tdb_tcb (p_curr c) (set_current_prio MAX_TASK_PRIORITY));
  osEE_end_primitive flags.

(** The result: [Some ticks] when the phase has begun, [None] when the task
    waits for the token, with the saved interrupt state in both cases. *)
Definition DPREM_begin_memory_phase (fuel : nat) (ticks : Z) : ST dstate (option Z * bool) :=
  flags ← osEE_begin_primitive;
  c ← on_kernel get_ccb;
  _ ← (if decide (mem_arbit_status c = MEMORY_TOKEN_ACQUIRED)
       then on_kernel (printk "DPREM_begin_memory_phase called while having the token!"%string)
       else mret tt);
  done ← begin_memory_phase_loop fuel;
  if (done : bool) then
    _ ← begin_memory_phase_finish flags;
    mret (Some ticks, flags)
  else mret (None, flags).

(** What a task that was switched away in the loop does when it is resumed. *)
Definition DPREM_begin_memory_phase_resumed (fuel : nat) (ticks : Z) (flags : bool)
    : ST dstate (option Z * bool) :=
  done ← begin_memory_phase_loop fuel;
  if (done : bool) then
    _ ← begin_memory_phase_finish flags;
    mret (Some ticks, flags)
  else mret (None, flags).

(** Interrupts stay masked for the execution phase. *)
Definition DPREM_end_memory_phase : ST dstate bool :=
  flags ← osEE_begin_primitive;
  hvc_res ← on_hv (hvc JAILHOUSE_HC_MEMORY_ARBITRATION END_MEM_PHASE 0);
  _ ← (if decide (hvc_res = ARBITRATION_ACK)
       then on_kernel (upd_ccb (set_mem_arbit_status MEMORY_TOKEN_NONE))
       else on_kernel (printk "Erika: hvc(TDMA_HYPERCALL_ACTION_END_MEM_PHASE) responded"%string));
  mret flags.

Definition DPREM_end_execution_phase (flags : bool) : ST dstate unit :=
  c ← on_kernel get_ccb;
  d ← on_kernel (get_tdb (p_curr c));
  _ ← on_kernel (upd_tcb (p_tcb d) (set_current_prio (dispatch_prio d)));
  empty ← on_kernel (list_is_empty L_suspended);
  _ ← (if (empty : bool) then mret tt
       else _ ← on_kernel DPREM_resume_highest_priority_task; mret tt);
  osEE_end_primitive flags.

End Api.

(** ** The list helpers on the lists *)

(** Unlinking an inner node: the predecessor is redirected. *)
Lemma lseg_unlink m p q x1 b u s a t r x2 :
  lseg m p (x1 ++ (b, u) :: (a, t) :: x2) q ->
  NoDup (addrs (x1 ++ (b, u) :: (a, t) :: x2)) ->
  m !! b = Some (mkSN s u) -> m !! a = Some (mkSN r t) ->
  lseg (<[b := mkSN r u]> m) p (x1 ++ (b, u) :: x2) q.
Proof.
  intros (c & H1 & -> & Hb0 & s' & Hs' & -> & Ha0 & r' & Hr' & H2)%lseg_app Hnd Hb Ha.
  simplify_eq. rewrite addrs_app in Hnd. apply NoDup_app in Hnd as (_ & Hd & Hnd).
  change (NoDup (b :: a :: addrs x2)) in Hnd. apply NoDup_cons in Hnd as [Hb2 _].
  apply not_elem_of_cons in Hb2 as [_ Hb2].
  apply lseg_app. exists b. split.
  - apply lseg_frame; [|done]. intros Hin. apply (Hd b Hin). by apply list_elem_of_here.
  - eapply lseg_cons; [done|by rewrite lookup_insert_eq|]. by apply lseg_frame.
Qed.

(** The first node of a segment is not one of the later ones. *)
Lemma lseg_head_ne m p q x b u y a :
  lseg m p (x ++ (b, u) :: y) q -> NoDup (addrs (x ++ (b, u) :: y)) ->
  a ∈ addrs y -> p <> a.
Proof.
  intros Hl Hnd Ha ->. destruct x as [|[e v] x]; destruct Hl as [-> _];
    apply NoDup_cons in Hnd as [Hnd _]; apply Hnd; [done|].
  change (e ∈ addrs (x ++ (b, u) :: y)). rewrite addrs_app. apply elem_of_app. right.
  apply elem_of_cons. by right.
Qed.

Lemma list_remove_loop_run k q a t r x2 : forall fuel x1 b u p,
  lseg (sn_mem k) p (x1 ++ (b, u) :: (a, t) :: x2) q ->
  NoDup (addrs (x1 ++ (b, u) :: (a, t) :: x2)) ->
  (length x1 < fuel)%nat -> sn_mem k !! a = Some (mkSN r t) ->
  list_remove_loop fuel p a k = Some (tt, set_sn_mem (<[b := mkSN r u]> (sn_mem k)) k).
Proof.
  induction fuel as [|fuel IH]; intros x1 b u p Hl Hnd Hf Ha; [lia|].
  destruct x1 as [|[e v] x1].
  - destruct Hl as (-> & Hb0 & s & Hb & -> & Ha0 & _). simpl.
    rewrite decide_False by done. erewrite bind_run by by apply get_sn_run.
    cbn [sn_next]. rewrite decide_True by done.
    erewrite bind_run by by apply get_sn_run. by erewrite upd_sn_run by done.
  - destruct Hl as (-> & He0 & s & He & Hl). simpl in Hf.
    simpl list_remove_loop. rewrite decide_False by done.
    erewrite bind_run by by apply get_sn_run. cbn [sn_next].
    apply NoDup_cons in Hnd as [_ Hnd].
    rewrite decide_False; [by apply (IH x1 b u s); [..|lia|]|].
    eapply lseg_head_ne; [exact Hl|exact Hnd|]. by apply list_elem_of_here.
Qed.

Lemma list_remove_run k L l a t x1 x2 :
  repr k L -> nodes L l = x1 ++ (a, t) :: x2 ->
  exists k', list_remove l a k = Some (tt, k') /\
    repr k' (set_nodes l (x1 ++ x2) L) /\ loose (set_nodes l (x1 ++ x2) L) a /\
    a <> NULL /\ (exists r, sn_mem k' !! a = Some (mkSN r t)) /\ strip k' = strip k.
Proof.
  intros HR Hl. pose proof (repr_chain _ _ HR l) as Hc. pose proof (repr_nodup _ _ HR l) as Hnd.
  rewrite Hl in Hc, Hnd.
  pose proof Hc as (p & H1 & -> & Ha0 & r & Hr & H2)%lseg_app.
  pose proof Hnd as Hnd'. rewrite addrs_mid in Hnd'. apply NoDup_mid in Hnd' as [Hn12 Ha12].
  rewrite <- addrs_app in Hn12, Ha12.
  assert (Hlo : loose (set_nodes l (x1 ++ x2) L) a).
  { intros l'. destruct (decide (l = l')) as [<-|Hne]; [by rewrite nodes_set_eq|].
    rewrite nodes_set_ne by done. intros Hin. apply (repr_disj _ _ HR l l' a Hne); [|done].
    rewrite Hl, addrs_mid. apply elem_of_app. right. by apply list_elem_of_here. }
  assert (Hsub : forall b, b ∈ addrs (x1 ++ x2) -> b ∈ addrs (nodes L l) \/ loose L b).
  { intros b Hb. left. rewrite Hl, addrs_mid. apply elem_of_mid. by rewrite <- addrs_app. }
  assert (Htk : l <> L_free -> forall u, u ∈ tasks (x1 ++ x2) -> is_task k u).
  { intros Hf u Hu. apply (repr_task _ _ HR l u Hf). rewrite Hl, tasks_mid.
    apply elem_of_mid. by rewrite <- tasks_app. }
  unfold list_remove. erewrite bind_run by done.
  destruct x1 as [|[b u] x1 _] using rev_ind.
  - simpl in H1. subst a. rewrite decide_True by done.
    erewrite bind_run by by apply get_sn_run. cbn [sn_next].
    eexists. split_and!; [done| |done|done|by exists r|by destruct l].
    by apply (repr_pop k L l (head_of l (ccb k)) t x2 r).
  - rewrite <- app_assoc in Hc, Hnd. simpl in Hc, Hnd.
    pose proof Hc as (e & H3 & -> & Hb0 & s & Hb & _)%lseg_app.
    rewrite decide_False.
    2: { eapply lseg_head_ne; [exact Hc|exact Hnd|]. by apply list_elem_of_here. }
    erewrite bind_run by done.
    erewrite (list_remove_loop_run k NULL a t r x2) by (done || (pose proof (repr_fuel _ _ l HR);
      unfold list_fuel in *; rewrite Hl in *; rewrite !length_app in *; simpl in *; lia)).
    assert (a <> b) as Hab.
    { intros ->. rewrite addrs_app in Hnd. apply NoDup_app in Hnd as (_ & _ & Hnd).
      apply NoDup_cons in Hnd as [Hnd _]. apply Hnd. by apply list_elem_of_here. }
    eexists. split_and!; [done| |done|done| |done].
    + apply (repr_relink k); simpl; try done.
      * intros l' c Hne Hin. rewrite lookup_insert_ne; [done|]. intros ->.
        apply (repr_disj _ _ HR l l' c Hne); [|done]. rewrite Hl, !addrs_app.
        apply elem_of_app. left. apply elem_of_app. right. by apply list_elem_of_here.
      * rewrite <- app_assoc. by eapply lseg_unlink.
    + exists r. simpl. by rewrite lookup_insert_ne.
Qed.

(** The node the insertion stops at: the next one is the reference or there
    is no next one. *)
Definition stops_before (ref : Z) (y : list (Z * Z)) : Prop :=
  match y with [] => True | (e, _) :: _ => e = ref end.

Lemma list_insert_before_loop_run k a t r ref y : forall fuel x b u p,
  chain (sn_mem k) p (x ++ (b, u) :: y) -> stops_before ref y ->
  ref ∉ addrs (tail (x ++ [(b, u)])) -> (length x < fuel)%nat ->
  a ∉ addrs (x ++ (b, u) :: y) -> sn_mem k !! a = Some (mkSN r t) ->
  exists s, sn_mem k !! b = Some (mkSN s u) /\ chain (sn_mem k) s y /\
    list_insert_before_loop fuel p a ref k =
      Some (tt, set_sn_mem (<[b := mkSN a u]> (<[a := mkSN s t]> (sn_mem k))) k).
Proof.
  induction fuel as [|fuel IH]; intros x b u p Hc Hy Hr Hf Hal Ha; [lia|].
  destruct x as [|[e v] x].
  - destruct Hc as (-> & Hb0 & s & Hb & Hc). exists s. split_and!; [done|done|].
    simpl. rewrite decide_False by done. erewrite bind_run by by apply get_sn_run.
    cbn [sn_next]. rewrite decide_True.
    2: { destruct y as [|[e v] y]; [by right|]. destruct Hc as [-> _]. simpl in Hy. by left. }
    erewrite bind_run by by apply upd_sn_run. unfold set_sn_next. cbn [sn_tdb].
    rewrite (upd_sn_run _ _ (mkSN s u)); [done|]. simpl. rewrite lookup_insert_ne; [done|].
    intros ->. apply Hal. by apply list_elem_of_here.
  - destruct Hc as (-> & He0 & s & He & Hc). simpl in Hf.
    apply not_elem_of_cons in Hal as [_ Hal]. simpl in Hr.
    assert (s <> ref /\ s <> NULL) as [Hsr Hs0].
    { destruct x as [|[e' v'] x]; destruct Hc as (-> & ? & _); split; try done; intros ->;
        apply Hr; by apply list_elem_of_here. }
    destruct (IH x b u s) as (s' & H1 & H2 & H3); [done|done| |lia|done|done|].
    { destruct x; [by apply not_elem_of_nil|]. by apply not_elem_of_cons in Hr as [_ ?]. }
    exists s'. split_and!; [done|done|]. simpl list_insert_before_loop.
    rewrite decide_False by done. erewrite bind_run by by apply get_sn_run.
    cbn [sn_next]. rewrite decide_False by tauto. exact H3.
Qed.

(** Linking a loose node behind an inner node of a list. *)
Lemma repr_link_after k L l x b u y a t r s :
  repr k L -> nodes L l = x ++ (b, u) :: y -> loose L a -> a <> NULL ->
  sn_mem k !! a = Some (mkSN r t) -> (l <> L_free -> is_task k t) ->
  sn_mem k !! b = Some (mkSN s u) -> chain (sn_mem k) s y ->
  is_task k t ->
  repr (set_sn_mem (<[b := mkSN a u]> (<[a := mkSN s t]> (sn_mem k))) k)
    (set_nodes l (x ++ (b, u) :: (a, t) :: y) L).
Proof.
  intros HR Hl Hlo Ha0 Ha _ Hb Hy Ht. pose proof (Hlo l) as Hal. rewrite Hl in Hal.
  assert (a <> b) as Hab.
  { intros ->. apply Hal. rewrite addrs_mid. apply elem_of_app. right. by apply list_elem_of_here. }
  replace (x ++ (b, u) :: (a, t) :: y) with ((x ++ [(b, u)]) ++ (a, t) :: y)
    by (by rewrite <- app_assoc).
  replace (x ++ (b, u) :: y) with ((x ++ [(b, u)]) ++ y) in Hl, Hal by (by rewrite <- app_assoc).
  pose proof (repr_chain _ _ HR l) as Hc. pose proof (repr_nodup _ _ HR l) as Hnd.
  rewrite Hl in Hc, Hnd. pose proof Hc as (q & H1 & H2)%lseg_app.
  assert (q = s) as ->.
  { pose proof H1 as (e & _ & -> & _ & s' & Hs' & ->)%lseg_app. congruence. }
  rewrite insert_insert_ne by done.
  apply (repr_insert k _ L l a t (x ++ [(b, u)]) y); simpl; try done.
  - intros c Hc1 Hc2. rewrite !lookup_insert_ne; [done| |done].
    intros ->. apply Hc1. rewrite addrs_app. apply elem_of_app. right. by apply list_elem_of_here.
  - by apply (lseg_insert_after _ _ _ _ _ _ _ _ _ r).
Qed.

Lemma list_insert_before_run k L l x b u y a t r ref :
  repr k L -> nodes L l = x ++ (b, u) :: y -> loose L a -> a <> NULL ->
  sn_mem k !! a = Some (mkSN r t) -> is_task k t ->
  stops_before ref y -> ref ∉ addrs (tail (x ++ [(b, u)])) ->
  exists k', list_insert_before l a ref k = Some (tt, k') /\
    repr k' (set_nodes l (x ++ (b, u) :: (a, t) :: y) L) /\ strip k' = strip k.
Proof.
  intros HR Hl Hlo Ha0 Ha Ht Hy Hr. unfold list_insert_before.
  pose proof (repr_chain _ _ HR l) as Hc. pose proof (Hlo l) as Hal.
  pose proof (repr_fuel _ _ l HR) as Hf. rewrite Hl in Hc, Hal, Hf.
  rewrite length_app in Hf. simpl in Hf.
  destruct (list_insert_before_loop_run k a t r ref y (list_fuel k) x b u (head_of l (ccb k)))
    as (s & Hb & Hs & Hrun); [done|done|done|lia|done|done|].
  erewrite bind_run by done. rewrite decide_False.
  2: { destruct x as [|[e v] x]; destruct Hc as (-> & ? & _); done. }
  erewrite bind_run by done. eexists. split_and!; [exact Hrun| |done].
  by eapply repr_link_after.
Qed.

Lemma list_insert_empty_run k L l a t r ref :
  repr k L -> nodes L l = [] -> loose L a -> a <> NULL ->
  sn_mem k !! a = Some (mkSN r t) -> is_task k t ->
  exists k', list_insert_before l a ref k = Some (tt, k') /\
    list_insert_after l a ref k = Some (tt, k') /\
    repr k' (set_nodes l [(a, t)] L) /\ strip k' = strip k.
Proof.
  intros HR Hl Hlo Ha0 Ha Ht. unfold list_insert_before, list_insert_after.
  pose proof (repr_chain _ _ HR l) as Hc. rewrite Hl in Hc. apply chain_nil_null in Hc.
  assert (Hrun : forall m : ST kernel unit,
    (h ← get_head l; if decide (h = NULL)
     then (_ ← upd_sn a (set_sn_next NULL); put_head l a) else m) k =
    Some (tt, set_ccb (set_head l a (ccb k)) (set_sn_mem (<[a := mkSN NULL t]> (sn_mem k)) k))).
  { intros m. erewrite bind_run by done. rewrite decide_True by done.
    by erewrite bind_run by by apply upd_sn_run. }
  eexists. split_and!; [apply Hrun|apply Hrun| |by destruct l].
  pose proof (repr_push k L l a t _ HR Hlo Ha0 Ha (fun _ => Ht)) as HP.
  by rewrite Hc, Hl in HP.
Qed.

(** Insertion behind the first node. *)
Lemma list_insert_after_head_run k L l b u y a t r :
  repr k L -> nodes L l = (b, u) :: y -> loose L a -> a <> NULL ->
  sn_mem k !! a = Some (mkSN r t) -> is_task k t ->
  exists k', list_insert_after l a b k = Some (tt, k') /\
    repr k' (set_nodes l ((b, u) :: (a, t) :: y) L) /\ strip k' = strip k.
Proof.
  intros HR Hl Hlo Ha0 Ha Ht. unfold list_insert_after.
  pose proof (repr_chain _ _ HR l) as Hc. pose proof (Hlo l) as Hal.
  rewrite Hl in Hc, Hal. apply chain_cons_lookup in Hc as (Hp & Hb0 & s & Hb & Hy).
  erewrite bind_run by done. rewrite Hp. rewrite decide_False by done.
  erewrite bind_run by done. unfold list_fuel. simpl list_insert_after_loop.
  rewrite decide_False by done. erewrite bind_run by by apply get_sn_run.
  rewrite decide_True by done. cbn [sn_next]. erewrite bind_run by by apply upd_sn_run.
  unfold set_sn_next. cbn [sn_tdb].
  rewrite (upd_sn_run _ _ (mkSN s u)).
  2: { simpl. rewrite lookup_insert_ne; [done|]. intros ->. apply Hal. by apply list_elem_of_here. }
  eexists. split_and!; [done| |done].
  by apply (repr_link_after k L l [] b u y a t r s).
Qed.

Lemma list_push_to_head_run k L l a t r :
  repr k L -> loose L a -> a <> NULL -> sn_mem k !! a = Some (mkSN r t) -> is_task k t ->
  exists k', list_push_to_head l a k = Some (tt, k') /\
    repr k' (set_nodes l ((a, t) :: nodes L l) L) /\ strip k' = strip k.
Proof.
  intros HR Hlo Ha0 Ha Ht. unfold list_push_to_head. erewrite bind_run by done.
  erewrite bind_run by by apply upd_sn_run. eexists. split_and!; [done| |by destruct l].
  by apply (repr_push k L l a t _ HR Hlo Ha0 Ha).
Qed.

(** ** The search loops on the lists *)
Section Highest.
Context (prio : Z -> Z) (ok : Z -> bool).

Definition better (best : option (Z * Z)) (t : Z) : bool :=
  match best with None => true | Some (_, u) => bool_decide (prio u < prio t) end.

Fixpoint highest_from (best : option (Z * Z)) (l : list (Z * Z)) : option (Z * Z) :=
  match l with
  | [] => best
  | (a, t) :: l' => highest_from (if ok t && better best t then Some (a, t) else best) l'
  end.

(** The first element of highest priority among those accepted. *)
Definition is_highest (l : list (Z * Z)) (best : option (Z * Z)) : Prop :=
  match best with
  | None => forall a t, (a, t) ∈ l -> ok t = false
  | Some (a, t) => exists x1 x2, l = x1 ++ (a, t) :: x2 /\ ok t = true /\
      (forall b u, (b, u) ∈ x1 -> ok u = true -> prio u < prio t) /\
      (forall b u, (b, u) ∈ x2 -> ok u = true -> prio u <= prio t)
  end.

Lemma highest_from_spec l : forall seen best,
  is_highest seen best -> is_highest (seen ++ l) (highest_from best l).
Proof.
  induction l as [|[a t] l IH]; intros seen best Hs; simpl; [by rewrite app_nil_r|].
  replace (seen ++ (a, t) :: l) with ((seen ++ [(a, t)]) ++ l) by (by rewrite <- app_assoc).
  apply IH. destruct (ok t) eqn:Hok; simpl.
  - unfold better. destruct best as [[b u]|]; simpl in Hs.
    + destruct Hs as (x1 & x2 & -> & Hu & H1 & H2).
      destruct (bool_decide (prio u < prio t)) eqn:Hlt.
      * apply bool_decide_eq_true in Hlt. exists (x1 ++ (b, u) :: x2), []. split_and!; try done.
        -- intros c v Hin Hv. apply elem_of_app in Hin as [Hin|Hin]; [specialize (H1 c v Hin Hv); lia|].
           apply elem_of_cons in Hin as [[= -> ->]|Hin]; [done|]. specialize (H2 c v Hin Hv). lia.
        -- intros c v Hin. by apply elem_of_nil in Hin.
      * apply bool_decide_eq_false in Hlt. exists x1, (x2 ++ [(a, t)]).
        split_and!; [by rewrite <- app_assoc|done|done|].
        intros c v Hin Hv. apply elem_of_app in Hin as [Hin|Hin]; [by apply (H2 c)|].
        apply list_elem_of_singleton in Hin as [= -> ->]. lia.
    + exists seen, []. split_and!; try done.
      * intros c v Hin Hv. by rewrite (Hs c v Hin) in Hv.
      * intros c v Hin. by apply elem_of_nil in Hin.
  - destruct best as [[b u]|]; simpl in *.
    + destruct Hs as (x1 & x2 & -> & Hu & H1 & H2). exists x1, (x2 ++ [(a, t)]).
      split_and!; [by rewrite <- app_assoc|done|done|].
      intros c v Hin Hv. apply elem_of_app in Hin as [Hin|Hin]; [by apply (H2 c)|].
      apply list_elem_of_singleton in Hin as [= -> ->]. congruence.
    + intros c v Hin. apply elem_of_app in Hin as [Hin|Hin]; [by apply (Hs c)|].
      by apply list_elem_of_singleton in Hin as [= -> ->].
Qed.

Definition highest (l : list (Z * Z)) : option (Z * Z) := highest_from None l.

Lemma highest_spec l : is_highest l (highest l).
Proof.
  apply (highest_from_spec l []). intros a t H. by apply elem_of_nil in H.
Qed.

End Highest.

Definition task_ok (k : kernel) (ok : OsEE_TDB -> bool) (t : Z) : bool :=
  match tdb_mem k !! t with Some d => ok d | None => false end.

Definition addr_of (best : option (Z * Z)) : Z :=
  match best with Some (a, _) => a | None => NULL end.

(** The best node so far is a node of the store. *)
Definition best_ok (k : kernel) (best : option (Z * Z)) : Prop :=
  match best with
  | None => True
  | Some (a, t) => a <> NULL /\ is_task k t /\ exists r, sn_mem k !! a = Some (mkSN r t)
  end.

Lemma sn_is_highest_run k best t d :
  best_ok k best -> tdb_mem k !! t = Some d -> is_task k t ->
  sn_is_highest (p_tcb d) (addr_of best) k = Some (better (cprio k) best t, k).
Proof.
  intros Hb Hd Ht. unfold sn_is_highest. destruct best as [[a u]|]; simpl; [|done].
  destruct Hb as (Ha0 & Hu & r & Ha). rewrite decide_False by done.
  pose proof (is_task_inv _ _ Hu) as (du & cu & Hdu & Hcu).
  pose proof (is_task_inv _ _ Ht) as (dt & ct & Hdt & Hct).
  rewrite Hd in Hdt. injection Hdt as <-.
  erewrite bind_run by by apply get_tcb_run.
  erewrite bind_run by by apply get_sn_run. cbn [sn_tdb].
  erewrite bind_run by by eapply get_tdb_tcb_run.
  by rewrite (cprio_run _ _ _ _ Hdu Hcu), (cprio_run _ _ _ _ Hd Hct).
Qed.

Lemma find_highest_run k ok x : forall fuel p best,
  chain (sn_mem k) p x -> (length x <= fuel)%nat -> Forall (is_task k) (tasks x) ->
  best_ok k best ->
  find_highest fuel ok p (addr_of best) k =
    Some (addr_of (highest_from (cprio k) (task_ok k ok) best x), k).
Proof.
  induction x as [|[a t] x IH]; intros fuel p best Hc Hf Ht Hb.
  - apply chain_nil_null in Hc as ->. by destruct fuel.
  - apply chain_cons_lookup in Hc as (-> & Ha0 & r & Ha & Hc).
    destruct fuel as [|fuel]; simpl in Hf; [lia|].
    change (Forall (is_task k) (t :: tasks x)) in Ht. apply Forall_cons in Ht as [Hta Ht].
    pose proof (is_task_inv _ _ Hta) as (d & c & Hd & _).
    simpl find_highest. rewrite decide_False by done.
    erewrite bind_run by by apply get_sn_run. cbn [sn_tdb sn_next].
    erewrite bind_run by by apply get_tdb_run.
    erewrite bind_run by by eapply (sn_is_highest_run k best t).
    simpl highest_from. assert (task_ok k ok t = ok d) as -> by (unfold task_ok; by rewrite Hd).
    rewrite <- (IH fuel r); [|done|lia|done|].
    + by destruct (ok d && better (cprio k) best t).
    + destruct (ok d && better (cprio k) best t); [|done]. split_and!; [done|done|by exists r].
Qed.

(** The leading tasks that are not regular. *)
Definition regular (k : kernel) (t : Z) : bool := task_ok k is_regular t.

Lemma find_first_regular_run k x : forall fuel p,
  chain (sn_mem k) p x -> (length x <= fuel)%nat -> Forall (is_task k) (tasks x) ->
  exists i y, x = i ++ y /\ (forall a t, (a, t) ∈ i -> regular k t = false) /\
    match y with [] => True | (_, t) :: _ => regular k t = true end /\
    find_first_regular fuel p k =
      Some (match y with [] => NULL | (a, _) :: _ => a end, k).
Proof.
  induction x as [|[a t] x IH]; intros fuel p Hc Hf Ht.
  - apply chain_nil_null in Hc as ->. exists [], []. split_and!; [done| |done|by destruct fuel].
    intros a t H. by apply elem_of_nil in H.
  - apply chain_cons_lookup in Hc as (-> & Ha0 & r & Ha & Hc).
    destruct fuel as [|fuel]; simpl in Hf; [lia|].
    change (Forall (is_task k) (t :: tasks x)) in Ht. apply Forall_cons in Ht as [Hta Ht].
    pose proof (is_task_inv _ _ Hta) as (d & c & Hd & _).
    simpl find_first_regular. rewrite decide_False by done.
    erewrite bind_run by by apply get_sn_run. cbn [sn_tdb sn_next].
    erewrite bind_run by by apply get_tdb_run.
    destruct (is_regular d) eqn:Hreg.
    + exists [], ((a, t) :: x). split_and!; [done| | |done].
      * intros b u H. by apply elem_of_nil in H.
      * unfold regular, task_ok. by rewrite Hd.
    + destruct (IH fuel r Hc ltac:(lia) Ht) as (i & y & -> & Hi & Hy & Hrun).
      exists ((a, t) :: i), y. split_and!; [done| |done|done].
      intros b u Hin. apply elem_of_cons in Hin as [[= -> ->]|Hin]; [|by apply (Hi b)].
      unfold regular, task_ok. by rewrite Hd.
Qed.

(** ** The moves on the lists *)

(** Below the interrupt handlers on top of the stack. *)
Fixpoint below_isrs (k : kernel) (x : Z * Z) (l : list (Z * Z)) : list (Z * Z) :=
  match l with
  | [] => [x]
  | y :: l' => if regular k y.2 then x :: l else y :: below_isrs k x l'
  end.

(** Where the resumed task goes: a regular task on top of the stack is the
    reference node [list_insert_before] never finds. *)
Definition resumed_stk (k : kernel) (x : Z * Z) (l : list (Z * Z)) : list (Z * Z) :=
  match l with
  | [] => [x]
  | y :: _ => if regular k y.2 then l ++ [x] else below_isrs k x l
  end.

Lemma below_isrs_split k x i y :
  (forall a t, (a, t) ∈ i -> regular k t = false) ->
  match y with [] => True | (_, t) :: _ => regular k t = true end ->
  below_isrs k x (i ++ y) = i ++ x :: y.
Proof.
  induction i as [|[a t] i IH]; intros Hi Hy; simpl.
  - destruct y as [|[b u] y]; simpl; [done|]. by rewrite Hy.
  - rewrite (Hi a t) by apply list_elem_of_here. rewrite IH; [done| |done].
    intros b u Hin. apply (Hi b u). apply elem_of_cons. by right.
Qed.

Lemma highest_split k ok L l a t :
  highest (cprio k) ok (nodes L l) = Some (a, t) ->
  exists x1 x2, nodes L l = x1 ++ (a, t) :: x2 /\ ok t = true.
Proof.
  intros H. pose proof (highest_spec (cprio k) ok (nodes L l)) as Hs. rewrite H in Hs.
  destruct Hs as (x1 & x2 & ? & ? & _). eauto.
Qed.

Lemma find_highest_list k L l ok :
  repr k L -> l <> L_free ->
  find_highest (list_fuel k) ok (head_of l (ccb k)) NULL k =
    Some (addr_of (highest (cprio k) (task_ok k ok) (nodes L l)), k).
Proof.
  intros HR Hl. apply (find_highest_run k ok (nodes L l) (list_fuel k) _ None).
  - apply (repr_chain _ _ HR).
  - by apply repr_fuel.
  - by apply repr_Forall_task.
  - done.
Qed.

Lemma repr_node_not_null k L l a t x1 x2 :
  repr k L -> nodes L l = x1 ++ (a, t) :: x2 -> a <> NULL.
Proof.
  intros HR Hl. pose proof (lseg_not_null _ _ _ _ (repr_chain _ _ HR l)) as H.
  rewrite Hl, addrs_mid in H. intros ->. apply H. apply elem_of_app. right.
  by apply list_elem_of_here.
Qed.

Lemma repr_node_task k L l a t x1 x2 :
  repr k L -> l <> L_free -> nodes L l = x1 ++ (a, t) :: x2 -> is_task k t.
Proof.
  intros HR Hf Hl. apply (repr_task _ _ HR l); [done|]. rewrite Hl, tasks_mid.
  apply elem_of_app. right. by apply list_elem_of_here.
Qed.

Lemma suspend_from_ISR_run k L :
  repr k L ->
  match highest (cprio k) (regular k) (stk L) with
  | Some (a, t) => exists k' x1 x2,
      DPREM_suspend_highest_priority_active_task_from_ISR k = Some (true, k') /\
      stk L = x1 ++ (a, t) :: x2 /\
      repr k' (mkLists (rdy L) (free L) (x1 ++ x2) ((a, t) :: sus L)) /\ strip k' = strip k
  | None => DPREM_suspend_highest_priority_active_task_from_ISR k = Some (false, k)
  end.
Proof.
  intros HR. unfold DPREM_suspend_highest_priority_active_task_from_ISR.
  do 2 erewrite bind_run by done.
  erewrite bind_run by by apply (find_highest_list k L L_stk). cbn [nodes].
  change (task_ok k is_regular) with (regular k).
  destruct (highest (cprio k) (regular k) (stk L)) as [[a t]|] eqn:Hh; simpl addr_of.
  - destruct (highest_split k _ L L_stk a t Hh) as (x1 & x2 & Hl & _).
    destruct (list_remove_run k L L_stk a t x1 x2 HR Hl) as (k1 & H1 & HR1 & Hlo & Ha0 & (r & Ha) & He1).
    assert (is_task k1 t) as Ht.
    { apply (strip_is_task _ _ _ He1). by apply (repr_node_task k L L_stk a t x1 x2). }
    destruct (list_push_to_head_run k1 _ L_suspended a t r HR1 Hlo Ha0 Ha Ht) as (k2 & H2 & HR2 & He2).
    exists k2, x1, x2. rewrite decide_True by done. erewrite bind_run by exact H1.
    erewrite bind_run by exact H2. split_and!; [done|done|done|]. by rewrite He2, He1.
  - by rewrite decide_False by (intros H; by apply H).
Qed.

Fixpoint first_regular (k : kernel) (l : list (Z * Z)) : Z :=
  match l with
  | [] => NULL
  | (a, t) :: l' => if regular k t then a else first_regular k l'
  end.

Lemma first_regular_split k i y :
  (forall a t, (a, t) ∈ i -> regular k t = false) ->
  match y with [] => True | (_, t) :: _ => regular k t = true end ->
  first_regular k (i ++ y) = match y with [] => NULL | (a, _) :: _ => a end.
Proof.
  induction i as [|[a t] i IH]; intros Hi Hy; simpl.
  - destruct y as [|[b u] y]; simpl; [done|]. by rewrite Hy.
  - rewrite (Hi a t) by apply list_elem_of_here. apply IH; [|done].
    intros b u Hin. apply (Hi b u). apply elem_of_cons. by right.
Qed.

Lemma stk_split k L :
  repr k L -> exists i y, stk L = i ++ y /\
    (forall a t, (a, t) ∈ i -> regular k t = false) /\
    match y with [] => True | (_, t) :: _ => regular k t = true end /\
    find_first_regular (list_fuel k) (p_stk_sn (ccb k)) k =
      Some (match y with [] => NULL | (a, _) :: _ => a end, k).
Proof.
  intros HR. apply find_first_regular_run.
  - apply (repr_chain _ _ HR L_stk).
  - apply (repr_fuel _ _ L_stk HR).
  - by apply (repr_Forall_task _ _ L_stk HR).
Qed.

Lemma find_first_regular_list k L :
  repr k L ->
  find_first_regular (list_fuel k) (p_stk_sn (ccb k)) k = Some (first_regular k (stk L), k).
Proof.
  intros HR. destruct (stk_split k L HR) as (i & y & -> & Hi & Hy & Hrun).
  by rewrite first_regular_split.
Qed.

Lemma highest_ext prio f g l :
  (forall a t, (a, t) ∈ l -> f t = g t) -> highest prio f l = highest prio g l.
Proof.
  unfold highest. generalize (@None (Z * Z)).
  induction l as [|[a t] l IH]; intros best Hfg; simpl; [done|].
  rewrite (Hfg a t) by apply list_elem_of_here. apply IH.
  intros b u Hin. apply (Hfg b u). apply elem_of_cons. by right.
Qed.

(** The search among all tasks fails on the empty list only. *)
Lemma highest_all k l : highest (cprio k) (fun _ => true) l = None -> l = [].
Proof.
  intros H. pose proof (highest_spec (cprio k) (fun _ => true) l) as Hs. rewrite H in Hs.
  destruct l as [|[a t] l]; [done|]. by specialize (Hs a t (list_elem_of_here _ _)).
Qed.

(** Inserting a loose node where [DPREM_resume_..._from_ISR] does. *)
Lemma insert_resumed_run k L a t r :
  repr k L -> loose L a -> a <> NULL -> sn_mem k !! a = Some (mkSN r t) -> is_task k t ->
  let p := first_regular k (stk L) in
  exists k', (if decide (p = NULL) then list_push_to_tail L_stk a
              else list_insert_before L_stk a p) k = Some (tt, k') /\
    repr k' (set_nodes L_stk (resumed_stk k (a, t) (stk L)) L) /\ strip k' = strip k.
Proof.
  intros HR Hlo Ha0 Ha Ht p. destruct (stk_split k L HR) as (i & y & Hl & Hi & Hy & _).
  assert (match y with [] => NULL | (a, _) :: _ => a end = p) as Hp.
  { unfold p. by rewrite Hl, first_regular_split. }
  clearbody p. unfold list_push_to_tail.
  pose proof (repr_nodup _ _ HR L_stk) as Hnd. simpl in Hnd.
  pose proof (lseg_not_null _ _ _ _ (repr_chain _ _ HR L_stk)) as Hnn. simpl in Hnn.
  destruct i as [|[b u] i _] using rev_ind.
  - simpl in Hl. destruct y as [|[e v] y].
    + subst p. rewrite decide_True by done. rewrite Hl.
      destruct (list_insert_empty_run k L L_stk a t r NULL HR Hl Hlo Ha0 Ha Ht)
        as (k' & H1 & _ & H2 & H3). by exists k'.
    + subst p. rewrite Hl in *. rewrite decide_False by (intros ->; apply Hnn; by apply list_elem_of_here).
      simpl. rewrite Hy. destruct (exists_last (l := (e, v) :: y)) as (x & [b u] & Hx); [done|].
      destruct (list_insert_before_run k L L_stk x b u [] a t r e) as (k' & H1 & H2 & H3);
        try done; [by simpl; rewrite Hl, Hx| |].
      * rewrite <- Hx. simpl. by apply NoDup_cons in Hnd as [? _].
      * exists k'. split_and!; [done| |done]. rewrite app_comm_cons, Hx, <- app_assoc. exact H2.
  - assert (resumed_stk k (a, t) (stk L) = i ++ (b, u) :: (a, t) :: y) as ->.
    { assert (below_isrs k (a, t) (stk L) = i ++ (b, u) :: (a, t) :: y) as <-.
      { rewrite Hl, below_isrs_split by done. by rewrite <- app_assoc. }
      rewrite Hl. destruct i as [|[e v] i]; simpl.
      - by rewrite (Hi b u) by apply list_elem_of_here.
      - by rewrite (Hi e v) by apply list_elem_of_here. }
    rewrite <- app_assoc in Hl. simpl in Hl. rewrite Hl in *.
    assert (Htail : forall z, z ∈ addrs (tail (i ++ [(b, u)])) -> z ∈ addrs (i ++ [(b, u)])).
    { intros z Hz. destruct i; [by apply elem_of_nil in Hz|]. apply elem_of_cons. by right. }
    replace (i ++ (b, u) :: y) with ((i ++ [(b, u)]) ++ y) in Hnd, Hnn by (by rewrite <- app_assoc).
    rewrite addrs_app in Hnd, Hnn. apply not_elem_of_app in Hnn as [Hni Hny].
    apply NoDup_app in Hnd as (_ & Hdis & _).
    destruct (list_insert_before_run k L L_stk i b u y a t r p) as (k' & H1 & H2 & H3); try done.
    + subst p. by destruct y as [|[e v] y].
    + intros Hin%Htail. subst p. destruct y as [|[e v] y]; [done|].
      apply (Hdis e Hin). by apply list_elem_of_here.
    + exists k'. split_and!; [|done|done]. by destruct (decide (p = NULL)) as [->|].
Qed.

Lemma resumed_stk_ext k k' x l :
  tdb_mem k' = tdb_mem k -> resumed_stk k' x l = resumed_stk k x l.
Proof.
  intros Ht. assert (forall t, regular k' t = regular k t) as Hr.
  { intros t. unfold regular, task_ok. by rewrite Ht. }
  assert (below_isrs k' x l = below_isrs k x l) as Hb.
  { induction l as [|y l IH]; simpl; [done|]. by rewrite Hr, IH. }
  unfold resumed_stk. destruct l as [|y l]; [done|]. by rewrite Hr, Hb.
Qed.

Lemma first_regular_ext k k' l :
  tdb_mem k' = tdb_mem k -> first_regular k' l = first_regular k l.
Proof.
  intros Ht. induction l as [|[a t] l IH]; simpl; [done|].
  unfold regular, task_ok. by rewrite Ht, IH.
Qed.

Lemma resume_from_ISR_run k L :
  repr k L ->
  match highest (cprio k) (fun _ => true) (sus L) with
  | Some (a, t) => exists k' y1 y2,
      DPREM_resume_highest_priority_task_from_ISR k = Some (true, k') /\
      sus L = y1 ++ (a, t) :: y2 /\
      repr k' (mkLists (rdy L) (free L) (resumed_stk k (a, t) (stk L)) (y1 ++ y2)) /\
      strip k' = strip (tcb_upd t (set_current_prio MAX_TASK_PRIORITY) k)
  | None => sus L = [] /\ DPREM_resume_highest_priority_task_from_ISR k = Some (false, k)
  end.
Proof.
  intros HR. unfold DPREM_resume_highest_priority_task_from_ISR.
  do 2 erewrite bind_run by done.
  erewrite bind_run by by apply (find_highest_list k L L_suspended). cbn [nodes].
  erewrite bind_run by done. erewrite bind_run by by apply find_first_regular_list.
  pose proof (highest_all k (sus L)) as Hall.
  rewrite (highest_ext _ (task_ok k (fun _ => true)) (fun _ => true)).
  2: { intros a t Hin. unfold task_ok.
       pose proof (repr_task _ _ HR L_suspended t ltac:(done)
         ltac:(by apply (list_elem_of_fmap_2 snd) in Hin)) as Ht.
       by apply is_task_inv in Ht as (d & _ & -> & _). }
  destruct (highest (cprio k) (fun _ => true) (sus L)) as [[a t]|] eqn:Hh; simpl addr_of.
  - destruct (highest_split k _ L L_suspended a t Hh) as (y1 & y2 & Hl & _).
    pose proof (repr_node_not_null _ _ _ _ _ _ _ HR Hl) as Ha0.
    pose proof (repr_node_task k L L_suspended a t y1 y2 HR ltac:(done) Hl) as Ht.
    assert (exists r, sn_mem k !! a = Some (mkSN r t)) as [r Ha].
    { pose proof (repr_chain _ _ HR L_suspended) as Hc. rewrite Hl in Hc.
      apply lseg_app in Hc as (p & _ & _ & _ & r & Hr & _). by exists r. }
    rewrite decide_True by done. erewrite bind_run by by apply get_sn_run. cbn [sn_tdb].
    erewrite bind_run by by apply upd_tdb_tcb_run.
    set (k1 := tcb_upd t _ k).
    destruct (list_remove_run k1 L L_suspended a t y1 y2 (repr_tcb_upd _ _ _ _ HR) Hl)
      as (k2 & H2 & HR2 & Hlo & _ & (r' & Ha') & He2).
    erewrite bind_run by exact H2.
    assert (tdb_mem k2 = tdb_mem k) as Htdb.
    { rewrite (strip_tdb_mem _ _ He2). apply tcb_upd_tdb_mem. }
    destruct (insert_resumed_run k2 _ a t r' HR2 Hlo Ha0 Ha') as (k3 & H3 & HR3 & He3).
    { apply (strip_is_task _ _ _ He2). by apply tcb_upd_is_task. }
    rewrite (first_regular_ext k k2) in H3 by done. simpl in H3.
    erewrite bind_run by exact H3.
    exists k3, y1, y2. split_and!; [done|done| |].
    + simpl in HR3. by rewrite (resumed_stk_ext k k2) in HR3.
    + by rewrite He3, He2.
  - split; [by apply Hall|]. by rewrite decide_False by (intros H; by apply H).
Qed.

(** Behind the running task. *)
Definition behind_head (x : Z * Z) (l : list (Z * Z)) : list (Z * Z) :=
  match l with [] => [x] | y :: l' => y :: x :: l' end.

Lemma resume_run k L :
  repr k L ->
  match highest (cprio k) (fun _ => true) (sus L) with
  | Some (a, t) => exists k' y1 y2,
      DPREM_resume_highest_priority_task k = Some (true, k') /\
      sus L = y1 ++ (a, t) :: y2 /\
      repr k' (mkLists (rdy L) (free L) (behind_head (a, t) (stk L)) (y1 ++ y2)) /\
      strip k' = strip k
  | None => sus L = [] /\ DPREM_resume_highest_priority_task k = Some (false, k)
  end.
Proof.
  intros HR. unfold DPREM_resume_highest_priority_task.
  do 2 erewrite bind_run by done.
  erewrite bind_run by by apply (find_highest_list k L L_suspended). cbn [nodes].
  pose proof (highest_all k (sus L)) as Hall.
  rewrite (highest_ext _ (task_ok k (fun _ => true)) (fun _ => true)).
  2: { intros a t Hin. unfold task_ok.
       pose proof (repr_task _ _ HR L_suspended t ltac:(done)
         ltac:(by apply (list_elem_of_fmap_2 snd) in Hin)) as Ht.
       by apply is_task_inv in Ht as (d & _ & -> & _). }
  destruct (highest (cprio k) (fun _ => true) (sus L)) as [[a t]|] eqn:Hh; simpl addr_of.
  - destruct (highest_split k _ L L_suspended a t Hh) as (y1 & y2 & Hl & _).
    pose proof (repr_node_task k L L_suspended a t y1 y2 HR ltac:(done) Hl) as Ht.
    destruct (list_remove_run k L L_suspended a t y1 y2 HR Hl)
      as (k1 & H1 & HR1 & Hlo & Ha0 & (r & Ha) & He1).
    assert (is_task k1 t) as Ht1 by (by apply (strip_is_task _ _ _ He1)).
    rewrite decide_True by done. erewrite bind_run by exact H1. erewrite bind_run by done.
    assert (exists k2, list_insert_after L_stk a (head_of L_stk (ccb k1)) k1 = Some (tt, k2) /\
      repr k2 (mkLists (rdy L) (free L) (behind_head (a, t) (stk L)) (y1 ++ y2)) /\
      strip k2 = strip k1) as (k2 & H2 & HR2 & He2).
    { pose proof (repr_chain _ _ HR1 L_stk) as Hc. simpl in Hc.
      destruct (stk L) as [|[b u] y] eqn:Hs.
      - destruct (list_insert_empty_run k1 _ L_stk a t r (head_of L_stk (ccb k1)) HR1 Hs Hlo Ha0 Ha Ht1)
          as (k2 & _ & H2 & H3 & H4). by exists k2.
      - apply chain_cons_lookup in Hc as (Hp & _). simpl. rewrite Hp.
        destruct (list_insert_after_head_run k1 _ L_stk b u y a t r HR1 Hs Hlo Ha0 Ha Ht1)
          as (k2 & H2 & H3 & H4). by exists k2. }
    erewrite bind_run by exact H2.
    exists k2, y1, y2. split_and!; [done|done|done|]. by rewrite He2, He1.
  - split; [by apply Hall|]. by rewrite decide_False by (intros H; by apply H).
Qed.

(** Giving up the processor without the token: the task leaves the stack for
    the suspended list at its ready priority, and the scheduler continues with
    the rest. *)
Lemma suspend_running_run k L b u y d :
  sched_inv k L -> stk L = (b, u) :: y -> tdb_mem k !! u = Some d -> is_regular d = true ->
  exists k' L', DPREM_suspend_running_task k = Some (true, k') /\
    sched_inv k' L' /\ sus L' = (b, u) :: sus L /\ free L' = free L /\
    (stk L' ++ rdy L' ≡ₚ y ++ rdy L) /\ p_curr (ccb k') <> u /\
    cprio k' u = ready_prio d /\ rprio k' u = ready_prio d.
Proof.
  intros HI Hs Hd Hreg. pose proof (si_wf _ _ HI) as HW. pose proof HW as [Hk HR _ _ _ _ _].
  assert (p_curr (ccb k) = u) as Hcur by (rewrite (si_curr _ _ HI); unfold top; by rewrite Hs).
  pose proof (repr_chain _ _ HR L_stk) as Hc. simpl in Hc. rewrite Hs in Hc.
  apply chain_cons_lookup in Hc as (Hp & Hb0 & r & Hr & _).
  unfold DPREM_suspend_running_task. erewrite bind_run by done. rewrite Hp, Hcur.
  rewrite decide_True by done. erewrite bind_run by by apply get_sn_run. cbn [sn_tdb].
  erewrite bind_run by by apply get_tdb_run. rewrite Hreg.
  destruct (pop_running_inv k L b u y HW Hs)
    as (k1 & L1 & H1 & HI1 & Hlo & _ & (r1 & Hm) & Hu & Htcb & Htdb & Hid & Hf & Hsu & Hperm).
  erewrite bind_run by exact H1. erewrite bind_run by (apply get_tdb_run; by rewrite Htdb).
  assert (is_task k1 u) as Htu.
  { unfold is_task. rewrite Htcb. apply (repr_node_task k L L_stk b u [] y HR); done. }
  erewrite bind_run by (apply (upd_tcb_run k1 d u); [by rewrite Htdb|done]).
  set (k2 := tcb_upd u (set_p_own_sn b) k1).
  assert (sched_inv k2 L1) as HI2 by by apply sched_inv_tcb_upd_other, sched_tasks_other.
  assert (is_task k2 u) as Htu2 by by apply tcb_upd_is_task.
  destruct (list_push_to_head_run k2 L1 L_suspended b u r1) as (k3 & H3 & HR3 & He3); try done.
  { apply HI2. } { unfold k2. by rewrite tcb_upd_sn_mem. }
  erewrite bind_run by exact H3.
  assert (sched_inv k3 (set_nodes L_suspended ((b, u) :: sus L1) L1)) as HI3.
  { apply (sched_inv_sus k2); try done. unfold sched_tasks, k2. by rewrite tcb_upd_idle. }
  assert (u ∉ p_idle_task k3 :: tasks (stk L1 ++ rdy L1)) as Hu3.
  { rewrite (strip_idle _ _ He3). unfold k2. rewrite tcb_upd_idle. by apply sched_tasks_other. }
  assert (tdb_mem k3 !! u = Some d) as Hd3.
  { rewrite (strip_tdb_mem _ _ He3). unfold k2. by rewrite tcb_upd_tdb_mem, Htdb. }
  assert (is_task k3 u) as Htu3 by (by apply (strip_is_task _ _ _ He3)).
  erewrite bind_run by (by apply (upd_tcb_run k3 d u)). set (k4 := tcb_upd u _ k3).
  assert (sched_inv k4 (set_nodes L_suspended ((b, u) :: sus L1) L1)) as HI4
    by by apply sched_inv_tcb_upd_other.
  erewrite bind_run by (apply (upd_tcb_run k4 d u);
    [unfold k4; by rewrite tcb_upd_tdb_mem | by apply tcb_upd_is_task]).
  set (k5 := tcb_upd u _ k4).
  assert (sched_inv k5 (set_nodes L_suspended ((b, u) :: sus L1) L1)) as HI5.
  { apply sched_inv_tcb_upd_other; [done|]. unfold k4. by rewrite tcb_upd_idle. }
  assert (is_task k5 (p_curr (ccb k5))) as Htc.
  { rewrite (si_curr _ _ HI5). apply top_is_task; apply (si_wf _ _ HI5). }
  destruct (change_context_eq k5 u (p_curr (ccb k5)) Htc) as (k6 & H6 & He6 & _ & _).
  erewrite bind_run by done. erewrite bind_run by exact H6.
  exists k6, (set_nodes L_suspended ((b, u) :: sus L1) L1).
  split_and!; [done|by apply (sched_eq_inv k5)|by rewrite <- Hsu|done|done| | |].
  - rewrite (se_curr _ _ He6), (si_curr _ _ HI5). intros Htop. apply Hu3.
    rewrite <- Htop. unfold top. unfold k5, k4. rewrite !tcb_upd_idle. simpl.
    destruct (stk L1) as [|[e v] z]; [by apply list_elem_of_here|].
    apply elem_of_cons. right. by apply list_elem_of_here.
  - rewrite (se_cprio _ _ He6). unfold cprio. assert (is_task k4 u) as [c4 Hc4].
    { by apply tcb_upd_is_task. }
    unfold k5. by rewrite (tcb_upd_same u _ k4 c4 Hc4).
  - unfold rprio. rewrite (se_tdb _ _ He6). unfold k5, k4.
    by rewrite !tcb_upd_tdb_mem, Hd3.
Qed.

(** ** The interrupt handlers *)
Definition set_arbit (st : OsEE_mem_arbit_status) (k : kernel) : kernel :=
  set_ccb (set_mem_arbit_status st (ccb k)) k.

Lemma repr_set_arbit st k L : repr k L -> repr (set_arbit st k) L.
Proof. apply repr_same; [done|by intros []|done]. Qed.

Lemma repr_printk e k L : repr k L -> repr (set_trace (trace k ++ [e]) k) L.
Proof. by apply repr_same. Qed.

Lemma strip_arbit k k' : strip k' = strip k -> mem_arbit_status (ccb k') = mem_arbit_status (ccb k).
Proof. intros H. by apply (f_equal (fun k => mem_arbit_status (ccb k))) in H. Qed.

Lemma ended_run k L :
  repr k L -> mem_arbit_status (ccb k) = MEMORY_TOKEN_ACQUIRED ->
  match highest (cprio k) (regular k) (stk L) with
  | Some (a, t) => exists k' x1 x2, memory_phase_ended_ISR k = Some (tt, k') /\
      stk L = x1 ++ (a, t) :: x2 /\
      repr k' (mkLists (rdy L) (free L) (x1 ++ x2) ((a, t) :: sus L)) /\
      strip k' = strip (set_arbit MEMORY_TOKEN_REQUESTED k)
  | None => exists k', memory_phase_ended_ISR k = Some (tt, k') /\ repr k' L /\
      mem_arbit_status (ccb k') = MEMORY_TOKEN_REQUESTED
  end.
Proof.
  intros HR Hst. unfold memory_phase_ended_ISR.
  pose proof (suspend_from_ISR_run _ _ (repr_set_arbit MEMORY_TOKEN_REQUESTED k L HR)) as Hrun.
  change (cprio (set_arbit _ k)) with (cprio k) in Hrun.
  change (regular (set_arbit _ k)) with (regular k) in Hrun.
  destruct (highest (cprio k) (regular k) (stk L)) as [[a t]|].
  - destruct Hrun as (k' & x1 & x2 & H1 & H2 & H3 & H4). exists k', x1, x2.
    split_and!; [|done..]. erewrite bind_run by done. rewrite decide_True by done.
    erewrite bind_run by done. by erewrite bind_run by exact H1.
  - eexists. split_and!.
    + erewrite bind_run by done. rewrite decide_True by done.
      erewrite bind_run by done. by erewrite bind_run by exact Hrun.
    + by apply repr_printk, repr_set_arbit.
    + done.
Qed.

Lemma started_run k L :
  repr k L -> mem_arbit_status (ccb k) = MEMORY_TOKEN_REQUESTED ->
  match highest (cprio k) (fun _ => true) (sus L) with
  | Some (a, t) => exists k' y1 y2, memory_phase_started_ISR k = Some (tt, k') /\
      sus L = y1 ++ (a, t) :: y2 /\
      repr k' (mkLists (rdy L) (free L) (resumed_stk k (a, t) (stk L)) (y1 ++ y2)) /\
      strip k' = strip (tcb_upd t (set_current_prio MAX_TASK_PRIORITY)
                         (set_arbit MEMORY_TOKEN_ACQUIRED k))
  | None => sus L = []
  end.
Proof.
  intros HR Hst. unfold memory_phase_started_ISR.
  pose proof (resume_from_ISR_run _ _ (repr_set_arbit MEMORY_TOKEN_ACQUIRED k L HR)) as Hrun.
  change (cprio (set_arbit _ k)) with (cprio k) in Hrun.
  destruct (highest (cprio k) (fun _ => true) (sus L)) as [[a t]|]; [|by destruct Hrun].
  destruct Hrun as (k' & y1 & y2 & H1 & H2 & H3 & H4). exists k', y1, y2.
  rewrite (resumed_stk_ext k (set_arbit _ k)) in H3 by done.
  split_and!; [|done..]. erewrite bind_run by done. rewrite decide_True by done.
  erewrite bind_run by done. by erewrite bind_run by exact H1.
Qed.

(** C7: The interrupt that ends the memory phase of a core that holds the
    token terminates, marks the token as requested again, and moves exactly
    the first regular task of highest priority from the stack to the head of
    the suspended list, leaving the order of all others; without a regular
    task on the stack no list changes. *)
Theorem memory_phase_ended_correct k L :
  repr k L -> mem_arbit_status (ccb k) = MEMORY_TOKEN_ACQUIRED ->
  exists k' best, memory_phase_ended_ISR k = Some (tt, k') /\
    mem_arbit_status (ccb k') = MEMORY_TOKEN_REQUESTED /\
    is_highest (cprio k) (regular k) (stk L) best /\
    match best with
    | Some (a, t) => exists x1 x2, stk L = x1 ++ (a, t) :: x2 /\
        repr k' (mkLists (rdy L) (free L) (x1 ++ x2) ((a, t) :: sus L)) /\
        (forall u, cprio k' u = cprio k u)
    | None => repr k' L
    end.
Proof.
  intros HR Hst. pose proof (ended_run k L HR Hst) as Hrun.
  pose proof (highest_spec (cprio k) (regular k) (stk L)) as Hsp.
  destruct (highest (cprio k) (regular k) (stk L)) as [[a t]|].
  - destruct Hrun as (k' & x1 & x2 & H1 & H2 & H3 & H4).
    exists k', (Some (a, t)). split_and!; [done|by rewrite (strip_arbit _ _ H4)|done|].
    exists x1, x2. split_and!; [done|done|]. intros u. by rewrite (strip_cprio _ _ _ H4).
  - destruct Hrun as (k' & H1 & H2 & H3). by exists k', None.
Qed.

(** C8: The interrupt that starts the memory phase of a waiting core
    terminates, marks the token as acquired, and takes the first task of
    highest priority off the suspended list, at the ceiling priority of tasks;
    with an interrupt handler on top of the stack the task is placed directly
    below the handlers and above every regular task. *)
Theorem memory_phase_started_correct k L b v z :
  kwf k -> repr k L -> mem_arbit_status (ccb k) = MEMORY_TOKEN_REQUESTED ->
  stk L = (b, v) :: z -> regular k v = false -> sus L <> [] ->
  exists k' a t y1 y2, memory_phase_started_ISR k = Some (tt, k') /\
    mem_arbit_status (ccb k') = MEMORY_TOKEN_ACQUIRED /\
    is_highest (cprio k) (fun _ => true) (sus L) (Some (a, t)) /\
    sus L = y1 ++ (a, t) :: y2 /\
    repr k' (mkLists (rdy L) (free L) (below_isrs k (a, t) (stk L)) (y1 ++ y2)) /\
    cprio k' t = MAX_TASK_PRIORITY /\ (forall u, u <> t -> cprio k' u = cprio k u).
Proof.
  intros Hk HR Hst Hs Hv Hne. pose proof (started_run k L HR Hst) as Hrun.
  pose proof (highest_spec (cprio k) (fun _ => true) (sus L)) as Hsp.
  destruct (highest (cprio k) (fun _ => true) (sus L)) as [[a t]|]; [|done].
  destruct Hrun as (k' & y1 & y2 & H1 & H2 & H3 & H4).
  pose proof (repr_node_task k L L_suspended a t y1 y2 HR ltac:(done) H2) as [c Hc].
  exists k', a, t, y1, y2. split_and!; try done.
  - rewrite (strip_arbit _ _ H4). by rewrite tcb_upd_ccb.
  - assert (resumed_stk k (a, t) (stk L) = below_isrs k (a, t) (stk L)) as <-; [|done].
    unfold resumed_stk. rewrite Hs. simpl. by rewrite Hv.
  - rewrite (strip_cprio _ _ _ H4). unfold cprio.
    by rewrite (tcb_upd_same t _ (set_arbit MEMORY_TOKEN_ACQUIRED k) c Hc).
  - intros u Hu. rewrite (strip_cprio _ _ _ H4). unfold cprio.
    rewrite tcb_upd_other; [done|apply Hk|done].
Qed.

(** An accepted element that no other one exceeds, with nothing accepted in
    front of it, is the one found. *)
Lemma highest_head prio ok i a t y :
  (forall e u, (e, u) ∈ i -> ok u = false) -> ok t = true ->
  (forall e u, (e, u) ∈ y -> ok u = true -> prio u <= prio t) ->
  highest prio ok (i ++ (a, t) :: y) = Some (a, t).
Proof.
  intros Hi Ht Hy. unfold highest.
  assert (Hskip : forall l best, highest_from prio ok best (i ++ l) = highest_from prio ok best l).
  { intros l. induction i as [|[e u] i IH]; intros best; simpl; [done|].
    rewrite (Hi e u) by apply list_elem_of_here. simpl. apply IH.
    intros e' u' Hin. apply (Hi e' u'). apply elem_of_cons. by right. }
  rewrite Hskip. simpl. rewrite Ht. simpl. clear Hskip Hi.
  induction y as [|[e u] y IH]; simpl; [done|].
  assert (ok u && bool_decide (prio t < prio u) = false) as ->.
  { destruct (ok u) eqn:Hu; [|done]. simpl. apply bool_decide_eq_false.
    specialize (Hy e u (list_elem_of_here _ _) Hu). lia. }
  apply IH. intros e' u' Hin. apply (Hy e' u'). apply elem_of_cons. by right.
Qed.

(** Losing the token and getting it back is neutral: when the task of the
    memory phase runs below the interrupt handlers at the ceiling priority,
    the two interrupts in sequence restore the stack, the suspended list and
    all priorities. *)
Theorem ended_started_roundtrip k L b v i a t y :
  repr k L -> mem_arbit_status (ccb k) = MEMORY_TOKEN_ACQUIRED ->
  stk L = ((b, v) :: i) ++ (a, t) :: y ->
  (forall e u, (e, u) ∈ (b, v) :: i -> regular k u = false) ->
  regular k t = true -> cprio k t = MAX_TASK_PRIORITY ->
  (forall e u, (e, u) ∈ y -> regular k u = true) ->
  (forall e u, (e, u) ∈ y ++ sus L -> cprio k u <= MAX_TASK_PRIORITY) ->
  exists k1 k2, memory_phase_ended_ISR k = Some (tt, k1) /\
    memory_phase_started_ISR k1 = Some (tt, k2) /\ repr k2 L /\ strip k2 = strip k.
Proof.
  intros HR Hst Hs Hi Ht Hp Hy Hle.
  assert (Hley : forall e u, (e, u) ∈ y -> cprio k u <= cprio k t).
  { intros e u Hin. rewrite Hp. apply (Hle e). apply elem_of_app. by left. }
  assert (Hles : forall e u, (e, u) ∈ sus L -> cprio k u <= cprio k t).
  { intros e u Hin. rewrite Hp. apply (Hle e). apply elem_of_app. by right. }
  pose proof (repr_nodup _ _ HR L_stk) as Hnd. simpl in Hnd.
  pose proof (ended_run k L HR Hst) as Hrun.
  rewrite Hs in Hnd, Hrun. rewrite highest_head in Hrun by (done || (intros; by eapply Hley)).
  destruct Hrun as (k1 & x1 & x2 & H1 & Hx & HR1 & He1). exists k1.
  destruct (app_mid_inj _ _ _ _ _ (NoDup_fmap_1 _ _ Hnd) Hx) as [<- <-].
  assert (Hcp : forall u, cprio k1 u = cprio k u) by (intros u; by rewrite (strip_cprio _ _ _ He1)).
  assert (Hst1 : mem_arbit_status (ccb k1) = MEMORY_TOKEN_REQUESTED) by (by rewrite (strip_arbit _ _ He1)).
  pose proof (repr_nodup _ _ HR1 L_suspended) as Hnd1. cbn [nodes sus] in Hnd1.
  pose proof (started_run k1 _ HR1 Hst1) as Hrun. cbn [sus stk rdy free] in Hrun.
  change ((a, t) :: sus L) with ([] ++ (a, t) :: sus L) in Hrun.
  rewrite highest_head in Hrun.
  2: { intros e u Hin. by apply elem_of_nil in Hin. } 2: done.
  2: { intros e u Hin _. rewrite !Hcp. by apply (Hles e). }
  destruct Hrun as (k2 & y1 & y2 & H2 & Hy12 & HR2 & He2).
  destruct (app_mid_inj (a, t) [] (sus L) y1 y2 (NoDup_fmap_1 _ _ Hnd1) Hy12) as [<- <-].
  exists k2. split_and!; [done|done| |].
  - assert (resumed_stk k1 (a, t) (((b, v) :: i) ++ y) = stk L) as Hres.
    { rewrite (resumed_stk_ext k) by (by rewrite (strip_tdb_mem _ _ He1)).
      simpl. rewrite (Hi b v) by apply list_elem_of_here.
      change ((b, v) :: below_isrs k (a, t) (i ++ y) = stk L). rewrite Hs, below_isrs_split; [done|..].
      - intros e u Hin. apply (Hi e u). apply elem_of_cons. by right.
      - destruct y as [|[e u] y]; [done|]. apply (Hy e u). apply list_elem_of_here. }
    rewrite Hres in HR2. by destruct L.
  - rewrite He2. rewrite (strip_tcb_upd (set_arbit MEMORY_TOKEN_ACQUIRED k)).
    + assert (is_task k t) as [c Hc].
      { apply (repr_node_task k L L_stk a t _ _ HR ltac:(done) Hs). }
      rewrite (tcb_upd_id t _ _ c); [|done|].
      * unfold strip, set_arbit. rewrite <- Hst. by destruct k as [? ? ? []].
      * unfold cprio in Hp. rewrite Hc in Hp. rewrite <- Hp. by destruct c.
    + exact (f_equal (set_arbit MEMORY_TOKEN_ACQUIRED) He1).
Qed.

(** ** The API *)
Section ApiSpec.
Context {W : Type} (hvc : Z -> Z -> Z -> ST W Z).
Implicit Types (s : @dstate W).

Lemma on_kernel_run {A} (m : ST kernel A) s x k :
  m (dk s) = Some (x, k) -> on_kernel m s = Some (x, mkD k (irq_masked s) (hv s)).
Proof. intros H. unfold on_kernel. by rewrite H. Qed.

Lemma on_hv_run {A} (m : ST W A) s x w :
  m (hv s) = Some (x, w) -> on_hv m s = Some (x, mkD (dk s) (irq_masked s) w).
Proof. intros H. unfold on_hv. by rewrite H. Qed.

Lemma loop_acquired fuel s :
  mem_arbit_status (ccb (dk s)) = MEMORY_TOKEN_ACQUIRED ->
  begin_memory_phase_loop hvc fuel s = Some (true, s).
Proof.
  intros H. destruct s as [k m w]; simpl in H.
  destruct fuel; simpl; (erewrite bind_run by done); by rewrite decide_True.
Qed.

Lemma loop_ack fuel s w :
  mem_arbit_status (ccb (dk s)) = MEMORY_TOKEN_NONE ->
  hvc JAILHOUSE_HC_MEMORY_ARBITRATION BEGIN_MEM_PHASE 0 (hv s) = Some (ARBITRATION_ACK, w) ->
  begin_memory_phase_loop hvc (S fuel) s =
    Some (true, mkD (set_arbit MEMORY_TOKEN_ACQUIRED (dk s)) (irq_masked s) w).
Proof.
  intros Hst Hh. destruct s as [k m w0]; simpl in Hst, Hh.
  cbn [begin_memory_phase_loop dk hv irq_masked]. erewrite bind_run by done.
  cbn [dk hv irq_masked].
  rewrite Hst. rewrite !decide_False, decide_True by done.
  erewrite bind_run by by apply on_hv_run. rewrite decide_True by done.
  erewrite bind_run by done. simpl. by apply loop_acquired.
Qed.

Lemma loop_nack fuel s w :
  mem_arbit_status (ccb (dk s)) = MEMORY_TOKEN_NONE ->
  hvc JAILHOUSE_HC_MEMORY_ARBITRATION BEGIN_MEM_PHASE 0 (hv s) = Some (ARBITRATION_NACK, w) ->
  begin_memory_phase_loop hvc (S fuel) s =
    begin_memory_phase_loop hvc fuel
      (mkD (set_arbit MEMORY_TOKEN_REQUESTED (dk s)) (irq_masked s) w).
Proof.
  intros Hst Hh. destruct s as [k m w0]; simpl in Hst, Hh.
  cbn [begin_memory_phase_loop dk hv irq_masked]. erewrite bind_run by done.
  cbn [dk hv irq_masked].
  rewrite Hst. rewrite !decide_False, decide_True by done.
  erewrite bind_run by by apply on_hv_run. rewrite decide_False, decide_True by done.
  by erewrite bind_run by done.
Qed.

Lemma loop_suspend fuel s k' :
  mem_arbit_status (ccb (dk s)) = MEMORY_TOKEN_REQUESTED ->
  DPREM_suspend_running_task (dk s) = Some (true, k') ->
  begin_memory_phase_loop hvc (S fuel) s = Some (false, mkD k' (irq_masked s) (hv s)).
Proof.
  intros Hst Hs. destruct s as [k m w0]; simpl in Hst, Hs.
  cbn [begin_memory_phase_loop dk hv irq_masked]. erewrite bind_run by done.
  cbn [dk hv irq_masked]. rewrite Hst, decide_False by done.
  rewrite decide_False by (intros H; by apply H).
  by erewrite bind_run by by apply on_kernel_run.
Qed.

Lemma sched_inv_set_arbit st k L : sched_inv k L -> sched_inv (set_arbit st k) L.
Proof. apply sched_eq_inv. by split. Qed.

(** C4: A task without the token that begins its memory phase makes one
    hypercall and the call terminates. On acknowledgement it continues at the
    ceiling priority with the token acquired and the interrupt state restored.
    On refusal it is at the head of the suspended list at its ready priority
    and the scheduler has switched to the task of highest priority of the
    rest. *)
Theorem begin_memory_phase_correct s L b u y d w res ticks fuel :
  sched_inv (dk s) L -> stk L = (b, u) :: y ->
  tdb_mem (dk s) !! u = Some d -> is_regular d = true ->
  mem_arbit_status (ccb (dk s)) = MEMORY_TOKEN_NONE ->
  hvc JAILHOUSE_HC_MEMORY_ARBITRATION BEGIN_MEM_PHASE 0 (hv s) = Some (res, w) ->
  res = ARBITRATION_ACK \/ res = ARBITRATION_NACK ->
  exists s' L', DPREM_begin_memory_phase hvc (S (S fuel)) ticks s =
      Some ((if decide (res = ARBITRATION_ACK) then Some ticks else None, irq_masked s), s') /\
    hv s' = w /\ repr (dk s') L' /\
    if decide (res = ARBITRATION_ACK) then
      mem_arbit_status (ccb (dk s')) = MEMORY_TOKEN_ACQUIRED /\ L' = L /\
      irq_masked s' = irq_masked s /\ p_curr (ccb (dk s')) = u /\
      cprio (dk s') u = MAX_TASK_PRIORITY /\
      (forall v, v <> u -> cprio (dk s') v = cprio (dk s) v)
    else
      sched_inv (dk s') L' /\ runs_highest (dk s') L' /\
      sus L' = (b, u) :: sus L /\ (stk L' ++ rdy L' ≡ₚ y ++ rdy L) /\
      p_curr (ccb (dk s')) <> u /\ cprio (dk s') u = ready_prio d.
Proof.
  intros HI Hs Hd Hreg Hst Hh Hres. destruct s as [k m w0]; cbn [dk hv irq_masked] in *.
  pose proof (si_wf _ _ HI) as HW.
  assert (p_curr (ccb k) = u) as Hcur by (rewrite (si_curr _ _ HI); unfold top; by rewrite Hs).
  assert (is_task k u) as Htu.
  { apply (repr_node_task k L L_stk b u [] y (sw_repr _ _ HW)); done. }
  unfold DPREM_begin_memory_phase. do 2 erewrite bind_run by done. cbn [dk hv irq_masked].
  rewrite Hst. rewrite (decide_False (P := MEMORY_TOKEN_NONE = MEMORY_TOKEN_ACQUIRED)) by done.
  erewrite bind_run by done.
  destruct Hres as [-> | ->].
  - destruct (decide (ARBITRATION_ACK = ARBITRATION_ACK)) as [_|?]; [|done].
    erewrite bind_run by by apply (loop_ack _ (mkD k true w0)). cbn [dk hv irq_masked].
    erewrite bind_run.
    2: { unfold begin_memory_phase_finish. erewrite bind_run by done. simpl. rewrite Hcur.
         erewrite bind_run by (apply on_kernel_run; simpl; by apply upd_tdb_tcb_run). done. }
    cbn [irq_masked]. replace (if m then true else false) with m by by destruct m.
    eexists _, L. split_and!; [done|done| | |done|done| | |]; simpl.
    + apply repr_tcb_upd. apply repr_set_arbit. apply HW.
    + by rewrite tcb_upd_ccb.
    + by rewrite tcb_upd_ccb.
    + destruct Htu as [c Hc]. unfold cprio.
      by rewrite (tcb_upd_same u _ (set_arbit MEMORY_TOKEN_ACQUIRED k) c Hc).
    + intros v Hv. unfold cprio. rewrite tcb_upd_other; [done|apply HW|done].
  - destruct (decide (ARBITRATION_NACK = ARBITRATION_ACK)) as [?|_]; [done|].
    destruct (suspend_running_run (set_arbit MEMORY_TOKEN_REQUESTED k) L b u y d)
      as (k' & L' & H1 & HI' & H2 & H3 & H4 & H5 & H6 & _); try done.
    { by apply sched_inv_set_arbit. }
    erewrite bind_run.
    2: { rewrite (loop_nack _ (mkD k true w0) w) by done. by apply loop_suspend. }
    eexists _, L'. split_and!; [done|done|apply HI'|done| |done..].
    by apply sched_inv_highest.
Qed.

(** Beginning a memory phase from an interrupt handler or the idle task
    never returns when the token is refused: every iteration of the loop
    ignores the suspension and starts over, whatever the number of
    iterations, with interrupts masked. *)
Theorem begin_in_isr_never_returns fuel : forall s L,
  repr (dk s) L -> mem_arbit_status (ccb (dk s)) = MEMORY_TOKEN_REQUESTED ->
  match stk L with [] => True | (_, v) :: _ => regular (dk s) v = false end ->
  begin_memory_phase_loop hvc fuel s = None.
Proof.
  induction fuel as [|fuel IH]; intros s L HR Hst Htop; destruct s as [k m w];
    cbn [dk hv irq_masked] in *; cbn [begin_memory_phase_loop];
    (erewrite bind_run by done); cbn [dk]; rewrite Hst; rewrite decide_False by done; [done|].
  rewrite decide_False by (intros H; by apply H).
  assert (exists e, DPREM_suspend_running_task k = Some (false, set_trace (trace k ++ [e]) k)) as [e He].
  { unfold DPREM_suspend_running_task. pose proof (repr_chain _ _ HR L_stk) as Hc. simpl in Hc.
    erewrite bind_run by done. destruct (stk L) as [|[b v] y] eqn:Hs.
    - apply chain_nil_null in Hc as ->. rewrite decide_False by (intros H; by apply H).
      eexists. by erewrite bind_run by done.
    - apply chain_cons_lookup in Hc as (-> & Hb0 & r & Hr & _). rewrite decide_True by done.
      assert (is_task k v) as (d & c & Hd & _)%is_task_inv.
      { by apply (repr_node_task k L L_stk b v [] y HR). }
      erewrite bind_run by by apply get_sn_run. cbn [sn_tdb].
      erewrite bind_run by by apply get_tdb_run.
      unfold regular, task_ok in Htop. rewrite Hd in Htop. rewrite Htop.
      eexists. by erewrite bind_run by done. }
  erewrite bind_run by by apply on_kernel_run. cbn [dk hv irq_masked].
  apply (IH _ L); cbn [dk]; [by apply repr_printk|done|]. by destruct (stk L) as [|[b v] y].
Qed.

Lemma end_execution_run s L u d flags :
  repr (dk s) L -> p_curr (ccb (dk s)) = u -> tdb_mem (dk s) !! u = Some d -> is_task (dk s) u ->
  let k1 := tcb_upd u (set_current_prio (dispatch_prio d)) (dk s) in
  match highest (cprio k1) (fun _ => true) (sus L) with
  | Some (a, t) => exists s' y1 y2, DPREM_end_execution_phase flags s = Some (tt, s') /\
      irq_masked s' = (if flags then irq_masked s else false) /\ hv s' = hv s /\ sus L = y1 ++ (a, t) :: y2 /\
      repr (dk s') (mkLists (rdy L) (free L) (behind_head (a, t) (stk L)) (y1 ++ y2)) /\
      strip (dk s') = strip k1
  | None => sus L = [] /\ DPREM_end_execution_phase flags s = 
      Some (tt, mkD k1 (if flags then irq_masked s else false) (hv s))
  end.
Proof.
  intros HR Hc Hd Ht k1. destruct s as [k m w]; cbn [dk hv irq_masked] in *.
  pose proof (repr_tcb_upd u (set_current_prio (dispatch_prio d)) _ _ HR) as HR1.
  assert (Hpre : forall f : bool -> ST (@dstate W) unit,
    (c ← on_kernel get_ccb; d ← on_kernel (get_tdb (p_curr c));
     _ ← on_kernel (upd_tcb (p_tcb d) (set_current_prio (dispatch_prio d)));
     empty ← on_kernel (list_is_empty L_suspended); f empty) (mkD k m w) =
    f (bool_decide (p_suspended_sn (ccb k) = NULL)) (mkD k1 m w)).
  { intros f. erewrite bind_run by done. cbn [dk]. rewrite Hc.
    erewrite bind_run by (apply on_kernel_run; cbn [dk]; by apply get_tdb_run). cbn [dk hv irq_masked].
    erewrite bind_run by (apply on_kernel_run; cbn [dk]; by apply (upd_tcb_run k d u)).
    cbn [dk hv irq_masked]. fold k1. erewrite bind_run by done.
    assert (ccb k1 = ccb k) as <- by apply tcb_upd_ccb. done. }
  unfold DPREM_end_execution_phase. pose proof (resume_run k1 L HR1) as Hrun.
  pose proof (repr_chain _ _ HR L_suspended) as Hsus. simpl in Hsus.
  destruct (highest (cprio k1) (fun _ => true) (sus L)) as [[a t]|].
  - destruct Hrun as (k' & y1 & y2 & H1 & H2 & H3 & H4).
    assert (p_suspended_sn (ccb k) <> NULL) as Hne.
    { intros Hn. rewrite Hn in Hsus. apply chain_null_nil in Hsus. rewrite Hsus in H2.
      by destruct y1. }
    exists (mkD k' (if flags then m else false) w), y1, y2. split_and!; try done.
    rewrite Hpre, bool_decide_false by done.
    erewrite bind_run by (erewrite bind_run by (apply on_kernel_run; exact H1); done). done.
  - destruct Hrun as [Hnil _]. split; [done|]. rewrite Hnil in Hsus.
    apply chain_nil_null in Hsus. rewrite Hpre, bool_decide_true by done.
    by erewrite bind_run by done.
Qed.

(** The end of the memory phase releases the token and leaves interrupts
    masked for the execution phase; the end of the execution phase restores
    them and the dispatch priority of the task, and puts the waiting task of
    highest priority, if any, directly behind the running one. *)
Theorem end_phases_correct s L u d w :
  repr (dk s) L -> p_curr (ccb (dk s)) = u -> tdb_mem (dk s) !! u = Some d -> is_task (dk s) u ->
  hvc JAILHOUSE_HC_MEMORY_ARBITRATION END_MEM_PHASE 0 (hv s) = Some (ARBITRATION_ACK, w) ->
  exists s1 s2 L2, DPREM_end_memory_phase hvc s = Some (irq_masked s, s1) /\
    irq_masked s1 = true /\ hv s1 = w /\ mem_arbit_status (ccb (dk s1)) = MEMORY_TOKEN_NONE /\
    repr (dk s1) L /\
    DPREM_end_execution_phase (irq_masked s) s1 = Some (tt, s2) /\
    irq_masked s2 = irq_masked s /\ hv s2 = w /\
    mem_arbit_status (ccb (dk s2)) = MEMORY_TOKEN_NONE /\
    cprio (dk s2) u = dispatch_prio d /\ repr (dk s2) L2 /\
    (sus L = [] /\ L2 = L \/
     exists a t y1 y2, is_highest (cprio (dk s2)) (fun _ => true) (sus L) (Some (a, t)) /\
       sus L = y1 ++ (a, t) :: y2 /\
       L2 = mkLists (rdy L) (free L) (behind_head (a, t) (stk L)) (y1 ++ y2)).
Proof.
  intros HR Hc Hd Ht Hh.
  set (s1 := mkD (set_arbit MEMORY_TOKEN_NONE (dk s)) true w).
  assert (DPREM_end_memory_phase hvc s = Some (irq_masked s, s1)) as Hend.
  { unfold DPREM_end_memory_phase. erewrite bind_run by done.
    erewrite bind_run by by apply on_hv_run. rewrite decide_True by done.
    by erewrite bind_run by done. }
  pose proof (end_execution_run s1 L u d (irq_masked s)
    (repr_set_arbit MEMORY_TOKEN_NONE _ _ HR) Hc Hd Ht) as Hrun. cbv zeta in Hrun.
  set (k1 := tcb_upd u _ (dk s1)) in Hrun.
  change (irq_masked s1) with true in Hrun.
  replace (if irq_masked s then true else false) with (irq_masked s) in Hrun
    by by destruct (irq_masked s).
  assert (cprio k1 u = dispatch_prio d) as Hcp.
  { destruct Ht as [c Htc]. unfold cprio, k1.
    by rewrite (tcb_upd_same u _ (set_arbit MEMORY_TOKEN_NONE (dk s)) c Htc). }
  assert (mem_arbit_status (ccb k1) = MEMORY_TOKEN_NONE) as Hst by (unfold k1; by rewrite tcb_upd_ccb).
  pose proof (highest_spec (cprio k1) (fun _ => true) (sus L)) as Hsp.
  destruct (highest (cprio k1) (fun _ => true) (sus L)) as [[a t]|].
  - destruct Hrun as (s2 & y1 & y2 & H1 & H2 & H3 & H4 & H5 & H6).
    eexists s1, s2, _. split_and!; [done..|by apply repr_set_arbit|done|done|done| | |exact H5|].
    + by rewrite (strip_arbit _ _ H6).
    + by rewrite (strip_cprio _ _ _ H6).
    + right. exists a, t, y1, y2. split_and!; [|done|done].
      destruct Hsp as (x1 & x2 & ? & ? & Hx1 & Hx2). exists x1, x2. split_and!; [done|done|..];
        intros e v; rewrite !(strip_cprio _ _ _ H6); eauto.
  - destruct Hrun as [Hnil H1]. eexists s1, _, L.
    split_and!; [done..|by apply repr_set_arbit|exact H1|done|done|done|done| |by left].
    by apply repr_tcb_upd, repr_set_arbit.
Qed.

(** The end of an execution phase can invert priorities: a waiting task
    of lower priority than the preempted task below the running one is put
    above it, and runs first when the running task gives up the processor. *)
Theorem end_execution_inversion s L b u d e v y a t z flags :
  kwf (dk s) -> repr (dk s) L -> p_curr (ccb (dk s)) = u -> tdb_mem (dk s) !! u = Some d ->
  stk L = (b, u) :: (e, v) :: y -> sus L = (a, t) :: z -> rdy L = [] -> t <> u -> v <> u ->
  (forall a' t', (a', t') ∈ z -> t' <> u /\ cprio (dk s) t' <= cprio (dk s) t) ->
  cprio (dk s) t < cprio (dk s) v ->
  exists s' L', DPREM_end_execution_phase flags s = Some (tt, s') /\
    repr (dk s') L' /\ stk L' = (b, u) :: (a, t) :: (e, v) :: y /\
    cprio (dk s') t < cprio (dk s') v /\
    exists k'', osEE_scheduler_core_pop_running L_rq (dk s') = Some (b, k'') /\
      p_curr (ccb k'') = t.
Proof.
  intros Hk HR Hc Hd Hs Hsus Hr Htu Hvu Hz Hlt.
  assert (is_task (dk s) u) as Ht by (by apply (repr_node_task (dk s) L L_stk b u [] ((e, v) :: y) HR)).
  pose proof (end_execution_run s L u d flags HR Hc Hd Ht) as Hrun. cbv zeta in Hrun.
  set (k1 := tcb_upd u _ (dk s)) in Hrun.
  assert (Hcp : forall x, x <> u -> cprio k1 x = cprio (dk s) x).
  { intros x Hx. unfold cprio, k1. rewrite tcb_upd_other; [done|apply Hk|done]. }
  rewrite Hsus in Hrun. change ((a, t) :: z) with ([] ++ (a, t) :: z) in Hrun.
  rewrite highest_head in Hrun; [|by intros ? ? ?%elem_of_nil|done|].
  2: { intros a' t' Hin _. destruct (Hz a' t' Hin). rewrite !Hcp by done. done. }
  destruct Hrun as (s' & y1 & y2 & H1 & H2 & _ & H4 & H5 & H6). rewrite Hs in H5.
  assert (kwf (dk s')) as Hk' by (apply (kwf_strip k1); [done|by apply kwf_tcb_upd]).
  eexists s', _. split_and!; [done|exact H5|done|by rewrite !(strip_cprio _ _ _ H6), !Hcp|].
  destruct (osEE_scheduler_core_pop_running_run (dk s') _ b u ((a, t) :: (e, v) :: y) Hk' H5 eq_refl)
    as (k'' & L'' & H7 & _ & _ & _ & _ & H8).
  exists k''. split; [done|]. unfold preempts in H8. simpl in H8. rewrite Hr in H8.
  destruct H8 as [_ H8]. by rewrite (strip_curr _ _ H8).
Qed.

End ApiSpec.

(** ** Concrete cores *)
Definition demo_core (ns : list (Z * OsEE_SN)) (p2 p3 p4 : Z) (c : OsEE_CCB) : kernel := mkKernel
  (list_to_map ns) demo_tdbs
  (list_to_map [(101, demo_tcb 0 OSEE_TASK_READY_STACKED 1); (102, demo_tcb p2 OSEE_TASK_READY_STACKED 1);
    (103, demo_tcb p3 OSEE_TASK_READY_STACKED 1); (104, demo_tcb p4 OSEE_TASK_READY_STACKED 1);
    (105, demo_tcb 128 OSEE_TASK_RUNNING 1)])
  c 1 0 [2; 3; 4; 5; 1] 4 [].

(** The ISR2 (5) above task 2 in its memory phase; task 3 waits. *)
Definition demo_phase : kernel := demo_core
  [(14, mkSN 11 5); (11, mkSN 0 2); (12, mkSN 0 3); (13, mkSN 0 0)] 127 1 3
  (demo_ccb 5 0 13 14 12 MEMORY_TOKEN_ACQUIRED).
Definition demo_phase_lists : lists := mkLists [] [(13, 0)] [(14, 5); (11, 2)] [(12, 3)].

Lemma demo_phase_repr : repr demo_phase demo_phase_lists.
Proof. solve_repr. Qed.

Lemma memory_phase_ended_witness : exists k' best,
  memory_phase_ended_ISR demo_phase = Some (tt, k') /\
  mem_arbit_status (ccb k') = MEMORY_TOKEN_REQUESTED /\
  is_highest (cprio demo_phase) (regular demo_phase) [(14, 5); (11, 2)] best /\
  match best with
  | Some (a, t) => exists x1 x2, [(14, 5); (11, 2)] = x1 ++ (a, t) :: x2 /\
      repr k' (mkLists [] [(13, 0)] (x1 ++ x2) ((a, t) :: [(12, 3)])) /\
      (forall u, cprio k' u = cprio demo_phase u)
  | None => repr k' demo_phase_lists
  end.
Proof. exact (memory_phase_ended_correct demo_phase demo_phase_lists demo_phase_repr eq_refl). Defined.

Lemma ended_started_witness : exists k1 k2,
  memory_phase_ended_ISR demo_phase = Some (tt, k1) /\
  memory_phase_started_ISR k1 = Some (tt, k2) /\
  repr k2 demo_phase_lists /\ strip k2 = strip demo_phase.
Proof.
  apply (ended_started_roundtrip demo_phase demo_phase_lists 14 5 [] 11 2 []); try done.
  - exact demo_phase_repr.
  - intros e u Hin. apply list_elem_of_singleton in Hin as [= -> ->]. reflexivity.
  - intros e u Hin. by apply elem_of_nil in Hin.
  - intros e u Hin. apply list_elem_of_singleton in Hin as [= -> ->]. vm_compute. discriminate.
Defined.

(** The same core after the end of the phase. *)
Definition demo_wait : kernel := demo_core
  [(14, mkSN 0 5); (11, mkSN 12 2); (12, mkSN 0 3); (13, mkSN 0 0)] 127 1 3
  (demo_ccb 5 0 13 14 11 MEMORY_TOKEN_REQUESTED).
Definition demo_wait_lists : lists := mkLists [] [(13, 0)] [(14, 5)] [(11, 2); (12, 3)].

Lemma demo_wait_repr : repr demo_wait demo_wait_lists.
Proof. solve_repr. Qed.

Lemma memory_phase_started_witness : exists k' a t y1 y2,
  memory_phase_started_ISR demo_wait = Some (tt, k') /\
  mem_arbit_status (ccb k') = MEMORY_TOKEN_ACQUIRED /\
  is_highest (cprio demo_wait) (fun _ => true) [(11, 2); (12, 3)] (Some (a, t)) /\
  [(11, 2); (12, 3)] = y1 ++ (a, t) :: y2 /\
  repr k' (mkLists [] [(13, 0)] (below_isrs demo_wait (a, t) [(14, 5)]) (y1 ++ y2)) /\
  cprio k' t = MAX_TASK_PRIORITY /\ (forall u, u <> t -> cprio k' u = cprio demo_wait u).
Proof.
  apply (memory_phase_started_correct demo_wait demo_wait_lists 14 5 []); try done.
  - solve_kwf. by apply demo_inj.
  - exact demo_wait_repr.
Defined.

Definition demo_hvc (res : Z) (r0 r1 r2 : Z) : ST unit Z := mret res.

Lemma begin_memory_phase_witness : exists s' L',
  DPREM_begin_memory_phase (demo_hvc ARBITRATION_NACK) 2 7 (mkD demo false tt) =
    Some ((if decide (ARBITRATION_NACK = ARBITRATION_ACK) then Some 7 else None, false), s') /\
  hv s' = tt /\ repr (dk s') L' /\
  if decide (ARBITRATION_NACK = ARBITRATION_ACK) then
    mem_arbit_status (ccb (dk s')) = MEMORY_TOKEN_ACQUIRED /\ L' = demo_lists /\
    irq_masked s' = false /\ p_curr (ccb (dk s')) = 2 /\
    cprio (dk s') 2 = MAX_TASK_PRIORITY /\
    (forall v, v <> 2 -> cprio (dk s') v = cprio demo v)
  else
    sched_inv (dk s') L' /\ runs_highest (dk s') L' /\
    sus L' = [(11, 2)] /\ (stk L' ++ rdy L' ≡ₚ [] ++ rdy demo_lists) /\
    p_curr (ccb (dk s')) <> 2 /\ cprio (dk s') 2 = 2.
Proof.
  apply (begin_memory_phase_correct (demo_hvc ARBITRATION_NACK) (mkD demo false tt) demo_lists
    11 2 [] (demo_tdb 2 OSEE_TASK_TYPE_EXTENDED 2) tt ARBITRATION_NACK 7 0); try done.
  - exact demo_inv.
  - by right.
Defined.

Lemma begin_in_isr_witness :
  begin_memory_phase_loop (demo_hvc ARBITRATION_NACK) 1000 (mkD demo_wait true tt) = None.
Proof.
  exact (begin_in_isr_never_returns (demo_hvc ARBITRATION_NACK) 1000 (mkD demo_wait true tt)
    demo_wait_lists demo_wait_repr eq_refl eq_refl).
Defined.

(** Task 2 runs above nothing while task 3 waits. *)
Definition demo_exec : kernel := demo_core
  [(11, mkSN 0 2); (12, mkSN 0 3); (13, mkSN 14 0); (14, mkSN 0 0)] 127 1 3
  (demo_ccb 2 0 13 11 12 MEMORY_TOKEN_ACQUIRED).
Definition demo_exec_lists : lists := mkLists [] [(13, 0); (14, 0)] [(11, 2)] [(12, 3)].

Lemma demo_exec_repr : repr demo_exec demo_exec_lists.
Proof. solve_repr. Qed.

Lemma end_phases_witness : exists s1 s2 L2,
  DPREM_end_memory_phase (demo_hvc ARBITRATION_ACK) (mkD demo_exec false tt) = Some (false, s1) /\
  irq_masked s1 = true /\ hv s1 = tt /\ mem_arbit_status (ccb (dk s1)) = MEMORY_TOKEN_NONE /\
  repr (dk s1) demo_exec_lists /\
  DPREM_end_execution_phase false s1 = Some (tt, s2) /\
  irq_masked s2 = false /\ hv s2 = tt /\
  mem_arbit_status (ccb (dk s2)) = MEMORY_TOKEN_NONE /\
  cprio (dk s2) 2 = 2 /\ repr (dk s2) L2 /\
  (sus demo_exec_lists = [] /\ L2 = demo_exec_lists \/
   exists a t y1 y2, is_highest (cprio (dk s2)) (fun _ => true) [(12, 3)] (Some (a, t)) /\
     [(12, 3)] = y1 ++ (a, t) :: y2 /\
     L2 = mkLists [] [(13, 0); (14, 0)] (behind_head (a, t) [(11, 2)]) (y1 ++ y2)).
Proof.
  apply (end_phases_correct (demo_hvc ARBITRATION_ACK) (mkD demo_exec false tt) demo_exec_lists
    2 (demo_tdb 2 OSEE_TASK_TYPE_EXTENDED 2) tt); try done.
  - exact demo_exec_repr.
  - by eexists.
Defined.

(** Task 4 runs above task 2, task 3 waits. *)
Definition demo_inv_core : kernel := demo_core
  [(11, mkSN 12 4); (12, mkSN 0 2); (13, mkSN 0 3); (14, mkSN 0 0)] 2 1 127
  (demo_ccb 4 0 14 11 13 MEMORY_TOKEN_NONE).
Definition demo_inv_lists : lists := mkLists [] [(14, 0)] [(11, 4); (12, 2)] [(13, 3)].

Lemma end_execution_inversion_witness : exists s' L',
  DPREM_end_execution_phase false (mkD demo_inv_core true tt) = Some (tt, s') /\
  repr (dk s') L' /\ stk L' = [(11, 4); (13, 3); (12, 2)] /\
  cprio (dk s') 3 < cprio (dk s') 2 /\
  exists k'', osEE_scheduler_core_pop_running L_rq (dk s') = Some (11, k'') /\
    p_curr (ccb k'') = 3.
Proof.
  apply (end_execution_inversion (mkD demo_inv_core true tt) demo_inv_lists 11 4
    (demo_tdb 4 OSEE_TASK_TYPE_EXTENDED 3) 12 2 [] 13 3 [] false); try done.
  - solve_kwf. by apply demo_inj.
  - solve_repr.
  - intros a' t' Hin. by apply elem_of_nil in Hin.
Defined.
