(* ===== verification/System.v ===== *)
(** * The whole system: arbiter and guests

    Composes the fixed-priority arbiter ([FixedPriority]) with one ERIKA guest
    per cell ([Dprem], [SchedPartitioned]). The hypercall of the DPREM library
    is that of the hypervisor (the arbitration case of [hypercall] in
    hypervisor/control.c); the signals that the arbiter raises reach the
    interrupt handlers of the guests.

    A step of the system is a call of the DPREM library, the service of a
    signal, or anything else a guest does that leaves its view of the token
    alone. Library calls run with interrupts masked and issue at most one
    hypercall, so each is one step.

    The theorems relate what a guest believes ([mem_arbit_status]) to what the
    arbiter decided. While signals are served before the next one is raised
    for the same CPU, at most one guest is in a memory phase, the one of
    highest priority. Otherwise a guest may wait for a token it owns. *)

From Stdlib Require Import ZArith Lia String.
From stdpp Require Import base tactics list option gmap relations sorting.
From S2P Require Import Prelude StateMonad Cell Irqchip FixedPriority Kernel Scheduler SchedPartitioned Dprem.

(** ** What leaves the view of the token alone *)

Definition token_view (k : kernel) : OsEE_mem_arbit_status := mem_arbit_status (ccb k).


#[global] Instance keeps_put_sn p n : Keeps token_view (put_sn p n).
Proof. intros k x k'. unfold put_sn. destruct (sn_mem k !! p); [|done]. by intros [= <- <-]. Qed.
#[global] Instance keeps_put_tdb p d : Keeps token_view (put_tdb p d).
Proof. intros k x k'. unfold put_tdb. destruct (tdb_mem k !! p); [|done]. by intros [= <- <-]. Qed.
#[global] Instance keeps_put_tcb p c : Keeps token_view (put_tcb p c).
Proof. intros k x k'. unfold put_tcb. destruct (tcb_mem k !! p); [|done]. by intros [= <- <-]. Qed.
#[global] Instance keeps_emit e : Keeps token_view (emit e).
Proof. by intros k x k' [= <- <-]. Qed.
#[global] Instance keeps_printk s : Keeps token_view (printk s).
Proof. apply keeps_emit. Qed.
#[global] Instance keeps_put_head l p : Keeps token_view (put_head l p).
Proof. intros k x k' [= <- <-]. by destruct l. Qed.
#[global] Instance keeps_set_p_curr p : Keeps token_view (upd_ccb (set_p_curr p)).
Proof. by intros k x k' [= <- <-]. Qed.
#[global] Instance keeps_set_p_stk_sn p : Keeps token_view (upd_ccb (set_p_stk_sn p)).
Proof. by intros k x k' [= <- <-]. Qed.

#[global] Instance keeps_get_sn p : Keeps token_view (get_sn p) := ltac:(unfold get_sn; solve_keeps).
#[global] Instance keeps_get_tdb p : Keeps token_view (get_tdb p) := ltac:(unfold get_tdb; solve_keeps).
#[global] Instance keeps_get_tcb p : Keeps token_view (get_tcb p) := ltac:(unfold get_tcb; solve_keeps).
#[global] Instance keeps_get_ccb : Keeps token_view get_ccb := ltac:(unfold get_ccb; solve_keeps).
#[global] Instance keeps_get_head l : Keeps token_view (get_head l) := ltac:(unfold get_head; solve_keeps).
#[global] Instance keeps_upd_sn p f : Keeps token_view (upd_sn p f) := ltac:(unfold upd_sn; solve_keeps).
#[global] Instance keeps_upd_tdb p f : Keeps token_view (upd_tdb p f) := ltac:(unfold upd_tdb; solve_keeps).
#[global] Instance keeps_upd_tcb p f : Keeps token_view (upd_tcb p f) := ltac:(unfold upd_tcb; solve_keeps).
#[global] Instance keeps_get_tdb_tcb p : Keeps token_view (get_tdb_tcb p) :=
  ltac:(unfold get_tdb_tcb; solve_keeps).
#[global] Instance keeps_upd_tdb_tcb p f : Keeps token_view (upd_tdb_tcb p f) :=
  ltac:(unfold upd_tdb_tcb; solve_keeps).

(** The scheduler and the list operations of the DPREM library. *)
#[global] Instance keeps_sn_alloc l : Keeps token_view (osEE_sn_alloc l) :=
  ltac:(unfold osEE_sn_alloc; solve_keeps).
#[global] Instance keeps_sn_release l p : Keeps token_view (osEE_sn_release l p) :=
  ltac:(unfold osEE_sn_release; solve_keeps).
#[global] Instance keeps_scan fuel np b p q : Keeps token_view (sn_priority_scan fuel np b p q).
Proof. revert p q. induction fuel; simpl; solve_keeps. Qed.
#[global] Instance keeps_priority_insert l p b : Keeps token_view (osEE_sn_priority_insert l p b) :=
  ltac:(unfold osEE_sn_priority_insert; solve_keeps).
#[global] Instance keeps_rq_insert l p t : Keeps token_view (osEE_scheduler_rq_insert l p t) :=
  ltac:(unfold osEE_scheduler_rq_insert; solve_keeps).
#[global] Instance keeps_stk_next p : Keeps token_view (osEE_scheduler_stk_next p) :=
  ltac:(unfold osEE_scheduler_stk_next; solve_keeps).
#[global] Instance keeps_preemption_check p q : Keeps token_view (rq_preemption_check p q) :=
  ltac:(unfold rq_preemption_check; solve_keeps).
#[global] Instance keeps_preempt_stk l : Keeps token_view (osEE_scheduler_core_rq_preempt_stk l) :=
  ltac:(unfold osEE_scheduler_core_rq_preempt_stk; solve_keeps).
#[global] Instance keeps_resume_stk p : Keeps token_view (resume_stk p) :=
  ltac:(unfold resume_stk; solve_keeps).
#[global] Instance keeps_pop_running l : Keeps token_view (osEE_scheduler_core_pop_running l) :=
  ltac:(unfold osEE_scheduler_core_pop_running; solve_keeps).
#[global] Instance keeps_wrapper_restore p : Keeps token_view (osEE_scheduler_task_wrapper_restore p) :=
  ltac:(unfold osEE_scheduler_task_wrapper_restore; solve_keeps).
#[global] Instance keeps_change_context p q : Keeps token_view (osEE_change_context_from_running p q) :=
  ltac:(unfold osEE_change_context_from_running; solve_keeps).
#[global] Instance keeps_task_end_context p q : Keeps token_view (osEE_change_context_from_task_end p q) :=
  ltac:(unfold osEE_change_context_from_task_end; solve_keeps).
#[global] Instance keeps_isr2_end_context p q : Keeps token_view (osEE_change_context_from_isr2_end p q) :=
  ltac:(unfold osEE_change_context_from_isr2_end; solve_keeps).
#[global] Instance keeps_task_end p : Keeps token_view (osEE_task_end p) :=
  ltac:(unfold osEE_task_end; solve_keeps).
#[global] Instance keeps_terminated : Keeps token_view osEE_scheduler_task_terminated :=
  ltac:(unfold osEE_scheduler_task_terminated, task_terminated_normal,
          task_terminated_chained; solve_keeps).
#[global] Instance keeps_set_running p q : Keeps token_view (osEE_scheduler_task_set_running p q) :=
  ltac:(unfold osEE_scheduler_task_set_running; solve_keeps).
#[global] Instance keeps_activate_isr2 i n : Keeps token_view (osEE_activate_isr2 i n) :=
  ltac:(unfold osEE_activate_isr2; solve_keeps).
#[global] Instance keeps_scheduler_task_end : Keeps token_view osEE_scheduler_task_end :=
  ltac:(unfold osEE_scheduler_task_end; solve_keeps).

#[global] Instance keeps_list_remove_loop fuel p q : Keeps token_view (list_remove_loop fuel p q).
Proof. revert p. induction fuel; simpl; solve_keeps. Qed.
#[global] Instance keeps_list_remove l p : Keeps token_view (list_remove l p) :=
  ltac:(unfold list_remove; solve_keeps).
#[global] Instance keeps_push_to_head l p : Keeps token_view (list_push_to_head l p) :=
  ltac:(unfold list_push_to_head; solve_keeps).
#[global] Instance keeps_insert_before_loop fuel p q r :
  Keeps token_view (list_insert_before_loop fuel p q r).
Proof. revert p. induction fuel; simpl; solve_keeps. Qed.
#[global] Instance keeps_insert_before l p q : Keeps token_view (list_insert_before l p q) :=
  ltac:(unfold list_insert_before; solve_keeps).
#[global] Instance keeps_insert_after_loop fuel p q r :
  Keeps token_view (list_insert_after_loop fuel p q r).
Proof. revert p. induction fuel; simpl; solve_keeps. Qed.
#[global] Instance keeps_insert_after l p q : Keeps token_view (list_insert_after l p q) :=
  ltac:(unfold list_insert_after; solve_keeps).
#[global] Instance keeps_sn_is_highest p q : Keeps token_view (sn_is_highest p q) :=
  ltac:(unfold sn_is_highest; solve_keeps).
#[global] Instance keeps_find_highest fuel ok p q : Keeps token_view (find_highest fuel ok p q).
Proof. revert p q. induction fuel; simpl; solve_keeps. Qed.
#[global] Instance keeps_find_first_regular fuel p : Keeps token_view (find_first_regular fuel p).
Proof. revert p. induction fuel; simpl; solve_keeps. Qed.
#[global] Instance keeps_suspend_from_ISR :
  Keeps token_view DPREM_suspend_highest_priority_active_task_from_ISR :=
  ltac:(unfold DPREM_suspend_highest_priority_active_task_from_ISR; solve_keeps).
#[global] Instance keeps_resume_from_ISR :
  Keeps token_view DPREM_resume_highest_priority_task_from_ISR :=
  ltac:(unfold DPREM_resume_highest_priority_task_from_ISR, list_push_to_tail; solve_keeps).
#[global] Instance keeps_resume : Keeps token_view DPREM_resume_highest_priority_task :=
  ltac:(unfold DPREM_resume_highest_priority_task; solve_keeps).
#[global] Instance keeps_suspend_running : Keeps token_view DPREM_suspend_running_task :=
  ltac:(unfold DPREM_suspend_running_task; solve_keeps).

(** ** The transition system *)
Section System.
Context {H : Type} `{IrqSink H}.
Implicit Types h : H.

(** The arbitration case of [hypercall]; DPREM issues no other call. *)
Definition hypercall (fuel : nat) (regs : sysregs) (cells : list cell) (cpu_data : per_cpu)
    (code arg1 arg2 : Z) : ST (arbiter H) Z :=
  if decide (code = JAILHOUSE_HC_MEMORY_ARBITRATION)
  then fixed_priority_hypercall fuel regs cells cpu_data arg1
  else undefined.

(** A guest: the ERIKA kernel of a cell and the interrupt mask of its CPU. *)
Record guest := mkGuest { g_kernel : kernel; g_masked : bool }.

(** The system: the arbiter with the interrupt state, and the guests by CPU. *)
Record system := mkSystem { hyp : arbiter H; guests : gmap Z guest }.

Definition with_irqs (h : H) (s : arbiter H) : arbiter H :=
  mk_arbiter (memory_lock s) (memory_requests s) (token_owner s) (token_priority s) h.

(** The handler that [DPREM_init] registers for a signal, run as an ISR2. It
    leaves no interrupt suspension for the end of the ISR2 to undo. *)
Definition signal_handler (irq : Z) : ST kernel unit :=
  if decide (irq = SGI_MEMORY_PHASE_STARTED) then memory_phase_started_ISR
  else memory_phase_ended_ISR.
Definition serve_signal (isr2_id irq : Z) : ST kernel unit :=
  _ ← osEE_activate_isr2 isr2_id irq;
  _ ← signal_handler irq;
  osEE_scheduler_task_end.

Definition dstate_of (s : system) (g : guest) : dstate :=
  mkD (g_kernel g) (g_masked g) (hyp s).
Definition after (s : system) (i : Z) (d : dstate) : system :=
  mkSystem (hv d) (<[i := mkGuest (dk d) (irq_masked d)]> (guests s)).

(** The guest has acknowledged an interrupt: it alone is no longer visible. *)
Definition taken (h h' : H) (cpu irq : Z) : Prop :=
  sink_sees h cpu irq /\
  forall c i, sink_sees h' c i <-> sink_sees h c i /\ ~ (c = cpu /\ i = irq).

Inductive label :=
  | LBegin (i : Z) | LEnd (i : Z) | LSignal (i irq : Z) | LLocal (i : Z).

Context (regs : sysregs) (cells : list cell) (cpu_of : Z -> per_cpu).

Inductive sys_step (s : system) : label -> system -> Prop :=
  | sys_begin i g f fuel ticks r d :
      guests s !! i = Some g ->
      DPREM_begin_memory_phase (hypercall f regs cells (cpu_of i)) fuel ticks (dstate_of s g) =
        Some (r, d) ->
      sys_step s (LBegin i) (after s i d)
  | sys_resumed i g f fuel ticks flags r d :
      guests s !! i = Some g ->
      DPREM_begin_memory_phase_resumed (hypercall f regs cells (cpu_of i)) fuel ticks flags
        (dstate_of s g) = Some (r, d) ->
      sys_step s (LBegin i) (after s i d)
  | sys_end i g f r d :
      guests s !! i = Some g ->
      DPREM_end_memory_phase (hypercall f regs cells (cpu_of i)) (dstate_of s g) = Some (r, d) ->
      sys_step s (LEnd i) (after s i d)
  | sys_end_execution i g flags r d :
      guests s !! i = Some g ->
      DPREM_end_execution_phase flags (dstate_of s g) = Some (r, d) ->
      sys_step s (LLocal i) (after s i d)
  | sys_signal i g irq isr2_id h k :
      guests s !! i = Some g -> g_masked g = false ->
      irq = SGI_MEMORY_PHASE_STARTED \/ irq = SGI_MEMORY_PHASE_ENDED ->
      taken (irqs (hyp s)) h i irq ->
      serve_signal isr2_id irq (g_kernel g) = Some (tt, k) ->
      sys_step s (LSignal i irq)
        (mkSystem (with_irqs h (hyp s)) (<[i := mkGuest k false]> (guests s)))
  | sys_local i g g' :
      guests s !! i = Some g -> token_view (g_kernel g') = token_view (g_kernel g) ->
      sys_step s (LLocal i) (mkSystem (hyp s) (<[i := g']> (guests s))).

(** No arbitration signal is outstanding for a CPU. *)
Definition quiet (h : H) (i : Z) : Prop :=
  ~ sink_sees h i SGI_MEMORY_PHASE_STARTED /\ ~ sink_sees h i SGI_MEMORY_PHASE_ENDED.

(** Signals are served in time: a hypercall is issued when no other CPU has an
    outstanding signal, and a request also when the caller has none. *)
Definition prompt (s : system) (l : label) : Prop :=
  match l with
  | LBegin i =>
      forall g, guests s !! i = Some g -> token_view (g_kernel g) = MEMORY_TOKEN_NONE ->
      signals_ready (irqs (hyp s)) /\ forall j, quiet (irqs (hyp s)) j
  | LEnd i => signals_ready (irqs (hyp s)) /\ forall j, j <> i -> quiet (irqs (hyp s)) j
  | LSignal _ _ | LLocal _ => True
  end.

Definition prompt_step (s s' : system) : Prop :=
  exists l, prompt s l /\ sys_step s l s'.

(** A guest is in its memory phase: it believes so and has not been told
    otherwise. *)
Definition in_memory_phase (s : system) (i : Z) : Prop :=
  exists g, guests s !! i = Some g /\ token_view (g_kernel g) = MEMORY_TOKEN_ACQUIRED /\
    ~ sink_sees (irqs (hyp s)) i SGI_MEMORY_PHASE_ENDED.

(** Every guest runs on the first CPU of a cell with a priority of its own. *)
Record platform_ok (s : system) : Prop := {
  pf_cells : cells_ok cells;
  pf_caller i g : guests s !! i = Some g ->
    caller_ok cells (cpu_of i) /\ cpu_id (cpu_of i) = i /\
    0 < cell_priority (pc_cell (cpu_of i))
}.

(** At boot nobody has asked for the token and no signal is outstanding. *)
Record sys_start (s : system) : Prop := {
  st_platform : platform_ok s;
  st_hyp : exists h, hyp s = arbiter_init h;
  st_quiet i : quiet (irqs (hyp s)) i;
  st_none i g : guests s !! i = Some g -> token_view (g_kernel g) = MEMORY_TOKEN_NONE
}.

(** *** The library calls *)

(** What a call of the library may change: the arbiter and the view of the
    token. *)
Definition dview (d : dstate) : arbiter H * OsEE_mem_arbit_status :=
  (hv d, token_view (dk d)).

#[local] Instance keeps_on_kernel {A} (m : ST kernel A) :
  Keeps token_view m -> Keeps dview (on_kernel m).
Proof.
  intros Hm [k b w] x d'. unfold on_kernel. simpl.
  destruct (m k) as [[y k']|] eqn:E; [|done]. intros [= <- <-].
  unfold dview. simpl. by rewrite (Hm _ _ _ E).
Qed.
#[local] Instance keeps_begin_primitive : Keeps dview osEE_begin_primitive.
Proof. by intros [k b w] x d' [= <- <-]. Qed.
#[local] Instance keeps_end_primitive flags : Keeps dview (osEE_end_primitive flags).
Proof. by intros [k b w] x d' [= <- <-]. Qed.
#[local] Instance keeps_begin_finish flags : Keeps dview (begin_memory_phase_finish flags) :=
  ltac:(unfold begin_memory_phase_finish; solve_keeps).
#[local] Instance keeps_end_execution flags : Keeps dview (DPREM_end_execution_phase flags) :=
  ltac:(unfold DPREM_end_execution_phase, list_is_empty; solve_keeps).

Section Calls.
Context (hvc : Z -> Z -> Z -> ST (arbiter H) Z).

(** Without a hypercall to issue the loop changes nothing. *)
Lemma begin_loop_keeps fuel d b d' :
  token_view (dk d) <> MEMORY_TOKEN_NONE ->
  begin_memory_phase_loop hvc fuel d = Some (b, d') -> dview d' = dview d.
Proof.
  revert d. induction fuel as [|fuel IH]; intros d Hn; simpl;
    intros (c & d1 & [= <- <-] & Hl)%bind_Some; cbn [dk] in Hl; case_decide as Ha;
    try (injection Hl as <- <-; by destruct d); [done|].
  destruct d as [k m w]. simpl in *. unfold token_view in Hn. case_decide as Hr.
  { destruct (mem_arbit_status (ccb k)); done. }
  apply bind_Some in Hl as (sw & d2 & Hs & Hl). apply keeps in Hs as Hk.
  injection Hk as Hh Hv. destruct sw.
  - injection Hl as <- <-. by unfold dview; rewrite Hh, Hv.
  - rewrite (IH d2) by (done || by rewrite Hv). unfold dview. by rewrite Hh, Hv.
Qed.

(** With nothing requested the loop issues one hypercall and notes the answer. *)
Lemma begin_loop_asks fuel d b d' :
  token_view (dk d) = MEMORY_TOKEN_NONE ->
  (forall r w, hvc JAILHOUSE_HC_MEMORY_ARBITRATION BEGIN_MEM_PHASE 0 (hv d) = Some (r, w) ->
     r = ARBITRATION_ACK \/ r = ARBITRATION_NACK) ->
  begin_memory_phase_loop hvc fuel d = Some (b, d') ->
  exists r, hvc JAILHOUSE_HC_MEMORY_ARBITRATION BEGIN_MEM_PHASE 0 (hv d) = Some (r, hv d') /\
    token_view (dk d') =
      if decide (r = ARBITRATION_ACK) then MEMORY_TOKEN_ACQUIRED else MEMORY_TOKEN_REQUESTED.
Proof.
  intros Hn Hok. destruct d as [k m w]. unfold token_view in Hn. simpl in Hn, Hok.
  destruct fuel as [|fuel]; simpl;
    intros (c & d1 & [= <- <-] & Hl)%bind_Some; cbn [dk] in Hl;
    (rewrite decide_False in Hl by by rewrite Hn); [done|].
  rewrite decide_True in Hl by by rewrite Hn.
  apply bind_Some in Hl as (r & d2 & Hh & Hl). unfold on_hv in Hh. simpl in Hh.
  destruct (hvc _ _ _ w) as [[r' w']|] eqn:Ew; [|done]. injection Hh as <- <-.
  exists r'. apply bind_Some in Hl as ([] & d3 & Hset & Hl).
  assert (d3 = mkD (set_arbit (if decide (r' = ARBITRATION_ACK) then MEMORY_TOKEN_ACQUIRED
                               else MEMORY_TOKEN_REQUESTED) k) m w') as ->.
  { destruct (Hok r' w' eq_refl) as [->| ->]; by injection Hset as <-. }
  apply begin_loop_keeps in Hl; [|unfold token_view; simpl; by case_decide].
  injection Hl as Hw Hv. simpl in *. rewrite Hw, Hv. done.
Qed.

(** Both entries into the loop. *)
Lemma begin_call fuel ticks d r d' :
  DPREM_begin_memory_phase hvc fuel ticks d = Some (r, d') ->
  exists b d1 d2, dview d1 = dview d /\ dview d' = dview d2 /\
    begin_memory_phase_loop hvc fuel d1 = Some (b, d2).
Proof.
  intros (flags & d1 & H1%keeps & Hr)%bind_Some.
  apply bind_Some in Hr as (c & d2 & H2%keeps & Hr).
  apply bind_Some in Hr as (u & d3 & H3%keeps & Hr).
  apply bind_Some in Hr as (b & d4 & Hl & Hr). exists b, d3, d4.
  split_and!; [congruence| |done]. destruct b; [|by injection Hr as <- <-].
  apply bind_Some in Hr as (v & d5 & H5%keeps & Hr). injection Hr as <- <-. done.
Qed.

Lemma resumed_call fuel ticks flags d r d' :
  DPREM_begin_memory_phase_resumed hvc fuel ticks flags d = Some (r, d') ->
  exists b d1 d2, dview d1 = dview d /\ dview d' = dview d2 /\
    begin_memory_phase_loop hvc fuel d1 = Some (b, d2).
Proof.
  intros (b & d1 & Hl & Hr)%bind_Some. exists b, d, d1. split_and!; [done| |done].
  destruct b; [|by injection Hr as <- <-].
  apply bind_Some in Hr as (v & d5 & H5%keeps & Hr). injection Hr as <- <-. done.
Qed.

(** The end of a memory phase issues one hypercall. *)
Lemma end_call d r d' :
  (forall x w, hvc JAILHOUSE_HC_MEMORY_ARBITRATION END_MEM_PHASE 0 (hv d) = Some (x, w) ->
     x = ARBITRATION_ACK) ->
  DPREM_end_memory_phase hvc d = Some (r, d') ->
  hvc JAILHOUSE_HC_MEMORY_ARBITRATION END_MEM_PHASE 0 (hv d) = Some (ARBITRATION_ACK, hv d') /\
  token_view (dk d') = MEMORY_TOKEN_NONE.
Proof.
  destruct d as [k m w]. simpl. intros Hok (flags & d1 & [= <- <-] & Hr)%bind_Some.
  apply bind_Some in Hr as (x & d2 & Hh & Hr). unfold on_hv in Hh. simpl in Hh.
  destruct (hvc _ _ _ w) as [[x' w']|] eqn:Ew; [|done]. injection Hh as <- <-.
  rewrite (Hok _ _ eq_refl) in *. simpl in Hr. by injection Hr as <- <-.
Qed.

End Calls.

(** *** The signal handlers *)
Definition served (irq : Z) (v : OsEE_mem_arbit_status) : OsEE_mem_arbit_status :=
  if decide (irq = SGI_MEMORY_PHASE_STARTED) then
    match v with MEMORY_TOKEN_REQUESTED => MEMORY_TOKEN_ACQUIRED | _ => v end
  else match v with MEMORY_TOKEN_ACQUIRED => MEMORY_TOKEN_REQUESTED | _ => v end.


Lemma handler_view irq k k' :
  signal_handler irq k = Some (tt, k') -> token_view k' = served irq (token_view k).
Proof.
  unfold signal_handler, served, memory_phase_started_ISR, memory_phase_ended_ISR.
  case_decide; intros (c & k1 & [= <- <-] & Hr)%bind_Some; unfold token_view at 2;
    case_decide as E.
  2, 4: injection Hr as <-; by destruct (mem_arbit_status (ccb k)) eqn:?.
  all: rewrite E; apply bind_Some in Hr as ([] & k2 & [= <-] & Hr);
    apply bind_Some in Hr as (b & k3 & H3%keeps & Hr);
    assert (token_view k' = token_view k3) as -> by 
      (destruct b; by apply (keeps (view := token_view)) in Hr);
    by rewrite H3.
Qed.

Lemma serve_view isr2_id irq k k' :
  serve_signal isr2_id irq k = Some (tt, k') -> token_view k' = served irq (token_view k).
Proof.
  intros ([] & k1 & H1%keeps & Hr)%bind_Some.
  apply bind_Some in Hr as ([] & k2 & H2%handler_view & H3%keeps). congruence.
Qed.

(** *** Agreement of guests and arbiter *)

(** What guest [i] believes, given the outstanding signals and the owner. *)
Record agrees (h : H) (o i : Z) (v : OsEE_mem_arbit_status) : Prop := {
  ag_one : sink_sees h i SGI_MEMORY_PHASE_STARTED -> sink_sees h i SGI_MEMORY_PHASE_ENDED -> False;
  ag_quiet : quiet h i -> v = MEMORY_TOKEN_ACQUIRED <-> o = i;
  ag_ended : sink_sees h i SGI_MEMORY_PHASE_ENDED -> v <> MEMORY_TOKEN_REQUESTED /\ o <> i;
  ag_started : sink_sees h i SGI_MEMORY_PHASE_STARTED ->
    (v = MEMORY_TOKEN_REQUESTED /\ o = i) \/ (v = MEMORY_TOKEN_NONE /\ o <> i)
}.

(** The arbiter has a request of exactly the guests that want the token, and
    the guests agree with the arbiter up to outstanding signals. *)
Record sys_inv (s : system) : Prop := {
  sy_platform : platform_ok s;
  sy_arb : arb_inv cells (hyp s);
  sy_req i g : guests s !! i = Some g ->
    aget (memory_requests (hyp s)) i = Some TOKEN_NULL_PRIORITY <->
    token_view (g_kernel g) = MEMORY_TOKEN_NONE;
  sy_guest j r : aget (memory_requests (hyp s)) j = Some r -> r <> 0 -> is_Some (guests s !! j);
  sy_agrees i g : guests s !! i = Some g ->
    agrees (irqs (hyp s)) (token_owner (hyp s)) i (token_view (g_kernel g))
}.

Lemma platform_update s a i g g' :
  platform_ok s -> guests s !! i = Some g -> platform_ok (mkSystem a (<[i := g']> (guests s))).
Proof.
  intros [Hc Hp] Hg. split; [done|]. simpl. intros j gj.
  destruct (decide (j = i)) as [->|]; [intros _; by apply (Hp i g)|].
  rewrite lookup_insert_ne by done. apply Hp.
Qed.

(** Replacing one guest and the arbiter. *)
Lemma sys_inv_update s i g g' (a : arbiter H) :
  sys_inv s -> guests s !! i = Some g -> arb_inv cells a ->
  (aget (memory_requests a) i = Some TOKEN_NULL_PRIORITY <->
     token_view (g_kernel g') = MEMORY_TOKEN_NONE) ->
  (forall j, j <> i -> aget (memory_requests a) j = aget (memory_requests (hyp s)) j) ->
  agrees (irqs a) (token_owner a) i (token_view (g_kernel g')) ->
  (forall j gj, j <> i -> guests s !! j = Some gj ->
     agrees (irqs a) (token_owner a) j (token_view (g_kernel gj))) ->
  sys_inv (mkSystem a (<[i := g']> (guests s))).
Proof.
  intros HS Hg Ha Hi Hreq Hagi Hagj. split; simpl.
  - apply (platform_update _ _ _ g); [apply HS|done].
  - done.
  - intros j gj. destruct (decide (j = i)) as [->|Hne].
    + rewrite lookup_insert_eq. by intros [= <-].
    + rewrite lookup_insert_ne, Hreq by done. apply (sy_req _ HS).
  - intros j r Hj Hr. destruct (decide (j = i)) as [->|Hne].
    + rewrite lookup_insert_eq. eauto.
    + rewrite lookup_insert_ne by done. rewrite Hreq in Hj by done.
      by apply (sy_guest _ HS j r).
  - intros j gj. destruct (decide (j = i)) as [->|Hne].
    + rewrite lookup_insert_eq. by intros [= <-].
    + rewrite lookup_insert_ne by done. by apply Hagj.
Qed.

Lemma sys_inv_local s i g g' :
  sys_inv s -> guests s !! i = Some g -> token_view (g_kernel g') = token_view (g_kernel g) ->
  sys_inv (mkSystem (hyp s) (<[i := g']> (guests s))).
Proof.
  intros HS Hg Hv. apply (sys_inv_update _ _ g); rewrite ?Hv; try done.
  - apply HS.
  - by apply (sy_req _ HS).
  - by apply (sy_agrees _ HS).
  - intros j gj _. apply (sy_agrees _ HS).
Qed.

(** Serving a signal makes the guest agree with the arbiter. *)
Lemma agrees_taken h h' o i irq v :
  irq = SGI_MEMORY_PHASE_STARTED \/ irq = SGI_MEMORY_PHASE_ENDED ->
  taken h h' i irq -> agrees h o i v -> agrees h' o i (served irq v).
Proof.
  intros Hirq (Hsee & Ht) [H1 Hq He Hs]. unfold served.
  assert (quiet h' i) as [Hq1 Hq2].
  { split; rewrite Ht; intros [Hx Hne]; destruct Hirq as [-> | ->]; eauto. }
  split; try (intros ?; done). intros _. destruct Hirq as [-> | ->].
  - rewrite decide_True by done. destruct (Hs Hsee) as [[-> ->]|[-> ?]]; done.
  - rewrite decide_False by done. destruct (He Hsee) as [? ?]. by destruct v.
Qed.

Lemma agrees_same h h' o i v :
  (forall irq, sink_sees h' i irq <-> sink_sees h i irq) -> agrees h o i v -> agrees h' o i v.
Proof. intros Hs [??]. split; unfold quiet; rewrite ?Hs; done. Qed.

Lemma sys_inv_signal s i g irq h k :
  sys_inv s -> guests s !! i = Some g ->
  irq = SGI_MEMORY_PHASE_STARTED \/ irq = SGI_MEMORY_PHASE_ENDED ->
  taken (irqs (hyp s)) h i irq ->
  token_view k = served irq (token_view (g_kernel g)) ->
  sys_inv (mkSystem (with_irqs h (hyp s)) (<[i := mkGuest k false]> (guests s))).
Proof.
  intros HS Hg Hirq Ht Hv. apply (sys_inv_update _ _ g); simpl; rewrite ?Hv; try done.
  - destruct (sy_arb _ HS). by split.
  - rewrite (sy_req _ HS i g Hg). unfold served.
    case_decide; by destruct (token_view (g_kernel g)).
  - eapply agrees_taken; [done..|]. by apply (sy_agrees _ HS).
  - intros j gj Hne Hj. apply (agrees_same (irqs (hyp s))); [|by apply (sy_agrees _ HS)].
    intros x. destruct Ht as [_ Ht]. rewrite Ht. naive_solver.
Qed.

(** *** Requests and releases *)
Lemma agrees_quiet h o i v :
  quiet h i -> (v = MEMORY_TOKEN_ACQUIRED <-> o = i) -> agrees h o i v.
Proof. intros [??] ?. by split. Qed.

Lemma quiet_raised h h' tgt irq i : raised h h' tgt irq -> i <> tgt -> quiet h i -> quiet h' i.
Proof. intros Hr Hne [??]. split; rewrite (Hr _ _); naive_solver. Qed.

Lemma guest_range s i g : sys_inv s -> guests s !! i = Some g -> 0 <= i < NUM_REQUESTS.
Proof.
  intros HS Hg. destruct (sy_platform _ HS) as [Hc Hp]. destruct (Hp i g Hg) as (Hcall & <- & _).
  by apply (caller_in_range cells).
Qed.

Lemma owner_view s i g :
  sys_inv s -> guests s !! i = Some g -> token_view (g_kernel g) = MEMORY_TOKEN_NONE ->
  token_owner (hyp s) <> i.
Proof.
  intros HS Hg Hn Ho. pose proof (guest_range _ _ _ HS Hg) as Hr.
  destruct (inv_owner _ _ (sy_arb _ HS)) as [Hown Hpos].
  { unfold TOKEN_FREE, NUM_REQUESTS in *. lia. }
  apply (sy_req _ HS i g Hg) in Hn. rewrite Ho, Hn in Hown. injection Hown as Hz. unfold TOKEN_NULL_PRIORITY in Hz. lia.
Qed.

Lemma sys_inv_request s i g g' (a : arbiter H) :
  sys_inv s -> guests s !! i = Some g -> token_view (g_kernel g) = MEMORY_TOKEN_NONE ->
  (forall j, quiet (irqs (hyp s)) j) ->
  request_post (cpu_of i) (hyp s) a -> arb_inv cells a ->
  token_view (g_kernel g') =
    (if decide (token_owner a = i) then MEMORY_TOKEN_ACQUIRED else MEMORY_TOKEN_REQUESTED) ->
  sys_inv (mkSystem a (<[i := g']> (guests s))).
Proof.
  intros HS Hg Hn Hq (Hreq & _ & Hpost) Ha Hv. pose proof (guest_range _ _ _ HS Hg) as Hr.
  destruct (pf_caller _ (sy_platform _ HS) i g Hg) as (Hcall & Hid & Hprio).
  rewrite Hid in Hreq, Hpost. pose proof (owner_view _ _ _ HS Hg Hn) as Hown.
  assert (Hview : forall j gj, guests s !! j = Some gj ->
    token_view (g_kernel gj) = MEMORY_TOKEN_ACQUIRED <-> token_owner (hyp s) = j).
  { intros j gj Hj. by apply (ag_quiet _ _ _ _ (sy_agrees _ HS j gj Hj)). }
  assert (Hself : quiet (irqs a) i -> agrees (irqs a) (token_owner a) i (token_view (g_kernel g'))).
  { intros ?. apply agrees_quiet; [done|]. rewrite Hv. by case_decide. }
  apply (sys_inv_update _ _ g); try done.
  - rewrite Hreq, aget_insert_eq by (rewrite (inv_len _ _ (sy_arb _ HS)); done).
    rewrite Hv. unfold TOKEN_NULL_PRIORITY. split; [intros [=]; lia|by case_decide].
  - intros j Hne. rewrite Hreq, aget_insert_ne; [done|lia|done].
  - apply Hself. zcase_in Hpost; [|by destruct Hpost as (_ & _ & ->)].
    destruct Hpost as (_ & _ & Hs). zcase_in Hs; [|by rewrite Hs]. eapply quiet_raised; eauto.
  - intros j gj Hne Hj. pose proof (guest_range _ _ _ HS Hj) as Hjr.
    zcase_in Hpost; [|destruct Hpost as (-> & _ & ->); by apply (sy_agrees _ HS)].
    destruct Hpost as (-> & _ & Hs). destruct (decide (j = token_owner (hyp s))) as [->|Hjo].
    + zcase_in Hs.
      2: { apply andb_false_iff in Heqb0 as [?|?]; b2p; unfold TOKEN_FREE, NUM_REQUESTS in *; lia. }
      destruct (Hq (token_owner (hyp s))) as [Hq1 Hq2]. split.
      * rewrite (Hs _ _). intros [?|[_ [=]]] _. done.
      * intros [_ []]. apply Hs. by right.
      * intros _. split; [|done]. by rewrite (proj2 (Hview _ _ Hj) eq_refl).
      * rewrite (Hs _ _). intros [?|[_ [=]]]. done.
    + apply agrees_quiet; [zcase_in Hs; [eapply quiet_raised; eauto|by rewrite Hs]|].
      rewrite Hview by done. naive_solver.
Qed.

Lemma owner_requests (a : arbiter H) i :
  arb_inv cells a -> aget (memory_requests a) i = Some TOKEN_NULL_PRIORITY ->
  0 <= i < NUM_REQUESTS -> token_owner a <> i.
Proof.
  intros Ha Hz Hr <-. destruct (inv_owner _ _ Ha) as [Ho Hp].
  { unfold TOKEN_FREE, NUM_REQUESTS in *. lia. }
  rewrite Hz in Ho. injection Ho as Ho. unfold TOKEN_NULL_PRIORITY in Ho. lia.
Qed.

(** A guest that has given its token back. *)
Lemma agrees_none h h' o o' i v :
  (forall irq, sink_sees h' i irq <-> sink_sees h i irq) -> o' <> i ->
  agrees h o i v -> agrees h' o' i MEMORY_TOKEN_NONE.
Proof. intros Hs Ho [H1 _ _ _]. split; rewrite ?Hs; naive_solver. Qed.

(** The guest that is handed the token has asked for it. *)
Lemma agrees_granted s h' j gj r :
  sys_inv s -> guests s !! j = Some gj -> quiet (irqs (hyp s)) j -> token_owner (hyp s) <> j ->
  aget (memory_requests (hyp s)) j = Some r -> 0 < r ->
  raised (irqs (hyp s)) h' j SGI_MEMORY_PHASE_STARTED ->
  agrees h' j j (token_view (g_kernel gj)).
Proof.
  intros HS Hj [Hq1 Hq2] Ho Hreq Hr Hs.
  assert (token_view (g_kernel gj) = MEMORY_TOKEN_REQUESTED) as ->.
  { pose proof (ag_quiet _ _ _ _ (sy_agrees _ HS j gj Hj) (conj Hq1 Hq2)) as Hacq.
    pose proof (sy_req _ HS j gj Hj) as Hnone. rewrite Hreq in Hnone.
    unfold TOKEN_NULL_PRIORITY in Hnone.
    destruct (token_view (g_kernel gj)); [|done|naive_solver].
    destruct Hnone as [_ Hnone]. injection (Hnone eq_refl) as ->. lia. }
  split.
  - rewrite !(Hs _ _). intros _ [?|[_ [=]]]. done.
  - intros [[] _]. apply Hs. by right.
  - rewrite (Hs _ _). intros [?|[_ [=]]]. done.
  - by left.
Qed.

Lemma sys_inv_release s i g g' (a : arbiter H) :
  sys_inv s -> guests s !! i = Some g ->
  (forall j, j <> i -> quiet (irqs (hyp s)) j) ->
  release_post cells i (hyp s) a -> arb_inv cells a ->
  token_view (g_kernel g') = MEMORY_TOKEN_NONE ->
  sys_inv (mkSystem a (<[i := g']> (guests s))).
Proof.
  intros HS Hg Hq (Hreq & _ & Hpost) Ha Hv. pose proof (guest_range _ _ _ HS Hg) as Hr.
  assert (aget (memory_requests a) i = Some TOKEN_NULL_PRIORITY) as Hi.
  { rewrite Hreq. apply aget_insert_eq. rewrite (inv_len _ _ (sy_arb _ HS)). done. }
  pose proof (owner_requests a i Ha Hi Hr) as Hown.
  assert (Hother : forall j, j <> i ->
    aget (memory_requests a) j = aget (memory_requests (hyp s)) j).
  { intros j Hne. rewrite Hreq, aget_insert_ne; [done|lia|done]. }
  apply (sys_inv_update _ _ g); try done; rewrite ?Hv.
  - apply (agrees_none (irqs (hyp s)) _ (token_owner (hyp s)) _ _ (token_view (g_kernel g)));
      [|done|by apply (sy_agrees _ HS)].
    intros x. zcase_in Hpost; [|by destruct Hpost as (_ & _ & ->)].
    destruct Hpost as (_ & [(_ & _ & ->)|(l1 & c & l2 & _ & _ & _ & _ & _ & Hs)]); [done|].
    rewrite (Hs _ _). naive_solver.
  - intros j gj Hne Hj. pose proof (guest_range _ _ _ HS Hj) as Hjr.
    pose proof (Hq j Hne) as Hqj.
    pose proof (ag_quiet _ _ _ _ (sy_agrees _ HS j gj Hj) Hqj) as Hview.
    zcase_in Hpost; [|destruct Hpost as (-> & _ & ->); by apply (sy_agrees _ HS)].
    destruct Hpost as (_ & [(-> & _ & ->)|(l1 & c & l2 & _ & _ & Hget & Hpos & _ & Hs)]).
    + apply agrees_quiet; [done|]. rewrite Hview. unfold TOKEN_FREE, NUM_REQUESTS in *. lia.
    + destruct (decide (token_owner a = j)) as [Hjo|Hjo].
      * rewrite Hjo in *. apply (agrees_granted s _ _ _ (token_priority a)); try done; [lia|].
        by rewrite <- Hother, Hreq by done.
      * apply agrees_quiet; [by eapply quiet_raised; eauto|]. rewrite Hview. naive_solver.
Qed.

(** *** Steps *)

(** The begin hypercall answers ACK or NACK; the end hypercall ACK. *)
Lemma begin_answer f p (s a : arbiter H) r :
  hypercall f regs cells p JAILHOUSE_HC_MEMORY_ARBITRATION BEGIN_MEM_PHASE 0 s = Some (r, a) ->
  exists x, request_memory p s = Some (x, a) /\
    r = if x =? 1 then ARBITRATION_ACK else ARBITRATION_NACK.
Proof.
  unfold hypercall. rewrite decide_True by done. unfold fixed_priority_hypercall. simpl. destruct (request_memory p s) as [[x b]|]; [|done].
  simpl. intros [= <- <-]. eauto.
Qed.

Lemma end_answer f p (s a : arbiter H) r :
  hypercall f regs cells p JAILHOUSE_HC_MEMORY_ARBITRATION END_MEM_PHASE 0 s = Some (r, a) ->
  r = ARBITRATION_ACK /\ exists x, disable_memory_request cells (cpu_id p) s = Some (x, a).
Proof.
  unfold hypercall. rewrite decide_True by done. unfold fixed_priority_hypercall. simpl.
  destruct (disable_memory_request cells (cpu_id p) s) as [[x b]|]; [|done].
  simpl. intros [= <- <-]. eauto.
Qed.

(** The two ways into the loop, as one. *)
Lemma begin_step s i s' :
  sys_step s (LBegin i) s' ->
  exists g f fuel b d1 d2 g', guests s !! i = Some g /\ dview d1 = dview (dstate_of s g) /\
    begin_memory_phase_loop (hypercall f regs cells (cpu_of i)) fuel d1 = Some (b, d2) /\
    s' = mkSystem (hv d2) (<[i := g']> (guests s)) /\
    token_view (g_kernel g') = token_view (dk d2).
Proof.
  intros Hs.
  inversion Hs as [i' g f fuel ticks r d Hg Hc|i' g f fuel ticks flags r d Hg Hc| | | |]; subst;
    [apply begin_call in Hc|apply resumed_call in Hc];
    destruct Hc as (b & d1 & d2 & H1 & H2 & Hl); injection H2 as Hh Hv;
    exists g, f, fuel, b, d1, d2, (mkGuest (dk d) (irq_masked d));
    unfold after; rewrite Hh; by split_and!.
Qed.

(** A guest that does not ask is not affected by beginning. *)
Lemma begin_step_waits s i s' g :
  sys_step s (LBegin i) s' -> guests s !! i = Some g ->
  token_view (g_kernel g) <> MEMORY_TOKEN_NONE ->
  exists g', s' = mkSystem (hyp s) (<[i := g']> (guests s)) /\
    token_view (g_kernel g') = token_view (g_kernel g).
Proof.
  intros (g0 & f & fuel & b & d1 & d2 & g' & Hg & [= H1 H2] & Hl & -> & Hv)%begin_step Hg' Hn.
  simplify_eq. simpl in *. apply begin_loop_keeps in Hl; [|by rewrite H2].
  injection Hl as Hh Hk. exists g'. rewrite Hh, H1. split; [done|]. congruence.
Qed.

(** A guest that asks notes the answer of the arbiter. *)
Lemma begin_step_asks s i s' g :
  platform_ok s -> arb_inv cells (hyp s) -> sys_step s (LBegin i) s' -> guests s !! i = Some g ->
  token_view (g_kernel g) = MEMORY_TOKEN_NONE ->
  exists x a g', request_memory (cpu_of i) (hyp s) = Some (x, a) /\
    s' = mkSystem a (<[i := g']> (guests s)) /\
    token_view (g_kernel g') =
      if decide (token_owner a = i) then MEMORY_TOKEN_ACQUIRED else MEMORY_TOKEN_REQUESTED.
Proof.
  intros HP HA (g0 & f & fuel & b & d1 & d2 & g' & Hg & [= H1 H2] & Hl & -> & Hv)%begin_step Hg' Hn.
  rewrite Hg in Hg'. injection Hg' as ->. simpl in *.
  destruct (pf_caller _ HP i g Hg) as (Hcall & Hid & _).
  apply begin_loop_asks in Hl as (r & Hh & Hk); [|by rewrite H2|].
  - rewrite H1 in Hh. apply begin_answer in Hh as (x & Hq & ->).
    exists x, (hv d2), g'. split_and!; [done..|].
    apply (request_memory_tok cells) in Hq as [_ Hx];
      [|apply HP|done|done].
    rewrite Hid in Hx. rewrite Hv, Hk, Hx. destruct (token_owner (hv d2) =? i) eqn:E; b2p.
    + by rewrite !decide_True by done.
    + by rewrite !decide_False by done.
  - intros r w Hr. apply begin_answer in Hr as (x & _ & ->). destruct (x =? 1); eauto.
Qed.

Lemma end_step s i s' :
  platform_ok s -> sys_step s (LEnd i) s' ->
  exists g x a g', guests s !! i = Some g /\
    disable_memory_request cells i (hyp s) = Some (x, a) /\
    s' = mkSystem a (<[i := g']> (guests s)) /\ token_view (g_kernel g') = MEMORY_TOKEN_NONE.
Proof.
  intros HP Hs. inversion Hs as [| |i' g f r d Hg Hc| | |]; subst.
  destruct (pf_caller _ HP i g Hg) as (Hcall & Hid & _).
  apply end_call in Hc as [Hh Hv]; [|by intros x w [-> _]%end_answer].
  apply end_answer in Hh as [_ [x Hx]]. rewrite Hid in Hx.
  by exists g, x, (hv d), (mkGuest (dk d) (irq_masked d)).
Qed.

Lemma prompt_step_inv s s' : sys_inv s -> prompt_step s s' -> sys_inv s'.
Proof.
  intros HS (l & Hp & Hs). pose proof (sy_platform _ HS) as HP. pose proof (sy_arb _ HS) as HA.
  pose proof (pf_cells _ HP) as Hc. destruct l as [i|i|i irq|i].
  - destruct (begin_step _ _ _ Hs) as (g & _ & _ & _ & _ & _ & _ & Hg & _).
    destruct (decide (token_view (g_kernel g) = MEMORY_TOKEN_NONE)) as [Hn|Hn].
    + destruct (Hp g Hg Hn) as [Hr Hq].
      destruct (pf_caller _ HP i g Hg) as (Hcall & Hid & _).
      destruct (begin_step_asks s i s' g) as (x & a & g' & Hrun & -> & Hv); try done.
      destruct (request_memory_run _ _ _ Hc HA Hcall Hr) as (r & a' & Hrun' & _ & Hpost).
      rewrite Hrun in Hrun'. injection Hrun' as <- <-.
      apply (request_memory_tok cells) in Hrun as [Htok _]; [|done..].
      apply (sys_inv_request s i g); try done. by eapply request_tok_inv.
    + destruct (begin_step_waits s i s' g) as (g' & -> & Hv); try done.
      by apply (sys_inv_local s i g).
  - destruct Hp as [Hr Hq]. destruct (end_step s i s') as (g & x & a & g' & Hg & Hrun & -> & Hv);
      try done.
    pose proof (guest_range _ _ _ HS Hg) as Hi.
    destruct (disable_memory_request_run _ _ _ Hc HA Hi Hr) as (a' & Hrun' & Hpost).
    rewrite Hrun in Hrun'. injection Hrun' as -> <-.
    apply disable_memory_request_tok in Hrun as [Htok _];
      [|by eapply inv_lock|by eapply inv_len|done].
    apply (sys_inv_release s i g); try done. by eapply release_tok_inv.
  - inversion Hs as [| | | |i' g irq' isr2_id h k Hg Hm Hirq Ht Hrun|]; subst.
    apply serve_view in Hrun. by apply (sys_inv_signal s i g irq).
  - inversion Hs as [| | |i' g flags r d Hg Hrun| |i' g g' Hg Hv]; subst.
    + apply keeps in Hrun. injection Hrun as Hh Hv. unfold after. rewrite Hh.
      by apply (sys_inv_local s i g).
    + by apply (sys_inv_local s i g).
Qed.

Lemma sys_start_inv s : sys_start s -> sys_inv s.
Proof.
  intros [HP [h Hh] Hq Hn]. pose proof (arbiter_init_inv cells h) as HA.
  assert (Hz : forall j r, aget (memory_requests (hyp s)) j = Some r -> r = 0).
  { intros j r Hj. rewrite Hh in Hj. apply (inv_max _ _ HA) in Hj. simpl in Hj.
    unfold TOKEN_NULL_PRIORITY in Hj. lia. }
  rewrite <- Hh in HA. split; try done.
  - intros i g Hg. split; [intros _; by apply (Hn i)|intros _].
    destruct (pf_caller _ HP i g Hg) as (Hcall & Hid & _).
    pose proof (caller_in_range _ _ (pf_cells _ HP) Hcall) as Hr. rewrite Hid in Hr.
    destruct (aget_in_range (memory_requests (hyp s)) i) as [r Hj];
      [by rewrite (inv_len _ _ HA)|]. rewrite Hj. f_equal. by apply Hz in Hj.
  - intros j r Hj Hr. by apply Hz in Hj.
  - intros i g Hg. apply agrees_quiet; [done|]. rewrite (Hn i g Hg). rewrite Hh. simpl.
    destruct (pf_caller _ HP i g Hg) as (Hcall & Hid & _).
    pose proof (caller_in_range _ _ (pf_cells _ HP) Hcall) as Hr. rewrite Hid in Hr.
    unfold TOKEN_FREE, NUM_REQUESTS in *. split; [done|lia].
Qed.

Lemma prompt_run_inv s0 s : sys_start s0 -> rtc prompt_step s0 s -> sys_inv s.
Proof. intros Hi%sys_start_inv Hr. induction Hr; eauto using prompt_step_inv. Qed.

(** The priority of a request is that of the cell. *)
Lemma request_priority s i g r :
  platform_ok s -> arb_inv cells (hyp s) -> guests s !! i = Some g ->
  aget (memory_requests (hyp s)) i = Some r -> r <> 0 -> r = cell_priority (pc_cell (cpu_of i)).
Proof.
  intros HP HA Hg Hr Hn. destruct (pf_caller _ HP i g Hg) as (Hcall & Hid & _).
  rewrite <- Hid in Hr. by destruct (caller_request _ _ _ _ (pf_cells _ HP) HA Hcall Hr).
Qed.

Lemma owner_priority s i g :
  platform_ok s -> arb_inv cells (hyp s) -> guests s !! i = Some g -> token_owner (hyp s) = i ->
  token_priority (hyp s) = cell_priority (pc_cell (cpu_of i)).
Proof.
  intros HP HA Hg <-. destruct (decide (token_owner (hyp s) = TOKEN_FREE)) as [Hf|Hf].
  - destruct (pf_caller _ HP _ g Hg) as (Hcall & Hid & _).
    pose proof (caller_in_range _ _ (pf_cells _ HP) Hcall) as Hr.
    unfold TOKEN_FREE, NUM_REQUESTS in *. lia.
  - destruct (inv_owner _ _ HA Hf) as [Ho Hp]. eapply request_priority; eauto. lia.
Qed.

(** *** A guest that waits for the token it owns *)

Record waits_for_own_token (i : Z) (s : system) : Prop := {
  wo_platform : platform_ok s;
  wo_arb : arb_inv cells (hyp s);
  wo_owner : token_owner (hyp s) = i;
  wo_quiet : quiet (irqs (hyp s)) i;
  wo_view : exists g, guests s !! i = Some g /\ token_view (g_kernel g) = MEMORY_TOKEN_REQUESTED
}.

(** Steps in which nobody of higher priority than [i] asks for the token and
    guest [i] does not give it back. *)
Definition calm_step (i : Z) (s s' : system) : Prop :=
  exists l, sys_step s l s' /\ l <> LEnd i /\
    forall j, l = LBegin j ->
      cell_priority (pc_cell (cpu_of j)) <= cell_priority (pc_cell (cpu_of i)).

(** A change elsewhere that leaves owner and signals alone. *)
Lemma waits_update i s a j gj gj' :
  waits_for_own_token i s -> guests s !! j = Some gj -> arb_inv cells a ->
  token_owner a = token_owner (hyp s) -> (quiet (irqs (hyp s)) i -> quiet (irqs a) i) ->
  (j = i -> token_view (g_kernel gj') = token_view (g_kernel gj)) ->
  waits_for_own_token i (mkSystem a (<[j := gj']> (guests s))).
Proof.
  intros [HP HA Ho Hq (g & Hg & Hv)] Hj Ha Howner Hquiet Hview.
  split; simpl; [by apply (platform_update _ _ _ gj)|done|congruence|by apply Hquiet|].
  destruct (decide (j = i)) as [->|].
  - exists gj'. rewrite lookup_insert_eq. split; [done|]. rewrite Hview by done. congruence.
  - exists g. by rewrite lookup_insert_ne.
Qed.

(** A request that does not beat the token leaves owner and signals alone. *)
Lemma request_refused p (s a : arbiter H) x :
  arb_inv cells s -> 0 <= cpu_id p < NUM_REQUESTS ->
  cell_priority (pc_cell p) <= token_priority s -> request_memory p s = Some (x, a) ->
  token_owner a = token_owner s /\ irqs a = irqs s.
Proof.
  intros Hi Hr Hle. unfold request_memory, spin_lock. rewrite (inv_lock _ _ Hi). simpl.
  rewrite set_request_Some by (simpl; eauto using inv_len). simpl.
  zcase; [lia|]. simpl. by intros [= <- <-].
Qed.

(** So does a release by another CPU. *)
Lemma release_other cpu (s a : arbiter H) x :
  arb_inv cells s -> 0 <= cpu < NUM_REQUESTS -> token_owner s <> cpu ->
  disable_memory_request cells cpu s = Some (x, a) ->
  token_owner a = token_owner s /\ irqs a = irqs s.
Proof.
  intros Hi Hr Hne. unfold disable_memory_request, spin_lock. rewrite (inv_lock _ _ Hi). simpl.
  rewrite set_request_Some by (simpl; eauto using inv_len). simpl.
  zcase; [lia|]. simpl. by intros [= <- <-].
Qed.

Lemma calm_step_waits i s s' :
  waits_for_own_token i s -> calm_step i s s' -> waits_for_own_token i s'.
Proof.
  intros HW (l & Hs & Hend & Hbegin). pose proof HW as [HP HA Ho Hq (g & Hg & Hv)].
  pose proof (owner_priority _ _ _ HP HA Hg Ho) as Hprio. destruct l as [j|j|j irq|j].
  - destruct (begin_step _ _ _ Hs) as (gj & _ & _ & _ & _ & _ & _ & Hj & _).
    destruct (pf_caller _ HP j gj Hj) as (Hcall & Hid & _).
    destruct (decide (token_view (g_kernel gj) = MEMORY_TOKEN_NONE)) as [Hn|Hn].
    + destruct (begin_step_asks s j s' gj) as (x & a & gj' & Hrun & -> & _); try done.
      apply (request_memory_tok cells) in Hrun as Htok; [|apply HP|done..].
      destruct (request_refused _ _ _ _ HA (caller_in_range _ _ (pf_cells _ HP) Hcall)
        ltac:(rewrite Hprio; by apply Hbegin) Hrun) as [Hoa Hia].
      apply (waits_update _ _ _ _ gj); try done; [|by rewrite Hia|intros ->; congruence].
      eapply request_tok_inv; [apply HP|done..|apply Htok].
    + destruct (begin_step_waits s j s' gj) as (gj' & -> & Hv'); try done.
      by apply (waits_update _ _ _ _ gj).
  - assert (j <> i) as Hne by congruence.
    destruct (end_step s j s') as (gj & x & a & gj' & Hj & Hrun & -> & _); try done.
    destruct (pf_caller _ HP j gj Hj) as (Hcall & Hid & _).
    pose proof (caller_in_range _ _ (pf_cells _ HP) Hcall) as Hr. rewrite Hid in Hr.
    destruct (release_other _ _ _ _ HA Hr ltac:(congruence) Hrun) as [Hoa Hia].
    apply disable_memory_request_tok in Hrun as [Htok _];
      [|by eapply inv_lock|by eapply inv_len|done].
    apply (waits_update _ _ _ _ gj); try done; [|by rewrite Hia].
    eapply release_tok_inv; [apply HP|done..].
  - inversion Hs as [| | | |i' gj irq' isr2_id h k Hj Hm Hirq Ht Hrun|]; subst.
    apply (waits_update _ _ _ _ gj); simpl; try done.
    + by destruct HA.
    + intros [Hq1 Hq2]. destruct Ht as [_ Ht]. split; rewrite Ht; naive_solver.
    + intros ->. destruct Ht as [Hsee _], Hq. by destruct Hirq as [-> | ->].
  - inversion Hs as [| | |i' gj flags r d Hj Hrun| |i' gj gj' Hj Hv']; subst.
    + apply keeps in Hrun. injection Hrun as Hh Hv'. unfold after. rewrite Hh.
      by apply (waits_update _ _ _ _ gj).
    + by apply (waits_update _ _ _ _ gj).
Qed.

(** C1: when signals are served in time, a guest that is in a memory phase
    and has no end signal outstanding owns the token, its priority is at least
    that of every request, and there is at most one such guest; and when no
    signal is outstanding and some guest wants the token, one of at least its
    priority is in a memory phase. *)
Theorem one_memory_phase s0 s :
  sys_start s0 -> rtc prompt_step s0 s ->
  (forall i, in_memory_phase s i -> token_owner (hyp s) = i /\
     forall j r, aget (memory_requests (hyp s)) j = Some r ->
       r <= cell_priority (pc_cell (cpu_of i))) /\
  (forall i j, in_memory_phase s i -> in_memory_phase s j -> i = j) /\
  (forall i g, (forall j, quiet (irqs (hyp s)) j) -> guests s !! i = Some g ->
     token_view (g_kernel g) <> MEMORY_TOKEN_NONE ->
     exists j, in_memory_phase s j /\
       cell_priority (pc_cell (cpu_of i)) <= cell_priority (pc_cell (cpu_of j))).
Proof.
  intros Hs Hrun. pose proof (prompt_run_inv _ _ Hs Hrun) as HS.
  pose proof (sy_platform _ HS) as HP. pose proof (sy_arb _ HS) as HA.
  assert (Hown : forall i, in_memory_phase s i -> token_owner (hyp s) = i).
  { intros i (g & Hg & Hv & Hne). pose proof (sy_agrees _ HS i g Hg) as Hag.
    apply (ag_quiet _ _ _ _ Hag); [|done]. split; [|done].
    intros [[? _]|[? _]]%(ag_started _ _ _ _ Hag); congruence. }
  split_and!.
  - intros i Hi. split; [by apply Hown|]. pose proof Hi as (g & Hg & _). intros j r Hj.
    rewrite <- (owner_priority s i g) by (done || by apply Hown).
    by apply (inv_max _ _ HA j).
  - intros i j Hi%Hown Hj%Hown. congruence.
  - intros i g Hq Hg Hn. pose proof (guest_range _ _ _ HS Hg) as Hr.
    destruct (aget_in_range (memory_requests (hyp s)) i) as [r Hj];
      [by rewrite (inv_len _ _ HA)|].
    assert (r <> 0) as Hr0.
    { intros ->. apply Hn. by apply (sy_req _ HS i g Hg). }
    pose proof (inv_max _ _ HA _ _ Hj) as Hmax.
    destruct (inv_owner _ _ HA) as [Ho Hpos].
    { intros Hf%(inv_free _ _ HA). unfold TOKEN_NULL_PRIORITY in Hf. lia. }
    destruct (sy_guest _ HS _ _ Ho ltac:(lia)) as [go Hgo]. exists (token_owner (hyp s)). split.
    + exists go. split_and!; [done| |apply Hq].
      by apply (ag_quiet _ _ _ _ (sy_agrees _ HS _ _ Hgo)).
    + rewrite <- (owner_priority s (token_owner (hyp s)) go), <- (request_priority s i g r) by done. lia.
Qed.

(** a guest that waits for a token it already owns, with no signal
    outstanding, keeps waiting, and keeps owning it, as long as nobody of
    higher priority asks for the token. Such a state is reached when an end
    and a start signal are outstanding together and the start signal is served
    first (the run of the witness). *)
Theorem own_token_wait_persists i s s' :
  waits_for_own_token i s -> rtc (calm_step i) s s' -> waits_for_own_token i s'.
Proof. intros HW Hr. induction Hr; eauto using calm_step_waits. Qed.

End System.

(** ** Concrete runs

    Three guests on CPUs 0, 3 and 4, in cells of decreasing priority. *)
Definition sys_cells : list cell := [demo_root; demo_cell 1 0; demo_cell 2 3; demo_cell 3 4].
Definition sys_cpu (i : Z) : per_cpu :=
  if i =? 0 then demo_cpu 1 0 else if i =? 3 then demo_cpu 2 3 else demo_cpu 3 4.
Definition sys_guest : guest := mkGuest demo false.
Definition sys_boot : system (H := list (Z * Z)) :=
  mkSystem (arbiter_init []) {[0 := sys_guest; 3 := sys_guest; 4 := sys_guest]}.

(** The step with a label, computed. *)
Definition sys_exec (l : label) (s : system (H := list (Z * Z))) : option system :=
  match l with
  | LBegin i =>
      g ← guests s !! i;
      r ← DPREM_begin_memory_phase (hypercall 0 demo_regs sys_cells (sys_cpu i)) 2 0 (dstate_of s g);
      Some (after s i r.2)
  | LEnd i =>
      g ← guests s !! i;
      r ← DPREM_end_memory_phase (hypercall 0 demo_regs sys_cells (sys_cpu i)) (dstate_of s g);
      Some (after s i r.2)
  | LSignal i irq =>
      g ← guests s !! i;
      if g_masked g || negb (bool_decide ((i, irq) ∈ irqs (hyp s))) then None
      else
        r ← serve_signal 3 irq (g_kernel g);
        Some (mkSystem (with_irqs (filter (fun x => x <> (i, irq)) (irqs (hyp s))) (hyp s))
                (<[i := mkGuest r.2 false]> (guests s)))
  | LLocal i => None
  end.

(** A run along labels that pass a test. *)
Fixpoint sys_run (ok : label -> system (H := list (Z * Z)) -> bool) (ls : list label) (s : system)
    : option system :=
  match ls with
  | [] => Some s
  | l :: ls => if ok l s then s' ← sys_exec l s; sys_run ok ls s' else None
  end.
Definition label_ok (l : label) (s : system (H := list (Z * Z))) : bool :=
  match l with LSignal _ irq => (irq =? 13) || (irq =? 14) | _ => true end.
Definition prompt_ok (l : label) (s : system (H := list (Z * Z))) : bool :=
  label_ok l s &&
  match l with LSignal _ _ => true | _ => bool_decide (irqs (hyp s) = []) end.

Notation demo_step := (sys_step demo_regs sys_cells sys_cpu).

Lemma taken_filter (l : list (Z * Z)) i irq :
  (i, irq) ∈ l -> taken l (filter (fun x => x <> (i, irq)) l) i irq.
Proof.
  intros Hin. split; [done|]. intros c j. simpl. rewrite list_elem_of_filter. naive_solver.
Qed.

Lemma sys_exec_step l s s' :
  label_ok l s = true -> sys_exec l s = Some s' -> demo_step s l s'.
Proof.
  destruct l as [i|i|i irq|i]; simpl; intros Hirq Hex; [..|done];
    destruct (guests s !! i) as [g|] eqn:Hg; try done; simpl in Hex.
  - destruct (DPREM_begin_memory_phase _ _ _ _) as [[r d]|] eqn:Hc; [|done].
    injection Hex as <-. by eapply sys_begin.
  - destruct (DPREM_end_memory_phase _ _) as [[r d]|] eqn:Hc; [|done].
    injection Hex as <-. by eapply sys_end.
  - destruct (g_masked g) eqn:Hm; [done|]. case_bool_decide as Hin; [|done].
    destruct (serve_signal 3 irq (g_kernel g)) as [[[] k]|] eqn:Hc; [|done].
    injection Hex as <-. eapply sys_signal; eauto; [|by apply taken_filter].
    apply orb_true_iff in Hirq as [?|?]; b2p; eauto.
Qed.

Lemma sys_run_steps ls s s' :
  sys_run label_ok ls s = Some s' -> rtc (fun s s' => exists l, demo_step s l s') s s'.
Proof.
  revert s. induction ls as [|l ls IH]; simpl; intros s Hr; [injection Hr as <-; apply rtc_refl|].
  destruct (label_ok l s) eqn:Hok; [|done].
  destruct (sys_exec l s) as [s1|] eqn:Hx; [|done]. simpl in Hr.
  eapply rtc_l; [|by apply IH]. exists l. by apply sys_exec_step.
Qed.

Lemma sys_run_prompt ls s s' :
  sys_run prompt_ok ls s = Some s' -> rtc (prompt_step demo_regs sys_cells sys_cpu) s s'.
Proof.
  revert s. induction ls as [|l ls IH]; simpl; intros s Hr; [injection Hr as <-; apply rtc_refl|].
  destruct (prompt_ok l s) eqn:Hok; [|done].
  destruct (sys_exec l s) as [s1|] eqn:Hx; [|done]. simpl in Hr.
  apply andb_true_iff in Hok as [Hok Hq].
  eapply rtc_l; [|by apply IH]. exists l. split; [|by apply sys_exec_step].
  destruct l; try done; apply bool_decide_eq_true in Hq; simpl; rewrite Hq; intros; split;
    try (by intros ? ?); intros; split; apply not_elem_of_nil.
Qed.

Lemma sys_boot_start : sys_start sys_cells sys_cpu sys_boot.
Proof.
  assert (Hg : forall i g, guests sys_boot !! i = Some g ->
    g = sys_guest /\ (i = 0 \/ i = 3 \/ i = 4)).
  { intros i g. simpl. rewrite !lookup_insert_Some, lookup_singleton_Some. naive_solver. }
  split.
  - split.
    + split.
      * intros c Hc. repeat (apply elem_of_cons in Hc as [->|Hc];
          [eexists; split; [vm_compute; reflexivity|unfold NUM_REQUESTS; lia]|]).
        by apply not_elem_of_nil in Hc.
      * intros c1 c2 H1 H2.
        repeat (apply elem_of_cons in H1 as [->|H1]); repeat (apply elem_of_cons in H2 as [->|H2]);
          try (by apply not_elem_of_nil in H1); try (by apply not_elem_of_nil in H2);
          vm_compute; intros; done.
    + intros i g [_ Hi]%Hg. unfold caller_ok, sys_cells. rewrite !elem_of_cons.
      destruct Hi as [->|[->| ->]]; split_and!; try reflexivity; simpl; eauto 6.
  - by exists [].
  - intros i. split; apply not_elem_of_nil.
  - by intros i g [-> _]%Hg.
Qed.

(** CPU 3 has the token, CPU 0 asks and takes it, CPU 3 is told. *)
Definition phase_run : list label := [LBegin 3; LBegin 0; LSignal 3 14].
Definition phase_state : system (H := list (Z * Z)) :=
  default sys_boot (sys_run prompt_ok phase_run sys_boot).

Lemma phase_irqs : irqs (hyp phase_state) = [].
Proof. vm_compute. reflexivity. Qed.

Lemma quiet_nil i : quiet (H := list (Z * Z)) [] i.
Proof. split; apply not_elem_of_nil. Qed.

Lemma one_memory_phase_witness :
  in_memory_phase phase_state 0 /\
  (forall i, in_memory_phase phase_state i -> token_owner (hyp phase_state) = i) /\
  (exists j, in_memory_phase phase_state j /\
     cell_priority (pc_cell (sys_cpu 3)) <= cell_priority (pc_cell (sys_cpu j))).
Proof.
  destruct (one_memory_phase demo_regs sys_cells sys_cpu sys_boot phase_state sys_boot_start)
    as (Hown & _ & Hsome).
  - apply (sys_run_prompt phase_run). vm_compute. reflexivity.
  - split_and!.
    + eexists. split_and!; [vm_compute; reflexivity|vm_compute; reflexivity|].
      rewrite phase_irqs. apply quiet_nil.
    + intros i Hi. by apply Hown.
    + eapply (Hsome 3); [|vm_compute; reflexivity|vm_compute; discriminate].
      intros j. rewrite phase_irqs. apply quiet_nil.
Defined.

(** CPU 0 takes the token from CPU 3 and gives it back before CPU 3 has served
    the end signal; CPU 3 then serves the start signal first. *)
Definition lost_run : list label :=
  [LBegin 3; LBegin 0; LEnd 0; LSignal 3 13; LSignal 3 14].
Definition lost_state : system (H := list (Z * Z)) :=
  default sys_boot (sys_run label_ok lost_run sys_boot).
(** Then CPU 4, of lower priority, asks in vain. *)
Definition starved_state : system (H := list (Z * Z)) :=
  default sys_boot (sys_exec (LBegin 4) lost_state).

Lemma lost_facts :
  hyp lost_state = mk_arbiter false [0; 0; 0; 4; 0; 0] 3 4 [] /\
  exists g, guests lost_state !! 3 = Some g /\ token_view (g_kernel g) = MEMORY_TOKEN_REQUESTED.
Proof.
  split; [vm_compute; reflexivity|]. eexists. split; vm_compute; reflexivity.
Qed.

Lemma step_platform s l s' :
  platform_ok sys_cells sys_cpu s -> demo_step s l s' -> platform_ok sys_cells sys_cpu s'.
Proof. intros HP Hs. destruct Hs; unfold after; eapply platform_update; eauto. Qed.

Lemma run_platform s s' :
  rtc (fun s s' => exists l, demo_step s l s') s s' ->
  platform_ok sys_cells sys_cpu s -> platform_ok sys_cells sys_cpu s'.
Proof. induction 1 as [|s1 s2 s3 [l Hs] _ IH]; [done|]. eauto using step_platform. Qed.

Lemma lost_reached : rtc (fun s s' => exists l, demo_step s l s') sys_boot lost_state.
Proof. apply (sys_run_steps lost_run). vm_compute. reflexivity. Qed.

Lemma lost_waits : waits_for_own_token sys_cells sys_cpu 3 lost_state.
Proof.
  pose proof (st_platform _ _ _ sys_boot_start) as HP.
  destruct lost_facts as [Hh Hv]. split.
  - apply (run_platform _ _ lost_reached HP).
  - apply (arb_reachable_inv _ []); [apply HP|]. eapply rtc_l; [|apply rtc_refl].
    eapply (step_hypercall _ 0 demo_regs (demo_cpu 2 3) BEGIN_MEM_PHASE).
    + split; [|reflexivity]. unfold sys_cells. rewrite !elem_of_cons. eauto 6.
    + rewrite Hh. vm_compute. reflexivity.
  - by rewrite Hh.
  - rewrite Hh. apply quiet_nil.
  - exact Hv.
Qed.

Lemma own_token_wait_witness :
  rtc (fun s s' => exists l, demo_step s l s') sys_boot lost_state /\
  waits_for_own_token sys_cells sys_cpu 3 lost_state /\
  waits_for_own_token sys_cells sys_cpu 3 starved_state.
Proof.
  split_and!; [apply lost_reached|apply lost_waits|].
  apply (own_token_wait_persists demo_regs sys_cells sys_cpu 3 lost_state starved_state lost_waits).
  eapply rtc_l; [|apply rtc_refl]. exists (LBegin 4). split_and!.
  - apply sys_exec_step; [done|]. vm_compute. reflexivity.
  - discriminate.
  - intros j [= <-]. vm_compute. discriminate.
Defined.
