(* ===== verification/OsekApi.v ===== *)
(** * ERIKA: the OSEK services

    Models the services of ee_oo_api_osek.c that the configured kernel has
    (standard status: no extended checks, service protection, error hook or
    ORTI; no resources, counters or alarms): task, event and interrupt
    services, with the interrupt mask of ee_hal_internal.h.

    A service that switches to another task stops there: the rest of the call
    belongs to the caller's context and is a definition of its own (the
    [..._resumed] ones), run when the caller is dispatched again. The
    interrupt mask of the target task is part of its context.

    The theorems give each service on all its branches, and show that the
    services keep the scheduling invariant. *)

From Stdlib Require Import ZArith Lia.
From stdpp Require Import base tactics list option gmap sorting.
From S2P Require Import Prelude StateMonad Kernel Scheduler SchedPartitioned.

Definition E_OS_VALUE : Z := 8.
Definition E_OS_PARAM_POINTER : Z := 14.
Definition E_OS_SYS_INIT : Z := 24.
Definition E_OS_SYS_SUSPEND_NESTING_LIMIT : Z := 25.
Definition E_OS_SYS_TASK : Z := 26.
Definition E_OS_SYS_STACK : Z := 27.
Definition E_OS_SYS_ACT : Z := 28.
Definition OSEE_MAX_BYTE : Z := u8 (-1).
Definition INVALID_TASK : Z := u64 (-1).

(** ** The interrupt mask of the core *)

(** The kernel store and the DAIF register. *)
Record cpu := mkCpu { ck : kernel; daif : Z }.

Definition on_k {A} (m : ST kernel A) : ST cpu A := fun s =>
  match m (ck s) with Some (x, k) => Some (x, mkCpu k (daif s)) | None => None end.

Definition OSEE_AARCH64_I_DAIF : Z := Z.shiftl 1 7.
Definition OSEE_AARCH64_I_DAIF_NOT_SET (f : Z) : bool :=
  bool_decide (Z.land f OSEE_AARCH64_I_DAIF = 0).

Definition osEE_hal_disableIRQ : ST cpu unit :=
  modify (fun s => mkCpu (ck s) (Z.lor (daif s) OSEE_AARCH64_I_DAIF)).
Definition osEE_hal_enableIRQ : ST cpu unit :=
  modify (fun s => mkCpu (ck s) (Z.ldiff (daif s) OSEE_AARCH64_I_DAIF)).

Definition osEE_hal_suspendIRQ : ST cpu Z :=
  flags ← gets daif;
  _ ← osEE_hal_disableIRQ;
  mret flags.
Definition osEE_hal_resumeIRQ (flags : Z) : ST cpu unit :=
  if OSEE_AARCH64_I_DAIF_NOT_SET flags then osEE_hal_enableIRQ else mret tt.

(** The priority mask of the GIC is not used ([OSEE_GIC_PMR_HANDLING]). *)
Definition osEE_hal_begin_nested_primitive : ST cpu Z := osEE_hal_suspendIRQ.
Definition osEE_hal_end_nested_primitive (flags : Z) : ST cpu unit := osEE_hal_resumeIRQ flags.
Definition osEE_begin_primitive : ST cpu Z := osEE_hal_begin_nested_primitive.
Definition osEE_end_primitive (flags : Z) : ST cpu unit := osEE_hal_end_nested_primitive flags.

(** After a switch the caller does not continue here. *)
Definition end_primitive_if_here (switched : bool) (flags : Z) : ST cpu unit :=
  if switched then mret tt else osEE_end_primitive flags.

(** The stores of a shutdown; the core then never returns to the caller. *)
Definition osEE_shutdown_os (Error : Z) : ST cpu unit :=
  _ ← on_k (upd_ccb (set_os_status OSEE_KERNEL_SHUTDOWN));
  on_k (upd_ccb (set_last_error Error)).

(** The result: [None] when the kernel shuts down. *)
Definition ShutdownOS (Error : Z) : ST cpu (option Z) :=
  flags ← osEE_begin_primitive;
  c ← on_k get_ccb;
  if decide (os_status c = OSEE_KERNEL_STARTED \/ os_status c = OSEE_KERNEL_STARTING) then
    _ ← osEE_shutdown_os Error;
    mret None
  else
    _ ← osEE_end_primitive flags;
    mret (Some E_OS_STATE).

(** ** Interrupt services *)
Definition DisableAllInterrupts : ST cpu unit :=
  _ ← osEE_hal_disableIRQ;
  on_k (upd_ccb (set_d_isr_all_cnt 1)).

Definition EnableAllInterrupts : ST cpu unit :=
  c ← on_k get_ccb;
  if decide (0 < d_isr_all_cnt c) then
    _ ← on_k (upd_ccb (set_d_isr_all_cnt 0));
    osEE_hal_enableIRQ
  else mret tt.

(** The result says whether the service returns. *)
Definition osEE_suspend_all_interrupts : ST cpu bool :=
  c ← on_k get_ccb;
  if decide (s_isr_all_cnt c = 0) then
    flags ← osEE_hal_suspendIRQ;
    _ ← on_k (upd_ccb (set_prev_s_isr_all_status flags));
    _ ← on_k (upd_ccb (fun c => set_s_isr_all_cnt (u8 (s_isr_all_cnt c + 1)) c));
    mret true
  else if decide (s_isr_all_cnt c < OSEE_MAX_BYTE) then
    _ ← on_k (upd_ccb (fun c => set_s_isr_all_cnt (u8 (s_isr_all_cnt c + 1)) c));
    mret true
  else
    _ ← osEE_shutdown_os E_OS_SYS_SUSPEND_NESTING_LIMIT;
    mret false.

Definition SuspendAllInterrupts : ST cpu bool := osEE_suspend_all_interrupts.

Definition ResumeAllInterrupts : ST cpu unit :=
  c ← on_k get_ccb;
  if decide (0 < s_isr_all_cnt c) then
    _ ← on_k (upd_ccb (fun c => set_s_isr_all_cnt (u8 (s_isr_all_cnt c - 1)) c));
    c' ← on_k get_ccb;
    if decide (s_isr_all_cnt c' = 0)
    then osEE_hal_resumeIRQ (prev_s_isr_all_status c')
    else mret tt
  else mret tt.

Definition SuspendOSInterrupts : ST cpu bool :=
  c ← on_k get_ccb;
  if decide (s_isr_os_cnt c = 0) then
    flags ← osEE_hal_begin_nested_primitive;
    _ ← on_k (upd_ccb (set_prev_s_isr_os_status flags));
    _ ← on_k (upd_ccb (fun c => set_s_isr_os_cnt (u8 (s_isr_os_cnt c + 1)) c));
    mret true
  else if decide (s_isr_os_cnt c < OSEE_MAX_BYTE) then
    _ ← on_k (upd_ccb (fun c => set_s_isr_os_cnt (u8 (s_isr_os_cnt c + 1)) c));
    mret true
  else
    _ ← osEE_shutdown_os E_OS_SYS_SUSPEND_NESTING_LIMIT;
    mret false.

Definition ResumeOSInterrupts : ST cpu unit :=
  c ← on_k get_ccb;
  if decide (0 < s_isr_os_cnt c) then
    _ ← on_k (upd_ccb (fun c => set_s_isr_os_cnt (u8 (s_isr_os_cnt c - 1)) c));
    c' ← on_k get_ccb;
    if decide (s_isr_os_cnt c' = 0)
    then osEE_hal_end_nested_primitive (prev_s_isr_os_status c')
    else mret tt
  else mret tt.

(** "Silently reset ISR counters if service protection is not configured" *)
Definition reset_isr_counters : ST cpu unit :=
  c ← on_k get_ccb;
  _ ← (if decide (0 < s_isr_all_cnt c) then
         _ ← on_k (upd_ccb (set_s_isr_all_cnt 0));
         osEE_hal_resumeIRQ (prev_s_isr_all_status c)
       else mret tt);
  c' ← on_k get_ccb;
  if decide (0 < d_isr_all_cnt c') then
    _ ← on_k (upd_ccb (set_d_isr_all_cnt 0));
    osEE_hal_enableIRQ
  else mret tt.

(** ** Task services *)
Definition osEE_is_valid_tid (k : kernel) (t : Z) : bool := bool_decide (t < free_task_index k).

(** [task_type <= OSEE_TASK_TYPE_EXTENDED] *)
Definition is_plain_task (d : OsEE_TDB) : bool :=
  bool_decide (task_type d = OSEE_TASK_TYPE_BASIC \/ task_type d = OSEE_TASK_TYPE_EXTENDED).

Definition tdb_of_tid (TaskID : Z) : ST kernel Z :=
  from_option (fun k => aget (tdb_ptr_array k) TaskID).

(** The result: the status, and whether the caller was preempted. *)
Definition ActivateTask (TaskID : Z) : ST cpu (Z * bool) :=
  valid ← on_k (gets (fun k => osEE_is_valid_tid k TaskID));
  if negb valid then mret (E_OS_ID, false)
  else
    p_tdb_act ← on_k (tdb_of_tid TaskID);
    d ← on_k (get_tdb p_tdb_act);
    if is_plain_task d then
      flags ← osEE_begin_primitive;
      ev ← on_k (osEE_task_activated p_tdb_act);
      switched ← (if decide (ev = E_OK)
                  then on_k (osEE_scheduler_task_activated p_tdb_act) else mret false);
      _ ← end_primitive_if_here switched flags;
      mret (ev, switched)
    else mret (E_OS_ID, false).

(** The result: [None] when the task ended (the service does not return). *)
Definition ChainTask (TaskID : Z) : ST cpu (option Z) :=
  c ← on_k get_ccb;
  let p_curr_ := p_curr c in
  valid ← on_k (gets (fun k => osEE_is_valid_tid k TaskID));
  if negb valid then mret (Some E_OS_ID)
  else
    p_tdb_act ← on_k (tdb_of_tid TaskID);
    d ← on_k (get_tdb p_tdb_act);
    if is_plain_task d then
      _ ← reset_isr_counters;
      flags ← osEE_begin_primitive;
      ev ← (if decide (p_tdb_act = p_curr_) then
              _ ← on_k (upd_tdb_tcb p_tdb_act (set_status OSEE_TASK_CHAINED));
              mret E_OK
            else
              ev ← on_k (osEE_task_activated p_tdb_act);
              _ ← (if decide (ev = E_OK)
                   then _ ← on_k (osEE_scheduler_task_insert p_tdb_act); mret tt
                   else mret tt);
              mret ev);
      if decide (ev = E_OK) then
        _ ← on_k osEE_scheduler_task_end;
        mret None
      else
        _ ← osEE_end_primitive flags;
        mret (Some ev)
    else mret (Some E_OS_ID).

(** Does not return. *)
Definition TerminateTask : ST cpu unit :=
  _ ← reset_isr_counters;
  _ ← osEE_begin_primitive;
  on_k osEE_scheduler_task_end.

(** A task function that returned: [osEE_scheduler_task_not_terminated]. *)
Definition osEE_scheduler_task_not_terminated : ST cpu unit :=
  _ ← on_k (upd_ccb (set_s_isr_os_cnt 0));
  _ ← reset_isr_counters;
  _ ← osEE_begin_primitive;
  on_k osEE_scheduler_task_end.

(** The result: whether the caller was preempted (then [Schedule_resumed]
    finishes the call). *)
Definition Schedule_resumed (caller : Z) : ST cpu unit :=
  d ← on_k (get_tdb caller);
  on_k (upd_tcb (p_tcb d) (set_current_prio (dispatch_prio d))).

Definition Schedule : ST cpu bool :=
  c ← on_k get_ccb;
  d ← on_k (get_tdb (p_curr c));
  tcb ← on_k (get_tcb (p_tcb d));
  if decide (current_prio tcb = dispatch_prio d) then
    flags ← osEE_begin_primitive;
    _ ← on_k (upd_tcb (p_tcb d) (set_current_prio (ready_prio d)));
    switched ← on_k osEE_scheduler_task_preemption_point;
    if (switched : bool) then mret true
    else
      _ ← Schedule_resumed (p_curr c);
      _ ← osEE_end_primitive flags;
      mret false
  else mret false.

(** The search of [GetTaskID] below an ISR2. *)
Fixpoint first_plain_tid (fuel : nat) (p_sn : Z) : ST kernel Z :=
  if decide (p_sn = NULL) then mret INVALID_TASK
  else match fuel with
  | O => undefined
  | S fuel' =>
      n ← get_sn p_sn;
      d ← get_tdb (sn_tdb n);
      if is_plain_task d then mret (tid d) else first_plain_tid fuel' (sn_next n)
  end.

(** The task the caller is or has preempted. *)
Definition running_tid : ST kernel Z :=
  c ← get_ccb;
  d ← get_tdb (p_curr c);
  if is_plain_task d then mret (tid d)
  else if decide (task_type d = OSEE_TASK_TYPE_ISR2) then
    n ← get_sn (p_stk_sn c);
    fuel ← gets list_fuel;
    first_plain_tid fuel (sn_next n)
  else mret INVALID_TASK.

(** The status and the written identifier; a pointer argument is given by
    whether it is not NULL. *)
Definition GetTaskID (TaskID : bool) : ST kernel (Z * option Z) :=
  if negb TaskID then mret (E_OS_PARAM_POINTER, None)
  else t ← running_tid; mret (E_OK, Some t).

Inductive TaskState := SUSPENDED | READY | WAITING | RUNNING.

Definition state_of (s : OsEE_task_status) : TaskState :=
  match s with
  | OSEE_TASK_SUSPENDED => SUSPENDED
  | OSEE_TASK_READY | OSEE_TASK_READY_STACKED => READY
  | OSEE_TASK_WAITING => WAITING
  | OSEE_TASK_RUNNING | OSEE_TASK_CHAINED => RUNNING
  end.

(** The status and the written state. *)
Definition GetTaskState (TaskID : Z) (State : bool) : ST kernel (Z * option TaskState) :=
  valid ← gets (fun k => osEE_is_valid_tid k TaskID);
  if negb State then mret (E_OS_PARAM_POINTER, None)
  else if negb valid then mret (E_OS_ID, None)
  else
    p_tdb ← tdb_of_tid TaskID;
    c ← get_tdb_tcb p_tdb;
    mret (E_OK, Some (state_of (status c))).

(** ** Event services *)

(** The caller starts to wait: up to the context switch. *)
Definition wait_event_block (p_curr_ p_curr_tcb Mask : Z) : ST kernel unit :=
  _ ← upd_tcb p_curr_tcb (set_wait_mask Mask);
  own ← osEE_scheduler_core_pop_running L_rq;
  _ ← upd_tcb p_curr_tcb (set_p_own_sn own);
  _ ← upd_tcb p_curr_tcb (set_status OSEE_TASK_WAITING);
  c ← get_ccb;
  osEE_change_context_from_running p_curr_ (p_curr c).

(** The result: whether the caller waits (then [WaitEvent_resumed] finishes
    the call), and its saved interrupt state. *)
Definition WaitEvent (Mask : Z) : ST cpu (bool * Z) :=
  c ← on_k get_ccb;
  let p_curr_ := p_curr c in
  d ← on_k (get_tdb p_curr_);
  flags ← osEE_begin_primitive;
  curr_tcb ← on_k (get_tcb (p_tcb d));
  if decide (Z.land (event_mask curr_tcb) Mask = 0) then
    _ ← on_k (wait_event_block p_curr_ (p_tcb d) Mask);
    mret (true, flags)
  else
    _ ← osEE_end_primitive flags;
    mret (false, flags).

Definition WaitEvent_resumed (caller flags : Z) : ST cpu Z :=
  _ ← on_k (upd_tdb_tcb caller (set_wait_mask 0));
  _ ← osEE_end_primitive flags;
  mret E_OK.

(** What [SetEvent] does within the critical section. *)
Definition set_event_locked (p_tdb_waking_up Mask : Z) : ST kernel (Z * bool) :=
  '(p_sn, ev) ← osEE_task_event_set_mask p_tdb_waking_up Mask;
  if decide (p_sn <> NULL) then
    preempt ← osEE_scheduler_task_unblocked p_sn;
    if (preempt : bool) then
      switched ← osEE_scheduler_task_preemption_point;
      mret (ev, switched)
    else mret (ev, false)
  else mret (ev, false).

Definition SetEvent (TaskID Mask : Z) : ST cpu (Z * bool) :=
  valid ← on_k (gets (fun k => osEE_is_valid_tid k TaskID));
  if negb valid then mret (E_OS_ID, false)
  else
    p_tdb_waking_up ← on_k (tdb_of_tid TaskID);
    flags ← osEE_begin_primitive;
    '(ev, switched) ← on_k (set_event_locked p_tdb_waking_up Mask);
    _ ← end_primitive_if_here switched flags;
    mret (ev, switched).

(** The status and the written mask. *)
Definition GetEvent (TaskID : Z) (Event : bool) : ST kernel (Z * option Z) :=
  valid ← gets (fun k => osEE_is_valid_tid k TaskID);
  if negb valid then mret (E_OS_ID, None)
  else
    p_tdb_event ← tdb_of_tid TaskID;
    c ← get_tdb_tcb p_tdb_event;
    if Event then mret (E_OK, Some (event_mask c)) else mret (E_OS_PARAM_POINTER, None).

Definition ClearEvent (Mask : Z) : ST cpu Z :=
  c ← on_k get_ccb;
  d ← on_k (get_tdb (p_curr c));
  flags ← osEE_begin_primitive;
  _ ← on_k (upd_tcb (p_tcb d) (fun c => set_event_mask (Z.land (event_mask c) (u64 (Z.lnot Mask))) c));
  _ ← osEE_end_primitive flags;
  mret E_OK.

(** ** Execution of the services *)
Lemma on_k_run {A} (m : ST kernel A) s x k :
  m (ck s) = Some (x, k) -> on_k m s = Some (x, mkCpu k (daif s)).
Proof. intros H. unfold on_k. by rewrite H. Qed.

(** *** The mask *)
Definition irqs_masked (s : cpu) : Prop := Z.testbit (daif s) 7 = true.

Lemma I_DAIF_testbit i : Z.testbit OSEE_AARCH64_I_DAIF i = bool_decide (i = 7).
Proof.
  unfold OSEE_AARCH64_I_DAIF. rewrite Z.shiftl_1_l, Z.pow2_bits_eqb by lia.
  case_bool_decide as H; [by subst|]. apply Z.eqb_neq. lia.
Qed.

Lemma not_set_testbit f : OSEE_AARCH64_I_DAIF_NOT_SET f = negb (Z.testbit f 7).
Proof.
  unfold OSEE_AARCH64_I_DAIF_NOT_SET. destruct (Z.testbit f 7) eqn:Hb; simpl.
  - apply bool_decide_eq_false. intros H. apply (f_equal (fun z => Z.testbit z 7)) in H.
    rewrite Z.land_spec, Hb in H. done.
  - apply bool_decide_eq_true. apply Z.bits_inj'. intros i Hi.
    rewrite Z.land_spec, I_DAIF_testbit, Z.bits_0. case_bool_decide as H; [|apply andb_false_r].
    rewrite H, Hb. done.
Qed.

(** Masking and unmasking by the saved flags is the identity. *)
Lemma mask_unmask f :
  (if OSEE_AARCH64_I_DAIF_NOT_SET f then Z.ldiff (Z.lor f OSEE_AARCH64_I_DAIF) OSEE_AARCH64_I_DAIF
   else Z.lor f OSEE_AARCH64_I_DAIF) = f.
Proof.
  rewrite not_set_testbit. destruct (Z.testbit f 7) eqn:Hb; cbn [negb]; apply Z.bits_inj';
    intros i Hi; rewrite ?Z.ldiff_spec, Z.lor_spec, I_DAIF_testbit.
  all: destruct (decide (i = 7)) as [->|H]; [by rewrite Hb|].
  all: rewrite bool_decide_false by done; by destruct (Z.testbit f i).
Qed.

Lemma begin_primitive_run s :
  osEE_begin_primitive s = Some (daif s, mkCpu (ck s) (Z.lor (daif s) OSEE_AARCH64_I_DAIF)).
Proof. done. Qed.

Lemma resumeIRQ_run s f :
  osEE_hal_resumeIRQ f s = Some (tt, mkCpu (ck s)
    (if OSEE_AARCH64_I_DAIF_NOT_SET f then Z.ldiff (daif s) OSEE_AARCH64_I_DAIF else daif s)).
Proof. unfold osEE_hal_resumeIRQ. destruct s. by destruct (OSEE_AARCH64_I_DAIF_NOT_SET f). Qed.

Lemma end_primitive_run k f :
  osEE_end_primitive f (mkCpu k (Z.lor f OSEE_AARCH64_I_DAIF)) = Some (tt, mkCpu k f).
Proof.
  unfold osEE_end_primitive, osEE_hal_end_nested_primitive. rewrite resumeIRQ_run.
  cbn [ck daif]. by rewrite mask_unmask.
Qed.

Lemma masked_lor k f : irqs_masked (mkCpu k (Z.lor f OSEE_AARCH64_I_DAIF)).
Proof. unfold irqs_masked. cbn [daif]. rewrite Z.lor_spec, I_DAIF_testbit. apply orb_true_r. Qed.

(** *** Nesting of the interrupt services *)
Fixpoint times {A} (n : nat) (m : ST cpu A) : ST cpu unit :=
  match n with O => mret tt | S n' => _ ← m; times n' m end.

(** The core within [n] nested suspensions of all interrupts. *)
Definition suspended_all (s : cpu) (n : Z) : cpu :=
  mkCpu (set_ccb (set_s_isr_all_cnt n (set_prev_s_isr_all_status (daif s) (ccb (ck s)))) (ck s))
        (Z.lor (daif s) OSEE_AARCH64_I_DAIF).

Lemma suspend_first s :
  s_isr_all_cnt (ccb (ck s)) = 0 ->
  SuspendAllInterrupts s = Some (true, suspended_all s 1).
Proof. intros H. destruct s as [[? ? ? []] f]. simpl in H. by subst. Qed.

Lemma suspend_more s n :
  0 < n < 255 -> SuspendAllInterrupts (suspended_all s n) = Some (true, suspended_all s (n + 1)).
Proof.
  intros H. unfold SuspendAllInterrupts, osEE_suspend_all_interrupts.
  erewrite bind_run by done. change (s_isr_all_cnt (ccb (ck (suspended_all s n)))) with n.
  rewrite decide_False by lia. rewrite decide_True by (change OSEE_MAX_BYTE with 255; lia).
  erewrite bind_run by done. unfold suspended_all at 2.
  by rewrite <- (u8_small (n + 1)) by lia.
Qed.

Lemma resume_more s n :
  1 < n <= 255 -> ResumeAllInterrupts (suspended_all s n) = Some (tt, suspended_all s (n - 1)).
Proof.
  intros H. unfold ResumeAllInterrupts. erewrite bind_run by done.
  change (s_isr_all_cnt (ccb (ck (suspended_all s n)))) with n.
  rewrite decide_True by lia. do 2 erewrite bind_run by done.
  rewrite decide_False.
  - unfold suspended_all at 2. by rewrite <- (u8_small (n - 1)) by lia.
  - change (u8 (n - 1) <> 0). rewrite u8_small; lia.
Qed.

Lemma resume_last s :
  ResumeAllInterrupts (suspended_all s 1) =
  Some (tt, mkCpu (ck (suspended_all s 0)) (daif s)).
Proof.
  unfold ResumeAllInterrupts. erewrite bind_run by done.
  rewrite decide_True by done. do 2 erewrite bind_run by done.
  rewrite decide_True by done. rewrite resumeIRQ_run, <- (mask_unmask (daif s)) at 1. done.
Qed.

Lemma suspends_more s : forall (n : nat) j,
  0 < j -> j + Z.of_nat n <= 255 ->
  times n SuspendAllInterrupts (suspended_all s j) = Some (tt, suspended_all s (j + Z.of_nat n)).
Proof.
  induction n as [|n IH]; intros j Hj Hn.
  - by rewrite Z.add_0_r.
  - simpl times. erewrite bind_run by (apply suspend_more; lia).
    rewrite IH by lia. do 3 f_equal. lia.
Qed.

Lemma suspends_run s (n : nat) :
  s_isr_all_cnt (ccb (ck s)) = 0 -> (0 < n <= 255)%nat ->
  times n SuspendAllInterrupts s = Some (tt, suspended_all s (Z.of_nat n)).
Proof.
  intros H0 Hn. destruct n as [|n]; [lia|]. simpl times.
  erewrite bind_run by by apply suspend_first. rewrite suspends_more by lia.
  do 3 f_equal. lia.
Qed.

Lemma resumes_run s : forall (m : nat) j,
  Z.of_nat m < j <= 255 ->
  times m ResumeAllInterrupts (suspended_all s j) = Some (tt, suspended_all s (j - Z.of_nat m)).
Proof.
  induction m as [|m IH]; intros j Hj.
  - by rewrite Z.sub_0_r.
  - simpl times. erewrite bind_run by (apply resume_more; lia).
    rewrite IH by lia. do 3 f_equal. lia.
Qed.

Lemma times_snoc {A} (m : ST cpu A) : forall n s s' x s'',
  times n m s = Some (tt, s') -> m s' = Some (x, s'') -> times (S n) m s = Some (tt, s'').
Proof.
  induction n as [|n IH]; intros s s' x s'' H1 H2.
  - simpl in H1. injection H1 as <-. simpl. by erewrite bind_run by done.
  - simpl in H1. unfold mbind, st_bind in H1.
    destruct (m s) as [[y s1]|] eqn:Hm; [|done].
    change (times (S (S n)) m s) with ((m ≫= fun _ => times (S n) m) s).
    erewrite bind_run by exact Hm. by eapply IH.
Qed.

(** Suspensions of all interrupts nest: after [n] of them and [m] resumes
    (at most 255 and [m <= n]) the counter is [n - m]; the interrupts are
    masked while it is positive, and the last resume restores the mask the
    first suspension found. The 256th nested suspension does not return: it
    shuts the kernel down with the nesting-limit error. *)
Theorem interrupt_services_nest s :
  s_isr_all_cnt (ccb (ck s)) = 0 ->
  (forall n m : nat, (0 < n <= 255)%nat -> (m <= n)%nat ->
    exists s', (_ ← times n SuspendAllInterrupts; times m ResumeAllInterrupts) s = Some (tt, s') /\
      s_isr_all_cnt (ccb (ck s')) = Z.of_nat (n - m) /\
      ((m < n)%nat -> irqs_masked s') /\ (m = n -> daif s' = daif s)) /\
  (exists s', (_ ← times 255 SuspendAllInterrupts; SuspendAllInterrupts) s = Some (false, s') /\
      os_status (ccb (ck s')) = OSEE_KERNEL_SHUTDOWN /\
      last_error (ccb (ck s')) = E_OS_SYS_SUSPEND_NESTING_LIMIT).
Proof.
  intros H0. split.
  - intros n m Hn Hm. destruct (decide (m = n)) as [->|Hne].
    + exists (mkCpu (ck (suspended_all s 0)) (daif s)). split_and!.
      * erewrite bind_run by by apply suspends_run.
        destruct n as [|n]; [lia|]. eapply times_snoc; [apply resumes_run; lia|].
        replace (Z.of_nat (S n) - Z.of_nat n) with 1 by lia. apply resume_last.
      * cbn. by rewrite Nat.sub_diag.
      * lia.
      * done.
    + exists (suspended_all s (Z.of_nat n - Z.of_nat m)). split_and!.
      * erewrite bind_run by by apply suspends_run. apply resumes_run. lia.
      * change (Z.of_nat n - Z.of_nat m = Z.of_nat (n - m)). lia.
      * intros _. apply masked_lor.
      * done.
  - erewrite bind_run by (apply suspends_run; [done|lia]). by eexists.
Qed.

(** *** Activation *)
Lemma activatable_eq k k' L t : sched_eq k k' -> activatable k L t -> activatable k' L t.
Proof.
  intros He [H1 H2 H3 H4]. assert (rprio k' t = rprio k t) as Hr.
  { unfold rprio. by rewrite (se_tdb _ _ He). }
  split.
  - by apply (se_task _ _ He).
  - by rewrite (se_idle _ _ He).
  - by rewrite (se_cprio _ _ He), Hr.
  - by rewrite Hr.
Qed.

Definition count_activation (c : OsEE_TCB) : OsEE_TCB :=
  set_current_num_of_act (u8 (current_num_of_act c + 1)) c.

Lemma task_activated_count_run k t d c :
  tdb_mem k !! t = Some d -> tcb_of k t = Some c ->
  osEE_task_activated t k =
    if decide (current_num_of_act c < max_num_of_act d)
    then Some (E_OK, tcb_upd t count_activation k) else Some (E_OS_LIMIT, k).
Proof.
  intros Hd Hc. assert (is_task k t) as Ht by by eexists.
  unfold tcb_of in Hc. rewrite Hd in Hc. simpl in Hc. unfold osEE_task_activated.
  erewrite bind_run by by apply get_tdb_run. erewrite bind_run by by apply get_tcb_run.
  case_decide; [|done]. by erewrite bind_run by by apply (upd_tcb_run k d t).
Qed.

(** A call with a valid identifier. *)
Record task_id (k : kernel) (TaskID t : Z) (d : OsEE_TDB) (c : OsEE_TCB) : Prop := {
  ti_valid : TaskID < free_task_index k;
  ti_ptr : aget (tdb_ptr_array k) TaskID = Some t;
  ti_tdb : tdb_mem k !! t = Some d;
  ti_tcb : tcb_of k t = Some c
}.

Lemma valid_tid_run s TaskID :
  on_k (gets (fun k => osEE_is_valid_tid k TaskID)) s =
  Some (bool_decide (TaskID < free_task_index (ck s)), s).
Proof. by destruct s. Qed.

Lemma tdb_of_tid_run s TaskID t :
  aget (tdb_ptr_array (ck s)) TaskID = Some t -> on_k (tdb_of_tid TaskID) s = Some (t, s).
Proof.
  intros H. unfold on_k, tdb_of_tid, from_option. rewrite H. by destruct s.
Qed.

Lemma on_get_tdb_run s t d : tdb_mem (ck s) !! t = Some d -> on_k (get_tdb t) s = Some (d, s).
Proof. intros H. unfold on_k. rewrite (get_tdb_run _ _ _ H). by destruct s. Qed.

(** C33: ActivateTask on every branch. An identifier that is out of range or
    is not a task gives E_OS_ID and a task at its activation limit E_OS_LIMIT,
    both without any effect. Otherwise the activation is counted. A task
    without outstanding activations is scheduled, the invariant is kept, and the
    caller is preempted exactly when the task has a higher priority; then the
    task runs without events, else it is ready and the interrupt mask is
    restored. A task that runs, is preempted or is ready already never preempts:
    it is queued once more behind the ready tasks of its priority, and all else
    stays as it was. *)
Theorem ActivateTask_correct s L TaskID :
  sched_inv (ck s) L ->
  (free_task_index (ck s) <= TaskID -> ActivateTask TaskID s = Some ((E_OS_ID, false), s)) /\
  (forall t d c, task_id (ck s) TaskID t d c ->
    (is_plain_task d = false -> ActivateTask TaskID s = Some ((E_OS_ID, false), s)) /\
    (is_plain_task d = true -> max_num_of_act d <= current_num_of_act c ->
       ActivateTask TaskID s = Some ((E_OS_LIMIT, false), s)) /\
    (is_plain_task d = true -> current_num_of_act c < max_num_of_act d ->
       activatable (ck s) L t -> forall a u x, free L = (a, u) :: x ->
       exists s' L' b, ActivateTask TaskID s = Some ((E_OK, b), s') /\
         sched_inv (ck s') L' /\ runs_highest (ck s') L' /\
         (b = true <-> cprio (ck s) (p_curr (ccb (ck s))) < cprio (ck s) t) /\
         p_curr (ccb (ck s')) = (if b then t else p_curr (ccb (ck s))) /\
         (b = false -> daif s' = daif s) /\
         (exists c', tcb_of (ck s') t = Some c' /\
            current_num_of_act c' = u8 (current_num_of_act c + 1) /\
            (b = true -> status c' = OSEE_TASK_RUNNING /\ event_mask c' = 0) /\
            (b = false -> status c = OSEE_TASK_SUSPENDED -> status c' = OSEE_TASK_READY /\ event_mask c' = 0)) /\
         stk L' ++ rdy L' ≡ₚ (a, t) :: stk L ++ rdy L /\ free L' = x) /\
    (is_plain_task d = true -> current_num_of_act c < max_num_of_act d ->
       t ∈ tasks (stk L ++ rdy L) -> status c <> OSEE_TASK_SUSPENDED -> forall a u x, free L = (a, u) :: x ->
       exists s', ActivateTask TaskID s = Some ((E_OK, false), s') /\
         repr (ck s') (mkLists (prio_insert (rprio (ck s)) (a, t) (rdy L)) x (stk L) (sus L)) /\
         p_curr (ccb (ck s')) = p_curr (ccb (ck s)) /\ daif s' = daif s /\
         (forall v, cprio (ck s') v = cprio (ck s) v) /\
         tcb_of (ck s') t = Some (mkTCB (u8 (current_num_of_act c + 1)) (current_prio c) (status c)
           (wait_mask c) (event_mask c) (p_own_sn c)))).
Proof.
  intros HI. split.
  { intros H. unfold ActivateTask. erewrite bind_run by apply valid_tid_run.
    by rewrite bool_decide_false by lia. }
  intros t d c [Hv Hp Hd Hc].
  assert (Hpre : ActivateTask TaskID s = (if is_plain_task d then
      flags ← osEE_begin_primitive; ev ← on_k (osEE_task_activated t);
      switched ← (if decide (ev = E_OK)
                  then on_k (osEE_scheduler_task_activated t) else mret false);
      _ ← end_primitive_if_here switched flags; mret (ev, switched)
    else mret (E_OS_ID, false)) s).
  { unfold ActivateTask. erewrite bind_run by apply valid_tid_run.
    rewrite bool_decide_true by done. cbn [negb]. erewrite bind_run by by apply tdb_of_tid_run.
    by erewrite bind_run by by apply on_get_tdb_run. }
  rewrite Hpre. split_and!.
  - by intros ->.
  - intros -> Hmax. erewrite bind_run by apply begin_primitive_run.
    erewrite bind_run by (apply on_k_run; cbn [ck];
      rewrite (task_activated_count_run _ _ _ _ Hd Hc), decide_False by lia; done).
    erewrite bind_run by done. cbn [end_primitive_if_here daif].
    erewrite bind_run by apply end_primitive_run. by destruct s.
  - intros -> Hmax Ha a u x Hf.
    pose proof (sched_eq_tcb_upd t count_activation (ck s) ltac:(done)) as He.
    destruct (task_activated_run _ L a u x t (sched_eq_inv _ _ _ He HI)
      (activatable_eq _ _ _ _ He Ha) Hf) as (k' & L' & b & H1 & HI' & Hb & Hcur & Hfr & _ & Hl & Htcb).
    erewrite bind_run by apply begin_primitive_run.
    erewrite bind_run by (apply on_k_run; cbn [ck];
      rewrite (task_activated_count_run _ _ _ _ Hd Hc), decide_True by lia; done).
    erewrite bind_run by (rewrite decide_True by done; apply on_k_run; exact H1). cbn [daif].
    exists (mkCpu k' (if b then Z.lor (daif s) OSEE_AARCH64_I_DAIF else daif s)), L', b.
    split_and!; try done.
    + by destruct b; [|cbn [end_primitive_if_here]; erewrite bind_run by apply end_primitive_run].
    + by apply sched_inv_highest.
    + rewrite Hb, bool_decide_eq_true. unfold top. rewrite (se_idle _ _ He), !(se_cprio _ _ He).
      by rewrite (si_curr _ _ HI).
    + cbn [ck]. rewrite Hcur. by rewrite (se_curr _ _ He).
    + by intros ->.
    + rewrite (tcb_upd_same t count_activation (ck s) c Hc) in Htcb. eexists. split; [exact Htcb|].
      destruct b; [by split_and!|]. unfold queued_tcb.
      by destruct (decide (status (count_activation c) = OSEE_TASK_SUSPENDED)).
    + destruct b, Hl as [-> ->]; [done|]. by rewrite prio_insert_perm, Permutation_middle.
  - intros -> Hmax Hin Hns a u x Hf. pose proof (si_wf _ _ HI) as HW.
    pose proof (sched_eq_tcb_upd t count_activation (ck s) ltac:(done)) as He.
    pose proof (sched_eq_inv _ _ _ He HI) as HI1. pose proof (si_wf _ _ HI1) as HW1.
    assert (is_task (ck s) t) as Ht by by eexists.
    destruct (task_activated_queued_run (tcb_upd t count_activation (ck s)) L a u x t (sw_repr _ _ HW1))
      as (k' & H1 & Hp1 & HR' & Htcb); [by apply (se_task _ _ He)| |done| |].
    { rewrite (si_curr _ _ HI1). apply top_is_task; apply HW1. }
    { by apply (sched_inv_highest _ L). }
    erewrite bind_run by apply begin_primitive_run.
    erewrite bind_run by (apply on_k_run; cbn [ck];
      rewrite (task_activated_count_run _ _ _ _ Hd Hc), decide_True by lia; done).
    erewrite bind_run by (rewrite decide_True by done; apply on_k_run; exact H1). cbn [daif].
    cbn [end_primitive_if_here]. erewrite bind_run by apply end_primitive_run.
    eexists. split; [done|]. cbn [ck daif]. split_and!.
    + eapply eq_rect with (P := fun R => repr k' (mkLists R x (stk L) (sus L))); [exact HR'|].
      apply prio_insert_ext. intros v. unfold rprio. by rewrite (se_tdb _ _ He).
    + by rewrite (pe_curr _ _ Hp1), (se_curr _ _ He).
    + done.
    + intros v. by rewrite (pe_cprio _ _ Hp1), (se_cprio _ _ He).
    + rewrite Htcb, (tcb_upd_same t count_activation (ck s) c Hc). cbn. unfold queued_tcb.
      by rewrite decide_False.
Qed.

(** *** Events *)

(** A task that waits for an event of the mask [M]; its node [a] is in no
    list. *)
Record waiting (k : kernel) (L : lists) (t a M : Z) : Prop := {
  wt_out : t ∉ sched_tasks k L;
  wt_loose : loose L a;
  wt_node : exists r, sn_mem k !! a = Some (mkSN r t);
  wt_null : a <> NULL;
  wt_tcb : exists c, tcb_of k t = Some c /\ status c = OSEE_TASK_WAITING /\
    wait_mask c = M /\ p_own_sn c = a
}.

Lemma wait_event_block_run k L b u y d c M :
  sched_inv k L -> stk L = (b, u) :: y -> tdb_mem k !! u = Some d -> tcb_of k u = Some c ->
  exists k' L', wait_event_block u (p_tcb d) M k = Some (tt, k') /\
    sched_inv k' L' /\ waiting k' L' u b M /\ tdb_mem k' = tdb_mem k /\
    free L' = free L /\ sus L' = sus L /\ (stk L' ++ rdy L' ≡ₚ y ++ rdy L).
Proof.
  intros HI Hs Hd Hc. assert (is_task k u) as Ht by by eexists. unfold wait_event_block.
  erewrite bind_run by by apply (upd_tcb_run k d u). set (k1 := tcb_upd u _ k).
  assert (sched_eq k k1) as He1 by by apply sched_eq_tcb_upd.
  destruct (pop_running_inv k1 L b u y (si_wf _ _ (sched_eq_inv _ _ _ He1 HI)) Hs)
    as (k2 & L2 & H2 & HI2 & Hl & Hb0 & (r & Hm) & Hu & Htcb & Htdb & Hid & Hf & Hsu & Hperm).
  erewrite bind_run by exact H2.
  assert (tdb_mem k2 = tdb_mem k) as Htdb2 by by rewrite Htdb, (se_tdb _ _ He1).
  assert (Hc2 : tcb_of k2 u = Some (set_wait_mask M c)).
  { rewrite Htcb. by apply tcb_upd_same. }
  erewrite bind_run by (apply (upd_tcb_run k2 d u); [by rewrite Htdb2|by eexists]).
  set (k3 := tcb_upd u _ k2).
  assert (Hc3 : tcb_of k3 u = Some (set_p_own_sn b (set_wait_mask M c))) by by apply tcb_upd_same.
  erewrite bind_run by (apply (upd_tcb_run k3 d u);
    [unfold k3; by rewrite tcb_upd_tdb_mem, Htdb2|by eexists]).
  set (k4 := tcb_upd u _ k3).
  assert (Hc4 : tcb_of k4 u = Some (set_status OSEE_TASK_WAITING (set_p_own_sn b (set_wait_mask M c))))
    by by apply tcb_upd_same.
  assert (sched_eq k2 k4) as He4.
  { transitivity k3; by apply sched_eq_tcb_upd. }
  pose proof (sched_eq_inv _ _ _ He4 HI2) as HI4.
  erewrite bind_run by done. rewrite (si_curr _ _ HI4).
  assert (is_task k4 (top k4 L2)) as Htop by (apply top_is_task; apply HI4).
  destruct (change_context_run k4 u (top k4 L2) Htop) as [e He].
  set (k5 := tcb_upd _ _ _) in He. set (kt := set_trace (trace k4 ++ [e]) k4) in k5.
  assert (sched_eq k4 k5) as He5.
  { etransitivity; [apply (sched_eq_trace e)|]. by apply sched_eq_tcb_upd. }
  assert (u <> top k4 L2) as Hne.
  { intros Heq. apply Hu. pose proof (top_sched_task k4 L2) as Hin. rewrite <- Heq in Hin.
    unfold sched_tasks in Hin |- *. by rewrite (se_idle _ _ He4) in Hin. }
  assert (Hc5 : tcb_of k5 u = tcb_of k4 u).
  { unfold k5. rewrite tcb_upd_other; [done| |done].
    apply (kwf_inj kt). exact (sw_kwf _ _ (si_wf _ _ (sched_eq_inv _ _ _ (sched_eq_trace e k4) HI4))). }
  assert (sched_eq k2 k5) as He25 by (by transitivity k4).
  exists k5, L2. split_and!; try done.
  - by apply (sched_eq_inv k4).
  - split; try done.
    + unfold sched_tasks. by rewrite (se_idle _ _ He25).
    + exists r. by rewrite (se_sn _ _ He25).
    + rewrite Hc5, Hc4. by eexists.
  - by rewrite (se_tdb _ _ He25).
Qed.

(** WaitEvent returns at once, without any effect, when an event of the
    mask is set. Otherwise the caller leaves the scheduler: it is waiting for
    the mask with its node kept aside, and the task of highest priority among
    the others runs. *)
Theorem WaitEvent_correct s L b u y d c Mask :
  sched_inv (ck s) L -> stk L = (b, u) :: y ->
  tdb_mem (ck s) !! u = Some d -> tcb_of (ck s) u = Some c ->
  if decide (Z.land (event_mask c) Mask = 0) then
    exists s' L', WaitEvent Mask s = Some ((true, daif s), s') /\
      sched_inv (ck s') L' /\ runs_highest (ck s') L' /\ waiting (ck s') L' u b Mask /\
      free L' = free L /\ (stk L' ++ rdy L' ≡ₚ y ++ rdy L)
  else WaitEvent Mask s = Some ((false, daif s), s).
Proof.
  intros HI Hs Hd Hc.
  assert (p_curr (ccb (ck s)) = u) as Hcur.
  { rewrite (si_curr _ _ HI). unfold top. by rewrite Hs. }
  assert (tcb_mem (ck s) !! p_tcb d = Some c) as Hc' by (unfold tcb_of in Hc; by rewrite Hd in Hc).
  assert (Hpre : WaitEvent Mask s = (if decide (Z.land (event_mask c) Mask = 0)
    then _ ← on_k (wait_event_block u (p_tcb d) Mask); mret (true, daif s)
    else _ ← osEE_end_primitive (daif s); mret (false, daif s))
      (mkCpu (ck s) (Z.lor (daif s) OSEE_AARCH64_I_DAIF))).
  { unfold WaitEvent. erewrite bind_run by by apply on_k_run. rewrite Hcur.
    destruct s as [k f]. cbn [ck daif] in *. erewrite bind_run by by apply on_get_tdb_run.
    erewrite bind_run by apply begin_primitive_run.
    by erewrite bind_run by (apply on_k_run, get_tcb_run; exact Hc'). }
  rewrite Hpre. case_decide.
  - destruct (wait_event_block_run (ck s) L b u y d c Mask HI Hs Hd Hc)
      as (k' & L' & H1 & HI' & Hw & _ & Hf & _ & Hp).
    eexists (mkCpu k' _), L'. erewrite bind_run by (apply on_k_run; exact H1).
    split_and!; [done|done|by apply sched_inv_highest|done..].
  - erewrite bind_run by apply end_primitive_run. by destruct s.
Qed.

Definition add_events (Mask : Z) (c : OsEE_TCB) : OsEE_TCB :=
  set_event_mask (Z.lor (event_mask c) Mask) c.

Lemma event_set_mask_run k t d c Mask :
  tdb_mem k !! t = Some d -> tcb_of k t = Some c -> p_own_sn c <> NULL ->
  osEE_task_event_set_mask t Mask k =
    if decide (Z.land (wait_mask c) Mask <> 0)
    then Some ((p_own_sn c, E_OK), tcb_upd t (set_p_own_sn NULL) (tcb_upd t (add_events Mask) k))
    else Some ((NULL, E_OK), tcb_upd t (add_events Mask) k).
Proof.
  intros Hd Hc Hn. assert (is_task k t) as Ht by by eexists.
  unfold osEE_task_event_set_mask. erewrite bind_run by by apply get_tdb_run.
  erewrite bind_run by by apply (upd_tcb_run k d t).
  change (fun c => set_event_mask (Z.lor (event_mask c) Mask) c) with (add_events Mask).
  pose proof (tcb_upd_same t (add_events Mask) k c Hc) as Hc1. set (k1 := tcb_upd _ _ k) in *.
  assert (tdb_mem k1 !! t = Some d) as Hd1 by (unfold k1; by rewrite tcb_upd_tdb_mem).
  erewrite bind_run by (apply get_tcb_run; unfold tcb_of in Hc1; rewrite Hd1 in Hc1; exact Hc1).
  cbn [wait_mask p_own_sn add_events set_event_mask]. case_decide; [|done].
  erewrite bind_run; [done|]. rewrite decide_True by done.
  apply (upd_tcb_run k1 d t); [done|]. by eexists.
Qed.

(** The released task as the scheduler queues it. *)
Definition release_tcb (d : OsEE_TDB) (c : OsEE_TCB) : OsEE_TCB :=
  set_current_prio (ready_prio d) (set_status OSEE_TASK_READY_STACKED c).

Lemma tcb_upd_twice t f g k : tcb_upd t g (tcb_upd t f k) = tcb_upd t (fun c => g (f c)) k.
Proof.
  unfold tcb_upd. destruct (tdb_mem k !! t) as [d|] eqn:Hd; [|by rewrite Hd].
  cbn [set_tcb_mem tdb_mem tcb_mem]. rewrite Hd. unfold set_tcb_mem.
  cbn [sn_mem tdb_mem tcb_mem ccb p_idle_task p_idle_hook tdb_ptr_array free_task_index trace].
  f_equal. apply map_eq. intros i. destruct (decide (i = p_tcb d)) as [->|Hne].
  - rewrite !lookup_alter_eq. by destruct (tcb_mem k !! p_tcb d).
  - by rewrite !lookup_alter_ne.
Qed.

(** Unless the released task is at the head of the queue, a task of at least
    its priority is there. *)
Lemma insert_not_head k L a t k' :
  repr k' (set_nodes L_rq (prio_insert (rprio k) (a, t) (rdy L)) L) ->
  loose L a -> rq (ccb k') <> a -> exists v, v ∈ tasks (rdy L) /\ rprio k t <= rprio k v.
Proof.
  intros HR Hl Hne. pose proof (repr_chain _ _ HR L_rq) as Hc. simpl in Hc.
  destruct (rdy L) as [|[b v] x] eqn:Hx; [by destruct Hc as [Hb _]; destruct (Hne Hb)|].
  simpl in Hc. case_decide as Hle; simpl in Hle.
  - exists v. split; [by apply list_elem_of_here|done].
  - destruct Hc as [Hb _]. by destruct (Hne Hb).
Qed.

Lemma insert_head k L a t k' :
  repr k' (set_nodes L_rq (prio_insert (rprio k) (a, t) (rdy L)) L) ->
  loose L a -> rq (ccb k') = a -> prio_insert (rprio k) (a, t) (rdy L) = (a, t) :: rdy L.
Proof.
  intros HR Hl He. pose proof (repr_chain _ _ HR L_rq) as Hc. simpl in Hc.
  destruct (rdy L) as [|[b v] x] eqn:Hx; [done|]. simpl in Hc |- *. case_decide; [|done].
  destruct Hc as [Hb _]. exfalso. apply (Hl L_rq). simpl. rewrite Hx. rewrite <- He, Hb.
  by apply list_elem_of_here.
Qed.

Lemma task_unblocked_run k L a r t d c :
  sched_inv k L -> t ∉ sched_tasks k L -> loose L a -> a <> NULL ->
  sn_mem k !! a = Some (mkSN r t) -> tdb_mem k !! t = Some d -> tcb_of k t = Some c ->
  0 < ready_prio d ->
  let L' := set_nodes L_rq (prio_insert (rprio k) (a, t) (rdy L)) L in
  let pre := bool_decide (cprio k (top k L) < ready_prio d) in
  exists k', osEE_scheduler_task_unblocked a k = Some (pre, k') /\
    sched_wf k' L' /\ p_curr (ccb k') = top k' L' /\ top k' L' = top k L /\
    tcb_of k' t = Some (release_tcb d c) /\
    (pre = false -> sched_inv k' L') /\
    (pre = true -> rdy L' = (a, t) :: rdy L /\ cprio k' (top k' L') < cprio k' t).
Proof.
  intros HI Hout Hl Ha0 Hm Hd Hc Hpos L' pre.
  assert (is_task k t) as Ht by by eexists.
  unfold osEE_scheduler_task_unblocked. erewrite bind_run by by apply get_sn_run.
  cbn [sn_tdb]. erewrite bind_run by by apply get_tdb_run.
  erewrite bind_run by by apply (upd_tcb_run k d t).
  erewrite bind_run by (apply (upd_tcb_run _ d t); [by rewrite tcb_upd_tdb_mem|by apply tcb_upd_is_task]).
  rewrite tcb_upd_twice. set (k1 := tcb_upd t _ k). change k1 with (tcb_upd t (release_tcb d) k) in (value of k1).
  assert (sched_inv k1 L) as HI1 by by apply sched_inv_tcb_upd_other, sched_tasks_other.
  assert (Hc1 : tcb_of k1 t = Some (release_tcb d c)) by by apply tcb_upd_same.
  assert (Hid1 : p_idle_task k1 = p_idle_task k) by apply tcb_upd_idle.
  assert (Hrp : forall v, rprio k1 v = rprio k v) by (intros; apply tcb_upd_rprio).
  assert (Hrt : rprio k t = ready_prio d) by (unfold rprio; by rewrite Hd).
  assert (Hct : cprio k1 t = ready_prio d) by (unfold cprio; by rewrite Hc1).
  assert (Htop : top k1 L = top k L) by (unfold top; by rewrite Hid1).
  assert (Hne : top k L <> t) by (intros <-; apply Hout, top_sched_task).
  assert (Hcc' : cprio k1 (top k L) = cprio k (top k L)).
  { unfold cprio. unfold k1. by rewrite tcb_upd_other; [|apply HI|]. }
  destruct (osEE_scheduler_rq_insert_run k1 L a (mkSN r t) t) as (k2 & H2 & HR2 & He2);
    [apply HI1|done|done|unfold k1; by rewrite tcb_upd_sn_mem|by eexists|].
  rewrite (prio_insert_ext _ (rprio k)) in HR2 by done. fold L' in HR2.
  pose proof (prio_eq_strip _ _ He2) as Hp2.
  assert (Hout1 : t ∉ p_idle_task k1 :: tasks (stk L ++ rdy L ++ sus L)) by by rewrite Hid1.
  assert (HW2 : sched_wf k2 L').
  { pose proof (sched_wf_inserted k1 k2 L a t (free L) (si_wf _ _ HI1) Hp2 Hout1
      ltac:(by rewrite Hct, Hrp) ltac:(by rewrite Hrp, Hrt)) as Hw. cbn zeta in Hw.
    rewrite (prio_insert_ext _ (rprio k)) in Hw by done. by apply Hw. }
  assert (Htop2 : top k2 L' = top k L).
  { rewrite <- Htop. unfold top. simpl. by rewrite (pe_idle _ _ Hp2). }
  assert (Hcur2 : p_curr (ccb k2) = top k L).
  { rewrite (pe_curr _ _ Hp2), <- Htop. apply HI1. }
  assert (Hinv : cprio k1 t <= cprio k1 (top k1 L) -> sched_inv k2 L').
  { intros Hle. split; [done|by rewrite Htop2|]. intros v. simpl. unfold tasks.
    rewrite prio_insert_perm, fmap_cons, elem_of_cons, !(pe_cprio _ _ Hp2), Htop2, <- Htop.
    intros [->|Hv]; [done|by apply (si_high _ _ HI1)]. }
  assert (Hcp2 : forall v, cprio k2 v = cprio k1 v) by (intros; apply (pe_cprio _ _ Hp2)).
  assert (Hc2 : tcb_of k2 t = Some (release_tcb d c)) by by rewrite (strip_tcb_of _ _ _ He2).
  assert (Hd2 : tdb_mem k2 !! t = Some d).
  { rewrite (strip_tdb_mem _ _ He2). unfold k1. by rewrite tcb_upd_tdb_mem. }
  exists k2. split_and!; [|done|by rewrite Htop2|done|done|..].
  - erewrite bind_run by exact H2. destruct (decide (rq (ccb k2) = a)) as [Hh|Hh].
    + rewrite bool_decide_true by done. erewrite bind_run by done. rewrite Hcur2.
      pose proof (top_is_task k2 L' (sw_kwf _ _ HW2) HR2) as Htt. rewrite Htop2 in Htt.
      destruct (is_task_inv _ _ Htt) as (dc & cc & Hdc & Hcc).
      erewrite bind_run by (apply get_tcb_run; unfold tcb_of in Hc2; rewrite Hd2 in Hc2; exact Hc2).
      erewrite bind_run by by eapply get_tdb_tcb_run.
      rewrite <- (cprio_run _ _ _ _ Hdc Hcc), Hcp2, Hcc'. done.
    + rewrite bool_decide_false by done. unfold pre. rewrite bool_decide_false; [done|].
      destruct (insert_not_head _ _ _ _ _ HR2 Hl Hh) as (v & Hv & Hle).
      pose proof (si_high _ _ HI v Hv). destruct (sw_ready _ _ (si_wf _ _ HI) v Hv) as [Hcv _]. lia.
  - intros Hf%bool_decide_eq_false. apply Hinv. rewrite Htop, Hcc', Hct. lia.
  - intros Hp%bool_decide_eq_true. rewrite Htop2, !Hcp2, Hcc', Hct. split; [|done].
    destruct (decide (rq (ccb k2) = a)) as [Hh|Hh].
    + simpl. by apply (insert_head _ _ _ _ k2).
    + destruct (insert_not_head _ _ _ _ _ HR2 Hl Hh) as (v & Hv & Hle).
      pose proof (si_high _ _ HI v Hv). destruct (sw_ready _ _ (si_wf _ _ HI) v Hv) as [Hcv _]. lia.
Qed.

(** *** What a dispatch leaves alone *)
Definition ev_of (k : kernel) (t : Z) : option (Z * Z) :=
  (fun c => (event_mask c, p_own_sn c)) <$> tcb_of k t.

Lemma ev_of_tcb_upd t f k v :
  (forall c, event_mask (f c) = event_mask c /\ p_own_sn (f c) = p_own_sn c) ->
  ev_of (tcb_upd t f k) v = ev_of k v.
Proof.
  intros Hf. unfold ev_of, tcb_of, tcb_upd.
  destruct (tdb_mem k !! t) as [d|] eqn:Hd; [|done]. cbn [set_tcb_mem tdb_mem tcb_mem].
  destruct (tdb_mem k !! v) as [d'|]; [|done]. cbn [mbind option_bind].
  destruct (decide (p_tcb d = p_tcb d')) as [->|Hne]; [|by rewrite lookup_alter_ne].
  rewrite lookup_alter_eq. destruct (tcb_mem k !! p_tcb d') as [c|]; [|done].
  simpl. by destruct (Hf c) as [-> ->].
Qed.

Lemma ev_of_strip k k' v : strip k' = strip k -> ev_of k' v = ev_of k v.
Proof. intros H. unfold ev_of. by rewrite (strip_tcb_of _ _ _ H). Qed.

Lemma ev_of_dispatched t p k v : ev_of (dispatched t p k) v = ev_of k v.
Proof.
  unfold dispatched. change (ev_of (set_curr t ?k1) v) with (ev_of k1 v). unfold raise_prio.
  destruct (tdb_mem (tcb_upd p _ k) !! t) as [d|].
  - rewrite ev_of_tcb_upd; [by apply ev_of_tcb_upd|]. intros c. by case_decide.
  - by apply ev_of_tcb_upd.
Qed.

Lemma preemption_point_events k L k' b v :
  sched_wf k L -> osEE_scheduler_task_preemption_point k = Some (b, k') -> ev_of k' v = ev_of k v.
Proof.
  intros HW H. unfold osEE_scheduler_task_preemption_point in H.
  pose proof (osEE_scheduler_core_rq_preempt_stk_run k L (sw_kwf _ _ HW) (sw_repr _ _ HW)) as Hp.
  destruct (preempts k L) as [[[a t] x]|] eqn:Hpre.
  - destruct Hp as (k1 & H1 & H2 & H3 & _). erewrite bind_run in H by exact H1.
    rewrite decide_True in H.
    2: { apply (is_task_not_null k); [apply HW|]. apply top_is_task; apply HW. }
    assert (p_curr (ccb k1) = t) as Hcur by (rewrite (strip_curr _ _ H3); done).
    erewrite bind_run in H by done. rewrite Hcur in H.
    assert (is_task k1 t) as Ht.
    { apply (repr_task _ _ H2 L_stk); [done|]. by apply list_elem_of_here. }
    destruct (change_context_run k1 (top k L) t Ht) as [e He].
    erewrite bind_run in H by exact He. injection H as _ <-.
    rewrite ev_of_tcb_upd by done. change (ev_of (set_trace _ k1) v) with (ev_of k1 v).
    rewrite (ev_of_strip _ _ _ H3). apply ev_of_dispatched.
  - erewrite bind_run in H by exact Hp. rewrite decide_False in H by (intros Hn; by apply Hn).
    by injection H as _ <-.
Qed.

(** Waking a waiting task, within the critical section. *)
Lemma set_event_wakes_run k L a t d c M :
  sched_inv k L -> waiting k L t a (wait_mask c) -> tdb_mem k !! t = Some d -> tcb_of k t = Some c ->
  0 < ready_prio d -> Z.land (wait_mask c) M <> 0 ->
  let b := bool_decide (cprio k (top k L) < ready_prio d) in
  exists k' L', set_event_locked t M k = Some ((E_OK, b), k') /\ sched_inv k' L' /\
    p_curr (ccb k') = (if b then t else p_curr (ccb k)) /\
    stk L' ++ rdy L' ≡ₚ (a, t) :: stk L ++ rdy L /\ free L' = free L /\
    ev_of k' t = Some (Z.lor (event_mask c) M, NULL).
Proof.
  intros HI [Hout Hl [r Hm] Ha0 (c' & Hc' & _ & _ & Hown)] Hd Hc Hpos HM b.
  rewrite Hc in Hc'. injection Hc' as <-.
  unfold set_event_locked. erewrite bind_run.
  2: { rewrite (event_set_mask_run k t d c M) by (done || by rewrite Hown). by rewrite decide_True. }
  rewrite tcb_upd_twice, Hown. rewrite decide_True by done. set (k1 := tcb_upd t _ k).
  assert (sched_eq k k1) as He1 by by apply sched_eq_tcb_upd.
  assert (top k1 L = top k L) as Htop by (unfold top; by rewrite (se_idle _ _ He1)).
  pose proof (sched_eq_inv _ _ _ He1 HI) as HI1.
  destruct (task_unblocked_run k1 L a r t d (set_p_own_sn NULL (add_events M c)))
    as (k2 & H2 & HW2 & Hcur2 & Htop2 & Hc2 & Hno & Hyes); try done.
  { unfold sched_tasks. by rewrite (se_idle _ _ He1). }
  { by rewrite (se_sn _ _ He1). }
  { by rewrite (se_tdb _ _ He1). }
  { exact (tcb_upd_same t (fun c => set_p_own_sn NULL (add_events M c)) k c Hc). }
  rewrite Htop, (se_cprio _ _ He1) in H2, Hno, Hyes. fold b in H2, Hno, Hyes.
  erewrite bind_run by exact H2.
  assert (Hev2 : ev_of k2 t = Some (Z.lor (event_mask c) M, NULL)).
  { unfold ev_of. by rewrite Hc2. }
  assert (Hcur : p_curr (ccb k2) = p_curr (ccb k)).
  { by rewrite Hcur2, Htop2, Htop, (si_curr _ _ HI). }
  destruct b.
  - destruct (Hyes eq_refl) as [Hr Hlt].
    destruct (preemption_point_run k2 _ HW2 Hcur2) as (k3 & L3 & b3 & H3 & HI3 & H4).
    assert (Hpre : preempts k2 (set_nodes L_rq (prio_insert (rprio k1) (a, t) (rdy L)) L) =
                   Some (a, t, rdy L)).
    { unfold preempts. rewrite Hr. unfold top in Hlt. simpl in Hlt |- *.
      destruct (stk L) as [|[e v] y]; [done|]. simpl in Hlt. by rewrite decide_True. }
    rewrite Hpre in H4. destruct H4 as (-> & -> & Hc3 & _).
    exists k3. eexists. erewrite bind_run by exact H3. split_and!; try done.
    by rewrite (preemption_point_events _ _ _ _ t HW2 H3).
  - eexists k2, _. split_and!; [done|by apply Hno|done| |done|done].
    simpl. by rewrite prio_insert_perm, Permutation_middle.
Qed.

(** Events the task does not wait for are only recorded. *)
Lemma set_event_records_run k L a t d c M :
  sched_inv k L -> waiting k L t a (wait_mask c) -> tdb_mem k !! t = Some d -> tcb_of k t = Some c ->
  Z.land (wait_mask c) M = 0 ->
  exists k', set_event_locked t M k = Some ((E_OK, false), k') /\ sched_inv k' L /\
    waiting k' L t a (wait_mask c) /\ tcb_of k' t = Some (add_events M c).
Proof.
  intros HI [Hout Hl Hm Ha0 (c' & Hc' & Hst & _ & Hown)] Hd Hc HM.
  rewrite Hc in Hc'. injection Hc' as <-.
  exists (tcb_upd t (add_events M) k).
  assert (sched_eq k (tcb_upd t (add_events M) k)) as He by by apply sched_eq_tcb_upd.
  pose proof (tcb_upd_same t (add_events M) k c Hc) as Hc1.
  split_and!.
  - unfold set_event_locked. erewrite bind_run.
    2: { rewrite (event_set_mask_run k t d c M) by (done || by rewrite Hown).
         by rewrite decide_False by (intros Hn; by apply Hn). }
    done.
  - by apply (sched_eq_inv k).
  - split; try done.
    + unfold sched_tasks. by rewrite (se_idle _ _ He).
    + by rewrite (se_sn _ _ He).
    + by exists (add_events M c).
  - done.
Qed.

(** SetEvent to a waiting task. The events are added to the mask of the
    task. If it waits for none of them nothing else happens; otherwise its
    node is back in the scheduler, the invariant holds with the task of
    highest priority running, and the caller is preempted exactly when the
    woken task has a higher priority. *)
Theorem SetEvent_correct s L TaskID t d c a Mask :
  sched_inv (ck s) L -> task_id (ck s) TaskID t d c ->
  waiting (ck s) L t a (wait_mask c) -> 0 < ready_prio d ->
  if decide (Z.land (wait_mask c) Mask = 0) then
    exists s', SetEvent TaskID Mask s = Some ((E_OK, false), s') /\ daif s' = daif s /\
      sched_inv (ck s') L /\ waiting (ck s') L t a (wait_mask c) /\
      tcb_of (ck s') t = Some (add_events Mask c)
  else
    exists s' L' b, SetEvent TaskID Mask s = Some ((E_OK, b), s') /\
      sched_inv (ck s') L' /\ runs_highest (ck s') L' /\
      (b = true <-> cprio (ck s) (p_curr (ccb (ck s))) < ready_prio d) /\
      p_curr (ccb (ck s')) = (if b then t else p_curr (ccb (ck s))) /\
      (b = false -> daif s' = daif s) /\
      stk L' ++ rdy L' ≡ₚ (a, t) :: stk L ++ rdy L /\ free L' = free L /\
      exists c', tcb_of (ck s') t = Some c' /\
        event_mask c' = Z.lor (event_mask c) Mask /\ p_own_sn c' = NULL.
Proof.
  intros HI [Hv Hp Hd Hc] Hw Hpos.
  assert (Hpre : SetEvent TaskID Mask s = ('(ev, switched) ← on_k (set_event_locked t Mask);
      _ ← end_primitive_if_here switched (daif s); mret (ev, switched))
    (mkCpu (ck s) (Z.lor (daif s) OSEE_AARCH64_I_DAIF))).
  { unfold SetEvent. erewrite bind_run by apply valid_tid_run.
    rewrite bool_decide_true by done. cbn [negb]. erewrite bind_run by by apply tdb_of_tid_run.
    by erewrite bind_run by apply begin_primitive_run. }
  rewrite Hpre. case_decide as HM.
  - destruct (set_event_records_run _ L a t d c Mask HI Hw Hd Hc HM) as (k' & H1 & H2 & H3 & H4).
    exists (mkCpu k' (daif s)). split_and!; try done.
    erewrite bind_run by (apply on_k_run; exact H1). cbn [end_primitive_if_here daif].
    by erewrite bind_run by apply end_primitive_run.
  - destruct (set_event_wakes_run _ L a t d c Mask HI Hw Hd Hc Hpos HM)
      as (k' & L' & H1 & HI' & Hcur & Hl & Hf & Hev).
    erewrite bind_run by (apply on_k_run; exact H1). cbn [daif].
    revert H1 Hcur. case_bool_decide as Hb; intros H1 Hcur.
    + eexists (mkCpu k' _), L', true. split_and!; try done; [by apply sched_inv_highest|..].
      * by rewrite (si_curr _ _ HI).
      * unfold ev_of in Hev. apply fmap_Some in Hev as (c' & Hc' & [= -> ->]). by exists c'.
    + exists (mkCpu k' (daif s)), L', false. split_and!; try done; [|by apply sched_inv_highest|..].
      * cbn [end_primitive_if_here]. by erewrite bind_run by apply end_primitive_run.
      * rewrite (si_curr _ _ HI). naive_solver.
      * unfold ev_of in Hev. apply fmap_Some in Hev as (c' & Hc' & [= -> ->]). by exists c'.
Qed.

(** ** Witnesses *)
Definition demo_cpu : cpu := mkCpu demo 0.

Lemma interrupt_services_nest_witness :
  (forall n m : nat, (0 < n <= 255)%nat -> (m <= n)%nat ->
    exists s', (_ ← times n SuspendAllInterrupts; times m ResumeAllInterrupts) demo_cpu = Some (tt, s') /\
      s_isr_all_cnt (ccb (ck s')) = Z.of_nat (n - m) /\
      ((m < n)%nat -> irqs_masked s') /\ (m = n -> daif s' = 0)) /\
  (exists s', (_ ← times 255 SuspendAllInterrupts; SuspendAllInterrupts) demo_cpu = Some (false, s') /\
      os_status (ccb (ck s')) = OSEE_KERNEL_SHUTDOWN /\
      last_error (ccb (ck s')) = E_OS_SYS_SUSPEND_NESTING_LIMIT).
Proof. exact (interrupt_services_nest demo_cpu eq_refl). Defined.

(** Task 3, which is ready, may be activated twice. *)
Definition demo_twice : cpu := mkCpu (mkKernel (sn_mem demo)
  (<[3 := mkTDB 103 3 OSEE_TASK_TYPE_BASIC 0 1 1 2 0]> demo_tdbs) (tcb_mem demo)
  (ccb demo) 1 0 [2; 3; 4; 5; 1] 4 []) 0.

Lemma demo_twice_inv : sched_inv (ck demo_twice) demo_lists.
Proof.
  split; [split|..].
  - solve_kwf. intros t t' d d' H H' He. unfold demo_twice, demo_tdbs in *. simpl in H, H'.
    rewrite !lookup_insert_Some, lookup_empty in H, H'. naive_solver (first [lia|discriminate]).
  - solve_repr.
  - solve_sorted.
  - solve_sorted.
  - intros t Ht. simpl in Ht. solve_elem. done.
  - apply (bool_decide_unpack _). vm_compute. exact I.
  - reflexivity.
  - reflexivity.
  - intros t Ht. simpl in Ht. solve_elem.
Qed.

Lemma ActivateTask_witness :
  ActivateTask 9 demo_cpu = Some ((E_OS_ID, false), demo_cpu) /\
  ActivateTask 3 demo_cpu = Some ((E_OS_ID, false), demo_cpu) /\
  ActivateTask 1 demo_cpu = Some ((E_OS_LIMIT, false), demo_cpu) /\
  (exists s' L' b, ActivateTask 2 demo_cpu = Some ((E_OK, b), s') /\ sched_inv (ck s') L' /\
    p_curr (ccb (ck s')) = (if b then 4 else 2)) /\
  exists s', ActivateTask 1 demo_twice = Some ((E_OK, false), s') /\
    repr (ck s') (mkLists [(12, 3); (13, 3)] [(14, 0)] [(11, 2)] []) /\
    current_num_of_act <$> tcb_of (ck s') 3 = Some 2.
Proof.
  destruct (ActivateTask_correct demo_cpu demo_lists 9 demo_inv) as [H9 _].
  destruct (ActivateTask_correct demo_cpu demo_lists 3 demo_inv) as [_ H3].
  destruct (ActivateTask_correct demo_cpu demo_lists 1 demo_inv) as [_ H1].
  destruct (ActivateTask_correct demo_cpu demo_lists 2 demo_inv) as [_ H2].
  split_and!.
  - by apply H9.
  - by apply (H3 5 _ _ (Build_task_id demo 3 5 _ _ eq_refl eq_refl eq_refl eq_refl)).
  - by apply (H1 3 _ _ (Build_task_id demo 1 3 _ _ eq_refl eq_refl eq_refl eq_refl)).
  - destruct (H2 4 _ _ (Build_task_id demo 2 4 _ _ eq_refl eq_refl eq_refl eq_refl)) as (_ & _ & H & _).
    destruct (H eq_refl eq_refl demo_activatable 13 0 [(14, 0)] eq_refl)
      as (s' & L' & b & E1 & E2 & _ & _ & E3 & _). by exists s', L', b.
  - destruct (ActivateTask_correct demo_twice demo_lists 1 demo_twice_inv) as [_ H].
    destruct (H 3 _ _ (Build_task_id (ck demo_twice) 1 3 _ _ eq_refl eq_refl eq_refl eq_refl)) as (_ & _ & _ & H').
    destruct (H' eq_refl eq_refl ltac:(right; left) ltac:(discriminate) 13 0 [(14, 0)] eq_refl)
      as (s' & E1 & E2 & _ & _ & _ & E3). exists s'. split_and!; [exact E1|exact E2|]. by rewrite E3.
Defined.

Lemma WaitEvent_witness : exists s' L', WaitEvent 4 demo_cpu = Some ((true, 0), s') /\
  sched_inv (ck s') L' /\ runs_highest (ck s') L' /\ waiting (ck s') L' 2 11 4 /\
  free L' = free demo_lists /\ (stk L' ++ rdy L' ≡ₚ [] ++ rdy demo_lists).
Proof. exact (WaitEvent_correct demo_cpu demo_lists 11 2 [] _ _ 4 demo_inv eq_refl eq_refl eq_refl). Defined.

(** Task 3 runs, task 2 waits for the events of the mask 4. *)
Definition demo_wait : kernel := mkKernel
  (list_to_map [(11, mkSN 0 2); (12, mkSN 0 3); (13, mkSN 14 0); (14, mkSN 0 0)])
  demo_tdbs
  (list_to_map [(101, demo_tcb 0 OSEE_TASK_READY_STACKED 1);
    (102, mkTCB 1 2 OSEE_TASK_WAITING 4 0 11);
    (103, demo_tcb 1 OSEE_TASK_RUNNING 1); (104, demo_tcb 3 OSEE_TASK_SUSPENDED 0);
    (105, demo_tcb 128 OSEE_TASK_SUSPENDED 0)])
  (demo_ccb 3 0 13 12 0 MEMORY_TOKEN_NONE) 1 0 [2; 3; 4; 5; 1] 4 [].
Definition demo_wait_lists : lists := mkLists [] [(13, 0); (14, 0)] [(12, 3)] [].

Lemma demo_wait_inv : sched_inv demo_wait demo_wait_lists.
Proof.
  split; [split|..].
  - solve_kwf. by apply demo_inj.
  - solve_repr.
  - solve_sorted.
  - solve_sorted.
  - intros t Ht. simpl in Ht. solve_elem.
  - apply (bool_decide_unpack _). vm_compute. exact I.
  - reflexivity.
  - reflexivity.
  - intros t Ht. simpl in Ht. solve_elem.
Qed.

Lemma demo_waiting : waiting demo_wait demo_wait_lists 2 11 4.
Proof.
  split.
  - intros H. unfold sched_tasks in H. simpl in H. solve_elem.
  - intros [] H; simpl in H; solve_elem.
  - by eexists.
  - done.
  - by eexists.
Qed.

Lemma SetEvent_witness : exists s' L' b, SetEvent 0 6 (mkCpu demo_wait 0) = Some ((E_OK, b), s') /\
  sched_inv (ck s') L' /\ runs_highest (ck s') L' /\
  (b = true <-> cprio demo_wait 3 < 2) /\
  p_curr (ccb (ck s')) = (if b then 2 else 3) /\ (b = false -> daif s' = 0) /\
  stk L' ++ rdy L' ≡ₚ [(11, 2); (12, 3)] /\ free L' = free demo_wait_lists /\
  exists c', tcb_of (ck s') 2 = Some c' /\ event_mask c' = Z.lor 0 6 /\ p_own_sn c' = NULL.
Proof.
  exact (SetEvent_correct (mkCpu demo_wait 0) demo_wait_lists 0 2 _ _ 11 6 demo_wait_inv
    (Build_task_id demo_wait 0 2 _ _ eq_refl eq_refl eq_refl eq_refl) demo_waiting eq_refl).
Defined.

(** ** Interrupt transparency *)
Lemma preempts_none k L : sched_inv k L -> preempts k L = None.
Proof.
  intros [HW _ Hh]. unfold preempts, top in *. destruct (rdy L) as [|[a t] x] eqn:Hr; [done|].
  specialize (Hh t (list_elem_of_here _ _)). pose proof (sw_ready _ _ HW t) as Ht.
  rewrite Hr in Ht. specialize (Ht (list_elem_of_here _ _)) as [Hct Hpos].
  destruct (stk L) as [|[b u] y].
  - rewrite (sw_idle _ _ HW) in Hh. lia.
  - by rewrite decide_False by lia.
Qed.

Lemma set_trace_two k e1 e2 :
  set_trace (trace (set_trace (trace k ++ [e1]) k) ++ [e2]) (set_trace (trace k ++ [e1]) k) =
  set_trace (trace k ++ [e1; e2]) k.
Proof. unfold set_trace. cbn. by rewrite <- app_assoc. Qed.

(** The end of an ISR2 when no ready task takes over: the task below it
    continues. *)
Lemma isr2_end_run k L a t y d c :
  sched_inv k L -> stk L = (a, t) :: y ->
  tdb_mem k !! t = Some d -> tcb_of k t = Some c -> status c = OSEE_TASK_RUNNING ->
  task_type d = OSEE_TASK_TYPE_ISR2 ->
  let L1 := set_nodes L_stk y L in
  preempts k L1 = None ->
  exists k' r, osEE_scheduler_task_end k = Some (tt, k') /\
    sched_inv k' (set_nodes L_free ((a, t) :: free L) L1) /\
    p_curr (ccb k') = top k L1 /\ tcb_of k' t = Some (task_end_tcb d c) /\
    (forall v, v <> t -> cprio k' v = cprio k v) /\
    trace k' = trace k ++ [EvEoi (isr2_src d); EvEndContext (top k L1) r].
Proof.
  intros HI Hs Hd Hc Hrun Hty L1 Hpre. pose proof (si_wf _ _ HI) as HW.
  assert (p_curr (ccb k) = t) as Hcur.
  { rewrite (si_curr _ _ HI). unfold top. by rewrite Hs. }
  assert (tcb_mem k !! p_tcb d = Some c) as Hc' by (unfold tcb_of in Hc; by rewrite Hd in Hc).
  destruct (osEE_scheduler_core_pop_running_run k L a t y (sw_kwf _ _ HW) (sw_repr _ _ HW) Hs)
    as (k1 & L' & H1 & HR1 & Hl & Ha0 & (r & Hm) & Hcase). fold L1 in Hcase.
  rewrite Hpre in Hcase. destruct Hcase as [-> He1].
  pose proof (repr_chain _ _ (sw_repr _ _ HW) L_stk) as Hch. simpl in Hch. rewrite Hs in Hch.
  apply chain_cons_lookup in Hch as (_ & _ & r0 & Hr0 & _).
  destruct (repr_pop k L L_stk a t y r0 (sw_repr _ _ HW) Hs Hr0) as [HR0 _].
  set (k0 := set_ccb (set_head L_stk r0 (ccb k)) k) in *. fold L1 in HR0.
  destruct (sched_wf_popped k k0 L a t y HW Hs HR0 eq_refl) as [HW0 Hu]. fold L1 in HW0, Hu.
  assert (sched_inv k1 L1) as HI1 by by apply (sched_inv_resumed k0).
  assert (Htdb1 : tdb_mem k1 = tdb_mem k) by by rewrite (strip_tdb_mem _ _ He1).
  assert (Hc1 : tcb_of k1 t = Some c) by by rewrite (strip_tcb_of _ _ _ He1).
  assert (Hcur1 : p_curr (ccb k1) = top k L1) by by rewrite (strip_curr _ _ He1).
  assert (Hne : t <> top k L1) by (intros ->; apply Hu; exact (top_sched_task k0 L1)).
  assert (Hu1 : t ∉ sched_tasks k1 L1) by (unfold sched_tasks; by rewrite (strip_idle _ _ He1)).
  set (k2 := tcb_upd t (task_end_tcb d) k1).
  assert (sched_inv k2 L1) as HI2 by by apply sched_inv_tcb_upd_other, sched_tasks_other.
  destruct (osEE_sn_release_run k2 L1 a (mkSN r t)) as (k3 & H3 & HR3 & He3);
    [apply HI2|done|done|unfold k2; by rewrite tcb_upd_sn_mem|].
  assert (sched_inv k3 (set_nodes L_free ((a, t) :: free L1) L1)) as HI3 by by apply (sched_inv_free k2).
  assert (Hterm : osEE_scheduler_task_terminated k = Some ((top k L1, t), k3)).
  { unfold osEE_scheduler_task_terminated. erewrite bind_run by done. rewrite Hcur.
    erewrite bind_run by by eapply get_tdb_tcb_run. rewrite decide_True by done.
    erewrite bind_run; [done|]. unfold task_terminated_normal.
    erewrite bind_run by exact H1. erewrite bind_run by done. rewrite Hcur1, decide_True by done.
    erewrite bind_run by (apply task_end_run; [by rewrite Htdb1|by eexists]).
    by erewrite bind_run by exact H3. }
  assert (Hd3 : tdb_mem k3 !! t = Some d).
  { rewrite (strip_tdb_mem _ _ He3). unfold k2. by rewrite tcb_upd_tdb_mem, Htdb1. }
  assert (Hid3 : p_idle_task k3 = p_idle_task k).
  { rewrite (strip_idle _ _ He3). unfold k2. by rewrite tcb_upd_idle, (strip_idle _ _ He1). }
  assert (Htop3 : is_task k3 (top k L1)).
  { pose proof (top_is_task k3 _ (sw_kwf _ _ (si_wf _ _ HI3)) HR3) as Ht3.
    unfold top in Ht3 |- *. simpl in Ht3 |- *. by rewrite Hid3 in Ht3. }
  destruct (is_task_inv _ _ Htop3) as (dt & ct & Hdt & Hct).
  pose (r' := bool_decide (status ct = OSEE_TASK_READY_STACKED)).
  pose (tr := trace k3 ++ [EvEoi (isr2_src d); EvEndContext (top k L1) r']).
  exists (tcb_upd (top k L1) (set_status OSEE_TASK_RUNNING) (set_trace tr k3)), r'.
  assert (sched_eq k3 (set_trace tr k3)) as Het by by split.
  assert (sched_eq k3 (tcb_upd (top k L1) (set_status OSEE_TASK_RUNNING) (set_trace tr k3))) as He4.
  { etransitivity; [exact Het|]. by apply sched_eq_tcb_upd. }
  assert (Htr : trace k3 = trace k).
  { transitivity (trace k2); [by apply (f_equal trace) in He3|]. unfold k2.
    rewrite tcb_upd_trace. by apply (f_equal trace) in He1. }
  split_and!.
  - unfold osEE_scheduler_task_end. erewrite bind_run by exact Hterm. cbv beta iota.
    erewrite bind_run by by apply get_tdb_run. rewrite Hty, decide_False by (intros Hn; by apply Hn).
    unfold osEE_change_context_from_isr2_end. erewrite bind_run by by apply get_tdb_run.
    erewrite bind_run by done. unfold osEE_change_context_from_task_end.
    erewrite bind_run by (by apply (get_tdb_tcb_run _ _ dt ct)).
    unfold tr, r'. destruct (decide (status ct = OSEE_TASK_READY_STACKED)) as [Hst|Hst];
      [rewrite (bool_decide_true _ Hst)|rewrite (bool_decide_false _ Hst)];
      erewrite bind_run by done; unfold osEE_scheduler_task_wrapper_restore;
      rewrite upd_tdb_tcb_run by done; by rewrite set_trace_two.
  - by apply (sched_eq_inv k3).
  - rewrite (se_curr _ _ He4), (strip_curr _ _ He3). unfold k2. by rewrite tcb_upd_ccb.
  - rewrite tcb_upd_other; [|exact (kwf_inj k3 (sw_kwf _ _ (si_wf _ _ HI3)))|done].
    change (tcb_of (set_trace tr k3) t) with (tcb_of k3 t).
    rewrite (strip_tcb_of _ _ _ He3). by apply tcb_upd_same.
  - intros v Hv. rewrite (se_cprio _ _ He4), (strip_cprio _ _ _ He3). unfold cprio, k2.
    rewrite tcb_upd_other; [|apply HI1|done]. by rewrite (strip_tcb_of _ _ _ He1).
  - rewrite tcb_upd_trace. cbn [trace set_trace]. unfold tr. by rewrite Htr.
Qed.

(** A change of the store that the scheduled tasks do not see. *)
Lemma sched_inv_ext k k' L :
  repr k' L -> kwf k' -> p_idle_task k' = p_idle_task k -> p_curr (ccb k') = p_curr (ccb k) ->
  (forall t, t ∈ sched_tasks k L -> cprio k' t = cprio k t /\ rprio k' t = rprio k t) ->
  sched_inv k L -> sched_inv k' L.
Proof.
  intros HR Hk Hid Hcur Hp [HW Hc Hh]. pose proof HW as [_ _ Hs Hr Hrd Hn Hi].
  assert (Hin : forall t, t ∈ tasks (stk L) \/ t ∈ tasks (rdy L) -> t ∈ sched_tasks k L).
  { intros t Ht. unfold sched_tasks. rewrite !tasks_app, elem_of_cons, !elem_of_app. tauto. }
  assert (Htop : top k' L = top k L) by (unfold top; by rewrite Hid).
  assert (Hrd' : forall t, t ∈ tasks (rdy L) -> cprio k' t = cprio k t /\ rprio k' t = rprio k t).
  { intros t Ht. apply Hp, Hin. by right. }
  split; [split|..]; try done.
  - eapply sorted_agree; [|exact Hs]. intros t Ht. symmetry. apply Hp, Hin. by left.
  - eapply sorted_agree; [|exact Hr]. intros t Ht. symmetry. by apply Hrd'.
  - intros t Ht. destruct (Hrd' t Ht) as [-> ->]. by apply Hrd.
  - by rewrite Hid.
  - rewrite Hid. destruct (Hp (p_idle_task k)) as [-> _]; [by apply list_elem_of_here|done].
  - by rewrite Hcur, Htop.
  - intros t Ht. rewrite Htop. destruct (Hrd' t Ht) as [-> _].
    destruct (Hp (top k L) (top_sched_task k L)) as [-> _]. by apply Hh.
Qed.

Definition tdb_upd (t : Z) (f : OsEE_TDB -> OsEE_TDB) (k : kernel) : kernel :=
  set_tdb_mem (alter f t (tdb_mem k)) k.

Lemma upd_tdb_run k t d f :
  tdb_mem k !! t = Some d -> upd_tdb t f k = Some (tt, tdb_upd t f k).
Proof.
  intros Hd. unfold upd_tdb. erewrite bind_run by by apply get_tdb_run.
  unfold put_tdb, tdb_upd. rewrite Hd. by erewrite insert_as_alter.
Qed.

Lemma tcb_of_tdb_upd t f k v :
  (forall d, p_tcb (f d) = p_tcb d) -> tcb_of (tdb_upd t f k) v = tcb_of k v.
Proof.
  intros Hf. unfold tcb_of, tdb_upd. cbn [set_tdb_mem tdb_mem tcb_mem].
  destruct (decide (t = v)) as [->|Hne]; [|by rewrite lookup_alter_ne].
  rewrite lookup_alter_eq. destruct (tdb_mem k !! v) as [d|]; [|done]. simpl. by rewrite Hf.
Qed.

Lemma kwf_tdb_upd t f k :
  (forall d, p_tcb (f d) = p_tcb d) -> kwf k -> kwf (tdb_upd t f k).
Proof.
  intros Hf [H1 H2 H3]. split.
  - unfold tdb_upd. cbn. destruct (decide (t = NULL)) as [->|Hne].
    + by rewrite lookup_alter_eq, H1.
    + by rewrite lookup_alter_ne.
  - unfold is_task. by rewrite tcb_of_tdb_upd.
  - assert (Hlk : forall v d, tdb_mem (tdb_upd t f k) !! v = Some d ->
      exists d', tdb_mem k !! v = Some d' /\ p_tcb d = p_tcb d').
    { intros v d. unfold tdb_upd. cbn [set_tdb_mem tdb_mem].
      destruct (decide (t = v)) as [->|Hne]; [|rewrite lookup_alter_ne by done; eauto].
      rewrite lookup_alter_eq. intros (d' & Hd' & ->)%fmap_Some. eauto. }
    intros v v' d d' (e & He & Hde)%Hlk (e' & He' & Hde')%Hlk Heq. eapply H3; [done..|congruence].
Qed.

Lemma repr_tdb_upd t f k L :
  (forall d, p_tcb (f d) = p_tcb d) -> repr k L -> repr (tdb_upd t f k) L.
Proof.
  intros Hf. apply repr_same; [done|by intros []|]. intros v. unfold is_task.
  by rewrite tcb_of_tdb_upd.
Qed.

Lemma sched_inv_tdb_upd t f k L :
  (forall d, p_tcb (f d) = p_tcb d) -> (forall d, ready_prio (f d) = ready_prio d) ->
  sched_inv k L -> sched_inv (tdb_upd t f k) L.
Proof.
  intros Hf Hr HI. apply (sched_inv_ext k); try done.
  - apply repr_tdb_upd; [done|]. apply HI.
  - apply kwf_tdb_upd; [done|]. apply HI.
  - intros v _. unfold cprio. rewrite tcb_of_tdb_upd by done. split; [done|].
    unfold rprio, tdb_upd. cbn [set_tdb_mem tdb_mem].
    destruct (decide (t = v)) as [->|Hne]; [|by rewrite lookup_alter_ne].
    rewrite lookup_alter_eq. destruct (tdb_mem k !! v) as [d|]; [|done]. simpl. apply Hr.
Qed.

(** An interrupt whose service routine activates nothing is transparent.
    Entering the ISR2 and ending it terminates and leaves the invariant with
    the same stack, ready queue and suspended tasks, the same current task and
    the same priorities of the other tasks; the node is free again and the
    interrupt that was taken is acknowledged. *)
Theorem isr2_roundtrip k L isr2_id irqn a u x t d c :
  sched_inv k L -> free L = (a, u) :: x ->
  aget (tdb_ptr_array k) isr2_id = Some t -> tdb_mem k !! t = Some d -> tcb_of k t = Some c ->
  task_type d = OSEE_TASK_TYPE_ISR2 -> t ∉ sched_tasks k L ->
  cprio k (p_curr (ccb k)) <= cprio k t -> 0 <= irqn < 2 ^ 16 ->
  exists k', (_ ← osEE_activate_isr2 isr2_id irqn; osEE_scheduler_task_end) k = Some (tt, k') /\
    sched_inv k' (mkLists (rdy L) ((a, t) :: x) (stk L) (sus L)) /\
    p_curr (ccb k') = p_curr (ccb k) /\ (forall v, v <> t -> cprio k' v = cprio k v) /\
    EvEoi irqn ∈ trace k'.
Proof.
  intros HI Hf Hp Hd Hc Hty Hout Hle Hirq. set (k1 := tdb_upd t (set_isr2_src irqn) k).
  assert (sched_inv k1 L) as HI1 by by apply sched_inv_tdb_upd.
  assert (tcb_of k1 t = Some c) as Hc1 by (unfold k1; by rewrite tcb_of_tdb_upd).
  assert (tdb_mem k1 !! t = Some (set_isr2_src irqn d)) as Hd1.
  { unfold k1, tdb_upd. cbn [set_tdb_mem tdb_mem]. by rewrite lookup_alter_eq, Hd. }
  set (k2 := tcb_upd t (fun c => set_current_num_of_act (u8 (current_num_of_act c + 1)) c) k1).
  assert (sched_eq k1 k2) as He2 by by apply sched_eq_tcb_upd.
  assert (Hcp1 : forall v, cprio k1 v = cprio k v).
  { intros v. unfold cprio, k1. by rewrite tcb_of_tdb_upd. }
  assert (Hcp2 : forall v, cprio k2 v = cprio k v).
  { intros v. by rewrite (se_cprio _ _ He2). }
  assert (Hid2 : p_idle_task k2 = p_idle_task k) by by rewrite (se_idle _ _ He2).
  rewrite (si_curr _ _ HI) in Hle.
  destruct (set_running_run k2 L a u x t)
    as (k3 & H3 & HI3 & Hcur3 & Htdb3 & Hid3 & Hcp3 & (c3 & Hc3 & Hrun3)).
  { by apply (sched_eq_inv k1). }
  { apply (se_task _ _ He2). by eexists. }
  { unfold sched_tasks. by rewrite Hid2. }
  { unfold top. rewrite Hid2, !Hcp2. exact Hle. }
  { done. }
  set (L3 := mkLists (rdy L) x ((a, t) :: stk L) (sus L)) in *.
  assert (Hd3 : tdb_mem k3 !! t = Some (set_isr2_src irqn d)).
  { rewrite Htdb3, (se_tdb _ _ He2). exact Hd1. }
  assert (Htop : top k3 (set_nodes L_stk (stk L) L3) = top k L).
  { unfold top. simpl. by rewrite Hid3, Hid2. }
  destruct (isr2_end_run k3 L3 a t (stk L) (set_isr2_src irqn d) c3 HI3 eq_refl Hd3 Hc3 Hrun3 Hty)
    as (k4 & r & H4 & HI4 & Hcur4 & _ & Hcp4 & Htr4).
  { pose proof (preempts_none _ _ HI) as Hno. unfold preempts in Hno |- *. simpl.
    destruct (rdy L) as [|[b v] y]; [done|]. destruct (stk L) as [|[e w] z]; [done|].
    rewrite !Hcp3, !Hcp2. by destruct (decide (cprio k w < cprio k v)). }
  exists k4. split_and!.
  - erewrite bind_run; [exact H4|]. unfold osEE_activate_isr2.
    erewrite bind_run by (unfold from_option; by rewrite Hp).
    rewrite (wrap_small 16) by done.
    erewrite bind_run by (by apply (upd_tdb_run _ _ d)). fold k1.
    erewrite bind_run by (apply upd_tdb_tcb_run; by eexists). exact H3.
  - exact HI4.
  - by rewrite Hcur4, Htop, (si_curr _ _ HI).
  - intros v Hv. by rewrite Hcp4, Hcp3, Hcp2.
  - rewrite Htr4. apply elem_of_app. right. by apply list_elem_of_here.
Qed.

Lemma isr2_roundtrip_witness : exists k',
  (_ ← osEE_activate_isr2 3 27; osEE_scheduler_task_end) demo = Some (tt, k') /\
  sched_inv k' (mkLists (rdy demo_lists) [(13, 5); (14, 0)] (stk demo_lists) (sus demo_lists)) /\
  p_curr (ccb k') = 2 /\ (forall v, v <> 5 -> cprio k' v = cprio demo v) /\ EvEoi 27 ∈ trace k'.
Proof.
  apply (isr2_roundtrip demo demo_lists 3 27 13 0 [(14, 0)] 5 _ _ demo_inv eq_refl eq_refl eq_refl eq_refl
    eq_refl).
  - intros H. unfold sched_tasks in H. simpl in H. solve_elem.
  - vm_compute. discriminate.
  - lia.
Defined.
