(* ===== verification/Boot.v ===== *)
(** * ERIKA: initialization and the dynamic API

    Models ee_std_hal_init.c (cleared data, [osEE_os_init], the stack pool),
    ee_oo_api_dynamic.c (InitOS, CreateTask, SetISR2Source, SetIdleHook), the
    configured path of StartOS and the interrupt dispatch of ee_aarch64_int.c.

    The array element [i] of a type has the address [i + 1] in the store of
    that type. The sizes are those of conf.oil.

    The theorems show that InitOS, any calls of CreateTask and StartOS lead to
    a state with the scheduling invariant in which every created task can be
    activated, that stacks do not overlap, and that an interrupt reaches the
    ISR2 that was registered for its source. *)

From Stdlib Require Import ZArith Lia String.
From stdpp Require Import base tactics list option gmap sorting.
From S2P Require Import Prelude StateMonad Cell Irqchip FixedPriority Kernel Scheduler SchedPartitioned OsekApi.

(** ** Configuration (conf.oil) and constants *)
Definition OSEE_TASK_ARRAY_SIZE : Z := 8.
Definition OSEE_SN_ARRAY_SIZE : Z := 8.
Definition OSEE_STACKS_SIZE : Z := 65536.
Definition OSEE_SYSTEM_STACK : Z := u64 (-1).
Definition OSEE_STACK_ALIGN_SIZE : Z := 16.
Definition OSEE_STACK_ALIGN : Z := u64 (Z.lnot (OSEE_STACK_ALIGN_SIZE - 1)).
Definition OSEE_STACK_GUARD_AREA : Z := OSEE_STACK_ALIGN_SIZE.
Definition OSEE_GIC_MAX_NUM_PRIO : Z := 16.
Definition OSEE_ISR2_MAX_PRIO : Z := OSEE_ISR2_PRIO_BIT + OSEE_GIC_MAX_NUM_PRIO / 2 + 1.
Definition OSEE_GIC_MIN_SPI_ID : Z := 32.
Definition OSEE_GIC_ISR_NUM : Z := 384.
Definition OSEE_GIC_SPURIOUS_ISR : Z := 1023.

Definition at_index (i : Z) : Z := i + 1.
Definition indices (n : Z) : list Z := Z.of_nat <$> seq 0 (Z.to_nat n).

(** ** The machine at start-up *)
Inductive OsEE_aarch64_hnd_type :=
  | OSEE_ISR_CAT_INVALID
  | OSEE_ISR_CAT_1 (p_hnd_func : Z)
  | OSEE_ISR_CAT_2 (hnd_tid : Z).

(** The stack of a task: that of the idle task, by a shared pointer, or one
    from the pool. *)
Inductive task_stack :=
  | SystemStack
  | PoolStack (p_bos size : Z).

(** The kernel store; whether the kernel descriptor points to its control
    block; the stack pool ([osEE_pool]); the stack of each descriptor; the
    vector tables; the enabled interrupts; the mask. *)
Record sys := mkSys {
  sk : kernel;
  p_kcb : bool;
  pool_base : Z;
  residual_mem : Z;
  stack_of : gmap Z task_stack;
  ppi_vectors : list OsEE_aarch64_hnd_type;
  spi_vectors : list OsEE_aarch64_hnd_type;
  gic_enabled : list Z;
  sys_daif : Z
}.

Definition on_sk {A} (m : ST kernel A) : ST sys A := fun s =>
  match m (sk s) with
  | Some (x, k) => Some (x, mkSys k (p_kcb s) (pool_base s) (residual_mem s) (stack_of s)
                              (ppi_vectors s) (spi_vectors s) (gic_enabled s) (sys_daif s))
  | None => None
  end.
Definition set_p_kcb (b : bool) (s : sys) : sys :=
  mkSys (sk s) b (pool_base s) (residual_mem s) (stack_of s)
    (ppi_vectors s) (spi_vectors s) (gic_enabled s) (sys_daif s).
Definition set_pool (b r : Z) (s : sys) : sys :=
  mkSys (sk s) (p_kcb s) b r (stack_of s)
    (ppi_vectors s) (spi_vectors s) (gic_enabled s) (sys_daif s).
Definition set_stack_of (m : gmap Z task_stack) (s : sys) : sys :=
  mkSys (sk s) (p_kcb s) (pool_base s) (residual_mem s) m
    (ppi_vectors s) (spi_vectors s) (gic_enabled s) (sys_daif s).
Definition set_vectors (p q : list OsEE_aarch64_hnd_type) (s : sys) : sys :=
  mkSys (sk s) (p_kcb s) (pool_base s) (residual_mem s) (stack_of s) p q
    (gic_enabled s) (sys_daif s).
Definition set_gic_enabled (l : list Z) (s : sys) : sys :=
  mkSys (sk s) (p_kcb s) (pool_base s) (residual_mem s) (stack_of s)
    (ppi_vectors s) (spi_vectors s) l (sys_daif s).
Definition set_sys_daif (f : Z) (s : sys) : sys :=
  mkSys (sk s) (p_kcb s) (pool_base s) (residual_mem s) (stack_of s)
    (ppi_vectors s) (spi_vectors s) (gic_enabled s) f.

(** The data of ee_std_hal_init.c before [osEE_os_init]: all cleared. *)
Definition cleared_tdb : OsEE_TDB := mkTDB NULL 0 OSEE_TASK_TYPE_BASIC NULL 0 0 0 0.
Definition cleared_tcb : OsEE_TCB := mkTCB 0 0 OSEE_TASK_SUSPENDED 0 0 NULL.
Definition cleared_ccb : OsEE_CCB :=
  mkCCB NULL NULL NULL 0 NULL OSEE_KERNEL_UNINITIALIZED 0 0 0 0 0 0 NULL MEMORY_TOKEN_NONE.
Definition cleared_kernel : kernel := mkKernel
  (list_to_map ((fun i => (at_index i, mkSN NULL NULL)) <$> indices OSEE_SN_ARRAY_SIZE))
  (list_to_map ((fun i => (at_index i, cleared_tdb)) <$> indices (OSEE_TASK_ARRAY_SIZE + 1)))
  (list_to_map ((fun i => (at_index i, cleared_tcb)) <$> indices (OSEE_TASK_ARRAY_SIZE + 1)))
  cleared_ccb NULL NULL ((fun _ => NULL) <$> indices (OSEE_TASK_ARRAY_SIZE + 1)) 0 [].

(** [tos] is the top of the stack memory ([OSEE_STACK_TOS(osEE_task_stacks)]). *)
Definition reset_sys (tos : Z) : sys := mkSys cleared_kernel false tos OSEE_STACKS_SIZE ∅
  (replicate (Z.to_nat OSEE_GIC_MIN_SPI_ID) OSEE_ISR_CAT_INVALID)
  (replicate (Z.to_nat (OSEE_GIC_ISR_NUM - OSEE_GIC_MIN_SPI_ID)) OSEE_ISR_CAT_INVALID) [] 0.

(** ** Initialization of the kernel data *)
Definition osEE_idle_hook_wrapper : Z := 1.

(** [osEE_tdb_ptr_array[i] = p] *)
Definition put_tdb_ptr (i p : Z) : ST kernel unit := fun k =>
  match aset (tdb_ptr_array k) i p with
  | Some l => Some (tt, set_tdb_ptr_array l k)
  | None => None
  end.

Fixpoint init_tdbs (n : nat) (i : Z) : ST kernel unit :=
  match n with
  | O => mret tt
  | S n' =>
      let p_tdb := at_index i in
      _ ← put_tdb_ptr i p_tdb;
      _ ← upd_tdb p_tdb (set_p_tcb (at_index i));
      init_tdbs n' (i + 1)
  end.

Fixpoint init_sns (n : nat) (i : Z) : ST kernel unit :=
  match n with
  | O => mret tt
  | S n' =>
      _ ← upd_sn (at_index (i - 1)) (set_sn_next (at_index i));
      init_sns n' (i + 1)
  end.

Definition osEE_os_init : ST kernel unit :=
  _ ← modify (set_p_idle_task (at_index OSEE_TASK_ARRAY_SIZE));
  _ ← upd_tdb (at_index OSEE_TASK_ARRAY_SIZE) (set_task_func osEE_idle_hook_wrapper);
  _ ← init_tdbs (Z.to_nat (OSEE_TASK_ARRAY_SIZE + 1)) 0;
  _ ← init_sns (Z.to_nat OSEE_SN_ARRAY_SIZE - 1) 1;
  _ ← upd_ccb (set_p_free_sn (at_index 0));
  _ ← upd_ccb (set_free_sn_counter OSEE_SN_ARRAY_SIZE);
  _ ← upd_ccb (set_os_status OSEE_KERNEL_INITIALIZED);
  upd_ccb (set_mem_arbit_status MEMORY_TOKEN_NONE).

Definition InitOS : ST sys Z :=
  set_ ← gets p_kcb;
  if negb set_ then
    _ ← on_sk osEE_os_init;
    _ ← modify (set_p_kcb true);
    mret E_OK
  else mret E_OS_SYS_INIT.

(** ** Stacks *)
Definition align_stack (stack_size : Z) : Z :=
  if decide (OSEE_STACK_GUARD_AREA * 2 < stack_size)
  then Z.land (u64 (stack_size + (OSEE_STACK_ALIGN_SIZE - 1))) OSEE_STACK_ALIGN
  else OSEE_STACK_GUARD_AREA * 2.

Definition OSEE_GET_STACK_POINTER (pool : Z) : Z :=
  pool - Z.land (OSEE_STACK_GUARD_AREA + (OSEE_STACK_ALIGN_SIZE - 1)) OSEE_STACK_ALIGN.

(** The stack pointer (NULL when the pool is exhausted) and the size. *)
Definition osEE_hal_allocate_stack (stack_size : Z) : ST sys (Z * Z) := fun s =>
  let size := align_stack stack_size in
  if decide (size <= residual_mem s)
  then Some ((OSEE_GET_STACK_POINTER (pool_base s), size),
             set_pool (pool_base s - size) (residual_mem s - size) s)
  else Some ((NULL, size), s).

(** The hardware part of descriptor [p_tdb]. *)
Definition put_stack (p_tdb : Z) (x : task_stack) : ST sys unit :=
  modify (fun s => set_stack_of (<[p_tdb := x]> (stack_of s)) s).

Definition osEE_hal_hdb_init (p_tdb stack_size : Z) : ST sys bool :=
  if decide (stack_size = OSEE_SYSTEM_STACK) then
    _ ← put_stack p_tdb SystemStack;
    mret true
  else
    '(p_stack, size) ← osEE_hal_allocate_stack stack_size;
    if decide (p_stack <> NULL) then
      _ ← put_stack p_tdb (PoolStack p_stack size);
      mret true
    else mret false.

(** ** Creation of tasks *)

(** "Adjust Priorities" *)
Definition adjust_prio (ty : OsEE_task_type) (prio : Z) : Z :=
  if decide (ty = OSEE_TASK_TYPE_ISR2)
  then u8 (Z.lor (u8 (prio - 1)) OSEE_ISR2_PRIO_BIT)
  else Z.land prio (u8 (Z.lnot OSEE_ISR2_PRIO_BIT)).

(** The fields that [osEE_create_task] fills. *)
Definition fill_tdb (t : Z) (ty : OsEE_task_type) (func ready dispatch acts : Z)
    (d : OsEE_TDB) : OsEE_TDB :=
  set_max_num_of_act acts (set_dispatch_prio dispatch (set_ready_prio ready
    (set_task_func func (set_task_type ty (set_tid t d))))).
Definition fill_tcb (ready : Z) (c : OsEE_TCB) : OsEE_TCB :=
  set_current_num_of_act 0 (set_status OSEE_TASK_SUSPENDED (set_current_prio ready c)).

(** "Alloc TDB and TCB", "Fill TDB", "Fill TCB" *)
Definition fill_task (p_tdb t : Z) (ty : OsEE_task_type) (func ready dispatch acts : Z)
    : ST kernel unit :=
  d ← get_tdb p_tdb;
  _ ← modify (fun k => set_free_task_index (free_task_index k + 1) k);
  _ ← upd_tdb p_tdb (fill_tdb t ty func ready dispatch acts);
  upd_tcb (p_tcb d) (fill_tcb ready).

(** The status and, when it is E_OK, the identifier of the new task. *)
Definition osEE_create_task (ty : OsEE_task_type) (func ready dispatch acts stack_size : Z)
    : ST sys (Z * option Z) :=
  let ready' := adjust_prio ty ready in
  let dispatch' := adjust_prio ty dispatch in
  free_index ← on_sk (gets free_task_index);
  if decide (ty = OSEE_TASK_TYPE_EXTENDED /\ stack_size = OSEE_SYSTEM_STACK) then
    mret (E_OS_STATE, None)
  else if decide (OSEE_TASK_ARRAY_SIZE <= free_index) then mret (E_OS_SYS_TASK, None)
  else if decide (ready' = 0 \/ ready' < dispatch' \/ acts = 0 \/ OSEE_ISR2_MAX_PRIO < dispatch')
  then mret (E_OS_VALUE, None)
  else
    reserved ← on_sk (osEE_scheduler_task_reserve_activations acts);
    if negb reserved then mret (E_OS_SYS_ACT, None)
    else
      p_tdb ← on_sk (tdb_of_tid free_index);
      ok ← osEE_hal_hdb_init p_tdb stack_size;
      if (ok : bool) then
        _ ← on_sk (fill_task p_tdb free_index ty func ready' dispatch' acts);
        mret (E_OK, Some free_index)
      else mret (E_OS_SYS_STACK, None).

(** [osEE_begin_primitive] and [osEE_end_primitive] around it only mask
    interrupts. *)
Definition CreateTask := osEE_create_task.

(** ** Interrupt sources *)
Definition osEE_aarch64_configure_isr2 (t source_id : Z) : ST sys Z := fun s =>
  let enable s' := Some (E_OK, set_gic_enabled (source_id :: gic_enabled s) s') in
  if decide (source_id < OSEE_GIC_MIN_SPI_ID) then
    match aset (ppi_vectors s) source_id (OSEE_ISR_CAT_2 t) with
    | Some v => enable (set_vectors v (spi_vectors s) s)
    | None => None
    end
  else if decide (source_id < OSEE_GIC_ISR_NUM) then
    match aset (spi_vectors s) (source_id - OSEE_GIC_MIN_SPI_ID) (OSEE_ISR_CAT_2 t) with
    | Some v => enable (set_vectors (ppi_vectors s) v s)
    | None => None
    end
  else Some (E_OS_SYS_INIT, s).

Definition osEE_hal_set_isr2_source (p_tdb source_id : Z) : ST sys Z :=
  d ← on_sk (get_tdb p_tdb);
  ev ← osEE_aarch64_configure_isr2 (tid d) source_id;
  _ ← (if decide (ev = E_OK)
       then on_sk (upd_tdb p_tdb (set_isr2_src source_id)) else mret tt);
  mret ev.

Definition SetISR2Source (isr_id source_id : Z) : ST sys Z :=
  free_index ← on_sk (gets free_task_index);
  if decide (free_index <= isr_id) then mret E_OS_ID
  else
    p_tdb ← on_sk (tdb_of_tid isr_id);
    osEE_hal_set_isr2_source p_tdb source_id.

(** One interrupt of [osEE_aarch64_isr_wrapper]: [irqn] is the value read from
    the acknowledge register; [false] ends the loop. A category 1 handler is
    user code. *)
Definition isr_wrapper_step (irqn : Z) : ST sys bool :=
  if decide (irqn = OSEE_GIC_SPURIOUS_ISR) then mret false
  else
    let irqn_id_only := Z.land irqn 1023 in
    hnd ← from_option (fun s =>
      if decide (irqn_id_only < OSEE_GIC_MIN_SPI_ID) then aget (ppi_vectors s) irqn_id_only
      else aget (spi_vectors s) (irqn_id_only - OSEE_GIC_MIN_SPI_ID));
    _ ← match hnd with
        | OSEE_ISR_CAT_2 t =>
            if decide (t <> INVALID_TASK)
            then on_sk (osEE_activate_isr2 t irqn)
            else on_sk (emit (EvEoi irqn))
        | OSEE_ISR_CAT_1 _ | OSEE_ISR_CAT_INVALID => on_sk (emit (EvEoi irqn))
        end;
    mret true.

Definition SetIdleHook (idleHook : Z) : ST sys Z :=
  c ← on_sk get_ccb;
  if decide (idleHook = NULL) then mret E_OS_PARAM_POINTER
  else if decide (os_status c <> OSEE_KERNEL_INITIALIZED) then mret E_OS_SYS_INIT
  else
    _ ← on_sk (modify (set_p_idle_hook idleHook));
    mret E_OK.

(** ** Start of the kernel *)
Definition osEE_std_cpu_startos : ST kernel bool :=
  p_tdb ← gets p_idle_task;
  _ ← upd_tdb p_tdb (set_tid OSEE_TASK_ARRAY_SIZE);
  _ ← upd_tdb p_tdb (set_task_type OSEE_TASK_TYPE_IDLE);
  _ ← upd_tdb p_tdb (set_max_num_of_act 1);
  mret true.

(** "Set Idle TASK as RUNNING", "Fill CCB" and the kernel status; the
    application mode, start-up hook and autostart are not configured. *)
Definition start_idle : ST kernel unit :=
  p_idle_tdb ← gets p_idle_task;
  _ ← upd_tdb_tcb p_idle_tdb (set_status OSEE_TASK_RUNNING);
  _ ← upd_tdb_tcb p_idle_tdb (set_current_num_of_act 1);
  _ ← upd_ccb (set_p_curr p_idle_tdb);
  _ ← upd_ccb (set_os_status OSEE_KERNEL_STARTING);
  upd_ccb (set_os_status OSEE_KERNEL_STARTED).

(** The result: the status, and whether the service returns (with an idle
    hook it stays in the idle task until shutdown). *)
Definition StartOS : ST sys (Z * bool) :=
  c ← on_sk get_ccb;
  if decide (os_status c <> OSEE_KERNEL_INITIALIZED) then mret (E_OS_ACCESS, true)
  else
    ok ← on_sk osEE_std_cpu_startos;
    if negb ok then mret (E_OS_SYS_INIT, true)
    else
      _ ← on_sk start_idle;
      hook ← on_sk (gets p_idle_hook);
      if decide (hook <> NULL) then mret (E_OK, false)
      else
        _ ← modify (fun s => set_sys_daif (Z.ldiff (sys_daif s) OSEE_AARCH64_I_DAIF) s);
        mret (E_OK, true).

(** ** The state before the kernel is started *)
Definition boot_lists : lists :=
  mkLists [] ((fun i => (at_index i, NULL)) <$> indices OSEE_SN_ARRAY_SIZE) [] [].

(** A created task: suspended, at its ready priority, which is not below its
    dispatch priority. *)
Definition created (k : kernel) (i : Z) : Prop :=
  exists d c, tdb_mem k !! at_index i = Some d /\ tcb_of k (at_index i) = Some c /\
    tid d = i /\ 0 < ready_prio d /\ dispatch_prio d <= ready_prio d /\ 0 < max_num_of_act d /\
    current_prio c = ready_prio d /\ status c = OSEE_TASK_SUSPENDED /\ current_num_of_act c = 0.

Definition acts_of (k : kernel) (i : Z) : Z :=
  match tdb_mem k !! at_index i with Some d => max_num_of_act d | None => 0 end.

(** The activations reserved for the first [n] tasks. *)
Fixpoint reserved (k : kernel) (n : nat) : Z :=
  match n with O => 0 | S n' => reserved k n' + acts_of k (Z.of_nat n') end.

Record boot_inv (k : kernel) : Prop := {
  bi_repr : repr k boot_lists;
  bi_kwf : kwf k;
  bi_idle : p_idle_task k = at_index OSEE_TASK_ARRAY_SIZE;
  bi_idle_prio : cprio k (at_index OSEE_TASK_ARRAY_SIZE) = 0;
  bi_ptr : tdb_ptr_array k = at_index <$> indices (OSEE_TASK_ARRAY_SIZE + 1);
  bi_tdb i : 0 <= i <= OSEE_TASK_ARRAY_SIZE -> exists d, tdb_mem k !! at_index i = Some d /\
    p_tcb d = at_index i /\ is_Some (tcb_mem k !! at_index i);
  bi_index : 0 <= free_task_index k <= OSEE_TASK_ARRAY_SIZE;
  bi_status : os_status (ccb k) = OSEE_KERNEL_INITIALIZED;
  bi_hook : p_idle_hook k = NULL;
  bi_created i : 0 <= i < free_task_index k -> created k i;
  bi_acts : 0 <= free_sn_counter (ccb k);
  bi_reserved : reserved k (Z.to_nat (free_task_index k)) + free_sn_counter (ccb k) <= OSEE_SN_ARRAY_SIZE
}.

(** [osEE_os_init] on the cleared data. *)
Definition initialized : kernel :=
  match osEE_os_init cleared_kernel with Some (_, k) => k | None => cleared_kernel end.

Lemma os_init_run : osEE_os_init cleared_kernel = Some (tt, initialized).
Proof. vm_compute. reflexivity. Qed.

Lemma initialized_tdbs : tdb_mem initialized = list_to_map ((fun i =>
  (at_index i, set_p_tcb (at_index i) (if decide (i = OSEE_TASK_ARRAY_SIZE)
     then set_task_func osEE_idle_hook_wrapper cleared_tdb else cleared_tdb))) <$>
  indices (OSEE_TASK_ARRAY_SIZE + 1)).
Proof. vm_compute. reflexivity. Qed.

Lemma elem_of_indices i n : i ∈ indices n <-> 0 <= i < n.
Proof.
  unfold indices. rewrite list_elem_of_fmap. split.
  - intros (j & -> & Hj%elem_of_seq). lia.
  - intros H. exists (Z.to_nat i). rewrite elem_of_seq. lia.
Qed.

Lemma initialized_inj : tcb_inj initialized.
Proof.
  intros t t' d d' H H' He. rewrite initialized_tdbs in H, H'.
  apply elem_of_list_to_map_2 in H as (i & [= -> ->] & _)%list_elem_of_fmap.
  apply elem_of_list_to_map_2 in H' as (i' & [= -> ->] & _)%list_elem_of_fmap. exact He.
Qed.

(** The tasks and control blocks of the arrays, by index. *)
Lemma index_cases (P : Z -> Prop) n :
  Forall P (indices n) -> forall i, 0 <= i < n -> P i.
Proof. intros H i Hi. rewrite Forall_forall in H. apply H, elem_of_indices. lia. Qed.

Lemma initialized_repr : repr initialized boot_lists.
Proof.
  split.
  - intros []; solve_chain.
  - intros []; apply (bool_decide_unpack _); vm_compute; exact I.
  - intros [] [] a Hne H1 H2; try done; by apply elem_of_nil in H1 || by apply elem_of_nil in H2.
  - intros [] t Hf H; try done; by apply elem_of_nil in H.
Qed.

Lemma initialized_inv : boot_inv initialized.
Proof.
  split; try reflexivity.
  - apply initialized_repr.
  - split; [reflexivity|by eexists|apply initialized_inj].
  - assert (forall i, 0 <= i < OSEE_TASK_ARRAY_SIZE + 1 -> exists d,
      tdb_mem initialized !! at_index i = Some d /\ p_tcb d = at_index i /\
      is_Some (tcb_mem initialized !! at_index i)) as H.
    { apply index_cases.
      change (indices (OSEE_TASK_ARRAY_SIZE + 1)) with [0; 1; 2; 3; 4; 5; 6; 7; 8].
      repeat first [apply Forall_nil | apply Forall_cons; split];
        try (eexists; split; [reflexivity|split; [reflexivity|by eexists]]); exact I. }
    intros i Hi. apply H. lia.
  - split; vm_compute; discriminate.
  - intros i Hi. change (free_task_index initialized) with 0 in Hi. lia.
  - vm_compute. discriminate.
Qed.

(** *** Creating a task *)
Definition reserve_k (acts : Z) (k : kernel) : kernel :=
  set_ccb (set_free_sn_counter (u64 (free_sn_counter (ccb k) - acts)) (ccb k)) k.
Definition create_k (ty : OsEE_task_type) (func ready dispatch acts : Z) (k : kernel) : kernel :=
  let i := free_task_index k in
  tcb_upd (at_index i) (fill_tcb ready)
    (tdb_upd (at_index i) (fill_tdb i ty func ready dispatch acts)
      (set_free_task_index (i + 1) k)).

Lemma reserve_run acts k :
  osEE_scheduler_task_reserve_activations acts k =
  if decide (acts <= free_sn_counter (ccb k)) then Some (true, reserve_k acts k)
  else Some (false, k).
Proof.
  unfold osEE_scheduler_task_reserve_activations. erewrite bind_run by done. by case_decide.
Qed.

Lemma reserved_ext k k' n :
  (forall i, 0 <= i < Z.of_nat n -> acts_of k' i = acts_of k i) -> reserved k' n = reserved k n.
Proof.
  induction n as [|n IH]; intros H; [done|]. simpl. rewrite IH, H by (intros; try apply H; lia). done.
Qed.

Lemma reserved_nonneg k n :
  boot_inv k -> Z.of_nat n <= free_task_index k -> 0 <= reserved k n.
Proof.
  intros HB. induction n as [|n IH]; intros Hn; [done|]. simpl.
  destruct (bi_created _ HB (Z.of_nat n)) as (d & c & Hd & _ & _ & _ & _ & Hm & _); [lia|].
  unfold acts_of. rewrite Hd. specialize (IH ltac:(lia)). lia.
Qed.

Lemma reserve_counter acts k :
  boot_inv k -> 0 <= acts <= free_sn_counter (ccb k) ->
  free_sn_counter (ccb (reserve_k acts k)) = free_sn_counter (ccb k) - acts.
Proof.
  intros HB Ha. change (u64 (free_sn_counter (ccb k) - acts) = free_sn_counter (ccb k) - acts).
  pose proof (bi_reserved _ HB) as Hr. pose proof (bi_index _ HB) as Hi.
  pose proof (reserved_nonneg k (Z.to_nat (free_task_index k)) HB ltac:(lia)).
  change OSEE_SN_ARRAY_SIZE with 8 in Hr. apply u64_small. lia.
Qed.

Lemma reserve_inv acts k :
  boot_inv k -> 0 <= acts <= free_sn_counter (ccb k) -> boot_inv (reserve_k acts k).
Proof.
  intros HB Ha. pose proof (reserve_counter acts k HB Ha) as Hc.
  destruct HB as [H1 H2 H3 H4 H5 H6 H7 H8 H9 H10 H11 H12].
  split; try done.
  - revert H1. apply repr_same; [done|by intros []|done].
  - destruct H2. by split.
  - rewrite Hc. lia.
  - rewrite Hc, (reserved_ext k) by done. cbn [reserve_k set_ccb free_task_index]. lia.
Qed.

Lemma at_index_inj i j : at_index i = at_index j -> i = j.
Proof. unfold at_index. lia. Qed.

Lemma create_tdb ty func r p a k j :
  tdb_mem (create_k ty func r p a k) !! at_index j =
  (if decide (j = free_task_index k) then fill_tdb j ty func r p a <$> tdb_mem k !! at_index j
   else tdb_mem k !! at_index j).
Proof.
  unfold create_k. rewrite tcb_upd_tdb_mem. unfold tdb_upd.
  cbn [set_tdb_mem set_free_task_index tdb_mem].
  case_decide as H; [subst; apply lookup_alter_eq|].
  apply lookup_alter_ne. intros Heq%at_index_inj. by apply H.
Qed.

Lemma create_tcb ty func r p a k j :
  kwf k ->
  tcb_of (create_k ty func r p a k) (at_index j) =
  (if decide (j = free_task_index k) then fill_tcb r <$> tcb_of k (at_index j)
   else tcb_of k (at_index j)).
Proof.
  intros Hi. unfold create_k. set (k1 := tdb_upd _ _ _).
  assert (Hk1 : forall v, tcb_of k1 v = tcb_of k v).
  { intros v. unfold k1. by rewrite tcb_of_tdb_upd. }
  case_decide as H.
  - subst. destruct (tcb_of k (at_index (free_task_index k))) as [c|] eqn:Hc.
    + apply tcb_upd_same. by rewrite Hk1.
    + simpl. apply eq_None_not_Some. intros Ht.
      apply (tcb_upd_is_task (at_index (free_task_index k)) _ (fill_tcb r) k1) in Ht.
      unfold is_task in Ht. rewrite Hk1, Hc in Ht. by destruct Ht.
  - rewrite tcb_upd_other; [apply Hk1| |].
    + apply (kwf_inj k1). unfold k1. apply kwf_tdb_upd; [done|]. by destruct Hi.
    + intros Heq%at_index_inj. by apply H.
Qed.

Lemma tcb_upd_static t f k :
  free_task_index (tcb_upd t f k) = free_task_index k /\
  tdb_ptr_array (tcb_upd t f k) = tdb_ptr_array k /\ p_idle_hook (tcb_upd t f k) = p_idle_hook k.
Proof. unfold tcb_upd. by destruct (tdb_mem k !! t). Qed.

Lemma create_inv ty func r p a k :
  boot_inv k -> free_task_index k < OSEE_TASK_ARRAY_SIZE -> 0 < r -> p <= r -> 0 < a ->
  reserved k (Z.to_nat (free_task_index k)) + a + free_sn_counter (ccb k) <= OSEE_SN_ARRAY_SIZE ->
  boot_inv (create_k ty func r p a k) /\ created (create_k ty func r p a k) (free_task_index k).
Proof.
  intros [H1 H2 H3 H4 H5 H6 H7 H8 H9 H10 H11 H12] Hi Hr Hp Ha Hres.
  set (i := free_task_index k) in *. set (k' := create_k ty func r p a k).
  assert (Hccb : ccb k' = ccb k) by (unfold k', create_k; by rewrite tcb_upd_ccb).
  assert (Hidle : p_idle_task k' = p_idle_task k) by (unfold k', create_k; by rewrite tcb_upd_idle).
  assert (Htdb : forall j, j <> i -> tdb_mem k' !! at_index j = tdb_mem k !! at_index j).
  { intros j Hj. unfold k'. by rewrite create_tdb, decide_False. }
  assert (Htcb : forall j, j <> i -> tcb_of k' (at_index j) = tcb_of k (at_index j)).
  { intros j Hj. unfold k'. by rewrite create_tcb, decide_False. }
  destruct (H6 i) as (d & Hd & Hpt & [c Hc]); [lia|].
  assert (Htc : tcb_of k (at_index i) = Some c) by (unfold tcb_of; rewrite Hd; simpl; by rewrite Hpt).
  assert (Hd' : tdb_mem k' !! at_index i = Some (fill_tdb i ty func r p a d)).
  { unfold k'. by rewrite create_tdb, decide_True, Hd. }
  assert (Hc' : tcb_of k' (at_index i) = Some (fill_tcb r c)).
  { unfold k'. by rewrite create_tcb, decide_True, Htc. }
  destruct (tcb_upd_static (at_index i) (fill_tcb r) (tdb_upd (at_index i)
    (fill_tdb i ty func r p a) (set_free_task_index (i + 1) k))) as (Hidx & Hptr & Hhook).
  change (free_task_index k' = i + 1) in Hidx. change (tdb_ptr_array k' = tdb_ptr_array k) in Hptr.
  change (p_idle_hook k' = p_idle_hook k) in Hhook.
  assert (Hcr : created k' i) by (by exists (fill_tdb i ty func r p a d), (fill_tcb r c)).
  split; [|done]. split.
  - unfold k', create_k. apply repr_tcb_upd, repr_tdb_upd; [done|].
    revert H1. apply repr_same; [done|by intros []|done].
  - unfold k', create_k. apply kwf_tcb_upd, kwf_tdb_upd; [done|]. destruct H2. by split.
  - by rewrite Hidle.
  - unfold cprio. rewrite Htcb by lia. exact H4.
  - by rewrite Hptr.
  - intros j Hj. destruct (H6 j Hj) as (dj & Hdj & Hptj & Htj).
    assert (is_Some (tcb_mem k' !! at_index j)) as Hs.
    { unfold k', create_k. fold i. set (k1 := tdb_upd _ _ _). unfold tcb_upd.
      destruct (tdb_mem k1 !! at_index i) as [e|]; [|done].
      cbn [set_tcb_mem tcb_mem]. destruct (decide (p_tcb e = at_index j)) as [->|Hne].
      - rewrite lookup_alter_eq. by apply fmap_is_Some.
      - by rewrite lookup_alter_ne. }
    destruct (decide (j = i)) as [->|Hne].
    + exists (fill_tdb i ty func r p a d). by simplify_eq.
    + exists dj. by rewrite Htdb.
  - rewrite Hidx. lia.
  - by rewrite Hccb.
  - by rewrite Hhook.
  - intros j Hj. rewrite Hidx in Hj. destruct (decide (j = i)) as [->|Hne]; [done|].
    destruct (H10 j) as (dj & cj & Hdj & Hcj & Hrest); [lia|]. exists dj, cj.
    by rewrite Htdb, Htcb.
  - by rewrite Hccb.
  - rewrite Hidx, Hccb, Z2Nat.inj_add, Nat.add_comm by lia. simpl.
    rewrite (reserved_ext k), Z2Nat.id by (lia || (intros j Hj; unfold acts_of; rewrite Htdb by lia; done)).
    unfold acts_of. rewrite Hd'. cbn [fill_tdb set_max_num_of_act max_num_of_act]. lia.
Qed.

Definition with_k (k : kernel) (s : sys) : sys :=
  mkSys k (p_kcb s) (pool_base s) (residual_mem s) (stack_of s)
    (ppi_vectors s) (spi_vectors s) (gic_enabled s) (sys_daif s).

Lemma on_sk_run {A} (m : ST kernel A) s x k :
  m (sk s) = Some (x, k) -> on_sk m s = Some (x, with_k k s).
Proof. intros H. unfold on_sk. by rewrite H. Qed.

Lemma with_k_id s : with_k (sk s) s = s.
Proof. by destruct s. Qed.

Lemma hdb_init_run p_tdb stack_size s :
  exists ok s', osEE_hal_hdb_init p_tdb stack_size s = Some (ok, s') /\ sk s' = sk s.
Proof.
  unfold osEE_hal_hdb_init. case_decide; [by eexists _, _|].
  unfold mbind at 1, st_bind at 1. unfold osEE_hal_allocate_stack. case_decide.
  - case_decide; by eexists _, _.
  - by eexists _, _.
Qed.

Lemma adjust_prio_nonneg ty prio : 0 <= adjust_prio ty prio.
Proof.
  unfold adjust_prio. case_decide; [apply u8_bounds|]. apply Z.land_nonneg. right. apply u8_bounds.
Qed.

Lemma tdb_of_index k i :
  boot_inv k -> 0 <= i <= OSEE_TASK_ARRAY_SIZE -> tdb_of_tid i k = Some (at_index i, k).
Proof.
  intros HB Hi. unfold tdb_of_tid, from_option. rewrite (bi_ptr _ HB).
  assert (aget (at_index <$> indices (OSEE_TASK_ARRAY_SIZE + 1)) i = Some (at_index i)) as ->; [|done].
  revert i Hi. assert (forall i, 0 <= i < OSEE_TASK_ARRAY_SIZE + 1 ->
    aget (at_index <$> indices (OSEE_TASK_ARRAY_SIZE + 1)) i = Some (at_index i)) as H.
  { apply index_cases. change (indices (OSEE_TASK_ARRAY_SIZE + 1)) with [0; 1; 2; 3; 4; 5; 6; 7; 8].
    repeat (apply Forall_cons; split; [reflexivity|]). apply Forall_nil. exact I. }
  intros i Hi. apply H. lia.
Qed.

Lemma fill_task_run ty func r p a k :
  boot_inv k -> free_task_index k < OSEE_TASK_ARRAY_SIZE ->
  fill_task (at_index (free_task_index k)) (free_task_index k) ty func r p a k =
  Some (tt, create_k ty func r p a k).
Proof.
  intros HB Hi. pose proof (bi_index _ HB) as Hidx. unfold fill_task.
  destruct (bi_tdb _ HB (free_task_index k)) as (d & Hd & Hp & [c Hc]); [lia|].
  erewrite bind_run by by apply get_tdb_run.
  erewrite bind_run by done. erewrite bind_run by (by apply (upd_tdb_run _ _ d)).
  unfold create_k. rewrite <- (upd_tcb_run _ (fill_tdb (free_task_index k) ty func r p a d)); [done|..].
  - unfold tdb_upd. cbn [set_tdb_mem set_free_task_index tdb_mem]. by rewrite lookup_alter_eq, Hd.
  - unfold is_task. rewrite tcb_of_tdb_upd by done. unfold tcb_of.
    cbn [set_free_task_index tdb_mem tcb_mem]. rewrite Hd. simpl. rewrite Hp, Hc. by eexists.
Qed.

(** Creation of a task, on every branch. *)
Lemma create_task_run ty func ready dispatch acts stack_size s :
  boot_inv (sk s) -> 0 <= acts ->
  exists ev id s', osEE_create_task ty func ready dispatch acts stack_size s = Some ((ev, id), s') /\
    boot_inv (sk s') /\
    match id with
    | Some i => ev = E_OK /\ i = free_task_index (sk s) /\ free_task_index (sk s') = i + 1 /\
        i < OSEE_TASK_ARRAY_SIZE
    | None => ev <> E_OK /\ free_task_index (sk s') = free_task_index (sk s)
    end.
Proof.
  intros HB Ha. unfold osEE_create_task. erewrite bind_run by by apply on_sk_run.
  rewrite with_k_id. case_decide; [by eexists _, None, s|].
  case_decide as Hidx; [by eexists _, None, s|]. case_decide as Hval; [by eexists _, None, s|].
  pose proof (bi_index _ HB) as Hb. pose proof (adjust_prio_nonneg ty ready) as Hr0.
  set (r := adjust_prio ty ready) in *. set (p := adjust_prio ty dispatch) in *.
  unfold mbind at 1, st_bind at 1. unfold on_sk at 1. rewrite reserve_run.
  destruct (decide (acts <= free_sn_counter (ccb (sk s)))) as [Hfit|Hfit]; cbn [negb].
  2: { exists E_OS_SYS_ACT, None, s. split; [by destruct s|done]. }
  pose proof (reserve_inv acts (sk s) HB ltac:(lia)) as HB1.
  change (mkSys (reserve_k acts (sk s)) _ _ _ _ _ _ _ _) with (with_k (reserve_k acts (sk s)) s).
  erewrite bind_run by (apply on_sk_run, tdb_of_index; [done|cbn [with_k sk]; lia]).
  destruct (hdb_init_run (at_index (free_task_index (sk s))) stack_size
    (with_k (reserve_k acts (sk s)) (with_k (reserve_k acts (sk s)) s))) as (ok & s1 & H1 & Hk1).
  erewrite bind_run by exact H1. cbn [with_k sk] in Hk1. destruct ok.
  - assert (Hfi : free_task_index (sk s) = free_task_index (sk s1)) by by rewrite Hk1.
    assert (Hlt : free_task_index (sk s1) < OSEE_TASK_ARRAY_SIZE) by lia.
    rewrite <- Hk1 in HB1.
    erewrite bind_run by (apply on_sk_run; rewrite Hfi; by apply fill_task_run).
    eexists E_OK, (Some _), _. split; [done|]. split; [|cbn [with_k sk]; split_and!; try done].
    + cbn [with_k sk]. apply create_inv; try done; [lia|lia|lia|].
      rewrite Hk1. pose proof (bi_reserved _ HB) as Hres.
      rewrite (reserved_ext (sk s)) by done. change (free_task_index (reserve_k acts (sk s)))
        with (free_task_index (sk s)).
      rewrite (reserve_counter acts (sk s) HB) by lia. lia.
    + rewrite Hfi. apply (tcb_upd_static (at_index (free_task_index (sk s1)))).
    + lia.
  - exists E_OS_SYS_STACK, None, s1. rewrite Hk1. done.
Qed.

(** *** The whole start-up *)
Record task_request := mkReq {
  rq_type : OsEE_task_type; rq_func : Z; rq_ready : Z; rq_dispatch : Z;
  rq_acts : Z; rq_stack : Z
}.

Fixpoint create_all (reqs : list task_request) : ST sys (list (Z * option Z)) :=
  match reqs with
  | [] => mret []
  | q :: reqs' =>
      r ← CreateTask (rq_type q) (rq_func q) (rq_ready q) (rq_dispatch q) (rq_acts q) (rq_stack q);
      rs ← create_all reqs';
      mret (r :: rs)
  end.

Lemma create_all_run : forall reqs s,
  boot_inv (sk s) -> Forall (fun q => 0 <= rq_acts q) reqs ->
  exists rs s', create_all reqs s = Some (rs, s') /\ boot_inv (sk s') /\
    free_task_index (sk s) <= free_task_index (sk s') /\
    Forall (fun r => match r with
      | (ev, Some i) => ev = E_OK /\ 0 <= i < free_task_index (sk s')
      | (ev, None) => ev <> E_OK
      end) rs.
Proof.
  induction reqs as [|q reqs IH]; intros s HB Hq.
  - exists [], s. split_and!; try done.
  - apply Forall_cons in Hq as [Ha Hq].
    destruct (create_task_run (rq_type q) (rq_func q) (rq_ready q) (rq_dispatch q) (rq_acts q)
      (rq_stack q) s HB Ha) as (ev & id & s1 & H1 & HB1 & Hid).
    destruct (IH s1 HB1 Hq) as (rs & s2 & H2 & HB2 & Hle & Hrs).
    exists ((ev, id) :: rs), s2. pose proof (bi_index _ HB) as Hb. split_and!; [|done|..].
    + simpl. unfold CreateTask at 1. erewrite bind_run by exact H1. by erewrite bind_run by exact H2.
    + destruct id; destruct Hid as (_ & Hid); [destruct Hid as (-> & Hid & _)|]; lia.
    + constructor; [|done]. destruct id; [|apply Hid]. destruct Hid as (-> & -> & Hid & _). split; [done|lia].
Qed.

Lemma startos_kernel_run k :
  boot_inv k -> exists k1 k2,
  osEE_std_cpu_startos k = Some (true, k1) /\ start_idle k1 = Some (tt, k2) /\
  p_idle_hook k2 = NULL /\ free_task_index k2 = free_task_index k /\
  os_status (ccb k2) = OSEE_KERNEL_STARTED /\ sched_inv k2 boot_lists /\
  p_curr (ccb k2) = p_idle_task k2 /\
  (forall i, 0 <= i < free_task_index k -> activatable k2 boot_lists (at_index i)) /\
  reserved k2 (Z.to_nat (free_task_index k)) <= OSEE_SN_ARRAY_SIZE.
Proof.
  intros HB. pose proof HB as [H1 H2 H3 H4 H5 H6 H7 H8 H9 H10 H11 H12].
  set (t := at_index OSEE_TASK_ARRAY_SIZE) in *.
  destruct (H6 OSEE_TASK_ARRAY_SIZE) as (d & Hd & Hp & [c Hc]); [done|]. fold t in Hd, Hp, Hc.
  pose (f := fun d => set_max_num_of_act 1 (set_task_type OSEE_TASK_TYPE_IDLE (set_tid OSEE_TASK_ARRAY_SIZE d))).
  pose (k1 := tdb_upd t (set_max_num_of_act 1) (tdb_upd t (set_task_type OSEE_TASK_TYPE_IDLE)
    (tdb_upd t (set_tid OSEE_TASK_ARRAY_SIZE) k))).
  pose (k2 := tcb_upd t (set_current_num_of_act 1) (tcb_upd t (set_status OSEE_TASK_RUNNING) k1)).
  pose (k3 := set_ccb (set_os_status OSEE_KERNEL_STARTED (set_os_status OSEE_KERNEL_STARTING
    (set_p_curr t (ccb k2)))) k2).
  assert (Hl1 : tdb_mem (tdb_upd t (set_tid OSEE_TASK_ARRAY_SIZE) k) !! t =
    Some (set_tid OSEE_TASK_ARRAY_SIZE d)) by (unfold tdb_upd; cbn; by rewrite lookup_alter_eq, Hd).
  assert (Hl2 : tdb_mem (tdb_upd t (set_task_type OSEE_TASK_TYPE_IDLE)
    (tdb_upd t (set_tid OSEE_TASK_ARRAY_SIZE) k)) !! t =
    Some (set_task_type OSEE_TASK_TYPE_IDLE (set_tid OSEE_TASK_ARRAY_SIZE d))).
  { unfold tdb_upd at 1. cbn [set_tdb_mem tdb_mem]. by rewrite lookup_alter_eq, Hl1. }
  assert (Htcb : forall v, tcb_of k1 v = tcb_of k v).
  { intros v. unfold k1. by rewrite !tcb_of_tdb_upd. }
  assert (Ht1 : is_task k1 t).
  { unfold is_task. rewrite Htcb. unfold tcb_of. rewrite Hd. simpl. rewrite Hp, Hc. by eexists. }
  assert (Hccb1 : ccb k1 = ccb k) by done.
  assert (Hid1 : p_idle_task k1 = t) by exact H3.
  assert (Hccb2 : ccb k2 = ccb k) by (unfold k2; by rewrite !tcb_upd_ccb).
  assert (Hid2 : p_idle_task k2 = t) by (unfold k2; by rewrite !tcb_upd_idle).
  assert (He : sched_eq k1 k2) by (transitivity (tcb_upd t (set_status OSEE_TASK_RUNNING) k1);
    by apply sched_eq_tcb_upd).
  assert (Hcp : forall v, cprio k3 v = cprio k v).
  { intros v. change (cprio k3 v) with (cprio k2 v). rewrite (se_cprio _ _ He).
    unfold cprio. by rewrite Htcb. }
  assert (Hdb : forall i, i <> OSEE_TASK_ARRAY_SIZE -> tdb_mem k3 !! at_index i = tdb_mem k !! at_index i).
  { intros i Hi. change (tdb_mem k3) with (tdb_mem k2). rewrite (se_tdb _ _ He).
    unfold k1, tdb_upd. cbn [set_tdb_mem tdb_mem].
    rewrite !lookup_alter_ne; [done|..]; intros Heq%at_index_inj; by apply Hi. }
  assert (Hrp : forall i, i <> OSEE_TASK_ARRAY_SIZE -> rprio k3 (at_index i) = rprio k (at_index i)).
  { intros i Hi. unfold rprio. by rewrite Hdb. }
  assert (Hkw : kwf k3).
  { assert (kwf k2) as [W1 W2 W3] by (by apply kwf_tcb_upd, kwf_tcb_upd, kwf_tdb_upd, kwf_tdb_upd, kwf_tdb_upd).
    by split. }
  assert (Hrepr : repr k3 boot_lists).
  { apply (repr_same k2); [done|by intros []|done|].
    by apply repr_tcb_upd, repr_tcb_upd, repr_tdb_upd, repr_tdb_upd, repr_tdb_upd. }
  destruct (tcb_upd_static t (set_current_num_of_act 1) (tcb_upd t (set_status OSEE_TASK_RUNNING) k1))
    as (Hx1 & _ & Hx2).
  destruct (tcb_upd_static t (set_status OSEE_TASK_RUNNING) k1) as (Hy1 & _ & Hy2).
  exists k1, k3. split_and!.
  - unfold osEE_std_cpu_startos. erewrite bind_run by done. rewrite H3.
    erewrite bind_run by (by apply (upd_tdb_run _ _ d)).
    erewrite bind_run by (by apply (upd_tdb_run _ _ (set_tid OSEE_TASK_ARRAY_SIZE d))).
    by erewrite bind_run by (by eapply upd_tdb_run).
  - unfold start_idle. erewrite bind_run by done. rewrite Hid1.
    erewrite bind_run by by apply upd_tdb_tcb_run.
    erewrite bind_run by (apply upd_tdb_tcb_run; by apply tcb_upd_is_task). done.
  - change (p_idle_hook k2 = NULL). unfold k2. by rewrite Hx2, Hy2.
  - change (free_task_index k2 = free_task_index k). unfold k2. by rewrite Hx1, Hy1.
  - done.
  - split; [split|..]; try exact Hrepr; try exact Hkw.
    + constructor.
    + constructor.
    + by intros v Hv%elem_of_nil.
    + simpl. by apply NoDup_singleton.
    + rewrite Hcp. change (p_idle_task k3) with (p_idle_task k2). by rewrite Hid2.
    + change (t = p_idle_task k2). by rewrite Hid2.
    + by intros v Hv%elem_of_nil.
  - change (t = p_idle_task k2). by rewrite Hid2.
  - intros i Hi. destruct (H10 i Hi) as (di & ci & Hdi & Hci & _ & Hr & _ & _ & Hcr & _).
    assert (i <> OSEE_TASK_ARRAY_SIZE) as Hne by lia.
    assert (Hri : rprio k (at_index i) = ready_prio di) by (unfold rprio; by rewrite Hdi).
    split.
    + apply (se_task _ _ He). unfold is_task. rewrite Htcb, Hci. by eexists.
    + change (p_idle_task k3) with (p_idle_task k2). rewrite Hid2. simpl.
      intros Hin%list_elem_of_singleton%at_index_inj. by apply Hne.
    + rewrite Hcp, Hrp, Hri by done. unfold cprio. by rewrite Hci.
    + by rewrite Hrp, Hri.
  - rewrite (reserved_ext k) by (intros i Hi; unfold acts_of; rewrite Hdb by lia; done). lia.
Qed.

(** C31: From the cleared data InitOS, any sequence of CreateTask calls and
    StartOS terminate and lead to a started kernel with interrupts enabled in
    which the scheduling invariant holds, the idle task is current, all nodes
    are free, the activations reserved by the created tasks do not exceed the
    nodes, and every task whose creation returned E_OK can be activated. *)
Theorem boot_correct tos reqs :
  Forall (fun q => 0 <= rq_acts q) reqs ->
  exists rs s', (ev0 ← InitOS; rs ← create_all reqs; r ← StartOS; mret (ev0, rs, r)) (reset_sys tos)
      = Some ((E_OK, rs, (E_OK, true)), s') /\
    sched_inv (sk s') boot_lists /\ p_curr (ccb (sk s')) = p_idle_task (sk s') /\
    os_status (ccb (sk s')) = OSEE_KERNEL_STARTED /\ Z.testbit (sys_daif s') 7 = false /\
    reserved (sk s') (Z.to_nat (free_task_index (sk s'))) <= OSEE_SN_ARRAY_SIZE /\
    Forall (fun r => match r with
      | (ev, Some i) => ev = E_OK /\ activatable (sk s') boot_lists (at_index i)
      | (ev, None) => ev <> E_OK
      end) rs.
Proof.
  intros Hq.
  destruct (create_all_run reqs (with_k initialized (set_p_kcb true (reset_sys tos)))
    initialized_inv Hq) as (rs & s1 & H1 & HB1 & _ & Hrs).
  destruct (startos_kernel_run (sk s1) HB1) as (k1 & k2 & Hk1 & Hk2 & Hh & Hfi & Hst & HI & Hcur & Hact & Hres).
  exists rs, (set_sys_daif (Z.ldiff (sys_daif s1) OSEE_AARCH64_I_DAIF) (with_k k2 s1)). split_and!.
  - erewrite bind_run.
    2: { unfold InitOS. erewrite bind_run by done. cbn [negb reset_sys p_kcb].
         erewrite bind_run by (apply on_sk_run, os_init_run). by erewrite bind_run by done. }
    erewrite bind_run by exact H1. erewrite bind_run; [done|].
    unfold StartOS. erewrite bind_run by by apply on_sk_run. rewrite with_k_id.
    rewrite decide_False by (rewrite (bi_status _ HB1); intros Hn; by apply Hn).
    erewrite bind_run by (apply on_sk_run; exact Hk1). cbn [negb].
    erewrite bind_run by (apply on_sk_run; exact Hk2).
    erewrite bind_run by by apply on_sk_run. cbn [with_k sk].
    rewrite decide_False by (rewrite Hh; intros Hn; by apply Hn). done.
  - done.
  - done.
  - done.
  - cbn [set_sys_daif sys_daif]. rewrite Z.ldiff_spec, I_DAIF_testbit. apply andb_false_r.
  - cbn [set_sys_daif with_k sk]. by rewrite Hfi.
  - eapply Forall_impl; [exact Hrs|]. intros [ev [i|]]; [|done]. intros [-> Hi]. split; [done|].
    by apply Hact.
Qed.

Lemma boot_witness : exists rs s',
  (ev0 ← InitOS; rs ← create_all [mkReq OSEE_TASK_TYPE_ISR2 100 1 1 1 OSEE_SYSTEM_STACK;
      mkReq OSEE_TASK_TYPE_EXTENDED 101 2 2 1 1024; mkReq OSEE_TASK_TYPE_EXTENDED 102 3 4 1 1024];
    r ← StartOS; mret (ev0, rs, r)) (reset_sys 70000)
    = Some ((E_OK, rs, (E_OK, true)), s') /\
  sched_inv (sk s') boot_lists /\ p_curr (ccb (sk s')) = p_idle_task (sk s') /\
  os_status (ccb (sk s')) = OSEE_KERNEL_STARTED /\ Z.testbit (sys_daif s') 7 = false /\
  reserved (sk s') (Z.to_nat (free_task_index (sk s'))) <= OSEE_SN_ARRAY_SIZE /\
  Forall (fun r => match r with
    | (ev, Some i) => ev = E_OK /\ activatable (sk s') boot_lists (at_index i)
    | (ev, None) => ev <> E_OK
    end) rs.
Proof.
  apply boot_correct. repeat (apply Forall_cons; split; [vm_compute; discriminate|]). by apply Forall_nil.
Defined.

(** The third request of the witness is refused because its dispatch priority
    is above its ready priority. *)
Example boot_results : exists s', (_ ← InitOS; create_all
    [mkReq OSEE_TASK_TYPE_ISR2 100 1 1 1 OSEE_SYSTEM_STACK;
     mkReq OSEE_TASK_TYPE_EXTENDED 101 2 2 1 1024; mkReq OSEE_TASK_TYPE_EXTENDED 102 3 4 1 1024])
  (reset_sys 70000) = Some ([(E_OK, Some 0); (E_OK, Some 1); (E_OS_VALUE, None)], s').
Proof. eexists. vm_compute. reflexivity. Qed.

(** ** Stacks *)

(** The memory of a stack, with the guard above the initial stack pointer. *)
Definition stack_region (x : task_stack) : option (Z * Z) :=
  match x with
  | SystemStack => None
  | PoolStack p_bos size => Some (p_bos + OSEE_STACK_GUARD_AREA - size, p_bos + OSEE_STACK_GUARD_AREA)
  end.

(** The pool is the memory below the allocated stacks, which are inside the
    stack array and do not overlap. *)
Record pool_inv (tos : Z) (s : sys) : Prop := {
  pl_size : pool_base s - residual_mem s = tos - OSEE_STACKS_SIZE;
  pl_left : 0 <= residual_mem s <= OSEE_STACKS_SIZE;
  pl_inside t x lo hi : stack_of s !! t = Some x -> stack_region x = Some (lo, hi) ->
    pool_base s <= lo < hi /\ hi <= tos;
  pl_disj t t' x x' lo hi lo' hi' : t <> t' ->
    stack_of s !! t = Some x -> stack_region x = Some (lo, hi) ->
    stack_of s !! t' = Some x' -> stack_region x' = Some (lo', hi') -> hi <= lo' \/ hi' <= lo
}.

Lemma STACK_ALIGN_spec y : 0 <= y < 2 ^ 64 -> Z.land y OSEE_STACK_ALIGN = y - y mod 16.
Proof. apply (land_align 64 4). lia. Qed.

Lemma align_stack_spec n :
  0 <= n < 2 ^ 64 - 15 -> n <= align_stack n /\ 32 <= align_stack n.
Proof.
  intros Hn. unfold align_stack. change OSEE_STACK_ALIGN_SIZE with 16.
  change (OSEE_STACK_GUARD_AREA * 2) with 32. case_decide; [|lia].
  rewrite u64_small by lia. rewrite STACK_ALIGN_spec by lia.
  pose proof (Z.mod_pos_bound (n + (16 - 1)) 16 ltac:(lia)).
  pose proof (Z.div_mod (n + (16 - 1)) 16 ltac:(lia)). lia.
Qed.

(** Giving a task its stack always terminates and keeps the stacks apart:
    a stack taken from the pool lies in the free part of the stack array, is
    at least as large as requested and overlaps no other stack; when the pool
    is too small nothing changes. (For sizes whose rounding does not wrap.) *)
Theorem stacks_disjoint tos p_tdb stack_size s :
  pool_inv tos s -> stack_of s !! p_tdb = None -> 0 <= stack_size < 2 ^ 64 ->
  stack_size < 2 ^ 64 - 15 \/ stack_size = OSEE_SYSTEM_STACK ->
  OSEE_STACKS_SIZE + OSEE_STACK_GUARD_AREA < tos ->
  exists ok s', osEE_hal_hdb_init p_tdb stack_size s = Some (ok, s') /\ pool_inv tos s' /\
    (ok = false -> s' = s) /\
    (ok = true -> stack_of s' !! p_tdb = Some SystemStack \/
       exists p_bos size, stack_of s' !! p_tdb = Some (PoolStack p_bos size) /\ stack_size <= size).
Proof.
  intros [H1 H2 H3 H4] Hnew Hsz Hwrap Htos. unfold osEE_hal_hdb_init.
  assert (Hput : forall x, (forall lo hi, stack_region x = Some (lo, hi) ->
      lo < hi <= tos /\ (forall t y lo' hi', stack_of s !! t = Some y ->
        stack_region y = Some (lo', hi') -> hi <= lo')) ->
    forall t t' y y' lo hi lo' hi', t <> t' ->
      <[p_tdb := x]> (stack_of s) !! t = Some y -> stack_region y = Some (lo, hi) ->
      <[p_tdb := x]> (stack_of s) !! t' = Some y' -> stack_region y' = Some (lo', hi') ->
      hi <= lo' \/ hi' <= lo).
  { intros x Hx t t' y y' lo hi lo' hi' Hne Ht Hy Ht' Hy'.
    apply lookup_insert_Some in Ht as [[<- <-]|[Hn1 Ht]];
      apply lookup_insert_Some in Ht' as [[<- <-]|[Hn2 Ht']]; try done.
    - left. destruct (Hx lo hi Hy) as [_ Hb]. by apply (Hb t' y' lo' hi').
    - right. destruct (Hx lo' hi' Hy') as [_ Hb]. by apply (Hb t y lo hi).
    - by apply (H4 t t' y y'). }
  case_decide as Hsys.
  - eexists true, _. split_and!; [done| |done|].
    + split; try done.
      * intros t x lo hi Ht Hx. cbn in Ht. apply lookup_insert_Some in Ht as [[<- <-]|[_ Ht]]; [done|].
        by apply (H3 t x).
      * apply Hput. done.
    + intros _. left. cbn. apply lookup_insert_eq.
  - destruct (align_stack_spec stack_size) as [Hge H32]; [lia|].
    unfold mbind at 1, st_bind at 1. unfold osEE_hal_allocate_stack.
    set (size := align_stack stack_size) in *.
    change OSEE_STACKS_SIZE with 65536 in *. change OSEE_STACK_GUARD_AREA with 16 in *.
    assert (Hsp : OSEE_GET_STACK_POINTER (pool_base s) = pool_base s - 16).
    { unfold OSEE_GET_STACK_POINTER. by change (Z.land _ _) with 16. }
    destruct (decide (size <= residual_mem s)) as [Hfit|Hfit].
    + rewrite Hsp, decide_True by (unfold NULL; lia).
      exists true, (set_stack_of (<[p_tdb := PoolStack (pool_base s - 16) size]> (stack_of s))
        (set_pool (pool_base s - size) (residual_mem s - size) s)).
      split_and!; [done| |done|].
      * assert (Hreg : forall lo hi, stack_region (PoolStack (pool_base s - 16) size) = Some (lo, hi) ->
          lo = pool_base s - size /\ hi = pool_base s).
        { cbn. change OSEE_STACK_GUARD_AREA with 16. intros lo hi [= <- <-]. lia. }
        split; cbn [set_stack_of set_pool pool_base residual_mem stack_of].
        -- change OSEE_STACKS_SIZE with 65536. lia.
        -- change OSEE_STACKS_SIZE with 65536. lia.
        -- intros t x lo hi Ht Hx. apply lookup_insert_Some in Ht as [[<- <-]|[_ Ht]].
           ++ destruct (Hreg lo hi Hx) as [-> ->]. lia.
           ++ specialize (H3 t x lo hi Ht Hx). lia.
        -- apply Hput. intros lo hi Hx. destruct (Hreg lo hi Hx) as [-> ->]. split; [lia|].
           intros t y lo' hi' Ht Hy. specialize (H3 t y lo' hi' Ht Hy). lia.
      * intros _. right. cbn. rewrite lookup_insert_eq. by eexists _, _.
    + rewrite decide_False by (intros Hn; by apply Hn). exists false, s. by split_and!.
Qed.

Lemma reset_pool tos : pool_inv tos (reset_sys tos).
Proof. split; cbn; [lia|done|..]; intros; by simplify_map_eq. Qed.

Lemma stacks_disjoint_witness : exists ok s',
  osEE_hal_hdb_init 1 1000 (reset_sys 70000) = Some (ok, s') /\ pool_inv 70000 s' /\
  (ok = false -> s' = reset_sys 70000) /\
  (ok = true -> stack_of s' !! 1 = Some SystemStack \/
     exists p_bos size, stack_of s' !! 1 = Some (PoolStack p_bos size) /\ 1000 <= size).
Proof.
  apply (stacks_disjoint 70000 1 1000 (reset_sys 70000) (reset_pool 70000)).
  - reflexivity.
  - lia.
  - left. reflexivity.
  - reflexivity.
Defined.

(** The rounding of a size close to 2^64 wraps: the task gets an empty stack. *)
Lemma stack_size_wraps : exists s',
  osEE_hal_hdb_init 1 (2 ^ 64 - 2) (reset_sys 70000) = Some (true, s') /\
  stack_of s' !! 1 = Some (PoolStack 69984 0) /\ pool_base s' = 70000.
Proof. eexists. split_and!; vm_compute; reflexivity. Qed.

(** A creation that fails because the stack pool is exhausted returns
    E_OS_SYS_STACK and creates no task, but the activations it had reserved
    are not given back. *)
Theorem create_task_leak ty func ready dispatch acts stack_size s :
  boot_inv (sk s) -> free_task_index (sk s) < OSEE_TASK_ARRAY_SIZE ->
  adjust_prio ty ready <> 0 -> adjust_prio ty dispatch <= adjust_prio ty ready ->
  adjust_prio ty dispatch <= OSEE_ISR2_MAX_PRIO -> 0 < acts <= free_sn_counter (ccb (sk s)) ->
  stack_size <> OSEE_SYSTEM_STACK -> residual_mem s < align_stack stack_size ->
  exists s', osEE_create_task ty func ready dispatch acts stack_size s = Some ((E_OS_SYS_STACK, None), s') /\
    free_task_index (sk s') = free_task_index (sk s) /\
    free_sn_counter (ccb (sk s')) = free_sn_counter (ccb (sk s)) - acts.
Proof.
  intros HB Hi Hr Hd Hm Ha Hst Hres. pose proof (bi_index _ HB) as Hb.
  exists (with_k (reserve_k acts (sk s)) s). split_and!.
  - unfold osEE_create_task. erewrite bind_run by by apply on_sk_run. rewrite with_k_id.
    rewrite decide_False by (intros [_ Hn]; by apply Hst). rewrite decide_False by lia.
    rewrite decide_False by (intros [?|[?|[?|?]]]; lia || done).
    erewrite bind_run by (apply on_sk_run; rewrite reserve_run; by rewrite decide_True by lia).
    cbn [negb]. pose proof (reserve_inv acts (sk s) HB ltac:(lia)) as HB1.
    erewrite bind_run by (apply on_sk_run, tdb_of_index; [done|cbn [with_k sk]; lia]).
    rewrite (bind_run _ _ _ false (with_k (reserve_k acts (sk s)) s)); [done|].
    unfold osEE_hal_hdb_init. rewrite decide_False by done.
    unfold mbind at 1, st_bind at 1. unfold osEE_hal_allocate_stack.
    rewrite decide_False by (cbn [with_k residual_mem]; lia).
    by rewrite decide_False by (intros Hn; by apply Hn).
  - done.
  - apply reserve_counter; [done|lia].
Qed.

Lemma create_task_leak_witness : exists s',
  osEE_create_task OSEE_TASK_TYPE_EXTENDED 101 2 2 1 65537
    (with_k initialized (set_p_kcb true (reset_sys 70000))) = Some ((E_OS_SYS_STACK, None), s') /\
  free_task_index (sk s') = 0 /\ free_sn_counter (ccb (sk s')) = 8 - 1.
Proof.
  apply (create_task_leak OSEE_TASK_TYPE_EXTENDED 101 2 2 1 65537
    (with_k initialized (set_p_kcb true (reset_sys 70000))) initialized_inv);
    try (vm_compute; (reflexivity || discriminate)).
  split; [reflexivity|]. vm_compute. discriminate.
Defined.

(** ** Interrupts *)
Definition vector (s : sys) (source_id : Z) : option OsEE_aarch64_hnd_type :=
  if decide (source_id < OSEE_GIC_MIN_SPI_ID) then aget (ppi_vectors s) source_id
  else aget (spi_vectors s) (source_id - OSEE_GIC_MIN_SPI_ID).

Definition vectors_sized (s : sys) : Prop :=
  length (ppi_vectors s) = Z.to_nat OSEE_GIC_MIN_SPI_ID /\
  length (spi_vectors s) = Z.to_nat (OSEE_GIC_ISR_NUM - OSEE_GIC_MIN_SPI_ID).

Lemma configure_isr2_run t src s :
  vectors_sized s -> 0 <= src < OSEE_GIC_ISR_NUM ->
  exists s', osEE_aarch64_configure_isr2 t src s = Some (E_OK, s') /\ sk s' = sk s /\
    gic_enabled s' = src :: gic_enabled s /\ vector s' src = Some (OSEE_ISR_CAT_2 t) /\
    (forall j, 0 <= j -> j <> src -> vector s' j = vector s j).
Proof.
  intros [Hp Hs] Hsrc. unfold osEE_aarch64_configure_isr2, vector.
  change OSEE_GIC_MIN_SPI_ID with 32 in *. change OSEE_GIC_ISR_NUM with 384 in *.
  case_decide as Hlt.
  - assert (0 <= src < Z.of_nat (length (ppi_vectors s))) as Hr by lia.
    rewrite (aset_in_range _ _ _ Hr). eexists. split_and!; [done..| |].
    + cbn. by rewrite aget_insert_eq.
    + intros j Hj Hne. cbn. case_decide; [|done]. by apply (aget_aset_ne _ _ src j (OSEE_ISR_CAT_2 t));
        [apply aset_in_range|].
  - rewrite decide_True by lia.
    assert (0 <= src - 32 < Z.of_nat (length (spi_vectors s))) as Hr by lia.
    rewrite (aset_in_range _ _ _ Hr). eexists. split_and!; [done..| |].
    + cbn. by rewrite aget_insert_eq.
    + intros j Hj Hne. cbn. case_decide; [done|].
      apply (aget_aset_ne _ _ (src - 32) (j - 32) (OSEE_ISR_CAT_2 t)); [by apply aset_in_range|lia].
Qed.

(** SetISR2Source connects an interrupt to its ISR2: for a known task
    identifier and a source of the interrupt controller it succeeds and
    enables the source; afterwards an interrupt with that identifier (from
    whatever CPU) activates the ISR2, and the handlers of all other sources
    are unchanged. A source that does not exist is refused without effect. *)
Theorem isr2_source_dispatch isr_id src t d s :
  vectors_sized s -> isr_id < free_task_index (sk s) -> isr_id <> INVALID_TASK ->
  aget (tdb_ptr_array (sk s)) isr_id = Some t -> tdb_mem (sk s) !! t = Some d -> tid d = isr_id ->
  0 <= src ->
  if decide (src < OSEE_GIC_ISR_NUM) then
    exists s', SetISR2Source isr_id src s = Some (E_OK, s') /\ gic_enabled s' = src :: gic_enabled s /\
      (forall irqn, Z.land irqn 1023 = src -> irqn <> OSEE_GIC_SPURIOUS_ISR ->
         isr_wrapper_step irqn s' = (_ ← on_sk (osEE_activate_isr2 isr_id irqn); mret true) s') /\
      (forall j, 0 <= j -> j <> src -> vector s' j = vector s j)
  else SetISR2Source isr_id src s = Some (E_OS_SYS_INIT, s).
Proof.
  intros Hv Hlt Hinv Hp Hd Hid Hsrc.
  assert (Hpre : SetISR2Source isr_id src s =
    (ev ← osEE_aarch64_configure_isr2 isr_id src;
     _ ← (if decide (ev = E_OK) then on_sk (upd_tdb t (set_isr2_src src)) else mret tt); mret ev) s).
  { unfold SetISR2Source. erewrite bind_run by by apply on_sk_run. rewrite with_k_id, decide_False by lia.
    erewrite bind_run by (apply on_sk_run; unfold tdb_of_tid, from_option; by rewrite Hp).
    rewrite with_k_id. unfold osEE_hal_set_isr2_source.
    erewrite bind_run by (apply on_sk_run; by apply get_tdb_run). by rewrite with_k_id, Hid. }
  rewrite Hpre. case_decide as Hin.
  - destruct (configure_isr2_run isr_id src s Hv) as (s1 & H1 & Hk & Hg & Hvec & Hoth); [lia|].
    exists (with_k (tdb_upd t (set_isr2_src src) (sk s1)) s1). split_and!; [|done| |].
    + erewrite bind_run by exact H1. rewrite decide_True by done.
      by erewrite bind_run by (apply on_sk_run; apply (upd_tdb_run _ _ d); by rewrite Hk).
    + intros irqn Hirq Hsp. unfold isr_wrapper_step. rewrite decide_False by done. rewrite Hirq.
      set (s2 := with_k _ s1). rewrite (bind_run _ _ _ (OSEE_ISR_CAT_2 isr_id) s2).
      { by rewrite decide_True. }
      unfold from_option. change (vector s1 src) with (vector s2 src) in Hvec.
      unfold vector in Hvec. by rewrite Hvec.
    + exact Hoth.
  - unfold osEE_aarch64_configure_isr2. change OSEE_GIC_MIN_SPI_ID with 32.
    change OSEE_GIC_ISR_NUM with 384 in *. unfold mbind, st_bind.
    by rewrite !decide_False by lia.
Qed.

(** A machine with one created ISR2. *)
Definition isr_sys : sys :=
  match (_ ← InitOS; CreateTask OSEE_TASK_TYPE_ISR2 100 1 1 1 OSEE_SYSTEM_STACK) (reset_sys 70000) with
  | Some (_, s) => s
  | None => reset_sys 70000
  end.

Lemma isr2_source_witness : exists s',
  SetISR2Source 0 27 isr_sys = Some (E_OK, s') /\ gic_enabled s' = 27 :: gic_enabled isr_sys /\
  (forall irqn, Z.land irqn 1023 = 27 -> irqn <> OSEE_GIC_SPURIOUS_ISR ->
     isr_wrapper_step irqn s' = (_ ← on_sk (osEE_activate_isr2 0 irqn); mret true) s') /\
  (forall j, 0 <= j -> j <> 27 -> vector s' j = vector isr_sys j).
Proof.
  apply (isr2_source_dispatch 0 27 1 (fill_tdb 0 OSEE_TASK_TYPE_ISR2 100 128 128 1
    (set_p_tcb 1 cleared_tdb)) isr_sys); try (vm_compute; (reflexivity || discriminate)).
  split; vm_compute; reflexivity.
Defined.

(** ** Initialization of the DPREM library *)

(** Entry points of the handlers. *)
Definition memory_phase_started_ISR_func : Z := 201.
Definition memory_phase_ended_ISR_func : Z := 202.

(** [*p = id] when the creation succeeded; the variables are cleared before. *)
Definition new_id (r : Z * option Z) : Z := match r.2 with Some i => i | None => 0 end.

(** The result: the accumulated status. *)
Definition DPREM_init : ST sys Z :=
  r1 ← CreateTask OSEE_TASK_TYPE_ISR2 memory_phase_started_ISR_func 1 1 1 OSEE_SYSTEM_STACK;
  r2 ← CreateTask OSEE_TASK_TYPE_ISR2 memory_phase_ended_ISR_func 1 1 1 OSEE_SYSTEM_STACK;
  e3 ← SetISR2Source (new_id r1) SGI_MEMORY_PHASE_STARTED;
  e4 ← SetISR2Source (new_id r2) SGI_MEMORY_PHASE_ENDED;
  let ret := Z.lor (Z.lor (Z.lor r1.1 r2.1) e3) e4 in
  _ ← (if decide (ret <> E_OK)
       then on_sk (printk "Erika: DPREM Initialization failed!"%string) else mret tt);
  mret ret.

(** The function a source is dispatched to. *)
Definition handler_func (s : sys) (source_id : Z) : option (Z * OsEE_task_type * Z) :=
  match vector s source_id with
  | Some (OSEE_ISR_CAT_2 t) =>
      p ← aget (tdb_ptr_array (sk s)) t; d ← tdb_mem (sk s) !! p;
      Some (task_func d, task_type d, ready_prio d)
  | _ => None
  end.

(** After InitOS and DPREM_init the signal the hypervisor sends when it
    grants the token is connected to the handler that starts a memory phase,
    the one it sends when it takes the token back to the handler that ends it,
    both enabled and at the priority of an ISR2 above all tasks. *)
Theorem dprem_init_wiring tos : exists s',
  (_ ← InitOS; DPREM_init) (reset_sys tos) = Some (E_OK, s') /\
  handler_func s' SGI_MEMORY_PHASE_STARTED =
    Some (memory_phase_started_ISR_func, OSEE_TASK_TYPE_ISR2, OSEE_ISR2_PRIO_BIT) /\
  handler_func s' SGI_MEMORY_PHASE_ENDED =
    Some (memory_phase_ended_ISR_func, OSEE_TASK_TYPE_ISR2, OSEE_ISR2_PRIO_BIT) /\
  gic_enabled s' = [SGI_MEMORY_PHASE_ENDED; SGI_MEMORY_PHASE_STARTED] /\
  pool_base s' = tos.
Proof. eexists. split_and!; vm_compute; reflexivity. Qed.
