(* ===== verification/Counter.v ===== *)
(** * ERIKA: counters, alarms and schedule tables

    Models ee_oo_counter.c, ee_oo_alarm.c, ee_ar_sched_table.c and the inline
    functions of ee_kernel.h for a single core with counters, prescalers,
    alarms and schedule tables (OSEE_COUNTER_TRIGGER_TYPES), without error
    hook. The locks of the cores are empty on a single core.

    A descriptor and its control block, which are always reached from each
    other, are one record. A trigger is an element of the queue of its
    counter: an alarm, or the next expiry point of a schedule table. Actions
    act on the kernel of [Kernel]; a callback is code of the application and
    a parameter.

    The services are in [CounterApi]; the theorems are in the files
    [TriggerQueue], [Alarm], [CounterApi] and [SchedTable]. *)

From Stdlib Require Import ZArith Lia.
From stdpp Require Import base tactics list option gmap sorting.
From S2P Require Import Prelude StateMonad Kernel Scheduler SchedPartitioned OsekApi.

Definition E_OS_NOFUNC : Z := 5.

(** ** Data *)

(** [TickDeltaType] is the signed type of the same width as [TickType]: [s64]. *)

Inductive OsEE_trigger_status :=
  OSEE_TRIGGER_INACTIVE | OSEE_TRIGGER_CANCELED | OSEE_TRIGGER_ACTIVE
| OSEE_TRIGGER_EXPIRED | OSEE_TRIGGER_REENABLED.
#[global] Instance OsEE_trigger_status_eq_dec : EqDecision OsEE_trigger_status.
Proof. solve_decision. Defined.

(** The enumeration is compared by its numbers. *)
Definition trigger_code (s : OsEE_trigger_status) : Z :=
  match s with
  | OSEE_TRIGGER_INACTIVE => 0 | OSEE_TRIGGER_CANCELED => 1 | OSEE_TRIGGER_ACTIVE => 2
  | OSEE_TRIGGER_EXPIRED => 3 | OSEE_TRIGGER_REENABLED => 4
  end.

Inductive OsEE_action :=
  OSEE_ACTION_TASK (p_tdb : Z)
| OSEE_ACTION_EVENT (p_tdb mask : Z)
| OSEE_ACTION_COUNTER (p_counter_db : Z)
| OSEE_ACTION_CALLBACK (f : Z).

Inductive OsEE_st_synch_strategy :=
  OSEE_SCHEDTABLE_SYNC_NONE | OSEE_SCHEDTABLE_SYNC_IMPLICIT | OSEE_SCHEDTABLE_SYNC_EXPLICIT.
#[global] Instance OsEE_st_synch_strategy_eq_dec : EqDecision OsEE_st_synch_strategy.
Proof. solve_decision. Defined.

Definition SCHEDULETABLE_STOPPED : Z := 0.
Definition SCHEDULETABLE_NEXT : Z := 1.
Definition SCHEDULETABLE_WAITING : Z := 2.
Definition SCHEDULETABLE_RUNNING : Z := 3.
Definition SCHEDULETABLE_ASYNC : Z := 8.
Definition SCHEDULETABLE_RUNNING_AND_SYNCHRONOUS : Z := 7.
Definition INVALID_SCHEDULETABLE_POSITION : Z := u64 (-1).

Record OsEE_CounterDB := mkCounter {
  trigger_queue : Z;
  tick_value : Z;
  prescaler : Z;
  maxallowedvalue : Z;
  ticksperbase : Z;
  mincycle : Z;
}.
Record OsEE_TriggerDB := mkTrigger {
  tr_next : Z;
  tr_when : Z;
  tr_status : OsEE_trigger_status;
  tr_counter : Z;
  tr_alarm : Z;
  tr_st : Z;
}.
Record OsEE_AlarmDB := mkAlarm { cycle : Z; al_trigger : Z; al_action : OsEE_action }.
Record OsEE_st_exipiry_point := mkExpiryPoint {
  ep_offset : Z;
  ep_actions : list OsEE_action;
  max_shorten : Z;
  max_lengthen : Z;
}.
Record OsEE_SchedTabDB := mkSchedTab {
  p_next_table : Z;
  st_start : Z;
  st_status : Z;
  st_position : Z;
  deviation : Z;
  st_trigger : Z;
  expiry_points : list OsEE_st_exipiry_point;
  sync_strategy : OsEE_st_synch_strategy;
  duration : Z;
  precision : Z;
  repeated : bool;
}.

Definition set_trigger_queue (x : Z) (r : OsEE_CounterDB) : OsEE_CounterDB :=
  mkCounter x (tick_value r) (prescaler r) (maxallowedvalue r) (ticksperbase r) (mincycle r).
Definition set_tick_value (x : Z) (r : OsEE_CounterDB) : OsEE_CounterDB :=
  mkCounter (trigger_queue r) x (prescaler r) (maxallowedvalue r) (ticksperbase r) (mincycle r).
Definition set_prescaler (x : Z) (r : OsEE_CounterDB) : OsEE_CounterDB :=
  mkCounter (trigger_queue r) (tick_value r) x (maxallowedvalue r) (ticksperbase r) (mincycle r).
Definition set_tr_next (x : Z) (r : OsEE_TriggerDB) : OsEE_TriggerDB :=
  mkTrigger x (tr_when r) (tr_status r) (tr_counter r) (tr_alarm r) (tr_st r).
Definition set_tr_when (x : Z) (r : OsEE_TriggerDB) : OsEE_TriggerDB :=
  mkTrigger (tr_next r) x (tr_status r) (tr_counter r) (tr_alarm r) (tr_st r).
Definition set_tr_status (x : OsEE_trigger_status) (r : OsEE_TriggerDB) : OsEE_TriggerDB :=
  mkTrigger (tr_next r) (tr_when r) x (tr_counter r) (tr_alarm r) (tr_st r).
Definition set_cycle (x : Z) (r : OsEE_AlarmDB) : OsEE_AlarmDB :=
  mkAlarm x (al_trigger r) (al_action r).
Definition set_p_next_table (x : Z) (r : OsEE_SchedTabDB) : OsEE_SchedTabDB :=
  mkSchedTab x (st_start r) (st_status r) (st_position r) (deviation r) (st_trigger r)
    (expiry_points r) (sync_strategy r) (duration r) (precision r) (repeated r).
Definition set_st_start (x : Z) (r : OsEE_SchedTabDB) : OsEE_SchedTabDB :=
  mkSchedTab (p_next_table r) x (st_status r) (st_position r) (deviation r) (st_trigger r)
    (expiry_points r) (sync_strategy r) (duration r) (precision r) (repeated r).
Definition set_st_status (x : Z) (r : OsEE_SchedTabDB) : OsEE_SchedTabDB :=
  mkSchedTab (p_next_table r) (st_start r) x (st_position r) (deviation r) (st_trigger r)
    (expiry_points r) (sync_strategy r) (duration r) (precision r) (repeated r).
Definition set_st_position (x : Z) (r : OsEE_SchedTabDB) : OsEE_SchedTabDB :=
  mkSchedTab (p_next_table r) (st_start r) (st_status r) x (deviation r) (st_trigger r)
    (expiry_points r) (sync_strategy r) (duration r) (precision r) (repeated r).
Definition set_deviation (x : Z) (r : OsEE_SchedTabDB) : OsEE_SchedTabDB :=
  mkSchedTab (p_next_table r) (st_start r) (st_status r) (st_position r) x (st_trigger r)
    (expiry_points r) (sync_strategy r) (duration r) (precision r) (repeated r).

(** ** State *)

(** The four stores, and the arrays of the kernel descriptor. *)
Record timers := mkTimers {
  counter_mem : gmap Z OsEE_CounterDB;
  trigger_mem : gmap Z OsEE_TriggerDB;
  alarm_mem : gmap Z OsEE_AlarmDB;
  st_mem : gmap Z OsEE_SchedTabDB;
  counter_ptrs : list Z;
  alarm_ptrs : list Z;
  st_ptrs : list Z;
}.

Definition set_counter_mem (x : gmap Z OsEE_CounterDB) (r : timers) : timers :=
  mkTimers x (trigger_mem r) (alarm_mem r) (st_mem r) (counter_ptrs r) (alarm_ptrs r) (st_ptrs r).
Definition set_trigger_mem (x : gmap Z OsEE_TriggerDB) (r : timers) : timers :=
  mkTimers (counter_mem r) x (alarm_mem r) (st_mem r) (counter_ptrs r) (alarm_ptrs r) (st_ptrs r).
Definition set_alarm_mem (x : gmap Z OsEE_AlarmDB) (r : timers) : timers :=
  mkTimers (counter_mem r) (trigger_mem r) x (st_mem r) (counter_ptrs r) (alarm_ptrs r) (st_ptrs r).
Definition set_st_mem (x : gmap Z OsEE_SchedTabDB) (r : timers) : timers :=
  mkTimers (counter_mem r) (trigger_mem r) (alarm_mem r) x (counter_ptrs r) (alarm_ptrs r) (st_ptrs r).

(** The core with the timers. *)
Record osk := mkOsk { core : cpu; tmr : timers }.

Definition on_core {A} (m : ST cpu A) : ST osk A := fun s =>
  match m (core s) with Some (x, c) => Some (x, mkOsk c (tmr s)) | None => None end.
Definition on_tmr {A} (m : ST timers A) : ST osk A := fun s =>
  match m (tmr s) with Some (x, t) => Some (x, mkOsk (core s) t) | None => None end.
Definition on_kernel {A} (m : ST kernel A) : ST osk A := on_core (on_k m).

Definition get_counter (p : Z) : ST timers OsEE_CounterDB := from_option (fun t => counter_mem t !! p).
Definition get_trigger (p : Z) : ST timers OsEE_TriggerDB := from_option (fun t => trigger_mem t !! p).
Definition get_alarm (p : Z) : ST timers OsEE_AlarmDB := from_option (fun t => alarm_mem t !! p).
Definition get_st (p : Z) : ST timers OsEE_SchedTabDB := from_option (fun t => st_mem t !! p).

Definition upd_counter (p : Z) (f : OsEE_CounterDB -> OsEE_CounterDB) : ST timers unit :=
  c ← get_counter p; modify (fun t => set_counter_mem (<[p := f c]> (counter_mem t)) t).
Definition upd_trigger (p : Z) (f : OsEE_TriggerDB -> OsEE_TriggerDB) : ST timers unit :=
  c ← get_trigger p; modify (fun t => set_trigger_mem (<[p := f c]> (trigger_mem t)) t).
Definition upd_alarm (p : Z) (f : OsEE_AlarmDB -> OsEE_AlarmDB) : ST timers unit :=
  c ← get_alarm p; modify (fun t => set_alarm_mem (<[p := f c]> (alarm_mem t)) t).
Definition upd_st (p : Z) (f : OsEE_SchedTabDB -> OsEE_SchedTabDB) : ST timers unit :=
  c ← get_st p; modify (fun t => set_st_mem (<[p := f c]> (st_mem t)) t).

(** A chain of triggers has no repeated element. *)
Definition queue_fuel (t : timers) : nat := S (size (trigger_mem t)).

(** ** Ticks *)
Definition eval_when (maxallowedvalue value delta : Z) : Z :=
  if u64 (maxallowedvalue - delta) >=? value then u64 (value + delta)
  else u64 (delta - (maxallowedvalue - value) - 1).
Definition osEE_counter_eval_when (p_counter_db delta : Z) : ST timers Z :=
  c ← get_counter p_counter_db;
  mret (eval_when (maxallowedvalue c) (tick_value c) delta).

Definition eval_delta (maxallowedvalue value when : Z) : Z :=
  if when >? value then u64 (when - value)
  else u64 ((maxallowedvalue - value) + when + 1).
Definition osEE_counter_eval_delta (p_counter_db when : Z) : ST timers Z :=
  c ← get_counter p_counter_db;
  mret (eval_delta (maxallowedvalue c) (tick_value c) when).

(** ** The trigger queue *)

(** The loop goes past the current trigger. *)
Definition goes_past (counter_value when current_when : Z) : bool :=
  if current_when >? counter_value then (when >=? current_when) || (when <=? counter_value)
  else (when <=? counter_value) && (when >=? current_when).

Fixpoint insert_scan (fuel : nat) (counter_value when p_previous p_current : Z) : ST timers (Z * Z) :=
  if decide (p_current = NULL) then mret (p_previous, p_current)
  else
    match fuel with
    | O => undefined
    | S fuel =>
        cur ← get_trigger p_current;
        if goes_past counter_value when (tr_when cur)
        then insert_scan fuel counter_value when p_current (tr_next cur)
        else mret (p_previous, p_current)
    end.

Definition osEE_counter_insert_abs_trigger (p_counter_db p_trigger_db when : Z) : ST timers unit :=
  c ← get_counter p_counter_db;
  _ ← upd_trigger p_trigger_db (set_tr_when when);
  fuel ← gets queue_fuel;
  '(p_previous, p_current) ← insert_scan fuel (tick_value c) when NULL (trigger_queue c);
  _ ← (if decide (p_previous <> NULL) then upd_trigger p_previous (set_tr_next p_trigger_db)
       else upd_counter p_counter_db (set_trigger_queue p_trigger_db));
  upd_trigger p_trigger_db (set_tr_next p_current).

Definition osEE_counter_insert_rel_trigger (p_counter_db p_trigger_db delta : Z) : ST timers unit :=
  when ← osEE_counter_eval_when p_counter_db delta;
  osEE_counter_insert_abs_trigger p_counter_db p_trigger_db when.

(** The [do ... while] that looks for the predecessor. *)
Fixpoint cancel_scan (fuel : nat) (p_trigger_db p_current : Z) : ST timers (Z * Z) :=
  match fuel with
  | O => undefined
  | S fuel =>
      let p_previous := p_current in
      cur ← get_trigger p_current;
      let p_current := tr_next cur in
      if decide (p_current <> NULL /\ p_current <> p_trigger_db)
      then cancel_scan fuel p_trigger_db p_current
      else mret (p_previous, p_current)
  end.

Definition osEE_counter_cancel_trigger (p_counter_db p_trigger_db : Z) : ST timers unit :=
  c ← get_counter p_counter_db;
  t ← get_trigger p_trigger_db;
  if decide (trigger_queue c = p_trigger_db) then upd_counter p_counter_db (set_trigger_queue (tr_next t))
  else
    fuel ← gets queue_fuel;
    '(p_previous, p_current) ← cancel_scan fuel p_trigger_db (trigger_queue c);
    if decide (p_current <> NULL) then upd_trigger p_previous (set_tr_next (tr_next t)) else mret tt.

(** ** Alarms (ee_oo_alarm.c) *)
Definition osEE_alarm_set_rel (p_counter_db p_alarm_db increment cycle : Z) : ST timers Z :=
  a ← get_alarm p_alarm_db;
  let p_trigger_db := al_trigger a in
  t ← get_trigger p_trigger_db;
  if trigger_code (tr_status t) >? trigger_code OSEE_TRIGGER_CANCELED then mret E_OS_STATE
  else if decide (tr_status t = OSEE_TRIGGER_CANCELED) then
    _ ← upd_alarm p_alarm_db (set_cycle cycle);
    when ← osEE_counter_eval_when p_counter_db increment;
    _ ← upd_trigger p_trigger_db (set_tr_when when);
    _ ← upd_trigger p_trigger_db (set_tr_status OSEE_TRIGGER_REENABLED);
    mret E_OK
  else
    _ ← upd_alarm p_alarm_db (set_cycle cycle);
    _ ← upd_trigger p_trigger_db (set_tr_status OSEE_TRIGGER_ACTIVE);
    _ ← osEE_counter_insert_rel_trigger p_counter_db p_trigger_db increment;
    mret E_OK.

Definition osEE_alarm_set_abs (p_counter_db p_alarm_db start cycle : Z) : ST timers Z :=
  a ← get_alarm p_alarm_db;
  let p_trigger_db := al_trigger a in
  t ← get_trigger p_trigger_db;
  if trigger_code (tr_status t) >? trigger_code OSEE_TRIGGER_CANCELED then mret E_OS_STATE
  else if decide (tr_status t = OSEE_TRIGGER_CANCELED) then
    _ ← upd_alarm p_alarm_db (set_cycle cycle);
    _ ← upd_trigger p_trigger_db (set_tr_when start);
    _ ← upd_trigger p_trigger_db (set_tr_status OSEE_TRIGGER_REENABLED);
    mret E_OK
  else
    _ ← upd_alarm p_alarm_db (set_cycle cycle);
    _ ← upd_trigger p_trigger_db (set_tr_status OSEE_TRIGGER_ACTIVE);
    _ ← osEE_counter_insert_abs_trigger p_counter_db p_trigger_db start;
    mret E_OK.

Definition osEE_alarm_cancel (p_alarm_db : Z) : ST timers Z :=
  a ← get_alarm p_alarm_db;
  let p_trigger_db := al_trigger a in
  t ← get_trigger p_trigger_db;
  if trigger_code (tr_status t) <=? trigger_code OSEE_TRIGGER_CANCELED then mret E_OS_NOFUNC
  else if trigger_code (tr_status t) >=? trigger_code OSEE_TRIGGER_EXPIRED then
    _ ← upd_trigger p_trigger_db (set_tr_status OSEE_TRIGGER_CANCELED);
    mret E_OK
  else
    _ ← upd_trigger p_trigger_db (set_tr_status OSEE_TRIGGER_INACTIVE);
    _ ← osEE_counter_cancel_trigger (tr_counter t) p_trigger_db;
    mret E_OK.

(** The status and the written tick. *)
Definition osEE_alarm_get (p_alarm_db : Z) : ST timers (Z * option Z) :=
  a ← get_alarm p_alarm_db;
  t ← get_trigger (al_trigger a);
  if trigger_code (tr_status t) <=? trigger_code OSEE_TRIGGER_CANCELED then mret (E_OS_NOFUNC, None)
  else
    delta ← osEE_counter_eval_delta (tr_counter t) (tr_when t);
    mret (E_OK, Some delta).

(** ** Schedule tables (ee_ar_sched_table.c) *)

(** Array access to the expiry points. *)
Definition get_expiry_point (d : OsEE_SchedTabDB) (i : Z) : ST timers OsEE_st_exipiry_point :=
  from_option (fun _ => aget (expiry_points d) i).

(** The fields that both start functions set, all but [start]. *)
Definition st_init (status : Z) (d : OsEE_SchedTabDB) : OsEE_SchedTabDB :=
  set_st_status status (set_deviation 0 (set_st_position 0 (set_p_next_table NULL d))).

Definition osEE_st_start_rel (p_counter_db p_st_db offset : Z) : ST timers Z :=
  d ← get_st p_st_db;
  let p_trigger_db := st_trigger d in
  t ← get_trigger p_trigger_db;
  if trigger_code (tr_status t) >? trigger_code OSEE_TRIGGER_CANCELED then mret E_OS_STATE
  else
    _ ← upd_st p_st_db (st_init SCHEDULETABLE_RUNNING);
    start ← osEE_counter_eval_when p_counter_db offset;
    _ ← upd_st p_st_db (set_st_start start);
    _ ← (if decide (tr_status t = OSEE_TRIGGER_CANCELED) then
           _ ← upd_trigger p_trigger_db (set_tr_when start);
           upd_trigger p_trigger_db (set_tr_status OSEE_TRIGGER_REENABLED)
         else
           _ ← upd_trigger p_trigger_db (set_tr_status OSEE_TRIGGER_ACTIVE);
           e ← get_expiry_point d 0;
           osEE_counter_insert_rel_trigger p_counter_db p_trigger_db (u64 (offset + ep_offset e)));
    mret E_OK.

Definition osEE_st_start_abs (p_counter_db p_st_db start : Z) : ST timers Z :=
  d ← get_st p_st_db;
  let p_trigger_db := st_trigger d in
  t ← get_trigger p_trigger_db;
  if trigger_code (tr_status t) >? trigger_code OSEE_TRIGGER_CANCELED then mret E_OS_STATE
  else
    let status := if decide (sync_strategy d = OSEE_SCHEDTABLE_SYNC_IMPLICIT)
                  then SCHEDULETABLE_RUNNING_AND_SYNCHRONOUS else SCHEDULETABLE_RUNNING in
    _ ← upd_st p_st_db (st_init status);
    _ ← upd_st p_st_db (set_st_start start);
    _ ← (if decide (tr_status t = OSEE_TRIGGER_CANCELED) then
           _ ← upd_trigger p_trigger_db (set_tr_when start);
           upd_trigger p_trigger_db (set_tr_status OSEE_TRIGGER_REENABLED)
         else
           _ ← upd_trigger p_trigger_db (set_tr_status OSEE_TRIGGER_ACTIVE);
           e ← get_expiry_point d 0;
           osEE_counter_insert_abs_trigger p_counter_db p_trigger_db (u64 (start + ep_offset e)));
    mret E_OK.

(** "Stop Next ST if needed" and the table itself. *)
Definition st_stop_status (p_st_db : Z) (d : OsEE_SchedTabDB) : ST timers unit :=
  _ ← (if decide (p_next_table d <> NULL)
       then upd_st (p_next_table d) (set_st_status SCHEDULETABLE_STOPPED) else mret tt);
  upd_st p_st_db (set_st_status SCHEDULETABLE_STOPPED).

Definition osEE_st_stop (p_st_db : Z) : ST timers Z :=
  d ← get_st p_st_db;
  let p_trigger_db := st_trigger d in
  t ← get_trigger p_trigger_db;
  if trigger_code (tr_status t) <=? trigger_code OSEE_TRIGGER_CANCELED then mret E_OS_NOFUNC
  else if trigger_code (tr_status t) >=? trigger_code OSEE_TRIGGER_EXPIRED then
    _ ← upd_trigger p_trigger_db (set_tr_status OSEE_TRIGGER_CANCELED);
    _ ← st_stop_status p_st_db d;
    mret E_OK
  else
    _ ← upd_trigger p_trigger_db (set_tr_status OSEE_TRIGGER_INACTIVE);
    _ ← st_stop_status p_st_db d;
    _ ← osEE_counter_cancel_trigger (tr_counter t) p_trigger_db;
    mret E_OK.

(** The new [next_when] and the new deviation. *)
Definition st_adjust (e : OsEE_st_exipiry_point) (next_when temp_deviation : Z) : Z * Z :=
  if temp_deviation >? 0 then
    let abs_temp_dev := u64 temp_deviation in
    let shortening := if max_shorten e <? abs_temp_dev then max_shorten e else abs_temp_dev in
    (u64 (next_when - shortening), s64 (temp_deviation - s64 shortening))
  else
    let abs_temp_dev := u64 (- temp_deviation) in
    let lengthening := if max_lengthen e <? abs_temp_dev then max_lengthen e else abs_temp_dev in
    (u64 (next_when + lengthening), s64 (temp_deviation - s64 lengthening)).

Definition osEE_st_syncronize (p_st_db value : Z) : ST timers Z :=
  d ← get_st p_st_db;
  let p_trigger_db := st_trigger d in
  t ← get_trigger p_trigger_db;
  if decide (Z.land (st_status d) SCHEDULETABLE_RUNNING = SCHEDULETABLE_RUNNING) then
    let st_pos := u64 (tr_when t - st_start d) in
    let temp_deviation := s64 (u64 (st_pos - value)) in
    temp_deviation ← (if decide (temp_deviation <> 0) then
         e ← get_expiry_point d (st_position d);
         let '(next_when, temp_deviation) := st_adjust e (tr_when t) temp_deviation in
         _ ← osEE_counter_cancel_trigger (tr_counter t) p_trigger_db;
         _ ← osEE_counter_insert_abs_trigger (tr_counter t) p_trigger_db next_when;
         mret temp_deviation
       else mret temp_deviation);
    _ ← upd_st p_st_db (set_st_status
          (if (temp_deviation <? precision d) && (temp_deviation >? - precision d)
           then SCHEDULETABLE_RUNNING_AND_SYNCHRONOUS else SCHEDULETABLE_RUNNING));
    _ ← upd_st p_st_db (set_deviation temp_deviation);
    mret E_OK
  else mret E_OK.

(** ** The increment of a counter *)

(** The actions on tasks, from [osEE_handle_action]. *)
Definition task_action (p_tdb : Z) : ST kernel Z :=
  ev ← osEE_task_activated p_tdb;
  _ ← (if decide (ev = E_OK)
       then _ ← osEE_scheduler_task_insert p_tdb; mret tt else mret tt);
  mret ev.
Definition event_action (p_tdb mask : Z) : ST kernel Z :=
  '(p_sn, ev) ← osEE_task_event_set_mask p_tdb mask;
  _ ← (if decide (p_sn <> NULL)
       then _ ← osEE_scheduler_task_unblocked p_sn; mret tt else mret tt);
  mret ev.

Section Actions.
(** The callbacks of the application. *)
Context (callback : Z -> ST osk unit).

(** [osEE_counter_increment] for the counter of an action. *)
Section Handlers.
Context (increment : Z -> ST osk unit).

Definition osEE_handle_action (p_action : OsEE_action) : ST osk Z :=
  match p_action with
  | OSEE_ACTION_TASK p_tdb => on_kernel (task_action p_tdb)
  | OSEE_ACTION_EVENT p_tdb mask => on_kernel (event_action p_tdb mask)
  | OSEE_ACTION_COUNTER p_counter_db => _ ← increment p_counter_db; mret E_OK
  | OSEE_ACTION_CALLBACK f => _ ← callback f; mret E_OK
  end.

(** What happens to an expired alarm after its action. *)
Definition alarm_after_action (p_counter_db p_trigger_db : Z) : ST timers unit :=
  t ← get_trigger p_trigger_db;
  if decide (tr_status t = OSEE_TRIGGER_EXPIRED) then
    a ← get_alarm (tr_alarm t);
    if cycle a >? 0 then
      _ ← upd_trigger p_trigger_db (set_tr_status OSEE_TRIGGER_ACTIVE);
      osEE_counter_insert_rel_trigger p_counter_db p_trigger_db (cycle a)
    else upd_trigger p_trigger_db (set_tr_status OSEE_TRIGGER_INACTIVE)
  else mret tt.

Definition osEE_counter_handle_alarm (p_counter_db p_trigger_to_be_handled_db : Z) : ST osk unit :=
  t ← on_tmr (get_trigger p_trigger_to_be_handled_db);
  a ← on_tmr (get_alarm (tr_alarm t));
  _ ← osEE_handle_action (al_action a);
  on_tmr (alarm_after_action p_counter_db p_trigger_to_be_handled_db).

Fixpoint handle_actions (l : list OsEE_action) : ST osk unit :=
  match l with
  | [] => mret tt
  | a :: l => _ ← osEE_handle_action a; handle_actions l
  end.

(** "Reinsert the trigger in queue if needed" *)
Definition st_reinsert (p_counter_db p_trigger_to_reinsert next_when : Z) : ST timers unit :=
  _ ← upd_trigger p_trigger_to_reinsert (set_tr_status OSEE_TRIGGER_ACTIVE);
  osEE_counter_insert_abs_trigger p_counter_db p_trigger_to_reinsert next_when.

(** The table at [p_st_db] begins, at the first point: with an offset the
    trigger is inserted and the loop ends, else the loop goes on with it. *)
Definition st_restart (p_counter_db p_st_db : Z) : ST timers Z :=
  _ ← upd_st p_st_db (set_st_position 0);
  c ← get_counter p_counter_db;
  _ ← upd_st p_st_db (set_st_start (tick_value c));
  d ← get_st p_st_db;
  e ← get_expiry_point d 0;
  if ep_offset e >? 0 then
    _ ← st_reinsert p_counter_db (st_trigger d) (u64 (st_start d + ep_offset e));
    mret NULL
  else mret p_st_db.

(** The position after the last expiry point. *)
Definition st_wrap (p_counter_db p_st_db : Z) : ST timers Z :=
  d ← get_st p_st_db;
  if decide (p_next_table d <> NULL) then
    _ ← upd_st p_st_db (set_st_status SCHEDULETABLE_STOPPED);
    _ ← upd_trigger (st_trigger d) (set_tr_status OSEE_TRIGGER_INACTIVE);
    _ ← upd_st (p_next_table d) (set_st_status SCHEDULETABLE_RUNNING);
    st_restart p_counter_db (p_next_table d)
  else st_restart p_counter_db p_st_db.

(** After the actions of expiry point [expiry_position] (with data [e]). *)
Definition st_after_actions (p_counter_db p_st_db expiry_position : Z) (e : OsEE_st_exipiry_point)
    : ST timers Z :=
  d ← get_st p_st_db;
  t ← get_trigger (st_trigger d);
  if decide (tr_status t = OSEE_TRIGGER_EXPIRED) then
    if expiry_position =? u64 (Z.of_nat (length (expiry_points d)) - 1) then
      if (bool_decide (p_next_table d = NULL)) && negb (repeated d) then
        _ ← upd_st p_st_db (set_st_status SCHEDULETABLE_STOPPED);
        _ ← upd_trigger (st_trigger d) (set_tr_status OSEE_TRIGGER_INACTIVE);
        mret NULL
      else
        _ ← upd_st p_st_db (set_st_position INVALID_SCHEDULETABLE_POSITION);
        if duration d >? ep_offset e then
          _ ← st_reinsert p_counter_db (st_trigger d) (u64 (st_start d + duration d));
          mret NULL
        else mret p_st_db
    else
      let expiry_position := u64 (expiry_position + 1) in
      _ ← upd_st p_st_db (set_st_position expiry_position);
      e' ← get_expiry_point d expiry_position;
      if ep_offset e' >? ep_offset e then
        _ ← st_reinsert p_counter_db (st_trigger d) (u64 (st_start d + ep_offset e'));
        mret NULL
      else mret p_st_db
  else mret NULL.

(** One round of the loop; the result is the table for the next one. *)
Definition st_expiry_step (p_counter_db p_st_db : Z) : ST osk Z :=
  d ← on_tmr (get_st p_st_db);
  t ← on_tmr (get_trigger (st_trigger d));
  if decide (tr_status t = OSEE_TRIGGER_EXPIRED) then
    if st_position d =? INVALID_SCHEDULETABLE_POSITION then on_tmr (st_wrap p_counter_db p_st_db)
    else
      let expiry_position := st_position d in
      e ← on_tmr (get_expiry_point d expiry_position);
      _ ← handle_actions (ep_actions e);
      on_tmr (st_after_actions p_counter_db p_st_db expiry_position e)
  else mret NULL.

Fixpoint st_expiry_loop (fuel : nat) (p_counter_db p_st_db : Z) : ST osk unit :=
  match fuel with
  | O => undefined
  | S fuel =>
      p_st_db ← st_expiry_step p_counter_db p_st_db;
      if decide (p_st_db <> NULL) then st_expiry_loop fuel p_counter_db p_st_db else mret tt
  end.

(** Two rounds more than there are expiry points in all tables. *)
Definition st_fuel (t : timers) : nat :=
  (2 + size (st_mem t) + map_fold (fun _ d n => length (expiry_points d) + n) 0 (st_mem t))%nat.

Definition osEE_counter_handle_st_expiry_point (p_counter_db p_trigger_to_be_handled_db : Z)
    : ST osk unit :=
  t ← on_tmr (get_trigger p_trigger_to_be_handled_db);
  fuel ← gets (fun s => st_fuel (tmr s));
  st_expiry_loop fuel p_counter_db (tr_st t).

(** The loop over the expired triggers; the next one is read before the
    current one is handled. *)
Fixpoint handle_triggered (fuel : nat) (p_counter_db p_triggered_db : Z) : ST osk unit :=
  match fuel with
  | O => undefined
  | S fuel =>
      t ← on_tmr (get_trigger p_triggered_db);
      let next := tr_next t in
      _ ← (if decide (tr_alarm t <> NULL)
           then osEE_counter_handle_alarm p_counter_db p_triggered_db
           else osEE_counter_handle_st_expiry_point p_counter_db p_triggered_db);
      if decide (next <> NULL) then handle_triggered fuel p_counter_db next else mret tt
  end.

End Handlers.

(** The prescaler; the result is [is_real_tick]. *)
Definition prescale (p_counter_db : Z) : ST timers bool :=
  c ← get_counter p_counter_db;
  if ticksperbase c >? 1 then
    let p := u64 (prescaler c + 1) in
    if p >=? ticksperbase c then
      _ ← upd_counter p_counter_db (set_prescaler 0); mret true
    else _ ← upd_counter p_counter_db (set_prescaler p); mret false
  else mret true.

Definition advance (p_counter_db : Z) : ST timers Z :=
  c ← get_counter p_counter_db;
  let value := if tick_value c >=? maxallowedvalue c then 0 else u64 (tick_value c + 1) in
  _ ← upd_counter p_counter_db (set_tick_value value);
  mret value.

(** "Pop All Triggered": the first that is not due, and the last that is. *)
Fixpoint expire_scan (fuel : nat) (counter_value p_current : Z) : ST timers (Z * Z) :=
  match fuel with
  | O => undefined
  | S fuel =>
      let p_previous := p_current in
      t ← get_trigger p_current;
      _ ← upd_trigger p_current (set_tr_status OSEE_TRIGGER_EXPIRED);
      let p_current := tr_next t in
      if decide (p_current = NULL) then mret (p_current, p_previous)
      else
        t ← get_trigger p_current;
        if tr_when t =? counter_value then expire_scan fuel counter_value p_current
        else mret (p_current, p_previous)
  end.

(** Remove the due triggers from the queue; the result is the first of them,
    or [NULL]. *)
Definition pop_triggered (p_counter_db counter_value : Z) : ST timers Z :=
  c ← get_counter p_counter_db;
  let p_triggered_db := trigger_queue c in
  if decide (p_triggered_db <> NULL) then
    t ← get_trigger p_triggered_db;
    if tr_when t =? counter_value then
      fuel ← gets queue_fuel;
      '(p_current, p_previous) ← expire_scan fuel counter_value p_triggered_db;
      _ ← upd_trigger p_previous (set_tr_next NULL);
      _ ← upd_counter p_counter_db (set_trigger_queue p_current);
      mret p_triggered_db
    else mret NULL
  else mret NULL.

(** The fuel bounds the nesting of counters that increment counters. *)
Fixpoint osEE_counter_increment (fuel : nat) (p_counter_db : Z) : ST osk unit :=
  match fuel with
  | O => undefined
  | S fuel =>
      is_real_tick ← on_tmr (prescale p_counter_db);
      if (is_real_tick : bool) then
        counter_value ← on_tmr (advance p_counter_db);
        p_triggered_db ← on_tmr (pop_triggered p_counter_db counter_value);
        if decide (p_triggered_db <> NULL) then
          n ← gets (fun s => queue_fuel (tmr s));
          handle_triggered (osEE_counter_increment fuel) n p_counter_db p_triggered_db
        else mret tt
      else mret tt
  end.

End Actions.
