(* ===== verification/TriggerQueue.v ===== *)
(** * ERIKA: the trigger queue of a counter

    The theory of the queue of [Counter]: chains of triggers in the store, the
    distance of a time from the value of a counter, and what each operation on
    the queue does to the chain: insertion by distance, removal, and taking
    off the triggers that are due. *)

From Stdlib Require Import ZArith Lia.
From stdpp Require Import base tactics list option gmap sorting.
From S2P Require Import Prelude StateMonad Kernel Counter.

(** ** Chains of triggers

    Only the links matter: a map from addresses to next addresses. *)
Section Chains.
Implicit Types (m : gmap Z Z) (p q a b : Z) (l : list Z).

Fixpoint tseg m p l q : Prop :=
  match l with
  | [] => p = q
  | a :: l => p = a /\ a <> NULL /\ exists r, m !! a = Some r /\ tseg m r l q
  end.

Lemma tseg_app m p q l1 l2 : tseg m p (l1 ++ l2) q <-> exists r, tseg m p l1 r /\ tseg m r l2 q.
Proof.
  revert p. induction l1 as [|a l1 IH]; intros p; simpl.
  - split; [intros H; by exists p|by intros (r & -> & H)].
  - split.
    + intros (-> & Hn & r & Hr & (r' & H1 & H2)%IH). eauto 10.
    + intros (r' & (-> & Hn & r & Hr & H1) & H2). split_and!; [done..|].
      exists r. split; [done|]. apply IH. eauto.
Qed.

Lemma tseg_frame m p q l a n : a ∉ l -> tseg m p l q -> tseg (<[a := n]> m) p l q.
Proof.
  revert p. induction l as [|b l IH]; intros p Ha; simpl; [done|].
  intros (-> & Hn & r & Hr & H). apply not_elem_of_cons in Ha as [Hne Ha].
  split_and!; [done..|]. exists r. split; [|by apply IH]. by rewrite lookup_insert_ne.
Qed.

Lemma tseg_agree m m' p q l :
  (forall a, a ∈ l -> m' !! a = m !! a) -> tseg m p l q -> tseg m' p l q.
Proof.
  revert p. induction l as [|b l IH]; intros p Hag; simpl; [done|].
  intros (-> & Hn & r & Hr & H). split_and!; [done..|]. exists r. split.
  - rewrite Hag by left. done.
  - apply IH; [|done]. intros a Ha. apply Hag. by right.
Qed.

Lemma tseg_set_last m p q r l a :
  a ∉ l -> tseg m p (l ++ [a]) q -> tseg (<[a := r]> m) p (l ++ [a]) r.
Proof.
  intros Ha (s & H1 & -> & Hn & s' & Hs & _)%tseg_app. apply tseg_app.
  exists a. split; [by apply tseg_frame|]. simpl. split_and!; [done..|].
  exists r. by rewrite lookup_insert_eq.
Qed.

Lemma tseg_head m p l : tseg m p l NULL -> p = NULL <-> l = [].
Proof. destruct l as [|a l]; simpl; [naive_solver|]. intros (-> & Hn & _). naive_solver. Qed.

Lemma tseg_stored m p q l a : tseg m p l q -> a ∈ l -> is_Some (m !! a) /\ a <> NULL.
Proof.
  revert p. induction l as [|b l IH]; intros p H Ha; [by apply elem_of_nil in Ha|].
  destruct H as (-> & ? & r & Hr & H). apply elem_of_cons in Ha as [->|Ha]; [eauto|by apply (IH r)].
Qed.

Lemma tseg_fun m p l1 l2 : tseg m p l1 NULL -> tseg m p l2 NULL -> l1 = l2.
Proof.
  revert p l2. induction l1 as [|a l1 IH]; intros p l2 H1 H2.
  - simpl in H1. by apply tseg_head in H2 as [->].
  - destruct H1 as (-> & Hn & r & Hr & H1). destruct l2 as [|b l2]; [by simpl in H2|].
    destruct H2 as (-> & _ & r' & Hr' & H2). simplify_eq. f_equal. by eapply IH.
Qed.

(** A chain that ends has no repeated element. *)
Lemma tseg_nodup m p l : tseg m p l NULL -> NoDup l.
Proof.
  revert p. induction l as [|a l IH]; intros p H; [constructor|].
  destruct H as (-> & Hn & r & Hr & H). constructor; [|by eapply IH].
  intros (l1 & l2 & ->)%list_elem_of_split.
  apply tseg_app in H as (r1 & H1 & H2). pose proof H2 as (-> & _ & r2 & Hr2 & H2').
  simplify_eq. assert (l1 ++ a :: l2 = l2) as He.
  { eapply tseg_fun; [|exact H2']. apply tseg_app. eauto. }
  apply (f_equal length) in He. rewrite length_app in He. simpl in He. lia.
Qed.

Lemma tseg_length m p l : tseg m p l NULL -> (length l <= size m)%nat.
Proof.
  intros H. pose proof (tseg_nodup _ _ _ H) as Hnd.
  rewrite <- (size_list_to_set (C := gset Z) l) by done.
  rewrite <- size_dom. apply subseteq_size. intros a Ha.
  apply elem_of_list_to_set in Ha. apply elem_of_dom. by apply (tseg_stored _ _ _ _ _ H).
Qed.

Definition last_of p l : Z := default p (last l).

Lemma last_of_cons p a l : last_of p (a :: l) = last_of a l.
Proof. unfold last_of. destruct l using rev_ind; [done|]. by rewrite app_comm_cons, !last_snoc. Qed.
Lemma last_of_snoc p l a : last_of p (l ++ [a]) = a.
Proof. unfold last_of. by rewrite last_snoc. Qed.

(** Linking a new element between two parts. *)
Lemma tseg_insert m p x y a n q :
  tseg m p (x ++ y) NULL -> a ∉ x ++ y -> a <> NULL -> m !! a = Some n -> tseg m q y NULL ->
  let m1 := if decide (x = []) then m else <[last_of NULL x := a]> m in
  tseg (<[a := q]> m1) (if decide (x = []) then a else p) (x ++ a :: y) NULL.
Proof.
  intros H Ha Ha0 Hma Hy. pose proof (tseg_nodup _ _ _ H) as Hnd.
  apply not_elem_of_app in Ha as [Hax Hay]. destruct x as [|b x _] using rev_ind; simpl.
  - split_and!; [done..|]. exists q. rewrite lookup_insert_eq. split; [done|]. by apply tseg_frame.
  - rewrite !decide_False by (intros [_ [=]]%app_eq_nil). rewrite last_of_snoc.
    apply NoDup_app in Hnd as (Hx & Hxy & _). apply NoDup_app in Hx as (_ & Hbx & _).
    apply not_elem_of_app in Hax as [Hax Hab]. apply not_elem_of_cons in Hab as [Hab _].
    assert (b ∉ x) as Hbx' by (intros Hin; apply (Hbx b Hin); left).
    assert (b ∉ y) as Hby by (apply Hxy; apply elem_of_app; right; left).
    apply tseg_app in H as (r & H1 & H2). apply tseg_app. exists a. split.
    + apply tseg_frame; [|by eapply tseg_set_last].
      apply not_elem_of_app. split; [done|]. apply not_elem_of_cons. split; [done|apply not_elem_of_nil].
    + simpl. split_and!; [done..|]. exists q. rewrite lookup_insert_eq. split; [done|].
      apply tseg_frame; [done|]. by apply tseg_frame.
Qed.

(** Taking one out. *)
Lemma tseg_remove m p x a y n :
  tseg m p (x ++ a :: y) NULL -> m !! a = Some n ->
  tseg (if decide (x = []) then m else <[last_of NULL x := n]> m)
    (if decide (x = []) then n else p) (x ++ y) NULL.
Proof.
  intros H Hma. pose proof (tseg_nodup _ _ _ H) as Hnd.
  apply tseg_app in H as (r & H1 & -> & Hn & n' & Hn' & H2).
  assert (n' = n) as -> by congruence.
  destruct x as [|b x _] using rev_ind; simpl; [done|].
  rewrite !decide_False by (intros [_ [=]]%app_eq_nil). rewrite last_of_snoc.
  apply NoDup_app in Hnd as (Hx & Hxy & _). apply NoDup_app in Hx as (_ & Hbx & _).
  assert (b ∉ x) as Hbx' by (intros Hin; apply (Hbx b Hin); left).
  assert (b ∉ y) as Hby.
  { intros Hin. apply (Hxy b); [apply elem_of_app; right; left|by right]. }
  apply tseg_app. exists n. split; [by eapply tseg_set_last|by apply tseg_frame].
Qed.

End Chains.

(** ** Distances

    The ticks from the value [v] of a counter with maximum [mx] to its next
    time at [w]: 1 to [mx + 1]. *)
Definition dist (mx v w : Z) : Z := if w >? v then w - v else (mx - v) + w + 1.

Definition ticks_ok (mx v : Z) : Prop := 0 <= v <= mx /\ mx < 2 ^ 64.

Lemma dist_bounds mx v w : 0 <= v <= mx -> 0 <= w <= mx -> 1 <= dist mx v w <= mx + 1.
Proof. intros. unfold dist. zcase; lia. Qed.

Lemma dist_inj mx v w1 w2 :
  0 <= v <= mx -> 0 <= w1 <= mx -> 0 <= w2 <= mx -> dist mx v w1 = dist mx v w2 -> w1 = w2.
Proof. unfold dist. intros. destruct (w1 >? v) eqn:?, (w2 >? v) eqn:?; b2p; lia. Qed.

Lemma goes_past_spec mx v w cw :
  0 <= v <= mx -> 0 <= w <= mx -> 0 <= cw <= mx ->
  goes_past v w cw = bool_decide (dist mx v cw <= dist mx v w).
Proof.
  intros. unfold goes_past, dist.
  destruct (cw >? v) eqn:?, (w >? v) eqn:?, (w >=? cw) eqn:?, (w <=? v) eqn:?; simpl; b2p;
    first [lia | symmetry; first [apply bool_decide_eq_true_2; lia | apply bool_decide_eq_false_2; lia]].
Qed.

(** A tick brings everything nearer by one, but for what is due. *)
Definition next_tick (mx v : Z) : Z := if v >=? mx then 0 else u64 (v + 1).

Lemma next_tick_range mx v : ticks_ok mx v -> ticks_ok mx (next_tick mx v).
Proof. unfold ticks_ok, next_tick. intros. zcase; [lia|]. rewrite u64_small; lia. Qed.

Lemma dist_next mx v w :
  ticks_ok mx v -> 0 <= w <= mx ->
  if decide (w = next_tick mx v) then dist mx v w = 1
  else dist mx (next_tick mx v) w = dist mx v w - 1.
Proof.
  unfold ticks_ok, next_tick, dist. intros. destruct (v >=? mx) eqn:?; b2p;
    [|rewrite (u64_small (v + 1)) by lia]; case_decide; repeat zcase; lia.
Qed.

Lemma eval_when_spec mx v d :
  ticks_ok mx v -> 0 <= d <= mx ->
  0 <= eval_when mx v d <= mx /\ (1 <= d -> dist mx v (eval_when mx v d) = d).
Proof.
  unfold ticks_ok, eval_when, dist. intros. rewrite (u64_small (mx - d)) by lia.
  zcase; rewrite u64_small by lia; (split; [lia|]); intros; zcase; lia.
Qed.

Lemma eval_delta_spec mx v w :
  ticks_ok mx v -> 0 <= w <= mx -> eval_delta mx v w = u64 (dist mx v w).
Proof. unfold eval_delta, dist. intros. by zcase. Qed.

(** ** Insertion by distance *)
Section DistInsert.
Context (d : Z -> Z).

(** Behind everything that is not later. *)
Fixpoint dist_insert (x : Z) (l : list Z) : list Z :=
  match l with
  | [] => [x]
  | y :: l' => if decide (d y <= d x) then y :: dist_insert x l' else x :: l
  end.

Definition by_dist (x y : Z) : Prop := d x <= d y.

Lemma dist_insert_perm x l : dist_insert x l ≡ₚ x :: l.
Proof.
  induction l as [|y l IH]; simpl; [done|]. case_decide; [|done]. rewrite IH. apply perm_swap.
Qed.

Lemma dist_insert_split x l :
  exists l1 l2, l = l1 ++ l2 /\ dist_insert x l = l1 ++ x :: l2 /\
    Forall (fun y => d y <= d x) l1 /\ match l2 with [] => True | y :: _ => d x < d y end.
Proof.
  induction l as [|y l IH]; simpl; [by exists [], []|]. case_decide as H.
  - destruct IH as (l1 & l2 & -> & -> & H1 & H2). exists (y :: l1), l2.
    split_and!; try done. by constructor.
  - exists [], (y :: l). split_and!; try done. lia.
Qed.

Lemma dist_insert_sorted x l : StronglySorted by_dist l -> StronglySorted by_dist (dist_insert x l).
Proof.
  induction 1 as [|y l Hs IH Hy]; simpl; [by repeat constructor|]. case_decide as H.
  - constructor; [done|]. rewrite dist_insert_perm. by constructor.
  - constructor; [by constructor|]. constructor; [unfold by_dist; lia|].
    eapply Forall_impl; [exact Hy|]. unfold by_dist. intros z Hz. lia.
Qed.

End DistInsert.

Lemma dist_insert_ext f g x l :
  (forall a, a ∈ x :: l -> f a = g a) -> dist_insert f x l = dist_insert g x l.
Proof.
  induction l as [|y l IH]; simpl; intros H; [done|].
  rewrite (H y), (H x) by (rewrite !elem_of_cons; tauto). rewrite IH; [done|].
  intros a Ha. apply H. rewrite !elem_of_cons in *. tauto.
Qed.

(** ** Steps on the stores *)
Definition tupd (a : Z) (f : OsEE_TriggerDB -> OsEE_TriggerDB) (T : timers) : timers :=
  set_trigger_mem (alter f a (trigger_mem T)) T.
Definition cupd (c : Z) (f : OsEE_CounterDB -> OsEE_CounterDB) (T : timers) : timers :=
  set_counter_mem (alter f c (counter_mem T)) T.
Definition aupd (p : Z) (f : OsEE_AlarmDB -> OsEE_AlarmDB) (T : timers) : timers :=
  set_alarm_mem (alter f p (alarm_mem T)) T.

Lemma get_trigger_run a t T : trigger_mem T !! a = Some t -> get_trigger a T = Some (t, T).
Proof. intros H. unfold get_trigger, StateMonad.from_option. by rewrite H. Qed.
Lemma get_counter_run c cc T : counter_mem T !! c = Some cc -> get_counter c T = Some (cc, T).
Proof. intros H. unfold get_counter, StateMonad.from_option. by rewrite H. Qed.
Lemma get_alarm_run p a T : alarm_mem T !! p = Some a -> get_alarm p T = Some (a, T).
Proof. intros H. unfold get_alarm, StateMonad.from_option. by rewrite H. Qed.

Lemma upd_trigger_run a t f T :
  trigger_mem T !! a = Some t -> upd_trigger a f T = Some (tt, tupd a f T).
Proof.
  intros H. unfold upd_trigger. erewrite bind_run by by apply get_trigger_run.
  unfold modify, tupd. by rewrite (insert_as_alter _ _ _ _ H).
Qed.
Lemma upd_counter_run c cc f T :
  counter_mem T !! c = Some cc -> upd_counter c f T = Some (tt, cupd c f T).
Proof.
  intros H. unfold upd_counter. erewrite bind_run by by apply get_counter_run.
  unfold modify, cupd. by rewrite (insert_as_alter _ _ _ _ H).
Qed.
Lemma upd_alarm_run p a f T :
  alarm_mem T !! p = Some a -> upd_alarm p f T = Some (tt, aupd p f T).
Proof.
  intros H. unfold upd_alarm. erewrite bind_run by by apply get_alarm_run.
  unfold modify, aupd. by rewrite (insert_as_alter _ _ _ _ H).
Qed.

Lemma on_tmr_run {A} (m : ST timers A) s x T :
  m (tmr s) = Some (x, T) -> on_tmr m s = Some (x, mkOsk (core s) T).
Proof. intros H. unfold on_tmr. by rewrite H. Qed.

Lemma tupd_lookup a b f T : trigger_mem (tupd a f T) !! b =
  if decide (a = b) then f <$> trigger_mem T !! b else trigger_mem T !! b.
Proof.
  unfold tupd. simpl. case_decide as H; [subst; apply lookup_alter_eq|by apply lookup_alter_ne].
Qed.
Lemma cupd_lookup c c' f T : counter_mem (cupd c f T) !! c' =
  if decide (c = c') then f <$> counter_mem T !! c' else counter_mem T !! c'.
Proof.
  unfold cupd. simpl. case_decide as H; [subst; apply lookup_alter_eq|by apply lookup_alter_ne].
Qed.

(** The links and the times of the triggers. *)
Definition nexts (T : timers) : gmap Z Z := tr_next <$> trigger_mem T.
Definition when_of (T : timers) (a : Z) : Z :=
  match trigger_mem T !! a with Some t => tr_when t | None => 0 end.

Lemma nexts_lookup T a t : trigger_mem T !! a = Some t -> nexts T !! a = Some (tr_next t).
Proof. intros H. unfold nexts. by rewrite lookup_fmap, H. Qed.

Lemma nexts_inv T a n : nexts T !! a = Some n -> exists t, trigger_mem T !! a = Some t /\ tr_next t = n.
Proof. unfold nexts. rewrite lookup_fmap. destruct (trigger_mem T !! a); simpl; naive_solver. Qed.

Lemma nexts_tupd_keep a f T : (forall t, tr_next (f t) = tr_next t) -> nexts (tupd a f T) = nexts T.
Proof.
  intros H. apply map_eq. intros b. unfold nexts. rewrite !lookup_fmap, tupd_lookup.
  case_decide; [|done]. destruct (trigger_mem T !! b); simpl; [by rewrite H|done].
Qed.

Lemma nexts_tupd_next a n t T :
  trigger_mem T !! a = Some t -> nexts (tupd a (set_tr_next n) T) = <[a := n]> (nexts T).
Proof.
  intros Ht. apply map_eq. intros b. unfold nexts. rewrite lookup_fmap, tupd_lookup.
  case_decide as H; [subst b; by rewrite Ht, lookup_insert_eq|].
  by rewrite lookup_insert_ne, lookup_fmap.
Qed.

Lemma nexts_cupd c f T : nexts (cupd c f T) = nexts T.
Proof. done. Qed.

Lemma tseg_trigger T p q l a : tseg (nexts T) p l q -> a ∈ l -> exists t, trigger_mem T !! a = Some t.
Proof.
  intros H Ha. destruct (tseg_stored _ _ _ _ _ H Ha) as [[n Hn] _].
  apply nexts_inv in Hn as (t & Ht & _). eauto.
Qed.

Lemma nexts_size T : size (nexts T) = size (trigger_mem T).
Proof. apply map_size_fmap. Qed.

(** Only links of the triggers of [l], and the head of counter [c], differ. *)
Record relinked (c : Z) (l : list Z) (T T' : timers) : Prop := {
  rl_trig b : b ∉ l -> trigger_mem T' !! b = trigger_mem T !! b;
  rl_core b : set_tr_next 0 <$> trigger_mem T' !! b = set_tr_next 0 <$> trigger_mem T !! b;
  rl_ctr c' : c' <> c -> counter_mem T' !! c' = counter_mem T !! c';
  rl_cc : set_trigger_queue 0 <$> counter_mem T' !! c = set_trigger_queue 0 <$> counter_mem T !! c;
  rl_alarm : alarm_mem T' = alarm_mem T;
  rl_st : st_mem T' = st_mem T;
  rl_ptrs : counter_ptrs T' = counter_ptrs T /\ alarm_ptrs T' = alarm_ptrs T /\ st_ptrs T' = st_ptrs T
}.

Lemma relinked_refl c l T : relinked c l T T.
Proof. done. Qed.

Lemma relinked_trans c l T1 T2 T3 : relinked c l T1 T2 -> relinked c l T2 T3 -> relinked c l T1 T3.
Proof.
  intros H1 H2. destruct H1 as [A1 B1 C1 D1 E1 F1 G1], H2 as [A2 B2 C2 D2 E2 F2 G2].
  destruct G1 as (? & ? & ?), G2 as (? & ? & ?).
  split; intros; [rewrite A2, A1|rewrite B2, B1|rewrite C2, C1|rewrite D2, D1| | |]; try done;
    try congruence. split_and!; congruence.
Qed.

Lemma relinked_next c l a n T : a ∈ l -> relinked c l T (tupd a (set_tr_next n) T).
Proof.
  intros Ha. split; try done.
  - intros b Hb. rewrite tupd_lookup. by case_decide; [subst|].
  - intros b. rewrite tupd_lookup. case_decide; [|done]. by destruct (trigger_mem T !! b).
Qed.

Lemma relinked_queue c l p T : relinked c l T (cupd c (set_trigger_queue p) T).
Proof.
  split; try done.
  - intros c' Hc. rewrite cupd_lookup. by case_decide.
  - rewrite cupd_lookup, decide_True by done. by destruct (counter_mem T !! c).
Qed.

Lemma relinked_lookup c l T T' b t :
  relinked c l T T' -> trigger_mem T !! b = Some t ->
  exists n, trigger_mem T' !! b = Some (set_tr_next n t).
Proof.
  intros H Ht. pose proof (rl_core _ _ _ _ H b) as Hc. rewrite Ht in Hc.
  destruct (trigger_mem T' !! b) as [t'|]; [|done]. exists (tr_next t'). f_equal.
  destruct t', t. simpl in *. unfold set_tr_next in *. simpl in *. by simplify_eq.
Qed.

Lemma relinked_counter c l T T' cc :
  relinked c l T T' -> counter_mem T !! c = Some cc ->
  exists p, counter_mem T' !! c = Some (set_trigger_queue p cc).
Proof.
  intros H Hc. pose proof (rl_cc _ _ _ _ H) as Hcc. rewrite Hc in Hcc.
  destruct (counter_mem T' !! c) as [cc'|]; [|done]. exists (trigger_queue cc'). f_equal.
  destruct cc', cc. unfold set_trigger_queue in *. simpl in *. by simplify_eq.
Qed.

Lemma relinked_when c l T T' a : relinked c l T T' -> when_of T' a = when_of T a.
Proof.
  intros H. unfold when_of. pose proof (rl_core _ _ _ _ H a) as Hc.
  destruct (trigger_mem T !! a), (trigger_mem T' !! a); try done. simpl in Hc.
  injection Hc. congruence.
Qed.

(** ** The operations on the queue *)

(** The place of insertion. *)
Lemma insert_scan_run T v w x : forall fuel prev p y,
  tseg (nexts T) p (x ++ y) NULL ->
  Forall (fun a => goes_past v w (when_of T a) = true) x ->
  match y with [] => True | b :: _ => goes_past v w (when_of T b) = false end ->
  (length x < fuel)%nat ->
  insert_scan fuel v w prev p T = Some ((last_of prev x, hd NULL y), T) /\
  tseg (nexts T) (hd NULL y) y NULL.
Proof.
  induction x as [|a x IH]; intros fuel prev p y Hch Hx Hy Hf.
  - simpl in Hch. destruct y as [|b y].
    + simpl in Hch. subst p. split; [|done]. by destruct fuel.
    + pose proof Hch as (-> & Hb & r & Hr & Htl). split; [|done].
      destruct fuel as [|fuel]; [lia|]. cbn [insert_scan]. rewrite decide_False by done.
      apply nexts_inv in Hr as (t & Ht & _). erewrite bind_run by by apply get_trigger_run.
      unfold when_of in Hy. rewrite Ht in Hy. by rewrite Hy.
  - destruct Hch as (-> & Ha & r & Hr & Htl). destruct fuel as [|fuel]; [simpl in Hf; lia|].
    cbn [insert_scan]. rewrite decide_False by done.
    apply nexts_inv in Hr as (t & Ht & <-). erewrite bind_run by by apply get_trigger_run.
    inversion_clear Hx as [|? ? Hpast Hx']. unfold when_of in Hpast. rewrite Ht in Hpast.
    rewrite Hpast, last_of_cons. apply IH; [done..|simpl in Hf; lia].
Qed.

(** Linking trigger [a] between [x] and [y]. *)
Definition link_in (c a : Z) (x : list Z) (q : Z) : ST timers unit :=
  _ ← (if decide (last_of NULL x <> NULL) then upd_trigger (last_of NULL x) (set_tr_next a)
       else upd_counter c (set_trigger_queue a));
  upd_trigger a (set_tr_next q).

Lemma last_of_null x m p q : tseg m p x q -> last_of NULL x = NULL <-> x = [].
Proof.
  intros H. destruct x as [|b x _] using rev_ind; [done|]. rewrite last_of_snoc.
  apply (tseg_stored _ _ _ _ b) in H as [_ ?]; [|apply elem_of_app; right; left].
  split; [done|]. by intros [_ [=]]%app_eq_nil.
Qed.

Lemma link_in_run T c cc a t x y :
  counter_mem T !! c = Some cc -> tseg (nexts T) (trigger_queue cc) (x ++ y) NULL ->
  a ∉ x ++ y -> a <> NULL -> trigger_mem T !! a = Some t -> tseg (nexts T) (hd NULL y) y NULL ->
  exists T' q, link_in c a x (hd NULL y) T = Some (tt, T') /\
    counter_mem T' !! c = Some (set_trigger_queue q cc) /\
    tseg (nexts T') q (x ++ a :: y) NULL /\ relinked c (a :: x) T T'.
Proof.
  intros Hc Hch Ha Ha0 Ht Hy. pose proof Hch as (r & Hx & _)%tseg_app.
  pose proof (tseg_insert _ _ _ _ a (tr_next t) _ Hch Ha Ha0 (nexts_lookup _ _ _ Ht) Hy) as Hres.
  pose proof (last_of_null _ _ _ _ Hx) as Hlast. unfold link_in. cbv zeta in Hres.
  destruct (decide (x = [])) as [->|Hne].
  - rewrite decide_False by (rewrite Hlast; tauto).
    erewrite bind_run by by eapply upd_counter_run.
    erewrite upd_trigger_run by exact Ht. eexists _, a. split; [done|]. split_and!.
    + change (counter_mem (tupd _ _ _)) with (counter_mem (cupd c (set_trigger_queue a) T)).
      by rewrite cupd_lookup, decide_True, Hc.
    + by rewrite (nexts_tupd_next _ _ t).
    + eapply relinked_trans; [apply relinked_queue|apply relinked_next; left].
  - rewrite decide_True by (rewrite Hlast; tauto).
    assert (exists b x', x = x' ++ [b]) as (b & x' & ->).
    { destruct x as [|b x' _] using rev_ind; [done|eauto]. }
    rewrite last_of_snoc in *.
    assert (Hb : b ∈ x' ++ [b]) by (apply elem_of_app; right; left).
    destruct (tseg_trigger _ _ _ _ _ Hx Hb) as [tb Htb].
    assert (Hne' : b <> a).
    { intros ->. apply Ha, elem_of_app. by left. }
    erewrite bind_run by by eapply upd_trigger_run.
    assert (Hta : trigger_mem (tupd b (set_tr_next a) T) !! a = Some t).
    { rewrite tupd_lookup. by case_decide. }
    erewrite upd_trigger_run by exact Hta. eexists _, (trigger_queue cc). split; [done|]. split_and!.
    + change (counter_mem (tupd _ _ _)) with (counter_mem T). rewrite Hc. by destruct cc.
    + by rewrite (nexts_tupd_next _ _ t), (nexts_tupd_next _ _ tb).
    + eapply relinked_trans; apply relinked_next; [by right|left].
Qed.

(** Insertion puts the trigger where its distance belongs. *)
Lemma insert_abs_run T c cc l a t w :
  let mx := maxallowedvalue cc in let v := tick_value cc in
  let T1 := tupd a (set_tr_when w) T in
  counter_mem T !! c = Some cc -> ticks_ok mx v -> tseg (nexts T) (trigger_queue cc) l NULL ->
  Forall (fun b => 0 <= when_of T b <= mx) l -> a ∉ l -> a <> NULL ->
  trigger_mem T !! a = Some t -> 0 <= w <= mx ->
  exists T' q, osEE_counter_insert_abs_trigger c a w T = Some (tt, T') /\
    counter_mem T' !! c = Some (set_trigger_queue q cc) /\
    tseg (nexts T') q (dist_insert (fun b => dist mx v (when_of T1 b)) a l) NULL /\
    relinked c (a :: l) T1 T'.
Proof.
  intros mx v T1 Hc Hok Hch Hrange Ha Ha0 Ht Hw.
  assert (Hwa : when_of T1 a = w).
  { unfold when_of, T1. by rewrite tupd_lookup, decide_True, Ht. }
  assert (Hwb : forall b, b ∈ l -> when_of T1 b = when_of T b).
  { intros b Hb. unfold when_of, T1. rewrite tupd_lookup. case_decide; [congruence|done]. }
  assert (Hnx : nexts T1 = nexts T) by by apply nexts_tupd_keep.
  assert (Hpast : forall b, b ∈ l -> goes_past v w (when_of T1 b) =
    bool_decide (dist mx v (when_of T1 b) <= dist mx v (when_of T1 a))).
  { intros b Hb. rewrite Hwa, (Hwb b Hb). apply goes_past_spec; [apply Hok|done|].
    rewrite Forall_forall in Hrange. by apply Hrange. }
  destruct (dist_insert_split (fun b => dist mx v (when_of T1 b)) a l) as (x & y & -> & Hins & Hx & Hy).
  rewrite Hins. destruct (insert_scan_run T1 v w x (queue_fuel T1) NULL (trigger_queue cc) y)
    as [Hscan Hy'].
  { by rewrite Hnx. }
  { rewrite Forall_forall in Hx |- *. intros b Hb. rewrite Hpast by (apply elem_of_app; by left).
    by apply bool_decide_eq_true_2, Hx. }
  { destruct y as [|b y]; [done|]. rewrite Hpast by (apply elem_of_app; right; left).
    apply bool_decide_eq_false_2. lia. }
  { apply tseg_length in Hch. rewrite <- Hnx, nexts_size, length_app in Hch.
    unfold queue_fuel. lia. }
  destruct (link_in_run T1 c cc a (set_tr_when w t) x y) as (T' & q & Hrun & Hq & Hch' & Hrl); try done.
  { by rewrite Hnx. }
  { unfold T1. by rewrite tupd_lookup, decide_True, Ht. }
  exists T', q. split; [|split; [done|]; split; [done|]].
  - unfold osEE_counter_insert_abs_trigger. erewrite bind_run by by apply get_counter_run.
    erewrite bind_run by by eapply upd_trigger_run. fold T1.
    erewrite bind_run by reflexivity. erewrite bind_run by exact Hscan. exact Hrun.
  - destruct Hrl as [A B C D E F G]. split; try done. intros b Hb. apply A.
    intros Hin. apply Hb. rewrite elem_of_cons, elem_of_app in *. tauto.
Qed.

(** *** Cancelling *)
Lemma cancel_scan_run T a y x : forall fuel b p,
  tseg (nexts T) p (b :: x ++ a :: y) NULL -> a ∉ b :: x -> (length x < fuel)%nat ->
  cancel_scan fuel a p T = Some ((last_of b x, a), T).
Proof.
  induction x as [|b' x IH]; intros fuel b p (-> & Hb & r & Hr & Htl) Ha Hf;
    (destruct fuel as [|fuel]; [simpl in Hf; lia|]); cbn [cancel_scan];
    apply nexts_inv in Hr as (t & Ht & <-);
    (erewrite bind_run by by apply get_trigger_run).
  - simpl in Htl. destruct Htl as (-> & _). by rewrite decide_False by naive_solver.
  - pose proof Htl as (Hq & Hb' & _).
    apply not_elem_of_cons in Ha as [_ Ha]. pose proof Ha as [Hab _]%not_elem_of_cons.
    rewrite decide_True by (rewrite Hq; done). rewrite last_of_cons. apply (IH fuel b' (tr_next t)); [done|done|simpl in Hf; lia].
Qed.

Lemma cancel_run T c cc x a y :
  counter_mem T !! c = Some cc -> tseg (nexts T) (trigger_queue cc) (x ++ a :: y) NULL ->
  exists T' q, osEE_counter_cancel_trigger c a T = Some (tt, T') /\
    counter_mem T' !! c = Some (set_trigger_queue q cc) /\
    tseg (nexts T') q (x ++ y) NULL /\ relinked c x T T'.
Proof.
  intros Hc Hch. pose proof (tseg_nodup _ _ _ Hch) as Hnd.
  assert (Ha : a ∈ x ++ a :: y) by (apply elem_of_app; right; left).
  destruct (tseg_trigger _ _ _ _ _ Hch Ha) as [t Ht].
  pose proof (tseg_remove _ _ _ _ _ _ Hch (nexts_lookup _ _ _ Ht)) as Hres.
  unfold osEE_counter_cancel_trigger. erewrite bind_run by by apply get_counter_run.
  erewrite bind_run by by apply get_trigger_run.
  destruct x as [|b x].
  - destruct Hch as (Hq & _). rewrite decide_True by done.
    erewrite upd_counter_run by done. eexists _, (tr_next t). split; [done|]. split_and!.
    + by rewrite cupd_lookup, decide_True, Hc.
    + done.
    + apply relinked_queue.
  - simpl in Hnd. apply NoDup_cons in Hnd as [Hbn Hnd]. pose proof Hnd as (_ & Hxa & _)%NoDup_app.
    assert (Hab : a <> b) by (intros ->; apply Hbn, elem_of_app; right; left).
    assert (Hax : a ∉ x) by (intros Hin; apply (Hxa a Hin); left).
    pose proof Hch as (Hq & _). rewrite decide_False by congruence.
    erewrite bind_run by reflexivity. rewrite Hq in Hch, Hres |- *.
    assert (Hl : (length x < queue_fuel T)%nat).
    { pose proof (tseg_length _ _ _ Hch) as Hlen. rewrite nexts_size in Hlen.
      simpl in Hlen. rewrite length_app in Hlen. simpl in Hlen. unfold queue_fuel. lia. }
    rewrite (bind_run _ _ _ _ _ (cancel_scan_run T a y x _ b b Hch
      ltac:(by apply not_elem_of_cons) Hl)).
    rewrite decide_True by (by destruct (tseg_stored _ _ _ _ _ Hch Ha)).
    assert (Hin : last_of b x ∈ b :: x).
    { destruct x as [|b' x' _] using rev_ind; [left|]. rewrite last_of_snoc. right.
      apply elem_of_app. right. left. }
    destruct (tseg_trigger _ _ _ _ (last_of b x) Hch) as [tb Htb].
    { simpl. rewrite elem_of_cons, elem_of_app in *. tauto. }
    erewrite upd_trigger_run by exact Htb. eexists _, b. split; [done|]. split_and!.
    + change (counter_mem (tupd _ _ _)) with (counter_mem T). rewrite Hc, <- Hq. by destruct cc.
    + rewrite (nexts_tupd_next _ _ tb) by done. by rewrite !decide_False, last_of_cons in Hres by done.
    + by apply relinked_next.
Qed.

(** *** Expiring *)
Fixpoint expire_all (l : list Z) (T : timers) : timers :=
  match l with [] => T | a :: l => expire_all l (tupd a (set_tr_status OSEE_TRIGGER_EXPIRED) T) end.

Lemma expire_all_lookup l : forall T b, trigger_mem (expire_all l T) !! b =
  if decide (b ∈ l) then set_tr_status OSEE_TRIGGER_EXPIRED <$> trigger_mem T !! b
  else trigger_mem T !! b.
Proof.
  induction l as [|a l IH]; intros T b; cbn [expire_all].
  - done.
  - rewrite IH, tupd_lookup. destruct (decide (b ∈ a :: l)) as [Hb|Hb].
    + apply elem_of_cons in Hb. destruct (decide (a = b)) as [->|].
      * case_decide; [|done]. by destruct (trigger_mem T !! b).
      * rewrite decide_True by (destruct Hb; [congruence|done]). done.
    + apply not_elem_of_cons in Hb as [??]. by rewrite !decide_False by congruence.
Qed.

Lemma expire_all_nexts l : forall T, nexts (expire_all l T) = nexts T.
Proof. induction l as [|a l IH]; intros T; simpl; [done|]. rewrite IH. by apply nexts_tupd_keep. Qed.

Lemma expire_all_rest l : forall T, counter_mem (expire_all l T) = counter_mem T /\
  alarm_mem (expire_all l T) = alarm_mem T /\ st_mem (expire_all l T) = st_mem T /\
  counter_ptrs (expire_all l T) = counter_ptrs T /\ alarm_ptrs (expire_all l T) = alarm_ptrs T /\
  st_ptrs (expire_all l T) = st_ptrs T.
Proof. induction l as [|a l IH]; intros T; simpl; [done|]. apply (IH (tupd _ _ T)). Qed.

Lemma tupd_when a f T b : (forall t, tr_when (f t) = tr_when t) -> when_of (tupd a f T) b = when_of T b.
Proof.
  intros H. unfold when_of. rewrite tupd_lookup. case_decide; [|done].
  destruct (trigger_mem T !! b); simpl; [by rewrite H|done].
Qed.

Lemma expire_scan_run v due rest : forall fuel T a,
  tseg (nexts T) a (a :: due ++ rest) NULL -> Forall (fun b => when_of T b = v) due ->
  match rest with [] => True | b :: _ => when_of T b <> v end -> (length due < fuel)%nat ->
  expire_scan fuel v a T = Some ((hd NULL rest, last_of a due), expire_all (a :: due) T).
Proof.
  induction due as [|b due IH]; intros fuel T a (_ & Ha & r & Hr & Htl) Hdue Hrest Hf;
    (destruct fuel as [|fuel]; [simpl in Hf; lia|]); cbn [expire_scan];
    apply nexts_inv in Hr as (t & Ht & <-);
    (erewrite bind_run by by apply get_trigger_run);
    (erewrite bind_run by by eapply upd_trigger_run);
    set (T1 := tupd a (set_tr_status OSEE_TRIGGER_EXPIRED) T);
    assert (Hnx : nexts T1 = nexts T) by by apply nexts_tupd_keep.
  - simpl in Htl. destruct rest as [|b rest]; simpl.
    + simpl in Htl. by rewrite decide_True, Htl by done.
    + destruct Htl as (-> & Hb & r & Hr & _). rewrite decide_False by done.
      apply nexts_inv in Hr as (tb & Htb & _).
      assert (Hw : when_of T1 b = when_of T b) by by apply tupd_when.
      unfold when_of in Hw, Hrest. rewrite Htb in Hw, Hrest.
      destruct (trigger_mem T1 !! b) as [tb1|] eqn:Htb1.
      * erewrite bind_run by by apply get_trigger_run. by zcase; [lia|].
      * unfold T1 in Htb1. rewrite tupd_lookup, Htb in Htb1. by case_decide.
  - pose proof Htl as (Hq & Hb & r & Hr & _). rewrite decide_False by congruence.
    inversion_clear Hdue as [|? ? Hbv Hdue']. apply nexts_inv in Hr as (tb & Htb & _).
    assert (Hw : when_of T1 b = when_of T b) by by apply tupd_when.
    destruct (trigger_mem T1 !! b) as [tb1|] eqn:Htb1.
    + rewrite Hq in *. erewrite bind_run by by apply get_trigger_run.
      assert (tr_when tb1 = v) as -> by (rewrite <- Hbv, <- Hw; unfold when_of; by rewrite Htb1).
      rewrite Z.eqb_refl, last_of_cons. rewrite (IH fuel T1 b).
      * done.
      * by rewrite Hnx.
      * eapply Forall_impl; [exact Hdue'|]. intros x <-. by apply tupd_when.
      * destruct rest as [|x rest]; [done|]. unfold T1. by rewrite tupd_when.
      * simpl in Hf. lia.
    + unfold T1 in Htb1. rewrite tupd_lookup, Htb in Htb1. by case_decide.
Qed.

(** The due triggers become a chain of their own. *)
Lemma pop_triggered_run T c cc v due rest :
  counter_mem T !! c = Some cc -> tseg (nexts T) (trigger_queue cc) (due ++ rest) NULL ->
  Forall (fun b => when_of T b = v) due ->
  match rest with [] => True | b :: _ => when_of T b <> v end ->
  exists T' q, pop_triggered c v T = Some (hd NULL due, T') /\
    counter_mem T' !! c = Some (set_trigger_queue q cc) /\
    tseg (nexts T') q rest NULL /\ tseg (nexts T') (hd NULL due) due NULL /\
    relinked c due (expire_all due T) T'.
Proof.
  intros Hc Hch Hdue Hrest. unfold pop_triggered. erewrite bind_run by by apply get_counter_run.
  destruct due as [|a due].
  - exists T, (trigger_queue cc). destruct rest as [|b rest].
    + simpl in Hch. rewrite decide_False by naive_solver. split_and!; try done. by destruct cc.
    + pose proof Hch as (Hq & Hb & r & Hr & _). rewrite decide_True by congruence. rewrite Hq.
      apply nexts_inv in Hr as (tb & Htb & _). erewrite bind_run by by apply get_trigger_run.
      unfold when_of in Hrest. rewrite Htb in Hrest. zcase; [lia|].
      split_and!; try done. { rewrite <- Hq. by destruct cc. } by rewrite Hq in Hch.
  - pose proof Hch as (Hq & Ha & r & Hr & _). rewrite decide_True by congruence. rewrite Hq in *.
    apply nexts_inv in Hr as (ta & Hta & _). erewrite bind_run by by apply get_trigger_run.
    inversion_clear Hdue as [|? ? Hav Hdue']. unfold when_of in Hav. rewrite Hta in Hav.
    zcase; [|lia]. erewrite bind_run by reflexivity.
    erewrite bind_run; [|apply (expire_scan_run v due rest); [exact Hch|done|done|]].
    2: { apply tseg_length in Hch. rewrite nexts_size in Hch. simpl in Hch.
         rewrite length_app in Hch. unfold queue_fuel. lia. }
    set (T1 := expire_all (a :: due) T).
    assert (Hnx : nexts T1 = nexts T) by apply expire_all_nexts.
    pose proof (tseg_nodup _ _ _ Hch) as Hnd.
    assert (exists x b, a :: due = x ++ [b] /\ last_of a due = b) as (x & b & Hx & ->).
    { destruct due as [|b due _] using rev_ind; [by exists [], a|].
      exists (a :: due), b. by rewrite last_of_snoc. }
    assert (Hb : b ∈ a :: due) by (rewrite Hx; apply elem_of_app; right; left).
    assert (exists tb, trigger_mem T1 !! b = Some tb) as [tb Htb].
    { rewrite <- Hnx in Hch. apply (tseg_trigger _ _ _ _ _ Hch).
      change (a :: due ++ rest) with ((a :: due) ++ rest). apply elem_of_app. by left. }
    erewrite bind_run by by eapply upd_trigger_run.
    assert (Hc1 : counter_mem (tupd b (set_tr_next NULL) T1) !! c = Some cc).
    { change (counter_mem (tupd b _ T1)) with (counter_mem T1). unfold T1.
      by destruct (expire_all_rest (a :: due) T) as [-> _]. }
    erewrite bind_run by by eapply upd_counter_run. eexists _, _. split; [done|].
    rewrite Hx in Hch, Hnd.
    apply NoDup_app in Hnd as (Hx' & Hdis & _). apply NoDup_app in Hx' as (_ & Hbx & _).
    assert (Hbx' : b ∉ x) by (intros Hin; apply (Hbx b Hin); left).
    assert (Hbr : b ∉ rest) by (apply Hdis, elem_of_app; right; left).
    apply tseg_app in Hch as (r' & Hd & Hrs).
    assert (r' = hd NULL rest) as ->.
    { destruct rest as [|y rest]; [done|]. by destruct Hrs as (-> & _). }
    split_and!.
    + by rewrite cupd_lookup, decide_True, Hc1.
    + rewrite nexts_cupd, (nexts_tupd_next _ _ tb), Hnx by done. by apply tseg_frame.
    + rewrite nexts_cupd, (nexts_tupd_next _ _ tb), Hnx by done. cbn [hd]. rewrite Hx.
      by eapply tseg_set_last.
    + eapply relinked_trans; [by apply relinked_next|apply relinked_queue].
Qed.
