(* ===== verification/Alarm.v ===== *)
(** * ERIKA: alarms

    The theorems about the alarms of [Counter], and the alarm and counter
    services of ee_oo_api_osek.c. [timers_ok] is the invariant: every queue is
    sorted by the distance from the value of its counter and holds exactly the
    active alarms, and no schedule table is started. *)

From Stdlib Require Import ZArith Lia.
From stdpp Require Import base tactics list option gmap sorting.
From S2P Require Import Prelude StateMonad Kernel Scheduler SchedPartitioned OsekApi Counter TriggerQueue.

(** ** Invariant *)
Record queue_ok (T : timers) (c : Z) (cc : OsEE_CounterDB) (l : list Z) : Prop := {
  qo_chain : tseg (nexts T) (trigger_queue cc) l NULL;
  qo_range : Forall (fun a => 0 <= when_of T a <= maxallowedvalue cc) l;
  qo_sorted : StronglySorted (by_dist (fun a => dist (maxallowedvalue cc) (tick_value cc) (when_of T a))) l;
  qo_mem a : a ∈ l <-> exists t, trigger_mem T !! a = Some t /\ tr_counter t = c /\
    tr_status t = OSEE_TRIGGER_ACTIVE
}.

Record alarm_link (T : timers) (a : Z) (t : OsEE_TriggerDB) (cc : OsEE_CounterDB) (al : OsEE_AlarmDB) : Prop := {
  ak_counter : counter_mem T !! tr_counter t = Some cc;
  ak_alarm : alarm_mem T !! tr_alarm t = Some al;
  ak_back : al_trigger al = a;
  ak_cycle : 0 <= cycle al <= maxallowedvalue cc
}.

(** The triggers of schedule tables, which have no alarm, are at rest: a table
    that has been started can put its trigger behind the maximum of the counter
    ([SchedTable.table_past_maximum_blocks]). *)
Record timers_ok (T : timers) : Prop := {
  tk_counter c cc : counter_mem T !! c = Some cc ->
    ticks_ok (maxallowedvalue cc) (tick_value cc) /\ exists l, queue_ok T c cc l;
  tk_trigger a t : trigger_mem T !! a = Some t ->
    a <> NULL /\
    if decide (tr_alarm t = NULL) then tr_status t = OSEE_TRIGGER_INACTIVE
    else exists cc al, alarm_link T a t cc al;
  tk_alarm p al : alarm_mem T !! p = Some al ->
    p <> NULL /\ exists t, trigger_mem T !! al_trigger al = Some t /\ tr_alarm t = p
}.

Lemma alarm_linked T a t :
  timers_ok T -> trigger_mem T !! a = Some t -> tr_alarm t <> NULL -> exists cc al, alarm_link T a t cc al.
Proof. intros HT Ht Ha. destruct (tk_trigger _ HT a t Ht) as [_ H]. by rewrite decide_False in H. Qed.

Lemma alarm_trigger T p al t :
  timers_ok T -> alarm_mem T !! p = Some al -> trigger_mem T !! al_trigger al = Some t -> tr_alarm t <> NULL.
Proof. intros HT Hp Ht. destruct (tk_alarm _ HT p al Hp) as (? & t' & ? & ?). congruence. Qed.

Lemma started_alarm T a t :
  timers_ok T -> trigger_mem T !! a = Some t -> tr_status t <> OSEE_TRIGGER_INACTIVE -> tr_alarm t <> NULL.
Proof. intros HT Ht Hs. destruct (tk_trigger _ HT a t Ht) as [_ H]. by case_decide. Qed.

(** What never changes. *)
Definition counter_const (c : OsEE_CounterDB) : OsEE_CounterDB :=
  set_trigger_queue 0 (set_tick_value 0 (set_prescaler 0 c)).
Definition trigger_const (t : OsEE_TriggerDB) : OsEE_TriggerDB :=
  set_tr_next 0 (set_tr_when 0 (set_tr_status OSEE_TRIGGER_INACTIVE t)).
Definition config (T : timers) :=
  (counter_const <$> counter_mem T, trigger_const <$> trigger_mem T, set_cycle 0 <$> alarm_mem T,
   (counter_ptrs T, alarm_ptrs T, st_ptrs T)).

(** An expired trigger whose action is not done yet. *)
Definition pending (t : OsEE_TriggerDB) : Prop :=
  tr_status t <> OSEE_TRIGGER_INACTIVE /\ tr_status t <> OSEE_TRIGGER_ACTIVE.

(** Triggers that are pending stay so and keep their links, those in [X]
    excepted. *)
Definition pend_frame (X : list Z) (T T' : timers) : Prop :=
  forall a t, a ∉ X -> trigger_mem T !! a = Some t -> pending t ->
    exists t', trigger_mem T' !! a = Some t' /\ pending t' /\ tr_next t' = tr_next t.

Record step (X : list Z) (T T' : timers) : Prop := {
  stp_ok : timers_ok T';
  stp_config : config T' = config T;
  stp_pend : pend_frame X T T'
}.

Lemma pend_frame_refl X T : pend_frame X T T.
Proof. intros a t _ Ht Hp. eauto. Qed.

Lemma pend_frame_trans X T1 T2 T3 : pend_frame X T1 T2 -> pend_frame X T2 T3 -> pend_frame X T1 T3.
Proof.
  intros H1 H2 a t Ha Ht Hp. destruct (H1 a t Ha Ht Hp) as (t2 & Ht2 & Hp2 & Hn2).
  destruct (H2 a t2 Ha Ht2 Hp2) as (t3 & ? & ? & ?). exists t3. split_and!; [done..|congruence].
Qed.

Lemma pend_frame_mono X Y T T' : (forall a, a ∈ X -> a ∈ Y) -> pend_frame X T T' -> pend_frame Y T T'.
Proof. intros HXY H a t Ha. apply H. naive_solver. Qed.

Lemma step_refl X T : timers_ok T -> step X T T.
Proof. intros. split; [done..|apply pend_frame_refl]. Qed.

Lemma step_trans X T1 T2 T3 : step X T1 T2 -> step X T2 T3 -> step X T1 T3.
Proof.
  intros H1 H2. split; [apply H2| |by eapply pend_frame_trans; [apply H1|apply H2]].
  by rewrite (stp_config _ _ _ H2), (stp_config _ _ _ H1).
Qed.

Lemma step_mono X Y T T' : (forall a, a ∈ X -> a ∈ Y) -> step X T T' -> step Y T T'.
Proof. intros HXY [? ? ?]. split; [done..|by eapply pend_frame_mono]. Qed.

(** *** The configuration *)
Section Config.
Context (T T' : timers) (H : config T' = config T).

Lemma config_counter c cc :
  counter_mem T !! c = Some cc -> exists cc', counter_mem T' !! c = Some cc' /\
    maxallowedvalue cc' = maxallowedvalue cc /\ counter_const cc' = counter_const cc.
Proof.
  intros Hc. injection H as Hcc _ _ _ _ _. apply (f_equal (.!! c)) in Hcc.
  rewrite !lookup_fmap, Hc in Hcc. destruct (counter_mem T' !! c) as [cc'|]; [|done].
  exists cc'. injection Hcc as Hcc. unfold counter_const.
  split; [done|]. split; [done|]. by destruct cc, cc'; simpl in *; simplify_eq.
Qed.

Lemma config_trigger a t :
  trigger_mem T !! a = Some t -> exists t', trigger_mem T' !! a = Some t' /\
    tr_counter t' = tr_counter t /\ tr_alarm t' = tr_alarm t /\ tr_st t' = tr_st t.
Proof.
  intros Ht. injection H as _ Htt _ _ _ _. apply (f_equal (.!! a)) in Htt.
  rewrite !lookup_fmap, Ht in Htt. destruct (trigger_mem T' !! a) as [t'|]; [|done].
  exists t'. injection Htt. intros. split_and!; congruence.
Qed.

Lemma config_alarm p al :
  alarm_mem T !! p = Some al -> exists al', alarm_mem T' !! p = Some al' /\
    al_trigger al' = al_trigger al /\ al_action al' = al_action al.
Proof.
  intros Hp. injection H as _ _ Haa _ _ _. apply (f_equal (.!! p)) in Haa.
  rewrite !lookup_fmap, Hp in Haa. destruct (alarm_mem T' !! p) as [al'|]; [|done].
  exists al'. injection Haa. intros. split_and!; congruence.
Qed.

End Config.

(** *** Operations that change one counter and its triggers *)
Lemma queue_ok_frame T T' c cc l :
  queue_ok T c cc l ->
  (forall a t, trigger_mem T !! a = Some t -> tr_counter t = c -> trigger_mem T' !! a = Some t) ->
  (forall a t, trigger_mem T' !! a = Some t -> tr_counter t = c -> trigger_mem T !! a = Some t) ->
  queue_ok T' c cc l.
Proof.
  intros [Hch Hr Hs Hm] Hto Hfrom.
  assert (Hin : forall a, a ∈ l -> trigger_mem T' !! a = trigger_mem T !! a).
  { intros a (t & Ht & Hc & _)%Hm. by rewrite Ht, (Hto a t). }
  assert (Hw : forall a, a ∈ l -> when_of T' a = when_of T a).
  { intros a Ha. unfold when_of. by rewrite Hin. }
  split.
  - eapply tseg_agree; [|exact Hch]. intros a Ha. unfold nexts. by rewrite !lookup_fmap, Hin.
  - rewrite Forall_forall in Hr |- *. intros a Ha. rewrite Hw by done. by apply Hr.
  - clear Hch Hr Hm Hin. induction Hs as [|a l Hs IH Ha]; [constructor|]. constructor.
    + apply IH. intros b Hb. apply Hw. by right.
    + rewrite Forall_forall in Ha |- *. intros b Hb. unfold by_dist.
      rewrite (Hw a), (Hw b) by (by left || by right). by apply Ha.
  - intros a. rewrite Hm. split; intros (t & Ht & Hc & Hst); eauto.
Qed.

(** All but counter [c] and its triggers is the same. *)
Record local (c : Z) (T T' : timers) : Prop := {
  lo_config : config T' = config T;
  lo_counter c' : c' <> c -> counter_mem T' !! c' = counter_mem T !! c';
  lo_trigger a t : trigger_mem T !! a = Some t -> tr_counter t <> c -> trigger_mem T' !! a = Some t;
  lo_alarm : alarm_mem T' = alarm_mem T;
  lo_table a t : trigger_mem T !! a = Some t -> tr_alarm t = NULL -> tr_status t = OSEE_TRIGGER_INACTIVE ->
    tr_status <$> trigger_mem T' !! a = Some OSEE_TRIGGER_INACTIVE
}.

Lemma timers_ok_local c T T' cc' l' :
  timers_ok T -> local c T T' -> counter_mem T' !! c = Some cc' ->
  ticks_ok (maxallowedvalue cc') (tick_value cc') -> queue_ok T' c cc' l' -> timers_ok T'.
Proof.
  intros HT [Hcf Hct Htr Hal Hta] Hc' Htk Hq. pose proof (eq_sym Hcf) as Hcf'. split.
  - intros c1 cc1 Hc1. destruct (decide (c1 = c)) as [->|Hne]; [simplify_eq; eauto|].
    rewrite Hct in Hc1 by done. destruct (tk_counter _ HT _ _ Hc1) as (Htk1 & l1 & Hq1).
    split; [done|]. exists l1. apply (queue_ok_frame T); [done| |].
    + intros a t Ht <-. by apply Htr.
    + intros a t Ht Ha. destruct (config_trigger _ _ Hcf' a t Ht) as (t1 & Ht1 & Hct1 & _).
      rewrite (Htr a t1) in Ht; [by simplify_eq|done|congruence].
  - intros a t' Ht'. destruct (config_trigger _ _ Hcf' a t' Ht') as (t & Ht & Hct' & Hat & _).
    destruct (tk_trigger _ HT a t Ht) as (? & Hk). rewrite Hat in Hk. split; [done|].
    case_decide as Hnull.
    { specialize (Hta a t Ht ltac:(congruence) Hk). rewrite Ht' in Hta. by injection Hta. }
    destruct Hk as (cc & al & [Hl1 Hl2 Hl3 Hl4]).
    destruct (config_counter _ _ Hcf _ _ Hl1) as (cc1 & Hcc1 & Hmx & _).
    exists cc1, al. split; [congruence| |done|congruence]. by rewrite Hal, <- Hat.
  - intros p al Hp. rewrite Hal in Hp. destruct (tk_alarm _ HT p al Hp) as (? & t & Ht & Hpt). split; [done|].
    destruct (config_trigger _ _ Hcf _ _ Ht) as (t' & Ht' & _ & ? & _). exists t'. split; [done|congruence].
Qed.

Lemma config_ext T T' :
  (forall c, counter_const <$> counter_mem T' !! c = counter_const <$> counter_mem T !! c) ->
  (forall a, trigger_const <$> trigger_mem T' !! a = trigger_const <$> trigger_mem T !! a) ->
  (forall p, set_cycle 0 <$> alarm_mem T' !! p = set_cycle 0 <$> alarm_mem T !! p) ->
  counter_ptrs T' = counter_ptrs T /\ alarm_ptrs T' = alarm_ptrs T /\ st_ptrs T' = st_ptrs T ->
  config T' = config T.
Proof.
  intros Hc Ht Ha (H1 & H2 & H3). unfold config. rewrite H1, H2, H3.
  assert (counter_const <$> counter_mem T' = counter_const <$> counter_mem T) as ->
    by (apply map_eq; intros i; by rewrite !lookup_fmap).
  assert (trigger_const <$> trigger_mem T' = trigger_const <$> trigger_mem T) as ->
    by (apply map_eq; intros i; by rewrite !lookup_fmap).
  by assert (set_cycle 0 <$> alarm_mem T' = set_cycle 0 <$> alarm_mem T) as ->
    by (apply map_eq; intros i; by rewrite !lookup_fmap).
Qed.

Lemma config_relinked c l T T' : relinked c l T T' -> config T' = config T.
Proof.
  intros H. apply config_ext.
  - intros c'. destruct (decide (c' = c)) as [->|Hne]; [|by rewrite (rl_ctr _ _ _ _ H)].
    pose proof (rl_cc _ _ _ _ H) as Hc.
    destruct (counter_mem T !! c) as [cc|], (counter_mem T' !! c) as [cc'|]; try done.
    simpl in *. injection Hc. unfold counter_const, set_trigger_queue. intros. simpl in *. congruence.
  - intros a. pose proof (rl_core _ _ _ _ H a) as Ha.
    destruct (trigger_mem T !! a) as [t|], (trigger_mem T' !! a) as [t'|]; try done.
    simpl in *. injection Ha. unfold trigger_const, set_tr_next. intros. simpl in *. congruence.
  - intros p. by rewrite (rl_alarm _ _ _ _ H).
  - apply H.
Qed.

Lemma config_tupd a f T :
  (forall t, trigger_const (f t) = trigger_const t) -> config (tupd a f T) = config T.
Proof.
  intros Hf. apply config_ext; try done. intros b. rewrite tupd_lookup. case_decide; [|done].
  destruct (trigger_mem T !! b); simpl; [by rewrite Hf|done].
Qed.

Lemma config_cupd c f T :
  (forall cc, counter_const (f cc) = counter_const cc) -> config (cupd c f T) = config T.
Proof.
  intros Hf. apply config_ext; try done. intros b. rewrite cupd_lookup. case_decide; [|done].
  destruct (counter_mem T !! b); simpl; [by rewrite Hf|done].
Qed.

Lemma local_refl c T : local c T T.
Proof. split; try done. by intros a t -> _ <-. Qed.

Lemma local_trans c T1 T2 T3 : local c T1 T2 -> local c T2 T3 -> local c T1 T3.
Proof.
  intros [A1 B1 C1 D1 E1] [A2 B2 C2 D2 E2]. split; [congruence| | |congruence|].
  - intros. by rewrite B2, B1.
  - intros. auto.
  - intros a t Ht Ha Hs. specialize (E1 a t Ht Ha Hs). destruct (config_trigger _ _ A1 a t Ht) as (t2 & Ht2 & _ & Ha2 & _).
    rewrite Ht2 in E1. injection E1 as E1. apply (E2 a t2); [done|congruence|done].
Qed.

Lemma local_tupd a f T t :
  (forall t, trigger_const (f t) = trigger_const t) -> trigger_mem T !! a = Some t -> tr_alarm t <> NULL ->
  local (tr_counter t) T (tupd a f T).
Proof.
  intros Hf Ht Ha. split; [by apply config_tupd|done| |done|].
  - intros b tb Hb Hne. rewrite tupd_lookup. case_decide; [|done]. subst. simplify_eq.
  - intros b tb Hb Hn Hs. rewrite tupd_lookup. case_decide; [subst; simplify_eq|]. by rewrite Hb; simpl; rewrite Hs.
Qed.

Lemma local_cupd c f T : (forall cc, counter_const (f cc) = counter_const cc) -> local c T (cupd c f T).
Proof.
  intros Hf. split; [by apply config_cupd| |done|done|intros a t Ht _ Hs; simpl; rewrite Ht; simpl; by rewrite Hs].
  intros c' Hne. rewrite cupd_lookup. by case_decide.
Qed.

Lemma local_relinked c l T T' :
  relinked c l T T' -> (forall a t, a ∈ l -> trigger_mem T !! a = Some t -> tr_counter t = c) ->
  local c T T'.
Proof.
  intros H Hl. split; [by eapply config_relinked|apply H| |apply H|].
  - intros a t Ht Hne. rewrite (rl_trig _ _ _ _ H); [done|]. intros Ha. by apply Hne, (Hl a).
  - intros a t Ht _ Hs. pose proof (rl_core _ _ _ _ H a) as Hc. rewrite Ht in Hc.
    destruct (trigger_mem T' !! a) as [t'|]; [|done]. injection Hc. intros. simpl. congruence.
Qed.

(** ** The queue operations keep the invariant *)

(** The queue as a list of triggers with their distances. *)
Definition ent (T : timers) (cc : OsEE_CounterDB) (l : list Z) : list (Z * Z) :=
  (fun a => (a, dist (maxallowedvalue cc) (tick_value cc) (when_of T a))) <$> l.
Definition entries (T : timers) (c : Z) (es : list (Z * Z)) : Prop :=
  exists cc l, counter_mem T !! c = Some cc /\ queue_ok T c cc l /\ es = ent T cc l.

Fixpoint ent_insert (e : Z * Z) (es : list (Z * Z)) : list (Z * Z) :=
  match es with
  | [] => [e]
  | y :: es' => if decide (y.2 <= e.2) then y :: ent_insert e es' else e :: es
  end.

Lemma ent_dist_insert T cc a l :
  ent T cc (dist_insert (fun b => dist (maxallowedvalue cc) (tick_value cc) (when_of T b)) a l) =
  ent_insert (a, dist (maxallowedvalue cc) (tick_value cc) (when_of T a)) (ent T cc l).
Proof. induction l as [|b l IH]; [done|]. simpl. case_decide; [|done]. simpl. by rewrite IH. Qed.

Lemma entries_fun T c es1 es2 : entries T c es1 -> entries T c es2 -> es1 = es2.
Proof.
  intros (cc & l1 & Hc & H1 & ->) (cc' & l2 & Hc' & H2 & ->). simplify_eq.
  by rewrite (tseg_fun _ _ _ _ (qo_chain _ _ _ _ H1) (qo_chain _ _ _ _ H2)).
Qed.

Lemma ent_ext T T' cc cc' l :
  maxallowedvalue cc' = maxallowedvalue cc -> tick_value cc' = tick_value cc ->
  (forall a, a ∈ l -> when_of T' a = when_of T a) -> ent T' cc' l = ent T cc l.
Proof.
  intros Hm Hv Hw. unfold ent. rewrite Hm, Hv. apply list_fmap_ext. intros i a Ha.
  rewrite Hw; [done|]. by eapply list_elem_of_lookup_2.
Qed.

Lemma queue_counter T c cc l a t :
  queue_ok T c cc l -> a ∈ l -> trigger_mem T !! a = Some t -> tr_counter t = c.
Proof. intros H (t' & Ht & Hc & _)%(qo_mem _ _ _ _ H) Ht'. by simplify_eq. Qed.

Lemma queue_not_pending T c cc l a t :
  queue_ok T c cc l -> trigger_mem T !! a = Some t -> tr_status t <> OSEE_TRIGGER_ACTIVE -> a ∉ l.
Proof. intros H Ht Hs (t' & Ht' & _ & Hs')%(qo_mem _ _ _ _ H). by simplify_eq. Qed.

(** A sorted list stays so when the keys agree. *)
Lemma sorted_ext (f g : Z -> Z) l :
  (forall a, a ∈ l -> f a = g a) -> StronglySorted (by_dist f) l -> StronglySorted (by_dist g) l.
Proof.
  intros Hfg. induction 1 as [|a l Hs IH Ha]; [constructor|]. constructor.
  - apply IH. intros b Hb. apply Hfg. by right.
  - rewrite Forall_forall in Ha |- *. intros b Hb. unfold by_dist.
    rewrite <- (Hfg a), <- (Hfg b) by (by left || by right). by apply Ha.
Qed.

Lemma relinked_status c l T T' a t :
  relinked c l T T' -> trigger_mem T' !! a = Some t -> exists t0, trigger_mem T !! a = Some t0 /\
    tr_status t = tr_status t0 /\ tr_counter t = tr_counter t0.
Proof.
  intros H Ht. pose proof (rl_core _ _ _ _ H a) as Ha. rewrite Ht in Ha.
  destruct (trigger_mem T !! a) as [t0|]; [|done]. exists t0. injection Ha. intros. split; done.
Qed.

(** Triggers that are not active, [a] excepted, are the same. *)
Definition idle_frame (a : Z) (T T' : timers) : Prop :=
  forall b t, b <> a -> trigger_mem T !! b = Some t -> tr_status t <> OSEE_TRIGGER_ACTIVE ->
    trigger_mem T' !! b = Some t.

Lemma idle_pend_frame a T T' : idle_frame a T T' -> pend_frame [a] T T'.
Proof.
  intros H b t Hb Ht Hp. apply not_elem_of_cons in Hb as [Hb _]. exists t.
  split; [|done]. apply H; [done|done|apply Hp].
Qed.

Lemma activate_run T c cc l a t w :
  let f := fun t => set_tr_when w (set_tr_status OSEE_TRIGGER_ACTIVE t) in
  timers_ok T -> counter_mem T !! c = Some cc -> queue_ok T c cc l ->
  trigger_mem T !! a = Some t -> tr_alarm t <> NULL -> tr_counter t = c -> tr_status t <> OSEE_TRIGGER_ACTIVE ->
  0 <= w <= maxallowedvalue cc ->
  exists T' q, osEE_counter_insert_abs_trigger c a w (tupd a (set_tr_status OSEE_TRIGGER_ACTIVE) T) =
      Some (tt, T') /\
    timers_ok T' /\ local c T T' /\ idle_frame a T T' /\
    counter_mem T' !! c = Some (set_trigger_queue q cc) /\
    queue_ok T' c (set_trigger_queue q cc) (dist_insert
      (fun b => dist (maxallowedvalue cc) (tick_value cc) (when_of T' b)) a l) /\
    (forall b, when_of T' b = if decide (b = a) then w else when_of T b).
Proof.
  intros f HT Hc Hq Ht Hta Hct Hst Hw. destruct (tk_counter _ HT c cc Hc) as [Htk _].
  destruct (tk_trigger _ HT a t Ht) as [Ha0 _].
  pose proof (queue_not_pending _ _ _ _ _ _ Hq Ht Hst) as Hal. set (T1 := tupd a _ T).
  assert (Hw1 : forall b, when_of T1 b = when_of T b) by (intros; by apply tupd_when).
  assert (Ht1 : trigger_mem T1 !! a = Some (set_tr_status OSEE_TRIGGER_ACTIVE t)).
  { unfold T1. by rewrite tupd_lookup, decide_True, Ht. }
  destruct (insert_abs_run T1 c cc l a (set_tr_status OSEE_TRIGGER_ACTIVE t) w)
    as (T' & q & Hrun & Hq' & Hch & Hrl); try done.
  { unfold T1. rewrite nexts_tupd_keep by done. apply Hq. }
  { eapply Forall_impl; [apply Hq|]. intros b. by rewrite Hw1. }
  set (T2 := tupd a (set_tr_when w) T1) in *.
  assert (Hwa : forall b, when_of T' b = if decide (b = a) then w else when_of T b).
  { intros b. rewrite (relinked_when _ _ _ _ _ Hrl). unfold T2. case_decide as He.
    - subst b. unfold when_of. by rewrite tupd_lookup, decide_True, Ht1.
    - rewrite <- Hw1. unfold when_of. rewrite tupd_lookup. by case_decide; [subst|]. }
  assert (Hk : forall b, when_of T2 b = when_of T' b).
  { intros b. by rewrite (relinked_when _ _ _ _ _ Hrl). }
  assert (Hloc : local c T T').
  { rewrite <- Hct. eapply local_trans; [by apply (local_tupd a (set_tr_status OSEE_TRIGGER_ACTIVE) T t)|].
    eapply local_trans; [by apply (local_tupd a (set_tr_when w) _ (set_tr_status OSEE_TRIGGER_ACTIVE t))|].
    simpl. rewrite Hct. eapply local_relinked; [exact Hrl|].
    intros b tb Hb Htb. unfold T2, T1 in Htb. rewrite !tupd_lookup in Htb.
    apply elem_of_cons in Hb as [->|Hb].
    - rewrite !decide_True, Ht in Htb by done. by simplify_eq/=.
    - rewrite !decide_False in Htb by congruence. by eapply queue_counter. }
  rewrite (dist_insert_ext _ (fun b => dist (maxallowedvalue cc) (tick_value cc) (when_of T' b)))
    in Hch by (intros; by rewrite Hk).
  assert (HqT' : queue_ok T' c (set_trigger_queue q cc) (dist_insert
    (fun b => dist (maxallowedvalue cc) (tick_value cc) (when_of T' b)) a l)).
  { split; [done| | |].
    - rewrite dist_insert_perm. constructor; [by rewrite Hwa, decide_True|].
      eapply Forall_impl; [apply Hq|]. intros b Hb. rewrite Hwa. by case_decide.
    - apply dist_insert_sorted. eapply sorted_ext; [|apply Hq]. intros b Hb. simpl.
      rewrite Hwa, decide_False by congruence. done.
    - intros b. rewrite dist_insert_perm, elem_of_cons. split.
      + intros [->|Hb].
        * destruct (relinked_lookup _ _ _ _ a (f t) Hrl) as [n Hn]; [|by eexists].
          unfold T2. by rewrite tupd_lookup, decide_True, Ht1.
        * pose proof Hb as (tb & Htb & Hcb & Hsb)%(qo_mem _ _ _ _ Hq).
          destruct (relinked_lookup _ _ _ _ b tb Hrl) as [n Hn]; [|by eexists].
          unfold T2, T1. rewrite !tupd_lookup. by rewrite !decide_False by congruence.
      + intros (tb & Htb & Hcb & Hsb).
        destruct (relinked_status _ _ _ _ _ _ Hrl Htb) as (t0 & Ht0 & Hs0 & Hc0).
        destruct (decide (b = a)) as [->|Hne]; [by left|right].
        unfold T2, T1 in Ht0. rewrite !tupd_lookup, !decide_False in Ht0 by congruence.
        apply (qo_mem _ _ _ _ Hq). exists t0. split; [done|]. split; congruence. }
  exists T', q. split_and!; try done.
  - eapply timers_ok_local; [done|done|done|done|done].
  - intros b tb Hb Htb Hp. assert (b ∉ l) by by eapply queue_not_pending.
    rewrite (rl_trig _ _ _ _ Hrl) by by apply not_elem_of_cons.
    unfold T2, T1. by rewrite !tupd_lookup, !decide_False by congruence.
Qed.

(** A trigger that is not active may change, but for its link. *)
Lemma queue_ok_inactive T a f t c cc l :
  queue_ok T c cc l -> trigger_mem T !! a = Some t -> tr_status t <> OSEE_TRIGGER_ACTIVE ->
  (forall t, tr_next (f t) = tr_next t) -> tr_status (f t) <> OSEE_TRIGGER_ACTIVE ->
  queue_ok (tupd a f T) c cc l.
Proof.
  intros Hq Ht Hs Hn Hs'. pose proof (queue_not_pending _ _ _ _ _ _ Hq Ht Hs) as Hal.
  assert (Hw : forall b, b ∈ l -> when_of (tupd a f T) b = when_of T b).
  { intros b Hb. unfold when_of. rewrite tupd_lookup. by case_decide; [congruence|]. }
  split.
  - rewrite nexts_tupd_keep by done. apply Hq.
  - pose proof (qo_range _ _ _ _ Hq) as Hr. rewrite Forall_forall in Hr |- *.
    intros b Hb. rewrite Hw by done. by apply Hr.
  - eapply sorted_ext; [|apply Hq]. intros b Hb. simpl. by rewrite Hw.
  - intros b. rewrite (qo_mem _ _ _ _ Hq), tupd_lookup. case_decide as He; [|done]. subst b.
    rewrite Ht. split; intros (t' & [= <-] & ? & ?); congruence.
Qed.

Lemma timers_ok_inactive T a f t :
  timers_ok T -> trigger_mem T !! a = Some t -> tr_alarm t <> NULL -> tr_status t <> OSEE_TRIGGER_ACTIVE ->
  (forall t, trigger_const (f t) = trigger_const t /\ tr_next (f t) = tr_next t) ->
  tr_status (f t) <> OSEE_TRIGGER_ACTIVE -> timers_ok (tupd a f T).
Proof.
  intros HT Ht Ha Hs Hf Hs'. destruct (alarm_linked _ a t HT Ht Ha) as (cc & al & [Hc _ _ _]).
  destruct (tk_counter _ HT _ _ Hc) as (Htk & l & Hq).
  apply (timers_ok_local (tr_counter t) T _ cc l); try done.
  - apply local_tupd; [|done|done]. intros t'. apply Hf.
  - eapply queue_ok_inactive; [done|done|done| |done]. intros t'. apply Hf.
Qed.

Lemma queue_ok_aupd T p f c cc l : queue_ok T c cc l -> queue_ok (aupd p f T) c cc l.
Proof. by intros [? ? ? ?]. Qed.

Lemma aupd_lookup p q f T : alarm_mem (aupd p f T) !! q =
  if decide (p = q) then f <$> alarm_mem T !! q else alarm_mem T !! q.
Proof.
  unfold aupd. simpl. case_decide as H; [subst; apply lookup_alter_eq|by apply lookup_alter_ne].
Qed.

Lemma config_aupd p cyc T : config (aupd p (set_cycle cyc) T) = config T.
Proof.
  apply config_ext; try done. intros q. rewrite aupd_lookup. case_decide; [|done].
  by destruct (alarm_mem T !! q).
Qed.

Lemma timers_ok_aupd T p al t cc cyc :
  timers_ok T -> alarm_mem T !! p = Some al -> trigger_mem T !! al_trigger al = Some t ->
  counter_mem T !! tr_counter t = Some cc -> 0 <= cyc <= maxallowedvalue cc ->
  timers_ok (aupd p (set_cycle cyc) T).
Proof.
  intros HT Hp Ht Hc Hcyc. split.
  - intros c1 cc1 Hc1. destruct (tk_counter _ HT _ _ Hc1) as (? & l & Hq). split; [done|].
    exists l. by apply queue_ok_aupd.
  - intros a t' Ht'. destruct (tk_trigger _ HT a t' Ht') as (? & Hk).
    split; [done|]. case_decide; [done|]. destruct Hk as (cc' & al' & [Hl1 Hl2 Hl3 Hl4]). destruct (decide (tr_alarm t' = p)) as [He|Hne].
    + rewrite He in Hl2. simplify_eq. exists cc', (set_cycle cyc al). split; try done.
      * rewrite aupd_lookup, decide_True by done. by rewrite Hp.
      * simpl in *. simplify_eq. done.
    + exists cc', al'. split; try done. by rewrite aupd_lookup, decide_False by done.
  - intros q al' Hq. rewrite aupd_lookup in Hq. case_decide as He; [|by apply (tk_alarm _ HT)].
    subst q. rewrite Hp in Hq. injection Hq as <-. by apply (tk_alarm _ HT p al).
Qed.

(** ** The increment *)

(** The pure effect of the prescaler and the tick. *)
Lemma prescaler_same T c cc : counter_mem T !! c = Some cc -> cupd c (set_prescaler (prescaler cc)) T = T.
Proof.
  intros Hc. destruct T as [cm ? ? ? ? ? ?]. unfold cupd, set_counter_mem. simpl in *. f_equal. apply map_eq. intros i.
  destruct (decide (c = i)) as [<-|]; [|by rewrite lookup_alter_ne].
  rewrite lookup_alter_eq, Hc. by destruct cc.
Qed.

Lemma prescale_run T c cc :
  counter_mem T !! c = Some cc ->
  exists b p, prescale c T = Some (b, cupd c (set_prescaler p) T).
Proof.
  intros Hc. unfold prescale. erewrite bind_run by by apply get_counter_run.
  zcase; [zcase|].
  - erewrite bind_run by by eapply upd_counter_run. by exists true, 0.
  - erewrite bind_run by by eapply upd_counter_run. by eexists false, _.
  - exists true, (prescaler cc). by rewrite prescaler_same.
Qed.

(** The increments that make a tick, and those since the last one. *)
Definition base (cc : OsEE_CounterDB) : Z := 1 `max` ticksperbase cc.
Definition phase (cc : OsEE_CounterDB) : Z := if ticksperbase cc >? 1 then prescaler cc else 0.
Definition prescaler_ok (cc : OsEE_CounterDB) : Prop := 0 <= phase cc < base cc /\ base cc < 2 ^ 64.
(** The next increment is a tick. *)
Definition is_tick (cc : OsEE_CounterDB) : bool := base cc <=? phase cc + 1.

Lemma prescale_phase T c cc :
  counter_mem T !! c = Some cc -> prescaler_ok cc ->
  exists p, prescale c T = Some (is_tick cc, cupd c (set_prescaler p) T) /\
    phase (set_prescaler p cc) = if is_tick cc then 0 else phase cc + 1.
Proof.
  intros Hc [Hp Hb]. unfold prescale, is_tick, phase, base in *. cbn [set_prescaler ticksperbase prescaler].
  erewrite bind_run by by apply get_counter_run.
  destruct (Z.gtb_spec (ticksperbase cc) 1).
  - rewrite u64_small by lia. rewrite Z.max_r in * by lia. rewrite Z.geb_leb.
    destruct (Z.leb_spec (ticksperbase cc) (prescaler cc + 1)).
    + exists 0. by erewrite bind_run by by eapply upd_counter_run.
    + exists (prescaler cc + 1). by erewrite bind_run by by eapply upd_counter_run.
  - rewrite Z.max_l by lia. exists (prescaler cc). split; [|done]. cbn. f_equal. f_equal.
    by rewrite prescaler_same.
Qed.

Definition ticked (cc : OsEE_CounterDB) : OsEE_CounterDB :=
  set_tick_value (next_tick (maxallowedvalue cc) (tick_value cc)) cc.

Lemma advance_run T c cc :
  counter_mem T !! c = Some cc ->
  advance c T = Some (next_tick (maxallowedvalue cc) (tick_value cc),
    cupd c (set_tick_value (next_tick (maxallowedvalue cc) (tick_value cc))) T).
Proof.
  intros Hc. unfold advance. erewrite bind_run by by apply get_counter_run.
  erewrite bind_run by by eapply upd_counter_run. done.
Qed.

Lemma queue_ok_prescaler T c cc l p :
  queue_ok T c cc l -> queue_ok (cupd c (set_prescaler p) T) c (set_prescaler p cc) l.
Proof. by intros [? ? ? ?]. Qed.

Lemma timers_ok_prescaler T c cc p :
  timers_ok T -> counter_mem T !! c = Some cc -> timers_ok (cupd c (set_prescaler p) T).
Proof.
  intros HT Hc. destruct (tk_counter _ HT _ _ Hc) as (Htk & l & Hq).
  eapply (timers_ok_local c); [done|by apply local_cupd| | |by apply queue_ok_prescaler].
  - by rewrite cupd_lookup, decide_True, Hc.
  - done.
Qed.

(** The due triggers are a prefix of the queue. *)
Lemma due_split T c cc l :
  queue_ok T c cc l -> ticks_ok (maxallowedvalue cc) (tick_value cc) ->
  let v := next_tick (maxallowedvalue cc) (tick_value cc) in
  exists due rest, l = due ++ rest /\ Forall (fun a => when_of T a = v) due /\
    Forall (fun a => when_of T a <> v) rest.
Proof.
  intros [_ Hr Hs _] Htk v. induction l as [|a l IH]; [by exists [], []|].
  inversion_clear Hr as [|? ? Ha Hr']. inversion_clear Hs as [|? ? Hs' Hal].
  destruct (IH Hr' Hs') as (due & rest & -> & H1 & H2).
  destruct (decide (when_of T a = v)) as [Hv|Hv].
  - exists (a :: due), rest. split_and!; [done|by constructor|done].
  - exists [], (a :: due ++ rest). split_and!; [done|done|]. constructor; [done|].
    rewrite Forall_forall in Hal, Hr' |- *. intros b Hb Hbv. pose proof (Hal b Hb) as Hd.
    unfold by_dist in Hd. pose proof (dist_next _ _ _ Htk Ha) as Hda.
    pose proof (dist_next _ _ _ Htk (Hr' b Hb)) as Hdb.
    fold v in Hda, Hdb. rewrite decide_False in Hda by done. rewrite decide_True in Hdb by done.
    pose proof (dist_bounds (maxallowedvalue cc) v (when_of T a)
      (proj1 (next_tick_range _ _ Htk)) Ha). lia.
Qed.

Lemma sorted_shift (f g : Z -> Z) l :
  (forall a, a ∈ l -> g a = f a - 1) -> StronglySorted (by_dist f) l -> StronglySorted (by_dist g) l.
Proof.
  intros Hfg Hs. apply (sorted_ext (fun a => f a - 1)); [intros; by rewrite Hfg|].
  induction Hs as [|a l Hs IH Ha]; constructor.
  - apply IH. intros b Hb. apply Hfg. by right.
  - eapply Forall_impl; [exact Ha|]. unfold by_dist. intros. lia.
Qed.

Definition is_expired (T : timers) (c a : Z) : Prop :=
  exists t, trigger_mem T !! a = Some t /\ tr_status t = OSEE_TRIGGER_EXPIRED /\ tr_counter t = c.

Lemma local_expire_all c due : forall T,
  (forall a, a ∈ due -> exists t, trigger_mem T !! a = Some t /\ tr_counter t = c /\ tr_alarm t <> NULL) ->
  local c T (expire_all due T).
Proof.
  induction due as [|a due IH]; intros T H; [apply local_refl|].
  destruct (H a) as (t & Ht & Hc & Ha); [left|]. cbn [expire_all]. eapply local_trans; [|apply IH].
  - rewrite <- Hc. by eapply local_tupd.
  - intros b Hb. destruct (H b) as (tb & Htb & Hcb & Hab); [by right|]. rewrite tupd_lookup, Htb.
    case_decide; eexists; split; done.
Qed.

Lemma expire_all_when due : forall T b, when_of (expire_all due T) b = when_of T b.
Proof. induction due as [|a due IH]; intros T b; [done|]. simpl. rewrite IH. by apply tupd_when. Qed.

(** A tick takes the due triggers off the queue and marks them. *)
Lemma tick_pop_run T c cc l :
  timers_ok T -> counter_mem T !! c = Some cc -> queue_ok T c cc l ->
  let v := next_tick (maxallowedvalue cc) (tick_value cc) in
  exists due rest T' q, l = due ++ rest /\
    Forall (fun a => when_of T a = v) due /\ Forall (fun a => when_of T a <> v) rest /\
    pop_triggered c v (cupd c (set_tick_value v) T) = Some (hd NULL due, T') /\
    step [] T T' /\ local c T T' /\ counter_mem T' !! c = Some (set_trigger_queue q (ticked cc)) /\
    queue_ok T' c (set_trigger_queue q (ticked cc)) rest /\
    tseg (nexts T') (hd NULL due) due NULL /\ Forall (is_expired T' c) due /\
    (forall b, when_of T' b = when_of T b).
Proof.
  intros HT Hc Hq v. destruct (tk_counter _ HT c cc Hc) as [Htk _].
  destruct (due_split _ _ _ _ Hq Htk) as (due & rest & -> & Hdue & Hrest). fold v in Hdue, Hrest.
  set (T1 := cupd c (set_tick_value v) T).
  assert (Hc1 : counter_mem T1 !! c = Some (ticked cc)).
  { unfold T1. by rewrite cupd_lookup, decide_True, Hc. }
  destruct (pop_triggered_run T1 c (ticked cc) v due rest) as (T' & q & Hrun & Hc' & Hch & Hd & Hrl);
    try done.
  { apply Hq. }
  { destruct rest; [done|]. by inversion_clear Hrest. }
  exists due, rest, T', q.
  assert (Hw : forall b, when_of T' b = when_of T b).
  { intros b. by rewrite (relinked_when _ _ _ _ _ Hrl), expire_all_when. }
  assert (Hin : forall a, a ∈ due -> exists t, trigger_mem T !! a = Some t /\ tr_counter t = c /\ tr_alarm t <> NULL).
  { intros a Ha. destruct (proj1 (qo_mem _ _ _ _ Hq a)) as (t & Ht & ? & Hs); [apply elem_of_app; by left|].
    exists t. split_and!; [done|done|]. eapply started_alarm; [done|done|by rewrite Hs]. }
  assert (Hloc : local c T T').
  { eapply local_trans; [by apply (local_cupd c (set_tick_value v))|].
    eapply local_trans; [by apply local_expire_all|]. eapply local_relinked; [exact Hrl|].
    intros a t Ha Ht. rewrite expire_all_lookup, decide_True in Ht by done.
    destruct (Hin a Ha) as (t0 & Ht0 & Hc0 & _). simpl in Ht.
    rewrite Ht0 in Ht. by injection Ht as <-. }
  pose proof (tseg_nodup _ _ _ (qo_chain _ _ _ _ Hq)) as Hnd.
  apply NoDup_app in Hnd as (_ & Hdis & _).
  assert (HqT' : queue_ok T' c (set_trigger_queue q (ticked cc)) rest).
  { pose proof (qo_range _ _ _ _ Hq) as Hr. pose proof (qo_sorted _ _ _ _ Hq) as Hs.
    apply Forall_app in Hr as [_ Hr]. apply StronglySorted_app_1_r in Hs. split; [done| | |].
    - eapply Forall_impl; [exact Hr|]. intros a. by rewrite Hw.
    - eapply sorted_shift; [|exact Hs]. intros a Ha. simpl. rewrite Hw. fold v.
      rewrite Forall_forall in Hr, Hrest. pose proof (dist_next _ _ _ Htk (Hr a Ha)) as Hda.
      fold v in Hda. rewrite decide_False in Hda by (by apply Hrest). done.
    - intros a. split.
      + intros Ha. destruct (proj1 (qo_mem _ _ _ _ Hq a)) as (t & Ht & Hct & Hst).
        { apply elem_of_app. by right. }
        exists t. split; [|done].
        assert (a ∉ due) as Had by (intros Had; by apply (Hdis a)).
        rewrite (rl_trig _ _ _ _ Hrl) by done. by rewrite expire_all_lookup, decide_False.
      + intros (t & Ht & Hct & Hst).
        destruct (relinked_status _ _ _ _ _ _ Hrl Ht) as (t0 & Ht0 & Hs0 & Hc0).
        rewrite expire_all_lookup in Ht0. change (trigger_mem T1) with (trigger_mem T) in Ht0.
        case_decide as Had.
        * destruct (trigger_mem T !! a); [|done]. injection Ht0 as <-. simpl in *. congruence.
        * assert (a ∈ due ++ rest) as [|]%elem_of_app; [|done|done].
          apply (qo_mem _ _ _ _ Hq). exists t0. split; [done|]. split; congruence. }
  split_and!; try done.
  - split; [|apply Hloc|].
    + eapply (timers_ok_local c); [done|done|exact Hc'|by apply next_tick_range|done].
    + intros a t _ Ht Hp. exists t. split; [|done].
      assert (a ∉ due).
      { intros Ha. destruct (proj1 (qo_mem _ _ _ _ Hq a)) as (t0 & ? & _ & Hs0).
        { apply elem_of_app. by left. } simplify_eq. by destruct Hp. }
      rewrite (rl_trig _ _ _ _ Hrl) by done. by rewrite expire_all_lookup, decide_False.
  - apply Forall_forall. intros a Ha. destruct (Hin a Ha) as (t & Ht & Hct & _).
    destruct (relinked_lookup _ _ _ _ a (set_tr_status OSEE_TRIGGER_EXPIRED t) Hrl) as [n Hn].
    + rewrite expire_all_lookup, decide_True by done.
      change (trigger_mem T1) with (trigger_mem T). by rewrite Ht.
    + eexists. by split.
Qed.

(** What happens to an expired alarm after its action. *)
Lemma alarm_after_run T c a t cc al l :
  timers_ok T -> trigger_mem T !! a = Some t -> tr_counter t = c -> pending t ->
  counter_mem T !! c = Some cc -> alarm_mem T !! tr_alarm t = Some al -> queue_ok T c cc l ->
  exists T' q l', alarm_after_action c a T = Some (tt, T') /\ step [a] T T' /\ local c T T' /\
    idle_frame a T T' /\
    counter_mem T' !! c = Some (set_trigger_queue q cc) /\
    queue_ok T' c (set_trigger_queue q cc) l' /\ (forall b, b <> a -> when_of T' b = when_of T b) /\
    (tr_status t = OSEE_TRIGGER_EXPIRED -> ent T' cc l' =
       if cycle al >? 0 then ent_insert (a, cycle al) (ent T cc l) else ent T cc l) /\
    (tr_status t = OSEE_TRIGGER_EXPIRED -> cycle al <= 0 ->
       tr_status <$> trigger_mem T' !! a = Some OSEE_TRIGGER_INACTIVE).
Proof.
  intros HT Ht Hct Hp Hc Hal Hq. destruct (tk_counter _ HT c cc Hc) as [Htk _].
  assert (Hta : tr_alarm t <> NULL) by (eapply started_alarm; [done|done|apply Hp]).
  destruct (alarm_linked _ a t HT Ht Hta) as (cc' & al' & [Hl1 Hl2 _ Hl4]). simplify_eq.
  assert (Hna : tr_status t <> OSEE_TRIGGER_ACTIVE) by apply Hp.
  pose proof (queue_not_pending _ _ _ _ _ _ Hq Ht Hna) as Hal'.
  unfold alarm_after_action. erewrite bind_run by by apply get_trigger_run.
  assert (Hcc : set_trigger_queue (trigger_queue cc) cc = cc) by by destruct cc.
  case_decide as Hs.
  - erewrite bind_run by by apply get_alarm_run. zcase.
    + erewrite bind_run by by eapply upd_trigger_run. set (d := cycle al) in *.
      destruct (eval_when_spec (maxallowedvalue cc) (tick_value cc) d Htk) as [Hw Hd]; [lia|].
      destruct (activate_run T (tr_counter t) cc l a t (eval_when (maxallowedvalue cc) (tick_value cc) d))
        as (T' & q & Hrun & HT' & Hloc & Hpf & Hc' & Hq' & Hw'); [done..|].
      exists T', q. eexists. split_and!; [|split; [done|apply Hloc|by apply idle_pend_frame]|done|done|done|exact Hq'| | |lia].
      * unfold osEE_counter_insert_rel_trigger, osEE_counter_eval_when. erewrite bind_run; [exact Hrun|].
        erewrite bind_run by by apply get_counter_run. done.
      * intros b Hb. by rewrite Hw', decide_False.
      * intros _. rewrite ent_dist_insert, (Hw' a), decide_True, Hd by (done || lia). f_equal.
        apply ent_ext; try done. intros b Hb. by rewrite Hw', decide_False by congruence.
    + erewrite upd_trigger_run by done. eexists _, (trigger_queue cc), l. rewrite Hcc.
      assert (Hif : idle_frame a T (tupd a (set_tr_status OSEE_TRIGGER_INACTIVE) T)).
      { intros b tb Hb Htb _. by rewrite tupd_lookup, decide_False by congruence. }
      split_and!; [done| | |done|done| | | |].
      * split; [by eapply timers_ok_inactive|by apply config_tupd|by apply idle_pend_frame].
      * by eapply local_tupd.
      * by eapply queue_ok_inactive.
      * intros b _. by apply tupd_when.
      * intros _. apply ent_ext; try done. intros b _. by apply tupd_when.
      * intros _ _. by rewrite tupd_lookup, decide_True, Ht.
  - exists T, (trigger_queue cc), l. rewrite Hcc. split_and!; try done; [by apply step_refl|apply local_refl|by intros b tb].
Qed.

(** ** Increments with any actions *)
Section Increment.
Context (callback : Z -> ST osk unit).
(** An invariant of the kernel that the actions keep, and a ranking of the
    counters: an alarm increments counters of lower rank only. *)
Context (I : kernel -> Prop) (rank : Z -> nat).

Definition keeps_kernel {A} (m : ST kernel A) : Prop :=
  forall k, I k -> exists x k', m k = Some (x, k') /\ I k'.

Definition action_ok (T : timers) (c : Z) (a : OsEE_action) : Prop :=
  match a with
  | OSEE_ACTION_TASK t => keeps_kernel (task_action t)
  | OSEE_ACTION_EVENT t mask => keeps_kernel (event_action t mask)
  | OSEE_ACTION_COUNTER c' => (rank c' < rank c)%nat /\ is_Some (counter_mem T !! c')
  | OSEE_ACTION_CALLBACK f => forall s, I (ck (core s)) -> timers_ok (tmr s) ->
      config (tmr s) = config T ->
      exists s', callback f s = Some (tt, s') /\ I (ck (core s')) /\ step [] (tmr s) (tmr s')
  end.

Definition actions_ok (T : timers) : Prop :=
  forall p al t, alarm_mem T !! p = Some al -> trigger_mem T !! al_trigger al = Some t ->
    action_ok T (tr_counter t) (al_action al).

Lemma action_ok_config T T' c a : config T' = config T -> action_ok T c a -> action_ok T' c a.
Proof.
  intros Hcf. destruct a; simpl; try done; [|by rewrite Hcf]. intros [? [cc Hc]]. split; [done|].
  destruct (config_counter _ _ Hcf _ _ Hc) as (cc' & ? & _). by exists cc'.
Qed.

Lemma actions_ok_config T T' : config T' = config T -> actions_ok T -> actions_ok T'.
Proof.
  intros Hcf H p al' t' Hp Ht. pose proof (eq_sym Hcf) as Hcf'.
  destruct (config_alarm _ _ Hcf' p al' Hp) as (al & Hal & Htr & Hac).
  rewrite <- Htr in Ht.
  destruct (config_trigger _ _ Hcf' _ t' Ht) as (t & Htt & Htc & _).
  rewrite <- Htc, <- Hac. eapply action_ok_config; [done|]. by eapply H.
Qed.

Record good (s : osk) : Prop := {
  gd_I : I (ck (core s));
  gd_ok : timers_ok (tmr s);
  gd_actions : actions_ok (tmr s)
}.

Lemma good_step X s s' : good s -> I (ck (core s')) -> step X (tmr s) (tmr s') -> good s'.
Proof.
  intros [? ? ?] ? [? ? ?]. split; [done..|]. by eapply actions_ok_config.
Qed.

Definition increments (incr : Z -> ST osk unit) (c : Z) : Prop :=
  forall s, good s -> is_Some (counter_mem (tmr s) !! c) ->
    exists s', incr c s = Some (tt, s') /\ I (ck (core s')) /\ step [] (tmr s) (tmr s').

Lemma keeps_kernel_run {A} (m : ST kernel A) s :
  keeps_kernel m -> good s -> exists x s', on_kernel m s = Some (x, s') /\ I (ck (core s')) /\
    step [] (tmr s) (tmr s').
Proof.
  intros Hm Hs. destruct (Hm _ (gd_I _ Hs)) as (x & k' & Hrun & HI).
  exists x, (mkOsk (mkCpu k' (daif (core s))) (tmr s)). unfold on_kernel, on_core, on_k.
  rewrite Hrun. split_and!; [done..|]. apply step_refl, Hs.
Qed.

Section Handlers.
Context (incr : Z -> ST osk unit) (c : Z)
  (Hincr : forall c', (rank c' < rank c)%nat -> increments incr c').

Lemma handle_action_ok s a :
  good s -> action_ok (tmr s) c a ->
  exists ev s', osEE_handle_action callback incr a s = Some (ev, s') /\ I (ck (core s')) /\
    step [] (tmr s) (tmr s').
Proof.
  intros Hs Ha. destruct a as [t|t mask|c'|f]; simpl in *.
  - by apply keeps_kernel_run.
  - by apply keeps_kernel_run.
  - destruct Ha as [Hr Hc]. destruct (Hincr c' Hr s Hs Hc) as (s' & Hrun & ? & ?).
    exists E_OK, s'. split; [|done]. by erewrite bind_run by exact Hrun.
  - destruct (Ha s (gd_I _ Hs) (gd_ok _ Hs) eq_refl) as (s' & Hrun & ? & ?).
    exists E_OK, s'. split; [|done]. by erewrite bind_run by exact Hrun.
Qed.

Definition is_pending (T : timers) (a : Z) : Prop :=
  exists t, trigger_mem T !! a = Some t /\ pending t /\ tr_counter t = c.

Lemma handle_alarm_ok s a :
  good s -> is_pending (tmr s) a ->
  exists s', osEE_counter_handle_alarm callback incr c a s = Some (tt, s') /\ good s' /\
    step [a] (tmr s) (tmr s').
Proof.
  intros Hs (t & Ht & Hp & Hc). pose proof (gd_ok _ Hs) as HT.
  destruct (alarm_linked _ a t HT Ht) as (cc & al & [Hl1 Hl2 Hl3 _]); [eapply started_alarm; [done|done|apply Hp]|].
  assert (Hact : action_ok (tmr s) c (al_action al)).
  { rewrite <- Hc. eapply (gd_actions _ Hs); [done|]. by rewrite Hl3. }
  destruct (handle_action_ok s (al_action al) Hs Hact) as (ev & s1 & H1 & HI1 & Hst1).
  pose proof (good_step _ _ _ Hs HI1 Hst1) as Hs1.
  destruct (stp_pend _ _ _ Hst1 a t) as (t1 & Ht1 & Hp1 & _); [apply not_elem_of_nil|done|done|].
  destruct (config_trigger _ _ (stp_config _ _ _ Hst1) a t Ht) as (t1' & Ht1' & Hc1 & _ & _).
  assert (t1' = t1) as -> by congruence.
  destruct (alarm_linked _ a t1 (gd_ok _ Hs1) Ht1) as (cc1 & al1 & [Hm1 Hm2 _ _]);
    [eapply started_alarm; [apply Hs1|done|apply Hp1]|].
  destruct (tk_counter _ (gd_ok _ Hs1) _ _ Hm1) as (_ & l & Hq).
  rewrite Hc1, Hc in Hm1, Hq.
  destruct (alarm_after_run (tmr s1) c a t1 cc1 al1 l)
    as (T' & q & l' & Hrun & Hst2 & _); [apply Hs1|done|congruence|done..|].
  exists (mkOsk (core s1) T'). split; [|split].
  - unfold osEE_counter_handle_alarm.
    erewrite bind_run by (apply on_tmr_run; by apply get_trigger_run).
    erewrite bind_run by (apply on_tmr_run; by apply get_alarm_run).
    destruct s as [cs Ts]. simpl in *. erewrite bind_run by exact H1. by apply on_tmr_run.
  - by eapply (good_step [a] s1).
  - eapply step_trans; [|exact Hst2]. eapply step_mono; [|exact Hst1]. intros b Hb.
    by apply elem_of_nil in Hb.
Qed.

(** Pending triggers and their links survive a step that is not about them. *)
Lemma pending_chain X T T' p l :
  step X T T' -> (forall a, a ∈ l -> a ∉ X) -> tseg (nexts T) p l NULL -> Forall (is_pending T) l ->
  tseg (nexts T') p l NULL /\ Forall (is_pending T') l.
Proof.
  intros Hst HX Hch Hl. rewrite Forall_forall in Hl. split.
  - eapply tseg_agree; [|exact Hch]. intros a Ha. destruct (Hl a Ha) as (t & Ht & Hp & _).
    destruct (stp_pend _ _ _ Hst a t (HX a Ha) Ht Hp) as (t' & Ht' & _ & Hn).
    unfold nexts. rewrite !lookup_fmap, Ht, Ht'. simpl. by rewrite Hn.
  - apply Forall_forall. intros a Ha. destruct (Hl a Ha) as (t & Ht & Hp & Hc).
    destruct (stp_pend _ _ _ Hst a t (HX a Ha) Ht Hp) as (t' & Ht' & Hp' & _).
    destruct (config_trigger _ _ (stp_config _ _ _ Hst) a t Ht) as (t2 & Ht2 & Hc2 & _).
    exists t'. split; [done|]. split; [done|congruence].
Qed.

Lemma handle_triggered_ok due : forall fuel s p,
  good s -> due <> [] -> tseg (nexts (tmr s)) p due NULL -> Forall (is_pending (tmr s)) due ->
  (length due <= fuel)%nat ->
  exists s', handle_triggered callback incr fuel c p s = Some (tt, s') /\ good s' /\
    step due (tmr s) (tmr s').
Proof.
  induction due as [|a due IH]; intros fuel s p Hs Hne Hch Hdue Hf; [done|].
  pose proof (tseg_nodup _ _ _ Hch) as [Had Hnd]%NoDup_cons.
  destruct Hch as (-> & Ha0 & r & Hr & Hch). apply nexts_inv in Hr as (t & Ht & <-).
  inversion_clear Hdue as [|? ? Hpa Hdue'].
  destruct (handle_alarm_ok s a Hs Hpa) as (s1 & H1 & Hs1 & Hst1).
  assert (Hta0 : tr_alarm t <> NULL).
  { destruct Hpa as (t' & Ht' & Hp' & _). assert (t' = t) as -> by congruence.
    eapply started_alarm; [apply Hs|done|apply Hp']. }
  destruct fuel as [|fuel]; [simpl in Hf; lia|]. cbn [handle_triggered].
  erewrite bind_run by (apply on_tmr_run; by apply get_trigger_run).
  destruct (decide (tr_alarm t <> NULL)); [|done].
  destruct s as [cs Ts]. simpl in *. erewrite bind_run by exact H1.
  destruct (pending_chain [a] Ts (tmr s1) (tr_next t) due) as [Hch1 Hdue1]; [done| |done|done|].
  { intros b Hb Hba. apply list_elem_of_singleton in Hba as ->. done. }
  case_decide as Hn.
  - destruct (IH fuel s1 (tr_next t)) as (s2 & H2 & Hs2 & Hst2); [done| |done|done|lia|].
    { intros ->. by apply Hn. }
    exists s2. split; [exact H2|]. split; [done|]. eapply step_trans.
    + eapply step_mono; [|exact Hst1]. intros b Hb%list_elem_of_singleton. subst. left.
    + eapply step_mono; [|exact Hst2]. intros b Hb. by right.
  - assert (due = []) as -> by by apply (tseg_head _ _ _ Hch1).
    exists s1. split; [done|]. by split.
Qed.

End Handlers.

(** An increment ends, for nested counters of falling rank, and keeps the
    invariant; alarms that another increment is still handling stay as they
    are. *)
Lemma increment_ok_run : forall fuel c, (rank c < fuel)%nat ->
  increments (osEE_counter_increment callback fuel) c.
Proof.
  induction fuel as [|fuel IH]; intros c Hr s Hs [cc Hc]; [lia|]. cbn [osEE_counter_increment].
  destruct (prescale_run _ _ _ Hc) as (b & p & Hpre).
  set (T1 := cupd c (set_prescaler p) (tmr s)) in *.
  assert (Hst1 : step [] (tmr s) T1).
  { split; [|by apply config_cupd|by intros a t _ Ht Hp; exists t].
    eapply timers_ok_prescaler; [apply Hs|done]. }
  erewrite bind_run by by apply on_tmr_run.
  assert (Hs1 : good (mkOsk (core s) T1)) by (eapply (good_step [] s); [done|apply Hs|done]).
  assert (Hc1 : counter_mem T1 !! c = Some (set_prescaler p cc)).
  { unfold T1. by rewrite cupd_lookup, decide_True, Hc. }
  destruct b; [|by eexists; split; [done|]; split; [apply Hs1|]].
  destruct (tk_counter _ (gd_ok _ Hs1) _ _ Hc1) as (_ & l & Hq).
  destruct (tick_pop_run T1 c _ l (gd_ok _ Hs1) Hc1 Hq)
    as (due & rest & T2 & q & -> & _ & _ & Hpop & Hst2 & _ & _ & _ & Hch & Hexp & _).
  erewrite bind_run by (apply on_tmr_run; by apply (advance_run _ _ _ Hc1)).
  erewrite bind_run by by apply on_tmr_run.
  assert (Hs2 : good (mkOsk (core s) T2)).
  { eapply (good_step [] (mkOsk (core s) T1)); [done|apply Hs1|done]. }
  assert (Hst : step [] (tmr s) T2) by by eapply step_trans. clear Hst1 Hst2.
  destruct due as [|a due].
  - eexists. split; [done|]. split; [apply Hs2|done].
  - rewrite decide_True by (by destruct Hch as (_ & ? & _)).
    erewrite bind_run by reflexivity. cbn [tmr].
    destruct (handle_triggered_ok (osEE_counter_increment callback fuel) c) with
      (due := a :: due) (fuel := queue_fuel T2) (s := mkOsk (core s) T2) (p := a)
      as (s3 & H3 & Hs3 & Hst3); try done.
    { intros c' Hc'. apply IH. lia. }
    { eapply Forall_impl; [exact Hexp|]. intros b (t & Ht & Hst' & Hct). exists t.
      split; [done|]. split; [|done]. unfold pending. by rewrite Hst'. }
    { pose proof (tseg_length _ _ _ Hch) as Hlen. rewrite nexts_size in Hlen.
      cbn [tmr]. unfold queue_fuel. lia. }
    exists s3. split; [exact H3|]. split; [apply Hs3|]. split; [apply Hs3| |].
    + by rewrite (stp_config _ _ _ Hst3), <- (stp_config _ _ _ Hst).
    + intros b t _ Ht Hp.
      destruct (stp_pend _ _ _ Hst b t) as (t2 & Ht2 & Hp2 & Hn2); [apply not_elem_of_nil|done|done|].
      destruct (stp_pend _ _ _ Hst3 b t2) as (t3 & Ht3 & Hp3 & Hn3); [|done|done|].
      * intros Hb. assert (b ∈ (a :: due) ++ rest) as Hb' by (apply elem_of_app; by left).
        apply (qo_mem _ _ _ _ Hq) in Hb' as (t' & Ht' & _ & Hs').
        assert (Some t' = Some t) as [= ->] by (rewrite <- Ht, <- Ht'; done). by destruct Hp.
      * exists t3. split_and!; [done|done|congruence].
Qed.

End Increment.

(** ** Increments with actions that leave the timers alone

    Activations, events and callbacks that do not call timer services. The
    result is then exact: the abstract tick. *)

Definition alarm_of (T : timers) (a : Z) : option OsEE_AlarmDB :=
  trigger_mem T !! a ≫= fun t => alarm_mem T !! tr_alarm t.
Definition cycle_of (T : timers) (a : Z) : Z :=
  match alarm_of T a with Some al => cycle al | None => 0 end.

(** Due triggers go, the others come nearer, cyclic ones come back. *)
Definition due (es : list (Z * Z)) : list Z := (filter (fun e => e.2 = 1) es).*1.
Definition reload (T : timers) (es : list (Z * Z)) (a : Z) : list (Z * Z) :=
  if cycle_of T a >? 0 then ent_insert (a, cycle_of T a) es else es.
Definition nearer (es : list (Z * Z)) : list (Z * Z) :=
  (fun e => (e.1, e.2 - 1)) <$> filter (fun e => e.2 <> 1) es.
Definition ent_tick (T : timers) (es : list (Z * Z)) : list (Z * Z) :=
  foldl (reload T) (nearer es) (due es).

Section Quiet.
Context (cb : Z -> ST cpu unit).
Definition quiet_callback (f : Z) : ST osk unit := on_core (cb f).

Definition core_act (a : OsEE_action) : ST cpu Z :=
  match a with
  | OSEE_ACTION_TASK t => on_k (task_action t)
  | OSEE_ACTION_EVENT t mask => on_k (event_action t mask)
  | OSEE_ACTION_COUNTER _ => undefined
  | OSEE_ACTION_CALLBACK f => _ ← cb f; mret E_OK
  end.

(** The actions of the alarms, in order. *)
Fixpoint run_acts (T : timers) (l : list Z) : ST cpu unit :=
  match l with
  | [] => mret tt
  | a :: l =>
      match alarm_of T a with
      | Some al => _ ← core_act (al_action al); run_acts T l
      | None => undefined
      end
  end.

Lemma core_act_run incr a s ev c :
  core_act a (core s) = Some (ev, c) ->
  osEE_handle_action quiet_callback incr a s = Some (ev, mkOsk c (tmr s)).
Proof.
  destruct a as [t|t mask|c'|f]; simpl; try done.
  - unfold on_kernel, on_core. by intros ->.
  - unfold on_kernel, on_core. by intros ->.
  - intros (x & c1 & H1 & [= <- <-])%bind_Some. unfold quiet_callback.
    erewrite bind_run; [done|]. unfold on_core. by rewrite H1.
Qed.

Lemma alarm_of_config T T' a :
  config T' = config T -> alarm_mem T' = alarm_mem T -> is_Some (trigger_mem T !! a) ->
  alarm_of T' a = alarm_of T a.
Proof.
  intros Hcf Hal [t Ht]. destruct (config_trigger _ _ Hcf a t Ht) as (t' & Ht' & _ & Ha & _).
  unfold alarm_of. by rewrite Ht, Ht', Hal; simpl; rewrite Ha.
Qed.

Lemma run_acts_config T T' l :
  config T' = config T -> alarm_mem T' = alarm_mem T ->
  Forall (fun a => is_Some (trigger_mem T !! a)) l -> run_acts T' l = run_acts T l.
Proof.
  intros Hcf Hal Hl. induction Hl as [|a l Ha _ IH]; [done|]. simpl.
  rewrite (alarm_of_config T T'), IH by done. done.
Qed.

Lemma reload_config T T' l : forall es,
  config T' = config T -> alarm_mem T' = alarm_mem T ->
  Forall (fun a => is_Some (trigger_mem T !! a)) l ->
  foldl (reload T') es l = foldl (reload T) es l.
Proof.
  intros es Hcf Hal Hl. revert es. induction Hl as [|a l Ha _ IH]; intros es; [done|]. simpl.
  rewrite IH. unfold reload at 2 4, cycle_of. by rewrite (alarm_of_config T T').
Qed.

Lemma is_expired_stored T c l :
  Forall (is_expired T c) l -> Forall (fun a => is_Some (trigger_mem T !! a)) l.
Proof. intros H. eapply Forall_impl; [exact H|]. intros a (t & Ht & _). by exists t. Qed.

Lemma handle_triggered_quiet incr c l : forall fuel s p cc lq k,
  timers_ok (tmr s) -> counter_mem (tmr s) !! c = Some cc -> queue_ok (tmr s) c cc lq ->
  l <> [] -> tseg (nexts (tmr s)) p l NULL -> Forall (is_expired (tmr s) c) l ->
  (length l <= fuel)%nat -> run_acts (tmr s) l (core s) = Some (tt, k) ->
  exists T' q lq', handle_triggered quiet_callback incr fuel c p s = Some (tt, mkOsk k T') /\
    timers_ok T' /\ local c (tmr s) T' /\ counter_mem T' !! c = Some (set_trigger_queue q cc) /\
    queue_ok T' c (set_trigger_queue q cc) lq' /\
    ent T' cc lq' = foldl (reload (tmr s)) (ent (tmr s) cc lq) l /\
    (forall b t, b ∉ l -> trigger_mem (tmr s) !! b = Some t -> tr_status t <> OSEE_TRIGGER_ACTIVE ->
       trigger_mem T' !! b = Some t) /\
    Forall (fun a => cycle_of (tmr s) a <= 0 ->
       tr_status <$> trigger_mem T' !! a = Some OSEE_TRIGGER_INACTIVE) l.
Proof.
  induction l as [|a l IH]; intros fuel s p cc lq k HT Hc Hq Hne Hch Hl Hf Hacts; [done|].
  pose proof (tseg_nodup _ _ _ Hch) as [Had Hnd]%NoDup_cons.
  destruct Hch as (-> & Ha0 & r & Hr & Hch). apply nexts_inv in Hr as (t & Ht & <-).
  inversion_clear Hl as [|? ? (t' & Ht' & Hst & Hct) Hl'].
  assert (t' = t) as -> by congruence. clear Ht'.
  assert (Hta0 : tr_alarm t <> NULL) by (eapply started_alarm; [done|done|by rewrite Hst]).
  destruct (alarm_linked _ a t HT Ht Hta0) as (cc' & al & [_ Hal _ _]).
  simpl in Hacts. unfold alarm_of in Hacts. rewrite Ht in Hacts. simpl in Hacts. rewrite Hal in Hacts.
  apply bind_Some in Hacts as (ev & k1 & Hact & Hacts).
  destruct (alarm_after_run (tmr s) c a t cc al lq)
    as (T1 & q1 & l1 & Hrun1 & Hst1 & Hloc1 & Hidle & Hc1 & Hq1 & Hw1 & Hent1 & Hoff1); try done.
  { unfold pending. by rewrite Hst. }
  specialize (Hent1 Hst). specialize (Hoff1 Hst). destruct fuel as [|fuel]; [simpl in Hf; lia|]. cbn [handle_triggered].
  erewrite bind_run by (apply on_tmr_run; by apply get_trigger_run).
  destruct (decide (tr_alarm t <> NULL)); [|done].
  assert (Hha : osEE_counter_handle_alarm quiet_callback incr c a s = Some (tt, mkOsk k1 T1)).
  { unfold osEE_counter_handle_alarm.
    erewrite bind_run by (apply on_tmr_run; by apply get_trigger_run).
    erewrite bind_run by (apply on_tmr_run; by apply get_alarm_run).
    destruct s as [cs Ts]. erewrite bind_run by by apply core_act_run. by apply on_tmr_run. }
  replace (mkOsk (core s) (tmr s)) with s by by destruct s. erewrite bind_run by exact Hha.
  assert (Hre : reload (tmr s) (ent (tmr s) cc lq) a = ent T1 cc l1).
  { rewrite Hent1. unfold reload, cycle_of, alarm_of. rewrite Ht. simpl. by rewrite Hal. }
  assert (Hcycle : cycle_of (tmr s) a <= 0 -> cycle al <= 0).
  { unfold cycle_of, alarm_of. rewrite Ht. simpl. by rewrite Hal. }
  assert (Hpend : Forall (is_pending c (tmr s)) l).
  { eapply Forall_impl; [exact Hl'|]. intros b (tb & Htb & Hsb & Hcb). exists tb.
    split; [done|]. split; [|done]. unfold pending. by rewrite Hsb. }
  assert (Hout : forall b, b ∈ l -> b ∉ [a]).
  { intros b Hb Hba%list_elem_of_singleton. by subst. }
  destruct (pending_chain c [a] _ _ (tr_next t) l Hst1 Hout Hch Hpend) as [Hch1 _].
  assert (Hl1 : Forall (is_expired T1 c) l).
  { rewrite Forall_forall in Hl' |- *. intros b Hb. destruct (Hl' b Hb) as (tb & Htb & Hsb & Hcb).
    assert (Hba : b <> a) by (intros ->; done).
    exists tb. split; [|done]. apply Hidle; [done|done|by rewrite Hsb]. }
  simpl foldl. rewrite Hre. case_decide as Hn.
  - destruct (IH fuel (mkOsk k1 T1) (tr_next t) (set_trigger_queue q1 cc) l1 k)
      as (T2 & q2 & l2 & H2 & HT2 & Hloc2 & Hc2 & Hq2 & Hent2 & Hidle2 & Hoff2);
      try done; cbn [tmr core].
    { apply Hst1. }
    { intros ->. by apply Hn. }
    { simpl in Hf. lia. }
    { rewrite (run_acts_config (tmr s)); [done|apply Hloc1|apply Hloc1|by eapply is_expired_stored]. }
    cbn [tmr] in Hidle2, Hoff2.
    exists T2, q2, l2. split_and!; [done|done|by eapply local_trans|done|done| | |].
    + rewrite <- (reload_config (tmr s) T1); [exact Hent2|apply Hloc1|apply Hloc1|].
      by eapply is_expired_stored.
    + intros b tb [Hba Hbl]%not_elem_of_cons Htb Hsb. apply Hidle2; [done| |done]. by apply Hidle.
    + constructor.
      * intros Hcy. specialize (Hoff1 (Hcycle Hcy)). destruct (trigger_mem T1 !! a) as [t1|] eqn:Ht1; [|done].
        rewrite (Hidle2 a t1); [done|done|done|]. injection Hoff1 as ->. done.
      * apply Forall_forall. intros b Hb Hcy. rewrite Forall_forall in Hoff2. apply Hoff2; [done|].
        revert Hcy. unfold cycle_of. rewrite (alarm_of_config (tmr s) T1); [done|apply Hloc1|apply Hloc1|].
        rewrite Forall_forall in Hl'. destruct (Hl' b Hb) as (tb & ? & _). by exists tb.
  - assert (l = []) as -> by by apply (tseg_head _ _ _ Hch1).
    simpl in Hacts. injection Hacts as ->. exists T1, q1, l1. split_and!; try done.
    + apply Hst1.
    + intros b tb [Hba _]%not_elem_of_cons Htb Hsb. by apply Hidle.
    + constructor; [|done]. intros Hcy. by apply Hoff1, Hcycle.
Qed.

(** The due entries are those at distance 1. *)
Lemma due_iff T c cc l a :
  queue_ok T c cc l -> ticks_ok (maxallowedvalue cc) (tick_value cc) -> a ∈ l ->
  dist (maxallowedvalue cc) (tick_value cc) (when_of T a) = 1 <->
  when_of T a = next_tick (maxallowedvalue cc) (tick_value cc).
Proof.
  intros Hq Htk Ha. pose proof (qo_range _ _ _ _ Hq) as Hr. rewrite Forall_forall in Hr.
  pose proof (dist_next _ _ _ Htk (Hr a Ha)) as Hd. case_decide as Hv; [tauto|].
  pose proof (dist_bounds _ _ _ (proj1 (next_tick_range _ _ Htk)) (Hr a Ha)). lia.
Qed.

Lemma ent_due T c cc l1 l2 :
  let v := next_tick (maxallowedvalue cc) (tick_value cc) in
  queue_ok T c cc (l1 ++ l2) -> ticks_ok (maxallowedvalue cc) (tick_value cc) ->
  Forall (fun a => when_of T a = v) l1 -> Forall (fun a => when_of T a <> v) l2 ->
  due (ent T cc (l1 ++ l2)) = l1 /\
  nearer (ent T cc (l1 ++ l2)) = (fun e => (e.1, e.2 - 1)) <$> ent T cc l2.
Proof.
  intros v Hq Htk H1 H2. unfold due, nearer, ent. rewrite fmap_app, !list.filter_app.
  set (g := fun a => (a, _)).
  assert (Hg1 : Forall (fun e : Z * Z => e.2 = 1) (g <$> l1)).
  { apply Forall_fmap, Forall_forall. intros a Ha. rewrite Forall_forall in H1. simpl.
    apply (due_iff _ _ _ _ _ Hq Htk); [apply elem_of_app; by left|by apply H1]. }
  assert (Hg2 : Forall (fun e : Z * Z => e.2 <> 1) (g <$> l2)).
  { apply Forall_fmap, Forall_forall. intros a Ha. rewrite Forall_forall in H2. simpl.
    rewrite (due_iff _ _ _ _ _ Hq Htk) by (apply elem_of_app; by right). by apply H2. }
  rewrite (filter_all _ (g <$> l1)), (filter_none _ (g <$> l2)), app_nil_r by done.
  rewrite (filter_none _ (g <$> l1)), (filter_all (fun e : Z * Z => e.2 <> 1) (g <$> l2)).
  - split; [|done]. rewrite <- list_fmap_compose. by apply list_fmap_id.
  - done.
  - eapply Forall_impl; [exact Hg1|]. simpl. intros e He Hn. by apply Hn.
Qed.

(** An increment in between only counts the prescaler. *)
Lemma increment_between fuel s c cc es :
  timers_ok (tmr s) -> counter_mem (tmr s) !! c = Some cc -> prescaler_ok cc -> is_tick cc = false ->
  entries (tmr s) c es ->
  exists T' cc', osEE_counter_increment quiet_callback (Datatypes.S fuel) c s = Some (tt, mkOsk (core s) T') /\
    timers_ok T' /\ local c (tmr s) T' /\ entries T' c es /\
    counter_mem T' !! c = Some cc' /\ phase cc' = phase cc + 1.
Proof.
  intros HT Hc Hpo Htk (cc' & l & Hc' & Hq & ->). simplify_eq. cbn [osEE_counter_increment].
  destruct (prescale_phase _ _ _ Hc Hpo) as (p & Hpre & Hp). rewrite Htk in *.
  erewrite bind_run by by apply on_tmr_run.
  assert (Hc1 : counter_mem (cupd c (set_prescaler p) (tmr s)) !! c = Some (set_prescaler p cc))
    by by rewrite cupd_lookup, decide_True, Hc.
  exists (cupd c (set_prescaler p) (tmr s)), (set_prescaler p cc). split_and!; try done.
  - by eapply timers_ok_prescaler.
  - by apply local_cupd.
  - exists (set_prescaler p cc), l. split_and!; [done|by apply queue_ok_prescaler|done].
Qed.

(** A tick is the abstract one, and runs the due actions in order. *)
Lemma increment_quiet fuel s c cc es k :
  timers_ok (tmr s) -> counter_mem (tmr s) !! c = Some cc -> prescaler_ok cc -> is_tick cc = true ->
  entries (tmr s) c es -> run_acts (tmr s) (due es) (core s) = Some (tt, k) ->
  exists T', osEE_counter_increment quiet_callback (Datatypes.S fuel) c s = Some (tt, mkOsk k T') /\
    timers_ok T' /\ local c (tmr s) T' /\ entries T' c (ent_tick (tmr s) es) /\
    (exists cc', counter_mem T' !! c = Some cc' /\ phase cc' = 0) /\
    Forall (fun a => cycle_of (tmr s) a <= 0 ->
      tr_status <$> trigger_mem T' !! a = Some OSEE_TRIGGER_INACTIVE) (due es).
Proof.
  intros HT Hc Hpo Htick (cc' & l & Hc' & Hq & ->) Hacts. simplify_eq. cbn [osEE_counter_increment].
  destruct (prescale_phase _ _ _ Hc Hpo) as (p & Hpre & Hph). rewrite Htick in *.
  erewrite bind_run by by apply on_tmr_run.
  set (T1 := cupd c (set_prescaler p) (tmr s)) in *. set (cc1 := set_prescaler p cc).
  assert (Hc1 : counter_mem T1 !! c = Some cc1).
  { unfold T1. by rewrite cupd_lookup, decide_True, Hc. }
  assert (HT1 : timers_ok T1) by by eapply timers_ok_prescaler.
  pose proof (queue_ok_prescaler _ _ _ _ p Hq) as Hq1. fold T1 cc1 in Hq1.
  destruct (tk_counter _ HT1 _ _ Hc1) as [Htk _].
  destruct (tick_pop_run T1 c cc1 l HT1 Hc1 Hq1)
    as (l1 & rest & T2 & q & -> & Hl1 & Hrest & Hpop & Hst2 & Hloc2 & Hc2 & Hq2 & Hch & Hexp & Hw2).
  destruct (ent_due T1 c cc1 l1 rest Hq1 Htk Hl1 Hrest) as [Hdue Hnear].
  change (ent T1 cc1) with (ent (tmr s) cc) in Hdue, Hnear. rewrite Hdue in Hacts.
  assert (Hloc : local c (tmr s) T2).
  { eapply local_trans; [by apply (local_cupd c (set_prescaler p))|exact Hloc2]. }
  assert (Hent2 : ent T2 (set_trigger_queue q (ticked cc1)) rest = nearer (ent (tmr s) cc (l1 ++ rest))).
  { rewrite Hnear. unfold ent. rewrite <- list_fmap_compose. apply list_fmap_ext. intros i a Ha.
    apply list_elem_of_lookup_2 in Ha. simpl. f_equal.
    pose proof (qo_range _ _ _ _ Hq1) as Hr. rewrite Forall_forall in Hr, Hrest.
    pose proof (dist_next _ _ _ Htk (Hr a ltac:(apply elem_of_app; by right))) as Hd.
    rewrite decide_False in Hd by (by apply Hrest). rewrite Hw2. exact Hd. }
  erewrite bind_run by (apply on_tmr_run; by apply (advance_run _ _ _ Hc1)).
  erewrite bind_run by by apply on_tmr_run. unfold ent_tick. rewrite !Hdue, <- Hent2.
  assert (Hsto : Forall (fun a => is_Some (trigger_mem (tmr s) !! a)) l1).
  { apply Forall_forall. intros a Ha. destruct (proj1 (qo_mem _ _ _ _ Hq a)) as (t & Ht & _).
    { apply elem_of_app. by left. } by exists t. }
  destruct l1 as [|a l1].
  - simpl in Hacts. injection Hacts as ->. exists T2. split; [done|]. split; [apply Hst2|].
    split; [done|]. split; [|split; [by eexists|done]]. exists (set_trigger_queue q (ticked cc1)), rest. by split.
  - rewrite decide_True by (by destruct Hch as (_ & ? & _)).
    erewrite bind_run by reflexivity. cbn [tmr].
    destruct (handle_triggered_quiet (osEE_counter_increment quiet_callback fuel) c (a :: l1)
      (queue_fuel T2) (mkOsk (core s) T2) a (set_trigger_queue q (ticked cc1)) rest k)
      as (T3 & q3 & l3 & H3 & HT3 & Hloc3 & Hc3 & Hq3 & Hent3 & _ & Hoff); try done; cbn [tmr core].
    { apply Hst2. }
    { pose proof (tseg_length _ _ _ Hch) as Hlen. rewrite nexts_size in Hlen. unfold queue_fuel. lia. }
    { rewrite (run_acts_config (tmr s)); [done|apply Hloc|apply Hloc|done]. }
    cbn [tmr] in *. exists T3. split; [exact H3|]. split; [done|]. split; [by eapply local_trans|].
    split; [|split; [by eexists|]].
    + exists (set_trigger_queue q3 (set_trigger_queue q (ticked cc1))), l3. split; [done|]. split; [done|].
      rewrite <- (reload_config (tmr s) T2), <- Hent3; [done|apply Hloc|apply Hloc|done].
    + rewrite Forall_forall in Hoff, Hsto |- *. intros x Hx Hcy. apply Hoff; [done|].
      revert Hcy. unfold cycle_of. rewrite (alarm_of_config (tmr s) T2); [done|apply Hloc|apply Hloc|].
      by apply Hsto.
Qed.

End Quiet.

(** ** Setting, cancelling and reading an alarm *)
Record is_alarm (T : timers) (p : Z) (al : OsEE_AlarmDB) (t : OsEE_TriggerDB) (cc : OsEE_CounterDB) : Prop := {
  ia_alarm : alarm_mem T !! p = Some al;
  ia_trigger : trigger_mem T !! al_trigger al = Some t;
  ia_counter : counter_mem T !! tr_counter t = Some cc
}.

(** The relative service is the absolute one for the time it computes. *)
Lemma alarm_set_rel_abs T c cc p increment cyc :
  counter_mem T !! c = Some cc ->
  osEE_alarm_set_rel c p increment cyc T =
  osEE_alarm_set_abs c p (eval_when (maxallowedvalue cc) (tick_value cc) increment) cyc T.
Proof.
  intros Hc. unfold osEE_alarm_set_rel, osEE_alarm_set_abs.
  destruct (alarm_mem T !! p) as [al|] eqn:Hp.
  2: { unfold get_alarm, StateMonad.from_option, mbind, st_bind. by rewrite Hp. }
  do 2 (erewrite (bind_run (get_alarm p)) by by apply get_alarm_run).
  destruct (trigger_mem T !! al_trigger al) as [t|] eqn:Ht.
  2: { unfold get_trigger, StateMonad.from_option, mbind, st_bind. by rewrite Ht. }
  do 2 (erewrite (bind_run (get_trigger (al_trigger al))) by by apply get_trigger_run).
  destruct (trigger_code _ >? _); [done|].
  assert (Hev : forall T', counter_mem T' !! c = Some cc ->
    osEE_counter_eval_when c increment T' =
      Some (eval_when (maxallowedvalue cc) (tick_value cc) increment, T')).
  { intros T' H. unfold osEE_counter_eval_when. by erewrite bind_run by by apply get_counter_run. }
  case_decide.
  - do 2 (erewrite (bind_run (upd_alarm p (set_cycle cyc))) by by eapply upd_alarm_run).
    by erewrite bind_run by by apply Hev.
  - do 2 (erewrite (bind_run (upd_alarm p (set_cycle cyc))) by by eapply upd_alarm_run).
    do 2 (erewrite (bind_run (upd_trigger _ _)) by by eapply upd_trigger_run).
    unfold osEE_counter_insert_rel_trigger, mbind at 1 2, st_bind at 1 2.
    rewrite Hev by done. done.
Qed.

Lemma alarm_set_abs_run T p al t cc es w cyc :
  timers_ok T -> is_alarm T p al t cc -> entries T (tr_counter t) es ->
  0 <= w <= maxallowedvalue cc -> 0 <= cyc <= maxallowedvalue cc ->
  let c := tr_counter t in let a := al_trigger al in
  match tr_status t with
  | OSEE_TRIGGER_INACTIVE => exists T', osEE_alarm_set_abs c p w cyc T = Some (E_OK, T') /\
      step [] T T' /\ cycle_of T' a = cyc /\ phase <$> counter_mem T' !! c = phase <$> counter_mem T !! c /\
      entries T' c (ent_insert (a, dist (maxallowedvalue cc) (tick_value cc) w) es)
  | OSEE_TRIGGER_CANCELED => exists T' t', osEE_alarm_set_abs c p w cyc T = Some (E_OK, T') /\
      step [] T T' /\ entries T' c es /\
      trigger_mem T' !! a = Some t' /\ tr_status t' = OSEE_TRIGGER_REENABLED
  | _ => osEE_alarm_set_abs c p w cyc T = Some (E_OS_STATE, T)
  end.
Proof.
  intros HT [Hp Ht Hc] (cc' & l & Hc' & Hq & ->) Hw Hcyc c a. simplify_eq.
  pose proof (alarm_trigger _ _ _ _ HT Hp Ht) as Hnn.
  change (trigger_mem T !! a = Some t) in Ht. change (counter_mem T !! c = Some cc) in Hc.
  change (queue_ok T c cc l) in Hq.
  assert (Hpre : osEE_alarm_set_abs c p w cyc T =
    (if trigger_code (tr_status t) >? trigger_code OSEE_TRIGGER_CANCELED then mret E_OS_STATE
     else if decide (tr_status t = OSEE_TRIGGER_CANCELED) then
       _ ← upd_alarm p (set_cycle cyc); _ ← upd_trigger a (set_tr_when w);
       _ ← upd_trigger a (set_tr_status OSEE_TRIGGER_REENABLED); mret E_OK
     else _ ← upd_alarm p (set_cycle cyc); _ ← upd_trigger a (set_tr_status OSEE_TRIGGER_ACTIVE);
       _ ← osEE_counter_insert_abs_trigger c a w; mret E_OK) T).
  { unfold osEE_alarm_set_abs. erewrite bind_run by by apply get_alarm_run.
    by erewrite bind_run by by apply get_trigger_run. }
  rewrite Hpre. set (T1 := aupd p (set_cycle cyc) T).
  assert (HT1 : timers_ok T1) by by eapply timers_ok_aupd.
  assert (Hq1 : queue_ok T1 c cc l) by by apply queue_ok_aupd.
  assert (Hcf1 : config T1 = config T) by apply config_aupd.
  destruct (tr_status t) eqn:Hst; simpl; try done.
  - destruct (activate_run T1 c cc l a t w) as (T' & q & Hrun & HT' & Hloc & Hidle & Hc'' & Hq' & Hw');
      [done..|by rewrite Hst|done|].
    exists T'. split_and!.
    + erewrite bind_run by by eapply upd_alarm_run.
      erewrite bind_run by by eapply upd_trigger_run. by erewrite bind_run by exact Hrun.
    + split; [done|by rewrite (lo_config _ _ _ Hloc)|].
      intros b tb _ Htb Hpb. exists tb. split; [|done]. apply Hidle; [|done|apply Hpb].
      intros ->. destruct Hpb. congruence.
    + destruct (tk_alarm _ HT p al Hp) as (_ & t1 & Ht1 & Hta). fold a in Ht1. simplify_eq.
      unfold cycle_of. rewrite (alarm_of_config T1 T'); [|apply Hloc|apply Hloc|by exists t].
      unfold alarm_of. change (trigger_mem T1) with (trigger_mem T). rewrite Ht. simpl.
      unfold T1. by rewrite lookup_alter_eq, Hp.
    + by rewrite Hc'', Hc.
    + exists (set_trigger_queue q cc), (dist_insert
        (fun b => dist (maxallowedvalue cc) (tick_value cc) (when_of T' b)) a l).
      split_and!; [done..|]. change (ent T' (set_trigger_queue q cc)) with (ent T' cc).
      rewrite ent_dist_insert, (Hw' a), decide_True by done. f_equal. symmetry.
      apply ent_ext; try done. intros b Hb. rewrite Hw'.
      destruct (decide (b = a)) as [->|]; [|done].
      apply (qo_mem _ _ _ _ Hq) in Hb as (t' & ? & _ & ?). simplify_eq. congruence.
  - set (f := fun t => set_tr_status OSEE_TRIGGER_REENABLED (set_tr_when w t)).
    assert (Hrun : (_ ← upd_alarm p (set_cycle cyc); _ ← upd_trigger a (set_tr_when w);
       _ ← upd_trigger a (set_tr_status OSEE_TRIGGER_REENABLED); mret E_OK) T =
       Some (E_OK, tupd a (set_tr_status OSEE_TRIGGER_REENABLED) (tupd a (set_tr_when w) T1))).
    { erewrite bind_run by by eapply upd_alarm_run.
      erewrite bind_run by by eapply upd_trigger_run.
      erewrite bind_run; [done|]. eapply upd_trigger_run. rewrite tupd_lookup, decide_True by done.
      exact (f_equal (fmap (set_tr_when w)) Ht). }
    assert (Hst1 : tr_status t <> OSEE_TRIGGER_ACTIVE) by by rewrite Hst.
    set (T2 := tupd a (set_tr_when w) T1) in *.
    assert (Ht2 : trigger_mem T2 !! a = Some (set_tr_when w t)).
    { unfold T2. rewrite tupd_lookup, decide_True by done.
      exact (f_equal (fmap (set_tr_when w)) Ht). }
    assert (HT2 : timers_ok T2) by by apply (timers_ok_inactive _ _ _ t).
    assert (Hq2 : queue_ok T2 c cc l) by by apply (queue_ok_inactive _ _ _ t).
    exists (tupd a (set_tr_status OSEE_TRIGGER_REENABLED) T2).
    exists (f t). split_and!; [exact Hrun| | | |done].
    + split; [by apply (timers_ok_inactive _ _ _ (set_tr_when w t))| |].
      { rewrite config_tupd by done. unfold T2. by rewrite config_tupd. }
      intros b tb _ Htb Hpb. unfold T2. rewrite !tupd_lookup.
      change (trigger_mem T1) with (trigger_mem T). rewrite Htb.
      destruct (decide (a = b)); eexists; (split; [done|]); (split; [first [done|by split]|done]).
    + exists cc, l. split; [done|]. split; [by apply (queue_ok_inactive _ _ _ (set_tr_when w t))|].
      symmetry. apply ent_ext; try done. intros b Hb. rewrite tupd_when by done.
      unfold when_of, T2. rewrite tupd_lookup. destruct (decide (a = b)) as [<-|]; [|done].
      apply (qo_mem _ _ _ _ Hq) in Hb as (t' & ? & _ & ?). simplify_eq.
    + by rewrite tupd_lookup, decide_True, Ht2.
Qed.

Lemma alarm_cancel_run T p al t cc es :
  timers_ok T -> is_alarm T p al t cc -> entries T (tr_counter t) es ->
  let c := tr_counter t in let a := al_trigger al in
  match tr_status t with
  | OSEE_TRIGGER_INACTIVE | OSEE_TRIGGER_CANCELED => osEE_alarm_cancel p T = Some (E_OS_NOFUNC, T)
  | OSEE_TRIGGER_ACTIVE => exists T' e1 d e2, osEE_alarm_cancel p T = Some (E_OK, T') /\
      step [] T T' /\ es = e1 ++ (a, d) :: e2 /\ entries T' c (e1 ++ e2) /\
      tr_status <$> trigger_mem T' !! a = Some OSEE_TRIGGER_INACTIVE
  | _ => exists T', osEE_alarm_cancel p T = Some (E_OK, T') /\
      step [] T T' /\ entries T' c es /\
      tr_status <$> trigger_mem T' !! a = Some OSEE_TRIGGER_CANCELED
  end.
Proof.
  intros HT [Hp Ht Hc] (cc' & l & Hc' & Hq & ->) c a. simplify_eq.
  pose proof (alarm_trigger _ _ _ _ HT Hp Ht) as Hnn. fold a c in Ht, Hc, Hq.
  assert (Hpend : pending t -> exists T', (_ ← upd_trigger a (set_tr_status OSEE_TRIGGER_CANCELED); mret E_OK) T =
      Some (E_OK, T') /\
      step [] T T' /\ entries T' c (ent T cc l) /\
      tr_status <$> trigger_mem T' !! a = Some OSEE_TRIGGER_CANCELED).
  { intros [_ Hna]. erewrite bind_run by by eapply upd_trigger_run.
    eexists. split; [done|]. split_and!.
    - split; [by apply (timers_ok_inactive _ _ _ t)|by apply config_tupd|].
      intros b tb _ Htb Hpb. rewrite tupd_lookup, Htb.
      case_decide; eexists; (split; [done|]); (split; [first [done|by split]|done]).
    - exists cc, l. split_and!; [done|by apply (queue_ok_inactive _ _ _ t)|].
      symmetry. apply ent_ext; try done. intros b _. by apply tupd_when.
    - by rewrite tupd_lookup, decide_True, Ht. }
  unfold osEE_alarm_cancel. erewrite !bind_run by by apply get_alarm_run. fold a.
  erewrite !bind_run by by apply get_trigger_run. fold c.
  unfold pending in Hpend. destruct (tr_status t) eqn:Hst; simpl; try done; [|by apply Hpend..].
  set (T1 := tupd a (set_tr_status OSEE_TRIGGER_INACTIVE) T).
  assert (a ∈ l) as Ha by (apply (qo_mem _ _ _ _ Hq); by exists t).
  pose proof (qo_chain _ _ _ _ Hq) as Hch. pose proof (tseg_nodup _ _ _ Hch) as Hnd.
  apply list_elem_of_split in Ha as (x & y & ->).
  assert (Hax : a ∉ x ++ y).
  { rewrite <- Permutation_middle in Hnd. by apply NoDup_cons in Hnd as [? _]. }
  destruct (cancel_run T1 c cc x a y) as (T' & q & Hrun & Hc' & Hch' & Hrl); [done| |].
  { unfold T1. by rewrite nexts_tupd_keep. }
  assert (Hw : forall b, when_of T' b = when_of T b).
  { intros b. rewrite (relinked_when _ _ _ _ _ Hrl). by apply tupd_when. }
  assert (Hloc : local c T T').
  { eapply local_trans; [by apply (local_tupd a (set_tr_status OSEE_TRIGGER_INACTIVE) T t)|].
    eapply local_relinked; [exact Hrl|]. intros b tb Hb Htb. unfold T1 in Htb.
    rewrite tupd_lookup, decide_False in Htb
      by (intros <-; apply Hax, elem_of_app; by left).
    apply (queue_counter T c cc (x ++ a :: y) b); [done|apply elem_of_app; by left|done]. }
  assert (Hq' : queue_ok T' c (set_trigger_queue q cc) (x ++ y)).
  { split; [done| | |].
    - eapply Forall_impl; [|intros b; rewrite Hw; exact (fun H => H)].
      pose proof (qo_range _ _ _ _ Hq) as Hr. apply Forall_app in Hr as [? Hr].
      inversion_clear Hr. by apply Forall_app.
    - apply (sorted_ext (fun b => dist (maxallowedvalue cc) (tick_value cc) (when_of T b))).
      { intros b _. simpl. by rewrite Hw. }
      pose proof (qo_sorted _ _ _ _ Hq) as (H1 & H2 & H3)%StronglySorted_app.
      apply StronglySorted_app. split_and!; [|done|by inversion_clear H3].
      intros b1 b2 ??. apply H1; [done|by right].
    - intros b. split.
      + intros Hb. assert (b <> a) by congruence.
        assert (b ∈ x ++ a :: y) as Hb' by (rewrite elem_of_app, elem_of_cons in *; tauto).
        apply (qo_mem _ _ _ _ Hq) in Hb' as (tb & Htb & Hcb & Hsb).
        destruct (relinked_lookup _ _ _ _ b tb Hrl) as [n Hn]; [|by eexists].
        unfold T1. by rewrite tupd_lookup, decide_False.
      + intros (tb & Htb & Hcb & Hsb).
        destruct (relinked_status _ _ _ _ _ _ Hrl Htb) as (t0 & Ht0 & Hs0 & Hc0).
        unfold T1 in Ht0. rewrite tupd_lookup in Ht0. case_decide as Hba.
        * subst b. rewrite Ht in Ht0. injection Ht0 as <-. simpl in *. congruence.
        * assert (b ∈ x ++ a :: y) as Hb.
          { apply (qo_mem _ _ _ _ Hq). exists t0. split; [done|]. split; congruence. }
          rewrite elem_of_app, elem_of_cons in *. naive_solver. }
  exists T', (ent T cc x), (dist (maxallowedvalue cc) (tick_value cc) (when_of T a)), (ent T cc y).
  split_and!.
  - erewrite bind_run by by eapply upd_trigger_run. by erewrite bind_run by exact Hrun.
  - split; [|apply Hloc|].
    + eapply (timers_ok_local c); [done|done|done| |done]. by destruct (tk_counter _ HT _ _ Hc).
    + intros b tb _ Htb [Hpb1 Hpb2]. exists tb. split; [|done].
      rewrite (rl_trig _ _ _ _ Hrl); unfold T1.
      * rewrite tupd_lookup, decide_False; [done|]. intros <-. congruence.
      * intros Hbx. apply Hpb2. assert (b ∈ x ++ a :: y) as (t' & ? & _ & ?)%(qo_mem _ _ _ _ Hq)
          by (apply elem_of_app; by left). by simplify_eq.
  - unfold ent. by rewrite fmap_app.
  - exists (set_trigger_queue q cc), (x ++ y). split_and!; [done..|].
    unfold ent. rewrite fmap_app. simpl. f_equal; apply list_fmap_ext; intros i b _; by rewrite Hw.
  - rewrite (rl_trig _ _ _ _ Hrl) by (intros Hin; apply Hax, elem_of_app; by left).
    unfold T1. by rewrite tupd_lookup, decide_True, Ht.
Qed.

Lemma alarm_get_run T p al t cc es d :
  timers_ok T -> is_alarm T p al t cc -> entries T (tr_counter t) es -> (al_trigger al, d) ∈ es ->
  osEE_alarm_get p T = Some ((E_OK, Some (u64 d)), T).
Proof.
  intros HT [Hp Ht Hc] (cc' & l & Hc' & Hq & ->) Ha. simplify_eq.
  unfold ent in Ha. apply list_elem_of_fmap in Ha as (a & He & Ha). simplify_eq.
  pose proof Ha as (t' & Ht' & _ & Hst)%(qo_mem _ _ _ _ Hq). simplify_eq.
  unfold osEE_alarm_get. erewrite bind_run by by apply get_alarm_run.
  erewrite bind_run by by apply get_trigger_run. rewrite Hst. simpl.
  unfold osEE_counter_eval_delta. erewrite bind_run; [done|].
  erewrite bind_run by by apply get_counter_run. cbv beta. unfold mret, st_ret. f_equal. f_equal.
  destruct (tk_counter _ HT _ _ Hc) as [Htk _]. pose proof (qo_range _ _ _ _ Hq) as Hr.
  rewrite Forall_forall in Hr. specialize (Hr _ Ha). unfold when_of in *. rewrite Ht in *.
  by apply eval_delta_spec.
Qed.
