(* ===== verification/CounterApi.v ===== *)
(** * ERIKA: the counter, alarm and schedule table services

    Models the services of ee_oo_api_osek.c on the operations of [Counter],
    for a single core without service protection and error hook. The
    parameter [checks] is OSEE_HAS_CHECKS (extended status).

    The theorems give the alarm services on all branches, and follow an alarm
    from its setting to its expiry. *)

From Stdlib Require Import ZArith Lia.
From stdpp Require Import base tactics list option gmap sorting.
From S2P Require Import Prelude StateMonad Kernel Scheduler SchedPartitioned OsekApi.
From S2P Require Import Counter TriggerQueue Alarm.

(** ** Services *)
Definition osEE_is_valid_counter_id (t : timers) (counter_id : Z) : bool :=
  counter_id <? Z.of_nat (length (counter_ptrs t)).
Definition osEE_is_valid_alarm_id (t : timers) (alarm_id : Z) : bool :=
  alarm_id <? Z.of_nat (length (alarm_ptrs t)).
Definition osEE_is_valid_st_id (t : timers) (st_id : Z) : bool :=
  st_id <? Z.of_nat (length (st_ptrs t)).

Definition alarm_of_id (AlarmID : Z) : ST timers Z := from_option (fun t => aget (alarm_ptrs t) AlarmID).
Definition counter_of_id (CounterID : Z) : ST timers Z :=
  from_option (fun t => aget (counter_ptrs t) CounterID).
Definition st_of_id (ScheduleTableID : Z) : ST timers Z :=
  from_option (fun t => aget (st_ptrs t) ScheduleTableID).

(** A primitive on the timers, with interrupts masked. *)
Definition primitive {A} (m : ST timers A) : ST osk A :=
  flags ← on_core osEE_begin_primitive;
  x ← on_tmr m;
  _ ← on_core (osEE_end_primitive flags);
  mret x.

Section Services.
Context (checks : bool).

(** *** Alarms *)
Definition bad_cycle (c : OsEE_CounterDB) (cycle : Z) : bool :=
  negb (cycle =? 0) && ((cycle <? mincycle c) || (cycle >? maxallowedvalue c)).

Definition SetRelAlarm (AlarmID increment cycle : Z) : ST osk Z :=
  valid ← on_tmr (gets (fun t => osEE_is_valid_alarm_id t AlarmID));
  if negb valid then mret E_OS_ID
  else
    p_alarm_db ← on_tmr (alarm_of_id AlarmID);
    a ← on_tmr (get_alarm p_alarm_db);
    t ← on_tmr (get_trigger (al_trigger a));
    c ← on_tmr (get_counter (tr_counter t));
    if checks && ((increment =? 0) || (increment >? maxallowedvalue c) || bad_cycle c cycle)
    then mret E_OS_VALUE
    else primitive (osEE_alarm_set_rel (tr_counter t) p_alarm_db increment cycle).

Definition SetAbsAlarm (AlarmID start cycle : Z) : ST osk Z :=
  valid ← on_tmr (gets (fun t => osEE_is_valid_alarm_id t AlarmID));
  if negb valid then mret E_OS_ID
  else
    p_alarm_db ← on_tmr (alarm_of_id AlarmID);
    a ← on_tmr (get_alarm p_alarm_db);
    t ← on_tmr (get_trigger (al_trigger a));
    c ← on_tmr (get_counter (tr_counter t));
    if checks && ((start >? maxallowedvalue c) || bad_cycle c cycle)
    then mret E_OS_VALUE
    else primitive (osEE_alarm_set_abs (tr_counter t) p_alarm_db start cycle).

Definition CancelAlarm (AlarmID : Z) : ST osk Z :=
  valid ← on_tmr (gets (fun t => osEE_is_valid_alarm_id t AlarmID));
  if negb valid then mret E_OS_ID
  else
    p_alarm_db ← on_tmr (alarm_of_id AlarmID);
    primitive (osEE_alarm_cancel p_alarm_db).

(** A reference parameter is modelled by whether it is not [NULL]; the result
    is the status and what is written. *)
Definition GetAlarm (AlarmID : Z) (Tick : bool) : ST osk (Z * option Z) :=
  valid ← on_tmr (gets (fun t => osEE_is_valid_alarm_id t AlarmID));
  if negb valid then mret (E_OS_ID, None)
  else if negb Tick then mret (E_OS_PARAM_POINTER, None)
  else
    p_alarm_db ← on_tmr (alarm_of_id AlarmID);
    primitive (osEE_alarm_get p_alarm_db).

Record AlarmBaseType := mkAlarmBase { info_max : Z; info_ticksperbase : Z; info_mincycle : Z }.

Definition GetAlarmBase (AlarmID : Z) (Info : bool) : ST osk (Z * option AlarmBaseType) :=
  valid ← on_tmr (gets (fun t => osEE_is_valid_alarm_id t AlarmID));
  if negb valid then mret (E_OS_ID, None)
  else if negb Info then mret (E_OS_PARAM_POINTER, None)
  else
    p_alarm_db ← on_tmr (alarm_of_id AlarmID);
    a ← on_tmr (get_alarm p_alarm_db);
    t ← on_tmr (get_trigger (al_trigger a));
    c ← on_tmr (get_counter (tr_counter t));
    mret (E_OK, Some (mkAlarmBase (maxallowedvalue c) (ticksperbase c) (mincycle c))).

(** *** Counters *)
Definition GetCounterValue (CounterID : Z) (Value : bool) : ST osk (Z * option Z) :=
  valid ← on_tmr (gets (fun t => osEE_is_valid_counter_id t CounterID));
  if negb valid then mret (E_OS_ID, None)
  else if negb Value then mret (E_OS_PARAM_POINTER, None)
  else
    p_counter_db ← on_tmr (counter_of_id CounterID);
    c ← on_tmr (get_counter p_counter_db);
    mret (E_OK, Some (tick_value c)).

(** [Value] is read and written; the result has the new [Value] and the
    [ElapsedValue]. *)
Definition GetElapsedValue (CounterID : Z) (Value : option Z) (ElapsedValue : bool)
    : ST osk (Z * option (Z * Z)) :=
  valid ← on_tmr (gets (fun t => osEE_is_valid_counter_id t CounterID));
  if negb valid then mret (E_OS_ID, None)
  else
    match Value with
    | None => mret (E_OS_PARAM_POINTER, None)
    | Some local_value =>
        if negb ElapsedValue then mret (E_OS_PARAM_POINTER, None)
        else
          p_counter_db ← on_tmr (counter_of_id CounterID);
          c ← on_tmr (get_counter p_counter_db);
          if checks && (local_value >? maxallowedvalue c) then mret (E_OS_VALUE, None)
          else
            let curr := tick_value c in
            let elapsed := if curr >=? local_value then u64 (curr - local_value)
                           else u64 ((maxallowedvalue c - (local_value - curr)) + 1) in
            mret (E_OK, Some (curr, elapsed))
    end.

(** The result: the status, and whether the caller was preempted. *)
Definition IncrementCounter (callback : Z -> ST osk unit) (fuel : nat) (CounterID : Z)
    : ST osk (Z * bool) :=
  valid ← on_tmr (gets (fun t => osEE_is_valid_counter_id t CounterID));
  if negb valid then mret (E_OS_ID, false)
  else
    p_counter_db ← on_tmr (counter_of_id CounterID);
    flags ← on_core osEE_begin_primitive;
    _ ← osEE_counter_increment callback fuel p_counter_db;
    cb ← on_kernel get_ccb;
    d ← on_kernel (get_tdb (p_curr cb));
    switched ← (if is_plain_task d then on_kernel osEE_scheduler_task_preemption_point
                else mret false);
    _ ← on_core (end_primitive_if_here switched flags);
    mret (E_OK, switched).

(** *** Schedule tables *)
Definition StartScheduleTableRel (ScheduleTableID Offset : Z) : ST osk Z :=
  valid ← on_tmr (gets (fun t => osEE_is_valid_st_id t ScheduleTableID));
  if negb valid then mret E_OS_ID
  else
    p_st_db ← on_tmr (st_of_id ScheduleTableID);
    d ← on_tmr (get_st p_st_db);
    t ← on_tmr (get_trigger (st_trigger d));
    primitive (
      c ← get_counter (tr_counter t);
      if checks && bool_decide (sync_strategy d = OSEE_SCHEDTABLE_SYNC_IMPLICIT) then mret E_OS_ID
      else if checks && ((Offset =? 0) || (Offset >? maxallowedvalue c)) then mret E_OS_VALUE
      else
        d ← get_st p_st_db;
        if checks && negb (st_status d =? SCHEDULETABLE_STOPPED) then mret E_OS_STATE
        else osEE_st_start_rel (tr_counter t) p_st_db Offset).

Definition StartScheduleTableAbs (ScheduleTableID Start : Z) : ST osk Z :=
  valid ← on_tmr (gets (fun t => osEE_is_valid_st_id t ScheduleTableID));
  if negb valid then mret E_OS_ID
  else
    p_st_db ← on_tmr (st_of_id ScheduleTableID);
    d ← on_tmr (get_st p_st_db);
    t ← on_tmr (get_trigger (st_trigger d));
    primitive (
      c ← get_counter (tr_counter t);
      if checks && (Start >? maxallowedvalue c) then mret E_OS_VALUE
      else
        d ← get_st p_st_db;
        if checks && negb (st_status d =? SCHEDULETABLE_STOPPED) then mret E_OS_STATE
        else osEE_st_start_abs (tr_counter t) p_st_db Start).

Definition StopScheduleTable (ScheduleTableID : Z) : ST osk Z :=
  valid ← on_tmr (gets (fun t => osEE_is_valid_st_id t ScheduleTableID));
  if negb valid then mret E_OS_ID
  else
    p_st_db ← on_tmr (st_of_id ScheduleTableID);
    primitive (osEE_st_stop p_st_db).

Definition GetScheduleTableStatus (ScheduleTableID : Z) (ScheduleStatus : bool)
    : ST osk (Z * option Z) :=
  valid ← on_tmr (gets (fun t => osEE_is_valid_st_id t ScheduleTableID));
  if negb valid then mret (E_OS_ID, None)
  else if negb ScheduleStatus then mret (E_OS_PARAM_POINTER, None)
  else
    p_st_db ← on_tmr (st_of_id ScheduleTableID);
    d ← on_tmr (get_st p_st_db);
    mret (E_OK, Some (Z.land (st_status d) (u32 (Z.lnot SCHEDULETABLE_ASYNC)))).

(** The part of [NextScheduleTable] in the primitive. *)
Definition next_table_locked (p_from p_to : Z) : ST timers Z :=
  from ← get_st p_from;
  to ← get_st p_to;
  tf ← get_trigger (st_trigger from);
  tt_ ← get_trigger (st_trigger to);
  if checks && (negb (tr_counter tf =? tr_counter tt_)
                || bool_decide (sync_strategy from <> sync_strategy to)) then mret E_OS_ID
  else if checks && ((st_status from =? SCHEDULETABLE_STOPPED)
                     || (st_status from =? SCHEDULETABLE_NEXT)) then mret E_OS_NOFUNC
  else if checks && negb (st_status to =? SCHEDULETABLE_STOPPED) then mret E_OS_STATE
  else
    _ ← (if decide (p_next_table from <> NULL)
         then upd_st (p_next_table from) (set_st_status SCHEDULETABLE_STOPPED) else mret tt);
    _ ← upd_st p_from (set_p_next_table p_to);
    _ ← upd_st p_to (set_st_status SCHEDULETABLE_NEXT);
    mret E_OK.

Definition NextScheduleTable (ScheduleTableID_From ScheduleTableID_To : Z) : ST osk Z :=
  valid_from ← on_tmr (gets (fun t => osEE_is_valid_st_id t ScheduleTableID_From));
  valid_to ← on_tmr (gets (fun t => osEE_is_valid_st_id t ScheduleTableID_To));
  if negb valid_from || negb valid_to then mret E_OS_ID
  else
    p_from ← on_tmr (st_of_id ScheduleTableID_From);
    p_to ← on_tmr (st_of_id ScheduleTableID_To);
    primitive (next_table_locked p_from p_to).

Definition SyncScheduleTable (ScheduleTableID Value : Z) : ST osk Z :=
  valid ← on_tmr (gets (fun t => osEE_is_valid_st_id t ScheduleTableID));
  if negb valid then mret E_OS_ID
  else
    p_st_db ← on_tmr (st_of_id ScheduleTableID);
    primitive (
      d ← get_st p_st_db;
      if checks && bool_decide (sync_strategy d <> OSEE_SCHEDTABLE_SYNC_EXPLICIT) then mret E_OS_ID
      else if checks && (Value >=? duration d) then mret E_OS_VALUE
      else if checks && ((st_status d =? SCHEDULETABLE_STOPPED)
                         || (st_status d =? SCHEDULETABLE_NEXT)) then mret E_OS_STATE
      else osEE_st_syncronize p_st_db Value).

End Services.

(** ** Running the services *)
Lemma primitive_run {A} (m : ST timers A) s x T :
  m (tmr s) = Some (x, T) -> primitive m s = Some (x, mkOsk (core s) T).
Proof.
  destruct s as [[k f] T0]. intros H. unfold primitive.
  assert (Hb : on_core osEE_begin_primitive (mkOsk (mkCpu k f) T0) =
    Some (f, mkOsk (mkCpu k (Z.lor f OSEE_AARCH64_I_DAIF)) T0)) by done.
  erewrite bind_run by exact Hb. erewrite bind_run by (apply on_tmr_run; exact H).
  erewrite bind_run; [done|]. unfold on_core. cbn [core]. by rewrite end_primitive_run.
Qed.

Lemma primitive_Some {A} (m : ST timers A) s r :
  primitive m s = Some r -> exists x T, m (tmr s) = Some (x, T).
Proof.
  destruct r as [y s']. unfold primitive. intros (f & s1 & H1 & H)%bind_Some.
  apply bind_Some in H as (x & s2 & H2 & _). unfold on_tmr in H2.
  assert (tmr s1 = tmr s) as <- by (unfold on_core in H1; destruct (osEE_begin_primitive _) as [[? ?]|];
    [by injection H1 as _ <-|done]).
  destruct (m (tmr s1)) as [[x' T]|]; [by exists x', T|done].
Qed.

(** Alarm [AlarmID] of the application. *)
Record alarm_id (T : timers) (AlarmID p : Z) (al : OsEE_AlarmDB) (t : OsEE_TriggerDB)
    (cc : OsEE_CounterDB) : Prop := {
  ai_ptr : aget (alarm_ptrs T) AlarmID = Some p;
  ai_alarm : is_alarm T p al t cc
}.

Lemma valid_alarm_run T id p :
  aget (alarm_ptrs T) id = Some p -> osEE_is_valid_alarm_id T id = true.
Proof. intros H%aget_Some_range. unfold osEE_is_valid_alarm_id. apply Z.ltb_lt. lia. Qed.

Lemma gets_run {S A} (f : S -> A) s : gets f s = Some (f s, s).
Proof. done. Qed.

Section Valid.
Context (s : osk) (id p : Z) (al : OsEE_AlarmDB) (t : OsEE_TriggerDB) (cc : OsEE_CounterDB)
  (Hid : alarm_id (tmr s) id p al t cc).

Lemma alarm_prefix {A} (m : Z -> ST osk A) (e : ST osk A) :
  (valid ← on_tmr (gets (fun t => osEE_is_valid_alarm_id t id));
   if negb valid then e else p ← on_tmr (alarm_of_id id); m p) s = m p s.
Proof.
  destruct Hid as [Hp _]. destruct s as [cs Ts]. cbn [tmr] in *.
  erewrite bind_run by (apply on_tmr_run; apply gets_run). cbn [tmr core].
  rewrite (valid_alarm_run _ _ _ Hp). cbn [negb].
  erewrite bind_run; [done|]. unfold on_tmr, alarm_of_id, StateMonad.from_option. cbn [tmr].
  by rewrite Hp.
Qed.

Lemma alarm_data {A} (m : OsEE_AlarmDB -> OsEE_TriggerDB -> OsEE_CounterDB -> ST osk A) :
  (a ← on_tmr (get_alarm p); t ← on_tmr (get_trigger (al_trigger a));
   c ← on_tmr (get_counter (tr_counter t)); m a t c) s = m al t cc s.
Proof.
  destruct Hid as [_ [Ha Ht Hc]]. destruct s as [cs Ts]. cbn [tmr] in *.
  erewrite bind_run by (apply on_tmr_run; by apply get_alarm_run).
  erewrite bind_run by (apply on_tmr_run; by apply get_trigger_run).
  by erewrite bind_run by (apply on_tmr_run; by apply get_counter_run).
Qed.

End Valid.

(** ** Abstract time *)
Lemma elem_of_ent_insert x e es : x ∈ ent_insert e es <-> x = e \/ x ∈ es.
Proof.
  induction es as [|y es IH]; simpl; [by rewrite elem_of_cons|].
  case_decide; rewrite !elem_of_cons, ?IH; tauto.
Qed.

Lemma elem_of_reload T x l : forall es, x ∈ es -> x ∈ foldl (reload T) es l.
Proof.
  induction l as [|a l IH]; intros es Hx; [done|]. simpl. apply IH. unfold reload.
  destruct (cycle_of T a >? 0); [|done]. apply elem_of_ent_insert. by right.
Qed.

Lemma elem_of_ent_tick T a d es : (a, d) ∈ es -> d <> 1 -> (a, d - 1) ∈ ent_tick T es.
Proof.
  intros Ha Hd. apply elem_of_reload. unfold nearer. apply list_elem_of_fmap.
  exists (a, d). split; [done|]. by apply list_elem_of_filter.
Qed.

Lemma elem_of_due a es : (a, 1) ∈ es -> a ∈ due es.
Proof.
  intros Ha. unfold due. apply list_elem_of_fmap. exists (a, 1). split; [done|].
  by apply list_elem_of_filter.
Qed.

Lemma elem_of_ent_tick_due T a es :
  a ∈ due es -> 0 < cycle_of T a -> (a, cycle_of T a) ∈ ent_tick T es.
Proof.
  unfold ent_tick. intros (l1 & l2 & ->)%list_elem_of_split Hcy. rewrite foldl_app. simpl.
  apply elem_of_reload. unfold reload at 1. zcase; [|lia]. apply elem_of_ent_insert. by left.
Qed.

Section Time.
Context (cb : Z -> ST cpu unit) (I : cpu -> Prop).

(** The actions of all alarms act on the core only and keep [I]. *)
Definition quiet_ok (T : timers) : Prop :=
  forall p al k, alarm_mem T !! p = Some al -> I k ->
    exists ev k', core_act cb (al_action al) k = Some (ev, k') /\ I k'.

Lemma quiet_ok_config T T' : config T' = config T -> quiet_ok T -> quiet_ok T'.
Proof.
  intros Hcf H p al' k Hp HI. destruct (config_alarm _ _ (eq_sym Hcf) p al' Hp) as (al & Hal & _ & Hac).
  rewrite <- Hac. by eapply H.
Qed.

Lemma run_acts_total T l : forall k, quiet_ok T -> timers_ok T -> I k ->
  Forall (fun a => exists t, trigger_mem T !! a = Some t /\ tr_alarm t <> NULL) l ->
  exists k', run_acts cb T l k = Some (tt, k') /\ I k'.
Proof.
  induction l as [|a l IH]; intros k Hq HT HI Hl; [by exists k|].
  inversion_clear Hl as [|? ? (t & Ht & Hta) Hl'].
  destruct (alarm_linked _ a t HT Ht Hta) as (cc & al & [_ Hal _ _]).
  destruct (Hq _ al k Hal HI) as (ev & k1 & H1 & HI1).
  destruct (IH k1 Hq HT HI1 Hl') as (k2 & H2 & HI2). exists k2. split; [|done].
  simpl. unfold alarm_of. rewrite Ht. simpl. rewrite Hal. by erewrite bind_run by exact H1.
Qed.

Record quiet (s : osk) : Prop := {
  qt_I : I (core s);
  qt_ok : timers_ok (tmr s);
  qt_acts : quiet_ok (tmr s)
}.

Lemma entries_stored T c es :
  timers_ok T -> entries T c es ->
  Forall (fun a => exists t, trigger_mem T !! a = Some t /\ tr_alarm t <> NULL) (due es).
Proof.
  intros HT (cc & l & _ & Hq & ->). apply Forall_forall. intros a Ha. unfold due, ent in Ha.
  apply list_elem_of_fmap in Ha as (e & -> & He). apply list_elem_of_filter in He as [_ He].
  apply list_elem_of_fmap in He as (b & -> & Hb).
  apply (qo_mem _ _ _ _ Hq) in Hb as (t & Ht & _ & Hs). exists t. split; [done|].
  eapply started_alarm; [done|done|by rewrite Hs].
Qed.

Lemma increment_time s c cc es :
  quiet s -> counter_mem (tmr s) !! c = Some cc -> prescaler_ok cc -> entries (tmr s) c es ->
  exists s' cc', osEE_counter_increment (quiet_callback cb) 1 c s = Some (tt, s') /\ quiet s' /\
    local c (tmr s) (tmr s') /\ counter_mem (tmr s') !! c = Some cc' /\
    if is_tick cc then
      run_acts cb (tmr s) (due es) (core s) = Some (tt, core s') /\ phase cc' = 0 /\
      entries (tmr s') c (ent_tick (tmr s) es) /\
      Forall (fun a => cycle_of (tmr s) a <= 0 ->
        tr_status <$> trigger_mem (tmr s') !! a = Some OSEE_TRIGGER_INACTIVE) (due es)
    else core s' = core s /\ phase cc' = phase cc + 1 /\ entries (tmr s') c es.
Proof.
  intros [HI HT Hqt] Hc Hpo Hes. destruct (is_tick cc) eqn:Htick.
  - destruct (run_acts_total _ (due es) (core s) Hqt HT HI (entries_stored _ _ _ HT Hes)) as (k & Hk & HIk).
    destruct (increment_quiet cb 0 s c cc es k) as (T' & H1 & HT' & Hloc & Hes' & (cc' & Hc' & Hp) & Hoff); [done..|].
    exists (mkOsk k T'), cc'. split_and!; try done. split; [done|done|].
    by eapply quiet_ok_config; [apply Hloc|].
  - destruct (increment_between cb 0 s c cc es) as (T' & cc' & H1 & HT' & Hloc & Hes' & Hc' & Hp); [done..|].
    exists (mkOsk (core s) T'), cc'. split_and!; try done. split; [done|done|].
    by eapply quiet_ok_config; [apply Hloc|].
Qed.

Fixpoint increments_n (n : nat) (c : Z) : ST osk unit :=
  match n with
  | O => mret tt
  | Datatypes.S n => _ ← osEE_counter_increment (quiet_callback cb) 1 c; increments_n n c
  end.

(** The ticks of the next increments. *)
Definition ticks (cc : OsEE_CounterDB) (n : nat) : Z := (phase cc + Z.of_nat n) / base cc.

Lemma base_const cc cc' : counter_const cc' = counter_const cc -> base cc' = base cc.
Proof. intros H. unfold base. by injection H as _ -> _. Qed.

Lemma ticks_0 cc : prescaler_ok cc -> ticks cc 0 = 0.
Proof. intros [Hp _]. unfold ticks. apply Z.div_small. lia. Qed.

Lemma ticks_S cc cc' n :
  prescaler_ok cc -> counter_const cc' = counter_const cc -> phase cc' = (if is_tick cc then 0 else phase cc + 1) ->
  prescaler_ok cc' /\ ticks cc (Datatypes.S n) = ticks cc' n + (if is_tick cc then 1 else 0).
Proof.
  intros [Hp Hb] Hcc Hp'. unfold prescaler_ok, ticks. rewrite (base_const _ _ Hcc), Hp'. unfold is_tick.
  destruct (Z.leb_spec (base cc) (phase cc + 1)).
  - split; [lia|]. replace (phase cc + Z.of_nat (Datatypes.S n)) with (0 + Z.of_nat n + 1 * base cc) by lia.
    by rewrite Z.div_add by lia.
  - split; [lia|]. rewrite Z.add_0_r. f_equal. lia.
Qed.

(** A trigger comes nearer tick by tick. *)
Lemma increments_time a n : forall s c cc es d,
  quiet s -> counter_mem (tmr s) !! c = Some cc -> prescaler_ok cc -> entries (tmr s) c es ->
  (a, d) ∈ es -> ticks cc n < d ->
  exists s' cc' es', increments_n n c s = Some (tt, s') /\ quiet s' /\ local c (tmr s) (tmr s') /\
    counter_mem (tmr s') !! c = Some cc' /\ counter_const cc' = counter_const cc /\ prescaler_ok cc' /\
    ticks cc (Datatypes.S n) = ticks cc n + (if is_tick cc' then 1 else 0) /\
    entries (tmr s') c es' /\ (a, d - ticks cc n) ∈ es'.
Proof.
  induction n as [|n IH]; intros s c cc es d Hs Hc Hpo Hes Ha Hn.
  - exists s, cc, es. rewrite ticks_0, Z.sub_0_r by done. split_and!; try done; [by apply local_refl|].
    unfold ticks, is_tick. destruct Hpo as [Hp Hb]. destruct (Z.leb_spec (base cc) (phase cc + 1)).
    + replace (phase cc + Z.of_nat 1) with (0 + 1 * base cc) by lia. by rewrite Z.div_add by lia.
    + apply Z.div_small. lia.
  - destruct (increment_time s c cc es) as (s1 & cc1 & H1 & Hs1 & Hloc1 & Hc1 & Hcase); [done..|].
    destruct (config_counter _ _ (lo_config _ _ _ Hloc1) _ _ Hc) as (cc1' & Hc1' & _ & Hcc).
    assert (cc1' = cc1) as -> by congruence. clear Hc1'.
    assert (Hph : phase cc1 = if is_tick cc then 0 else phase cc + 1) by (destruct (is_tick cc); apply Hcase).
    destruct (ticks_S cc cc1 n Hpo Hcc Hph) as [Hpo1 Ht]. rewrite Ht in *.
    destruct (ticks_S cc cc1 (Datatypes.S n) Hpo Hcc Hph) as [_ Ht2].
    assert (exists es1, entries (tmr s1) c es1 /\ (a, d - if is_tick cc then 1 else 0) ∈ es1) as (es1 & Hes1 & Ha1).
    { assert (0 <= ticks cc1 n) by (destruct Hpo1; apply Z.div_pos; lia). destruct (is_tick cc).
      - exists (ent_tick (tmr s) es). split; [apply Hcase|]. apply elem_of_ent_tick; [done|lia].
      - exists es. rewrite Z.sub_0_r. split; [apply Hcase|done]. }
    destruct (IH s1 c cc1 es1 (d - if is_tick cc then 1 else 0)) as (s2 & cc2 & es2 & H2 & Hs2 & Hloc2 & Hc2 &
      Hcc2 & Hpo2 & Ht' & Hes2 & Ha2); [done|done|done|done|done|lia|].
    exists s2, cc2, es2. split_and!; try done.
    + cbn [increments_n]. by erewrite bind_run by exact H1.
    + by eapply local_trans.
    + congruence.
    + lia.
    + by replace (d - (ticks cc1 n + (if is_tick cc then 1 else 0)))
        with (d - (if is_tick cc then 1 else 0) - ticks cc1 n) by lia.
Qed.

End Time.

(** ** The alarm services on every branch *)
Lemma osk_eta s : mkOsk (core s) (tmr s) = s.
Proof. by destruct s. Qed.

Lemma alarm_id_config T T' id p al t cc :
  alarm_id T id p al t cc -> config T' = config T ->
  exists al' t' cc', alarm_id T' id p al' t' cc' /\ al_trigger al' = al_trigger al /\
    al_action al' = al_action al /\ tr_counter t' = tr_counter t /\ counter_const cc' = counter_const cc.
Proof.
  intros [Hp [Ha Ht Hc]] Hcf.
  destruct (config_alarm _ _ Hcf _ _ Ha) as (al' & Ha' & Htr & Hac).
  destruct (config_trigger _ _ Hcf _ _ Ht) as (t' & Ht' & Htc & _).
  destruct (config_counter _ _ Hcf _ _ Hc) as (cc' & Hc' & _ & Hcc).
  exists al', t', cc'. split_and!; try done. split.
  - injection Hcf as _ _ _ _ Hal _. by rewrite Hal.
  - split; congruence.
Qed.

(** The invalid identifier. *)
Lemma bad_alarm_prefix {A} (m : ST osk A) e s id :
  Z.of_nat (length (alarm_ptrs (tmr s))) <= id ->
  (valid ← on_tmr (gets (fun t => osEE_is_valid_alarm_id t id)); if negb valid then mret e else m) s =
  Some (e, s).
Proof.
  intros Hid. erewrite bind_run by (apply on_tmr_run; apply gets_run).
  unfold osEE_is_valid_alarm_id. rewrite (proj2 (Z.ltb_ge _ _)) by done.
  unfold mret, st_ret. cbn [negb]. by rewrite osk_eta.
Qed.

(** What a request to set an alarm at distance [d] does, by the status of its
    trigger; [es] is the queue before. *)
Definition set_outcome (r : option (Z * osk)) (s : osk) (al : OsEE_AlarmDB) (t : OsEE_TriggerDB)
    (es : list (Z * Z)) (d cyc : Z) : Prop :=
  match tr_status t with
  | OSEE_TRIGGER_INACTIVE => exists T', r = Some (E_OK, mkOsk (core s) T') /\ step [] (tmr s) T' /\
      cycle_of T' (al_trigger al) = cyc /\
      phase <$> counter_mem T' !! tr_counter t = phase <$> counter_mem (tmr s) !! tr_counter t /\
      entries T' (tr_counter t) (ent_insert (al_trigger al, d) es)
  | OSEE_TRIGGER_CANCELED => exists T' t', r = Some (E_OK, mkOsk (core s) T') /\ step [] (tmr s) T' /\
      entries T' (tr_counter t) es /\ trigger_mem T' !! al_trigger al = Some t' /\
      tr_status t' = OSEE_TRIGGER_REENABLED
  | _ => r = Some (E_OS_STATE, s)
  end.

Lemma set_abs_outcome s p al t cc es w cyc :
  timers_ok (tmr s) -> is_alarm (tmr s) p al t cc -> entries (tmr s) (tr_counter t) es ->
  0 <= w <= maxallowedvalue cc -> 0 <= cyc <= maxallowedvalue cc ->
  set_outcome (primitive (osEE_alarm_set_abs (tr_counter t) p w cyc) s) s al t es
    (dist (maxallowedvalue cc) (tick_value cc) w) cyc.
Proof.
  intros HT Hal Hes Hw Hcyc. pose proof (alarm_set_abs_run _ _ _ _ _ _ _ _ HT Hal Hes Hw Hcyc) as H.
  cbv zeta in H. unfold set_outcome. destruct (tr_status t).
  - destruct H as (T' & H & ?). exists T'. split; [by apply primitive_run|done].
  - destruct H as (T' & t' & H & ?). exists T', t'. split; [by apply primitive_run|done].
  - rewrite (primitive_run _ _ _ _ H). by rewrite osk_eta.
  - rewrite (primitive_run _ _ _ _ H). by rewrite osk_eta.
  - rewrite (primitive_run _ _ _ _ H). by rewrite osk_eta.
Qed.

Lemma bad_cycle_range cc cyc :
  bad_cycle cc cyc = false -> 0 <= cyc -> 0 <= maxallowedvalue cc -> 0 <= cyc <= maxallowedvalue cc.
Proof.
  unfold bad_cycle. intros H ??. split; [done|]. destruct (cyc =? 0) eqn:E; b2p; simpl in H; [lia|].
  apply orb_false_elim in H as [_ H]. b2p. lia.
Qed.

Lemma primitive_ext {A} (m1 m2 : ST timers A) s : m1 (tmr s) = m2 (tmr s) -> primitive m1 s = primitive m2 s.
Proof.
  destruct s as [[k f] T0]. intros H. unfold primitive, mbind, st_bind, on_core, on_tmr. simpl in *.
  by rewrite H.
Qed.

Lemma GetAlarm_run s id p al t cc x :
  alarm_id (tmr s) id p al t cc -> osEE_alarm_get p (tmr s) = Some (x, tmr s) ->
  GetAlarm id true s = Some (x, s).
Proof.
  intros Hid Hx. unfold GetAlarm. erewrite bind_run by (apply on_tmr_run; apply gets_run).
  cbn [tmr core]. rewrite (valid_alarm_run _ _ _ (ai_ptr _ _ _ _ _ _ Hid)). cbn [negb].
  erewrite bind_run.
  2: { unfold on_tmr, alarm_of_id, StateMonad.from_option. cbn [tmr core].
       by rewrite (ai_ptr _ _ _ _ _ _ Hid). }
  rewrite osk_eta. rewrite (primitive_run _ _ _ _ Hx). by rewrite osk_eta.
Qed.

Lemma GetAlarm_on s id p al t cc es d :
  timers_ok (tmr s) -> alarm_id (tmr s) id p al t cc -> entries (tmr s) (tr_counter t) es ->
  (al_trigger al, d) ∈ es -> GetAlarm id true s = Some ((E_OK, Some (u64 d)), s).
Proof.
  intros HT Hid Hes Ha. eapply GetAlarm_run; [exact Hid|].
  eapply alarm_get_run; [done|apply Hid|exact Hes|done].
Qed.

Lemma GetAlarm_off s id p al t cc :
  alarm_id (tmr s) id p al t cc -> trigger_code (tr_status t) <= 1 ->
  GetAlarm id true s = Some ((E_OS_NOFUNC, None), s).
Proof.
  intros Hid Hst. eapply GetAlarm_run; [exact Hid|]. destruct Hid as [_ [Hp Ht _]].
  unfold osEE_alarm_get. erewrite bind_run by by apply get_alarm_run.
  erewrite bind_run by by apply get_trigger_run. cbn [trigger_code]. by rewrite (proj2 (Z.leb_le _ _)).
Qed.

(** A good request. *)
Lemma set_args_ok cc x cyc :
  ticks_ok (maxallowedvalue cc) (tick_value cc) -> 0 <= x -> 0 <= cyc ->
  (x >? maxallowedvalue cc) || bad_cycle cc cyc = false ->
  0 <= x <= maxallowedvalue cc /\ 0 <= cyc <= maxallowedvalue cc.
Proof.
  intros Htk Hx Hcyc [Hb1 Hb2]%orb_false_elim. b2p. unfold ticks_ok in Htk. split; [lia|].
  apply bad_cycle_range; [done..|]. lia.
Qed.

Lemma SetRelAlarm_run checks s id p al t cc x cyc :
  alarm_id (tmr s) id p al t cc -> SetRelAlarm checks id x cyc s =
    (if checks && ((x =? 0) || ((x >? maxallowedvalue cc) || bad_cycle cc cyc)) then mret E_OS_VALUE
     else primitive (osEE_alarm_set_rel (tr_counter t) p x cyc)) s.
Proof.
  intros Hid. unfold SetRelAlarm. erewrite alarm_prefix by exact Hid.
  erewrite alarm_data by exact Hid. by rewrite orb_assoc.
Qed.

Lemma SetAbsAlarm_run checks s id p al t cc x cyc :
  alarm_id (tmr s) id p al t cc -> SetAbsAlarm checks id x cyc s =
    (if checks && ((x >? maxallowedvalue cc) || bad_cycle cc cyc) then mret E_OS_VALUE
     else primitive (osEE_alarm_set_abs (tr_counter t) p x cyc)) s.
Proof.
  intros Hid. unfold SetAbsAlarm. erewrite alarm_prefix by exact Hid. by erewrite alarm_data by exact Hid.
Qed.

Lemma SetRelAlarm_outcome checks s id p al t cc es x cyc :
  timers_ok (tmr s) -> alarm_id (tmr s) id p al t cc -> entries (tmr s) (tr_counter t) es ->
  0 < x -> 0 <= cyc -> (x >? maxallowedvalue cc) || bad_cycle cc cyc = false ->
  set_outcome (SetRelAlarm checks id x cyc s) s al t es x cyc.
Proof.
  intros HT Hid Hes Hx Hcyc Hb. pose proof Hid as [_ Hal].
  destruct (tk_counter _ HT _ _ (ia_counter _ _ _ _ _ Hal)) as [Htk _].
  destruct (set_args_ok cc x cyc Htk) as [Hx1 Hc1]; [lia|done..|].
  rewrite (SetRelAlarm_run _ _ _ _ _ _ _ _ _ Hid), Hb, (proj2 (Z.eqb_neq x 0)), andb_false_r by lia.
  destruct (eval_when_spec (maxallowedvalue cc) (tick_value cc) x Htk) as [Hw Hd]; [lia|].
  erewrite primitive_ext by (apply alarm_set_rel_abs; apply Hal).
  rewrite <- (Hd ltac:(lia)) at 2. by apply set_abs_outcome.
Qed.

Lemma SetAbsAlarm_outcome checks s id p al t cc es x cyc :
  timers_ok (tmr s) -> alarm_id (tmr s) id p al t cc -> entries (tmr s) (tr_counter t) es ->
  0 <= x -> 0 <= cyc -> (x >? maxallowedvalue cc) || bad_cycle cc cyc = false ->
  set_outcome (SetAbsAlarm checks id x cyc s) s al t es
    (dist (maxallowedvalue cc) (tick_value cc) x) cyc.
Proof.
  intros HT Hid Hes Hx Hcyc Hb. pose proof Hid as [_ Hal].
  destruct (tk_counter _ HT _ _ (ia_counter _ _ _ _ _ Hal)) as [Htk _].
  destruct (set_args_ok cc x cyc Htk) as [Hx1 Hc1]; [done..|].
  rewrite (SetAbsAlarm_run _ _ _ _ _ _ _ _ _ Hid), Hb, andb_false_r. by apply set_abs_outcome.
Qed.

(** Setting an alarm, relative or absolute. A good request on an idle alarm
    queues it at its distance; the request on a cancelled alarm whose action
    is running is accepted but not queued; all others are refused without
    effect. *)
Theorem set_alarm_correct (checks : bool) (s : osk) (id x cyc : Z) :
  timers_ok (tmr s) -> 0 <= x -> 0 <= cyc ->
  (Z.of_nat (length (alarm_ptrs (tmr s))) <= id ->
     SetRelAlarm checks id x cyc s = Some (E_OS_ID, s) /\
     SetAbsAlarm checks id x cyc s = Some (E_OS_ID, s)) /\
  (forall p al t cc es, alarm_id (tmr s) id p al t cc -> entries (tmr s) (tr_counter t) es ->
     let mx := maxallowedvalue cc in
     let bad := (x >? mx) || bad_cycle cc cyc in
     (checks = true -> (x =? 0) || bad = true -> SetRelAlarm checks id x cyc s = Some (E_OS_VALUE, s)) /\
     (checks = true -> bad = true -> SetAbsAlarm checks id x cyc s = Some (E_OS_VALUE, s)) /\
     (x <> 0 -> bad = false -> set_outcome (SetRelAlarm checks id x cyc s) s al t es x cyc) /\
     (bad = false -> set_outcome (SetAbsAlarm checks id x cyc s) s al t es
        (dist mx (tick_value cc) x) cyc)).
Proof.
  intros HT Hx Hcyc. split; [intros Hid; split; by apply bad_alarm_prefix|].
  intros p al t cc es Hid Hes. cbv zeta. split_and!.
  - intros -> Hb. by rewrite (SetRelAlarm_run _ _ _ _ _ _ _ _ _ Hid), Hb.
  - intros -> Hb. by rewrite (SetAbsAlarm_run _ _ _ _ _ _ _ _ _ Hid), Hb.
  - intros Hx0 Hb. eapply SetRelAlarm_outcome; [done..|lia|done|done].
  - intros Hb. by eapply SetAbsAlarm_outcome.
Qed.

Lemma CancelAlarm_run s id p al t cc :
  alarm_id (tmr s) id p al t cc -> CancelAlarm id s = primitive (osEE_alarm_cancel p) s.
Proof. intros Hid. unfold CancelAlarm. by erewrite alarm_prefix by exact Hid. Qed.

Lemma CancelAlarm_ok s id p al t cc :
  timers_ok (tmr s) -> alarm_id (tmr s) id p al t cc ->
  exists ev T', CancelAlarm id s = Some (ev, mkOsk (core s) T') /\ step [] (tmr s) T'.
Proof.
  intros HT Hid. rewrite (CancelAlarm_run _ _ _ _ _ _ Hid). pose proof Hid as [_ Hal].
  destruct (tk_counter _ HT _ _ (ia_counter _ _ _ _ _ Hal)) as (_ & l & Hq).
  assert (Hes : entries (tmr s) (tr_counter t) (ent (tmr s) cc l)).
  { exists cc, l. split; [apply Hal|done]. }
  pose proof (alarm_cancel_run _ _ _ _ _ _ HT Hal Hes) as H. cbv zeta in H.
  assert (Hfin : forall ev T', osEE_alarm_cancel p (tmr s) = Some (ev, T') -> step [] (tmr s) T' ->
    exists ev T', primitive (osEE_alarm_cancel p) s = Some (ev, mkOsk (core s) T') /\ step [] (tmr s) T').
  { intros ev T' H1 Hst. exists ev, T'. split; [by apply primitive_run|done]. }
  destruct (tr_status t).
  - eapply Hfin; [exact H|by apply step_refl].
  - eapply Hfin; [exact H|by apply step_refl].
  - destruct H as (T' & e1 & d & e2 & H & Hst & _). by eapply Hfin.
  - destruct H as (T' & H & Hst & _). by eapply Hfin.
  - destruct H as (T' & H & Hst & _). by eapply Hfin.
Qed.

(** Cancelling and reading an alarm. An active alarm leaves the queue and the
    others stay; a handled one is marked; an idle one has no time. *)
Theorem cancel_get_alarm_correct (s : osk) (id : Z) :
  timers_ok (tmr s) ->
  (Z.of_nat (length (alarm_ptrs (tmr s))) <= id ->
     CancelAlarm id s = Some (E_OS_ID, s) /\ forall Tick, GetAlarm id Tick s = Some ((E_OS_ID, None), s)) /\
  (forall p al t cc es, alarm_id (tmr s) id p al t cc -> entries (tmr s) (tr_counter t) es ->
     let a := al_trigger al in let c := tr_counter t in
     GetAlarm id false s = Some ((E_OS_PARAM_POINTER, None), s) /\
     match tr_status t with
     | OSEE_TRIGGER_INACTIVE | OSEE_TRIGGER_CANCELED =>
         CancelAlarm id s = Some (E_OS_NOFUNC, s) /\ GetAlarm id true s = Some ((E_OS_NOFUNC, None), s)
     | OSEE_TRIGGER_ACTIVE => exists T' e1 d e2,
         es = e1 ++ (a, d) :: e2 /\ GetAlarm id true s = Some ((E_OK, Some (u64 d)), s) /\
         CancelAlarm id s = Some (E_OK, mkOsk (core s) T') /\ step [] (tmr s) T' /\
         entries T' c (e1 ++ e2) /\
         GetAlarm id true (mkOsk (core s) T') = Some ((E_OS_NOFUNC, None), mkOsk (core s) T')
     | _ => exists T', CancelAlarm id s = Some (E_OK, mkOsk (core s) T') /\ step [] (tmr s) T' /\
         entries T' c es /\ tr_status <$> trigger_mem T' !! a = Some OSEE_TRIGGER_CANCELED
     end).
Proof.
  intros HT. split.
  { intros Hid. split; [by apply bad_alarm_prefix|]. intros. by apply bad_alarm_prefix. }
  intros p al t cc es Hid Hes a c. pose proof Hid as [_ Hal].
  assert (Hcan : CancelAlarm id s = primitive (osEE_alarm_cancel p) s).
  { by eapply CancelAlarm_run. }
  assert (Hnull : GetAlarm id false s = Some ((E_OS_PARAM_POINTER, None), s)).
  { unfold GetAlarm. erewrite bind_run by (apply on_tmr_run; apply gets_run). cbn [tmr core].
    rewrite (valid_alarm_run _ _ _ (ai_ptr _ _ _ _ _ _ Hid)). cbn. by rewrite osk_eta. }
  split; [exact Hnull|]. pose proof (alarm_cancel_run _ _ _ _ _ _ HT Hal Hes) as H. cbv zeta in H.
  destruct (tr_status t) eqn:Hst.
  - rewrite Hcan, (primitive_run _ _ _ _ H), osk_eta. split; [done|].
    erewrite GetAlarm_off; [done|exact Hid|]. by rewrite Hst.
  - rewrite Hcan, (primitive_run _ _ _ _ H), osk_eta. split; [done|].
    erewrite GetAlarm_off; [done|exact Hid|]. by rewrite Hst.
  - destruct H as (T' & e1 & d & e2 & Hrun & Hstp & -> & Hes' & Hoff). exists T', e1, d, e2.
    split; [done|]. split.
    { eapply GetAlarm_on; [done|exact Hid|exact Hes|]. apply elem_of_app. right. left. }
    rewrite Hcan, (primitive_run _ _ _ _ Hrun). split_and!; [done..|].
    destruct (alarm_id_config _ _ _ _ _ _ _ Hid (stp_config _ _ _ Hstp))
      as (al' & t' & cc' & Hid' & Htr & _).
    eapply GetAlarm_off; [exact Hid'|]. rewrite <- Htr in Hoff.
    destruct Hid' as [_ [_ Ht' _]]. rewrite Ht' in Hoff. injection Hoff as ->. done.
  - destruct H as (T' & Hrun & Hstp & ? & ?). exists T'. rewrite Hcan. split; [by apply primitive_run|done].
  - destruct H as (T' & Hrun & Hstp & ? & ?). exists T'. rewrite Hcan. split; [by apply primitive_run|done].
Qed.

(** ** Counter values *)
Record counter_id (T : timers) (CounterID c : Z) (cc : OsEE_CounterDB) : Prop := {
  ci_ptr : aget (counter_ptrs T) CounterID = Some c;
  ci_counter : counter_mem T !! c = Some cc
}.

Lemma counter_prefix {A} (m : Z -> ST osk A) (e : ST osk A) s id c cc :
  counter_id (tmr s) id c cc ->
  (valid ← on_tmr (gets (fun t => osEE_is_valid_counter_id t id));
   if negb valid then e else p ← on_tmr (counter_of_id id); m p) s = m c s.
Proof.
  intros [Hp _]. destruct s as [cs Ts]. cbn [tmr] in *.
  erewrite bind_run by (apply on_tmr_run; apply gets_run). cbn [tmr core].
  unfold osEE_is_valid_counter_id. pose proof Hp as Hr%aget_Some_range.
  rewrite (proj2 (Z.ltb_lt _ _)) by lia. cbn [negb].
  erewrite bind_run; [done|]. unfold on_tmr, counter_of_id, StateMonad.from_option. cbn [tmr].
  by rewrite Hp.
Qed.

(** The elapsed value is the number of ticks since the given value, modulo
    the period of the counter; a value beyond the maximum is refused. *)
Theorem elapsed_value_correct (checks : bool) (s : osk) (id c old : Z) (cc : OsEE_CounterDB) :
  counter_id (tmr s) id c cc -> ticks_ok (maxallowedvalue cc) (tick_value cc) -> 0 <= old ->
  (old <= maxallowedvalue cc -> GetElapsedValue checks id (Some old) true s =
     Some ((E_OK, Some (tick_value cc, (tick_value cc - old) mod (maxallowedvalue cc + 1))), s)) /\
  (checks = true -> maxallowedvalue cc < old ->
     GetElapsedValue checks id (Some old) true s = Some ((E_OS_VALUE, None), s)) /\
  GetCounterValue id true s = Some ((E_OK, Some (tick_value cc)), s).
Proof.
  intros Hid Htk Hold. destruct s as [cs Ts]. cbn [tmr] in *. pose proof Hid as [Hp Hc].
  assert (Hpre : GetElapsedValue checks id (Some old) true (mkOsk cs Ts) =
    Some (if checks && (old >? maxallowedvalue cc) then (E_OS_VALUE, None)
     else (E_OK, Some (tick_value cc,
       if tick_value cc >=? old then u64 (tick_value cc - old)
       else u64 ((maxallowedvalue cc - (old - tick_value cc)) + 1))), mkOsk cs Ts)).
  { unfold GetElapsedValue. cbn [negb].
    erewrite (counter_prefix _ _ (mkOsk cs Ts)) by exact Hid.
    erewrite bind_run by (apply on_tmr_run; by apply get_counter_run). by destruct (checks && _). }
  rewrite !Hpre. unfold ticks_ok in Htk. split_and!.
  - intros Ho. rewrite Z.gtb_ltb, (proj2 (Z.ltb_ge _ _)), andb_false_r by lia.
    do 6 f_equal. zcase.
    + rewrite u64_small by lia. by rewrite Z.mod_small by lia.
    + rewrite u64_small by lia. apply (Z.mod_unique _ _ (-1)); lia.
  - intros -> Ho. by rewrite Z.gtb_ltb, (proj2 (Z.ltb_lt _ _)).
  - unfold GetCounterValue. cbn [negb]. erewrite (counter_prefix _ _ (mkOsk cs Ts)) by exact Hid.
    by erewrite bind_run by (apply on_tmr_run; by apply get_counter_run).
Qed.

(** ** Alarms run on time *)
Lemma ent_unique T cc l a d1 d2 : (a, d1) ∈ ent T cc l -> (a, d2) ∈ ent T cc l -> d1 = d2.
Proof.
  intros (x & Hx & _)%list_elem_of_fmap (y & Hy & _)%list_elem_of_fmap. by simplify_eq.
Qed.

Lemma due_unique T c es a d : entries T c es -> (a, d) ∈ es -> a ∈ due es <-> d = 1.
Proof.
  intros (cc & l & _ & _ & ->) Ha. split; [|intros ->; by apply elem_of_due].
  unfold due. intros ([b e] & Hb & [He Hin]%list_elem_of_filter)%list_elem_of_fmap. simpl in *.
  subst b e. by apply (ent_unique T cc l a).
Qed.

(** C37: An alarm that is off and is set [x] ticks ahead, with no cycle or a
    valid one, answers the ticks left after each increment of its counter, and
    its action is among those that an increment runs exactly at the increment
    that makes the [x]-th tick; then it answers its cycle, or that it is off.
    A counter with a prescaler makes a tick every [base] increments; those
    that make none run nothing. This is for a
    system that is at rest otherwise: the actions of all alarms activate tasks,
    set events or call functions that use no counter or alarm, and end (a
    function is free to set, cancel or increment: then the time changes); no
    schedule table is started; and nobody else sets or cancels an alarm of the
    counter meanwhile. *)
Theorem alarm_expires_on_time (checks : bool) (cb : Z -> ST cpu unit) (I : cpu -> Prop) (s : osk)
    (id p x cyc : Z) (al : OsEE_AlarmDB) (t : OsEE_TriggerDB) (cc : OsEE_CounterDB) :
  quiet cb I s -> alarm_id (tmr s) id p al t cc -> tr_status t = OSEE_TRIGGER_INACTIVE ->
  prescaler_ok cc -> 0 < x <= maxallowedvalue cc -> 0 <= cyc -> bad_cycle cc cyc = false ->
  let c := tr_counter t in let a := al_trigger al in
  exists s0, SetRelAlarm checks id x cyc s = Some (E_OK, s0) /\
    forall n, ticks cc n < x -> exists s1 es s2,
      let run := if ticks cc (Datatypes.S n) =? ticks cc n then [] else due es in
      increments_n cb n c s0 = Some (tt, s1) /\
      GetAlarm id true s1 = Some ((E_OK, Some (x - ticks cc n)), s1) /\
      entries (tmr s1) c es /\ (a ∈ run <-> ticks cc (Datatypes.S n) = x) /\
      osEE_counter_increment (quiet_callback cb) 1 c s1 = Some (tt, s2) /\
      run_acts cb (tmr s1) run (core s1) = Some (tt, core s2) /\
      (ticks cc (Datatypes.S n) = x ->
         GetAlarm id true s2 = Some (if cyc =? 0 then (E_OS_NOFUNC, None) else (E_OK, Some cyc), s2)).
Proof.
  intros Hs Hid Hst Hpo Hx Hcyc Hbad c a. pose proof Hid as [_ Hal]. pose proof (qt_ok _ _ _ Hs) as HT.
  destruct (tk_counter _ HT _ _ (ia_counter _ _ _ _ _ Hal)) as (Htk & l & Hq).
  assert (Hes : entries (tmr s) c (ent (tmr s) cc l)) by (exists cc, l; split; [apply Hal|done]).
  pose proof (SetRelAlarm_outcome checks s id p al t cc _ x cyc HT Hid Hes) as Hset.
  unfold set_outcome in Hset. rewrite Hst in Hset.
  destruct Hset as (T0 & Hset & Hst0 & Hcy0 & Hph0 & Hes0); [lia|done| |].
  { rewrite Hbad, orb_false_r, Z.gtb_ltb. apply Z.ltb_ge. lia. }
  exists (mkOsk (core s) T0). split; [exact Hset|]. intros n Hn.
  destruct (alarm_id_config _ _ _ _ _ _ _ Hid (stp_config _ _ _ Hst0))
    as (al0 & t0 & cc0 & Hid0 & Htr0 & _ & Htc0 & Hcc0).
  assert (Hs0 : quiet cb I (mkOsk (core s) T0)).
  { split; [apply Hs|apply Hst0|]. eapply quiet_ok_config; [apply Hst0|apply Hs]. }
  pose proof (ia_counter _ _ _ _ _ (ai_alarm _ _ _ _ _ _ Hid0)) as Hc0. rewrite Htc0 in Hc0.
  assert (Hb0 : base cc0 = base cc) by by apply base_const.
  assert (Hp0 : phase cc0 = phase cc).
  { rewrite Hc0, (ia_counter _ _ _ _ _ Hal) in Hph0. by injection Hph0. }
  assert (Hpo0 : prescaler_ok cc0) by (unfold prescaler_ok; by rewrite Hb0, Hp0).
  assert (Ht0 : forall m, ticks cc0 m = ticks cc m) by (intros m; unfold ticks; by rewrite Hb0, Hp0).
  destruct (increments_time cb I a n (mkOsk (core s) T0) c cc0 (ent_insert (a, x) (ent (tmr s) cc l)) x)
    as (s1 & cc1 & es1 & H1 & Hs1 & Hloc1 & Hc1 & Hcc1 & Hpo1 & HtS & Hes1 & Ha1); try done.
  { apply elem_of_ent_insert. by left. }
  { by rewrite Ht0. }
  rewrite !Ht0 in *.
  destruct (increment_time cb I s1 c cc1 es1) as (s2 & cc2 & H2 & Hs2 & Hloc2 & Hc2 & Hcase); try done.
  destruct (alarm_id_config _ _ _ _ _ _ _ Hid0 (lo_config _ _ _ Hloc1))
    as (al1 & t1 & cc1' & Hid1 & Htr1 & _ & Htc1 & _).
  exists s1, es1, s2. cbv zeta. split_and!; try done.
  - assert (0 <= ticks cc n) by (destruct Hpo; apply Z.div_pos; lia).
    unfold ticks_ok in Htk. rewrite (GetAlarm_on s1 id p al1 t1 cc1' es1 (x - ticks cc n)); [|by apply Hs1|exact Hid1| |].
    + rewrite u64_small by lia. done.
    + rewrite Htc1, Htc0. exact Hes1.
    + rewrite Htr1, Htr0. exact Ha1.
  - rewrite HtS. destruct (is_tick cc1).
    + rewrite (proj2 (Z.eqb_neq _ _)) by lia. rewrite (due_unique _ _ _ _ _ Hes1 Ha1). lia.
    + rewrite Z.add_0_r, Z.eqb_refl. split; [intros []%not_elem_of_nil|lia].
  - rewrite HtS. destruct (is_tick cc1); destruct Hcase as [Hacts _].
    + by rewrite (proj2 (Z.eqb_neq _ _)) by lia.
    + rewrite Z.add_0_r, Z.eqb_refl. cbn. by rewrite Hacts.
  - intros Hnx. rewrite HtS in Hnx. destruct (is_tick cc1); [|lia]. destruct Hcase as (_ & _ & Hes2 & Hoff).
    assert (Ha : a ∈ due es1) by (apply (due_unique _ _ _ _ _ Hes1 Ha1); lia).
    destruct (alarm_id_config _ _ _ _ _ _ _ Hid1 (lo_config _ _ _ Hloc2))
      as (al2 & t2 & cc2' & Hid2 & Htr2 & _ & Htc2 & _).
    assert (Hcy1 : cycle_of (tmr s1) a = cyc).
    { rewrite <- Hcy0. unfold cycle_of. erewrite (alarm_of_config T0); [done|apply Hloc1|apply Hloc1|].
      destruct Hid0 as [_ [_ Htt _]]. rewrite Htr0 in Htt. by exists t0. }
    zcase.
    + eapply GetAlarm_off; [exact Hid2|]. rewrite Forall_forall in Hoff.
      specialize (Hoff a Ha ltac:(lia)). destruct Hid2 as [_ [_ Htt _]].
      rewrite Htr2, Htr1, Htr0 in Htt. fold a in Htt. rewrite Htt in Hoff. injection Hoff as ->. done.
    + erewrite (GetAlarm_on s2 id p al2 t2 cc2' _ cyc); [| |exact Hid2| |].
      * assert (cyc <= maxallowedvalue cc) by (eapply bad_cycle_range; [done|done|unfold ticks_ok in Htk; lia]).
        unfold ticks_ok in Htk. rewrite u64_small by lia. done.
      * apply Hs2.
      * rewrite Htc2, Htc1, Htc0. exact Hes2.
      * rewrite Htr2, Htr1, Htr0. fold a. rewrite <- Hcy1. apply elem_of_ent_tick_due; [done|lia].
Qed.

(** ** Increments *)

(** C38: An increment of a counter ends and keeps the timers in order, also when
    its actions set and cancel alarms, the one that is being handled included,
    and increment other counters: every queue is still the list of exactly the
    active alarms of its counter, without a cycle and sorted by the time left,
    every alarm is linked to its trigger and counter ([good]), and the
    configuration is what it was. What the actions have to do for this: those
    on tasks and events end, from every state of the kernel with an invariant
    [I], and keep it; the functions that alarms call end, keep [I], and
    change counters and alarms as the services do ([step]: in order again, and
    the alarms that are being handled are not unlinked); and an alarm
    increments counters of lower rank only, where fuel above the rank is
    enough. Schedule tables may exist, but none is started: their expiry points are
    the subject of [SchedTable], where a table is shown to put its trigger
    behind the maximum of the counter, which blocks the queue. *)
Theorem increment_terminates (callback : Z -> ST osk unit) (I : kernel -> Prop) (rank : Z -> nat)
    (fuel : nat) (s : osk) (c : Z) :
  good callback I rank s -> is_Some (counter_mem (tmr s) !! c) -> (rank c < fuel)%nat ->
  exists s', osEE_counter_increment callback fuel c s = Some (tt, s') /\
    good callback I rank s' /\ config (tmr s') = config (tmr s).
Proof.
  intros Hs Hc Hr. destruct (increment_ok_run callback I rank fuel c Hr s Hs Hc) as (s' & H & HI & Hst).
  exists s'. split; [done|]. split; [by eapply good_step|apply Hst].
Qed.

(** With actions that leave the timers alone, an increment of the linked
    queue is the abstract tick on its list of triggers and distances, and the
    due actions run in order. *)
Theorem increment_refines_tick (cb : Z -> ST cpu unit) (fuel : nat) (s : osk) (c : Z)
    (cc : OsEE_CounterDB) (es : list (Z * Z)) (k : cpu) :
  timers_ok (tmr s) -> counter_mem (tmr s) !! c = Some cc -> prescaler_ok cc -> is_tick cc = true ->
  entries (tmr s) c es -> run_acts cb (tmr s) (due es) (core s) = Some (tt, k) ->
  exists T', osEE_counter_increment (quiet_callback cb) (Datatypes.S fuel) c s =
      Some (tt, mkOsk k T') /\
    timers_ok T' /\ local c (tmr s) T' /\ entries T' c (ent_tick (tmr s) es).
Proof.
  intros HT Hc Hpo Htk Hes Hk.
  destruct (increment_quiet cb fuel s c cc es k HT Hc Hpo Htk Hes Hk) as (T' & ? & ? & ? & ? & _). eauto.
Qed.

(** ** Alarms that are cancelled by their own action *)
Section Operations.
Context (callback : Z -> ST osk unit) (I : kernel -> Prop) (rank : Z -> nat) (fuel : nat).

(** Everything a program can do with counters and alarms. *)
Inductive timer_op : osk -> osk -> Prop :=
| op_increment c s s' :
    is_Some (counter_mem (tmr s) !! c) -> (rank c < fuel)%nat ->
    osEE_counter_increment callback fuel c s = Some (tt, s') -> timer_op s s'
| op_set_rel id x cyc ev s s' :
    0 <= x -> 0 <= cyc -> SetRelAlarm true id x cyc s = Some (ev, s') -> timer_op s s'
| op_set_abs id x cyc ev s s' :
    0 <= x -> 0 <= cyc -> SetAbsAlarm true id x cyc s = Some (ev, s') -> timer_op s s'
| op_cancel id ev s s' : CancelAlarm id s = Some (ev, s') -> timer_op s s'.

Lemma set_outcome_step r s s' al t es d cyc ev :
  good callback I rank s -> set_outcome r s al t es d cyc -> r = Some (ev, s') ->
  I (ck (core s')) /\ step [] (tmr s) (tmr s').
Proof.
  intros Hs H ->. unfold set_outcome in H. assert (step [] (tmr s) (tmr s)) by apply step_refl, Hs.
  destruct (tr_status t).
  - destruct H as (T' & [= -> ->] & Hst & _). split; [apply Hs|done].
  - destruct H as (T' & t' & [= -> ->] & Hst & _). split; [apply Hs|done].
  - injection H as -> ->. split; [apply Hs|done].
  - injection H as -> ->. split; [apply Hs|done].
  - injection H as -> ->. split; [apply Hs|done].
Qed.

(** A service on an alarm that exists, or an error. *)
Lemma alarm_cases {A} (m : Z -> ST osk A) e s id r :
  good callback I rank s ->
  (valid ← on_tmr (gets (fun t => osEE_is_valid_alarm_id t id));
   if negb valid then mret e else p ← on_tmr (alarm_of_id id); m p) s = Some r ->
  r = (e, s) \/ exists p, aget (alarm_ptrs (tmr s)) id = Some p /\ m p s = Some r.
Proof.
  intros Hs H. erewrite bind_run in H by (apply on_tmr_run; apply gets_run).
  cbn [tmr core] in H. rewrite osk_eta in H.
  destruct (osEE_is_valid_alarm_id (tmr s) id); cbn [negb] in H.
  - right. unfold on_tmr, alarm_of_id, StateMonad.from_option, mbind, st_bind in H.
    destruct (aget (alarm_ptrs (tmr s)) id) as [p|]; [|done]. cbn in H. rewrite osk_eta in H. eauto.
  - left. by injection H.
Qed.

Lemma stored_alarm T p al :
  timers_ok T -> alarm_mem T !! p = Some al -> exists t cc l, is_alarm T p al t cc /\
    entries T (tr_counter t) (ent T cc l).
Proof.
  intros HT Hp. destruct (tk_alarm _ HT _ _ Hp) as (_ & t & Ht & Hta).
  destruct (alarm_linked _ _ t HT Ht (alarm_trigger _ _ _ _ HT Hp Ht)) as (cc & al' & [Hc _ _ _]).
  destruct (tk_counter _ HT _ _ Hc) as (_ & l & Hq). exists t, cc, l. split; [by split|].
  by exists cc, l.
Qed.

Lemma get_alarm_Some {A} p (f : OsEE_AlarmDB -> ST osk A) s r :
  (a ← on_tmr (get_alarm p); f a) s = Some r -> exists al, alarm_mem (tmr s) !! p = Some al.
Proof.
  unfold on_tmr, get_alarm, StateMonad.from_option, mbind, st_bind.
  destruct (alarm_mem (tmr s) !! p) as [al|]; [by exists al|done].
Qed.

Lemma timer_op_step s s' :
  good callback I rank s -> timer_op s s' -> I (ck (core s')) /\ step [] (tmr s) (tmr s').
Proof.
  intros Hs H. assert (Hno : I (ck (core s)) /\ step [] (tmr s) (tmr s)).
  { split; [apply Hs|apply step_refl, Hs]. }
  destruct H as [c s s' Hc Hr H|id x cyc ev s s' Hx Hcyc H|id x cyc ev s s' Hx Hcyc H|id ev s s' H].
  - destruct (increment_ok_run callback I rank fuel c Hr s Hs Hc) as (s1 & H1 & HI & Hst).
    rewrite H in H1. injection H1 as ->. by split.
  - pose proof H as [[= -> ->]|(p & Hp & H1)]%(alarm_cases _ _ _ _ _ Hs); [done|].
    apply get_alarm_Some in H1 as [al Hal].
    destruct (stored_alarm _ _ _ (gd_ok _ _ _ _ Hs) Hal) as (t & cc & l & Hia & Hes).
    assert (Hid : alarm_id (tmr s) id p al t cc) by by split.
    destruct ((x =? 0) || ((x >? maxallowedvalue cc) || bad_cycle cc cyc)) eqn:Hb.
    + rewrite (SetRelAlarm_run _ _ _ _ _ _ _ _ _ Hid), Hb in H. injection H as <- <-. done.
    + apply orb_false_elim in Hb as [Hx0 Hb]. apply Z.eqb_neq in Hx0. eapply set_outcome_step; [done| |exact H].
      eapply SetRelAlarm_outcome; [apply Hs|exact Hid|exact Hes|lia|done|done].
  - pose proof H as [[= -> ->]|(p & Hp & H1)]%(alarm_cases _ _ _ _ _ Hs); [done|].
    apply get_alarm_Some in H1 as [al Hal].
    destruct (stored_alarm _ _ _ (gd_ok _ _ _ _ Hs) Hal) as (t & cc & l & Hia & Hes).
    assert (Hid : alarm_id (tmr s) id p al t cc) by by split.
    destruct ((x >? maxallowedvalue cc) || bad_cycle cc cyc) eqn:Hb.
    + rewrite (SetAbsAlarm_run _ _ _ _ _ _ _ _ _ Hid), Hb in H. injection H as <- <-. done.
    + eapply set_outcome_step; [done| |exact H].
      eapply SetAbsAlarm_outcome; [apply Hs|exact Hid|exact Hes|done|done|done].
  - pose proof H as [[= -> ->]|(p & Hp & H1)]%(alarm_cases _ _ _ _ _ Hs); [done|].
    destruct (alarm_mem (tmr s) !! p) as [al|] eqn:Hal.
    2: { apply primitive_Some in H1 as (x & T' & H1). unfold osEE_alarm_cancel, get_alarm,
         StateMonad.from_option, mbind, st_bind in H1. cbn in H1. by rewrite Hal in H1. }
    destruct (stored_alarm _ _ _ (gd_ok _ _ _ _ Hs) Hal) as (t & cc & l & Hia & Hes).
    destruct (CancelAlarm_ok s id p al t cc) as (ev' & T' & H2 & Hst); [apply Hs|by split|].
    rewrite H in H2. injection H2 as -> ->. split; [apply Hs|done].
Qed.

Lemma timer_ops_step s s' :
  good callback I rank s -> rtc timer_op s s' -> good callback I rank s' /\ step [] (tmr s) (tmr s').
Proof.
  intros Hs H. induction H as [s|s s1 s' H1 _ IH].
  - split; [done|]. apply step_refl, Hs.
  - destruct (timer_op_step _ _ Hs H1) as [HI Hst]. pose proof (good_step _ _ _ _ _ _ Hs HI Hst) as Hs1.
    destruct (IH Hs1) as [? Hst']. split; [done|]. by eapply step_trans.
Qed.

End Operations.

(** An alarm cancelled while its own action runs never gets back to a state in
    which it can be set: no sequence of increments and alarm services ever
    queues it again. *)
Theorem cancelled_in_action_dead (callback : Z -> ST osk unit) (I : kernel -> Prop) (rank : Z -> nat)
    (fuel : nat) (s s' : osk) (a : Z) (t : OsEE_TriggerDB) :
  good callback I rank s -> trigger_mem (tmr s) !! a = Some t ->
  tr_status t = OSEE_TRIGGER_CANCELED \/ tr_status t = OSEE_TRIGGER_REENABLED ->
  rtc (timer_op callback rank fuel) s s' ->
  exists t', trigger_mem (tmr s') !! a = Some t' /\
    tr_status t' <> OSEE_TRIGGER_INACTIVE /\ tr_status t' <> OSEE_TRIGGER_ACTIVE /\
    forall c es d, entries (tmr s') c es -> (a, d) ∉ es.
Proof.
  intros Hs Ht Hst Hops. destruct (timer_ops_step _ _ _ _ _ _ Hs Hops) as [Hs' Hstp].
  destruct (stp_pend _ _ _ Hstp a t) as (t' & Ht' & [H1 H2] & _); [apply not_elem_of_nil|done| |].
  { unfold pending. by destruct Hst as [-> | ->]. }
  exists t'. split_and!; [done..|]. intros c es d (cc & l & _ & Hq & ->) Ha.
  apply list_elem_of_fmap in Ha as (b & ? & Hb). simplify_eq.
  apply (qo_mem _ _ _ _ Hq) in Hb as (t2 & Ht2 & _ & Hs2). simplify_eq.
Qed.

(** ** Instances

    Two counters; the first is at 8 of 0 to 9 and has an alarm due at 0 every
    5 ticks, an idle one, and a schedule table that is not started. It ticks
    with every second increment. *)
Definition demo_trigger (w : Z) (st : OsEE_trigger_status) (p : Z) : OsEE_TriggerDB :=
  mkTrigger NULL w st 1 p NULL.
Definition demo_timers (st1 : OsEE_trigger_status) (a0 a1 : OsEE_action) : timers := mkTimers
  {[ 1 := mkCounter 10 8 1 9 2 1; 2 := mkCounter NULL 3 0 9 1 1 ]}
  {[ 10 := demo_trigger 0 OSEE_TRIGGER_ACTIVE 20; 11 := demo_trigger 0 st1 21;
     12 := mkTrigger NULL 0 OSEE_TRIGGER_INACTIVE 1 NULL 30 ]}
  {[ 20 := mkAlarm 5 10 a0; 21 := mkAlarm 0 11 a1 ]}
  {[ 30 := mkSchedTab NULL 0 SCHEDULETABLE_STOPPED 0 0 12 [mkExpiryPoint 2 [a0] 0 0]
       OSEE_SCHEDTABLE_SYNC_NONE 9 0 true ]} [1; 2] [20; 21] [30].
Definition demo_osk (st1 : OsEE_trigger_status) (a0 a1 : OsEE_action) : osk :=
  mkOsk demo_cpu (demo_timers st1 a0 a1).
Definition demo_callback (f : Z) : ST cpu unit := modify (fun c => mkCpu (ck c) f).
Definition any {A} (_ : A) : Prop := True.

Ltac map_cases H :=
  repeat first [apply lookup_insert_Some in H as [[<- <-]|[_ H]]
               |apply lookup_singleton_Some in H as [<- <-]].

Lemma demo_queue st1 a0 a1 : st1 <> OSEE_TRIGGER_ACTIVE ->
  queue_ok (demo_timers st1 a0 a1) 1 (mkCounter 10 8 1 9 2 1) [10].
Proof.
  intros Hst. split.
  - split; [done|]. split; [done|]. by exists NULL.
  - repeat constructor; done.
  - repeat constructor.
  - intros a. rewrite list_elem_of_singleton. split.
    + intros ->. by exists (demo_trigger 0 OSEE_TRIGGER_ACTIVE 20).
    + intros (t & Ht & _ & Hs). cbn [trigger_mem demo_timers] in Ht.
      by map_cases Ht.
Qed.

Lemma demo_timers_ok st1 a0 a1 : st1 <> OSEE_TRIGGER_ACTIVE -> timers_ok (demo_timers st1 a0 a1).
Proof.
  intros Hst. split.
  - intros c cc Hc. cbn [counter_mem demo_timers] in Hc.
    map_cases Hc; (split; [done|]).
    + exists [10]. by apply demo_queue.
    + exists []. split; [done|constructor|constructor|]. intros a. split; [intros []%not_elem_of_nil|].
      intros (t & Ht & Hc & _). cbn [trigger_mem demo_timers] in Ht. by map_cases Ht.
  - intros a t Ht. cbn [trigger_mem demo_timers] in Ht.
    map_cases Ht; (split; [done|]); try done; eexists _, _; by split.
  - intros p al Hp. cbn [alarm_mem demo_timers] in Hp.
    map_cases Hp; (split; [done|]); eexists; by split.
Qed.

Lemma demo_entries st1 a0 a1 : st1 <> OSEE_TRIGGER_ACTIVE ->
  entries (demo_timers st1 a0 a1) 1 [(10, 2)].
Proof. intros Hst. eexists _, [10]. split; [done|]. split; [by apply demo_queue|done]. Qed.

Lemma demo_alarm_id st1 a0 a1 : alarm_id (demo_timers st1 a0 a1) 1 21 (mkAlarm 0 11 a1)
  (demo_trigger 0 st1 21) (mkCounter 10 8 1 9 2 1).
Proof. split; [done|by split]. Qed.

Lemma demo_quiet : quiet demo_callback any
  (demo_osk OSEE_TRIGGER_INACTIVE (OSEE_ACTION_CALLBACK 7) (OSEE_ACTION_CALLBACK 9)).
Proof.
  split; [done|by apply demo_timers_ok|]. intros p al k Hp _. cbn [alarm_mem demo_timers demo_osk tmr] in Hp.
  map_cases Hp; by eexists _, _.
Qed.

Lemma set_alarm_witness : exists T',
  let s := demo_osk OSEE_TRIGGER_INACTIVE (OSEE_ACTION_CALLBACK 7) (OSEE_ACTION_CALLBACK 9) in
  SetRelAlarm true 1 3 4 s = Some (E_OK, mkOsk (core s) T') /\ entries T' 1 [(10, 2); (11, 3)].
Proof.
  pose proof (set_alarm_correct true
    (demo_osk OSEE_TRIGGER_INACTIVE (OSEE_ACTION_CALLBACK 7) (OSEE_ACTION_CALLBACK 9)) 1 3 4
    (demo_timers_ok OSEE_TRIGGER_INACTIVE _ _ ltac:(done)) ltac:(done) ltac:(done)) as [_ H].
  destruct (H _ _ _ _ _ (demo_alarm_id _ _ _) (demo_entries OSEE_TRIGGER_INACTIVE _ _ ltac:(done))) as (_ & _ & Hrel & _).
  destruct (Hrel ltac:(done) eq_refl) as (T' & H1 & _ & _ & _ & H2). by exists T'.
Defined.

Lemma cancel_get_alarm_witness :
  let s := demo_osk OSEE_TRIGGER_INACTIVE (OSEE_ACTION_CALLBACK 7) (OSEE_ACTION_CALLBACK 9) in
  CancelAlarm 1 s = Some (E_OS_NOFUNC, s) /\ GetAlarm 1 true s = Some ((E_OS_NOFUNC, None), s).
Proof.
  intros s. pose proof (cancel_get_alarm_correct s 1 (demo_timers_ok OSEE_TRIGGER_INACTIVE _ _ ltac:(done))) as [_ H].
  exact (proj2 (H _ _ _ _ _ (demo_alarm_id _ _ _) (demo_entries OSEE_TRIGGER_INACTIVE _ _ ltac:(done)))).
Defined.

Lemma elapsed_value_witness :
  let s := demo_osk OSEE_TRIGGER_INACTIVE (OSEE_ACTION_CALLBACK 7) (OSEE_ACTION_CALLBACK 9) in
  GetElapsedValue true 0 (Some 9) true s = Some ((E_OK, Some (8, 9)), s).
Proof.
  intros s. destruct (elapsed_value_correct true s 0 1 9 (mkCounter 10 8 1 9 2 1))
    as [H _]; [by split|done|done|]. exact (H ltac:(done)).
Defined.

Lemma alarm_expires_witness :
  let s := demo_osk OSEE_TRIGGER_INACTIVE (OSEE_ACTION_CALLBACK 7) (OSEE_ACTION_CALLBACK 9) in
  exists s0, SetRelAlarm true 1 3 4 s = Some (E_OK, s0) /\ exists s1 s2,
    increments_n demo_callback 4 1 s0 = Some (tt, s1) /\ GetAlarm 1 true s1 = Some ((E_OK, Some 1), s1) /\
    osEE_counter_increment (quiet_callback demo_callback) 1 1 s1 = Some (tt, s2) /\
    GetAlarm 1 true s2 = Some ((E_OK, Some 4), s2).
Proof.
  intros s. destruct (alarm_expires_on_time true demo_callback any s 1 21 3 4 (mkAlarm 0 11 (OSEE_ACTION_CALLBACK 9))
    (demo_trigger 0 OSEE_TRIGGER_INACTIVE 21) (mkCounter 10 8 1 9 2 1))
    as (s0 & Hset & H); [apply demo_quiet|apply demo_alarm_id|done..|].
  exists s0. split; [exact Hset|]. destruct (H 4%nat ltac:(done)) as (s1 & es & s2 & H1 & H2 & _ & _ & H3 & _ & H4).
  exists s1, s2. split_and!; [exact H1|exact H2|exact H3|exact (H4 eq_refl)].
Defined.

Lemma increment_refines_tick_witness :
  let s := demo_osk OSEE_TRIGGER_INACTIVE (OSEE_ACTION_CALLBACK 7) (OSEE_ACTION_CALLBACK 9) in
  exists T', osEE_counter_increment (quiet_callback demo_callback) 1 1 s = Some (tt, mkOsk (core s) T') /\
    entries T' 1 [(10, 1)].
Proof.
  intros s. destruct (increment_refines_tick demo_callback 0 s 1 (mkCounter 10 8 1 9 2 1) [(10, 2)] (core s))
    as (T' & H1 & _ & _ & H2); [by apply demo_timers_ok|done|done|done|by apply demo_entries|done|].
  by exists T'.
Defined.

(** The first alarm increments the second counter, the second calls back. *)
Definition demo_rank (c : Z) : nat := if decide (c = 1) then 1 else 0.

(** The callback that cancels the second alarm. *)
Definition demo_cancel (f : Z) : ST osk unit := _ ← CancelAlarm f; mret tt.

Lemma demo_good st1 : st1 <> OSEE_TRIGGER_ACTIVE -> good demo_cancel any demo_rank
  (demo_osk st1 (OSEE_ACTION_COUNTER 2) (OSEE_ACTION_CALLBACK 1)).
Proof.
  intros Hst. split; [done|by apply demo_timers_ok|]. intros p al t Hp Ht.
  cbn [alarm_mem demo_timers demo_osk tmr] in Hp. map_cases Hp.
  - injection Ht as <-. split; [by apply Nat.ltb_lt|by eexists].
  - intros s _ HT Hcf.
    destruct (alarm_id_config _ _ _ _ _ _ _ (demo_alarm_id _ _ _) Hcf) as (al & t' & cc & Hid & _).
    destruct (CancelAlarm_ok _ _ _ _ _ _ HT Hid) as (ev & T' & H1 & H2).
    exists (mkOsk (core s) T'). split; [|done]. unfold demo_cancel. by erewrite bind_run by exact H1.
Qed.

Lemma increment_terminates_witness : exists s', osEE_counter_increment demo_cancel 2 1
    (demo_osk OSEE_TRIGGER_INACTIVE (OSEE_ACTION_COUNTER 2) (OSEE_ACTION_CALLBACK 1)) = Some (tt, s').
Proof.
  destruct (increment_terminates demo_cancel any demo_rank 2
    (demo_osk OSEE_TRIGGER_INACTIVE (OSEE_ACTION_COUNTER 2) (OSEE_ACTION_CALLBACK 1)) 1)
    as (s' & H & _); [by apply demo_good|by eexists|by apply Nat.ltb_lt|]. by exists s'.
Defined.

(** Set to 3 ticks ahead, the second alarm cancels itself at its third tick;
    setting it again succeeds, and reading it gives a time. *)
Definition demo_run : ST osk (Z * option Z) :=
  _ ← SetRelAlarm true 1 3 4;
  _ ← osEE_counter_increment demo_cancel 2 1;
  _ ← osEE_counter_increment demo_cancel 2 1;
  _ ← osEE_counter_increment demo_cancel 2 1;
  _ ← osEE_counter_increment demo_cancel 2 1;
  _ ← osEE_counter_increment demo_cancel 2 1;
  x ← SetRelAlarm true 1 3 4;
  GetAlarm 1 true.

Lemma cancelled_in_action_witness :
  (exists s, demo_run (demo_osk OSEE_TRIGGER_INACTIVE (OSEE_ACTION_COUNTER 2) (OSEE_ACTION_CALLBACK 1)) =
     Some ((E_OK, Some 3), s)) /\
  exists s', SetRelAlarm true 1 3 4
      (demo_osk OSEE_TRIGGER_CANCELED (OSEE_ACTION_COUNTER 2) (OSEE_ACTION_CALLBACK 1)) = Some (E_OK, s') /\
    forall c es d, entries (tmr s') c es -> (11, d) ∉ es.
Proof.
  split; [by eexists; vm_compute|].
  pose proof (SetRelAlarm_outcome true
    (demo_osk OSEE_TRIGGER_CANCELED (OSEE_ACTION_COUNTER 2) (OSEE_ACTION_CALLBACK 1)) 1 _ _ _ _ _ 3 4
    (demo_timers_ok OSEE_TRIGGER_CANCELED _ _ ltac:(done)) (demo_alarm_id _ _ _)
    (demo_entries OSEE_TRIGGER_CANCELED _ _ ltac:(done)) ltac:(done) ltac:(done) eq_refl)
    as (T' & t' & H & _).
  eexists. split; [exact H|].
  destruct (cancelled_in_action_dead demo_cancel any demo_rank 2 _ (mkOsk demo_cpu T') 11
    (demo_trigger 0 OSEE_TRIGGER_CANCELED 21) (demo_good OSEE_TRIGGER_CANCELED ltac:(done)))
    as (_ & _ & _ & _ & Hes); [done|by left| |exact Hes].
  eapply rtc_once, (op_set_rel _ _ _ 1 3 4); [done|done|exact H].
Defined.
