(* ===== verification/SchedTable.v ===== *)
(** * ERIKA: the processing of schedule tables

    Theorems about the expiry points of the schedule tables of [Counter]: they
    run in groups of the same offset, at the right distances as long as the
    times stay below the maximum of the counter; and two ways in which a table
    stops for ever. *)

From Stdlib Require Import ZArith Lia.
From stdpp Require Import base tactics list option gmap.
From S2P Require Import Prelude StateMonad Kernel Scheduler SchedPartitioned OsekApi.
From S2P Require Import Counter TriggerQueue Alarm CounterApi.

(** ** Steps on the tables *)
Definition supd (p : Z) (f : OsEE_SchedTabDB -> OsEE_SchedTabDB) (T : timers) : timers :=
  set_st_mem (alter f p (st_mem T)) T.

Lemma supd_lookup p q f T : st_mem (supd p f T) !! q =
  if decide (p = q) then f <$> st_mem T !! q else st_mem T !! q.
Proof.
  unfold supd. simpl. case_decide as H; [subst; apply lookup_alter_eq|by apply lookup_alter_ne].
Qed.

Lemma get_st_run p d T : st_mem T !! p = Some d -> get_st p T = Some (d, T).
Proof. intros H. unfold get_st, StateMonad.from_option. by rewrite H. Qed.

Lemma upd_st_run p d f T : st_mem T !! p = Some d -> upd_st p f T = Some (tt, supd p f T).
Proof.
  intros H. unfold upd_st. erewrite bind_run by by apply get_st_run.
  unfold modify, supd. by rewrite (insert_as_alter _ _ _ _ H).
Qed.

Lemma get_expiry_point_run d i e T :
  aget (expiry_points d) i = Some e -> get_expiry_point d i T = Some (e, T).
Proof. intros H. unfold get_expiry_point, StateMonad.from_option. by rewrite H. Qed.

(** ** Groups of expiry points *)
Section Points.
Context (cb : Z -> ST cpu unit) (incr : Z -> ST osk unit) (c : Z).

Fixpoint run_list (l : list OsEE_action) : ST cpu unit :=
  match l with
  | [] => mret tt
  | a :: l => _ ← core_act cb a; run_list l
  end.

Lemma run_list_app l1 l2 k k' :
  run_list (l1 ++ l2) k = Some (tt, k') ->
  exists k1, run_list l1 k = Some (tt, k1) /\ run_list l2 k1 = Some (tt, k').
Proof.
  revert k. induction l1 as [|a l1 IH]; intros k H; [by exists k|]. simpl in *.
  apply bind_Some in H as (ev & k2 & H1 & H2). destruct (IH _ H2) as (k1 & H3 & H4).
  exists k1. split; [|done]. by erewrite bind_run by exact H1.
Qed.

Lemma handle_actions_run l : forall s k, run_list l (core s) = Some (tt, k) ->
  handle_actions (quiet_callback cb) incr l s = Some (tt, mkOsk k (tmr s)).
Proof.
  induction l as [|a l IH]; intros s k H; simpl in *.
  - injection H as <-. by destruct s.
  - apply bind_Some in H as (ev & k1 & H1 & H2). erewrite bind_run by by apply core_act_run.
    by apply (IH (mkOsk k1 (tmr s))).
Qed.

(** The table whose trigger expired, at position [i]. *)
Record table_at (T : timers) (p : Z) (d : OsEE_SchedTabDB) (t : OsEE_TriggerDB) : Prop := {
  ta_st : st_mem T !! p = Some d;
  ta_trigger : trigger_mem T !! st_trigger d = Some t;
  ta_expired : tr_status t = OSEE_TRIGGER_EXPIRED;
  ta_null : p <> NULL;
  ta_size : Z.of_nat (length (expiry_points d)) < 2 ^ 64
}.

Lemma expiry_step_run s p d t i e e' k :
  table_at (tmr s) p d t -> st_position d = i ->
  aget (expiry_points d) i = Some e -> aget (expiry_points d) (i + 1) = Some e' ->
  run_list (ep_actions e) (core s) = Some (tt, k) ->
  let T1 := supd p (set_st_position (i + 1)) (tmr s) in
  st_expiry_step (quiet_callback cb) incr c p s =
    if ep_offset e' >? ep_offset e then
      on_tmr (_ ← st_reinsert c (st_trigger d) (u64 (st_start d + ep_offset e')); mret NULL) (mkOsk k T1)
    else Some (p, mkOsk k T1).
Proof.
  intros [Hd Ht Hexp _ Hlen] Hi He He' Hacts T1. destruct s as [cs T]. cbn [tmr core] in *.
  pose proof (aget_Some_range _ _ _ He) as Hr. pose proof (aget_Some_range _ _ _ He') as Hr'.
  unfold st_expiry_step. erewrite bind_run by (apply on_tmr_run; by apply get_st_run).
  erewrite bind_run by (apply on_tmr_run; by apply get_trigger_run).
  rewrite (decide_True _ _ Hexp), Hi. cbn [core tmr].
  rewrite (proj2 (Z.eqb_neq i INVALID_SCHEDULETABLE_POSITION)).
  2: { change INVALID_SCHEDULETABLE_POSITION with (2 ^ 64 - 1). lia. }
  erewrite bind_run by (apply on_tmr_run; by apply get_expiry_point_run).
  erewrite bind_run by (apply handle_actions_run; exact Hacts). cbn [tmr].
  unfold on_tmr, st_after_actions. cbn [tmr core].
  erewrite bind_run by by apply get_st_run. erewrite bind_run by by apply get_trigger_run.
  rewrite (decide_True _ _ Hexp). rewrite (u64_small (Z.of_nat _ - 1)) by lia.
  rewrite (proj2 (Z.eqb_neq i _)), (u64_small (i + 1)) by lia.
  erewrite bind_run by by eapply upd_st_run. erewrite bind_run by by apply get_expiry_point_run.
  by destruct (ep_offset e' >? ep_offset e).
Qed.

(** The end of a group: the trigger is queued again. *)
Lemma reinsert_run T cc l a t w :
  counter_mem T !! c = Some cc -> ticks_ok (maxallowedvalue cc) (tick_value cc) ->
  tseg (nexts T) (trigger_queue cc) l NULL ->
  Forall (fun b => 0 <= when_of T b <= maxallowedvalue cc) l -> a ∉ l -> a <> NULL ->
  trigger_mem T !! a = Some t -> 0 <= w <= maxallowedvalue cc ->
  exists T' q, st_reinsert c a w T = Some (tt, T') /\ st_mem T' = st_mem T /\
    counter_mem T' !! c = Some (set_trigger_queue q cc) /\
    tseg (nexts T') q
      (dist_insert (fun b => dist (maxallowedvalue cc) (tick_value cc) (when_of T' b)) a l) NULL /\
    when_of T' a = w /\ forall b, b ∈ l -> when_of T' b = when_of T b.
Proof.
  intros Hc Htk Hch Hr Hal Ha0 Ht Hw. unfold st_reinsert.
  set (T1 := tupd a (set_tr_status OSEE_TRIGGER_ACTIVE) T).
  erewrite bind_run by by eapply upd_trigger_run. fold T1.
  assert (Hw1 : forall b, when_of T1 b = when_of T b) by (intros; by apply tupd_when).
  assert (Ht1 : trigger_mem T1 !! a = Some (set_tr_status OSEE_TRIGGER_ACTIVE t)).
  { unfold T1. by rewrite tupd_lookup, decide_True, Ht. }
  destruct (insert_abs_run T1 c cc l a (set_tr_status OSEE_TRIGGER_ACTIVE t) w)
    as (T' & q & Hrun & Hq & Hch' & Hrl); try done.
  { unfold T1. by rewrite nexts_tupd_keep. }
  { eapply Forall_impl; [exact Hr|]. intros b. by rewrite Hw1. }
  set (T2 := tupd a (set_tr_when w) T1) in *.
  assert (Hw2 : forall b, when_of T2 b = when_of T' b).
  { intros b. by rewrite (relinked_when _ _ _ _ _ Hrl). }
  exists T', q. split_and!; try done.
  - by rewrite (rl_st _ _ _ _ Hrl).
  - rewrite (dist_insert_ext _ (fun b => dist (maxallowedvalue cc) (tick_value cc) (when_of T' b)))
      in Hch' by (intros; by rewrite Hw2). done.
  - rewrite <- Hw2. unfold when_of, T2. by rewrite tupd_lookup, decide_True, Ht1.
  - intros b Hb. rewrite <- Hw2, <- Hw1. unfold when_of, T2. rewrite tupd_lookup.
    by rewrite decide_False by congruence.
Qed.

(** The points of one group: all at offset [o], the next one later. *)
Lemma expiry_loop_run grp : forall s p d t pre e' post fuel k o,
  table_at (tmr s) p d t -> st_position d = Z.of_nat (length pre) ->
  expiry_points d = pre ++ grp ++ e' :: post -> grp <> [] ->
  Forall (fun e => ep_offset e = o) grp -> o < ep_offset e' -> (length grp <= fuel)%nat ->
  run_list (concat (ep_actions <$> grp)) (core s) = Some (tt, k) ->
  let T1 := supd p (set_st_position (Z.of_nat (length (pre ++ grp)))) (tmr s) in
  forall T', st_reinsert c (st_trigger d) (u64 (st_start d + ep_offset e')) T1 = Some (tt, T') ->
  st_expiry_loop (quiet_callback cb) incr fuel c p s = Some (tt, mkOsk k T').
Proof.
  induction grp as [|e grp IH]; intros s p d t pre e' post fuel k o Hta Hpos Hpts Hne Hoff Ho Hf Hacts T1 T' Hre;
    [done|]. destruct fuel as [|fuel]; [simpl in Hf; lia|].
  inversion_clear Hoff as [|? ? He Hoff']. rewrite fmap_cons in Hacts. cbn [concat] in Hacts.
  apply run_list_app in Hacts as (k1 & Hacts1 & Hacts2).
  assert (Hlen : Z.of_nat (length (pre ++ [e])) = Z.of_nat (length pre) + 1).
  { rewrite length_app. simpl. lia. }
  assert (Hget : aget (expiry_points d) (Z.of_nat (length pre)) = Some e).
  { rewrite Hpts. apply aget_middle. }
  cbn [st_expiry_loop].
  destruct grp as [|e2 grp].
  - assert (Hget' : aget (expiry_points d) (Z.of_nat (length pre) + 1) = Some e').
    { rewrite Hpts, <- Hlen. change ([e] ++ e' :: post) with ([e] ++ (e' :: post)).
      rewrite (assoc_L (++)). apply aget_middle. }
    pose proof (expiry_step_run s p d t _ e e' k1 Hta Hpos Hget Hget' Hacts1) as Hstep.
    cbv zeta in Hstep. rewrite Z.gtb_ltb, (proj2 (Z.ltb_lt _ _)) in Hstep by lia.
    simpl in Hacts2. injection Hacts2 as ->.
    erewrite bind_run; [|rewrite Hstep; unfold T1 in Hre; rewrite Hlen in Hre; apply on_tmr_run; cbn [tmr];
      by erewrite bind_run by exact Hre]. done.
  - assert (Hget' : aget (expiry_points d) (Z.of_nat (length pre) + 1) = Some e2).
    { rewrite Hpts, <- Hlen. change ((e :: e2 :: grp) ++ e' :: post) with ([e] ++ (e2 :: grp ++ e' :: post)).
      rewrite (assoc_L (++)). apply aget_middle. }
    pose proof (expiry_step_run s p d t _ e e2 k1 Hta Hpos Hget Hget' Hacts1) as Hstep.
    inversion Hoff' as [|? ? He2 _]; subst.
    cbv zeta in Hstep. rewrite Z.gtb_ltb, (proj2 (Z.ltb_ge _ _)) in Hstep by lia.
    erewrite bind_run by exact Hstep. rewrite decide_True by apply Hta.
    set (T2 := supd p (set_st_position (Z.of_nat (length pre) + 1)) (tmr s)).
    destruct Hta as [Hd Ht Hexp Hp Hsz].
    apply (IH (mkOsk k1 T2) p (set_st_position (Z.of_nat (length pre) + 1) d) t (pre ++ [e]) e' post
      fuel k (ep_offset e)); cbn [core tmr]; try done.
    + split; try done. unfold T2. by rewrite supd_lookup, decide_True, Hd.
    + change (expiry_points d = (pre ++ [e]) ++ (e2 :: grp) ++ e' :: post). rewrite Hpts. by rewrite <- (assoc_L (++)).
    + simpl in *. lia.
    + assert (supd p (set_st_position (Z.of_nat (length ((pre ++ [e]) ++ e2 :: grp)))) T2 = T1) as ->.
      { unfold T2, T1, supd, set_st_mem. cbn [st_mem]. rewrite <- (assoc_L (++) pre).
        f_equal. rewrite alter_alter_eq. apply alter_ext. by intros ? ?. }
      exact Hre.
Qed.

End Points.

(** The rounds of the loop are bounded by the expiry points. *)
Lemma st_fuel_points T p d : st_mem T !! p = Some d -> (length (expiry_points d) <= st_fuel T)%nat.
Proof.
  intros Hd. unfold st_fuel. rewrite (map_fold_delete_L _ _ p d); [lia| |done].
  intros. lia.
Qed.

(** A group of expiry points at the same offset runs as a whole and in order
    when the counter is at that offset; the trigger is then queued for the
    next group, its distance being the difference of the offsets. *)
Theorem expiry_points_run (cb : Z -> ST cpu unit) (incr : Z -> ST osk unit) (s : osk) (c p : Z)
    (cc : OsEE_CounterDB) (l : list Z) (d : OsEE_SchedTabDB) (t : OsEE_TriggerDB)
    (pre grp post : list OsEE_st_exipiry_point) (e' : OsEE_st_exipiry_point) (o : Z) (k : cpu) :
  let T := tmr s in let a := st_trigger d in
  counter_mem T !! c = Some cc -> ticks_ok (maxallowedvalue cc) (tick_value cc) ->
  tseg (nexts T) (trigger_queue cc) l NULL ->
  Forall (fun b => 0 <= when_of T b <= maxallowedvalue cc) l -> a ∉ l -> a <> NULL ->
  table_at T p d t -> tr_st t = p -> st_position d = Z.of_nat (length pre) ->
  expiry_points d = pre ++ grp ++ e' :: post -> grp <> [] -> Forall (fun e => ep_offset e = o) grp ->
  o < ep_offset e' -> 0 <= st_start d -> tick_value cc = st_start d + o ->
  st_start d + ep_offset e' <= maxallowedvalue cc ->
  run_list cb (concat (ep_actions <$> grp)) (core s) = Some (tt, k) ->
  exists T' q,
    osEE_counter_handle_st_expiry_point (quiet_callback cb) incr c a s = Some (tt, mkOsk k T') /\
    st_mem T' !! p = Some (set_st_position (Z.of_nat (length (pre ++ grp))) d) /\
    counter_mem T' !! c = Some (set_trigger_queue q cc) /\
    tseg (nexts T') q
      (dist_insert (fun b => dist (maxallowedvalue cc) (tick_value cc) (when_of T' b)) a l) NULL /\
    dist (maxallowedvalue cc) (tick_value cc) (when_of T' a) = ep_offset e' - o.
Proof.
  intros T a Hc Htk Hch Hr Hal Ha0 Hta Htp Hpos Hpts Hne Hoff Ho Hst Hv Hmx Hacts.
  pose proof Hta as [Hd Ht Hexp Hp0 Hsz]. unfold ticks_ok in Htk.
  set (T1 := supd p (set_st_position (Z.of_nat (length (pre ++ grp)))) T).
  destruct (reinsert_run c T1 cc l a t (st_start d + ep_offset e'))
    as (T' & q & Hre & Hst' & Hc' & Hch' & Hw & _); try done; [lia|].
  exists T', q. split_and!; [|by rewrite Hst'; unfold T1; rewrite supd_lookup, decide_True, Hd|done|done|].
  - unfold osEE_counter_handle_st_expiry_point.
    erewrite bind_run by (apply on_tmr_run; by apply get_trigger_run).
    erewrite bind_run by apply gets_run. rewrite osk_eta, Htp.
    eapply (expiry_loop_run cb incr c grp); [done..| |exact Hacts|].
    + pose proof (st_fuel_points _ _ _ Hd) as Hf. rewrite Hpts, !length_app in Hf. fold T. lia.
    + rewrite u64_small by lia. exact Hre.
  - rewrite Hw. unfold dist. zcase; lia.
Qed.

(** ** A time past the maximum

    The time of the next expiry point is not reduced to the range of the
    counter. A trigger at the head of the queue with a time beyond the maximum
    is never due, and nothing behind it is. *)
Definition stuck (T : timers) (c : Z) : Prop :=
  exists cc t, counter_mem T !! c = Some cc /\ ticks_ok (maxallowedvalue cc) (tick_value cc) /\
    trigger_queue cc <> NULL /\ trigger_mem T !! trigger_queue cc = Some t /\
    maxallowedvalue cc < tr_when t.

Lemma stuck_increment callback fuel c s : stuck (tmr s) c ->
  exists T', osEE_counter_increment callback (S fuel) c s = Some (tt, mkOsk (core s) T') /\
    stuck T' c /\ trigger_mem T' = trigger_mem (tmr s) /\ alarm_mem T' = alarm_mem (tmr s) /\
    st_mem T' = st_mem (tmr s).
Proof.
  intros (cc & t & Hc & Htk & Hq & Ht & Hw). cbn [osEE_counter_increment].
  destruct (prescale_run _ _ _ Hc) as (b & p & Hpre).
  erewrite bind_run by by apply on_tmr_run. set (T1 := cupd c (set_prescaler p) (tmr s)).
  assert (Hc1 : counter_mem T1 !! c = Some (set_prescaler p cc)).
  { unfold T1. by rewrite cupd_lookup, decide_True, Hc. }
  destruct b.
  2: { exists T1. split; [done|]. split; [|done]. by exists (set_prescaler p cc), t. }
  erewrite bind_run by (apply on_tmr_run; by apply (advance_run _ _ _ Hc1)).
  set (v := next_tick _ _). set (T2 := cupd c _ _).
  pose proof (next_tick_range _ _ Htk) as Hv. fold v in Hv. simpl in v.
  assert (Hc2 : counter_mem T2 !! c = Some (set_tick_value v (set_prescaler p cc))).
  { unfold T2. by rewrite cupd_lookup, decide_True, Hc1. }
  erewrite bind_run.
  2: { apply on_tmr_run. cbn [tmr]. unfold pop_triggered.
       erewrite bind_run by by apply get_counter_run. cbn [trigger_queue set_tick_value set_prescaler].
       rewrite decide_True by done. erewrite bind_run by by apply get_trigger_run.
       rewrite (proj2 (Z.eqb_neq _ _)); [done|]. unfold ticks_ok in Hv. simpl. lia. }
  exists T2. split; [done|]. split; [|done]. by exists (set_tick_value v (set_prescaler p cc)), t.
Qed.

Lemma stuck_increments cb c n : forall s, stuck (tmr s) c ->
  exists T', increments_n cb n c s = Some (tt, mkOsk (core s) T') /\
    trigger_mem T' = trigger_mem (tmr s) /\ alarm_mem T' = alarm_mem (tmr s) /\ st_mem T' = st_mem (tmr s).
Proof.
  induction n as [|n IH]; intros s Hs.
  - exists (tmr s). split; [|done]. by destruct s.
  - destruct (stuck_increment (quiet_callback cb) 0 c s Hs) as (T1 & Hi1 & Hs1 & ? & ? & ?).
    destruct (IH (mkOsk (core s) T1) Hs1) as (T2 & Hi2 & ? & ? & ?). cbn [core tmr] in *.
    exists T2. cbn [increments_n]. erewrite bind_run by exact Hi1. split; [done|]. split_and!; congruence.
Qed.

(** When the next expiry point lies past the maximum of the counter the table
    stops for ever: its trigger blocks the queue, and no number of increments
    runs an action. *)
Theorem table_past_maximum_blocks (cb : Z -> ST cpu unit) (incr : Z -> ST osk unit) (s : osk) (c p : Z)
    (cc : OsEE_CounterDB) (d : OsEE_SchedTabDB) (t : OsEE_TriggerDB)
    (pre grp post : list OsEE_st_exipiry_point) (e' : OsEE_st_exipiry_point) (o : Z) (k : cpu) :
  let T := tmr s in let a := st_trigger d in
  counter_mem T !! c = Some cc -> ticks_ok (maxallowedvalue cc) (tick_value cc) ->
  trigger_queue cc = NULL -> a <> NULL -> table_at T p d t -> tr_st t = p ->
  st_position d = Z.of_nat (length pre) -> expiry_points d = pre ++ grp ++ e' :: post ->
  grp <> [] -> Forall (fun e => ep_offset e = o) grp -> o < ep_offset e' ->
  maxallowedvalue cc < st_start d + ep_offset e' < 2 ^ 64 ->
  run_list cb (concat (ep_actions <$> grp)) (core s) = Some (tt, k) ->
  exists s1, osEE_counter_handle_st_expiry_point (quiet_callback cb) incr c a s = Some (tt, s1) /\
    core s1 = k /\
    forall n, exists T', increments_n cb n c s1 = Some (tt, mkOsk k T') /\
      trigger_mem T' = trigger_mem (tmr s1) /\ st_mem T' = st_mem (tmr s1).
Proof.
  intros T a Hc Htk Hq Ha0 Hta Htp Hpos Hpts Hne Hoff Ho Hmx Hacts.
  pose proof Hta as [Hd Ht Hexp Hp0 Hsz]. unfold ticks_ok in Htk.
  change (trigger_mem T !! a = Some t) in Ht.
  set (T1 := supd p (set_st_position (Z.of_nat (length (pre ++ grp)))) T).
  set (w := st_start d + ep_offset e').
  set (T2 := tupd a (set_tr_next NULL) (cupd c (set_trigger_queue a) (tupd a (set_tr_when w)
    (tupd a (set_tr_status OSEE_TRIGGER_ACTIVE) T1)))).
  assert (Hre : st_reinsert c a w T1 = Some (tt, T2)).
  { unfold st_reinsert. erewrite bind_run by by eapply upd_trigger_run.
    unfold osEE_counter_insert_abs_trigger. erewrite bind_run by by apply get_counter_run.
    erewrite bind_run.
    2: { eapply upd_trigger_run. rewrite tupd_lookup, decide_True by done. exact (f_equal _ Ht). }
    erewrite bind_run by apply gets_run. rewrite Hq. unfold queue_fuel. cbn [insert_scan].
    rewrite decide_True by done. erewrite bind_run by reflexivity.
    cbv beta iota. rewrite decide_False by (intros Hn; by apply Hn).
    erewrite bind_run by by eapply upd_counter_run. eapply upd_trigger_run.
    cbn [cupd set_counter_mem trigger_mem]. rewrite !tupd_lookup, !decide_True by done.
    change (trigger_mem T1) with (trigger_mem T). by rewrite Ht. }
  exists (mkOsk k T2). split; [|split; [done|]].
  - unfold osEE_counter_handle_st_expiry_point.
    erewrite bind_run by (apply on_tmr_run; by apply get_trigger_run).
    erewrite bind_run by apply gets_run. rewrite osk_eta, Htp.
    eapply (expiry_loop_run cb incr c grp); [done..| |exact Hacts|].
    + pose proof (st_fuel_points _ _ _ Hd) as Hf. rewrite Hpts, !length_app in Hf. fold T. lia.
    + rewrite u64_small by lia. exact Hre.
  - intros n. destruct (stuck_increments cb c n (mkOsk k T2)) as (T' & H1 & H2 & _ & H3); [|by exists T'].
    exists (set_trigger_queue a cc), (set_tr_next NULL (set_tr_when w (set_tr_status OSEE_TRIGGER_ACTIVE t))).
    split_and!; try done; cbn [tmr]; unfold T2.
    + cbn [tupd set_trigger_mem counter_mem]. rewrite cupd_lookup, decide_True by done.
      exact (f_equal _ Hc).
    + cbn [set_trigger_queue trigger_queue]. rewrite tupd_lookup, decide_True by done.
      cbn [cupd set_counter_mem trigger_mem]. rewrite !tupd_lookup, !decide_True by done.
      change (trigger_mem T1) with (trigger_mem T). by rewrite Ht.
    + simpl. lia.
Qed.

(** ** The next table

    A next table whose first expiry point has offset 0 is marked as running
    when its predecessor ends, but its trigger is not expired, so the loop
    ends without its actions; it is not queued either, and cannot be stopped
    because its trigger is inactive. *)
Theorem next_table_never_starts (callback : Z -> ST osk unit) (incr : Z -> ST osk unit) (s : osk)
    (c p p2 : Z) (cc : OsEE_CounterDB) (d d2 : OsEE_SchedTabDB) (t t2 : OsEE_TriggerDB)
    (e2 : OsEE_st_exipiry_point) :
  let T := tmr s in
  counter_mem T !! c = Some cc -> table_at T p d t -> tr_st t = p ->
  st_position d = INVALID_SCHEDULETABLE_POSITION -> p_next_table d = p2 -> p2 <> NULL -> p2 <> p ->
  st_mem T !! p2 = Some d2 -> aget (expiry_points d2) 0 = Some e2 -> ep_offset e2 = 0 ->
  st_trigger d2 <> st_trigger d -> trigger_mem T !! st_trigger d2 = Some t2 ->
  tr_status t2 = OSEE_TRIGGER_INACTIVE ->
  exists T' d2',
    osEE_counter_handle_st_expiry_point callback incr c (st_trigger d) s = Some (tt, mkOsk (core s) T') /\
    st_mem T' !! p2 = Some d2' /\ st_status d2' = SCHEDULETABLE_RUNNING /\
    trigger_mem T' !! st_trigger d2 = Some t2 /\ counter_mem T' = counter_mem T /\
    osEE_st_stop p2 T' = Some (E_OS_NOFUNC, T').
Proof.
  intros T Hc [Hd Ht Hexp Hp0 Hsz] Htp Hpos Hnext Hp20 Hp2 Hd2 He2 Hoff Htr Ht2 Hst2.
  destruct s as [cs T0]. subst T. cbn [tmr core] in *.
  set (f := fun x => set_st_start (tick_value cc) (set_st_position 0
    (set_st_status SCHEDULETABLE_RUNNING x))).
  set (T1 := tupd (st_trigger d) (set_tr_status OSEE_TRIGGER_INACTIVE)
    (supd p (set_st_status SCHEDULETABLE_STOPPED) T0)).
  set (T2 := supd p2 (set_st_start (tick_value cc)) (supd p2 (set_st_position 0)
    (supd p2 (set_st_status SCHEDULETABLE_RUNNING) T1))).
  assert (H1 : st_mem T1 !! p2 = Some d2).
  { unfold T1. cbn [tupd set_trigger_mem st_mem]. by rewrite supd_lookup, decide_False by congruence. }
  assert (H2 : st_mem T2 !! p2 = Some (f d2)).
  { unfold T2. rewrite !supd_lookup, !decide_True by done. by rewrite H1. }
  assert (H3 : trigger_mem T2 !! st_trigger d2 = Some t2).
  { unfold T2, T1. cbn [supd set_st_mem trigger_mem]. by rewrite tupd_lookup, decide_False by congruence. }
  assert (Hwrap : st_wrap c p T0 = Some (p2, T2)).
  { unfold st_wrap. erewrite bind_run by by apply get_st_run. rewrite Hnext, decide_True by done.
    erewrite bind_run by by eapply upd_st_run. erewrite bind_run by by eapply upd_trigger_run.
    fold T1. erewrite bind_run by by eapply upd_st_run. unfold st_restart.
    erewrite bind_run by (eapply upd_st_run; by rewrite supd_lookup, decide_True, H1).
    erewrite bind_run by by apply get_counter_run.
    erewrite bind_run by (eapply upd_st_run; by rewrite !supd_lookup, !decide_True, H1).
    fold T2. erewrite bind_run by (apply get_st_run; exact H2).
    erewrite bind_run by by apply get_expiry_point_run. by rewrite Hoff. }
  exists T2, (f d2). split_and!; try done.
  - unfold osEE_counter_handle_st_expiry_point.
    erewrite bind_run by (apply on_tmr_run; by apply get_trigger_run).
    erewrite bind_run by apply gets_run. cbn [tmr core]. unfold st_fuel. cbn [Nat.add st_expiry_loop].
    rewrite Htp. erewrite bind_run.
    2: { unfold st_expiry_step. erewrite bind_run by (apply on_tmr_run; by apply get_st_run).
         erewrite bind_run by (apply on_tmr_run; by apply get_trigger_run).
         rewrite (decide_True _ _ Hexp), Hpos, Z.eqb_refl. apply on_tmr_run. exact Hwrap. }
    rewrite decide_True by done. erewrite bind_run.
    2: { unfold st_expiry_step. erewrite bind_run by (apply on_tmr_run; by apply get_st_run).
         erewrite bind_run by (apply on_tmr_run; cbn [tmr]; apply get_trigger_run; exact H3).
         rewrite decide_False; [done|]. rewrite Hst2. done. }
    by rewrite decide_False by (intros Hn; by apply Hn).
  - unfold osEE_st_stop. erewrite bind_run by (apply get_st_run; exact H2).
    erewrite bind_run by (apply get_trigger_run; exact H3). by rewrite Hst2.
Qed.

(** ** Instances

    A table on a counter at 8 of 0 to 9, started at 8: two points now, one in
    one tick, one in three. *)
Definition demo_point (o f : Z) : OsEE_st_exipiry_point := mkExpiryPoint o [OSEE_ACTION_CALLBACK f] 0 0.
Definition demo_table (pos : Z) (next : Z) (pts : list OsEE_st_exipiry_point) (tr : Z) : OsEE_SchedTabDB :=
  mkSchedTab next 8 SCHEDULETABLE_RUNNING pos 0 tr pts OSEE_SCHEDTABLE_SYNC_NONE 9 0 true.
Definition demo_st (pos next : Z) (pts : list OsEE_st_exipiry_point) : osk := mkOsk demo_cpu (mkTimers
  {[ 1 := mkCounter NULL 8 0 9 1 1 ]}
  {[ 10 := mkTrigger NULL 8 OSEE_TRIGGER_EXPIRED 1 NULL 30; 11 := mkTrigger NULL 0 OSEE_TRIGGER_INACTIVE 1 NULL 31 ]}
  ∅ {[ 30 := demo_table pos next pts 10; 31 := demo_table 0 NULL [demo_point 0 5] 11 ]} [1] [] [30; 31]).

Lemma demo_table_at pos next pts : Z.of_nat (length pts) < 2 ^ 64 ->
  table_at (tmr (demo_st pos next pts)) 30 (demo_table pos next pts 10)
    (mkTrigger NULL 8 OSEE_TRIGGER_EXPIRED 1 NULL 30).
Proof. by split. Qed.

Lemma expiry_points_witness : exists T' k,
  let s := demo_st 0 NULL [demo_point 0 4; demo_point 0 6; demo_point 1 7] in
  osEE_counter_handle_st_expiry_point (quiet_callback demo_callback) (fun _ => undefined) 1 10 s =
    Some (tt, mkOsk k T') /\ daif k = 6.
Proof.
  set (s := demo_st 0 NULL [demo_point 0 4; demo_point 0 6; demo_point 1 7]).
  destruct (expiry_points_run demo_callback (fun _ => undefined) s 1 30 (mkCounter NULL 8 0 9 1 1) []
    (demo_table 0 NULL [demo_point 0 4; demo_point 0 6; demo_point 1 7] 10)
    (mkTrigger NULL 8 OSEE_TRIGGER_EXPIRED 1 NULL 30) [] [demo_point 0 4; demo_point 0 6] []
    (demo_point 1 7) 0 (mkCpu (ck demo_cpu) 6)) as (T' & q & H & _);
    [done|done|done|done|apply not_elem_of_nil|done|by apply demo_table_at|done|done|done|done| |done..|].
  { repeat constructor. }
  by exists T', (mkCpu (ck demo_cpu) 6).
Defined.

Lemma table_past_maximum_witness : exists s1 k,
  osEE_counter_handle_st_expiry_point (quiet_callback demo_callback) (fun _ => undefined) 1 10
    (demo_st 0 NULL [demo_point 0 4; demo_point 3 7]) = Some (tt, s1) /\
  forall n, exists T', increments_n demo_callback n 1 s1 = Some (tt, mkOsk k T').
Proof.
  destruct (table_past_maximum_blocks demo_callback (fun _ => undefined)
    (demo_st 0 NULL [demo_point 0 4; demo_point 3 7]) 1 30 (mkCounter NULL 8 0 9 1 1)
    (demo_table 0 NULL [demo_point 0 4; demo_point 3 7] 10)
    (mkTrigger NULL 8 OSEE_TRIGGER_EXPIRED 1 NULL 30) [] [demo_point 0 4] []
    (demo_point 3 7) 0 (mkCpu (ck demo_cpu) 4)) as (s1 & H & _ & Hn);
    [done|done|done|done|by apply demo_table_at|done|done|done|done| |done|done|done|].
  { repeat constructor. }
  exists s1, (mkCpu (ck demo_cpu) 4). split; [exact H|]. intros n.
  destruct (Hn n) as (T' & H1 & _). by exists T'.
Defined.

Lemma next_table_witness : exists T',
  osEE_counter_handle_st_expiry_point (fun _ => undefined) (fun _ => undefined) 1 10
    (demo_st INVALID_SCHEDULETABLE_POSITION 31 []) = Some (tt, mkOsk demo_cpu T') /\
  osEE_st_stop 31 T' = Some (E_OS_NOFUNC, T').
Proof.
  destruct (next_table_never_starts (fun _ => undefined) (fun _ => undefined)
    (demo_st INVALID_SCHEDULETABLE_POSITION 31 []) 1 30 31 (mkCounter NULL 8 0 9 1 1)
    (demo_table INVALID_SCHEDULETABLE_POSITION 31 [] 10) (demo_table 0 NULL [demo_point 0 5] 11)
    (mkTrigger NULL 8 OSEE_TRIGGER_EXPIRED 1 NULL 30) (mkTrigger NULL 0 OSEE_TRIGGER_INACTIVE 1 NULL 31)
    (demo_point 0 5)) as (T' & d2 & H & _ & _ & _ & _ & Hstop); [done|by apply demo_table_at|done..|].
  exists T'. by split.
Defined.
