(* ===== verification/Distributor.v ===== *)
(** * The interrupt distributor of the hypervisor

    The emulation of the GIC distributor for cells and the assignment of
    interrupts to cells: hypervisor/arch/arm-common/irqchip.c and gic-v2.c.
    The distributor itself is a device [W] with reads and writes of a width at
    an address; the code under [dist_lock] is one step.

    [irq_bitmap] has one bit per interrupt. Pointers to cells are cell ids. *)

From Stdlib Require Import ZArith Lia.
From stdpp Require Import base tactics list list_numbers option gmap.
From S2P Require Import Prelude Bitops StateMonad Mmio Cell Irqchip.

Definition GICD_CTLR : Z := 0.
Definition GICD_TYPER : Z := 4.
Definition GICD_IIDR : Z := 8.
Definition GICD_IGROUPR : Z := 128.
Definition GICD_ISENABLER : Z := 256.
Definition GICD_ICENABLER : Z := 384.
Definition GICD_ICPENDR : Z := 640.
Definition GICD_ISACTIVER : Z := 768.
Definition GICD_ICACTIVER : Z := 896.
Definition GICD_IPRIORITYR : Z := 1024.
Definition GICD_ITARGETSR : Z := 2048.
Definition GICD_ICFGR : Z := 3072.
Definition GICD_IROUTER : Z := 24576.
Definition GICDv2_PIDR0 : Z := 4064.
Definition GICDv2_PIDR4 : Z := 4048.
Definition GICDv2_CIDR0 : Z := 4080.
Definition SGI_EVENT : Z := 1.
Definition gicd_size : Z := 4096.

Definition is_spi (irqn : Z) : bool := (irqn >? 31) && (irqn <? 1020).

(** [case REG_RANGE(base, n, size)] *)
Definition reg_range (reg base n size : Z) : bool := (base <=? reg) && (reg <=? base + (n - 1) * size).

(** The words of [irq_bitmap]. *)
Definition irq_words : Z := 1024 / 32.

Definition irqchip_irq_in_cell (irq_bitmap : list Z) (irq_id : Z) : bool :=
  if irq_id >=? irq_words * 32 then false
  else
    match aget irq_bitmap (irq_id / 32) with
    | Some word => negb (Z.land word (Z.shiftl 1 (irq_id mod 32)) =? 0)
    | None => false
    end.

(** ** Accesses to the distributor *)
Definition set_value (v : Z) (m : mmio_access) : mmio_access :=
  mk_access (address m) (size m) (is_write m) v.
Definition set_is_write (b : bool) (m : mmio_access) : mmio_access :=
  mk_access (address m) (size m) b (value m).

(** The loop of [restrict_bitmask_access] from interrupt [irq] on. *)
Fixpoint access_mask_loop (irq_bitmap : list Z) (first_irq bits_per_irq : Z) (n : nat) (irq mask : Z) : Z :=
  match n with
  | O => mask
  | S n =>
      access_mask_loop irq_bitmap first_irq bits_per_irq n (irq + 1)
        (if irqchip_irq_in_cell irq_bitmap (u32 (first_irq + irq))
         then Z.lor mask (Z.shiftl (Z.shiftl 1 bits_per_irq - 1) (irq * bits_per_irq)) else mask)
  end.

Definition access_mask (irq_bitmap : list Z) (reg_index bits_per_irq : Z) : Z :=
  let irqs_per_reg := Z.shiftr 32 (ffsl bits_per_irq) in
  access_mask_loop irq_bitmap (u32 (reg_index * irqs_per_reg)) bits_per_irq (Z.to_nat irqs_per_reg) 0 0.

Section Device.
Context {W : Type} (mmio_read : Z -> Z -> W -> Z * W) (mmio_write : Z -> Z -> Z -> W -> W).
Context (gicd_base : Z).

Definition perform (m : mmio_access) (w : W) : mmio_access * W :=
  mmio_perform_access mmio_read mmio_write gicd_base m w.
Definition mmio_read32 (offset : Z) (w : W) : Z * W := mmio_read 4 (u64 (gicd_base + offset)) w.
Definition mmio_write32 (offset v : Z) (w : W) : W := mmio_write 4 (u64 (gicd_base + offset)) (u32 v) w.

Definition restrict_bitmask_access (irq_bitmap : list Z) (m : mmio_access)
    (reg_index bits_per_irq : Z) (is_poke : bool) (w : W) : mmio_result * mmio_access * W :=
  let access_mask := access_mask irq_bitmap reg_index bits_per_irq in
  if negb (is_write m) then
    let '(m, w) := perform m w in
    (MMIO_HANDLED, set_value (Z.land (value m) access_mask) m, w)
  else if negb is_poke then
    let access_val := value m in
    let '(m, w) := perform (set_is_write false m) w in
    let m := set_is_write true m in
    let m := set_value (Z.lor (Z.ldiff (value m) access_mask) (Z.land access_val access_mask)) m in
    let '(m, w) := perform m w in
    (MMIO_HANDLED, m, w)
  else
    let m := set_value (Z.land (value m) access_mask) m in
    let '(m, w) := perform m w in
    (MMIO_HANDLED, m, w).

(** *** Interrupt targets *)

(** [gicv2_targets_in_cell] from [cpu] on; [cpu_cell] are the cells of the
    CPUs. *)
Fixpoint targets_loop (target_map cpu_cell : list Z) (cell_id targets : Z) (n : nat) (cpu : Z) : option bool :=
  match n with
  | O => Some true
  | S n =>
      t ← aget target_map cpu;
      if Z.land targets t =? 0 then targets_loop target_map cpu_cell cell_id targets n (cpu + 1)
      else
        c ← aget cpu_cell cpu;
        if c =? cell_id then targets_loop target_map cpu_cell cell_id targets n (cpu + 1)
        else Some false
  end.

Definition gicv2_targets_in_cell (target_map cpu_cell : list Z) (cell_id targets : Z) : option bool :=
  targets_loop target_map cpu_cell cell_id targets 8 0.

(** What the handlers know of the cell of the calling CPU. *)
Record caller := mk_caller {
  this_cpu : Z;
  cell_id : Z;
  cpus : cpu_set;
  pins : list Z;
}.

(** The loop over the four interrupts of a word; [None] is an interrupt
    that would leave the cell. *)
Fixpoint target_mask_loop (target_map cpu_cell : list Z) (c : caller) (m : mmio_access) (irq_base : Z)
    (k : nat) (n mask : Z) : option (option Z) :=
  match k with
  | O => Some (Some mask)
  | S k =>
      if irqchip_irq_in_cell (pins c) (irq_base + n) then
        let mask := Z.lor mask (Z.shiftl 255 (8 * n)) in
        if negb (is_write m) then target_mask_loop target_map cpu_cell c m irq_base k (n + 1) mask
        else
          let targets := Z.land (Z.shiftr (value m) (8 * n)) 255 in
          ok ← gicv2_targets_in_cell target_map cpu_cell (cell_id c) targets;
          if negb (ok : bool) then Some None
          else target_mask_loop target_map cpu_cell c m irq_base k (n + 1) mask
      else target_mask_loop target_map cpu_cell c m irq_base k (n + 1) mask
  end.

Definition gicv2_handle_irq_target (target_map cpu_cell : list Z) (c : caller) (m : mmio_access)
    (irq : Z) (w : W) : option (mmio_result * mmio_access * W) :=
  let irq_base := Z.ldiff irq 3 in
  if negb (is_spi irq) then
    let '(m, w) := perform m w in Some (MMIO_HANDLED, m, w)
  else
    let offset := irq mod 4 in
    let m := mk_access (Z.ldiff (address m) 3) 4 (is_write m) (u64 (Z.shiftl (value m) (8 * offset))) in
    r ← target_mask_loop target_map cpu_cell c m irq_base 4 0 0;
    match r with
    | None => Some (MMIO_ERROR, m, w)
    | Some access_mask =>
        if is_write m then
          let '(itargetsr, w) := mmio_read32 (GICD_ITARGETSR + irq_base) w in
          let m := set_value (Z.lor (Z.land (value m) access_mask) (Z.ldiff itargetsr access_mask)) m in
          let '(m, w) := perform m w in
          Some (MMIO_HANDLED, m, w)
        else
          let '(m, w) := perform m w in
          Some (MMIO_HANDLED, set_value (Z.land (value m) access_mask) m, w)
    end.

Definition gicv2_handle_irq_route (m : mmio_access) (w : W) : mmio_result * mmio_access * W :=
  (MMIO_HANDLED, m, w).

(** *** Software-generated interrupts *)
Context `{GicHw}.

Fixpoint set_pending_all (this_cpu id : Z) (l : list Z) (s : irq_state) : option irq_state :=
  match l with
  | [] => Some s
  | cpu :: l => s ← irqchip_set_pending this_cpu (Some cpu) id s; set_pending_all this_cpu id l s
  end.

(** The CPUs of the cell that the interrupt is routed to. The cluster of a
    CPU is 0 on GICv2. *)
Definition sgi_selects (target_map : list Z) (this_cpu : Z) (g : sgi) (cpu : Z) : option bool :=
  if routing_mode g =? 1 then Some (negb (cpu =? this_cpu))
  else
    target ← aget target_map cpu;
    Some ((cluster_id g =? 0) && negb (Z.land (targets g) target =? 0)).

Fixpoint sgi_targets (target_map : list Z) (this_cpu : Z) (g : sgi) (l : list Z) : option (list Z) :=
  match l with
  | [] => Some []
  | cpu :: l =>
      b ← sgi_selects target_map this_cpu g cpu;
      rest ← sgi_targets target_map this_cpu g l;
      Some (if (b : bool) then cpu :: rest else rest)
  end.

Definition gic_handle_sgir_write (c : caller) (g : sgi) (s : irq_state) : option irq_state :=
  if routing_mode g =? 2 then irqchip_set_pending (this_cpu c) (Some (this_cpu c)) (sgi_id g) s
  else
    l ← for_each_cpu (cpus c);
    l ← sgi_targets (target_map s) (this_cpu c) g l;
    set_pending_all (this_cpu c) (sgi_id g) l s.

Definition sgi_of_value (val : Z) : sgi :=
  mk_sgi (Z.land (Z.shiftr val 24) 3) 0 (Z.land (Z.shiftr val 16) 255) (Z.land val 15).

(** *** Dispatch *)
Record dist := mk_dist { gicd : W; irqs : irq_state }.

Definition on_gicd (s : dist) (r : mmio_result * mmio_access * W) : mmio_result * mmio_access * dist :=
  let '(res, m, w) := r in (res, m, mk_dist w (irqs s)).

Definition read_only (a : Z) : bool :=
  (a =? GICD_CTLR) || (a =? GICD_TYPER) || (a =? GICD_IIDR) || reg_range a GICDv2_PIDR0 4 4 ||
  reg_range a GICDv2_PIDR4 4 4 || reg_range a GICDv2_CIDR0 4 4.

Definition gicv2_handle_dist_access (c : caller) (m : mmio_access) (s : dist)
    : option (mmio_result * mmio_access * dist) :=
  if address m =? GICD_SGIR then
    if negb (is_write m) then Some (MMIO_HANDLED, m, s)
    else
      i ← gic_handle_sgir_write c (sgi_of_value (value m)) (irqs s);
      Some (MMIO_HANDLED, m, mk_dist (gicd s) i)
  else if read_only (address m) && negb (is_write m) then
    let '(m, w) := perform m (gicd s) in Some (MMIO_HANDLED, m, mk_dist w (irqs s))
  else Some (MMIO_HANDLED, m, s).

Definition gic_handle_dist_access (cpu_cell : list Z) (c : caller) (m : mmio_access) (s : dist)
    : option (mmio_result * mmio_access * dist) :=
  let reg := address m in
  let restrict reg_index bits is_poke :=
    Some (on_gicd s (restrict_bitmask_access (pins c) m reg_index bits is_poke (gicd s))) in
  if reg_range reg GICD_IROUTER 1024 8 then Some (on_gicd s (gicv2_handle_irq_route m (gicd s)))
  else if reg_range reg GICD_ITARGETSR 1024 1 then
    r ← gicv2_handle_irq_target (target_map (irqs s)) cpu_cell c m (reg - GICD_ITARGETSR) (gicd s);
    Some (on_gicd s r)
  else if reg_range reg GICD_ICENABLER 32 4 || reg_range reg GICD_ISENABLER 32 4 ||
          reg_range reg GICD_ICPENDR 32 4 || reg_range reg GICD_ISPENDR 32 4 ||
          reg_range reg GICD_ICACTIVER 32 4 || reg_range reg GICD_ISACTIVER 32 4 then
    restrict (Z.land reg 127 / 4) 1 true
  else if reg_range reg GICD_IGROUPR 32 4 then restrict (Z.land reg 127 / 4) 1 false
  else if reg_range reg GICD_ICFGR 64 4 then restrict (Z.land reg 255 / 4) 2 false
  else if reg_range reg GICD_IPRIORITYR 255 4 then restrict (Z.land reg 1023 / 4) 8 false
  else gicv2_handle_dist_access c m s.

End Device.
Arguments mk_dist {W}.
Arguments gicd {W}.
Arguments irqs {W}.

(** ** Interrupts of cells *)
Record jailhouse_irqchip := mk_irqchip { chip_address : Z; pin_base : Z; pin_bitmap : list Z }.

(** [bitmap[i + pos] = f(bitmap[i + pos], words[pos])] for all [pos]. *)
Fixpoint update_words (f : Z -> Z -> Z) (bitmap : list Z) (i : Z) (words : list Z) : option (list Z) :=
  match words with
  | [] => Some bitmap
  | w :: words =>
      old ← aget bitmap i;
      bitmap ← aset bitmap i (f old w);
      update_words f bitmap (i + 1) words
  end.

(** [for_each_irqchip] over the chips at the distributor. *)
Fixpoint update_pins (gicd_phys : Z) (f : Z -> Z -> Z) (chips : list jailhouse_irqchip) (bitmap : list Z)
    : option (list Z) :=
  match chips with
  | [] => Some bitmap
  | chip :: chips =>
      if negb (chip_address chip =? gicd_phys) then update_pins gicd_phys f chips bitmap
      else
        bitmap ← update_words f bitmap (pin_base chip / 32) (pin_bitmap chip);
        update_pins gicd_phys f chips bitmap
  end.

(** The check of [irqchip_cell_init], on all chips up to the first bad one:
    the bitmap so far, and whether the loop returned [-EINVAL]. *)
Definition chip_ok (chip : jailhouse_irqchip) : bool :=
  (pin_base chip mod 32 =? 0) && (pin_base chip + 4 * 4 * 8 <=? irq_words * 32).

Fixpoint copy_pins (gicd_phys : Z) (chips : list jailhouse_irqchip) (bitmap : list Z)
    : option (Z * list Z) :=
  match chips with
  | [] => Some (0, bitmap)
  | chip :: chips =>
      if negb (chip_address chip =? gicd_phys) then copy_pins gicd_phys chips bitmap
      else if negb (chip_ok chip) then Some (- EINVAL, bitmap)
      else
        bitmap ← update_words (fun _ w => w) bitmap (pin_base chip / 32) (pin_bitmap chip);
        copy_pins gicd_phys chips bitmap
  end.

Section Config.
(** The device, the page tables of the cells ([paging_create] and
    [paging_destroy] of the GICV page) and the platform. *)
Context {W M : Type} (mmio_read : Z -> Z -> W -> Z * W) (mmio_write : Z -> Z -> Z -> W -> W).
Context (gicd_base : Z) (gicd_phys maintenance_irq root_cell : Z).
Context (gicv2_cell_init : Z -> M -> Z * M) (gicv2_cell_exit : Z -> M -> M).
Context (beyond : mmio_region) (dist_handler : Z).

Record cells_state := mk_cells_state {
  bitmaps : gmap Z (list Z);
  mmio_tables : gmap Z mstate;
  mm : M;
  dev : W;
}.

Definition get_bitmap (cell : Z) : ST cells_state (list Z) := from_option (fun s => bitmaps s !! cell).
Definition set_bitmap (cell : Z) (b : list Z) : ST cells_state unit :=
  modify (fun s => mk_cells_state (<[cell := b]> (bitmaps s)) (mmio_tables s) (mm s) (dev s)).
Definition lift {A} (o : option A) : ST cells_state A := from_option (fun _ => o).
Definition on_mm {A} (f : M -> A * M) : ST cells_state A := fun s =>
  let '(x, m) := f (mm s) in Some (x, mk_cells_state (bitmaps s) (mmio_tables s) m (dev s)).
Definition on_dev (f : W -> W) : ST cells_state unit :=
  modify (fun s => mk_cells_state (bitmaps s) (mmio_tables s) (mm s) (f (dev s))).
Definition on_mmio {A} (cell : Z) (f : ST mstate A) : ST cells_state A := fun s =>
  match mmio_tables s !! cell with
  | Some t =>
      match f t with
      | Some (x, t) => Some (x, mk_cells_state (bitmaps s) (<[cell := t]> (mmio_tables s)) (mm s) (dev s))
      | None => None
      end
  | None => None
  end.

(** "except for those used by the hypervisor" *)
Definition private_bits : Z :=
  Z.lor (Z.lor (Z.shiftl 1 SGI_INJECT) (Z.shiftl 1 SGI_EVENT)) (Z.shiftl 1 maintenance_irq).

Definition irqchip_cell_init (cell : Z) (chips : list jailhouse_irqchip) : ST cells_state Z :=
  b ← get_bitmap cell;
  '(err, b) ← lift (copy_pins gicd_phys chips b);
  _ ← set_bitmap cell b;
  if negb (err =? 0) then mret err
  else
    b ← lift (aset b 0 (u32 (Z.lnot private_bits)));
    _ ← set_bitmap cell b;
    err ← on_mm (gicv2_cell_init cell);
    if negb (err =? 0) then mret err
    else
      _ ← on_mmio cell (mmio_region_register beyond gicd_phys gicd_size dist_handler 0);
      if cell =? root_cell then mret 0
      else
        r ← get_bitmap root_cell;
        r ← lift (update_pins gicd_phys Z.ldiff chips r);
        _ ← set_bitmap root_cell r;
        mret 0.

Fixpoint cell_reset_loop (b : list Z) (k : nat) (n : Z) (w : W) : option W :=
  match k with
  | O => Some w
  | S k =>
      mask ← aget b n;
      let w := mmio_write32 mmio_write gicd_base (GICD_ICENABLER + n * 4) mask w in
      let w := mmio_write32 mmio_write gicd_base (GICD_ICACTIVER + n * 4) mask w in
      cell_reset_loop b k (n + 1) w
  end.

Definition irqchip_cell_reset (cell : Z) : ST cells_state unit :=
  b ← get_bitmap cell;
  s ← gets dev;
  w ← lift (cell_reset_loop b (Z.to_nat (irq_words - 1)) 1 s);
  on_dev (fun _ => w).

Definition irqchip_cell_exit (irqchip_is_init : bool) (cell : Z)
    (chips root_chips : list jailhouse_irqchip) : ST cells_state unit :=
  if negb irqchip_is_init then mret tt
  else
    _ ← irqchip_cell_reset cell;
    r ← get_bitmap root_cell;
    r ← lift (update_pins gicd_phys Z.lor chips r);
    r ← lift (update_pins gicd_phys Z.land root_chips r);
    _ ← set_bitmap root_cell r;
    on_mm (fun m => (tt, gicv2_cell_exit cell m)).

(** *** Interrupt targets of a cell *)
Definition gicv2_adjust_irq_target (target_map cpu_cell : list Z) (cell : Z) (cpu_set : cpu_set)
    (irq_id : Z) (w : W) : option W :=
  let itargetsr := GICD_ITARGETSR + Z.ldiff irq_id 3 in
  let '(targets, w) := mmio_read32 mmio_read gicd_base itargetsr w in
  let shift := irq_id mod 4 * 8 in
  ok ← gicv2_targets_in_cell target_map cpu_cell cell (wrap 8 (Z.shiftr targets shift));
  if (ok : bool) then Some w
  else
    cpu ← first_cpu cpu_set;
    t ← aget target_map cpu;
    Some (mmio_write32 mmio_write gicd_base itargetsr
            (Z.lor (Z.ldiff targets (Z.shiftl 255 shift)) (Z.shiftl t shift)) w).

(** A cell as far as the targets are concerned. *)
Record target_cell := mk_target_cell { tc_id : Z; tc_cpus : cpu_set; tc_pins : list Z }.

Definition adjust_if (target_map cpu_cell : list Z) (c : target_cell) (n : Z) (w : W) : option W :=
  if irqchip_irq_in_cell (tc_pins c) n
  then gicv2_adjust_irq_target target_map cpu_cell (tc_id c) (tc_cpus c) n w else Some w.

Fixpoint config_commit_loop (target_map cpu_cell : list Z) (c root : target_cell) (k : nat) (n : Z) (w : W)
    : option W :=
  match k with
  | O => Some w
  | S k =>
      w ← adjust_if target_map cpu_cell c n w;
      w ← adjust_if target_map cpu_cell root n w;
      config_commit_loop target_map cpu_cell c root k (n + 1) w
  end.

Definition irqchip_config_commit (target_map cpu_cell : list Z) (cell_added_removed : option target_cell)
    (root : target_cell) (w : W) : option W :=
  match cell_added_removed with
  | None => Some w
  | Some c => config_commit_loop target_map cpu_cell c root (Z.to_nat (irq_words * 32 - 32)) 32 w
  end.

End Config.
Arguments mk_cells_state {W M}.
Arguments bitmaps {W M}.
Arguments mmio_tables {W M}.
Arguments mm {W M}.
Arguments dev {W M}.

(** ** Bits of the bitmap of a cell *)
Lemma irq_in_cell_spec b irq word :
  0 <= irq < 1024 -> aget b (irq / 32) = Some word ->
  irqchip_irq_in_cell b irq = Z.testbit word (irq mod 32).
Proof.
  intros Hi Hw. unfold irqchip_irq_in_cell, irq_words. change (1024 / 32 * 32) with 1024.
  rewrite Z.geb_leb, (proj2 (Z.leb_gt _ _)), Hw by lia. apply land_bit.
  apply Z.mod_pos_bound. lia.
Qed.

Lemma access_mask_loop_bit b first k n : forall irq mask i,
  0 < k -> 0 <= irq -> 0 <= i ->
  Z.testbit (access_mask_loop b first k n irq mask) i =
    Z.testbit mask i ||
    ((irq <=? i / k) && (i / k <? irq + Z.of_nat n) && irqchip_irq_in_cell b (u32 (first + i / k))).
Proof.
  induction n as [|n IH]; intros irq mask i Hk Hirq Hi; cbn [access_mask_loop].
  - assert ((irq <=? i / k) && (i / k <? irq + Z.of_nat 0) = false) as ->.
    { destruct (irq <=? i / k) eqn:?, (i / k <? irq + Z.of_nat 0) eqn:?; simpl; b2p; lia. }
    by rewrite orb_false_r.
  - rewrite IH by lia.
    assert (Hm : Z.testbit (if irqchip_irq_in_cell b (u32 (first + irq))
        then Z.lor mask (Z.shiftl (Z.shiftl 1 k - 1) (irq * k)) else mask) i =
      Z.testbit mask i || ((i / k =? irq) && irqchip_irq_in_cell b (u32 (first + irq)))).
    { destruct (irqchip_irq_in_cell b _); [|by rewrite andb_false_r, orb_false_r].
      by rewrite Z.lor_spec, shifted_ones_bit, andb_true_r. }
    rewrite Hm, <- orb_assoc. f_equal.
    destruct (irqchip_irq_in_cell b (u32 (first + i / k))) eqn:Hc, (decide (i / k = irq)) as [<-|Hne];
      rewrite ?Hc, ?Z.eqb_refl, ?andb_false_r, ?andb_true_r; [| |done|].
    + symmetry. apply andb_true_intro. split; [apply Z.leb_le|apply Z.ltb_lt]; lia.
    + rewrite (proj2 (Z.eqb_neq _ _) Hne). simpl.
      destruct (irq + 1 <=? i / k) eqn:?, (irq <=? i / k) eqn:?,
        (i / k <? irq + 1 + Z.of_nat n) eqn:?, (i / k <? irq + Z.of_nat (S n)) eqn:?; simpl; b2p; lia.
    + by rewrite (proj2 (Z.eqb_neq _ _) Hne).
Qed.

(** Bit [i] of the mask of register [k] is that of the interrupt it stands
    for, when an interrupt has 1, 2 or 8 bits. *)
Definition bit_widths : list Z := [1; 2; 8].

Lemma access_mask_bit b k bits i :
  bits ∈ bit_widths -> 0 <= k < 256 -> 0 <= i ->
  Z.testbit (access_mask b k bits) i = (i <? 32) && irqchip_irq_in_cell b (k * (32 / bits) + i / bits).
Proof.
  intros Hb Hk Hi. unfold access_mask.
  assert (exists n, Z.shiftr 32 (ffsl bits) = n /\ 32 / bits = n /\ 0 < n <= 32 /\ n * bits = 32 /\ 0 < bits)
    as (n & -> & -> & Hn & Hnb & Hbits).
  { unfold bit_widths in Hb. rewrite !elem_of_cons, elem_of_nil in Hb.
    destruct Hb as [-> | [-> | [-> | []]]]; eexists; (split; [reflexivity|]); by split. }
  rewrite access_mask_loop_bit by lia. rewrite Z.bits_0, orb_false_l, Z2Nat.id by lia.
  assert (i / bits < n <-> i < 32) as Hlt.
  { split; intros H.
    - pose proof (Z.div_mod i bits). pose proof (Z.mod_pos_bound i bits). nia.
    - apply Z.div_lt_upper_bound; lia. }
  pose proof (Z.div_pos i bits Hi Hbits).
  rewrite (proj2 (Z.leb_le _ _)) by done. simpl. destruct (i <? 32) eqn:Hi32; b2p; simpl.
  - rewrite (proj2 (Z.ltb_lt _ _)) by tauto. rewrite (u32_small (k * n)) by nia.
    rewrite u32_small by nia. done.
  - rewrite (proj2 (Z.ltb_ge _ _)) by lia. done.
Qed.

(** ** Word accesses to the banks of the distributor *)
Section Isolation.
Context {W : Type} (mmio_read : Z -> Z -> W -> Z * W) (mmio_write : Z -> Z -> Z -> W -> W).
Context (gicd_base : Z).
Local Notation perform := (perform mmio_read mmio_write gicd_base).
Local Notation restrict_bitmask_access := (restrict_bitmask_access mmio_read mmio_write gicd_base).

Definition sizes : list Z := [1; 2; 4].

Lemma perform_read sz a v w : sz ∈ sizes ->
  perform (mk_access a sz false v) w =
    let '(x, w') := mmio_read sz (u64 (gicd_base + a)) w in (mk_access a sz false x, w').
Proof. unfold sizes. rewrite !elem_of_cons, elem_of_nil. by intros [-> | [-> | [-> | []]]]. Qed.
Lemma perform_write sz a v w : sz ∈ sizes ->
  perform (mk_access a sz true v) w =
    (mk_access a sz true v, mmio_write sz (u64 (gicd_base + a)) (wrap (8 * sz) v) w).
Proof. unfold sizes. rewrite !elem_of_cons, elem_of_nil. by intros [-> | [-> | [-> | []]]]. Qed.
Lemma sizes_bits sz : sz ∈ sizes -> 0 < 8 * sz <= 32.
Proof. unfold sizes. rewrite !elem_of_cons, elem_of_nil. by intros [-> | [-> | [-> | []]]]. Qed.

(** The low [n] bits of [x] are those of [v] where owned, else of [old]. *)
Definition merged (n : Z) (owned : Z -> bool) (v old x : Z) : Prop :=
  forall i, 0 <= i < n -> Z.testbit x i = if owned i then Z.testbit v i else Z.testbit old i.

Lemma restrict_run b sz a v k bits poke w :
  sz ∈ sizes -> bits ∈ bit_widths -> 0 <= k < 256 ->
  let owned i := irqchip_irq_in_cell b (k * (32 / bits) + i / bits) in
  let '(old, w1) := mmio_read sz (u64 (gicd_base + a)) w in
  (exists x, restrict_bitmask_access b (mk_access a sz false v) k bits poke w =
     (MMIO_HANDLED, mk_access a sz false x, w1) /\ merged (8 * sz) owned old 0 x) /\
  (exists x m', restrict_bitmask_access b (mk_access a sz true v) k bits poke w =
     (MMIO_HANDLED, m', mmio_write sz (u64 (gicd_base + a)) x (if poke then w else w1)) /\
     merged (8 * sz) owned v (if poke then 0 else old) x).
Proof.
  intros Hsz Hb Hk owned. unfold Distributor.restrict_bitmask_access.
  pose proof (sizes_bits sz Hsz) as Hbits. set (mask := access_mask b k bits).
  assert (Hmask : forall i, 0 <= i < 8 * sz -> Z.testbit mask i = owned i).
  { intros i Hi. unfold mask. rewrite access_mask_bit by (done || lia).
    by rewrite (proj2 (Z.ltb_lt _ _)) by lia. }
  cbn [is_write negb]. rewrite perform_read by done. destruct (mmio_read sz _ w) as [old w1] eqn:Hr. split.
  - eexists. split; [reflexivity|].
    intros i Hi. cbn [value]. rewrite Z.land_spec, Hmask, Z.bits_0 by done.
    by destruct (owned i), (Z.testbit old i).
  - destruct poke; cbn [negb].
    + eexists _, _. unfold set_value. cbn [address size is_write value]. rewrite perform_write by done.
      split; [reflexivity|]. intros i Hi. rewrite wrap_bit by lia.
      rewrite (proj2 (Z.ltb_lt _ _)), Z.land_spec, Hmask, Z.bits_0 by lia.
      by destruct (owned i), (Z.testbit v i).
    + eexists _, _. unfold set_is_write, set_value. cbn [address size is_write value].
      rewrite perform_read, Hr by done. cbn [address size is_write value]. rewrite perform_write by done.
      split; [reflexivity|]. intros i Hi. rewrite wrap_bit by lia.
      rewrite (proj2 (Z.ltb_lt _ _)), Z.lor_spec, Z.ldiff_spec, Z.land_spec, Hmask by lia.
      by destruct (owned i), (Z.testbit v i), (Z.testbit old i).
Qed.

End Isolation.

(** The register banks that are restricted by a mask: first address, number of
    words, bits per interrupt, and whether a write only touches set bits. *)
Definition banks : list (Z * Z * Z * bool) :=
  [(GICD_ICENABLER, 32, 1, true); (GICD_ISENABLER, 32, 1, true); (GICD_ICPENDR, 32, 1, true);
   (GICD_ISPENDR, 32, 1, true); (GICD_ICACTIVER, 32, 1, true); (GICD_ISACTIVER, 32, 1, true);
   (GICD_IGROUPR, 32, 1, false); (GICD_ICFGR, 64, 2, false); (GICD_IPRIORITYR, 255, 8, false)].

Lemma reg_range_out a base n sz : a < base \/ base + (n - 1) * sz < a -> reg_range a base n sz = false.
Proof. intros H. unfold reg_range. destruct (base <=? a) eqn:?, (a <=? _) eqn:?; simpl; b2p; lia. Qed.
Lemma reg_range_in a base n sz : base <= a <= base + (n - 1) * sz -> reg_range a base n sz = true.
Proof. intros H. unfold reg_range. rewrite !(proj2 (Z.leb_le _ _)); lia. Qed.

Lemma bank_index base k j m : 0 <= k < 2 ^ m -> base = j * 2 ^ (m + 2) -> 0 <= m ->
  Z.land (base + 4 * k) (2 ^ (m + 2) - 1) / 4 = k.
Proof.
  intros Hk -> Hm. replace (2 ^ (m + 2) - 1) with (Z.ones (m + 2)) by (rewrite Z.ones_equiv; lia).
  rewrite Z.land_ones by lia. rewrite Z.pow_add_r by lia. change (2 ^ 2) with 4.
  replace (j * (2 ^ m * 4) + 4 * k) with (4 * k + j * (2 ^ m * 4)) by lia.
  rewrite Z.mod_add by lia. rewrite Z.mod_small by lia. rewrite Z.mul_comm. apply Z.div_mul. lia.
Qed.

Ltac dispatch :=
  unfold gic_handle_dist_access; cbn [address];
  repeat first [rewrite reg_range_in by (cbv delta [GICD_IROUTER GICD_ITARGETSR GICD_ICENABLER GICD_ISENABLER
                  GICD_ICPENDR GICD_ISPENDR GICD_ICACTIVER GICD_ISACTIVER GICD_IGROUPR GICD_ICFGR GICD_IPRIORITYR]; lia)
               |rewrite reg_range_out by (cbv delta [GICD_IROUTER GICD_ITARGETSR GICD_ICENABLER GICD_ISENABLER
                  GICD_ICPENDR GICD_ISPENDR GICD_ICACTIVER GICD_ISACTIVER GICD_IGROUPR GICD_ICFGR GICD_IPRIORITYR]; lia)];
  cbn [orb].

Section Dispatch.
Context {W : Type} (mmio_read : Z -> Z -> W -> Z * W) (mmio_write : Z -> Z -> Z -> W -> W).
Context (gicd_base : Z) `{GicHw} (cpu_cell : list Z).

Lemma dispatch_bank c base n bits poke k s wr v :
  (base, n, bits, poke) ∈ banks -> 0 <= k < n ->
  gic_handle_dist_access mmio_read mmio_write gicd_base cpu_cell c (mk_access (base + 4 * k) 4 wr v) s =
  Some (on_gicd s (restrict_bitmask_access mmio_read mmio_write gicd_base (pins c)
    (mk_access (base + 4 * k) 4 wr v) k bits poke (gicd s))).
Proof.
  intros Hb Hk. unfold banks in Hb. rewrite !elem_of_cons, elem_of_nil in Hb.
  destruct_or! Hb; injection Hb as -> -> -> ->; dispatch;
    first [rewrite (bank_index _ k 1 5) by (done || lia); reflexivity
          |rewrite (bank_index _ k 2 5) by (done || lia); reflexivity
          |rewrite (bank_index _ k 3 5) by (done || lia); reflexivity
          |rewrite (bank_index _ k 4 5) by (done || lia); reflexivity
          |rewrite (bank_index _ k 5 5) by (done || lia); reflexivity
          |rewrite (bank_index _ k 6 5) by (done || lia); reflexivity
          |rewrite (bank_index _ k 7 5) by (done || lia); reflexivity
          |rewrite (bank_index _ k 12 6) by (done || lia); reflexivity
          |rewrite (bank_index _ k 1 8) by (done || lia); reflexivity].
Qed.

End Dispatch.

(** C39: A word access of a cell to a bank of the distributor. A read gives the bits
    of the interrupts of the cell and zero for all others. A write changes the
    bits of the interrupts of the cell only: a set or clear register gets no
    other bit, any other register is written back with the other bits as they
    were read. *)
Theorem dist_word_isolation {W : Type} (mmio_read : Z -> Z -> W -> Z * W)
    (mmio_write : Z -> Z -> Z -> W -> W) (gicd_base : Z) `{GicHw} (cpu_cell : list Z) (c : caller)
    (s : dist) (base n bits : Z) (poke : bool) (k v : Z) :
  (base, n, bits, poke) ∈ banks -> 0 <= k < n ->
  let a := u64 (gicd_base + (base + 4 * k)) in
  let owned i := irqchip_irq_in_cell (pins c) (k * (32 / bits) + i / bits) in
  let access wr := gic_handle_dist_access mmio_read mmio_write gicd_base cpu_cell c
    (mk_access (base + 4 * k) 4 wr v) s in
  let '(old, w1) := mmio_read 4 a (gicd s) in
  (exists x, access false =
      Some (MMIO_HANDLED, mk_access (base + 4 * k) 4 false x, mk_dist w1 (irqs s)) /\
    merged 32 owned old 0 x) /\
  (exists x m', access true =
      Some (MMIO_HANDLED, m', mk_dist (mmio_write 4 a x (if poke then gicd s else w1)) (irqs s)) /\
    merged 32 owned v (if poke then 0 else old) x).
Proof.
  intros Hb Hk a owned access. unfold access. rewrite !(dispatch_bank _ _ _ _ _ _ n bits poke) by done.
  assert (bits ∈ bit_widths /\ 0 <= k < 256) as [Hbits Hk'].
  { unfold banks in Hb. rewrite !elem_of_cons, elem_of_nil in Hb.
    destruct_or! Hb; injection Hb as -> -> -> ->;
      (split; [unfold bit_widths; rewrite !elem_of_cons; tauto|lia]). }
  pose proof (restrict_run mmio_read mmio_write gicd_base (pins c) 4 (base + 4 * k) v k bits poke (gicd s)
    ltac:(unfold sizes; set_solver) Hbits Hk') as Hw. fold a in Hw. destruct (mmio_read 4 a (gicd s)) as [old w1].
  destruct Hw as [(x & -> & Hx) (x' & m' & -> & Hx')]. split; [by exists x|by exists x', m'].
Qed.

(** A byte access to the priority of an interrupt is checked against the first
    interrupt of the same word: who owns this one reads and writes the
    priority, whoever owns the interrupt itself. *)
Theorem byte_priority_escapes {W : Type} (mmio_read : Z -> Z -> W -> Z * W)
    (mmio_write : Z -> Z -> Z -> W -> W) (gicd_base : Z) `{GicHw} (cpu_cell : list Z) (c : caller)
    (s : dist) (irq v : Z) :
  0 <= irq <= 1016 ->
  let a := u64 (gicd_base + (GICD_IPRIORITYR + irq)) in
  let '(old, w1) := mmio_read 1 a (gicd s) in
  exists x m', gic_handle_dist_access mmio_read mmio_write gicd_base cpu_cell c
      (mk_access (GICD_IPRIORITYR + irq) 1 true v) s =
    Some (MMIO_HANDLED, m', mk_dist (mmio_write 1 a x w1) (irqs s)) /\
    merged 8 (fun _ => irqchip_irq_in_cell (pins c) (irq - irq mod 4)) v old x.
Proof.
  intros Hirq a. dispatch.
  assert (Z.land (GICD_IPRIORITYR + irq) 1023 / 4 = irq / 4) as ->.
  { change 1023 with (Z.ones 10). rewrite Z.land_ones by lia. f_equal. unfold GICD_IPRIORITYR.
    rewrite <- (Z.mod_unique (1024 + irq) (2 ^ 10) 1 irq); lia. }
  assert (0 <= irq / 4 < 256) as Hk by (split; [apply Z.div_pos|apply Z.div_lt_upper_bound]; lia).
  pose proof (restrict_run mmio_read mmio_write gicd_base (pins c) 1 (GICD_IPRIORITYR + irq) v (irq / 4) 8 false
    (gicd s) ltac:(unfold sizes; set_solver) ltac:(unfold bit_widths; set_solver) Hk) as Hw.
  fold a in Hw. destruct (mmio_read 1 a (gicd s)) as [old w1]. destruct Hw as [_ (x & m' & -> & Hx)].
  exists x, m'. split; [done|]. intros i Hi. rewrite Hx by lia. change (32 / 8) with 4.
  rewrite (Z.div_small i 8) by lia.
  replace (irq / 4 * 4 + 0) with (irq - irq mod 4) by (pose proof (Z.div_mod irq 4); lia). done.
Qed.

(** ** Targets of interrupts *)
Lemma targets_loop_total tm cc cid t n : forall cpu,
  0 <= cpu -> cpu + Z.of_nat n <= Z.of_nat (length tm) -> length cc = length tm ->
  is_Some (targets_loop tm cc cid t n cpu).
Proof.
  induction n as [|n IH]; intros cpu Hc Hn Hl; cbn [targets_loop]; [by eexists|].
  destruct (aget_in_range tm cpu) as [x ->]; [lia|]. cbn. destruct (Z.land t x =? 0); [apply IH; lia|].
  destruct (aget_in_range cc cpu) as [y ->]; [lia|]. cbn. destruct (y =? cid); [apply IH; lia|by eexists].
Qed.

Definition maps_ok (tm cc : list Z) : Prop := (8 <= length tm)%nat /\ length cc = length tm.

Definition target_ok (tm cc : list Z) (cid t : Z) : bool :=
  default false (gicv2_targets_in_cell tm cc cid t).

Lemma target_ok_run tm cc cid t :
  maps_ok tm cc -> gicv2_targets_in_cell tm cc cid t = Some (target_ok tm cc cid t).
Proof.
  intros [H8 Hl]. unfold target_ok, gicv2_targets_in_cell.
  destruct (targets_loop_total tm cc cid t 8 0) as [x ->]; [lia|simpl; lia|done|done].
Qed.

(** An interrupt of the word that a write would route out of the cell. *)
Definition misrouted (tm cc : list Z) (c : caller) (v irq_base n : Z) : bool :=
  irqchip_irq_in_cell (pins c) (irq_base + n) &&
  negb (target_ok tm cc (cell_id c) (Z.land (Z.shiftr v (8 * n)) 255)).

Lemma target_mask_loop_run tm cc c m irq_base k : maps_ok tm cc -> forall n mask, 0 <= n ->
  let owned i := irqchip_irq_in_cell (pins c) (irq_base + i) in
  if is_write m && existsb (misrouted tm cc c (value m) irq_base) (seqZ n (Z.of_nat k))
  then target_mask_loop tm cc c m irq_base k n mask = Some None
  else exists mask', target_mask_loop tm cc c m irq_base k n mask = Some (Some mask') /\
    forall i, 0 <= i -> Z.testbit mask' i =
      Z.testbit mask i || ((n <=? i / 8) && (i / 8 <? n + Z.of_nat k) && owned (i / 8)).
Proof.
  intros Hmaps. induction k as [|k IH]; intros n mask Hn owned.
  - simpl. rewrite andb_false_r. exists mask. split; [done|]. intros i Hi.
    destruct (n <=? i / 8) eqn:?, (i / 8 <? n + Z.of_nat 0) eqn:?; simpl; rewrite ?orb_false_r; b2p; first [done|exfalso; lia].
  - rewrite seqZ_cons by lia. replace (Z.pred (Z.of_nat (S k))) with (Z.of_nat k) by lia.
    replace (Z.succ n) with (n + 1) by lia. cbn [existsb target_mask_loop].
    set (bad := existsb _ _) in IH |- *. unfold misrouted at 1. fold (owned n).
    specialize (IH (n + 1)). change (existsb _ (seqZ (n + 1) (Z.of_nat k))) with bad in IH.
    assert (Hstep : forall mask1, (forall i, 0 <= i -> Z.testbit mask1 i =
        Z.testbit mask i || ((i / 8 =? n) && owned n)) ->
      if is_write m && bad then target_mask_loop tm cc c m irq_base k (n + 1) mask1 = Some None
      else exists mask', target_mask_loop tm cc c m irq_base k (n + 1) mask1 = Some (Some mask') /\
        forall i, 0 <= i -> Z.testbit mask' i =
          Z.testbit mask i || ((n <=? i / 8) && (i / 8 <? n + Z.of_nat (S k)) && owned (i / 8))).
    { intros mask1 Hm1. specialize (IH mask1 ltac:(lia)). cbv zeta in IH. fold owned in IH.
      destruct (is_write m && bad); [done|]. destruct IH as (mask' & -> & Hm'). exists mask'.
      split; [done|]. intros i Hi. rewrite Hm', Hm1 by done. rewrite <- orb_assoc. f_equal.
      destruct (decide (i / 8 = n)) as [<-|Hne].
      - rewrite Z.eqb_refl, Z.leb_refl, (proj2 (Z.leb_gt _ _)), (proj2 (Z.ltb_lt _ _)) by lia.
        rewrite (proj2 (Z.ltb_lt _ _)) by lia. simpl. by rewrite orb_false_r.
      - rewrite (proj2 (Z.eqb_neq _ _) Hne). simpl. f_equal.
        destruct (n + 1 <=? i / 8) eqn:?, (n <=? i / 8) eqn:?, (i / 8 <? n + 1 + Z.of_nat k) eqn:?,
          (i / 8 <? n + Z.of_nat (S k)) eqn:?; simpl; b2p; lia. }
    assert (Hor : forall i, 0 <= i -> Z.testbit (Z.lor mask (Z.shiftl 255 (8 * n))) i =
      Z.testbit mask i || ((i / 8 =? n) && true)).
    { intros i Hi. rewrite Z.lor_spec, andb_true_r. f_equal.
      rewrite (Z.mul_comm 8 n). by apply (shifted_ones_bit 8 n i). }
    destruct (owned n) eqn:Ho; cbn [andb].
    + destruct (is_write m); cbn [negb].
      * rewrite target_ok_run by done. cbn [mbind option_bind].
        destruct (target_ok tm cc (cell_id c) (Z.land (Z.shiftr (value m) (8 * n)) 255)); cbn [negb orb].
        -- apply Hstep. exact Hor.
        -- done.
      * apply Hstep. exact Hor.
    + rewrite orb_false_l. apply Hstep. intros i Hi. by rewrite andb_false_r, orb_false_r.
Qed.

Lemma ldiff_3 x : Z.ldiff x 3 = x - x mod 4.
Proof.
  change 3 with (Z.ones 2). rewrite Z.ldiff_ones_r, Z.shiftl_mul_pow2, Z.shiftr_div_pow2 by done.
  change (2 ^ 2) with 4. pose proof (Z.div_mod x 4). lia.
Qed.

(** The word that a target access amounts to. *)
Definition target_word (irq v : Z) : Z := u64 (Z.shiftl v (8 * (irq mod 4))).

Section TargetRun.
Context {W : Type} (mmio_read : Z -> Z -> W -> Z * W) (mmio_write : Z -> Z -> Z -> W -> W).
Context (gicd_base : Z) (tm cc : list Z) (Hmaps : maps_ok tm cc) (c : caller).

Lemma irq_target_run irq sz v w :
  32 <= irq < 1020 ->
  let irq_base := irq - irq mod 4 in
  let a := u64 (gicd_base + (GICD_ITARGETSR + irq_base)) in
  let owned i := irqchip_irq_in_cell (pins c) (irq_base + i / 8) in
  let access wr := gicv2_handle_irq_target mmio_read mmio_write gicd_base tm cc c
    (mk_access (GICD_ITARGETSR + irq) sz wr v) irq w in
  let '(old, w1) := mmio_read 4 a w in
  (exists x, access false = Some (MMIO_HANDLED, mk_access (GICD_ITARGETSR + irq_base) 4 false x, w1) /\
     merged 32 owned old 0 x) /\
  (if existsb (misrouted tm cc c (target_word irq v) irq_base) (seqZ 0 4)
   then exists m', access true = Some (MMIO_ERROR, m', w)
   else exists x m', access true = Some (MMIO_HANDLED, m', mmio_write 4 a x w1) /\
     merged 32 owned (target_word irq v) old x).
Proof.
  intros Hirq irq_base a owned access. unfold access, gicv2_handle_irq_target.
  assert (is_spi irq = true) as -> by (unfold is_spi; rewrite Z.gtb_ltb; apply andb_true_intro;
    split; apply Z.ltb_lt; lia).
  cbn [negb address size is_write value]. rewrite !ldiff_3. fold irq_base.
  assert (GICD_ITARGETSR + irq - (GICD_ITARGETSR + irq) mod 4 = GICD_ITARGETSR + irq_base) as ->.
  { unfold irq_base, GICD_ITARGETSR. replace (2048 + irq) with (irq + 512 * 4) by lia.
    rewrite Z.mod_add by done. lia. }
  fold (target_word irq v).
  assert (Hown : forall mask, (forall i, 0 <= i -> Z.testbit mask i = Z.testbit 0 i ||
      ((0 <=? i / 8) && (i / 8 <? 0 + Z.of_nat 4) && irqchip_irq_in_cell (pins c) (irq_base + i / 8))) ->
    forall i, 0 <= i < 32 -> Z.testbit mask i = owned i).
  { intros mask Hm i Hi. rewrite Hm, Z.bits_0 by lia. pose proof (Z.div_pos i 8).
    assert (i / 8 < 4) by (apply Z.div_lt_upper_bound; lia).
    rewrite (proj2 (Z.leb_le _ _)), (proj2 (Z.ltb_lt _ _)) by lia. done. }
  destruct (mmio_read 4 a w) as [old w1] eqn:Hr. split.
  - pose proof (target_mask_loop_run tm cc c (mk_access (GICD_ITARGETSR + irq_base) 4 false (target_word irq v))
      irq_base 4 Hmaps 0 0 ltac:(done)) as Hl. cbv zeta in Hl. cbn [is_write andb] in Hl.
    destruct Hl as (mask & -> & Hm). cbn [mbind option_bind]. unfold perform, mmio_perform_access. cbn [size address is_write].
    change ((4 =? 1) || (4 =? 2) || (4 =? 4) || (4 =? 8)) with true. cbv iota. fold a. rewrite Hr.
    eexists. split; [reflexivity|]. cbn [value]. intros i Hi.
    rewrite Z.land_spec, (Hown mask Hm), Z.bits_0 by done. by destruct (owned i), (Z.testbit old i).
  - pose proof (target_mask_loop_run tm cc c (mk_access (GICD_ITARGETSR + irq_base) 4 true (target_word irq v))
      irq_base 4 Hmaps 0 0 ltac:(done)) as Hl. cbv zeta in Hl. cbn [is_write andb value] in Hl.
    change (Z.of_nat 4) with 4 in Hl. destruct (existsb _ _).
    + rewrite Hl. by eexists.
    + destruct Hl as (mask & -> & Hm). cbn [mbind option_bind]. unfold mmio_read32. fold a. rewrite Hr.
      unfold perform, mmio_perform_access, set_value. cbn [size address is_write value].
      change ((4 =? 1) || (4 =? 2) || (4 =? 4) || (4 =? 8)) with true. cbv iota. fold a.
      eexists _, _. split; [reflexivity|]. intros i Hi.
      rewrite wrap_bit, (proj2 (Z.ltb_lt i _)), Z.lor_spec, Z.land_spec, Z.ldiff_spec, (Hown mask Hm) by lia.
      by destruct (owned i), (Z.testbit (target_word irq v) i), (Z.testbit old i).
Qed.

End TargetRun.

(** An access of a cell to the targets of an interrupt that cells can own. A
    read gives the targets of the interrupts of the cell and zero for others. A
    write that routes an interrupt of the cell to a CPU of another cell is an
    error without effect; an accepted write keeps the targets of all other
    interrupts. *)
Theorem irq_target_isolation {W : Type} (mmio_read : Z -> Z -> W -> Z * W)
    (mmio_write : Z -> Z -> Z -> W -> W) (gicd_base : Z) (tm cc : list Z) (c : caller)
    (irq sz v : Z) (w : W) :
  maps_ok tm cc -> 32 <= irq < 1020 ->
  let irq_base := irq - irq mod 4 in
  let a := u64 (gicd_base + (GICD_ITARGETSR + irq_base)) in
  let owned i := irqchip_irq_in_cell (pins c) (irq_base + i / 8) in
  let access wr := gicv2_handle_irq_target mmio_read mmio_write gicd_base tm cc c
    (mk_access (GICD_ITARGETSR + irq) sz wr v) irq w in
  let '(old, w1) := mmio_read 4 a w in
  (exists x m', access false = Some (MMIO_HANDLED, m', w1) /\ value m' = x /\ merged 32 owned old 0 x) /\
  (if existsb (misrouted tm cc c (target_word irq v) irq_base) (seqZ 0 4)
   then exists m', access true = Some (MMIO_ERROR, m', w)
   else exists x m', access true = Some (MMIO_HANDLED, m', mmio_write 4 a x w1) /\
     merged 32 owned (target_word irq v) old x).
Proof.
  intros Hmaps Hirq irq_base a owned access.
  pose proof (irq_target_run mmio_read mmio_write gicd_base tm cc Hmaps c irq sz v w Hirq) as H.
  cbv zeta in H. fold irq_base in H. fold a in H. destruct (mmio_read 4 a w) as [old w1].
  destruct H as [(x & Hx & Hm) H]. split; [|exact H]. by eexists x, _.
Qed.

Lemma target_word_bit irq v i : 0 <= v < 256 -> 0 <= i < 32 ->
  Z.testbit (target_word irq v) i = (i / 8 =? irq mod 4) && Z.testbit v (i mod 8).
Proof.
  intros Hv Hi. unfold target_word, u64. pose proof (Z.mod_pos_bound irq 4 ltac:(done)) as Ho.
  set (o := irq mod 4) in *. rewrite wrap_bit, (proj2 (Z.ltb_lt _ _)) by lia. cbn [andb].
  rewrite Z.shiftl_spec by lia. pose proof (Z.div_mod i 8 ltac:(done)).
  pose proof (Z.mod_pos_bound i 8 ltac:(done)). destruct (decide (i / 8 = o)) as [Heq|Hne].
  - rewrite Heq, Z.eqb_refl. simpl. f_equal. lia.
  - rewrite (proj2 (Z.eqb_neq _ _) Hne). simpl. destruct (decide (i < 8 * o)).
    + apply Z.testbit_neg_r. lia.
    + assert (8 <= i - 8 * o) by lia. rewrite <- (Z.mod_small v (2 ^ 8)) by lia.
      apply Z.mod_pow2_bits_high. lia.
Qed.

(** The registers of targets have one byte per interrupt, but an accepted byte
    write also clears the targets of the other interrupts of the cell in the
    same word, which nothing then delivers. *)
Theorem byte_target_write_clears {W : Type} (mmio_read : Z -> Z -> W -> Z * W)
    (mmio_write : Z -> Z -> Z -> W -> W) (gicd_base : Z) (tm cc : list Z) (c : caller)
    (irq v : Z) (w : W) (m' : mmio_access) (w' : W) :
  maps_ok tm cc -> 32 <= irq < 1020 -> 0 <= v < 256 ->
  gicv2_handle_irq_target mmio_read mmio_write gicd_base tm cc c
    (mk_access (GICD_ITARGETSR + irq) 1 true v) irq w = Some (MMIO_HANDLED, m', w') ->
  exists x w1, w' = mmio_write 4 (u64 (gicd_base + (GICD_ITARGETSR + (irq - irq mod 4)))) x w1 /\
    forall n i, 0 <= n < 4 -> n <> irq mod 4 -> irqchip_irq_in_cell (pins c) (irq - irq mod 4 + n) = true ->
      0 <= i < 8 -> Z.testbit x (8 * n + i) = false.
Proof.
  intros Hmaps Hirq Hv Hacc.
  pose proof (irq_target_run mmio_read mmio_write gicd_base tm cc Hmaps c irq 1 v w Hirq) as H.
  cbv beta zeta in H. rewrite Hacc in H. destruct (mmio_read 4 _ w) as [old w1]. destruct H as [_ H].
  destruct (existsb _ _); [by destruct H as (? & ?)|]. destruct H as (x & m1 & [= -> ->] & Hx).
  exists x, w1. split; [done|]. intros n i Hn Hne Hown Hi.
  assert ((8 * n + i) / 8 = n) as Hdiv by (symmetry; apply (Z.div_unique _ _ _ i); lia).
  rewrite Hx by lia. rewrite Hdiv, Hown, target_word_bit by lia.
  by rewrite Hdiv, (proj2 (Z.eqb_neq _ _) Hne).
Qed.

(** ** Software-generated interrupts stay in the cell *)
Section Sgi.
Context `{GicHw}.

Lemma set_cpu_irq_other s cpu c s' j :
  set_cpu_irq s cpu c = Some s' -> j <> cpu ->
  aget (cpu_irqs s') j = aget (cpu_irqs s) j /\ target_map s' = target_map s.
Proof.
  unfold set_cpu_irq. destruct (aset (cpu_irqs s) cpu c) as [l|] eqn:Hl; [|done].
  intros [= <-] Hj. split; [|done]. by apply (aget_aset_ne _ _ _ _ _ Hl).
Qed.

Lemma set_pending_other this tgt id s s' j :
  irqchip_set_pending this (Some tgt) id s = Some s' -> j <> tgt ->
  aget (cpu_irqs s') j = aget (cpu_irqs s) j.
Proof.
  unfold irqchip_set_pending. destruct (aget (cpu_irqs s) tgt) as [c|]; [|done]. cbn [mbind option_bind].
  destruct (_ && negb _); [intros H1 Hj; by apply (set_cpu_irq_other _ _ _ _ _ H1 Hj)|].
  destruct (pending_enqueue _ _ _) as [p|]; [|done]. cbn [mbind option_bind].
  destruct (this =? tgt); [intros H1 Hj; by apply (set_cpu_irq_other _ _ _ _ _ H1 Hj)|].
  destruct (set_cpu_irq _ _ _) as [s1|] eqn:H1; [|done]. cbn [mbind option_bind].
  destruct (aget (target_map s1) tgt) as [t|]; [|done]. cbn [mbind option_bind].
  destruct (gicv2_send_sgi _ _) as [? log]. intros [= <-] Hj.
  by apply (set_cpu_irq_other _ _ _ _ _ H1 Hj).
Qed.

Lemma set_pending_all_other this id l : forall s s' j,
  set_pending_all this id l s = Some s' -> j ∉ l -> aget (cpu_irqs s') j = aget (cpu_irqs s) j.
Proof.
  induction l as [|cpu l IH]; intros s s' j Hr Hj; cbn [set_pending_all] in Hr; [by simplify_eq|].
  apply not_elem_of_cons in Hj as [Hj1 Hj2].
  destruct (irqchip_set_pending this (Some cpu) id s) as [s1|] eqn:H1; [|done].
  cbn [mbind option_bind] in Hr.
  rewrite (IH s1 s' j Hr Hj2). by eapply set_pending_other.
Qed.

Lemma sgi_targets_filter tm this g l l' :
  sgi_targets tm this g l = Some l' ->
  l' = filter (fun cpu => sgi_selects tm this g cpu = Some true) l.
Proof.
  revert l'. induction l as [|cpu l IH]; intros l' Hl; simpl in Hl; [by simplify_eq|].
  destruct (sgi_selects tm this g cpu) as [b|] eqn:Hb; [|done]. simpl in Hl.
  destruct (sgi_targets tm this g l) as [rest|]; [|done]. simpl in Hl. injection Hl as <-.
  rewrite filter_cons. destruct b.
  - rewrite decide_True by done. by rewrite <- (IH rest eq_refl).
  - rewrite decide_False by (rewrite Hb; done). by rewrite <- (IH rest eq_refl).
Qed.

End Sgi.

(** A cell that writes GICD_SGIR raises the interrupt on exactly the CPUs of
    its own set that the routing selects; nothing of another CPU changes. *)
Theorem sgi_confined `{GicHw} (c : caller) (val : Z) (s s' : irq_state) :
  cpu_set_ok (cpus c) -> cell_owns_cpu (mk_cell (mk_cell_desc (cell_id c) 0 0) (cpus c) (pins c)) (this_cpu c) = true ->
  0 <= this_cpu c -> gic_handle_sgir_write c (sgi_of_value val) s = Some s' ->
  (exists l, (forall cpu, cpu ∈ l -> 0 <= cpu <= max_cpu_id (cpus c) /\ test_bit cpu (bitmap (cpus c)) = true) /\
     set_pending_all (this_cpu c) (sgi_id (sgi_of_value val)) l s = Some s' /\
     (routing_mode (sgi_of_value val) <> 2 -> l =
        filter (fun cpu => sgi_selects (target_map s) (this_cpu c) (sgi_of_value val) cpu = Some true)
          (cpus_from (cpus c) (-1) 0 (Z.to_nat (max_cpu_id (cpus c) + 1))))) /\
  forall j, test_bit j (bitmap (cpus c)) = false -> aget (cpu_irqs s') j = aget (cpu_irqs s) j.
Proof.
  intros Hok Hown Hthis Hw. set (g := sgi_of_value val) in *.
  assert (Hex : exists l, (forall cpu, cpu ∈ l -> 0 <= cpu <= max_cpu_id (cpus c) /\ test_bit cpu (bitmap (cpus c)) = true) /\
     set_pending_all (this_cpu c) (sgi_id g) l s = Some s' /\
     (routing_mode g <> 2 -> l = filter (fun cpu => sgi_selects (target_map s) (this_cpu c) g cpu = Some true)
          (cpus_from (cpus c) (-1) 0 (Z.to_nat (max_cpu_id (cpus c) + 1))))).
  { unfold gic_handle_sgir_write in Hw. destruct (routing_mode g =? 2) eqn:Hmode; b2p.
    - exists [this_cpu c]. split_and!.
      + intros cpu ->%list_elem_of_singleton. unfold cell_owns_cpu in Hown. simpl in Hown. b2p. split; [lia|done].
      + cbn [set_pending_all]. rewrite Hw. done.
      + intros Hn. by destruct Hn.
    - unfold for_each_cpu in Hw. rewrite for_each_cpu_except_eq in Hw by done. cbn [mbind option_bind] in Hw.
      destruct (sgi_targets _ _ _ _) as [l|] eqn:Hl; [|done]. cbn [mbind option_bind] in Hw.
      apply sgi_targets_filter in Hl as ->. eexists. split_and!; [|exact Hw|done].
      intros cpu [_ Hc]%list_elem_of_filter. unfold cpus_from in Hc.
      apply list_elem_of_filter in Hc as [Hv Hc%elem_of_seqZ]. unfold cpu_set_ok in Hok.
      unfold visits in Hv. apply andb_true_iff in Hv as [_ Hv]. split; [lia|done]. }
  split; [exact Hex|]. destruct Hex as (l & Hl & Hrun & _). intros j Hj.
  apply (set_pending_all_other _ _ _ _ _ _ Hrun). intros Hin. destruct (Hl j Hin) as [_ Hb]. congruence.
Qed.

(** ** Assignment of interrupts to cells *)
Definition covers (gicd_phys : Z) (chip : jailhouse_irqchip) (irq : Z) : bool :=
  (chip_address chip =? gicd_phys) && (pin_base chip / 32 <=? irq / 32) && (irq / 32 <? pin_base chip / 32 + 4).
Definition has_pin (gicd_phys : Z) (chip : jailhouse_irqchip) (irq : Z) : bool :=
  covers gicd_phys chip irq &&
  Z.testbit (default 0 (aget (pin_bitmap chip) (irq / 32 - pin_base chip / 32))) (irq mod 32).

(** A chip of the configuration that passes the check. *)
Definition chip_valid (chip : jailhouse_irqchip) : Prop :=
  chip_ok chip = true /\ 0 <= pin_base chip /\ length (pin_bitmap chip) = 4%nat.

Lemma chip_valid_words chip : chip_valid chip -> 0 <= pin_base chip / 32 /\ pin_base chip / 32 + 4 <= 32.
Proof.
  intros (Hok & Hp & _). unfold chip_ok, irq_words in Hok. b2p.
  change (1024 / 32 * 32) with 1024 in *. split; [by apply Z.div_pos|].
  assert (pin_base chip / 32 <= 896 / 32) by (apply Z.div_le_mono; lia). change (896 / 32) with 28 in *. lia.
Qed.

Definition bits (b : list Z) (irq : Z) : bool :=
  Z.testbit (default 0 (aget b (irq / 32))) (irq mod 32).

Lemma irq_in_cell_bits b irq : length b = 32%nat -> 0 <= irq < 1024 ->
  irqchip_irq_in_cell b irq = bits b irq.
Proof.
  intros Hl Hi. unfold bits. destruct (aget_in_range b (irq / 32)) as [w Hw].
  - rewrite Hl. split; [apply Z.div_pos|apply Z.div_lt_upper_bound]; lia.
  - rewrite Hw. by apply irq_in_cell_spec.
Qed.

(** A word operation that works bit by bit. *)
Definition bitwise (f : Z -> Z -> Z) (g : bool -> bool -> bool) : Prop :=
  forall x y i, 0 <= i -> Z.testbit (f x y) i = g (Z.testbit x i) (Z.testbit y i).

Lemma update_words_run f g ws : bitwise f g -> forall b i,
  0 <= i -> i + Z.of_nat (length ws) <= Z.of_nat (length b) ->
  exists b', update_words f b i ws = Some b' /\ length b' = length b /\
    forall irq, bits b' irq = if (i <=? irq / 32) && (irq / 32 <? i + Z.of_nat (length ws))
      then g (bits b irq) (Z.testbit (default 0 (aget ws (irq / 32 - i))) (irq mod 32)) else bits b irq.
Proof.
  intros Hf. induction ws as [|w ws IH]; intros b i Hi Hl; cbn [update_words].
  - exists b. split; [done|]. split; [done|]. intros irq.
    cbn [length]. destruct (i <=? irq / 32) eqn:?, (irq / 32 <? i + Z.of_nat 0) eqn:?; simpl; b2p;
      first [done|exfalso; lia].
  - cbn [length] in Hl. destruct (aget_in_range b i) as [old Hold]; [lia|]. rewrite Hold. cbn [mbind option_bind].
    rewrite aset_in_range by lia. cbn [mbind option_bind].
    destruct (IH (<[Z.to_nat i := f old w]> b) (i + 1)) as (b' & -> & Hlen & Hb'); [lia|rewrite length_insert; lia|].
    exists b'. split; [done|]. split; [by rewrite Hlen, length_insert|]. intros irq. rewrite Hb'.
    assert (Hins : bits (<[Z.to_nat i := f old w]> b) irq =
      if irq / 32 =? i then g (bits b irq) (Z.testbit w (irq mod 32)) else bits b irq).
    { unfold bits. destruct (decide (irq / 32 = i)) as [Heq|Hne].
      - rewrite Heq, Z.eqb_refl, aget_insert_eq, Hold by lia. simpl. apply Hf.
        apply Z.mod_pos_bound. lia.
      - rewrite (proj2 (Z.eqb_neq _ _) Hne), aget_insert_ne by (done || lia). done. }
    rewrite Hins. cbn [length].
    destruct (decide (irq / 32 = i)) as [Heq|Hne].
    + rewrite Heq, Z.eqb_refl, Z.leb_refl, (proj2 (Z.leb_gt (i + 1) i)), (proj2 (Z.ltb_lt i (i + _))) by lia.
      cbn [andb]. rewrite Z.sub_diag. done.
    + rewrite (proj2 (Z.eqb_neq _ _) Hne).
      destruct (i + 1 <=? irq / 32) eqn:H1, (i <=? irq / 32) eqn:H2, (irq / 32 <? i + 1 + Z.of_nat (length ws)) eqn:H3,
        (irq / 32 <? i + Z.of_nat (S (length ws))) eqn:H4; cbn [andb]; b2p; try lia; try done.
      do 3 f_equal. unfold aget. rewrite (proj2 (Z.ltb_ge _ 0)), (proj2 (Z.ltb_ge _ 0)) by lia.
      replace (Z.to_nat (irq / 32 - i)) with (S (Z.to_nat (irq / 32 - (i + 1)))) by lia. done.
Qed.

Lemma update_pins_run gp f g chips : bitwise f g -> Forall chip_valid chips -> forall b, length b = 32%nat ->
  exists b', update_pins gp f chips b = Some b' /\ length b' = 32%nat /\
    forall irq, bits b' irq =
      foldl (fun v chip => if covers gp chip irq then g v (has_pin gp chip irq) else v) (bits b irq) chips.
Proof.
  intros Hf. induction 1 as [|chip chips Hc _ IH]; intros b Hl; cbn [update_pins]; [by exists b|].
  destruct (chip_address chip =? gp) eqn:Ha; cbn [negb].
  - pose proof (chip_valid_words _ Hc) as Hr. destruct Hc as (_ & _ & Hlen).
    destruct (update_words_run f g (pin_bitmap chip) Hf b (pin_base chip / 32)) as (b1 & -> & Hl1 & Hb1);
      [lia|rewrite Hlen; lia|]. cbn [mbind option_bind].
    destruct (IH b1) as (b' & -> & Hl' & Hb'); [congruence|]. exists b'. split; [done|]. split; [done|].
    intros irq. rewrite Hb', Hb1, Hlen. cbn [foldl]. f_equal.
    assert (Hcov : covers gp chip irq = (pin_base chip / 32 <=? irq / 32) && (irq / 32 <? pin_base chip / 32 + Z.of_nat 4))
      by (unfold covers; by rewrite Ha).
    rewrite <- Hcov. unfold has_pin. by destruct (covers gp chip irq).
  - destruct (IH b Hl) as (b' & -> & Hl' & Hb'). exists b'. split; [done|]. split; [done|].
    intros irq. rewrite Hb'. cbn [foldl]. f_equal.
    assert (covers gp chip irq = false) as -> by (unfold covers; by rewrite Ha). done.
Qed.

Lemma has_pin_covers gp chip irq : covers gp chip irq = false -> has_pin gp chip irq = false.
Proof. intros H. unfold has_pin. by rewrite H. Qed.

Lemma foldl_orb gp irq chips : forall v,
  foldl (fun v chip => if covers gp chip irq then v || has_pin gp chip irq else v) v chips =
  v || existsb (fun chip => has_pin gp chip irq) chips.
Proof.
  induction chips as [|chip chips IH]; intros v; cbn [foldl existsb]; [by rewrite orb_false_r|].
  rewrite IH. destruct (covers gp chip irq) eqn:Hc; [by rewrite orb_assoc|].
  by rewrite (has_pin_covers _ _ _ Hc).
Qed.

Lemma foldl_diff gp irq chips : forall v,
  foldl (fun v chip => if covers gp chip irq then v && negb (has_pin gp chip irq) else v) v chips =
  v && negb (existsb (fun chip => has_pin gp chip irq) chips).
Proof.
  induction chips as [|chip chips IH]; intros v; cbn [foldl existsb]; [by rewrite andb_true_r|].
  rewrite IH. destruct (covers gp chip irq) eqn:Hc; [by rewrite negb_orb, andb_assoc|].
  by rewrite (has_pin_covers _ _ _ Hc).
Qed.

Lemma foldl_and gp irq chips : forall v,
  foldl (fun v chip => if covers gp chip irq then v && has_pin gp chip irq else v) v chips =
  v && forallb (fun chip => implb (covers gp chip irq) (has_pin gp chip irq)) chips.
Proof.
  induction chips as [|chip chips IH]; intros v; cbn [foldl forallb]; [by rewrite andb_true_r|].
  rewrite IH. destruct (covers gp chip irq) eqn:Hc; simpl; [by rewrite andb_assoc|done].
Qed.

(** Chips that stand for different interrupts. *)
Definition chips_disjoint (gp : Z) (chips : list jailhouse_irqchip) : Prop :=
  ForallOrdPairs (fun c1 c2 => forall irq, covers gp c1 irq && covers gp c2 irq = false) chips.

Lemma foldl_copy gp irq chips : chips_disjoint gp chips -> forall v,
  foldl (fun v chip => if covers gp chip irq then has_pin gp chip irq else v) v chips =
  if existsb (fun chip => covers gp chip irq) chips
  then existsb (fun chip => has_pin gp chip irq) chips else v.
Proof.
  induction 1 as [|chip chips Hd _ IH]; intros v; cbn [foldl existsb]; [done|].
  rewrite IH. destruct (covers gp chip irq) eqn:Hc; cbn [orb].
  - assert (existsb (fun chip => covers gp chip irq) chips = false /\
            existsb (fun chip => has_pin gp chip irq) chips = false) as [-> ->].
    { induction Hd as [|c2 chips H2 _ IHd]; [done|]. cbn [existsb]. specialize (H2 irq). rewrite Hc in H2.
      simpl in H2. rewrite H2, (has_pin_covers _ _ _ H2). apply IHd. intros v'.
      specialize (IH v'). cbn [foldl existsb] in IH. rewrite H2, (has_pin_covers _ _ _ H2) in IH. exact IH. }
    by rewrite orb_false_r.
  - by rewrite (has_pin_covers _ _ _ Hc).
Qed.

Lemma bitwise_lor : bitwise Z.lor orb.
Proof. intros x y i _. apply Z.lor_spec. Qed.
Lemma bitwise_land : bitwise Z.land andb.
Proof. intros x y i _. apply Z.land_spec. Qed.
Lemma bitwise_ldiff : bitwise Z.ldiff (fun x y => x && negb y).
Proof. intros x y i _. apply Z.ldiff_spec. Qed.
Lemma bitwise_copy : bitwise (fun _ y => y) (fun _ y => y).
Proof. by intros x y i _. Qed.

(** The check succeeds on valid chips; the loop is then the plain copy. *)
Lemma copy_pins_valid gp chips : Forall chip_valid chips -> forall b,
  copy_pins gp chips b = (fun b => (0, b)) <$> update_pins gp (fun _ w => w) chips b.
Proof.
  induction 1 as [|chip chips Hc _ IH]; intros b; cbn [copy_pins update_pins]; [done|].
  destruct (negb (chip_address chip =? gp)); [apply IH|]. rewrite (proj1 Hc). cbn [negb].
  destruct (update_words _ b _ _); cbn [mbind option_bind]; [apply IH|done].
Qed.

(** ** The pins of a cell *)
Section Pins.
Context {W M : Type} (mmio_write : Z -> Z -> Z -> W -> W).
Context (gicd_base gicd_phys maintenance_irq root_cell : Z).
Context (gicv2_cell_init : Z -> M -> Z * M) (gicv2_cell_exit : Z -> M -> M).
Context (beyond : mmio_region) (dist_handler : Z).

Lemma private_bits_bit i : 0 <= maintenance_irq < 32 -> 0 <= i < 32 ->
  Z.testbit (u32 (Z.lnot (private_bits maintenance_irq))) i =
  negb ((i =? SGI_INJECT) || (i =? SGI_EVENT) || (i =? maintenance_irq)).
Proof.
  intros Hm Hi. unfold u32. rewrite wrap_bit, (proj2 (Z.ltb_lt _ _)) by lia. cbn [andb].
  rewrite Z.lnot_spec by lia. unfold private_bits. rewrite !Z.lor_spec, !Z.shiftl_1_l, !Z.pow2_bits_eqb by (done || lia).
  by rewrite (Z.eqb_sym SGI_INJECT), (Z.eqb_sym SGI_EVENT), (Z.eqb_sym maintenance_irq).
Qed.

Lemma bits_private b irq w : length b = 32%nat -> 0 <= irq < 1024 ->
  bits (<[0%nat := w]> b) irq = if irq <? 32 then Z.testbit w irq else bits b irq.
Proof.
  intros Hl Hi. unfold bits. destruct (Z.ltb_spec irq 32).
  - rewrite Z.div_small, Z.mod_small by lia. by rewrite (aget_insert_eq b 0) by lia.
  - assert (irq / 32 <> 0) by (pose proof (Z.div_le_lower_bound irq 32 1); lia).
    by rewrite (aget_insert_ne b 0) by (done || lia).
Qed.

Lemma cell_reset_total b k : forall n w, 0 <= n -> n + Z.of_nat k <= Z.of_nat (length b) ->
  is_Some (cell_reset_loop mmio_write gicd_base b k n w).
Proof.
  induction k as [|k IH]; intros n w Hn Hl; cbn [cell_reset_loop]; [by eexists|].
  destruct (aget_in_range b n) as [x ->]; [lia|]. cbn [mbind option_bind]. apply IH; lia.
Qed.

Lemma cell_init_run cell chips (s : cells_state (W:=W) (M:=M)) b r t ok t' mm' :
  cell <> root_cell -> Forall chip_valid chips ->
  bitmaps s !! cell = Some b -> length b = 32%nat ->
  bitmaps s !! root_cell = Some r -> length r = 32%nat ->
  gicv2_cell_init cell (mm s) = (0, mm') -> mmio_tables s !! cell = Some t ->
  mmio_region_register beyond gicd_phys gicd_size dist_handler 0 t = Some (ok, t') ->
  exists b1 r1, update_pins gicd_phys (fun _ w => w) chips b = Some b1 /\ length b1 = 32%nat /\
    update_pins gicd_phys Z.ldiff chips r = Some r1 /\ length r1 = 32%nat /\
    irqchip_cell_init gicd_phys maintenance_irq root_cell gicv2_cell_init beyond dist_handler cell chips s =
    Some (0, mk_cells_state
      (<[root_cell := r1]> (<[cell := <[0%nat := u32 (Z.lnot (private_bits maintenance_irq))]> b1]> (bitmaps s)))
      (<[cell := t']> (mmio_tables s)) mm' (dev s)).
Proof.
  intros Hne Hv Hb Hlb Hr Hlr Hmm Ht Hreg.
  destruct (update_pins_run gicd_phys _ _ chips bitwise_copy Hv b Hlb) as (b1 & Hb1 & Hl1 & _).
  destruct (update_pins_run gicd_phys _ _ chips bitwise_ldiff Hv r Hlr) as (r1 & Hr1 & Hlr1 & _).
  exists b1, r1. do 4 (split; [done|]). unfold irqchip_cell_init.
  erewrite bind_run by (unfold get_bitmap, from_option; rewrite Hb; reflexivity).
  erewrite bind_run by (unfold lift, from_option; rewrite copy_pins_valid, Hb1 by done; reflexivity).
  cbv beta iota. erewrite bind_run by reflexivity. cbv beta. change (negb (0 =? 0)) with false. cbv iota.
  erewrite bind_run by (unfold lift, from_option; rewrite aset_in_range by lia; reflexivity).
  erewrite bind_run by reflexivity.
  erewrite bind_run by (unfold on_mm; cbn [mm]; rewrite Hmm; reflexivity).
  change (negb (0 =? 0)) with false. cbv iota.
  erewrite bind_run by (unfold on_mmio; cbn [mmio_tables]; rewrite Ht, Hreg; reflexivity).
  rewrite (proj2 (Z.eqb_neq cell root_cell)) by done.
  erewrite bind_run by (unfold get_bitmap, from_option; cbn [bitmaps]; rewrite !lookup_insert_ne, Hr by done; reflexivity).
  erewrite bind_run by (unfold lift, from_option; rewrite Hr1; reflexivity).
  unfold set_bitmap, modify. cbn [bitmaps mmio_tables mm dev]. change (Z.to_nat 0) with 0%nat.
  erewrite bind_run by reflexivity. by rewrite insert_insert_eq.
Qed.

Lemma cell_exit_run cell chips root_chips (s : cells_state (W:=W) (M:=M)) b r :
  Forall chip_valid chips -> Forall chip_valid root_chips ->
  bitmaps s !! cell = Some b -> length b = 32%nat ->
  bitmaps s !! root_cell = Some r -> length r = 32%nat ->
  exists r1 w, length r1 = 32%nat /\
    (forall irq, bits r1 irq =
       (bits r irq || existsb (fun chip => has_pin gicd_phys chip irq) chips) &&
       forallb (fun chip => implb (covers gicd_phys chip irq) (has_pin gicd_phys chip irq)) root_chips) /\
    cell_reset_loop mmio_write gicd_base b 31 1 (dev s) = Some w /\
    irqchip_cell_exit mmio_write gicd_base gicd_phys root_cell gicv2_cell_exit true cell chips root_chips s =
    Some (tt, mk_cells_state (<[root_cell := r1]> (bitmaps s)) (mmio_tables s) (gicv2_cell_exit cell (mm s)) w).
Proof.
  intros Hv Hvr Hb Hlb Hr Hlr.
  destruct (update_pins_run gicd_phys _ _ chips bitwise_lor Hv r Hlr) as (r1 & Hr1 & Hl1 & Hbits1).
  destruct (update_pins_run gicd_phys _ _ root_chips bitwise_land Hvr r1 Hl1) as (r2 & Hr2 & Hl2 & Hbits2).
  destruct (cell_reset_total b 31 1 (dev s)) as [w Hw]; [lia|rewrite Hlb; simpl; lia|].
  exists r2, w. split; [done|]. split; [|split; [done|]].
  { intros irq. by rewrite Hbits2, Hbits1, foldl_and, foldl_orb. }
  unfold irqchip_cell_exit. cbn [negb].
  erewrite bind_run.
  2: { unfold irqchip_cell_reset. erewrite bind_run by (unfold get_bitmap, from_option; rewrite Hb; reflexivity).
       erewrite bind_run by reflexivity. change (Z.to_nat (irq_words - 1)) with 31%nat.
       erewrite bind_run by (unfold lift, from_option; rewrite Hw; reflexivity). reflexivity. }
  erewrite bind_run by (unfold get_bitmap, from_option; cbn [bitmaps]; rewrite Hr; reflexivity).
  erewrite bind_run by (unfold lift, from_option; rewrite Hr1; reflexivity).
  erewrite bind_run by (unfold lift, from_option; rewrite Hr2; reflexivity).
  reflexivity.
Qed.

(** The private interrupts of a cell and its shared ones, and what the root
    cell keeps. *)
Theorem cell_init_moves_pins cell chips (s : cells_state (W:=W) (M:=M)) r t ok t' mm' :
  cell <> root_cell -> Forall chip_valid chips -> chips_disjoint gicd_phys chips ->
  0 <= maintenance_irq < 32 ->
  bitmaps s !! cell = Some (replicate 32 0) ->
  bitmaps s !! root_cell = Some r -> length r = 32%nat ->
  gicv2_cell_init cell (mm s) = (0, mm') -> mmio_tables s !! cell = Some t ->
  mmio_region_register beyond gicd_phys gicd_size dist_handler 0 t = Some (ok, t') ->
  exists b1 r1 s', irqchip_cell_init gicd_phys maintenance_irq root_cell gicv2_cell_init beyond dist_handler cell chips s =
      Some (0, s') /\
    bitmaps s' = <[root_cell := r1]> (<[cell := b1]> (bitmaps s)) /\
    mmio_tables s' = <[cell := t']> (mmio_tables s) /\
    forall irq, 0 <= irq < 1024 ->
      irqchip_irq_in_cell b1 irq =
        (if irq <? 32 then negb ((irq =? SGI_INJECT) || (irq =? SGI_EVENT) || (irq =? maintenance_irq))
         else existsb (fun chip => has_pin gicd_phys chip irq) chips) /\
      irqchip_irq_in_cell r1 irq =
        irqchip_irq_in_cell r irq && negb (existsb (fun chip => has_pin gicd_phys chip irq) chips).
Proof.
  intros Hne Hv Hd Hmt Hb Hr Hlr Hmm Ht Hreg.
  destruct (cell_init_run cell chips s _ r t ok t' mm' Hne Hv Hb (length_replicate _ _) Hr Hlr Hmm Ht Hreg)
    as (b1 & r1 & Hb1 & Hl1 & Hr1 & Hlr1 & Hrun).
  destruct (update_pins_run gicd_phys _ _ chips bitwise_copy Hv _ (length_replicate 32 0)) as (? & Hb1' & _ & Hbits).
  destruct (update_pins_run gicd_phys _ _ chips bitwise_ldiff Hv r Hlr) as (? & Hr1' & _ & Hrbits).
  simplify_eq. eexists _, _, _. split; [exact Hrun|]. split; [done|]. split; [done|].
  intros irq Hirq. rewrite !irq_in_cell_bits by (rewrite ?length_insert; done). split.
  - rewrite bits_private by done. destruct (Z.ltb_spec irq 32); [apply private_bits_bit; lia|].
    rewrite Hbits, foldl_copy by done. destruct (existsb (fun chip => covers _ _ _) chips) eqn:Hc; [done|].
    assert (bits (replicate 32 0) irq = false) as ->.
    { unfold bits. destruct (aget_in_range (replicate 32 0) (irq / 32)) as [x Hx].
      - rewrite length_replicate. split; [apply Z.div_pos|apply Z.div_lt_upper_bound]; lia.
      - rewrite Hx. unfold aget in Hx. destruct (_ <? 0); [done|].
        apply lookup_replicate in Hx as [-> _]. apply Z.bits_0. }
    symmetry. clear -Hc. induction chips as [|chip chips IH]; [done|]. cbn [existsb] in *.
    apply orb_false_iff in Hc as [Hc1 Hc2]. by rewrite (has_pin_covers _ _ _ Hc1), (IH Hc2).
  - by rewrite Hrbits, foldl_diff.
Qed.

(** After a cell was created and destroyed, the root cell owns what it owned and
    the pins of the cell, except for what a chip of its own configuration
    masks. It owns the same interrupts again when the pins were all its own and
    the configuration gives it what it owned. *)
Theorem cell_pins_roundtrip cell chips root_chips (s s1 : cells_state (W:=W) (M:=M)) b r t ok t' mm' err :
  cell <> root_cell -> Forall chip_valid chips -> Forall chip_valid root_chips ->
  bitmaps s !! cell = Some b -> length b = 32%nat ->
  bitmaps s !! root_cell = Some r -> length r = 32%nat ->
  gicv2_cell_init cell (mm s) = (0, mm') -> mmio_tables s !! cell = Some t ->
  mmio_region_register beyond gicd_phys gicd_size dist_handler 0 t = Some (ok, t') ->
  irqchip_cell_init gicd_phys maintenance_irq root_cell gicv2_cell_init beyond dist_handler cell chips s =
    Some (err, s1) ->
  exists s2 r2, irqchip_cell_exit mmio_write gicd_base gicd_phys root_cell gicv2_cell_exit true cell chips root_chips s1 =
      Some (tt, s2) /\ bitmaps s2 !! root_cell = Some r2 /\
    forall irq, 0 <= irq < 1024 ->
      irqchip_irq_in_cell r2 irq =
        (irqchip_irq_in_cell r irq || existsb (fun chip => has_pin gicd_phys chip irq) chips) &&
        forallb (fun chip => implb (covers gicd_phys chip irq) (has_pin gicd_phys chip irq)) root_chips /\
      ((existsb (fun chip => has_pin gicd_phys chip irq) chips = true -> irqchip_irq_in_cell r irq = true) ->
       (irqchip_irq_in_cell r irq = true ->
        forallb (fun chip => implb (covers gicd_phys chip irq) (has_pin gicd_phys chip irq)) root_chips = true) ->
       irqchip_irq_in_cell r2 irq = irqchip_irq_in_cell r irq).
Proof.
  intros Hne Hv Hvr Hb Hlb Hr Hlr Hmm Ht Hreg Hinit.
  destruct (cell_init_run cell chips s b r t ok t' mm' Hne Hv Hb Hlb Hr Hlr Hmm Ht Hreg)
    as (b1 & r1 & Hb1 & Hl1 & Hr1 & Hlr1 & Hrun).
  destruct (update_pins_run gicd_phys _ _ chips bitwise_ldiff Hv r Hlr) as (? & Hr1' & _ & Hrbits).
  rewrite Hr1 in Hr1'. injection Hr1' as <-. rewrite Hrun in Hinit. injection Hinit as _ <-.
  match goal with |- context [irqchip_cell_exit _ _ _ _ _ _ _ _ _ ?st] =>
    destruct (cell_exit_run cell chips root_chips st (<[0%nat := u32 (Z.lnot (private_bits maintenance_irq))]> b1) r1 Hv Hvr)
      as (r2 & w & Hl2 & Hbits2 & _ & Hexit) end; cbn [bitmaps];
    [by rewrite lookup_insert_ne, lookup_insert_eq|by rewrite length_insert|by rewrite lookup_insert_eq|done|].
  eexists _, r2. split; [exact Hexit|]. cbn [bitmaps]. split; [by rewrite lookup_insert_eq|].
  intros irq Hirq. rewrite !irq_in_cell_bits, Hbits2, Hrbits, foldl_diff by done.
  split; [by destruct (bits r irq), (existsb _ chips)|].
  destruct (bits r irq), (existsb _ chips); cbn [andb orb negb]; intros H1 H2;
    first [done | by apply H2 | discriminate (H1 eq_refl)].
Qed.

End Pins.

(** ** Retargeting of interrupts *)
Section Commit.
Context {W : Type} (mmio_read : Z -> Z -> W -> Z * W) (mmio_write : Z -> Z -> Z -> W -> W).
Context (gicd_base : Z) (tm cc : list Z).
(** The word of the targets of the interrupts from [n] on, and the bits of it
    that the device implements. *)
Context (word : Z -> W -> Z) (implemented : Z -> Z).

Definition target_reg (n : Z) : Z := u64 (gicd_base + (GICD_ITARGETSR + n)).

(** The target registers hold what is written to them, as far as they are
    implemented. *)
Record target_device : Prop := {
  td_read n w : 32 <= n < 1024 -> n mod 4 = 0 -> fst (mmio_read 4 (target_reg n) w) = word n w;
  td_keep n k w : 32 <= n < 1024 -> n mod 4 = 0 -> word k (snd (mmio_read 4 (target_reg n) w)) = word k w;
  td_write n k v w : 32 <= n < 1024 -> n mod 4 = 0 -> 32 <= k < 1024 -> k mod 4 = 0 ->
    word k (mmio_write 4 (target_reg n) v w) = if k =? n then Z.land v (implemented n) else word k w;
  td_bits n w : Z.land (word n w) (implemented n) = word n w;
}.
Context (Hdev : target_device).

(** The targets of an interrupt. *)
Definition targets_of (irq : Z) (w : W) : Z :=
  wrap 8 (Z.shiftr (word (irq - irq mod 4) w) (irq mod 4 * 8)).

Lemma targets_loop_mono cid t t' n : forall cpu,
  (forall i, 0 <= i -> Z.testbit t' i = true -> Z.testbit t i = true) ->
  targets_loop tm cc cid t n cpu = Some true -> targets_loop tm cc cid t' n cpu = Some true.
Proof.
  induction n as [|n IH]; intros cpu Hsub Hok; cbn [targets_loop] in *; [done|].
  destruct (aget tm cpu) as [x|]; [|done]. cbn [mbind option_bind] in *.
  destruct (Z.land t x =? 0) eqn:Htx; b2p.
  - assert (Z.land t' x = 0) as ->; [|by apply IH]. apply Z.bits_inj'. intros i Hi.
    apply (f_equal (fun z => Z.testbit z i)) in Htx. rewrite Z.land_spec, Z.bits_0 in *.
    specialize (Hsub i Hi). destruct (Z.testbit t' i), (Z.testbit t i); simpl in *; try done.
    by specialize (Hsub eq_refl).
  - destruct (aget cc cpu) as [y|]; [|done]. cbn [mbind option_bind] in *.
    destruct (y =? cid); [|done]. apply IH in Hok; [|done]. by destruct (Z.land t' x =? 0).
Qed.

Lemma target_ok_mono cid t t' :
  (forall i, 0 <= i -> Z.testbit t' i = true -> Z.testbit t i = true) ->
  target_ok tm cc cid t = true -> target_ok tm cc cid t' = true.
Proof.
  unfold target_ok, gicv2_targets_in_cell. intros Hsub.
  destruct (targets_loop tm cc cid t 8 0) as [b|] eqn:Hl; [|done].
  intros Hb. change (b = true) in Hb. rewrite Hb in Hl.
  by rewrite (targets_loop_mono cid t t' 8 0 Hsub Hl).
Qed.

(** A cell for which no CPU is recorded accepts a target only if that is no CPU
    at all; then every cell does. *)
Lemma target_ok_none cid o t :
  cid ∉ cc -> target_ok tm cc cid t = true -> target_ok tm cc o t = true.
Proof.
  intros Hno. unfold target_ok, gicv2_targets_in_cell.
  assert (forall n cpu, targets_loop tm cc cid t n cpu = Some true -> targets_loop tm cc o t n cpu = Some true) as Hl.
  { induction n as [|n IH]; intros cpu Hok; cbn [targets_loop] in *; [done|].
    destruct (aget tm cpu) as [x|]; [|done]. cbn [mbind option_bind] in *.
    destruct (Z.land t x =? 0); [by apply IH|]. destruct (aget cc cpu) as [y|] eqn:Hy; [|done].
    cbn [mbind option_bind] in *. destruct (Z.eqb_spec y cid) as [->|]; [|done]. exfalso. apply Hno.
    unfold aget in Hy. destruct (_ <? 0); [done|]. by eapply list_elem_of_lookup_2. }
  destruct (targets_loop tm cc cid t 8 0) as [b|] eqn:Hc; [|done].
  intros Hb. change (b = true) in Hb. rewrite Hb in Hc. by rewrite (Hl 8%nat 0 Hc).
Qed.

(** The first CPU in the set of the cell [c] is recorded for the cell [o], so
    that interrupts of [o] can go to it. *)
Definition first_target_ok (c : target_cell) (o : Z) : Prop :=
  exists cpu t, first_cpu (tc_cpus c) = Some cpu /\ aget tm cpu = Some t /\ 0 <= t < 256 /\
    target_ok tm cc o t = true.

Context (Hmaps : maps_ok tm cc).

Lemma byte_bit x s i : 0 <= i < 8 -> 0 <= s -> Z.testbit (wrap 8 (Z.shiftr x s)) i = Z.testbit x (i + s).
Proof.
  intros Hi Hs. by rewrite wrap_bit, (proj2 (Z.ltb_lt _ _)), Z.shiftr_spec by lia.
Qed.

Lemma adjust_run c o irq w : first_target_ok c o -> 32 <= irq < 1024 ->
  exists w', gicv2_adjust_irq_target mmio_read mmio_write gicd_base tm cc (tc_id c) (tc_cpus c) irq w = Some w' /\
    (if target_ok tm cc (tc_id c) (targets_of irq w) then targets_of irq w' = targets_of irq w
     else target_ok tm cc o (targets_of irq w') = true) /\
    forall irq', 32 <= irq' < 1024 -> irq' <> irq -> targets_of irq' w' = targets_of irq' w.
Proof.
  intros (cpu & t & Hf & Ht & Hrt & Hok) Hirq. set (n := irq - irq mod 4).
  pose proof (Z.mod_pos_bound irq 4 ltac:(done)) as Ho.
  assert (Hn : 32 <= n < 1024).
  { unfold n. pose proof (Z.div_mod irq 4). assert (8 <= irq / 4) by (apply Z.div_le_lower_bound; lia). lia. }
  assert (Hn4 : n mod 4 = 0).
  { unfold n. rewrite Zminus_mod_idemp_r, Z.sub_diag. done. }
  unfold gicv2_adjust_irq_target, mmio_read32. rewrite ldiff_3. fold n. fold (target_reg n).
  destruct (mmio_read 4 (target_reg n) w) as [old w1] eqn:Hr.
  assert (old = word n w) as -> by (rewrite <- (td_read Hdev n w Hn Hn4), Hr; done).
  assert (Hk : forall k, word k w1 = word k w) by (intros k; rewrite <- (td_keep Hdev n k w Hn Hn4), Hr; done).
  change (wrap 8 _) with (targets_of irq w). rewrite target_ok_run by done. cbn [mbind option_bind].
  assert (Hsame : forall k, targets_of k w1 = targets_of k w) by (intros k; unfold targets_of; by rewrite Hk).
  destruct (target_ok tm cc (tc_id c) (targets_of irq w)) eqn:Hcur.
  { exists w1. split_and!; [done|by rewrite Hsame|intros; by rewrite Hsame]. }
  rewrite Hf. cbn [mbind option_bind]. rewrite Ht. cbn [mbind option_bind]. eexists. split; [reflexivity|].
  unfold mmio_write32. fold (target_reg n). set (v := Z.lor _ _).
  assert (Hv : forall i, 0 <= i < 32 -> Z.testbit (Z.land (u32 v) (implemented n)) i =
    (if i / 8 =? irq mod 4 then Z.testbit t (i mod 8) else Z.testbit (word n w) i) && Z.testbit (implemented n) i).
  { intros i Hi. unfold u32. rewrite Z.land_spec, wrap_bit, (proj2 (Z.ltb_lt i 32)) by lia. cbn [andb]. f_equal.
    unfold v. rewrite Z.lor_spec, Z.ldiff_spec, (shifted_ones_bit 8) by lia.
    rewrite Z.shiftl_spec by lia. pose proof (Z.div_mod i 8). pose proof (Z.mod_pos_bound i 8).
    destruct (Z.eqb_spec (i / 8) (irq mod 4)) as [He|Hne].
    - rewrite andb_false_r. simpl. f_equal. lia.
    - rewrite andb_true_r. destruct (decide (i < irq mod 4 * 8)).
      + by rewrite (Z.testbit_neg_r t), orb_false_r by lia.
      + rewrite <- (Z.mod_small t (2 ^ 8)) by lia. rewrite Z.mod_pow2_bits_high, orb_false_r by lia. done. }
  split.
  - apply (target_ok_mono _ t); [|done]. intros i Hi. unfold targets_of. fold n.
    rewrite (td_write Hdev) by done. rewrite Z.eqb_refl.
    destruct (decide (i < 8)).
    + rewrite byte_bit, Hv by lia. rewrite <- (Z.div_unique (i + irq mod 4 * 8) 8 (irq mod 4) i) by lia.
      rewrite <- (Z.mod_unique (i + irq mod 4 * 8) 8 (irq mod 4) i) by lia. rewrite Z.eqb_refl.
      by intros [? _]%andb_true_iff.
    + rewrite wrap_bit, (proj2 (Z.ltb_ge i 8)) by lia. done.
  - intros k Hkr Hne. unfold targets_of. set (nk := k - k mod 4).
    pose proof (Z.mod_pos_bound k 4 ltac:(done)) as Hok'.
    assert (Hnk : 32 <= nk < 1024).
    { unfold nk. pose proof (Z.div_mod k 4). assert (8 <= k / 4) by (apply Z.div_le_lower_bound; lia). lia. }
    assert (Hnk4 : nk mod 4 = 0) by (unfold nk; rewrite Zminus_mod_idemp_r, Z.sub_diag; done).
    rewrite (td_write Hdev) by done. destruct (Z.eqb_spec nk n) as [He|_]; [|by rewrite Hk].
    assert (k mod 4 <> irq mod 4) by (unfold nk, n in He; lia).
    rewrite He. apply Z.bits_inj'. intros i Hi. destruct (decide (i < 8)).
    + rewrite !byte_bit, Hv by lia. rewrite <- (Z.div_unique (i + k mod 4 * 8) 8 (k mod 4) i) by lia.
      rewrite (proj2 (Z.eqb_neq _ _)) by done. rewrite <- Z.land_spec. by rewrite (td_bits Hdev).
    + by rewrite !wrap_bit, (proj2 (Z.ltb_ge i 8)) by lia.
Qed.

(** What a pass over an interrupt of [c], whose CPUs belong to [o], leaves of
    its targets. *)
Definition retargeted (c : target_cell) (o irq : Z) (w w' : W) : Prop :=
  if irqchip_irq_in_cell (tc_pins c) irq
  then if target_ok tm cc (tc_id c) (targets_of irq w) then targets_of irq w' = targets_of irq w
       else target_ok tm cc o (targets_of irq w') = true
  else targets_of irq w' = targets_of irq w.

Lemma adjust_if_run c o irq w : first_target_ok c o -> 32 <= irq < 1024 ->
  exists w', adjust_if mmio_read mmio_write gicd_base tm cc c irq w = Some w' /\ retargeted c o irq w w' /\
    forall irq', 32 <= irq' < 1024 -> irq' <> irq -> targets_of irq' w' = targets_of irq' w.
Proof.
  intros Hc Hirq. unfold adjust_if, retargeted. destruct (irqchip_irq_in_cell (tc_pins c) irq).
  - exact (adjust_run c o irq w Hc Hirq).
  - by exists w.
Qed.

Definition committed (c : target_cell) (o : Z) (root : target_cell) (irq : Z) (w w' : W) : Prop :=
  if irqchip_irq_in_cell (tc_pins root) irq then target_ok tm cc (tc_id root) (targets_of irq w') = true
  else retargeted c o irq w w'.

Lemma config_commit_loop_run c o root : first_target_ok c o -> first_target_ok root (tc_id root) -> forall k n w,
  32 <= n -> n + Z.of_nat k <= 1024 ->
  exists w', config_commit_loop mmio_read mmio_write gicd_base tm cc c root k n w = Some w' /\
    forall irq, 32 <= irq < 1024 ->
      if (n <=? irq) && (irq <? n + Z.of_nat k) then committed c o root irq w w'
      else targets_of irq w' = targets_of irq w.
Proof.
  intros Hc Hroot. induction k as [|k IH]; intros n w Hn Hk; cbn [config_commit_loop].
  - exists w. split; [done|]. intros irq Hirq.
    destruct (n <=? irq) eqn:?, (irq <? n + Z.of_nat 0) eqn:?; cbn [andb]; b2p; first [done|exfalso; lia].
  - destruct (adjust_if_run c o n w Hc) as (w1 & -> & H1 & Ho1); [lia|]. cbn [mbind option_bind].
    destruct (adjust_if_run root (tc_id root) n w1 Hroot) as (w2 & -> & H2 & Ho2); [lia|]. cbn [mbind option_bind].
    destruct (IH (n + 1) w2) as (w' & -> & Hw'); [lia|lia|]. exists w'. split; [done|]. intros irq Hirq.
    specialize (Hw' irq Hirq). destruct (decide (irq = n)) as [->|Hne].
    + rewrite (proj2 (Z.leb_gt (n + 1) n)) in Hw' by lia. cbn [andb] in Hw'.
      rewrite Z.leb_refl, (proj2 (Z.ltb_lt n _)) by lia. cbn [andb]. unfold committed, retargeted in *. rewrite Hw'.
      destruct (irqchip_irq_in_cell (tc_pins root) n); [|by rewrite H2].
      destruct (target_ok tm cc (tc_id root) (targets_of n w1)) eqn:Hok1; [by rewrite H2|done].
    + replace ((n <=? irq) && (irq <? n + Z.of_nat (S k))) with ((n + 1 <=? irq) && (irq <? n + 1 + Z.of_nat k)).
      2: { destruct (Z.leb_spec (n + 1) irq), (Z.leb_spec n irq), (Z.ltb_spec irq (n + 1 + Z.of_nat k)), (Z.ltb_spec irq (n + Z.of_nat (S k)));
             first [done | exfalso; lia]. }
      assert (targets_of irq w2 = targets_of irq w) as He by (by rewrite Ho2, Ho1).
      destruct (_ && _); [|by rewrite Hw', He]. unfold committed, retargeted in *. by rewrite !He in Hw'.
Qed.

(** C40: After a cell was created or destroyed, every shared interrupt of the
    root cell goes to CPUs of the root cell only, every other one that is in
    the pins of the cell goes to CPUs of the cell [o] for which the CPUs of the
    cell are recorded, and no other interrupt was retargeted. When the cell was
    created, [o] is the cell itself; when it was destroyed, its CPUs were
    given back before, no CPU is recorded for it any more, and [o] is the root
    cell. In both cases the eight possible targets have a record, the first CPU
    of the root cell is recorded for the root cell, and that in the set of the
    cell for [o]. *)
Theorem config_commit_confines c o root w :
  o = tc_id c \/ o = tc_id root /\ tc_id c ∉ cc ->
  first_target_ok c o -> first_target_ok root (tc_id root) ->
  exists w', irqchip_config_commit mmio_read mmio_write gicd_base tm cc (Some c) root w = Some w' /\
    forall irq, 32 <= irq < 1024 ->
      if irqchip_irq_in_cell (tc_pins root) irq then target_ok tm cc (tc_id root) (targets_of irq w') = true
      else if irqchip_irq_in_cell (tc_pins c) irq then target_ok tm cc o (targets_of irq w') = true
      else targets_of irq w' = targets_of irq w.
Proof.
  intros Ho Hc Hroot. unfold irqchip_config_commit. change (Z.to_nat _) with 992%nat.
  destruct (config_commit_loop_run c o root Hc Hroot 992 32 w) as (w' & -> & Hw'); [done|done|].
  exists w'. split; [done|]. intros irq Hirq. specialize (Hw' irq Hirq).
  rewrite (proj2 (Z.leb_le 32 irq)), (proj2 (Z.ltb_lt irq _)) in Hw' by lia.
  cbn [andb] in Hw'. unfold committed, retargeted in Hw'. destruct (irqchip_irq_in_cell (tc_pins root) irq); [done|].
  destruct (irqchip_irq_in_cell (tc_pins c) irq); [|done].
  destruct (target_ok tm cc (tc_id c) (targets_of irq w)) eqn:Hok; [|done]. rewrite Hw'.
  destruct Ho as [->|[-> Hno]]; [done|]. by apply (target_ok_none (tc_id c)).
Qed.

End Commit.

(** ** Examples *)

(** A device that remembers what was written to it. *)
Fixpoint reg_value (a : Z) (w : list (Z * Z)) : Z :=
  match w with
  | [] => 0
  | (b, v) :: w => if a =? b then u32 v else reg_value a w
  end.
Definition reg_read (sz a : Z) (w : list (Z * Z)) : Z * list (Z * Z) := (reg_value a w, w).
Definition reg_write (sz a v : Z) (w : list (Z * Z)) : list (Z * Z) := (a, v) :: w.

(** Interrupts 37 and 38 belong to a cell with the CPUs 2 and 3. *)
Definition cell_pins : list Z := <[1%nat := 96]> (replicate 32 0).
Definition cell_caller : caller := mk_caller 2 1 (mk_cpu_set 3 12) cell_pins.
Definition target_bits : list Z := [1; 2; 4; 8; 16; 32; 64; 128].
Definition cell_of_cpu : list Z := [0; 0; 1; 1; 0; 0; 0; 0].
Definition idle_ring : pending_irqs := mk_pending_irqs false (replicate 256 0) (replicate 256 0) 0 0.
Definition idle_cpu : cpu_irq := mk_cpu_irq idle_ring [0; 0; 0; 0] 0.
Definition idle_irqs : irq_state := mk_irq_state (replicate 8 idle_cpu) [] target_bits.

Lemma demo_maps_ok : maps_ok target_bits cell_of_cpu.
Proof. split; [simpl; lia|done]. Qed.

Lemma dist_word_isolation_witness : exists x m',
  gic_handle_dist_access reg_read reg_write 65536 cell_of_cpu cell_caller
    (mk_access (GICD_ICFGR + 4 * 2) 4 true 4294967295) (mk_dist [] idle_irqs) =
    Some (MMIO_HANDLED, m', mk_dist [(65536 + GICD_ICFGR + 8, x)] idle_irqs) /\
  forall i, 0 <= i < 32 -> Z.testbit x i = (i / 2 =? 5) || (i / 2 =? 6).
Proof.
  destruct (dist_word_isolation reg_read reg_write 65536 cell_of_cpu cell_caller (mk_dist [] idle_irqs)
    GICD_ICFGR 64 2 false 2 4294967295) as [_ (x & m' & Hacc & Hx)].
  - apply (bool_decide_unpack _). vm_compute. exact I.
  - lia.
  - exists x, m'. split; [exact Hacc|]. intros i Hi. rewrite Hx by exact Hi.
    assert (Hall : forallb (fun i => Bool.eqb
      (if irqchip_irq_in_cell (pins cell_caller) (2 * (32 / 2) + i / 2) then Z.testbit 4294967295 i else Z.testbit 0 i)
      ((i / 2 =? 5) || (i / 2 =? 6))) (seqZ 0 32) = true) by (vm_compute; reflexivity).
    rewrite forallb_forall in Hall. apply Bool.eqb_prop, Hall, list_elem_of_In, elem_of_seqZ. lia.
Defined.

Lemma byte_priority_escapes_witness : exists x m',
  gic_handle_dist_access reg_read reg_write 65536 cell_of_cpu (mk_caller 2 1 (mk_cpu_set 3 12) (<[1%nat := 1]> (replicate 32 0)))
    (mk_access (GICD_IPRIORITYR + 35) 1 true 255) (mk_dist [] idle_irqs) =
    Some (MMIO_HANDLED, m', mk_dist [(65536 + GICD_IPRIORITYR + 35, x)] idle_irqs) /\
  irqchip_irq_in_cell (<[1%nat := 1]> (replicate 32 0)) 35 = false /\ forall i, 0 <= i < 8 -> Z.testbit x i = true.
Proof.
  destruct (byte_priority_escapes reg_read reg_write 65536 cell_of_cpu
    (mk_caller 2 1 (mk_cpu_set 3 12) (<[1%nat := 1]> (replicate 32 0))) (mk_dist [] idle_irqs) 35 255)
    as (x & m' & Hacc & Hx); [lia|].
  exists x, m'. split; [exact Hacc|]. split; [vm_compute; reflexivity|]. intros i Hi. rewrite Hx by exact Hi.
  change (irqchip_irq_in_cell _ _) with true. cbv iota. change 255 with (Z.ones 8).
  rewrite Z.testbit_ones_nonneg by lia. apply Z.ltb_lt. lia.
Defined.

Lemma irq_target_isolation_witness :
  (exists m', gicv2_handle_irq_target reg_read reg_write 65536 target_bits cell_of_cpu cell_caller
     (mk_access (GICD_ITARGETSR + 37) 1 true 1) 37 [] = Some (MMIO_ERROR, m', [])) /\
  exists x m', gicv2_handle_irq_target reg_read reg_write 65536 target_bits cell_of_cpu cell_caller
     (mk_access (GICD_ITARGETSR + 37) 1 true 4) 37 [] =
     Some (MMIO_HANDLED, m', [(65536 + GICD_ITARGETSR + 36, x)]).
Proof.
  split.
  - destruct (irq_target_isolation reg_read reg_write 65536 target_bits cell_of_cpu cell_caller 37 1 1 []
      demo_maps_ok) as [_ H]; [lia|]. exact H.
  - destruct (irq_target_isolation reg_read reg_write 65536 target_bits cell_of_cpu cell_caller 37 1 4 []
      demo_maps_ok) as [_ (x & m' & H & _)]; [lia|]. exists x, m'. exact H.
Defined.

Lemma byte_target_write_clears_witness : exists x w1 m',
  gicv2_handle_irq_target reg_read reg_write 65536 target_bits cell_of_cpu cell_caller
    (mk_access (GICD_ITARGETSR + 37) 1 true 4) 37 [(65536 + GICD_ITARGETSR + 36, 8 * 65536)] =
    Some (MMIO_HANDLED, m', (65536 + GICD_ITARGETSR + 36, x) :: w1) /\
  forall i, 0 <= i < 8 -> Z.testbit x (16 + i) = false.
Proof.
  destruct (byte_target_write_clears reg_read reg_write 65536 target_bits cell_of_cpu cell_caller 37 4
    [(65536 + GICD_ITARGETSR + 36, 8 * 65536)] (mk_access (GICD_ITARGETSR + 36) 4 true 1024)
    [(65536 + GICD_ITARGETSR + 36, 1024); (65536 + GICD_ITARGETSR + 36, 8 * 65536)]
    demo_maps_ok) as (x & w1 & Hw & Hx); [lia|lia|vm_compute; reflexivity|].
  exists 1024, [(65536 + GICD_ITARGETSR + 36, 8 * 65536)], (mk_access (GICD_ITARGETSR + 36) 4 true 1024).
  split; [vm_compute; reflexivity|].
  injection Hw as <- _. intros i Hi. apply (Hx 2); [lia|done|vm_compute; reflexivity|lia].
Defined.

Lemma sgi_confined_witness : exists s',
  gic_handle_sgir_write cell_caller (sgi_of_value (Z.lor (Z.shiftl 255 16) 5)) idle_irqs = Some s' /\
  aget (cpu_irqs s') 0 = Some idle_cpu /\ option_map (fun c => ring_queue (pending c)) (aget (cpu_irqs s') 3) = Some [(5, 2)].
Proof.
  destruct (gic_handle_sgir_write cell_caller (sgi_of_value (Z.lor (Z.shiftl 255 16) 5)) idle_irqs) as [s'|] eqn:Hs;
    [|vm_compute in Hs; discriminate].
  exists s'. split; [reflexivity|]. split.
  - destruct (sgi_confined cell_caller (Z.lor (Z.shiftl 255 16) 5) idle_irqs s') as [_ H];
      [unfold cpu_set_ok; cbn; lia|reflexivity|cbn; lia|exact Hs|]. rewrite (H 0) by reflexivity. reflexivity.
  - vm_compute in Hs. injection Hs as <-. vm_compute. reflexivity.
Defined.

(** The cell gets the interrupts 37 and 38 of a root cell that had 32 to 63. *)
Definition cell_chip : jailhouse_irqchip := mk_irqchip 65536 32 [96; 0; 0; 0].
Definition root_chip : jailhouse_irqchip := mk_irqchip 65536 32 [4294967295; 0; 0; 0].
Definition root_pins : list Z := <[1%nat := 4294967295]> (replicate 32 0).
Definition empty_table : mstate := mk_mstate (mk_table 0 4 (replicate 4 (mk_region 0 0 0 0))) [].
Definition no_region : mmio_region := mk_region 0 0 0 0.
Definition two_cells : cells_state (W:=list (Z * Z)) (M:=unit) :=
  mk_cells_state (<[1 := replicate 32 0]> (<[0 := root_pins]> ∅)) (<[1 := empty_table]> ∅) tt [].

Lemma demo_chips_valid : Forall chip_valid [cell_chip] /\ Forall chip_valid [root_chip].
Proof. split; (constructor; [|constructor]); (split; [reflexivity|]; split; [simpl; lia|reflexivity]). Qed.

Lemma cell_init_moves_pins_witness : exists b1 r1 s',
  irqchip_cell_init 65536 30 0 (fun _ m => (0, m)) no_region 5 1 [cell_chip] two_cells = Some (0, s') /\
  bitmaps s' = <[0 := r1]> (<[1 := b1]> (bitmaps two_cells)) /\
  irqchip_irq_in_cell b1 37 = true /\ irqchip_irq_in_cell b1 36 = false /\
  irqchip_irq_in_cell r1 37 = false /\ irqchip_irq_in_cell r1 36 = true.
Proof.
  destruct (mmio_region_register no_region 65536 gicd_size 5 0 empty_table) as [[ok t']|] eqn:Hreg;
    [|vm_compute in Hreg; discriminate].
  destruct (cell_init_moves_pins 65536 30 0 (fun _ m => (0, m)) no_region 5 1 [cell_chip] two_cells root_pins
    empty_table ok t' tt ltac:(done) (proj1 demo_chips_valid)) as (b1 & r1 & s' & Hrun & Hb & _ & Hirq);
    [by repeat constructor|lia|reflexivity|reflexivity|reflexivity|reflexivity|reflexivity|exact Hreg|].
  exists b1, r1, s'. split; [exact Hrun|]. split; [exact Hb|].
  destruct (Hirq 37 ltac:(lia)) as [H1 H2]. destruct (Hirq 36 ltac:(lia)) as [H3 H4].
  rewrite H1, H2, H3, H4. vm_compute. split_and!; reflexivity.
Defined.

Lemma cell_pins_roundtrip_witness : exists s1 s2 r2,
  irqchip_cell_init 65536 30 0 (fun _ m => (0, m)) no_region 5 1 [cell_chip] two_cells = Some (0, s1) /\
  irqchip_cell_exit reg_write 65536 65536 0 (fun _ m => m) true 1 [cell_chip] [root_chip] s1 = Some (tt, s2) /\
  bitmaps s2 !! 0 = Some r2 /\ irqchip_irq_in_cell r2 37 = true.
Proof.
  destruct (mmio_region_register no_region 65536 gicd_size 5 0 empty_table) as [[ok t']|] eqn:Hreg;
    [|vm_compute in Hreg; discriminate].
  destruct (irqchip_cell_init 65536 30 0 (fun _ m => (0, m)) no_region 5 1 [cell_chip] two_cells)
    as [[err s1]|] eqn:Hinit; [|vm_compute in Hinit; discriminate].
  destruct (cell_pins_roundtrip reg_write 65536 65536 30 0 (fun _ m => (0, m)) (fun _ m => m) no_region 5 1
    [cell_chip] [root_chip] two_cells s1 (replicate 32 0) root_pins empty_table ok t' tt err
    ltac:(done) (proj1 demo_chips_valid) (proj2 demo_chips_valid)) as (s2 & r2 & Hexit & Hr2 & Hirq);
    [reflexivity|reflexivity|reflexivity|reflexivity|reflexivity|reflexivity|exact Hreg|exact Hinit|].
  exists s1, s2, r2. assert (err = 0) as -> by (vm_compute in Hinit; by injection Hinit).
  split; [reflexivity|]. split; [exact Hexit|]. split; [exact Hr2|].
  destruct (Hirq 37 ltac:(lia)) as [-> _]. vm_compute. reflexivity.
Defined.

Lemma reg_device : target_device reg_read reg_write 65536
  (fun n w => reg_value (target_reg 65536 n) w) (fun _ => 2 ^ 32 - 1).
Proof.
  assert (Hreg : forall n, 32 <= n < 1024 -> target_reg 65536 n = 67584 + n).
  { intros n Hn. unfold target_reg, GICD_ITARGETSR. rewrite u64_small; lia. }
  change (2 ^ 32 - 1) with (Z.ones 32). split.
  - done.
  - done.
  - intros n k v w Hn _ Hk _. cbn [reg_write reg_value]. rewrite !Hreg by done.
    rewrite Z.land_ones by done. unfold u32, wrap.
    destruct (Z.eqb_spec (67584 + k) (67584 + n)), (Z.eqb_spec k n); first [done|exfalso; lia].
  - intros n w. rewrite Z.land_ones by done. induction w as [|[b v] w IH]; [done|]. cbn [reg_value].
    destruct (_ =? b); [|done]. unfold u32, wrap. by rewrite Z.mod_mod.
Qed.

(** The interrupts of the cell went to CPU 0 of the root cell, those of the
    root cell to CPU 2. When the cell is destroyed, its CPUs are back in the
    root cell, and so are the targets. *)
Definition demo_target_cell : target_cell := mk_target_cell 1 (mk_cpu_set 3 12) cell_pins.
Definition demo_root_target (bits : Z) : target_cell :=
  mk_target_cell 0 (mk_cpu_set 7 bits) (<[1%nat := 16]> (replicate 32 0)).
Definition demo_targets : list (Z * Z) := [(65536 + GICD_ITARGETSR + 36, 66052)].

Lemma config_commit_confines_witness :
  (exists w', irqchip_config_commit reg_read reg_write 65536 target_bits cell_of_cpu
      (Some demo_target_cell) (demo_root_target 243) demo_targets = Some w' /\
    target_ok target_bits cell_of_cpu 1
      (targets_of (fun n w => reg_value (target_reg 65536 n) w) 37 w') = true /\
    target_ok target_bits cell_of_cpu 0
      (targets_of (fun n w => reg_value (target_reg 65536 n) w) 36 w') = true) /\
  exists w', irqchip_config_commit reg_read reg_write 65536 target_bits (replicate 8 0)
      (Some demo_target_cell) (demo_root_target 255) demo_targets = Some w' /\
    target_ok target_bits (replicate 8 0) 0
      (targets_of (fun n w => reg_value (target_reg 65536 n) w) 37 w') = true.
Proof.
  split.
  - destruct (config_commit_confines reg_read reg_write 65536 target_bits cell_of_cpu _ _ reg_device demo_maps_ok
      demo_target_cell 1 (demo_root_target 243) demo_targets) as (w' & Hrun & Hirq).
    + by left.
    + exists 2, 4. split_and!; [vm_compute; reflexivity|reflexivity|done|done|vm_compute; reflexivity].
    + exists 0, 1. split_and!; [vm_compute; reflexivity|reflexivity|done|done|vm_compute; reflexivity].
    + exists w'. split; [exact Hrun|]. split; [exact (Hirq 37 ltac:(lia))|exact (Hirq 36 ltac:(lia))].
  - destruct (config_commit_confines reg_read reg_write 65536 target_bits (replicate 8 0) _ _ reg_device
      ltac:(by split) demo_target_cell 0 (demo_root_target 255) demo_targets) as (w' & Hrun & Hirq).
    + right. split; [done|]. apply (bool_decide_unpack _). vm_compute. exact I.
    + exists 2, 4. split_and!; [vm_compute; reflexivity|reflexivity|done|done|vm_compute; reflexivity].
    + exists 0, 1. split_and!; [vm_compute; reflexivity|reflexivity|done|done|vm_compute; reflexivity].
    + exists w'. split; [exact Hrun|exact (Hirq 37 ltac:(lia))].
Defined.
