(* ===== verification/PagePool.v ===== *)
(** * Page pools of the hypervisor

    The allocator of hypervisor/paging.c: a pool is an array of pages with a
    bitmap of the used ones. [page_free] also yields the pages that it
    overwrites with zeros; the memory itself is in the file Paging. *)

From Stdlib Require Import ZArith Lia.
From stdpp Require Import base tactics list list_numbers option.
From S2P Require Import Prelude Bitops Mmio.

Definition PAGE_SHIFT : Z := 12.
Definition INVALID_PAGE_NR : Z := u64 (Z.lnot 0).
Definition PAGE_SCRUB_ON_FREE : Z := 1.
Definition PAGE_ALIGN (s : Z) : Z := Z.land (u64 (s + PAGE_SIZE - 1)) PAGE_MASK.
Definition PAGES (s : Z) : Z := u64 (s + PAGE_SIZE - 1) / PAGE_SIZE.

Record page_pool := mk_page_pool {
  base_address : Z;
  pages : Z;
  used_pages : Z;
  used_bitmap : list Z;
  pool_flags : Z;
}.

Definition set_used (used : Z) (b : list Z) (p : page_pool) : page_pool :=
  mk_page_pool (base_address p) (pages p) used b (pool_flags p).

(** ** Allocation *)

(** The loop of [find_next_free_page] over [n] words from [bmp_pos] on. *)
Fixpoint find_free_loop (pool : page_pool) (n : nat) (bmp_pos start_mask : Z) : option Z :=
  match n with
  | O => Some INVALID_PAGE_NR
  | S n =>
      w ← aget (used_bitmap pool) bmp_pos;
      let bmp_val := Z.lor w start_mask in
      if negb (bmp_val =? u64 (Z.lnot 0)) then
        let page_nr := u64 (ffzl bmp_val + bmp_pos * BITS_PER_LONG) in
        Some (if page_nr >=? pages pool then INVALID_PAGE_NR else page_nr)
      else find_free_loop pool n (bmp_pos + 1) 0
  end.

Definition find_next_free_page (pool : page_pool) (start : Z) : option Z :=
  if start >=? pages pool then Some INVALID_PAGE_NR
  else
    let start_mask :=
      if start mod BITS_PER_LONG >? 0
      then Z.shiftr (u64 (Z.lnot 0)) (BITS_PER_LONG - start mod BITS_PER_LONG) else 0 in
    find_free_loop pool (Z.to_nat (pages pool / BITS_PER_LONG - start / BITS_PER_LONG))
      (start / BITS_PER_LONG) start_mask.

(** The loop that looks for [n] more pages behind [last]. *)
Inductive run_result := Consecutive | Gap (next : Z) | Exhausted.

Fixpoint find_run (pool : page_pool) (n : nat) (last : Z) : option run_result :=
  match n with
  | O => Some Consecutive
  | S n =>
      next ← find_next_free_page pool (last + 1);
      if next =? INVALID_PAGE_NR then Some Exhausted
      else if negb (next =? last + 1) then Some (Gap next)
      else find_run pool n next
  end.

(** The search from the label [restart] on; [INVALID_PAGE_NR] stands for the
    return of NULL. *)
Fixpoint search_pages (fuel : nat) (pool : page_pool) (num align_mask aligned_start next : Z) : option Z :=
  match fuel with
  | O => None
  | S fuel =>
      let off := Z.land (u64 (next - aligned_start)) align_mask in
      let next := if negb (off =? 0) then u64 (next + num - off) else next in
      start ← find_next_free_page pool next;
      if (start =? INVALID_PAGE_NR) || (num =? 0) then Some INVALID_PAGE_NR
      else if negb (Z.land (u64 (start - aligned_start)) align_mask =? 0) then
        search_pages fuel pool num align_mask aligned_start start
      else
        r ← find_run pool (Z.to_nat (num - 1)) start;
        match r with
        | Exhausted => Some INVALID_PAGE_NR
        | Gap next => search_pages fuel pool num align_mask aligned_start next
        | Consecutive => Some start
        end
  end.

Fixpoint set_bits (n : nat) (nr : Z) (b : list Z) : option (list Z) :=
  match n with
  | O => Some b
  | S n => b ← set_bit nr b; set_bits n (nr + 1) b
  end.

(** The search restarts at most once for every page. *)
Definition page_alloc_internal (pool : page_pool) (num align_mask : Z) : option (Z * page_pool) :=
  let aligned_start := Z.land (Z.shiftr (base_address pool) PAGE_SHIFT) align_mask in
  start ← search_pages (S (Z.to_nat (pages pool))) pool num align_mask aligned_start aligned_start;
  if start =? INVALID_PAGE_NR then Some (0, pool)
  else
    b ← set_bits (Z.to_nat num) start (used_bitmap pool);
    Some (u64 (base_address pool + start * PAGE_SIZE), set_used (u64 (used_pages pool + num)) b pool).

Definition page_alloc (pool : page_pool) (num : Z) : option (Z * page_pool) :=
  page_alloc_internal pool num 0.
Definition page_alloc_aligned (pool : page_pool) (num : Z) : option (Z * page_pool) :=
  page_alloc_internal pool num (u32 (num - 1)).

(** ** Release *)
Fixpoint page_free_loop (pool : page_pool) (page : Z) (num : nat) (scrubbed : list Z)
    : option (page_pool * list Z) :=
  match num with
  | O => Some (pool, scrubbed)
  | S num =>
      let scrubbed := if negb (Z.land (pool_flags pool) PAGE_SCRUB_ON_FREE =? 0)
        then scrubbed ++ [page] else scrubbed in
      let page_nr := u64 (Z.quot (page - base_address pool) PAGE_SIZE) in
      b ← clear_bit page_nr (used_bitmap pool);
      page_free_loop (set_used (u64 (used_pages pool - 1)) b pool) (u64 (page + PAGE_SIZE)) num scrubbed
  end.

Definition page_free (pool : page_pool) (page num : Z) : option (page_pool * list Z) :=
  if page =? 0 then Some (pool, [])
  else page_free_loop pool page (Z.to_nat num) [].

(** ** Free pages *)
Record pool_ok (p : page_pool) : Prop := {
  po_words : words_ok (used_bitmap p);
  po_pages : 0 <= pages p < 2 ^ 31;
  po_bitmap : pages p <= 64 * Z.of_nat (length (used_bitmap p));
  po_base : 0 < base_address p /\ base_address p mod PAGE_SIZE = 0;
  po_end : base_address p + pages p * PAGE_SIZE <= 2 ^ 64;
}.

(** Only the pages of whole words of the bitmap are managed. *)
Definition managed (p : page_pool) : Z := 64 * (pages p / 64).
Definition free_page (p : page_pool) (n : Z) : Prop :=
  0 <= n < managed p /\ word_bit (used_bitmap p) n = false.

Lemma managed_pages p : pool_ok p -> 0 <= managed p <= pages p.
Proof.
  intros Hp. unfold managed. pose proof (po_pages p Hp). pose proof (Z.div_mod (pages p) 64).
  pose proof (Z.mod_pos_bound (pages p) 64). pose proof (Z.div_pos (pages p) 64). lia.
Qed.

Lemma invalid_value : INVALID_PAGE_NR = 2 ^ 64 - 1.
Proof. reflexivity. Qed.

Lemma word_bit_at b w pos i : aget b pos = Some w -> 0 <= i < 64 -> word_bit b (i + pos * 64) = Z.testbit w i.
Proof.
  intros Hw Hi. unfold word_bit, BITS_PER_LONG.
  rewrite Z.div_add, Z.div_small, Z.mod_add, Z.mod_small, Z.add_0_l by lia. by rewrite Hw.
Qed.

(** A start mask covers the bits below the start of the search. *)
Definition masks (mask n : Z) : Prop := 0 <= mask < 2 ^ 64 /\ forall i, 0 <= i < 64 -> Z.testbit mask i = (i <? n).

Lemma full_word w : 0 <= w < 2 ^ 64 -> w = 2 ^ 64 - 1 -> forall i, 0 <= i < 64 -> Z.testbit w i = true.
Proof.
  intros _ -> i Hi. change (2 ^ 64 - 1) with (Z.ones 64). rewrite Z.testbit_ones_nonneg by lia.
  apply Z.ltb_lt. lia.
Qed.

Lemma lor_range x y n : 0 <= n -> 0 <= x < 2 ^ n -> 0 <= y < 2 ^ n -> 0 <= Z.lor x y < 2 ^ n.
Proof.
  intros Hn Hx Hy. assert (0 <= Z.lor x y) by (apply Z.lor_nonneg; lia). split; [done|].
  destruct (decide (Z.lor x y = 0)) as [->|]; [by apply Z.pow_pos_nonneg|].
  apply Z.log2_lt_pow2; [lia|]. rewrite Z.log2_lor by lia.
  assert (n <> 0) by (intros ->; change (2 ^ 0) with 1 in *; assert (x = 0 /\ y = 0) as [-> ->] by lia; done).
  apply Z.max_lub_lt.
  - destruct (decide (x = 0)) as [->|]; [cbn; lia|]. apply Z.log2_lt_pow2; lia.
  - destruct (decide (y = 0)) as [->|]; [cbn; lia|]. apply Z.log2_lt_pow2; lia.
Qed.

(** The first free page from [start] on, if any. *)
Definition next_free (p : page_pool) (start r : Z) : Prop :=
  (r = INVALID_PAGE_NR /\ forall n, start <= n -> ~ free_page p n) \/
  (start <= r /\ free_page p r /\ forall n, start <= n < r -> ~ free_page p n).

Lemma find_free_loop_run p n : pool_ok p -> forall pos mask lo,
  0 <= pos -> masks mask lo -> 0 <= lo < 64 ->
  pos + Z.of_nat n = pages p / 64 ->
  exists r, find_free_loop p n pos mask = Some r /\ next_free p (lo + pos * 64) r.
Proof.
  intros Hp. pose proof (managed_pages p Hp) as Hm. unfold managed in Hm.
  pose proof (po_pages p Hp) as Hpg. pose proof (po_bitmap p Hp) as Hbm.
  assert (Hd : pages p / 64 <= Z.of_nat (length (used_bitmap p))) by (apply Z.div_le_upper_bound; lia).
  induction n as [|n IH]; intros pos mask lo Hpos [Hmr Hmask] Hlo Hend; cbn [find_free_loop].
  - eexists. split; [done|]. left. split; [done|]. intros k Hk [Hr _]. unfold managed in Hr. lia.
  - destruct (aget_in_range (used_bitmap p) pos) as [w Hw]; [lia|]. rewrite Hw. cbn [mbind option_bind].
    pose proof (words_ok_get _ _ _ (po_words p Hp) Hw) as Hwr.
    pose proof (lor_range w mask 64 ltac:(done) Hwr Hmr) as Hvr.
    change (u64 (Z.lnot 0)) with (2 ^ 64 - 1).
    assert (Hbit : forall i, 0 <= i < 64 -> Z.testbit (Z.lor w mask) i = word_bit (used_bitmap p) (i + pos * 64) || (i <? lo))
      by (intros i Hi; rewrite Z.lor_spec, Hmask, (word_bit_at _ w) by done; done).
    destruct (Z.eqb_spec (Z.lor w mask) (2 ^ 64 - 1)) as [Hfull|Hnf]; cbn [negb].
    + destruct (IH (pos + 1) 0 0) as (r & -> & Hr); [lia| |lia|lia|].
      { split; [lia|]. intros i Hi. rewrite Z.bits_0. symmetry. apply Z.ltb_ge. lia. }
      exists r. split; [done|].
      assert (Hno : forall k, lo + pos * 64 <= k < (pos + 1) * 64 -> ~ free_page p k).
      { intros k Hk [_ Hk2]. assert (0 <= k - pos * 64 < 64) as Hi by lia.
        pose proof (full_word _ Hvr Hfull _ Hi) as Hb. rewrite Hbit in Hb by done.
        replace (k - pos * 64 + pos * 64) with k in Hb by lia. rewrite Hk2 in Hb. simpl in Hb. b2p. lia. }
      destruct Hr as [[-> Hr]|(H1 & H2 & H3)]; [left; split; [done|]|right; split; [lia|split; [done|]]].
      * intros k Hk. destruct (decide (k < (pos + 1) * 64)); [apply Hno; lia|apply Hr; lia].
      * intros k Hk. destruct (decide (k < (pos + 1) * 64)); [apply Hno; lia|apply H3; lia].
    + destruct (ffzl_spec _ Hvr Hnf) as (Hz & Hzb & Hzl). rewrite Hbit in Hzb by done. b2p.
      rewrite u64_small by (unfold BITS_PER_LONG; lia). unfold BITS_PER_LONG.
      rewrite Z.geb_leb, (proj2 (Z.leb_gt _ _)) by lia.
      eexists. split; [done|]. right. split; [lia|]. split; [split; [unfold managed; lia|done]|].
      intros k Hk [_ Hk2]. assert (0 <= k - pos * 64 < ffzl (Z.lor w mask)) as Hi by lia.
      specialize (Hzl _ Hi). rewrite Hbit in Hzl by lia.
      replace (k - pos * 64 + pos * 64) with k in Hzl by lia. rewrite Hk2 in Hzl. simpl in Hzl. b2p. lia.
Qed.

Lemma find_next_free_page_run p start : pool_ok p -> 0 <= start ->
  exists r, find_next_free_page p start = Some r /\ next_free p start r.
Proof.
  intros Hp Hs. pose proof (managed_pages p Hp) as Hm. unfold find_next_free_page.
  rewrite Z.geb_leb. destruct (Z.leb_spec (pages p) start).
  { eexists. split; [done|]. left. split; [done|]. intros k Hk [Hr _]. lia. }
  unfold BITS_PER_LONG. destruct (bit_position start Hs) as (Hq & Hr & He).
  assert (start / 64 <= pages p / 64) by (apply Z.div_le_mono; lia).
  assert (Hst : start = start mod 64 + start / 64 * 64) by lia.
  match goal with |- exists r, find_free_loop p ?n ?pos ?mask = _ /\ _ =>
    destruct (find_free_loop_run p n Hp pos mask (start mod 64)) as (r & Hrun & Hnext); [done| |done|lia|] end;
    [|exists r; split; [done|by rewrite Hst]].
  rewrite Z.gtb_ltb. destruct (Z.ltb_spec 0 (start mod 64)) as [Hpos|Hz].
  - change (u64 (Z.lnot 0)) with (Z.ones 64). split.
    + rewrite Z.shiftr_div_pow2 by lia. split; [apply Z.div_pos; [done|lia]|].
      apply Z.le_lt_trans with (Z.ones 64); [|done]. apply Z.div_le_upper_bound; [lia|].
      change (Z.ones 64) with (2 ^ 64 - 1). assert (1 <= 2 ^ (64 - start mod 64)) by lia. nia.
    + intros i Hi. rewrite Z.shiftr_spec by lia. rewrite Z.testbit_ones_nonneg by lia.
      apply eq_bool_prop_intro. rewrite !Is_true_true, !Z.ltb_lt. lia.
  - split; [done|]. intros i Hi. rewrite Z.bits_0. symmetry. apply Z.ltb_ge. lia.
Qed.

Lemma free_page_range p n : pool_ok p -> free_page p n -> 0 <= n < 2 ^ 31 /\ n <> INVALID_PAGE_NR /\ n < pages p.
Proof.
  intros Hp [Hn _]. pose proof (managed_pages p Hp). pose proof (po_pages p Hp). rewrite invalid_value. lia.
Qed.

(** The pages behind [last]: all free, or a page [j + 1] that is not. *)
Lemma find_run_run p n : pool_ok p -> forall last, free_page p last ->
  exists r, find_run p n last = Some r /\
    match r with
    | Consecutive => forall i, last <= i <= last + Z.of_nat n -> free_page p i
    | Gap nx => exists j, last <= j < last + Z.of_nat n /\ j + 1 < nx /\ free_page p nx /\
        forall i, j < i < nx -> ~ free_page p i
    | Exhausted => exists j, last <= j < last + Z.of_nat n /\ forall i, j < i -> ~ free_page p i
    end.
Proof.
  intros Hp. induction n as [|n IH]; intros last Hl; cbn [find_run].
  - eexists. split; [done|]. intros i Hi. assert (i = last) as -> by lia. done.
  - destruct (free_page_range p last Hp Hl) as (Hr & _ & _).
    destruct (find_next_free_page_run p (last + 1) Hp ltac:(lia)) as (r & -> & Hr'). cbn [mbind option_bind].
    destruct Hr' as [[-> Hno]|(Hge & Hf & Hno)].
    + rewrite Z.eqb_refl. eexists. split; [done|]. exists last. split; [lia|]. intros i Hi. apply Hno. lia.
    + destruct (free_page_range p r Hp Hf) as (_ & Hinv & _). rewrite (proj2 (Z.eqb_neq _ _) Hinv).
      destruct (Z.eqb_spec r (last + 1)) as [->|Hne]; cbn [negb].
      * destruct (IH (last + 1) Hf) as (r & -> & Hres). eexists. split; [done|]. destruct r as [|nx|].
        -- intros i Hi. destruct (decide (i = last)) as [->|]; [done|apply Hres; lia].
        -- destruct Hres as (j & Hj & Hres). exists j. split; [lia|done].
        -- destruct Hres as (j & Hj & Hres). exists j. split; [lia|done].
      * eexists. split; [done|]. exists last. split; [lia|]. split; [lia|]. split; [done|].
        intros i Hi. apply Hno. lia.
Qed.

(** The requested pages are free and start at the alignment. *)
Definition suitable (p : page_pool) (num align aligned_start s : Z) : Prop :=
  (forall i, s <= i < s + num -> free_page p i) /\ (s - aligned_start) mod align = 0.

Section Search.
Context (p : page_pool) (Hp : pool_ok p) (k num a0 : Z).
Context (Hk : 0 <= k < 32) (Hnum : 1 <= num < 2 ^ 32) (Halign : k = 0 \/ num = 2 ^ k) (Ha0 : 0 <= a0 < 2 ^ k).

Lemma align_mask_mod x : Z.land x (2 ^ k - 1) = x mod 2 ^ k.
Proof. rewrite <- Z.land_ones by lia. by rewrite Z.ones_equiv, Z.sub_1_r. Qed.

Lemma pow_k : 1 <= 2 ^ k <= 2 ^ 31.
Proof. split; [pose proof (Z.pow_pos_nonneg 2 k); lia|apply Z.pow_le_mono_r; lia]. Qed.

Lemma align_up next :
  a0 <= next < 2 ^ 32 ->
  let off := (next - a0) mod 2 ^ k in
  let next' := if negb (off =? 0) then next + num - off else next in
  next <= next' < 2 ^ 34 /\ (next' - a0) mod 2 ^ k = 0 /\
  forall s, next <= s < next' -> (s - a0) mod 2 ^ k <> 0.
Proof.
  intros Hn off next'. pose proof pow_k. pose proof (Z.mod_pos_bound (next - a0) (2 ^ k) ltac:(lia)) as Ho.
  pose proof (Z.div_mod (next - a0) (2 ^ k) ltac:(lia)) as Hdm. fold off in Ho, Hdm. unfold next'.
  destruct (Z.eqb_spec off 0) as [Hz|Hz]; cbn [negb].
  - split; [lia|]. split; [done|]. lia.
  - destruct Halign as [-> | ->]; [change (2 ^ 0) with 1 in Ho; lia|].
    split; [lia|]. split.
    + replace (next + 2 ^ k - off - a0) with (((next - a0) / 2 ^ k + 1) * 2 ^ k) by lia. apply Z.mod_mul. lia.
    + intros s Hs Hm. pose proof (Z.div_mod (s - a0) (2 ^ k) ltac:(lia)) as Hds. rewrite Hm in Hds.
      assert ((next - a0) / 2 ^ k < (s - a0) / 2 ^ k < (next - a0) / 2 ^ k + 1); [nia|lia].
Qed.

Lemma search_pages_run fuel : forall next,
  a0 <= next < 2 ^ 32 -> (1 <= fuel)%nat -> pages p - next < Z.of_nat fuel ->
  (forall s, a0 <= s < next -> ~ suitable p num (2 ^ k) a0 s) ->
  exists r, search_pages fuel p num (2 ^ k - 1) a0 next = Some r /\
    ((r = INVALID_PAGE_NR /\ forall s, a0 <= s -> ~ suitable p num (2 ^ k) a0 s) \/
     (a0 <= r /\ suitable p num (2 ^ k) a0 r /\ forall s, a0 <= s < r -> ~ suitable p num (2 ^ k) a0 s)).
Proof.
  induction fuel as [|fuel IH]; intros next Hn H1 Hf Hno; [lia|]. cbn [search_pages].
  rewrite u64_small, align_mask_mod by lia.
  pose proof (align_up next Hn) as Hup. cbv zeta in Hup. set (off := (next - a0) mod 2 ^ k) in *.
  assert (Hnx : (if negb (off =? 0) then u64 (next + num - off) else next) =
    if negb (off =? 0) then next + num - off else next).
  { destruct (negb (off =? 0)) eqn:Ho; [|done]. apply u64_small. lia. }
  rewrite Hnx. set (next' := if negb (off =? 0) then next + num - off else next) in *.
  destruct Hup as (Hn' & Hal & Hup).
  destruct (find_next_free_page_run p next' Hp ltac:(lia)) as (start & -> & Hstart). cbn [mbind option_bind].
  rewrite (proj2 (Z.eqb_neq num 0)), orb_false_r by lia.
  assert (Hskip : forall s, a0 <= s < next' -> ~ suitable p num (2 ^ k) a0 s).
  { intros s Hs [Hs1 Hs2]. destruct (decide (s < next)); [by apply (Hno s ltac:(lia))|].
    apply (Hup s); [lia|done]. }
  destruct Hstart as [[-> Hnone]|(Hge & Hfree & Hnone)].
  { rewrite Z.eqb_refl. eexists. split; [done|]. left. split; [done|]. intros s Hs Hsuit.
    destruct (decide (s < next')); [by apply (Hskip s ltac:(lia))|].
    apply (Hnone s ltac:(lia)), Hsuit. lia. }
  destruct (free_page_range p start Hp Hfree) as (Hsr & Hinv & Hsp). rewrite (proj2 (Z.eqb_neq _ _) Hinv).
  assert (Hskip2 : forall s, a0 <= s < start -> ~ suitable p num (2 ^ k) a0 s).
  { intros s Hs Hsuit. destruct (decide (s < next')); [by apply (Hskip s ltac:(lia))|].
    apply (Hnone s ltac:(lia)), Hsuit. lia. }
  rewrite u64_small, align_mask_mod by lia.
  destruct (Z.eqb_spec ((start - a0) mod 2 ^ k) 0) as [Hsa|Hsa]; cbn [negb].
  - destruct (find_run_run p (Z.to_nat (num - 1)) Hp start Hfree) as (r & -> & Hr). cbn [mbind option_bind].
    rewrite Z2Nat.id in Hr by lia. destruct r as [|nx|].
    + eexists. split; [done|]. right. split; [lia|]. split; [|done]. split; [|done]. intros i Hi. apply Hr. lia.
    + destruct Hr as (j & Hj & Hjn & Hfn & Hgap). destruct (free_page_range p nx Hp Hfn) as (? & _ & ?).
      apply IH; [lia|lia|lia|]. intros s Hs Hsuit. destruct (decide (s < start)); [by apply (Hskip2 s ltac:(lia))|].
      destruct (decide (s <= j)); [apply (Hgap (j + 1) ltac:(lia)), Hsuit; lia|apply (Hgap s ltac:(lia)), Hsuit; lia].
    + destruct Hr as (j & Hj & Hgap). eexists. split; [done|]. left. split; [done|]. intros s Hs Hsuit.
      destruct (decide (s < start)); [by apply (Hskip2 s ltac:(lia))|].
      destruct (decide (s <= j)); [apply (Hgap (j + 1) ltac:(lia)), Hsuit; lia|apply (Hgap s ltac:(lia)), Hsuit; lia].
  - assert (start <> next') by (intros ->; done). apply IH; try lia. done.
Qed.

End Search.

Lemma set_bits_run n : forall nr b, words_ok b -> 0 <= nr -> nr + Z.of_nat n <= 2 ^ 31 ->
  nr + Z.of_nat n <= 64 * Z.of_nat (length b) ->
  exists b', set_bits n nr b = Some b' /\ length b' = length b /\ words_ok b' /\
    forall i, 0 <= i -> word_bit b' i = ((nr <=? i) && (i <? nr + Z.of_nat n)) || word_bit b i.
Proof.
  induction n as [|n IH]; intros nr b Hb Hnr Hr Hl; cbn [set_bits].
  - exists b. split; [done|]. split; [done|]. split; [done|]. intros i Hi.
    destruct (nr <=? i) eqn:?, (i <? nr + Z.of_nat 0) eqn:?; b2p; first [done|exfalso; lia].
  - destruct (set_bit_run b nr Hb) as (b1 & -> & Hl1 & Hb1 & Hbit1); [lia|apply Z.div_lt_upper_bound; lia|].
    cbn [mbind option_bind]. destruct (IH (nr + 1) b1 Hb1) as (b' & -> & Hl' & Hb' & Hbit'); [lia|lia|rewrite Hl1; lia|].
    exists b'. split; [done|]. split; [congruence|]. split; [done|]. intros i Hi. rewrite Hbit', Hbit1 by done.
    rewrite orb_assoc. f_equal.
    destruct (nr + 1 <=? i) eqn:?, (i <? nr + 1 + Z.of_nat n) eqn:?, (i =? nr) eqn:?, (nr <=? i) eqn:?,
      (i <? nr + Z.of_nat (S n)) eqn:?; b2p; first [done|exfalso; lia].
Qed.

(** Pages [s .. s + num - 1] of [p] were taken in [p']. *)
Record taken_pages (p : page_pool) (s num : Z) (p' : page_pool) : Prop := {
  tp_ok : pool_ok p';
  tp_base : base_address p' = base_address p;
  tp_pages : pages p' = pages p;
  tp_flags : pool_flags p' = pool_flags p;
  tp_length : length (used_bitmap p') = length (used_bitmap p);
  tp_count : used_pages p' = u64 (used_pages p + num);
  tp_bits : forall i, 0 <= i -> word_bit (used_bitmap p') i = ((s <=? i) && (i <? s + num)) || word_bit (used_bitmap p) i;
}.

Lemma page_alloc_run p k num :
  pool_ok p -> 0 <= k < 32 -> 0 <= num < 2 ^ 32 -> k = 0 \/ num = 2 ^ k ->
  let a0 := (base_address p / PAGE_SIZE) mod 2 ^ k in
  (page_alloc_internal p num (2 ^ k - 1) = Some (0, p) /\
   (num = 0 \/ forall s, a0 <= s -> ~ suitable p num (2 ^ k) a0 s)) \/
  exists s p', page_alloc_internal p num (2 ^ k - 1) = Some (base_address p + s * PAGE_SIZE, p') /\
    a0 <= s /\ suitable p num (2 ^ k) a0 s /\ (forall s', a0 <= s' < s -> ~ suitable p num (2 ^ k) a0 s') /\
    taken_pages p s num p'.
Proof.
  intros Hp Hk Hnum Hal a0. pose proof (pow_k k Hk) as Hpk.
  unfold page_alloc_internal. unfold PAGE_SHIFT. rewrite align_mask_mod by done.
  rewrite Z.shiftr_div_pow2 by done. change (2 ^ 12) with PAGE_SIZE. fold a0.
  assert (Ha : 0 <= a0 < 2 ^ k) by (apply Z.mod_pos_bound; lia).
  pose proof (po_pages p Hp) as Hpg. pose proof (po_end p Hp) as Hend. pose proof (po_base p Hp) as Hbase.
  pose proof (managed_pages p Hp) as Hman.
  destruct (decide (num = 0)) as [->|Hn0].
  { left. split; [|by left]. destruct Hal as [->|Hz]; [|lia].
    assert (a0 = 0) as -> by (unfold a0; change (2 ^ 0) with 1; apply Z.mod_1_r).
    cbn [search_pages]. change (2 ^ 0 - 1) with 0. rewrite Z.land_0_r. cbn [Z.eqb negb].
    destruct (find_next_free_page_run p 0 Hp ltac:(done)) as (r & -> & _). cbn [mbind option_bind].
    rewrite orb_true_r. cbn [mbind option_bind]. by rewrite Z.eqb_refl. }
  destruct (search_pages_run p Hp k num a0 Hk ltac:(lia) Hal Ha (S (Z.to_nat (pages p))) a0)
    as (r & -> & Hr); [lia|lia|lia|intros; lia|]. cbn [mbind option_bind].
  destruct Hr as [[-> Hno]|(Hge & Hsuit & Hno)].
  { left. rewrite Z.eqb_refl. split; [done|by right]. }
  right. assert (Hlast : free_page p (r + num - 1)) by (apply Hsuit; lia).
  destruct (free_page_range p r Hp) as (Hrr & Hinv & _); [apply Hsuit; lia|].
  destruct (free_page_range p _ Hp Hlast) as (Hlr & _ & Hlp).
  rewrite (proj2 (Z.eqb_neq _ _) Hinv). pose proof (po_bitmap p Hp).
  destruct (set_bits_run (Z.to_nat num) r (used_bitmap p) (po_words p Hp)) as (b & -> & Hlen & Hok & Hbits); [lia..|].
  cbn [mbind option_bind]. rewrite Z2Nat.id in Hbits by lia. eexists r, _.
  rewrite u64_small by (unfold PAGE_SIZE in *; lia). split; [done|]. split; [done|]. split; [done|]. split; [done|].
  split; try done. split; cbn [set_used used_bitmap pages base_address]; try done. by rewrite Hlen.
Qed.

(** An allocation gives the first suitable run of free pages from the aligned
    start of the pool on and takes exactly these pages; it returns NULL and
    changes nothing when there is none or when no page is asked for. *)
Theorem page_alloc_first_fit p k num :
  pool_ok p -> 0 <= k < 32 -> 0 <= num < 2 ^ 32 -> k = 0 \/ num = 2 ^ k ->
  let a0 := (base_address p / PAGE_SIZE) mod 2 ^ k in
  (page_alloc_internal p num (2 ^ k - 1) = Some (0, p) /\
   (num = 0 \/ forall s, a0 <= s -> ~ suitable p num (2 ^ k) a0 s)) \/
  exists s p', page_alloc_internal p num (2 ^ k - 1) = Some (base_address p + s * PAGE_SIZE, p') /\
    a0 <= s /\ suitable p num (2 ^ k) a0 s /\ (forall s', a0 <= s' < s -> ~ suitable p num (2 ^ k) a0 s') /\
    taken_pages p s num p'.
Proof. apply page_alloc_run. Qed.

(** An aligned allocation lines up with twice the page number of the pool
    instead of with zero: the block is aligned exactly when that is a multiple
    of its size. *)
Theorem page_alloc_aligned_offset p k page p' :
  pool_ok p -> 0 <= k < 32 -> page_alloc_aligned p (2 ^ k) = Some (page, p') -> page <> 0 ->
  page mod PAGE_SIZE = 0 /\
  (page / PAGE_SIZE) mod 2 ^ k = (2 * (base_address p / PAGE_SIZE)) mod 2 ^ k.
Proof.
  intros Hp Hk Hal Hn0. unfold page_alloc_aligned in Hal. pose proof (pow_k k Hk) as Hpk.
  rewrite u32_small in Hal by lia. pose proof (po_base p Hp) as [_ Hb].
  destruct (page_alloc_run p k (2 ^ k) Hp Hk ltac:(lia) (or_intror eq_refl))
    as [[Ha _]|(s & p1 & Ha & Hs & [_ Hsa] & _ & _)]; rewrite Ha in Hal; injection Hal as <- _; [done|].
  assert (Hpg : base_address p = base_address p / PAGE_SIZE * PAGE_SIZE).
  { pose proof (Z.div_mod (base_address p) PAGE_SIZE ltac:(done)). lia. }
  rewrite Z.mod_add, Hb, Z.div_add by done. split; [done|].
  set (b := base_address p / PAGE_SIZE) in *. rewrite <- Z.add_mod_idemp_r by lia.
  replace (s mod 2 ^ k) with (b mod 2 ^ k); [rewrite Z.add_mod_idemp_r by lia; f_equal; lia|].
  replace s with (s - b mod 2 ^ k + b mod 2 ^ k) by lia. rewrite <- Z.add_mod_idemp_l, Hsa by lia.
  by rewrite Z.add_0_l, Z.mod_mod by lia.
Qed.

(** ** Release *)
Lemma page_free_loop_run n : forall p s acc, pool_ok p -> 0 <= s -> s + Z.of_nat n <= pages p ->
  exists b', page_free_loop p (base_address p + s * PAGE_SIZE) n acc =
      Some (set_used (match n with O => used_pages p | _ => u64 (used_pages p - Z.of_nat n) end) b' p,
            acc ++ if Z.land (pool_flags p) PAGE_SCRUB_ON_FREE =? 0 then []
                   else (fun i => base_address p + i * PAGE_SIZE) <$> seqZ s (Z.of_nat n)) /\
    length b' = length (used_bitmap p) /\ words_ok b' /\
    forall i, 0 <= i -> word_bit b' i = negb ((s <=? i) && (i <? s + Z.of_nat n)) && word_bit (used_bitmap p) i.
Proof.
  induction n as [|n IH]; intros p s acc Hp Hs Hn; cbn [page_free_loop].
  - exists (used_bitmap p). split.
    + destruct p. cbn [set_used]. by destruct (_ =? 0); rewrite app_nil_r.
    + split; [done|]. split; [apply Hp|]. intros i Hi.
      destruct (s <=? i) eqn:?, (i <? s + Z.of_nat 0) eqn:?; b2p; first [done|exfalso; lia].
  - pose proof (po_pages p Hp) as Hpg. pose proof (po_end p Hp) as Hend. pose proof (po_base p Hp) as Hb.
    pose proof (po_bitmap p Hp) as Hbm. unfold PAGE_SIZE in *.
    assert (u64 (Z.quot (base_address p + s * 4096 - base_address p) 4096) = s) as ->.
    { replace (base_address p + s * 4096 - base_address p) with (s * 4096) by lia.
      rewrite Z.quot_mul by done. apply u64_small. lia. }
    destruct (clear_bit_run (used_bitmap p) s (po_words p Hp)) as (b & -> & Hlb & Hob & Hbit);
      [lia|apply Z.div_lt_upper_bound; lia|]. cbn [mbind option_bind].
    set (p1 := set_used _ b p).
    assert (Hp1 : pool_ok p1).
    { split; cbn; [exact Hob|exact Hpg|by rewrite Hlb|exact Hb|exact Hend]. }
    destruct n as [|n].
    { cbn [page_free_loop]. exists b. split; [|split; [done|split; [done|]]].
      - f_equal. f_equal. destruct (_ =? 0); [by rewrite app_nil_r|done].
      - intros i Hi. rewrite Hbit by done. f_equal. f_equal.
        destruct (s <=? i) eqn:?, (i <? s + Z.of_nat 1) eqn:?, (i =? s) eqn:?; b2p; first [done|exfalso; lia]. }
    rewrite u64_small by lia. replace (base_address p + s * 4096 + 4096) with (base_address p1 + (s + 1) * 4096) by (cbn; lia).
    match goal with |- context [page_free_loop p1 _ _ ?a] => destruct (IH p1 (s + 1) a Hp1) as (b' & -> & Hl' & Hok' & Hbit') end;
      [lia|cbn; lia|]. exists b'. split.
    + change (pool_flags p1) with (pool_flags p). change (base_address p1) with (base_address p).
      f_equal. f_equal.
      * unfold p1, set_used. cbn. f_equal. unfold u64, wrap. rewrite Zminus_mod_idemp_l. f_equal. lia.
      * destruct (_ =? 0); cbn [negb]; [done|].
        rewrite (seqZ_cons s (Z.of_nat (S (S n)))) by lia. rewrite fmap_cons, <- app_assoc.
        replace (Z.pred (Z.of_nat (S (S n)))) with (Z.of_nat (S n)) by lia. by replace (Z.succ s) with (s + 1) by lia.
    + split; [cbn in Hl'; congruence|]. split; [done|]. intros i Hi. rewrite Hbit' by done. cbn [p1 set_used used_bitmap].
      rewrite Hbit by done. rewrite andb_assoc. f_equal.
      destruct (s + 1 <=? i) eqn:?, (i <? s + 1 + Z.of_nat (S n)) eqn:?, (i =? s) eqn:?, (s <=? i) eqn:?,
        (i <? s + Z.of_nat (S (S n))) eqn:?; b2p; first [done|exfalso; lia].
Qed.

Lemma words_ext b1 b2 : words_ok b1 -> words_ok b2 -> length b1 = length b2 ->
  (forall i, 0 <= i -> word_bit b1 i = word_bit b2 i) -> b1 = b2.
Proof.
  intros H1 H2 Hl Hbit. apply list_eq. intros j.
  destruct (b1 !! j) as [w1|] eqn:Hw1.
  - destruct (b2 !! j) as [w2|] eqn:Hw2.
    + f_equal. assert (G1 : aget b1 (Z.of_nat j) = Some w1)
        by (unfold aget; rewrite (proj2 (Z.ltb_ge _ _)), Nat2Z.id by lia; done).
      assert (G2 : aget b2 (Z.of_nat j) = Some w2)
        by (unfold aget; rewrite (proj2 (Z.ltb_ge _ _)), Nat2Z.id by lia; done).
      pose proof (words_ok_get _ _ _ H1 G1). pose proof (words_ok_get _ _ _ H2 G2).
      apply Z.bits_inj'. intros i Hi. destruct (decide (i < 64)).
      * rewrite <- (word_bit_at b1 w1 (Z.of_nat j)), <- (word_bit_at b2 w2 (Z.of_nat j)) by (done || lia).
        apply Hbit. lia.
      * rewrite <- (Z.mod_small w1 (2 ^ 64)), <- (Z.mod_small w2 (2 ^ 64)) by lia.
        by rewrite !Z.mod_pow2_bits_high by lia.
    + apply lookup_lt_Some in Hw1. apply lookup_ge_None in Hw2. lia.
  - apply lookup_ge_None in Hw1. symmetry. apply lookup_ge_None. lia.
Qed.

(** Releasing what was just allocated restores the pool; pages that the pool
    scrubs are exactly these. *)
Theorem page_alloc_free p k num page p' :
  pool_ok p -> 0 <= used_pages p < 2 ^ 64 -> 0 <= k < 32 -> 0 <= num < 2 ^ 32 -> k = 0 \/ num = 2 ^ k ->
  page_alloc_internal p num (2 ^ k - 1) = Some (page, p') -> page <> 0 ->
  page_free p' page num =
    Some (p, if Z.land (pool_flags p) PAGE_SCRUB_ON_FREE =? 0 then []
             else (fun i => page + i * PAGE_SIZE) <$> seqZ 0 num).
Proof.
  intros Hp Hu Hk Hnum Hal Halloc Hn0.
  destruct (page_alloc_run p k num Hp Hk Hnum Hal)
    as [[Ha _]|(s & p1 & Ha & Hs & [Hfree _] & _ & Ht)]; rewrite Ha in Halloc; injection Halloc as <- <-; [done|].
  pose proof (Z.mod_pos_bound (base_address p / PAGE_SIZE) (2 ^ k)) as Ha0. pose proof (pow_k k Hk).
  assert (Hn1 : num <> 0).
  { intros ->. unfold page_alloc_internal in Ha. unfold PAGE_SHIFT in Ha. rewrite align_mask_mod in Ha by done.
    cbn [search_pages] in Ha. destruct (find_next_free_page _ _); cbn [mbind option_bind] in Ha; [|done].
    rewrite orb_true_r in Ha. cbn [mbind option_bind] in Ha. rewrite Z.eqb_refl in Ha.
    injection Ha as Ha _. lia. }
  unfold page_free. rewrite (proj2 (Z.eqb_neq _ _) Hn0). rewrite <- (tp_base _ _ _ _ Ht).
  destruct (free_page_range p (s + num - 1) Hp) as (_ & _ & Hlp); [apply Hfree; lia|].
  destruct (page_free_loop_run (Z.to_nat num) p1 s [] (tp_ok _ _ _ _ Ht)) as (b' & -> & Hlen & Hok & Hbits);
    [lia|rewrite (tp_pages _ _ _ _ Ht); lia|].
  rewrite Z2Nat.id in * by lia. f_equal. rewrite app_nil_l, (tp_flags _ _ _ _ Ht). f_equal.
  - destruct (Z.to_nat num) eqn:Hz; [lia|]. unfold set_used.
    rewrite (tp_base _ _ _ _ Ht), (tp_pages _ _ _ _ Ht), (tp_flags _ _ _ _ Ht), (tp_count _ _ _ _ Ht).
    assert (b' = used_bitmap p) as ->.
    { apply words_ext; [done|apply Hp|by rewrite Hlen, (tp_length _ _ _ _ Ht)|].
      intros i Hi. rewrite Hbits, (tp_bits _ _ _ _ Ht) by done.
      destruct ((s <=? i) && (i <? s + num)) eqn:Hin; [|done]. cbn [negb andb orb].
      b2p. destruct (Hfree i ltac:(lia)) as [_ ->]. done. }
    assert (u64 (u64 (used_pages p + num) - num) = used_pages p) as ->; [|by destruct p].
    unfold u64, wrap. rewrite Zminus_mod_idemp_l. rewrite Z.mod_small by lia. lia.
  - destruct (_ =? 0); [done|]. rewrite (tp_base _ _ _ _ Ht).
    replace (seqZ s num) with (Z.add s <$> seqZ 0 num) by (rewrite fmap_add_seqZ; f_equal; lia).
    rewrite <- list_fmap_compose.
    apply list_fmap_ext. intros j i _. simpl. lia.
Qed.
