(* ===== verification/Paging.v ===== *)
(** * Page tables of the hypervisor

    hypervisor/paging.c, arch/arm-common/paging.c, arch/arm64's page table
    format and the mapping of cell memory (arch/arm-common/mmu_cell.c). The
    memory of the page tables is a store of 64-bit words that are zero unless
    written; it is hypervisor memory, addressed by hypervisor addresses.

    A pointer into an array of [struct paging] is the rest of the array, so
    [paging++] takes the tail. The callbacks that get a pointer to an entry are
    functions of the entry's value; the store is done by the caller. *)

From Stdlib Require Import ZArith Lia.
From stdpp Require Import base tactics list list_numbers option gmap.
From S2P Require Import Prelude Bitops StateMonad Mmio PagePool.

Definition ENOMEM : Z := 12.
Definition E2BIG : Z := 7.
Definition INVALID_PHYS_ADDR : Z := u64 (Z.lnot 0).

(** [BIT_MASK(last, first)] *)
Definition BIT_MASK (last first : Z) : Z :=
  u64 (Z.shiftl (Z.shiftr (u64 (Z.lnot 0)) (64 - (last + 1 - first))) first).

(** ** The format of the entries *)
Definition PTE_FLAG_VALID : Z := 1.
Definition PTE_FLAG_TERMINAL : Z := 2.
Definition PTE_TABLE_FLAGS : Z := 3.
Definition PTE_TABLE_ADDR_MASK : Z := BIT_MASK 47 12.
Definition PAGE_PRESENT_FLAGS : Z := PTE_FLAG_VALID.

Record paging := mk_paging {
  page_size : Z;
  get_entry : Z -> Z -> Z;
  set_terminal : option (Z -> Z -> Z);
  get_phys : Z -> Z -> Z;
  set_next_pt : option (Z -> Z);
  get_next_pt : option (Z -> Z);
}.

(** The flags are not looked at. *)
Definition arm_entry_valid (entry flags : Z) : bool := negb (Z.land entry 1 =? 0).
Definition arm_get_entry_flags (entry : Z) : Z := Z.land entry 4095.

Definition table_entry (page_table index : Z) : Z := page_table + 8 * index.

Definition arm_get_l0_entry (page_table virt : Z) : Z :=
  table_entry page_table (Z.shiftr (Z.land virt (BIT_MASK 47 39)) 39).
Definition arm_get_l1_entry (page_table virt : Z) : Z :=
  table_entry page_table (Z.shiftr (Z.land virt (BIT_MASK 38 30)) 30).
Definition arm_get_l1_alt_entry (page_table virt : Z) : Z :=
  table_entry page_table (Z.shiftr (Z.land virt (BIT_MASK 48 30)) 30).
Definition arm_get_l2_entry (page_table virt : Z) : Z :=
  table_entry page_table (Z.shiftr (Z.land virt (BIT_MASK 29 21)) 21).
Definition arm_get_l3_entry (page_table virt : Z) : Z :=
  table_entry page_table (Z.shiftr (Z.land virt (BIT_MASK 20 12)) 12).

(** A block entry of a level with the given masks. *)
Definition block_phys (addr_mask vaddr_mask pte virt : Z) : Z :=
  if Z.land pte PTE_TABLE_FLAGS =? PTE_TABLE_FLAGS then INVALID_PHYS_ADDR
  else Z.lor (Z.land pte addr_mask) (Z.land virt vaddr_mask).

Definition arm_get_l0_phys : Z -> Z -> Z := block_phys (BIT_MASK 47 39) (BIT_MASK 38 0).
Definition arm_get_l1_phys : Z -> Z -> Z := block_phys (BIT_MASK 47 30) (BIT_MASK 29 0).
Definition arm_get_l1_alt_phys : Z -> Z -> Z := block_phys (BIT_MASK 48 30) (BIT_MASK 29 0).
Definition arm_get_l2_phys : Z -> Z -> Z := block_phys (BIT_MASK 47 21) (BIT_MASK 20 0).
Definition arm_get_l3_phys (pte virt : Z) : Z :=
  if Z.land pte PTE_FLAG_TERMINAL =? 0 then INVALID_PHYS_ADDR
  else Z.lor (Z.land pte (BIT_MASK 47 12)) (Z.land virt PAGE_MASK).

Definition arm_set_l1_block (phys flags : Z) : Z := Z.lor (Z.land phys (BIT_MASK 47 30)) flags.
Definition arm_set_l2_block (phys flags : Z) : Z := Z.lor (Z.land phys (BIT_MASK 47 21)) flags.
Definition arm_set_l3_page (phys flags : Z) : Z :=
  Z.lor (Z.lor (Z.land phys (BIT_MASK 47 12)) flags) PTE_FLAG_TERMINAL.
Definition arm_set_l12_table (next_pt : Z) : Z := Z.lor (Z.land next_pt PTE_TABLE_ADDR_MASK) PTE_TABLE_FLAGS.
Definition arm_get_l12_table (pte : Z) : Z := Z.land pte PTE_TABLE_ADDR_MASK.

Definition level0 : paging :=
  mk_paging 0 arm_get_l0_entry None arm_get_l0_phys (Some arm_set_l12_table) (Some arm_get_l12_table).
Definition level1 : paging :=
  mk_paging (1024 * 1024 * 1024) arm_get_l1_entry (Some arm_set_l1_block) arm_get_l1_phys
    (Some arm_set_l12_table) (Some arm_get_l12_table).
Definition level1_alt : paging :=
  mk_paging 0 arm_get_l1_alt_entry None arm_get_l1_alt_phys (Some arm_set_l12_table) (Some arm_get_l12_table).
Definition level2 : paging :=
  mk_paging (2 * 1024 * 1024) arm_get_l2_entry (Some arm_set_l2_block) arm_get_l2_phys
    (Some arm_set_l12_table) (Some arm_get_l12_table).
Definition level3 : paging :=
  mk_paging (4 * 1024) arm_get_l3_entry (Some arm_set_l3_page) arm_get_l3_phys None None.

Definition arm_paging : list paging := [level0; level1; level2; level3].
Definition arm_s2_paging_alt : list paging := [level1_alt; level2; level3].

(** [arch_paging_init]: the stage 2 structures by the physical address range
    of the CPUs. *)
Definition cell_paging (cpu_parange : Z) : list paging :=
  if cpu_parange <? 44 then arm_s2_paging_alt else arm_paging.
Definition ARM_CELL_ROOT_PT_SZ (cpu_parange : Z) : Z :=
  if (cpu_parange >? 39) && (cpu_parange <? 44) then Z.shiftl 1 (cpu_parange - 39) else 1.

(** ** State *)
Inductive paging_coherent := PAGING_COHERENT | PAGING_NON_COHERENT.

Record pgstate := mk_pgstate {
  words : gmap Z Z;
  mem_pool : page_pool;
  remap_pool : page_pool;
  cleaned : list Z;
  tlb_flushed : list Z;
}.

(** [is_hv] tells whether this is [hv_paging_structs]. *)
Record paging_structures := mk_paging_structures {
  root_paging : list paging;
  root_table : Z;
  is_hv : bool;
}.

Definition word_at (a : Z) (s : pgstate) : Z := default 0 (words s !! a).
Definition set_words (w : gmap Z Z) (s : pgstate) : pgstate :=
  mk_pgstate w (mem_pool s) (remap_pool s) (cleaned s) (tlb_flushed s).
Definition set_mem_pool (p : page_pool) (s : pgstate) : pgstate :=
  mk_pgstate (words s) p (remap_pool s) (cleaned s) (tlb_flushed s).
Definition set_remap_pool (p : page_pool) (s : pgstate) : pgstate :=
  mk_pgstate (words s) (mem_pool s) p (cleaned s) (tlb_flushed s).

Notation PG := (ST pgstate).
Definition lift {A} (o : option A) : PG A := from_option (fun _ => o).
Definition read (a : Z) : PG Z := gets (word_at a).
Definition store (a v : Z) : PG unit := modify (fun s => set_words (<[a := v]> (words s)) s).

Definition flush_pt_entry (pte : Z) (coherent : paging_coherent) : PG unit :=
  match coherent with
  | PAGING_COHERENT => modify (fun s =>
      mk_pgstate (words s) (mem_pool s) (remap_pool s) (pte :: cleaned s) (tlb_flushed s))
  | PAGING_NON_COHERENT => mret tt
  end.
Definition flush_page_tlbs (hv : bool) (virt : Z) : PG unit :=
  if hv then modify (fun s =>
    mk_pgstate (words s) (mem_pool s) (remap_pool s) (cleaned s) (virt :: tlb_flushed s))
  else mret tt.

(** [memset(page, 0, PAGE_SIZE)] *)
Definition scrub_page (w : gmap Z Z) (page : Z) : gmap Z Z :=
  foldr (fun i w => delete (page + 8 * i) w) w (seqZ 0 512).

Definition mem_page_alloc (num : Z) : PG Z :=
  s ← gets id;
  '(page, p) ← lift (page_alloc (mem_pool s) num);
  _ ← modify (set_mem_pool p);
  mret page.
Definition mem_page_free (page num : Z) : PG unit :=
  s ← gets id;
  '(p, scrubbed) ← lift (page_free (mem_pool s) page num);
  _ ← modify (set_mem_pool p);
  modify (fun s => set_words (foldl scrub_page (words s) scrubbed) s).

(** Whether one of the [n] entries from [pte] on is valid. *)
Fixpoint table_empty_loop (n : nat) (pte : Z) (w : gmap Z Z) : bool :=
  match n with
  | O => true
  | S n => if arm_entry_valid (default 0 (w !! pte)) PTE_FLAG_VALID then false else table_empty_loop n (pte + 8) w
  end.
Definition arm_page_table_empty (page_table : Z) : PG bool :=
  gets (fun s => table_empty_loop 512 page_table (words s)).

(** ** Translation *)
Section Structures.
Context (page_offset : Z).

Definition paging_hvirt2phys (hvirt : Z) : Z := u64 (hvirt - page_offset).
Definition paging_phys2hvirt (phys : Z) : Z := u64 (phys + page_offset).

(** The walk of [paging_virt2phys] from the table [pt] on. *)
Fixpoint virt2phys_loop (ps : list paging) (pt virt flags : Z) (s : pgstate) : option Z :=
  match ps with
  | [] => None
  | p :: ps =>
      let pte := word_at (get_entry p pt virt) s in
      if negb (arm_entry_valid pte flags) then Some INVALID_PHYS_ADDR
      else
        let phys := get_phys p pte virt in
        if negb (phys =? INVALID_PHYS_ADDR) then Some phys
        else
          next ← get_next_pt p;
          virt2phys_loop ps (paging_phys2hvirt (next pte)) virt flags s
  end.

Definition paging_virt2phys (pg : paging_structures) (virt flags : Z) (s : pgstate) : option Z :=
  virt2phys_loop (root_paging pg) (root_table pg) virt flags s.

(** ** Mapping and unmapping

    [paging_create], [paging_destroy] and [split_hugepage] call each other.
    [create] stands for the call of [paging_create] in a split, which is for a
    deeper level. *)
Section Recursion.
Context (create : paging_structures -> Z -> Z -> Z -> Z -> paging_coherent -> PG Z).

Definition split_hugepage (p : paging) (rest : list paging) (pte virt : Z) (coherent : paging_coherent) : PG Z :=
  v ← read pte;
  let phys := get_phys p v virt in
  if phys =? INVALID_PHYS_ADDR then mret 0
  else
    (* computed as an unsigned int *)
    let page_mask := u32 (Z.lnot (page_size p - 1)) in
    let phys := Z.land phys page_mask in
    let virt := Z.land virt page_mask in
    let flags := arm_get_entry_flags v in
    root_table ← mem_page_alloc 1;
    if root_table =? 0 then mret (- ENOMEM)
    else
      set_next ← lift (set_next_pt p);
      _ ← store pte (set_next (paging_hvirt2phys root_table));
      _ ← flush_pt_entry pte coherent;
      create (mk_paging_structures rest root_table false) phys (page_size p) virt flags coherent.

(** The walk down of [paging_destroy]; the result is an error of a split, or
    the visited tables, the current one first. *)
Fixpoint destroy_walk (ps : list paging) (above : list (paging * Z)) (pt virt size : Z)
    (coherent : paging_coherent) : PG (Z + list (paging * Z)) :=
  match ps with
  | [] => undefined
  | p :: ps =>
      let pte := get_entry p pt virt in
      let stack := (p, pt) :: above in
      let down :=
        v ← read pte;
        next ← lift (get_next_pt p);
        destroy_walk ps stack (paging_phys2hvirt (next v)) virt size coherent in
      v ← read pte;
      if negb (arm_entry_valid v PAGE_PRESENT_FLAGS) then mret (inr stack)
      else if negb (get_phys p v virt =? INVALID_PHYS_ADDR) then
        if page_size p >? size then
          err ← split_hugepage p ps pte virt coherent;
          if negb (err =? 0) then mret (inl err) else down
        else mret (inr stack)
      else down
  end.

(** The walk up: clear the entry, release the table if it got empty. *)
Fixpoint clear_up (p : paging) (pt : Z) (above : list (paging * Z)) (virt : Z)
    (coherent : paging_coherent) : PG unit :=
  let pte := get_entry p pt virt in
  _ ← store pte 0;
  _ ← flush_pt_entry pte coherent;
  match above with
  | [] => mret tt
  | (p', pt') :: above =>
      empty ← arm_page_table_empty pt;
      if negb empty then mret tt
      else
        _ ← mem_page_free pt 1;
        clear_up p' pt' above virt coherent
  end.

Fixpoint destroy_loop (fuel : nat) (pg : paging_structures) (virt size : Z)
    (coherent : paging_coherent) : PG Z :=
  if size <=? 0 then mret 0
  else
    match fuel with
    | O => undefined
    | S fuel =>
        r ← destroy_walk (root_paging pg) [] (root_table pg) virt size coherent;
        match r with
        | inl err => mret err
        | inr [] => undefined
        | inr ((p, pt) :: above) =>
            let page_sz := if negb (page_size p =? 0) then page_size p else PAGE_SIZE in
            _ ← clear_up p pt above virt coherent;
            _ ← flush_page_tlbs (is_hv pg) virt;
            if page_sz >? size then mret 0
            else destroy_loop fuel pg (u64 (virt + page_sz)) (size - page_sz) coherent
        end
    end.

Definition destroy_body (pg : paging_structures) (virt size : Z) (coherent : paging_coherent) : PG Z :=
  let size := PAGE_ALIGN size in
  destroy_loop (Z.to_nat (size / PAGE_SIZE)) pg virt size coherent.

(** The walk down of [paging_create] to the entry to be set; the result is an
    error or the size of the page that was mapped. *)
Definition usable_size (p : paging) (phys virt size : Z) : bool :=
  (page_size p >? 0) && (page_size p <=? size) && (Z.land (Z.lor phys virt) (page_size p - 1) =? 0).

Fixpoint create_walk (ps : list paging) (pt phys size virt flags : Z) (coherent : paging_coherent)
    : PG (Z + Z) :=
  match ps with
  | [] => undefined
  | p :: rest =>
      let pte := get_entry p pt virt in
      if usable_size p phys virt size then
        _ ← (if page_size p >? PAGE_SIZE
             then destroy_body (mk_paging_structures ps pt false) virt (page_size p) coherent
             else mret 0);
        set ← lift (set_terminal p);
        _ ← store pte (set phys flags);
        _ ← flush_pt_entry pte coherent;
        mret (inr (page_size p))
      else
        v ← read pte;
        if arm_entry_valid v PAGE_PRESENT_FLAGS then
          err ← split_hugepage p rest pte virt coherent;
          if negb (err =? 0) then mret (inl err)
          else
            v ← read pte;
            next ← lift (get_next_pt p);
            create_walk rest (paging_phys2hvirt (next v)) phys size virt flags coherent
        else
          pt ← mem_page_alloc 1;
          if pt =? 0 then mret (inl (- ENOMEM))
          else
            set_next ← lift (set_next_pt p);
            _ ← store pte (set_next (paging_hvirt2phys pt));
            _ ← flush_pt_entry pte coherent;
            create_walk rest pt phys size virt flags coherent
  end.

Fixpoint create_loop (fuel : nat) (pg : paging_structures) (phys size virt flags : Z)
    (coherent : paging_coherent) : PG Z :=
  if size <=? 0 then mret 0
  else
    match fuel with
    | O => undefined
    | S fuel =>
        r ← create_walk (root_paging pg) (root_table pg) phys size virt flags coherent;
        match r with
        | inl err => mret err
        | inr page_sz =>
            _ ← flush_page_tlbs (is_hv pg) virt;
            create_loop fuel pg (u64 (phys + page_sz)) (size - page_sz) (u64 (virt + page_sz)) flags coherent
        end
    end.

Definition create_body (pg : paging_structures) (phys size virt flags : Z) (coherent : paging_coherent) : PG Z :=
  let phys := Z.land phys PAGE_MASK in
  let virt := Z.land virt PAGE_MASK in
  let size := PAGE_ALIGN size in
  create_loop (Z.to_nat (size / PAGE_SIZE)) pg phys size virt flags coherent.

End Recursion.

(** A split is at most once per level, so the depth of the recursion is at
    most the number of levels. *)
Fixpoint paging_create_depth (depth : nat) (pg : paging_structures) (phys size virt flags : Z)
    (coherent : paging_coherent) : PG Z :=
  match depth with
  | O => undefined
  | S depth => create_body (paging_create_depth depth) pg phys size virt flags coherent
  end.

Definition MAX_PAGE_TABLE_LEVELS : nat := 4.
Definition paging_create : paging_structures -> Z -> Z -> Z -> Z -> paging_coherent -> PG Z :=
  paging_create_depth (S MAX_PAGE_TABLE_LEVELS).
Definition paging_destroy : paging_structures -> Z -> Z -> paging_coherent -> PG Z :=
  destroy_body (paging_create_depth MAX_PAGE_TABLE_LEVELS).

(** ** Users of the page tables *)
Definition PTE_ACCESS_FLAG : Z := Z.shiftl 1 10.
Definition S2_PTE_ACCESS_RO : Z := Z.shiftl 1 6.
Definition S2_PTE_ACCESS_WO : Z := Z.shiftl 2 6.
Definition S2_PTE_FLAG_DEVICE : Z := Z.shiftl 1 2.
Definition S2_PTE_FLAG_NORMAL : Z := Z.shiftl 15 2.
Definition PAGE_FLAG_DEVICE : Z := Z.shiftl 1 2.
Definition PAGE_DEFAULT_FLAGS : Z := Z.lor (Z.lor PTE_FLAG_VALID PTE_ACCESS_FLAG) (Z.lor (Z.shiftl 3 8) (Z.shiftl 1 6)).
Definition JAILHOUSE_MEM_COMM_REGION : Z := 32.
Definition JAILHOUSE_MEM_IO : Z := 16.

(** The flags of the stage 2 mapping of a memory region. *)
Definition stage2_flags (mem : jailhouse_memory) : Z :=
  let flags := Z.lor PTE_FLAG_VALID PTE_ACCESS_FLAG in
  let flags := if negb (Z.land (mem_flags mem) JAILHOUSE_MEM_READ =? 0) then Z.lor flags S2_PTE_ACCESS_RO else flags in
  let flags := if negb (Z.land (mem_flags mem) JAILHOUSE_MEM_WRITE =? 0) then Z.lor flags S2_PTE_ACCESS_WO else flags in
  if negb (Z.land (mem_flags mem) JAILHOUSE_MEM_IO =? 0) then Z.lor flags S2_PTE_FLAG_DEVICE
  else Z.lor flags S2_PTE_FLAG_NORMAL.

(** [mm] are the structures of the cell, [comm_page] is its page. *)
Definition arch_map_memory_region (mm : paging_structures) (comm_page : Z) (mem : jailhouse_memory) : PG Z :=
  let phys := if negb (Z.land (mem_flags mem) JAILHOUSE_MEM_COMM_REGION =? 0)
    then paging_hvirt2phys comm_page else phys_start mem in
  paging_create mm phys (mem_size mem) (virt_start mem) (stage2_flags mem) PAGING_COHERENT.
Definition arch_unmap_memory_region (mm : paging_structures) (mem : jailhouse_memory) : PG Z :=
  paging_destroy mm (virt_start mem) (mem_size mem) PAGING_COHERENT.
Definition arch_paging_gphys2phys (mm : paging_structures) (gphys flags : Z) (s : pgstate) : option Z :=
  paging_virt2phys mm gphys flags s.

(** The root table of a cell; [None] is the error that is returned with it. *)
Definition arm_paging_cell_init (cpu_parange cell_id : Z) : PG (Z * option paging_structures) :=
  if cell_id >? 255 then mret (- E2BIG, None)
  else
    s ← gets id;
    '(root, p) ← lift (page_alloc_aligned (mem_pool s) (ARM_CELL_ROOT_PT_SZ cpu_parange));
    _ ← modify (set_mem_pool p);
    if root =? 0 then mret (- ENOMEM, None)
    else mret (0, Some (mk_paging_structures (cell_paging cpu_parange) root false)).
Definition arm_paging_cell_destroy (cpu_parange : Z) (mm : paging_structures) : PG unit :=
  mem_page_free (root_table mm) (ARM_CELL_ROOT_PT_SZ cpu_parange).

(** Devices are mapped at pages of the remapping pool. *)
Definition remap_page_free (page num : Z) : PG unit :=
  s ← gets id;
  '(p, scrubbed) ← lift (page_free (remap_pool s) page num);
  _ ← modify (set_remap_pool p);
  modify (fun s => set_words (foldl scrub_page (words s) scrubbed) s).

Definition paging_map_device (hv : paging_structures) (phys size : Z) : PG Z :=
  s ← gets id;
  '(virt, p) ← lift (page_alloc (remap_pool s) (u32 (PAGES size)));
  _ ← modify (set_remap_pool p);
  if virt =? 0 then mret 0
  else
    err ← paging_create hv phys size virt (Z.lor PAGE_DEFAULT_FLAGS PAGE_FLAG_DEVICE) PAGING_NON_COHERENT;
    if negb (err =? 0) then
      _ ← remap_page_free virt (u32 (PAGES size));
      mret 0
    else mret virt.

Definition paging_unmap_device (hv : paging_structures) (phys virt size : Z) : PG unit :=
  _ ← paging_destroy hv virt size PAGING_NON_COHERENT;
  remap_page_free virt (u32 (PAGES size)).

(** [paging_get_guest_pages] for a guest-physical address, the only case on
    ARM: the pages of the guest appear at the temporary pages of the CPU. *)
Definition TEMPORARY_MAPPING_BASE : Z := 1048576.

Fixpoint guest_pages_loop (hv mm : paging_structures) (num : nat) (gaddr page_virt flags : Z) : PG bool :=
  match num with
  | O => mret true
  | S num =>
      phys ← from_option (arch_paging_gphys2phys mm gaddr flags);
      if phys =? INVALID_PHYS_ADDR then mret false
      else
        err ← paging_create hv phys PAGE_SIZE page_virt flags PAGING_NON_COHERENT;
        if negb (err =? 0) then mret false
        else guest_pages_loop hv mm num (u64 (gaddr + PAGE_SIZE)) (u64 (page_virt + PAGE_SIZE)) flags
  end.

Definition paging_get_guest_pages (hv mm : paging_structures) (this_cpu_id gaddr num flags : Z) : PG Z :=
  let page_base := u64 (TEMPORARY_MAPPING_BASE + this_cpu_id * PAGE_SIZE * NUM_TEMPORARY_PAGES) in
  if num >? NUM_TEMPORARY_PAGES then mret 0
  else
    ok ← guest_pages_loop hv mm (Z.to_nat num) gaddr page_base flags;
    mret (if (ok : bool) then page_base else 0).

End Structures.
