(* ===== verification/PageTree.v ===== *)
(** * Page tables as trees

    The invariant of the page tables, what they translate to, and the
    correctness of mapping and unmapping in them. *)

From Stdlib Require Import ZArith Lia.
From stdpp Require Import base tactics list list_numbers option gmap.
From S2P Require Import Prelude Bitops StateMonad Mmio PagePool Paging.

(** ** Fields of entries and addresses *)
Lemma BIT_MASK_bit last first i : 0 <= first <= last -> last < 64 -> 0 <= i ->
  Z.testbit (BIT_MASK last first) i = (first <=? i) && (i <=? last).
Proof.
  intros Hf Hl Hi. unfold BIT_MASK, u64. rewrite wrap_bit by lia. rewrite Z.shiftl_spec by done.
  change (wrap 64 (Z.lnot 0)) with (Z.ones 64).
  destruct (Z.leb_spec first i).
  - rewrite Z.shiftr_spec by lia. rewrite Z.testbit_ones_nonneg by lia. cbn [andb].
    apply eq_bool_prop_intro. rewrite andb_True, !Is_true_true, !Z.ltb_lt, Z.leb_le. lia.
  - rewrite Z.testbit_neg_r by lia. apply andb_false_r.
Qed.

(** The index that an address selects with a mask. *)
Lemma address_index v last sh nb : 0 <= sh -> 0 < nb -> sh + nb <= 64 -> last = sh + nb - 1 ->
  Z.shiftr (Z.land v (BIT_MASK last sh)) sh = (v / 2 ^ sh) mod 2 ^ nb.
Proof.
  intros Hs Hn Hm ->. apply Z.bits_inj'. intros i Hi.
  rewrite Z.shiftr_spec, Z.land_spec, BIT_MASK_bit by lia.
  rewrite <- Z.shiftr_div_pow2 by done.
  destruct (Z.ltb_spec i nb).
  - rewrite Z.mod_pow2_bits_low, Z.shiftr_spec by lia.
    rewrite (proj2 (Z.leb_le sh _)), (proj2 (Z.leb_le _ (sh + nb - 1))) by lia. apply andb_true_r.
  - rewrite Z.mod_pow2_bits_high by lia. rewrite (proj2 (Z.leb_gt _ (sh + nb - 1))) by lia.
    by rewrite andb_false_r, andb_false_r.
Qed.

(** Masking an aligned address below 2^48 keeps it. *)
Lemma land_address_field x sh : 0 <= sh < 48 -> 0 <= x < 2 ^ 48 -> x mod 2 ^ sh = 0 ->
  Z.land x (BIT_MASK 47 sh) = x.
Proof.
  intros Hs Hx Hm. apply Z.bits_inj'. intros i Hi. rewrite Z.land_spec, BIT_MASK_bit by lia.
  destruct (Z.ltb_spec i sh).
  - rewrite <- (Z.mod_pow2_bits_low x sh i), Hm, Z.bits_0 by lia. done.
  - destruct (Z.leb_spec i 47).
    + by rewrite (proj2 (Z.leb_le sh i)), andb_true_r by lia.
    + rewrite <- (Z.mod_small x (2 ^ 48)) at 1 2 by lia. by rewrite Z.mod_pow2_bits_high by lia.
Qed.

Lemma lor_add x y n : 0 <= n -> 0 <= y < 2 ^ n -> x mod 2 ^ n = 0 -> Z.lor x y = x + y.
Proof.
  intros Hn Hy Hx. rewrite Z.add_nocarry_lxor.
  - symmetry. apply Z.lxor_lor.
    apply Z.bits_inj'. intros i Hi. rewrite Z.land_spec, Z.bits_0.
    destruct (Z.ltb_spec i n).
    + rewrite <- (Z.mod_pow2_bits_low x n i), Hx, Z.bits_0 by lia. done.
    + rewrite <- (Z.mod_small y (2 ^ n)) by lia. rewrite Z.mod_pow2_bits_high by lia. apply andb_false_r.
  - apply Z.bits_inj'. intros i Hi. rewrite Z.land_spec, Z.bits_0.
    destruct (Z.ltb_spec i n).
    + rewrite <- (Z.mod_pow2_bits_low x n i), Hx, Z.bits_0 by lia. done.
    + rewrite <- (Z.mod_small y (2 ^ n)) by lia. rewrite Z.mod_pow2_bits_high by lia. apply andb_false_r.
Qed.

Definition valid (pte : Z) : bool := Z.testbit pte 0.
Definition tagged (pte : Z) : bool := Z.testbit pte 1.

Lemma entry_valid_bit pte flags : arm_entry_valid pte flags = valid pte.
Proof. unfold arm_entry_valid, valid. by rewrite <- (land_bit pte 0). Qed.

Lemma land_1_bits pte : Z.land pte 3 = (if valid pte then 1 else 0) + (if tagged pte then 2 else 0).
Proof.
  change 3 with (Z.ones 2). rewrite Z.land_ones by done. unfold valid, tagged.
  rewrite Z.bit0_odd. change 1 with (Z.succ 0) at 2.
  rewrite <- Z.div2_bits by done. rewrite Z.bit0_odd.
  change (2 ^ 2) with (2 * 2). rewrite Z.rem_mul_r by done.
  rewrite !Zmod_odd, <- Z.div2_div. destruct (Z.odd pte), (Z.odd (Z.div2 pte)); done.
Qed.

Lemma table_flags_bits pte : (Z.land pte PTE_TABLE_FLAGS =? PTE_TABLE_FLAGS) = valid pte && tagged pte.
Proof.
  unfold PTE_TABLE_FLAGS. rewrite land_1_bits. by destruct (valid pte), (tagged pte).
Qed.

Lemma terminal_bit pte : (Z.land pte PTE_FLAG_TERMINAL =? 0) = negb (tagged pte).
Proof.
  unfold PTE_FLAG_TERMINAL, tagged. rewrite <- (land_bit pte 1) by done. by rewrite negb_involutive.
Qed.

(** Flags that a mapping can have: twelve bits without the table bit. *)
Definition flags_ok (flags : Z) : Prop := 0 <= flags < 2 ^ 12 /\ tagged flags = false.

Lemma low_bits_add x y n i : 0 <= i < n -> x mod 2 ^ n = 0 -> 0 <= y < 2 ^ n -> Z.testbit (x + y) i = Z.testbit y i.
Proof.
  intros Hi Hx Hy. rewrite <- (lor_add x y n) by lia. rewrite Z.lor_spec.
  by rewrite <- (Z.mod_pow2_bits_low x n i), Hx, Z.bits_0 by lia.
Qed.

(** ** Values of entries *)
Definition pte_addr (pte : Z) : Z := Z.land pte PTE_TABLE_ADDR_MASK.

Record pte_value (pte addr low : Z) : Prop := {
  pv_sum : pte = addr + low;
  pv_addr : pte_addr pte = addr;
  pv_low : Z.land pte 4095 = low;
  pv_valid : valid pte = valid low;
  pv_tagged : tagged pte = tagged low;
}.

Lemma pte_value_add addr low : 0 <= addr < 2 ^ 48 -> addr mod 2 ^ 12 = 0 -> 0 <= low < 2 ^ 12 ->
  pte_value (addr + low) addr low.
Proof.
  intros Ha Hal Hl. split; [done| | | |].
  - unfold pte_addr, PTE_TABLE_ADDR_MASK. rewrite <- (lor_add addr low 12) by done.
    rewrite Z.land_lor_distr_l, land_address_field by done.
    assert (Z.land low (BIT_MASK 47 12) = 0) as ->; [|apply Z.lor_0_r].
    apply Z.bits_inj'. intros i Hi. rewrite Z.land_spec, BIT_MASK_bit, Z.bits_0 by lia.
    destruct (Z.leb_spec 12 i); [|by rewrite andb_false_r].
    rewrite <- (Z.mod_small low (2 ^ 12)) by lia. by rewrite Z.mod_pow2_bits_high by lia.
  - change 4095 with (Z.ones 12). rewrite Z.land_ones by done.
    rewrite <- Z.add_mod_idemp_l, Hal by done. by apply Z.mod_small.
  - apply (low_bits_add addr low 12); [lia|done|done].
  - apply (low_bits_add addr low 12); [lia|done|done].
Qed.

Lemma lor_tag flags : flags_ok flags -> Z.lor flags 2 = flags + 2.
Proof.
  intros [Hr Ht]. rewrite Z.add_nocarry_lxor.
  - symmetry. apply Z.lxor_lor. apply Z.bits_inj'. intros i Hi. rewrite Z.land_spec, Z.bits_0.
    change 2 with (2 ^ 1). rewrite Z.pow2_bits_eqb by done. destruct (Z.eqb_spec 1 i) as [<-|]; [|apply andb_false_r].
    unfold tagged in Ht. by rewrite Ht.
  - apply Z.bits_inj'. intros i Hi. rewrite Z.land_spec, Z.bits_0.
    change 2 with (2 ^ 1). rewrite Z.pow2_bits_eqb by done. destruct (Z.eqb_spec 1 i) as [<-|]; [|apply andb_false_r].
    unfold tagged in Ht. by rewrite Ht.
Qed.

Lemma tag_flags flags : flags_ok flags ->
  0 <= Z.lor flags 2 < 2 ^ 12 /\ valid (Z.lor flags 2) = valid flags /\ tagged (Z.lor flags 2) = true /\
  Z.ldiff (Z.lor flags 2) 2 = flags.
Proof.
  intros [Hr Ht]. split; [by apply lor_range|]. unfold valid, tagged. rewrite !Z.lor_spec.
  split; [apply orb_false_r|]. split; [apply orb_true_r|].
  apply Z.bits_inj'. intros i Hi. rewrite Z.ldiff_spec, Z.lor_spec. change 2 with (2 ^ 1).
  rewrite Z.pow2_bits_eqb by done. destruct (Z.eqb_spec 1 i) as [<-|].
  - unfold tagged in Ht. by rewrite Ht.
  - by rewrite orb_false_r, andb_true_r.
Qed.

Lemma ldiff_tag flags : flags_ok flags -> Z.ldiff flags 2 = flags.
Proof.
  intros [Hr Ht]. apply Z.bits_inj'. intros i Hi. rewrite Z.ldiff_spec. change 2 with (2 ^ 1).
  rewrite Z.pow2_bits_eqb by done. destruct (Z.eqb_spec 1 i) as [<-|]; [|apply andb_true_r].
  unfold tagged in Ht. by rewrite Ht.
Qed.

(** ** Levels *)

(** Where an entry maps an address: the address field of the entry, aligned to
    the page size, and the offset in the page. *)
Definition leaf_addr (size pte v : Z) : Z := pte_addr pte - pte_addr pte mod size + v mod size.
Definition leaf_flags (pte : Z) : Z := Z.ldiff (Z.land pte 4095) 2.

(** A level whose tables have [2 ^ nb] entries for [2 ^ sh] bytes each. *)
Record level_ok (va : Z) (p : paging) (sh nb : Z) (blocks last : bool) : Prop := {
  lv_range : 12 <= sh <= 39 /\ 0 < nb /\ sh + nb <= va <= 48 /\ 32 <= va;
  lv_small : blocks = true -> sh <= 30;
  lv_entry pt v : 0 <= v < 2 ^ va -> get_entry p pt v = pt + 8 * ((v / 2 ^ sh) mod 2 ^ nb);
  lv_size : page_size p = if blocks then 2 ^ sh else 0;
  lv_set : blocks = true -> exists set, set_terminal p = Some set /\
    forall phys flags, 0 <= phys < 2 ^ 48 -> phys mod 2 ^ sh = 0 -> flags_ok flags ->
      set phys flags = phys + (if last then Z.lor flags 2 else flags);
  lv_phys pte v : valid pte = true -> 0 <= v < 2 ^ va ->
    (get_phys p pte v =? INVALID_PHYS_ADDR) = (if last then negb (tagged pte) else tagged pte);
  lv_block pte v : last = false -> blocks = true -> 0 <= v < 2 ^ va -> tagged pte = false ->
    get_phys p pte v = leaf_addr (2 ^ sh) pte v;
  lv_page pte v : last = true -> tagged pte = true -> get_phys p pte v = Z.lor (pte_addr pte) (Z.land v PAGE_MASK);
  lv_next : last = false -> set_next_pt p = Some arm_set_l12_table /\ get_next_pt p = Some arm_get_l12_table;
}.

Lemma bit_mask_align pte sh : 12 <= sh <= 47 ->
  Z.land pte (BIT_MASK 47 sh) = pte_addr pte - pte_addr pte mod 2 ^ sh.
Proof.
  intros Hs. unfold pte_addr, PTE_TABLE_ADDR_MASK.
  assert (Z.land pte (BIT_MASK 47 12) - Z.land pte (BIT_MASK 47 12) mod 2 ^ sh =
    Z.ldiff (Z.land pte (BIT_MASK 47 12)) (Z.ones sh)) as ->.
  { rewrite Z.ldiff_ones_r, Z.shiftl_mul_pow2, Z.shiftr_div_pow2 by lia.
    pose proof (Z.div_mod (Z.land pte (BIT_MASK 47 12)) (2 ^ sh)). lia. }
  apply Z.bits_inj'. intros i Hi. rewrite Z.ldiff_spec, !Z.land_spec, !BIT_MASK_bit, Z.testbit_ones_nonneg by lia.
  destruct (Z.testbit pte i); [|done]. cbn [andb].
  destruct (Z.leb_spec sh i), (Z.leb_spec 12 i), (Z.leb_spec i 47), (Z.ltb_spec i sh); first [done|exfalso; lia].
Qed.

Lemma land_low_mask v sh : 0 < sh <= 39 -> Z.land v (BIT_MASK (sh - 1) 0) = v mod 2 ^ sh.
Proof.
  intros Hs. rewrite <- Z.land_ones by lia. f_equal. apply Z.bits_inj'. intros i Hi.
  rewrite BIT_MASK_bit, Z.testbit_ones_nonneg by lia. rewrite (proj2 (Z.leb_le 0 i)) by lia. cbn [andb].
  apply eq_bool_prop_intro. rewrite !Is_true_true, Z.leb_le, Z.ltb_lt. lia.
Qed.

Lemma pte_addr_range pte : 0 <= pte_addr pte < 2 ^ 48 /\ pte_addr pte mod 2 ^ 12 = 0.
Proof.
  unfold pte_addr, PTE_TABLE_ADDR_MASK. split; [split|].
  - apply Z.land_nonneg. right. vm_compute. discriminate.
  - assert (H0 : 0 <= Z.land pte (BIT_MASK 47 12)) by (apply Z.land_nonneg; right; vm_compute; discriminate).
    destruct (decide (Z.land pte (BIT_MASK 47 12) = 0)) as [->|]; [done|].
    apply Z.log2_lt_pow2; [lia|]. apply Z.lt_nge. intros Hlog.
    assert (Hb : Z.testbit (Z.land pte (BIT_MASK 47 12)) (Z.log2 (Z.land pte (BIT_MASK 47 12))) = true)
      by (apply Z.bit_log2; lia).
    rewrite Z.land_spec, BIT_MASK_bit in Hb by lia. b2p. lia.
  - rewrite <- Z.land_ones by done. apply Z.bits_inj'. intros i Hi.
    rewrite !Z.land_spec, BIT_MASK_bit, Z.testbit_ones_nonneg, Z.bits_0 by lia.
    destruct (Z.leb_spec 12 i), (Z.ltb_spec i 12); rewrite ?andb_false_r; first [done|exfalso; lia].
Qed.

Lemma leaf_addr_range size pte v : 0 < size -> 0 <= leaf_addr size pte v < 2 ^ 48 + size.
Proof.
  intros Hs. unfold leaf_addr. destruct (pte_addr_range pte) as [H _].
  pose proof (Z.mod_pos_bound (pte_addr pte) size Hs). pose proof (Z.mod_pos_bound v size Hs).
  pose proof (Z.mod_le (pte_addr pte) size). lia.
Qed.

Lemma block_phys_value sh pte v : 12 <= sh <= 39 -> tagged pte = false ->
  block_phys (BIT_MASK 47 sh) (BIT_MASK (sh - 1) 0) pte v = leaf_addr (2 ^ sh) pte v.
Proof.
  intros Hs Ht. unfold block_phys. rewrite table_flags_bits, Ht, andb_false_r.
  rewrite bit_mask_align, land_low_mask by lia. unfold leaf_addr.
  pose proof (Z.pow_pos_nonneg 2 sh ltac:(done) ltac:(lia)).
  apply (lor_add _ _ sh); [lia|by apply Z.mod_pos_bound|].
  pose proof (Z.div_mod (pte_addr pte) (2 ^ sh) ltac:(lia)).
  replace (pte_addr pte - pte_addr pte mod 2 ^ sh) with (pte_addr pte / 2 ^ sh * 2 ^ sh) by lia.
  apply Z.mod_mul. lia.
Qed.

Lemma block_phys_invalid sh pte v : 12 <= sh <= 39 -> valid pte = true ->
  (block_phys (BIT_MASK 47 sh) (BIT_MASK (sh - 1) 0) pte v =? INVALID_PHYS_ADDR) = tagged pte.
Proof.
  intros Hs Hv. destruct (tagged pte) eqn:Ht.
  - unfold block_phys. rewrite table_flags_bits, Hv, Ht. apply Z.eqb_refl.
  - rewrite block_phys_value by done. apply Z.eqb_neq.
    pose proof (leaf_addr_range (2 ^ sh) pte v (Z.pow_pos_nonneg 2 sh ltac:(done) ltac:(lia))).
    assert (2 ^ sh <= 2 ^ 39) by (apply Z.pow_le_mono_r; lia).
    change INVALID_PHYS_ADDR with (2 ^ 64 - 1). lia.
Qed.

Lemma set_block_value sh phys flags : 12 <= sh <= 39 -> 0 <= phys < 2 ^ 48 -> phys mod 2 ^ sh = 0 ->
  flags_ok flags -> Z.lor (Z.land phys (BIT_MASK 47 sh)) flags = phys + flags.
Proof.
  intros Hs Hp Hm [Hf _]. rewrite land_address_field by (done || lia). apply (lor_add _ _ 12); [done|done|].
  pose proof (Z.div_mod phys (2 ^ sh) (Z.pow_nonzero 2 sh ltac:(done) ltac:(lia))) as Hd. rewrite Hm in Hd.
  rewrite Hd. replace (2 ^ sh) with (2 ^ (sh - 12) * 2 ^ 12) by (rewrite <- Z.pow_add_r by lia; f_equal; lia).
  replace (2 ^ (sh - 12) * 2 ^ 12 * (phys / (2 ^ (sh - 12) * 2 ^ 12)) + 0)
    with (2 ^ (sh - 12) * (phys / (2 ^ (sh - 12) * 2 ^ 12)) * 2 ^ 12) by lia.
  by apply Z.mod_mul.
Qed.

(** The levels that the hypervisor uses. *)
Lemma level2_ok va : 32 <= va <= 48 -> level_ok va level2 21 9 true false.
Proof.
  intros Hva. split; cbn [page_size get_entry set_terminal get_phys set_next_pt get_next_pt level2]; try done; try lia.
  - intros pt v _. unfold arm_get_l2_entry, table_entry. by rewrite (address_index v _ 21 9) by done.
  - intros _. eexists. split; [done|]. intros. by apply (set_block_value 21).
  - intros pte v Hv _. by apply (block_phys_invalid 21).
  - intros pte v _ _ _ Ht. by apply (block_phys_value 21).
Qed.

Lemma level1_ok va : 39 <= va <= 48 -> level_ok va level1 30 9 true false.
Proof.
  intros Hva. split; cbn [page_size get_entry set_terminal get_phys set_next_pt get_next_pt level1]; try done; try lia.
  - intros pt v _. unfold arm_get_l1_entry, table_entry. by rewrite (address_index v _ 30 9) by done.
  - intros _. eexists. split; [done|]. intros. by apply (set_block_value 30).
  - intros pte v Hv _. by apply (block_phys_invalid 30).
  - intros pte v _ _ _ Ht. by apply (block_phys_value 30).
Qed.

Lemma level0_ok va : va = 48 -> level_ok va level0 39 9 false false.
Proof.
  intros ->. split; cbn [page_size get_entry set_terminal get_phys set_next_pt get_next_pt level0]; try done; try lia.
  - intros pt v _. unfold arm_get_l0_entry, table_entry. by rewrite (address_index v _ 39 9) by done.
  - intros pte v Hv _. by apply (block_phys_invalid 39).
Qed.

Lemma level3_ok va : 32 <= va <= 48 -> level_ok va level3 12 9 true true.
Proof.
  intros Hva. split; cbn [page_size get_entry set_terminal get_phys set_next_pt get_next_pt level3]; try done; try lia.
  - intros pt v _. unfold arm_get_l3_entry, table_entry. by rewrite (address_index v _ 12 9) by done.
  - intros _. eexists. split; [done|]. intros phys flags Hp Hm Hf. unfold arm_set_l3_page.
    rewrite (set_block_value 12) by done. destruct (tag_flags flags Hf) as (Hr & _).
    destruct Hf as [Hf1 Hf2].
    rewrite <- (lor_add phys flags 12), <- Z.lor_assoc by done. by apply (lor_add _ _ 12).
  - intros pte v Hv Hvr. unfold arm_get_l3_phys. rewrite terminal_bit. destruct (tagged pte); cbn [negb]; [|apply Z.eqb_refl].
    apply Z.eqb_neq. destruct (pte_addr_range pte) as [Hr _]. unfold pte_addr, PTE_TABLE_ADDR_MASK in Hr.
    assert (2 ^ va <= 2 ^ 48) by (apply Z.pow_le_mono_r; lia).
    assert (0 <= Z.land v PAGE_MASK < 2 ^ 48).
    { rewrite land_page_mask by lia. pose proof (Z.mod_pos_bound v PAGE_SIZE eq_refl).
      pose proof (Z.mod_le v PAGE_SIZE). unfold PAGE_SIZE in *. lia. }
    pose proof (lor_range (Z.land pte (BIT_MASK 47 12)) (Z.land v PAGE_MASK) 48 ltac:(done) ltac:(lia) ltac:(lia)).
    change INVALID_PHYS_ADDR with (2 ^ 64 - 1). lia.
  - intros pte v _ Ht. unfold arm_get_l3_phys. by rewrite terminal_bit, Ht.
Qed.

(** The concatenated root tables of a cell are indexed by all address bits. *)
Lemma level1_alt_ok va : 32 <= va <= 43 -> level_ok va level1_alt 30 (va - 30) false false.
Proof.
  intros Hva. split; cbn [page_size get_entry set_terminal get_phys set_next_pt get_next_pt level1_alt]; try done; try lia.
  - intros pt v Hv. unfold arm_get_l1_alt_entry, table_entry. rewrite (address_index v _ 30 19) by done.
    do 2 f_equal. assert (v / 2 ^ 30 < 2 ^ (va - 30)).
    { apply Z.div_lt_upper_bound; [done|]. rewrite <- Z.pow_add_r by lia. replace (30 + (va - 30)) with va by lia. lia. }
    assert (2 ^ (va - 30) <= 2 ^ 19) by (apply Z.pow_le_mono_r; lia).
    assert (0 <= v / 2 ^ 30) by (apply Z.div_pos; lia). rewrite !Z.mod_small by lia. done.
  - intros pte v Hv _. unfold arm_get_l1_alt_phys. destruct (tagged pte) eqn:Ht.
    + unfold block_phys. rewrite table_flags_bits, Hv, Ht. apply Z.eqb_refl.
    + unfold block_phys. rewrite table_flags_bits, Ht, andb_false_r. apply Z.eqb_neq.
      change (BIT_MASK 29 0) with (BIT_MASK (30 - 1) 0). rewrite (land_low_mask v 30) by done. pose proof (Z.mod_pos_bound v (2 ^ 30) eq_refl).
      assert (Z.lor (Z.land pte (BIT_MASK 48 30)) (v mod 2 ^ 30) <> Z.ones 64) as Hne.
      { intros He. apply (f_equal (fun z => Z.testbit z 60)) in He.
        rewrite Z.lor_spec, Z.land_spec, BIT_MASK_bit in He by lia. rewrite andb_false_r in He.
        rewrite <- (Z.mod_small (v mod 2 ^ 30) (2 ^ 30)) in He by lia.
        rewrite Z.mod_pow2_bits_high in He by lia. vm_compute in He. discriminate. }
      exact Hne.
Qed.

Inductive levels (va : Z) : list paging -> Z -> Z -> bool -> Prop :=
| levels_last p nb : level_ok va p 12 nb true true -> levels va [p] 12 nb true
| levels_cons p rest sh nb blocks : level_ok va p sh nb blocks false -> levels va rest (sh - 9) 9 true ->
    levels va (p :: rest) sh nb blocks.

Lemma arm_paging_levels : levels 48 arm_paging 39 9 false.
Proof.
  apply levels_cons; [by apply level0_ok|]. apply levels_cons; [by apply level1_ok|].
  apply levels_cons; [by apply level2_ok|]. by apply levels_last, level3_ok.
Qed.

Lemma alt_paging_levels va : 32 <= va <= 43 -> levels va arm_s2_paging_alt 30 (va - 30) false.
Proof.
  intros Hva. apply levels_cons; [by apply level1_alt_ok|].
  apply levels_cons; [apply level2_ok; lia|]. apply levels_last, level3_ok. lia.
Qed.

Lemma levels_range va ps sh nb blocks : levels va ps sh nb blocks -> 12 <= sh <= 39 /\ 0 < nb /\ sh + nb <= va <= 48 /\ 32 <= va.
Proof. destruct 1 as [p nb Hp|p rest sh nb blocks Hp]; apply (lv_range _ _ _ _ _ _ Hp). Qed.

(** ** Pages of the pool *)
Definition pool_page (P : page_pool) (k : Z) : Z := base_address P + k * PAGE_SIZE.
Definition free_at (P : page_pool) (q : Z) : Prop := exists k, q = pool_page P k /\ free_page P k.
Definition used_at (P : page_pool) (q : Z) : Prop :=
  exists k, q = pool_page P k /\ 0 <= k < managed P /\ word_bit (used_bitmap P) k = true.

Lemma pool_page_inj P k1 k2 : pool_page P k1 = pool_page P k2 -> k1 = k2.
Proof. unfold pool_page, PAGE_SIZE. lia. Qed.

Lemma free_not_used P q : free_at P q -> ~ used_at P q.
Proof. intros (k & -> & _ & H1) (k' & He & _ & H2). apply pool_page_inj in He as ->. congruence. Qed.

Lemma alloc_one P : pool_ok P ->
  (page_alloc P 1 = Some (0, P) /\ forall q, ~ free_at P q) \/
  exists q P', page_alloc P 1 = Some (q, P') /\ q <> 0 /\ free_at P q /\ pool_ok P' /\
    base_address P' = base_address P /\ pages P' = pages P /\ pool_flags P' = pool_flags P /\
    (forall pg, free_at P' pg <-> free_at P pg /\ pg <> q) /\
    (forall pg, used_at P' pg <-> used_at P pg \/ pg = q).
Proof.
  intros HP. unfold page_alloc. pose proof (managed_pages P HP) as Hm.
  destruct (page_alloc_run P 0 1 HP ltac:(done) ltac:(done) ltac:(by left))
    as [[Ha Hn]|(s & P' & Ha & Hs & [Hfree _] & _ & Ht)]; change (2 ^ 0 - 1) with 0 in Ha.
  - left. split; [done|]. intros q (k & _ & Hf). destruct Hn as [|Hn]; [done|].
    change (2 ^ 0) with 1 in Hn. rewrite Z.mod_1_r in Hn.
    apply (Hn k); [apply Hf|]. split; [|by rewrite Z.mod_1_r].
    intros i Hi. assert (i = k) as -> by lia. done.
  - right. exists (base_address P + s * PAGE_SIZE), P'. split; [done|].
    assert (Hfs : free_page P s) by (apply Hfree; lia). destruct Hfs as [Hsr Hsb].
    assert (Hpage : forall k, pool_page P' k = pool_page P k) by (intros; unfold pool_page; by rewrite (tp_base _ _ _ _ Ht)).
    assert (Hman : managed P' = managed P) by (unfold managed; by rewrite (tp_pages _ _ _ _ Ht)).
    assert (Hbit : forall k, 0 <= k -> word_bit (used_bitmap P') k = (k =? s) || word_bit (used_bitmap P) k).
    { intros k Hk. rewrite (tp_bits _ _ _ _ Ht) by done. f_equal.
      destruct (Z.leb_spec s k), (Z.ltb_spec k (s + 1)), (Z.eqb_spec k s); first [done|exfalso; lia]. }
    split; [pose proof (po_base P HP); unfold PAGE_SIZE; lia|]. split; [by exists s|].
    split; [apply Ht|]. split; [apply Ht|]. split; [apply Ht|]. split; [apply Ht|]. split.
    + intros pg. split.
      * intros (k & -> & Hr & Hb). rewrite Hman in Hr. rewrite Hbit in Hb by lia. b2p. rewrite Hpage. split; [by exists k|].
        intros He. apply (pool_page_inj P k s) in He. done.
      * intros [(k & -> & Hr & Hb) Hne]. exists k. rewrite Hpage. split; [done|]. split; [by rewrite Hman|].
        rewrite Hbit, Hb, orb_false_r by lia. apply Z.eqb_neq. by intros ->.
    + intros pg. split.
      * intros (k & -> & Hr & Hb). rewrite Hman in Hr. rewrite Hbit in Hb by lia. rewrite Hpage.
        destruct (Z.eqb_spec k s) as [->|]; [by right|left; by exists k].
      * intros [(k & -> & Hr & Hb)| ->].
        -- exists k. rewrite Hpage, Hman. split; [done|]. split; [done|]. rewrite Hbit, Hb by lia. apply orb_true_r.
        -- exists s. rewrite Hpage, Hman. split; [done|]. split; [done|]. rewrite Hbit, Z.eqb_refl by lia. done.
Qed.

Lemma free_one P q : pool_ok P -> Z.land (pool_flags P) PAGE_SCRUB_ON_FREE <> 0 -> used_at P q ->
  exists P', page_free P q 1 = Some (P', [q]) /\ pool_ok P' /\
    base_address P' = base_address P /\ pages P' = pages P /\ pool_flags P' = pool_flags P /\
    (forall pg, free_at P' pg <-> free_at P pg \/ pg = q) /\
    (forall pg, used_at P' pg <-> used_at P pg /\ pg <> q).
Proof.
  intros HP Hscrub (s & -> & Hsr & Hsb). pose proof (managed_pages P HP) as Hm.
  unfold page_free. rewrite (proj2 (Z.eqb_neq _ _)) by (pose proof (po_base P HP); unfold pool_page, PAGE_SIZE; lia).
  destruct (page_free_loop_run 1 P s [] HP) as (b & Hrun & Hl & Hok & Hbits); [lia|lia|].
  change (Z.to_nat 1) with 1%nat. unfold pool_page at 1. rewrite Hrun, (proj2 (Z.eqb_neq _ _) Hscrub).
  rewrite seqZ_cons, seqZ_nil by lia. eexists. split; [reflexivity|].
  assert (Hbit : forall k, 0 <= k -> word_bit b k = negb (k =? s) && word_bit (used_bitmap P) k).
  { intros k Hk. rewrite Hbits by done. f_equal. f_equal.
    destruct (Z.leb_spec s k), (Z.ltb_spec k (s + Z.of_nat 1)), (Z.eqb_spec k s); first [done|exfalso; lia]. }
  split; [split; cbn; [exact Hok|apply HP|rewrite Hl; apply HP|apply HP|apply HP]|].
  do 3 (split; [done|]). unfold free_at, used_at, free_page, pool_page. cbn [set_used base_address used_bitmap].
  change (managed (set_used _ b P)) with (managed P). split; intros pg; split.
  - intros (k & -> & Hr & Hb). rewrite Hbit in Hb by lia. destruct (Z.eqb_spec k s) as [->|]; [by right|].
    left. by exists k.
  - intros [(k & -> & Hr & Hb)| ->]; [exists k|exists s]; (split; [done|]); (split; [done|]); rewrite Hbit by lia.
    + rewrite Hb. apply andb_false_r.
    + by rewrite Z.eqb_refl.
  - intros (k & -> & Hr & Hb). rewrite Hbit in Hb by lia. b2p. split; [by exists k|].
    intros He. apply (pool_page_inj P k s) in He. done.
  - intros [(k & -> & Hr & Hb) Hne]. exists k. split; [done|]. split; [done|]. rewrite Hbit, Hb by lia.
    rewrite andb_true_r. apply negb_true_iff, Z.eqb_neq. by intros ->.
Qed.

(** ** Memory of the tables *)
Lemma word_at_store a v a' s : word_at a' (set_words (<[a := v]> (words s)) s) = if a' =? a then v else word_at a' s.
Proof.
  unfold word_at. cbn. destruct (Z.eqb_spec a' a) as [->|]; [by rewrite lookup_insert_eq|by rewrite lookup_insert_ne].
Qed.

Definition in_page (a q : Z) : Prop := exists j, 0 <= j < 512 /\ a = q + 8 * j.


Lemma scrub_lookup w q a : (in_page a q -> scrub_page w q !! a = None) /\
  (~ in_page a q -> scrub_page w q !! a = w !! a).
Proof.
  unfold scrub_page, in_page. assert (H : forall l, (exists i, i ∈ l /\ a = q + 8 * i) ->
    foldr (fun i w => delete (q + 8 * i) w) w l !! a = None).
  { induction l as [|i l IH]; intros (k & Hk & ->); [by apply elem_of_nil in Hk|]. cbn [foldr].
    destruct (decide (k = i)) as [->|]; [by rewrite lookup_delete_eq|].
    rewrite lookup_delete_ne by lia. apply IH. exists k. split; [|done]. by apply elem_of_cons in Hk as [->|]. }
  assert (H2 : forall l, ~ (exists i, i ∈ l /\ a = q + 8 * i) ->
    foldr (fun i w => delete (q + 8 * i) w) w l !! a = w !! a).
  { induction l as [|i l IH]; intros Hn; [done|]. cbn [foldr].
    rewrite lookup_delete_ne by (intros <-; apply Hn; exists i; split; [left|done]).
    apply IH. intros (k & Hk & Ha). apply Hn. exists k. split; [by right|done]. }
  split; intros Ha; [apply H|apply H2].
  - destruct Ha as (j & Hj & ->). exists j. split; [apply elem_of_seqZ; lia|done].
  - intros (j & Hj & ->). apply Ha. exists j. apply elem_of_seqZ in Hj. split; [lia|done].
Qed.

Lemma in_page_inj a q1 q2 : q1 mod PAGE_SIZE = 0 -> q2 mod PAGE_SIZE = 0 -> in_page a q1 -> in_page a q2 -> q1 = q2.
Proof.
  intros H1 H2 (j1 & Hj1 & ->) (j2 & Hj2 & He). unfold PAGE_SIZE in *.
  pose proof (Z.div_mod q1 4096). pose proof (Z.div_mod q2 4096). lia.
Qed.

Lemma free_at_dec P q : free_at P q \/ ~ free_at P q.
Proof.
  destruct (decide (q = pool_page P ((q - base_address P) / PAGE_SIZE) /\
    0 <= (q - base_address P) / PAGE_SIZE < managed P /\
    word_bit (used_bitmap P) ((q - base_address P) / PAGE_SIZE) = false)) as [(H1 & H2)|Hn].
  - left. by eexists.
  - right. intros (k & -> & Hk). apply Hn.
    assert ((pool_page P k - base_address P) / PAGE_SIZE = k) as ->; [|done].
    unfold pool_page. replace (base_address P + k * PAGE_SIZE - base_address P) with (k * PAGE_SIZE) by lia.
    by apply Z.div_mul.
Qed.

Lemma pool_page_aligned P k : pool_ok P -> pool_page P k mod PAGE_SIZE = 0.
Proof. intros HP. unfold pool_page. rewrite Z.mod_add by done. apply HP. Qed.

(** A page table is a tree. Its tables are labelled with the path of indices
    from the root, the last index first, so that no two tables share a page;
    [lab] may also label pages that are not reachable any more. *)
Notation labels := (gmap Z (list Z)).

(** A path strictly below another one. *)
Definition below (π ρ : list Z) : Prop := exists i, (i :: π) `suffix_of` ρ.

Lemma below_irrefl π : ~ below π π.
Proof. intros (i & κ & H). apply (f_equal length) in H. rewrite length_app in H. simpl in H. lia. Qed.

Lemma suffix_below (i : Z) (π ρ : list Z) : (i :: π) `suffix_of` ρ -> below π ρ.
Proof. intros H. by exists i. Qed.

Lemma below_suffix (i : Z) (π ρ : list Z) : below (i :: π) ρ -> (i :: π) `suffix_of` ρ.
Proof. intros (j & κ & ->). exists (κ ++ [j]). by rewrite <- app_assoc. Qed.

Lemma suffix_cons_inj (i j : Z) (π ρ : list Z) : (i :: π) `suffix_of` ρ -> (j :: π) `suffix_of` ρ -> i = j.
Proof.
  intros (κ1 & ->) (κ2 & He). replace (κ1 ++ i :: π) with ((κ1 ++ [i]) ++ π) in He by (by rewrite <- app_assoc).
  replace (κ2 ++ j :: π) with ((κ2 ++ [j]) ++ π) in He by (by rewrite <- app_assoc).
  apply app_inv_tail in He. apply app_inj_tail in He. tauto.
Qed.

Section Trees.
Context (page_offset va : Z).

Definition next_pt (pte : Z) : Z := paging_phys2hvirt page_offset (arm_get_l12_table pte).

Fixpoint tree (ps : list paging) (nb : Z) (lab : labels) (π : list Z) (s : pgstate) (pt : Z) : Prop :=
  match ps with
  | [] => False
  | p :: rest =>
      forall i, 0 <= i < 2 ^ nb ->
        let pte := word_at (pt + 8 * i) s in
        valid pte = true ->
        match rest with
        | [] => tagged pte = true
        | _ =>
            if tagged pte then lab !! next_pt pte = Some (i :: π) /\ tree rest 9 lab (i :: π) s (next_pt pte)
            else page_size p <> 0
        end
  end.

(** The entry is one that a table at path [π] may have at [i]. *)
Definition entry_ok (p : paging) (rest : list paging) (lab : labels) (i : Z) (π : list Z) (s : pgstate) (pte : Z) : Prop :=
  valid pte = true ->
  match rest with
  | [] => tagged pte = true
  | _ =>
      if tagged pte then lab !! next_pt pte = Some (i :: π) /\ tree rest 9 lab (i :: π) s (next_pt pte)
      else page_size p <> 0
  end.

Lemma tree_cons p rest nb lab π s pt :
  tree (p :: rest) nb lab π s pt <->
  forall i, 0 <= i < 2 ^ nb -> entry_ok p rest lab i π s (word_at (pt + 8 * i) s).
Proof. done. Qed.

(** What the page tables translate an address to: the address, the flags and
    the size of the page. *)
Fixpoint block_at (ps : list paging) (s : pgstate) (pt v : Z) : option (Z * Z * Z) :=
  match ps with
  | [] => None
  | p :: rest =>
      let pte := word_at (get_entry p pt v) s in
      let leaf := Some (leaf_addr (page_size p) pte v, leaf_flags pte, page_size p) in
      if negb (valid pte) then None
      else match rest with
           | [] => leaf
           | _ => if tagged pte then block_at rest s (next_pt pte) v else leaf
           end
  end.

Lemma tree_frame ps sh nb blocks : levels va ps sh nb blocks -> forall lab lab' π s s' pt,
  tree ps nb lab π s pt ->
  (forall i, 0 <= i < 2 ^ nb -> word_at (pt + 8 * i) s' = word_at (pt + 8 * i) s) ->
  (forall q ρ, lab !! q = Some ρ -> below π ρ ->
     lab' !! q = Some ρ /\ forall a, in_page a q -> word_at a s' = word_at a s) ->
  tree ps nb lab' π s' pt /\ forall v, 0 <= v < 2 ^ va -> block_at ps s' pt v = block_at ps s pt v.
Proof.
  induction 1 as [p nb Hp|p rest sh nb blocks Hp Hrest IH]; intros lab lab' π s s' pt Ht Hown Hsub.
  - split.
    + intros i Hi. rewrite Hown by done. apply (Ht i Hi).
    + intros v Hv. cbn [block_at]. rewrite (lv_entry _ _ _ _ _ _ Hp) by done.
      rewrite Hown by (apply Z.mod_pos_bound, Z.pow_pos_nonneg; [done|pose proof (lv_range _ _ _ _ _ _ Hp); lia]). done.
  - assert (Hne : rest <> []) by (by inversion Hrest). rewrite tree_cons in Ht.
    assert (Hsubtree : forall i, 0 <= i < 2 ^ nb -> valid (word_at (pt + 8 * i) s) = true ->
      tagged (word_at (pt + 8 * i) s) = true ->
      lab !! next_pt (word_at (pt + 8 * i) s) = Some (i :: π) /\
      tree rest 9 lab' (i :: π) s' (next_pt (word_at (pt + 8 * i) s)) /\
      forall v, 0 <= v < 2 ^ va -> block_at rest s' (next_pt (word_at (pt + 8 * i) s)) v =
        block_at rest s (next_pt (word_at (pt + 8 * i) s)) v).
    { intros i Hi Hv Htag. specialize (Ht i Hi Hv). destruct rest as [|p2 rest]; [done|]. rewrite Htag in Ht.
      destruct Ht as [Hl Ht]. split; [done|]. apply (IH lab lab' (i :: π) s s'); [done| |].
      - intros j Hj. apply (Hsub _ (i :: π) Hl); [by exists i|]. by exists j.
      - intros q ρ Hq Hb. apply (Hsub q ρ Hq). apply below_suffix in Hb. by exists i. }
    split.
    + apply tree_cons. intros i Hi. rewrite Hown by done. intros Hv. specialize (Ht i Hi Hv).
      specialize (Hsubtree i Hi Hv). destruct rest as [|p2 rest]; [done|].
      destruct (tagged _); [|done]. destruct (Hsubtree eq_refl) as (Hl & Htr & _). split; [|done].
      apply (Hsub _ (i :: π) Hl). by exists i.
    + intros v Hv. cbn [block_at]. rewrite (lv_entry _ _ _ _ _ _ Hp) by done.
      assert (Hi : 0 <= (v / 2 ^ sh) mod 2 ^ nb < 2 ^ nb)
        by (apply Z.mod_pos_bound, Z.pow_pos_nonneg; [done|pose proof (lv_range _ _ _ _ _ _ Hp); lia]).
      rewrite Hown by done. specialize (Hsubtree _ Hi).
      destruct (valid _); [|done]. cbn [negb]. destruct rest as [|p2 rest]; [done|].
      destruct (tagged _); [|done]. by apply Hsubtree.
Qed.

(** ** Invariant *)
Record pg_ok (lab : labels) (s : pgstate) : Prop := {
  go_pool : pool_ok (mem_pool s);
  go_scrub : Z.land (pool_flags (mem_pool s)) PAGE_SCRUB_ON_FREE <> 0;
  go_offset : 0 <= page_offset < 2 ^ 64 /\ page_offset mod PAGE_SIZE = 0 /\ page_offset <= base_address (mem_pool s) /\
    base_address (mem_pool s) + pages (mem_pool s) * PAGE_SIZE <= page_offset + 2 ^ 48;
  go_zero q a : free_at (mem_pool s) q -> in_page a q -> word_at a s = 0;
  go_lab q ρ : lab !! q = Some ρ -> used_at (mem_pool s) q;
}.

(** The pages of the table itself: not free, and at most labelled as such. *)
Definition home (π : list Z) (nb : Z) (lab : labels) (s : pgstate) (pt : Z) : Prop :=
  forall i q, 0 <= i < 2 ^ nb -> q mod PAGE_SIZE = 0 -> in_page (pt + 8 * i) q ->
    ~ free_at (mem_pool s) q /\ forall ρ, lab !! q = Some ρ -> ρ = π.

Lemma used_aligned P q : pool_ok P -> used_at P q -> q mod PAGE_SIZE = 0.
Proof. intros HP (k & -> & _). by apply pool_page_aligned. Qed.
Lemma free_aligned P q : pool_ok P -> free_at P q -> q mod PAGE_SIZE = 0.
Proof. intros HP (k & -> & _). by apply pool_page_aligned. Qed.

Lemma home_labelled π lab s q : pg_ok lab s -> lab !! q = Some π -> home π 9 lab s q.
Proof.
  intros Hok Hl i q' Hi Ha Hin. pose proof (go_lab _ _ Hok _ _ Hl) as Hu.
  assert (q' = q) as ->.
  { apply (in_page_inj (q + 8 * i)); [done|by eapply used_aligned; [apply Hok|]|done|]. by exists i. }
  split; [intros Hf; by apply (free_not_used _ _ Hf)|]. intros ρ Hρ. congruence.
Qed.

(** A change at most at the addresses [A] and in the tables with a label in
    [R]. *)
Record change (A : Z -> Prop) (R : list Z -> Prop) (lab : labels) (s : pgstate) (lab' : labels) (s' : pgstate) : Prop := {
  ch_lab q ρ : ~ R ρ -> lab' !! q = Some ρ <-> lab !! q = Some ρ;
  ch_new q ρ : lab' !! q = Some ρ -> lab !! q = None -> free_at (mem_pool s) q;
  ch_mem a q : in_page a q -> q mod PAGE_SIZE = 0 -> ~ free_at (mem_pool s) q ->
    (forall ρ, lab !! q = Some ρ -> ~ R ρ) -> ~ A a -> word_at a s' = word_at a s;
  ch_free q : ~ free_at (mem_pool s) q -> (forall ρ, lab !! q = Some ρ -> ~ R ρ) -> ~ free_at (mem_pool s') q;
  ch_pool : base_address (mem_pool s') = base_address (mem_pool s) /\ pages (mem_pool s') = pages (mem_pool s) /\
    pool_flags (mem_pool s') = pool_flags (mem_pool s);
}.

Lemma change_refl A R lab s : change A R lab s lab s.
Proof. split; try done. intros q ρ H1 H2. congruence. Qed.

Lemma change_mono (A A' : Z -> Prop) (R R' : list Z -> Prop) lab s lab' s' :
  (forall a, A a -> A' a) -> (forall ρ, R ρ -> R' ρ) -> change A R lab s lab' s' -> change A' R' lab s lab' s'.
Proof.
  intros HA HR [H1 H2 H3 H4 H5]. split; [| | | |done].
  - intros q ρ Hn. apply H1. auto.
  - done.
  - intros a q Hin Ha Hf Hl Hna. apply (H3 a q Hin Ha Hf); [|auto]. intros ρ Hρ Hr. by apply (Hl ρ Hρ), HR.
  - intros q Hf Hl. apply H4; [done|]. intros ρ Hρ Hr. by apply (Hl ρ Hρ), HR.
Qed.

Lemma change_new_label A R lab s lab' s' q ρ :
  change A R lab s lab' s' -> ~ free_at (mem_pool s) q -> (forall ρ, lab !! q = Some ρ -> ~ R ρ) ->
  lab' !! q = Some ρ -> lab !! q = Some ρ /\ ~ R ρ.
Proof.
  intros Hc Hf Hl Hq. destruct (lab !! q) as [ρ0|] eqn:Hq0.
  - specialize (Hl _ eq_refl). apply (ch_lab _ _ _ _ _ _ Hc q ρ0 Hl) in Hq0. rewrite Hq0 in Hq.
    injection Hq as <-. done.
  - destruct Hf. by eapply ch_new.
Qed.

Lemma change_trans A R lab s lab1 s1 lab2 s2 :
  change A R lab s lab1 s1 -> change A R lab1 s1 lab2 s2 -> change A R lab s lab2 s2.
Proof.
  intros H1 H2.
  assert (Hl1 : forall q, ~ free_at (mem_pool s) q -> (forall ρ, lab !! q = Some ρ -> ~ R ρ) ->
    forall ρ, lab1 !! q = Some ρ -> ~ R ρ) by (intros q Hf Hl ρ Hρ; exact (proj2 (change_new_label _ _ _ _ _ _ q ρ H1 Hf Hl Hρ))).
  split.
  - intros q ρ Hn. rewrite (ch_lab _ _ _ _ _ _ H2) by done. by apply H1.
  - intros q ρ Hq Hq0. destruct (lab1 !! q) as [ρ1|] eqn:Hq1; [by eapply ch_new|].
    pose proof (ch_new _ _ _ _ _ _ H2 q ρ Hq Hq1) as Hf1. destruct (free_at_dec (mem_pool s) q) as [|Hn]; [done|].
    exfalso. apply (ch_free _ _ _ _ _ _ H1 q Hn); [|done]. intros ρ' Hρ'. congruence.
  - intros a q Hin Ha Hf Hl Hna. rewrite (ch_mem _ _ _ _ _ _ H2 a q); [by eapply ch_mem|done|done| | |done].
    + by eapply ch_free.
    + by apply Hl1.
  - intros q Hf Hl. eapply ch_free; [exact H2|by eapply ch_free|by apply Hl1].
  - destruct (ch_pool _ _ _ _ _ _ H1) as (? & ? & ?), (ch_pool _ _ _ _ _ _ H2) as (? & ? & ?).
    split_and!; congruence.
Qed.

(** A change in the table [q] at path [i :: π] and below is one below [i]. *)
Lemma change_child π i q A lab s lab' s' :
  lab !! q = Some (i :: π) -> q mod PAGE_SIZE = 0 ->
  change (fun a => in_page a q) (below (i :: π)) lab s lab' s' ->
  change A (fun ρ => (i :: π) `suffix_of` ρ) lab s lab' s'.
Proof.
  intros Hq Hqa H. split; [| | | |apply H].
  - intros q' ρ Hn. apply H. intros Hb. by apply Hn, below_suffix.
  - intros q' ρ. apply H.
  - intros a q' Hin Ha Hf Hl _. eapply (ch_mem _ _ _ _ _ _ H); try done.
    + intros ρ Hρ Hb. by apply (Hl ρ Hρ), below_suffix.
    + intros Hin'. assert (q' = q) as -> by (by eapply in_page_inj). by apply (Hl _ Hq).
  - intros q' Hf Hl. apply (ch_free _ _ _ _ _ _ H); [done|]. intros ρ Hρ Hb. by apply (Hl ρ Hρ), below_suffix.
Qed.

Lemma home_change π nb pt A R lab s lab' s' :
  home π nb lab s pt -> (forall ρ, R ρ -> below π ρ) -> change A R lab s lab' s' -> home π nb lab' s' pt.
Proof.
  intros Hh HR Hc i q Hi Ha Hin. destruct (Hh i q Hi Ha Hin) as [Hf Hl].
  assert (HnR : forall ρ, lab !! q = Some ρ -> ~ R ρ).
  { intros ρ Hρ Hr. rewrite (Hl ρ Hρ) in Hr. by apply (below_irrefl π), HR. }
  split; [by eapply ch_free|]. intros ρ Hρ. apply Hl. exact (proj1 (change_new_label _ _ _ _ _ _ q ρ Hc Hf HnR Hρ)).
Qed.

(** The page of an entry. *)
Lemma entry_page pt i : pt mod PAGE_SIZE = 0 -> exists q, q mod PAGE_SIZE = 0 /\ in_page (pt + 8 * i) q.
Proof.
  intros Hpt. exists ((pt + 8 * i) - (pt + 8 * i) mod PAGE_SIZE).
  split; [by rewrite Zminus_mod_idemp_r, Z.sub_diag|].
  exists ((pt + 8 * i) mod PAGE_SIZE / 8). unfold PAGE_SIZE in *.
  assert ((pt + 8 * i) mod 4096 mod 8 = 0) as Hm8.
  { rewrite <- (Znumtheory.Zmod_div_mod 8 4096); [|done|done|by exists 512].
    pose proof (Z.div_mod pt 4096 ltac:(done)) as Hpd. rewrite Hpt in Hpd.
    replace (pt + 8 * i) with ((512 * (pt / 4096) + i) * 8) by lia. by apply Z.mod_mul. }
  pose proof (Z.div_mod ((pt + 8 * i) mod 4096) 8). pose proof (Z.mod_pos_bound (pt + 8 * i) 4096).
  split; [|lia]. split; [apply Z.div_pos; lia|apply Z.div_lt_upper_bound; lia].
Qed.

(** Changes elsewhere below the table keep an entry. *)
Lemma entry_keeps π nb pt i A R lab s lab' s' :
  home π nb lab s pt -> pt mod PAGE_SIZE = 0 -> 0 <= i < 2 ^ nb -> (forall ρ, R ρ -> below π ρ) ->
  change A R lab s lab' s' -> ~ A (pt + 8 * i) -> word_at (pt + 8 * i) s' = word_at (pt + 8 * i) s.
Proof.
  intros Hh Hpt Hi HR Hc HA. destruct (entry_page pt i Hpt) as (q & Hq & Hin).
  destruct (Hh i q Hi Hq Hin) as [Hf Hl]. apply (ch_mem _ _ _ _ _ _ Hc _ q Hin Hq Hf); [|done].
  intros ρ Hρ Hr. rewrite (Hl ρ Hρ) in Hr. by apply (below_irrefl π), HR.
Qed.

(** A change below one entry keeps the rest of the table. *)
Lemma tree_graft p rest sh nb blocks π pt i0 lab s lab' s' :
  levels va (p :: rest) sh nb blocks -> 0 <= i0 < 2 ^ nb ->
  pg_ok lab s -> home π nb lab s pt -> tree (p :: rest) nb lab π s pt ->
  change (fun a => a = pt + 8 * i0) (fun ρ => (i0 :: π) `suffix_of` ρ) lab s lab' s' ->
  pt mod PAGE_SIZE = 0 ->
  entry_ok p rest lab' i0 π s' (word_at (pt + 8 * i0) s') ->
  tree (p :: rest) nb lab' π s' pt /\
  forall v, 0 <= v < 2 ^ va -> (v / 2 ^ sh) mod 2 ^ nb <> i0 -> block_at (p :: rest) s' pt v = block_at (p :: rest) s pt v.
Proof.
  intros Hlv Hi0 Hok Hhome Ht Hc Hpt Hentry. rewrite tree_cons in Ht.
  assert (Hp : exists last, level_ok va p sh nb blocks last) by (inversion Hlv; eauto).
  destruct Hp as [last Hp].
  assert (Hentries : forall i, 0 <= i < 2 ^ nb -> i <> i0 -> word_at (pt + 8 * i) s' = word_at (pt + 8 * i) s).
  { intros i Hi Hne. eapply (entry_keeps π nb pt); [done|done|done| |exact Hc|cbv beta; lia]. intros ρ. apply suffix_below. }
  assert (Hother : forall i, 0 <= i < 2 ^ nb -> i <> i0 -> valid (word_at (pt + 8 * i) s) = true ->
    tagged (word_at (pt + 8 * i) s) = true -> forall p2 rest2, rest = p2 :: rest2 ->
    lab' !! next_pt (word_at (pt + 8 * i) s) = Some (i :: π) /\
    tree rest 9 lab' (i :: π) s' (next_pt (word_at (pt + 8 * i) s)) /\
    forall v, 0 <= v < 2 ^ va -> block_at rest s' (next_pt (word_at (pt + 8 * i) s)) v =
      block_at rest s (next_pt (word_at (pt + 8 * i) s)) v).
  { intros i Hi Hne Hv Htag p2 rest2 Hr. specialize (Ht i Hi Hv). rewrite Hr, Htag in Ht. destruct Ht as [Hl Ht].
    assert (Hnot : forall ρ, (i :: π) `suffix_of` ρ -> ~ (i0 :: π) `suffix_of` ρ).
    { intros ρ H1 H2. apply Hne. by eapply suffix_cons_inj. }
    split; [apply (ch_lab _ _ _ _ _ _ Hc); [by apply Hnot|done]|].
    assert (Hlr : levels va rest (sh - 9) 9 true) by (inversion Hlv; subst; [done|done]).
    rewrite Hr in *. refine (tree_frame _ _ _ _ Hlr lab lab' (i :: π) s s' _ Ht _ _).
    - intros j Hj. pose proof (go_lab _ _ Hok _ _ Hl) as Hu.
      eapply (ch_mem _ _ _ _ _ _ Hc); [by exists j|by eapply used_aligned; [apply Hok|]| | |].
      + intros Hf. by apply (free_not_used _ _ Hf).
      + intros ρ Hρ. rewrite Hl in Hρ. injection Hρ as <-. by apply Hnot.
      + intros Ha. destruct (Hhome i0 (next_pt (word_at (pt + 8 * i) s)) Hi0) as [_ Hlπ];
          [by eapply used_aligned; [apply Hok|]|rewrite <- Ha; by exists j|].
        specialize (Hlπ _ Hl). apply (f_equal length) in Hlπ. simpl in Hlπ. lia.
    - intros q ρ Hq Hb. apply below_suffix in Hb as Hs. pose proof (go_lab _ _ Hok _ _ Hq) as Hu.
      assert (Hqa : q mod PAGE_SIZE = 0) by (by eapply used_aligned; [apply Hok|]).
      split; [apply (ch_lab _ _ _ _ _ _ Hc); [by apply Hnot|done]|]. intros a Hin.
      apply (ch_mem _ _ _ _ _ _ Hc a q Hin Hqa).
      + intros Hf. by apply (free_not_used _ _ Hf).
      + intros ρ' Hρ'. rewrite Hq in Hρ'. injection Hρ' as <-. by apply Hnot.
      + intros ->. destruct (Hhome i0 q Hi0 Hqa Hin) as [_ Hlπ]. specialize (Hlπ _ Hq). subst ρ.
        by apply (below_irrefl π), (suffix_below i). }
  split.
  - apply tree_cons. intros i Hi. destruct (decide (i = i0)) as [->|Hne]; [done|].
    rewrite Hentries by done. intros Hv. specialize (Ht i Hi Hv). specialize (Hother i Hi Hne Hv).
    destruct rest as [|p2 rest2]; [done|]. destruct (tagged _); [|done].
    destruct (Hother eq_refl p2 rest2 eq_refl) as (? & ? & _). done.
  - intros v Hv Hne. cbn [block_at]. rewrite (lv_entry _ _ _ _ _ _ Hp) by done.
    assert (Hi : 0 <= (v / 2 ^ sh) mod 2 ^ nb < 2 ^ nb)
      by (apply Z.mod_pos_bound, Z.pow_pos_nonneg; [done|pose proof (lv_range _ _ _ _ _ _ Hp); lia]).
    rewrite Hentries by done. specialize (Hother _ Hi Hne). destruct (valid _); [|done]. cbn [negb].
    destruct rest as [|p2 rest2]; [done|]. destruct (tagged _); [|done]. by eapply Hother.
Qed.

End Trees.
