(* ===== verification/PageMap.v ===== *)
(** * Mapping and unmapping in page tables

    The steps of paging_create, paging_destroy and split_hugepage on page
    table trees, and the theorems on whole ranges. *)

From Stdlib Require Import ZArith Lia.
From stdpp Require Import base tactics list list_numbers option gmap.
From S2P Require Import Prelude Bitops StateMonad Mmio PagePool Paging PageTree.

Section Steps.
Context (page_offset va : Z).
Notation next_pt := (next_pt page_offset).
Notation tree := (tree page_offset).
Notation entry_ok := (entry_ok page_offset).
Notation block_at := (block_at page_offset).
Notation pg_ok := (pg_ok page_offset).
Notation labels := (gmap Z (list Z)).

(** ** Single operations *)
Definition cleaned_at (co : paging_coherent) (pte : Z) (s : pgstate) : pgstate :=
  match co with
  | PAGING_COHERENT => mk_pgstate (words s) (mem_pool s) (remap_pool s) (pte :: cleaned s) (tlb_flushed s)
  | PAGING_NON_COHERENT => s
  end.
Definition set_entry (co : paging_coherent) (pte v : Z) (s : pgstate) : pgstate :=
  cleaned_at co pte (set_words (<[pte := v]> (words s)) s).

Lemma set_entry_run {A} co pte v (k : PG A) s :
  (_ ← store pte v; _ ← flush_pt_entry pte co; k) s = k (set_entry co pte v s).
Proof. erewrite bind_run by reflexivity. cbv beta. by destruct co; erewrite bind_run by reflexivity. Qed.

Lemma set_entry_word co pte v a s : word_at a (set_entry co pte v s) = if a =? pte then v else word_at a s.
Proof. rewrite <- word_at_store. by destruct co. Qed.

Lemma set_entry_pool co pte v s : mem_pool (set_entry co pte v s) = mem_pool s.
Proof. by destruct co. Qed.

Lemma read_run {A} a (k : Z -> PG A) s : (v ← read a; k v) s = k (word_at a s) s.
Proof. by erewrite bind_run by reflexivity. Qed.

Lemma lift_run {A B} (o : option A) x (k : A -> PG B) s : o = Some x -> (y ← lift o; k y) s = k x s.
Proof. intros ->. by erewrite bind_run by reflexivity. Qed.

(** States with the same words and pool. *)
Definition same_mem (s s' : pgstate) : Prop := (forall a, word_at a s' = word_at a s) /\ mem_pool s' = mem_pool s.

Lemma pg_ok_same lab s s' : same_mem s s' -> pg_ok lab s -> pg_ok lab s'.
Proof. intros [Hw Hp] [H1 H2 H3 H4 H5]. split; rewrite ?Hp; try done. intros q a Hf Hin. rewrite Hw. eauto. Qed.

(** A store into an entry of a table. *)
Lemma set_entry_ok lab s s' π nb pt i x R :
  pg_ok lab s -> home π nb lab s pt -> pt mod PAGE_SIZE = 0 -> 0 <= i < 2 ^ nb ->
  (forall a, word_at a s' = if a =? pt + 8 * i then x else word_at a s) -> mem_pool s' = mem_pool s ->
  pg_ok lab s' /\ change (fun a => a = pt + 8 * i) R lab s lab s'.
Proof.
  intros [H1 H2 H3 H4 H5] Hh Hpt Hi Hw Hp. split.
  - split; rewrite ?Hp; try done. intros q a Hf Hin. rewrite Hw.
    destruct (Z.eqb_spec a (pt + 8 * i)) as [->|]; [|by apply (H4 q)].
    destruct (Hh i q Hi (free_aligned _ _ H1 Hf) Hin) as [Hn _]. by destruct Hn.
  - split; rewrite ?Hp; try done.
    + intros q ρ Hl Hn. congruence.
    + intros a q _ _ _ _ Ha. rewrite Hw. destruct (Z.eqb_spec a (pt + 8 * i)); [done|done].
Qed.

Lemma alloc_run {A} lab s (k : Z -> PG A) : pg_ok lab s ->
  ((mem_page_alloc 1 ≫= k) s = k 0 s) \/
  exists q s1, (mem_page_alloc 1 ≫= k) s = k q s1 /\ q <> 0 /\ free_at (mem_pool s) q /\
    lab !! q = None /\ (forall a, word_at a s1 = word_at a s) /\ q mod PAGE_SIZE = 0 /\
    (forall a, in_page a q -> word_at a s = 0) /\
    forall ρ, pg_ok (<[q := ρ]> lab) s1 /\
      forall A (R : list Z -> Prop), R ρ -> change A R lab s (<[q := ρ]> lab) s1.
Proof.
  intros Hok. unfold mem_page_alloc. rewrite <- bind_assoc_run. erewrite bind_run by reflexivity.
  destruct (alloc_one (mem_pool s) (go_pool _ _ _ Hok))
    as [[Ha _]|(q & P & Ha & Hn & Hf & HP & Hb & Hpg & Hfl & Hfree & Hused)].
  - left. unfold id. rewrite <- bind_assoc_run. erewrite bind_run by (unfold lift, from_option; rewrite Ha; reflexivity).
    cbv beta iota. rewrite <- bind_assoc_run. erewrite bind_run by reflexivity.
    erewrite bind_run by reflexivity. f_equal. by destruct s.
  - right. exists q, (set_mem_pool P s). split.
    { unfold id. rewrite <- bind_assoc_run. erewrite bind_run by (unfold lift, from_option; rewrite Ha; reflexivity).
      cbv beta iota. rewrite <- bind_assoc_run. erewrite bind_run by reflexivity. by erewrite bind_run by reflexivity. }
    destruct Hok as [H1 H2 H3 H4 H5].
    assert (Hlq : lab !! q = None).
    { destruct (lab !! q) as [ρ|] eqn:Hl; [|done]. exfalso. apply (free_not_used _ _ Hf). by apply (H5 q ρ). }
    split; [done|]. split; [done|]. split; [done|]. split; [done|]. split; [exact (free_aligned _ _ H1 Hf)|].
    split; [intros a; by apply H4|]. intros ρ. split.
    + split; cbn [set_mem_pool mem_pool]; rewrite ?Hb, ?Hpg, ?Hfl; try done.
      * intros q' a Hq'. apply Hfree in Hq' as [Hq' _]. by apply H4.
      * intros q' ρ' Hl. apply Hused. apply lookup_insert_Some in Hl as [[<- _]|[_ Hl]]; [by right|left; by eapply H5].
    + intros B R Hr. split; cbn [set_mem_pool mem_pool]; try done.
      * intros q' ρ' Hn'. rewrite lookup_insert_Some. split; [intros [[_ <-]|[_ ?]]; done|].
        intros Hl. right. split; [|done]. intros <-. congruence.
      * intros q' ρ' Hl Hl0. apply lookup_insert_Some in Hl as [[<- _]|[_ Hl]]; [done|congruence].
      * intros q' Hnf _ Hq'. apply Hfree in Hq' as [Hq' _]. done.
Qed.

Lemma free_run lab s q : pg_ok lab s -> is_Some (lab !! q) ->
  exists s', (forall A (k : PG A), (_ ← mem_page_free q 1; k) s = k s') /\ pg_ok (delete q lab) s' /\
    (forall a, ~ in_page a q -> word_at a s' = word_at a s) /\
    forall A (R : list Z -> Prop), (forall ρ, lab !! q = Some ρ -> R ρ) -> change A R lab s (delete q lab) s'.
Proof.
  intros Hok [ρ Hq]. destruct Hok as [H1 H2 H3 H4 H5]. pose proof (H5 q ρ Hq) as Hu.
  destruct (free_one (mem_pool s) q H1 H2 Hu) as (P & Hfr & HP & Hb & Hpg & Hfl & Hfree & Hused).
  exists (set_words (scrub_page (words s) q) (set_mem_pool P s)). split.
  { intros A k. unfold mem_page_free. rewrite <- bind_assoc_run. erewrite bind_run by reflexivity. unfold id.
    rewrite <- bind_assoc_run. erewrite bind_run by (unfold lift, from_option; rewrite Hfr; reflexivity).
    cbv beta iota. rewrite <- bind_assoc_run. erewrite bind_run by reflexivity. by erewrite bind_run by reflexivity. }
  assert (Hw : forall a, ~ in_page a q -> word_at a (set_words (scrub_page (words s) q) (set_mem_pool P s)) = word_at a s).
  { intros a Ha. unfold word_at. cbn. by rewrite (proj2 (scrub_lookup (words s) q a) Ha). }
  assert (Hz : forall a, in_page a q -> word_at a (set_words (scrub_page (words s) q) (set_mem_pool P s)) = 0).
  { intros a Ha. unfold word_at. cbn. by rewrite (proj1 (scrub_lookup (words s) q a) Ha). }
  assert (Hqa : q mod PAGE_SIZE = 0) by (exact (used_aligned _ _ H1 Hu)).
  split; [|split; [exact Hw|]].
  - split; cbn [set_words set_mem_pool mem_pool]; rewrite ?Hb, ?Hpg, ?Hfl; try done.
    + intros q' a Hq' Hin. destruct (decide (q' = q)) as [->|Hne]; [by apply Hz|].
      apply Hfree in Hq' as [Hq'|]; [|done]. rewrite Hw; [by apply (H4 q')|].
      intros Hin'. apply Hne. eapply in_page_inj; [|done|done|done]. exact (free_aligned _ _ H1 Hq').
    + intros q' ρ' Hl. apply lookup_delete_Some in Hl as [Hne Hl]. apply Hused. split; [by eapply H5|done].
  - intros A R HR. split; cbn [set_words set_mem_pool mem_pool]; try done.
    + intros q' ρ' Hn. rewrite lookup_delete_Some. split; [tauto|]. intros Hl. split; [|done].
      intros <-. by apply Hn, HR.
    + intros q' ρ' Hl Hl0. apply lookup_delete_Some in Hl as [_ Hl]. congruence.
    + intros a q' Hin Ha Hnf Hl _. apply Hw. intros Hin'. assert (q' = q) as -> by (by eapply in_page_inj).
      by apply (Hl ρ Hq), HR.
    + intros q' Hnf Hl Hq'. apply Hfree in Hq' as [|Hq']; [done|]. subst q'. by apply (Hl ρ Hq), HR.
Qed.

(** The entry that points to a table of the pool. *)
Lemma next_pt_table lab s q : pg_ok lab s -> used_at (mem_pool s) q \/ free_at (mem_pool s) q ->
  let pte := arm_set_l12_table (paging_hvirt2phys page_offset q) in
  valid pte = true /\ tagged pte = true /\ next_pt pte = q.
Proof.
  intros [HP _ (Ho1 & Ho2 & Ho3 & Ho4) _ _] Hq pte.
  assert (exists k, q = pool_page (mem_pool s) k /\ 0 <= k < pages (mem_pool s)) as (k & Hk & Hr).
  { pose proof (managed_pages _ HP). destruct Hq as [(k & -> & ? & _)|(k & -> & ? & _)]; exists k; (split; [done|lia]). }
  pose proof (pool_page_aligned (mem_pool s) k HP) as Hqa. pose proof (po_end _ HP) as He. pose proof (po_base _ HP) as Hbs.
  unfold pool_page, PAGE_SIZE in *.
  assert (Hph : paging_hvirt2phys page_offset q = q - page_offset).
  { unfold paging_hvirt2phys. rewrite u64_small; lia. }
  assert (Hal : (q - page_offset) mod 2 ^ 12 = 0).
  { change (2 ^ 12) with 4096. rewrite <- Zminus_mod_idemp_r, Ho2, Z.sub_0_r. by subst q. }
  unfold pte. rewrite Hph. unfold arm_set_l12_table, PTE_TABLE_ADDR_MASK, PTE_TABLE_FLAGS.
  rewrite (land_address_field _ 12), (lor_add _ 3 12) by (done || lia).
  destruct (pte_value_add (q - page_offset) 3) as [_ Ha _ Hv Ht]; [lia|done|done|].
  split; [by rewrite Hv|]. split; [by rewrite Ht|].
  unfold PageTree.next_pt, paging_phys2hvirt, arm_get_l12_table. unfold pte_addr in Ha. rewrite Ha.
  rewrite u64_small; lia.
Qed.

(** A table of zeros is a tree without mappings. *)
Lemma empty_tree ps sh nb blocks lab π s q : levels va ps sh nb blocks ->
  (forall i, 0 <= i < 2 ^ nb -> word_at (q + 8 * i) s = 0) ->
  tree ps nb lab π s q /\ forall v, 0 <= v < 2 ^ va -> block_at ps s q v = None.
Proof.
  intros Hl Hz. destruct ps as [|p rest]; [by inversion Hl|]. split.
  - apply tree_cons. intros i Hi. rewrite Hz by done. done.
  - intros v Hv. cbn [PageTree.block_at].
    assert (exists last, level_ok va p sh nb blocks last) as [last Hp] by (inversion Hl; eauto).
    rewrite (lv_entry _ _ _ _ _ _ Hp) by done. rewrite Hz; [done|].
    apply Z.mod_pos_bound, Z.pow_pos_nonneg; [done|pose proof (lv_range _ _ _ _ _ _ Hp); lia].
Qed.


(** ** Splitting a large page *)
Lemma page_align_mult x : 0 <= x <= 2 ^ 63 -> x mod PAGE_SIZE = 0 -> PAGE_ALIGN x = x.
Proof.
  intros Hx Hm. unfold PAGE_ALIGN. unfold PAGE_SIZE in *. rewrite u64_small, land_page_mask by lia.
  unfold PAGE_SIZE. pose proof (Z.div_mod x 4096). rewrite Hm in *.
  rewrite <- (Z.mod_unique (x + 4096 - 1) 4096 (x / 4096) 4095); lia.
Qed.

Lemma pow_sh sh : 12 <= sh <= 39 -> 2 ^ sh = 2 ^ (sh - 12) * PAGE_SIZE /\ 1 <= 2 ^ (sh - 12) /\ PAGE_SIZE <= 2 ^ sh <= 2 ^ 39.
Proof.
  intros Hs. assert (2 ^ sh = 2 ^ (sh - 12) * PAGE_SIZE) as He.
  { change PAGE_SIZE with (2 ^ 12). rewrite <- Z.pow_add_r by lia. f_equal. lia. }
  split; [done|]. split; [pose proof (Z.pow_pos_nonneg 2 (sh - 12)); lia|].
  split; [change PAGE_SIZE with (2 ^ 12)|]; apply Z.pow_le_mono_r; lia.
Qed.

Lemma pow_mod_page sh : 12 <= sh <= 39 -> 2 ^ sh mod PAGE_SIZE = 0.
Proof. intros Hs. destruct (pow_sh sh Hs) as [-> _]. by apply Z.mod_mul. Qed.

Lemma mult_mod_page x sh : 12 <= sh <= 39 -> x mod 2 ^ sh = 0 -> x mod PAGE_SIZE = 0.
Proof.
  intros Hs Hx. destruct (pow_sh sh Hs) as (He & ? & ?). pose proof (Z.div_mod x (2 ^ sh)) as Hd.
  rewrite Hx in Hd. rewrite Hd, He by lia. unfold PAGE_SIZE.
  replace (2 ^ (sh - 12) * 4096 * (x / (2 ^ (sh - 12) * 4096)) + 0)
    with (2 ^ (sh - 12) * (x / (2 ^ (sh - 12) * 4096)) * 4096) by lia.
  by apply Z.mod_mul.
Qed.

Lemma usable_size_spec p phys virt size sh : page_size p = 2 ^ sh -> 0 <= sh ->
  usable_size p phys virt size = true <-> 2 ^ sh <= size /\ phys mod 2 ^ sh = 0 /\ virt mod 2 ^ sh = 0.
Proof.
  intros Hp Hs. unfold usable_size. rewrite Hp. pose proof (Z.pow_pos_nonneg 2 sh ltac:(done) Hs).
  rewrite !andb_true_iff, Z.gtb_ltb, Z.ltb_lt, Z.leb_le, Z.eqb_eq.
  replace (2 ^ sh - 1) with (Z.ones sh) by (rewrite Z.ones_equiv; lia).
  rewrite Z.land_lor_distr_l, !Z.land_ones, Z.lor_eq_0_iff by done. tauto.
Qed.

(** The index of an address at a level. *)
Definition index (sh nb v : Z) : Z := (v / 2 ^ sh) mod 2 ^ nb.

Lemma index_range sh nb v : 0 <= nb -> 0 <= index sh nb v < 2 ^ nb.
Proof. intros. apply Z.mod_pos_bound, Z.pow_pos_nonneg; lia. Qed.

(** Unmapping a page that is not mapped only writes its entry. *)
Lemma destroy_invalid create p rest sh nb q virt hv co s :
  levels va (p :: rest) sh nb true -> 0 <= virt < 2 ^ va ->
  valid (word_at (q + 8 * index sh nb virt) s) = false ->
  destroy_body page_offset create (mk_paging_structures (p :: rest) q hv) virt (2 ^ sh) co s =
    flush_page_tlbs hv virt (set_entry co (q + 8 * index sh nb virt) 0 s) ≫= (fun '(_, s') => Some (0, s')).
Proof.
  intros Hl Hv Hinv. pose proof (levels_range _ _ _ _ _ Hl) as (Hs & Hnb & Hva & _).
  assert (exists last, level_ok va p sh nb true last) as [last Hp] by (inversion Hl; eauto).
  destruct (pow_sh sh Hs) as (He & He1 & He2).
  unfold destroy_body. rewrite page_align_mult by (first [lia|by apply pow_mod_page]).
  rewrite He at 1. rewrite Z.div_mul by done. destruct (Z.to_nat (2 ^ (sh - 12))) as [|fuel] eqn:Hf; [lia|].
  cbn [destroy_loop root_paging root_table is_hv].
  rewrite (proj2 (Z.leb_gt (2 ^ sh) 0)) by lia. erewrite bind_run.
  2: { cbn [destroy_walk]. rewrite (lv_entry _ _ _ _ _ _ Hp) by done. fold (index sh nb virt).
       rewrite read_run, entry_valid_bit, Hinv. reflexivity. }
  cbv beta iota. cbn [clear_up]. rewrite (lv_entry _ _ _ _ _ _ Hp) by done. fold (index sh nb virt).
  rewrite (lv_size _ _ _ _ _ _ Hp). rewrite (proj2 (Z.eqb_neq (2 ^ sh) 0)) by lia. cbn [negb].
  erewrite bind_run by (rewrite set_entry_run; reflexivity).
  rewrite Z.gtb_ltb, Z.ltb_irrefl, Z.sub_diag.
  unfold mbind at 1, st_bind. destruct (flush_page_tlbs hv virt _) as [[u s']|]; [|done].
  by destruct fuel.
Qed.

Section Fill.
Context (create : paging_structures -> Z -> Z -> Z -> Z -> paging_coherent -> PG Z).
Context (p : paging) (rest : list paging) (sh : Z) (last : bool) (q phys virt flags : Z) (co : paging_coherent).
Context (Hl : levels va (p :: rest) sh 9 true) (Hp : level_ok va p sh 9 true last) (Hsh : sh + 9 <= 39).
Context (Hphys : 0 <= phys /\ phys + 2 ^ (sh + 9) <= 2 ^ 48 /\ phys mod 2 ^ (sh + 9) = 0).
Context (Hvirt : 0 <= virt /\ virt + 2 ^ (sh + 9) <= 2 ^ va /\ virt mod 2 ^ (sh + 9) = 0).
Context (Hflags : flags_ok flags).

Definition filled (k : Z) : Z := phys + k * 2 ^ sh + (if last then Z.lor flags 2 else flags).

Lemma fill_size : 2 ^ (sh + 9) = 512 * 2 ^ sh.
Proof. rewrite Z.pow_add_r by (pose proof (levels_range _ _ _ _ _ Hl); lia). lia. Qed.

Lemma fill_mod x k : x mod 2 ^ (sh + 9) = 0 -> (x + k * 2 ^ sh) mod 2 ^ sh = 0.
Proof.
  intros Hx. pose proof (levels_range _ _ _ _ _ Hl) as (Hs & _). pose proof fill_size as Hf.
  pose proof (Z.pow_pos_nonneg 2 sh ltac:(done) ltac:(lia)). pose proof (Z.div_mod x (2 ^ (sh + 9))) as Hd.
  rewrite Hx in Hd. rewrite Hd, Hf by lia.
  replace (512 * 2 ^ sh * (x / (512 * 2 ^ sh)) + 0 + k * 2 ^ sh)
    with ((512 * (x / (512 * 2 ^ sh)) + k) * 2 ^ sh) by lia. apply Z.mod_mul. lia.
Qed.

Lemma fill_index k : 0 <= k < 512 -> index sh 9 (virt + k * 2 ^ sh) = k.
Proof.
  intros Hk. unfold index. pose proof (levels_range _ _ _ _ _ Hl) as (Hs & _). pose proof fill_size as Hf.
  pose proof (Z.pow_pos_nonneg 2 sh ltac:(done) ltac:(lia)).
  rewrite Z.div_add by lia. destruct Hvirt as (_ & _ & Hv).
  pose proof (Z.div_mod virt (2 ^ (sh + 9))) as Hd. rewrite Hv in Hd. rewrite Hd, Hf by lia.
  replace (512 * 2 ^ sh * (virt / (512 * 2 ^ sh)) + 0) with (512 * (virt / (512 * 2 ^ sh)) * 2 ^ sh) by lia.
  rewrite Z.div_mul by lia. change (2 ^ 9) with 512.
  rewrite Z.add_comm, Z.mul_comm, Z.mod_add by done. by apply Z.mod_small.
Qed.

Lemma fill_loop_run r : forall k fuel s, k + Z.of_nat r = 512 -> 0 <= k -> (r <= fuel)%nat ->
  (forall i, k <= i < 512 -> valid (word_at (q + 8 * i) s) = false) ->
  exists s', create_loop page_offset create fuel (mk_paging_structures (p :: rest) q false) (phys + k * 2 ^ sh)
      (Z.of_nat r * 2 ^ sh) (virt + k * 2 ^ sh) flags co s = Some (0, s') /\
    mem_pool s' = mem_pool s /\ (forall i, k <= i < 512 -> word_at (q + 8 * i) s' = filled i) /\
    forall a, (forall i, k <= i < 512 -> a <> q + 8 * i) -> word_at a s' = word_at a s.
Proof.
  pose proof (levels_range _ _ _ _ _ Hl) as (Hs & _ & Hva & _). pose proof fill_size as Hsz.
  destruct (pow_sh sh Hs) as (He & He1 & He2).
  induction r as [|r IH]; intros k fuel s Hk Hk0 Hfuel Hinv.
  { exists s. destruct fuel; (split; [done|]); (split; [done|]); (split; [intros; lia|done]). }
  destruct fuel as [|fuel]; [lia|]. cbn [create_loop].
  rewrite (proj2 (Z.leb_gt _ 0)) by nia. cbn [root_paging root_table is_hv].
  assert (Hk2 : (k + 1) * 2 ^ sh <= 512 * 2 ^ sh) by (apply Z.mul_le_mono_nonneg_r; lia).
  assert (Hk3 : 0 <= k * 2 ^ sh) by (apply Z.mul_nonneg_nonneg; lia).
  assert (Hva2 : 2 ^ va <= 2 ^ 48) by (apply Z.pow_le_mono_r; lia).
  assert (Hvr : 0 <= virt + k * 2 ^ sh < 2 ^ va) by lia.
  assert (Hidx : get_entry p q (virt + k * 2 ^ sh) = q + 8 * k).
  { rewrite (lv_entry _ _ _ _ _ _ Hp) by done. fold (index sh 9 (virt + k * 2 ^ sh)). by rewrite fill_index by lia. }
  destruct (lv_set _ _ _ _ _ _ Hp eq_refl) as (set & Hset & Hval).
  assert (Hpte : set (phys + k * 2 ^ sh) flags = filled k).
  { apply Hval; [lia|apply fill_mod, Hphys|done]. }
  assert (Hpre : (if 2 ^ sh >? PAGE_SIZE
      then destroy_body page_offset create (mk_paging_structures (p :: rest) q false) (virt + k * 2 ^ sh) (2 ^ sh) co
      else mret 0) s = Some (0, if 2 ^ sh >? PAGE_SIZE then set_entry co (q + 8 * k) 0 s else s)).
  { destruct (2 ^ sh >? PAGE_SIZE); [|done].
    rewrite (destroy_invalid _ _ _ sh 9) by (rewrite ?fill_index by lia; try done; apply Hinv; lia).
    by rewrite fill_index by lia. }
  erewrite bind_run.
  2: { cbn [create_walk]. rewrite Hidx, (proj2 (usable_size_spec p _ _ _ sh (lv_size _ _ _ _ _ _ Hp) ltac:(lia))).
       2: { split; [lia|]. split; apply fill_mod; [apply Hphys|apply Hvirt]. }
       rewrite (lv_size _ _ _ _ _ _ Hp), Hset.
       erewrite bind_run by exact Hpre.
       rewrite (lift_run _ set) by done. rewrite set_entry_run, Hpte. reflexivity. }
  cbv beta iota. erewrite bind_run by reflexivity.
  rewrite !u64_small by lia.
  replace (phys + k * 2 ^ sh + 2 ^ sh) with (phys + (k + 1) * 2 ^ sh) by lia.
  replace (virt + k * 2 ^ sh + 2 ^ sh) with (virt + (k + 1) * 2 ^ sh) by lia.
  replace (Z.of_nat (S r) * 2 ^ sh - 2 ^ sh) with (Z.of_nat r * 2 ^ sh) by lia.
  match goal with |- context [create_loop _ _ fuel _ _ _ _ _ _ ?st] => set (s1 := st) end.
  assert (Hw : forall a, word_at a s1 = if a =? q + 8 * k then filled k else word_at a s).
  { intros a. unfold s1. rewrite set_entry_word. destruct (Z.eqb_spec a (q + 8 * k)) as [->|Hne]; [done|].
    destruct (2 ^ sh >? PAGE_SIZE); [|done]. rewrite set_entry_word. by rewrite (proj2 (Z.eqb_neq _ _) Hne). }
  assert (Hmp : mem_pool s1 = mem_pool s).
  { unfold s1. rewrite set_entry_pool. destruct (2 ^ sh >? PAGE_SIZE); [apply set_entry_pool|done]. }
  destruct (IH (k + 1) fuel s1) as (s' & -> & Hpool & Hfill & Hother); [lia|lia|lia| |].
  { intros i Hi. rewrite Hw, (proj2 (Z.eqb_neq _ _)) by lia. apply Hinv. lia. }
  exists s'. split; [done|]. split; [congruence|]. split.
  - intros i Hi. destruct (decide (i = k)) as [->|]; [|apply Hfill; lia].
    rewrite Hother by lia. by rewrite Hw, Z.eqb_refl.
  - intros a Ha. rewrite Hother by (intros i Hi; apply Ha; lia). rewrite Hw.
    by rewrite (proj2 (Z.eqb_neq _ _)) by (apply Ha; lia).
Qed.

Lemma fill_table_run s : (forall i, 0 <= i < 512 -> valid (word_at (q + 8 * i) s) = false) ->
  exists s', create_body page_offset create (mk_paging_structures (p :: rest) q false) phys (2 ^ (sh + 9)) virt flags co s =
      Some (0, s') /\
    mem_pool s' = mem_pool s /\ (forall i, 0 <= i < 512 -> word_at (q + 8 * i) s' = filled i) /\
    forall a, ~ in_page a q -> word_at a s' = word_at a s.
Proof.
  intros Hinv. pose proof (levels_range _ _ _ _ _ Hl) as (Hs & _ & Hva & _). pose proof fill_size as Hsz.
  destruct (pow_sh sh Hs) as (He & He1 & He2). destruct (pow_sh (sh + 9)) as (He' & He1' & He2'); [lia|].
  assert (2 ^ va <= 2 ^ 48) by (apply Z.pow_le_mono_r; lia).
  assert (Hx : forall x, 0 <= x < 2 ^ 48 -> x mod 2 ^ (sh + 9) = 0 -> Z.land x PAGE_MASK = x).
  { intros x Hx Hm. rewrite land_page_mask by lia. rewrite (mult_mod_page x (sh + 9)) by (done || lia). lia. }
  unfold create_body. rewrite !Hx by (try apply Hphys; try apply Hvirt; lia).
  rewrite page_align_mult by (first [lia|apply pow_mod_page; lia]). 
  replace (2 ^ (sh + 9) / PAGE_SIZE) with (2 ^ (sh + 9 - 12)) by (rewrite He'; by rewrite Z.div_mul).
  destruct (fill_loop_run 512 0 (Z.to_nat (2 ^ (sh + 9 - 12))) s) as (s' & Hrun & Hpool & Hfill & Hother);
    [done|done| |done|].
  { assert (2 ^ (sh + 9 - 12) >= 2 ^ 9) by (apply Z.le_ge, Z.pow_le_mono_r; lia). lia. }
  rewrite !Z.mul_0_l, !Z.add_0_r in Hrun. change (Z.of_nat 512) with 512 in Hrun. rewrite <- Hsz in Hrun.
  exists s'. split; [exact Hrun|]. split; [done|]. split; [done|].
  intros a Ha. apply Hother. intros i Hi ->. apply Ha. by exists i.
Qed.

End Fill.

(** Writes into a table that is labelled keep the invariant of the store. *)
Lemma page_write_ok lab s s' q ρ A (R : list Z -> Prop) :
  pg_ok lab s -> lab !! q = Some ρ -> R ρ -> (forall a, ~ in_page a q -> word_at a s' = word_at a s) ->
  mem_pool s' = mem_pool s -> pg_ok lab s' /\ change A R lab s lab s'.
Proof.
  intros [H1 H2 H3 H4 H5] Hq Hr Hw Hp. pose proof (used_aligned _ _ H1 (H5 _ _ Hq)) as Hqa. split.
  - split; rewrite ?Hp; try done. intros q' a Hf Hin. rewrite Hw; [by apply (H4 q')|]. intros Hin'.
    assert (q' = q) as -> by (eapply in_page_inj; [exact (free_aligned _ _ H1 Hf)|exact Hqa|done|done]).
    by apply (free_not_used _ _ Hf), (H5 q ρ).
  - split; rewrite ?Hp; try done.
    + intros q' ρ' Hl Hn. congruence.
    + intros a q' Hin Ha _ Hl _. apply Hw. intros Hin'. assert (q' = q) as -> by (by eapply in_page_inj).
      by apply (Hl ρ Hq).
Qed.

Lemma land_mask32 y sh : 0 <= sh <= 32 -> 0 <= y ->
  Z.land y (u32 (Z.lnot (2 ^ sh - 1))) = y mod 2 ^ 32 - y mod 2 ^ sh.
Proof.
  intros Hs Hy. replace (2 ^ sh - 1) with (Z.ones sh) by (rewrite Z.ones_equiv; lia).
  assert (Z.land y (u32 (Z.lnot (Z.ones sh))) = Z.land (y mod 2 ^ 32) (wrap 32 (Z.lnot (Z.ones sh)))) as ->.
  { unfold u32. apply Z.bits_inj'. intros i Hi. rewrite !Z.land_spec, !wrap_bit by lia.
    destruct (Z.ltb_spec i 32).
    - by rewrite Z.mod_pow2_bits_low by lia.
    - by rewrite andb_false_l, !andb_false_r. }
  rewrite land_align by (first [lia|apply Z.mod_pos_bound; lia]). f_equal.
  rewrite <- Znumtheory.Zmod_div_mod; [done|apply Z.pow_pos_nonneg; lia|done|].
  exists (2 ^ (32 - sh)). rewrite <- Z.pow_add_r by lia. f_equal. lia.
Qed.

Lemma mod_mod_pow x a b : 0 <= a <= b -> (x mod 2 ^ b) mod 2 ^ a = x mod 2 ^ a.
Proof.
  intros H. rewrite <- Znumtheory.Zmod_div_mod; [done|apply Z.pow_pos_nonneg; lia|apply Z.pow_pos_nonneg; lia|].
  exists (2 ^ (b - a)). rewrite <- Z.pow_add_r by lia. f_equal. lia.
Qed.

(** The 32-bit base of a page. *)
Lemma base32 y sh : 12 <= sh <= 30 -> 0 <= y ->
  let b := y mod 2 ^ 32 - y mod 2 ^ sh in
  0 <= b /\ b + 2 ^ sh <= 2 ^ 32 /\ b mod 2 ^ sh = 0 /\ b = (y - y mod 2 ^ sh) mod 2 ^ 32.
Proof.
  intros Hs Hy b. pose proof (Z.pow_pos_nonneg 2 sh ltac:(done) ltac:(lia)) as Hp.
  pose proof (mod_mod_pow y sh 32 ltac:(lia)) as Hm. pose proof (Z.mod_pos_bound y (2 ^ 32) eq_refl) as H32.
  pose proof (Z.mod_le (y mod 2 ^ 32) (2 ^ sh) ltac:(lia) Hp) as Hle. rewrite Hm in Hle.
  assert (Hb : b = 2 ^ sh * (y mod 2 ^ 32 / 2 ^ sh)).
  { unfold b. pose proof (Z.div_mod (y mod 2 ^ 32) (2 ^ sh) ltac:(lia)) as Hd. rewrite Hm in Hd. lia. }
  assert (H2 : 2 ^ 32 = 2 ^ sh * 2 ^ (32 - sh)) by (rewrite <- Z.pow_add_r by lia; f_equal; lia).
  assert (Hlt : y mod 2 ^ 32 / 2 ^ sh < 2 ^ (32 - sh)) by (apply Z.div_lt_upper_bound; lia).
  split; [unfold b; lia|]. split.
  { rewrite Hb, H2. replace (2 ^ sh * (y mod (2 ^ sh * 2 ^ (32 - sh)) / 2 ^ sh) + 2 ^ sh)
      with (2 ^ sh * (y mod (2 ^ sh * 2 ^ (32 - sh)) / 2 ^ sh + 1)) by lia.
    apply Z.mul_le_mono_nonneg_l; [lia|]. rewrite H2 in Hlt. lia. }
  split.
  - rewrite Hb, Z.mul_comm. apply Z.mod_mul. lia.
  - pose proof (Z.mod_pos_bound y (2 ^ sh) Hp).
    apply (Z.mod_unique _ _ (y / 2 ^ 32)); [left; unfold b; lia|].
    pose proof (Z.div_mod y (2 ^ 32)). unfold b. lia.
Qed.

Lemma leaf_addr_base size pte v : leaf_addr size pte v = pte_addr pte - pte_addr pte mod size + v mod size.
Proof. done. Qed.

(** The parts of a page. *)
Lemma sub_page v sh : 0 <= sh -> v mod 2 ^ (sh + 9) = v mod 2 ^ sh + index sh 9 v * 2 ^ sh.
Proof.
  intros Hs. unfold index. rewrite Z.pow_add_r by lia.
  rewrite Z.rem_mul_r by (first [done|apply Z.pow_nonzero; lia]). lia.
Qed.

Lemma get_flags_ok pte : tagged pte = false -> flags_ok (arm_get_entry_flags pte) /\
  valid (arm_get_entry_flags pte) = valid pte /\ leaf_flags pte = arm_get_entry_flags pte.
Proof.
  intros Ht. unfold arm_get_entry_flags. change 4095 with (Z.ones 12). rewrite Z.land_ones by done.
  assert (Hf : flags_ok (pte mod 2 ^ 12)).
  { split; [by apply Z.mod_pos_bound|]. unfold tagged in *. by rewrite Z.mod_pow2_bits_low. }
  split; [done|]. split; [unfold valid; by rewrite Z.mod_pow2_bits_low|].
  unfold leaf_flags. change 4095 with (Z.ones 12). rewrite Z.land_ones by done. by apply ldiff_tag.
Qed.

(** A table whose entries are the parts of one page. *)
Lemma filled_tree p rest sh last lab π s q phys flags :
  levels va (p :: rest) sh 9 true -> level_ok va p sh 9 true last -> (last = true <-> rest = []) ->
  0 <= phys -> phys + 2 ^ (sh + 9) <= 2 ^ 48 -> phys mod 2 ^ (sh + 9) = 0 -> flags_ok flags -> valid flags = true ->
  (forall i, 0 <= i < 512 -> word_at (q + 8 * i) s = filled sh last phys flags i) ->
  tree (p :: rest) 9 lab π s q /\
  forall v, 0 <= v < 2 ^ va -> block_at (p :: rest) s q v = Some (phys + v mod 2 ^ (sh + 9), flags, 2 ^ sh).
Proof.
  intros Hl Hp Hlast Hph1 Hph2 Hph3 Hflags Hvalid Hfill.
  pose proof (levels_range _ _ _ _ _ Hl) as (Hs & _ & Hva & _). destruct (pow_sh sh Hs) as (He & He1 & He2).
  pose proof (fill_size p rest sh Hl) as Hsz.
  assert (Hentry : forall i, 0 <= i < 512 -> pte_value (word_at (q + 8 * i) s) (phys + i * 2 ^ sh)
      (if last then Z.lor flags 2 else flags)).
  { intros i Hi. rewrite Hfill by done. unfold filled. apply pte_value_add.
    - assert ((i + 1) * 2 ^ sh <= 512 * 2 ^ sh) by (apply Z.mul_le_mono_nonneg_r; lia).
      assert (0 <= i * 2 ^ sh) by (apply Z.mul_nonneg_nonneg; lia). lia.
    - change (2 ^ 12) with PAGE_SIZE. apply (mult_mod_page _ sh Hs), (fill_mod p rest sh Hl), Hph3.
    - destruct last; [by apply tag_flags|by apply Hflags]. }
  assert (Hsize : page_size p = 2 ^ sh) by apply (lv_size _ _ _ _ _ _ Hp).
  split.
  - apply tree_cons. intros i Hi Hv. change (2 ^ 9) with 512 in Hi. destruct (Hentry i Hi) as [_ _ _ _ Ht].
    destruct rest as [|p2 rest].
    + rewrite Ht, (proj2 Hlast eq_refl). by apply tag_flags.
    + destruct last; [by discriminate (proj1 Hlast eq_refl)|]. destruct Hflags as [_ Hft]. rewrite Ht, Hft. lia.
  - intros v Hv. cbn [PageTree.block_at]. rewrite (lv_entry _ _ _ _ _ _ Hp) by done. fold (index sh 9 v).
    pose proof (index_range sh 9 v ltac:(done)) as Hi. change (2 ^ 9) with 512 in Hi.
    destruct (Hentry _ Hi) as [_ Haddr Hlow Hv' Ht].
    assert (Hleaf : Some (leaf_addr (page_size p) (word_at (q + 8 * index sh 9 v) s) v,
        leaf_flags (word_at (q + 8 * index sh 9 v) s), page_size p) = Some (phys + v mod 2 ^ (sh + 9), flags, 2 ^ sh)).
    { rewrite Hsize. unfold leaf_addr, leaf_flags. rewrite Haddr, Hlow.
      rewrite (fill_mod p rest sh Hl) by done. rewrite sub_page by lia. do 3 f_equal; [lia|].
      destruct last; [by apply tag_flags|by apply ldiff_tag]. }
    assert (valid (word_at (q + 8 * index sh 9 v) s) = true) as ->.
    { rewrite Hv'. destruct last; [|done]. by rewrite (proj1 (proj2 (tag_flags flags Hflags))). }
    cbn [negb]. destruct rest as [|p2 rest]; [done|].
    destruct last; [by discriminate (proj1 Hlast eq_refl)|]. destruct Hflags as [_ Hft]. by rewrite Ht, Hft.
Qed.

Lemma levels_head p rest sh nb blocks : levels va (p :: rest) sh nb blocks ->
  exists last, level_ok va p sh nb blocks last /\ (last = true <-> rest = []) /\
    (last = false -> levels va rest (sh - 9) 9 true).
Proof.
  intros Hl. inversion Hl; subst.
  - exists true. done.
  - exists false. split; [done|]. split; [|done]. split; [done|]. intros ->.
    match goal with H : levels _ [] _ _ _ |- _ => by inversion H end.
Qed.

Lemma split_run d p rest sh nb blocks π pt v0 lab s co :
  levels va (p :: rest) sh nb blocks -> rest <> [] -> pg_ok lab s -> home π nb lab s pt -> pt mod PAGE_SIZE = 0 ->
  0 <= v0 < 2 ^ va -> blocks = true ->
  let x := word_at (pt + 8 * index sh nb v0) s in
  valid x = true -> tagged x = false ->
  split_hugepage page_offset (paging_create_depth page_offset (S d)) p rest (pt + 8 * index sh nb v0) v0 co s =
    Some (- ENOMEM, s) \/
  exists q lab' s', split_hugepage page_offset (paging_create_depth page_offset (S d)) p rest
      (pt + 8 * index sh nb v0) v0 co s = Some (0, s') /\
    pg_ok lab' s' /\
    change (fun a => a = pt + 8 * index sh nb v0) (fun ρ => (index sh nb v0 :: π) `suffix_of` ρ) lab s lab' s' /\
    valid (word_at (pt + 8 * index sh nb v0) s') = true /\ tagged (word_at (pt + 8 * index sh nb v0) s') = true /\
    next_pt (word_at (pt + 8 * index sh nb v0) s') = q /\ lab' !! q = Some (index sh nb v0 :: π) /\
    tree rest 9 lab' (index sh nb v0 :: π) s' q /\
    forall v, 0 <= v < 2 ^ va ->
      block_at rest s' q v = Some ((leaf_addr (2 ^ sh) x v) mod 2 ^ 32, leaf_flags x, 2 ^ (sh - 9)).
Proof.
  intros Hl Hne Hok Hhome Hpt Hv0 Hblocks x Hxv Hxt. subst blocks.
  destruct (levels_head _ _ _ _ _ Hl) as (last & Hp & Hlast & Hrest).
  destruct last; [by destruct Hne, (proj1 Hlast eq_refl)|]. specialize (Hrest eq_refl).
  destruct rest as [|p2 rest]; [done|]. destruct (levels_head _ _ _ _ _ Hrest) as (last2 & Hp2 & Hlast2 & _).
  pose proof (lv_range _ _ _ _ _ _ Hp) as (Hs & Hnb & Hva & Hva2). pose proof (lv_small _ _ _ _ _ _ Hp eq_refl) as Hs30.
  pose proof (lv_range _ _ _ _ _ _ Hp2) as (Hs2 & _).
  destruct (pow_sh sh Hs) as (He & He1 & He2). replace sh with (sh - 9 + 9) in He2 at 2 by lia.
  pose proof (index_range sh nb v0 ltac:(lia)) as Hi. set (i0 := index sh nb v0) in *.
  unfold split_hugepage. rewrite !read_run. fold x.
  rewrite (lv_phys _ _ _ _ _ _ Hp x v0 Hxv Hv0), Hxt.
  rewrite (lv_block _ _ _ _ _ _ Hp x v0 eq_refl eq_refl Hv0 Hxt), (lv_size _ _ _ _ _ _ Hp).
  pose proof (leaf_addr_range (2 ^ sh) x v0 ltac:(lia)) as Hlr.
  rewrite !land_mask32 by lia.
  destruct (base32 (leaf_addr (2 ^ sh) x v0) sh ltac:(lia) ltac:(lia)) as (Hb1 & Hb2 & Hb3 & Hb4).
  destruct (base32 v0 sh ltac:(lia) ltac:(lia)) as (Hv1 & Hv2 & Hv3 & _).
  set (phys := leaf_addr (2 ^ sh) x v0 mod 2 ^ 32 - leaf_addr (2 ^ sh) x v0 mod 2 ^ sh) in *.
  set (virt := v0 mod 2 ^ 32 - v0 mod 2 ^ sh) in *.
  destruct (get_flags_ok x Hxt) as (Hfo & Hfv & Hfe).
  match goal with |- context [mem_page_alloc 1 ≫= ?k] => set (K := k) end.
  destruct (alloc_run lab s K Hok) as [H0|(q & s1 & -> & Hq0 & Hqf & Hlq & Hw1 & Hqa & Hz & Hnew)].
  { left. rewrite H0. reflexivity. }
  right. destruct (Hnew (i0 :: π)) as [Hok1 Hc1].
  specialize (Hc1 (fun a => a = pt + 8 * i0) (fun ρ => (i0 :: π) `suffix_of` ρ) ltac:(by exists [])).
  set (lab1 := <[q := i0 :: π]> lab) in *.
  unfold K. rewrite (proj2 (Z.eqb_neq _ _) Hq0).
  rewrite (lift_run _ arm_set_l12_table) by apply (lv_next _ _ _ _ _ _ Hp eq_refl). rewrite set_entry_run.
  set (s2 := set_entry co (pt + 8 * i0) _ s1).
  assert (Hhome1 : home π nb lab1 s1 pt).
  { eapply home_change; [exact Hhome| |exact Hc1]. intros ρ. apply suffix_below. }
  destruct (set_entry_ok lab1 s1 s2 π nb pt i0 (arm_set_l12_table (paging_hvirt2phys page_offset q))
    (fun ρ => (i0 :: π) `suffix_of` ρ) Hok1 Hhome1 Hpt Hi) as [Hok2 Hc2];
    [intros a; apply set_entry_word|apply set_entry_pool|].
  assert (Hlq1 : lab1 !! q = Some (i0 :: π)) by apply lookup_insert_eq.
  assert (Hpage : forall a, in_page a q -> word_at a s2 = 0).
  { intros a Ha. unfold s2. rewrite set_entry_word, Hw1. destruct (Z.eqb_spec a (pt + 8 * i0)) as [->|]; [|by apply Hz].
    exfalso. destruct (Hhome i0 q Hi Hqa Ha) as [Hn _]. done. }
  assert (Hva3 : 2 ^ 32 <= 2 ^ va) by (apply Z.pow_le_mono_r; lia).
  replace sh with (sh - 9 + 9) in Hb2, Hb3, Hv2, Hv3 by lia.
  cbn [paging_create_depth]. replace (2 ^ sh) with (2 ^ (sh - 9 + 9)) by (f_equal; lia).
  destruct (fill_table_run (paging_create_depth page_offset d) p2 rest (sh - 9) last2 q phys virt (arm_get_entry_flags x) co
    Hrest Hp2 ltac:(lia) ltac:(split; [lia|split; [lia|exact Hb3]]) ltac:(split; [lia|split; [lia|exact Hv3]]) Hfo s2)
    as (s3 & Hrun & Hpool3 & Hfill & Hw3).
  { intros i Hir. rewrite Hpage by (by exists i). done. }
  destruct (page_write_ok lab1 s2 s3 q (i0 :: π) (fun a => a = pt + 8 * i0) (fun ρ => (i0 :: π) `suffix_of` ρ) Hok2 Hlq1
    ltac:(by exists []) Hw3 Hpool3) as [Hok3 Hc3].
  assert (Hnotin : ~ in_page (pt + 8 * i0) q) by (intros Hin; by destruct (Hhome i0 q Hi Hqa Hin) as [Hn _]).
  assert (Hpte : word_at (pt + 8 * i0) s3 = arm_set_l12_table (paging_hvirt2phys page_offset q)).
  { rewrite Hw3 by done. unfold s2. by rewrite set_entry_word, Z.eqb_refl. }
  destruct (next_pt_table lab s q Hok (or_intror Hqf)) as (Hpv & Hpt' & Hpn).
  destruct (filled_tree p2 rest (sh - 9) last2 lab1 (i0 :: π) s3 q phys (arm_get_entry_flags x) Hrest Hp2 Hlast2)
    as [Htree Hblock]; [lia|lia|exact Hb3|done|by rewrite Hfv|exact Hfill|].
  exists q, lab1, s3. rewrite Hpte. split; [exact Hrun|]. split; [done|].
  split; [eapply change_trans; [exact Hc1|eapply change_trans; [exact Hc2|exact Hc3]]|].
  do 5 (split; [done|]). intros v Hv. rewrite Hblock, Hfe by done. do 3 f_equal.
  replace (sh - 9 + 9) with sh by lia. rewrite Hb4.
  assert (Hsame : forall w, leaf_addr (2 ^ sh) x w - w mod 2 ^ sh = leaf_addr (2 ^ sh) x v0 - v0 mod 2 ^ sh)
    by (intros w; unfold leaf_addr; lia).
  pose proof (Z.mod_pos_bound v (2 ^ sh) ltac:(lia)) as Hvb.
  assert (Hlm : leaf_addr (2 ^ sh) x v0 mod 2 ^ sh = v0 mod 2 ^ sh).
  { unfold leaf_addr. pose proof (Z.div_mod (pte_addr x) (2 ^ sh) ltac:(lia)) as Hd.
    replace (pte_addr x - pte_addr x mod 2 ^ sh + v0 mod 2 ^ sh) with (v0 mod 2 ^ sh + pte_addr x / 2 ^ sh * 2 ^ sh) by lia.
    rewrite Z.mod_add by lia. apply Z.mod_mod. lia. }
  rewrite Hlm in *. rewrite <- (Hsame v).
  replace (leaf_addr (2 ^ sh) x v) with (leaf_addr (2 ^ sh) x v - v mod 2 ^ sh + v mod 2 ^ sh) at 2 by lia.
  rewrite (Hsame v). replace (sh - 9 + 9) with sh in Hb2 by lia.
  rewrite <- (Z.add_mod_idemp_l (_ - _)) by done. rewrite <- Hb4. symmetry. apply Z.mod_small. lia.
Qed.

End Steps.
