(* ===== verification/PageStep.v ===== *)
(** * One step of the page table operations

    What a walk of [paging_create] or [paging_destroy] does below a table: the
    translation of an address outside of the mapped or unmapped block is kept,
    and a change in the table of an entry is a change below that entry. *)

From Stdlib Require Import ZArith Lia.
From stdpp Require Import base tactics list list_numbers option gmap.
From S2P Require Import Prelude Bitops StateMonad Mmio PagePool Paging PageTree PageMap.

Section Steps.
Context (page_offset va : Z).
Notation next_pt := (next_pt page_offset).
Notation tree := (tree page_offset).
Notation entry_ok := (entry_ok page_offset).
Notation block_at := (block_at page_offset).
Notation pg_ok := (pg_ok page_offset).
Notation labels := (gmap Z (list Z)).

(** What an address outside of the range from [lo] to [hi] keeps: its mapping,
    or, if it is on a larger page that was split since the range touches it,
    the flags and the lower 32 bits of its address. *)
Definition kept (lo hi v : Z) (b b' : option (Z * Z * Z)) : Prop :=
  b' = b \/ exists a f z z', b = Some (a, f, z) /\ b' = Some (a mod 2 ^ 32, f, z') /\ PAGE_SIZE <= z' < z /\
    exists w, lo <= w < hi /\ v / z = w / z.

Lemma kept_refl lo hi v b : kept lo hi v b b.
Proof. by left. Qed.

Lemma kept_mono lo hi lo' hi' v b b' : lo' <= lo -> hi <= hi' -> kept lo hi v b b' -> kept lo' hi' v b b'.
Proof.
  intros H1 H2 [->|(a & f & z & z' & ? & ? & ? & w & ? & ?)]; [by left|]. right. exists a, f, z, z'.
  do 3 (split; [done|]). exists w. split; [lia|done].
Qed.

Lemma kept_trans lo hi v b1 b2 b3 : kept lo hi v b1 b2 -> kept lo hi v b2 b3 -> kept lo hi v b1 b3.
Proof.
  intros [->|(a & f & z & z' & -> & -> & Hz & Hw)]; [done|].
  intros [->|(a' & f' & z1 & z2 & [= <- <- <-] & -> & Hz2 & _)].
  - right. by exists a, f, z, z'.
  - right. exists a, f, z, z2. rewrite Z.mod_mod by done. split; [done|]. split; [done|]. split; [lia|done].
Qed.

Lemma kept_none lo hi v b : kept lo hi v b None -> b = None.
Proof. intros [<-|(? & ? & ? & ? & _ & [=] & _)]. done. Qed.

Lemma kept_to_none lo hi v b : kept lo hi v None b -> b = None.
Proof. intros [->|(? & ? & ? & ? & [=] & _)]. done. Qed.

(** Two addresses in the same aligned block. *)
Definition same_block (sh v w : Z) : Prop := v / 2 ^ sh = w / 2 ^ sh.
#[global] Instance same_block_dec sh v w : Decision (same_block sh v w).
Proof. unfold same_block. apply _. Defined.

Lemma same_block_mono sh1 sh2 v w : 0 <= sh1 <= sh2 -> same_block sh1 v w -> same_block sh2 v w.
Proof.
  unfold same_block. intros H Hb. replace sh2 with (sh1 + (sh2 - sh1)) by lia.
  rewrite !Z.pow_add_r, <- !Z.div_div by (first [lia|apply Z.pow_nonzero; lia|apply Z.pow_pos_nonneg; lia]).
  by rewrite Hb.
Qed.

Lemma index_block sh nb v w : 0 <= sh -> 0 <= nb -> same_block (sh + nb) v w ->
  index sh nb v = index sh nb w <-> same_block sh v w.
Proof.
  unfold same_block, index. intros Hs Hn Hb. rewrite !Z.pow_add_r, <- !Z.div_div in Hb
    by (first [lia|apply Z.pow_nonzero; lia|apply Z.pow_pos_nonneg; lia]).
  split; [|by intros ->]. intros Hi.
  pose proof (Z.div_mod (v / 2 ^ sh) (2 ^ nb) ltac:(apply Z.pow_nonzero; lia)).
  pose proof (Z.div_mod (w / 2 ^ sh) (2 ^ nb) ltac:(apply Z.pow_nonzero; lia)). congruence.
Qed.

Lemma table_empty_spec n : forall pt w,
  table_empty_loop n pt w = true <-> forall i, 0 <= i < Z.of_nat n -> valid (default 0 (w !! (pt + 8 * i))) = false.
Proof.
  induction n as [|n IH]; intros pt w; cbn [table_empty_loop]; [split; [intros; lia|done]|].
  rewrite entry_valid_bit. destruct (valid (default 0 (w !! pt))) eqn:Hv.
  - split; [done|]. intros H. specialize (H 0 ltac:(lia)). rewrite Z.mul_0_r, Z.add_0_r in H. congruence.
  - rewrite IH. split; intros H i Hi.
    + destruct (decide (i = 0)) as [->|]; [by rewrite Z.mul_0_r, Z.add_0_r|].
      specialize (H (i - 1) ltac:(lia)). by replace (pt + 8 + 8 * (i - 1)) with (pt + 8 * i) in H by lia.
    + replace (pt + 8 + 8 * i) with (pt + 8 * (i + 1)) by lia. apply H. lia.
Qed.

(** What [clear_up] does above a table whose entry was cleared. *)
Definition finish (above : list (paging * Z)) (pt v0 : Z) (co : paging_coherent) (s : pgstate) : option (unit * pgstate) :=
  match above with
  | [] => Some (tt, s)
  | (p', pt') :: above =>
      if table_empty_loop 512 pt (words s)
      then (_ ← mem_page_free pt 1; clear_up p' pt' above v0 co) s
      else Some (tt, s)
  end.

Lemma clear_up_finish p pt above v0 co s :
  clear_up p pt above v0 co s = finish above pt v0 co (set_entry co (get_entry p pt v0) 0 s).
Proof.
  unfold finish. destruct above as [|[p' pt'] above]; cbn [clear_up]; rewrite set_entry_run; [done|].
  unfold arm_page_table_empty. erewrite bind_run by reflexivity.
  by destruct (table_empty_loop _ _ _).
Qed.

(** The tree below [pt] after the block of [v0] at level [sh1] was mapped as
    [g] says. *)
Record updated (g : Z -> option (Z * Z * Z)) (ps : list paging) (sh nb : Z) (π : list Z) (pt v0 sh1 : Z)
    (lab : labels) (s : pgstate) (lab' : labels) (s' : pgstate) : Prop := {
  up_ok : pg_ok lab' s';
  up_change : change (fun a => a = pt + 8 * index sh nb v0) (fun ρ => (index sh nb v0 :: π) `suffix_of` ρ) lab s lab' s';
  up_tree : tree ps nb lab' π s' pt;
  up_other v : 0 <= v < 2 ^ va -> index sh nb v <> index sh nb v0 -> block_at ps s' pt v = block_at ps s pt v;
  up_kept v : 0 <= v < 2 ^ va -> same_block (sh + nb) v v0 -> ~ same_block sh1 v v0 ->
    kept v0 (v0 + 1) v (block_at ps s pt v) (block_at ps s' pt v);
  up_new v : 0 <= v < 2 ^ va -> same_block sh1 v v0 -> block_at ps s' pt v = g v;
}.

(** As far as a failed split got. *)
Record split_only (ps : list paging) (sh nb : Z) (π : list Z) (pt v0 : Z) (lab : labels) (s : pgstate)
    (lab' : labels) (s' : pgstate) : Prop := {
  so_ok : pg_ok lab' s';
  so_change : change (fun a => a = pt + 8 * index sh nb v0) (fun ρ => (index sh nb v0 :: π) `suffix_of` ρ) lab s lab' s';
  so_tree : tree ps nb lab' π s' pt;
  so_other v : 0 <= v < 2 ^ va -> index sh nb v <> index sh nb v0 -> block_at ps s' pt v = block_at ps s pt v;
  so_kept v : 0 <= v < 2 ^ va -> same_block (sh + nb) v v0 -> kept v0 (v0 + 1) v (block_at ps s pt v) (block_at ps s' pt v);
}.

(** The state below an entry before the walk descends: [s1] differs from [s]
    at most by a split of the entry. *)
Record descended (p : paging) (rest : list paging) (sh nb : Z) (π : list Z) (pt v0 q : Z) (lab : labels)
    (s : pgstate) (lab1 : labels) (s1 : pgstate) : Prop := {
  de_ok : pg_ok lab1 s1;
  de_change : change (fun a => a = pt + 8 * index sh nb v0) (fun ρ => (index sh nb v0 :: π) `suffix_of` ρ) lab s lab1 s1;
  de_entry : valid (word_at (pt + 8 * index sh nb v0) s1) = true /\ tagged (word_at (pt + 8 * index sh nb v0) s1) = true /\
    next_pt (word_at (pt + 8 * index sh nb v0) s1) = q;
  de_lab : lab1 !! q = Some (index sh nb v0 :: π);
  de_tree : tree rest 9 lab1 (index sh nb v0 :: π) s1 q;
  de_kept v : 0 <= v < 2 ^ va -> same_block sh v v0 -> kept v0 (v0 + 1) v (block_at (p :: rest) s pt v) (block_at rest s1 q v);
}.

(** Descending through an entry that is a table. *)
Lemma descend_table p rest sh nb blocks π pt v0 lab s :
  levels va (p :: rest) sh nb blocks -> rest <> [] -> pg_ok lab s -> tree (p :: rest) nb lab π s pt -> 0 <= v0 < 2 ^ va ->
  let x := word_at (pt + 8 * index sh nb v0) s in
  valid x = true -> tagged x = true -> descended p rest sh nb π pt v0 (next_pt x) lab s lab s.
Proof.
  intros Hl Hne Hok Ht Hv0 x Hv Htag. pose proof (levels_range _ _ _ _ _ Hl) as (Hs & Hnb & _).
  pose proof (index_range sh nb v0 ltac:(lia)) as Hi.
  assert (Hentry := proj1 (tree_cons _ _ _ _ _ _ _ _) Ht _ Hi Hv). fold x in Hentry.
  destruct rest as [|p2 rest]; [done|]. rewrite Htag in Hentry. destruct Hentry as [Hlq Htq].
  split; try done; [apply change_refl|]. intros v Hvr Hb. left.
  destruct (levels_head va _ _ _ _ _ Hl) as (last & Hp & _).
  assert (Hiv : index sh nb v = index sh nb v0) by (unfold index; by rewrite Hb).
  cbn [PageTree.block_at]. rewrite (lv_entry _ _ _ _ _ _ Hp) by done. fold (index sh nb v). rewrite Hiv.
  fold x. by rewrite Hv, Htag.
Qed.

(** Descending through an entry that has to be split. *)
Lemma descend_split d p rest sh nb blocks π pt v0 lab s co :
  levels va (p :: rest) sh nb blocks -> rest <> [] -> pg_ok lab s -> home π nb lab s pt -> pt mod PAGE_SIZE = 0 ->
  tree (p :: rest) nb lab π s pt -> 0 <= v0 < 2 ^ va ->
  let x := word_at (pt + 8 * index sh nb v0) s in
  valid x = true -> tagged x = false ->
  split_hugepage page_offset (paging_create_depth page_offset (S d)) p rest (pt + 8 * index sh nb v0) v0 co s =
    Some (- ENOMEM, s) \/
  exists q lab1 s1, split_hugepage page_offset (paging_create_depth page_offset (S d)) p rest
      (pt + 8 * index sh nb v0) v0 co s = Some (0, s1) /\ descended p rest sh nb π pt v0 q lab s lab1 s1.
Proof.
  intros Hl Hne Hok Hh Hpt Ht Hv0 x Hv Htag. pose proof (levels_range _ _ _ _ _ Hl) as (Hs & Hnb & _).
  pose proof (index_range sh nb v0 ltac:(lia)) as Hi. destruct (levels_head va _ _ _ _ _ Hl) as (last & Hp & Hlast & Hrest).
  assert (Hentry := proj1 (tree_cons _ _ _ _ _ _ _ _) Ht _ Hi Hv). fold x in Hentry.
  assert (last = false) as -> by (destruct last; [by destruct Hne, (proj1 Hlast eq_refl)|done]).
  assert (Hblocks : blocks = true).
  { destruct rest as [|p2 rest]; [done|]. rewrite Htag, (lv_size _ _ _ _ _ _ Hp) in Hentry. by destruct blocks. }
  pose proof (levels_range _ _ _ _ _ (Hrest eq_refl)) as (Hs2 & _).
  destruct (split_run page_offset va d p rest sh nb blocks π pt v0 lab s co Hl Hne Hok Hh Hpt Hv0 Hblocks Hv Htag)
    as [Hr|(q & lab1 & s1 & Hr & Hok1 & Hc1 & Hv1 & Ht1 & Hq & Hlq & Htree & Hblk)]; [by left|].
  right. exists q, lab1, s1. split; [done|]. split; try done. intros v Hvr Hb. right.
  assert (Hiv : index sh nb v = index sh nb v0) by (unfold index; by rewrite Hb).
  exists (leaf_addr (2 ^ sh) x v), (leaf_flags x), (2 ^ sh), (2 ^ (sh - 9)). split; [|split].
  - cbn [PageTree.block_at]. rewrite (lv_entry _ _ _ _ _ _ Hp) by done. fold (index sh nb v). rewrite Hiv. fold x.
    rewrite Hv, Htag, (lv_size _ _ _ _ _ _ Hp), Hblocks. by destruct rest.
  - by apply Hblk.
  - split; [|exists v0; split; [lia|done]].
    destruct (pow_sh (sh - 9) ltac:(lia)) as (_ & _ & ? & _). split; [done|]. apply Z.pow_lt_mono_r; lia.
Qed.

(** Changes below the table of an entry are changes below the entry. *)
Lemma change_lift π i q j A lab s lab' s' :
  lab !! q = Some (i :: π) -> q mod PAGE_SIZE = 0 -> 0 <= j < 512 ->
  change (fun a => a = q + 8 * j) (fun ρ => (j :: i :: π) `suffix_of` ρ) lab s lab' s' ->
  change A (fun ρ => (i :: π) `suffix_of` ρ) lab s lab' s'.
Proof.
  intros Hq Hqa Hj Hc. eapply change_child; [exact Hq|exact Hqa|]. eapply change_mono; [| |exact Hc].
  - intros a ->. by exists j.
  - intros ρ. apply suffix_below.
Qed.

(** A table without valid entries maps nothing. *)
Lemma empty_table ps sh nb blocks q s : levels va ps sh nb blocks ->
  (forall i, 0 <= i < 2 ^ nb -> valid (word_at (q + 8 * i) s) = false) ->
  forall v, 0 <= v < 2 ^ va -> block_at ps s q v = None.
Proof.
  intros Hl Hz v Hv. destruct ps as [|p rest]; [by inversion Hl|].
  destruct (levels_head _ _ _ _ _ _ Hl) as (last & Hp & _). pose proof (levels_range _ _ _ _ _ Hl).
  cbn [PageTree.block_at]. rewrite (lv_entry _ _ _ _ _ _ Hp) by done. fold (index sh nb v).
  rewrite Hz; [done|]. apply index_range. lia.
Qed.

Section Descent.
Context (p : paging) (rest : list paging) (sh nb : Z) (blocks : bool) (π : list Z) (pt v0 q : Z).
Context (lab lab1 : labels) (s s1 : pgstate).
Context (Hl : levels va (p :: rest) sh nb blocks) (Hrest : levels va rest (sh - 9) 9 true).
Context (Hok : pg_ok lab s) (Hhome : home π nb lab s pt) (Hpt : pt mod PAGE_SIZE = 0).
Context (Htree : tree (p :: rest) nb lab π s pt) (Hv0 : 0 <= v0 < 2 ^ va).
Context (Hde : descended p rest sh nb π pt v0 q lab s lab1 s1).

Let i0 := index sh nb v0.
Let j0 := index (sh - 9) 9 v0.

Lemma descent_page : q mod PAGE_SIZE = 0.
Proof. exact (used_aligned _ _ (go_pool _ _ _ (de_ok _ _ _ _ _ _ _ _ _ _ _ _ Hde)) (go_lab _ _ _ (de_ok _ _ _ _ _ _ _ _ _ _ _ _ Hde) _ _ (de_lab _ _ _ _ _ _ _ _ _ _ _ _ Hde))). Qed.

Lemma descent_index : 0 <= i0 < 2 ^ nb /\ 0 <= j0 < 512.
Proof.
  pose proof (levels_range _ _ _ _ _ Hl) as (_ & Hnb & _). split; apply index_range; lia.
Qed.

(** A change below the next table, seen from this one. *)
Lemma descent_change lab2 s2 :
  change (fun a => a = q + 8 * j0) (fun ρ => (j0 :: i0 :: π) `suffix_of` ρ) lab1 s1 lab2 s2 ->
  change (fun a => a = pt + 8 * i0) (fun ρ => (i0 :: π) `suffix_of` ρ) lab s lab2 s2 /\
  word_at (pt + 8 * i0) s2 = word_at (pt + 8 * i0) s1 /\ lab2 !! q = Some (i0 :: π).
Proof.
  intros Hc. destruct descent_index as [Hi Hj].
  assert (Hc' : forall A, change A (fun ρ => (i0 :: π) `suffix_of` ρ) lab1 s1 lab2 s2).
  { intros A. eapply change_lift; [apply (de_lab _ _ _ _ _ _ _ _ _ _ _ _ Hde)|apply descent_page|exact Hj|exact Hc]. }
  split; [eapply change_trans; [apply (de_change _ _ _ _ _ _ _ _ _ _ _ _ Hde)|apply Hc']|]. split.
  - eapply (entry_keeps π nb); [|exact Hpt|exact Hi| |exact (Hc' (fun _ => False))|tauto].
    + eapply home_change; [exact Hhome| |apply (de_change _ _ _ _ _ _ _ _ _ _ _ _ Hde)]. intros ρ. apply suffix_below.
    + intros ρ. apply suffix_below.
  - apply (ch_lab _ _ _ _ _ _ Hc); [|apply (de_lab _ _ _ _ _ _ _ _ _ _ _ _ Hde)].
    intros Hs. apply (below_irrefl (i0 :: π)). by exists j0.
Qed.

(** A result below the next table, seen from this one. *)
Lemma descent_result lab2 s2 :
  change (fun a => a = q + 8 * j0) (fun ρ => (j0 :: i0 :: π) `suffix_of` ρ) lab1 s1 lab2 s2 ->
  tree rest 9 lab2 (i0 :: π) s2 q ->
  change (fun a => a = pt + 8 * i0) (fun ρ => (i0 :: π) `suffix_of` ρ) lab s lab2 s2 /\
  tree (p :: rest) nb lab2 π s2 pt /\
  (forall v, 0 <= v < 2 ^ va -> index sh nb v <> i0 -> block_at (p :: rest) s2 pt v = block_at (p :: rest) s pt v) /\
  (forall v, 0 <= v < 2 ^ va -> index sh nb v = i0 -> block_at (p :: rest) s2 pt v = block_at rest s2 q v) /\
  valid (word_at (pt + 8 * i0) s2) = true.
Proof.
  intros Hc Ht2. destruct (descent_change lab2 s2 Hc) as (Hc2 & Hw & Hlq). destruct descent_index as [Hi Hj].
  destruct (de_entry _ _ _ _ _ _ _ _ _ _ _ _ Hde) as (Hev & Het & Hen). fold i0 in Hev, Het, Hen.
  assert (Hne : rest <> []) by (by inversion Hrest).
  split; [done|]. rewrite Hw.
  destruct (tree_graft page_offset va p rest sh nb blocks π pt i0 lab s lab2 s2 Hl Hi Hok Hhome Htree Hc2 Hpt) as [Htr Hoth].
  { intros _. rewrite Hw. destruct rest as [|p2 rest']; [done|]. rewrite Het, Hen. done. }
  split; [done|]. split; [done|]. split; [|done].
  intros v Hv Hiv. destruct (levels_head va _ _ _ _ _ Hl) as (last & Hp & _).
  cbn [PageTree.block_at]. rewrite (lv_entry _ _ _ _ _ _ Hp) by done. fold (index sh nb v). rewrite Hiv, Hw, Hev, Hen.
  destruct rest as [|p2 rest']; [done|]. by rewrite Het.
Qed.

(** Clearing the entry after the next table got empty and was released. *)
Lemma descent_empty lab2 s2 co : 
  pg_ok lab2 s2 ->
  change (fun a => a = q + 8 * j0) (fun ρ => (j0 :: i0 :: π) `suffix_of` ρ) lab1 s1 lab2 s2 ->
  exists lab3 s3, (forall A (k : PG A), (_ ← mem_page_free q 1; k) s2 = k s3) /\
    let s4 := set_entry co (get_entry p pt v0) 0 s3 in
    pg_ok lab3 s4 /\
    change (fun a => a = pt + 8 * i0) (fun ρ => (i0 :: π) `suffix_of` ρ) lab s lab3 s4 /\
    tree (p :: rest) nb lab3 π s4 pt /\
    (forall v, 0 <= v < 2 ^ va -> index sh nb v <> i0 -> block_at (p :: rest) s4 pt v = block_at (p :: rest) s pt v) /\
    (forall v, 0 <= v < 2 ^ va -> index sh nb v = i0 -> block_at (p :: rest) s4 pt v = None).
Proof.
  intros Hok2 Hc. destruct (descent_change lab2 s2 Hc) as (Hc2 & _ & Hlq). destruct descent_index as [Hi Hj].
  destruct (free_run page_offset lab2 s2 q Hok2 ltac:(by eexists)) as (s3 & Hrun & Hok3 & Hw3 & Hc3).
  exists (delete q lab2), s3. split; [exact Hrun|].
  specialize (Hc3 (fun a => a = pt + 8 * i0) (fun ρ => (i0 :: π) `suffix_of` ρ)).
  assert (Hc3' : change (fun a => a = pt + 8 * i0) (fun ρ => (i0 :: π) `suffix_of` ρ) lab s (delete q lab2) s3).
  { eapply change_trans; [exact Hc2|]. apply Hc3. intros ρ Hρ. rewrite Hlq in Hρ. injection Hρ as <-. by exists []. }
  destruct (levels_head va _ _ _ _ _ Hl) as (last & Hp & _). rewrite (lv_entry _ _ _ _ _ _ Hp) by done.
  fold (index sh nb v0). fold i0. set (s4 := set_entry co (pt + 8 * i0) 0 s3). intros s4'. change s4' with s4. clear s4'.
  assert (Hhome3 : home π nb (delete q lab2) s3 pt).
  { eapply home_change; [exact Hhome| |exact Hc3']. intros ρ. apply suffix_below. }
  destruct (set_entry_ok page_offset (delete q lab2) s3 s4 π nb pt i0 0 (fun ρ => (i0 :: π) `suffix_of` ρ) Hok3 Hhome3 Hpt Hi) as [Hok4 Hc4];
    [intros a; apply set_entry_word|apply set_entry_pool|].
  assert (Hc4' := change_trans _ _ _ _ _ _ _ _ Hc3' Hc4). split; [done|]. split; [done|].
  assert (Hzero : word_at (pt + 8 * i0) s4 = 0) by (unfold s4; by rewrite set_entry_word, Z.eqb_refl).
  destruct (tree_graft page_offset va p rest sh nb blocks π pt i0 lab s _ s4 Hl Hi Hok Hhome Htree Hc4' Hpt) as [Htr Hoth].
  { intros Hv. by rewrite Hzero in Hv. }
  split; [done|]. split; [done|]. intros v Hv Hiv. cbn [PageTree.block_at].
  rewrite (lv_entry _ _ _ _ _ _ Hp) by done. fold (index sh nb v). by rewrite Hiv, Hzero.
Qed.

(** The next table after a step in it, seen from this one. *)
Lemma descent_block v b : 0 <= v < 2 ^ va -> index sh nb v = i0 -> same_block (sh + nb) v v0 ->
  kept v0 (v0 + 1) v (block_at rest s1 q v) b -> kept v0 (v0 + 1) v (block_at (p :: rest) s pt v) b.
Proof.
  intros Hv Hi Hb Hk. pose proof (levels_range _ _ _ _ _ Hl) as (Hs & Hnb & _).
  eapply kept_trans; [apply (de_kept _ _ _ _ _ _ _ _ _ _ _ _ Hde); [done|]|done].
  apply (index_block sh nb); [lia|lia|done|done].
Qed.

Lemma descent_split_only lab2 s2 : split_only rest (sh - 9) 9 (i0 :: π) q v0 lab1 s1 lab2 s2 ->
  split_only (p :: rest) sh nb π pt v0 lab s lab2 s2.
Proof.
  intros [Hok2 Hc2 Ht2 Hoth2 Hk2]. destruct (descent_result lab2 s2 Hc2 Ht2) as (Hc & Htr & Hoth & Hsame & _).
  pose proof (levels_range _ _ _ _ _ Hl) as (Hs & Hnb & _).
  split; try done. intros v Hv Hb. destruct (decide (index sh nb v = i0)) as [He|Hni]; [|rewrite Hoth by done; apply kept_refl].
  rewrite Hsame by done. apply descent_block; [done|done|done|]. apply Hk2; [done|].
  replace (sh - 9 + 9) with sh by lia. by apply (index_block sh nb); [lia|lia| |].
Qed.

Lemma descent_updated g sh1 lab2 s2 : 0 <= sh1 <= sh -> updated g rest (sh - 9) 9 (i0 :: π) q v0 sh1 lab1 s1 lab2 s2 ->
  updated g (p :: rest) sh nb π pt v0 sh1 lab s lab2 s2.
Proof.
  intros Hsh1 [Hok2 Hc2 Ht2 Hoth2 Hk2 Hg2]. destruct (descent_result lab2 s2 Hc2 Ht2) as (Hc & Htr & Hoth & Hsame & _).
  pose proof (levels_range _ _ _ _ _ Hl) as (Hs & Hnb & _). split; try done.
  - intros v Hv Hb Hn. destruct (decide (index sh nb v = i0)) as [He|Hni]; [|rewrite Hoth by done; apply kept_refl].
    rewrite Hsame by done. apply descent_block; [done|done|done|]. apply Hk2; [done| |done].
    replace (sh - 9 + 9) with sh by lia. by apply (index_block sh nb); [lia|lia| |].
  - intros v Hv Hb. rewrite Hsame; [by apply Hg2|done|]. unfold i0, index.
    by rewrite (same_block_mono sh1 sh v v0 ltac:(lia) Hb).
Qed.

(** The next table got empty: it is released and its entry cleared. *)
Lemma descent_cleared (sh1 : Z) (lab2 : labels) (s2 : pgstate) (co : paging_coherent) : 0 <= sh1 <= sh ->
  updated (fun _ => None) rest (sh - 9) 9 (i0 :: π) q v0 sh1 lab1 s1 lab2 s2 -> table_empty_loop 512 q (words s2) = true ->
  exists (lab3 : labels) (s3 : pgstate), (forall A (k : PG A), (_ ← mem_page_free q 1; k) s2 = k s3) /\
    updated (fun _ => None) (p :: rest) sh nb π pt v0 sh1 lab s lab3 (set_entry co (get_entry p pt v0) 0 s3).
Proof.
  intros Hsh1 [Hok2 Hc2 Ht2 Hoth2 Hk2 Hg2] Hempty. pose proof (levels_range _ _ _ _ _ Hl) as (Hs & Hnb & _).
  destruct (descent_empty lab2 s2 co Hok2 Hc2) as (lab3 & s3 & Hfree & Hok4 & Hc4 & Htr & Hoth & Hgone).
  exists lab3, s3. split; [done|]. split; try done.
  - intros v Hv Hb Hn. destruct (decide (index sh nb v = i0)) as [He|Hni]; [|rewrite Hoth by done; apply kept_refl].
    rewrite Hgone by done. apply descent_block; [done|done|done|].
    assert (block_at rest s2 q v = None) as <-.
    { apply (empty_table rest (sh - 9) 9 true); [done| |done]. intros i Hi.
      by apply (proj1 (table_empty_spec 512 q (words s2)) Hempty). }
    apply Hk2; [done| |done]. replace (sh - 9 + 9) with sh by lia. by apply (index_block sh nb); [lia|lia| |].
  - intros v Hv Hb. apply Hgone; [done|]. unfold i0, index. by rewrite (same_block_mono sh1 sh v v0 ltac:(lia) Hb).
Qed.

End Descent.

(** Setting the entry of [v0] at a level. *)
Lemma set_updated g p rest sh nb blocks π pt v0 x lab s lab' s' s1 :
  levels va (p :: rest) sh nb blocks -> pg_ok lab s -> home π nb lab s pt -> pt mod PAGE_SIZE = 0 ->
  tree (p :: rest) nb lab π s pt -> 0 <= v0 < 2 ^ va ->
  pg_ok lab' s1 -> change (fun a => a = pt + 8 * index sh nb v0) (fun ρ => (index sh nb v0 :: π) `suffix_of` ρ) lab s lab' s1 ->
  (forall a, word_at a s' = if a =? pt + 8 * index sh nb v0 then x else word_at a s1) -> mem_pool s' = mem_pool s1 ->
  entry_ok p rest lab' (index sh nb v0) π s' x ->
  (forall v, 0 <= v < 2 ^ va -> same_block sh v v0 -> block_at (p :: rest) s' pt v = g v) ->
  updated g (p :: rest) sh nb π pt v0 sh lab s lab' s'.
Proof.
  intros Hl Hok Hhome Hpt Ht Hv0 Hok1 Hc1 Hw Hp Hx Hg. pose proof (levels_range _ _ _ _ _ Hl) as (Hs & Hnb & _).
  pose proof (index_range sh nb v0 ltac:(lia)) as Hi. set (i0 := index sh nb v0) in *.
  assert (Hhome1 : home π nb lab' s1 pt).
  { eapply home_change; [exact Hhome| |exact Hc1]. intros ρ. apply suffix_below. }
  destruct (set_entry_ok page_offset lab' s1 s' π nb pt i0 x (fun ρ => (i0 :: π) `suffix_of` ρ) Hok1 Hhome1 Hpt Hi Hw Hp)
    as [Hok' Hc'].
  assert (Hc := change_trans _ _ _ _ _ _ _ _ Hc1 Hc').
  assert (Hxw : word_at (pt + 8 * i0) s' = x) by (by rewrite Hw, Z.eqb_refl).
  destruct (tree_graft page_offset va p rest sh nb blocks π pt i0 lab s lab' s' Hl Hi Hok Hhome Ht Hc Hpt) as [Htr Hoth].
  { by rewrite Hxw. }
  split; try done. intros v Hv Hb Hn. rewrite Hoth; [apply kept_refl|done|]. intros He.
  apply Hn, (index_block sh nb); [lia|lia|done|done].
Qed.

End Steps.
