(* ===== verification/PageDestroy.v ===== *)
(** * Unmapping a range of pages

    One step of [paging_destroy] (paging.c) clears one entry and releases the
    tables that got empty; the whole loop unmaps a range. *)

From Stdlib Require Import ZArith Lia.
From stdpp Require Import base tactics list list_numbers option gmap.
From S2P Require Import Prelude Bitops StateMonad Mmio PagePool Paging PageTree PageMap PageStep.

Section Destroy.
Context (page_offset va : Z).
Notation next_pt := (next_pt page_offset).
Notation tree := (tree page_offset).
Notation block_at := (block_at page_offset).
Notation pg_ok := (pg_ok page_offset).
Notation labels := (gmap Z (list Z)).
Notation updated := (updated page_offset va).
Notation split_only := (split_only page_offset va).
Notation descended := (descended page_offset va).
Notation walked d := (destroy_walk page_offset (paging_create_depth page_offset (S d))).

(** ** One step *)

(** The walk failed to split a page that is larger than [size]. *)
Definition step_error (ps : list paging) (sh nb : Z) (π : list Z) (pt v0 size : Z) (lab : labels) (s : pgstate)
    (walk : option ((Z + list (paging * Z)) * pgstate)) : Prop :=
  (exists lab' s', walk = Some (inl (- ENOMEM), s') /\ split_only ps sh nb π pt v0 lab s lab' s') /\
  exists a f z, block_at ps s pt v0 = Some (a, f, z) /\ size < z.

(** The walk found the entry to clear, that of level [sh1]: an invalid one, or
    that of a page that is not larger than [size]. *)
Definition clearable (ps : list paging) (pt v0 size sh1 : Z) (b1 : bool) (s : pgstate) : Prop :=
  (forall v, 0 <= v < 2 ^ va -> same_block sh1 v v0 -> block_at ps s pt v = None) \/
  (b1 = true /\ 2 ^ sh1 <= size /\ exists a f z, block_at ps s pt v0 = Some (a, f, z) /\ 2 ^ sh1 <= z).

Definition step_done (ps : list paging) (sh nb : Z) (above : list (paging * Z)) (π : list Z) (pt v0 size : Z)
    (co : paging_coherent) (lab : labels) (s : pgstate) (walk : option ((Z + list (paging * Z)) * pgstate)) : Prop :=
  exists p1 pt1 stk s0 lab' s' sh1 nb1 b1 last1,
    walk = Some (inr ((p1, pt1) :: stk ++ above), s0) /\
    clear_up p1 pt1 (stk ++ above) v0 co s0 = finish above pt v0 co s' /\
    level_ok va p1 sh1 nb1 b1 last1 /\ sh1 <= sh /\
    updated (fun _ => None) ps sh nb π pt v0 sh1 lab s lab' s' /\ clearable ps pt v0 size sh1 b1 s.

(** The walk ends at an entry of this table. *)
Lemma stop_here p rest sh nb blocks above π pt v0 size co lab s :
  levels va (p :: rest) sh nb blocks -> pg_ok lab s -> home π nb lab s pt -> pt mod PAGE_SIZE = 0 ->
  tree (p :: rest) nb lab π s pt -> 0 <= v0 < 2 ^ va ->
  let x := word_at (pt + 8 * index sh nb v0) s in
  (valid x = false \/ valid x = true /\ blocks = true /\ 2 ^ sh <= size /\ (rest = [] \/ tagged x = false)) ->
  step_done (p :: rest) sh nb above π pt v0 size co lab s (Some (inr ((p, pt) :: above), s)).
Proof.
  intros Hl Hok Hhome Hpt Ht Hv0 x Hstop. destruct (levels_head _ _ _ _ _ _ Hl) as (last & Hp & _).
  pose proof (lv_range _ _ _ _ _ _ Hp) as (Hs & Hnb & _).
  exists p, pt, [], s, lab, (set_entry co (pt + 8 * index sh nb v0) 0 s), sh, nb, blocks, last. cbn [app].
  split; [done|]. split; [by rewrite clear_up_finish, (lv_entry _ _ _ _ _ _ Hp) by done|].
  split; [done|]. split; [done|].
  assert (Hblock : forall v s', 0 <= v < 2 ^ va -> same_block sh v v0 ->
    block_at (p :: rest) s' pt v = let x := word_at (pt + 8 * index sh nb v0) s' in
      if negb (valid x) then None else match rest with
        | [] => Some (leaf_addr (page_size p) x v, leaf_flags x, page_size p)
        | _ => if tagged x then block_at rest s' (next_pt x) v else Some (leaf_addr (page_size p) x v, leaf_flags x, page_size p)
        end).
  { intros v s' Hv Hb. cbn [PageTree.block_at]. rewrite (lv_entry _ _ _ _ _ _ Hp) by done. unfold index. by rewrite Hb. }
  split.
  - eapply (set_updated page_offset va (fun _ => None) p rest sh nb blocks); try done.
    + apply change_refl.
    + intros a. apply set_entry_word.
    + apply set_entry_pool.
    + by intros ?.
    + intros v Hv Hb. rewrite Hblock by done. cbv zeta. by rewrite set_entry_word, Z.eqb_refl.
  - destruct Hstop as [Hn|(Hv & Hbl & Hz & Hleaf)]; [left|right].
    + intros v Hvr Hb. rewrite Hblock by done. cbv zeta. fold x. by rewrite Hn.
    + split; [done|]. split; [done|]. rewrite Hblock by done. cbv zeta. fold x. rewrite Hv, (lv_size _ _ _ _ _ _ Hp), Hbl.
      exists (leaf_addr (2 ^ sh) x v0), (leaf_flags x), (2 ^ sh). split; [|done].
      destruct rest as [|p2 rest]; [done|]. destruct Hleaf as [[=]| ->]. done.
Qed.

(** A page below the entry is part of one that was there before. *)
Lemma descended_block p rest sh nb π pt v0 q lab s lab1 s1 a f z : 0 <= v0 < 2 ^ va ->
  descended p rest sh nb π pt v0 q lab s lab1 s1 -> block_at rest s1 q v0 = Some (a, f, z) ->
  exists a' f' z', block_at (p :: rest) s pt v0 = Some (a', f', z') /\ z <= z'.
Proof.
  intros Hv0 Hde Hbl. pose proof (de_kept _ _ _ _ _ _ _ _ _ _ _ _ _ _ Hde v0 Hv0 eq_refl) as Hk.
  rewrite Hbl in Hk. destruct Hk as [Hk|(a' & f' & z1 & z2 & Hk & [= -> -> ->] & Hz3 & _)].
  - rewrite <- Hk. by exists a, f, z.
  - rewrite Hk. exists a', f', z1. split; [done|lia].
Qed.

(** The walk goes on in the table of the entry. *)
Lemma step_down p rest sh nb blocks above π pt v0 q size co lab s lab1 s1 walk :
  levels va (p :: rest) sh nb blocks -> levels va rest (sh - 9) 9 true -> pg_ok lab s -> home π nb lab s pt ->
  pt mod PAGE_SIZE = 0 -> tree (p :: rest) nb lab π s pt -> 0 <= v0 < 2 ^ va -> (above <> [] -> nb = 9) ->
  descended p rest sh nb π pt v0 q lab s lab1 s1 ->
  step_error rest (sh - 9) 9 (index sh nb v0 :: π) q v0 size lab1 s1 walk \/
  step_done rest (sh - 9) 9 ((p, pt) :: above) (index sh nb v0 :: π) q v0 size co lab1 s1 walk ->
  step_error (p :: rest) sh nb π pt v0 size lab s walk \/
  step_done (p :: rest) sh nb above π pt v0 size co lab s walk.
Proof.
  intros Hl Hrest Hok Hhome Hpt Ht Hv0 Habove Hde
    [[(lab2 & s2 & Hw & Hso) (a & f & z & Hbl & Hz)]
    |(p1 & pt1 & stk & s0 & lab2 & s2 & sh1 & nb1 & b1 & last1 & Hw & Hclear & Hp1 & Hsh1 & Hup & Hpre)].
  { left. split; [exists lab2, s2; split; [done|by eapply descent_split_only]|].
    destruct (descended_block _ _ _ _ _ _ _ _ _ _ _ _ a f z Hv0 Hde Hbl) as (a' & f' & z' & ? & ?). exists a', f', z'.
    split; [done|lia]. }
  right. pose proof (lv_range _ _ _ _ _ _ Hp1) as (Hs1 & _).
  pose proof (levels_range _ _ _ _ _ Hl) as (_ & Hnb & _).
  assert (Hpre' : clearable (p :: rest) pt v0 size sh1 b1 s).
  { destruct Hpre as [Hn|(Hb1 & Hz & a & f & z & Hbl & Hz2)]; [left|right].
    - intros v Hv Hb. assert (Hb2 : same_block sh v v0) by (eapply (same_block_mono sh1); [lia|done]).
      pose proof (de_kept _ _ _ _ _ _ _ _ _ _ _ _ _ _ Hde v Hv Hb2) as Hk. rewrite Hn in Hk by done. by eapply kept_none.
    - split; [done|]. split; [done|].
      destruct (descended_block _ _ _ _ _ _ _ _ _ _ _ _ a f z Hv0 Hde Hbl) as (a' & f' & z' & ? & ?). exists a', f', z'.
      split; [done|lia]. }
  replace (stk ++ (p, pt) :: above) with ((stk ++ [(p, pt)]) ++ above) in Hw, Hclear by (by rewrite <- app_assoc).
  cbn [finish] in Hclear. destruct (table_empty_loop 512 q (words s2)) eqn:Hempty.
  - destruct (descent_cleared page_offset va p rest sh nb blocks π pt v0 q lab lab1 s s1 Hl Hrest Hok Hhome Hpt Ht Hv0 Hde
      sh1 lab2 s2 co ltac:(lia) Hup Hempty) as (lab3 & s3 & Hfree & Hup3).
    exists p1, pt1, (stk ++ [(p, pt)]), s0, lab3, (set_entry co (get_entry p pt v0) 0 s3), sh1, nb1, b1, last1.
    split; [done|]. split; [|by split_and!; try lia].
    rewrite Hclear, Hfree. apply clear_up_finish.
  - pose proof (descent_updated page_offset va p rest sh nb blocks π pt v0 q lab lab1 s s1 Hl Hrest Hok Hhome Hpt Ht Hv0 Hde
      (fun _ => None) sh1 lab2 s2 ltac:(lia) Hup) as Hup2.
    destruct (descent_result page_offset va p rest sh nb blocks π pt v0 q lab lab1 s s1 Hl Hrest Hok Hhome Hpt Ht Hv0 Hde
      lab2 s2 (up_change _ _ _ _ _ _ _ _ _ _ _ _ _ _ Hup) (up_tree _ _ _ _ _ _ _ _ _ _ _ _ _ _ Hup)) as (_ & _ & _ & _ & Hvalid).
    exists p1, pt1, (stk ++ [(p, pt)]), s0, lab2, s2, sh1, nb1, b1, last1.
    split; [done|]. split; [|by split_and!; try lia].
    rewrite Hclear. unfold finish. destruct above as [|[p' pt'] above]; [done|].
    assert (table_empty_loop 512 pt (words s2) = false) as ->; [|done].
    apply not_true_iff_false. intros He.
    pose proof (index_range sh nb v0 ltac:(lia)) as Hi. rewrite Habove in Hvalid, Hi by done.
    pose proof (proj1 (table_empty_spec 512 pt (words s2)) He _ Hi) as Hinv.
    unfold word_at in Hvalid. congruence.
Qed.

(** One step of [paging_destroy]. *)
Lemma destroy_step_run d ps sh nb blocks size co : levels va ps sh nb blocks -> forall above π pt lab s v0,
  pg_ok lab s -> home π nb lab s pt -> pt mod PAGE_SIZE = 0 -> tree ps nb lab π s pt -> 0 <= v0 < 2 ^ va ->
  PAGE_SIZE <= size -> (above <> [] -> nb = 9) ->
  step_error ps sh nb π pt v0 size lab s (walked d ps above pt v0 size co s) \/
  step_done ps sh nb above π pt v0 size co lab s (walked d ps above pt v0 size co s).
Proof.
  intros Hlv. induction Hlv as [p nb Hp|p rest sh nb blocks Hp Hrest IH];
    intros above π pt lab s v0 Hok Hhome Hpt Htree Hv0 Hsize Habove; cbn [destroy_walk];
    rewrite (lv_entry _ _ _ _ _ _ Hp) by done; rewrite read_run, entry_valid_bit.
  - fold (index 12 nb v0). pose proof (lv_range _ _ _ _ _ _ Hp) as (_ & Hnb & _).
    set (x := word_at (pt + 8 * index 12 nb v0) s). right.
    assert (Hl : levels va [p] 12 nb true) by (by apply levels_last).
    destruct (valid x) eqn:Hvx; cbn [negb]; [|by apply stop_here with true; [..|left]].
    assert (Htx : tagged x = true) by (apply (Htree _ (index_range 12 nb v0 ltac:(lia))); done).
    rewrite (lv_phys _ _ _ _ _ _ Hp x v0 Hvx Hv0), Htx, (lv_size _ _ _ _ _ _ Hp). cbn [negb].
    rewrite Z.gtb_ltb, (proj2 (Z.ltb_ge size (2 ^ 12))) by (unfold PAGE_SIZE in Hsize; lia).
    apply stop_here with true; try done. right. split_and!; try done. by left.
  - fold (index sh nb v0). set (x := word_at (pt + 8 * index sh nb v0) s).
    assert (Hl : levels va (p :: rest) sh nb blocks) by (by apply levels_cons).
    assert (Hne : rest <> []) by (by inversion Hrest).
    pose proof (lv_range _ _ _ _ _ _ Hp) as (Hs & Hnb & _).
    assert (Hdown : forall q lab1 s1, descended p rest sh nb π pt v0 q lab s lab1 s1 ->
      let walk := (v ← read (pt + 8 * index sh nb v0); next ← lift (get_next_pt p);
        walked d rest ((p, pt) :: above) (paging_phys2hvirt page_offset (next v)) v0 size co) s1 in
      step_error (p :: rest) sh nb π pt v0 size lab s walk \/ step_done (p :: rest) sh nb above π pt v0 size co lab s walk).
    { intros q lab1 s1 Hde walk.
      pose proof (descent_page page_offset va p rest sh nb π pt v0 q lab lab1 s s1 Hde) as Hq.
      assert (walk = walked d rest ((p, pt) :: above) q v0 size co s1) as ->.
      { unfold walk. rewrite read_run, (lift_run _ arm_get_l12_table) by apply (lv_next _ _ _ _ _ _ Hp eq_refl).
        destruct (de_entry _ _ _ _ _ _ _ _ _ _ _ _ _ _ Hde) as (_ & _ & <-). done. }
      eapply (step_down p rest sh nb blocks); try done. apply IH; try done; try apply Hde.
      exact (home_labelled page_offset _ _ _ _ (de_ok _ _ _ _ _ _ _ _ _ _ _ _ _ _ Hde) (de_lab _ _ _ _ _ _ _ _ _ _ _ _ _ _ Hde)). }
    destruct (valid x) eqn:Hvx; cbn [negb]; [|by right; apply stop_here with blocks; [..|left]].
    rewrite (lv_phys _ _ _ _ _ _ Hp x v0 Hvx Hv0). destruct (tagged x) eqn:Htx; cbn [negb].
    + apply (Hdown (next_pt x) lab s). by apply (descend_table page_offset va p rest sh nb blocks).
    + assert (Hblocks : blocks = true).
      { pose proof (proj1 (tree_cons _ _ _ _ _ _ _ _) Htree _ (index_range sh nb v0 ltac:(lia)) Hvx) as He. fold x in He.
        destruct rest; [done|]. rewrite Htx, (lv_size _ _ _ _ _ _ Hp) in He. by destruct blocks. }
      rewrite (lv_size _ _ _ _ _ _ Hp), Hblocks, Z.gtb_ltb. destruct (Z.ltb_spec size (2 ^ sh)).
      * destruct (descend_split page_offset va d p rest sh nb blocks π pt v0 lab s co Hl Hne Hok Hhome Hpt Htree Hv0 Hvx Htx)
          as [Hr|(q & lab1 & s1 & Hr & Hde)]; erewrite bind_run by exact Hr; [|by apply (Hdown q lab1 s1)].
        left. split; [exists lab, s; split; [done|]; split; try done; [apply change_refl|intros; apply kept_refl]|].
        exists (leaf_addr (2 ^ sh) x v0), (leaf_flags x), (2 ^ sh). split; [|done]. cbn [PageTree.block_at].
        rewrite (lv_entry _ _ _ _ _ _ Hp) by done. fold (index sh nb v0). fold x.
        rewrite Hvx, Htx, (lv_size _ _ _ _ _ _ Hp), Hblocks. by destruct rest.
      * right. apply stop_here with blocks; try done. right. split_and!; try done. by right.
Qed.

(** ** The pages of a translation *)

(** All addresses of a page are translated alike. *)
Lemma block_same ps sh nb blocks : levels va ps sh nb blocks -> forall lab π s pt v w a f z,
  tree ps nb lab π s pt -> 0 <= v < 2 ^ va -> 0 <= w < 2 ^ va -> block_at ps s pt v = Some (a, f, z) -> w / z = v / z ->
  block_at ps s pt w = Some (a - v mod z + w mod z, f, z) /\ exists k, 12 <= k <= 30 /\ k <= sh /\ z = 2 ^ k.
Proof.
  induction 1 as [p nb Hp|p rest sh nb blocks Hp Hrest IH]; intros lab π s pt v w a f z Ht Hv Hw; cbn [PageTree.block_at];
    rewrite !(lv_entry _ _ _ _ _ _ Hp) by done.
  - fold (index 12 nb v) (index 12 nb w). rewrite (lv_size _ _ _ _ _ _ Hp). destruct (valid _) eqn:Hx; [|done]. cbn [negb]. intros [= <- <- <-] Hb.
    unfold index. rewrite Hb. fold (index 12 nb v). rewrite Hx. cbn [negb]. split; [|by exists 12].
    do 3 f_equal. unfold leaf_addr. lia.
  - fold (index sh nb v) (index sh nb w). pose proof (lv_range _ _ _ _ _ _ Hp) as (Hs & Hnb & _).
    pose proof (index_range sh nb v ltac:(lia)) as Hi. assert (He := proj1 (tree_cons _ _ _ _ _ _ _ _) Ht _ Hi).
    destruct (valid _) eqn:Hx; [|done]. specialize (He Hx). cbn [negb]. destruct rest as [|p2 rest]; [by inversion Hrest|].
    destruct (tagged _) eqn:Htag; intros Hbl Hb.
    + destruct He as [_ He]. destruct (IH _ _ _ _ _ _ _ _ _ He Hv Hw Hbl Hb) as (Hbw & k & Hk & Hks & ->).
      assert (w / 2 ^ sh = v / 2 ^ sh) as Hsh by (apply (same_block_mono k sh w v); [lia|done]).
      unfold index. rewrite Hsh. fold (index sh nb v). rewrite Hx, Htag. cbn [negb]. split; [done|]. exists k.
      split; [done|]. split; [lia|done].
    + rewrite (lv_size _ _ _ _ _ _ Hp) in *. destruct blocks; [|done]. injection Hbl as <- <- <-.
      unfold index. rewrite Hb. fold (index sh nb v). rewrite Hx, Htag. cbn [negb].
      pose proof (lv_small _ _ _ _ _ _ Hp eq_refl). split; [|exists sh; split; [lia|done]].
      do 3 f_equal. unfold leaf_addr. lia.
Qed.

(** States that differ in the recorded cache and TLB maintenance only. *)
Lemma same_mem_keeps ps sh nb blocks A R lab π s s' pt : levels va ps sh nb blocks -> same_mem s s' -> pg_ok lab s ->
  tree ps nb lab π s pt -> pg_ok lab s' /\ change A R lab s lab s' /\ tree ps nb lab π s' pt /\
  forall v, 0 <= v < 2 ^ va -> block_at ps s' pt v = block_at ps s pt v.
Proof.
  intros Hl Hsame Hok Ht. split; [by eapply pg_ok_same|]. destruct Hsame as [Hw Hp]. split.
  - split; rewrite ?Hp; try done. intros q ρ H1 H2. congruence.
  - eapply tree_frame; done.
Qed.

Lemma flush_same hv virt s : exists s', flush_page_tlbs hv virt s = Some (tt, s') /\ same_mem s s'.
Proof. destruct hv; by eexists. Qed.

(** ** The loop *)

(** The entries and the paths below the table that belong to a range. *)
Definition entry_in (pt sh nb lo hi a : Z) : Prop := exists v, lo <= v < hi /\ a = pt + 8 * index sh nb v.
Definition path_in (π : list Z) (sh nb lo hi : Z) (ρ : list Z) : Prop :=
  exists v, lo <= v < hi /\ (index sh nb v :: π) `suffix_of` ρ.

Lemma change_range π pt sh nb lo hi lo' hi' lab s lab' s' : lo <= lo' -> hi' <= hi ->
  change (entry_in pt sh nb lo' hi') (path_in π sh nb lo' hi') lab s lab' s' ->
  change (entry_in pt sh nb lo hi) (path_in π sh nb lo hi) lab s lab' s'.
Proof.
  intros H1 H2. apply change_mono; [intros a (v & Hv & ->)|intros ρ (v & Hv & Hρ)]; exists v; (split; [lia|done]).
Qed.

(** Every address of the range is mapped, and the range starts with a page. *)
Definition mapped (ps : list paging) (s : pgstate) (pt lo hi : Z) : Prop :=
  (forall v, lo <= v < hi -> block_at ps s pt v <> None) /\
  (forall a f z, block_at ps s pt lo = Some (a, f, z) -> lo mod z = 0).

(** No page reaches beyond the end of the range. *)
Definition contained (ps : list paging) (s : pgstate) (pt lo hi : Z) : Prop :=
  forall v a f z, lo <= v < hi -> block_at ps s pt v = Some (a, f, z) -> v - v mod z + z <= hi.

(** After [paging_destroy] on the range, with result [r]. *)
Record removed (ps : list paging) (sh nb : Z) (π : list Z) (pt lo hi : Z) (lab : labels) (s : pgstate) (r : Z)
    (lab' : labels) (s' : pgstate) : Prop := {
  rm_code : r = 0 \/ r = - ENOMEM;
  rm_ok : pg_ok lab' s';
  rm_tree : tree ps nb lab' π s' pt;
  rm_change : change (entry_in pt sh nb lo hi) (path_in π sh nb lo hi) lab s lab' s';
  rm_map : mapped ps s pt lo hi -> exists m, lo <= m <= hi /\ (r = 0 -> m = hi) /\ (contained ps s pt lo hi -> r = 0) /\
    (forall v, lo <= v < m -> block_at ps s' pt v = None) /\
    forall v, 0 <= v < 2 ^ va -> same_block (sh + nb) v lo -> ~ lo <= v < m ->
      kept lo hi v (block_at ps s pt v) (block_at ps s' pt v);
}.

Lemma block_range sh v lo : 0 <= sh -> lo mod 2 ^ sh = 0 -> same_block sh v lo <-> lo <= v < lo + 2 ^ sh.
Proof.
  intros Hs Hm. unfold same_block. pose proof (Z.pow_pos_nonneg 2 sh ltac:(done) Hs) as Hp.
  pose proof (Z.div_mod v (2 ^ sh) ltac:(lia)). pose proof (Z.mod_pos_bound v (2 ^ sh) Hp).
  pose proof (Z.div_mod lo (2 ^ sh) ltac:(lia)). split; intros H2; [rewrite H2 in *; lia|].
  symmetry. apply (Z.div_unique_pos v (2 ^ sh) (lo / 2 ^ sh) (v - lo)); lia.
Qed.

(** The rest of the range after one step starts with a page again. *)
Lemma mapped_rest ps sh nb blocks lab π s1 pt lo hi L : levels va ps sh nb blocks -> tree ps nb lab π s1 pt ->
  0 <= lo -> 0 < L -> lo + L <= hi <= 2 ^ va ->
  (forall v, lo + L <= v < hi -> block_at ps s1 pt v <> None) -> block_at ps s1 pt (lo + L - 1) = None ->
  mapped ps s1 pt (lo + L) hi \/ lo + L = hi.
Proof.
  intros Hl Ht Hlo HL Hhi Hm Hn. destruct (decide (lo + L = hi)); [by right|]. left. split; [done|]. intros a f z Hb.
  destruct (decide ((lo + L) mod z = 0)) as [|Hz]; [done|exfalso].
  destruct (block_same _ _ _ _ Hl lab π s1 pt (lo + L) (lo + L) a f z Ht ltac:(lia) ltac:(lia) Hb eq_refl)
    as (_ & k & Hk & _ & Hzk).
  pose proof (Z.pow_pos_nonneg 2 k ltac:(done) ltac:(lia)) as Hzp. rewrite <- Hzk in Hzp.
  destruct (block_same _ _ _ _ Hl lab π s1 pt (lo + L) (lo + L - 1) a f z Ht ltac:(lia) ltac:(lia) Hb) as [Hb' _]; [|congruence].
  pose proof (Z.div_mod (lo + L) z ltac:(lia)). pose proof (Z.mod_pos_bound (lo + L) z Hzp).
  symmetry. apply (Z.div_unique_pos _ _ _ ((lo + L) mod z - 1)); lia.
Qed.

Lemma updated_same g ps sh nb blocks π pt v0 sh1 lab s lab' s1 s' : levels va ps sh nb blocks -> same_mem s1 s' ->
  updated g ps sh nb π pt v0 sh1 lab s lab' s1 -> updated g ps sh nb π pt v0 sh1 lab s lab' s'.
Proof.
  intros Hl Hsame [Hok Hc Ht Hoth Hk Hg].
  edestruct (same_mem_keeps ps sh nb blocks) as (Hok' & Hc' & Ht' & Hb'); [exact Hl|exact Hsame|exact Hok|exact Ht|].
  split; [done|by eapply change_trans|done| | |]; intros v Hv; rewrite Hb' by done; auto.
Qed.

(** A step leaves the pages of the rest of the range inside of it. *)
Lemma contained_rest ps sh nb blocks lab π s lab' s' pt lo L hi : levels va ps sh nb blocks -> tree ps nb lab π s pt ->
  tree ps nb lab' π s' pt -> 0 <= lo -> 0 < L -> hi <= 2 ^ va ->
  (forall v, lo + L <= v < hi -> kept lo (lo + 1) v (block_at ps s pt v) (block_at ps s' pt v)) ->
  contained ps s pt lo hi -> contained ps s' pt (lo + L) hi.
Proof.
  intros Hl Ht Ht' Hlo HL Hhi Hk Hc v a f z Hv Hbl. destruct (Hk v Hv) as [He|(a1 & f1 & z1 & z2 & Hb1 & Hb2 & Hz & _)].
  { apply (Hc v a f z); [lia|]. by rewrite <- He. }
  rewrite Hbl in Hb2. injection Hb2 as -> -> <-. specialize (Hc v _ _ _ ltac:(lia) Hb1).
  destruct (block_same _ _ _ _ Hl lab π s pt v v _ _ _ Ht ltac:(lia) ltac:(lia) Hb1 eq_refl) as (_ & k1 & Hk1 & _ & ->).
  destruct (block_same _ _ _ _ Hl lab' π s' pt v v _ _ _ Ht' ltac:(lia) ltac:(lia) Hbl eq_refl) as (_ & k & Hk2 & _ & ->).
  assert (k <= k1) by (apply (Z.pow_le_mono_r_iff 2); lia).
  pose proof (Z.pow_pos_nonneg 2 k ltac:(done) ltac:(lia)) as Hp. pose proof (Z.pow_pos_nonneg 2 k1 ltac:(done) ltac:(lia)) as Hp1.
  assert (Hw : same_block k1 (v - v mod 2 ^ k + 2 ^ k - 1) v).
  { apply (same_block_mono k); [lia|]. unfold same_block. pose proof (Z.div_mod v (2 ^ k) ltac:(lia)).
    symmetry. apply (Z.div_unique_pos _ _ _ (2 ^ k - 1)); lia. }
  pose proof (Z.div_mod v (2 ^ k1) ltac:(lia)) as Hd. unfold same_block in Hw.
  pose proof (Z.div_mod (v - v mod 2 ^ k + 2 ^ k - 1) (2 ^ k1) ltac:(lia)) as Hd2. rewrite Hw in Hd2.
  pose proof (Z.mod_pos_bound (v - v mod 2 ^ k + 2 ^ k - 1) (2 ^ k1) Hp1). lia.
Qed.

(** One round of the loop: the range from [lo] on, at least a page. *)
Lemma destroy_round d ps sh nb blocks hv π pt lo hi co lab s :
  levels va ps sh nb blocks -> pg_ok lab s -> home π nb lab s pt -> pt mod PAGE_SIZE = 0 -> tree ps nb lab π s pt ->
  0 <= lo -> lo + PAGE_SIZE <= hi <= 2 ^ va ->
  ((exists a f z, block_at ps s pt lo = Some (a, f, z) /\ hi - lo < z) /\
   forall fuel, exists lab' s', split_only ps sh nb π pt lo lab s lab' s' /\
     destroy_loop page_offset (paging_create_depth page_offset (S d)) (S fuel) (mk_paging_structures ps pt hv) lo (hi - lo) co s =
       Some (- ENOMEM, s')) \/
  exists lab' s' sh1 L b1, updated (fun _ => None) ps sh nb π pt lo sh1 lab s lab' s' /\
    12 <= sh1 <= sh /\ PAGE_SIZE <= L /\ L mod PAGE_SIZE = 0 /\ (b1 = true -> L = 2 ^ sh1) /\
    clearable ps pt lo (hi - lo) sh1 b1 s /\ forall fuel,
      destroy_loop page_offset (paging_create_depth page_offset (S d)) (S fuel) (mk_paging_structures ps pt hv) lo (hi - lo) co s =
      if L >? hi - lo then Some (0, s')
      else destroy_loop page_offset (paging_create_depth page_offset (S d)) fuel (mk_paging_structures ps pt hv) (lo + L)
             (hi - (lo + L)) co s'.
Proof.
  intros Hl Hok Hhome Hpt Ht Hlo Hhi.
  pose proof (levels_range _ _ _ _ _ Hl) as (_ & _ & Hva & _).
  assert (2 ^ va <= 2 ^ 48) by (apply Z.pow_le_mono_r; lia). unfold PAGE_SIZE in Hhi.
  destruct (destroy_step_run d ps sh nb blocks (hi - lo) co Hl [] π pt lab s lo) as
    [[(lab' & s' & Hw & Hso) Hbig]|(p1 & pt1 & stk & s0 & lab' & s1 & sh1 & nb1 & b1 & last1 & Hw & Hclear & Hp1 & Hsh1 & Hup & Hpre)];
    try done; [lia|unfold PAGE_SIZE; lia| |].
  - left. split; [done|]. intros fuel. exists lab', s'. split; [done|]. cbn [destroy_loop root_paging root_table].
    rewrite (proj2 (Z.leb_gt _ 0)) by lia. by erewrite bind_run by exact Hw.
  - right. destruct (flush_same hv lo s1) as (s' & Hflush & Hsame). cbn [finish] in Hclear.
    pose proof (lv_range _ _ _ _ _ _ Hp1) as (Hs1 & _). destruct (pow_sh sh1 Hs1) as (_ & _ & Hps & _).
    exists lab', s', sh1, (if b1 then 2 ^ sh1 else PAGE_SIZE), b1.
    split; [by eapply updated_same|]. split; [lia|]. split; [destruct b1; [done|unfold PAGE_SIZE; lia]|].
    split; [destruct b1; [by apply pow_mod_page|done]|]. split; [by intros ->|]. split; [done|].
    intros fuel. cbn [destroy_loop root_paging root_table is_hv].
    rewrite (proj2 (Z.leb_gt _ 0)) by lia. erewrite bind_run by exact Hw. cbv beta iota.
    erewrite bind_run by exact Hclear. cbv beta. erewrite bind_run by exact Hflush. cbv beta.
    rewrite (lv_size _ _ _ _ _ _ Hp1).
    assert ((if negb ((if b1 then 2 ^ sh1 else 0) =? 0) then if b1 then 2 ^ sh1 else 0 else PAGE_SIZE) =
      if b1 then 2 ^ sh1 else PAGE_SIZE) as ->.
    { destruct b1; [|done]. by rewrite (proj2 (Z.eqb_neq _ 0)) by (unfold PAGE_SIZE in Hps; lia). }
    set (L := if b1 then 2 ^ sh1 else PAGE_SIZE) in *.
    assert (0 < L) by (unfold L, PAGE_SIZE in *; destruct b1; lia).
    rewrite Z.gtb_ltb. destruct (Z.ltb_spec (hi - lo) L); [done|].
    rewrite u64_small by lia. by replace (hi - lo - L) with (hi - (lo + L)) by lia.
Qed.

(** The translations after the first step, if it cleared a page of the range. *)
Lemma round_mapped ps sh nb blocks lab π s lab' s' pt lo hi sh1 L b1 :
  levels va ps sh nb blocks -> tree ps nb lab π s pt -> 0 <= lo -> lo < hi <= 2 ^ va ->
  (forall v, lo <= v < hi -> same_block (sh + nb) v lo) ->
  updated (fun _ => None) ps sh nb π pt lo sh1 lab s lab' s' -> 12 <= sh1 <= sh -> (b1 = true -> L = 2 ^ sh1) ->
  clearable ps pt lo (hi - lo) sh1 b1 s -> mapped ps s pt lo hi ->
  0 < L <= hi - lo /\ (forall v, same_block sh1 v lo <-> lo <= v < lo + L) /\
  (mapped ps s' pt (lo + L) hi \/ lo + L = hi).
Proof.
  intros Hl Ht Hlo Hhi Hblk Hup Hsh1 HL Hcl [Hm Hstart].
  destruct Hcl as [Hn|(Hb1 & Hz & a & f & z & Hbl & Hz2)].
  { destruct (Hm lo); [lia|]. apply Hn; [lia|done]. }
  specialize (HL Hb1). subst L. pose proof (Z.pow_pos_nonneg 2 sh1 ltac:(done) ltac:(lia)) as HLp.
  destruct (block_same _ _ _ _ Hl lab π s pt lo lo a f z Ht ltac:(lia) ltac:(lia) Hbl eq_refl) as (_ & k & Hk & _ & ->).
  assert (Hal : lo mod 2 ^ sh1 = 0).
  { specialize (Hstart _ _ _ Hbl). apply (Z.pow_le_mono_r_iff 2 sh1 k) in Hz2; [|lia|lia].
    rewrite <- (mod_mod_pow lo sh1 k) by lia. rewrite Hstart. apply Z.mod_0_l. lia. }
  assert (Hr : forall v, same_block sh1 v lo <-> lo <= v < lo + 2 ^ sh1) by (intros v; apply block_range; [lia|done]).
  split; [lia|]. split; [done|].
  destruct Hup as [_ _ Ht' _ Hk' Hg']. apply (mapped_rest ps sh nb blocks lab' π); try done; [lia| |].
  - intros v Hv Hnone. apply (Hm v); [lia|]. eapply kept_none. rewrite <- Hnone. apply Hk'; [lia|apply Hblk; lia|].
    rewrite Hr. lia.
  - apply Hg'; [lia|]. apply Hr. lia.
Qed.

Lemma destroy_loop_run d ps sh nb blocks hv π pt hi co : levels va ps sh nb blocks -> pt mod PAGE_SIZE = 0 -> hi <= 2 ^ va ->
  forall fuel lo lab s,
  pg_ok lab s -> home π nb lab s pt -> tree ps nb lab π s pt -> 0 <= lo <= hi -> hi - lo <= Z.of_nat fuel * PAGE_SIZE ->
  (hi - lo) mod PAGE_SIZE = 0 -> (forall v, lo <= v < hi -> same_block (sh + nb) v lo) ->
  exists r lab' s', destroy_loop page_offset (paging_create_depth page_offset (S d)) fuel (mk_paging_structures ps pt hv) lo
      (hi - lo) co s = Some (r, s') /\ removed ps sh nb π pt lo hi lab s r lab' s'.
Proof.
  intros Hl Hpt Hhi. induction fuel as [|fuel IH]; intros lo lab s Hok Hhome Ht Hlo Hfuel Hmod Hblk.
  all: destruct (decide (lo = hi)) as [->|Hne];
    [exists 0, lab, s; split; [by rewrite Z.sub_diag|split; [by left|done|done|apply change_refl|]];
     intros _; exists hi; split; [lia|split; [done|split; [done|split; [lia|intros; apply kept_refl]]]]|].
  { unfold PAGE_SIZE in *. lia. }
  assert (lo + PAGE_SIZE <= hi) as Hpage.
  { pose proof (Z.div_mod (hi - lo) PAGE_SIZE ltac:(done)). unfold PAGE_SIZE in *. lia. }
  destruct (destroy_round d ps sh nb blocks hv π pt lo hi co lab s Hl Hok Hhome Hpt Ht ltac:(lia) ltac:(lia))
    as [[(ab & fb & zb & Hbl & Hz) Herr]|(lab1 & s1 & sh1 & L & b1 & Hup & Hsh1 & HL & HLm & HL1 & Hcl & Hrun)].
  { destruct (Herr fuel) as (lab' & s' & [Hok' Hc' Ht' _ Hk'] & ->). exists (- ENOMEM), lab', s'. split; [done|].
    split; [by right|done|done| |].
    - eapply change_mono; [| |exact Hc']; [intros a ->|intros ρ Hρ]; exists lo; (split; [unfold PAGE_SIZE in *; lia|done]).
    - intros [_ Hstart]. exists lo. split; [lia|]. split; [done|].
      split; [intros Hc; specialize (Hc lo _ _ _ ltac:(unfold PAGE_SIZE in *; lia) Hbl); specialize (Hstart _ _ _ Hbl); lia|].
      split; [lia|]. intros v Hv Hb _.
      eapply kept_mono; [| |by apply Hk']; unfold PAGE_SIZE in *; lia. }
  assert (Hmap1 := fun H => round_mapped ps sh nb blocks lab π s lab1 s1 pt lo hi sh1 L b1 Hl Ht (proj1 Hlo)
    ltac:(lia) Hblk Hup Hsh1 HL1 Hcl H).
  destruct Hup as [Hok1 Hc1 Ht1 _ Hk1 Hg1].
  assert (Hc1' : change (entry_in pt sh nb lo hi) (path_in π sh nb lo hi) lab s lab1 s1).
  { eapply change_mono; [| |exact Hc1]; [intros a ->|intros ρ Hρ]; exists lo; (split; [lia|done]). }
  rewrite Hrun, Z.gtb_ltb. destruct (Z.ltb_spec (hi - lo) L) as [Hbig|Hsmall].
  { exists 0, lab1, s1. split; [done|]. split; [by left|done|done|done|]. intros Hm. destruct (Hmap1 Hm) as [? _]. lia. }
  assert (HLp : 0 < L) by (unfold PAGE_SIZE in HL; lia).
  destruct (decide (lo + L = hi)) as [He|Hlt].
  { exists 0, lab1, s1. rewrite <- He, Z.sub_diag. split; [by destruct fuel|]. rewrite He.
    split; [by left|done|done|done|]. intros Hm. destruct (Hmap1 Hm) as (_ & Hblock & _). exists hi.
    split; [lia|]. split; [done|]. split; [done|]. split.
    - intros v Hv. apply Hg1; [lia|]. apply Hblock. lia.
    - intros v Hv Hb Hn. eapply kept_mono; [| |apply Hk1]; try done; [lia|]. rewrite Hblock. lia. }
  destruct (IH (lo + L) lab1 s1) as (r & lab' & s' & -> & [Hr Hok' Ht' Hc' Hm']); try done; try lia.
  { eapply home_change; [exact Hhome| |exact Hc1]. intros ρ. apply suffix_below. }
  { replace (hi - (lo + L)) with (hi - lo - L) by lia. by rewrite Zminus_mod, Hmod, HLm. }
  { intros v Hv. unfold same_block. rewrite (Hblk v), (Hblk (lo + L)) by lia. done. }
  exists r, lab', s'. split; [done|]. split; try done.
  { eapply change_trans; [exact Hc1'|]. eapply change_range; [| |exact Hc']; lia. }
  intros Hm. destruct (Hmap1 Hm) as (HLr & Hblock & [Hrest|?]); [|done].
  destruct (Hm' Hrest) as (m & Hmr & Hm0 & Hmc & Hmn & Hmk).
  assert (Hb2 : forall v, same_block (sh + nb) v lo -> same_block (sh + nb) v (lo + L)).
  { intros v Hv. unfold same_block. rewrite (Hblk (lo + L)) by lia. done. }
  exists m. split; [lia|]. split; [done|]. split.
  { intros Hc. apply Hmc. apply (contained_rest ps sh nb blocks lab π s lab1 s1 pt lo L hi); try done; [lia|].
    intros v Hv. apply Hk1; [lia|apply Hblk; lia|]. rewrite Hblock. lia. }
  split.
  - intros v Hv. destruct (decide (lo + L <= v)); [apply Hmn; lia|]. eapply kept_to_none.
    rewrite <- (Hg1 v) by (first [lia|apply Hblock; lia]). apply Hmk; [lia|apply Hb2, Hblk; lia|lia].
  - intros v Hv Hb Hn. destruct (decide (lo <= v < lo + L)) as [Hin|Hout]; [lia|].
    apply kept_trans with (block_at ps s1 pt v).
    + eapply kept_mono; [| |apply Hk1]; try done; [lia|]. by rewrite Hblock.
    + eapply kept_mono; [| |apply Hmk]; try done; [lia|by apply Hb2|lia].
Qed.

End Destroy.
