(* ===== verification/PageCreate.v ===== *)
(** * Mapping a range of pages

    One step of [paging_create] (paging.c) walks down to the largest page that
    the address, the physical address and the size allow, makes the tables on
    the way, clears what is below and sets the entry; the loop maps a range. *)

From Stdlib Require Import ZArith Lia.
From stdpp Require Import base tactics list list_numbers option gmap.
From S2P Require Import Prelude Bitops StateMonad Mmio PagePool Paging PageTree PageMap PageStep PageDestroy.

Section Create.
Context (page_offset va : Z).
Notation next_pt := (next_pt page_offset).
Notation tree := (tree page_offset).
Notation block_at := (block_at page_offset).
Notation pg_ok := (pg_ok page_offset).
Notation labels := (gmap Z (list Z)).
Notation updated := (updated page_offset va).
Notation split_only := (split_only page_offset va).
Notation descended := (descended page_offset va).

(** ** Unmapping what is below an entry *)
Lemma inner_destroy_run d p rest sh nb π pt v0 co lab s :
  levels va (p :: rest) sh nb true -> pg_ok lab s -> home π nb lab s pt -> pt mod PAGE_SIZE = 0 ->
  tree (p :: rest) nb lab π s pt -> 0 <= v0 -> v0 + 2 ^ sh <= 2 ^ va -> v0 mod 2 ^ sh = 0 ->
  exists r lab' s', destroy_body page_offset (paging_create_depth page_offset (S d)) (mk_paging_structures (p :: rest) pt false)
      v0 (2 ^ sh) co s = Some (r, s') /\
    pg_ok lab' s' /\
    change (fun a => a = pt + 8 * index sh nb v0) (fun ρ => (index sh nb v0 :: π) `suffix_of` ρ) lab s lab' s'.
Proof.
  intros Hl Hok Hhome Hpt Ht Hv0 Hv1 Hal. pose proof (levels_range _ _ _ _ _ Hl) as (Hs & Hnb & Hva & _).
  destruct (pow_sh sh Hs) as (He & He1 & He2).
  assert (Hblk : forall v, v0 <= v < v0 + 2 ^ sh -> same_block sh v v0) by (intros v; apply block_range; [lia|done]).
  destruct (destroy_loop_run page_offset va d (p :: rest) sh nb true false π pt (v0 + 2 ^ sh) co Hl Hpt Hv1
    (Z.to_nat (2 ^ sh / PAGE_SIZE)) v0 lab s Hok Hhome Ht) as (r & lab' & s' & Hrun & Hrm); [lia| | | |].
  - replace (v0 + 2 ^ sh - v0) with (2 ^ sh) by lia. rewrite He, Z.div_mul by done. lia.
  - replace (v0 + 2 ^ sh - v0) with (2 ^ sh) by lia. by apply pow_mod_page.
  - intros v Hv. eapply same_block_mono; [|by apply Hblk]. lia.
  - exists r, lab', s'. split; [|split; [apply Hrm|]].
    + unfold destroy_body. rewrite page_align_mult by (first [lia|by apply pow_mod_page]).
      by replace (v0 + 2 ^ sh - v0) with (2 ^ sh) in Hrun by lia.
    + eapply change_mono; [| |apply Hrm]; [intros a (v & Hv & ->)|intros ρ (v & Hv & Hρ)]; cbv beta;
        unfold index in *; by rewrite <- (Hblk v).
Qed.

(** ** The entry of a page *)

(** An entry without the valid flag maps nothing. *)
Definition present (flags : Z) (b : Z * Z * Z) : option (Z * Z * Z) := if valid flags then Some b else None.

Lemma present_valid flags b : valid flags = true -> present flags b = Some b.
Proof. unfold present. by intros ->. Qed.

Lemma present_kept lo hi v flags b b' : kept lo hi v (present flags b) b' -> valid flags = false -> b' = present flags b.
Proof. unfold present. intros Hk Hv. rewrite Hv in *. by eapply kept_to_none. Qed.

Lemma terminal_entry p rest sh nb last set phys flags lab i π s pt :
  levels va (p :: rest) sh nb true -> level_ok va p sh nb true last -> (last = true <-> rest = []) ->
  0 <= phys < 2 ^ 48 -> phys mod 2 ^ sh = 0 -> flags_ok flags ->
  (forall phys flags, 0 <= phys < 2 ^ 48 -> phys mod 2 ^ sh = 0 -> flags_ok flags ->
     set phys flags = phys + (if last then Z.lor flags 2 else flags)) ->
  entry_ok page_offset p rest lab i π s (set phys flags) /\
  forall v, 0 <= v < 2 ^ va -> word_at (pt + 8 * index sh nb v) s = set phys flags ->
    block_at (p :: rest) s pt v = present flags (phys + v mod 2 ^ sh, flags, 2 ^ sh).
Proof.
  intros Hl Hp Hlast Hph Hpm Hflags Hset. pose proof (lv_range _ _ _ _ _ _ Hp) as (Hs & Hnb & _).
  rewrite Hset by done. pose proof Hflags as [Hfr Hft].
  destruct (pte_value_add phys (if last then Z.lor flags 2 else flags)) as [_ Haddr Hlow Hv Ht]; [done| | |].
  { change (2 ^ 12) with PAGE_SIZE. by apply (mult_mod_page phys sh). }
  { destruct last; [by apply tag_flags|done]. }
  set (x := phys + _) in *.
  assert (Hxv : valid x = valid flags) by (rewrite Hv; destruct last; [apply (proj1 (proj2 (tag_flags flags Hflags)))|done]).
  assert (Hxt : tagged x = last) by (rewrite Ht; destruct last; [by apply tag_flags|done]).
  split.
  - intros _. rewrite Hxt. destruct rest as [|p2 rest]; [by apply Hlast|]. destruct last; [by discriminate (proj1 Hlast eq_refl)|].
    rewrite (lv_size _ _ _ _ _ _ Hp). apply Z.pow_nonzero; lia.
  - intros v Hvr Hw. cbn [PageTree.block_at]. rewrite (lv_entry _ _ _ _ _ _ Hp) by done. fold (index sh nb v).
    rewrite Hw, Hxv, Hxt, (lv_size _ _ _ _ _ _ Hp). unfold present. destruct (valid flags); cbn [negb]; [|done].
    assert (Some (leaf_addr (2 ^ sh) x v, leaf_flags x, 2 ^ sh) = Some (phys + v mod 2 ^ sh, flags, 2 ^ sh)) as <-.
    { unfold leaf_addr, leaf_flags. rewrite Haddr, Hlow, Hpm. do 3 f_equal; [lia|].
      destruct last; [by apply tag_flags|by apply ldiff_tag]. }
    destruct rest as [|p2 rest]; [done|]. destruct last; [by discriminate (proj1 Hlast eq_refl)|done].
Qed.

(** ** A new table *)
Lemma descend_new {A} p rest sh nb blocks π pt v0 lab s co (K : Z -> PG A) :
  levels va (p :: rest) sh nb blocks -> rest <> [] -> pg_ok lab s -> home π nb lab s pt -> pt mod PAGE_SIZE = 0 ->
  tree (p :: rest) nb lab π s pt -> 0 <= v0 < 2 ^ va ->
  let i0 := index sh nb v0 in
  valid (word_at (pt + 8 * i0) s) = false ->
  ((mem_page_alloc 1 ≫= K) s = K 0 s) \/
  exists q lab1 s0, (mem_page_alloc 1 ≫= K) s = K q s0 /\ q <> 0 /\
    descended p rest sh nb π pt v0 q lab s lab1
      (set_entry co (pt + 8 * i0) (arm_set_l12_table (paging_hvirt2phys page_offset q)) s0).
Proof.
  intros Hl Hne Hok Hhome Hpt Ht Hv0 i0 Hinv. pose proof (levels_range _ _ _ _ _ Hl) as (Hs & Hnb & _).
  destruct (levels_head _ _ _ _ _ _ Hl) as (last & Hp & Hlast & Hrest).
  destruct last; [by destruct Hne, (proj1 Hlast eq_refl)|]. specialize (Hrest eq_refl).
  pose proof (index_range sh nb v0 ltac:(lia)) as Hi. fold i0 in Hi.
  destruct (alloc_run page_offset lab s K Hok) as [H0|(q & s0 & Hr & Hq0 & Hqf & Hlq & Hw & Hqa & Hz & Hnew)]; [by left|].
  right. destruct (Hnew (i0 :: π)) as [Hok1 Hc1].
  specialize (Hc1 (fun a => a = pt + 8 * i0) (fun ρ => (i0 :: π) `suffix_of` ρ) ltac:(by exists [])).
  set (lab1 := <[q := i0 :: π]> lab) in *. exists q, lab1, s0. split; [done|]. split; [done|].
  set (x := arm_set_l12_table _). set (s1 := set_entry co (pt + 8 * i0) x s0).
  assert (Hhome1 : home π nb lab1 s0 pt).
  { eapply home_change; [exact Hhome| |exact Hc1]. intros ρ. apply suffix_below. }
  destruct (set_entry_ok page_offset lab1 s0 s1 π nb pt i0 x (fun ρ => (i0 :: π) `suffix_of` ρ) Hok1 Hhome1 Hpt Hi) as [Hok2 Hc2];
    [intros a; apply set_entry_word|apply set_entry_pool|].
  destruct (next_pt_table page_offset lab s q Hok (or_intror Hqf)) as (Hxv & Hxt & Hxn).
  assert (Hpage : forall j, 0 <= j < 2 ^ 9 -> word_at (q + 8 * j) s1 = 0).
  { intros j Hj. unfold s1. assert (in_page (q + 8 * j) q) as Hin by (by exists j).
    rewrite set_entry_word, Hw. destruct (Z.eqb_spec (q + 8 * j) (pt + 8 * i0)) as [He|]; [|by apply Hz].
    rewrite He in Hin. by destruct (Hhome i0 q Hi Hqa Hin) as [Hn _]. }
  destruct (empty_tree page_offset va rest (sh - 9) 9 true lab1 (i0 :: π) s1 q Hrest Hpage) as [Htq Hbq].
  assert (Hx1 : word_at (pt + 8 * i0) s1 = x) by (unfold s1; by rewrite set_entry_word, Z.eqb_refl).
  split; try done.
  - eapply change_trans; [exact Hc1|exact Hc2].
  - fold i0. by rewrite Hx1.
  - apply lookup_insert_eq.
  - intros v Hv Hb. left. rewrite Hbq by done. cbn [PageTree.block_at]. rewrite (lv_entry _ _ _ _ _ _ Hp) by done.
    fold (index sh nb v). assert (index sh nb v = i0) as -> by (unfold i0, index; by rewrite Hb). by rewrite Hinv.
Qed.

(** ** One step *)
Notation walked d := (create_walk page_offset (paging_create_depth page_offset (S d))).

(** The mapping of a page. *)
Definition page_of (phys flags sh v : Z) : option (Z * Z * Z) := present flags (phys + v mod 2 ^ sh, flags, 2 ^ sh).

Definition create_error (ps : list paging) (sh nb : Z) (π : list Z) (pt v0 : Z) (lab : labels) (s : pgstate)
    (walk : option ((Z + Z) * pgstate)) : Prop :=
  exists lab' s', walk = Some (inl (- ENOMEM), s') /\ split_only ps sh nb π pt v0 lab s lab' s'.

Definition create_done (ps : list paging) (sh nb : Z) (π : list Z) (pt v0 phys flags size : Z) (lab : labels) (s : pgstate)
    (walk : option ((Z + Z) * pgstate)) : Prop :=
  exists lab' s' sh1, walk = Some (inr (2 ^ sh1), s') /\ 12 <= sh1 <= sh /\ 2 ^ sh1 <= size /\ v0 mod 2 ^ sh1 = 0 /\
    phys mod 2 ^ sh1 = 0 /\ updated (page_of phys flags sh1) ps sh nb π pt v0 sh1 lab s lab' s'.

(** The page is that of an entry of this table. *)
Lemma create_here d p rest sh nb π pt v0 phys flags size co lab s :
  levels va (p :: rest) sh nb true -> pg_ok lab s -> home π nb lab s pt -> pt mod PAGE_SIZE = 0 ->
  tree (p :: rest) nb lab π s pt -> 0 <= v0 -> v0 + 2 ^ sh <= 2 ^ va -> 0 <= phys < 2 ^ 48 -> flags_ok flags ->
  2 ^ sh <= size -> v0 mod 2 ^ sh = 0 -> phys mod 2 ^ sh = 0 ->
  create_done (p :: rest) sh nb π pt v0 phys flags size lab s
    ((_ ← (if page_size p >? PAGE_SIZE
           then destroy_body page_offset (paging_create_depth page_offset (S d)) (mk_paging_structures (p :: rest) pt false)
                  v0 (page_size p) co
           else mret 0);
      set ← lift (set_terminal p);
      _ ← store (pt + 8 * index sh nb v0) (set phys flags);
      _ ← flush_pt_entry (pt + 8 * index sh nb v0) co;
      mret (inr (page_size p))) s).
Proof.
  intros Hl Hok Hhome Hpt Ht Hv0 Hv1 Hph Hflags Hsz Hvm Hpm.
  pose proof (levels_range _ _ _ _ _ Hl) as (Hs & Hnb & _).
  destruct (levels_head _ _ _ _ _ _ Hl) as (last & Hp & Hlast & _).
  destruct (lv_set _ _ _ _ _ _ Hp eq_refl) as (set & Hset & Hval). pose proof (Z.pow_pos_nonneg 2 sh ltac:(done) ltac:(lia)).
  rewrite (lv_size _ _ _ _ _ _ Hp).
  assert (exists r lab1 s1, (if 2 ^ sh >? PAGE_SIZE
      then destroy_body page_offset (paging_create_depth page_offset (S d)) (mk_paging_structures (p :: rest) pt false)
             v0 (2 ^ sh) co
      else mret 0) s = Some (r, s1) /\ pg_ok lab1 s1 /\
    change (fun a => a = pt + 8 * index sh nb v0) (fun ρ => (index sh nb v0 :: π) `suffix_of` ρ) lab s lab1 s1)
    as (r & lab1 & s1 & Hr & Hok1 & Hc1).
  { destruct (2 ^ sh >? PAGE_SIZE); [by apply inner_destroy_run|]. exists 0, lab, s. split; [done|]. split; [done|apply change_refl]. }
  set (x := set phys flags). set (s' := set_entry co (pt + 8 * index sh nb v0) x s1).
  exists lab1, s', sh. split.
  { erewrite bind_run by exact Hr. cbv beta. rewrite (lift_run _ set) by done. by rewrite set_entry_run. }
  split; [lia|]. split; [done|]. split; [done|]. split; [done|].
  destruct (terminal_entry p rest sh nb last set phys flags lab1 (index sh nb v0) π s' pt Hl Hp Hlast Hph Hpm Hflags Hval)
    as [Hentry Hblock].
  eapply (set_updated page_offset va _ p rest sh nb true); [done|exact Hok|done|done|done|lia|exact Hok1|exact Hc1| | |exact Hentry|].
  - intros a. apply set_entry_word.
  - apply set_entry_pool.
  - intros v Hv Hb. apply Hblock; [done|]. assert (index sh nb v = index sh nb v0) as -> by (unfold index; by rewrite Hb).
    unfold s'. by rewrite set_entry_word, Z.eqb_refl.
Qed.

(** The walk goes on in the table of the entry. *)
Lemma create_down p rest sh nb blocks π pt v0 q phys flags size lab s lab1 s1 walk :
  levels va (p :: rest) sh nb blocks -> levels va rest (sh - 9) 9 true -> pg_ok lab s -> home π nb lab s pt ->
  pt mod PAGE_SIZE = 0 -> tree (p :: rest) nb lab π s pt -> 0 <= v0 < 2 ^ va ->
  descended p rest sh nb π pt v0 q lab s lab1 s1 ->
  create_error rest (sh - 9) 9 (index sh nb v0 :: π) q v0 lab1 s1 walk \/
  create_done rest (sh - 9) 9 (index sh nb v0 :: π) q v0 phys flags size lab1 s1 walk ->
  create_error (p :: rest) sh nb π pt v0 lab s walk \/
  create_done (p :: rest) sh nb π pt v0 phys flags size lab s walk.
Proof.
  intros Hl Hrest Hok Hhome Hpt Ht Hv0 Hde [(lab2 & s2 & Hw & Hso)|(lab2 & s2 & sh1 & Hw & Hsh1 & Hz & Hvm & Hpm & Hup)].
  - left. exists lab2, s2. split; [done|]. by eapply descent_split_only.
  - right. exists lab2, s2, sh1. split; [done|]. split; [lia|]. split; [done|]. split; [done|]. split; [done|].
    eapply descent_updated; try done. lia.
Qed.

Lemma aligned_end v sh n : 0 <= sh <= n -> 0 <= v < 2 ^ n -> v mod 2 ^ sh = 0 -> v + 2 ^ sh <= 2 ^ n.
Proof.
  intros Hs Hv Hm. replace n with ((n - sh) + sh) in * by lia. rewrite Z.pow_add_r in * by lia.
  pose proof (Z.pow_pos_nonneg 2 sh ltac:(done) ltac:(lia)). pose proof (Z.div_mod v (2 ^ sh) ltac:(lia)).
  assert (v / 2 ^ sh < 2 ^ (n - sh)) by (apply Z.div_lt_upper_bound; lia).
  assert ((v / 2 ^ sh + 1) * 2 ^ sh <= 2 ^ (n - sh) * 2 ^ sh) by (apply Z.mul_le_mono_nonneg_r; lia). lia.
Qed.

Lemma not_usable p sh nb last phys virt size : level_ok va p sh nb false last -> usable_size p phys virt size = false.
Proof. intros Hp. unfold usable_size. by rewrite (lv_size _ _ _ _ _ _ Hp). Qed.

(** The walk goes on in a table: the one of the entry, or one made by a split
    or allocated, if there is a page for it. *)
Lemma create_walk_down d p rest sh nb blocks π pt lab s v0 phys flags size co :
  levels va (p :: rest) sh nb blocks -> rest <> [] -> pg_ok lab s -> home π nb lab s pt -> pt mod PAGE_SIZE = 0 ->
  tree (p :: rest) nb lab π s pt -> 0 <= v0 < 2 ^ va -> usable_size p phys v0 size = false ->
  let x := word_at (pt + 8 * index sh nb v0) s in
  let walk := walked d (p :: rest) pt phys size v0 flags co s in
  let go q s1 := walked d rest q phys size v0 flags co s1 in
  (valid x && tagged x = true /\ walk = go (next_pt x) s /\ descended p rest sh nb π pt v0 (next_pt x) lab s lab s) \/
  valid x && tagged x = false /\
    (walk = Some (inl (- ENOMEM), s) \/ exists q lab1 s1, walk = go q s1 /\ descended p rest sh nb π pt v0 q lab s lab1 s1).
Proof.
  intros Hl Hne Hok Hhome Hpt Htree Hv0 Hus x. cbn [create_walk]. rewrite Hus.
  destruct (levels_head _ _ _ _ _ _ Hl) as (last & Hp & Hlast & _).
  destruct last; [by destruct Hne, (proj1 Hlast eq_refl)|].
  rewrite !(lv_entry _ _ _ _ _ _ Hp) by done. fold (index sh nb v0).
  assert (Hnext : forall q lab1 s1, descended p rest sh nb π pt v0 q lab s lab1 s1 ->
    (v ← read (pt + 8 * index sh nb v0); next ← lift (get_next_pt p);
     walked d rest (paging_phys2hvirt page_offset (next v)) phys size v0 flags co) s1 =
    walked d rest q phys size v0 flags co s1).
  { intros q lab1 s1 Hde. rewrite read_run, (lift_run _ arm_get_l12_table) by apply (lv_next _ _ _ _ _ _ Hp eq_refl).
    destruct (de_entry _ _ _ _ _ _ _ _ _ _ _ _ _ _ Hde) as (_ & _ & <-). done. }
  rewrite read_run, entry_valid_bit. fold x. destruct (valid x) eqn:Hvx; [destruct (tagged x) eqn:Htx|]; cbn [andb].
  - left. split; [done|].
    assert (Hde := descend_table page_offset va p rest sh nb blocks π pt v0 lab s Hl Hne Hok Htree Hv0 Hvx Htx).
    split; [|exact Hde]. erewrite bind_run.
    2: { unfold split_hugepage. rewrite read_run. fold x. by rewrite (lv_phys _ _ _ _ _ _ Hp x v0 Hvx Hv0), Htx. }
    cbv beta. cbn [Z.eqb negb]. by rewrite (Hnext _ _ _ Hde).
  - right. split; [done|].
    destruct (descend_split page_offset va d p rest sh nb blocks π pt v0 lab s co Hl Hne Hok Hhome Hpt Htree Hv0 Hvx Htx)
      as [Hr|(q & lab1 & s1 & Hr & Hde)]; erewrite bind_run by exact Hr; cbv beta; [by left|].
    right. exists q, lab1, s1. cbn [Z.eqb negb]. by rewrite (Hnext _ _ _ Hde).
  - right. split; [done|]. match goal with |- context [mem_page_alloc 1 ≫= ?k] => set (K := k) end.
    destruct (descend_new p rest sh nb blocks π pt v0 lab s co K Hl Hne Hok Hhome Hpt Htree Hv0 Hvx)
      as [H0|(q & lab1 & s0 & -> & Hq0 & Hde)]; [left; by rewrite H0|].
    right. eexists q, lab1, _. split; [|exact Hde]. unfold K. rewrite (proj2 (Z.eqb_neq _ _) Hq0).
    rewrite (lift_run _ arm_set_l12_table) by apply (lv_next _ _ _ _ _ _ Hp eq_refl). by rewrite set_entry_run.
Qed.

Lemma create_step_run d ps sh nb blocks phys flags size co : levels va ps sh nb blocks -> forall π pt lab s v0,
  pg_ok lab s -> home π nb lab s pt -> pt mod PAGE_SIZE = 0 -> tree ps nb lab π s pt -> 0 <= v0 < 2 ^ va ->
  v0 mod PAGE_SIZE = 0 -> 0 <= phys < 2 ^ 48 -> phys mod PAGE_SIZE = 0 -> PAGE_SIZE <= size -> flags_ok flags ->
  create_error ps sh nb π pt v0 lab s (walked d ps pt phys size v0 flags co s) \/
  create_done ps sh nb π pt v0 phys flags size lab s (walked d ps pt phys size v0 flags co s).
Proof.
  intros Hlv. induction Hlv as [p nb Hp|p rest sh nb blocks Hp Hrest IH];
    intros π pt lab s v0 Hok Hhome Hpt Htree Hv0 Hvm Hph Hpm Hsize Hflags; pose proof (lv_range _ _ _ _ _ _ Hp) as (Hs & Hnb & Hva & _).
  - cbn [create_walk]. rewrite !(lv_entry _ _ _ _ _ _ Hp) by done. fold (index 12 nb v0).
    rewrite (proj2 (usable_size_spec p phys v0 size 12 (lv_size _ _ _ _ _ _ Hp) ltac:(done)))
      by done. right. apply create_here; try done; [by apply levels_last|lia|].
    apply aligned_end; [lia|done|done].
  - assert (Hl : levels va (p :: rest) sh nb blocks) by (by apply levels_cons).
    assert (Hne : rest <> []) by (by inversion Hrest).
    destruct (usable_size p phys v0 size) eqn:Hus.
    { destruct blocks; [|by rewrite (not_usable _ _ _ _ _ _ _ Hp) in Hus].
      cbn [create_walk]. rewrite Hus, !(lv_entry _ _ _ _ _ _ Hp) by done. fold (index sh nb v0).
      apply (usable_size_spec p phys v0 size sh (lv_size _ _ _ _ _ _ Hp)) in Hus as (? & ? & ?); [|lia].
      right. apply create_here; try done; [lia|]. apply aligned_end; [lia|done|done]. }
    assert (Hdown : forall q lab1 s1, descended p rest sh nb π pt v0 q lab s lab1 s1 ->
      create_error (p :: rest) sh nb π pt v0 lab s (walked d rest q phys size v0 flags co s1) \/
      create_done (p :: rest) sh nb π pt v0 phys flags size lab s (walked d rest q phys size v0 flags co s1)).
    { intros q lab1 s1 Hde. pose proof (descent_page page_offset va p rest sh nb π pt v0 q lab lab1 s s1 Hde) as Hq.
      eapply (create_down p rest sh nb blocks); try done. apply IH; try done; try apply Hde.
      exact (home_labelled page_offset _ _ _ _ (de_ok _ _ _ _ _ _ _ _ _ _ _ _ _ _ Hde) (de_lab _ _ _ _ _ _ _ _ _ _ _ _ _ _ Hde)). }
    destruct (create_walk_down d p rest sh nb blocks π pt lab s v0 phys flags size co) as [(_ & -> & Hde)|(_ & [->|(q & lab1 & s1 & -> & Hde)])];
      try done; [by eapply Hdown| |by eapply Hdown].
    left. exists lab, s. split; [done|]. split; try done; [apply change_refl|intros; apply kept_refl].
Qed.

(** ** The loop *)

(** After [paging_create] on the range from [lo] to [hi], with result [r]. *)
Record placed (ps : list paging) (sh nb : Z) (π : list Z) (pt lo hi phys flags : Z) (lab : labels) (s : pgstate) (r : Z)
    (lab' : labels) (s' : pgstate) : Prop := {
  pl_code : r = 0 \/ r = - ENOMEM;
  pl_ok : pg_ok lab' s';
  pl_tree : tree ps nb lab' π s' pt;
  pl_change : change (entry_in pt sh nb lo hi) (path_in π sh nb lo hi) lab s lab' s';
  pl_map : exists m, lo <= m <= hi /\ (r = 0 -> m = hi) /\
    (forall v, lo <= v < m -> exists z, block_at ps s' pt v = present flags (phys + (v - lo), flags, z) /\
       lo <= v - v mod z /\ v - v mod z + z <= m) /\
    forall v, 0 <= v < 2 ^ va -> same_block (sh + nb) v lo -> ~ lo <= v < m ->
      kept lo hi v (block_at ps s pt v) (block_at ps s' pt v);
}.

(** The page of one step stays where it is. *)
Lemma page_stays lo hi sh phys flags v b : 0 <= sh -> lo mod 2 ^ sh = 0 -> phys mod 2 ^ sh = 0 -> lo <= v < lo + 2 ^ sh ->
  kept (lo + 2 ^ sh) hi v (page_of phys flags sh v) b -> b = present flags (phys + (v - lo), flags, 2 ^ sh).
Proof.
  intros Hs Hlo Hph Hv Hk. pose proof (proj2 (block_range sh v lo Hs Hlo) Hv) as Hb.
  assert (He : page_of phys flags sh v = present flags (phys + (v - lo), flags, 2 ^ sh)).
  { unfold page_of. do 3 f_equal. pose proof (Z.pow_pos_nonneg 2 sh ltac:(done) Hs).
    pose proof (Z.div_mod v (2 ^ sh) ltac:(lia)) as Hd. pose proof (Z.div_mod lo (2 ^ sh) ltac:(lia)) as Hd2.
    unfold same_block in Hb. rewrite Hb in Hd. lia. }
  rewrite He in Hk. destruct (valid flags) eqn:Hvalid; [|by eapply present_kept].
  unfold present in *. rewrite Hvalid in *. destruct Hk as [->|(a & f & z & z' & [= <- <- <-] & _ & _ & w & Hw & Hvw)]; [done|].
  unfold same_block in Hb. rewrite Hb in Hvw. symmetry in Hvw. apply (block_range sh w lo Hs Hlo) in Hvw. lia.
Qed.

Lemma create_loop_run d ps sh nb blocks hv π pt hi flags co : levels va ps sh nb blocks -> pt mod PAGE_SIZE = 0 ->
  hi <= 2 ^ va -> flags_ok flags -> forall fuel lo phys lab s,
  pg_ok lab s -> home π nb lab s pt -> tree ps nb lab π s pt -> 0 <= lo <= hi -> lo mod PAGE_SIZE = 0 ->
  hi - lo <= Z.of_nat fuel * PAGE_SIZE -> (hi - lo) mod PAGE_SIZE = 0 ->
  0 <= phys -> phys + (hi - lo) <= 2 ^ 48 -> phys mod PAGE_SIZE = 0 ->
  (forall v, lo <= v < hi -> same_block (sh + nb) v lo) ->
  exists r lab' s', create_loop page_offset (paging_create_depth page_offset (S d)) fuel (mk_paging_structures ps pt hv) phys
      (hi - lo) lo flags co s = Some (r, s') /\ placed ps sh nb π pt lo hi phys flags lab s r lab' s'.
Proof.
  intros Hl Hpt Hhi Hflags. pose proof (levels_range _ _ _ _ _ Hl) as (_ & _ & Hva & _).
  assert (Hva2 : 2 ^ va <= 2 ^ 48) by (apply Z.pow_le_mono_r; lia).
  induction fuel as [|fuel IH]; intros lo phys lab s Hok Hhome Ht Hlo Hlom Hfuel Hmod Hph Hph2 Hphm Hblk.
  all: destruct (decide (lo = hi)) as [->|Hne];
    [exists 0, lab, s; split; [by rewrite Z.sub_diag|split; [by left|done|done|apply change_refl|]];
     exists hi; split; [lia|split; [done|split; [lia|intros; apply kept_refl]]]|].
  { unfold PAGE_SIZE in *. lia. }
  assert (lo + PAGE_SIZE <= hi) as Hpage.
  { pose proof (Z.div_mod (hi - lo) PAGE_SIZE ltac:(done)). unfold PAGE_SIZE in *. lia. }
  cbn [create_loop root_paging root_table is_hv]. rewrite (proj2 (Z.leb_gt _ 0)) by lia.
  destruct (create_step_run d ps sh nb blocks phys flags (hi - lo) co Hl π pt lab s lo) as
    [(lab' & s' & Hw & [Hok' Hc' Ht' _ Hk'])|(lab1 & s0 & sh1 & Hw & Hsh1 & Hz & Hvm & Hpm & Hup)]; try done; [lia|lia|lia| |];
    erewrite bind_run by exact Hw; cbv beta iota.
  { exists (- ENOMEM), lab', s'. split; [done|]. split; [by right|done|done| |].
    - eapply change_mono; [| |exact Hc']; [intros a ->|intros ρ Hρ]; exists lo; (split; [lia|done]).
    - exists lo. split; [lia|]. split; [done|]. split; [lia|]. intros v Hv Hb _.
      eapply kept_mono; [| |by apply Hk']; lia. }
  destruct (flush_same hv lo s0) as (s1 & Hflush & Hsame). erewrite bind_run by exact Hflush. cbv beta.
  apply (updated_same page_offset va _ _ _ _ _ _ _ _ _ _ _ _ _ _ Hl Hsame) in Hup.
  destruct (pow_sh sh1 ltac:(pose proof (levels_range _ _ _ _ _ Hl); lia)) as (_ & _ & HL & _).
  assert (HLm := pow_mod_page sh1 ltac:(pose proof (levels_range _ _ _ _ _ Hl); lia)).
  assert (HLp : 0 < 2 ^ sh1) by (apply Z.pow_pos_nonneg; lia).
  rewrite !u64_small by lia. destruct Hup as [Hok1 Hc1 Ht1 _ Hk1 Hg1].
  assert (Hblock : forall v, same_block sh1 v lo <-> lo <= v < lo + 2 ^ sh1) by (intros v; apply block_range; [lia|done]).
  assert (Hc1' : change (entry_in pt sh nb lo hi) (path_in π sh nb lo hi) lab s lab1 s1).
  { eapply change_mono; [| |exact Hc1]; [intros a ->|intros ρ Hρ]; exists lo; (split; [lia|done]). }
  replace (hi - lo - 2 ^ sh1) with (hi - (lo + 2 ^ sh1)) by lia.
  assert (Hnew : forall v b, lo <= v < lo + 2 ^ sh1 -> kept (lo + 2 ^ sh1) hi v (block_at ps s1 pt v) b ->
    b = present flags (phys + (v - lo), flags, 2 ^ sh1)).
  { intros v b Hv Hk. apply (page_stays lo hi sh1 phys flags v); try done; [lia|].
    by rewrite <- (Hg1 v) by (first [lia|apply Hblock; lia]). }
  assert (Hstart : forall v, lo <= v < lo + 2 ^ sh1 -> v - v mod 2 ^ sh1 = lo).
  { intros v Hv. apply Hblock in Hv. unfold same_block in Hv. pose proof (Z.div_mod v (2 ^ sh1) ltac:(lia)) as Hd.
    pose proof (Z.div_mod lo (2 ^ sh1) ltac:(lia)). rewrite Hv in Hd. lia. }
  destruct (decide (lo + 2 ^ sh1 = hi)) as [He|Hlt].
  { exists 0, lab1, s1. rewrite He, Z.sub_diag. split; [by destruct fuel|]. split; [by left|done|done|done|].
    exists hi. split; [lia|]. split; [done|]. split.
    - intros v Hv. exists (2 ^ sh1). split; [apply Hnew; [lia|apply kept_refl]|]. rewrite Hstart by lia. lia.
    - intros v Hv Hb Hn. eapply kept_mono; [| |apply Hk1]; try done; [lia|]. rewrite Hblock. lia. }
  assert (Hadd : forall x, x mod PAGE_SIZE = 0 -> (x + 2 ^ sh1) mod PAGE_SIZE = 0) by (intros x Hx; by rewrite Zplus_mod, Hx, HLm).
  destruct (IH (lo + 2 ^ sh1) (phys + 2 ^ sh1) lab1 s1) as (r & lab' & s' & Hrun & [Hr Hok' Ht' Hc' (m & Hmr & Hm0 & Hmp & Hmk)]);
    try done; try lia; try (by apply Hadd).
  { eapply home_change; [exact Hhome| |exact Hc1]. intros ρ. apply suffix_below. }
  { replace (hi - (lo + 2 ^ sh1)) with (hi - lo - 2 ^ sh1) by lia. by rewrite Zminus_mod, Hmod, HLm. }
  { intros v Hv. unfold same_block. rewrite (Hblk v), (Hblk (lo + 2 ^ sh1)) by lia. done. }
  exists r, lab', s'. split; [exact Hrun|]. split; try done.
  { eapply change_trans; [exact Hc1'|]. eapply change_range; [| |exact Hc']; lia. }
  exists m. split; [lia|]. split; [done|].
  assert (Hb2 : forall v, same_block (sh + nb) v lo -> same_block (sh + nb) v (lo + 2 ^ sh1)).
  { intros v Hv. unfold same_block. rewrite (Hblk (lo + 2 ^ sh1)) by lia. done. }
  split.
  - intros v Hv. destruct (decide (lo + 2 ^ sh1 <= v)).
    + destruct (Hmp v ltac:(lia)) as (z & Hz' & ? & ?). exists z. split; [|lia]. rewrite Hz'. do 3 f_equal. lia.
    + exists (2 ^ sh1). rewrite Hstart by lia. split; [|lia]. apply Hnew; [lia|]. apply Hmk; [lia|apply Hb2, Hblk; lia|lia].
  - intros v Hv Hb Hn. apply kept_trans with (block_at ps s1 pt v).
    + eapply kept_mono; [| |apply Hk1]; try done; [lia|]. rewrite Hblock. lia.
    + eapply kept_mono; [| |apply Hmk]; try done; [lia|by apply Hb2|lia].
Qed.

End Create.
