(* ===== verification/AddressSpace.v ===== *)
(** * Address spaces

    The page tables of a cell or of the hypervisor as a map from addresses to
    pages, and what [paging_create], [paging_destroy] and [paging_virt2phys]
    (paging.c) do to it. *)

From Stdlib Require Import ZArith Lia.
From stdpp Require Import base tactics list list_numbers option gmap.
From S2P Require Import Prelude Bitops StateMonad Mmio PagePool Paging PageTree PageMap PageStep PageDestroy PageCreate.

Section Space.
Context (page_offset va sh nb : Z).
Notation labels := (gmap Z (list Z)).

(** The page tables of [pg] form a tree; the path of a table ends with [π],
    which tells the trees apart that share a pool. *)
Record space_ok (π : list Z) (pg : paging_structures) (lab : labels) (s : pgstate) : Prop := {
  so_ok : pg_ok page_offset lab s;
  so_levels : exists blocks, levels va (root_paging pg) sh nb blocks;
  so_whole : sh + nb = va;
  so_home : home π nb lab s (root_table pg);
  so_root : root_table pg mod PAGE_SIZE = 0;
  so_tree : tree page_offset (root_paging pg) nb lab π s (root_table pg);
}.

(** What an address is mapped to: the physical address, the flags and the size
    of the page. *)
Definition mapping (pg : paging_structures) (s : pgstate) (v : Z) : option (Z * Z * Z) :=
  block_at page_offset (root_paging pg) s (root_table pg) v.

Lemma whole_space π pg lab s v lo : space_ok π pg lab s -> 0 <= v < 2 ^ va -> 0 <= lo < 2 ^ va ->
  same_block (sh + nb) v lo.
Proof. intros H Hv Hl. unfold same_block. rewrite (so_whole _ _ _ _ H). by rewrite !Z.div_small. Qed.

Lemma page_align_spec size : 0 <= size <= 2 ^ 62 -> 0 <= PAGE_ALIGN size <= 2 ^ 63 /\ PAGE_ALIGN size mod PAGE_SIZE = 0 /\
  size <= PAGE_ALIGN size < size + PAGE_SIZE.
Proof.
  intros Hs. unfold PAGE_ALIGN, PAGE_SIZE in *. rewrite u64_small, land_page_mask by lia. unfold PAGE_SIZE.
  pose proof (Z.mod_pos_bound (size + 4096 - 1) 4096 ltac:(done)). split; [lia|]. split; [|lia].
  rewrite Zminus_mod_idemp_r. by rewrite Z.sub_diag.
Qed.

(** What [paging_destroy] and [paging_create] do to one address space. *)
Record unmaps (π : list Z) (pg : paging_structures) (lo hi : Z) (lab : labels) (s : pgstate) (r : Z)
    (lab' : labels) (s' : pgstate) : Prop := {
  um_code : r = 0 \/ r = - ENOMEM;
  um_space : space_ok π pg lab' s';
  um_change : change (entry_in (root_table pg) sh nb lo hi) (path_in π sh nb lo hi) lab s lab' s';
  um_map : mapped page_offset (root_paging pg) s (root_table pg) lo hi -> exists m, lo <= m <= hi /\ (r = 0 -> m = hi) /\
    (contained page_offset (root_paging pg) s (root_table pg) lo hi -> r = 0) /\
    (forall v, lo <= v < m -> mapping pg s' v = None) /\
    forall v, 0 <= v < 2 ^ va -> ~ lo <= v < m -> kept lo hi v (mapping pg s v) (mapping pg s' v);
}.

Record maps (π : list Z) (pg : paging_structures) (lo hi phys flags : Z) (lab : labels) (s : pgstate) (r : Z)
    (lab' : labels) (s' : pgstate) : Prop := {
  mp_code : r = 0 \/ r = - ENOMEM;
  mp_space : space_ok π pg lab' s';
  mp_change : change (entry_in (root_table pg) sh nb lo hi) (path_in π sh nb lo hi) lab s lab' s';
  mp_map : exists m, lo <= m <= hi /\ (r = 0 -> m = hi) /\
    (forall v, lo <= v < m -> exists z, mapping pg s' v = present flags (phys + (v - lo), flags, z) /\
       lo <= v - v mod z /\ v - v mod z + z <= m) /\
    forall v, 0 <= v < 2 ^ va -> ~ lo <= v < m -> kept lo hi v (mapping pg s v) (mapping pg s' v);
}.

Lemma space_after π pg lab s lab' s' lo hi : space_ok π pg lab s -> pg_ok page_offset lab' s' ->
  tree page_offset (root_paging pg) nb lab' π s' (root_table pg) ->
  change (entry_in (root_table pg) sh nb lo hi) (path_in π sh nb lo hi) lab s lab' s' -> space_ok π pg lab' s'.
Proof.
  intros [Hok Hl Hw Hh Hr Ht] Hok' Ht' Hc. split; try done. eapply home_change; [exact Hh| |exact Hc].
  intros ρ (v & _ & Hρ). by eapply suffix_below.
Qed.

Lemma fuel_enough size : 0 <= size -> size mod PAGE_SIZE = 0 -> size <= Z.of_nat (Z.to_nat (size / PAGE_SIZE)) * PAGE_SIZE.
Proof. intros Hs Hm. pose proof (Z.div_mod size PAGE_SIZE ltac:(done)). pose proof (Z.div_pos size PAGE_SIZE Hs ltac:(done)). unfold PAGE_SIZE in *. lia. Qed.

Lemma paging_destroy_run π pg virt size co lab s : space_ok π pg lab s -> 0 <= virt < 2 ^ va -> 0 <= size <= 2 ^ va ->
  virt + PAGE_ALIGN size <= 2 ^ va -> exists r lab' s', paging_destroy page_offset pg virt size co s = Some (r, s') /\
    unmaps π pg virt (virt + PAGE_ALIGN size) lab s r lab' s'.
Proof.
  intros Hsp Hv Hsz Hend. destruct (so_levels _ _ _ _ Hsp) as [blocks Hl].
  pose proof (levels_range _ _ _ _ _ Hl) as (_ & _ & Hva & _).
  assert (2 ^ va <= 2 ^ 48) by (apply Z.pow_le_mono_r; lia).
  destruct (page_align_spec size ltac:(lia)) as (Ha0 & Ham & _). set (n := PAGE_ALIGN size) in *.
  destruct (destroy_loop_run page_offset va 3 (root_paging pg) sh nb blocks (is_hv pg) π (root_table pg) (virt + n) co Hl
    (so_root _ _ _ _ Hsp) ltac:(lia) (Z.to_nat (n / PAGE_SIZE)) virt lab s (so_ok _ _ _ _ Hsp) (so_home _ _ _ _ Hsp)
    (so_tree _ _ _ _ Hsp)) as (r & lab' & s' & Hrun & Hrm); [lia| | | |];
    try (replace (virt + n - virt) with n by lia); [by apply fuel_enough; [lia|]|done|
    intros v Hvr; apply (whole_space π pg lab s); [done|lia|lia]|].
  exists r, lab', s'. replace (virt + n - virt) with n in Hrun by lia. destruct pg as [ps pt hv]. split; [exact Hrun|].
  split; [apply Hrm|by eapply space_after; try apply Hrm|apply Hrm|]. intros Hm.
  destruct (rm_map _ _ _ _ _ _ _ _ _ _ _ _ _ _ Hrm Hm) as (m & ? & ? & ? & ? & Hk). exists m. do 4 (split; [done|]).
  intros v Hvr Hn. apply Hk; [done| |done]. apply (whole_space π _ lab s _ _ Hsp); lia.
Qed.

Lemma paging_create_run π pg phys size virt flags co lab s : space_ok π pg lab s -> 0 <= virt < 2 ^ va ->
  0 <= size <= 2 ^ va -> Z.land virt PAGE_MASK + PAGE_ALIGN size <= 2 ^ va ->
  0 <= phys < 2 ^ 48 -> Z.land phys PAGE_MASK + PAGE_ALIGN size <= 2 ^ 48 -> flags_ok flags ->
  exists r lab' s', paging_create page_offset pg phys size virt flags co s = Some (r, s') /\
    maps π pg (Z.land virt PAGE_MASK) (Z.land virt PAGE_MASK + PAGE_ALIGN size) (Z.land phys PAGE_MASK) flags lab s r lab' s'.
Proof.
  intros Hsp Hv Hsz Hend Hph Hph2 Hflags. destruct (so_levels _ _ _ _ Hsp) as [blocks Hl].
  pose proof (levels_range _ _ _ _ _ Hl) as (_ & _ & Hva & _).
  assert (2 ^ va <= 2 ^ 48) by (apply Z.pow_le_mono_r; lia).
  assert (Hmask : forall x, 0 <= x < 2 ^ 48 -> 0 <= Z.land x PAGE_MASK <= x /\ Z.land x PAGE_MASK mod PAGE_SIZE = 0).
  { intros x Hx. rewrite land_page_mask by lia. unfold PAGE_SIZE. pose proof (Z.mod_pos_bound x 4096 ltac:(done)).
    pose proof (Z.mod_le x 4096). split; [lia|]. by rewrite Zminus_mod_idemp_r, Z.sub_diag. }
  destruct (Hmask virt ltac:(lia)) as [Hlo Hlom], (Hmask phys Hph) as [Hp Hpm].
  unfold paging_create. cbn [paging_create_depth]. unfold create_body.
  destruct (page_align_spec size ltac:(lia)) as (Ha0 & Ham & _). set (n := PAGE_ALIGN size) in *.
  set (lo := Z.land virt PAGE_MASK) in *. set (ph := Z.land phys PAGE_MASK) in *.
  destruct (create_loop_run page_offset va 3 (root_paging pg) sh nb blocks (is_hv pg) π (root_table pg) (lo + n) flags co Hl
    (so_root _ _ _ _ Hsp) ltac:(lia) Hflags (Z.to_nat (n / PAGE_SIZE)) lo ph lab s (so_ok _ _ _ _ Hsp)
    (so_home _ _ _ _ Hsp) (so_tree _ _ _ _ Hsp)) as (r & lab' & s' & Hrun & Hpl); try lia; try done;
    try (replace (lo + n - lo) with n by lia); [by apply fuel_enough; [lia|]|done|
    intros v Hvr; apply (whole_space π pg lab s); [done|lia|lia]|].
  exists r, lab', s'. replace (lo + n - lo) with n in Hrun by lia. destruct pg as [ps pt hv]. split; [exact Hrun|].
  split; [apply Hpl|by eapply space_after; try apply Hpl|apply Hpl|].
  destruct (pl_map _ _ _ _ _ _ _ _ _ _ _ _ _ _ _ _ Hpl) as (m & ? & ? & ? & Hk). exists m. do 3 (split; [done|]).
  intros v Hvr Hn. apply Hk; [done| |done]. apply (whole_space π _ lab s _ _ Hsp); lia.
Qed.

(** ** Translation *)

(** What [paging_virt2phys] makes of a mapping: the physical address of a
    block, but for a page of the last level the page's address with the page
    number of the virtual address or-ed into it. *)
Definition translated (v : Z) (m : option (Z * Z * Z)) : Z :=
  match m with
  | None => INVALID_PHYS_ADDR
  | Some (a, _, z) => if z =? PAGE_SIZE then Z.lor (a - v mod PAGE_SIZE) (Z.land v PAGE_MASK) else a
  end.

Lemma not_invalid (a : Z) : (a =? INVALID_PHYS_ADDR) = false -> forall A (x y : A), (if negb (a =? INVALID_PHYS_ADDR) then x else y) = x.
Proof. by intros ->. Qed.

Lemma virt2phys_loop_run ps n nb' blocks : levels va ps n nb' blocks -> forall lab π s pt v flags,
  tree page_offset ps nb' lab π s pt -> 0 <= v < 2 ^ va ->
  virt2phys_loop page_offset ps pt v flags s = Some (translated v (block_at page_offset ps s pt v)).
Proof.
  induction 1 as [p nb' Hp|p rest n nb' blocks Hp Hrest IH]; intros lab π s pt v flags Ht Hv;
    cbn [virt2phys_loop block_at]; rewrite entry_valid_bit;
    rewrite (lv_entry _ _ _ _ _ _ Hp) by done;
    pose proof (lv_range _ _ _ _ _ _ Hp) as (Hs & Hnb & _).
  - set (x := word_at _ s). assert (Hx : valid x = true -> tagged x = true) by (apply (Ht _ (index_range 12 nb' v ltac:(lia)))).
    destruct (valid x) eqn:Hvx; [|done]. specialize (Hx eq_refl). cbn [negb].
    rewrite not_invalid by (rewrite (lv_phys _ _ _ _ _ _ Hp x v Hvx Hv), Hx; done).
    rewrite (lv_page _ _ _ _ _ _ Hp x v eq_refl Hx), (lv_size _ _ _ _ _ _ Hp). cbn [translated].
    change (2 ^ 12) with PAGE_SIZE. rewrite Z.eqb_refl. do 2 f_equal. unfold leaf_addr.
    pose proof (pte_addr_range x) as [_ Ha]. change (2 ^ 12) with PAGE_SIZE in Ha. rewrite Ha. lia.
  - set (x := word_at _ s). assert (Hx := proj1 (tree_cons _ _ _ _ _ _ _ _) Ht _ (index_range n nb' v ltac:(lia))).
    unfold entry_ok, index in Hx. fold x in Hx. destruct (valid x) eqn:Hvx; [|done]. specialize (Hx eq_refl). cbn [negb].
    rewrite (lv_phys _ _ _ _ _ _ Hp x v Hvx Hv). destruct rest as [|p2 rest]; [by inversion Hrest|].
    destruct (tagged x) eqn:Htx; cbn [negb].
    + destruct Hx as [_ Htr]. rewrite (proj2 (lv_next _ _ _ _ _ _ Hp eq_refl)). cbn [mbind option_bind]. by eapply IH.
    + rewrite (lv_size _ _ _ _ _ _ Hp) in *. destruct blocks; [|done].
      rewrite (lv_block _ _ _ _ _ _ Hp x v eq_refl eq_refl Hv Htx). cbn [translated].
      assert (2 ^ n =? PAGE_SIZE = false) as ->; [|done]. apply Z.eqb_neq. change PAGE_SIZE with (2 ^ 12).
      pose proof (levels_range _ _ _ _ _ Hrest) as (? & _). intros He. apply Z.pow_inj_r in He; lia.
Qed.

Lemma virt2phys_run π pg lab s v flags : space_ok π pg lab s -> 0 <= v < 2 ^ va ->
  paging_virt2phys page_offset pg v flags s = Some (translated v (mapping pg s v)).
Proof.
  intros Hsp Hv. destruct (so_levels _ _ _ _ Hsp) as [blocks Hl].
  exact (virt2phys_loop_run _ _ _ _ Hl lab π s _ v flags (so_tree _ _ _ _ Hsp) Hv).
Qed.

(** ** Two address spaces over one pool *)
Definition apart (π ρ : list Z) : Prop := forall τ, π `suffix_of` τ -> ~ ρ `suffix_of` τ.

Lemma apart_cell (c d : Z) : c <> d -> apart [c] [d].
Proof.
  intros Hne τ [k1 ->] [k2 He]. by apply app_inj_2 in He as [_ [= ->]].
Qed.

Lemma path_suffix π lo hi ρ : path_in π sh nb lo hi ρ -> π `suffix_of` ρ.
Proof. intros (v & _ & k & ->). exists (k ++ [index sh nb v]). by rewrite <- app_assoc. Qed.

(** A change that leaves the tables of a tree alone keeps the tree. *)
Lemma frame_kept sh2 nb2 va2 blocks2 ρ ps2 pt2 A R lab s lab' s' :
  levels va2 ps2 sh2 nb2 blocks2 -> pg_ok page_offset lab s -> home ρ nb2 lab s pt2 -> pt2 mod PAGE_SIZE = 0 ->
  tree page_offset ps2 nb2 lab ρ s pt2 -> (forall τ, ρ `suffix_of` τ -> ~ R τ) ->
  (forall j, 0 <= j < 2 ^ nb2 -> ~ A (pt2 + 8 * j)) ->
  (forall q τ a, lab !! q = Some τ -> below ρ τ -> q mod PAGE_SIZE = 0 -> in_page a q -> ~ A a) ->
  change A R lab s lab' s' ->
  home ρ nb2 lab' s' pt2 /\ tree page_offset ps2 nb2 lab' ρ s' pt2 /\
  forall v, 0 <= v < 2 ^ va2 -> block_at page_offset ps2 s' pt2 v = block_at page_offset ps2 s pt2 v.
Proof.
  intros Hl Hok Hh2 Hpt2 Ht HnR HA HA2 Hc. split.
  - intros i q Hi Hq Hin. destruct (Hh2 i q Hi Hq Hin) as [Hf Hlb].
    assert (HR : forall τ, lab !! q = Some τ -> ~ R τ).
    { intros τ Hτ. rewrite (Hlb τ Hτ). apply HnR. by exists []. }
    split; [by eapply ch_free|]. intros τ Hτ. apply Hlb.
    exact (proj1 (change_new_label _ _ _ _ _ _ q τ Hc Hf HR Hτ)).
  - apply (tree_frame page_offset va2 ps2 sh2 nb2 blocks2 Hl lab lab' ρ s s' pt2 Ht).
    + intros i Hi. destruct (entry_page pt2 i Hpt2) as (q & Hq & Hin). destruct (Hh2 i q Hi Hq Hin) as [Hf Hlb].
      apply (ch_mem _ _ _ _ _ _ Hc _ q Hin Hq Hf); [|by apply HA].
      intros τ Hτ. rewrite (Hlb τ Hτ). apply HnR. by exists [].
    + intros q τ Hq Hb. assert (Hs : ρ `suffix_of` τ) by (destruct Hb as (i & k & ->); exists (k ++ [i]); by rewrite <- app_assoc).
      pose proof (go_lab _ _ _ Hok _ _ Hq) as Hu.
      assert (Hqa : q mod PAGE_SIZE = 0) by exact (used_aligned _ _ (go_pool _ _ _ Hok) Hu).
      split; [by apply (ch_lab _ _ _ _ _ _ Hc); [apply HnR|]|]. intros a Hin.
      apply (ch_mem _ _ _ _ _ _ Hc a q Hin Hqa); [| |by apply (HA2 q τ)].
      * intros Hf. by apply (free_not_used _ _ Hf).
      * intros τ' Hτ'. rewrite Hq in Hτ'. injection Hτ' as <-. by apply HnR.
Qed.

(** The entries of two root tables differ. *)
Definition separate (nb2 : Z) (pt pt2 : Z) : Prop :=
  forall i j, 0 <= i < 2 ^ nb -> 0 <= j < 2 ^ nb2 -> pt + 8 * i <> pt2 + 8 * j.

(** An operation on one address space keeps every other one. *)
Lemma other_space_kept sh2 nb2 va2 blocks2 π ρ ps2 pt2 pt lo hi lab s lab' s' :
  levels va2 ps2 sh2 nb2 blocks2 -> apart π ρ -> pg_ok page_offset lab s -> home π nb lab s pt ->
  home ρ nb2 lab s pt2 -> pt2 mod PAGE_SIZE = 0 -> tree page_offset ps2 nb2 lab ρ s pt2 -> 0 < nb ->
  separate nb2 pt pt2 ->
  change (entry_in pt sh nb lo hi) (path_in π sh nb lo hi) lab s lab' s' ->
  home ρ nb2 lab' s' pt2 /\ tree page_offset ps2 nb2 lab' ρ s' pt2 /\
  forall v, 0 <= v < 2 ^ va2 -> block_at page_offset ps2 s' pt2 v = block_at page_offset ps2 s pt2 v.
Proof.
  intros Hl Hap Hok Hh Hh2 Hpt2 Ht Hnb Hdis Hc. apply (frame_kept sh2 nb2 va2 blocks2 ρ ps2 pt2 _ _ lab s lab' s' Hl Hok Hh2 Hpt2 Ht)
    with (4 := Hc).
  - intros τ Hτ Hp. apply (Hap τ); [by eapply path_suffix|done].
  - intros j Hj (v & _ & He). apply (Hdis (index sh nb v) j); [apply index_range; lia|done|done].
  - intros q τ a Hq Hb Hqa Hin (v & _ & ->).
    destruct (Hh (index sh nb v) q) as [_ Hlπ]; [apply index_range; lia|done|done|].
    specialize (Hlπ _ Hq). subst τ. apply (Hap π); [by exists []|].
    destruct Hb as (i & k & ->). exists (k ++ [i]). by rewrite <- app_assoc.
Qed.

End Space.

(** ** The root table of a new cell *)
Section CellInit.
Context (page_offset : Z).
Notation labels := (gmap Z (list Z)).

(** The bits of a guest-physical address, of which the root table takes
    [nb] from bit [sh] on. *)
Definition cell_va (parange : Z) : Z := if parange <? 44 then parange else 48.
Definition cell_sh (parange : Z) : Z := if parange <? 44 then 30 else 39.
Definition cell_nb (parange : Z) : Z := cell_va parange - cell_sh parange.
Definition root_order (parange : Z) : Z := if (parange >? 39) && (parange <? 44) then parange - 39 else 0.

Lemma root_size parange : 32 <= parange <= 48 -> ARM_CELL_ROOT_PT_SZ parange = 2 ^ root_order parange /\
  0 <= root_order parange <= 4 /\ cell_nb parange <= 9 + root_order parange /\ 0 < cell_nb parange /\
  cell_sh parange + cell_nb parange = cell_va parange.
Proof.
  intros Hp. unfold ARM_CELL_ROOT_PT_SZ, root_order, cell_nb, cell_va, cell_sh.
  destruct (Z.ltb_spec parange 44), (Z.gtb_spec parange 39); cbn [andb];
    rewrite ?Z.shiftl_1_l; (split; [done|lia]).
Qed.

Lemma cell_levels parange : 32 <= parange <= 48 ->
  levels (cell_va parange) (cell_paging parange) (cell_sh parange) (cell_nb parange) false.
Proof.
  intros Hp. unfold cell_paging, cell_nb, cell_va, cell_sh. destruct (Z.ltb_spec parange 44).
  - apply alt_paging_levels. lia.
  - apply arm_paging_levels.
Qed.

Lemma alloc_many P k : pool_ok P -> 0 <= k < 32 ->
  page_alloc_aligned P (2 ^ k) = Some (0, P) \/
  exists s P', page_alloc_aligned P (2 ^ k) = Some (pool_page P s, P') /\ pool_page P s <> 0 /\
    (forall j, 0 <= j < 2 ^ k -> free_at P (pool_page P (s + j))) /\ pool_ok P' /\
    base_address P' = base_address P /\ pages P' = pages P /\ pool_flags P' = pool_flags P /\
    (forall pg, free_at P' pg -> free_at P pg /\ forall j, 0 <= j < 2 ^ k -> pg <> pool_page P (s + j)) /\
    (forall pg, used_at P pg -> used_at P' pg).
Proof.
  intros HP Hk. pose proof (pow_k k Hk) as Hpk. unfold page_alloc_aligned. rewrite u32_small by lia.
  destruct (page_alloc_run P k (2 ^ k) HP Hk ltac:(lia) (or_intror eq_refl))
    as [[Ha _]|(s & P' & Ha & Hs & [Hfree _] & _ & Ht)]; [by left|right].
  exists s, P'. split; [exact Ha|].
  pose proof (Z.mod_pos_bound (base_address P / PAGE_SIZE) (2 ^ k) ltac:(lia)) as Ha0.
  split; [pose proof (po_base P HP); unfold pool_page, PAGE_SIZE; lia|].
  assert (Hpage : forall i, pool_page P' i = pool_page P i) by (intros; unfold pool_page; by rewrite (tp_base _ _ _ _ Ht)).
  assert (Hman : managed P' = managed P) by (unfold managed; by rewrite (tp_pages _ _ _ _ Ht)).
  split; [intros j Hj; exists (s + j); split; [done|apply Hfree; lia]|].
  split; [apply Ht|]. split; [apply Ht|]. split; [apply Ht|]. split; [apply Ht|]. split.
  - intros pg (i & -> & Hr & Hb). rewrite Hman in Hr. rewrite (tp_bits _ _ _ _ Ht) in Hb by lia. b2p.
    rewrite Hpage. split; [by exists i|]. intros j Hj He. apply pool_page_inj in He. subst i.
    destruct (Z.leb_spec s (s + j)), (Z.ltb_spec (s + j) (s + 2 ^ k)); first [done|lia].
  - intros pg (i & -> & Hr & Hb). exists i. rewrite Hpage, Hman. split; [done|]. split; [done|].
    rewrite (tp_bits _ _ _ _ Ht), Hb by lia. apply orb_true_r.
Qed.

Lemma pool_page_add P i j : pool_page P (i + j) = pool_page P i + j * PAGE_SIZE.
Proof. unfold pool_page, PAGE_SIZE. lia. Qed.

(** The page of an entry of the root table. *)
Lemma root_entry_page P s k i q : pool_ok P -> 0 <= i < 2 ^ (9 + k) -> 0 <= k -> q mod PAGE_SIZE = 0 ->
  in_page (pool_page P s + 8 * i) q -> exists j, 0 <= j < 2 ^ k /\ q = pool_page P (s + j).
Proof.
  intros HP Hi Hk Hq Hin. exists (i / 512). split.
  { split; [apply Z.div_pos; lia|]. apply Z.div_lt_upper_bound; [done|]. rewrite Z.pow_add_r in Hi by lia. lia. }
  eapply in_page_inj; [exact Hq|by apply pool_page_aligned|exact Hin|]. exists (i mod 512).
  split; [by apply Z.mod_pos_bound|]. rewrite pool_page_add. pose proof (Z.div_mod i 512 ltac:(done)). unfold PAGE_SIZE. lia.
Qed.

(** The tables of a cell are labelled with its id, and no other cell has it. *)
Lemma cell_space_run parange cell_id lab s : 32 <= parange <= 48 -> cell_id <= 255 -> pg_ok page_offset lab s ->
  arm_paging_cell_init parange cell_id s = Some ((- ENOMEM, None), s) \/
  exists root s', let pg := mk_paging_structures (cell_paging parange) root false in
    arm_paging_cell_init parange cell_id s = Some ((0, Some pg), s') /\
    space_ok page_offset (cell_va parange) (cell_sh parange) (cell_nb parange) [cell_id] pg lab s' /\
    (forall v, 0 <= v < 2 ^ cell_va parange -> mapping page_offset pg s' v = None) /\
    (forall i q, 0 <= i < 2 ^ cell_nb parange -> q mod PAGE_SIZE = 0 -> in_page (root + 8 * i) q -> free_at (mem_pool s) q) /\
    forall A R, change A R lab s lab s'.
Proof.
  intros Hpr Hid Hok. destruct (root_size parange Hpr) as (Hsz & Hk & Hnb & Hnb0 & Hva). set (k := root_order parange) in *.
  pose proof (go_pool _ _ _ Hok) as HP. unfold arm_paging_cell_init.
  rewrite Z.gtb_ltb, (proj2 (Z.ltb_ge 255 cell_id)), Hsz by lia. erewrite bind_run by reflexivity. cbv beta. unfold id.
  destruct (alloc_many (mem_pool s) k HP ltac:(lia)) as
    [Ha|(n & P & Ha & Hn0 & Hfree & HP' & Hb & Hpg & Hfl & Hfree' & Hused')]; rewrite (lift_run _ _ _ _ Ha); cbv beta iota;
    erewrite bind_run by reflexivity; cbv beta.
  { left. cbn [Z.eqb]. unfold mret, st_ret. by destruct s. }
  right. rewrite (proj2 (Z.eqb_neq _ _) Hn0). set (root := pool_page (mem_pool s) n). exists root, (set_mem_pool P s).
  cbv zeta. split; [done|]. set (s' := set_mem_pool P s).
  assert (Hok' : pg_ok page_offset lab s').
  { destruct Hok as [H1 H2 H3 H4 H5]. split; cbn [s' set_mem_pool mem_pool]; rewrite ?Hb, ?Hpg, ?Hfl; try done.
    - intros q a Hq. apply Hfree' in Hq as [Hq _]. by apply (H4 q).
    - intros q ρ Hl. apply Hused'. by eapply H5. }
  assert (Hpage : forall i q, 0 <= i < 2 ^ cell_nb parange -> q mod PAGE_SIZE = 0 -> in_page (root + 8 * i) q ->
    exists j, 0 <= j < 2 ^ k /\ q = pool_page (mem_pool s) (n + j)).
  { intros i q Hi Hq Hin. apply (root_entry_page _ n k i q); try done; [|lia].
    assert (2 ^ cell_nb parange <= 2 ^ (9 + k)) by (apply Z.pow_le_mono_r; lia). lia. }
  assert (Hzero : forall i, 0 <= i < 2 ^ cell_nb parange -> word_at (root + 8 * i) s' = 0).
  { intros i Hi. destruct (entry_page root i (pool_page_aligned _ _ HP)) as (q & Hq & Hin).
    destruct (Hpage i q Hi Hq Hin) as (j & Hj & ->). exact (go_zero _ _ _ Hok _ _ (Hfree j Hj) Hin). }
  destruct (empty_tree page_offset (cell_va parange) _ _ _ _ lab [cell_id] s' root (cell_levels parange Hpr) Hzero) as [Ht Hm].
  split; [|split; [exact Hm|split]].
  - split; try done; [by exists false; apply cell_levels| |by apply pool_page_aligned].
    intros i q Hi Hq Hin. destruct (Hpage i q Hi Hq Hin) as (j & Hj & ->). split.
    + intros Hf. apply Hfree' in Hf as [_ Hn]. by apply (Hn j).
    + intros ρ Hρ. exfalso. apply (free_not_used _ _ (Hfree j Hj)), (go_lab _ _ _ Hok _ _ Hρ).
  - intros i q Hi Hq Hin. destruct (Hpage i q Hi Hq Hin) as (j & Hj & ->). by apply Hfree.
  - intros A R. split; cbn [s' set_mem_pool mem_pool]; try done.
    + intros q ρ H1 H2. congruence.
    + intros q Hf _ Hq. by apply Hfree' in Hq as [Hq _].
Qed.

End CellInit.

