(* ===== verification/PagePrepare.v ===== *)
(** * Preallocated page tables

    Mapping pages, even without the valid flag, leaves the tables behind in
    which they are entered ([paging_create] of paging.c). Further mappings of
    single pages there need no memory, so that they cannot fail. *)

From Stdlib Require Import ZArith Lia.
From stdpp Require Import base tactics list list_numbers option gmap.
From S2P Require Import Prelude Bitops StateMonad Mmio PagePool Paging PageTree PageMap PageStep PageDestroy PageCreate AddressSpace.

Section Prepare.
Context (page_offset va : Z).
Notation next_pt := (next_pt page_offset).
Notation tree := (tree page_offset).
Notation block_at := (block_at page_offset).
Notation pg_ok := (pg_ok page_offset).
Notation labels := (gmap Z (list Z)).
Notation walked d := (create_walk page_offset (paging_create_depth page_offset (S d))).

(** There is a table for the page of an address. *)
Fixpoint prepared (ps : list paging) (s : pgstate) (pt v : Z) : Prop :=
  match ps with
  | [] => False
  | p :: rest =>
      match rest with
      | [] => True
      | _ =>
          let pte := word_at (get_entry p pt v) s in
          valid pte && tagged pte = true /\ prepared rest s (next_pt pte) v
      end
  end.

Lemma prepared_cons p rest sh nb blocks s pt v : levels va (p :: rest) sh nb blocks -> rest <> [] -> 0 <= v < 2 ^ va ->
  prepared (p :: rest) s pt v <->
  valid (word_at (pt + 8 * index sh nb v) s) && tagged (word_at (pt + 8 * index sh nb v) s) = true /\
  prepared rest s (next_pt (word_at (pt + 8 * index sh nb v) s)) v.
Proof.
  intros Hl Hne Hv. destruct (levels_head _ _ _ _ _ _ Hl) as (last & Hp & _). cbn [prepared].
  destruct rest as [|p2 rest]; [done|]. by rewrite (lv_entry _ _ _ _ _ _ Hp).
Qed.

(** The tables on the way are the same. *)
Lemma prepared_frame ps sh nb blocks : levels va ps sh nb blocks -> forall lab π s s' pt v, 0 <= v < 2 ^ va ->
  tree ps nb lab π s pt ->
  (forall i, 0 <= i < 2 ^ nb -> word_at (pt + 8 * i) s' = word_at (pt + 8 * i) s) ->
  (forall q ρ a, lab !! q = Some ρ -> below π ρ -> in_page a q -> word_at a s' = word_at a s) ->
  prepared ps s pt v -> prepared ps s' pt v.
Proof.
  induction 1 as [p nb Hp|p rest sh nb blocks Hp Hrest IH]; intros lab π s s' pt v Hv Ht Hown Hsub; [done|].
  assert (Hl : levels va (p :: rest) sh nb blocks) by (by apply levels_cons).
  assert (Hne : rest <> []) by (by inversion Hrest). pose proof (lv_range _ _ _ _ _ _ Hp) as (_ & Hnb & _).
  rewrite !(prepared_cons _ _ _ _ _ _ _ _ Hl Hne Hv). pose proof (index_range sh nb v ltac:(lia)) as Hi.
  rewrite Hown by done. set (x := word_at _ s). intros [Hx Hpr]. split; [done|].
  apply andb_true_iff in Hx as [Hxv Hxt]. pose proof (proj1 (tree_cons _ _ _ _ _ _ _ _) Ht _ Hi Hxv) as Hentry.
  fold x in Hentry. destruct rest as [|p2 rest]; [done|]. rewrite Hxt in Hentry. destruct Hentry as [Hq Htr].
  apply (IH lab (index sh nb v :: π) s s'); try done.
  - intros j Hj. apply (Hsub (next_pt x) _ _ Hq); [by exists (index sh nb v), []|by exists j].
  - intros q ρ a Hqρ Hb. apply (Hsub q ρ a Hqρ). apply below_suffix in Hb. by exists (index sh nb v).
Qed.

(** A change below one entry keeps what is prepared below the others. *)
Lemma prepared_other p rest sh nb blocks π pt i0 lab s lab' s' v :
  levels va (p :: rest) sh nb blocks -> rest <> [] -> pg_ok lab s -> home π nb lab s pt -> pt mod PAGE_SIZE = 0 ->
  tree (p :: rest) nb lab π s pt -> 0 <= v < 2 ^ va -> 0 <= i0 < 2 ^ nb -> index sh nb v <> i0 ->
  change (fun a => a = pt + 8 * i0) (fun ρ => (i0 :: π) `suffix_of` ρ) lab s lab' s' ->
  prepared (p :: rest) s pt v -> prepared (p :: rest) s' pt v.
Proof.
  intros Hl Hne Hok Hh Hpt Ht Hv Hi0r Hi0 Hc. destruct (levels_head _ _ _ _ _ _ Hl) as (last & Hp & Hlast & Hrest).
  destruct last; [by destruct Hne, (proj1 Hlast eq_refl)|]. specialize (Hrest eq_refl).
  pose proof (lv_range _ _ _ _ _ _ Hp) as (_ & Hnb & _). pose proof (index_range sh nb v ltac:(lia)) as Hi.
  rewrite !(prepared_cons _ _ _ _ _ _ _ _ Hl Hne Hv).
  assert (Hw : word_at (pt + 8 * index sh nb v) s' = word_at (pt + 8 * index sh nb v) s).
  { eapply (entry_keeps π nb pt); [exact Hh|done|done| |exact Hc|cbv beta; lia]. intros ρ. apply suffix_below. }
  rewrite Hw. set (x := word_at _ s). intros [Hx Hpr]. split; [done|]. apply andb_true_iff in Hx as [Hxv Hxt].
  pose proof (proj1 (tree_cons _ _ _ _ _ _ _ _) Ht _ Hi Hxv) as Hentry. fold x in Hentry.
  destruct rest as [|p2 rest]; [done|]. rewrite Hxt in Hentry. destruct Hentry as [Hq Htr].
  assert (Hpage : forall q ρ a, lab !! q = Some ρ -> (index sh nb v :: π) `suffix_of` ρ -> in_page a q -> word_at a s' = word_at a s).
  { intros q ρ a Hqρ Hs Hin. pose proof (go_lab _ _ _ Hok _ _ Hqρ) as Hu.
    assert (Hqa : q mod PAGE_SIZE = 0) by exact (used_aligned _ _ (go_pool _ _ _ Hok) Hu).
    assert (Hnf : ~ free_at (mem_pool s) q) by (intros Hf; by apply (free_not_used _ _ Hf)).
    apply (ch_mem _ _ _ _ _ _ Hc a q Hin Hqa Hnf).
    - intros ρ' Hρ' Hs'. rewrite Hqρ in Hρ'. injection Hρ' as <-. apply Hi0. by eapply suffix_cons_inj.
    - intros ->. destruct (Hh i0 q Hi0r Hqa Hin) as [_ Hlb].
      specialize (Hlb _ Hqρ). subst ρ. apply (below_irrefl π). by eapply suffix_below. }
  apply (prepared_frame _ _ _ _ Hrest lab (index sh nb v :: π) s s'); try done.
  - intros j Hj. apply (Hpage (next_pt x) _ _ Hq); [by exists []|by exists j].
  - intros q ρ a Hqρ Hb. apply (Hpage q ρ a Hqρ). destruct Hb as (i & k & ->). exists (k ++ [i]). by rewrite <- app_assoc.
Qed.

(** No page is larger than the smallest one. *)
Definition no_block (phys virt size : Z) : Prop :=
  forall n, 21 <= n -> 2 ^ n <= size -> virt mod 2 ^ n = 0 -> phys mod 2 ^ n = 0 -> False.

(** What the walk for [v0] does to prepared tables. *)
Record prepares (ps : list paging) (pt v0 : Z) (s : pgstate) (r : Z + Z) (s' : pgstate) : Prop := {
  ps_code : r = inl (- ENOMEM) \/ r = inr PAGE_SIZE /\ prepared ps s' pt v0;
  ps_kept v : 0 <= v < 2 ^ va -> prepared ps s pt v -> prepared ps s' pt v;
  ps_free : prepared ps s pt v0 -> r = inr PAGE_SIZE /\ mem_pool s' = mem_pool s;
}.

(** The tables below an entry, seen from the one above. *)
Lemma prepares_down p rest sh nb blocks π pt v0 q lab s lab1 s1 lab2 r s2 :
  levels va (p :: rest) sh nb blocks -> rest <> [] -> pg_ok lab s -> home π nb lab s pt -> pt mod PAGE_SIZE = 0 ->
  tree (p :: rest) nb lab π s pt -> 0 <= v0 < 2 ^ va ->
  let x := word_at (pt + 8 * index sh nb v0) s in
  valid x && tagged x = true /\ q = next_pt x /\ s1 = s \/ valid x && tagged x = false ->
  descended page_offset va p rest sh nb π pt v0 q lab s lab1 s1 ->
  change (fun a => a = q + 8 * index (sh - 9) 9 v0) (fun ρ => (index (sh - 9) 9 v0 :: index sh nb v0 :: π) `suffix_of` ρ)
    lab1 s1 lab2 s2 ->
  prepares rest q v0 s1 r s2 -> prepares (p :: rest) pt v0 s r s2.
Proof.
  intros Hl Hne Hok Hh Hpt Ht Hv0 x Hx Hde Hc [Hcode Hkept Hfree].
  pose proof (levels_range _ _ _ _ _ Hl) as (_ & Hnb & _). pose proof (index_range sh nb v0 ltac:(lia)) as Hi0.
  destruct (descent_change page_offset va p rest sh nb blocks π pt v0 q lab lab1 s s1 Hl Hh Hpt Hv0 Hde lab2 s2 Hc) as (Hc2 & Hw & _).
  destruct (de_entry _ _ _ _ _ _ _ _ _ _ _ _ _ _ Hde) as (He1 & He2 & He3). rewrite <- Hw in He1, He2, He3.
  assert (Hx2 : forall v, 0 <= v < 2 ^ va -> index sh nb v = index sh nb v0 -> prepared (p :: rest) s2 pt v <-> prepared rest s2 q v).
  { intros v Hv Hi. rewrite (prepared_cons _ _ _ _ _ _ _ _ Hl Hne Hv), Hi, He1, He2, He3. naive_solver. }
  assert (Hold : forall v, 0 <= v < 2 ^ va -> index sh nb v = index sh nb v0 -> prepared (p :: rest) s pt v -> s1 = s /\ prepared rest s q v).
  { intros v Hv Hi. rewrite (prepared_cons _ _ _ _ _ _ _ _ Hl Hne Hv), Hi. fold x. intros [Hxx Hp].
    destruct Hx as [(_ & -> & ->)|Hx]; [done|]. by rewrite Hx in Hxx. }
  split.
  - destruct Hcode as [->|[-> Hp]]; [by left|right]. split; [done|]. by apply Hx2.
  - intros v Hv Hp. destruct (decide (index sh nb v = index sh nb v0)) as [Hi|Hi]; [|by eapply prepared_other].
    destruct (Hold v Hv Hi Hp) as [-> Hp']. apply Hx2; [done|done|]. by apply Hkept.
  - intros Hp. destruct (Hold v0 Hv0 eq_refl Hp) as [-> Hp']. by apply Hfree.
Qed.

Lemma prepare_step_run d ps sh nb blocks phys flags size co : levels va ps sh nb blocks -> forall π pt lab s v0,
  pg_ok lab s -> home π nb lab s pt -> pt mod PAGE_SIZE = 0 -> tree ps nb lab π s pt -> 0 <= v0 < 2 ^ va ->
  v0 mod PAGE_SIZE = 0 -> 0 <= phys < 2 ^ 48 -> phys mod PAGE_SIZE = 0 -> PAGE_SIZE <= size -> flags_ok flags ->
  no_block phys v0 size ->
  exists r s', walked d ps pt phys size v0 flags co s = Some (r, s') /\ prepares ps pt v0 s r s'.
Proof.
  intros Hlv. induction Hlv as [p nb Hp|p rest sh nb blocks Hp Hrest IH];
    intros π pt lab s v0 Hok Hhome Hpt Htree Hv0 Hvm Hph Hpm Hsize Hflags Hnb; pose proof (lv_range _ _ _ _ _ _ Hp) as (Hs & Hnb0 & Hva & _).
  - cbn [create_walk]. rewrite (proj2 (usable_size_spec p phys v0 size 12 (lv_size _ _ _ _ _ _ Hp) ltac:(done))) by done.
    rewrite (lv_size _ _ _ _ _ _ Hp). change (2 ^ 12) with PAGE_SIZE. rewrite Z.gtb_ltb, Z.ltb_irrefl.
    destruct (lv_set _ _ _ _ _ _ Hp eq_refl) as (set & Hset & _).
    erewrite bind_run by reflexivity. rewrite (lift_run _ set) by done. rewrite set_entry_run.
    eexists (inr PAGE_SIZE), _. split; [reflexivity|]. split; [by right|done|]. intros _. split; [done|apply set_entry_pool].
  - assert (Hl : levels va (p :: rest) sh nb blocks) by (by apply levels_cons).
    assert (Hne : rest <> []) by (by inversion Hrest). pose proof (levels_range _ _ _ _ _ Hrest) as (Hs9 & _).
    assert (Hus : usable_size p phys v0 size = false).
    { destruct (usable_size p phys v0 size) eqn:Hus; [|done]. exfalso.
      destruct blocks; [|by rewrite (not_usable _ _ _ _ _ _ _ _ Hp) in Hus].
      apply (usable_size_spec p phys v0 size sh (lv_size _ _ _ _ _ _ Hp)) in Hus as (? & ? & ?); [|lia].
      apply (Hnb sh); [lia|done|done|done]. }
    assert (Hdown : forall q lab1 s1, let x := word_at (pt + 8 * index sh nb v0) s in
      valid x && tagged x = true /\ q = next_pt x /\ s1 = s \/ valid x && tagged x = false ->
      descended page_offset va p rest sh nb π pt v0 q lab s lab1 s1 ->
      exists r s', walked d rest q phys size v0 flags co s1 = Some (r, s') /\ prepares (p :: rest) pt v0 s r s').
    { intros q lab1 s1 x Hx Hde.
      pose proof (descent_page page_offset va p rest sh nb π pt v0 q lab lab1 s s1 Hde) as Hq.
      pose proof (home_labelled page_offset _ _ _ _ (de_ok _ _ _ _ _ _ _ _ _ _ _ _ _ _ Hde) (de_lab _ _ _ _ _ _ _ _ _ _ _ _ _ _ Hde)) as Hh1.
      destruct (IH (index sh nb v0 :: π) q lab1 s1 v0) as (r & s' & Hr & Hpr); try done; try apply Hde.
      exists r, s'. split; [exact Hr|].
      assert (exists lab2, change (fun a => a = q + 8 * index (sh - 9) 9 v0)
        (fun ρ => (index (sh - 9) 9 v0 :: index sh nb v0 :: π) `suffix_of` ρ) lab1 s1 lab2 s') as [lab2 Hc].
      { destruct (create_step_run page_offset va d rest (sh - 9) 9 true phys flags size co Hrest (index sh nb v0 :: π) q lab1 s1 v0)
          as [(lab2 & s2 & Hw & Hso)|(lab2 & s2 & sh1 & Hw & _ & _ & _ & _ & Hup)]; try done; try apply Hde;
          rewrite Hr in Hw; injection Hw as _ ->; exists lab2; [apply Hso|apply Hup]. }
      by eapply (prepares_down p rest sh nb blocks π pt v0 q lab s lab1 s1 lab2). }
    destruct (create_walk_down page_offset va d p rest sh nb blocks π pt lab s v0 phys flags size co)
      as [(Hx & -> & Hde)|(Hx & [->|(q & lab1 & s1 & -> & Hde)])]; try done.
    + by apply (Hdown _ lab); [left|].
    + exists (inl (- ENOMEM)), s. split; [done|]. split; [by left|done|]. intros Hpr.
      apply (prepared_cons _ _ _ _ _ _ _ _ Hl Hne Hv0) in Hpr as [Hxx _]. by rewrite Hx in Hxx.
    + by apply (Hdown q lab1); [right|].
Qed.

Lemma prepared_same ps s s' : same_mem s s' -> forall pt v, prepared ps s pt v -> prepared ps s' pt v.
Proof.
  intros [Hw _]. induction ps as [|p rest IH]; intros pt v; cbn [prepared]; [done|]. destruct rest as [|p2 rest]; [done|].
  rewrite Hw. intros [Hx Hp]. split; [done|]. by apply IH.
Qed.

(** What [paging_create] on a range does to prepared tables. *)
Record prepares_range (ps : list paging) (pt lo hi : Z) (s : pgstate) (r : Z) (s' : pgstate) : Prop := {
  pr_done : r = 0 -> forall v, lo <= v < hi -> v mod PAGE_SIZE = 0 -> prepared ps s' pt v;
  pr_kept v : 0 <= v < 2 ^ va -> prepared ps s pt v -> prepared ps s' pt v;
  pr_free : (forall v, lo <= v < hi -> v mod PAGE_SIZE = 0 -> prepared ps s pt v) -> r = 0 /\ mem_pool s' = mem_pool s;
}.

Definition no_blocks (phys lo hi : Z) : Prop :=
  forall k, 0 <= k -> lo + k * PAGE_SIZE < hi -> no_block (phys + k * PAGE_SIZE) (lo + k * PAGE_SIZE) (hi - (lo + k * PAGE_SIZE)).

Lemma no_blocks_next phys lo hi : no_blocks phys lo hi -> no_blocks (phys + PAGE_SIZE) (lo + PAGE_SIZE) hi.
Proof.
  intros H k Hk Hlt. specialize (H (k + 1) ltac:(lia)).
  replace (phys + PAGE_SIZE + k * PAGE_SIZE) with (phys + (k + 1) * PAGE_SIZE) by lia.
  replace (lo + PAGE_SIZE + k * PAGE_SIZE) with (lo + (k + 1) * PAGE_SIZE) in * by lia. by apply H.
Qed.

Lemma page_after lo v : lo mod PAGE_SIZE = 0 -> v mod PAGE_SIZE = 0 -> lo <= v -> v = lo \/ lo + PAGE_SIZE <= v.
Proof.
  intros H1 H2 H3. pose proof (Z.div_mod lo PAGE_SIZE ltac:(done)). pose proof (Z.div_mod v PAGE_SIZE ltac:(done)).
  unfold PAGE_SIZE in *. lia.
Qed.

Lemma prepare_loop_run d ps sh nb blocks hv π pt hi flags co : levels va ps sh nb blocks -> pt mod PAGE_SIZE = 0 ->
  hi <= 2 ^ va -> flags_ok flags -> forall fuel lo phys lab s,
  pg_ok lab s -> home π nb lab s pt -> tree ps nb lab π s pt -> 0 <= lo <= hi -> lo mod PAGE_SIZE = 0 ->
  hi - lo <= Z.of_nat fuel * PAGE_SIZE -> (hi - lo) mod PAGE_SIZE = 0 ->
  0 <= phys -> phys + (hi - lo) <= 2 ^ 48 -> phys mod PAGE_SIZE = 0 -> no_blocks phys lo hi ->
  exists r s', create_loop page_offset (paging_create_depth page_offset (S d)) fuel (mk_paging_structures ps pt hv) phys
      (hi - lo) lo flags co s = Some (r, s') /\ prepares_range ps pt lo hi s r s'.
Proof.
  intros Hl Hpt Hhi Hflags. pose proof (levels_range _ _ _ _ _ Hl) as (_ & _ & Hva & _).
  assert (Hva2 : 2 ^ va <= 2 ^ 48) by (apply Z.pow_le_mono_r; lia).
  induction fuel as [|fuel IH]; intros lo phys lab s Hok Hhome Ht Hlo Hlom Hfuel Hmod Hph Hph2 Hphm Hnb.
  all: destruct (decide (lo = hi)) as [->|Hne];
    [exists 0, s; split; [by rewrite Z.sub_diag|split; [intros _ v Hv; lia|done|done]]|].
  { unfold PAGE_SIZE in *. lia. }
  assert (lo + PAGE_SIZE <= hi) as Hpage.
  { pose proof (Z.div_mod (hi - lo) PAGE_SIZE ltac:(done)). unfold PAGE_SIZE in *. lia. }
  cbn [create_loop root_paging root_table is_hv]. rewrite (proj2 (Z.leb_gt _ 0)) by lia.
  assert (Hnb0 : no_block phys lo (hi - lo)).
  { specialize (Hnb 0 ltac:(done)). rewrite Z.mul_0_l, !Z.add_0_r in Hnb. apply Hnb. lia. }
  destruct (prepare_step_run d ps sh nb blocks phys flags (hi - lo) co Hl π pt lab s lo) as (r & s0 & Hw & [Hcode Hkept Hfree]);
    try done; [lia|lia|lia|]. erewrite bind_run by exact Hw. cbv beta.
  destruct Hcode as [->|[-> Hpr]].
  { exists (- ENOMEM), s0. split; [done|]. split; [done|done|]. intros Hall. by destruct (Hfree (Hall lo ltac:(lia) Hlom)). }
  destruct (create_step_run page_offset va d ps sh nb blocks phys flags (hi - lo) co Hl π pt lab s lo) as
    [(lab1 & s2 & Hw2 & _)|(lab1 & s2 & sh1 & Hw2 & Hsh1 & _ & _ & _ & Hup)]; try done; [lia|lia|lia|by rewrite Hw in Hw2|].
  rewrite Hw in Hw2. injection Hw2 as Hsz <-.
  destruct (flush_same hv lo s0) as (s1 & Hflush & Hsame). erewrite bind_run by exact Hflush. cbv beta.
  apply (updated_same page_offset va _ _ _ _ _ _ _ _ _ _ _ _ _ _ Hl Hsame) in Hup. destruct Hup as [Hok1 Hc1 Ht1 _ _ _].
  pose proof Hsame as [_ Hpool]. rewrite !u64_small by (unfold PAGE_SIZE in *; lia).
  replace (hi - lo - PAGE_SIZE) with (hi - (lo + PAGE_SIZE)) by lia.
  assert (Hk1 : forall v, 0 <= v < 2 ^ va -> prepared ps s pt v -> prepared ps s1 pt v).
  { intros v Hv Hp. apply (prepared_same _ _ _ Hsame). by apply Hkept. }
  destruct (IH (lo + PAGE_SIZE) (phys + PAGE_SIZE) lab1 s1) as (r & s' & Hrun & [Hd Hk Hf]); try done; try lia.
  { eapply home_change; [exact Hhome| |exact Hc1]. intros ρ. apply suffix_below. }
  { by rewrite Zplus_mod, Hlom. }
  { replace (hi - (lo + PAGE_SIZE)) with (hi - lo - PAGE_SIZE) by lia. by rewrite Zminus_mod, Hmod. }
  { by rewrite Zplus_mod, Hphm. }
  { by apply no_blocks_next. }
  exists r, s'. split; [exact Hrun|]. split.
  - intros Hr v Hv Hvm. destruct (page_after lo v Hlom Hvm ltac:(lia)) as [->|Hge]; [|apply Hd; [done|lia|done]].
    apply Hk; [lia|]. by apply (prepared_same _ _ _ Hsame).
  - intros v Hv Hp. apply Hk; [done|]. by apply Hk1.
  - intros Hall. destruct Hf as [-> ->]; [intros v Hv Hvm; apply Hk1; [lia|]; apply Hall; [lia|done]|].
    split; [done|]. rewrite Hpool. apply Hfree. apply Hall; [lia|done].
Qed.

(** [paging_create] leaves prepared tables behind, and succeeds without an
    allocation where the tables are prepared. *)
Lemma paging_create_prepares sh nb π pg phys size virt flags co lab s : space_ok page_offset va sh nb π pg lab s ->
  0 <= virt < 2 ^ va -> 0 <= size <= 2 ^ va -> Z.land virt PAGE_MASK + PAGE_ALIGN size <= 2 ^ va ->
  0 <= phys < 2 ^ 48 -> Z.land phys PAGE_MASK + PAGE_ALIGN size <= 2 ^ 48 -> flags_ok flags ->
  no_blocks (Z.land phys PAGE_MASK) (Z.land virt PAGE_MASK) (Z.land virt PAGE_MASK + PAGE_ALIGN size) ->
  exists r s', paging_create page_offset pg phys size virt flags co s = Some (r, s') /\
    prepares_range (root_paging pg) (root_table pg) (Z.land virt PAGE_MASK) (Z.land virt PAGE_MASK + PAGE_ALIGN size) s r s'.
Proof.
  intros Hsp Hv Hsz Hend Hph Hph2 Hflags Hnb. destruct (so_levels _ _ _ _ _ _ _ _ Hsp) as [blocks Hl].
  pose proof (levels_range _ _ _ _ _ Hl) as (_ & _ & Hva & _).
  assert (2 ^ va <= 2 ^ 48) by (apply Z.pow_le_mono_r; lia).
  assert (Hmask : forall x, 0 <= x < 2 ^ 48 -> 0 <= Z.land x PAGE_MASK <= x /\ Z.land x PAGE_MASK mod PAGE_SIZE = 0).
  { intros x Hx. rewrite land_page_mask by lia. unfold PAGE_SIZE. pose proof (Z.mod_pos_bound x 4096 ltac:(done)).
    pose proof (Z.mod_le x 4096). split; [lia|]. by rewrite Zminus_mod_idemp_r, Z.sub_diag. }
  destruct (Hmask virt ltac:(lia)) as [Hlo Hlom], (Hmask phys Hph) as [Hp Hpm].
  unfold paging_create. cbn [paging_create_depth]. unfold create_body.
  destruct (page_align_spec size ltac:(lia)) as (Ha0 & Ham & _). set (n := PAGE_ALIGN size) in *.
  set (lo := Z.land virt PAGE_MASK) in *. set (ph := Z.land phys PAGE_MASK) in *.
  destruct (prepare_loop_run 3 (root_paging pg) sh nb blocks (is_hv pg) π (root_table pg) (lo + n) flags co Hl
    (so_root _ _ _ _ _ _ _ _ Hsp) ltac:(lia) Hflags (Z.to_nat (n / PAGE_SIZE)) lo ph lab s (so_ok _ _ _ _ _ _ _ _ Hsp)
    (so_home _ _ _ _ _ _ _ _ Hsp) (so_tree _ _ _ _ _ _ _ _ Hsp)) as (r & s' & Hrun & Hpr); try lia; try done;
    try (replace (lo + n - lo) with n by lia); [by apply fuel_enough; [lia|]|done|].
  exists r, s'. replace (lo + n - lo) with n in Hrun by lia. destruct pg as [ps pt hv]. split; [exact Hrun|exact Hpr].
Qed.

End Prepare.
