(* ===== verification/PagingInit.v ===== *)
(** * Start-up of the page management

    [paging_init] of hypervisor/paging.c: the pool of the hypervisor's pages
    and the pool of addresses for mappings, the page tables of the hypervisor
    with the mapping it was started with, the console and the temporary pages.
    The theorems establish what those about cells assume of the pools and the
    page tables.

    The memory behind the image is zero: the driver clears it before it starts
    the hypervisor. The structures of stage 2, which [arch_paging_init] sets,
    are in [Paging]. *)

From Stdlib Require Import ZArith Lia.
From stdpp Require Import base tactics list list_numbers option gmap.
From S2P Require Import Prelude Bitops StateMonad Mmio Irqchip PagePool Paging PageTree PageMap PageStep PageDestroy PageCreate AddressSpace PagePrepare.

Definition JAILHOUSE_BASE : Z := 0xffffc0200000.
Definition REMAP_BASE : Z := 1048576.
Definition NUM_REMAP_BITMAP_PAGES : Z := 4.
Definition BITS_PER_PAGE : Z := PAGE_SIZE * 8.
Definition PAGE_NONPRESENT_FLAGS : Z := 0.

(** What [paging_init] reads of the image, the header and the configuration.
    The header is at [JAILHOUSE_BASE]; [console] is the debug console, if it is
    memory-mapped. *)
Record boot := mk_boot {
  page_pool_start : Z;               (* __page_pool *)
  max_cpus : Z;
  sizeof_per_cpu : Z;
  config_size : Z;
  hyp_start : Z;                     (* hypervisor_memory.phys_start *)
  hyp_size : Z;
  console : option (Z * Z);          (* debug_console.address and .size *)
  debug_console_base : Z;
  debug_clock_reg : Z;
  clock_reg : Z;
}.

(** ** The pool for remappings *)
Notation keeps_remap := (Keeps remap_pool).

Ltac solve_remap := repeat first
  [ progress intros | progress cbv zeta | apply _ | apply keeps_bind | apply keeps_bool | apply keeps_pair
  | by intros ? ? ? [= <- <-] | match goal with |- Keeps _ (match ?x with _ => _ end) => destruct x end ].

#[local] Instance remap_lift {A} (o : option A) : keeps_remap (lift o).
Proof. unfold lift. apply _. Qed.
#[local] Instance remap_read a : keeps_remap (read a).
Proof. unfold read. apply _. Qed.
#[local] Instance remap_store a v : keeps_remap (store a v).
Proof. by intros s x s' [= <- <-]. Qed.
#[local] Instance remap_flush pte co : keeps_remap (flush_pt_entry pte co).
Proof. unfold flush_pt_entry. solve_remap. Qed.
#[local] Instance remap_tlbs hv virt : keeps_remap (flush_page_tlbs hv virt).
Proof. unfold flush_page_tlbs. solve_remap. Qed.
#[local] Instance remap_alloc num : keeps_remap (mem_page_alloc num).
Proof. unfold mem_page_alloc. solve_remap. Qed.
#[local] Instance remap_free page num : keeps_remap (mem_page_free page num).
Proof. unfold mem_page_free. solve_remap. Qed.
#[local] Instance remap_empty pt : keeps_remap (arm_page_table_empty pt).
Proof. unfold arm_page_table_empty. apply _. Qed.

Section Remap.
Context (page_offset : Z).

Section Recursion.
Context (create : paging_structures -> Z -> Z -> Z -> Z -> paging_coherent -> ST pgstate Z).
Context (Hcreate : forall pg phys size virt flags co, keeps_remap (create pg phys size virt flags co)).
#[local] Existing Instance Hcreate.

#[local] Instance remap_split p rest pte virt co : keeps_remap (split_hugepage page_offset create p rest pte virt co).
Proof. unfold split_hugepage. solve_remap. Qed.

#[local] Instance remap_destroy_walk ps : forall above pt virt size co,
  keeps_remap (destroy_walk page_offset create ps above pt virt size co).
Proof. induction ps as [|p ps IH]; intros; cbn [destroy_walk]; solve_remap. Qed.

#[local] Instance remap_clear_up above : forall p pt virt co, keeps_remap (clear_up p pt above virt co).
Proof. induction above as [|[p' pt'] above IH]; intros; cbn [clear_up]; solve_remap. Qed.

#[local] Instance remap_destroy_loop fuel : forall pg virt size co, keeps_remap (destroy_loop page_offset create fuel pg virt size co).
Proof. induction fuel as [|fuel IH]; intros; cbn [destroy_loop]; solve_remap. Qed.

#[local] Instance remap_destroy_body pg virt size co : keeps_remap (destroy_body page_offset create pg virt size co).
Proof. unfold destroy_body. solve_remap. Qed.

#[local] Instance remap_create_walk ps : forall pt phys size virt flags co,
  keeps_remap (create_walk page_offset create ps pt phys size virt flags co).
Proof. induction ps as [|p ps IH]; intros; cbn [create_walk]; solve_remap. Qed.

#[local] Instance remap_create_loop fuel : forall pg phys size virt flags co,
  keeps_remap (create_loop page_offset create fuel pg phys size virt flags co).
Proof. induction fuel as [|fuel IH]; intros; cbn [create_loop]; solve_remap. Qed.

Lemma remap_create_body pg phys size virt flags co : keeps_remap (create_body page_offset create pg phys size virt flags co).
Proof. unfold create_body. solve_remap. Qed.

End Recursion.

Lemma remap_create pg phys size virt flags co : keeps_remap (paging_create page_offset pg phys size virt flags co).
Proof.
  unfold paging_create. generalize (S MAX_PAGE_TABLE_LEVELS) as depth. intros depth. revert pg phys size virt flags co.
  induction depth as [|depth IH]; intros; cbn [paging_create_depth]; [apply _|by apply remap_create_body].
Qed.

End Remap.

Section Init.
Context (b : boot).

Definition page_offset : Z := u64 (JAILHOUSE_BASE - hyp_start b).
Definition per_cpu_pages : Z := u64 (max_cpus b * sizeof_per_cpu b) / PAGE_SIZE.
Definition config_pages : Z := PAGES (config_size b).
Definition pool_pages : Z := u64 (hyp_size b - (page_pool_start b - JAILHOUSE_BASE)) / PAGE_SIZE.
Definition bitmap_pages : Z := (pool_pages + BITS_PER_PAGE - 1) / BITS_PER_PAGE.
Definition reserved : Z := per_cpu_pages + config_pages + bitmap_pages.
Definition temporary_pages : Z := u32 (max_cpus b * NUM_TEMPORARY_PAGES).

(** The bitmap of so many pages, which are zero. *)
Definition zero_bitmap (num : Z) : list Z := replicate (Z.to_nat (num * 512)) 0.

Definition pools_init : PG Z :=
  s ← gets id;
  if pool_pages <=? reserved then
    let p := mem_pool s in
    _ ← modify (set_mem_pool (mk_page_pool (base_address p) pool_pages (used_pages p) (used_bitmap p) (pool_flags p)));
    mret (- ENOMEM)
  else
    bits ← lift (set_bits (Z.to_nat reserved) 0 (zero_bitmap bitmap_pages));
    _ ← modify (set_mem_pool (mk_page_pool (page_pool_start b) pool_pages reserved bits PAGE_SCRUB_ON_FREE));
    bitmap ← mem_page_alloc NUM_REMAP_BITMAP_PAGES;
    (* the result is not checked *)
    if bitmap =? 0 then undefined
    else
      bits ← lift (set_bits (Z.to_nat temporary_pages) 0 (zero_bitmap NUM_REMAP_BITMAP_PAGES));
      _ ← modify (set_remap_pool
            (mk_page_pool REMAP_BASE (BITS_PER_PAGE * NUM_REMAP_BITMAP_PAGES) temporary_pages bits 0));
      mret 0.

(** Up to the mapping of the hypervisor. *)
Definition hv_init : PG (Z * option paging_structures) :=
  err ← pools_init;
  if negb (err =? 0) then mret (err, None)
  else
    root ← mem_page_alloc 1;
    if root =? 0 then mret (- ENOMEM, None)
    else
      let hv := mk_paging_structures arm_paging root true in
      err ← paging_create page_offset hv (paging_hvirt2phys page_offset JAILHOUSE_BASE) (hyp_size b) JAILHOUSE_BASE
              PAGE_DEFAULT_FLAGS PAGING_NON_COHERENT;
      mret (err, Some hv).

Definition console_init (hv : paging_structures) : PG Z :=
  match console b with
  | None => mret 0
  | Some (address, size) =>
      s ← gets id;
      let vaddr := debug_console_base b in
      if (REMAP_BASE <=? u64 (vaddr + size)) && (vaddr <? REMAP_BASE + pages (remap_pool s) * PAGE_SIZE)
      then mret (- EINVAL)
      else paging_create page_offset hv address size vaddr (Z.lor PAGE_DEFAULT_FLAGS PAGE_FLAG_DEVICE) PAGING_NON_COHERENT
  end.

Definition clock_init (hv : paging_structures) : PG Z :=
  if debug_clock_reg b =? 0 then mret 0
  else paging_create page_offset hv (clock_reg b) 1 (debug_clock_reg b) (Z.lor PAGE_DEFAULT_FLAGS PAGE_FLAG_DEVICE)
         PAGING_NON_COHERENT.

(** The second component stands for [hv_paging_structs]. *)
Definition paging_init : PG (Z * option paging_structures) :=
  '(err, hv) ← hv_init;
  match hv with
  | None => mret (err, hv)
  | Some pg =>
      if negb (err =? 0) then mret (err, hv)
      else
        err ← console_init pg;
        if negb (err =? 0) then mret (err, hv)
        else
          err ← clock_init pg;
          if negb (err =? 0) then mret (err, hv)
          else
            s ← gets id;
            err ← paging_create page_offset pg 0 (used_pages (remap_pool s) * PAGE_SIZE) TEMPORARY_MAPPING_BASE
              PAGE_NONPRESENT_FLAGS PAGING_NON_COHERENT;
            mret (err, hv)
  end.

(** ** A sound configuration *)

Record boot_ok : Prop := {
  bo_pool : JAILHOUSE_BASE <= page_pool_start b /\ page_pool_start b mod PAGE_SIZE = 0;
  bo_size : 0 < hyp_size b < 2 ^ 42 /\ hyp_size b mod PAGE_SIZE = 0 /\ page_pool_start b - JAILHOUSE_BASE <= hyp_size b;
  bo_virt : JAILHOUSE_BASE + hyp_size b <= 2 ^ 48;
  bo_phys : 0 <= hyp_start b <= JAILHOUSE_BASE /\ hyp_start b mod PAGE_SIZE = 0 /\ hyp_start b + hyp_size b <= 2 ^ 48;
  bo_cpus : 0 <= max_cpus b <= 8192 /\ 0 <= sizeof_per_cpu b < 2 ^ 32;
  bo_config : 0 <= config_size b < 2 ^ 42;
}.

(** The pool has room for the bitmap of the other one. *)
Definition room : Prop := reserved + NUM_REMAP_BITMAP_PAGES <= 64 * (pool_pages / 64).

Context (Hok : boot_ok).

Lemma pool_pages_value : pool_pages = (hyp_size b - (page_pool_start b - JAILHOUSE_BASE)) / PAGE_SIZE /\ 0 <= pool_pages < 2 ^ 30.
Proof.
  destruct Hok as [[Hp _] (Hs & _ & Hle) _ _ _ _]. unfold pool_pages. rewrite u64_small by lia. split; [done|].
  unfold PAGE_SIZE. split; [apply Z.div_pos; lia|apply Z.div_lt_upper_bound; lia].
Qed.

Lemma reserved_range : 0 <= per_cpu_pages < 2 ^ 34 /\ 0 <= config_pages < 2 ^ 31 /\ 0 <= bitmap_pages < 2 ^ 16 /\
  pool_pages <= bitmap_pages * BITS_PER_PAGE.
Proof.
  pose proof pool_pages_value as [_ Hp]. destruct Hok as [_ _ _ _ [Hc Hs] Hcf].
  unfold per_cpu_pages, config_pages, PAGES, bitmap_pages, BITS_PER_PAGE, PAGE_SIZE.
  rewrite !u64_small by nia. pose proof (Z.div_mod (pool_pages + 4096 * 8 - 1) (4096 * 8) ltac:(done)).
  pose proof (Z.mod_pos_bound (pool_pages + 4096 * 8 - 1) (4096 * 8) ltac:(done)).
  split_and!; try (apply Z.div_pos; nia); try (apply Z.div_lt_upper_bound; nia). lia.
Qed.

Lemma page_offset_value : page_offset = JAILHOUSE_BASE - hyp_start b /\ page_offset mod PAGE_SIZE = 0.
Proof.
  destruct Hok as [_ _ _ (Hh & Hm & _) _ _]. unfold page_offset. rewrite u64_small by (unfold JAILHOUSE_BASE in *; lia).
  split; [done|]. rewrite Zminus_mod, Hm. done.
Qed.

Lemma temporary_value : temporary_pages = max_cpus b * NUM_TEMPORARY_PAGES /\ 0 <= temporary_pages <= 2 ^ 17.
Proof.
  destruct Hok as [_ _ _ _ [Hc _] _]. unfold temporary_pages, NUM_TEMPORARY_PAGES. rewrite u32_small by lia. lia.
Qed.

(** The pages of the pool behind the reserved ones are zero. *)
Definition fresh (s : pgstate) : Prop := forall n a, reserved <= n < pool_pages ->
  in_page a (page_pool_start b + n * PAGE_SIZE) -> word_at a s = 0.

Lemma zero_bits num i : word_bit (zero_bitmap num) i = false.
Proof.
  unfold word_bit, zero_bitmap, aget. destruct (_ <? 0); [by rewrite Z.bits_0|].
  destruct (replicate _ 0 !! _) as [w|] eqn:Hw; cbn [default]; [|by rewrite Z.bits_0].
  apply lookup_replicate in Hw as [-> _]. apply Z.bits_0.
Qed.
Lemma zero_words num : words_ok (zero_bitmap num).
Proof. apply Forall_replicate. lia. Qed.

(** Setting the first [n] bits of a zero bitmap of [num] pages. *)
Lemma first_bits_run num n : 0 <= num -> 0 <= n <= num * BITS_PER_PAGE -> n <= 2 ^ 31 ->
  exists bits, set_bits (Z.to_nat n) 0 (zero_bitmap num) = Some bits /\ words_ok bits /\
    64 * Z.of_nat (length bits) = num * BITS_PER_PAGE /\ forall i, 0 <= i -> word_bit bits i = (i <? n).
Proof.
  intros Hnum Hn Hmax. unfold BITS_PER_PAGE, PAGE_SIZE in *.
  assert (Hlen : 64 * Z.of_nat (length (zero_bitmap num)) = num * (4096 * 8)).
  { unfold zero_bitmap. rewrite length_replicate. lia. }
  destruct (set_bits_run (Z.to_nat n) 0 (zero_bitmap num) (zero_words num)) as (bits & Hb & Hl & Hw & Hbits); [lia..|].
  exists bits. split; [done|]. split; [done|]. split; [by rewrite Hl|]. intros i Hi.
  rewrite Hbits, zero_bits, orb_false_r, Z2Nat.id by lia. cbn. by rewrite (proj2 (Z.leb_le 0 i)) by done.
Qed.

(** ** The pools *)

(** The reserved pages stay in use. *)
Definition reserved_pages (lab : gmap Z (list Z)) (s : pgstate) : Prop := forall n, 0 <= n < reserved ->
  let q := page_pool_start b + n * PAGE_SIZE in ~ free_at (mem_pool s) q /\ lab !! q = None.

Record remap_ready (s : pgstate) : Prop := {
  rr_ok : pool_ok (remap_pool s);
  rr_base : base_address (remap_pool s) = REMAP_BASE;
  rr_pages : pages (remap_pool s) = BITS_PER_PAGE * NUM_REMAP_BITMAP_PAGES;
  rr_used : used_pages (remap_pool s) = temporary_pages;
  rr_bits i : 0 <= i -> word_bit (used_bitmap (remap_pool s)) i = (i <? temporary_pages);
}.

Record pools_ready (lab : gmap Z (list Z)) (s : pgstate) : Prop := {
  pr_ok : pg_ok page_offset lab s;
  pr_reserved : reserved_pages lab s;
  pr_remap : remap_ready s;
}.

Lemma remap_ready_init s bits : words_ok bits -> 64 * Z.of_nat (length bits) = NUM_REMAP_BITMAP_PAGES * BITS_PER_PAGE ->
  (forall i, 0 <= i -> word_bit bits i = (i <? temporary_pages)) ->
  remap_ready (set_remap_pool (mk_page_pool REMAP_BASE (BITS_PER_PAGE * NUM_REMAP_BITMAP_PAGES) temporary_pages bits 0) s).
Proof. intros Hw Hl Hb. split; try done. split; cbn; try done. unfold BITS_PER_PAGE, NUM_REMAP_BITMAP_PAGES, PAGE_SIZE in *. lia. Qed.

Definition init_pool (bits : list Z) : page_pool := mk_page_pool (page_pool_start b) pool_pages reserved bits PAGE_SCRUB_ON_FREE.

Lemma init_pool_ok bits : words_ok bits -> 64 * Z.of_nat (length bits) = bitmap_pages * BITS_PER_PAGE -> pool_ok (init_pool bits).
Proof.
  intros Hw Hl. pose proof pool_pages_value as [Hpv Hp]. pose proof reserved_range as (_ & _ & _ & Hbm).
  destruct Hok as [[Hs Hm] (Hsz & Hszm & Hle) Hv _ _ _].
  pose proof (Z.mul_div_le (hyp_size b - (page_pool_start b - JAILHOUSE_BASE)) PAGE_SIZE ltac:(done)).
  unfold JAILHOUSE_BASE in *. split; cbn; try done; try lia.
Qed.

Lemma init_pool_offset p : base_address p = page_pool_start b -> pages p = pool_pages ->
  0 <= page_offset < 2 ^ 64 /\ page_offset mod PAGE_SIZE = 0 /\ page_offset <= base_address p /\
  base_address p + pages p * PAGE_SIZE <= page_offset + 2 ^ 48.
Proof.
  intros -> ->. destruct page_offset_value as [Hpo Hpm]. pose proof pool_pages_value as [Hpv Hp].
  destruct Hok as [[Hs Hm] (Hsz & Hszm & Hle) Hv (Hh & Hhm & Hhe) _ _]. split; [|split; [done|]].
  { rewrite Hpo. unfold JAILHOUSE_BASE in *. lia. }
  pose proof (Z.mul_div_le (hyp_size b - (page_pool_start b - JAILHOUSE_BASE)) PAGE_SIZE ltac:(done)).
  rewrite Hpv, Hpo. lia.
Qed.

(** An allocation of several pages behind the reserved ones succeeds. *)
Lemma init_alloc_run bits num : words_ok bits -> 64 * Z.of_nat (length bits) = bitmap_pages * BITS_PER_PAGE ->
  (forall i, 0 <= i -> word_bit bits i = (i <? reserved)) -> 0 < num < 2 ^ 32 -> reserved + num <= 64 * (pool_pages / 64) ->
  exists s p', page_alloc (init_pool bits) num = Some (page_pool_start b + s * PAGE_SIZE, p') /\
    page_pool_start b + s * PAGE_SIZE <> 0 /\ taken_pages (init_pool bits) s num p'.
Proof.
  intros Hw Hl Hbits Hnum Hroom. pose proof (init_pool_ok bits Hw Hl) as Hp.
  pose proof reserved_range as (? & ? & ? & _). unfold page_alloc.
  destruct (page_alloc_run (init_pool bits) 0 num Hp ltac:(done) ltac:(lia) (or_introl eq_refl))
    as [[_ [He|Hno]]|(s & p' & Ha & Hs & [Hfree _] & _ & Ht)]; rewrite ?Z.mod_1_r in *.
  - lia.
  - exfalso. apply (Hno reserved); [unfold reserved; lia|]. split; [|apply Z.mod_1_r]. intros i Hi.
    split; [unfold managed; cbn; unfold reserved in *; lia|]. cbn. rewrite Hbits by (unfold reserved in *; lia). apply Z.ltb_ge. lia.
  - exists s, p'. split; [exact Ha|]. split; [|done].
    pose proof (po_base _ Hp) as [Hb _]. cbn in Hb. unfold PAGE_SIZE. lia.
Qed.

(** The state after the bitmap of the other pool was allocated. *)
Lemma init_pool_ready bits s n p' bits' : fresh s -> words_ok bits -> 64 * Z.of_nat (length bits) = bitmap_pages * BITS_PER_PAGE ->
  (forall i, 0 <= i -> word_bit bits i = (i <? reserved)) -> taken_pages (init_pool bits) n NUM_REMAP_BITMAP_PAGES p' ->
  words_ok bits' -> 64 * Z.of_nat (length bits') = NUM_REMAP_BITMAP_PAGES * BITS_PER_PAGE ->
  (forall i, 0 <= i -> word_bit bits' i = (i <? temporary_pages)) ->
  pools_ready ∅ (set_remap_pool (mk_page_pool REMAP_BASE (BITS_PER_PAGE * NUM_REMAP_BITMAP_PAGES) temporary_pages bits' 0)
    (set_mem_pool p' s)).
Proof.
  intros Hfresh Hw Hl Hbits Ht Hw' Hl' Hbits'. pose proof reserved_range as (? & ? & ? & _).
  assert (Hfree : forall i, free_page p' i -> reserved <= i < pool_pages).
  { intros i [Hi Hb]. pose proof (managed_pages p' (tp_ok _ _ _ _ Ht)) as Hm. rewrite (tp_pages _ _ _ _ Ht) in Hm. cbn in Hm.
    rewrite (tp_bits _ _ _ _ Ht) in Hb by lia. cbn in Hb. rewrite Hbits in Hb by lia. b2p. lia. }
  split; [|intros i Hi q; split; [|done]|by apply remap_ready_init].
  - split; cbn [set_remap_pool set_mem_pool mem_pool]; [apply Ht|by rewrite (tp_flags _ _ _ _ Ht)| | |done].
    + apply init_pool_offset; [apply Ht|apply Ht].
    + intros q a (i & -> & Hi) Hin. apply (Hfresh i); [by apply Hfree|]. unfold pool_page in Hin.
      by rewrite (tp_base _ _ _ _ Ht) in Hin.
  - cbn [set_remap_pool set_mem_pool mem_pool]. intros (j & Hj & Hf). apply Hfree in Hf. subst q.
    unfold pool_page in Hj. rewrite (tp_base _ _ _ _ Ht) in Hj. cbn in Hj. unfold PAGE_SIZE in Hj. lia.
Qed.

Lemma pools_init_run s : fresh s -> room -> exists s', pools_init s = Some (0, s') /\ pools_ready ∅ s'.
Proof.
  intros Hfresh Hroom. pose proof pool_pages_value as [Hpv Hp]. pose proof reserved_range as (? & ? & ? & Hbm).
  pose proof temporary_value as [_ Htmp]. pose proof (Z.mul_div_le pool_pages 64 ltac:(done)).
  unfold room, NUM_REMAP_BITMAP_PAGES in Hroom. unfold pools_init. erewrite bind_run by reflexivity.
  rewrite (proj2 (Z.leb_gt _ _)) by lia.
  destruct (first_bits_run bitmap_pages reserved) as (bits & Hb & Hw & Hl & Hbits); [lia|unfold reserved in *; lia|lia|].
  rewrite (lift_run _ _ _ _ Hb). erewrite bind_run by reflexivity.
  change (mk_page_pool _ _ _ bits _) with (init_pool bits).
  destruct (init_alloc_run bits 4 Hw Hl Hbits ltac:(done) ltac:(lia)) as (n & p' & Ha & Hn0 & Ht).
  unfold mem_page_alloc, NUM_REMAP_BITMAP_PAGES.
  erewrite bind_run.
  2: { erewrite bind_run by reflexivity. rewrite (lift_run _ _ _ _ Ha). erewrite bind_run by reflexivity. reflexivity. }
  cbv beta. rewrite (proj2 (Z.eqb_neq _ _) Hn0).
  destruct (first_bits_run 4 temporary_pages) as (bits' & Hb' & Hw' & Hl' & Hbits');
    [done|unfold BITS_PER_PAGE, PAGE_SIZE; lia|lia|].
  rewrite (lift_run _ _ _ _ Hb'). erewrite bind_run by reflexivity. eexists. split; [reflexivity|].
  exact (init_pool_ready bits s n p' bits' Hfresh Hw Hl Hbits Ht Hw' Hl' Hbits').
Qed.

(** A pool without room is refused before anything is allocated. *)
Lemma pools_init_full s : pool_pages <= reserved -> exists s', pools_init s = Some (- ENOMEM, s') /\ words s' = words s.
Proof.
  intros Hfull. unfold pools_init. erewrite bind_run by reflexivity. rewrite (proj2 (Z.leb_le _ _)) by done.
  cbv zeta. erewrite bind_run by reflexivity. eexists. split; reflexivity.
Qed.

(** ** The address space of the hypervisor *)

(** A range of addresses and what it is mapped to. *)
Record area := mk_area { lo : Z; hi : Z; phys : Z; flags : Z }.

Definition in_area (a : area) (v : Z) : Prop := lo a <= v < hi a.

(** The area that [paging_create] maps. *)
Definition area_of (ph size virt fl : Z) : area :=
  mk_area (Z.land virt PAGE_MASK) (Z.land virt PAGE_MASK + PAGE_ALIGN size) (Z.land ph PAGE_MASK) fl.

Record area_ok (ph size virt : Z) : Prop := {
  ao_virt : 0 <= virt < 2 ^ 48 /\ Z.land virt PAGE_MASK + PAGE_ALIGN size <= 2 ^ 48;
  ao_size : 0 <= size <= 2 ^ 48;
  ao_phys : 0 <= ph < 2 ^ 48 /\ Z.land ph PAGE_MASK + PAGE_ALIGN size <= 2 ^ 48;
}.

Definition apart_from (a a' : area) : Prop := forall v, in_area a' v -> ~ in_area a v.

(** The tables of the hypervisor carry a label that no cell has. *)
Definition hv_label : list Z := [-1].

(** The hypervisor has the mappings [areas] and no others. *)
Record layout (areas : list area) (pg : paging_structures) (lab : gmap Z (list Z)) (s : pgstate) : Prop := {
  ly_space : space_ok page_offset 48 39 9 hv_label pg lab s;
  ly_ready : pools_ready lab s;
  ly_range a : a ∈ areas -> 0 <= lo a /\ hi a <= 2 ^ 48;
  ly_mapped a v : a ∈ areas -> in_area a v -> exists z, mapping page_offset pg s v = Some (phys a + (v - lo a), flags a, z) /\
    lo a <= v - v mod z /\ v - v mod z + z <= hi a;
  ly_only v : 0 <= v < 2 ^ 48 -> (forall a, a ∈ areas -> ~ in_area a v) -> mapping page_offset pg s v = None;
}.

(** A change elsewhere does not split the page of an address. *)
Lemma kept_apart lo1 hi1 v a f z m : kept lo1 hi1 v (Some (a, f, z)) m ->
  (forall w, v - v mod z <= w < v - v mod z + z -> ~ lo1 <= w < hi1) -> m = Some (a, f, z).
Proof.
  intros [->|(a' & f' & z1 & z2 & [= <- <- <-] & _ & Hz & w & Hw & Hq)] Hap; [done|]. exfalso.
  unfold PAGE_SIZE in Hz. apply (Hap w); [|done].
  pose proof (Z.div_mod v z ltac:(lia)) as Hd. pose proof (Z.div_mod w z ltac:(lia)) as Hd2.
  pose proof (Z.mod_pos_bound w z ltac:(lia)). rewrite Hq in Hd. lia.
Qed.

(** A change of the tables of the hypervisor keeps the reserved pages. *)
Lemma ready_change lab s lab' s' A l h : pools_ready lab s -> pg_ok page_offset lab' s' -> remap_pool s' = remap_pool s ->
  change A (path_in hv_label 39 9 l h) lab s lab' s' -> pools_ready lab' s'.
Proof.
  intros [H1 H2 H3] Hpg Hr Hc. split; [done| |].
  - intros n Hn q. destruct (H2 n Hn) as [Hf Hl]. fold q in Hf, Hl.
    split; [eapply ch_free; [exact Hc|done|congruence]|].
    destruct (lab' !! q) as [ρ|] eqn:Hq; [|done]. destruct Hf. by eapply ch_new.
  - destruct H3 as [? ? ? ? ?]. split; by rewrite Hr.
Qed.

Lemma layout_create areas pg lab s ph size virt fl co : layout areas pg lab s -> area_ok ph size virt -> flags_ok fl ->
  Forall (apart_from (area_of ph size virt fl)) areas ->
  exists r lab' s', paging_create page_offset pg ph size virt fl co s = Some (r, s') /\ (r = 0 \/ r = - ENOMEM) /\
    (r = 0 -> layout (if valid fl then area_of ph size virt fl :: areas else areas) pg lab' s').
Proof.
  intros Hly [[Hv Hve] Hsz [Hph Hpe]] Hfl Hcl. unfold area_of in *. set (l := Z.land virt PAGE_MASK) in *.
  set (h := l + PAGE_ALIGN size) in *.
  destruct (paging_create_run page_offset 48 39 9 hv_label pg ph size virt fl co lab s) as (r & lab' & s' & Hrun & [Hc Hsp Hch Hm]);
    try done; [apply Hly|].
  fold l in Hch, Hm. fold h in Hch, Hm. exists r, lab', s'. split; [exact Hrun|]. split; [exact Hc|]. intros ->.
  destruct Hm as (m & Hmr & Hm0 & Hin & Hout). rewrite (Hm0 eq_refl) in *. rewrite Forall_forall in Hcl.
  assert (Hready : pools_ready lab' s').
  { eapply ready_change; [apply Hly|apply Hsp| |exact Hch]. by eapply (remap_create page_offset). }
  assert (Hold : forall a v, a ∈ areas -> in_area a v -> exists z, mapping page_offset pg s' v = Some (phys a + (v - lo a), flags a, z) /\
    lo a <= v - v mod z /\ v - v mod z + z <= hi a).
  { intros a v Ha Hav. destruct (ly_mapped _ _ _ _ Hly a v Ha Hav) as (z & Hz & Hlo & Hhi). exists z. split; [|done].
    pose proof (ly_range _ _ _ _ Hly a Ha). unfold in_area in Hav. pose proof (Hout v ltac:(lia) (Hcl a Ha v Hav)) as Hk.
    rewrite Hz in Hk. apply (kept_apart _ _ _ _ _ _ _ Hk). intros w Hw. apply (Hcl a Ha). unfold in_area. lia. }
  assert (Hnone : forall v, 0 <= v < 2 ^ 48 -> ~ l <= v < h -> (forall a, a ∈ areas -> ~ in_area a v) -> mapping page_offset pg s' v = None).
  { intros v Hvr Hn Hna. pose proof (Hout v Hvr Hn) as Hk. rewrite (ly_only _ _ _ _ Hly v Hvr Hna) in Hk. by apply kept_to_none in Hk. }
  destruct (page_align_spec size ltac:(lia)) as (? & _).
  destruct (valid fl) eqn:Hvl; (split; [done|done| | |]); try done.
  - intros a [->|Ha]%elem_of_cons; [cbn; split; [|lia]|by apply (ly_range _ _ _ _ Hly)].
    unfold l. rewrite land_page_mask by lia. pose proof (Z.mod_le virt PAGE_SIZE). unfold PAGE_SIZE in *. lia.
  - intros a v [->|Ha]%elem_of_cons Hav; [|by apply Hold]. cbn in *. destruct (Hin v Hav) as (z & Hz & Hzr).
    exists z. by rewrite Hz, present_valid.
  - intros v Hvr Hna. apply Hnone; [done| |intros a Ha; apply Hna; by right]. apply (Hna (mk_area l h (Z.land ph PAGE_MASK) fl)). by left.
  - apply (ly_range _ _ _ _ Hly).
  - intros v Hvr Hna. destruct (decide (l <= v < h)) as [Hi|]; [|by apply Hnone].
    destruct (Hin v Hi) as (z & -> & _). unfold present. by rewrite Hvl.
Qed.

(** ** The mapping of the hypervisor *)
Definition hyp_area : area := mk_area JAILHOUSE_BASE (JAILHOUSE_BASE + hyp_size b) (hyp_start b) PAGE_DEFAULT_FLAGS.

Lemma hyp_area_value : paging_hvirt2phys page_offset JAILHOUSE_BASE = hyp_start b /\
  area_of (hyp_start b) (hyp_size b) JAILHOUSE_BASE PAGE_DEFAULT_FLAGS = hyp_area /\
  area_ok (hyp_start b) (hyp_size b) JAILHOUSE_BASE.
Proof.
  destruct page_offset_value as [Hpo _]. destruct Hok as [_ (Hsz & Hszm & _) Hv (Hh & Hhm & Hhe) _ _].
  assert (Ha : PAGE_ALIGN (hyp_size b) = hyp_size b) by (apply page_align_mult; [lia|done]).
  assert (Hj : Z.land JAILHOUSE_BASE PAGE_MASK = JAILHOUSE_BASE) by done.
  assert (Hp : Z.land (hyp_start b) PAGE_MASK = hyp_start b).
  { unfold JAILHOUSE_BASE in *. rewrite land_page_mask by lia. lia. }
  split; [|split; [unfold area_of, hyp_area; by rewrite Ha, Hj, Hp|split; rewrite ?Ha, ?Hj, ?Hp; unfold JAILHOUSE_BASE in *; lia]].
  unfold paging_hvirt2phys. rewrite Hpo, u64_small by (unfold JAILHOUSE_BASE in *; lia). lia.
Qed.

(** An empty root table. *)
Lemma root_run lab s : pools_ready lab s -> mem_page_alloc 1 s = Some (0, s) \/
  exists root lab' s', mem_page_alloc 1 s = Some (root, s') /\ root <> 0 /\
    layout [] (mk_paging_structures arm_paging root true) lab' s'.
Proof.
  intros Hr. destruct (alloc_run page_offset lab s mret (pr_ok _ _ Hr))
    as [H0|(q & s1 & Hq & Hq0 & Hqf & Hlq & Hw & Hqa & Hz & Hnew)].
  - left. unfold mbind, st_bind in H0. destruct (mem_page_alloc 1 s) as [[x s2]|]; [|done]. exact H0.
  - right. assert (Hrun : mem_page_alloc 1 s = Some (q, s1)).
    { unfold mbind, st_bind in Hq. destruct (mem_page_alloc 1 s) as [[x s2]|]; [|done]. exact Hq. }
    destruct (Hnew hv_label) as [Hok1 Hc]. exists q, (<[q := hv_label]> lab), s1. split; [done|]. split; [done|].
    destruct (empty_tree page_offset 48 arm_paging 39 9 false (<[q := hv_label]> lab) hv_label s1 q arm_paging_levels) as [Ht Hm].
    { intros i Hi. rewrite Hw. apply Hz. by exists i. }
    split; try done.
    + split; try done; [by exists false; apply arm_paging_levels|].
      apply home_labelled with page_offset; [done|]. apply lookup_insert_eq.
    + specialize (Hc (fun _ => False) (fun ρ => ρ = hv_label) eq_refl). destruct Hr as [H1 H2 H3]. split; [done| |].
      * intros n Hn q'. destruct (H2 n Hn) as [Hf Hl]. fold q' in Hf, Hl.
        split; [eapply ch_free; [exact Hc|done|congruence]|]. rewrite lookup_insert_ne; [done|]. intros ->. done.
      * assert (He : remap_pool s1 = remap_pool s) by (by eapply (remap_alloc 1)).
        destruct H3 as [? ? ? ? ?]. split; by rewrite He.
    + intros a Ha. by apply elem_of_nil in Ha.
    + intros a v Ha. by apply elem_of_nil in Ha.
    + intros v Hv _. by apply Hm.
Qed.

Lemma hv_init_run s : fresh s -> room -> exists r hv s', hv_init s = Some ((r, hv), s') /\ (r = 0 \/ r = - ENOMEM) /\
  (r = 0 -> exists pg lab, hv = Some pg /\ root_paging pg = arm_paging /\ layout [hyp_area] pg lab s').
Proof.
  intros Hfresh Hroom. destruct (pools_init_run s Hfresh Hroom) as (s1 & H1 & Hr1). destruct hyp_area_value as (Hp & Ha & Hao).
  unfold hv_init. erewrite bind_run by exact H1. cbn [Z.eqb negb].
  destruct (root_run ∅ s1 Hr1) as [H0|(root & lab & s2 & H2 & Hn0 & Hly)].
  { erewrite bind_run by exact H0. exists (- ENOMEM), None, s1. split; [done|]. split; [by right|done]. }
  erewrite bind_run by exact H2. rewrite (proj2 (Z.eqb_neq _ _) Hn0). cbv zeta.
  set (pg := mk_paging_structures arm_paging root true) in *. rewrite Hp.
  destruct (layout_create [] pg lab s2 (hyp_start b) (hyp_size b) JAILHOUSE_BASE PAGE_DEFAULT_FLAGS PAGING_NON_COHERENT Hly Hao)
    as (r & lab' & s' & Hrun & Hr & Hly'); [done|done|].
  erewrite bind_run by exact Hrun. exists r, (Some pg), s'. split; [done|]. split; [done|]. intros Hr0.
  exists pg, lab'. split; [done|]. split; [done|]. specialize (Hly' Hr0). by rewrite Ha in Hly'.
Qed.

(** ** Devices and temporary pages *)
Definition DEVICE_FLAGS : Z := Z.lor PAGE_DEFAULT_FLAGS PAGE_FLAG_DEVICE.

Definition console_areas : list area :=
  match console b with Some (address, size) => [area_of address size (debug_console_base b) DEVICE_FLAGS] | None => [] end.
Definition clock_areas : list area :=
  if debug_clock_reg b =? 0 then [] else [area_of (clock_reg b) 1 (debug_clock_reg b) DEVICE_FLAGS].
Definition temporary_area : area := area_of 0 (temporary_pages * PAGE_SIZE) TEMPORARY_MAPPING_BASE PAGE_NONPRESENT_FLAGS.

(** The devices are apart from the image, and the clock from the others. That
    the console is apart from the temporary pages is checked. *)
Record devices_ok : Prop := {
  do_console address size : console b = Some (address, size) -> area_ok address size (debug_console_base b) /\
    Forall (apart_from hyp_area) console_areas;
  do_clock : debug_clock_reg b <> 0 -> area_ok (clock_reg b) 1 (debug_clock_reg b) /\
    Forall (fun a => Forall (apart_from a) (console_areas ++ [hyp_area])) clock_areas /\
    Forall (apart_from temporary_area) clock_areas;
}.

Lemma apart_sym a a' : apart_from a a' -> apart_from a' a.
Proof. unfold apart_from. intros H v Ha Ha'. by apply (H v). Qed.

Lemma temporary_area_value : area_ok 0 (temporary_pages * PAGE_SIZE) TEMPORARY_MAPPING_BASE /\
  lo temporary_area = REMAP_BASE /\ hi temporary_area = REMAP_BASE + temporary_pages * PAGE_SIZE.
Proof.
  pose proof temporary_value as [_ Ht]. unfold temporary_area, area_of. cbn [lo hi].
  assert (Ha : PAGE_ALIGN (temporary_pages * PAGE_SIZE) = temporary_pages * PAGE_SIZE).
  { apply page_align_mult; [unfold PAGE_SIZE; lia|by apply Z.mod_mul]. }
  assert (Hb : Z.land TEMPORARY_MAPPING_BASE PAGE_MASK = REMAP_BASE) by done.
  assert (Hz : Z.land 0 PAGE_MASK = 0) by done.
  split; [|by rewrite Ha, Hb]. split; rewrite ?Ha, ?Hb, ?Hz; unfold TEMPORARY_MAPPING_BASE, REMAP_BASE, PAGE_SIZE in *; lia.
Qed.

Lemma temporary_hyp_apart : apart_from temporary_area hyp_area.
Proof.
  destruct temporary_area_value as (_ & Htl & Hth). pose proof temporary_value as [_ Ht].
  intros v Hv. unfold in_area in *. rewrite Htl, Hth. cbn in Hv. unfold JAILHOUSE_BASE, REMAP_BASE, PAGE_SIZE in *. lia.
Qed.

(** The check of the console's address is enough for its pages. *)
Lemma console_apart address size : console b = Some (address, size) -> area_ok address size (debug_console_base b) ->
  (REMAP_BASE <=? u64 (debug_console_base b + size)) &&
    (debug_console_base b <? REMAP_BASE + BITS_PER_PAGE * NUM_REMAP_BITMAP_PAGES * PAGE_SIZE) = false ->
  Forall (apart_from temporary_area) console_areas.
Proof.
  intros Hc [[Hv Hve] Hsz _] Hcheck. unfold console_areas. rewrite Hc. apply Forall_singleton.
  destruct temporary_area_value as (_ & Hl & Hh). pose proof temporary_value as [_ Ht].
  intros v Hin. unfold in_area in *. rewrite Hl, Hh. unfold area_of in Hin. cbn [lo hi] in Hin.
  destruct (page_align_spec size ltac:(lia)) as (_ & Hm & Ha). rewrite land_page_mask in * by lia.
  set (va := debug_console_base b) in *. rewrite u64_small in Hcheck by lia.
  pose proof (Z.div_mod va PAGE_SIZE ltac:(done)) as Hd. pose proof (Z.mod_pos_bound va PAGE_SIZE ltac:(done)).
  pose proof (Z.div_mod (PAGE_ALIGN size) PAGE_SIZE ltac:(done)) as Hd2.
  unfold BITS_PER_PAGE, NUM_REMAP_BITMAP_PAGES, REMAP_BASE, PAGE_SIZE in *.
  apply andb_false_iff in Hcheck as [Hcheck|Hcheck]; b2p; lia.
Qed.

Lemma console_run pg lab s : devices_ok -> layout [hyp_area] pg lab s ->
  exists r lab' s', console_init pg s = Some (r, s') /\ (r = 0 \/ r = - ENOMEM \/ r = - EINVAL) /\
    (r = 0 -> layout (console_areas ++ [hyp_area]) pg lab' s' /\ Forall (apart_from temporary_area) console_areas).
Proof.
  intros Hdev Hly. unfold console_init. pose proof (fun a sz => console_apart a sz) as Hap. pose proof (do_console Hdev) as Hdc.
  unfold console_areas in *. destruct (console b) as [[address size]|].
  2: { exists 0, lab, s. split; [done|]. split; [by left|]. done. }
  destruct (Hdc address size eq_refl) as [Hao Hca]. erewrite bind_run by reflexivity. cbv zeta. unfold id.
  rewrite (rr_pages _ (pr_remap _ _ (ly_ready _ _ _ _ Hly))).
  destruct (_ && _) eqn:Hcheck.
  { exists (- EINVAL), lab, s. split; [done|]. split; [by right; right|done]. }
  destruct (layout_create [hyp_area] pg lab s address size (debug_console_base b) DEVICE_FLAGS PAGING_NON_COHERENT Hly Hao)
    as (r & lab' & s' & Hrun & Hr & Hly'); [done| |].
  { apply Forall_singleton. apply apart_sym. by rewrite Forall_singleton in Hca. }
  exists r, lab', s'. split; [exact Hrun|]. split; [tauto|]. intros Hr0. split; [by apply Hly'|by apply (Hap address size)].
Qed.

Lemma clock_run pg lab s : devices_ok -> layout (console_areas ++ [hyp_area]) pg lab s ->
  exists r lab' s', clock_init pg s = Some (r, s') /\ (r = 0 \/ r = - ENOMEM) /\
    (r = 0 -> layout (clock_areas ++ console_areas ++ [hyp_area]) pg lab' s' /\ Forall (apart_from temporary_area) clock_areas).
Proof.
  intros Hdev Hly. unfold clock_init. pose proof (do_clock Hdev) as Hdc. unfold clock_areas in *.
  destruct (Z.eqb_spec (debug_clock_reg b) 0) as [|Hn]; [by exists 0, lab, s; split; [done|]; split; [left|]|].
  destruct (Hdc Hn) as (Hao & Hcl & Htm). rewrite Forall_singleton in Hcl.
  destruct (layout_create _ pg lab s (clock_reg b) 1 (debug_clock_reg b) DEVICE_FLAGS PAGING_NON_COHERENT Hly Hao)
    as (r & lab' & s' & Hrun & Hr & Hly'); [done|done|].
  exists r, lab', s'. split; [exact Hrun|]. split; [done|]. intros Hr0. split; [by apply Hly'|done].
Qed.

(** ** The tables of the temporary pages *)
Definition temporary_prepared (pg : paging_structures) (s : pgstate) : Prop :=
  forall v, REMAP_BASE <= v < REMAP_BASE + temporary_pages * PAGE_SIZE -> v mod PAGE_SIZE = 0 ->
    prepared page_offset (root_paging pg) s (root_table pg) v.

(** The physical addresses [0 ..] and the temporary pages from 1 MB on are
    never both at the start of a block. *)
Lemma temporary_no_blocks h : no_blocks 0 REMAP_BASE h.
Proof.
  intros k Hk _ n Hn _ Hv Hp. rewrite Z.add_0_l in Hp.
  assert (H2 : 0 < 2 ^ n) by (apply Z.pow_pos_nonneg; lia).
  rewrite <- Z.add_mod_idemp_r, Hp, Z.add_0_r in Hv by lia.
  assert (2 ^ 21 <= 2 ^ n) by (apply Z.pow_le_mono_r; lia). rewrite Z.mod_small in Hv by (unfold REMAP_BASE; lia). done.
Qed.

Lemma temporary_run pg lab s : layout (clock_areas ++ console_areas ++ [hyp_area]) pg lab s ->
  Forall (apart_from temporary_area) (clock_areas ++ console_areas ++ [hyp_area]) ->
  exists r lab' s', paging_create page_offset pg 0 (temporary_pages * PAGE_SIZE) TEMPORARY_MAPPING_BASE PAGE_NONPRESENT_FLAGS
      PAGING_NON_COHERENT s = Some (r, s') /\ (r = 0 \/ r = - ENOMEM) /\
    (r = 0 -> layout (clock_areas ++ console_areas ++ [hyp_area]) pg lab' s' /\ temporary_prepared pg s').
Proof.
  intros Hly Hap. destruct temporary_area_value as (Hao & Htl & Hth).
  destruct (layout_create _ pg lab s 0 (temporary_pages * PAGE_SIZE) TEMPORARY_MAPPING_BASE PAGE_NONPRESENT_FLAGS
    PAGING_NON_COHERENT Hly Hao) as (r & lab' & s' & Hrun & Hr & Hly'); [done|done|].
  exists r, lab', s'. split; [exact Hrun|]. split; [done|]. intros Hr0. split; [by apply Hly'|].
  pose proof Hao as [[Hv Hve] Hsz [Hph Hpe]]. unfold temporary_area, area_of in Htl, Hth. cbn [lo hi] in Htl, Hth.
  destruct (paging_create_prepares page_offset 48 39 9 hv_label pg 0 (temporary_pages * PAGE_SIZE) TEMPORARY_MAPPING_BASE
    PAGE_NONPRESENT_FLAGS PAGING_NON_COHERENT lab s) as (r2 & s2 & Hrun2 & Hpr); try done; [apply Hly| |].
  { rewrite Htl. apply temporary_no_blocks. }
  rewrite Hrun in Hrun2. injection Hrun2 as <- <-. intros v Hv' Hvm. apply Hpr; [done| |done]. by rewrite Hth, Htl.
Qed.

(** The start-up with room for the pools. *)
Lemma paging_init_run s : devices_ok -> room -> fresh s ->
  exists r hv s', paging_init s = Some ((r, hv), s') /\ (r = 0 \/ r = - ENOMEM \/ r = - EINVAL) /\
    (r = 0 -> exists pg lab, hv = Some pg /\ root_paging pg = arm_paging /\
       layout (clock_areas ++ console_areas ++ [hyp_area]) pg lab s' /\ temporary_prepared pg s').
Proof.
  intros Hdev Hroom Hfresh. destruct (hv_init_run s Hfresh Hroom) as (r & hv & s1 & H1 & Hr & Hly).
  unfold paging_init. erewrite bind_run by exact H1. cbv beta iota.
  destruct (decide (r = 0)) as [->|Hr0].
  2: { destruct hv as [pg|]; [rewrite (proj2 (Z.eqb_neq _ _) Hr0); cbn [negb]|]; exists r; eexists _, s1;
       (split; [reflexivity|split; [tauto|done]]). }
  destruct (Hly eq_refl) as (pg & lab & -> & Hps & Hly1). cbn [Z.eqb negb].
  destruct (console_run pg lab s1 Hdev Hly1) as (r2 & lab2 & s2 & H2 & Hr2 & Hly2). erewrite bind_run by exact H2.
  destruct (Z.eqb_spec r2 0) as [->|Hn2]; cbn [negb];
    [|exists r2; eexists _, s2; split; [reflexivity|split; [tauto|done]]].
  destruct (Hly2 eq_refl) as [Hly2' Hap2]. destruct (clock_run pg lab2 s2 Hdev Hly2') as (r3 & lab3 & s3 & H3 & Hr3 & Hly3).
  erewrite bind_run by exact H3. destruct (Z.eqb_spec r3 0) as [->|Hn3]; cbn [negb];
    [|exists r3; eexists _, s3; split; [reflexivity|split; [tauto|done]]].
  destruct (Hly3 eq_refl) as [Hly3' Hap3]. erewrite bind_run by reflexivity. cbv beta. unfold id.
  rewrite (rr_used _ (pr_remap _ _ (ly_ready _ _ _ _ Hly3'))).
  destruct (temporary_run pg lab3 s3 Hly3') as (r4 & lab4 & s4 & H4 & Hr4 & Hly4).
  { rewrite !Forall_app. split; [done|]. split; [done|]. apply Forall_singleton. apply temporary_hyp_apart. }
  erewrite bind_run by exact H4. exists r4; eexists _, s4. split; [reflexivity|]. split; [tauto|]. intros Hr40.
  exists pg, lab4. split; [done|]. split; [done|]. by apply Hly4.
Qed.

Lemma paging_init_full s : pool_pages <= reserved -> exists s', paging_init s = Some ((- ENOMEM, None), s') /\ words s' = words s.
Proof.
  intros Hfull. destruct (pools_init_full s Hfull) as (s' & H & Hw). exists s'. split; [|done].
  unfold paging_init, hv_init. by erewrite bind_run by (erewrite bind_run by exact H; reflexivity).
Qed.

(** C15: Started with a configuration that leaves room for its pools, the page
    management sets up its address space: no step is undefined, it fails only
    for want of memory or for a console in the remapping region, and on
    success the image is mapped to its physical memory, the console and the
    clock to their registers, and nothing else, the temporary pages included;
    the tables for the temporary pages are there;
    the page pool is consistent, free pages are zero, the per-CPU data, the
    configuration and the bitmap stay in use, and of the remapping pool
    exactly the temporary pages are taken. A pool that does not even hold the
    reserved pages is refused before memory is written. *)
Theorem paging_init_established s : devices_ok -> fresh s ->
  (room -> exists r hv s', paging_init s = Some ((r, hv), s') /\ (r = 0 \/ r = - ENOMEM \/ r = - EINVAL) /\
     (r = 0 -> exists pg lab, hv = Some pg /\ root_paging pg = arm_paging /\
        layout (clock_areas ++ console_areas ++ [hyp_area]) pg lab s' /\ temporary_prepared pg s')) /\
  (pool_pages <= reserved -> exists s', paging_init s = Some ((- ENOMEM, None), s') /\ words s' = words s).
Proof.
  intros Hdev Hfresh. split; [intros Hroom|intros Hfull].
  - by apply paging_init_run.
  - by apply paging_init_full.
Qed.

(** ** Temporary mappings *)

(** What later mappings need of the page tables of the hypervisor. *)
Record hv_ready (pg : paging_structures) (s : pgstate) : Prop := {
  hr_space : exists lab, space_ok page_offset 48 39 9 hv_label pg lab s;
  hr_prepared : temporary_prepared pg s;
}.

Lemma layout_ready areas pg lab s : layout areas pg lab s -> temporary_prepared pg s -> hv_ready pg s.
Proof. intros Hly Hp. split; [exists lab; apply Hly|done]. Qed.

(** The temporary pages of a CPU. *)
Definition temporary_base (cpu : Z) : Z := u64 (TEMPORARY_MAPPING_BASE + cpu * PAGE_SIZE * NUM_TEMPORARY_PAGES).

Lemma temporary_base_value cpu : 0 <= cpu < max_cpus b ->
  temporary_base cpu = REMAP_BASE + cpu * 65536 /\ Z.land (temporary_base cpu) PAGE_MASK = temporary_base cpu /\
  temporary_base cpu + 65536 <= REMAP_BASE + temporary_pages * PAGE_SIZE <= 2 ^ 48 /\ 0 <= temporary_base cpu.
Proof.
  intros Hc. destruct temporary_value as [Hv Ht]. rewrite Hv in *.
  assert (Hb : temporary_base cpu = REMAP_BASE + cpu * 65536).
  { unfold temporary_base, TEMPORARY_MAPPING_BASE, REMAP_BASE, PAGE_SIZE, NUM_TEMPORARY_PAGES in *. rewrite u64_small by lia. lia. }
  rewrite Hb. split; [done|]. unfold REMAP_BASE, PAGE_SIZE, NUM_TEMPORARY_PAGES in *.
  rewrite land_page_mask by lia. unfold PAGE_SIZE. split; [|lia].
  replace (1048576 + cpu * 65536) with ((256 + cpu * 16) * 4096) by lia. rewrite Z.mod_mul by done. lia.
Qed.

(** A mapping of temporary pages succeeds and allocates nothing. *)
Lemma temporary_create_run pg s cpu ph size fl : hv_ready pg s -> 0 <= cpu < max_cpus b ->
  0 <= ph < 2 ^ 48 -> ph mod PAGE_SIZE = 0 -> 0 <= size <= 65536 -> ph + PAGE_ALIGN size <= 2 ^ 48 -> flags_ok fl ->
  exists s', paging_create page_offset pg ph size (temporary_base cpu) fl PAGING_NON_COHERENT s = Some (0, s') /\
    hv_ready pg s' /\ mem_pool s' = mem_pool s /\
    forall v, temporary_base cpu <= v < temporary_base cpu + PAGE_ALIGN size ->
      exists z, mapping page_offset pg s' v = present fl (ph + (v - temporary_base cpu), fl, z).
Proof.
  intros [[lab Hsp] Hprep] Hc Hph Hphm Hsz Hpe Hfl. destruct (temporary_base_value cpu Hc) as (_ & Hm & Hr & H0).
  destruct (page_align_spec size ltac:(lia)) as (? & Ham & ?).
  assert (Hle : PAGE_ALIGN size <= 65536).
  { pose proof (Z.div_mod (PAGE_ALIGN size) PAGE_SIZE ltac:(done)). unfold PAGE_SIZE in *. lia. }
  assert (Hpm : Z.land ph PAGE_MASK = ph) by (rewrite land_page_mask, Hphm by lia; lia).
  destruct (paging_create_run page_offset 48 39 9 hv_label pg ph size (temporary_base cpu) fl PAGING_NON_COHERENT lab s Hsp)
    as (r & lab' & s' & Hrun & [_ Hsp' _ Hmap]); rewrite ?Hm, ?Hpm; try lia; [done|].
  destruct (paging_create_prepares page_offset 48 39 9 hv_label pg ph size (temporary_base cpu) fl PAGING_NON_COHERENT lab s Hsp)
    as (r2 & s2 & Hrun2 & [_ Hkept Hfree]); rewrite ?Hm, ?Hpm; try lia; [done| |].
  { intros k Hk Hlt n Hn Hs _ _. assert (2 ^ 21 <= 2 ^ n) by (apply Z.pow_le_mono_r; lia). unfold PAGE_SIZE in *. lia. }
  rewrite Hrun in Hrun2. injection Hrun2 as <- <-. rewrite Hm, Hpm in *.
  destruct Hfree as [-> Hpool]; [intros v Hv Hvm; apply Hprep; [|done]; rewrite (proj1 (temporary_base_value cpu Hc)) in *; lia|].
  exists s'. split; [done|]. split; [|split; [done|]].
  - split; [by exists lab'|]. intros v Hv Hvm. apply Hkept; [unfold REMAP_BASE in *; lia|]. by apply Hprep.
  - destruct Hmap as (m & _ & Hm0 & Hin & _). rewrite (Hm0 eq_refl) in Hin. intros v Hv.
    destruct (Hin v Hv) as (z & Hz & _). by exists z.
Qed.

End Init.
