(* ===== verification/CellMemory.v ===== *)
(** * The memory of the cells

    Mapping and unmapping the memory regions of a cell
    (arch/arm-common/mmu_cell.c over paging.c): what a guest address is
    translated to, that a region is unmapped again, and that the cells cannot
    change the translation of each other. *)

From Stdlib Require Import ZArith Lia.
From stdpp Require Import base tactics list list_numbers option gmap.
From S2P Require Import Prelude Bitops StateMonad Mmio PagePool Paging PageTree PageMap PageStep PageDestroy PageCreate AddressSpace.

Section Cells.
Context (page_offset parange : Z).
Notation labels := (gmap Z (list Z)).
Notation va := (cell_va parange).
Notation space c := (space_ok page_offset va (cell_sh parange) (cell_nb parange) [c]).
Notation mapping := (mapping page_offset).

(** The physical start of a region. *)
Definition region_phys (comm_page : Z) (mem : jailhouse_memory) : Z :=
  if negb (Z.land (mem_flags mem) JAILHOUSE_MEM_COMM_REGION =? 0)
  then paging_hvirt2phys page_offset comm_page else phys_start mem.

(** A region of whole pages inside of the address spaces. *)
Record region_ok (comm_page : Z) (mem : jailhouse_memory) : Prop := {
  rg_virt : 0 <= virt_start mem < 2 ^ va;
  rg_size : 0 < mem_size mem /\ mem_size mem mod PAGE_SIZE = 0 /\ virt_start mem + mem_size mem <= 2 ^ va;
  rg_phys : 0 <= region_phys comm_page mem < 2 ^ 48 /\ region_phys comm_page mem + mem_size mem <= 2 ^ 48;
  rg_pages : virt_start mem mod PAGE_SIZE = 0 /\ region_phys comm_page mem mod PAGE_SIZE = 0;
}.

Definition region_end (mem : jailhouse_memory) : Z := virt_start mem + mem_size mem.

Lemma stage2_flags_ok mem : flags_ok (stage2_flags mem) /\ valid (stage2_flags mem) = true.
Proof. unfold stage2_flags. by repeat destruct (negb _). Qed.

(** The access rights and the memory type an entry grants, in the bits of the
    stage 2 descriptor: valid (0), readable (6), writable (7), accessed (10)
    and the type in bits 2 to 5, 1 for a device and 15 for normal memory.
    Nothing else is set; no entry forbids execution. *)
Definition grants (mem : jailhouse_memory) (f : Z) : Prop :=
  f = 2 ^ 0 + 2 ^ 10 + Z.b2z (Z.testbit (mem_flags mem) 0) * 2 ^ 6 + Z.b2z (Z.testbit (mem_flags mem) 1) * 2 ^ 7
      + (if Z.testbit (mem_flags mem) 4 then 1 else 15) * 2 ^ 2.

Lemma stage2_flags_grants mem : grants mem (stage2_flags mem).
Proof.
  unfold grants, stage2_flags.
  pose proof (land_bit (mem_flags mem) 0 ltac:(lia)) as H0. pose proof (land_bit (mem_flags mem) 1 ltac:(lia)) as H1.
  pose proof (land_bit (mem_flags mem) 4 ltac:(lia)) as H4.
  change (Z.shiftl 1 0) with JAILHOUSE_MEM_READ in H0. change (Z.shiftl 1 1) with JAILHOUSE_MEM_WRITE in H1.
  change (Z.shiftl 1 4) with JAILHOUSE_MEM_IO in H4. rewrite H0, H1, H4. by repeat destruct (Z.testbit _ _).
Qed.

Lemma va_range : 32 <= parange <= 48 -> 32 <= va <= 48 /\ 2 ^ va <= 2 ^ 48.
Proof.
  intros Hp. assert (32 <= va <= 48) by (unfold cell_va; destruct (Z.ltb_spec parange 44); lia).
  split; [done|]. apply Z.pow_le_mono_r; lia.
Qed.

Lemma page_mask_id x : 0 <= x < 2 ^ 48 -> x mod PAGE_SIZE = 0 -> Z.land x PAGE_MASK = x.
Proof. intros Hx Hm. rewrite land_page_mask by lia. lia. Qed.

Lemma map_region_run c mm comm_page mem lab s : 32 <= parange <= 48 -> space c mm lab s -> region_ok comm_page mem ->
  exists r lab' s', arch_map_memory_region page_offset mm comm_page mem s = Some (r, s') /\
    maps page_offset va (cell_sh parange) (cell_nb parange) [c] mm (virt_start mem) (region_end mem)
      (region_phys comm_page mem) (stage2_flags mem) lab s r lab' s'.
Proof.
  intros Hp Hsp [Hv (Hs0 & Hsm & Hse) (Hph & Hpe) (Hvm & Hpm)]. destruct (va_range Hp) as [Hva Hva2].
  destruct (stage2_flags_ok mem) as [Hf Hfv].
  unfold arch_map_memory_region. cbv zeta. fold (region_phys comm_page mem).
  assert (Ha : PAGE_ALIGN (mem_size mem) = mem_size mem) by (apply page_align_mult; [lia|done]).
  destruct (paging_create_run page_offset va _ _ [c] mm (region_phys comm_page mem) (mem_size mem) (virt_start mem)
    (stage2_flags mem) PAGING_COHERENT lab s Hsp Hv) as (r & lab' & s' & Hr & Hm); rewrite ?Ha, ?page_mask_id by (done || lia);
    try done; try lia.
  exists r, lab', s'. split; [exact Hr|]. by rewrite !page_mask_id, Ha in Hm by (done || lia).
Qed.

Lemma unmap_region_run c mm comm_page mem lab s : 32 <= parange <= 48 -> space c mm lab s -> region_ok comm_page mem ->
  exists r lab' s', arch_unmap_memory_region page_offset mm mem s = Some (r, s') /\
    unmaps page_offset va (cell_sh parange) (cell_nb parange) [c] mm (virt_start mem) (region_end mem) lab s r lab' s'.
Proof.
  intros Hp Hsp [Hv (Hs0 & Hsm & Hse) _ _]. destruct (va_range Hp) as [Hva Hva2].
  assert (Ha : PAGE_ALIGN (mem_size mem) = mem_size mem) by (apply page_align_mult; [lia|done]).
  destruct (paging_destroy_run page_offset va _ _ [c] mm (virt_start mem) (mem_size mem) PAGING_COHERENT lab s Hsp Hv)
    as (r & lab' & s' & Hr & Hm); [lia|lia|]. rewrite Ha in Hm. by exists r, lab', s'.
Qed.

(** A new cell does not touch the existing ones. *)
Lemma space_kept c c2 mm mm2 lo hi lab s lab' s' : 32 <= parange <= 48 -> c <> c2 ->
  space c mm lab s -> space c2 mm2 lab s -> separate (cell_nb parange) (cell_nb parange) (root_table mm) (root_table mm2) ->
  pg_ok page_offset lab' s' ->
  change (entry_in (root_table mm) (cell_sh parange) (cell_nb parange) lo hi)
    (path_in [c] (cell_sh parange) (cell_nb parange) lo hi) lab s lab' s' ->
  space c2 mm2 lab' s' /\ forall v, 0 <= v < 2 ^ va -> mapping mm2 s' v = mapping mm2 s v.
Proof.
  intros Hp Hne Hs1 [Hok [blocks Hl] Hw Hh Hr Ht] Hsep Hok' Hc.
  destruct (root_size parange Hp) as (_ & _ & _ & Hnb & _).
  destruct (other_space_kept page_offset _ _ _ _ _ _ [c] [c2] _ _ _ lo hi lab s lab' s' Hl (apart_cell c c2 Hne) Hok
    (so_home _ _ _ _ _ _ _ _ Hs1) Hh Hr Ht Hnb Hsep Hc) as (Hh' & Ht' & Hb).
  split; [|done]. split; try done. by exists blocks.
Qed.

(** C12: Mapping a memory region of whole pages of a cell, inside of the
    address spaces, succeeds or runs out of
    page tables. If it succeeds, every address of the region is mapped to its
    place in the physical region, readable, writable and as a device exactly
    as the flags of the region say, and [arch_paging_gphys2phys] gives this
    place for addresses on large pages; on pages of 4 KiB it gives the start
    of the physical page with the page number of the guest address or-ed to it. Addresses outside of the region keep their mapping; if the
    region touches the large page they are on, that page is split, and of its
    physical address the lower 32 bits are kept. *)
Theorem map_region_translates c mm comm_page mem flags lab s :
  32 <= parange <= 48 -> space c mm lab s -> region_ok comm_page mem ->
  exists r lab' s', arch_map_memory_region page_offset mm comm_page mem s = Some (r, s') /\ space c mm lab' s' /\
    (r = 0 \/ r = - ENOMEM) /\
    (r = 0 -> forall v, virt_start mem <= v < region_end mem ->
       let a := region_phys comm_page mem + (v - virt_start mem) in
       exists f z, mapping mm s' v = Some (a, f, z) /\ grants mem f /\
         arch_paging_gphys2phys page_offset mm v flags s' =
           Some (if z =? PAGE_SIZE then Z.lor (a - v mod PAGE_SIZE) (Z.land v PAGE_MASK) else a)) /\
    forall v, 0 <= v < 2 ^ va -> ~ virt_start mem <= v < region_end mem ->
      kept (virt_start mem) (region_end mem) v (mapping mm s v) (mapping mm s' v).
Proof.
  intros Hp Hsp Hrg. destruct (map_region_run c mm comm_page mem lab s Hp Hsp Hrg) as (r & lab' & s' & Hr & [Hcode Hsp' _ Hm]).
  destruct Hm as (m & Hmr & Hm0 & Hin & Hout). exists r, lab', s'. split; [done|]. split; [done|]. split; [done|].
  split; [|intros v Hv Hn; apply Hout; [done|lia]].
  intros H0 v Hv a. rewrite (Hm0 H0) in Hin. destruct (Hin v Hv) as (z & Hz & _). exists (stage2_flags mem), z.
  rewrite present_valid in Hz by apply stage2_flags_ok. split; [exact Hz|]. split; [apply stage2_flags_grants|].
  unfold arch_paging_gphys2phys. pose proof (rg_virt _ _ Hrg). pose proof (rg_size _ _ Hrg).
  rewrite (virt2phys_run page_offset va _ _ [c] mm lab' s' v flags Hsp') by (unfold region_end in Hv; lia).
  by rewrite Hz.
Qed.

(** C13: A region of whole pages, inside of the address spaces, that was mapped is unmapped again without an
    error, and nothing of it stays mapped. Addresses outside of it end as they
    were before it was mapped, but for those on a large page that the region
    touched: it is split into smaller pages, which keep its flags and of its
    physical address the lower 32 bits. *)
Theorem map_unmap_region c mm comm_page mem lab s s1 :
  32 <= parange <= 48 -> space c mm lab s -> region_ok comm_page mem ->
  arch_map_memory_region page_offset mm comm_page mem s = Some (0, s1) ->
  exists lab' s', arch_unmap_memory_region page_offset mm mem s1 = Some (0, s') /\ space c mm lab' s' /\
    (forall v, virt_start mem <= v < region_end mem -> mapping mm s' v = None) /\
    forall v, 0 <= v < 2 ^ va -> ~ virt_start mem <= v < region_end mem ->
      kept (virt_start mem) (region_end mem) v (mapping mm s v) (mapping mm s' v).
Proof.
  intros Hp Hsp Hrg Hmap. destruct (map_region_run c mm comm_page mem lab s Hp Hsp Hrg) as (r & lab1 & s1' & Hr & [_ Hsp1 _ Hm]).
  rewrite Hmap in Hr. injection Hr as <- <-. destruct Hm as (m & Hmr & Hm0 & Hin & Hout). rewrite (Hm0 eq_refl) in *.
  destruct (unmap_region_run c mm comm_page mem lab1 s1 Hp Hsp1 Hrg) as (r & lab' & s' & Hr & [_ Hsp' _ Hu]).
  assert (Hz : forall v a f z, virt_start mem <= v < region_end mem -> mapping mm s1 v = Some (a, f, z) ->
    virt_start mem <= v - v mod z /\ v - v mod z + z <= region_end mem).
  { intros v a f z Hv Hb. destruct (Hin v Hv) as (z' & Hb' & ? & ?). rewrite Hb, present_valid in Hb' by apply stage2_flags_ok. by injection Hb' as _ _ <-. }
  pose proof (rg_virt _ _ Hrg) as Hvr. pose proof (rg_size _ _ Hrg) as (Hsz & _ & Hse).
  destruct Hu as (m' & Hmr' & Hm0' & Hc & Hgone & Hout').
  { split.
    - intros v Hv He. destruct (Hin v Hv) as (z & Hb & _). rewrite present_valid in Hb by apply stage2_flags_ok. unfold AddressSpace.mapping in Hb. congruence.
    - intros a f z Hb. destruct (Hz (virt_start mem) a f z) as [Hst _]; [unfold region_end; lia|exact Hb|].
      destruct (so_levels _ _ _ _ _ _ _ _ Hsp1) as [blocks Hl].
      destruct (block_same _ _ _ _ _ _ Hl lab1 [c] s1 _ _ _ a f z (so_tree _ _ _ _ _ _ _ _ Hsp1) Hvr Hvr Hb eq_refl)
        as (_ & k & Hk & _ & ->).
      pose proof (Z.mod_pos_bound (virt_start mem) (2 ^ k) ltac:(apply Z.pow_pos_nonneg; lia)). lia. }
  assert (r = 0) as -> by (apply Hc; intros v a f z Hv Hb; by apply (Hz v a f z)).
  rewrite (Hm0' eq_refl) in *. exists lab', s'. split; [done|]. split; [done|]. split; [done|].
  intros v Hv Hn. eapply kept_trans; [by apply Hout|by apply Hout'].
Qed.

(** C14: Mapping and unmapping regions of one cell changes no translation of
    another cell that takes its page tables from the same pool. *)
Theorem cells_isolated c c2 mm mm2 comm_page mem lab s :
  32 <= parange <= 48 -> c <> c2 -> space c mm lab s -> space c2 mm2 lab s ->
  separate (cell_nb parange) (cell_nb parange) (root_table mm) (root_table mm2) -> region_ok comm_page mem ->
  forall r s', arch_map_memory_region page_offset mm comm_page mem s = Some (r, s') \/
    arch_unmap_memory_region page_offset mm mem s = Some (r, s') ->
  exists lab', space c mm lab' s' /\ space c2 mm2 lab' s' /\
    forall v flags, 0 <= v < 2 ^ va -> mapping mm2 s' v = mapping mm2 s v /\
      arch_paging_gphys2phys page_offset mm2 v flags s' = arch_paging_gphys2phys page_offset mm2 v flags s.
Proof.
  intros Hp Hne Hs1 Hs2 Hsep Hrg r s' Hrun.
  assert (exists lab', space c mm lab' s' /\ change (entry_in (root_table mm) (cell_sh parange) (cell_nb parange)
      (virt_start mem) (region_end mem)) (path_in [c] (cell_sh parange) (cell_nb parange) (virt_start mem) (region_end mem))
      lab s lab' s') as (lab' & Hs1' & Hc).
  { destruct Hrun as [Hrun|Hrun].
    - destruct (map_region_run c mm comm_page mem lab s Hp Hs1 Hrg) as (r' & lab' & s'' & Hr & [_ H1 H2 _]).
      rewrite Hrun in Hr. injection Hr as <- <-. by exists lab'.
    - destruct (unmap_region_run c mm comm_page mem lab s Hp Hs1 Hrg) as (r' & lab' & s'' & Hr & [_ H1 H2 _]).
      rewrite Hrun in Hr. injection Hr as <- <-. by exists lab'. }
  destruct (space_kept c c2 mm mm2 _ _ lab s lab' s' Hp Hne Hs1 Hs2 Hsep (so_ok _ _ _ _ _ _ _ _ Hs1') Hc) as [Hs2' Hm].
  exists lab'. split; [done|]. split; [done|]. intros v flags Hv. split; [by apply Hm|].
  unfold arch_paging_gphys2phys.
  rewrite (virt2phys_run page_offset va _ _ [c2] mm2 lab' s' v flags Hs2' Hv).
  rewrite (virt2phys_run page_offset va _ _ [c2] mm2 lab s v flags Hs2 Hv). by rewrite Hm.
Qed.

Lemma new_cell_run cell_id lab s :
  32 <= parange <= 48 -> cell_id <= 255 -> pg_ok page_offset lab s ->
  arm_paging_cell_init parange cell_id s = Some ((- ENOMEM, None), s) \/
  exists mm s', arm_paging_cell_init parange cell_id s = Some ((0, Some mm), s') /\
    mm = mk_paging_structures (cell_paging parange) (root_table mm) false /\ space cell_id mm lab s' /\
    (forall v, 0 <= v < 2 ^ va -> mapping mm s' v = None) /\
    forall c2 mm2, space c2 mm2 lab s -> space c2 mm2 lab s' /\
      separate (cell_nb parange) (cell_nb parange) (root_table mm) (root_table mm2) /\
      forall v, 0 <= v < 2 ^ va -> mapping mm2 s' v = mapping mm2 s v.
Proof.
  intros Hp Hid Hok.
  destruct (cell_space_run page_offset parange cell_id lab s Hp Hid Hok) as [H|(root & s' & Hr & Hsp & Hm & Hfree & Hc)]; [by left|].
  right. eexists _, s'. split; [exact Hr|]. split; [done|]. split; [exact Hsp|]. split; [exact Hm|].
  intros c2 mm2 [Hok2 [blocks Hl] Hw Hh Hrt Ht].
  destruct (frame_kept page_offset _ _ _ _ [c2] _ _ (fun _ => False) (fun _ => False) lab s lab s' Hl Hok Hh Hrt Ht)
    as (Hh' & Ht' & Hb); [intros; tauto..|apply Hc|].
  split; [split; try done; [apply (so_ok _ _ _ _ _ _ _ _ Hsp)|by exists blocks]|]. split; [|exact Hb].
  intros i j Hi Hj He. destruct (entry_page (root_table mm2) j Hrt) as (q & Hq & Hin).
  destruct (Hh j q Hj Hq Hin) as [Hnf _]. apply Hnf. apply (Hfree i q); [done|done|]. cbn [root_table] in He. by rewrite He.
Qed.

(** A new cell gets an empty address space of its own, or an error: its id has
    to fit into the VMID, and the pool needs room for the root table. The
    address spaces of the other cells stay as they are and are separate from
    the new one. *)
Theorem cell_init_empty cell_id lab s :
  32 <= parange <= 48 -> pg_ok page_offset lab s ->
  exists r mm s', arm_paging_cell_init parange cell_id s = Some ((r, mm), s') /\ pg_ok page_offset lab s' /\
    match mm with
    | None => s' = s /\ r = (if cell_id >? 255 then - E2BIG else - ENOMEM)
    | Some mm => r = 0 /\ cell_id <= 255 /\ space cell_id mm lab s' /\ forall v, 0 <= v < 2 ^ va -> mapping mm s' v = None
    end /\
    forall c2 mm2, space c2 mm2 lab s -> space c2 mm2 lab s' /\
      (forall v, 0 <= v < 2 ^ va -> mapping mm2 s' v = mapping mm2 s v) /\
      forall root, mm = Some root -> separate (cell_nb parange) (cell_nb parange) (root_table root) (root_table mm2).
Proof.
  intros Hp Hok. destruct (Z.gtb_spec cell_id 255) as [Hbig|Hid].
  - exists (- E2BIG), None, s. unfold arm_paging_cell_init. rewrite Z.gtb_ltb, (proj2 (Z.ltb_lt 255 cell_id)) by lia.
    split; [done|]. split; [done|]. split; [done|]. intros c2 mm2 H2. split; [done|]. split; [done|]. by intros root.
  - destruct (new_cell_run cell_id lab s Hp Hid Hok) as [Hr|(mm & s' & Hr & _ & Hsp & Hm & Ho)]; rewrite Hr.
    + exists (- ENOMEM), None, s. split; [done|]. split; [done|]. split; [done|].
      intros c2 mm2 H2. split; [done|]. split; [done|]. by intros root.
    + exists 0, (Some mm), s'. split; [done|]. split; [apply (so_ok _ _ _ _ _ _ _ _ Hsp)|]. split; [done|].
      intros c2 mm2 H2. destruct (Ho c2 mm2 H2) as (H3 & H4 & H5). split; [done|]. split; [done|].
      by intros root [= <-].
Qed.

End Cells.
