(* ===== verification/CellExamples.v ===== *)
(** * Cell memory on a concrete machine

    Two cells on a pool of 64 pages: the theorems of PagePool and CellMemory
    applied to them, and what the code does when it splits a large page above
    4 GiB and when a range to unmap does not start with a page. *)

From Stdlib Require Import ZArith Lia.
From stdpp Require Import base tactics list list_numbers option gmap.
From S2P Require Import Prelude Bitops StateMonad Mmio PagePool Paging PageTree PageMap PageStep AddressSpace CellMemory.

(** Hypervisor memory is mapped one to one; the CPUs have 40 bits of physical
    addresses. *)
Definition demo_pool : page_pool := mk_page_pool 16777216 64 0 [0] 1.
Definition demo_state : pgstate := mk_pgstate ∅ demo_pool (mk_page_pool 1048576 64 0 [0] 0) [] [].
Definition demo_mm (n : Z) : paging_structures := mk_paging_structures (cell_paging 40) (16777216 + n * 8192) false.

Definition after {A} (r : option (A * pgstate)) : pgstate := match r with Some (_, s) => s | None => demo_state end.
Definition demo1 : pgstate := after (arm_paging_cell_init 40 1 demo_state).
Definition demo2 : pgstate := after (arm_paging_cell_init 40 2 demo1).

Notation demo_space c := (space_ok 0 (cell_va 40) (cell_sh 40) (cell_nb 40) [c] (demo_mm (c - 1)) ∅).

Lemma demo_pool_ok : pool_ok demo_pool.
Proof. split; try done. by repeat constructor. Qed.

Lemma demo_ok : pg_ok 0 ∅ demo_state.
Proof. split; [apply demo_pool_ok|done|done|done|done]. Qed.

(** The root table of the new cell, if there is one. *)
Definition new_root (r : option ((Z * option paging_structures) * pgstate)) : option Z :=
  match r with Some ((_, Some mm), _) => Some (root_table mm) | _ => None end.

Lemma demo_new_cell c s n : new_root (arm_paging_cell_init 40 c s) = Some (16777216 + n * 8192) -> c <= 255 ->
  pg_ok 0 ∅ s -> let s' := after (arm_paging_cell_init 40 c s) in
  space_ok 0 (cell_va 40) (cell_sh 40) (cell_nb 40) [c] (demo_mm n) ∅ s' /\
  forall c2 mm2, space_ok 0 (cell_va 40) (cell_sh 40) (cell_nb 40) [c2] mm2 ∅ s ->
    space_ok 0 (cell_va 40) (cell_sh 40) (cell_nb 40) [c2] mm2 ∅ s' /\
    separate (cell_nb 40) (cell_nb 40) (root_table (demo_mm n)) (root_table mm2).
Proof.
  intros Hr Hc Hok. destruct (new_cell_run 0 40 c ∅ s ltac:(lia) Hc Hok) as [H|(mm & s' & H & Hmm & Hsp & _ & Ho)];
    rewrite H in Hr; [done|]. injection Hr as Hr. rewrite H. cbn [after]. rewrite Hr in Hmm. subst mm.
  split; [exact Hsp|]. intros c2 mm2 H2. by destruct (Ho c2 mm2 H2) as (? & ? & _).
Qed.

Lemma demo1_space : demo_space 1 demo1.
Proof. exact (proj1 (demo_new_cell 1 demo_state 0 ltac:(vm_compute; reflexivity) ltac:(lia) demo_ok)). Qed.

Lemma demo2_spaces : demo_space 1 demo2 /\ demo_space 2 demo2 /\
  separate (cell_nb 40) (cell_nb 40) (root_table (demo_mm 1)) (root_table (demo_mm 0)).
Proof.
  destruct (demo_new_cell 2 demo1 1 ltac:(vm_compute; reflexivity) ltac:(lia) (so_ok _ _ _ _ _ _ _ _ demo1_space))
    as [H Ho]. destruct (Ho 1 (demo_mm 0) demo1_space) as [H1 Hsep]. done.
Qed.

(** ** Regions *)
(** Memory of 4 MiB at 5 GiB that cell 2 sees at 4 MiB, a page of a device
    inside of it, and a range of 2 MiB that starts a page after it. *)
Definition ram : jailhouse_memory := mk_memory (5 * 2 ^ 30) (4 * 2 ^ 20) (4 * 2 ^ 20) 3.
Definition device : jailhouse_memory := mk_memory (2 ^ 30) (4 * 2 ^ 20) PAGE_SIZE (16 + 3).
Definition shifted : jailhouse_memory := mk_memory (5 * 2 ^ 30) (4 * 2 ^ 20 + PAGE_SIZE) (2 * 2 ^ 20) 3.

Lemma ram_ok : region_ok 0 40 0 ram.
Proof. by split. Qed.

Definition with_ram : pgstate := after (arch_map_memory_region 0 (demo_mm 1) 0 ram demo2).
Definition code {A} (r : option (A * pgstate)) : option A := match r with Some (e, _) => Some e | None => None end.

Lemma after_code {A} (r : option (A * pgstate)) e : code r = Some e -> r = Some (e, after r).
Proof. destruct r as [[? ?]|]; [by intros [= ->]|done]. Qed.

Lemma map_region_translates_witness :
  exists s', arch_map_memory_region 0 (demo_mm 1) 0 ram demo2 = Some (0, s') /\
    forall v, 4 * 2 ^ 20 <= v < 8 * 2 ^ 20 -> exists a z, mapping 0 (demo_mm 1) s' v = Some (a, 1 + 1024 + 64 + 128 + 60, z) /\
      a = 5 * 2 ^ 30 + (v - 4 * 2 ^ 20).
Proof.
  destruct demo2_spaces as (_ & H2 & _).
  destruct (map_region_translates 0 40 2 (demo_mm 1) 0 ram PTE_FLAG_VALID ∅ demo2 ltac:(lia) H2 ram_ok)
    as (r & lab' & s' & Hr & _ & _ & Hm & _).
  assert (H0 : code (arch_map_memory_region 0 (demo_mm 1) 0 ram demo2) = Some 0) by (vm_compute; reflexivity).
  rewrite Hr in H0. injection H0 as ->. exists s'. split; [done|]. intros v Hv.
  destruct (Hm eq_refl v Hv) as (f & z & Hz & Hf & _). exists (5 * 2 ^ 30 + (v - 4 * 2 ^ 20)), z.
  vm_compute in Hf. subst f. split; [exact Hz|reflexivity].
Defined.

Lemma map_unmap_region_witness :
  exists s', arch_unmap_memory_region 0 (demo_mm 1) ram with_ram = Some (0, s') /\
    forall v, 4 * 2 ^ 20 <= v < 8 * 2 ^ 20 -> mapping 0 (demo_mm 1) s' v = None.
Proof.
  destruct demo2_spaces as (_ & H2 & _).
  destruct (map_unmap_region 0 40 2 (demo_mm 1) 0 ram ∅ demo2 with_ram ltac:(lia) H2 ram_ok
    (after_code (arch_map_memory_region 0 (demo_mm 1) 0 ram demo2) 0 ltac:(vm_compute; reflexivity))) as (lab' & s' & Hr & _ & Hgone & _).
  exists s'. split; [exact Hr|exact Hgone].
Defined.

Lemma cells_isolated_witness :
  exists lab', demo_space 2 demo2 /\ demo_space 1 demo2 /\
    space_ok 0 (cell_va 40) (cell_sh 40) (cell_nb 40) [1] (demo_mm 0) lab' with_ram.
Proof.
  destruct demo2_spaces as (H1 & H2 & Hsep).
  destruct (cells_isolated 0 40 2 1 (demo_mm 1) (demo_mm 0) 0 ram ∅ demo2 ltac:(lia) ltac:(lia) H2 H1 Hsep ram_ok
    0 with_ram (or_introl (after_code (arch_map_memory_region 0 (demo_mm 1) 0 ram demo2) 0 ltac:(vm_compute; reflexivity)))) as (lab' & _ & H1' & _).
  by exists lab'.
Defined.

Lemma cell_init_empty_witness :
  exists r mm s', arm_paging_cell_init 40 3 demo2 = Some ((r, mm), s') /\ pg_ok 0 ∅ s'.
Proof.
  destruct demo2_spaces as (H1 & _).
  destruct (cell_init_empty 0 40 3 ∅ demo2 ltac:(lia) (so_ok _ _ _ _ _ _ _ _ H1)) as (r & mm & s' & Hr & Hok & _).
  exists r, mm, s'. split; [exact Hr|exact Hok].
Defined.

(** ** Defects *)

(** When a page of a 2 MiB mapping at 5 GiB is mapped anew, the rest of the
    2 MiB silently moves to 1 GiB: the size of a page is an unsigned int, and
    so is the mask that [split_hugepage] computes from it. *)
Theorem split_loses_high_bits :
  let s := after (arch_map_memory_region 0 (demo_mm 1) 0 device with_ram) in
  code (arch_map_memory_region 0 (demo_mm 1) 0 device with_ram) = Some 0 /\
  option_map (fun m => m.1.1) (mapping 0 (demo_mm 1) with_ram (4 * 2 ^ 20 + PAGE_SIZE)) = Some (5 * 2 ^ 30 + PAGE_SIZE) /\
  option_map (fun m => m.1.1) (mapping 0 (demo_mm 1) s (4 * 2 ^ 20 + PAGE_SIZE)) = Some (2 ^ 30 + PAGE_SIZE).
Proof. vm_compute. done. Qed.

(** Unmapping 2 MiB that start a page after the start of a 2 MiB page unmaps
    that page, which is before the range, and keeps the last page of the range. *)
Theorem unmap_misses_range :
  let s := after (arch_unmap_memory_region 0 (demo_mm 1) shifted with_ram) in
  code (arch_unmap_memory_region 0 (demo_mm 1) shifted with_ram) = Some 0 /\
  mapping 0 (demo_mm 1) with_ram (4 * 2 ^ 20) <> None /\ mapping 0 (demo_mm 1) s (4 * 2 ^ 20) = None /\
  mapping 0 (demo_mm 1) s (6 * 2 ^ 20) <> None /\ virt_start shifted <= 6 * 2 ^ 20 < region_end shifted.
Proof. vm_compute. split_and!; congruence. Qed.

(** ** The pool *)
Lemma page_alloc_first_fit_witness : exists s p', page_alloc_internal demo_pool 2 1 = Some (16777216 + s * PAGE_SIZE, p') /\ 0 <= s.
Proof.
  destruct (page_alloc_first_fit demo_pool 1 2 demo_pool_ok ltac:(lia) ltac:(lia) (or_intror eq_refl))
    as [[H _]|(s & p' & H & Hs & _)].
  - vm_compute in H. discriminate.
  - exists s, p'. split; [exact H|exact Hs].
Defined.

(** A pool that starts at an odd page number. *)
Definition odd_pool : page_pool := mk_page_pool (16777216 + PAGE_SIZE) 64 0 [0] 1.

Lemma page_alloc_aligned_offset_witness :
  exists page p', page_alloc_aligned odd_pool (2 ^ 2) = Some (page, p') /\ (page / PAGE_SIZE) mod 2 ^ 2 = 2.
Proof.
  assert (pool_ok odd_pool) as Hok by (split; try done; by repeat constructor).
  assert (exists p', page_alloc_aligned odd_pool (2 ^ 2) = Some (16777216 + 2 * PAGE_SIZE, p')) as [p' H]
    by (eexists; vm_compute; reflexivity).
  exists (16777216 + 2 * PAGE_SIZE), p'. split; [exact H|].
  rewrite (proj2 (page_alloc_aligned_offset odd_pool 2 _ _ Hok ltac:(lia) H ltac:(done))). vm_compute. reflexivity.
Defined.

Lemma page_alloc_free_witness :
  exists page p', page_alloc_internal demo_pool 2 1 = Some (page, p') /\ page <> 0 /\
    page_free p' page 2 = Some (demo_pool, [page; page + PAGE_SIZE]).
Proof.
  eexists _, _. split; [vm_compute; reflexivity|]. split; [done|].
  exact (page_alloc_free demo_pool 1 2 _ _ demo_pool_ok ltac:(done) ltac:(lia) ltac:(lia) (or_intror eq_refl) eq_refl ltac:(done)).
Defined.
