(* ===== verification/CpuControl.v ===== *)
(** * Hypervisor: suspending, parking and resetting CPUs

    Models hypervisor/arch/arm-common/control.c,
    hypervisor/arch/arm64/control.c and the power-on of psci.c: how a CPU in the hypervisor stops another
    one, and how that CPU reacts. Every CPU runs the same code concurrently, so
    the model is a transition system. A CPU is in its guest or at a
    [location], a point between two accesses to shared data; [step] is the next
    access of one CPU, one C statement. Each CPU has its record [per_cpu], a
    control lock and the pending bit of the signal SGI_EVENT.

    [op] is what a trap handler does to CPUs; a hypercall is any sequence of
    them. The decisions of the environment are arguments of [step]: what the
    guest does and when it is interrupted. A step that waits (a taken lock, a
    spin loop whose condition holds) is not possible, so a deadlock is a state
    in which CPUs have no step.

    The reset of the registers is here as well. The call of the arbiter in
    [arch_park_cpu] is [on_arch_park_cpu] of [FixedPriority]; it takes another
    lock and touches none of this state. The theorems are in [CpuSuspend]. *)

From Stdlib Require Import ZArith Lia.
From stdpp Require Import base tactics list option functions.
From S2P Require Import Prelude Cell.

(** ** Reset of the registers (arm64/control.c) *)

Inductive sysreg :=
  SPSR_EL2 | SCTLR_EL1 | CNTKCTL_EL1 | PMCR_EL0 | SP_EL0 | SP_EL1 | SPSR_EL1
| AFSR0_EL1 | AFSR1_EL1 | AMAIR_EL1 | CONTEXTIDR_EL1 | CPACR_EL1 | CSSELR_EL1
| ESR_EL1 | FAR_EL1 | MAIR_EL1 | PAR_EL1 | TCR_EL1 | TPIDRRO_EL0 | TPIDR_EL0
| TPIDR_EL1 | TTBR0_EL1 | TTBR1_EL1 | VBAR_EL1 | CNTP_CTL_EL0 | CNTP_CVAL_EL0
| CNTP_TVAL_EL0 | CNTV_CTL_EL0 | CNTV_CVAL_EL0 | CNTV_TVAL_EL0 | ELR_EL2
| OTHER_SYSREG (n : Z).
#[global] Instance sysreg_eq_dec : EqDecision sysreg.
Proof. solve_decision. Defined.

Definition RESET_PSR : Z := 0x3c5.
Definition SCTLR_EL1_RES1 : Z :=
  Z.lor (Z.shiftl 1 11) (Z.lor (Z.shiftl 1 20) (Z.lor (Z.shiftl 3 22) (Z.shiftl 3 28))).
Definition NUM_USR_REGS : nat := 31.

(** The stage 2 translation a CPU runs with: that of its cell or the page with
    the parking loop. *)
Inductive mm_select := CellMm | ParkingMm.

(** What [vmreturn] resumes. *)
Record guest := mk_guest {
  usr : list Z;
  sysregs : sysreg -> Z;
  mm : mm_select;
}.

(** The writes of [arm_cpu_reset] in their order; the last one is the program
    counter. *)
Definition reset_values : list (sysreg * Z) :=
  [(SPSR_EL2, RESET_PSR); (SCTLR_EL1, SCTLR_EL1_RES1); (CNTKCTL_EL1, 0); (PMCR_EL0, 0);
   (SP_EL0, 0); (SP_EL1, 0); (SPSR_EL1, 0); (AFSR0_EL1, 0); (AFSR1_EL1, 0); (AMAIR_EL1, 0);
   (CONTEXTIDR_EL1, 0); (CPACR_EL1, 0); (CSSELR_EL1, 0); (ESR_EL1, 0); (FAR_EL1, 0);
   (MAIR_EL1, 0); (PAR_EL1, 0); (TCR_EL1, 0); (TPIDRRO_EL0, 0); (TPIDR_EL0, 0);
   (TPIDR_EL1, 0); (TTBR0_EL1, 0); (TTBR1_EL1, 0); (VBAR_EL1, 0); (CNTP_CTL_EL0, 0);
   (CNTP_CVAL_EL0, 0); (CNTP_TVAL_EL0, 0); (CNTV_CTL_EL0, 0); (CNTV_CVAL_EL0, 0);
   (CNTV_TVAL_EL0, 0)].
Definition reset_writes (pc : Z) : list (sysreg * Z) := reset_values ++ [(ELR_EL2, pc)].

Definition write_sysregs (ws : list (sysreg * Z)) (r : sysreg -> Z) : sysreg -> Z :=
  foldl (fun r w => <[w.1 := w.2]> r) r ws.

Definition arm_cpu_reset (pc cpu_on_context : Z) (g : guest) : guest :=
  mk_guest (<[1%nat := cpu_on_context]> (replicate NUM_USR_REGS 0))
           (write_sysregs (reset_writes pc) (sysregs g)) CellMm.

(** [arm_paging_vcpu_init(&parking_mm)] *)
Definition enter_parking_mm (g : guest) : guest := mk_guest (usr g) (sysregs g) ParkingMm.

(** [regs[0] = result; arch_skip_instruction(ctx)] of the handler of SMC, whose
    instructions have 32 bits (arm64/traps.c). *)
Definition smc_return (result : Z) (g : guest) : guest :=
  mk_guest (<[0%nat := u64 result]> (usr g))
           (<[ELR_EL2 := u64 (sysregs g ELR_EL2 + 4)]> (sysregs g)) (mm g).

(** [regs[0] = hypercall(...)] *)
Definition hvc_return (result : Z) (g : guest) : guest :=
  mk_guest (<[0%nat := u64 result]> (usr g)) (sysregs g) (mm g).

(** ** State *)

Record per_cpu := mk_per_cpu {
  suspend_cpu : bool;
  wait_for_poweron : bool;
  cpu_suspended : bool;
  reset : bool;
  park : bool;
  flush_vcpu_caches : bool;
  cpu_on_entry : Z;
  cpu_on_context : Z;
  vcpu : guest;
}.

Definition set_suspend_cpu (b : bool) (p : per_cpu) : per_cpu :=
  mk_per_cpu b (wait_for_poweron p) (cpu_suspended p) (reset p) (park p) (flush_vcpu_caches p)
    (cpu_on_entry p) (cpu_on_context p) (vcpu p).
Definition set_wait_for_poweron (b : bool) (p : per_cpu) : per_cpu :=
  mk_per_cpu (suspend_cpu p) b (cpu_suspended p) (reset p) (park p) (flush_vcpu_caches p)
    (cpu_on_entry p) (cpu_on_context p) (vcpu p).
Definition set_cpu_suspended (b : bool) (p : per_cpu) : per_cpu :=
  mk_per_cpu (suspend_cpu p) (wait_for_poweron p) b (reset p) (park p) (flush_vcpu_caches p)
    (cpu_on_entry p) (cpu_on_context p) (vcpu p).
Definition set_reset (b : bool) (p : per_cpu) : per_cpu :=
  mk_per_cpu (suspend_cpu p) (wait_for_poweron p) (cpu_suspended p) b (park p)
    (flush_vcpu_caches p) (cpu_on_entry p) (cpu_on_context p) (vcpu p).
Definition set_park (b : bool) (p : per_cpu) : per_cpu :=
  mk_per_cpu (suspend_cpu p) (wait_for_poweron p) (cpu_suspended p) (reset p) b
    (flush_vcpu_caches p) (cpu_on_entry p) (cpu_on_context p) (vcpu p).
Definition set_flush_vcpu_caches (b : bool) (p : per_cpu) : per_cpu :=
  mk_per_cpu (suspend_cpu p) (wait_for_poweron p) (cpu_suspended p) (reset p) (park p) b
    (cpu_on_entry p) (cpu_on_context p) (vcpu p).
Definition set_cpu_on_entry (e : Z) (p : per_cpu) : per_cpu :=
  mk_per_cpu (suspend_cpu p) (wait_for_poweron p) (cpu_suspended p) (reset p) (park p)
    (flush_vcpu_caches p) e (cpu_on_context p) (vcpu p).
Definition set_cpu_on_context (x : Z) (p : per_cpu) : per_cpu :=
  mk_per_cpu (suspend_cpu p) (wait_for_poweron p) (cpu_suspended p) (reset p) (park p)
    (flush_vcpu_caches p) (cpu_on_entry p) x (vcpu p).
Definition set_vcpu (g : guest) (p : per_cpu) : per_cpu :=
  mk_per_cpu (suspend_cpu p) (wait_for_poweron p) (cpu_suspended p) (reset p) (park p)
    (flush_vcpu_caches p) (cpu_on_entry p) (cpu_on_context p) g.

Definition enter_cpu_off (p : per_cpu) : per_cpu := set_wait_for_poweron true (set_park false p).

(** What a handler does to CPUs. *)
Inductive op :=
| Suspend (cpu : Z)                      (* arch_suspend_cpu *)
| FastSuspend (cpu : Z)                  (* arch_fast_suspend_cpu *)
| Resume (cpu : Z)                       (* arch_resume_cpu *)
| Reset (cpu : Z)                        (* arch_reset_cpu *)
| Park (cpu : Z)                         (* arch_park_cpu *)
| SetEntry (cpu entry : Z)               (* per_cpu(cpu)->cpu_on_entry = entry *)
| FlushVcpu (cpu : Z)                    (* one round of arch_flush_cell_vcpu_caches *)
| CpuOn (cpu entry context : Z)          (* psci_emulate_cpu_on, the target found *)
| AffinityInfo (cpu : Z)                 (* psci_emulate_affinity_info, the target found *)
| CpuOff                                 (* arm_cpu_park *)
| HandleIrqs.                            (* irqchip_handle_irq *)

(** The operations of the hypercalls of the root cell. *)
Definition is_management (o : op) : bool :=
  match o with
  | Suspend _ | FastSuspend _ | Resume _ | Reset _ | Park _ | SetEntry _ _ | FlushVcpu _ => true
  | _ => false
  end.

Inductive location :=
| Guest
| Next                                                 (* before the next operation *)
| Suspend_store (wait : bool) (cpu : Z)                (* control.c:64, 90 *)
| Suspend_unlock (wait : bool) (cpu : Z) (target_suspended : bool)
| Suspend_kick (wait : bool) (cpu : Z)                 (* control.c:76, 99 *)
| Suspend_spin (cpu : Z)                               (* control.c:78 *)
| Resume_lock (cpu : Z) | Resume_store (cpu : Z) | Resume_unlock (cpu : Z)
| On_test (cpu entry context : Z)                      (* psci.c:38 *)
| On_unlock (cpu : Z) (kick_cpu : bool) | On_kick (cpu : Z)
| Ce_lock                                              (* check_events, line 137 *)
| Ce_head | Ce_unlock | Ce_spin | Ce_relock            (* 140, 143, 145, 148 *)
| Ce_test | Ce_clear | Ce_park | Ce_reset | Ce_tail    (* 150, 151, 153, 158, 170 *)
| Ce_flush (reset : bool) | Ce_unlock_end (reset : bool) | Ce_exit (reset : bool)
| Off_lock | Off_store | Off_unlock | Off_reset.       (* arm_cpu_park *)

Inductive exit_reason := Irq | Hvc | Smc | Abort.

Record thread := mk_thread {
  at_ : location;
  reason : exit_reason;
  todo : list op;
  result : Z;            (* what the handler returns to the guest *)
}.

Record sys := mk_sys {
  cpus : Z -> per_cpu;
  control_lock : Z -> option Z;      (* who holds it *)
  sgi_event : Z -> bool;
  threads : Z -> thread;
}.

Definition PSCI_SUCCESS : Z := 0.
Definition PSCI_NOT_SUPPORTED : Z := -1.
Definition PSCI_DENIED : Z := -3.
Definition PSCI_ALREADY_ON : Z := -4.
Definition PSCI_CPU_IS_ON : Z := 0.
Definition PSCI_CPU_IS_OFF : Z := 1.
Definition PSCI_INVALID_ADDRESS : Z := u64 (-1).

(** ** Steps *)

Definition upd_cpu (v : Z) (f : per_cpu -> per_cpu) (s : sys) : sys :=
  mk_sys (<[v := f (cpus s v)]> (cpus s)) (control_lock s) (sgi_event s) (threads s).
Definition set_sgi (v : Z) (b : bool) (s : sys) : sys :=
  mk_sys (cpus s) (control_lock s) (<[v := b]> (sgi_event s)) (threads s).
Definition set_thread (c : Z) (t : thread) (s : sys) : sys :=
  mk_sys (cpus s) (control_lock s) (sgi_event s) (<[c := t]> (threads s)).
Definition goto (c : Z) (l : location) (s : sys) : sys :=
  let t := threads s c in set_thread c (mk_thread l (reason t) (todo t) (result t)) s.
(** The operation begins or, with no further location, is done. *)
Definition pop (c : Z) (l : location) (s : sys) : sys :=
  let t := threads s c in set_thread c (mk_thread l (reason t) (tail (todo t)) (result t)) s.
Definition set_result (c : Z) (r : Z) (s : sys) : sys :=
  let t := threads s c in set_thread c (mk_thread (at_ t) (reason t) (todo t) r) s.

(** [spin_lock] waits while another CPU holds the lock. *)
Definition spin_lock (c v : Z) (s : sys) : option sys :=
  match control_lock s v with
  | None => Some (mk_sys (cpus s) (<[v := Some c]> (control_lock s)) (sgi_event s) (threads s))
  | Some _ => None
  end.
Definition spin_unlock (v : Z) (s : sys) : sys :=
  mk_sys (cpus s) (<[v := None]> (control_lock s)) (sgi_event s) (threads s).

(** What can be seen of a step. *)
Inductive label :=
| Ran (c : Z)                     (* guest code is executed *)
| Entered (c : Z) (g : guest)     (* the hypervisor returns to the guest *)
| Suspending (c v : Z)            (* c asks v to suspend *)
| Suspended (c v : Z)             (* arch_suspend_cpu(v) of c returns *)
| Resumed (v : Z)                 (* the request is withdrawn *)
| Requested (v : Z)               (* a reset of v is requested, or its entry changed *)
| ParkRequested (v : Z)
| Flushed (c : Z).

(** What a guest does: execute with some outcome, take the signal, or trap. *)
Inductive decision :=
| Run (regs : list Z) (sregs : sysreg -> Z)
| Interrupt
| Hypercall (ops : list op)
| Psci_cpu_on (v entry context : Z)
| Psci_affinity_info (v : Z)
| Psci_cpu_off
| Psci_cpu_suspend
| Fault.                          (* panic_park *)

Definition trap (c : Z) (r : exit_reason) (ops : list op) (s : sys) : option (option label * sys) :=
  Some (None, set_thread c (mk_thread Next r ops 0) s).

Definition guest_step (c : Z) (d : decision) (s : sys) : option (option label * sys) :=
  match d with
  | Run regs sregs =>
      Some (Some (Ran c), upd_cpu c (fun p => set_vcpu (mk_guest regs sregs (mm (vcpu p))) p) s)
  | Interrupt => if sgi_event s c then trap c Irq [HandleIrqs] s else None
  | Hypercall ops => if forallb is_management ops then trap c Hvc ops s else None
  | Psci_cpu_on v e x => trap c Smc [CpuOn v e x] s
  | Psci_affinity_info v => trap c Smc [AffinityInfo v] s
  | Psci_cpu_off => trap c Smc [CpuOff] s
  | Psci_cpu_suspend => trap c Smc [HandleIrqs] s
  | Fault => trap c Abort [CpuOff] s
  end.

(** The return to the guest at the end of the handlers. *)
Definition leave (c : Z) (s : sys) : option (option label * sys) :=
  let t := threads s c in
  let g := match reason t with
           | Smc => smc_return (result t) (vcpu (cpus s c))
           | Hvc => hvc_return (result t) (vcpu (cpus s c))
           | _ => vcpu (cpus s c)
           end in
  Some (Some (Entered c g), goto c Guest (upd_cpu c (set_vcpu g) s)).

(** The first access of an operation. *)
Definition begin (c : Z) (o : op) (s : sys) : option (option label * sys) :=
  match o with
  | Suspend v => s' ← spin_lock c v s; Some (None, pop c (Suspend_store true v) s')
  | FastSuspend v => s' ← spin_lock c v s; Some (None, pop c (Suspend_store false v) s')
  | Resume v => s' ← spin_lock c v s; Some (None, pop c (Resume_store v) s')
  | Reset v => Some (Some (Requested v), pop c (Resume_lock v) (upd_cpu v (set_reset true) s))
  | Park v => Some (Some (ParkRequested v), pop c (Resume_lock v) (upd_cpu v (set_park true) s))
  | SetEntry v e => Some (Some (Requested v), pop c Next (upd_cpu v (set_cpu_on_entry e) s))
  | FlushVcpu v =>
      if v =? c then Some (Some (Flushed c), pop c Next s)
      else Some (None, pop c Next (upd_cpu v (set_flush_vcpu_caches true) s))
  | CpuOn v e x => s' ← spin_lock c v s; Some (None, pop c (On_test v e x) s')
  | AffinityInfo v =>
      let r := if wait_for_poweron (cpus s v) then PSCI_CPU_IS_OFF else PSCI_CPU_IS_ON in
      Some (None, set_result c r (pop c Next s))
  | CpuOff => Some (None, pop c Off_lock s)
  | HandleIrqs =>
      if sgi_event s c then Some (None, goto c Ce_lock (set_sgi c false s))
      else Some (None, pop c Next s)
  end.

Definition step (c : Z) (d : decision) (s : sys) : option (option label * sys) :=
  let me := cpus s c in
  match at_ (threads s c) with
  | Guest => guest_step c d s
  | Next => match todo (threads s c) with [] => leave c s | o :: _ => begin c o s end
  (* arch_suspend_cpu, arch_fast_suspend_cpu *)
  | Suspend_store w v =>
      Some (Some (Suspending c v),
            goto c (Suspend_unlock w v (cpu_suspended (cpus s v))) (upd_cpu v (set_suspend_cpu true) s))
  | Suspend_unlock w v ts =>
      if ts then Some (if w then Some (Suspended c v) else None, goto c Next (spin_unlock v s))
      else Some (None, goto c (Suspend_kick w v) (spin_unlock v s))
  | Suspend_kick w v => Some (None, goto c (if w then Suspend_spin v else Next) (set_sgi v true s))
  | Suspend_spin v =>
      if cpu_suspended (cpus s v) then Some (Some (Suspended c v), goto c Next s) else None
  (* arch_resume_cpu *)
  | Resume_lock v => s' ← spin_lock c v s; Some (None, goto c (Resume_store v) s')
  | Resume_store v =>
      Some (Some (Resumed v), goto c (Resume_unlock v) (upd_cpu v (set_suspend_cpu false) s))
  | Resume_unlock v => Some (None, goto c Next (spin_unlock v s))
  (* psci_emulate_cpu_on *)
  | On_test v e x =>
      if wait_for_poweron (cpus s v) then
        Some (Some (Requested v), goto c (On_unlock v true) (set_result c PSCI_SUCCESS
          (upd_cpu v (fun p => set_reset true (set_cpu_on_context x (set_cpu_on_entry e p))) s)))
      else Some (None, goto c (On_unlock v false) (set_result c PSCI_ALREADY_ON s))
  | On_unlock v kick => Some (None, goto c (if kick then On_kick v else Next) (spin_unlock v s))
  | On_kick v => Some (None, goto c Next (set_sgi v true s))
  (* check_events *)
  | Ce_lock => s' ← spin_lock c c s; Some (None, goto c Ce_head s')
  | Ce_head =>
      Some (None, goto c Ce_unlock (if suspend_cpu me then upd_cpu c (set_cpu_suspended true) s else s))
  | Ce_unlock => Some (None, goto c Ce_spin (spin_unlock c s))
  | Ce_spin => if suspend_cpu me then None else Some (None, goto c Ce_relock s)
  | Ce_relock => s' ← spin_lock c c s; Some (None, goto c Ce_test s')
  | Ce_test => Some (None, goto c (if suspend_cpu me then Ce_tail else Ce_clear) s)
  | Ce_clear => Some (None, goto c Ce_park (upd_cpu c (set_cpu_suspended false) s))
  | Ce_park =>
      if park me then Some (None, goto c (Ce_flush false) (upd_cpu c enter_cpu_off s))
      else Some (None, goto c Ce_reset s)
  | Ce_reset =>
      if reset me then
        if negb (cpu_on_entry me =? PSCI_INVALID_ADDRESS)
        then Some (None, goto c (Ce_flush true) (upd_cpu c (fun p => set_wait_for_poweron false (set_reset false p)) s))
        else Some (None, goto c (Ce_flush false) (upd_cpu c (fun p => enter_cpu_off (set_reset false p)) s))
      else Some (None, goto c Ce_tail s)
  | Ce_tail => Some (None, goto c (if suspend_cpu me then Ce_head else Ce_flush false) s)
  | Ce_flush r =>
      if flush_vcpu_caches me
      then Some (Some (Flushed c), goto c (Ce_unlock_end r) (upd_cpu c (set_flush_vcpu_caches false) s))
      else Some (None, goto c (Ce_unlock_end r) s)
  | Ce_unlock_end r => Some (None, goto c (Ce_exit r) (spin_unlock c s))
  | Ce_exit r =>
      if wait_for_poweron me then Some (None, goto c Off_lock s)
      else if r then
        Some (None, goto c Next (upd_cpu c (fun p =>
          set_vcpu (arm_cpu_reset (cpu_on_entry p) (cpu_on_context p) (vcpu p)) p) s))
      else Some (None, goto c Next s)
  (* arm_cpu_park *)
  | Off_lock => s' ← spin_lock c c s; Some (None, goto c Off_store s')
  | Off_store => Some (None, goto c Off_unlock (upd_cpu c enter_cpu_off s))
  | Off_unlock => Some (None, goto c Off_reset (spin_unlock c s))
  | Off_reset =>
      Some (None, goto c Next (upd_cpu c (fun p =>
        set_vcpu (enter_parking_mm (arm_cpu_reset 0 (cpu_on_context p) (vcpu p))) p) s))
  end.

(** A run and what can be seen of it. *)
Inductive run : sys -> list label -> sys -> Prop :=
| run_nil s : run s [] s
| run_cons c d s o s1 tr s2 :
    step c d s = Some (o, s1) -> run s1 tr s2 -> run s (option_list o ++ tr) s2.

(** A schedule, executed. *)
Fixpoint execute (sched : list (Z * decision)) (s : sys) : option (list label * sys) :=
  match sched with
  | [] => Some ([], s)
  | (c, d) :: sched =>
      '(o, s1) ← step c d s; '(tr, s2) ← execute sched s1; Some (option_list o ++ tr, s2)
  end.

(** Every CPU is in its guest and nothing is requested. *)
Record initial (s : sys) : Prop := {
  init_guest c : at_ (threads s c) = Guest;
  init_todo c : todo (threads s c) = [];
  init_unlocked c : control_lock s c = None;
  init_no_sgi c : sgi_event s c = false;
  init_not_suspended c : cpu_suspended (cpus s c) = false;
  init_no_suspend c : suspend_cpu (cpus s c) = false;
}.
