(* ===== verification/CpuSuspend.v ===== *)
(** * Suspending, parking and resetting CPUs: theorems

    Invariants of the transition system of [CpuControl] and what follows for
    every interleaving: a CPU that was suspended does not execute guest code
    until it is resumed; a parked CPU stays in the parking page; a reset one
    starts at its entry. *)

From Stdlib Require Import ZArith Lia.
From stdpp Require Import base tactics list option functions.
From S2P Require Import Prelude Cell CpuControl.

(** ** The invariant *)

(** The lock that a CPU holds at a location. *)
Definition lock_of (l : location) (self : Z) : option Z :=
  match l with
  | Suspend_store _ v | Suspend_unlock _ v _ | Resume_store v | Resume_unlock v
  | On_test v _ _ | On_unlock v _ => Some v
  | Ce_head | Ce_unlock | Ce_test | Ce_clear | Ce_park | Ce_reset | Ce_tail
  | Ce_flush _ | Ce_unlock_end _ | Off_store | Off_unlock => Some self
  | _ => None
  end.

(** Where a CPU with [cpu_suspended] is, given [suspend_cpu]. *)
Definition waits (l : location) (suspend : bool) : bool :=
  match l with
  | Ce_unlock | Ce_spin | Ce_relock | Ce_test => true
  | Ce_clear => negb suspend
  | Ce_tail | Ce_head => suspend
  | _ => false
  end.

(** Where the lock and a test rule out a request to suspend. *)
Definition tested (l : location) : bool :=
  match l with
  | Ce_clear | Ce_park | Ce_reset | Ce_flush _ | Ce_unlock_end _ => true
  | _ => false
  end.

(** Where a CPU has still to look at [suspend_cpu]. *)
Definition looks (l : location) : bool :=
  match l with
  | Ce_lock | Ce_head | Ce_unlock | Ce_spin | Ce_relock | Ce_test | Ce_tail => true
  | _ => false
  end.

(** The signal to [v] is still to be sent. *)
Definition will_kick (v : Z) (l : location) : Prop :=
  exists w, l = Suspend_unlock w v false \/ l = Suspend_kick w v.

Definition loc (s : sys) (c : Z) : location := at_ (threads s c).

Definition locked_inv (s : sys) : Prop :=
  forall v c, control_lock s v = Some c <-> lock_of (loc s c) c = Some v.
Definition waiting_inv (s : sys) : Prop :=
  forall v, cpu_suspended (cpus s v) = true -> waits (loc s v) (suspend_cpu (cpus s v)) = true.
Definition tested_inv (s : sys) : Prop :=
  forall v, tested (loc s v) = true -> suspend_cpu (cpus s v) = false.
Definition seen_inv (s : sys) : Prop :=
  forall m w v, loc s m = Suspend_unlock w v true -> cpu_suspended (cpus s v) = true.
Definition signal_inv (s : sys) : Prop :=
  forall v, suspend_cpu (cpus s v) = true ->
    cpu_suspended (cpus s v) = true \/ sgi_event s v = true \/
    looks (loc s v) = true \/ exists m, will_kick v (loc s m).

Record ctl_inv (s : sys) : Prop := {
  ci_locked : locked_inv s;
  ci_waiting : waiting_inv s;
  ci_tested : tested_inv s;
  ci_seen : seen_inv s;
  ci_signal : signal_inv s;
}.

(** ** Steps *)

Ltac unfold_step H :=
  unfold step, guest_step, trap, leave, begin, spin_lock, mbind, option_bind in H;
  repeat (case_match; simplify_eq/=); simplify_eq/=;
  unfold goto, pop, set_result, set_thread, upd_cpu, set_sgi, spin_unlock, loc in *; simpl in *.

(** Case split on the updates of functions. *)
Ltac upd :=
  repeat match goal with
  | H : context [(<[?a := _]> _) ?a] |- _ => rewrite fn_lookup_insert in H
  | |- context [(<[?a := _]> _) ?a] => rewrite fn_lookup_insert
  | H : context [(<[?a := _]> _) ?b], _ : ?a <> ?b |- _ => rewrite fn_lookup_insert_ne in H by done
  | _ : ?a <> ?b |- context [(<[?a := _]> _) ?b] => rewrite fn_lookup_insert_ne by done
  | H : context [(<[?a := _]> _) ?b] |- _ => destruct (decide (a = b)); [subst|]
  | |- context [(<[?a := _]> _) ?b] => destruct (decide (a = b)); [subst|]
  end; simpl in *.

(** Rewrites with the location of the CPU that steps. *)
Ltac at_loc :=
  repeat match goal with
  | E : at_ (threads ?s ?v) = _ |- context [at_ (threads ?s ?v)] => rewrite E
  | E : at_ (threads ?s ?v) = _, H : context [at_ (threads ?s ?v)] |- _ => rewrite E in H
  end; simpl in *.

(** All the cases of a step, with the updates split. *)
Ltac step_cases H := unfold_step H; upd; at_loc.

Lemma locked_inv_step c d s o s1 :
  locked_inv s -> step c d s = Some (o, s1) -> locked_inv s1.
Proof.
  intros HL Hs v k. pose proof (HL v k) as Hk. pose proof (HL v c) as Hc.
  step_cases Hs; naive_solver.
Qed.

(** Nobody else touches the lock or [suspend_cpu] of [v] while it is held. *)
Lemma locked_excludes s v c k :
  locked_inv s -> lock_of (loc s c) c = Some v -> lock_of (loc s k) k = Some v -> c = k.
Proof. intros HL Hc%HL Hk%HL. congruence. Qed.

Lemma waiting_inv_step c d s o s1 :
  ctl_inv s -> step c d s = Some (o, s1) -> waiting_inv s1.
Proof.
  intros [HL HW HT _ _] Hs v. specialize (HW v).
  pose proof (fun k => locked_excludes s v k v HL) as Hx.
  specialize (Hx c). unfold loc in *.
  step_cases Hs; try tauto.
  all: try (intros Hv; specialize (HW Hv); simpl in *; try done; try naive_solver).
  all: destruct (at_ (threads s v)); simpl in *; try done; try by exfalso; auto.
  by match goal with E : suspend_cpu _ = false |- _ => rewrite E end.
Qed.

Lemma tested_inv_step c d s o s1 :
  locked_inv s -> tested_inv s -> step c d s = Some (o, s1) -> tested_inv s1.
Proof.
  intros HL HT Hs v. specialize (HT v).
  pose proof (locked_excludes s v c v HL) as Hx. unfold loc in *.
  step_cases Hs; try tauto; try done.
  all: destruct (at_ (threads s v)); simpl in *; try done; exfalso; auto.
Qed.

Lemma seen_inv_step c d s o s1 :
  ctl_inv s -> step c d s = Some (o, s1) -> seen_inv s1.
Proof.
  intros [HL HW HT HS _] Hs m w v. specialize (HS m w v).
  pose proof (locked_excludes s v c m HL) as Hx. unfold loc in *.
  step_cases Hs; try naive_solver.
  intros E. rewrite E in Hx. exfalso. auto.
Qed.

Lemma will_kick_step c d s o s1 m v :
  step c d s = Some (o, s1) -> will_kick v (loc s m) ->
  will_kick v (loc s1 m) \/ sgi_event s1 v = true.
Proof.
  intros Hs [w [E|E]]; unfold loc, will_kick in *.
  - destruct (decide (c = m)) as [->|].
    + unfold step in Hs. rewrite E in Hs. simplify_eq. simpl. upd. eauto.
    + assert (at_ (threads s1 m) = at_ (threads s m)) as -> by (step_cases Hs; done). eauto.
  - destruct (decide (c = m)) as [->|].
    + unfold step in Hs. rewrite E in Hs. simplify_eq. right. simpl. upd; done.
    + assert (at_ (threads s1 m) = at_ (threads s m)) as -> by (step_cases Hs; done). eauto.
Qed.

Lemma signal_inv_step c d s o s1 :
  ctl_inv s -> step c d s = Some (o, s1) -> signal_inv s1.
Proof.
  intros [HL HW HT HS HG] Hs v Hsus.
  destruct (decide (suspend_cpu (cpus s v) = true)) as [Hv|Hv].
  - destruct (HG v Hv) as [H|[H|[H|[m H]]]].
    + left. unfold loc in *. specialize (HW v). unfold loc in HW. step_cases Hs; try done.
      specialize (HW H). by rewrite Hv in HW.
    + unfold loc in *. step_cases Hs; auto.
    + specialize (HT v). unfold loc in *. step_cases Hs; auto; congruence.
    + destruct (will_kick_step _ _ _ _ _ _ _ Hs H); eauto.
  - unfold loc, will_kick in *. step_cases Hs; try done.
    all: destruct (cpu_suspended (cpus s v)); [by auto|]; do 3 right.
    all: match goal with |- context [<[?a := _]> (threads _)] =>
           exists a, wait; left; by rewrite fn_lookup_insert end.
Qed.

Lemma ctl_inv_step c d s o s1 : ctl_inv s -> step c d s = Some (o, s1) -> ctl_inv s1.
Proof.
  intros HI Hs. split.
  - eapply locked_inv_step; [apply HI|exact Hs].
  - eapply waiting_inv_step; [exact HI|exact Hs].
  - eapply tested_inv_step; [apply HI|apply HI|exact Hs].
  - eapply seen_inv_step; [exact HI|exact Hs].
  - eapply signal_inv_step; [exact HI|exact Hs].
Qed.

Lemma ctl_inv_run s tr s1 : ctl_inv s -> run s tr s1 -> ctl_inv s1.
Proof. intros HI Hr. induction Hr; eauto using ctl_inv_step. Qed.

Lemma ctl_inv_initial s : initial s -> ctl_inv s.
Proof.
  intros [Hg _ Hl Hn Hc Hs].
  split; intros v *; unfold loc; rewrite ?Hg, ?Hl, ?Hc, ?Hs; simpl; naive_solver.
Qed.

(** ** Runs *)

Lemma run_split s tr1 tr2 s2 :
  run s (tr1 ++ tr2) s2 -> exists s1, run s tr1 s1 /\ run s1 tr2 s2.
Proof.
  remember (tr1 ++ tr2) as tr eqn:Htr. intros Hr. revert tr1 tr2 Htr.
  induction Hr as [s|c d s o s1 tr s2 Hs Hr IH]; intros tr1 tr2 Htr.
  - symmetry in Htr. apply app_nil in Htr as [-> ->]. eauto using run_nil.
  - destruct o as [l|]; simpl in Htr.
    + destruct tr1 as [|l1 tr1]; simplify_eq/=.
      * exists s. split; [constructor|]. by eapply (run_cons _ _ _ (Some l)).
      * destruct (IH tr1 tr2 eq_refl) as (sm & H1 & H2). exists sm. split; [|done].
        by eapply (run_cons _ _ _ (Some l1)).
    + destruct (IH tr1 tr2 Htr) as (sm & H1 & H2). exists sm. split; [|done].
      by eapply (run_cons _ _ _ None).
Qed.

(** The step that a label in the trace comes from. *)
Lemma run_label s l tr s2 :
  run s (l :: tr) s2 ->
  exists s0 c d s1, run s [] s0 /\ step c d s0 = Some (Some l, s1) /\ run s1 tr s2.
Proof.
  remember (l :: tr) as tr0 eqn:Htr. intros Hr. revert l tr Htr.
  induction Hr as [s|c d s o s1 tr' s2 Hs Hr IH]; intros l tr Htr; [done|].
  destruct o as [l'|]; simplify_eq/=.
  - exists s, c, d, s1. split; [constructor|done].
  - destruct (IH _ _ eq_refl) as (s0 & c' & d' & s1' & H1 & H2 & H3).
    exists s0, c', d', s1'. split; [|done]. by eapply (run_cons _ _ _ None).
Qed.

Lemma run_app s tr1 s1 tr2 s2 : run s tr1 s1 -> run s1 tr2 s2 -> run s (tr1 ++ tr2) s2.
Proof.
  induction 1 as [|c d s o s0 tr s1 Hs _ IH]; intros H2; [done|].
  rewrite <- (assoc_L (++)). eapply run_cons; eauto.
Qed.

Lemma execute_run sched s tr s1 : execute sched s = Some (tr, s1) -> run s tr s1.
Proof.
  revert s tr. induction sched as [|[c d] sched IH]; intros s tr H; simpl in H.
  - simplify_eq. constructor.
  - destruct (step c d s) as [[o s0]|] eqn:Hs; [|done]. simpl in H.
    destruct (execute sched s0) as [[tr0 s2]|] eqn:He; [|done]. simplify_eq/=.
    eapply run_cons; [exact Hs|]. eauto.
Qed.

(** A property that every step keeps unless it has a bad label. *)
Lemma run_invariant (P : sys -> Prop) (bad : label -> Prop) s tr s1 :
  (forall c d s o s1, ctl_inv s -> P s -> step c d s = Some (o, s1) ->
     (forall l, o = Some l -> ~ bad l) -> P s1) ->
  ctl_inv s -> P s -> run s tr s1 -> Forall (fun l => ~ bad l) tr -> P s1.
Proof.
  intros Hstep HI HP Hr. revert HI HP.
  induction Hr as [|c d s o s0 tr s1 Hs Hr IH]; intros HI HP Hb; [done|].
  apply Forall_app in Hb as [Ho Hb]. apply IH; [by eapply ctl_inv_step| |done].
  eapply Hstep; [exact HI|exact HP|exact Hs|]. intros l ->. simpl in Ho.
  by inversion Ho.
Qed.

(** ** Suspension *)

Definition suspended (s : sys) (v : Z) : Prop :=
  suspend_cpu (cpus s v) = true /\ cpu_suspended (cpus s v) = true.

Lemma asked_step c d s o s1 v :
  suspend_cpu (cpus s v) = true -> step c d s = Some (o, s1) -> o <> Some (Resumed v) ->
  suspend_cpu (cpus s1 v) = true.
Proof. intros Hv Hs Ho. step_cases Hs; done. Qed.

Lemma suspended_step c d s o s1 v :
  ctl_inv s -> suspended s v -> step c d s = Some (o, s1) -> o <> Some (Resumed v) ->
  suspended s1 v.
Proof.
  intros HI [Hv Hc] Hs Ho. split; [by eapply asked_step|].
  pose proof (ci_waiting _ HI v Hc) as HW. rewrite Hv in HW. unfold loc in HW.
  step_cases Hs; done.
Qed.

(** A suspended CPU executes nothing but the loop. *)
Lemma suspended_quiet c d s o s1 v l :
  ctl_inv s -> suspended s v -> step c d s = Some (o, s1) -> o = Some l ->
  l <> Ran v /\ forall g, l <> Entered v g.
Proof.
  intros HI [Hv Hc] Hs ->.
  pose proof (ci_waiting _ HI v Hc) as HW. rewrite Hv in HW. unfold loc in HW.
  split; [intros ->|intros g ->]; step_cases Hs; done.
Qed.

Lemma suspending_step c d s m v s1 :
  step c d s = Some (Some (Suspending m v), s1) -> suspend_cpu (cpus s1 v) = true.
Proof. intros Hs. step_cases Hs; done. Qed.

Lemma returned_step c d s m v s1 :
  ctl_inv s -> step c d s = Some (Some (Suspended m v), s1) -> cpu_suspended (cpus s1 v) = true.
Proof. intros HI Hs. pose proof (ci_seen _ HI) as HS. unfold seen_inv, loc in HS. step_cases Hs; eauto. Qed.

Lemma suspended_run s tr s1 v :
  ctl_inv s -> suspended s v -> run s tr s1 -> Resumed v ∉ tr ->
  suspended s1 v /\ Ran v ∉ tr /\ forall g, Entered v g ∉ tr.
Proof.
  intros HI Hsu Hr. revert HI Hsu.
  induction Hr as [s|c d s o s0 tr s1 Hs Hr IH]; intros HI Hsu Hno.
  - split; [done|]. split; [|intros g]; apply not_elem_of_nil.
  - apply not_elem_of_app in Hno as [Ho Hno].
    assert (o <> Some (Resumed v)) as Ho' by (intros ->; apply Ho; left).
    destruct IH as (H1 & H2 & H3); [by eapply ctl_inv_step|by eapply suspended_step|done|].
    split; [done|]. pose proof (suspended_quiet _ _ _ _ _ _ (default (Ran c) o) HI Hsu Hs) as Hq.
    destruct o as [l|]; simpl in *; [|by split].
    destruct Hq as [Hq1 Hq2]; [done|].
    split; [|intros g]; rewrite elem_of_cons; intros [E|E].
    + by apply Hq1.
    + by apply H2.
    + by apply (Hq2 g).
    + by apply (H3 g).
Qed.

(** C28: when [arch_suspend_cpu(v)] returns on some CPU and nobody withdraws the
    request, [v] executes no guest code and does not return to its guest: it is
    suspended and stays so until it is resumed, whatever all CPUs do. *)
Theorem suspended_excluded s0 l0 m v l1 l2 s :
  initial s0 ->
  run s0 (l0 ++ Suspending m v :: l1 ++ Suspended m v :: l2) s ->
  Resumed v ∉ l1 ++ l2 ->
  Ran v ∉ l2 /\ (forall g, Entered v g ∉ l2) /\ suspended s v.
Proof.
  intros H0 Hr [Hn1 Hn2]%not_elem_of_app.
  apply run_split in Hr as (sa & Hra & Hr).
  apply run_label in Hr as (sb & c & d & sc & Hrb & Hs & Hr).
  apply run_split in Hr as (sd & Hrd & Hr).
  apply run_label in Hr as (se & c' & d' & sf & Hre & Hs' & Hr).
  assert (ctl_inv sc) as HIc by eauto using ctl_inv_step, ctl_inv_run, ctl_inv_initial.
  assert (ctl_inv se) as HIe by eauto using ctl_inv_run.
  assert (suspend_cpu (cpus se v) = true) as Hask.
  { eapply (run_invariant (fun s => suspend_cpu (cpus s v) = true) (fun l => l = Resumed v));
      [|exact HIc|by eapply suspending_step|exact (run_app _ _ _ _ _ Hrd Hre)|].
    - intros * _ Hv Hst Ho. eapply asked_step; [done|done|]. intros ->. by eapply Ho.
    - rewrite app_nil_r. apply Forall_forall. intros x Hx ->. by apply Hn1, list_elem_of_In. }
  assert (suspended sf v) as Hsf.
  { split; [eapply asked_step; [exact Hask|exact Hs'|done]|by eapply returned_step]. }
  destruct (suspended_run _ _ _ v (ctl_inv_step _ _ _ _ _ HIe Hs') Hsf Hr Hn2) as (? & ? & ?).
  done.
Qed.

(** What a step of [c] can change of another CPU [v]. *)
Record others_change (v : Z) (s : sys) (o : option label) (s1 : sys) : Prop := {
  oc_loc : loc s1 v = loc s v;
  oc_suspended : cpu_suspended (cpus s1 v) = cpu_suspended (cpus s v);
  oc_wait : wait_for_poweron (cpus s1 v) = wait_for_poweron (cpus s v);
  oc_vcpu : vcpu (cpus s1 v) = vcpu (cpus s v);
  oc_suspend : suspend_cpu (cpus s1 v) = suspend_cpu (cpus s v) \/ lock_of (loc s v) v <> Some v;
  oc_park : park (cpus s1 v) = park (cpus s v) \/
    park (cpus s1 v) = true /\ o = Some (ParkRequested v);
  oc_reset : o <> Some (Requested v) ->
    reset (cpus s1 v) = reset (cpus s v) /\ cpu_on_entry (cpus s1 v) = cpu_on_entry (cpus s v) /\
    cpu_on_context (cpus s1 v) = cpu_on_context (cpus s v);
}.

Lemma other_step v c d s o s1 :
  c <> v -> locked_inv s -> step c d s = Some (o, s1) -> others_change v s o s1.
Proof.
  intros Hne HL Hs. pose proof (locked_excludes s v c v HL) as Hx.
  split; unfold loc in *; step_cases Hs; try done; try (by split_and!); auto; right;
    intros E; apply Hne; auto.
Qed.

Lemma waits_unlocked l v b b' : lock_of l v <> Some v -> waits l b = waits l b'.
Proof. by destruct l. Qed.

(** ** Parking *)

Definition going_off (l : location) : bool :=
  match l with
  | Ce_flush _ | Ce_unlock_end _ | Ce_exit _ | Off_lock | Off_store | Off_unlock | Off_reset => true
  | _ => false
  end.

Definition powers_on (l : location) : bool :=
  match l with Ce_flush true | Ce_unlock_end true | Ce_exit true => true | _ => false end.

(** [v] is off, or will be before it returns to its guest. *)
Definition stays_off (v : Z) (s : sys) : Prop :=
  let p := cpus s v in
  reset p = false /\ powers_on (loc s v) = false /\
  ((park p = true /\ (waits (loc s v) (suspend_cpu p) = true \/ loc s v = Ce_park)) \/
   (wait_for_poweron p = true /\ (going_off (loc s v) = true \/ mm (vcpu p) = ParkingMm))).

Lemma stays_off_other v c d s o s1 :
  c <> v -> ctl_inv s -> stays_off v s -> step c d s = Some (o, s1) ->
  o <> Some (Requested v) -> stays_off v s1.
Proof.
  intros Hne HI (Hr & Hp & Hw) Hs Ho.
  destruct (other_step _ _ _ _ _ _ Hne (ci_locked _ HI) Hs) as [Ht Hc Hwt Hg Hsu Hpk Hrq].
  destruct (Hrq Ho) as (Hr' & _ & _).
  assert (waits (loc s v) (suspend_cpu (cpus s1 v)) = waits (loc s v) (suspend_cpu (cpus s v))) as Hws.
  { destruct Hsu as [->|Hl]; [done|by apply (waits_unlocked _ v)]. }
  unfold stays_off. rewrite Ht, Hwt, Hg, Hr', Hws. destruct Hpk as [->|[-> _]]; naive_solver.
Qed.

Lemma stays_off_own v d s o s1 :
  stays_off v s -> step v d s = Some (o, s1) -> o <> Some (Requested v) -> stays_off v s1.
Proof.
  intros (Hr & Hp & Hw) Hs Ho. unfold stays_off, loc in *.
  step_cases Hs; try done; split_and!; try done; naive_solver.
Qed.

Lemma stays_off_step v c d s o s1 :
  ctl_inv s -> stays_off v s -> step c d s = Some (o, s1) -> o <> Some (Requested v) ->
  stays_off v s1.
Proof.
  intros. destruct (decide (c = v)) as [->|]; [by eapply stays_off_own|by eapply stays_off_other].
Qed.

Lemma stays_off_enters v c d s g s1 :
  stays_off v s -> step c d s = Some (Some (Entered v g), s1) -> mm g = ParkingMm.
Proof.
  intros (Hr & Hp & Hw) Hs. unfold loc in *.
  step_cases Hs; destruct Hw as [[_ [?|?]]|[_ [?|?]]]; done.
Qed.

(** a CPU that is suspended and then told to park never executes guest code
    of its cell again: whenever it returns to the guest it is in the parking
    page, until somebody asks for a reset or powers it on. *)
Theorem parked_stays_off s0 tr0 s tr s1 v :
  initial s0 -> run s0 tr0 s -> suspended s v ->
  park (cpus s v) = true -> reset (cpus s v) = false ->
  run s tr s1 -> Requested v ∉ tr ->
  (forall g, Entered v g ∈ tr -> mm g = ParkingMm) /\
  (loc s1 v = Guest -> wait_for_poweron (cpus s1 v) = true /\ mm (vcpu (cpus s1 v)) = ParkingMm).
Proof.
  intros H0 Hr0 [Hsu Hcs] Hpk Hrs Hr Hno.
  assert (ctl_inv s) as HI by eauto using ctl_inv_run, ctl_inv_initial.
  pose proof (ci_waiting _ HI v Hcs) as HW.
  assert (stays_off v s) as HP.
  { split; [done|]. split; [|auto]. by destruct (loc s v). }
  clear H0 Hr0 Hsu Hcs Hpk Hrs HW.
  induction Hr as [s|c d s o s2 tr s1 Hs Hr IH].
  - split; [intros g []%elem_of_nil|]. intros E. destruct HP as (_ & _ & HP).
    rewrite E in HP. naive_solver.
  - apply not_elem_of_app in Hno as [Ho Hno].
    assert (o <> Some (Requested v)) by (intros ->; apply Ho; left).
    destruct IH as [IH1 IH2]; [done|by eapply ctl_inv_step|by eapply stays_off_step|].
    split; [|done]. intros g [Hg|Hg]%elem_of_app; [|by apply IH1].
    destruct o as [l|]; [|by apply elem_of_nil in Hg]. apply list_elem_of_singleton in Hg as <-.
    by eapply stays_off_enters.
Qed.

(** ** Reset *)

Definition is_event (l : location) : bool :=
  match l with
  | Ce_lock | Ce_head | Ce_unlock | Ce_spin | Ce_relock | Ce_test | Ce_clear | Ce_park
  | Ce_reset | Ce_tail | Ce_flush _ | Ce_unlock_end _ | Ce_exit _ => true
  | _ => false
  end.

(** Events are handled in an interrupt or in PSCI_CPU_SUSPEND, and there only. *)
Definition events_inv (s : sys) : Prop := forall c,
  (is_event (loc s c) = true -> HandleIrqs ∈ todo (threads s c)) /\
  (HandleIrqs ∈ todo (threads s c) ->
   todo (threads s c) = [HandleIrqs] /\
   (reason (threads s c) = Irq \/ reason (threads s c) = Smc)).

Lemma management_no_irqs ops : forallb is_management ops = true -> HandleIrqs ∉ ops.
Proof.
  induction ops as [|o ops IH]; simpl; [intros _; apply not_elem_of_nil|].
  intros [Ho Hops]%andb_true_iff. rewrite elem_of_cons. intros [<-|?]; [done|by apply IH].
Qed.

(** After an operation other than [HandleIrqs] the rest holds no [HandleIrqs]. *)
Lemma events_rest (o : op) l (P : Prop) :
  (HandleIrqs ∈ o :: l -> o :: l = [HandleIrqs] /\ P) -> HandleIrqs ∉ l.
Proof. intros H Hin. destruct H as [[= -> ->] _]; [by right|]. by apply elem_of_nil in Hin. Qed.

Lemma events_inv_step c d s o s1 : events_inv s -> step c d s = Some (o, s1) -> events_inv s1.
Proof.
  intros HE Hs k. specialize (HE k). pose proof management_no_irqs as Hm. unfold loc in *.
  step_cases Hs; try tauto.
  all: try match goal with E : todo _ = _ :: _ |- _ => rewrite E in *; simpl in * end.
  all: try (split; [done|]; intros Hin; exfalso; revert Hin;
            first [by apply (events_rest _ _ _ (proj2 HE)) | by apply Hm
                  | by intros ?%list_elem_of_singleton]).
  all: try (split; [done|]; by auto).
  split; [|tauto]. intros _. left.
Qed.

Lemma events_inv_run s tr s1 : events_inv s -> run s tr s1 -> events_inv s1.
Proof. intros HI Hr. induction Hr; eauto using events_inv_step. Qed.

Lemma events_inv_initial s : initial s -> events_inv s.
Proof.
  intros H c. unfold loc. rewrite (init_guest _ H), (init_todo _ H).
  split; [done|]. by intros ?%elem_of_nil.
Qed.

(** [v] will start at [e] with argument [x] before it returns to its guest. *)
Definition starting (v e x : Z) (r : exit_reason) (s : sys) : Prop :=
  let p := cpus s v in let t := threads s v in
  park p = false /\ cpu_on_entry p = e /\ cpu_on_context p = x /\ reason t = r /\
  ((reset p = true /\ todo t = [HandleIrqs] /\
    (waits (at_ t) (suspend_cpu p) = true \/ at_ t = Ce_park \/ at_ t = Ce_reset)) \/
   (reset p = false /\ wait_for_poweron p = false /\ todo t = [HandleIrqs] /\
    powers_on (at_ t) = true) \/
   (reset p = false /\ wait_for_poweron p = false /\ powers_on (at_ t) = false /\
    (is_event (at_ t) = true \/ at_ t = Next) /\ (todo t = [] \/ todo t = [HandleIrqs]) /\
    exists g, vcpu p = arm_cpu_reset e x g)).

Lemma starting_other v e x r c d s o s1 :
  c <> v -> ctl_inv s -> starting v e x r s -> step c d s = Some (o, s1) ->
  o <> Some (Requested v) -> o <> Some (ParkRequested v) -> starting v e x r s1.
Proof.
  intros Hne HI (Hp & He & Hx & Hreason & Hw) Hs Ho Ho'.
  destruct (other_step _ _ _ _ _ _ Hne (ci_locked _ HI) Hs) as [Ht Hc Hwt Hg Hsu Hpk Hrq].
  destruct (Hrq Ho) as (Hr' & He' & Hx').
  assert (threads s1 v = threads s v) as Htv by (clear -Hne Hs; step_cases Hs; done).
  assert (waits (loc s v) (suspend_cpu (cpus s1 v)) = waits (loc s v) (suspend_cpu (cpus s v))) as Hws.
  { destruct Hsu as [->|Hl]; [done|by apply (waits_unlocked _ v)]. }
  unfold starting, loc in *. rewrite Htv, Hwt, Hg, Hr', He', Hx', Hws.
  destruct Hpk as [->|[_ ?]]; naive_solver.
Qed.

Lemma starting_own v e x r d s o s1 :
  e <> PSCI_INVALID_ADDRESS -> starting v e x r s -> step v d s = Some (o, s1) ->
  o <> Some (Requested v) -> o <> Some (ParkRequested v) -> (forall g, o <> Some (Entered v g)) ->
  starting v e x r s1.
Proof.
  intros Hinv (Hp & He & Hx & Hreason & Hw) Hs Ho Ho' Hen. unfold starting, loc in *.
  destruct Hw as [(Hr & Ht & Hw)|[(Hr & Hw & Ht & Hl)|(Hr & Hw & Hl & Hv & Ht & Hg)]].
  - step_cases Hs; destruct Hw as [?|[?|?]]; try done; split_and!; try done; try tauto.
    exfalso. apply Hinv. by b2p.
  - step_cases Hs; try done; split_and!; try done; try tauto.
    do 2 right. split_and!; eauto.
  - step_cases Hs; try done; try (by destruct Hv); try (by exfalso; eapply Hen).
    all: try (destruct Ht as [Ht|Ht]; [done|]; simplify_eq).
    all: split_and!; try done; try tauto.
    do 2 right. rewrite H0. split_and!; auto.
Qed.

Lemma starting_step v e x r c d s o s1 :
  e <> PSCI_INVALID_ADDRESS -> ctl_inv s -> starting v e x r s -> step c d s = Some (o, s1) ->
  o <> Some (Requested v) -> o <> Some (ParkRequested v) -> (forall g, o <> Some (Entered v g)) ->
  starting v e x r s1.
Proof.
  intros. destruct (decide (c = v)) as [->|]; [by eapply starting_own|by eapply starting_other].
Qed.

Definition returned_guest (r : exit_reason) (res : Z) (g : guest) : guest :=
  match r with Smc => smc_return res g | Hvc => hvc_return res g | _ => g end.

Lemma entered_step v c d s g s1 :
  step c d s = Some (Some (Entered v g), s1) ->
  c = v /\ loc s v = Next /\
  g = returned_guest (reason (threads s v)) (result (threads s v)) (vcpu (cpus s v)).
Proof. intros Hs. unfold returned_guest. unfold_step Hs; rewrite ?Heqe; auto. Qed.

Lemma starting_enters v e x r c d s g s1 :
  starting v e x r s -> step c d s = Some (Some (Entered v g), s1) ->
  exists g0 res, g = returned_guest r res (arm_cpu_reset e x g0).
Proof.
  intros (_ & _ & _ & <- & Hw) (_ & Hl & ->)%entered_step. unfold loc in Hl. rewrite Hl in Hw.
  destruct Hw as [(_ & _ & [?|[?|?]])|[(_ & _ & _ & ?)|(_ & _ & _ & _ & _ & g0 & ->)]];
    try discriminate. eauto.
Qed.

(** The guest starts at [pc] with [x] in register 1, everything else that the
    reset names is cleared or at its reset value. *)
Record starts_at (pc x : Z) (g : guest) : Prop := {
  sa_pc : sysregs g ELR_EL2 = pc;
  sa_arg : usr g !! 1%nat = Some x;
  sa_usr i : (2 <= i < NUM_USR_REGS)%nat -> usr g !! i = Some 0;
  sa_sysregs : Forall (fun w => sysregs g w.1 = w.2) reset_values;
  sa_mm : mm g = CellMm;
}.

Lemma arm_cpu_reset_starts e x g : starts_at e x (arm_cpu_reset e x g).
Proof.
  split; try done.
  - intros i [Hi Hi']. unfold arm_cpu_reset, usr.
    rewrite list_lookup_insert_ne by lia. by apply lookup_replicate.
  - unfold reset_values. repeat (constructor; [by vm_compute|]). constructor.
Qed.

Lemma reset_values_no_pc : Forall (fun w => w.1 <> ELR_EL2) reset_values.
Proof. unfold reset_values. repeat (constructor; [done|]). constructor. Qed.

Lemma smc_return_starts e x r g : starts_at e x g -> starts_at (u64 (e + 4)) x (smc_return r g).
Proof.
  intros [Hpc Ha Hu Hs Hm]. split; unfold smc_return; simpl; [| | | |done].
  - by rewrite fn_lookup_insert, Hpc.
  - by rewrite list_lookup_insert_ne by lia.
  - intros i Hi. rewrite list_lookup_insert_ne by lia. by apply Hu.
  - pose proof (Forall_and Hs reset_values_no_pc) as HF.
    revert HF. apply Forall_impl. intros w [? ?]. by rewrite fn_lookup_insert_ne.
Qed.

(** a CPU that is suspended and then told to reset starts at its entry, the
    argument in register 1 and every other register that the reset names
    cleared or at its reset value, in the memory of its cell. If it was
    suspended inside of PSCI_CPU_SUSPEND it starts one instruction later. *)
Theorem reset_starts_at_entry s0 tr0 s tr g tr2 s1 v :
  initial s0 -> run s0 tr0 s -> suspended s v ->
  reset (cpus s v) = true -> park (cpus s v) = false ->
  cpu_on_entry (cpus s v) <> PSCI_INVALID_ADDRESS ->
  run s (tr ++ Entered v g :: tr2) s1 ->
  Requested v ∉ tr -> ParkRequested v ∉ tr -> (forall g', Entered v g' ∉ tr) ->
  let e := cpu_on_entry (cpus s v) in
  (reason (threads s v) = Irq /\ starts_at e (cpu_on_context (cpus s v)) g) \/
  (reason (threads s v) = Smc /\ starts_at (u64 (e + 4)) (cpu_on_context (cpus s v)) g).
Proof.
  intros H0 Hr0 [Hsu Hcs] Hrs Hpk Hinv Hr Hn1 Hn2 Hn3 e.
  assert (ctl_inv s) as HI by eauto using ctl_inv_run, ctl_inv_initial.
  assert (events_inv s) as HE by eauto using events_inv_run, events_inv_initial.
  pose proof (ci_waiting _ HI v Hcs) as HW. rewrite Hsu in HW.
  destruct (HE v) as [He Ht]. destruct Ht as [Ht Hreason]; [apply He; by destruct (loc s v)|].
  apply run_split in Hr as (sa & Hra & Hr).
  apply run_label in Hr as (sb & c & d & sc & Hrb & Hs & _).
  pose proof (run_app _ _ _ _ _ Hra Hrb) as Hrab. rewrite app_nil_r in Hrab.
  assert (starting v e (cpu_on_context (cpus s v)) (reason (threads s v)) sb) as HS.
  { eapply (run_invariant _ (fun l => l = Requested v \/ l = ParkRequested v \/ exists g, l = Entered v g));
      [|exact HI| |exact Hrab|].
    - intros * HI' HS Hst Hb. eapply starting_step; [exact Hinv|exact HI'|exact HS|exact Hst|..];
        [intros ->|intros ->|intros g' ->]; eapply Hb; eauto.
    - split_and!; try done. left. split_and!; try done. rewrite Hsu. by left.
    - apply Forall_forall. intros l Hl%list_elem_of_In [->|[->|[g' ->]]];
        [by apply Hn1|by apply Hn2|by apply (Hn3 g')]. }
  destruct (starting_enters _ _ _ _ _ _ _ _ _ HS Hs) as (g0 & res & ->).
  pose proof (arm_cpu_reset_starts e (cpu_on_context (cpus s v)) g0).
  destruct Hreason as [Hq|Hq]; rewrite Hq; [left|right]; (split; [done|]);
    [done|by apply smc_return_starts].
Qed.
