(* ===== verification/CpuProgress.v ===== *)
(** * Suspending CPUs: progress, deadlocks and lost requests

    When a suspension is reached, and the schedules in which it is not:
    the loop of [check_events] that spins without having acknowledged, two CPUs
    that suspend each other, requests that outlive a parked CPU. The examples
    at the end run schedules of two CPUs and witness the theorems of
    [CpuSuspend] and of this file. *)

From Stdlib Require Import ZArith Lia.
From stdpp Require Import base tactics list option functions relations.
From S2P Require Import Prelude Cell CpuControl CpuSuspend.

(** ** Progress *)

(** A step of [v] alone. *)
Definition own_step (v : Z) (s s1 : sys) : Prop := exists d o, step v d s = Some (o, s1).

(** [v] handles events or is about to, and executes no operation on other CPUs. *)
Definition responsive (s : sys) (v : Z) : bool :=
  is_event (loc s v) ||
  match loc s v with
  | Guest | Off_lock | Off_store | Off_unlock | Off_reset => true
  | Next => true
  | _ => false
  end.

(** Nobody but [v] uses the lock of [v] or is about to send the signal. *)
Definition undisturbed (s : sys) (v : Z) : Prop := forall k, k <> v ->
  lock_of (loc s k) k <> Some v /\ ~ will_kick v (loc s k).

(** [v] left the test of [suspend_cpu] behind and spins without acknowledging. *)
Definition missed (s : sys) (v : Z) : Prop :=
  cpu_suspended (cpus s v) = false /\ (loc s v = Ce_unlock \/ loc s v = Ce_spin).

Record addressed (v : Z) (s : sys) : Prop := {
  ad_ctl : ctl_inv s;
  ad_events : events_inv s;
  ad_asked : suspend_cpu (cpus s v) = true;
  ad_alone : undisturbed s v;
  ad_responsive : responsive s v = true;
  ad_todo : todo (threads s v) = [] \/ todo (threads s v) = [HandleIrqs];
  ad_noticed : ~ missed s v;
}.

(** The steps [v] needs at most. *)
Definition distance (s : sys) (v : Z) : nat :=
  match loc s v with
  | Ce_exit _ => 31 | Off_lock => 30 | Off_store => 29 | Off_unlock => 28 | Off_reset => 27
  | Next => match todo (threads s v) with [] => 26 | _ => 24 end
  | Guest => 25
  | Ce_lock => 23 | Ce_relock => 22 | Ce_test => 21 | Ce_tail => 20 | Ce_head => 1
  | _ => 0
  end%nat.

Lemma own_threads v d s o s1 k : k <> v -> step v d s = Some (o, s1) -> threads s1 k = threads s k.
Proof. intros Hne Hs. step_cases Hs; done. Qed.

Lemma own_lock_free v s :
  addressed v s -> lock_of (loc s v) v = None -> control_lock s v = None.
Proof.
  intros HA Hl. destruct (control_lock s v) as [k|] eqn:E; [|done].
  apply (ci_locked _ (ad_ctl _ _ HA)) in E.
  destruct (decide (k = v)) as [->|Hk]; [congruence|]. by destruct (ad_alone _ _ HA k Hk).
Qed.

Lemma own_sgi v s :
  addressed v s -> cpu_suspended (cpus s v) = false -> loc s v = Guest \/ loc s v = Next ->
  sgi_event s v = true.
Proof.
  intros HA Hc Hl. destruct (ci_signal _ (ad_ctl _ _ HA) v (ad_asked _ _ HA)) as [?|[?|[?|[k Hk]]]].
  - congruence.
  - done.
  - by destruct Hl as [E|E]; rewrite E in *.
  - destruct (decide (k = v)) as [->|Hne].
    + destruct Hk as [w [E|E]], Hl as [E'|E']; congruence.
    + by destruct (ad_alone _ _ HA k Hne).
Qed.

(** What remains to be shown of a step of [v]. *)
Lemma addressed_step v d s o s1 :
  addressed v s -> step v d s = Some (o, s1) -> o <> Some (Resumed v) ->
  responsive s1 v = true ->
  todo (threads s1 v) = [] \/ todo (threads s1 v) = [HandleIrqs] ->
  ~ missed s1 v -> addressed v s1.
Proof.
  intros [HI HE Ha Hal Hr Ht Hm] Hs Ho Hr1 Ht1 Hm1. split; try done.
  - by eapply ctl_inv_step.
  - by eapply events_inv_step.
  - by eapply asked_step.
  - intros k Hk. unfold loc. rewrite (own_threads _ _ _ _ _ k Hk Hs). by apply Hal.
Qed.

(** Perform the step of [v] at a known location. *)
Ltac advance Hstep d Hat Hfree Ha Hsgi :=
  eapply (Hstep d);
  [ unfold step, spin_lock; rewrite Hat; simpl; rewrite ?Hfree, ?Ha, ?Hsgi by auto; reflexivity
  | done
  | unfold missed, responsive, distance, loc; simpl; rewrite ?fn_lookup_insert; simpl; rewrite ?Hat ].
Ltac landed := right; split_and!; auto; try lia; try (by intros [_ [?|?]]).

Lemma addressed_progress v s :
  addressed v s -> cpu_suspended (cpus s v) = false ->
  exists s1, own_step v s s1 /\
    (suspended s1 v \/ addressed v s1 /\ (distance s1 v < distance s v)%nat).
Proof.
  intros HA Hc. pose proof (own_lock_free _ _ HA) as Hfree. pose proof (own_sgi _ _ HA Hc) as Hsgi.
  pose proof (ad_asked _ _ HA) as Ha. pose proof (ci_tested _ (ad_ctl _ _ HA) v) as HT.
  pose proof (ad_responsive _ _ HA) as Hr. pose proof (ad_todo _ _ HA) as Ht.
  pose proof (ad_noticed _ _ HA) as Hm.
  assert (forall d o s1, step v d s = Some (o, s1) -> o <> Some (Resumed v) ->
    (cpu_suspended (cpus s1 v) = true \/
     (responsive s1 v = true /\
      (todo (threads s1 v) = [] \/ todo (threads s1 v) = [HandleIrqs]) /\
      ~ missed s1 v /\ (distance s1 v < distance s v)%nat)) ->
    exists s1, own_step v s s1 /\
      (suspended s1 v \/ addressed v s1 /\ (distance s1 v < distance s v)%nat)) as Hstep.
  { intros d o s1 Hs Ho Hx. exists s1. split; [by exists d, o|].
    destruct Hx as [Hx|(H1 & H2 & H3 & H4)].
    - left. split; [by eapply asked_step|done].
    - right. split; [by eapply addressed_step|done]. }
  unfold loc in *. destruct (at_ (threads s v)) eqn:Hat.
  all: try (unfold responsive, loc in Hr; by rewrite Hat in Hr).
  all: try (by rewrite HT in Ha).
  all: try (exfalso; apply Hm; split; [done|unfold loc; rewrite Hat; auto]; fail).
  - advance Hstep Interrupt Hat Hfree Ha Hsgi. landed.
  - destruct Ht as [Ht|Ht].
    + eapply (Hstep Interrupt); [unfold step; rewrite Hat, Ht; reflexivity|done|].
      unfold missed, responsive, distance, loc; simpl. rewrite ?fn_lookup_insert; simpl.
      rewrite Hat, Ht. landed.
    + eapply (Hstep Interrupt);
        [unfold step, begin; rewrite Hat, Ht, Hsgi by auto; reflexivity|done|].
      unfold missed, responsive, distance, loc; simpl. rewrite ?fn_lookup_insert; simpl.
      rewrite Hat, Ht. landed.
  - advance Hstep Interrupt Hat Hfree Ha Hsgi. landed.
  - advance Hstep Interrupt Hat Hfree Ha Hsgi. by left.
  - advance Hstep Interrupt Hat Hfree Ha Hsgi. landed.
  - advance Hstep Interrupt Hat Hfree Ha Hsgi. landed.
  - advance Hstep Interrupt Hat Hfree Ha Hsgi. landed.
  - destruct (wait_for_poweron (cpus s v)) eqn:Hw; [|destruct reset].
    all: eapply (Hstep Interrupt); [unfold step; rewrite Hat, Hw; reflexivity|done|].
    all: unfold missed, responsive, distance, loc; simpl; rewrite ?fn_lookup_insert; simpl;
      rewrite ?Hat.
    all: destruct Ht as [Ht|Ht]; rewrite Ht; landed.
  - advance Hstep Interrupt Hat Hfree Ha Hsgi. landed.
  - advance Hstep Interrupt Hat Hfree Ha Hsgi. landed.
  - advance Hstep Interrupt Hat Hfree Ha Hsgi. landed.
  - advance Hstep Interrupt Hat Hfree Ha Hsgi. destruct Ht as [Ht|Ht]; rewrite Ht; landed.
Qed.

Lemma suspension_run v s :
  addressed v s -> exists s1, rtc (own_step v) s s1 /\ suspended s1 v.
Proof.
  remember (distance s v) as n eqn:Hn. revert s Hn.
  induction (lt_wf n) as [n _ IH]. intros s -> HA.
  destruct (cpu_suspended (cpus s v)) eqn:Hc.
  - exists s. split; [done|]. split; [apply HA|done].
  - destruct (addressed_progress _ _ HA Hc) as (s1 & Hs & [Hsu|[HA1 Hd]]).
    + exists s1. split; [by apply rtc_once|done].
    + destruct (IH _ Hd s1 eq_refl HA1) as (s2 & Hr & Hsu).
      exists s2. split; [by eapply rtc_l|done].
Qed.

Lemma own_run_threads v s s1 k : k <> v -> rtc (own_step v) s s1 -> threads s1 k = threads s k.
Proof.
  intros Hk Hr. induction Hr as [|s s2 s1 (d & o & Hs) _ IH]; [done|].
  rewrite IH. by eapply own_threads.
Qed.

(** C29: A CPU waits in [arch_suspend_cpu(v)]. From any reachable state steps of
    [v] alone lead to the acknowledgement, and then the call returns, provided
    that: the request stands, so nobody has resumed [v] since; no other CPU
    holds the control lock of [v] or is inside an operation on it, nor about to
    signal it; [v] is in its guest, in the interrupt handler, in the loop of
    [check_events] or on its way off, and not in a hypercall or a PSCI call of
    its own; and [v] has not gone past the test of [suspend_cpu] in
    [check_events] without seeing the request. *)
Theorem suspension_reached s0 tr s m v :
  initial s0 -> run s0 tr s -> m <> v ->
  loc s m = Suspend_spin v -> suspend_cpu (cpus s v) = true ->
  undisturbed s v -> responsive s v = true ->
  todo (threads s v) = [] \/ todo (threads s v) = [HandleIrqs] -> ~ missed s v ->
  exists s1, rtc (own_step v) s s1 /\ suspended s1 v /\
    forall d, exists s2, step m d s1 = Some (Some (Suspended m v), s2).
Proof.
  intros H0 Hr Hne Hm Ha Hu Hre Ht Hmi.
  assert (addressed v s) as HA.
  { split; eauto using ctl_inv_run, ctl_inv_initial, events_inv_run, events_inv_initial. }
  destruct (suspension_run _ _ HA) as (s1 & Hrun & Hsu). exists s1. split_and!; [done|done|].
  intros d. unfold loc in Hm. rewrite <- (own_run_threads _ _ _ _ Hne Hrun) in Hm.
  unfold step. rewrite Hm, (proj2 Hsu). eauto.
Qed.

(** ** Deadlocks *)

(** [m] waits for the acknowledgement of [v], which waits for the request to go. *)
Definition stuck_unacknowledged (m v : Z) (s : sys) : Prop :=
  loc s m = Suspend_spin v /\ loc s v = Ce_spin /\
  suspend_cpu (cpus s v) = true /\ cpu_suspended (cpus s v) = false.

Lemma stuck_unacknowledged_blocked m v s d :
  stuck_unacknowledged m v s -> step m d s = None /\ step v d s = None.
Proof. intros (Hm & Hv & Ha & Hc). unfold loc in *. unfold step. by rewrite Hm, Hv, Ha, Hc. Qed.

(** a CPU that is between the test of [check_events] and its loop when the
    request to suspend arrives spins in the loop without acknowledging, and the
    CPU that asked waits for it: neither makes a step again, whatever the other
    CPUs do, until a third one withdraws the request. *)
Theorem missed_suspension_deadlock s0 tr0 s tr s1 m v :
  initial s0 -> run s0 tr0 s ->
  stuck_unacknowledged m v s -> run s tr s1 -> Resumed v ∉ tr ->
  stuck_unacknowledged m v s1 /\ forall d, step m d s1 = None /\ step v d s1 = None.
Proof.
  intros H0 Hr0 HS Hr Hno.
  assert (ctl_inv s) as HI by eauto using ctl_inv_run, ctl_inv_initial.
  assert (stuck_unacknowledged m v s1) as HS1;
    [|split; [done|]; intros d; by apply stuck_unacknowledged_blocked].
  eapply (run_invariant _ (fun l => l = Resumed v)); [|exact HI|exact HS|exact Hr|].
  - clear. intros c d s o s1 HI HS Hs Hb.
    destruct (stuck_unacknowledged_blocked _ _ _ d HS) as [Hbm Hbv].
    destruct (decide (c = v)) as [->|Hcv]; [congruence|].
    destruct (decide (c = m)) as [->|Hcm]; [congruence|].
    destruct HS as (Hm & Hv & Ha & Hc).
    destruct (other_step _ _ _ _ _ _ Hcv (ci_locked _ HI) Hs) as [Hlv Hcv' _ _ _ _ _].
    destruct (other_step _ _ _ _ _ _ Hcm (ci_locked _ HI) Hs) as [Hlm _ _ _ _ _ _].
    split_and!; [congruence|congruence| |congruence].
    eapply asked_step; [exact Ha|exact Hs|]. intros ->. by eapply Hb.
  - apply Forall_forall. intros l Hl ->. by apply Hno.
Qed.

(** Two CPUs that suspend each other never return. *)
Theorem crossed_suspension_deadlock s0 tr0 s tr s1 m v :
  initial s0 -> run s0 tr0 s ->
  loc s m = Suspend_spin v -> loc s v = Suspend_spin m ->
  run s tr s1 ->
  loc s1 m = Suspend_spin v /\ loc s1 v = Suspend_spin m /\
  forall d, step m d s1 = None /\ step v d s1 = None.
Proof.
  intros H0 Hr0 Hm Hv Hr.
  assert (ctl_inv s) as HI by eauto using ctl_inv_run, ctl_inv_initial.
  assert (forall s, ctl_inv s -> loc s m = Suspend_spin v -> loc s v = Suspend_spin m ->
            forall d, step m d s = None /\ step v d s = None) as Hb.
  { clear. intros s HI Hm Hv d. pose proof (ci_waiting _ HI) as HW. unfold waiting_inv, loc in *.
    destruct (cpu_suspended (cpus s v)) eqn:Ev; [by specialize (HW v Ev); rewrite Hv in HW|].
    destruct (cpu_suspended (cpus s m)) eqn:Em; [by specialize (HW m Em); rewrite Hm in HW|].
    unfold step. by rewrite Hm, Hv, Ev, Em. }
  assert (loc s1 m = Suspend_spin v /\ loc s1 v = Suspend_spin m) as [Hm1 Hv1].
  { eapply (run_invariant (fun s => loc s m = Suspend_spin v /\ loc s v = Suspend_spin m)
      (fun _ => False)); [|exact HI|done|exact Hr|apply Forall_true; tauto].
    intros c d s2 o s3 HI2 [Hm2 Hv2] Hs _. destruct (Hb s2 HI2 Hm2 Hv2 d) as [Hbm Hbv].
    destruct (decide (c = v)) as [->|Hcv]; [congruence|].
    destruct (decide (c = m)) as [->|Hcm]; [congruence|].
    destruct (other_step _ _ _ _ _ _ Hcv (ci_locked _ HI2) Hs) as [-> _ _ _ _ _ _].
    by destruct (other_step _ _ _ _ _ _ Hcm (ci_locked _ HI2) Hs) as [-> _ _ _ _ _ _]. }
  split_and!; [done|done|]. apply Hb; eauto using ctl_inv_run.
Qed.
