(* ===== verification/CpuExamples.v ===== *)
(** * Suspending, parking and resetting CPUs: schedules

    Concrete schedules of a few CPUs, executed. They witness the theorems of
    [CpuSuspend] and [CpuProgress], and show two requests that are lost when a
    CPU is parked. *)

From Stdlib Require Import ZArith Lia.
From stdpp Require Import base tactics list option functions relations.
From S2P Require Import Prelude Cell CpuControl CpuSuspend CpuProgress.

(** ** Executing schedules *)

Definition trace (sched : list (Z * decision)) (s : sys) : list label :=
  default [] (fst <$> execute sched s).
Definition final (sched : list (Z * decision)) (s : sys) : sys :=
  default s (snd <$> execute sched s).
Definition runs (sched : list (Z * decision)) (s : sys) : bool := bool_decide (is_Some (execute sched s)).

Lemma executed sched s : runs sched s = true -> run s (trace sched s) (final sched s).
Proof.
  intros [[tr s1] H]%bool_decide_eq_true. unfold trace, final. rewrite H. by apply (execute_run sched).
Qed.

(** Only the CPUs of the schedule move. *)
Lemma execute_threads sched s k : k ∉ sched.*1 -> threads (final sched s) k = threads s k.
Proof.
  unfold final. destruct (execute sched s) as [[tr s1]|] eqn:He; [simpl|done].
  revert s tr He. induction sched as [|[c d] sched IH]; intros s tr He Hk; simpl in *.
  - by simplify_eq.
  - apply not_elem_of_cons in Hk as [Hc Hk].
    destruct (step c d s) as [[o s0]|] eqn:Hs; [|done]. simpl in He.
    destruct (execute sched s0) as [[tr0 s2]|] eqn:He0; [|done]. simplify_eq/=.
    rewrite (IH _ _ He0 Hk). by eapply own_threads.
Qed.

(** [c] makes [n] steps; the decision only matters for a CPU in its guest. *)
Definition by_cpu (c : Z) (n : nat) : list (Z * decision) := replicate n (c, Interrupt).

(** All CPUs are in their guests; those from 1 on are off. *)
Definition boot : sys :=
  mk_sys (fun c => mk_per_cpu false (0 <? c) false false false false 0 0
            (mk_guest (replicate NUM_USR_REGS 7) (fun _ => 7) (if 0 <? c then ParkingMm else CellMm)))
         (fun _ => None) (fun _ => false) (fun _ => mk_thread Guest Irq [] 0).

Lemma boot_initial : initial boot.
Proof. by split. Qed.

(** Labels that do not occur, without comparing guests. *)
Definition is_resumed (v : Z) (l : label) : bool :=
  match l with Resumed c => c =? v | _ => false end.
Definition is_requested (v : Z) (l : label) : bool :=
  match l with Requested c => c =? v | _ => false end.
Definition is_park (v : Z) (l : label) : bool :=
  match l with ParkRequested c => c =? v | _ => false end.
Definition is_entered (v : Z) (l : label) : bool :=
  match l with Entered c _ => c =? v | _ => false end.

Lemma absent (p : label -> bool) (l : label) (tr : list label) :
  p l = true -> existsb p tr = false -> l ∉ tr.
Proof.
  intros Hl Hp Hin%list_elem_of_In. enough (existsb p tr = true) by congruence.
  apply existsb_exists. eauto.
Qed.

(** CPU 0 suspends CPU 1, then flushes. *)
Definition demo_suspend : list (Z * decision) :=
  (0, Hypercall [Suspend 1; FlushVcpu 0]) :: by_cpu 0 4 ++ by_cpu 1 4 ++ by_cpu 0 2.

Lemma suspended_excluded_witness :
  Ran 1 ∉ [Flushed 0] /\ (forall g, Entered 1 g ∉ [Flushed 0]) /\
  suspended (final demo_suspend boot) 1.
Proof.
  apply (suspended_excluded boot [] 0 1 [] [Flushed 0]).
  - exact boot_initial.
  - assert (trace demo_suspend boot = [Suspending 0 1; Suspended 0 1; Flushed 0]) as Ht
      by (vm_compute; reflexivity).
    simpl. rewrite <- Ht. apply executed. vm_compute; reflexivity.
  - by apply (absent (is_resumed 1)).
Defined.

(** Up to the request to park CPU 1, and what follows. *)
Definition demo_park_asked : list (Z * decision) :=
  (0, Hypercall [Suspend 1; Park 1]) :: by_cpu 0 4 ++ by_cpu 1 5 ++ by_cpu 0 2.
Definition demo_park_done : list (Z * decision) := by_cpu 0 4 ++ by_cpu 1 14.

Lemma parked_stays_off_witness :
  let s := final demo_park_asked boot in let s1 := final demo_park_done s in
  (forall g, Entered 1 g ∈ trace demo_park_done s -> mm g = ParkingMm) /\
  (loc s1 1 = Guest -> wait_for_poweron (cpus s1 1) = true /\ mm (vcpu (cpus s1 1)) = ParkingMm).
Proof.
  intros s s1.
  apply (parked_stays_off boot (trace demo_park_asked boot) s (trace demo_park_done s) s1 1).
  - exact boot_initial.
  - apply executed. vm_compute; reflexivity.
  - split; vm_compute; reflexivity.
  - vm_compute; reflexivity.
  - vm_compute; reflexivity.
  - apply executed. vm_compute; reflexivity.
  - apply (absent (is_requested 1)); vm_compute; reflexivity.
Defined.

(** CPU 1 waits in PSCI_CPU_SUSPEND when it is suspended and reset. *)
Definition demo_reset_asked : list (Z * decision) :=
  (1, Psci_cpu_suspend) :: (0, Hypercall [Suspend 1; SetEntry 1 4096; Reset 1]) ::
  by_cpu 0 4 ++ by_cpu 1 4 ++ by_cpu 0 3.
Definition demo_reset_done : list (Z * decision) := by_cpu 0 4 ++ by_cpu 1 11.

(** It starts at 4100, not at its entry 4096. *)
Lemma reset_starts_at_entry_witness :
  exists g, trace demo_reset_done (final demo_reset_asked boot) =
            trace (by_cpu 0 4) (final demo_reset_asked boot) ++ [Entered 1 g] /\
    ((Smc = Irq /\ starts_at 4096 0 g) \/ (Smc = Smc /\ starts_at (u64 (4096 + 4)) 0 g)).
Proof.
  set (s := final demo_reset_asked boot).
  assert (run s (trace demo_reset_done s) (final demo_reset_done s)) as Hr
    by (apply executed; vm_compute; reflexivity).
  assert (exists g, trace demo_reset_done s = trace (by_cpu 0 4) s ++ [Entered 1 g]) as [g Hg]
    by (eexists; vm_compute; reflexivity).
  exists g. split; [exact Hg|]. rewrite Hg in Hr.
  apply (reset_starts_at_entry boot (trace demo_reset_asked boot) s (trace (by_cpu 0 4) s) g []
           (final demo_reset_done s) 1).
  - exact boot_initial.
  - apply executed. vm_compute; reflexivity.
  - split; vm_compute; reflexivity.
  - vm_compute; reflexivity.
  - vm_compute; reflexivity.
  - vm_compute; discriminate.
  - exact Hr.
  - apply (absent (is_requested 1)); vm_compute; reflexivity.
  - apply (absent (is_park 1)); vm_compute; reflexivity.
  - intros g'. apply (absent (is_entered 1)); vm_compute; reflexivity.
Defined.

(** CPU 0 has sent the signal and waits; CPU 1 is in its guest. *)
Definition demo_kicked : list (Z * decision) := (0, Hypercall [Suspend 1]) :: by_cpu 0 4.

Lemma boot_undisturbed sched v :
  (forall c, c ∈ sched.*1 -> c = 0 \/ c = 1) ->
  lock_of (loc (final sched boot) 0) 0 <> Some v -> ~ will_kick v (loc (final sched boot) 0) ->
  v = 1 -> undisturbed (final sched boot) v.
Proof.
  intros Hc Hl Hk -> k Hne. destruct (decide (k = 0)) as [->|Hk0]; [done|].
  unfold loc. rewrite execute_threads; [|by intros [?|?]%Hc].
  split; [done|]. by intros [w [?|?]].
Qed.

Lemma suspension_reached_witness :
  let s := final demo_kicked boot in
  exists s1, rtc (own_step 1) s s1 /\ suspended s1 1 /\
    forall d, exists s2, step 0 d s1 = Some (Some (Suspended 0 1), s2).
Proof.
  intros s. apply (suspension_reached boot (trace demo_kicked boot) s 0 1).
  - exact boot_initial.
  - apply executed. vm_compute; reflexivity.
  - discriminate.
  - vm_compute; reflexivity.
  - vm_compute; reflexivity.
  - apply boot_undisturbed; [|by vm_compute| |done].
    + intros c Hc. revert c Hc. apply Forall_forall. vm_compute. repeat (constructor; [by left|]). constructor.
    + intros [w [H|H]]; vm_compute in H; discriminate.
  - vm_compute; reflexivity.
  - left. vm_compute; reflexivity.
  - intros [_ [H|H]]; vm_compute in H; discriminate.
Defined.

(** CPU 1 handles the signal of CPU_ON when it is asked to suspend. *)
Definition demo_missed : list (Z * decision) :=
  (0, Psci_cpu_on 1 4096 5) :: by_cpu 0 5 ++ by_cpu 1 5 ++
  (0, Hypercall [Suspend 1]) :: by_cpu 0 4.
Definition demo_third : list (Z * decision) := (2, Hypercall [FlushVcpu 2; Park 3]) :: by_cpu 2 6.

Lemma missed_suspension_deadlock_witness :
  let s1 := final demo_third (final demo_missed boot) in
  stuck_unacknowledged 0 1 s1 /\ forall d, step 0 d s1 = None /\ step 1 d s1 = None.
Proof.
  intros s1. apply (missed_suspension_deadlock boot (trace demo_missed boot)
    (final demo_missed boot) (trace demo_third (final demo_missed boot)) s1 0 1).
  - exact boot_initial.
  - apply executed. vm_compute; reflexivity.
  - split_and!; vm_compute; reflexivity.
  - apply executed. vm_compute; reflexivity.
  - apply (absent (is_resumed 1)); vm_compute; reflexivity.
Defined.

(** ** Requests that outlive a parked CPU *)

(** CPU 0 powers CPU 1 on; before it starts, CPU 2 suspends and parks it. *)
Definition demo_restart_park : list (Z * decision) :=
  (0, Psci_cpu_on 1 4096 5) :: by_cpu 0 5 ++ by_cpu 1 2 ++
  (2, Hypercall [Suspend 1; Park 1]) :: by_cpu 2 3 ++ by_cpu 1 3 ++ by_cpu 2 7.

(** Parking does not cancel a power-on that is in progress. When the signal
    of the suspension arrives while the CPU handles that of the power-on, the
    CPU is parked and then started in the memory of its cell, although nobody
    asked for it after it was parked. *)
Theorem parked_cpu_restarts :
  exists s tr s1 g,
    run boot tr s /\ park (cpus s 1) = true /\ suspend_cpu (cpus s 1) = false /\
    run s [Entered 1 g] s1 /\ loc s1 1 = Guest /\ starts_at 4096 5 g.
Proof.
  set (s := final demo_restart_park boot).
  assert (run s (trace (by_cpu 1 27) s) (final (by_cpu 1 27) s)) as Hr
    by (apply executed; vm_compute; reflexivity).
  set (g := enter_parking_mm (arm_cpu_reset 0 5 (vcpu (cpus boot 1)))).
  assert (trace (by_cpu 1 27) s = [Entered 1 (arm_cpu_reset 4096 5 g)]) as Hg
    by (vm_compute; reflexivity).
  rewrite Hg in Hr. exists s, (trace demo_restart_park boot), (final (by_cpu 1 27) s), (arm_cpu_reset 4096 5 g).
  split; [apply executed; vm_compute; reflexivity|].
  split; [vm_compute; reflexivity|]. split; [vm_compute; reflexivity|].
  split; [exact Hr|]. split; [vm_compute; reflexivity|]. apply arm_cpu_reset_starts.
Qed.

(** The creation of a cell fails after its CPU 1 was parked: the clean-up parks
    it a second time. Then CPU 0 powers it on. *)
Definition demo_failed_create : list (Z * decision) :=
  (0, Hypercall [Suspend 1; Park 1; Park 1; SetEntry 1 PSCI_INVALID_ADDRESS]) ::
  by_cpu 0 4 ++ by_cpu 1 5 ++ by_cpu 0 5 ++ by_cpu 1 14 ++ by_cpu 0 6.
Definition demo_power_on : list (Z * decision) :=
  (0, Psci_cpu_on 1 4096 5) :: by_cpu 0 5 ++ by_cpu 1 19.

(** parking a CPU that is already off leaves the request behind. The next
    power-on reports success, but its signal only serves the old request: the
    CPU is still off afterwards, no signal is pending, and nothing starts it. *)
Theorem stale_park_loses_power_on :
  exists tr s s1,
    run boot tr s /\
    loc s 1 = Guest /\ wait_for_poweron (cpus s 1) = true /\ park (cpus s 1) = true /\
    (exists tr1, run s tr1 s1 /\ Requested 1 ∈ tr1) /\
    usr (vcpu (cpus s1 0)) !! 0%nat = Some PSCI_SUCCESS /\
    loc s1 1 = Guest /\ wait_for_poweron (cpus s1 1) = true /\
    mm (vcpu (cpus s1 1)) = ParkingMm /\ sgi_event s1 1 = false.
Proof.
  exists (trace demo_failed_create boot), (final demo_failed_create boot),
    (final demo_power_on (final demo_failed_create boot)).
  split; [apply executed; vm_compute; reflexivity|].
  split; [vm_compute; reflexivity|]. split; [vm_compute; reflexivity|].
  split; [vm_compute; reflexivity|]. split; [|split_and!; vm_compute; reflexivity].
  exists (trace demo_power_on (final demo_failed_create boot)).
  split; [apply executed; vm_compute; reflexivity|].
  assert (head (trace demo_power_on (final demo_failed_create boot)) = Some (Requested 1)) as Hh
    by (vm_compute; reflexivity).
  apply head_Some in Hh as [tl ->]. left.
Qed.
