(* ===== verification/Psci.v ===== *)
(** * Hypervisor: the PSCI calls of a guest

    [psci_dispatch] (arch/arm-common/psci.c) with the handler of the SMC
    instruction (arch/arm64/traps.c): which call a guest makes and which CPU it
    is about. What the call then does with the CPU is a decision of the
    transition system of [CpuControl]. The theorems say that a guest reaches
    the CPUs of its own cell only, and what each call answers. *)

From Stdlib Require Import ZArith Lia.
From stdpp Require Import base tactics list option list_numbers.
From S2P Require Import Prelude Cell CpuControl.

(** ** The calls *)

Definition PSCI_VERSION : Z := 0x84000000.
Definition PSCI_CPU_SUSPEND_32 : Z := 0x84000001.
Definition PSCI_CPU_SUSPEND_64 : Z := 0xc4000001.
Definition PSCI_CPU_OFF : Z := 0x84000002.
Definition PSCI_CPU_ON_32 : Z := 0x84000003.
Definition PSCI_CPU_ON_64 : Z := 0xc4000003.
Definition PSCI_AFFINITY_INFO_32 : Z := 0x84000004.
Definition PSCI_AFFINITY_INFO_64 : Z := 0xc4000004.
Definition PSCI_CPU_OFF_V0_1_UBOOT : Z := 0x95c1ba5f.
Definition PSCI_CPU_ON_V0_1_UBOOT : Z := 0x95c1ba60.
Definition IS_PSCI_32 (hvc : Z) : bool := Z.shiftr hvc 24 =? 0x84.
Definition IS_PSCI_64 (hvc : Z) : bool := Z.shiftr hvc 24 =? 0xc4.

Definition MPIDR_CPUID_MASK : Z := 0xff00ffffff.

(** [arm_cpu_by_mpidr] (lib.c); [None] is -1. [mpidr] are the registers of the CPUs. *)
Fixpoint find_mpidr (l : list Z) (mpidr : Z -> Z) (id : Z) : option Z :=
  match l with
  | [] => None
  | cpu :: l => if id =? Z.land (mpidr cpu) MPIDR_CPUID_MASK then Some cpu else find_mpidr l mpidr id
  end.
Definition arm_cpu_by_mpidr (set : cpu_set) (mpidr : Z -> Z) (id : Z) : option Z :=
  l ← for_each_cpu set; find_mpidr l mpidr id.

(** What a call does: it returns a value at once, or takes a decision of [step]. *)
Definition psci_dispatch (set : cpu_set) (mpidr : Z -> Z) (pending_irqs : bool)
    (x0 x1 x2 x3 : Z) : Z + decision :=
  let function_id := u32 x0 in
  let mask := if IS_PSCI_64 x0 then u64 (-1) else u32 (-1) in
  if function_id =? PSCI_VERSION then inl 2
  else if (function_id =? PSCI_CPU_SUSPEND_32) || (function_id =? PSCI_CPU_SUSPEND_64) then
    if pending_irqs then inl 0 else inr Psci_cpu_suspend
  else if (function_id =? PSCI_CPU_OFF) || (function_id =? PSCI_CPU_OFF_V0_1_UBOOT) then
    inr Psci_cpu_off
  else if (function_id =? PSCI_CPU_ON_32) || (function_id =? PSCI_CPU_ON_64)
          || (function_id =? PSCI_CPU_ON_V0_1_UBOOT) then
    match arm_cpu_by_mpidr set mpidr (Z.land x1 mask) with
    | None => inl PSCI_DENIED
    | Some cpu => inr (Psci_cpu_on cpu (Z.land x2 mask) (Z.land x3 mask))
    end
  else if (function_id =? PSCI_AFFINITY_INFO_32) || (function_id =? PSCI_AFFINITY_INFO_64) then
    match arm_cpu_by_mpidr set mpidr x1 with
    | None => inl PSCI_DENIED
    | Some cpu => inr (Psci_affinity_info cpu)
    end
  else inl PSCI_NOT_SUPPORTED.

(** ** The targets of a call *)

Lemma find_mpidr_Some l mpidr id cpu :
  find_mpidr l mpidr id = Some cpu -> cpu ∈ l /\ id = Z.land (mpidr cpu) MPIDR_CPUID_MASK.
Proof.
  induction l as [|c l IH]; simpl; [done|]. zcase.
  - intros [= <-]. split; [left|done].
  - intros [? ?]%IH. split; [by right|done].
Qed.

Lemma find_mpidr_None l mpidr id :
  find_mpidr l mpidr id = None -> forall cpu, cpu ∈ l -> Z.land (mpidr cpu) MPIDR_CPUID_MASK <> id.
Proof.
  induction l as [|c l IH]; simpl; [by intros _ ? ?%elem_of_nil|]. zcase; [done|].
  intros Hn cpu [->|Hin]%elem_of_cons; [congruence|by apply IH].
Qed.

Definition names (set : cpu_set) (mpidr : Z -> Z) (id cpu : Z) : Prop :=
  in_set set cpu /\ id = Z.land (mpidr cpu) MPIDR_CPUID_MASK.

(** The lookup returns a CPU of the cell with this id, if there is one. *)
Lemma arm_cpu_by_mpidr_spec set mpidr id :
  cpu_set_ok set ->
  match arm_cpu_by_mpidr set mpidr id with
  | Some cpu => names set mpidr id cpu
  | None => forall cpu, ~ names set mpidr id cpu
  end.
Proof.
  intros Hok. unfold arm_cpu_by_mpidr.
  destruct (elem_of_for_each_cpu set 0 Hok) as (l & Hl & _). rewrite Hl. simpl.
  assert (forall cpu, cpu ∈ l <-> in_set set cpu) as Hin.
  { intros cpu. destruct (elem_of_for_each_cpu set cpu Hok) as (l' & Hl' & H). congruence. }
  destruct (find_mpidr l mpidr id) as [cpu|] eqn:Hf.
  - apply find_mpidr_Some in Hf as [Hc ->]. split; [by apply Hin|done].
  - intros cpu [Hc%Hin ->]. by eapply find_mpidr_None.
Qed.

(** The CPUs that a call is about. *)
Definition call_target (d : Z + decision) : option Z :=
  match d with
  | inr (Psci_cpu_on cpu _ _) => Some cpu
  | inr (Psci_affinity_info cpu) => Some cpu
  | _ => None
  end.

(** a PSCI call of a guest concerns a CPU of its own cell only, the one the
    call names; a power-on of any other CPU is denied and does nothing. *)
Theorem psci_confined set mpidr pending x0 x1 x2 x3 :
  cpu_set_ok set ->
  let r := psci_dispatch set mpidr pending x0 x1 x2 x3 in
  let id := if IS_PSCI_64 x0 then u64 x1 else u32 x1 in
  (forall cpu, call_target r = Some cpu -> in_set set cpu) /\
  (u32 x0 = PSCI_CPU_ON_32 \/ u32 x0 = PSCI_CPU_ON_64 ->
   match r with
   | inr (Psci_cpu_on cpu _ _) => names set mpidr id cpu
   | _ => r = inl PSCI_DENIED /\ forall cpu, ~ names set mpidr id cpu
   end).
Proof.
  intros Hok r id.
  assert (Z.land x1 (if IS_PSCI_64 x0 then u64 (-1) else u32 (-1)) = id) as Hid.
  { unfold id. destruct (IS_PSCI_64 x0).
    - change (u64 (-1)) with (Z.ones 64). by rewrite Z.land_ones.
    - change (u32 (-1)) with (Z.ones 32). by rewrite Z.land_ones. }
  pose proof (arm_cpu_by_mpidr_spec set mpidr id Hok) as Hon.
  pose proof (arm_cpu_by_mpidr_spec set mpidr x1 Hok) as Haff.
  unfold r, psci_dispatch. rewrite Hid. split.
  - intros cpu. destruct (_ =? PSCI_VERSION); [done|]. destruct (_ || _); [by destruct pending|].
    destruct (_ || _); [done|]. destruct (_ || _).
    + destruct (arm_cpu_by_mpidr set mpidr id); [|done]. intros [= <-]. apply Hon.
    + destruct (_ || _); [|done].
      destruct (arm_cpu_by_mpidr set mpidr x1); [|done]. intros [= <-]. apply Haff.
  - intros Hf.
    assert ((u32 x0 =? PSCI_VERSION) = false) as -> by by destruct Hf as [-> | ->].
    assert ((u32 x0 =? PSCI_CPU_SUSPEND_32) || (u32 x0 =? PSCI_CPU_SUSPEND_64) = false) as ->
      by by destruct Hf as [-> | ->].
    assert ((u32 x0 =? PSCI_CPU_OFF) || (u32 x0 =? PSCI_CPU_OFF_V0_1_UBOOT) = false) as ->
      by by destruct Hf as [-> | ->].
    assert ((u32 x0 =? PSCI_CPU_ON_32) || (u32 x0 =? PSCI_CPU_ON_64)
            || (u32 x0 =? PSCI_CPU_ON_V0_1_UBOOT) = true) as -> by by destruct Hf as [-> | ->].
    destruct (arm_cpu_by_mpidr set mpidr id); [exact Hon|split; [reflexivity|exact Hon]].
Qed.

Lemma psci_confined_witness :
  let set := mk_cpu_set 63 6 in
  let r := psci_dispatch set (fun c => 0x80000000 + c) false PSCI_CPU_ON_64 3 4096 0 in
  r = inl PSCI_DENIED /\ (forall cpu, call_target r = Some cpu -> in_set set cpu).
Proof.
  intros set r. split; [vm_compute; reflexivity|].
  assert (cpu_set_ok set) as Hok by (unfold cpu_set_ok; simpl; lia).
  exact (proj1 (psci_confined set (fun c => 0x80000000 + c) false PSCI_CPU_ON_64 3 4096 0 Hok)).
Defined.
