(* ===== verification/Management.v ===== *)
(** * Hypervisor: cell management

    Models the management hypercalls of hypervisor/control.c: creating,
    starting, shutting down for loading, destroying a cell and asking for its
    state, with the message exchange, the hand-over of memory regions between
    root cell and cell, and every error path.

    A cell is known by the id of its configuration, which is unique
    ([cell_create] refuses a second one): the pointer [per_cpu(cpu)->cell] is
    the field [cell_of]. What the management calls do with CPUs is written to
    [events] as operations of [CpuControl], together with the changes of
    memory maps and CPU assignment, so that theorems can speak about their
    order. The memory maps themselves ([CellMemory]), the devices, the
    allocator and the communication page, which the guest writes concurrently,
    are the platform: a record of operations on a state of its own, over all of
    which the theorems quantify. The build is the one without cache coloring. *)

From Stdlib Require Import ZArith Lia String.
From stdpp Require Import base tactics list option strings.
From S2P Require Import Prelude StateMonad Cell CpuControl Mmio Irqchip Bitops PagePool Paging.

Definition EPERM : Z := 1.
Definition ENOENT : Z := 2.

Definition JAILHOUSE_MEM_LOADABLE : Z := 64.
Definition JAILHOUSE_MEM_ROOTSHARED : Z := 128.
Definition JAILHOUSE_CELL_PASSIVE_COMMREG : Z := 1.

Definition JAILHOUSE_MSG_NONE : Z := 0.
Definition JAILHOUSE_MSG_SHUTDOWN_REQUEST : Z := 1.
Definition JAILHOUSE_MSG_RECONFIG_COMPLETED : Z := 2.
Definition JAILHOUSE_MSG_REQUEST_APPROVED : Z := 3.
Definition JAILHOUSE_MSG_RECEIVED : Z := 4.

Definition JAILHOUSE_CELL_RUNNING : Z := 0.
Definition JAILHOUSE_CELL_RUNNING_LOCKED : Z := 1.
Definition JAILHOUSE_CELL_SHUT_DOWN : Z := 2.
Definition JAILHOUSE_CELL_FAILED : Z := 3.
Definition JAILHOUSE_CELL_FAILED_COMM_REV : Z := 4.

Inductive msg_type := MSG_REQUEST | MSG_INFORMATION.
Inductive management_task := CELL_START | CELL_SET_LOADABLE | CELL_DESTROY.
Inductive failure_mode := ABORT_ON_ERROR | WARN_ON_ERROR.
#[global] Instance msg_type_eq_dec : EqDecision msg_type.
Proof. solve_decision. Defined.
#[global] Instance management_task_eq_dec : EqDecision management_task.
Proof. solve_decision. Defined.
#[global] Instance failure_mode_eq_dec : EqDecision failure_mode.
Proof. solve_decision. Defined.

(** ** Data *)

(** [struct jailhouse_cell_desc] and what follows it in memory. *)
Record cell_config := mk_cell_config {
  cfg_name : string;
  cfg_id : Z;
  cfg_flags : Z;
  cpu_set_size : Z;                          (* in bytes *)
  config_cpu_set : Z;
  reset_address : Z;
  msg_reply_timeout : Z;
  mem_regions : list jailhouse_memory;
  config_size : Z;                           (* jailhouse_cell_config_size *)
}.

Record mcell := mk_mcell {
  m_config : cell_config;
  m_cpus : cpu_set;
  loadable : bool;
}.

Definition m_id (c : mcell) : Z := cfg_id (m_config c).
Definition set_loadable (b : bool) (c : mcell) : mcell := mk_mcell (m_config c) (m_cpus c) b.
Definition set_bitmap (b : Z) (c : mcell) : mcell :=
  mk_mcell (m_config c) (mk_cpu_set (max_cpu_id (m_cpus c)) b) (loadable c).

Inductive event :=
| Ctl (o : op)                                   (* an operation on a CPU *)
| MemoryChanged (cell : Z) (mem : jailhouse_memory)
| OwnerChanged (cpu cell : Z)
| Committed.                                     (* arch and PCI configuration *)

(** [struct unit]: the devices of the hypervisor. *)
Record unit_ops (E : Type) := mk_unit_ops {
  unit_cell_init : Z -> E -> Z * E;
  unit_cell_exit : Z -> E -> E;
}.
Arguments unit_cell_init {E}.
Arguments unit_cell_exit {E}.

(** The operations of other parts on the state [E] they own. The number is the
    id of the cell. *)
Record platform (E : Type) := mk_platform {
  p_map_region : Z -> jailhouse_memory -> E -> Z * E;         (* arch_map_memory_region *)
  p_unmap_region : Z -> jailhouse_memory -> E -> Z * E;       (* arch_unmap_memory_region *)
  p_subpage_register : Z -> jailhouse_memory -> E -> Z * E;   (* mmio_subpage_register *)
  p_subpage_unregister : Z -> jailhouse_memory -> E -> E;
  p_mmio_cell_init : Z -> E -> Z * E;
  p_mmio_cell_exit : Z -> E -> E;
  p_arch_cell_create : Z -> E -> Z * E;                       (* arm_paging_cell_init, tdma *)
  p_arch_cell_destroy : Z -> E -> E;                          (* caches, arm_paging_cell_destroy *)
  p_arch_cell_reset : Z -> E -> E;                            (* caches, irqchip, PCI *)
  p_commit : option Z -> E -> E;
  p_units : list (unit_ops E);
  p_alloc : Z -> E -> bool * E;                               (* page_alloc(&mem_pool, n) *)
  p_free : Z -> E -> E;
  p_get_pages : Z -> Z -> E -> bool * E;                      (* paging_get_guest_pages *)
  p_config : Z -> E -> cell_config;                           (* what is mapped there *)
  p_send : Z -> Z -> E -> E;                                  (* jailhouse_send_msg_to_cell *)
  p_poll : Z -> E -> (Z * Z) * E;                             (* reply_from_cell, cell_state *)
  p_suspended : Z -> E -> bool * E;                           (* reads cpu_suspended of a CPU *)
  p_cell_state : Z -> E -> Z;
  p_set_cell_state : Z -> Z -> E -> E;
  p_clear_comm_page : Z -> E -> E;
  p_sizeof_cell : Z;
  p_sizeof_desc : Z;
}.
Arguments p_map_region {E}. Arguments p_unmap_region {E}. Arguments p_subpage_register {E}.
Arguments p_subpage_unregister {E}. Arguments p_mmio_cell_init {E}. Arguments p_mmio_cell_exit {E}.
Arguments p_arch_cell_create {E}. Arguments p_arch_cell_destroy {E}. Arguments p_arch_cell_reset {E}.
Arguments p_commit {E}. Arguments p_units {E}. Arguments p_alloc {E}. Arguments p_free {E}.
Arguments p_get_pages {E}. Arguments p_config {E}. Arguments p_send {E}. Arguments p_poll {E}.
Arguments p_suspended {E}. Arguments p_cell_state {E}. Arguments p_set_cell_state {E}. Arguments p_clear_comm_page {E}.
Arguments p_sizeof_cell {E}. Arguments p_sizeof_desc {E}.

Record hv (E : Type) := mk_hv {
  root_cell : mcell;
  other_cells : list mcell;        (* root_cell.next, ... *)
  num_cells : Z;
  cell_of : Z -> Z;                (* per_cpu(cpu)->cell *)
  failed : Z -> bool;
  stats : Z -> list Z;
  env : E;
  events : list event;
}.
Arguments mk_hv {E}. Arguments root_cell {E}. Arguments other_cells {E}. Arguments num_cells {E}.
Arguments cell_of {E}. Arguments failed {E}. Arguments stats {E}. Arguments env {E}.
Arguments events {E}.

Section Management.
Context {E : Type} (P : platform E) (patience : nat).
Notation H := (hv E).
Notation HV := (ST H).

Definition set_root (c : mcell) (s : H) : H :=
  mk_hv c (other_cells s) (num_cells s) (cell_of s) (failed s) (stats s) (env s) (events s).
Definition set_cells (l : list mcell) (n : Z) (s : H) : H :=
  mk_hv (root_cell s) l n (cell_of s) (failed s) (stats s) (env s) (events s).
Definition set_cell_of (f : Z -> Z) (s : H) : H :=
  mk_hv (root_cell s) (other_cells s) (num_cells s) f (failed s) (stats s) (env s) (events s).
Definition set_failed (f : Z -> bool) (s : H) : H :=
  mk_hv (root_cell s) (other_cells s) (num_cells s) (cell_of s) f (stats s) (env s) (events s).
Definition set_stats (f : Z -> list Z) (s : H) : H :=
  mk_hv (root_cell s) (other_cells s) (num_cells s) (cell_of s) (failed s) f (env s) (events s).
Definition set_env (e : E) (s : H) : H :=
  mk_hv (root_cell s) (other_cells s) (num_cells s) (cell_of s) (failed s) (stats s) e (events s).
Definition add_event (v : event) (s : H) : H :=
  mk_hv (root_cell s) (other_cells s) (num_cells s) (cell_of s) (failed s) (stats s) (env s)
    (events s ++ [v]).

Definition emit (v : event) : HV unit := modify (add_event v).
Definition platform_op {A} (f : E -> A * E) : HV A := fun s =>
  let '(x, e) := f (env s) in Some (x, set_env e s).
Definition platform_do (f : E -> E) : HV unit := modify (fun s => set_env (f (env s)) s).
Definition platform_get {A} (f : E -> A) : HV A := gets (fun s => f (env s)).
Definition get : HV H := gets (fun s => s).
Definition lift {A} (o : option A) : HV A := from_option (fun _ => o).

Fixpoint for_each {A} (l : list A) (f : A -> HV unit) : HV unit :=
  match l with [] => mret tt | x :: l => _ ← f x; for_each l f end.

(** ** CPUs *)

(** The loop that waits for the target; [fuel] is the number of times it looks. *)
Fixpoint suspend_wait (fuel : nat) (cpu : Z) : HV unit :=
  match fuel with
  | O => undefined
  | S fuel =>
      suspended ← platform_op (p_suspended P cpu);
      if (suspended : bool) then mret tt else suspend_wait fuel cpu
  end.

(** The request, and then the wait. The two sides of it, statement by
    statement, are in [CpuControl]. *)
Definition arch_suspend_cpu (cpu : Z) : HV unit :=
  _ ← emit (Ctl (Suspend cpu)); suspend_wait patience cpu.

Definition cell_suspend (c : mcell) (this : Z) : HV unit :=
  l ← lift (for_each_cpu_except (m_cpus c) this);
  for_each l arch_suspend_cpu.

(** Management calls run on a CPU of the root cell, the cell of [cpu_data]. *)
Definition cell_resume (this : Z) : HV unit :=
  s ← get;
  l ← lift (for_each_cpu_except (m_cpus (root_cell s)) this);
  for_each l (fun cpu => emit (Ctl (Resume cpu))).

Definition arch_park_cpu (cpu : Z) : HV unit := emit (Ctl (Park cpu)).
Definition arch_reset_cpu (cpu : Z) : HV unit := emit (Ctl (Reset cpu)).

Definition arch_flush_cell_vcpu_caches (c : mcell) : HV unit :=
  l ← lift (for_each_cpu (m_cpus c)); for_each l (fun cpu => emit (Ctl (FlushVcpu cpu))).

Definition config_commit (cell_added_removed : option mcell) : HV unit :=
  s ← get;
  _ ← arch_flush_cell_vcpu_caches (root_cell s);
  _ ← match cell_added_removed with
      | Some c => if m_id c =? m_id (root_cell s) then mret tt else arch_flush_cell_vcpu_caches c
      | None => mret tt
      end;
  _ ← emit Committed;
  platform_do (p_commit P (m_id <$> cell_added_removed)).

(** ** Messages *)

Definition is_terminal (state : Z) : bool :=
  (state =? JAILHOUSE_CELL_SHUT_DOWN) || (state =? JAILHOUSE_CELL_FAILED).
Definition accepts (type : msg_type) (reply : Z) : bool :=
  match type with
  | MSG_REQUEST => reply =? JAILHOUSE_MSG_REQUEST_APPROVED
  | MSG_INFORMATION => reply =? JAILHOUSE_MSG_RECEIVED
  end.

Fixpoint exchange_loop (fuel : nat) (c : mcell) (type : msg_type) (timeout this : Z) : HV bool :=
  match fuel with
  | O => undefined
  | S fuel =>
      '(reply, cell_state) ← platform_op (p_poll P (m_id c));
      if is_terminal cell_state then mret true
      else if accepts type reply then mret true
      else if negb (reply =? JAILHOUSE_MSG_NONE) then mret false
      else if 0 <? msg_reply_timeout (m_config c) then
        let timeout := u64 (timeout - 1) in
        if timeout =? 0 then
          _ ← cell_suspend c this;
          _ ← platform_do (p_set_cell_state P (m_id c) JAILHOUSE_CELL_FAILED);
          mret true
        else exchange_loop fuel c type timeout this
      else exchange_loop fuel c type timeout this
  end.

Definition cell_exchange_message (c : mcell) (message : Z) (type : msg_type) (this : Z) : HV bool :=
  if negb (Z.land (cfg_flags (m_config c)) JAILHOUSE_CELL_PASSIVE_COMMREG =? 0) then mret true
  else
    _ ← platform_do (p_send P (m_id c) message);
    exchange_loop patience c type (msg_reply_timeout (m_config c)) this.

(** [for_each_non_root_cell]; [None] is the NULL pointer. *)
Definition cell_reconfig_ok (excluded_cell : option Z) : HV bool :=
  s ← get;
  mret (forallb (fun c => negb (negb (bool_decide (Some (m_id c) = excluded_cell)) &&
                  (p_cell_state P (m_id c) (env s) =? JAILHOUSE_CELL_RUNNING_LOCKED)))
                (other_cells s)).

Definition cell_reconfig_completed (this : Z) : HV unit :=
  s ← get;
  for_each (other_cells s) (fun c =>
    _ ← cell_exchange_message c JAILHOUSE_MSG_RECONFIG_COMPLETED MSG_INFORMATION this; mret tt).

Definition cell_shutdown_ok (c : mcell) (this : Z) : HV bool :=
  cell_exchange_message c JAILHOUSE_MSG_SHUTDOWN_REQUEST MSG_REQUEST this.

(** ** Cells *)

(** The size of the bitmap in [struct cpu_set]. *)
Definition SMALL_CPU_SET : Z := 8.

Definition cell_init (cfg : cell_config) : HV (Z * mcell) :=
  let c := mk_mcell cfg (mk_cpu_set (u64 (cpu_set_size cfg * 8 - 1)) (config_cpu_set cfg)) false in
  let large := SMALL_CPU_SET <? cpu_set_size cfg in
  if PAGE_SIZE <? cpu_set_size cfg then mret (- EINVAL, c)
  else
    ok ← (if large then platform_op (p_alloc P 1) else mret true);
    if negb ok then mret (- ENOMEM, c)
    else
      err ← platform_op (p_mmio_cell_init P (cfg_id cfg));
      _ ← (if negb (err =? 0) && large then platform_do (p_free P 1) else mret tt);
      mret (err, c).

Definition cell_exit (c : mcell) : HV unit :=
  _ ← platform_do (p_mmio_cell_exit P (m_id c));
  if SMALL_CPU_SET <? cpu_set_size (m_config c) then platform_do (p_free P 1) else mret tt.

(** [JAILHOUSE_MEMORY_IS_SUBPAGE] *)
Definition is_subpage (mem : jailhouse_memory) : bool :=
  negb (Z.land (virt_start mem) (PAGE_SIZE - 1) =? 0) ||
  negb (Z.land (mem_size mem) (PAGE_SIZE - 1) =? 0).

Definition address_in_region (addr : Z) (region : jailhouse_memory) : bool :=
  (phys_start region <=? addr) && (addr <? u64 (phys_start region + mem_size region)).

(** A change of the memory map of a cell. *)
Definition map_in (id : Z) (mem : jailhouse_memory) : HV Z :=
  _ ← emit (MemoryChanged id mem);
  if is_subpage mem then platform_op (p_subpage_register P id mem)
  else platform_op (p_map_region P id mem).
Definition unmap_in (id : Z) (mem : jailhouse_memory) : HV Z :=
  _ ← emit (MemoryChanged id mem); platform_op (p_unmap_region P id mem).

Definition unmap_from_root_cell (mem : jailhouse_memory) : HV Z :=
  s ← get;
  let tmp := mk_memory (phys_start mem) (phys_start mem) (mem_size mem) (mem_flags mem) in
  if is_subpage tmp then
    _ ← emit (MemoryChanged (m_id (root_cell s)) tmp);
    _ ← platform_do (p_subpage_unregister P (m_id (root_cell s)) tmp); mret 0
  else unmap_in (m_id (root_cell s)) tmp.

(** The part of [mem] that lies in a region of the root cell, at the place
    where the root cell sees it. *)
Definition overlap (mem root_mem : jailhouse_memory) : option jailhouse_memory :=
  let at_ phys size := Some (mk_memory phys
    (u64 (virt_start root_mem + phys - phys_start root_mem)) size (mem_flags root_mem)) in
  if address_in_region (phys_start mem) root_mem then
    let size := u64 (mem_size root_mem - (phys_start mem - phys_start root_mem)) in
    at_ (phys_start mem) (if mem_size mem <? size then mem_size mem else size)
  else if address_in_region (phys_start root_mem) mem then
    let size := u64 (mem_size mem - (phys_start root_mem - phys_start mem)) in
    at_ (phys_start root_mem) (if mem_size root_mem <? size then mem_size root_mem else size)
  else None.

Fixpoint remap_loop (l : list jailhouse_memory) (mem : jailhouse_memory) (mode : failure_mode)
    (err : Z) : HV Z :=
  match l with
  | [] => mret err
  | root_mem :: l =>
      match overlap mem root_mem with
      | None => remap_loop l mem mode err
      | Some o =>
          s ← get;
          err ← map_in (m_id (root_cell s)) o;
          if negb (err =? 0) && bool_decide (mode = ABORT_ON_ERROR) then mret err
          else remap_loop l mem mode err
      end
  end.

Definition remap_to_root_cell (mem : jailhouse_memory) (mode : failure_mode) : HV Z :=
  s ← get; remap_loop (mem_regions (m_config (root_cell s))) mem mode 0.

Definition has_flag (mem : jailhouse_memory) (mask : Z) : bool :=
  negb (Z.land (mem_flags mem) mask =? 0).
Definition kept_by_root (mem : jailhouse_memory) : bool :=
  has_flag mem (Z.lor JAILHOUSE_MEM_COMM_REGION JAILHOUSE_MEM_ROOTSHARED).

Definition arch_cell_destroy (c : mcell) : HV unit :=
  l ← lift (for_each_cpu (m_cpus c));
  _ ← for_each l (fun cpu => emit (Ctl (SetEntry cpu PSCI_INVALID_ADDRESS)));
  platform_do (p_arch_cell_destroy P (m_id c)).

(** Moves a CPU that was parked to a cell. *)
Definition give_cpu (cpu id : Z) : HV unit :=
  _ ← emit (OwnerChanged cpu id); modify (fun s => set_cell_of (<[cpu := id]> (cell_of s)) s).
Definition clear_stats (cpu : Z) : HV unit :=
  modify (fun s => set_stats (<[cpu := replicate (length (stats s cpu)) 0]> (stats s)) s).
Definition clear_failed (cpu : Z) : HV unit :=
  modify (fun s => set_failed (<[cpu := false]> (failed s)) s).

Definition root_bitmap (f : Z -> Z) : HV unit :=
  modify (fun s => set_root (set_bitmap (f (bitmap (m_cpus (root_cell s)))) (root_cell s)) s).

Definition cell_destroy_internal (c : mcell) : HV unit :=
  l ← lift (for_each_cpu (m_cpus c));
  _ ← for_each l (fun cpu =>
    _ ← arch_park_cpu cpu;
    _ ← root_bitmap (fun b => Z.setbit b cpu);
    s ← get;
    _ ← give_cpu cpu (m_id (root_cell s));
    _ ← clear_failed cpu;
    clear_stats cpu);
  _ ← for_each (mem_regions (m_config c)) (fun mem =>
    _ ← (if is_subpage mem then mret 0 else unmap_in (m_id c) mem);
    if kept_by_root mem then mret tt
    else _ ← remap_to_root_cell mem WARN_ON_ERROR; mret tt);
  _ ← for_each (reverse (p_units P)) (fun u => platform_do (unit_cell_exit u (m_id c)));
  _ ← arch_cell_destroy c;
  _ ← config_commit (Some c);
  cell_exit c.

(** *** The exits of [cell_create] *)
Definition err_resume (this err : Z) : HV Z := _ ← cell_resume this; mret err.
Definition err_free_cell (this pages err : Z) : HV Z :=
  _ ← platform_do (p_free P pages); err_resume this err.
Definition err_cell_exit (this pages err : Z) (c : mcell) : HV Z :=
  _ ← cell_exit c; err_free_cell this pages err.
Definition err_arch_destroy (this pages err : Z) (c : mcell) : HV Z :=
  _ ← arch_cell_destroy c; err_cell_exit this pages err c.
Definition err_destroy_cell (this pages err : Z) (c : mcell) : HV Z :=
  _ ← cell_destroy_internal c; err_free_cell this pages err.

(** [for_each_unit]: the units before the one that fails are left in reverse. *)
Fixpoint units_init (units before : list (unit_ops E)) (id : Z) : HV Z :=
  match units with
  | [] => mret 0
  | u :: units =>
      err ← platform_op (unit_cell_init u id);
      if negb (err =? 0) then
        _ ← for_each before (fun u => platform_do (unit_cell_exit u id)); mret err
      else units_init units (u :: before) id
  end.

Fixpoint move_regions (l : list jailhouse_memory) (c : mcell) : HV Z :=
  match l with
  | [] => mret 0
  | mem :: l =>
      err ← (if kept_by_root mem then mret 0 else unmap_from_root_cell mem);
      if negb (err =? 0) then mret err
      else
        err ← map_in (m_id c) mem;
        if negb (err =? 0) then mret err else move_regions l c
  end.

(** From [cell_init] on. *)
Definition cell_create_cell (this cell_pages : Z) (cfg : cell_config) : HV Z :=
  '(err, c) ← cell_init cfg;
  if negb (err =? 0) then err_free_cell this cell_pages err
  else
    s ← get;
    let owns (c : mcell) cpu := (cpu <=? max_cpu_id (m_cpus c)) && test_bit cpu (bitmap (m_cpus c)) in
    l ← lift (for_each_cpu (m_cpus c));
    if owns c this || negb (forallb (owns (root_cell s)) l)
    then err_cell_exit this cell_pages (- EBUSY) c
    else
      err ← platform_op (p_arch_cell_create P (m_id c));
      if negb (err =? 0) then err_cell_exit this cell_pages err c
      else
        err ← units_init (p_units P) [] (m_id c);
        if negb (err =? 0) then err_arch_destroy this cell_pages err c
        else
          _ ← for_each l (fun cpu =>
            _ ← arch_park_cpu cpu;
            _ ← root_bitmap (fun b => Z.clearbit b cpu);
            _ ← give_cpu cpu (m_id c);
            clear_stats cpu);
          err ← move_regions (mem_regions cfg) c;
          if negb (err =? 0) then err_destroy_cell this cell_pages err c
          else
            _ ← config_commit (Some c);
            _ ← platform_do (p_set_cell_state P (m_id c) JAILHOUSE_CELL_SHUT_DOWN);
            _ ← modify (fun s => set_cells (other_cells s ++ [c]) (u32 (num_cells s + 1)) s);
            _ ← cell_reconfig_completed this;
            _ ← cell_resume this;
            mret 0.

Definition cell_create (this config_address : Z) : HV Z :=
  s ← get;
  if negb (cell_of s this =? m_id (root_cell s)) then mret (- EPERM)
  else
    _ ← cell_suspend (root_cell s) this;
    ok ← cell_reconfig_ok None;
    if negb ok then err_resume this (- EPERM)
    else
      let cfg_page_offs := Z.land config_address (PAGE_SIZE - 1) in
      mapped ← platform_op (p_get_pages P config_address (PAGES (cfg_page_offs + p_sizeof_desc P)));
      if negb mapped then err_resume this (- ENOMEM)
      else
        cfg ← platform_get (p_config P config_address);
        s ← get;
        if existsb (fun c => String.eqb (cfg_name (m_config c)) (cfg_name cfg) || (m_id c =? cfg_id cfg))
             (root_cell s :: other_cells s)
        then err_resume this (- EEXIST)
        else
          let cfg_pages := PAGES (cfg_page_offs + config_size cfg) in
          if NUM_TEMPORARY_PAGES <? cfg_pages then err_resume this (- E2BIG)
          else
            mapped ← platform_op (p_get_pages P config_address cfg_pages);
            if negb mapped then err_resume this (- ENOMEM)
            else
              let cell_pages := PAGES (p_sizeof_cell P + config_size cfg) in
              ok ← platform_op (p_alloc P cell_pages);
              if negb ok then err_resume this (- ENOMEM)
              else cell_create_cell this cell_pages cfg.

(** ** Managing an existing cell *)

(** The label of the same name in [cell_start] and [cell_set_loadable]. *)
Definition out_resume (this err : Z) : HV Z := _ ← cell_resume this; mret err.

(** The cell, or an error after which the root cell runs again. *)
Definition cell_management_prologue (task : management_task) (this id : Z) : HV (Z + mcell) :=
  s ← get;
  if negb (cell_of s this =? m_id (root_cell s)) then mret (inl (- EPERM))
  else
    _ ← cell_suspend (root_cell s) this;
    match list_find (fun c => m_id c = id) (root_cell s :: other_cells s) with
    | None => _ ← cell_resume this; mret (inl (- ENOENT))
    | Some (0%nat, _) => _ ← cell_resume this; mret (inl (- EINVAL))
    | Some (_, c) =>
        refused ← (if bool_decide (task = CELL_DESTROY)
                   then ok ← cell_reconfig_ok (Some (m_id c)); mret (negb ok) else mret false);
        ok ← (if refused : bool then mret false else cell_shutdown_ok c this);
        if negb ok then _ ← cell_resume this; mret (inl (- EPERM))
        else _ ← cell_suspend c this; mret (inr c)
    end.

Definition upd_cell (id : Z) (f : mcell -> mcell) : HV unit :=
  modify (fun s => set_cells ((fun c => if m_id c =? id then f c else c) <$> other_cells s)
                             (num_cells s) s).

Fixpoint unmap_loadable (l : list jailhouse_memory) : HV Z :=
  match l with
  | [] => mret 0
  | mem :: l =>
      if has_flag mem JAILHOUSE_MEM_LOADABLE then
        err ← unmap_from_root_cell mem;
        if negb (err =? 0) then mret err else unmap_loadable l
      else unmap_loadable l
  end.

Fixpoint remap_loadable (l : list jailhouse_memory) : HV Z :=
  match l with
  | [] => mret 0
  | mem :: l =>
      if has_flag mem JAILHOUSE_MEM_LOADABLE then
        err ← remap_to_root_cell mem ABORT_ON_ERROR;
        if negb (err =? 0) then mret err else remap_loadable l
      else remap_loadable l
  end.

(** [arch_cell_reset] *)
Definition arch_cell_reset (c : mcell) : HV unit :=
  first ← lift (first_cpu (m_cpus c));
  _ ← emit (Ctl (SetEntry first (reset_address (m_config c))));
  l ← lift (for_each_cpu_except (m_cpus c) first);
  _ ← for_each l (fun cpu => emit (Ctl (SetEntry cpu PSCI_INVALID_ADDRESS)));
  platform_do (p_arch_cell_reset P (m_id c)).

Definition cell_start (this id : Z) : HV Z :=
  r ← cell_management_prologue CELL_START this id;
  match r with
  | inl err => mret err
  | inr c =>
      err ← (if loadable c then
               err ← unmap_loadable (mem_regions (m_config c));
               if negb (err =? 0) then mret err
               else _ ← config_commit None; _ ← upd_cell id (set_loadable false); mret 0
             else mret 0);
      if negb (err =? 0) then out_resume this err
      else
        _ ← platform_do (p_clear_comm_page P (m_id c));
        _ ← arch_cell_reset c;
        l ← lift (for_each_cpu (m_cpus c));
        _ ← for_each l (fun cpu =>
          _ ← clear_failed cpu; arch_reset_cpu cpu);
        out_resume this 0
  end.

Definition cell_set_loadable (this id : Z) : HV Z :=
  r ← cell_management_prologue CELL_SET_LOADABLE this id;
  match r with
  | inl err => mret err
  | inr c =>
      l ← lift (for_each_cpu (m_cpus c));
      _ ← for_each l (fun cpu =>
        _ ← clear_failed cpu; arch_park_cpu cpu);
      if loadable c then out_resume this 0
      else
        _ ← platform_do (p_set_cell_state P (m_id c) JAILHOUSE_CELL_SHUT_DOWN);
        _ ← upd_cell id (set_loadable true);
        err ← remap_loadable (mem_regions (m_config c));
        if negb (err =? 0) then out_resume this err
        else _ ← config_commit None; out_resume this 0
  end.

Definition cell_destroy (this id : Z) : HV Z :=
  r ← cell_management_prologue CELL_DESTROY this id;
  match r with
  | inl err => mret err
  | inr c =>
      _ ← cell_destroy_internal c;
      _ ← modify (fun s => set_cells (filter (fun c => m_id c <> id) (other_cells s))
                                     (u32 (num_cells s - 1)) s);
      _ ← platform_do (p_free P (PAGES (p_sizeof_cell P + config_size (m_config c))));
      _ ← cell_reconfig_completed this;
      out_resume this 0
  end.

Definition is_cell_state (state : Z) : bool :=
  existsb (Z.eqb state) [JAILHOUSE_CELL_RUNNING; JAILHOUSE_CELL_RUNNING_LOCKED;
    JAILHOUSE_CELL_SHUT_DOWN; JAILHOUSE_CELL_FAILED; JAILHOUSE_CELL_FAILED_COMM_REV].

Definition cell_get_state (this id : Z) : HV Z :=
  s ← get;
  mret (if negb (cell_of s this =? m_id (root_cell s)) then - EPERM
        else match list_find (fun c => m_id c = id) (root_cell s :: other_cells s) with
             | None => - ENOENT
             | Some (_, c) =>
                 let state := p_cell_state P (m_id c) (env s) in
                 if is_cell_state state then state else - EINVAL
             end).

(** A CPU stops because of an error of its cell. *)
Definition panic_park (this : Z) : HV unit :=
  s ← get;
  match list_find (fun c => m_id c = cell_of s this) (root_cell s :: other_cells s) with
  | None => undefined
  | Some (_, c) =>
      _ ← modify (fun s => set_failed (<[this := true]> (failed s)) s);
      s ← get;
      l ← lift (for_each_cpu (m_cpus c));
      _ ← (if forallb (failed s) l
           then platform_do (p_set_cell_state P (m_id c) JAILHOUSE_CELL_FAILED) else mret tt);
      emit (Ctl CpuOff)
  end.

End Management.
