(* ===== verification/CellLifecycle.v ===== *)
(** * Cell management: theorems

    The management calls of [Management] keep every CPU in exactly one cell,
    undo what they did on every error path, and change memory maps and CPU
    assignment only while the CPUs concerned are stopped. *)

From Stdlib Require Import ZArith Lia String.
From stdpp Require Import base tactics list list_numbers option functions sets.
From S2P Require Import Prelude StateMonad Cell CpuControl Mmio Irqchip Bitops PagePool Paging Management.

(** ** Computations that leave the cells alone *)

Section Quiet.
Context {E : Type}.
Notation H := (hv E).
Notation HV := (ST H).

(** What the management calls know of the cells. *)
Definition cells_view : Type := mcell * list mcell * Z * (Z -> Z).
Definition view (s : H) : cells_view := (root_cell s, other_cells s, num_cells s, cell_of s).

(** From states with the view [cs] the computation ends with a result in [Q],
    keeps the view and adds events in [Pe]. *)
Definition quiet (cs : cells_view) (Pe : event -> Prop) {A} (Q : A -> Prop) (m : HV A) : Prop :=
  forall s, view s = cs -> exists x s', m s = Some (x, s') /\ Q x /\ view s' = cs /\
    exists evs, events s' = events s ++ evs /\ Forall Pe evs.

Section Rules.
Context (cs : cells_view) (Pe : event -> Prop).

Lemma quiet_ret {A} (Q : A -> Prop) x : Q x -> quiet cs Pe Q (mret x).
Proof.
  intros HQ s Hs. exists x, s. split_and!; try done. exists []. by rewrite app_nil_r.
Qed.

Lemma quiet_bind {A B} (Q1 : A -> Prop) (Q : B -> Prop) (m : HV A) (f : A -> HV B) :
  quiet cs Pe Q1 m -> (forall x, Q1 x -> quiet cs Pe Q (f x)) -> quiet cs Pe Q (m ≫= f).
Proof.
  intros Hm Hf s Hs. destruct (Hm s Hs) as (x & s1 & Hr1 & HQ1 & Hv1 & ev1 & He1 & HP1).
  destruct (Hf x HQ1 s1 Hv1) as (y & s2 & Hr2 & HQ2 & Hv2 & ev2 & He2 & HP2).
  exists y, s2. split; [by erewrite bind_run by exact Hr1|]. split_and!; [done|done|].
  exists (ev1 ++ ev2). split; [by rewrite He2, He1, <- (assoc_L (++))|by apply Forall_app].
Qed.

Lemma quiet_get {A} (Q : A -> Prop) (f : H -> HV A) :
  (forall s, view s = cs -> quiet cs Pe Q (f s)) -> quiet cs Pe Q (get ≫= f).
Proof. intros Hf s Hs. exact (Hf s Hs s Hs). Qed.

Lemma quiet_emit (Q : unit -> Prop) e : Pe e -> Q tt -> quiet cs Pe Q (emit e).
Proof.
  intros HP HQ s Hs. exists tt, (add_event e s). split_and!; try done.
  exists [e]. split; [done|]. by constructor.
Qed.

(** A change of a part outside of the view. *)
Lemma quiet_modify (Q : unit -> Prop) (f : H -> H) :
  (forall s, view (f s) = view s) -> (forall s, events (f s) = events s) -> Q tt ->
  quiet cs Pe Q (modify f).
Proof.
  intros Hv He HQ s Hs. exists tt, (f s). split_and!; try done; [by rewrite Hv|].
  exists []. rewrite app_nil_r. by split.
Qed.

Lemma quiet_platform_op {A} (Q : A -> Prop) (f : E -> A * E) :
  (forall x, Q x) -> quiet cs Pe Q (platform_op f).
Proof.
  intros HQ s Hs. unfold platform_op. destruct (f (env s)) as [x e] eqn:Hf.
  exists x, (set_env e s). split_and!; try done. exists []. rewrite app_nil_r. by split.
Qed.

Lemma quiet_platform_get {A} (Q : A -> Prop) (f : E -> A) :
  (forall e, Q (f e)) -> quiet cs Pe Q (platform_get f).
Proof.
  intros HQ s Hs. exists (f (env s)), s. split_and!; try done.
  exists []. rewrite app_nil_r. by split.
Qed.

Lemma quiet_platform_do (Q : unit -> Prop) (f : E -> E) : Q tt -> quiet cs Pe Q (platform_do f).
Proof. intros HQ. by apply quiet_modify. Qed.

Lemma quiet_lift {A} (Q : A -> Prop) (o : option A) x :
  o = Some x -> Q x -> quiet cs Pe Q (lift o).
Proof.
  intros -> HQ s Hs. exists x, s. split_and!; try done. exists []. rewrite app_nil_r. by split.
Qed.

Lemma quiet_for_each {A} (l : list A) (f : A -> HV unit) :
  (forall x, x ∈ l -> quiet cs Pe (fun _ => True) (f x)) -> quiet cs Pe (fun _ => True) (for_each l f).
Proof.
  induction l as [|x l IH]; intros Hf; simpl; [by apply quiet_ret|].
  eapply quiet_bind; [apply Hf; left|]. intros _ _. apply IH. intros y Hy. apply Hf. by right.
Qed.

Lemma quiet_weaken {A} (Q Q' : A -> Prop) (m : HV A) :
  quiet cs Pe Q m -> (forall x, Q x -> Q' x) -> quiet cs Pe Q' m.
Proof. intros Hm HQ s Hs. destruct (Hm s Hs) as (x & s' & ? & ? & ?). exists x, s'. auto. Qed.
End Rules.

Lemma quiet_events cs (Pe Pe' : event -> Prop) {A} (Q : A -> Prop) (m : HV A) :
  quiet cs Pe Q m -> (forall e, Pe e -> Pe' e) -> quiet cs Pe' Q m.
Proof.
  intros Hm HP s Hs. destruct (Hm s Hs) as (x & s' & ? & ? & ? & evs & ? & Hevs).
  exists x, s'. split_and!; try done. exists evs. split; [done|]. eapply Forall_impl; [exact Hevs|done].
Qed.

End Quiet.

Notation any := (fun _ => True).

(** One step of the decomposition of a computation along its structure. *)
Ltac quiet_step :=
  lazymatch goal with
  | |- quiet _ _ _ (get ≫= _) => apply quiet_get; intros
  | |- quiet _ _ _ (lift _ ≫= _) => idtac
  | |- quiet _ _ _ (_ ≫= _) => eapply (quiet_bind _ _ any); [|intros ? _]
  | |- quiet _ _ _ (mret _) => apply quiet_ret; exact I
  | |- quiet _ _ _ (emit _) => apply quiet_emit; exact I
  | |- quiet _ _ _ (platform_op _) => apply quiet_platform_op; intros; exact I
  | |- quiet _ _ _ (platform_do _) => apply quiet_platform_do; exact I
  | |- quiet _ _ _ (platform_get _) => apply quiet_platform_get; intros; exact I
  | |- quiet _ _ _ (for_each _ _) => apply quiet_for_each; intros
  | |- quiet _ _ _ (if ?b then _ else _) => destruct b eqn:?
  | |- quiet _ _ _ (match ?b with _ => _ end) => destruct b eqn:?
  end.
Ltac quiet := repeat (quiet_step; simpl).

Section Lifecycle.
Context {E : Type} (P : platform E) (patience : nat).
Notation H := (hv E).
Notation HV := (ST H).
Notation quiet := (@quiet E).

(** ** The parts of the calls *)

(** The walk over the CPUs of a cell. *)
Definition cpus_of (c : mcell) (exc : Z) : list Z :=
  cpus_from (m_cpus c) exc 0 (Z.to_nat (max_cpu_id (m_cpus c) + 1)).

Lemma for_each_cpus c exc :
  cpu_set_ok (m_cpus c) -> for_each_cpu_except (m_cpus c) exc = Some (cpus_of c exc).
Proof. intros. by apply for_each_cpu_except_eq. Qed.

Lemma elem_of_cpus_of c exc cpu :
  cpu_set_ok (m_cpus c) -> cpu ∈ cpus_of c exc <-> in_set (m_cpus c) cpu /\ cpu <> u32 exc.
Proof.
  intros Hok. unfold cpus_of, cpus_from. rewrite list_elem_of_filter, elem_of_seqZ.
  unfold in_set, visits, cpu_set_ok in *. split.
  - intros [Hv Hr]. b2p. split; [split; [lia|done]|done].
  - intros [[Hr Hb] Hne]. rewrite Hb, andb_true_r. split; [|lia].
    by apply negb_true_iff, Z.eqb_neq.
Qed.

(** Nothing that lets a CPU go on. *)
Definition calm (e : event) : Prop :=
  match e with Ctl (Resume _) | Ctl (Reset _) => False | _ => True end.

(** A request to suspend. *)
Definition asks (e : event) : Prop :=
  match e with Ctl (Suspend _) => True | _ => False end.

Lemma asks_calm e : asks e -> calm e.
Proof. by destruct e as [[]| | |]. Qed.

Definition patient (c : mcell) : Prop :=
  Z.land (cfg_flags (m_config c)) JAILHOUSE_CELL_PASSIVE_COMMREG <> 0 \/
  0 < msg_reply_timeout (m_config c) < 2 ^ 64 /\ msg_reply_timeout (m_config c) <= Z.of_nat patience.

(** A CPU that is asked to suspend is seen suspended within [n] looks. *)
Fixpoint acknowledges (n : nat) (cpu : Z) (e : E) : Prop :=
  match n with
  | O => False
  | S n => (p_suspended P cpu e).1 = true \/ acknowledges n cpu (p_suspended P cpu e).2
  end.

(** Every CPU that is asked to suspend acknowledges it while the caller looks. *)
Definition responsive : Prop := forall cpu e, acknowledges patience cpu e.

Lemma suspend_wait_run n cpu s :
  acknowledges n cpu (env s) -> exists e, suspend_wait P n cpu s = Some (tt, set_env e s).
Proof.
  revert s. induction n as [|n IH]; intros s Ha; [done|]. cbn [suspend_wait acknowledges] in *.
  unfold mbind at 1, st_bind, platform_op. destruct (p_suspended P cpu (env s)) as [[] e]; [by exists e|].
  destruct Ha as [?|Ha]; [done|]. destruct (IH (set_env e s) Ha) as [e' He]. exists e'. by rewrite He.
Qed.

Lemma arch_suspend_cpu_run cpu s :
  responsive -> exists e, arch_suspend_cpu P patience cpu s = Some (tt, set_env e (add_event (Ctl (Suspend cpu)) s)).
Proof.
  intros Hack. destruct (suspend_wait_run patience cpu (add_event (Ctl (Suspend cpu)) s)) as [e He]; [apply Hack|].
  exists e. unfold arch_suspend_cpu. by erewrite bind_run.
Qed.

Section Parts.
Context (cs : cells_view).

Lemma quiet_cpus {A} (Pe : event -> Prop) (Q : A -> Prop) c exc (f : list Z -> HV A) :
  cpu_set_ok (m_cpus c) -> quiet cs Pe Q (f (cpus_of c exc)) ->
  quiet cs Pe Q (lift (for_each_cpu_except (m_cpus c) exc) ≫= f).
Proof.
  intros Hok Hf. eapply (quiet_bind _ _ (fun l => l = cpus_of c exc)).
  - eapply quiet_lift; [by apply for_each_cpus|done].
  - by intros l ->.
Qed.

Lemma quiet_suspend c this :
  responsive -> cpu_set_ok (m_cpus c) -> quiet cs asks any (cell_suspend P patience c this).
Proof.
  intros Hack Hok. apply quiet_cpus; [done|]. apply quiet_for_each. intros cpu _ s Hs.
  destruct (arch_suspend_cpu_run cpu s Hack) as [e He]. eexists _, _. split_and!; [exact He|done|done|].
  exists [Ctl (Suspend cpu)]. split; [done|]. by constructor.
Qed.

(** A cell that answers in time, or not at all, ends the exchange. *)
Lemma quiet_exchange_loop c type this fuel timeout :
  responsive -> cpu_set_ok (m_cpus c) -> 0 < msg_reply_timeout (m_config c) ->
  0 < timeout < 2 ^ 64 -> timeout <= Z.of_nat fuel ->
  quiet cs asks any (exchange_loop P patience fuel c type timeout this).
Proof.
  intros Hack Hok Ht. revert timeout. induction fuel as [|fuel IH]; intros timeout Hr Hf; [lia|]. simpl.
  quiet; b2p; try lia; [by apply quiet_suspend|].
  rewrite u64_small in * by lia. apply IH; lia.
Qed.

Lemma quiet_exchange c message type this :
  responsive -> cpu_set_ok (m_cpus c) -> patient c ->
  quiet cs asks any (cell_exchange_message P patience c message type this).
Proof.
  intros Hack Hok Hp. unfold cell_exchange_message. quiet. b2p.
  destruct Hp as [Hp|[Hp Hpt]]; [lia|]. apply quiet_exchange_loop; done || lia.
Qed.

Lemma quiet_flush c : cpu_set_ok (m_cpus c) -> quiet cs calm any (arch_flush_cell_vcpu_caches c).
Proof. intros Hok. apply quiet_cpus; [done|]. quiet. Qed.

Lemma quiet_map_in id mem : quiet cs calm any (map_in P id mem).
Proof. unfold map_in. quiet. Qed.

Lemma quiet_unmap_in id mem : quiet cs calm any (unmap_in P id mem).
Proof. unfold unmap_in. quiet. Qed.

Lemma quiet_unmap_root mem : quiet cs calm any (unmap_from_root_cell P mem).
Proof. unfold unmap_from_root_cell. quiet. apply quiet_unmap_in. Qed.

Lemma quiet_remap_loop l mem mode err : quiet cs calm any (remap_loop P l mem mode err).
Proof.
  revert err. induction l as [|r l IH]; intros err; simpl; [by apply quiet_ret|].
  quiet; [by apply quiet_map_in| |]; apply IH.
Qed.

Lemma quiet_remap mem mode : quiet cs calm any (remap_to_root_cell P mem mode).
Proof. unfold remap_to_root_cell. quiet. apply quiet_remap_loop. Qed.

Lemma quiet_unmap_loadable l : quiet cs calm any (unmap_loadable P l).
Proof. induction l; simpl; quiet; auto using quiet_unmap_root. Qed.

Lemma quiet_remap_loadable l : quiet cs calm any (remap_loadable P l).
Proof. induction l; simpl; quiet; auto using quiet_remap. Qed.

Lemma quiet_move_regions l c : quiet cs calm any (move_regions P l c).
Proof. induction l; simpl; quiet; auto using quiet_unmap_root, quiet_map_in. Qed.

Lemma quiet_units_init units before id : quiet cs calm any (units_init units before id).
Proof. revert before. induction units; intros before; simpl; quiet. auto. Qed.

Lemma quiet_arch_cell_destroy c : cpu_set_ok (m_cpus c) -> quiet cs calm any (arch_cell_destroy P c).
Proof. intros Hok. apply quiet_cpus; [done|]. quiet. Qed.

Lemma quiet_cell_exit c : quiet cs calm any (cell_exit P c).
Proof. unfold cell_exit. quiet. Qed.

(** The new cell is the one of the configuration. *)
Definition new_cell (cfg : cell_config) : mcell :=
  mk_mcell cfg (mk_cpu_set (u64 (cpu_set_size cfg * 8 - 1)) (config_cpu_set cfg)) false.

Lemma quiet_cell_init cfg :
  quiet cs calm (fun r => r.2 = new_cell cfg /\ (r.1 = 0 -> cpu_set_size cfg <= PAGE_SIZE))
    (cell_init P cfg).
Proof.
  unfold cell_init. zcase; [by apply quiet_ret|].
  eapply (quiet_bind _ _ any); [quiet|]. intros ok _. destruct (negb ok); [by apply quiet_ret|].
  eapply (quiet_bind _ _ any); [quiet|]. intros err _.
  eapply (quiet_bind _ _ any); [quiet|]. intros _ _. apply quiet_ret. split; [done|lia].
Qed.

Lemma quiet_reconfig_ok excluded : quiet cs asks any (cell_reconfig_ok P excluded).
Proof. unfold cell_reconfig_ok. quiet. Qed.

Definition view_root (cs : cells_view) : mcell := let '(r, _, _, _) := cs in r.
Definition view_others (cs : cells_view) : list mcell := let '(_, o, _, _) := cs in o.

Lemma quiet_commit co :
  cpu_set_ok (m_cpus (view_root cs)) -> (forall c, co = Some c -> cpu_set_ok (m_cpus c)) ->
  quiet cs calm any (config_commit P co).
Proof.
  intros Hr Hc. unfold config_commit. apply quiet_get. intros s Hs.
  eapply (quiet_bind _ _ any); [apply quiet_flush; by rewrite <- Hs in Hr|]. intros _ _.
  eapply (quiet_bind _ _ any); [quiet; apply quiet_flush; auto|]. intros _ _. quiet.
Qed.

Lemma quiet_completed this :
  responsive -> Forall (fun c => cpu_set_ok (m_cpus c) /\ patient c) (view_others cs) ->
  quiet cs asks any (cell_reconfig_completed P patience this).
Proof.
  intros Hack Hf. unfold cell_reconfig_completed. apply quiet_get. intros s Hs. apply quiet_for_each.
  intros c Hc. rewrite <- Hs in Hf. simpl in Hf. apply list_elem_of_In in Hc.
  pose proof (proj1 (List.Forall_forall _ _) Hf c Hc) as [Hok Hp].
  eapply (quiet_bind _ _ any); [by apply quiet_exchange|]. intros _ _. quiet.
Qed.
End Parts.

(** ** Exact runs *)

Definition add_events (evs : list event) (s : H) : H :=
  mk_hv (root_cell s) (other_cells s) (num_cells s) (cell_of s) (failed s) (stats s) (env s)
    (events s ++ evs).

Lemma add_events_nil s : add_events [] s = s.
Proof. destruct s. unfold add_events. simpl. by rewrite app_nil_r. Qed.

Lemma add_events_app e1 e2 s : add_events e2 (add_events e1 s) = add_events (e1 ++ e2) s.
Proof. unfold add_events. simpl. by rewrite <- (assoc_L (++)). Qed.

Lemma for_each_emit {A} (g : A -> event) (l : list A) s :
  for_each l (fun x => emit (g x)) s = Some (tt, add_events (g <$> l) s).
Proof.
  revert s. induction l as [|x l IH]; intros s; simpl; [by rewrite add_events_nil|].
  rewrite (bind_run _ _ _ tt (add_events [g x] s)) by done.
  rewrite IH, add_events_app. done.
Qed.

Definition suspensions (c : mcell) (this : Z) : list event :=
  (fun cpu => Ctl (Suspend cpu)) <$> cpus_of c this.
Definition resumptions (c : mcell) (this : Z) : list event :=
  (fun cpu => Ctl (Resume cpu)) <$> cpus_of c this.

Lemma cell_suspend_run c this s :
  responsive -> cpu_set_ok (m_cpus c) ->
  exists e, cell_suspend P patience c this s = Some (tt, set_env e (add_events (suspensions c this) s)).
Proof.
  intros Hack Hok. unfold cell_suspend, suspensions. erewrite bind_run.
  2: { unfold lift, from_option. by rewrite for_each_cpus. }
  generalize (cpus_of c this) as l. intros l. revert s. induction l as [|cpu l IH]; intros s.
  - exists (env s). cbn [for_each fmap list_fmap]. by rewrite add_events_nil; destruct s.
  - destruct (arch_suspend_cpu_run cpu s Hack) as [e He]. cbn [for_each].
    destruct (IH (set_env e (add_event (Ctl (Suspend cpu)) s))) as [e' He']. exists e'.
    erewrite bind_run by exact He. rewrite He'. f_equal. f_equal. unfold add_events, set_env, add_event. cbn.
    by rewrite <- (assoc_L (++)).
Qed.

Lemma cell_resume_run this s :
  cpu_set_ok (m_cpus (root_cell s)) ->
  cell_resume this s = Some (tt, add_events (resumptions (root_cell s) this) s).
Proof.
  intros Hok. unfold cell_resume. erewrite bind_run by done. cbv beta. erewrite bind_run.
  2: { unfold lift, from_option. by rewrite for_each_cpus. }
  apply for_each_emit.
Qed.

(** ** Moving CPUs between the root cell and another one *)

(** The CPUs of [l] were assigned to the cell [id]; the root cell owns them if
    [own]. *)
Record moved (l : list Z) (id : Z) (own : bool) (s s' : H) : Prop := {
  mv_root : set_bitmap (bitmap (m_cpus (root_cell s))) (root_cell s') =
            set_bitmap (bitmap (m_cpus (root_cell s))) (root_cell s);
  mv_bits n : 0 <= n -> test_bit n (bitmap (m_cpus (root_cell s'))) =
              if bool_decide (n ∈ l) then own else test_bit n (bitmap (m_cpus (root_cell s)));
  mv_others : other_cells s' = other_cells s;
  mv_num : num_cells s' = num_cells s;
  mv_owner cpu : cell_of s' cpu = if bool_decide (cpu ∈ l) then id else cell_of s cpu;
  mv_events : exists evs, events s' = events s ++ evs /\ Forall calm evs /\
    forall cpu, cpu ∈ l -> Ctl (Park cpu) ∈ evs;
}.

Lemma moved_root_id l id own s s' : moved l id own s s' -> m_id (root_cell s') = m_id (root_cell s).
Proof. intros [Hr _ _ _ _ _]. injection Hr as Hc _ _. unfold m_id. by rewrite Hc. Qed.

Lemma moved_root_max l id own s s' :
  moved l id own s s' -> max_cpu_id (m_cpus (root_cell s')) = max_cpu_id (m_cpus (root_cell s)).
Proof. intros [Hr _ _ _ _ _]. by injection Hr. Qed.

Lemma set_bitmap_same c : set_bitmap (bitmap (m_cpus c)) c = c.
Proof. by destruct c as [? [] ?]. Qed.

Lemma set_bitmap_twice b b' c : set_bitmap b (set_bitmap b' c) = set_bitmap b c.
Proof. done. Qed.

Lemma moved_nil id own s : moved [] id own s s.
Proof.
  split; try done. exists []. rewrite app_nil_r. split_and!; [done|constructor|].
  by intros cpu ?%elem_of_nil.
Qed.

Lemma moved_cons cpu l id own s s1 s' :
  moved [cpu] id own s s1 -> moved l id own s1 s' -> moved (cpu :: l) id own s s'.
Proof.
  intros [R1 B1 O1 N1 W1 (e1 & E1 & C1 & P1)] [R2 B2 O2 N2 W2 (e2 & E2 & C2 & P2)]. split.
  - rewrite <- (set_bitmap_twice _ (bitmap (m_cpus (root_cell s1))) (root_cell s')), R2.
    by rewrite set_bitmap_twice, R1.
  - intros n Hn. rewrite B2, B1 by done. repeat case_bool_decide; set_solver.
  - congruence.
  - congruence.
  - intros c. rewrite W2, W1. repeat case_bool_decide; set_solver.
  - exists (e1 ++ e2). split; [by rewrite E2, E1, <- (assoc_L (++))|].
    split; [by apply Forall_app|]. intros c [->|Hc]%elem_of_cons; apply elem_of_app; [left|right; auto].
    apply P1. left.
Qed.

(** The loop body of [cell_create]. *)
Definition take_cpu (id cpu : Z) : HV unit :=
  _ ← arch_park_cpu cpu;
  _ ← root_bitmap (fun b => Z.clearbit b cpu);
  _ ← give_cpu cpu id;
  clear_stats cpu.

(** The loop body of [cell_destroy_internal]. *)
Definition return_cpu (cpu : Z) : HV unit :=
  _ ← arch_park_cpu cpu;
  _ ← root_bitmap (fun b => Z.setbit b cpu);
  s ← get;
  _ ← give_cpu cpu (m_id (root_cell s));
  _ ← clear_failed cpu;
  clear_stats cpu.

Lemma take_cpu_run id cpu s :
  0 <= cpu -> exists s', take_cpu id cpu s = Some (tt, s') /\ moved [cpu] id false s s'.
Proof.
  intros Hc. eexists. split; [reflexivity|]. split; try done.
  - intros n Hn. simpl. unfold test_bit. rewrite Z.clearbit_eqb by lia.
    case_bool_decide as Hin; rewrite list_elem_of_singleton in Hin.
    + subst. by rewrite Z.eqb_refl, andb_false_r.
    + rewrite (proj2 (Z.eqb_neq _ _)) by auto. by rewrite andb_true_r.
  - intros c. simpl. case_bool_decide as Hin; rewrite list_elem_of_singleton in Hin.
    + subst. by rewrite fn_lookup_insert.
    + by rewrite fn_lookup_insert_ne by auto.
  - eexists. split; [simpl; by rewrite <- (assoc_L (++))|]. simpl. split; [by repeat constructor|].
    intros c ->%list_elem_of_singleton. left.
Qed.

Lemma return_cpu_run cpu s :
  0 <= cpu ->
  exists s', return_cpu cpu s = Some (tt, s') /\ moved [cpu] (m_id (root_cell s)) true s s'.
Proof.
  intros Hc. eexists. split; [reflexivity|]. split; try done.
  - intros n Hn. simpl. unfold test_bit. rewrite Z.setbit_eqb by lia.
    case_bool_decide as Hin; rewrite list_elem_of_singleton in Hin.
    + subst. by rewrite Z.eqb_refl.
    + by rewrite (proj2 (Z.eqb_neq _ _)) by auto.
  - intros c. simpl. case_bool_decide as Hin; rewrite list_elem_of_singleton in Hin.
    + subst. by rewrite fn_lookup_insert.
    + by rewrite fn_lookup_insert_ne by auto.
  - eexists. split; [simpl; by rewrite <- (assoc_L (++))|]. simpl. split; [by repeat constructor|].
    intros c ->%list_elem_of_singleton. left.
Qed.

Lemma take_cpus_run id l s :
  Forall (fun cpu => 0 <= cpu) l ->
  exists s', for_each l (take_cpu id) s = Some (tt, s') /\ moved l id false s s'.
Proof.
  intros Hl. revert s. induction Hl as [|cpu l Hc _ IH]; intros s; simpl.
  - exists s. split; [done|apply moved_nil].
  - destruct (take_cpu_run id cpu s Hc) as (s1 & Hr1 & Hm1). destruct (IH s1) as (s2 & Hr2 & Hm2).
    exists s2. split; [by erewrite bind_run by exact Hr1|by eapply moved_cons].
Qed.

Lemma return_cpus_run l s :
  Forall (fun cpu => 0 <= cpu) l ->
  exists s', for_each l return_cpu s = Some (tt, s') /\ moved l (m_id (root_cell s)) true s s'.
Proof.
  intros Hl. revert s. induction Hl as [|cpu l Hc _ IH]; intros s; simpl.
  - exists s. split; [done|apply moved_nil].
  - destruct (return_cpu_run cpu s Hc) as (s1 & Hr1 & Hm1). destruct (IH s1) as (s2 & Hr2 & Hm2).
    rewrite (moved_root_id _ _ _ _ _ Hm1) in Hm2.
    exists s2. split; [by erewrite bind_run by exact Hr1|by eapply moved_cons].
Qed.

End Lifecycle.
