(* ===== verification/CellPartition.v ===== *)
(** * Cell management: every CPU in one cell

    What each management call does to the cells, on every path, and when: the
    invariant [hv_inv], the specification of creating, destroying, starting and
    stopping a cell, and the order of its events. *)

From Stdlib Require Import ZArith Lia String.
From stdpp Require Import base tactics list list_numbers option functions sets.
From S2P Require Import Prelude StateMonad Cell CpuControl Mmio Irqchip Bitops PagePool Paging Management CellLifecycle.

(** ** The order of events *)

(** A change that needs the CPUs it concerns to be stopped. *)
Definition changes (e : event) : bool :=
  match e with
  | Ctl (Suspend _) | Ctl (Resume _) | Ctl (Park _) | Ctl (Reset _) => false
  | _ => true
  end.

Definition stop_step (cpu : Z) (b : bool) (e : event) : bool :=
  match e with
  | Ctl (Suspend c) | Ctl (Park c) => if c =? cpu then true else b
  | Ctl (Resume c) | Ctl (Reset c) => if c =? cpu then false else b
  | _ => b
  end.

(** The last request to the CPU was to suspend or to park. *)
Definition stopped (evs : list event) (cpu : Z) : bool := foldl (stop_step cpu) false evs.

(** At every change the CPUs in [R] are stopped. *)
Definition disciplined (R : Z -> Prop) (evs : list event) : Prop :=
  forall l1 e l2 cpu, evs = l1 ++ e :: l2 -> changes e = true -> R cpu -> stopped l1 cpu = true.

Lemma stopped_calm cpu b evs : Forall calm evs -> b = true -> foldl (stop_step cpu) b evs = true.
Proof.
  intros Hc. revert b. induction Hc as [|e evs He _ IH]; intros b Hb; simpl; [done|].
  apply IH. subst b. destruct e as [[]| | |]; simpl; try done; by destruct (_ =? _).
Qed.

Lemma stopped_asked cpu evs :
  Forall calm evs -> Ctl (Suspend cpu) ∈ evs \/ Ctl (Park cpu) ∈ evs -> stopped evs cpu = true.
Proof.
  intros Hc Hin.
  assert (exists e l1 l2, evs = l1 ++ e :: l2 /\ forall b, stop_step cpu b e = true) as (e & l1 & l2 & -> & He).
  { destruct Hin as [(l1 & l2 & ->)%list_elem_of_split|(l1 & l2 & ->)%list_elem_of_split];
      eexists _, l1, l2; (split; [done|]); simpl; by rewrite Z.eqb_refl. }
  unfold stopped. rewrite foldl_app. simpl. rewrite He.
  apply Forall_app in Hc as [_ Hc]. apply Forall_cons in Hc as [_ Hc]. by apply stopped_calm.
Qed.

Lemma app_cons_split {A} (l l' l1 l2 : list A) (e : A) :
  l ++ l' = l1 ++ e :: l2 ->
  (exists k, l = l1 ++ e :: k) \/ (exists k, l1 = l ++ k /\ l' = k ++ e :: l2).
Proof.
  revert l1. induction l as [|x l IH]; intros l1 He; simpl in *.
  - right. by exists l1.
  - destruct l1 as [|y l1]; injection He as -> He.
    + left. by exists l.
    + destruct (IH l1 He) as [[k ->]|(k & -> & ->)]; [left; by exists k|right; by exists k].
Qed.

(** CPUs are stopped first, then the changes come, then CPUs may go on. *)
Lemma disciplined_phases (R : Z -> Prop) pre body post :
  Forall (fun e => changes e = false) pre -> Forall calm pre ->
  (forall cpu, R cpu -> stopped pre cpu = true) ->
  Forall calm body -> Forall (fun e => changes e = false) post ->
  disciplined R (pre ++ body ++ post).
Proof.
  intros Hpre Hprec Hst Hbody Hpost l1 e l2 cpu Heq He HR.
  apply app_cons_split in Heq as [[k ->]|(k & -> & Heq)].
  { apply Forall_app in Hpre as [_ Hpre]. apply Forall_cons in Hpre as [Hpre _]. congruence. }
  unfold stopped. rewrite foldl_app. specialize (Hst cpu HR). unfold stopped in Hst. rewrite Hst.
  apply app_cons_split in Heq as [[k' ->]|(k' & -> & Heq)].
  - apply Forall_app in Hbody as [Hbody _]. by apply stopped_calm.
  - subst post. apply Forall_app in Hpost as [_ Hpost].
    apply Forall_cons in Hpost as [Hpost _]. congruence.
Qed.

Lemma asks_no_change e : asks e -> changes e = false.
Proof. by destruct e as [[]| | |]. Qed.

Section Partition.
Context {E : Type} (P : platform E) (patience : nat).
Notation H := (hv E).
Notation HV := (ST H).
Notation quiet := (@quiet E).
Notation patient := (patient patience).

(** ** The invariant *)

Definition all_cells (s : H) : list mcell := root_cell s :: other_cells s.

Record hv_inv (s : H) : Prop := {
  hi_ids : NoDup (m_id <$> all_cells s);
  hi_root : cpu_set_ok (m_cpus (root_cell s));
  hi_others : Forall (fun c => cpu_set_ok (m_cpus c) /\ patient c) (other_cells s);
  hi_owner c cpu : c ∈ all_cells s -> in_set (m_cpus c) cpu -> cell_of s cpu = m_id c;
  hi_max c cpu : c ∈ other_cells s -> in_set (m_cpus c) cpu -> cpu <= max_cpu_id (m_cpus (root_cell s));
  hi_num : num_cells s = u32 (Z.of_nat (length (all_cells s)));
}.

#[local] Instance in_set_dec set cpu : Decision (in_set set cpu).
Proof. unfold in_set. apply _. Defined.

(** The CPUs that belong to some cell. *)
Definition covered (s : H) (cpu : Z) : Prop := exists c, c ∈ all_cells s /\ in_set (m_cpus c) cpu.

(** Nothing about the cells has changed. *)
Record restored (s s' : H) : Prop := {
  rs_root : root_cell s' = root_cell s;
  rs_others : other_cells s' = other_cells s;
  rs_num : num_cells s' = num_cells s;
  rs_owner cpu : cell_of s' cpu = cell_of s cpu;
}.

Lemma restored_view s s' : view s' = view s -> restored s s'.
Proof. unfold view. intros [= ? ? ? He]. split; try done. intros cpu. by rewrite He. Qed.

Lemma restored_trans s1 s2 s3 : restored s1 s2 -> restored s2 s3 -> restored s1 s3.
Proof. intros [? ? ? ?] [? ? ? ?]. split; congruence. Qed.

Lemma restored_inv s s' : restored s s' -> hv_inv s -> hv_inv s'.
Proof.
  intros [Hr Ho Hn Hw] [Hi Hk Hp Hc Hm Hu]. unfold all_cells in *.
  split; unfold all_cells; rewrite ?Hr, ?Ho, ?Hn; try done. intros. rewrite Hw. by apply Hc.
Qed.

Lemma restored_covered s s' cpu : restored s s' -> covered s' cpu <-> covered s cpu.
Proof. intros [Hr Ho Hn Hw]. unfold covered, all_cells. by rewrite Hr, Ho. Qed.

Lemma all_cells_ok s c : hv_inv s -> c ∈ all_cells s -> cpu_set_ok (m_cpus c).
Proof.
  intros HI [->|Hc]%elem_of_cons; [apply HI|].
  apply list_elem_of_In in Hc. by apply (proj1 (List.Forall_forall _ _) (hi_others _ HI)).
Qed.

Lemma cell_unique s c c' : hv_inv s -> c ∈ all_cells s -> c' ∈ all_cells s -> m_id c = m_id c' -> c = c'.
Proof.
  intros HI Hc Hc' Hid. pose proof (hi_ids _ HI) as Hnd. revert Hc Hc' Hnd.
  induction (all_cells s) as [|x l IH]; [by intros ?%elem_of_nil|].
  rewrite fmap_cons, !elem_of_cons, NoDup_cons.
  intros [->|Hc] [->|Hc'] [Hx Hnd]; auto; exfalso; apply Hx.
  - rewrite Hid. by apply list_elem_of_fmap_2.
  - rewrite <- Hid. by apply list_elem_of_fmap_2.
Qed.

(** A CPU is in one cell. *)
Lemma cells_disjoint s c c' cpu :
  hv_inv s -> c ∈ all_cells s -> c' ∈ all_cells s ->
  in_set (m_cpus c) cpu -> in_set (m_cpus c') cpu -> c = c'.
Proof.
  intros HI Hc Hc' Hi Hi'. eapply cell_unique; [done|done|done|].
  rewrite <- (hi_owner _ HI c cpu), <- (hi_owner _ HI c' cpu) by done. done.
Qed.

(** ** Moved CPUs *)

Notation moved := (@moved E).

Lemma moved_quiet l id own s s1 s2 evs :
  moved l id own s s1 -> view s2 = view s1 -> events s2 = events s1 ++ evs -> Forall calm evs ->
  moved l id own s s2.
Proof.
  intros [R B O N W (e & He & Hc & Hp)] [= Vr Vo Vn Vw] Hev Hcalm.
  split; rewrite ?Vr, ?Vo, ?Vn; try done.
  - intros cpu. by rewrite Vw.
  - exists (e ++ evs). split; [by rewrite Hev, He, <- (assoc_L (++))|].
    split; [by apply Forall_app|]. intros cpu Hin. apply elem_of_app. left. auto.
Qed.

(** The root cell after it got or lost CPUs. *)
Lemma moved_in_set l id own s s' cpu :
  moved l id own s s' ->
  in_set (m_cpus (root_cell s')) cpu <->
  0 <= cpu <= max_cpu_id (m_cpus (root_cell s)) /\
  (if bool_decide (cpu ∈ l) then own else test_bit cpu (bitmap (m_cpus (root_cell s)))) = true.
Proof.
  intros Hm. unfold in_set. rewrite (moved_root_max _ _ _ _ _ Hm). split.
  - intros [Hr Hb]. split; [done|]. by rewrite <- (mv_bits _ _ _ _ _ Hm) by lia.
  - intros [Hr Hb]. split; [done|]. by rewrite (mv_bits _ _ _ _ _ Hm) by lia.
Qed.

(** Taking CPUs and giving them back changes nothing. *)
Lemma moved_back l id s s1 s2 :
  (forall cpu, cpu ∈ l -> test_bit cpu (bitmap (m_cpus (root_cell s))) = true /\
                          cell_of s cpu = m_id (root_cell s)) ->
  moved l id false s s1 -> moved l (m_id (root_cell s)) true s1 s2 -> restored s s2.
Proof.
  intros Hl M1 M2. pose proof M1 as [R1 B1 O1 N1 W1 _]. pose proof M2 as [R2 B2 O2 N2 W2 _].
  assert (bitmap (m_cpus (root_cell s2)) = bitmap (m_cpus (root_cell s))) as Hb.
  { apply Z.bits_inj'. intros n Hn. specialize (B1 n Hn). specialize (B2 n Hn). unfold test_bit in *.
    rewrite B2, B1. case_bool_decide as Hin; [|done]. symmetry. by apply (Hl n). }
  split.
  - rewrite <- (set_bitmap_same (root_cell s)), <- R1, <- (set_bitmap_same (root_cell s2)), Hb.
    rewrite <- (set_bitmap_twice _ (bitmap (m_cpus (root_cell s1))) (root_cell s2)), R2.
    by rewrite set_bitmap_twice.
  - congruence.
  - congruence.
  - intros cpu. rewrite W2, W1. case_bool_decide as Hin; [|done]. symmetry. by apply Hl.
Qed.

(** ** Giving back the CPUs and the memory of a cell *)

Lemma cpus_of_nonneg c exc : cpu_set_ok (m_cpus c) -> Forall (fun cpu => 0 <= cpu) (cpus_of c exc).
Proof.
  intros Hok. apply List.Forall_forall. intros cpu Hin%list_elem_of_In.
  apply elem_of_cpus_of in Hin as [[? _] _]; [lia|done].
Qed.

Lemma elem_of_all_cpus c cpu : cpu_set_ok (m_cpus c) -> cpu ∈ cpus_of c (-1) <-> in_set (m_cpus c) cpu.
Proof.
  intros Hok. rewrite elem_of_cpus_of by done. split; [by intros []|]. intros Hin. split; [done|].
  destruct Hin as [? _]. unfold cpu_set_ok in Hok. change (u32 (-1)) with 4294967295. lia.
Qed.

Lemma quiet_destroy_rest cs c :
  cpu_set_ok (m_cpus (view_root cs)) -> cpu_set_ok (m_cpus c) ->
  quiet cs calm any
    (_ ← for_each (mem_regions (m_config c)) (fun mem =>
       _ ← (if is_subpage mem then mret 0 else unmap_in P (m_id c) mem);
       if kept_by_root mem then mret tt else _ ← remap_to_root_cell P mem WARN_ON_ERROR; mret tt);
     _ ← for_each (reverse (p_units P)) (fun u => platform_do (unit_cell_exit u (m_id c)));
     _ ← arch_cell_destroy P c;
     _ ← config_commit P (Some c);
     cell_exit P c).
Proof.
  intros Hr Hc.
  eapply (quiet_bind _ _ any); [quiet; auto using quiet_unmap_in, quiet_remap|]. intros _ _.
  eapply (quiet_bind _ _ any); [quiet|]. intros _ _.
  eapply (quiet_bind _ _ any); [by apply quiet_arch_cell_destroy|]. intros _ _.
  eapply (quiet_bind _ _ any); [|intros _ _; apply quiet_cell_exit].
  apply quiet_commit; [done|]. by intros ? [= <-].
Qed.

Lemma destroy_internal_run c s :
  cpu_set_ok (m_cpus (root_cell s)) -> cpu_set_ok (m_cpus c) ->
  exists s', cell_destroy_internal P c s = Some (tt, s') /\
    moved (cpus_of c (-1)) (m_id (root_cell s)) true s s'.
Proof.
  intros Hr Hc. destruct (return_cpus_run (cpus_of c (-1)) s (cpus_of_nonneg _ _ Hc)) as (s1 & Hr1 & Hm1).
  destruct (quiet_destroy_rest (view s1) c) with (s := s1) as (x & s2 & Hr2 & _ & Hv2 & evs & He2 & Hc2);
    [|done|done|].
  { unfold view_root, view. unfold cpu_set_ok in *. by rewrite (moved_root_max _ _ _ _ _ Hm1). }
  exists s2. split; [|by eapply moved_quiet].
  unfold cell_destroy_internal. erewrite bind_run.
  2: { unfold lift, from_option, for_each_cpu. by rewrite (for_each_cpus c (-1) Hc). }
  cbv beta. erewrite bind_run by exact Hr1. cbv beta. rewrite Hr2. by destruct x.
Qed.

(** ** Creating a cell *)

(** A configuration whose CPU set is not empty and whose cell answers in time. *)
Definition good_config (cfg : cell_config) : Prop :=
  1 <= cpu_set_size cfg /\ patient (new_cell cfg).

(** The new cell has its CPUs and the root cell has lost them. *)
Record created (c : mcell) (s s' : H) : Prop := {
  cr_cpus cpu : in_set (m_cpus c) cpu -> in_set (m_cpus (root_cell s)) cpu;
  cr_new : m_id c ∉ m_id <$> all_cells s;
  cr_root : m_id (root_cell s') = m_id (root_cell s) /\
            max_cpu_id (m_cpus (root_cell s')) = max_cpu_id (m_cpus (root_cell s));
  cr_root_cpus cpu : in_set (m_cpus (root_cell s')) cpu <->
                     in_set (m_cpus (root_cell s)) cpu /\ ~ in_set (m_cpus c) cpu;
  cr_others : other_cells s' = other_cells s ++ [c];
  cr_num : num_cells s' = u32 (num_cells s + 1);
  cr_mine cpu : in_set (m_cpus c) cpu -> cell_of s' cpu = m_id c;
  cr_theirs cpu : ~ in_set (m_cpus c) cpu -> cell_of s' cpu = cell_of s cpu;
  cr_ok : cpu_set_ok (m_cpus c) /\ patient c;
}.

Lemma created_inv c s s' : hv_inv s -> created c s s' -> hv_inv s'.
Proof.
  intros HI [Hin Hnew [Hrid Hrmax] Hrc Ho Hn Hm Ht [Hok Hp]].
  pose proof HI as [Hi Hr Hf Hw Hmax Hnum]. unfold all_cells in *. split; unfold all_cells.
  - rewrite Ho, fmap_cons, fmap_app, Hrid. change (m_id (root_cell s) :: (m_id <$> other_cells s) ++ (m_id <$> [c]))
      with ((m_id <$> root_cell s :: other_cells s) ++ [m_id c]).
    apply NoDup_app. split_and!; [done| |apply NoDup_singleton].
    intros x Hx ->%list_elem_of_singleton. done.
  - unfold cpu_set_ok in *. by rewrite Hrmax.
  - rewrite Ho. apply Forall_app. split; [done|]. by apply Forall_singleton.
  - rewrite Ho. intros c' cpu Hc' Hcpu.
    assert (c' ∈ other_cells s \/ c' = c \/ c' = root_cell s') as [Hc1|[->| ->]] by set_solver.
    + destruct (decide (in_set (m_cpus c) cpu)) as [Hcc|Hcc].
      * exfalso. assert (c' = root_cell s) as ->.
        { apply (cells_disjoint s c' (root_cell s) cpu HI); unfold all_cells; try done; [by right|by left|by apply Hin]. }
        rewrite fmap_cons, NoDup_cons in Hi. apply (proj1 Hi). by apply list_elem_of_fmap_2.
      * rewrite Ht by done. apply Hw; [by right|done].
    + by apply Hm.
    + apply Hrc in Hcpu as [Hcpu Hcc]. rewrite Ht, Hrid by done. apply Hw; [left|done].
  - rewrite Ho, Hrmax. intros c' cpu [Hc'| ->%list_elem_of_singleton]%elem_of_app Hcpu.
    + by apply (Hmax c').
    + apply Hin in Hcpu as [? _]. lia.
  - rewrite Hn, Hnum, Ho. simpl. rewrite length_app. simpl.
    unfold u32, wrap. rewrite Zplus_mod_idemp_l. f_equal. lia.
Qed.

Lemma created_covered c s s' cpu : created c s s' -> covered s' cpu <-> covered s cpu.
Proof.
  intros [Hin _ _ Hrc Ho _ _ _ _]. unfold covered, all_cells. rewrite Ho. split.
  - intros (c' & Hc' & Hcpu). assert (c' ∈ other_cells s \/ c' = c \/ c' = root_cell s') as [?|[->| ->]] by set_solver.
    + exists c'. split; [by right|done].
    + exists (root_cell s). split; [left|by apply Hin].
    + exists (root_cell s). split; [left|by apply Hrc].
  - intros (c' & [->|Hc']%elem_of_cons & Hcpu).
    + destruct (decide (in_set (m_cpus c) cpu)).
      * exists c. split; [set_solver|done].
      * exists (root_cell s'). split; [left|by apply Hrc].
    + exists c'. split; [set_solver|done].
Qed.

(** ** Calls that end by resuming the root cell *)

(** [m] ends with a result and a state in [Q]; it adds calm events, then some
    that are no changes, then those that resume the CPUs of the root cell. *)
Definition finishes (this : Z) (s : H) (m : HV Z) (Q : Z -> H -> Prop) : Prop :=
  exists r s', m s = Some (r, s') /\ Q r s' /\
    exists body post, events s' = events s ++ body ++ post ++ resumptions (root_cell s') this /\
      Forall calm body /\ Forall (fun e => changes e = false) post.

Lemma finishes_step {A} this s (m : HV A) x s1 evs (f : A -> HV Z) Q :
  m s = Some (x, s1) -> events s1 = events s ++ evs -> Forall calm evs ->
  finishes this s1 (f x) Q -> finishes this s (m ≫= f) Q.
Proof.
  intros Hm He Hc (r & s' & Hr & HQ & body & post & Hb & Hbc & Hp).
  exists r, s'. split; [by erewrite bind_run by exact Hm|]. split; [done|].
  exists (evs ++ body), post. split; [by rewrite Hb, He, <- !(assoc_L (++))|].
  split; [by apply Forall_app|done].
Qed.

(** The last events that are no changes. *)
Lemma finishes_last {A} this (s s1 : H) (m : HV A) x evs err (Q : Z -> H -> Prop) :
  m s = Some (x, s1) -> events s1 = events s ++ evs -> Forall (fun e => changes e = false) evs ->
  cpu_set_ok (m_cpus (root_cell s1)) -> Q err (add_events (resumptions (root_cell s1) this) s1) ->
  finishes this s (_ ← m; err_resume this err) Q.
Proof.
  intros Hm He Hc Hok HQ. exists err, (add_events (resumptions (root_cell s1) this) s1). split_and!.
  - erewrite bind_run by exact Hm. unfold err_resume. by erewrite bind_run by (by apply cell_resume_run).
  - done.
  - exists [], evs. split; [simpl; by rewrite He, <- (assoc_L (++))|]. by split; [constructor|].
Qed.

Lemma finishes_quiet {A} this s (Pe : event -> Prop) (Q1 : A -> Prop) (m : HV A) (f : A -> HV Z) Q :
  quiet (view s) Pe Q1 m -> (forall e, Pe e -> calm e) ->
  (forall x s1, Q1 x -> view s1 = view s -> finishes this s1 (f x) Q) ->
  finishes this s (m ≫= f) Q.
Proof.
  intros Hm HP Hf. destruct (Hm s eq_refl) as (x & s1 & Hr & HQ1 & Hv & evs & He & Hev).
  eapply finishes_step; [exact Hr|exact He| |by apply Hf]. eapply Forall_impl; [exact Hev|exact HP].
Qed.

Lemma finishes_resume this s err (Q : Z -> H -> Prop) :
  cpu_set_ok (m_cpus (root_cell s)) -> (forall s', view s' = view s -> Q err s') ->
  finishes this s (err_resume this err) Q.
Proof.
  intros Hok HQ. exists err, (add_events (resumptions (root_cell s) this) s). split_and!.
  - unfold err_resume. by erewrite bind_run by (by apply cell_resume_run).
  - by apply HQ.
  - exists [], []. split; [done|]. by split; constructor.
Qed.

Lemma finishes_weaken this s m (Q Q' : Z -> H -> Prop) :
  finishes this s m Q -> (forall r s', Q r s' -> Q' r s') -> finishes this s m Q'.
Proof. intros (r & s' & ? & ? & ?) HQ. exists r, s'. auto. Qed.

Lemma view_root_ok (s s1 : H) :
  view s1 = view s -> cpu_set_ok (m_cpus (root_cell s)) -> cpu_set_ok (m_cpus (root_cell s1)).
Proof. by intros [= -> _ _ _]. Qed.

Lemma all_cells_view (s s1 : H) : view s = view s1 -> all_cells s = all_cells s1.
Proof. unfold all_cells. by intros [= -> -> _ _]. Qed.

Section Exits.
Context (this pages err : Z).
Notation ends s m := (finishes this s m (fun r s' => r = err /\ view s' = view s)).

Lemma err_free_cell_run s :
  cpu_set_ok (m_cpus (root_cell s)) -> ends s (err_free_cell P this pages err).
Proof.
  intros Hok. eapply finishes_quiet; [by apply (quiet_platform_do _ asks any)|apply asks_calm|].
  intros _ s1 _ Hv. apply finishes_resume; [by eapply view_root_ok|]. intros s' Hs'. by rewrite Hs'.
Qed.

Lemma err_cell_exit_run c s :
  cpu_set_ok (m_cpus (root_cell s)) -> ends s (err_cell_exit P this pages err c).
Proof.
  intros Hok. eapply finishes_quiet; [apply quiet_cell_exit|done|].
  intros _ s1 _ Hv. rewrite <- Hv. apply err_free_cell_run. by eapply view_root_ok.
Qed.

Lemma err_arch_destroy_run c s :
  cpu_set_ok (m_cpus (root_cell s)) -> cpu_set_ok (m_cpus c) ->
  ends s (err_arch_destroy P this pages err c).
Proof.
  intros Hok Hc. eapply finishes_quiet; [by apply quiet_arch_cell_destroy|done|].
  intros _ s1 _ Hv. rewrite <- Hv. apply err_cell_exit_run. by eapply view_root_ok.
Qed.

Lemma err_destroy_cell_run c s0 s :
  cpu_set_ok (m_cpus (root_cell s)) -> cpu_set_ok (m_cpus c) ->
  (forall cpu, cpu ∈ cpus_of c (-1) -> test_bit cpu (bitmap (m_cpus (root_cell s0))) = true /\
                                       cell_of s0 cpu = m_id (root_cell s0)) ->
  moved (cpus_of c (-1)) (m_id c) false s0 s ->
  finishes this s (err_destroy_cell P this pages err c) (fun r s' => r = err /\ restored s0 s').
Proof.
  intros Hok Hc Hin Hm. destruct (destroy_internal_run c s Hok Hc) as (s1 & Hr & Hm1).
  pose proof Hm1 as [_ _ _ _ _ (evs & He & Hec & _)].
  rewrite (moved_root_id _ _ _ _ _ Hm) in Hm1.
  eapply finishes_step; [exact Hr|exact He|exact Hec|].
  eapply finishes_weaken; [apply err_free_cell_run|].
  - unfold cpu_set_ok in *. by rewrite (moved_root_max _ _ _ _ _ Hm1).
  - intros r s' [-> Hv]. split; [done|].
    eapply restored_trans; [by eapply moved_back|by apply restored_view].
Qed.
End Exits.

Lemma new_cell_ok cfg :
  good_config cfg -> cpu_set_size cfg <= PAGE_SIZE -> cpu_set_ok (m_cpus (new_cell cfg)).
Proof.
  intros [Hs _] Hp. unfold cpu_set_ok, new_cell. simpl. unfold PAGE_SIZE in Hp.
  rewrite u64_small by lia. lia.
Qed.

(** The last part of [cell_create]: the new cell is announced. *)
Lemma finishes_linked this (c : mcell) (s s1 s2 : H) :
  responsive P patience -> hv_inv s -> cpu_set_ok (m_cpus c) /\ patient c ->
  root_cell s1 = root_cell s2 -> cpu_set_ok (m_cpus (root_cell s2)) ->
  other_cells s1 = other_cells s ++ [c] ->
  finishes this s1
    (_ ← cell_reconfig_completed P patience this; _ ← cell_resume this; mret 0)
    (fun r s' => r = 0 /\ view s' = view s1).
Proof.
  intros Hack HI Hc Hr Hok Ho.
  eapply finishes_quiet; [apply quiet_completed; [done|]|apply asks_calm|].
  - simpl. rewrite Ho. apply Forall_app. split; [apply HI|by apply Forall_singleton].
  - intros _ s3 _ Hv. apply finishes_resume; [eapply view_root_ok; [exact Hv|by rewrite Hr]|].
    intros s' Hs'. by rewrite Hs'.
Qed.

Lemma moved_created (c : mcell) (s s1 s2 : H) l :
  hv_inv s -> cpu_set_ok (m_cpus c) /\ patient c -> m_id c ∉ m_id <$> all_cells s ->
  (forall cpu, in_set (m_cpus c) cpu -> in_set (m_cpus (root_cell s)) cpu) ->
  l = cpus_of c (-1) -> moved l (m_id c) false s s1 ->
  root_cell s2 = root_cell s1 -> other_cells s2 = other_cells s1 ++ [c] ->
  num_cells s2 = u32 (num_cells s1 + 1) -> cell_of s2 = cell_of s1 ->
  created c s s2.
Proof.
  intros HI Hc Hnew Hin -> Hm Hr Ho Hn Hw. pose proof Hm as [_ _ O1 N1 W1 _].
  assert (forall cpu, cpu ∈ cpus_of c (-1) <-> in_set (m_cpus c) cpu) as Hl
    by (intros; apply elem_of_all_cpus; apply Hc).
  split; rewrite ?Hr, ?Ho, ?Hn, ?Hw, ?O1, ?N1; try done.
  - split; [by eapply moved_root_id|by eapply moved_root_max].
  - intros cpu. rewrite (moved_in_set _ _ _ _ _ _ Hm). unfold in_set at 1.
    case_bool_decide as Hd; rewrite Hl in Hd; naive_solver.
  - intros cpu Hcpu. rewrite W1. by rewrite bool_decide_true by by apply Hl.
  - intros cpu Hcpu. rewrite W1. rewrite bool_decide_false; [done|]. by rewrite Hl.
Qed.

Definition create_outcome (cfg : cell_config) (s : H) (r : Z) (s' : H) : Prop :=
  (r <> 0 /\ restored s s') \/ (r = 0 /\ created (new_cell cfg) s s').

Lemma create_outcome_view cfg (s s1 : H) r s' :
  view s1 = view s -> create_outcome cfg s1 r s' -> create_outcome cfg s r s'.
Proof. destruct s, s1. intros [= -> -> -> ->] [[? []]|[? []]]; [left|right]; by split. Qed.

(** From the moment the CPUs are taken. *)
Lemma create_take_run this pages cfg s :
  responsive P patience -> hv_inv s -> good_config cfg -> cfg_id cfg ∉ m_id <$> all_cells s ->
  cpu_set_ok (m_cpus (new_cell cfg)) ->
  (forall cpu, in_set (m_cpus (new_cell cfg)) cpu -> in_set (m_cpus (root_cell s)) cpu) ->
  finishes this s
    (_ ← for_each (cpus_of (new_cell cfg) (-1)) (take_cpu (m_id (new_cell cfg)));
     err ← move_regions P (mem_regions cfg) (new_cell cfg);
     if negb (err =? 0) then err_destroy_cell P this pages err (new_cell cfg)
     else
       _ ← config_commit P (Some (new_cell cfg));
       _ ← platform_do (p_set_cell_state P (m_id (new_cell cfg)) JAILHOUSE_CELL_SHUT_DOWN);
       _ ← modify (fun s => set_cells (other_cells s ++ [new_cell cfg]) (u32 (num_cells s + 1)) s);
       _ ← cell_reconfig_completed P patience this;
       _ ← cell_resume this;
       mret 0)
    (create_outcome cfg s).
Proof.
  intros Hack HI Hg Hnew Hok Hin. set (c := new_cell cfg) in *.
  destruct (take_cpus_run (m_id c) (cpus_of c (-1)) s (cpus_of_nonneg _ _ Hok)) as (s1 & Hr1 & Hm1).
  pose proof Hm1 as [_ _ _ _ _ (ev1 & He1 & Hc1 & _)].
  eapply finishes_step; [exact Hr1|exact He1|exact Hc1|]. cbv beta.
  destruct (quiet_move_regions P (view s1) (mem_regions cfg) c s1 eq_refl)
    as (err & s2 & Hr2 & _ & Hv2 & ev2 & He2 & Hc2).
  eapply finishes_step; [exact Hr2|exact He2|exact Hc2|]. cbv beta.
  assert (moved (cpus_of c (-1)) (m_id c) false s s2) as Hm2 by by eapply moved_quiet.
  assert (cpu_set_ok (m_cpus (root_cell s2))) as Hroot2.
  { unfold cpu_set_ok. rewrite (moved_root_max _ _ _ _ _ Hm2). apply HI. }
  assert (forall cpu, cpu ∈ cpus_of c (-1) -> test_bit cpu (bitmap (m_cpus (root_cell s))) = true /\
                                              cell_of s cpu = m_id (root_cell s)) as Hback.
  { intros cpu Hcpu%elem_of_all_cpus; [|done]. apply Hin in Hcpu. split; [apply Hcpu|].
    apply HI; [left|done]. }
  zcase.
  { eapply finishes_weaken; [by eapply err_destroy_cell_run|]. intros r s' [-> Hres]. by left. }
  eapply finishes_quiet; [by apply quiet_commit; [|intros ? [= <-]]|done|]. intros _ s3 _ Hv3. cbv beta.
  eapply finishes_quiet; [by apply (quiet_platform_do _ asks any)|apply asks_calm|].
  intros _ s4 _ Hv4. cbv beta. rewrite Hv3 in Hv4. injection Hv4 as Vr Vo Vn Vw.
  eapply finishes_step; [done|by rewrite app_nil_r|constructor|]. cbv beta.
  eapply finishes_weaken.
  { eapply (finishes_linked _ c s _ s2 Hack); try done; [by split; [|apply Hg]|].
    simpl. by rewrite Vo, (mv_others _ _ _ _ _ Hm2). }
  intros r s' [-> Hv']. right. split; [done|]. injection Hv' as Wr Wo Wn Ww.
  eapply (moved_created _ _ s2); try done; [by split; [|apply Hg]|by rewrite Wr|by rewrite Wo, Vo|by rewrite Wn, Vn|by rewrite Ww].
Qed.

Lemma create_cell_run this pages cfg s :
  responsive P patience -> hv_inv s -> good_config cfg -> cfg_id cfg ∉ m_id <$> all_cells s ->
  finishes this s (cell_create_cell P patience this pages cfg) (create_outcome cfg s).
Proof.
  intros Hack HI Hg Hnew. pose proof (hi_root _ HI) as Hroot.
  assert (forall err s2, view s2 = view s -> err <> 0 -> create_outcome cfg s err s2) as Herr.
  { intros e s2 Hv He. left. split; [done|by apply restored_view]. }
  eapply finishes_quiet; [apply quiet_cell_init|done|].
  intros [err c] s1 [Hc Hsz] Hv1; simpl in Hc, Hsz; subst c.
  assert (cpu_set_ok (m_cpus (root_cell s1))) as Hroot1 by by eapply view_root_ok. zcase.
  { eapply finishes_weaken; [by apply err_free_cell_run|]. intros r s' [-> Hv].
    apply Herr; [by rewrite Hv|done]. }
  assert (cpu_set_ok (m_cpus (new_cell cfg))) as Hok by (apply new_cell_ok; auto).
  eapply finishes_step; [done|by rewrite app_nil_r|constructor|]. cbv beta.
  eapply finishes_step; [|by rewrite app_nil_r|constructor|].
  { unfold lift, from_option, for_each_cpu. by rewrite (for_each_cpus _ _ Hok). }
  cbv beta zeta. destruct (_ || _) eqn:Howns.
  { eapply finishes_weaken; [by apply err_cell_exit_run|]. intros r s' [-> Hv].
    apply Herr; [by rewrite Hv|done]. }
  apply orb_false_iff in Howns as [_ Howns%negb_false_iff].
  eapply finishes_quiet; [by apply (quiet_platform_op _ asks any)|apply asks_calm|].
  intros err2 s2 _ Hv2. cbv beta. rewrite Hv1 in Hv2.
  assert (cpu_set_ok (m_cpus (root_cell s2))) as Hroot2 by by eapply view_root_ok. zcase.
  { eapply finishes_weaken; [by apply err_cell_exit_run|].
    intros r s' [-> Hv]. apply Herr; [by rewrite Hv|done]. }
  eapply finishes_quiet; [apply quiet_units_init|done|]. intros err3 s3 _ Hv3. cbv beta. rewrite Hv2 in Hv3.
  assert (cpu_set_ok (m_cpus (root_cell s3))) as Hroot3 by by eapply view_root_ok. zcase.
  { eapply finishes_weaken; [by apply err_arch_destroy_run|].
    intros r s' [-> Hv]. apply Herr; [by rewrite Hv|done]. }
  eapply finishes_weaken; [|intros r s'; by apply create_outcome_view].
  apply create_take_run; [done|by apply (restored_inv s); [apply restored_view|]|done| |done|].
  { by rewrite (all_cells_view s3 s). }
  intros cpu Hcpu. pose proof Hcpu as [Hr _]. apply elem_of_all_cpus, list_elem_of_In in Hcpu; [|done].
  pose proof (proj1 (List.forallb_forall _ _) Howns cpu Hcpu) as Hroot'. cbv beta in Hroot'.
  injection Hv1 as Hv1 _ _ _. injection Hv3 as -> _ _ _. rewrite Hv1 in Hroot'. b2p.
  split; [lia|done].
Qed.

(** ** Calls from the root cell *)

(** The new events respect the order for the CPUs in [R], and the CPUs of the
    root cell other than the caller run in the end. *)
Definition well_ordered (this : Z) (R : Z -> Prop) (s s' : H) : Prop :=
  exists evs, events s' = events s ++ evs /\ disciplined R evs /\
    forall cpu, in_set (m_cpus (root_cell s')) cpu -> cpu <> u32 this -> stopped evs cpu = false.

Lemma stopped_resumptions c this evs cpu :
  cpu_set_ok (m_cpus c) -> in_set (m_cpus c) cpu -> cpu <> u32 this ->
  stopped (evs ++ resumptions c this) cpu = false.
Proof.
  intros Hok Hin Hne. assert (cpu ∈ cpus_of c this) as Hc by by apply elem_of_cpus_of.
  apply list_elem_of_split in Hc as (l1 & l2 & Hl). unfold resumptions, stopped.
  rewrite Hl, fmap_app, fmap_cons, !foldl_app. simpl. rewrite Z.eqb_refl.
  clear Hl. induction l2 as [|x l2 IH]; simpl; [done|]. by destruct (x =? cpu).
Qed.

Lemma stopped_suspensions c this cpu :
  cpu_set_ok (m_cpus c) -> in_set (m_cpus c) cpu -> cpu <> u32 this ->
  Ctl (Suspend cpu) ∈ suspensions c this.
Proof.
  intros Hok Hin Hne. apply (list_elem_of_fmap_2' _ (cpus_of c this) cpu); [by apply elem_of_cpus_of|done].
Qed.

Lemma resumptions_no_change c this : Forall (fun e => changes e = false) (resumptions c this).
Proof. apply List.Forall_forall. by intros ? (? & -> & ?)%list_elem_of_In%list_elem_of_fmap. Qed.

Lemma suspensions_asks c this : Forall asks (suspensions c this).
Proof. apply List.Forall_forall. by intros ? (? & -> & ?)%list_elem_of_In%list_elem_of_fmap. Qed.

(** Suspension requests [pre] that reach the CPUs in [R], a calm body, changes
    no more, and the resumption of the root cell. *)
Lemma well_ordered_phases this (R : Z -> Prop) (s s' : H) pre body post :
  events s' = events s ++ pre ++ body ++ post ++ resumptions (root_cell s') this ->
  cpu_set_ok (m_cpus (root_cell s')) -> Forall asks pre ->
  (forall cpu, R cpu -> Ctl (Suspend cpu) ∈ pre) ->
  Forall calm body -> Forall (fun e => changes e = false) post ->
  well_ordered this R s s'.
Proof.
  intros He Hok Hpre HR Hbody Hpost.
  assert (Forall calm pre) by (eapply Forall_impl; [exact Hpre|apply asks_calm]).
  exists (pre ++ body ++ post ++ resumptions (root_cell s') this). split; [done|]. split.
  - apply disciplined_phases; try done.
    + eapply Forall_impl; [exact Hpre|apply asks_no_change].
    + intros cpu Hcpu. apply stopped_asked; [done|]. left. by apply HR.
    + apply Forall_app. split; [done|apply resumptions_no_change].
  - intros cpu Hin Hne. rewrite !(assoc_L (++)). by apply stopped_resumptions.
Qed.
End Partition.
