(* ===== verification/CellCalls.v ===== *)
(** * Cell management: the calls

    The specification of the management hypercalls of [Management], each on
    every path: what becomes of the cells, what the caller gets, and the order
    of suspending, changing and resuming. *)

From Stdlib Require Import ZArith Lia String.
From stdpp Require Import base tactics list list_numbers option functions sets.
From S2P Require Import Prelude StateMonad Cell CpuControl Mmio Irqchip Bitops PagePool Paging Management CellLifecycle CellPartition.

Section Calls.
Context {E : Type} (P : platform E) (patience : nat) (Hack : responsive P patience).
Notation H := (hv E).
Notation HV := (ST H).
Notation quiet := (@quiet E).
Notation patient := (patient patience).
Notation hv_inv := (@hv_inv E patience).
Notation created := (@created E patience).
Notation finishes := (@finishes E).

#[local] Instance in_set_dec set cpu : Decision (in_set set cpu).
Proof. unfold in_set. apply _. Defined.

(** The CPUs a call from the root cell stops: the others of the root cell. *)
Definition root_others (this : Z) (s : H) (cpu : Z) : Prop :=
  in_set (m_cpus (root_cell s)) cpu /\ cpu <> u32 this.

(** [m] runs on [this] to a result in [Q], in the order described by
    [well_ordered]. *)
Definition call (this : Z) (R : Z -> Prop) (s : H) (m : HV Z) (Q : Z -> H -> Prop) : Prop :=
  exists r s', m s = Some (r, s') /\ Q r s' /\ well_ordered this R s s'.

(** What follows the suspension of the root cell. *)
Lemma call_suspended this s m (Q : Z -> H -> Prop) :
  cpu_set_ok (m_cpus (root_cell s)) ->
  (forall e, finishes this (set_env e (add_events (suspensions (root_cell s) this) s)) m Q) ->
  (forall r s', Q r s' -> cpu_set_ok (m_cpus (root_cell s'))) ->
  call this (root_others this s) s (_ ← cell_suspend P patience (root_cell s) this; m) Q.
Proof.
  intros Hok Hf Hok'. destruct (cell_suspend_run P patience (root_cell s) this s Hack Hok) as [e Hsus].
  destruct (Hf e) as (r & s' & Hm & HQ & body & post & He & Hb & Hp). exists r, s'. split_and!; [|done|].
  - by erewrite bind_run by exact Hsus.
  - eapply (well_ordered_phases _ _ _ _ (suspensions (root_cell s) this) body post); eauto.
    + rewrite He. simpl. by rewrite <- (assoc_L (++)).
    + apply suspensions_asks.
    + intros cpu [Hin Hne]. by apply stopped_suspensions.
Qed.

(** ** Creating a cell *)

(** Either nothing has changed, or the cell of a configuration that was read
    at the address is there. *)
Definition create_result (addr : Z) (s : H) (r : Z) (s' : H) : Prop :=
  (r <> 0 /\ restored s s') \/
  (r = 0 /\ exists e, created (new_cell (p_config P addr e)) s s').

Lemma create_result_inv addr s r s' :
  hv_inv s -> create_result addr s r s' -> hv_inv s' /\ forall cpu, covered s' cpu <-> covered s cpu.
Proof.
  intros HI [[_ Hr]|(_ & e & Hc)].
  - split; [by eapply restored_inv|]. intros cpu. by apply restored_covered.
  - split; [by eapply created_inv|]. intros cpu. by eapply created_covered.
Qed.

Lemma config_is_new cfg (l : list mcell) :
  existsb (fun c => String.eqb (cfg_name (m_config c)) (cfg_name cfg) || (m_id c =? cfg_id cfg)) l = false ->
  cfg_id cfg ∉ m_id <$> l.
Proof.
  intros Hex (c & Hid & Hc%list_elem_of_In)%list_elem_of_fmap.
  assert (existsb (fun c => String.eqb (cfg_name (m_config c)) (cfg_name cfg) || (m_id c =? cfg_id cfg)) l = true).
  { apply existsb_exists. exists c. split; [done|]. by rewrite Hid, Z.eqb_refl, orb_true_r. }
  congruence.
Qed.

(** The step of a call that leaves the cells alone. *)
Lemma finishes_view {A} this (s s0 : H) (m : HV A) (f : A -> HV Z) Q :
  (forall cs, quiet cs asks any m) -> view s0 = view s ->
  (forall x s1, view s1 = view s -> finishes this s1 (f x) Q) -> finishes this s0 (m ≫= f) Q.
Proof.
  intros Hm Hv Hf. eapply finishes_quiet; [apply Hm|apply asks_calm|].
  intros x s1 _ Hv1. apply Hf. by rewrite Hv1.
Qed.

Lemma create_error this addr (s s1 : H) err :
  hv_inv s -> view s1 = view s -> err <> 0 ->
  finishes this s1 (err_resume this err) (create_result addr s).
Proof.
  intros HI Hv He. apply finishes_resume; [eapply view_root_ok; [done|apply HI]|].
  intros s' Hs'. left. split; [done|]. apply restored_view. by rewrite Hs'.
Qed.

(** From the configuration check on. *)
Lemma create_suspended this addr offs (s s0 : H) :
  hv_inv s -> (forall e, good_config patience (p_config P addr e)) -> view s0 = view s ->
  finishes this s0
    (ok ← cell_reconfig_ok P None;
     if negb ok then err_resume this (- EPERM)
     else
       mapped ← platform_op (p_get_pages P addr (PAGES (offs + p_sizeof_desc P)));
       if negb mapped then err_resume this (- ENOMEM)
       else
         cfg ← platform_get (p_config P addr);
         s ← get;
         if existsb (fun c => String.eqb (cfg_name (m_config c)) (cfg_name cfg) || (m_id c =? cfg_id cfg))
              (root_cell s :: other_cells s)
         then err_resume this (- EEXIST)
         else
           if NUM_TEMPORARY_PAGES <? PAGES (offs + config_size cfg) then err_resume this (- E2BIG)
           else
             mapped ← platform_op (p_get_pages P addr (PAGES (offs + config_size cfg)));
             if negb mapped then err_resume this (- ENOMEM)
             else
               ok ← platform_op (p_alloc P (PAGES (p_sizeof_cell P + config_size cfg)));
               if negb ok then err_resume this (- ENOMEM)
               else cell_create_cell P patience this (PAGES (p_sizeof_cell P + config_size cfg)) cfg)
    (create_result addr s).
Proof.
  intros HI Hgood Hv0.
  eapply finishes_view; [intros; apply quiet_reconfig_ok|exact Hv0|]. intros ok s1 Hv1. cbv beta.
  destruct (negb ok); [by apply create_error|].
  eapply finishes_view; [intros; by apply quiet_platform_op|exact Hv1|]. intros mp s2 Hv2. cbv beta.
  destruct (negb mp); [by apply create_error|].
  eapply finishes_step; [done|by rewrite app_nil_r|constructor|]. cbv beta.
  eapply finishes_step; [done|by rewrite app_nil_r|constructor|]. cbv beta.
  set (cfg := p_config P addr (env s2)).
  destruct (existsb _ _) eqn:Hnew; [by apply create_error|].
  destruct (NUM_TEMPORARY_PAGES <? _); [by apply create_error|].
  eapply finishes_view; [intros; by apply quiet_platform_op|exact Hv2|]. intros mp' s3 Hv3. cbv beta.
  destruct (negb mp'); [by apply create_error|].
  eapply finishes_view; [intros; by apply quiet_platform_op|exact Hv3|]. intros ok' s4 Hv4. cbv beta.
  destruct (negb ok'); [by apply create_error|].
  eapply finishes_weaken; [apply create_cell_run; [exact Hack|..]|].
  - eapply restored_inv; [by apply restored_view|done].
  - apply Hgood.
  - apply config_is_new. injection Hv2 as V2 V2' _ _. injection Hv4 as V4 V4' _ _.
    unfold all_cells. rewrite V4, V4', <- V2, <- V2'. exact Hnew.
  - intros r s' Hr. apply (create_outcome_view _ _ s) in Hr; [|done].
    destruct Hr as [Hr|[Hr Hc]]; [by left|right]. split; [done|]. by exists (env s2).
Qed.

Lemma cell_create_run this addr s :
  hv_inv s -> (forall e, good_config patience (p_config P addr e)) -> cell_of s this = m_id (root_cell s) ->
  call this (root_others this s) s (cell_create P patience this addr) (create_result addr s).
Proof.
  intros HI Hgood Hcaller.
  edestruct (call_suspended this s) as (r & s' & Hm & HQ); [apply HI|intros e; by apply create_suspended| |].
  { intros r s' HQ. by apply (hi_root patience), (create_result_inv addr s r). }
  exists r, s'. split; [|exact HQ].
  unfold cell_create. erewrite bind_run by done. cbv beta. rewrite Hcaller, Z.eqb_refl. exact Hm.
Qed.

(** ** Managing an existing cell *)

(** The CPUs such a call stops: also those of the cell. *)
Definition cell_and_root (this id : Z) (s : H) (cpu : Z) : Prop :=
  root_others this s cpu \/
  exists c, c ∈ other_cells s /\ m_id c = id /\ in_set (m_cpus c) cpu /\ cpu <> u32 this.

Lemma well_ordered_no_change this R (s s' : H) pre :
  events s' = events s ++ pre ++ resumptions (root_cell s') this ->
  cpu_set_ok (m_cpus (root_cell s')) -> Forall asks pre -> well_ordered this R s s'.
Proof.
  intros He Hok Hpre. exists (pre ++ resumptions (root_cell s') this). split; [done|]. split.
  - intros l1 e l2 cpu Heq Hch. exfalso.
    assert (Forall (fun e => changes e = false) (pre ++ resumptions (root_cell s') this)) as Hf.
    { apply Forall_app. split; [|apply resumptions_no_change].
      eapply Forall_impl; [exact Hpre|apply asks_no_change]. }
    rewrite Heq in Hf. apply Forall_app in Hf as [_ Hf]. apply Forall_cons in Hf as [Hf _]. congruence.
  - intros cpu Hin Hne. by apply stopped_resumptions.
Qed.

(** The call was refused. *)
Definition refused (s s' : H) (r : Z) : Prop := r < 0 /\ restored s s'.

(** What the prologue does: the cell was found and everything is suspended, or
    the root cell runs again. *)
Definition prologue_result (this id : Z) (s : H) (r : Z + mcell) (s' : H) : Prop :=
  view s' = view s /\
  match r with
  | inr c => exists pre, events s' = events s ++ pre /\ Forall asks pre /\
      c ∈ other_cells s /\ m_id c = id /\
      (forall cpu, root_others this s cpu -> Ctl (Suspend cpu) ∈ pre) /\
      (forall cpu, in_set (m_cpus c) cpu -> cpu <> u32 this -> Ctl (Suspend cpu) ∈ pre)
  | inl err => err < 0 /\ exists pre,
      events s' = events s ++ pre ++ resumptions (root_cell s') this /\ Forall asks pre
  end.

Lemma find_cell s id :
  hv_inv s ->
  match list_find (fun c => m_id c = id) (all_cells s) with
  | None => True
  | Some (n, c) => m_id c = id /\ (n = 0%nat \/ c ∈ other_cells s)
  end.
Proof.
  intros HI. destruct (list_find _ _) as [[n c]|] eqn:Hf; [|done].
  apply list_find_Some in Hf as (Hl & Hid & _). split; [done|].
  destruct n; [by left|right]. simpl in Hl. by eapply list_elem_of_lookup_2.
Qed.

Lemma prologue_run task this id s :
  hv_inv s -> cell_of s this = m_id (root_cell s) ->
  exists r s', cell_management_prologue P patience task this id s = Some (r, s') /\
    prologue_result this id s r s'.
Proof.
  intros HI Hcaller. pose proof (hi_root _ _ HI) as Hroot.
  unfold cell_management_prologue. erewrite bind_run by done. cbv beta. rewrite Hcaller, Z.eqb_refl.
  cbv beta iota delta [negb]. destruct (cell_suspend_run P patience (root_cell s) this s Hack Hroot) as [e0 Hs0].
  erewrite bind_run by exact Hs0. cbv beta. clear Hs0.
  set (s0 := set_env e0 (add_events (suspensions (root_cell s) this) s)).
  assert (forall err s1 pre, view s1 = view s -> err < 0 ->
    events s1 = events s0 ++ pre -> Forall asks pre ->
    exists r s', (_ ← cell_resume this; mret (inl err)) s1 = Some (r, s') /\ prologue_result this id s r s')
    as Herr.
  { intros err s1 pre Hv He Hev Hpre. assert (cpu_set_ok (m_cpus (root_cell s1))) by by eapply view_root_ok.
    eexists _, _. split; [by erewrite bind_run by (by apply cell_resume_run)|].
    split; [done|]. split; [done|]. exists (suspensions (root_cell s) this ++ pre).
    split; [simpl; rewrite Hev; unfold s0; simpl; by rewrite <- !(assoc_L (++))|]. apply Forall_app. split; [|done].
    apply suspensions_asks. }
  pose proof (find_cell s id HI) as Hfind.
  change (root_cell s :: other_cells s) with (all_cells s).
  destruct (list_find _ _) as [[n c]|]; [|by apply (Herr _ _ []); rewrite ?app_nil_r].
  destruct n as [|n]; [by apply (Herr _ _ []); rewrite ?app_nil_r|].
  destruct Hfind as [Hid [?|Hc]]; [done|].
  assert (cpu_set_ok (m_cpus c) /\ patient c) as [Hokc Hp].
  { apply (proj1 (List.Forall_forall _ _) (hi_others _ _ HI)). by apply list_elem_of_In. }
  assert (forall cs, quiet cs asks any (if bool_decide (task = CELL_DESTROY)
     then ok ← cell_reconfig_ok P (Some (m_id c)); mret (negb ok) else mret false)) as Hq1.
  { intros. quiet. apply quiet_reconfig_ok. }
  destruct (Hq1 _ s0 eq_refl) as (x & s1 & Hr1 & _ & Hv1 & ev1 & He1 & Ha1).
  erewrite bind_run by exact Hr1. cbv beta.
  assert (forall cs, quiet cs asks any (if x then mret false else cell_shutdown_ok P patience c this)) as Hq2.
  { intros. destruct x; [by apply quiet_ret|]. by apply quiet_exchange. }
  destruct (Hq2 _ s1 eq_refl) as (ok & s2 & Hr2 & _ & Hv2 & ev2 & He2 & Ha2).
  erewrite bind_run by exact Hr2. cbv beta.
  destruct ok; cbv beta iota delta [negb].
  - destruct (cell_suspend_run P patience c this s2 Hack Hokc) as [e2 Hs2].
    erewrite bind_run by exact Hs2. eexists _, _. split; [reflexivity|].
    split; [transitivity (view s2); [done|by rewrite Hv2, Hv1]|].
    exists (suspensions (root_cell s) this ++ ev1 ++ ev2 ++ suspensions c this).
    split; [simpl; rewrite He2, He1; unfold s0; simpl; by rewrite <- !(assoc_L (++))|].
    split; [rewrite !Forall_app; split_and!; try done; apply suspensions_asks|].
    split_and!; [done|done| |].
    + intros cpu [Hin Hne]. apply elem_of_app. left. by apply stopped_suspensions.
    + intros cpu Hin Hne. rewrite !elem_of_app. do 3 right. by apply stopped_suspensions.
  - apply (Herr _ _ (ev1 ++ ev2)); [by rewrite Hv2, Hv1|done|by rewrite He2, He1, (assoc_L (++))|].
    by apply Forall_app.
Qed.

(** A management call is its prologue and what it does to the cell. *)
Lemma managed_run task this id s (m : mcell -> HV Z) (Q : mcell -> Z -> H -> Prop) :
  hv_inv s -> cell_of s this = m_id (root_cell s) ->
  (forall c s1, c ∈ other_cells s -> m_id c = id -> view s1 = view s -> finishes this s1 (m c) (Q c)) ->
  (forall c r s', Q c r s' -> cpu_set_ok (m_cpus (root_cell s'))) ->
  call this (cell_and_root this id s) s
    (r ← cell_management_prologue P patience task this id;
     match r with inl err => mret err | inr c => m c end)
    (fun r s' => refused s s' r \/ exists c, c ∈ other_cells s /\ m_id c = id /\ Q c r s').
Proof.
  intros HI Hcaller Hm HQ.
  destruct (prologue_run task this id s HI Hcaller) as ([err|c] & s1 & Hr & Hv & Hres).
  - destruct Hres as (He & pre & Hev & Hpre). exists err, s1. split_and!.
    + by erewrite bind_run by exact Hr.
    + left. split; [done|by apply restored_view].
    + eapply well_ordered_no_change; [exact Hev| |done]. by apply (view_root_ok s), HI.
  - destruct Hres as (pre & Hev & Hpre & Hc & Hid & Hroot & Hcell).
    destruct (Hm c s1 Hc Hid Hv) as (r & s' & Hr' & HQ' & body & post & Hev' & Hbody & Hpost).
    exists r, s'. split_and!.
    + by erewrite bind_run by exact Hr.
    + right. by exists c.
    + eapply (well_ordered_phases _ _ _ _ pre body post); eauto.
      * by rewrite Hev', Hev, <- (assoc_L (++)).
      * intros cpu [?|(c' & Hc' & Hid' & Hin & Hne)]; [by apply Hroot|]. apply Hcell; [|done].
        assert (c' = c) as ->; [|done]. eapply (cell_unique patience); [exact HI| | |congruence]; by right.
Qed.

(** *** Destroying *)

(** The CPUs of the cell are back in the root cell and the cell is gone. *)
Record removed (c : mcell) (s s' : H) : Prop := {
  rm_root : m_id (root_cell s') = m_id (root_cell s) /\
            max_cpu_id (m_cpus (root_cell s')) = max_cpu_id (m_cpus (root_cell s));
  rm_root_cpus cpu : in_set (m_cpus (root_cell s')) cpu <->
                     in_set (m_cpus (root_cell s)) cpu \/ in_set (m_cpus c) cpu;
  rm_others : other_cells s' = filter (fun c' => m_id c' <> m_id c) (other_cells s);
  rm_num : num_cells s' = u32 (num_cells s - 1);
  rm_mine cpu : in_set (m_cpus c) cpu -> cell_of s' cpu = m_id (root_cell s);
  rm_theirs cpu : ~ in_set (m_cpus c) cpu -> cell_of s' cpu = cell_of s cpu;
}.

Lemma other_is_not_root s c : hv_inv s -> c ∈ other_cells s -> c <> root_cell s.
Proof.
  intros HI Hc ->. pose proof (hi_ids _ _ HI) as Hnd. unfold all_cells in Hnd.
  rewrite fmap_cons, NoDup_cons in Hnd. apply Hnd. by apply list_elem_of_fmap_2.
Qed.

Lemma others_nodup s : hv_inv s -> NoDup (other_cells s).
Proof.
  intros HI. pose proof (hi_ids _ _ HI) as Hnd. unfold all_cells in Hnd.
  rewrite fmap_cons, NoDup_cons in Hnd. eapply NoDup_fmap_1, Hnd.
Qed.

Lemma filter_id {A} (Q : A -> Prop) `{!forall x, Decision (Q x)} (l : list A) :
  (forall x, x ∈ l -> Q x) -> filter Q l = l.
Proof.
  induction l as [|x l IH]; intros HQ; [done|]. rewrite filter_cons_True by (apply HQ; left).
  f_equal. apply IH. intros y Hy. apply HQ. by right.
Qed.

Lemma filter_one s c :
  hv_inv s -> c ∈ other_cells s ->
  S (length (filter (fun c' => m_id c' <> m_id c) (other_cells s))) = length (other_cells s).
Proof.
  intros HI Hc. pose proof (hi_ids _ _ HI) as Hnd. unfold all_cells in Hnd.
  rewrite fmap_cons, NoDup_cons in Hnd. destruct Hnd as [_ Hnd].
  induction (other_cells s) as [|x l IH]; [by apply elem_of_nil in Hc|].
  rewrite fmap_cons, NoDup_cons in Hnd. destruct Hnd as [Hx Hnd].
  rewrite filter_cons. case_decide as Hd.
  - simpl. f_equal. apply IH; [|done]. by apply elem_of_cons in Hc as [->|?].
  - assert (m_id x = m_id c) as Hid by (destruct (decide (m_id x = m_id c)); tauto).
    simpl. f_equal. f_equal. apply filter_id. intros y Hy Hyc. apply Hx. rewrite Hid, <- Hyc. by apply list_elem_of_fmap_2.
Qed.

Lemma removed_elem s s' c c' :
  hv_inv s -> c ∈ other_cells s -> removed c s s' ->
  c' ∈ other_cells s' <-> c' ∈ other_cells s /\ c' <> c.
Proof.
  intros HI Hc Hrm. rewrite (rm_others _ _ _ Hrm), list_elem_of_filter. split.
  - intros [Hid Hc']. split; [done|]. by intros ->.
  - intros [Hc' Hne]. split; [|done]. intros Hid. apply Hne.
    eapply (cell_unique patience); [exact HI|by right|by right|done].
Qed.

Lemma removed_inv s s' c :
  hv_inv s -> c ∈ other_cells s -> removed c s s' -> hv_inv s'.
Proof.
  intros HI Hc Hrm. pose proof (fun c' => removed_elem s s' c c' HI Hc Hrm) as Ho.
  destruct Hrm as [[Hrid Hrmax] Hrc Hf Hn Hm Ht]. pose proof HI as [Hi Hr Hfo Hw Hmax Hnum].
  unfold all_cells in *. split; unfold all_cells.
  - rewrite fmap_cons, Hrid, <- fmap_cons. eapply sublist_NoDup; [exact Hi|].
    rewrite !fmap_cons, Hf. apply sublist_skip, fmap_sublist, sublist_filter.
  - unfold cpu_set_ok in *. by rewrite Hrmax.
  - apply List.Forall_forall. intros c' [Hc' _]%list_elem_of_In%Ho.
    apply (proj1 (List.Forall_forall _ _) Hfo). by apply list_elem_of_In.
  - intros c' cpu [->|Hc']%elem_of_cons Hcpu.
    + apply Hrc in Hcpu as [Hcpu|Hcpu]; [|by rewrite Hm, Hrid].
      rewrite Hrid. destruct (decide (cell_of s' cpu = m_id (root_cell s))) as [|Hne]; [done|].
      rewrite Ht; [by apply Hw; [left|]|]. intros Hcc. by rewrite Hm in Hne.
    + apply Ho in Hc' as [Hc' Hne]. rewrite Ht; [by apply Hw; [right|]|]. intros Hcc. apply Hne.
      eapply (cells_disjoint patience); [exact HI|by right|by right|done|done].
  - intros c' cpu [Hc' _]%Ho Hcpu. rewrite Hrmax. by eapply Hmax.
  - rewrite Hn, Hnum, Hf. simpl. pose proof (filter_one s c HI Hc) as Hl. rewrite <- Hl.
    unfold u32, wrap. rewrite Zminus_mod_idemp_l. f_equal. lia.
Qed.

Lemma removed_covered s s' c cpu :
  hv_inv s -> c ∈ other_cells s -> removed c s s' -> covered s' cpu <-> covered s cpu.
Proof.
  intros HI Hc Hrm. pose proof (fun c' => removed_elem s s' c c' HI Hc Hrm) as Ho.
  destruct Hrm as [_ Hrc _ _ _ _]. unfold covered, all_cells. split.
  - intros (c' & [->|[Hc' _]%Ho]%elem_of_cons & Hcpu); [|by exists c'; split; [right|]].
    apply Hrc in Hcpu as [Hcpu|Hcpu]; [by exists (root_cell s); split; [left|]|].
    by exists c; split; [right|].
  - intros (c' & [->|Hc']%elem_of_cons & Hcpu).
    + exists (root_cell s'). split; [left|]. apply Hrc. by left.
    + destruct (decide (in_set (m_cpus c) cpu)) as [Hin|Hin].
      * exists (root_cell s'). split; [left|]. apply Hrc. by right.
      * exists c'. split; [right|done]. apply Ho. split; [done|]. by intros ->.
Qed.

Lemma moved_removed (c : mcell) (s s1 s2 : H) :
  hv_inv s -> c ∈ other_cells s -> moved (cpus_of c (-1)) (m_id (root_cell s)) true s s1 ->
  root_cell s2 = root_cell s1 ->
  other_cells s2 = filter (fun c' => m_id c' <> m_id c) (other_cells s1) ->
  num_cells s2 = u32 (num_cells s1 - 1) -> cell_of s2 = cell_of s1 ->
  removed c s s2.
Proof.
  intros HI Hc Hm Hr Ho Hn Hw. pose proof Hm as [_ _ O1 N1 W1 _].
  assert (cpu_set_ok (m_cpus c)) as Hok by (eapply (all_cells_ok patience); [exact HI|by right]).
  assert (forall cpu, cpu ∈ cpus_of c (-1) <-> in_set (m_cpus c) cpu) as Hl
    by (intros; by apply elem_of_all_cpus).
  split; rewrite ?Hr, ?Ho, ?Hn, ?Hw, ?O1, ?N1; try done.
  - split; [by eapply moved_root_id|by eapply moved_root_max].
  - intros cpu. rewrite (moved_in_set _ _ _ _ _ _ Hm). unfold in_set at 1.
    pose proof (hi_max _ _ HI c cpu Hc) as Hmax.
    case_bool_decide as Hd; rewrite Hl in Hd; [|naive_solver].
    split; [by right|]. intros _. pose proof (proj1 Hd). split; [|done]. specialize (Hmax Hd). lia.
  - intros cpu Hcpu. rewrite W1. by rewrite bool_decide_true by by apply Hl.
  - intros cpu Hcpu. rewrite W1. rewrite bool_decide_false; [done|]. by rewrite Hl.
Qed.

Lemma destroy_body_run this id c s :
  hv_inv s -> c ∈ other_cells s -> m_id c = id ->
  finishes this s
    (_ ← cell_destroy_internal P c;
     _ ← modify (fun s => set_cells (filter (fun c => m_id c <> id) (other_cells s))
                                    (u32 (num_cells s - 1)) s);
     _ ← platform_do (p_free P (PAGES (p_sizeof_cell P + config_size (m_config c))));
     _ ← cell_reconfig_completed P patience this;
     out_resume this 0)
    (fun r s' => r = 0 /\ removed c s s').
Proof.
  intros HI Hc <-. pose proof (all_cells_ok _ _ c HI ltac:(by right)) as Hok.
  destruct (destroy_internal_run P c s (hi_root _ _ HI) Hok) as (s1 & Hr1 & Hm1).
  pose proof Hm1 as [_ _ _ _ _ (ev1 & He1 & Hc1 & _)].
  eapply finishes_step; [exact Hr1|exact He1|exact Hc1|]. cbv beta.
  eapply finishes_step; [done|by rewrite app_nil_r|constructor|]. cbv beta.
  set (s2 := set_cells _ _ s1).
  assert (removed c s s2) as Hrm by by eapply moved_removed.
  assert (hv_inv s2) as HI2 by by eapply removed_inv.
  eapply finishes_view; [intros; by apply (quiet_platform_do _ asks any)|done|]. intros _ s3 Hv3. cbv beta.
  eapply finishes_quiet; [apply quiet_completed; [done|]|apply asks_calm|].
  { rewrite Hv3. apply HI2. }
  intros _ s4 _ Hv4. rewrite Hv3 in Hv4.
  apply finishes_resume; [by apply (view_root_ok s2), HI2|].
  intros s' Hs'. split; [done|]. rewrite Hv4 in Hs'. injection Hs' as Vr Vo Vn Vw.
  eapply moved_removed; [exact HI|exact Hc|exact Hm1|..]; by rewrite ?Vr, ?Vo, ?Vn, ?Vw.
Qed.

(** *** Starting and loading *)

Definition label (id : Z) (b : bool) (c : mcell) : mcell :=
  if m_id c =? id then set_loadable b c else c.

(** Only the mark of the cell has changed. *)
Record labelled (id : Z) (b : bool) (s s' : H) : Prop := {
  lb_root : root_cell s' = root_cell s;
  lb_others : other_cells s' = label id b <$> other_cells s;
  lb_num : num_cells s' = num_cells s;
  lb_owner cpu : cell_of s' cpu = cell_of s cpu;
}.

Lemma label_config id b c : m_config (label id b c) = m_config c.
Proof. unfold label. by case_match. Qed.
Lemma label_cpus id b c : m_cpus (label id b c) = m_cpus c.
Proof. unfold label. by case_match. Qed.
Lemma label_id id b c : m_id (label id b c) = m_id c.
Proof. unfold m_id. by rewrite label_config. Qed.

Lemma labelled_elem id b (s s' : H) c :
  labelled id b s s' -> c ∈ other_cells s' ->
  exists c0, c0 ∈ other_cells s /\ m_id c = m_id c0 /\ m_cpus c = m_cpus c0 /\ m_config c = m_config c0.
Proof.
  intros [_ Ho _ _] Hc. rewrite Ho in Hc. apply list_elem_of_fmap in Hc as (c0 & -> & Hc0).
  exists c0. by rewrite label_id, label_cpus, label_config.
Qed.

Lemma labelled_inv id b s s' : hv_inv s -> labelled id b s s' -> hv_inv s'.
Proof.
  intros [Hi Hr Hf Hw Hm Hn] Hl. pose proof (labelled_elem id b s s') as He.
  pose proof Hl as [Lr Lo Ln Lw]. unfold all_cells in *. split; unfold all_cells; rewrite ?Lr; try done.
  - rewrite Lo, fmap_cons, <- list_fmap_compose. erewrite list_fmap_ext; [exact Hi|].
    intros _ c _. apply label_id.
  - apply List.Forall_forall. intros c Hc%list_elem_of_In. destruct (He c Hl Hc) as (c0 & Hc0 & _ & Hcp & Hcf).
    apply list_elem_of_In in Hc0. destruct (proj1 (List.Forall_forall _ _) Hf c0 Hc0) as [Hok Hp].
    unfold CellLifecycle.patient in *. by rewrite Hcp, Hcf.
  - intros c cpu [->|Hc]%elem_of_cons Hcpu; rewrite Lw; [by apply Hw; [left|]|].
    destruct (He c Hl Hc) as (c0 & Hc0 & -> & Hcp & _). rewrite Hcp in Hcpu. by apply Hw; [right|].
  - intros c cpu Hc Hcpu. destruct (He c Hl Hc) as (c0 & Hc0 & _ & Hcp & _). rewrite Hcp in Hcpu. by eapply Hm.
  - rewrite Ln, Hn, Lo. simpl. by rewrite length_fmap.
Qed.

Lemma labelled_covered id b (s s' : H) cpu : labelled id b s s' -> covered s' cpu <-> covered s cpu.
Proof.
  intros Hl. pose proof Hl as [Lr Lo _ _]. unfold covered, all_cells. rewrite Lr. split.
  - intros (c & [->|Hc]%elem_of_cons & Hcpu); [by exists (root_cell s); split; [left|]|].
    destruct (labelled_elem id b s s' c Hl Hc) as (c0 & Hc0 & _ & Hcp & _). rewrite Hcp in Hcpu.
    exists c0. by split; [right|].
  - intros (c & [->|Hc]%elem_of_cons & Hcpu); [by exists (root_cell s); split; [left|]|].
    exists (label id b c). rewrite label_cpus, Lo. split; [|done]. right. by apply list_elem_of_fmap_2.
Qed.

(** The end of a successful start: every CPU of the cell was reset and runs. *)
Definition started (c : mcell) (this : Z) (s' : H) : Prop :=
  (forall cpu, in_set (m_cpus c) cpu -> failed s' cpu = false) /\
  exists pre, events s' = pre ++ ((fun cpu => Ctl (Reset cpu)) <$> cpus_of c (-1)) ++
                          resumptions (root_cell s') this.

Lemma reset_cpus_run l (s : H) :
  exists s', for_each l (fun cpu => _ ← clear_failed cpu; arch_reset_cpu cpu) s = Some (tt, s') /\
    view s' = view s /\ events s' = events s ++ ((fun cpu => Ctl (Reset cpu)) <$> l) /\
    forall cpu, failed s' cpu = if bool_decide (cpu ∈ l) then false else failed s cpu.
Proof.
  revert s. induction l as [|x l IH]; intros s; simpl.
  - exists s. by rewrite app_nil_r.
  - set (s1 := add_event (Ctl (Reset x)) (set_failed (<[x := false]> (failed s)) s)).
    destruct (IH s1) as (s' & Hr & Hv & He & Hf). exists s'. split_and!.
    + by rewrite (bind_run _ _ _ tt s1).
    + done.
    + rewrite He. simpl. by rewrite <- (assoc_L (++)).
    + intros cpu. rewrite Hf. simpl. destruct (decide (cpu = x)) as [->|Hne].
      * rewrite fn_lookup_insert. repeat case_bool_decide; set_solver.
      * rewrite fn_lookup_insert_ne by done. repeat case_bool_decide; set_solver.
Qed.

Lemma quiet_arch_cell_reset cs c :
  cpu_set_ok (m_cpus c) -> quiet cs calm any (arch_cell_reset P c).
Proof.
  intros Hok. unfold arch_cell_reset.
  destruct (next_cpu_total (-1) (m_cpus c) (-1)) as (f & Hf & _); [done|unfold cpu_set_ok in Hok; lia|].
  eapply (quiet_bind _ _ any); [by apply (quiet_lift _ _ _ _ f)|]. intros first _.
  eapply (quiet_bind _ _ any); [quiet|]. intros _ _.
  apply quiet_cpus; [done|]. quiet.
Qed.

(** What [cell_start] does to the cells. *)
Definition start_result (this id : Z) (c : mcell) (s : H) (r : Z) (s' : H) : Prop :=
  (r <> 0 /\ restored s s') \/ (r = 0 /\ labelled id false s s' /\ started c this s').

(** The unmapping of the loadable regions. *)
Definition start_unload (id : Z) (c : mcell) : HV Z :=
  if loadable c then
    err ← unmap_loadable P (mem_regions (m_config c));
    if negb (err =? 0) then mret err
    else _ ← config_commit P None; _ ← upd_cell id (set_loadable false); mret 0
  else mret 0.

Lemma label_all id b s c :
  hv_inv s -> c ∈ other_cells s -> m_id c = id -> loadable c = b -> label id b <$> other_cells s = other_cells s.
Proof.
  intros HI Hc Hid Hb. rewrite <- (list_fmap_id (other_cells s)) at 2. apply list_fmap_ext.
  intros i x Hx%list_elem_of_lookup_2. unfold label. zcase; [|done].
  assert (x = c) as -> by (eapply (cell_unique patience); [exact HI|by right|by right|congruence]).
  subst b. by destruct c.
Qed.

Lemma start_unload_run id c s :
  hv_inv s -> c ∈ other_cells s -> m_id c = id ->
  exists err s', start_unload id c s = Some (err, s') /\
    (exists evs, events s' = events s ++ evs /\ Forall calm evs) /\
    ((err <> 0 /\ restored s s') \/ (err = 0 /\ labelled id false s s')).
Proof.
  intros HI Hc Hid. unfold start_unload. destruct (loadable c) eqn:Hl.
  - destruct (quiet_unmap_loadable P (view s) (mem_regions (m_config c)) s eq_refl)
      as (err & s1 & Hr1 & _ & Hv1 & ev1 & He1 & Hc1).
    erewrite bind_run by exact Hr1. cbv beta. zcase.
    { eexists _, _. split; [done|]. split; [by exists ev1|]. left. split; [done|by apply restored_view]. }
    destruct (quiet_commit P (view s) None) with (s := s1) as (x & s2 & Hr2 & _ & Hv2 & ev2 & He2 & Hc2);
      [apply HI|done|done|].
    erewrite bind_run by exact Hr2. eexists _, _. split; [reflexivity|]. split.
    + exists (ev1 ++ ev2). split; [simpl; by rewrite He2, He1, <- (assoc_L (++))|by apply Forall_app].
    + right. split; [done|]. injection Hv2 as Vr Vo Vn Vw. split; simpl; try done; [by rewrite Vo|by rewrite Vw].
  - eexists _, _. split; [done|]. split; [exists []; by rewrite app_nil_r|]. right. split; [done|].
    split; try done. by erewrite label_all.
Qed.

Lemma labelled_root_ok id b s s' : hv_inv s -> labelled id b s s' -> cpu_set_ok (m_cpus (root_cell s')).
Proof. intros HI Hl. rewrite (lb_root _ _ _ _ Hl). apply HI. Qed.

(** A state that differs in what the calls do not see. *)
Lemma labelled_view id b (s s1 s' : H) : labelled id b s s1 -> view s' = view s1 -> labelled id b s s'.
Proof. intros [Lr Lo Ln Lw] [= Vr Vo Vn Vw]. split; rewrite ?Vr, ?Vo, ?Vn, ?Vw; done. Qed.

Lemma start_body_run this id c s :
  hv_inv s -> c ∈ other_cells s -> m_id c = id ->
  finishes this s
    (err ← start_unload id c;
     if negb (err =? 0) then out_resume this err
     else
       _ ← platform_do (p_clear_comm_page P (m_id c));
       _ ← arch_cell_reset P c;
       l ← lift (for_each_cpu (m_cpus c));
       _ ← for_each l (fun cpu => _ ← clear_failed cpu; arch_reset_cpu cpu);
       out_resume this 0)
    (start_result this id c s).
Proof.
  intros HI Hc Hid. pose proof (all_cells_ok _ _ c HI ltac:(by right)) as Hok.
  destruct (start_unload_run id c s HI Hc Hid) as (err & s1 & Hr1 & (ev1 & He1 & Hc1) & Hres).
  eapply finishes_step; [exact Hr1|exact He1|exact Hc1|]. cbv beta.
  destruct Hres as [[Hne Hres]|[-> Hl]].
  { rewrite (proj2 (Z.eqb_neq _ _) Hne). apply finishes_resume.
    - rewrite (rs_root _ _ Hres). apply HI.
    - intros s' Hv. left. split; [done|]. eapply restored_trans; [exact Hres|by apply restored_view]. }
  cbv beta iota delta [negb Z.eqb].
  eapply finishes_quiet; [by apply (quiet_platform_do _ asks any)|apply asks_calm|]. intros _ s2 _ Hv2. cbv beta.
  eapply finishes_quiet; [by apply quiet_arch_cell_reset|done|]. intros _ s3 _ Hv3. cbv beta. rewrite Hv2 in Hv3.
  eapply finishes_step; [|by rewrite app_nil_r|constructor|].
  { unfold lift, from_option, for_each_cpu. by rewrite (for_each_cpus _ _ Hok). }
  cbv beta. destruct (reset_cpus_run (cpus_of c (-1)) s3) as (s4 & Hr4 & Hv4 & He4 & Hf4).
  rewrite Hv3 in Hv4. pose proof (labelled_view _ _ _ _ _ Hl Hv4) as Hl4.
  eapply finishes_last; [exact Hr4|exact He4| |by eapply labelled_root_ok|].
  { apply List.Forall_forall. by intros ? (? & -> & ?)%list_elem_of_In%list_elem_of_fmap. }
  right. split; [done|]. split; [by eapply labelled_view|]. split.
  - intros cpu Hcpu. simpl. rewrite Hf4. by rewrite bool_decide_true by by apply elem_of_all_cpus.
  - exists (events s3). simpl. by rewrite He4, <- (assoc_L (++)).
Qed.

(** What [cell_set_loadable] does to the cells, also when a region cannot be
    given to the root cell. *)
Lemma loadable_body_run this id c s :
  hv_inv s -> c ∈ other_cells s -> m_id c = id ->
  finishes this s
    (l ← lift (for_each_cpu (m_cpus c));
     _ ← for_each l (fun cpu => _ ← clear_failed cpu; arch_park_cpu cpu);
     if loadable c then out_resume this 0
     else
       _ ← platform_do (p_set_cell_state P (m_id c) JAILHOUSE_CELL_SHUT_DOWN);
       _ ← upd_cell id (set_loadable true);
       err ← remap_loadable P (mem_regions (m_config c));
       if negb (err =? 0) then out_resume this err
       else _ ← config_commit P None; out_resume this 0)
    (fun r s' => labelled id true s s').
Proof.
  intros HI Hc Hid. pose proof (all_cells_ok _ _ c HI ltac:(by right)) as Hok.
  eapply finishes_step; [|by rewrite app_nil_r|constructor|].
  { unfold lift, from_option, for_each_cpu. by rewrite (for_each_cpus _ _ Hok). }
  cbv beta.
  eapply (finishes_quiet _ _ _ any); [|intros e He; exact He|].
  { apply quiet_for_each. intros x _.
    eapply (quiet_bind _ _ any); [by apply quiet_modify|]. intros _ _. by apply quiet_emit. }
  intros _ s1 _ Hv1. cbv beta.
  destruct (loadable c) eqn:Hl.
  { assert (labelled id true s s) as Hl0 by (split; try done; by erewrite label_all).
    apply finishes_resume; [by apply (view_root_ok s), HI|]. intros s' Hv.
    eapply labelled_view; [exact Hl0|]. by rewrite Hv. }
  eapply finishes_quiet; [by apply (quiet_platform_do _ asks any)|apply asks_calm|].
  intros _ s2 _ Hv2. cbv beta. rewrite Hv1 in Hv2.
  eapply finishes_step; [done|by rewrite app_nil_r|constructor|]. cbv beta.
  set (s3 := set_cells _ _ s2).
  assert (labelled id true s s3) as Hl3.
  { injection Hv2 as Vr Vo Vn Vw. split; simpl; try done; [by rewrite Vo|by rewrite Vw]. }
  eapply finishes_quiet; [apply quiet_remap_loadable|done|]. intros err s4 _ Hv4. cbv beta.
  pose proof (labelled_view _ _ _ _ _ Hl3 Hv4) as Hl4. zcase.
  { apply finishes_resume; [by eapply labelled_root_ok|]. intros s' Hv. by eapply labelled_view. }
  eapply finishes_quiet; [apply quiet_commit; [by eapply labelled_root_ok|done]|done|].
  intros _ s5 _ Hv5. pose proof (labelled_view _ _ _ _ _ Hl4 Hv5) as Hl5.
  apply finishes_resume; [by eapply labelled_root_ok|]. intros s' Hv. by eapply labelled_view.
Qed.
End Calls.
