(* ===== verification/CellManagement.v ===== *)
(** * Cell management: theorems

    What the management hypercalls guarantee, each call and any sequence of
    them: every CPU stays in exactly one cell, a failed creation leaves no
    trace, creating and destroying undo each other, memory maps and CPU
    assignment change only while the CPUs concerned are stopped, and calls from
    other cells have no effect. *)

From Stdlib Require Import ZArith Lia String.
From stdpp Require Import base tactics list list_numbers option functions sets.
From S2P Require Import Prelude StateMonad Cell CpuControl Mmio Irqchip Bitops PagePool Paging Management CellLifecycle CellPartition CellCalls.

(** The management hypercalls of [hypercall]. *)
Inductive request :=
| HC_CELL_CREATE (config_address : Z)
| HC_CELL_START (id : Z)
| HC_CELL_SET_LOADABLE (id : Z)
| HC_CELL_DESTROY (id : Z)
| HC_CELL_GET_STATE (id : Z).

Section Theorems.
Context {E : Type} (P : platform E) (patience : nat).
Notation H := (hv E).
Notation HV := (ST H).
Notation hv_inv := (@hv_inv E patience).
Notation call := (@call E).

Definition hypercall (this : Z) (q : request) : HV Z :=
  match q with
  | HC_CELL_CREATE addr => cell_create P patience this addr
  | HC_CELL_START id => cell_start P patience this id
  | HC_CELL_SET_LOADABLE id => cell_set_loadable P patience this id
  | HC_CELL_DESTROY id => cell_destroy P patience this id
  | HC_CELL_GET_STATE id => cell_get_state P this id
  end.

Fixpoint hypercalls (l : list (Z * request)) : HV (list Z) :=
  match l with
  | [] => mret []
  | (this, q) :: l => r ← hypercall this q; rs ← hypercalls l; mret (r :: rs)
  end.

(** CPUs that are asked to suspend acknowledge it: without that
    [arch_suspend_cpu], and with it every management call, never returns. When
    they do is the subject of [CpuProgress]. *)
Context (Hack : responsive P patience).

(** Every configuration the calls may read is good: its CPU set is not empty,
    and its cell does not take part in the exchange of messages or has a
    timeout for its replies. *)
Definition good_configs : Prop := forall addr e, good_config patience (p_config P addr e).

(** ** Each call *)

Lemma view_inv (s s1 : H) : view s1 = view s -> hv_inv s -> hv_inv s1.
Proof. intros Hv. apply restored_inv. by apply restored_view. Qed.

Lemma cell_destroy_run this id s :
  hv_inv s -> cell_of s this = m_id (root_cell s) ->
  call this (cell_and_root this id s) s (cell_destroy P patience this id)
    (fun r s' => refused s s' r \/ exists c, c ∈ other_cells s /\ m_id c = id /\ r = 0 /\ removed c s s').
Proof.
  intros HI Hcaller. eapply managed_run; [exact Hack|exact HI|exact Hcaller| |].
  - intros c s1 Hc Hid Hv. assert (hv_inv s1) as HI1 by by apply (view_inv s).
    eapply finishes_weaken; [apply (destroy_body_run P patience Hack); [exact HI1| |exact Hid]|].
    + injection Hv as _ Vo _ _. by rewrite Vo.
    + intros r s' [-> Hrm]. split; [done|]. destruct s, s1. injection Hv as -> -> -> ->.
      by destruct Hrm; split.
  - intros c r s' [_ [[_ Hmax] _ _ _ _ _]]. unfold cpu_set_ok. rewrite Hmax. apply HI.
Qed.

Lemma cell_start_run this id s :
  hv_inv s -> cell_of s this = m_id (root_cell s) ->
  call this (cell_and_root this id s) s (cell_start P patience this id)
    (fun r s' => refused s s' r \/ exists c, c ∈ other_cells s /\ m_id c = id /\ start_result this id c s r s').
Proof.
  intros HI Hcaller. eapply managed_run; [exact Hack|exact HI|exact Hcaller| |].
  - intros c s1 Hc Hid Hv. assert (hv_inv s1) as HI1 by by apply (view_inv s).
    eapply finishes_weaken; [apply (start_body_run P patience Hack); [exact HI1| |exact Hid]|].
    + injection Hv as _ Vo _ _. by rewrite Vo.
    + intros r s' Hs. destruct s, s1. injection Hv as -> -> -> ->.
      destruct Hs as [[? []]|(? & [] & ?)]; [left|right]; split_and!; try done; by split.
  - intros c r s' [[_ Hr]|(_ & Hr & _)]; [rewrite (rs_root _ _ Hr)|rewrite (lb_root _ _ _ _ Hr)]; apply HI.
Qed.

Lemma cell_set_loadable_run this id s :
  hv_inv s -> cell_of s this = m_id (root_cell s) ->
  call this (cell_and_root this id s) s (cell_set_loadable P patience this id)
    (fun r s' => refused s s' r \/ exists c, c ∈ other_cells s /\ m_id c = id /\ labelled id true s s').
Proof.
  intros HI Hcaller. eapply managed_run; [exact Hack|exact HI|exact Hcaller| |].
  - intros c s1 Hc Hid Hv. assert (hv_inv s1) as HI1 by by apply (view_inv s).
    eapply finishes_weaken; [apply (loadable_body_run P patience); [exact HI1| |exact Hid]|].
    + injection Hv as _ Vo _ _. by rewrite Vo.
    + intros r s' Hs. destruct s, s1. injection Hv as -> -> -> ->. by destruct Hs.
  - intros c r s' Hr. rewrite (lb_root _ _ _ _ Hr). apply HI.
Qed.

(** The CPUs the call stops. *)
Definition concerned (this : Z) (q : request) (s : H) (cpu : Z) : Prop :=
  match q with
  | HC_CELL_CREATE _ => root_others this s cpu
  | HC_CELL_START id | HC_CELL_SET_LOADABLE id | HC_CELL_DESTROY id => cell_and_root this id s cpu
  | HC_CELL_GET_STATE _ => False
  end.

(** What a call can do to the cells. *)
Definition outcome (this : Z) (q : request) (s : H) (r : Z) (s' : H) : Prop :=
  restored s s' \/
  match q with
  | HC_CELL_CREATE addr => r = 0 /\ exists e, created patience (new_cell (p_config P addr e)) s s'
  | HC_CELL_START id => r = 0 /\ labelled id false s s'
  | HC_CELL_SET_LOADABLE id => labelled id true s s'
  | HC_CELL_DESTROY id => r = 0 /\ exists c, c ∈ other_cells s /\ m_id c = id /\ removed c s s'
  | HC_CELL_GET_STATE _ => False
  end.

Lemma outcome_inv this q s r s' :
  hv_inv s -> outcome this q s r s' -> hv_inv s' /\ forall cpu, covered s' cpu <-> covered s cpu.
Proof.
  intros HI [Hr|Ho].
  { split; [by eapply restored_inv|]. intros. by apply restored_covered. }
  destruct q as [addr|id|id|id|id]; simpl in Ho.
  - destruct Ho as (_ & e & Hc). split; [by eapply created_inv|]. intros. by eapply created_covered.
  - destruct Ho as [_ Hl]. split; [by eapply labelled_inv|]. intros. by eapply labelled_covered.
  - split; [by eapply labelled_inv|]. intros. by eapply labelled_covered.
  - destruct Ho as (_ & c & Hc & _ & Hrm). split; [by eapply removed_inv|]. intros. by eapply removed_covered.
  - done.
Qed.

Lemma restored_refl (s : H) : restored s s.
Proof. by split. Qed.

Lemma root_hypercall_run this q s :
  hv_inv s -> good_configs -> cell_of s this = m_id (root_cell s) ->
  (exists id, q = HC_CELL_GET_STATE id) \/
  call this (concerned this q s) s (hypercall this q) (outcome this q s).
Proof.
  intros HI Hg Hcaller. destruct q as [addr|id|id|id|id]; [right..|left; by exists id]; simpl.
  - destruct (cell_create_run P patience Hack this addr s HI (Hg addr) Hcaller) as (r & s' & Hr & HQ & Hw).
    exists r, s'. split; [done|]. split; [|done]. destruct HQ as [[_ ?]|?]; [by left|by right].
  - destruct (cell_start_run this id s HI Hcaller) as (r & s' & Hr & HQ & Hw).
    exists r, s'. split; [done|]. split; [|done].
    destruct HQ as [[_ ?]|(c & _ & _ & [[_ ?]|(? & ? & _)])]; [by left|by left|by right].
  - destruct (cell_set_loadable_run this id s HI Hcaller) as (r & s' & Hr & HQ & Hw).
    exists r, s'. split; [done|]. split; [|done].
    destruct HQ as [[_ ?]|(c & _ & _ & ?)]; [by left|by right].
  - destruct (cell_destroy_run this id s HI Hcaller) as (r & s' & Hr & HQ & Hw).
    exists r, s'. split; [done|]. split; [|done].
    destruct HQ as [[_ ?]|(c & ? & ? & ? & ?)]; [by left|right]. split; [done|]. by exists c.
Qed.

Lemma cell_get_state_run this id s : exists r, cell_get_state P this id s = Some (r, s).
Proof. by eexists. Qed.

Lemma foreign_hypercall_run this q s :
  cell_of s this <> m_id (root_cell s) -> hypercall this q s = Some (- EPERM, s).
Proof.
  intros Hne%Z.eqb_neq.
  assert (forall task id, cell_management_prologue P patience task this id s = Some (inl (- EPERM), s)) as Hp.
  { intros task id. unfold cell_management_prologue. erewrite bind_run by done. cbv beta. by rewrite Hne. }
  destruct q; simpl.
  - unfold cell_create. erewrite bind_run by done. cbv beta. by rewrite Hne.
  - unfold cell_start. by erewrite bind_run by apply Hp.
  - unfold cell_set_loadable. by erewrite bind_run by apply Hp.
  - unfold cell_destroy. by erewrite bind_run by apply Hp.
  - unfold cell_get_state. erewrite bind_run by done. cbv beta. by rewrite Hne.
Qed.

Lemma hypercall_run this q s :
  hv_inv s -> good_configs -> exists r s', hypercall this q s = Some (r, s') /\ outcome this q s r s'.
Proof.
  intros HI Hg. destruct (decide (cell_of s this = m_id (root_cell s))) as [Hc|Hc].
  - destruct (root_hypercall_run this q s HI Hg Hc) as [[id ->]|(r & s' & Hr & Ho & _)].
    + destruct (cell_get_state_run this id s) as [r Hr]. exists r, s. split; [done|]. left. apply restored_refl.
    + by exists r, s'.
  - exists (- EPERM), s. split; [by apply foreign_hypercall_run|]. left. apply restored_refl.
Qed.

(** ** Claims *)

(** C17: Any sequence of management hypercalls, from any CPUs, with any
    behaviour of the devices and the memory and any answers of the cells,
    keeps the partition: afterwards every CPU that was in a cell is in exactly
    one cell, which is the one recorded for it, and the invariant of the cell
    list holds again. The calls return provided that CPUs asked to suspend
    acknowledge it (otherwise [arch_suspend_cpu] never returns) and that every
    cell, existing or created, has a CPU set of at least a byte and either a
    passive communication region or a reply timeout (otherwise a cell that
    does not answer is waited for without end). *)
Theorem management_keeps_partition (l : list (Z * request)) (s : H) :
  hv_inv s -> good_configs ->
  exists rs s', hypercalls l s = Some (rs, s') /\ length rs = length l /\ hv_inv s' /\
    (forall cpu, covered s' cpu <-> covered s cpu) /\
    forall cpu, covered s cpu ->
      exists c, c ∈ all_cells s' /\ in_set (m_cpus c) cpu /\ cell_of s' cpu = m_id c /\
        forall c', c' ∈ all_cells s' -> in_set (m_cpus c') cpu -> c' = c.
Proof.
  intros HI Hg.
  assert (exists rs s', hypercalls l s = Some (rs, s') /\ length rs = length l /\ hv_inv s' /\
    forall cpu, covered s' cpu <-> covered s cpu) as (rs & s' & Hr & Hlen & HI' & Hcov).
  { revert s HI. induction l as [|[this q] l IH]; intros s HI; simpl; [by exists [], s|].
    destruct (hypercall_run this q s HI Hg) as (r & s1 & Hr1 & Ho).
    destruct (outcome_inv this q s r s1 HI Ho) as [HI1 Hc1].
    destruct (IH s1 HI1) as (rs & s2 & Hr2 & Hl & HI2 & Hc2).
    exists (r :: rs), s2. split; [by rewrite (bind_run _ _ _ _ _ Hr1), (bind_run _ _ _ _ _ Hr2)|].
    split; [simpl; by rewrite Hl|]. split; [done|]. intros cpu. by rewrite Hc2. }
  exists rs, s'. split_and!; try done. intros cpu (c & Hc & Hin)%Hcov. exists c. split_and!; try done.
  - by apply (hi_owner _ _ HI').
  - intros c' Hc' Hin'. by eapply (cells_disjoint patience).
Qed.

(** C18: memory maps, CPU assignment and vCPU state change only while the other
    CPUs of the root cell, and for an existing cell its CPUs, were last asked
    to suspend or to park; when the call returns, all the other CPUs of the
    root cell were told to go on. As in C17 the CPUs acknowledge a suspension
    and every cell is passive or has a reply timeout. *)
Theorem hypercall_order (this : Z) (q : request) (s : H) :
  hv_inv s -> good_configs -> cell_of s this = m_id (root_cell s) ->
  exists r s', hypercall this q s = Some (r, s') /\ well_ordered this (concerned this q s) s s'.
Proof.
  intros HI Hg Hc. destruct (root_hypercall_run this q s HI Hg Hc) as [[id ->]|(r & s' & Hr & _ & Hw)].
  - destruct (cell_get_state_run this id s) as [r Hr]. exists r, s. split; [done|].
    exists []. split; [by rewrite app_nil_r|]. split; [by intros []|done].
  - by exists r, s'.
Qed.

(** C19: [cell_create] either returns an error and the cells, their CPUs and the
    records of the CPUs are as before, or returns 0 and the cell of the
    configuration is the last of the list, with the CPUs of its set, which were
    all in the root cell and have left it. The call returns under the
    conditions of C17. *)
Theorem cell_create_atomic (this addr : Z) (s : H) :
  hv_inv s -> good_configs ->
  exists r s', cell_create P patience this addr s = Some (r, s') /\ create_result P patience addr s r s'.
Proof.
  intros HI Hg. destruct (decide (cell_of s this = m_id (root_cell s))) as [Hc|Hc].
  - destruct (cell_create_run P patience Hack this addr s HI (Hg addr) Hc) as (r & s' & Hr & HQ & _). by exists r, s'.
  - exists (- EPERM), s. split; [exact (foreign_hypercall_run this (HC_CELL_CREATE addr) s Hc)|].
    left. split; [done|]. apply restored_refl.
Qed.

(** The same cells with the same CPUs. *)
Record same_cells (s s' : H) : Prop := {
  sc_root : m_id (root_cell s') = m_id (root_cell s);
  sc_root_cpus cpu : in_set (m_cpus (root_cell s')) cpu <-> in_set (m_cpus (root_cell s)) cpu;
  sc_others : other_cells s' = other_cells s;
  sc_num : num_cells s' = num_cells s;
  sc_owner cpu : covered s cpu -> cell_of s' cpu = cell_of s cpu;
}.

Lemma created_removed (c : mcell) (s s1 s2 : H) :
  hv_inv s -> created patience c s s1 -> removed c s1 s2 -> same_cells s s2.
Proof.
  intros HI [Hin Hnew [Hrid _] Hrc Ho Hn Hm Ht _] [[Rrid _] Rrc Ro Rn Rm Rt]. split.
  - congruence.
  - intros cpu. rewrite Rrc, Hrc. split; [intros [[? _]|?]; [done|by apply Hin]|].
    destruct (decide (test_bit cpu (bitmap (m_cpus c)) = true /\ 0 <= cpu <= max_cpu_id (m_cpus c)))
      as [[Hb Hr]|Hno]; [by right|].
    left. split; [done|]. intros [Hr Hb]. by apply Hno.
  - rewrite Ro, Ho, list.filter_app, filter_cons_False, filter_nil, app_nil_r by tauto.
    apply filter_id. intros c' Hc' Heq. apply Hnew. rewrite <- Heq. apply list_elem_of_fmap_2. by right.
  - rewrite Rn, Hn, (hi_num _ _ HI). unfold u32, wrap. rewrite Zminus_mod_idemp_l, Z.add_simpl_r.
    by rewrite Zmod_mod.
  - intros cpu _. destruct (decide (test_bit cpu (bitmap (m_cpus c)) = true /\ 0 <= cpu <= max_cpu_id (m_cpus c)))
      as [[Hb Hr]|Hno].
    + rewrite Rm, Hrid by done. symmetry. apply HI; [left|]. by apply Hin.
    + rewrite Rt, Ht; [done| |]; intros [Hr Hb]; by apply Hno.
Qed.

(** C20: creating a cell and destroying it again gives the root cell exactly the
    CPUs it had and leaves every other cell and the records of all CPUs as they
    were, unless the cell refuses to shut down. The conditions are those of C17. *)
Theorem create_destroy_roundtrip (this this' addr id : Z) (s s1 s2 : H) r :
  hv_inv s -> good_configs ->
  cell_create P patience this addr s = Some (0, s1) ->
  (forall e, cfg_id (p_config P addr e) = id) ->
  cell_destroy P patience this' id s1 = Some (r, s2) ->
  r = 0 /\ same_cells s s2 \/ r < 0 /\ restored s1 s2.
Proof.
  intros HI Hg Hcr Hid Hd.
  assert (exists e, created patience (new_cell (p_config P addr e)) s s1) as [e Hc].
  { destruct (decide (cell_of s this = m_id (root_cell s))) as [Hcal|Hcal].
    - destruct (cell_create_run P patience Hack this addr s HI (Hg addr) Hcal) as (r' & s' & Hr & HQ & _).
      rewrite Hcr in Hr. injection Hr as <- <-. by destruct HQ as [[? _]|[_ ?]].
    - pose proof (foreign_hypercall_run this (HC_CELL_CREATE addr) s Hcal) as Hf. simpl in Hf.
      rewrite Hcr in Hf. discriminate. }
  set (c := new_cell (p_config P addr e)) in *.
  assert (hv_inv s1) as HI1 by by eapply created_inv.
  assert (c ∈ other_cells s1) as Hin.
  { rewrite (cr_others _ _ _ _ Hc). apply elem_of_app. right. left. }
  destruct (decide (cell_of s1 this' = m_id (root_cell s1))) as [Hcal|Hcal].
  - destruct (cell_destroy_run this' id s1 HI1 Hcal) as (r' & s' & Hr & HQ & _).
    rewrite Hd in Hr. injection Hr as <- <-.
    destruct HQ as [[? ?]|(c' & Hc' & Hid' & -> & Hrm)]; [by right|left]. split; [done|].
    assert (c' = c) as ->; [|by eapply created_removed].
    eapply (cell_unique patience); [exact HI1|by right|by right|]. rewrite Hid'. symmetry. apply Hid.
  - pose proof (foreign_hypercall_run this' (HC_CELL_DESTROY id) s1 Hcal) as Hf. simpl in Hf.
    rewrite Hd in Hf. injection Hf as -> ->. right. split; [done|]. apply restored_refl.
Qed.
End Theorems.
