(* ===== verification/CellRegions.v ===== *)
(** * Cell management: regions and failures

    What [remap_to_root_cell] gives back to the root cell, region by region and
    address by address, and what [panic_park] reports about a cell. *)

From Stdlib Require Import ZArith Lia String.
From stdpp Require Import base tactics list list_numbers option functions sets.
From S2P Require Import Prelude StateMonad Cell CpuControl Mmio Irqchip Bitops PagePool Paging Management CellLifecycle CellPartition.

Definition in_region (mem : jailhouse_memory) (a : Z) : Prop :=
  phys_start mem <= a < phys_start mem + mem_size mem.

(** A region that does not reach the end of the address space. *)
Definition region_ok (mem : jailhouse_memory) : Prop :=
  0 <= phys_start mem /\ 0 <= mem_size mem /\ phys_start mem + mem_size mem < 2 ^ 64.

Lemma address_in_region_spec a mem : region_ok mem -> address_in_region a mem = true <-> in_region mem a.
Proof.
  intros (? & ? & ?). unfold address_in_region, in_region. rewrite u64_small by lia.
  rewrite andb_true_iff, Z.leb_le, Z.ltb_lt. done.
Qed.

Lemma overlap_spec mem root_mem :
  region_ok mem -> region_ok root_mem ->
  match overlap mem root_mem with
  | Some o => (forall a, in_region o a <-> in_region mem a /\ in_region root_mem a) /\
              virt_start o = u64 (virt_start root_mem + phys_start o - phys_start root_mem) /\
              mem_flags o = mem_flags root_mem
  | None => forall a, ~ (in_region mem a /\ in_region root_mem a)
  end.
Proof.
  intros Hm Hr. unfold overlap.
  destruct (address_in_region (phys_start mem) root_mem) eqn:H1;
    [|destruct (address_in_region (phys_start root_mem) mem) eqn:H2].
  - apply address_in_region_spec in H1; [|done]. unfold in_region, region_ok in *.
    rewrite (u64_small (mem_size root_mem - _)) by lia. simpl. split; [|done]. intros a. zcase; lia.
  - apply address_in_region_spec in H2; [|done]. unfold in_region, region_ok in *.
    rewrite (u64_small (mem_size mem - _)) by lia. simpl. split; [|done].
    assert (~ (phys_start root_mem <= phys_start mem < phys_start root_mem + mem_size root_mem)).
    { intros Hin. apply (address_in_region_spec _ root_mem) in Hin; [congruence|done]. }
    intros a. zcase; lia.
  - intros a [Ha Hb]. apply not_true_iff_false in H1, H2.
    rewrite address_in_region_spec in H1, H2 by done. unfold in_region, region_ok in *. lia.
Qed.

Section Regions.
Context {E : Type} (P : platform E).
Notation H := (hv E).
Notation HV := (ST H).

(** The regions the root cell gets back. *)
Definition overlaps (mem : jailhouse_memory) (root_regions : list jailhouse_memory) : list jailhouse_memory :=
  omap (overlap mem) root_regions.

Lemma map_in_run id mem s :
  exists err s', map_in P id mem s = Some (err, s') /\ view s' = view s /\
    events s' = events s ++ [MemoryChanged id mem].
Proof.
  unfold map_in. erewrite bind_run by done. cbv beta. set (s1 := add_event _ s).
  unfold platform_op.
  destruct (is_subpage mem); [destruct (p_subpage_register P id mem (env s1)) as [err e]
                             |destruct (p_map_region P id mem (env s1)) as [err e]];
    (eexists _, _; split; [reflexivity|by split]).
Qed.

Lemma remap_loop_run l mem mode err s :
  exists err' s' n, remap_loop P l mem mode err s = Some (err', s') /\ view s' = view s /\
    events s' = events s ++ (MemoryChanged (m_id (root_cell s)) <$> take n (overlaps mem l)) /\
    (n = length (overlaps mem l) \/ mode = ABORT_ON_ERROR /\ err' <> 0).
Proof.
  revert err s. induction l as [|r l IH]; intros err s; simpl.
  - exists err, s, 0%nat. rewrite app_nil_r. auto.
  - unfold overlaps. simpl. destruct (overlap mem r) as [o|] eqn:Ho; [|apply IH].
    erewrite bind_run by done. cbv beta.
    destruct (map_in_run (m_id (root_cell s)) o s) as (e & s1 & Hr & Hv & Hev).
    erewrite bind_run by exact Hr. cbv beta.
    destruct (negb (e =? 0) && _) eqn:Hab.
    + apply andb_true_iff in Hab as [He Hmode]. apply bool_decide_eq_true in Hmode. b2p.
      exists e, s1, 1%nat. split_and!; try done. by right.
    + destruct (IH e s1) as (e' & s' & n & Hr' & Hv' & Hev' & Hn). exists e', s', (S n). split_and!.
      * done.
      * by rewrite Hv'.
      * injection Hv as Hroot _ _ _. rewrite Hev', Hev, Hroot. simpl. by rewrite <- (assoc_L (++)).
      * destruct Hn as [->|Hn]; [by left|by right].
Qed.

(** giving back a region of a destroyed cell maps, for each region of the
    root cell, exactly the common addresses, at the place where the root cell
    sees them and with its flags; nothing else is mapped, and no error stops
    it. *)
Theorem remap_gives_back (mem : jailhouse_memory) (s : H) :
  region_ok mem -> Forall region_ok (mem_regions (m_config (root_cell s))) ->
  exists err s' os, remap_to_root_cell P mem WARN_ON_ERROR s = Some (err, s') /\
    events s' = events s ++ (MemoryChanged (m_id (root_cell s)) <$> os) /\
    (forall a, (exists o, o ∈ os /\ in_region o a) <->
               in_region mem a /\ exists r, r ∈ mem_regions (m_config (root_cell s)) /\ in_region r a) /\
    (forall o, o ∈ os -> exists r, r ∈ mem_regions (m_config (root_cell s)) /\ mem_flags o = mem_flags r /\
       virt_start o = u64 (virt_start r + phys_start o - phys_start r)).
Proof.
  intros Hm Hr. set (l := mem_regions _) in *.
  assert (forall r, r ∈ l -> region_ok r) as Hl.
  { intros r Hin. apply (proj1 (List.Forall_forall _ _) Hr). by apply list_elem_of_In. }
  destruct (remap_loop_run l mem WARN_ON_ERROR 0 s) as (err & s' & n & Hrun & _ & Hev & Hn).
  exists err, s', (overlaps mem l). split_and!.
  - exact Hrun.
  - destruct Hn as [->|[? _]]; [|done]. by rewrite firstn_all in Hev.
  - intros a. unfold overlaps. split.
    + intros (o & (r & Hin & Ho)%list_elem_of_omap & Ha).
      pose proof (overlap_spec mem r Hm (Hl r Hin)) as Hsp. rewrite Ho in Hsp. destruct Hsp as [Hsp _].
      apply Hsp in Ha as [? ?]. split; [done|]. by exists r.
    + intros (Ha & r & Hin & Hra). pose proof (overlap_spec mem r Hm (Hl r Hin)) as Hsp.
      destruct (overlap mem r) as [o|] eqn:Ho; [|by destruct (Hsp a)].
      exists o. split; [apply list_elem_of_omap; by exists r|]. by apply Hsp.
  - intros o (r & Hin & Ho)%list_elem_of_omap. exists r.
    pose proof (overlap_spec mem r Hm (Hl r Hin)) as Hsp. rewrite Ho in Hsp. by destruct Hsp as (_ & ? & ?).
Qed.

(** A CPU that stops because of an error is marked, and its cell is
    reported as failed exactly when all its CPUs are marked. *)
Theorem panic_park_reports (patience : nat) (this : Z) (c : mcell) (s : H) :
  hv_inv patience s -> c ∈ all_cells s -> in_set (m_cpus c) this ->
  exists s', panic_park P this s = Some (tt, s') /\ restored s s' /\
    (forall cpu, failed s' cpu = true <-> cpu = this \/ failed s cpu = true) /\
    ((forall cpu, in_set (m_cpus c) cpu -> failed s' cpu = true) ->
     env s' = p_set_cell_state P (m_id c) JAILHOUSE_CELL_FAILED (env s)) /\
    ((exists cpu, in_set (m_cpus c) cpu /\ failed s' cpu = false) -> env s' = env s) /\
    events s' = events s ++ [Ctl CpuOff].
Proof.
  intros HI Hc Hin. pose proof (all_cells_ok _ _ _ HI Hc) as Hok.
  unfold panic_park. erewrite bind_run by done. cbv beta.
  change (root_cell s :: other_cells s) with (all_cells s).
  destruct (list_find _ _) as [[n c']|] eqn:Hf.
  2: { apply list_find_None in Hf. pose proof (proj1 (Forall_forall _ _) Hf c Hc) as Hne.
       exfalso. apply Hne. symmetry. by apply HI. }
  apply list_find_Some in Hf as (Hl & Hid & _). apply list_elem_of_lookup_2 in Hl.
  assert (c' = c) as ->.
  { eapply (cell_unique patience); [exact HI|done|done|]. rewrite Hid. by apply HI. }
  erewrite bind_run by done. cbv beta. erewrite bind_run by done. cbv beta.
  set (s1 := set_failed _ s).
  erewrite bind_run.
  2: { unfold lift, from_option, for_each_cpu. by rewrite (for_each_cpus _ _ Hok). }
  cbv beta.
  assert (forall cpu, failed s1 cpu = true <-> cpu = this \/ failed s cpu = true) as Hfail.
  { intros cpu. simpl. destruct (decide (cpu = this)) as [->|Hne].
    - rewrite fn_lookup_insert. tauto.
    - rewrite fn_lookup_insert_ne by auto. tauto. }
  assert (forallb (failed s1) (cpus_of c (-1)) = true <->
          forall cpu, in_set (m_cpus c) cpu -> failed s1 cpu = true) as Hall.
  { rewrite List.forallb_forall. split; intros Hx cpu Hcpu; apply Hx.
    - apply list_elem_of_In. by apply elem_of_all_cpus.
    - apply list_elem_of_In in Hcpu. by apply elem_of_all_cpus in Hcpu. }
  destruct (forallb _ _) eqn:Hb; (eexists; split; [reflexivity|]; split; [by split|]; split; [done|]).
  - split_and!; [done| |done]. intros (cpu & Hcpu & Hff).
    pose proof (proj1 Hall eq_refl cpu Hcpu). simpl in *. congruence.
  - split_and!; [|done|done]. intros Hx. by apply Hall in Hx.
Qed.
End Regions.
