(* ===== verification/CellScenario.v ===== *)
(** * Cell management: a concrete system

    A board with four CPUs, a root cell with two memory regions and two cell
    configurations, on which the theorems of [CellManagement] and [CellRegions]
    are applied and the calls are evaluated. *)

From Stdlib Require Import ZArith Lia String.
From stdpp Require Import base tactics list list_numbers option functions sets.
From S2P Require Import Prelude StateMonad Cell CpuControl Mmio Irqchip Bitops PagePool Paging Management CellLifecycle CellPartition CellCalls CellManagement CellRegions.

(** The environment: the states of the cells, whether mapping fails, and how
    often a CPU was looked at: every third time it is seen suspended. *)
Record board := mk_board { states : list (Z * Z); exhausted : bool; looks : Z }.

Definition state_of (id : Z) (e : board) : Z :=
  match list_find (fun p => p.1 = id) (states e) with Some (_, (_, st)) => st | None => 0 end.
Definition set_state (id st : Z) (e : board) : board := mk_board ((id, st) :: states e) (exhausted e) (looks e).
Definition asked (cpu : Z) (e : board) : bool := looks e mod 3 =? 2.
Definition look (cpu : Z) (e : board) : board := mk_board (states e) (exhausted e) (looks e + 1).

Definition demo_mem : jailhouse_memory :=
  mk_memory 0x7c000000 0 0x100000 JAILHOUSE_MEM_LOADABLE.
Definition root_ram : jailhouse_memory := mk_memory 0x40000000 0x40000000 0x40000000 7.
Definition root_io : jailhouse_memory := mk_memory 0x1c000000 0x1c000000 0x1000 7.

Definition demo_config (addr : Z) : cell_config :=
  if addr =? 0x2000
  then mk_cell_config "second"%string 2 0 8 4 0 5 [demo_mem] 200
  else mk_cell_config "first"%string 1 JAILHOUSE_CELL_PASSIVE_COMMREG 8 2 0 0 [demo_mem] 200.

Definition map_result (e : board) : Z * board := (if exhausted e then - ENOMEM else 0, e).

Definition demo_platform : platform board := {|
  p_map_region := fun _ _ => map_result;
  p_unmap_region := fun _ _ => map_result;
  p_subpage_register := fun _ _ => map_result;
  p_subpage_unregister := fun _ _ e => e;
  p_mmio_cell_init := fun _ e => (0, e);
  p_mmio_cell_exit := fun _ e => e;
  p_arch_cell_create := fun _ e => (0, e);
  p_arch_cell_destroy := fun _ e => e;
  p_arch_cell_reset := fun _ e => e;
  p_commit := fun _ e => e;
  p_units := [];
  p_alloc := fun _ e => (true, e);
  p_free := fun _ e => e;
  p_get_pages := fun _ _ e => (true, e);
  p_config := fun addr _ => demo_config addr;
  p_send := fun _ _ e => e;
  p_poll := fun id e => ((JAILHOUSE_MSG_REQUEST_APPROVED, state_of id e), e);
  p_suspended := fun cpu e => (asked cpu e, look cpu e);
  p_cell_state := state_of;
  p_set_cell_state := set_state;
  p_clear_comm_page := fun id => set_state id JAILHOUSE_CELL_RUNNING;
  p_sizeof_cell := 4096;
  p_sizeof_desc := 100;
|}.

Definition demo_root : mcell :=
  mk_mcell (mk_cell_config "root"%string 0 JAILHOUSE_CELL_PASSIVE_COMMREG 8 15 0 0 [root_ram; root_io] 200)
    (mk_cpu_set 63 15) false.
Definition demo_hv (exhausted : bool) : hv board :=
  mk_hv demo_root [] 1 (fun _ => 0) (fun _ => false) (fun _ => replicate 8 0) (mk_board [] exhausted 0) [].

Lemma demo_hv_inv b : hv_inv 10 (demo_hv b).
Proof.
  split; unfold all_cells; simpl.
  - apply NoDup_singleton.
  - unfold cpu_set_ok. simpl. lia.
  - constructor.
  - by intros c cpu ->%list_elem_of_singleton _.
  - by intros c cpu ?%elem_of_nil.
  - done.
Qed.

Lemma demo_responsive : responsive demo_platform 10.
Proof.
  intros cpu e. change 10%nat with (3 + 7)%nat. cbn [Nat.add acknowledges demo_platform p_suspended fst snd].
  unfold asked, look. cbn [looks]. pose proof (Z.mod_pos_bound (looks e) 3 ltac:(lia)).
  assert (looks e mod 3 = 2 \/ (looks e + 1) mod 3 = 2 \/ (looks e + 1 + 1) mod 3 = 2) as [H0|[H0|H0]]
    by (Z.to_euclidean_division_equations; lia); rewrite H0; tauto.
Qed.

Lemma demo_configs_good : good_configs demo_platform 10.
Proof.
  intros addr e. change (p_config demo_platform addr e) with (demo_config addr).
  unfold demo_config. destruct (addr =? 0x2000).
  - split; [simpl; lia|]. right. simpl. lia.
  - split; [simpl; lia|]. by left.
Qed.

(** A life of two cells: creation, a refused second creation, loading, start,
    a call from a CPU of the cell, its state, destruction. *)
Definition demo_calls : list (Z * request) :=
  [(0, HC_CELL_CREATE 0x1000); (0, HC_CELL_CREATE 0x2000); (3, HC_CELL_CREATE 0x1000);
   (0, HC_CELL_SET_LOADABLE 1); (0, HC_CELL_START 1); (1, HC_CELL_DESTROY 2);
   (3, HC_CELL_GET_STATE 1); (0, HC_CELL_DESTROY 1); (0, HC_CELL_START 1); (0, HC_CELL_START 0)].

Example demo_results :
  fst <$> hypercalls demo_platform 10 demo_calls (demo_hv false) =
  Some [0; 0; - EEXIST; 0; 0; - EPERM; JAILHOUSE_CELL_RUNNING; 0; - ENOENT; - EINVAL].
Proof. vm_compute. reflexivity. Qed.

(** Without memory the creation fails and the root cell has all its CPUs. *)
Example demo_exhausted :
  (fun '(r, s) => (r, bitmap (m_cpus (root_cell s)))) <$>
    cell_create demo_platform 10 0 0x1000 (demo_hv true) = Some (- ENOMEM, 15).
Proof. vm_compute. reflexivity. Qed.

Lemma management_keeps_partition_witness :
  hv_inv 10 (demo_hv false) /\ good_configs demo_platform 10 /\
  exists rs s', hypercalls demo_platform 10 demo_calls (demo_hv false) = Some (rs, s') /\
    length rs = length demo_calls /\ hv_inv 10 s' /\
    (forall cpu, covered s' cpu <-> covered (demo_hv false) cpu) /\
    forall cpu, covered (demo_hv false) cpu ->
      exists c, c ∈ all_cells s' /\ in_set (m_cpus c) cpu /\ cell_of s' cpu = m_id c /\
        forall c', c' ∈ all_cells s' -> in_set (m_cpus c') cpu -> c' = c.
Proof.
  split; [apply demo_hv_inv|]. split; [apply demo_configs_good|].
  exact (management_keeps_partition demo_platform 10 demo_responsive demo_calls (demo_hv false) (demo_hv_inv false) demo_configs_good).
Defined.

Lemma hypercall_order_witness :
  cell_of (demo_hv false) 0 = m_id (root_cell (demo_hv false)) /\
  exists r s', hypercall demo_platform 10 0 (HC_CELL_CREATE 0x1000) (demo_hv false) = Some (r, s') /\
    well_ordered 0 (concerned 0 (HC_CELL_CREATE 0x1000) (demo_hv false)) (demo_hv false) s'.
Proof.
  split; [reflexivity|].
  apply (hypercall_order demo_platform 10 demo_responsive 0 (HC_CELL_CREATE 0x1000) (demo_hv false)
           (demo_hv_inv false) demo_configs_good eq_refl).
Defined.

Lemma cell_create_atomic_witness :
  exists r s', cell_create demo_platform 10 0 0x1000 (demo_hv false) = Some (r, s') /\
    create_result demo_platform 10 0x1000 (demo_hv false) r s'.
Proof.
  exact (cell_create_atomic demo_platform 10 demo_responsive 0 0x1000 (demo_hv false) (demo_hv_inv false) demo_configs_good).
Defined.

(** The state after a call that returns [r]. *)
Definition after {E} (d : hv E) (m : ST (hv E) Z) (s : hv E) : hv E :=
  match m s with Some (_, s') => s' | None => d end.

Lemma after_run {E} (d : hv E) (m : ST (hv E) Z) (s : hv E) r :
  fst <$> m s = Some r -> m s = Some (r, after d m s).
Proof. unfold after. destruct (m s) as [[x s']|]; simpl; [by intros [= ->]|done]. Qed.

Definition demo_created : hv board :=
  after (demo_hv false) (cell_create demo_platform 10 0 0x1000) (demo_hv false).
Definition demo_destroyed : hv board :=
  after demo_created (cell_destroy demo_platform 10 3 1) demo_created.

Lemma create_destroy_roundtrip_witness :
  cell_create demo_platform 10 0 0x1000 (demo_hv false) = Some (0, demo_created) /\
  cell_destroy demo_platform 10 3 1 demo_created = Some (0, demo_destroyed) /\
  (0 = 0 /\ same_cells (demo_hv false) demo_destroyed \/ 0 < 0 /\ restored demo_created demo_destroyed).
Proof.
  assert (cell_create demo_platform 10 0 0x1000 (demo_hv false) = Some (0, demo_created)) as H1
    by (apply after_run; vm_compute; reflexivity).
  assert (cell_destroy demo_platform 10 3 1 demo_created = Some (0, demo_destroyed)) as H2
    by (apply after_run; vm_compute; reflexivity).
  split; [exact H1|]. split; [exact H2|].
  exact (create_destroy_roundtrip demo_platform 10 demo_responsive 0 3 0x1000 1 (demo_hv false) demo_created demo_destroyed 0
           (demo_hv_inv false) demo_configs_good H1 (fun _ => eq_refl) H2).
Defined.

Lemma remap_gives_back_witness :
  region_ok demo_mem /\
  exists err s' os, remap_to_root_cell demo_platform demo_mem WARN_ON_ERROR (demo_hv true) = Some (err, s') /\
    events s' = events (demo_hv true) ++ (MemoryChanged (m_id demo_root) <$> os) /\
    (forall a, (exists o, o ∈ os /\ in_region o a) <->
               in_region demo_mem a /\ exists r, r ∈ mem_regions (m_config demo_root) /\ in_region r a) /\
    (forall o, o ∈ os -> exists r, r ∈ mem_regions (m_config demo_root) /\ mem_flags o = mem_flags r /\
       virt_start o = u64 (virt_start r + phys_start o - phys_start r)).
Proof.
  assert (region_ok demo_mem) as H1 by (unfold region_ok, demo_mem; simpl; lia).
  split; [exact H1|].
  apply (remap_gives_back demo_platform demo_mem (demo_hv true) H1).
  simpl. repeat constructor; unfold root_ram, root_io; simpl; lia.
Defined.

Lemma panic_park_reports_witness :
  in_set (m_cpus demo_root) 3 /\
  exists s', panic_park demo_platform 3 (demo_hv false) = Some (tt, s') /\ restored (demo_hv false) s' /\
    (forall cpu, failed s' cpu = true <-> cpu = 3 \/ failed (demo_hv false) cpu = true) /\
    ((forall cpu, in_set (m_cpus demo_root) cpu -> failed s' cpu = true) ->
     env s' = p_set_cell_state demo_platform (m_id demo_root) JAILHOUSE_CELL_FAILED (env (demo_hv false))) /\
    ((exists cpu, in_set (m_cpus demo_root) cpu /\ failed s' cpu = false) -> env s' = env (demo_hv false)) /\
    events s' = events (demo_hv false) ++ [Ctl CpuOff].
Proof.
  assert (in_set (m_cpus demo_root) 3) as H1 by (split; [simpl; lia|reflexivity]).
  split; [exact H1|].
  exact (panic_park_reports demo_platform 10 3 demo_root (demo_hv false) (demo_hv_inv false)
           (list_elem_of_here _ _) H1).
Defined.

(** A cell in a terminal state that the message exchange does not know: without
    a timeout the management call never ends. *)
Definition stuck_platform : platform board :=
  mk_platform board (p_map_region demo_platform) (p_unmap_region demo_platform)
    (p_subpage_register demo_platform) (p_subpage_unregister demo_platform)
    (p_mmio_cell_init demo_platform) (p_mmio_cell_exit demo_platform)
    (p_arch_cell_create demo_platform) (p_arch_cell_destroy demo_platform)
    (p_arch_cell_reset demo_platform) (p_commit demo_platform) (p_units demo_platform)
    (p_alloc demo_platform) (p_free demo_platform) (p_get_pages demo_platform)
    (p_config demo_platform) (p_send demo_platform)
    (fun id e => ((JAILHOUSE_MSG_NONE, state_of id e), e)) (p_suspended demo_platform)
    (p_cell_state demo_platform) (p_set_cell_state demo_platform) (p_clear_comm_page demo_platform)
    (p_sizeof_cell demo_platform) (p_sizeof_desc demo_platform).

Definition impatient_cell : mcell :=
  mk_mcell (mk_cell_config "active"%string 7 0 8 2 0 0 [] 100) (mk_cpu_set 63 2) false.

Lemma comm_rev_failure_never_ends fuel s :
  state_of 7 (env s) = JAILHOUSE_CELL_FAILED_COMM_REV ->
  cell_exchange_message stuck_platform fuel impatient_cell JAILHOUSE_MSG_SHUTDOWN_REQUEST MSG_REQUEST 0 s = None.
Proof.
  intros Hst.
  transitivity (exchange_loop stuck_platform fuel fuel impatient_cell MSG_REQUEST 0 0 (set_env (env s) s)); [done|].
  assert (state_of 7 (env (set_env (env s) s)) = JAILHOUSE_CELL_FAILED_COMM_REV) as Hst' by done.
  revert Hst'. generalize (set_env (env s) s) as s1. clear s Hst. generalize fuel at 1 as patience.
  intros patience.
  induction fuel as [|fuel IH]; intros s1 Hst; [done|]. cbn [exchange_loop].
  rewrite (bind_run _ _ _ (JAILHOUSE_MSG_NONE, state_of 7 (env s1)) (set_env (env s1) s1)) by done.
  cbv beta iota. rewrite Hst. cbn. by apply IH.
Qed.

(** A CPU that never acknowledges: the call that suspends it never returns. *)
Definition silent_platform : platform board :=
  mk_platform board (p_map_region demo_platform) (p_unmap_region demo_platform)
    (p_subpage_register demo_platform) (p_subpage_unregister demo_platform)
    (p_mmio_cell_init demo_platform) (p_mmio_cell_exit demo_platform)
    (p_arch_cell_create demo_platform) (p_arch_cell_destroy demo_platform)
    (p_arch_cell_reset demo_platform) (p_commit demo_platform) (p_units demo_platform)
    (p_alloc demo_platform) (p_free demo_platform) (p_get_pages demo_platform)
    (p_config demo_platform) (p_send demo_platform) (p_poll demo_platform)
    (fun _ e => (false, e))
    (p_cell_state demo_platform) (p_set_cell_state demo_platform) (p_clear_comm_page demo_platform)
    (p_sizeof_cell demo_platform) (p_sizeof_desc demo_platform).

Lemma silent_cpu_never_ends fuel cpu s : arch_suspend_cpu silent_platform fuel cpu s = None.
Proof.
  unfold arch_suspend_cpu. erewrite bind_run by done. generalize (add_event (Ctl (Suspend cpu)) s) as s1.
  induction fuel as [|fuel IH]; intros s1; [done|]. cbn [suspend_wait]. by erewrite bind_run by done.
Qed.
