(* ===== verification/Coloring.v ===== *)
(** * Cache coloring

    Models hypervisor/arch/arm-common/coloring.c and
    include/jailhouse/coloring-common.h: a colored memory region is cut into
    fragments, the ranges of its physical addresses whose color, the index of
    the unit within the period, is in the color mask; the fragments follow each
    other in the guest. Each fragment is then handed over like a memory region
    of [Management]; the fragments of which the data cache is flushed (DCACHE)
    are in [Dcache].

    [ranges_in_mask] reads one element behind the mask; what it finds there is
    the argument [past]. *)

From Stdlib Require Import ZArith Lia String.
From stdpp Require Import base tactics list list_numbers option.
From S2P Require Import Prelude StateMonad Cell CpuControl Mmio Irqchip Bitops PagePool Paging Management CellPartition CellRegions.

(** [struct jailhouse_color_desc] *)
Record color_desc := mk_color_desc { fragment_unit_size : Z; fragment_unit_offset : Z }.

(** [struct jailhouse_memory_colored] *)
Record memory_colored := mk_memory_colored { cm_memory : jailhouse_memory; cm_colors : Z }.

(** ** Ranges of colors *)

(** [for (i = MAX_COLORS-1; i >= 0; --i, colors >>= 1) mask[i] = (colors & 1)] *)
Fixpoint mask_loop (n : nat) (colors : Z) (mask : list bool) : list bool :=
  match n with
  | O => mask
  | S i => mask_loop i (Z.shiftr colors 1) (<[i := Z.odd colors]> mask)
  end.

Definition read_mask (past : bool) (mask : list bool) (j : nat) : option bool :=
  if decide (j = length mask) then Some past else mask !! j.

(** [while(mask[++j] && j < size);] *)
Fixpoint run_end (fuel : nat) (past : bool) (mask : list bool) (size j : nat) : option nat :=
  match fuel with
  | O => None
  | S fuel =>
      let j := S j in
      b ← read_mask past mask j;
      if b && (j <? size)%nat then run_end fuel past mask size j else Some j
  end.

Definition write_value (values : list Z) (i : nat) (x : Z) : option (list Z) :=
  if (i <? length values)%nat then Some (<[i := x]> values) else None.

Fixpoint ranges_loop (fuel : nat) (past : bool) (mask : list bool) (size k current_value : nat)
    (values : list Z) : option (list Z) :=
  if (k <? size)%nat then
    match fuel with
    | O => None
    | S fuel =>
        b ← read_mask past mask k;
        if (b : bool) then
          let i := k in
          j ← run_end (S size) past mask size i;
          values ← write_value values current_value (Z.of_nat i);
          values ← write_value values (S current_value) (Z.of_nat j - 1);
          ranges_loop fuel past mask size (S j) (S (S current_value)) values
        else ranges_loop fuel past mask size (S k) current_value values
    end
  else Some values.

Definition ranges_in_mask (past : bool) (mask : list bool) (size : nat) : option (list Z) :=
  ranges_loop size past mask size 0 0 (replicate (size * 2) (-1)).

(** ** Fragments *)

Inductive col_operation := CREATE | DESTROY | START | LOADABLE.

Section Manage.
Context {E : Type} (P : platform E).
Notation HV := (ST (hv E)).

Definition fragment_op (type : col_operation) (c : mcell) (frag : jailhouse_memory) : HV Z :=
  match type with
  | CREATE =>
      err ← (if kept_by_root frag then mret 0 else unmap_from_root_cell P frag);
      if negb (err =? 0) then mret err else map_in P (m_id c) frag
  | DESTROY =>
      err ← (if is_subpage frag then mret 0 else unmap_in P (m_id c) frag);
      if negb (err =? 0) then mret err
      else if kept_by_root frag then mret 0 else remap_to_root_cell P frag WARN_ON_ERROR
  | START => if has_flag frag JAILHOUSE_MEM_LOADABLE then unmap_from_root_cell P frag else mret 0
  | LOADABLE =>
      if has_flag frag JAILHOUSE_MEM_LOADABLE then remap_to_root_cell P frag ABORT_ON_ERROR else mret 0
  end.

End Manage.

(** [MAX_COLORS] is an [int]. *)
Definition max_colors (d : color_desc) : Z := s32 (fragment_unit_offset d / fragment_unit_size d).

(** [(int)(col_mem.memory.size/f_offset)]: the passes of the loop over the
    periods. *)
Definition periods (d : color_desc) (mem : jailhouse_memory) : Z := s32 (mem_size mem / fragment_unit_offset d).

(** The fragment of the colors [i .. j] in period [r]. *)
Definition fragment (d : color_desc) (mem : jailhouse_memory) (virt i j r : Z) : jailhouse_memory :=
  mk_memory (u64 (phys_start mem + u64 (i * fragment_unit_size d) + u64 (r * fragment_unit_offset d)))
            virt (u64 ((j - i + 1) * fragment_unit_size d)) (mem_flags mem).

(** The traversal of the fragments; [op] is a case of the switch. *)
Section Walk.
Context {St : Type} (op : jailhouse_memory -> ST St Z).

(** The inner loop; [inl] is an early return, [inr] the virtual address that
    follows. *)
Fixpoint ranges_walk (d : color_desc) (mem : jailhouse_memory) (r : Z) (ranges : list Z) (virt : Z) : ST St (Z + Z) :=
  match ranges with
  | i :: j :: ranges =>
      if i =? -1 then ranges_walk d mem r ranges virt
      else
        let frag := fragment d mem virt i j r in
        err ← op frag;
        if negb (err =? 0) then mret (inl err)
        else ranges_walk d mem r ranges (u64 (virt + mem_size frag))
  | _ => mret (inr virt)
  end.

Fixpoint periods_walk (d : color_desc) (mem : jailhouse_memory) (ranges : list Z) (n : nat) (r virt : Z) : ST St Z :=
  match n with
  | O => mret 0
  | S n =>
      res ← ranges_walk d mem r ranges virt;
      match res with
      | inl err => mret err
      | inr virt => periods_walk d mem ranges n (r + 1) virt
      end
  end.

(** [junk] is the uninitialized mask. The arrays of [MAX_COLORS] and
    [MAX_COLORS*2] elements need a positive size that fits an [int]. *)
Definition walk_colored (past : bool) (junk : list bool) (d : color_desc) (col_mem : memory_colored) : ST St Z :=
  if (fragment_unit_size d =? 0) || (fragment_unit_offset d =? 0) then undefined
  else
    let n := Z.to_nat (max_colors d) in
    if negb ((0 <? max_colors d) && (max_colors d <? 2 ^ 30)) || negb (bool_decide (length junk = n)) then undefined
    else
      let mask := mask_loop n (cm_colors col_mem) junk in
      ranges ← from_option (fun _ => ranges_in_mask past mask n);
      let mem := cm_memory col_mem in
      periods_walk d mem ranges (Z.to_nat (periods d mem)) 0 (virt_start mem).
End Walk.

Definition manage_colored_regions {E : Type} (P : platform E) (past : bool) (junk : list bool) (d : color_desc)
    (col_mem : memory_colored) (c : mcell) (type : col_operation) : ST (hv E) Z :=
  walk_colored (fragment_op P type c) past junk d col_mem.

(** ** The mask *)

Lemma length_mask_loop n colors mask : length (mask_loop n colors mask) = length mask.
Proof.
  revert colors mask. induction n as [|n IH]; intros colors mask; simpl; [done|].
  by rewrite IH, length_insert.
Qed.

Lemma mask_loop_lookup n colors mask i :
  (n <= length mask)%nat -> 0 <= colors -> (i < n)%nat ->
  mask_loop n colors mask !! i = Some (Z.testbit colors (Z.of_nat (n - 1 - i))).
Proof.
  revert colors mask. induction n as [|n IH]; intros colors mask Hn Hc Hi; [lia|]. simpl.
  destruct (decide (i = n)) as [->|Hne].
  - replace (n - 0 - n)%nat with 0%nat by lia. change (Z.of_nat 0) with 0. rewrite Z.bit0_odd.
    assert (forall m c l, (m <= n)%nat -> mask_loop m c l !! n = l !! n) as Hkeep.
    { induction m as [|m IHm]; intros c l Hm; simpl; [done|].
      rewrite IHm by lia. by rewrite list_lookup_insert_ne by lia. }
    rewrite Hkeep by lia. by rewrite list_lookup_insert_eq by lia.
  - rewrite IH; [|by rewrite length_insert; lia|by apply Z.shiftr_nonneg|lia].
    rewrite Z.shiftr_spec by lia. do 2 f_equal. lia.
Qed.

(** ** The ranges *)

Definition flat (rs : list (nat * nat)) : list Z :=
  concat ((fun '(i, j) => [Z.of_nat i; Z.of_nat j]) <$> rs).
Definition expand (rs : list (nat * nat)) : list nat :=
  concat ((fun '(i, j) => seq i (S j - i)) <$> rs).
Definition selected (mask : list bool) (lo n : nat) : list nat :=
  filter (fun i => mask !! i = Some true) (seq lo n).

Lemma length_flat rs : length (flat rs) = (2 * length rs)%nat.
Proof.
  induction rs as [|[i j] rs IH]; [done|]. change (flat _) with (Z.of_nat i :: Z.of_nat j :: flat rs).
  simpl. rewrite IH. lia.
Qed.

Lemma flat_app rs rs' : flat (rs ++ rs') = flat rs ++ flat rs'.
Proof. unfold flat. by rewrite fmap_app, concat_app. Qed.

Lemma run_end_spec past mask fuel k :
  (k < length mask)%nat -> (length mask - k <= fuel)%nat ->
  exists j, run_end fuel past mask (length mask) k = Some j /\ (k < j <= length mask)%nat /\
    (forall i, (k < i < j)%nat -> mask !! i = Some true) /\
    ((j < length mask)%nat -> mask !! j = Some false).
Proof.
  revert k. induction fuel as [|fuel IH]; intros k Hk Hf; [lia|]. cbn [run_end]. unfold read_mask.
  destruct (decide (S k = length mask)) as [He|Hne].
  - simpl. exists (S k). rewrite (proj2 (Nat.ltb_ge _ _)) by lia. rewrite andb_false_r.
    split; [done|]. split; [lia|]. split; intros; lia.
  - destruct (lookup_lt_is_Some_2 mask (S k)) as [b Hb]; [lia|]. rewrite Hb. simpl.
    rewrite (proj2 (Nat.ltb_lt _ _)) by lia. destruct b; simpl.
    + destruct (IH (S k)) as (j & Hj & Hr & Ht & Hend); [lia|lia|]. exists j. split; [done|].
      split; [lia|]. split; [|done]. intros i Hi. destruct (decide (i = S k)) as [->|]; [done|].
      apply Ht. lia.
    + exists (S k). split; [done|]. split; [lia|]. split; [intros; lia|done].
Qed.

Lemma write_value_app pre n x :
  (0 < n)%nat ->
  write_value (pre ++ replicate n (-1)) (length pre) x = Some ((pre ++ [x]) ++ replicate (n - 1) (-1)).
Proof.
  intros Hn. unfold write_value. rewrite length_app, length_replicate, (proj2 (Nat.ltb_lt _ _)) by lia.
  destruct n as [|n]; [lia|]. simpl. rewrite insert_app_r_alt, Nat.sub_diag by lia. simpl.
  rewrite Nat.sub_0_r. by rewrite <- (assoc_L (++)).
Qed.

Lemma selected_none mask k n :
  mask !! k <> Some true -> selected mask k (S n) = selected mask (S k) n.
Proof. intros Hk. unfold selected. simpl. by rewrite filter_cons_False. Qed.

Lemma selected_run mask k j n :
  (k <= j)%nat -> (forall i, (k <= i < j)%nat -> mask !! i = Some true) ->
  selected mask k (j - k + n) = seq k (j - k) ++ selected mask j n.
Proof.
  intros Hk Ht. unfold selected. rewrite seq_app, list.filter_app. f_equal; [|do 2 f_equal; lia].
  assert (forall m a, (forall i, (a <= i < a + m)%nat -> mask !! i = Some true) ->
    filter (fun i => mask !! i = Some true) (seq a m) = seq a m) as Hall.
  { induction m as [|m IH]; intros a Ha; simpl; [done|].
    rewrite filter_cons_True by (apply Ha; lia). f_equal. apply IH. intros i Hi. apply Ha. lia. }
  apply Hall. intros i Hi. apply Ht. lia.
Qed.

(** Ranges that are in order, apart from each other and in bounds. *)
Fixpoint ordered (lo hi : nat) (rs : list (nat * nat)) : Prop :=
  match rs with
  | [] => True
  | (i, j) :: rs => (lo <= i <= j)%nat /\ (j < hi)%nat /\ ordered (S (S j)) hi rs
  end.

Lemma ranges_loop_spec past mask fuel k pre n :
  (length mask - k <= fuel)%nat -> (length mask + 1 <= n + k)%nat ->
  exists rs m, ranges_loop fuel past mask (length mask) k (2 * length pre) (flat pre ++ replicate n (-1))
      = Some (flat (pre ++ rs) ++ replicate m (-1)) /\
    expand rs = selected mask k (length mask - k) /\ ordered k (length mask) rs /\
    (2 * length rs + m = n)%nat.
Proof.
  revert k pre n. induction fuel as [|fuel IH]; intros k pre n Hf Hn; cbn [ranges_loop].
  { rewrite (proj2 (Nat.ltb_ge _ _)) by lia. exists [], n. rewrite app_nil_r.
    replace (length mask - k)%nat with 0%nat by lia. done. }
  destruct (k <? length mask)%nat eqn:Hk; b2p.
  2: { apply Nat.ltb_ge in Hk. exists [], n. rewrite app_nil_r.
       replace (length mask - k)%nat with 0%nat by lia. done. }
  apply Nat.ltb_lt in Hk.
  unfold read_mask. destruct (decide (k = length mask)); [lia|].
  destruct (lookup_lt_is_Some_2 mask k Hk) as [b Hb]. rewrite Hb. cbn [mbind option_bind]. destruct b.
  - destruct (run_end_spec past mask (S (length mask)) k) as (j & Hj & Hr & Ht & Hend); [lia|lia|].
    rewrite Hj. cbn [mbind option_bind]. rewrite <- length_flat.
    rewrite (write_value_app (flat pre) n) by lia. cbn [mbind option_bind].
    replace (S (length (flat pre))) with (length (flat pre ++ [Z.of_nat k]))
      by (rewrite length_app; simpl; lia).
    rewrite write_value_app by lia. cbn [mbind option_bind].
    set (pre' := pre ++ [(k, j - 1)%nat]).
    assert ((flat pre ++ [Z.of_nat k]) ++ [Z.of_nat j - 1] = flat pre') as ->.
    { unfold pre'. rewrite flat_app, <- (assoc_L (++)). f_equal. unfold flat. simpl.
      do 2 f_equal. lia. }
    replace (S (length (flat pre ++ [Z.of_nat k]))) with (2 * length pre')%nat
      by (unfold pre'; rewrite !length_app, length_flat; simpl; lia).
    destruct (IH (S j) pre' (n - 1 - 1)%nat) as (rs & m & Hl & He & Ho & Hm); [lia|lia|].
    exists ((k, j - 1)%nat :: rs), m. split; [|split; [|split]].
    + rewrite Hl. unfold pre'. by rewrite <- (assoc_L (++)).
    + change (expand _) with (seq k (S (j - 1) - k) ++ expand rs). rewrite He.
      replace (S (j - 1) - k)%nat with (j - k)%nat by lia.
      replace (length mask - k)%nat with (j - k + (length mask - j))%nat by lia.
      rewrite selected_run; [f_equal|lia|].
      * destruct (decide (j = length mask)) as [->|Hne].
        { by rewrite (proj2 (Nat.sub_0_le _ _)), Nat.sub_diag by lia. }
        replace (length mask - j)%nat with (S (length mask - S j)) by lia.
        symmetry. apply selected_none. rewrite Hend by lia. done.
      * intros i Hi. destruct (decide (i = k)) as [->|]; [done|]. apply Ht. lia.
    + simpl. split; [lia|]. split; [lia|]. by replace (S (S (j - 1))) with (S j) by lia.
    + simpl. lia.
  - destruct (IH (S k) pre n) as (rs & m & Hl & He & Ho & Hm); [lia|lia|].
    exists rs, m. split; [done|]. split.
    { rewrite He. replace (length mask - k)%nat with (S (length mask - S k)) by lia.
      symmetry. apply selected_none. by rewrite Hb. }
    split; [|done]. destruct rs as [|[i j] rs]; [done|]. destruct Ho as (? & ? & ?). repeat split; try done; lia.
Qed.

(** whatever lies behind the mask, the ranges found are exactly the
    maximal runs of set elements, in order, apart from each other and in
    bounds; the rest of the array is -1, and nothing is written outside. *)
Theorem ranges_in_mask_runs (past : bool) (mask : list bool) :
  exists rs, ranges_in_mask past mask (length mask) =
      Some (flat rs ++ replicate (2 * (length mask - length rs)) (-1)) /\
    expand rs = selected mask 0 (length mask) /\ ordered 0 (length mask) rs /\
    (length rs <= length mask)%nat.
Proof.
  destruct (decide (length mask = 0%nat)) as [Hz|Hz].
  { exists []. unfold ranges_in_mask. rewrite Hz. by rewrite (nil_length_inv _ Hz). }
  destruct (ranges_loop_spec past mask (length mask) 0 [] (length mask * 2)) as (rs & m & Hl & He & Ho & Hm);
    [lia|lia|].
  rewrite Nat.sub_0_r in *. exists rs.
  replace (2 * (length mask - length rs))%nat with m by lia. split; [exact Hl|]. split_and!; [done|done|lia].
Qed.

(** ** The fragments of a region *)

Fixpoint row (d : color_desc) (mem : jailhouse_memory) (r : Z) (ranges : list Z) (virt : Z)
  : list jailhouse_memory :=
  match ranges with
  | i :: j :: ranges =>
      if i =? -1 then row d mem r ranges virt
      else let frag := fragment d mem virt i j r in
           frag :: row d mem r ranges (u64 (virt + mem_size frag))
  | _ => []
  end.

(** The guest address behind the fragments. *)
Definition virt_after (virt : Z) (frags : list jailhouse_memory) : Z :=
  foldl (fun v f => u64 (v + mem_size f)) virt frags.

Fixpoint rows (d : color_desc) (mem : jailhouse_memory) (ranges : list Z) (n : nat) (r virt : Z)
  : list jailhouse_memory :=
  match n with
  | O => []
  | S n => let l := row d mem r ranges virt in l ++ rows d mem ranges n (r + 1) (virt_after virt l)
  end.

(** The fragments in the order in which they are handed over. *)
Definition fragments (d : color_desc) (col_mem : memory_colored) : list jailhouse_memory :=
  let n := Z.to_nat (max_colors d) in
  let mask := mask_loop n (cm_colors col_mem) (replicate n false) in
  match ranges_in_mask false mask n with
  | Some ranges => rows d (cm_memory col_mem) ranges
      (Z.to_nat (periods d (cm_memory col_mem))) 0 (virt_start (cm_memory col_mem))
  | None => []
  end.

(** Operations on a list of regions up to the first error. *)
Fixpoint handle {St} (op : jailhouse_memory -> ST St Z) (l : list jailhouse_memory) : ST St Z :=
  match l with
  | [] => mret 0
  | f :: l => err ← op f; if negb (err =? 0) then mret err else handle op l
  end.

Lemma ranges_walk_handle {St} (op : jailhouse_memory -> ST St Z) d mem r ranges (rest : Z -> list jailhouse_memory) virt s n :
  (length ranges <= n)%nat ->
  (res ← ranges_walk op d mem r ranges virt;
   match res with inl err => mret err | inr virt => handle op (rest virt) end) s =
  handle op (row d mem r ranges virt ++ rest (virt_after virt (row d mem r ranges virt))) s.
Proof.
  revert ranges virt s. induction n as [|n IH]; intros [|i [|j ranges]] virt s Hn; simpl in Hn; try lia; try done.
  cbn [ranges_walk row]. destruct (i =? -1); [apply IH; lia|].
  cbn [app handle]. rewrite <- bind_assoc_run. unfold mbind at 1 3, st_bind.
  destruct (op _ s) as [[err s1]|]; [|done]. destruct (negb (err =? 0)); [done|].
  apply IH. lia.
Qed.

Lemma periods_walk_handle {St} (op : jailhouse_memory -> ST St Z) d mem ranges n r virt s :
  periods_walk op d mem ranges n r virt s = handle op (rows d mem ranges n r virt) s.
Proof.
  revert r virt s. induction n as [|n IH]; intros r virt s; [done|]. cbn [periods_walk rows].
  rewrite <- (ranges_walk_handle op d mem r ranges (fun v => rows d mem ranges n (r + 1) v) virt s _ (le_n _)).
  unfold mbind, st_bind. destruct (ranges_walk _ _ _ _ _ _ s) as [[[err|v] s1]|]; [done|apply IH|done].
Qed.

(** The result depends neither on what is behind the mask nor on what was in
    it before. *)
Lemma run_end_past past past' mask fuel k :
  run_end fuel past mask (length mask) k = run_end fuel past' mask (length mask) k.
Proof.
  revert k. induction fuel as [|fuel IH]; intros k; [done|]. cbn [run_end]. unfold read_mask.
  destruct (decide (S k = length mask)) as [He|Hne].
  - cbn [mbind option_bind]. by rewrite (proj2 (Nat.ltb_ge _ _)), !andb_false_r by lia.
  - destruct (mask !! S k) as [b|]; [|done]. cbn [mbind option_bind]. by rewrite IH.
Qed.

Lemma ranges_loop_past past past' mask fuel k cv values :
  ranges_loop fuel past mask (length mask) k cv values = ranges_loop fuel past' mask (length mask) k cv values.
Proof.
  revert k cv values. induction fuel as [|fuel IH]; intros k cv values; [done|]. cbn [ranges_loop].
  destruct (k <? length mask)%nat eqn:Hk; [|done]. apply Nat.ltb_lt in Hk.
  unfold read_mask. destruct (decide (k = length mask)); [lia|].
  destruct (mask !! k) as [[]|]; cbn [mbind option_bind]; [|apply IH|done].
  rewrite (run_end_past past past'). destruct (run_end _ _ _ _ _); [|done]. cbn [mbind option_bind].
  destruct (write_value values _ _); [|done]. cbn [mbind option_bind].
  destruct (write_value _ _ _); [|done]. cbn [mbind option_bind]. apply IH.
Qed.

Lemma mask_loop_junk n colors l l' :
  length l = n -> length l' = n -> 0 <= colors -> mask_loop n colors l = mask_loop n colors l'.
Proof.
  intros Hl Hl' Hc. apply list_eq. intros i. destruct (decide (i < n)%nat).
  - by rewrite !mask_loop_lookup by lia.
  - by rewrite !lookup_ge_None_2 by (rewrite length_mask_loop; lia).
Qed.

(** Units and periods that give a mask of a positive size, and a mask of it. *)
Definition usable (junk : list bool) (d : color_desc) : Prop :=
  0 < fragment_unit_size d /\ 0 < fragment_unit_offset d /\ 0 < max_colors d < 2 ^ 30 /\
  length junk = Z.to_nat (max_colors d).

(** The traversal handles the fragments one after the other up to the first
    error. *)
Lemma walk_colored_handle {St} (op : jailhouse_memory -> ST St Z) (past : bool) (junk : list bool) (d : color_desc)
    (col_mem : memory_colored) (s : St) :
  usable junk d -> 0 <= cm_colors col_mem ->
  walk_colored op past junk d col_mem s = handle op (fragments d col_mem) s.
Proof.
  intros (Hu & Ho & Hn & Hj) Hc. unfold walk_colored, fragments.
  rewrite (proj2 (Z.eqb_neq _ _)), (proj2 (Z.eqb_neq _ _)) by lia. cbn [orb].
  rewrite (proj2 (Z.ltb_lt _ _)), (proj2 (Z.ltb_lt _ _)), bool_decide_true by (done || lia). cbn [andb negb orb].
  set (n := Z.to_nat _) in *.
  rewrite (mask_loop_junk n _ junk (replicate n false)) by (rewrite ?length_replicate; done).
  set (mask := mask_loop _ _ _). assert (length mask = n) as Hm
    by (unfold mask; by rewrite length_mask_loop, length_replicate).
  rewrite <- Hm. unfold ranges_in_mask. rewrite (ranges_loop_past past false).
  change (ranges_loop (length mask) false mask (length mask) 0 0 (replicate (length mask * 2) (-1)))
    with (ranges_in_mask false mask (length mask)).
  destruct (ranges_in_mask_runs false mask) as (rs & Hrs & _). rewrite Hrs.
  erewrite bind_run by done. apply periods_walk_handle.
Qed.

(** managing a colored region is handling its fragments one after the
    other up to the first error, for every operation, whatever the
    uninitialized mask and the element behind it contain. *)
Theorem manage_handles_fragments {E : Type} (P : platform E) (past : bool) (junk : list bool) (d : color_desc)
    (col_mem : memory_colored) (c : mcell) (type : col_operation) (s : hv E) :
  usable junk d -> 0 <= cm_colors col_mem ->
  manage_colored_regions P past junk d col_mem c type s =
  handle (fragment_op P type c) (fragments d col_mem) s.
Proof. apply walk_colored_handle. Qed.

(** *** Addresses *)

Definition color_of (d : color_desc) (mem : jailhouse_memory) (a : Z) : Z :=
  (a - phys_start mem) mod fragment_unit_offset d / fragment_unit_size d.

(** The color mask selects the unit of the address; the first color is the
    highest bit. *)
Definition has_color (d : color_desc) (col_mem : memory_colored) (a : Z) : Prop :=
  Z.testbit (cm_colors col_mem)
    (fragment_unit_offset d / fragment_unit_size d - 1 - color_of d (cm_memory col_mem) a) = true.

(** The part of the region that is made of the first [n] periods. *)
Definition in_periods (d : color_desc) (mem : jailhouse_memory) (n a : Z) : Prop :=
  phys_start mem <= a < phys_start mem + n * fragment_unit_offset d.

Definition colored_ok (d : color_desc) (col_mem : memory_colored) : Prop :=
  0 < fragment_unit_size d /\ 0 < fragment_unit_offset d < 2 ^ 64 /\ 0 <= cm_colors col_mem /\
  0 < fragment_unit_offset d / fragment_unit_size d < 2 ^ 30 /\
  0 <= phys_start (cm_memory col_mem) /\ 0 <= mem_size (cm_memory col_mem) /\
  phys_start (cm_memory col_mem) + mem_size (cm_memory col_mem) <= 2 ^ 64.

Section Addresses.
Context (d : color_desc) (mem : jailhouse_memory).
Notation u := (fragment_unit_size d).
Notation o := (fragment_unit_offset d).

(** The addresses of a fragment are those of its colors. *)
Lemma fragment_addresses virt (i j : nat) r a :
  0 < u -> 0 < o < 2 ^ 64 -> 0 <= r -> 0 <= phys_start mem -> (i <= j)%nat -> Z.of_nat (S j) * u <= o ->
  phys_start mem + (r + 1) * o <= 2 ^ 64 ->
  in_region (fragment d mem virt (Z.of_nat i) (Z.of_nat j) r) a <->
  exists c : nat, c ∈ seq i (S j - i) /\
    phys_start mem + r * o + Z.of_nat c * u <= a < phys_start mem + r * o + Z.of_nat (S c) * u.
Proof.
  intros Hu Ho Hr Hp Hij Hj Hend. unfold in_region, fragment. simpl phys_start. simpl mem_size.
  assert (0 <= r * o) by nia. assert (0 <= Z.of_nat i * u) by nia.
  assert (Z.of_nat i * u < o) by nia. assert (0 <= (Z.of_nat j - Z.of_nat i + 1) * u <= o) by nia.
  assert (Hh : (r + 1) * o = r * o + o) by lia. rewrite Hh in Hend.
  rewrite (u64_small (Z.of_nat i * u)), (u64_small (r * o)), (u64_small (_ + _ + _)), u64_small by nia.
  set (x := a - phys_start mem - r * o). split.
  - intros Ha. assert (Z.of_nat i * u <= x < (Z.of_nat j + 1) * u) as Hx by (unfold x; nia).
    assert (Z.of_nat i <= x / u) by (apply Z.div_le_lower_bound; lia).
    assert (x / u < Z.of_nat j + 1) by (apply Z.div_lt_upper_bound; lia).
    exists (Z.to_nat (x / u)). rewrite elem_of_seq. split; [lia|].
    pose proof (Z.div_mod x u ltac:(lia)). pose proof (Z.mod_pos_bound x u ltac:(lia)).
    rewrite Nat2Z.inj_succ, Z2Nat.id by lia. unfold x in *. nia.
  - intros (c & Hc%elem_of_seq & Ha).
    assert (Z.of_nat i * u <= Z.of_nat c * u) by nia.
    assert (Z.of_nat (S c) * u <= (Z.of_nat j + 1) * u) by nia. nia.
Qed.

(** A period has the addresses of the selected colors. *)
Lemma row_addresses rs k virt lo r a :
  0 < u -> 0 < o < 2 ^ 64 -> 0 <= r -> 0 <= phys_start mem -> phys_start mem + (r + 1) * o <= 2 ^ 64 ->
  ordered lo (Z.to_nat (o / u)) rs ->
  (exists f, f ∈ row d mem r (flat rs ++ replicate k (-1)) virt /\ in_region f a) <->
  exists c : nat, c ∈ expand rs /\
    phys_start mem + r * o + Z.of_nat c * u <= a < phys_start mem + r * o + Z.of_nat (S c) * u.
Proof.
  intros Hu Ho Hr Hp Hend. revert lo virt. induction rs as [|[i j] rs IH]; intros lo virt Hord.
  - assert (forall n k, (k < n)%nat -> row d mem r (replicate k (-1)) virt = []) as Hnil.
    { clear k. induction n as [|n IHn]; intros k Hk; [lia|]. destruct k as [|[|k]]; [done|done|].
      simpl. apply IHn. lia. }
    change (flat [] ++ replicate k (-1)) with (replicate k (-1)). rewrite (Hnil (S k)) by lia.
    split; [by intros (? & ?%elem_of_nil & _)|by intros (? & ?%elem_of_nil & _)].
  - destruct Hord as (Hi & Hj & Hord).
    change (flat ((i, j) :: rs) ++ _) with (Z.of_nat i :: Z.of_nat j :: (flat rs ++ replicate k (-1))).
    cbn [row]. rewrite (proj2 (Z.eqb_neq (Z.of_nat i) (-1))) by lia.
    change (expand ((i, j) :: rs)) with (seq i (S j - i) ++ expand rs).
    setoid_rewrite elem_of_cons. setoid_rewrite elem_of_app.
    assert (Z.of_nat (S j) * u <= o) as Hju.
    { pose proof (Z.mul_div_le o u Hu). assert (Z.of_nat (S j) <= o / u) by lia. nia. }
    pose proof (fragment_addresses virt i j r a Hu Ho Hr Hp ltac:(lia) Hju Hend) as Hf.
    specialize (IH (S (S j)) (u64 (virt + mem_size (fragment d mem virt (Z.of_nat i) (Z.of_nat j) r))) Hord).
    split.
    + intros (f & [->|Hin] & Ha).
      * apply Hf in Ha as (c & Hc & Ha). exists c. auto.
      * destruct (proj1 IH) as (c & Hc & Hca); [by exists f|]. exists c. auto.
    + intros (c & [Hc|Hc] & Ha).
      * eexists. split; [by left|]. apply Hf. by exists c.
      * destruct (proj2 IH) as (f & Hin & Hfa); [by exists c|]. exists f. auto.
Qed.

Lemma rows_addresses rs k n r virt a :
  0 < u -> 0 < o < 2 ^ 64 -> 0 <= r -> 0 <= phys_start mem ->
  phys_start mem + (r + Z.of_nat n) * o <= 2 ^ 64 -> ordered 0 (Z.to_nat (o / u)) rs ->
  (exists f, f ∈ rows d mem (flat rs ++ replicate k (-1)) n r virt /\ in_region f a) <->
  exists q (c : nat), r <= q < r + Z.of_nat n /\ c ∈ expand rs /\
    phys_start mem + q * o + Z.of_nat c * u <= a < phys_start mem + q * o + Z.of_nat (S c) * u.
Proof.
  intros Hu Ho Hr Hp. revert r virt Hr. induction n as [|n IH]; intros r virt Hr Hend Hord.
  - split; [by intros (? & ?%elem_of_nil & _)|]. intros (q & c & Hq & _). lia.
  - cbn [rows]. setoid_rewrite elem_of_app.
    pose proof (row_addresses rs k virt 0 r a Hu Ho Hr Hp ltac:(nia) Hord) as Hrow.
    specialize (IH (r + 1) (virt_after virt (row d mem r (flat rs ++ replicate k (-1)) virt))
      ltac:(lia) ltac:(nia) Hord).
    split.
    + intros (f & [Hin|Hin] & Ha).
      * destruct (proj1 Hrow) as (c & Hc & Hca); [by exists f|]. exists r, c. split; [lia|done].
      * destruct (proj1 IH) as (q & c & Hq & Hc); [by exists f|]. exists q, c. split; [lia|done].
    + intros (q & c & Hq & Hc & Ha). destruct (decide (q = r)) as [->|Hne].
      * destruct (proj2 Hrow) as (f & Hin & Hf); [by exists c|]. exists f. auto.
      * destruct (proj2 IH) as (f & Hin & Hf); [exists q, c; split; [lia|done]|]. exists f. auto.
Qed.
End Addresses.

Lemma expand_mask n colors l (c : nat) :
  length l = n -> 0 <= colors ->
  c ∈ selected (mask_loop n colors l) 0 (length (mask_loop n colors l)) <->
  (c < n)%nat /\ Z.testbit colors (Z.of_nat n - 1 - Z.of_nat c) = true.
Proof.
  intros Hl Hc. unfold selected. rewrite list_elem_of_filter, elem_of_seq, length_mask_loop, Hl.
  split.
  - intros [Hm Hr]. split; [lia|]. rewrite mask_loop_lookup in Hm by lia. injection Hm as <-. f_equal. lia.
  - intros [Hr Hb]. split; [|lia]. rewrite mask_loop_lookup by lia. f_equal. rewrite <- Hb. f_equal. lia.
Qed.

(** A position in a period and in a unit. *)
Lemma position d mem a q (c : nat) :
  0 < fragment_unit_size d -> 0 < fragment_unit_offset d ->
  (Z.of_nat c < fragment_unit_offset d / fragment_unit_size d) ->
  phys_start mem + q * fragment_unit_offset d + Z.of_nat c * fragment_unit_size d <= a <
    phys_start mem + q * fragment_unit_offset d + Z.of_nat (S c) * fragment_unit_size d ->
  (a - phys_start mem) / fragment_unit_offset d = q /\ color_of d mem a = Z.of_nat c.
Proof.
  intros Hu Ho Hc Ha. unfold color_of. set (o := fragment_unit_offset d) in *. set (u := fragment_unit_size d) in *.
  pose proof (Z.mul_div_le o u Hu). assert (Z.of_nat (S c) * u <= o) by nia.
  assert ((a - phys_start mem) / o = q) as Hq.
  { symmetry. apply (Z.div_unique _ _ _ (a - phys_start mem - q * o)); lia. }
  split; [done|]. symmetry. apply (Z.div_unique _ _ _ (a - phys_start mem - q * o - Z.of_nat c * u)); [lia|].
  rewrite Z.mod_eq, Hq by lia. lia.
Qed.

Lemma s32_small x : - 2 ^ 31 <= x < 2 ^ 31 -> s32 x = x.
Proof.
  intros Hx. unfold s32, wrap. destruct (Z.ltb_spec x 0).
  - replace (x mod 2 ^ 32) with (x + 2 ^ 32) by (apply (Z.mod_unique _ _ (-1)); lia).
    rewrite (proj2 (Z.ltb_ge _ _)); lia.
  - rewrite Z.mod_small by lia. by rewrite (proj2 (Z.ltb_lt _ _)) by lia.
Qed.

Lemma s32_le x : 0 <= x -> s32 x <= x.
Proof.
  intros Hx. unfold s32, wrap. pose proof (Z.mod_le x (2 ^ 32) Hx ltac:(lia)).
  destruct (Z.ltb_spec (x mod 2 ^ 32) (2 ^ 31)); lia.
Qed.

(** The loop makes no more passes than there are whole periods. *)
Lemma periods_bounds d col_mem :
  0 < fragment_unit_offset d -> 0 <= mem_size (cm_memory col_mem) ->
  Z.max 0 (periods d (cm_memory col_mem)) <= mem_size (cm_memory col_mem) / fragment_unit_offset d.
Proof.
  intros Ho Hs. pose proof (Z.div_pos (mem_size (cm_memory col_mem)) (fragment_unit_offset d) Hs Ho) as Hd.
  pose proof (s32_le _ Hd). unfold periods. lia.
Qed.

Lemma fragments_addresses (d : color_desc) (col_mem : memory_colored) (a : Z) :
  colored_ok d col_mem ->
  (exists f, f ∈ fragments d col_mem /\ in_region f a) <->
  in_periods d (cm_memory col_mem) (Z.max 0 (periods d (cm_memory col_mem))) a /\ has_color d col_mem a.
Proof.
  intros (Hu & Ho & Hcol & Hmc & Hp & Hs & Hend). unfold fragments, in_periods, has_color.
  assert (max_colors d = fragment_unit_offset d / fragment_unit_size d) as -> by (apply s32_small; lia).
  pose proof (periods_bounds d col_mem ltac:(lia) Hs) as Hpb.
  set (mem := cm_memory col_mem) in *. set (u := fragment_unit_size d) in *. set (o := fragment_unit_offset d) in *.
  set (n := Z.to_nat (o / u)). set (mask := mask_loop n _ _).
  assert (length mask = n) as Hm by (unfold mask; by rewrite length_mask_loop, length_replicate).
  destruct (ranges_in_mask_runs false mask) as (rs & Hrs & Hex & Hord & _). rewrite Hm in *. rewrite Hrs.
  pose proof (Z.mul_div_le (mem_size mem) o ltac:(lia)) as Hwhole.
  assert (0 <= mem_size mem / o) as Hnn by (apply Z.div_pos; lia). set (m := Z.max 0 (periods d mem)) in *.
  assert (Z.of_nat (Z.to_nat (periods d mem)) = m) as Hm' by (unfold m; lia).
  assert (0 <= o / u) as Hnc by (apply Z.div_pos; lia).
  rewrite rows_addresses; [|done|done|lia|done| |exact Hord].
  2: { rewrite Hm'. fold o. nia. }
  fold o u. rewrite Hm'.
  assert (forall c : nat, c ∈ expand rs <->
    (c < n)%nat /\ Z.testbit (cm_colors col_mem) (Z.of_nat n - 1 - Z.of_nat c) = true) as Hsel.
  { intros c. pose proof (expand_mask n (cm_colors col_mem) (replicate n false) c) as He.
    fold mask in He. rewrite Hm in He. rewrite Hex. apply He; [by rewrite length_replicate|done]. }
  assert (Z.of_nat n = o / u) as Hn by (unfold n; lia). rewrite Hn in Hsel.
  setoid_rewrite Hsel. split.
  - intros (q & c & Hq & [Hc Hb] & Ha).
    destruct (position d mem a q c) as [Hqa Hca]; [done|lia|fold o u; lia|done|]. fold o in Hqa.
    rewrite Hca. split; [|done].
    assert (Z.of_nat (S c) * u <= o) by (pose proof (Z.mul_div_le o u Hu); nia).
    assert ((q + 1) * o <= m * o) by nia. nia.
  - intros [Ha Hb]. set (x := a - phys_start mem) in *.
    assert (0 <= color_of d mem a) as Hc0.
    { apply Z.div_pos; [|done]. apply Z.mod_pos_bound. apply Ho. }
    assert (0 <= o / u - 1 - color_of d mem a) as Hc1.
    { destruct (Z.lt_ge_cases (o / u - 1 - color_of d mem a) 0) as [Hneg|]; [|done].
      by rewrite Z.testbit_neg_r in Hb. }
    exists (x / o), (Z.to_nat (color_of d mem a)). rewrite Nat2Z.inj_succ, Z2Nat.id by done.
    split; [split; [apply Z.div_pos; lia|apply Z.div_lt_upper_bound; nia]|].
    split; [split; [lia|done]|].
    unfold color_of. fold x o u.
    pose proof (Z.div_mod x o ltac:(lia)). pose proof (Z.div_mod (x mod o) u ltac:(lia)).
    pose proof (Z.mod_pos_bound (x mod o) u Hu). unfold x in *. nia.
Qed.

(** An operation that only notes the fragments it is handed. *)
Definition note (f : jailhouse_memory) : ST (list jailhouse_memory) Z := fun l => Some (0, l ++ [f]).

Lemma handle_note l l0 : handle note l l0 = Some (0, l0 ++ l).
Proof.
  revert l0. induction l as [|f l IH]; intros l0; cbn [handle]; [by rewrite app_nil_r|].
  unfold note at 1, mbind, st_bind. cbn. by rewrite IH, <- (assoc_L (++)).
Qed.

(** C21: The fragments that the traversal of a colored region hands to an
    operation without errors are exactly the addresses of the first
    [(int)(size/f_offset)] periods of the region, none if that is negative,
    that have a color of the mask; these are all whole periods of the region
    if they are less than 2^31. The period has from 1 to 2^30 - 1 colors and
    the region lies below 2^64. *)
Theorem fragments_cover (past : bool) (junk : list bool) (d : color_desc) (col_mem : memory_colored) :
  colored_ok d col_mem -> length junk = Z.to_nat (fragment_unit_offset d / fragment_unit_size d) ->
  exists frags, walk_colored note past junk d col_mem [] = Some (0, frags) /\
    exists n, n = Z.max 0 (s32 (mem_size (cm_memory col_mem) / fragment_unit_offset d)) /\
      (forall a, (exists f, f ∈ frags /\ in_region f a) <->
         in_periods d (cm_memory col_mem) n a /\ has_color d col_mem a) /\
      (mem_size (cm_memory col_mem) / fragment_unit_offset d < 2 ^ 31 ->
         n = mem_size (cm_memory col_mem) / fragment_unit_offset d).
Proof.
  intros Hok Hj. pose proof Hok as (Hu & Ho & Hcol & Hmc & Hp & Hs & Hend). exists (fragments d col_mem).
  assert (max_colors d = fragment_unit_offset d / fragment_unit_size d) as Hm by (apply s32_small; lia).
  split; [|eexists; split; [done|split]].
  - rewrite walk_colored_handle; [apply handle_note|rewrite <- Hm in *; repeat split; (done || lia)|done].
  - intros a. by apply fragments_addresses.
  - intros Hsm. pose proof (Z.div_pos (mem_size (cm_memory col_mem)) (fragment_unit_offset d) Hs ltac:(lia)).
    rewrite s32_small by lia. lia.
Qed.

(** two colored regions over the same memory whose color masks have no
    color in common share no address: the cells use different parts of the
    cache. *)
Theorem colors_separate (d : color_desc) (m1 m2 : memory_colored) (f1 f2 : jailhouse_memory) (a : Z) :
  colored_ok d m1 -> colored_ok d m2 ->
  phys_start (cm_memory m1) = phys_start (cm_memory m2) -> Z.land (cm_colors m1) (cm_colors m2) = 0 ->
  f1 ∈ fragments d m1 -> f2 ∈ fragments d m2 -> ~ (in_region f1 a /\ in_region f2 a).
Proof.
  intros H1 H2 Hp Hland Hf1 Hf2 [Ha1 Ha2].
  destruct (proj1 (fragments_addresses d m1 a H1)) as [_ Hc1]; [by exists f1|].
  destruct (proj1 (fragments_addresses d m2 a H2)) as [_ Hc2]; [by exists f2|].
  unfold has_color, color_of in *. rewrite Hp in Hc1. set (k := _ - _ - _) in *.
  assert (Z.testbit (Z.land (cm_colors m1) (cm_colors m2)) k = true) as Hb by (by rewrite Z.land_spec, Hc1, Hc2).
  by rewrite Hland, Z.bits_0 in Hb.
Qed.

(** ** Guest addresses *)

Lemma virt_after_app virt l l' : virt_after virt (l ++ l') = virt_after (virt_after virt l) l'.
Proof. apply foldl_app. Qed.

Lemma row_virtual d mem r ranges virt l1 f l2 n :
  (length ranges <= n)%nat -> row d mem r ranges virt = l1 ++ f :: l2 -> virt_start f = virt_after virt l1.
Proof.
  revert ranges virt l1. induction n as [|n IH]; intros [|i [|j ranges]] virt l1 Hn Hl; simpl in Hn; try lia;
    try by destruct l1.
  cbn [row] in Hl. destruct (i =? -1); [by apply (IH ranges); [lia|]|].
  destruct l1 as [|g l1]; injection Hl as Hf Hl; [by rewrite <- Hf|].
  apply IH in Hl; [|lia]. rewrite Hl. simpl. by rewrite <- Hf.
Qed.

Lemma rows_virtual d mem ranges n r virt l1 f l2 :
  rows d mem ranges n r virt = l1 ++ f :: l2 -> virt_start f = virt_after virt l1.
Proof.
  revert r virt l1. induction n as [|n IH]; intros r virt l1 Hl; cbn [rows] in Hl; [by destruct l1|].
  apply app_cons_split in Hl as [[k Hk]|(k & -> & Hk)].
  - by eapply row_virtual.
  - rewrite virt_after_app. by eapply IH.
Qed.

(** In the guest the fragments follow each other without a gap. *)
Lemma fragments_contiguous d col_mem l1 f l2 :
  fragments d col_mem = l1 ++ f :: l2 -> virt_start f = virt_after (virt_start (cm_memory col_mem)) l1.
Proof.
  unfold fragments. destruct (ranges_in_mask _ _ _); [apply rows_virtual|by destruct l1].
Qed.
