(* ===== verification/ColoringExamples.v ===== *)
(** * Cache coloring on a concrete machine

    The theorems of [Coloring] applied to a cache of eight colors, and what an
    error does to the destruction of a colored region. *)

From Stdlib Require Import ZArith Lia String.
From stdpp Require Import base tactics list list_numbers option.
From S2P Require Import Prelude StateMonad Cell CpuControl Mmio Irqchip Bitops PagePool Paging Management CellRegions CellScenario Coloring.

(** Eight colors of a page each. *)
Definition demo_colors : color_desc := mk_color_desc 0x1000 0x8000.
Definition colored_a : memory_colored := mk_memory_colored (mk_memory 0x40000000 0 0x10000 7) 0xcc.
Definition colored_b : memory_colored := mk_memory_colored (mk_memory 0x40000000 0 0x10000 7) 0x03.

Example demo_ranges :
  ranges_in_mask true [true; true; false; false; true; true; false; true] 8 =
  Some ([0; 1; 4; 5; 7; 7] ++ replicate 10 (-1)).
Proof. vm_compute. reflexivity. Qed.

(** Two periods of two fragments, contiguous in the guest. *)
Example demo_fragments :
  fragments demo_colors colored_a =
  [mk_memory 0x40000000 0 0x2000 7; mk_memory 0x40004000 0x2000 0x2000 7;
   mk_memory 0x40008000 0x4000 0x2000 7; mk_memory 0x4000c000 0x6000 0x2000 7].
Proof. vm_compute. reflexivity. Qed.

Lemma colored_a_ok : colored_ok demo_colors colored_a.
Proof. by repeat split. Qed.
Lemma colored_b_ok : colored_ok demo_colors colored_b.
Proof. by repeat split. Qed.

Lemma manage_handles_fragments_witness :
  0 < fragment_unit_size demo_colors /\
  manage_colored_regions demo_platform true (replicate 8 true) demo_colors colored_a demo_root CREATE (demo_hv false) =
  handle (fragment_op demo_platform CREATE demo_root) (fragments demo_colors colored_a) (demo_hv false).
Proof.
  split; [reflexivity|].
  apply (manage_handles_fragments demo_platform true (replicate 8 true) demo_colors colored_a demo_root CREATE);
    [repeat split|]; reflexivity || (simpl; lia).
Defined.

Lemma fragments_cover_witness :
  colored_ok demo_colors colored_a /\
  exists frags, walk_colored note true (replicate 8 true) demo_colors colored_a [] = Some (0, frags) /\
    forall a, (exists f, f ∈ frags /\ in_region f a) <->
      in_periods demo_colors (cm_memory colored_a) 2 a /\ has_color demo_colors colored_a a.
Proof.
  split; [exact colored_a_ok|].
  destruct (fragments_cover true (replicate 8 true) demo_colors colored_a colored_a_ok eq_refl)
    as (frags & Hw & n & Hn & Ha & _).
  exists frags. split; [exact Hw|]. change (Z.max 0 _) with 2 in Hn. subst n. exact Ha.
Defined.

(** A region of 2^31 periods, 64 TiB, has no fragments at all. *)
Definition colored_huge : memory_colored := mk_memory_colored (mk_memory 0 0 (2 ^ 46) 7) 0xcc.

Example huge_region_empty :
  colored_ok demo_colors colored_huge /\
  walk_colored note true (replicate 8 true) demo_colors colored_huge [] = Some (0, []).
Proof. split; [by repeat split|vm_compute; reflexivity]. Qed.

Lemma colors_separate_witness :
  colored_ok demo_colors colored_a /\ colored_ok demo_colors colored_b /\
  ~ (in_region (mk_memory 0x40004000 0x2000 0x2000 7) 0x40004000 /\
     in_region (mk_memory 0x40006000 0 0x2000 7) 0x40004000).
Proof.
  split; [exact colored_a_ok|]. split; [exact colored_b_ok|].
  apply (colors_separate demo_colors colored_a colored_b _ _ 0x40004000 colored_a_ok colored_b_ok).
  - reflexivity.
  - reflexivity.
  - vm_compute fragments. apply elem_of_cons. right. apply elem_of_cons. by left.
  - vm_compute fragments. apply elem_of_cons. by left.
Defined.

(** A platform on which unmapping works and mapping may fail. *)
Definition leaky_platform : platform board :=
  mk_platform board (p_map_region demo_platform) (fun _ _ e => (0, e))
    (p_subpage_register demo_platform) (p_subpage_unregister demo_platform)
    (p_mmio_cell_init demo_platform) (p_mmio_cell_exit demo_platform)
    (p_arch_cell_create demo_platform) (p_arch_cell_destroy demo_platform)
    (p_arch_cell_reset demo_platform) (p_commit demo_platform) (p_units demo_platform)
    (p_alloc demo_platform) (p_free demo_platform) (p_get_pages demo_platform)
    (p_config demo_platform) (p_send demo_platform) (p_poll demo_platform)
    (p_suspended demo_platform)
    (p_cell_state demo_platform) (p_set_cell_state demo_platform) (p_clear_comm_page demo_platform)
    (p_sizeof_cell demo_platform) (p_sizeof_desc demo_platform).

(** [remap_to_root_cell] only warns about an error, but the error ends the
    loop: the other three fragments stay mapped in the destroyed cell and are
    not given back. *)
Example destroy_stops_at_warning :
  (fun '(r, s) => (r, events s)) <$>
    manage_colored_regions leaky_platform false (replicate 8 false) demo_colors colored_a
      (mk_mcell (demo_config 0x2000) (mk_cpu_set 63 4) false) DESTROY (demo_hv true) =
  Some (- ENOMEM,
    [MemoryChanged 2 (mk_memory 0x40000000 0 0x2000 7);
     MemoryChanged 0 (mk_memory 0x40000000 0x40000000 0x2000 7)]).
Proof. vm_compute. reflexivity. Qed.
