(* ===== verification/Dcache.v ===== *)
(** * Flushing the data cache

    [arm_cell_dcaches_flush] of hypervisor/arch/arm-common/mmu_cell.c, the
    DCACHE case of coloring.c and [arm_dcaches_flush] of arch/arm64/caches.S:
    the memory of a cell is mapped at the temporary pages of the CPU, 64 KB at
    a time, and cleaned or invalidated there line by line. The results of the
    mappings are not checked.

    An instruction on the data cache acts on the line the page tables of the
    hypervisor map its address to; an address without a mapping is a fault,
    which is undefined. *)

From Stdlib Require Import ZArith Lia.
From stdpp Require Import base tactics list list_numbers option gmap.
From S2P Require Import Prelude Bitops StateMonad Mmio PagePool Paging PageTree PageMap PageCreate AddressSpace.
From S2P Require Import PagePrepare PagingInit Management Coloring.

Inductive dcache_flush := DCACHE_CLEAN | DCACHE_INVALIDATE | DCACHE_CLEAN_AND_INVALIDATE.

(** The lines of physical memory that were acted on, the last one last. *)
Record cache_state := mk_cache_state { pgs : pgstate; dc_ops : list (dcache_flush * Z) }.

Notation FL := (ST cache_state).

Definition in_tables {A} (m : ST pgstate A) : FL A := fun s =>
  match m (pgs s) with Some (x, p) => Some (x, mk_cache_state p (dc_ops s)) | None => None end.

(** [dcache_line_size]: the field DminLine of CTR_EL0, in words. *)
Definition dcache_line_size (ctr_el0 : Z) : Z := Z.shiftl 4 (Z.land (Z.shiftr ctr_el0 16) 15).

Section Flush.
Context (b : boot) (ctr_el0 : Z) (hv : paging_structures) (this_cpu_id : Z).
Notation line := (dcache_line_size ctr_el0).
Notation page_offset := (page_offset b).

(** [dc cvac], [dc ivac] or [dc civac] *)
Definition dc (flush : dcache_flush) (va : Z) : FL unit := fun s =>
  match mapping page_offset hv (pgs s) va with
  | Some (a, _, _) => Some (tt, mk_cache_state (pgs s) (dc_ops s ++ [(flush, a)]))
  | None => None
  end.

Fixpoint lines_loop (fuel : nat) (flush : dcache_flush) (x0 x1 : Z) : FL unit :=
  match fuel with
  | O => undefined
  | S fuel =>
      _ ← dc flush x0;
      let x0 := u64 (x0 + line) in
      if x0 <? x1 then lines_loop fuel flush x0 x1 else mret tt
  end.

Definition arm_dcaches_flush (addr size : Z) (flush : dcache_flush) : FL unit :=
  let x1 := u64 (addr + size) in
  let x0 := Z.land addr (u64 (Z.lnot (line - 1))) in
  lines_loop (S (Z.to_nat (size / line))) flush x0 x1.

(** [while (region_size > 0)]; every turn takes the most that the temporary
    pages hold. *)
Fixpoint chunks_loop (fuel : nat) (flush : dcache_flush) (region_addr region_size : Z) : FL unit :=
  if region_size <=? 0 then mret tt
  else
    match fuel with
    | O => undefined
    | S fuel =>
        let vaddr := temporary_base this_cpu_id in
        let size := Z.min region_size (NUM_TEMPORARY_PAGES * PAGE_SIZE) in
        _ ← in_tables (paging_create page_offset hv region_addr size vaddr PAGE_DEFAULT_FLAGS PAGING_NON_COHERENT);
        _ ← arm_dcaches_flush vaddr size flush;
        chunks_loop fuel flush (u64 (region_addr + size)) (u64 (region_size - size))
    end.

Definition flush_region (flush : dcache_flush) (mem : jailhouse_memory) : FL Z :=
  _ ← chunks_loop (S (Z.to_nat (mem_size mem / (NUM_TEMPORARY_PAGES * PAGE_SIZE)))) flush (phys_start mem) (mem_size mem);
  mret 0.

Definition not_cached (mem : jailhouse_memory) : bool := has_flag mem (Z.lor JAILHOUSE_MEM_IO JAILHOUSE_MEM_COMM_REGION).

Fixpoint regions_loop (flush : dcache_flush) (mems : list jailhouse_memory) : FL unit :=
  match mems with
  | [] => mret tt
  | mem :: mems =>
      if not_cached mem then regions_loop flush mems
      else _ ← flush_region flush mem; regions_loop flush mems
  end.

(** [past] and [junk] as in [Coloring]. *)
Fixpoint colored_loop (past : bool) (junk : list bool) (d : color_desc) (flush : dcache_flush) (cols : list memory_colored) : FL unit :=
  match cols with
  | [] => mret tt
  | col_mem :: cols =>
      if not_cached (cm_memory col_mem) then colored_loop past junk d flush cols
      else _ ← walk_colored (flush_region flush) past junk d col_mem; colored_loop past junk d flush cols
  end.

Definition arm_cell_dcaches_flush (past : bool) (junk : list bool) (d : color_desc) (mems : list jailhouse_memory)
    (cols : list memory_colored) (flush : dcache_flush) : FL unit :=
  _ ← regions_loop flush mems;
  colored_loop past junk d flush cols.

(** ** The lines of a range *)

Definition lines (flush : dcache_flush) (a size : Z) : list (dcache_flush * Z) :=
  (fun k => (flush, a + k * line)) <$> seqZ 0 (size / line).

Context (Hok : boot_ok b) (Hcpu : 0 <= this_cpu_id < max_cpus b) (Hline : Z.land (Z.shiftr ctr_el0 16) 15 <= 10).

Lemma line_value : exists j, 2 <= j <= 12 /\ line = 2 ^ j.
Proof.
  unfold dcache_line_size. set (n := Z.land _ 15) in *. exists (2 + n).
  assert (0 <= n) by (apply Z.land_nonneg; right; lia). split; [lia|].
  rewrite Z.shiftl_mul_pow2, Z.pow_add_r by lia. lia.
Qed.

Lemma line_page : 0 < line <= PAGE_SIZE /\ forall x, x mod PAGE_SIZE = 0 -> x mod line = 0.
Proof.
  destruct line_value as (j & Hj & ->). split.
  - change PAGE_SIZE with (2 ^ 12). split; [apply Z.pow_pos_nonneg; lia|apply Z.pow_le_mono_r; lia].
  - intros x Hx. apply Z.mod_divide; [apply Z.pow_nonzero; lia|].
    apply Z.divide_trans with (2 ^ 12); [|by apply Z.mod_divide in Hx].
    exists (2 ^ (12 - j)). rewrite <- Z.pow_add_r by lia. f_equal. lia.
Qed.

Lemma lines_app flush a n m : 0 <= n -> 0 <= m -> n mod line = 0 -> lines flush a (n + m) = lines flush a n ++ lines flush (a + n) m.
Proof.
  intros Hn Hm Hd. destruct line_page as [Hl _]. unfold lines.
  assert (Hq : n = n / line * line) by (pose proof (Z.div_mod n line ltac:(lia)); lia).
  assert (0 <= n / line) by (apply Z.div_pos; lia). assert (0 <= m / line) by (apply Z.div_pos; lia).
  replace ((n + m) / line) with (n / line + m / line) by (rewrite Hq at 2; rewrite Z.add_comm, (Z.add_comm _ m), Z.div_add by lia; lia).
  rewrite seqZ_app, fmap_app by lia. f_equal.
  rewrite <- (Z.add_0_r (0 + n / line)), <- fmap_add_seqZ, <- list_fmap_compose. apply list_fmap_ext. intros _ k _. cbn [compose]. f_equal.
  rewrite !Z.mul_add_distr_r. lia.
Qed.

Lemma line_aligned x : 0 <= x < 2 ^ 48 -> x mod line = 0 -> Z.land x (u64 (Z.lnot (line - 1))) = x.
Proof.
  intros Hx Hm. destruct line_value as (j & Hj & He). rewrite He in *.
  assert (H2 : 1 <= 2 ^ j <= 2 ^ 12) by (split; [pose proof (Z.pow_pos_nonneg 2 j); lia|apply Z.pow_le_mono_r; lia]).
  apply Z.bits_inj'. intros i Hi. rewrite Z.land_spec. unfold u64, wrap.
  destruct (decide (i < 64)) as [Hlt|Hge].
  - rewrite Z.mod_pow2_bits_low, Z.lnot_spec by lia. rewrite Z.sub_1_r, <- Z.ones_equiv, Z.testbit_ones_nonneg by lia.
    destruct (Z.ltb_spec i j); cbn [negb]; [|apply andb_true_r].
    rewrite andb_false_r. symmetry. rewrite <- (Z.mod_pow2_bits_low x j i), Hm by lia. apply Z.bits_0.
  - rewrite Z.mod_pow2_bits_high, andb_false_r by lia. symmetry. rewrite <- (Z.mod_small x (2 ^ 64)) by lia.
    apply Z.mod_pow2_bits_high. lia.
Qed.

(** Flushing a range that is mapped. *)
Lemma lines_loop_run flush ph n : forall fuel va s, (0 < n <= fuel)%nat -> 0 <= va -> va + Z.of_nat n * line < 2 ^ 64 ->
  (forall v, va <= v < va + Z.of_nat n * line -> exists f z, mapping page_offset hv (pgs s) v = Some (ph + (v - va), f, z)) ->
  lines_loop fuel flush va (va + Z.of_nat n * line) s =
    Some (tt, mk_cache_state (pgs s) (dc_ops s ++ lines flush ph (Z.of_nat n * line))).
Proof.
  destruct line_page as [Hl _]. revert ph. induction n as [|n IH]; intros ph [|fuel] va s Hn Hva Hend Hmap; try lia.
  cbn [lines_loop]. destruct (Hmap va ltac:(nia)) as (f & z & Hm). rewrite Z.sub_diag, Z.add_0_r in Hm.
  erewrite bind_run by (unfold dc; rewrite Hm; reflexivity). rewrite u64_small by nia.
  assert (Hsplit : lines flush ph (Z.of_nat (S n) * line) = (flush, ph) :: lines flush (ph + line) (Z.of_nat n * line)).
  { replace (Z.of_nat (S n) * line) with (line + Z.of_nat n * line) by lia.
    rewrite lines_app by (first [lia|nia|apply Z.mod_same; lia]). unfold lines at 1. rewrite Z.div_same by lia. change (seqZ 0 1) with [0].
    cbn [fmap list_fmap app]. by rewrite Z.mul_0_l, Z.add_0_r. }
  rewrite Hsplit. destruct (decide (n = 0%nat)) as [->|Hne].
  - rewrite (proj2 (Z.ltb_ge _ _)) by lia. unfold lines. rewrite Z.mul_0_l, Z.div_0_l by lia. done.
  - rewrite (proj2 (Z.ltb_lt _ _)) by nia.
    replace (va + Z.of_nat (S n) * line) with (va + line + Z.of_nat n * line) by lia.
    rewrite (IH (ph + line)); [cbn; by rewrite <- (assoc_L (++))|lia|lia|nia|].
    cbn [pgs]. intros v Hv. destruct (Hmap v ltac:(nia)) as (f' & z' & ->). exists f', z'. do 3 f_equal. lia.
Qed.

Lemma dcaches_flush_run flush ph va size s : va mod PAGE_SIZE = 0 -> 0 <= va -> va + size <= 2 ^ 48 -> 0 < size -> size mod PAGE_SIZE = 0 ->
  (forall v, va <= v < va + size -> exists f z, mapping page_offset hv (pgs s) v = Some (ph + (v - va), f, z)) ->
  arm_dcaches_flush va size flush s = Some (tt, mk_cache_state (pgs s) (dc_ops s ++ lines flush ph size)).
Proof.
  intros Hm Hva Hend Hs Hsm Hmap. destruct line_page as [Hl Hp]. unfold arm_dcaches_flush.
  rewrite line_aligned by (first [lia|by apply Hp]). rewrite u64_small by lia.
  pose proof (Z.div_mod size line ltac:(lia)) as Hd. rewrite (Hp size Hsm) in Hd.
  pose proof (Z.div_pos size line ltac:(lia) ltac:(lia)) as Hq.
  assert (Hn : Z.of_nat (Z.to_nat (size / line)) * line = size) by (rewrite Z2Nat.id by done; lia).
  assert (0 < size / line) by nia.
  pose proof (lines_loop_run flush ph (Z.to_nat (size / line)) (S (Z.to_nat (size / line))) va s) as Hrun.
  rewrite Hn in Hrun. apply Hrun; [lia|done|lia|done].
Qed.

(** ** The memory of a cell *)
Record mem_ok (mem : jailhouse_memory) : Prop := {
  mo_phys : 0 <= phys_start mem /\ phys_start mem mod PAGE_SIZE = 0;
  mo_size : 0 <= mem_size mem /\ mem_size mem mod PAGE_SIZE = 0;
  mo_end : phys_start mem + mem_size mem < 2 ^ 48;
}.

(** The flush ran to the end: no fault, no page taken. *)
Definition flushed (m : FL unit) (s : cache_state) (ops : list (dcache_flush * Z)) : Prop :=
  exists s', m s = Some (tt, s') /\ hv_ready b hv (pgs s') /\ mem_pool (pgs s') = mem_pool (pgs s) /\ dc_ops s' = dc_ops s ++ ops.

(** One turn of the loop. *)
Lemma chunk_run flush s ph size : hv_ready b hv (pgs s) -> 0 <= ph -> ph mod PAGE_SIZE = 0 -> ph + size < 2 ^ 48 ->
  0 < size <= 65536 -> size mod PAGE_SIZE = 0 ->
  flushed (_ ← in_tables (paging_create page_offset hv ph size (temporary_base this_cpu_id) PAGE_DEFAULT_FLAGS PAGING_NON_COHERENT);
           arm_dcaches_flush (temporary_base this_cpu_id) size flush) s (lines flush ph size).
Proof.
  intros Hr Hp Hpm Hend Hs Hsm. assert (Ha : PAGE_ALIGN size = size) by (apply page_align_mult; [lia|done]).
  destruct (temporary_create_run b Hok hv (pgs s) this_cpu_id ph size PAGE_DEFAULT_FLAGS Hr Hcpu) as (p' & Hrun & Hr' & Hpool & Hmap);
    rewrite ?Ha; try lia; try done.
  rewrite Ha in Hmap. destruct (temporary_base_value b Hok this_cpu_id Hcpu) as (_ & Hbm & Hbr & Hb0).
  set (s1 := mk_cache_state p' (dc_ops s)).
  exists (mk_cache_state p' (dc_ops s ++ lines flush ph size)).
  erewrite bind_run by (unfold in_tables; rewrite Hrun; reflexivity). fold s1.
  rewrite (dcaches_flush_run flush ph _ size s1); try done; try lia.
  - rewrite <- Hbm, land_page_mask by lia. by rewrite Zminus_mod_idemp_r, Z.sub_diag.
  - intros v Hv. destruct (Hmap v Hv) as (z & Hz). exists PAGE_DEFAULT_FLAGS, z.
    rewrite present_valid in Hz by done. exact Hz.
Qed.

Lemma chunks_loop_run flush fuel : forall s ph size, hv_ready b hv (pgs s) -> 0 <= ph -> ph mod PAGE_SIZE = 0 ->
  ph + size < 2 ^ 48 -> 0 <= size <= Z.of_nat fuel * 65536 -> size mod PAGE_SIZE = 0 ->
  flushed (chunks_loop fuel flush ph size) s (lines flush ph size).
Proof.
  induction fuel as [|fuel IH]; intros s ph size Hr Hp Hpm Hend Hs Hsm.
  all: destruct (decide (size = 0)) as [->|Hne]; [exists s; split; [done|split; [done|split; [done|]]];
    unfold lines; destruct line_page; rewrite Z.div_0_l by lia; by rewrite app_nil_r|].
  { lia. }
  cbn [chunks_loop]. rewrite (proj2 (Z.leb_gt _ _)) by lia. cbv zeta.
  change (NUM_TEMPORARY_PAGES * PAGE_SIZE) with 65536. set (n := Z.min size 65536).
  assert (Hn : 0 < n <= 65536 /\ n mod PAGE_SIZE = 0).
  { split; [lia|]. unfold n. destruct (Z.min_spec size 65536) as [[_ ->]|[_ ->]]; done. }
  destruct Hn as [Hn Hnm]. rewrite !u64_small by lia. destruct line_page as [Hl Hlp].
  assert (Hsplit : lines flush ph size = lines flush ph n ++ lines flush (ph + n) (size - n)).
  { rewrite <- lines_app by (first [lia|by apply Hlp]). f_equal. lia. }
  rewrite Hsplit.
  destruct (chunk_run flush s ph n Hr Hp Hpm ltac:(lia) ltac:(lia) Hnm) as (s1 & H1 & Hr1 & Hp1 & Ho1).
  destruct (IH s1 (ph + n) (size - n)) as (s2 & H2 & Hr2 & Hp2 & Ho2); try done; try lia.
  { by rewrite Zplus_mod, Hpm, Hnm. }
  { by rewrite Zminus_mod, Hsm, Hnm. }
  exists s2. split; [|split; [done|split; [by rewrite Hp2|by rewrite Ho2, Ho1, <- (assoc_L (++))]]].
  rewrite bind_assoc_run. erewrite bind_run by exact H1. exact H2.
Qed.

Definition region_lines (flush : dcache_flush) (mem : jailhouse_memory) : list (dcache_flush * Z) :=
  lines flush (phys_start mem) (mem_size mem).

Lemma region_run flush mem s : mem_ok mem -> hv_ready b hv (pgs s) ->
  exists s', flush_region flush mem s = Some (0, s') /\ hv_ready b hv (pgs s') /\ mem_pool (pgs s') = mem_pool (pgs s) /\
    dc_ops s' = dc_ops s ++ region_lines flush mem.
Proof.
  intros [[Hp Hpm] [Hs Hsm] He] Hr. unfold flush_region. change (NUM_TEMPORARY_PAGES * PAGE_SIZE) with 65536.
  pose proof (Z.div_mod (mem_size mem) 65536 ltac:(done)). pose proof (Z.mod_pos_bound (mem_size mem) 65536 ltac:(done)).
  pose proof (Z.div_pos (mem_size mem) 65536 Hs ltac:(done)).
  destruct (chunks_loop_run flush (S (Z.to_nat (mem_size mem / 65536))) s (phys_start mem) (mem_size mem) Hr Hp Hpm)
    as (s' & Hrun & Hrest); try done; [lia|]. exists s'. by erewrite bind_run by exact Hrun.
Qed.

(** The operations on a list of regions, and on the colored ones. *)
Definition cached (mems : list jailhouse_memory) : list jailhouse_memory := filter (fun mem => not_cached mem = false) mems.
Definition cached_colored (d : color_desc) (cols : list memory_colored) : list jailhouse_memory :=
  concat (fragments d <$> filter (fun c => not_cached (cm_memory c) = false) cols).

Lemma regions_loop_run flush mems : forall s, Forall mem_ok (cached mems) -> hv_ready b hv (pgs s) ->
  flushed (regions_loop flush mems) s (concat (region_lines flush <$> cached mems)).
Proof.
  induction mems as [|mem mems IH]; intros s Hm Hr; unfold cached in *; cbn [regions_loop].
  { exists s. rewrite app_nil_r. done. }
  destruct (not_cached mem) eqn:Hc.
  - rewrite filter_cons_False in * by congruence. by apply IH.
  - rewrite filter_cons_True in * by done. apply Forall_cons in Hm as [Hm1 Hm2]. cbn [fmap list_fmap concat].
    destruct (region_run flush mem s Hm1 Hr) as (s1 & H1 & Hr1 & Hp1 & Ho1).
    destruct (IH s1 Hm2 Hr1) as (s2 & H2 & Hr2 & Hp2 & Ho2). exists s2. erewrite bind_run by exact H1.
    split; [done|]. split; [done|]. split; [by rewrite Hp2|by rewrite Ho2, Ho1, <- (assoc_L (++))].
Qed.

Lemma handle_flush_run flush mems : forall s, Forall mem_ok mems -> hv_ready b hv (pgs s) ->
  exists s', handle (flush_region flush) mems s = Some (0, s') /\ hv_ready b hv (pgs s') /\
    mem_pool (pgs s') = mem_pool (pgs s) /\ dc_ops s' = dc_ops s ++ concat (region_lines flush <$> mems).
Proof.
  induction mems as [|mem mems IH]; intros s Hm Hr; cbn [handle fmap list_fmap concat].
  { exists s. rewrite app_nil_r. done. }
  apply Forall_cons in Hm as [Hm1 Hm2]. destruct (region_run flush mem s Hm1 Hr) as (s1 & H1 & Hr1 & Hp1 & Ho1).
  destruct (IH s1 Hm2 Hr1) as (s2 & H2 & Hr2 & Hp2 & Ho2). exists s2. erewrite bind_run by exact H1. cbn [Z.eqb negb].
  split; [done|]. split; [done|]. split; [by rewrite Hp2|by rewrite Ho2, Ho1, <- (assoc_L (++))].
Qed.

(** A color description and a mask that the traversal can use. *)
Definition colors_ok (junk : list bool) (d : color_desc) (col_mem : memory_colored) : Prop :=
  usable junk d /\ 0 <= cm_colors col_mem.

Lemma colored_loop_run past junk d flush cols : forall s, Forall (colors_ok junk d) cols ->
  Forall mem_ok (cached_colored d cols) -> hv_ready b hv (pgs s) ->
  flushed (colored_loop past junk d flush cols) s (concat (region_lines flush <$> cached_colored d cols)).
Proof.
  induction cols as [|col_mem cols IH]; intros s Hc Hm Hr; unfold cached_colored in *; cbn [colored_loop].
  { exists s. rewrite app_nil_r. done. }
  apply Forall_cons in Hc as [[Hu Hcm] Hc2]. destruct (not_cached (cm_memory col_mem)) eqn:Hn.
  - rewrite filter_cons_False in * by congruence. by apply IH.
  - rewrite filter_cons_True in * by done. cbn [fmap list_fmap concat] in *. apply Forall_app in Hm as [Hm1 Hm2].
    destruct (handle_flush_run flush (fragments d col_mem) s Hm1 Hr) as (s1 & H1 & Hr1 & Hp1 & Ho1).
    destruct (IH s1 Hc2 Hm2 Hr1) as (s2 & H2 & Hr2 & Hp2 & Ho2). exists s2.
    erewrite bind_run by (rewrite walk_colored_handle by done; exact H1). split; [done|]. split; [done|].
    split; [by rewrite Hp2|]. change (list_fmap _ _ (region_lines flush) ?l) with (region_lines flush <$> l) in *.
    by rewrite fmap_app, concat_app, Ho2, Ho1, <- (assoc_L (++)).
Qed.

(** C16: Once the page management is set up, flushing the memory of a cell
    cannot fail: although no mapping is checked, every cache instruction finds
    its address mapped; no page is allocated, the temporary pages stay ready
    for the next flush, and the lines acted on are exactly those of the
    cell's cached regions and of the fragments of its colored ones, in order
    and each once. *)
Theorem cell_flush_complete past junk d mems cols flush s :
  Forall mem_ok (cached mems) -> Forall (colors_ok junk d) cols -> Forall mem_ok (cached_colored d cols) ->
  hv_ready b hv (pgs s) ->
  flushed (arm_cell_dcaches_flush past junk d mems cols flush) s
    (concat (region_lines flush <$> cached mems ++ cached_colored d cols)).
Proof.
  intros Hm Hc Hmc Hr. destruct (regions_loop_run flush mems s Hm Hr) as (s1 & H1 & Hr1 & Hp1 & Ho1).
  destruct (colored_loop_run past junk d flush cols s1 Hc Hmc Hr1) as (s2 & H2 & Hr2 & Hp2 & Ho2).
  exists s2. unfold arm_cell_dcaches_flush. erewrite bind_run by exact H1. split; [done|]. split; [done|].
  split; [by rewrite Hp2|]. by rewrite fmap_app, concat_app, Ho2, Ho1, <- (assoc_L (++)).
Qed.

End Flush.
