(* ===== verification/PagingScenario.v ===== *)
(** * A hypervisor that starts

    A configuration for [PagingInit] and [Dcache]: 4 MB at physical address
    0x7c000000 with an image of 256 KB, four CPUs, a console and a clock
    register; then a cell with a plain and a colored region. *)

From Stdlib Require Import ZArith Lia.
From stdpp Require Import base tactics list list_numbers option gmap.
From S2P Require Import Prelude Bitops StateMonad Mmio Irqchip PagePool Paging PageTree PageMap PageCreate AddressSpace.
From S2P Require Import PagePrepare PagingInit Management Coloring Dcache.

Definition demo_boot : boot := {|
  page_pool_start := JAILHOUSE_BASE + 262144;
  max_cpus := 4;
  sizeof_per_cpu := 65536;
  PagingInit.config_size := 8192;
  hyp_start := 2080374784;
  hyp_size := 4194304;
  console := Some (150994944, 4096);
  debug_console_base := JAILHOUSE_BASE + 8388608;
  debug_clock_reg := JAILHOUSE_BASE + 8388608 + 4096;
  clock_reg := 1610637312;
|}.

Definition no_pool : page_pool := mk_page_pool 0 0 0 [] 0.
Definition cleared : pgstate := mk_pgstate ∅ no_pool no_pool [] [].

Lemma demo_boot_ok : boot_ok demo_boot.
Proof. split; cbn; unfold JAILHOUSE_BASE, PAGE_SIZE; repeat split; lia. Qed.

Lemma area_ok_decide ph size virt :
  (0 <=? virt) && (virt <? 2 ^ 48) && (Z.land virt PAGE_MASK + PAGE_ALIGN size <=? 2 ^ 48) && (0 <=? size) && (size <=? 2 ^ 48) &&
  (0 <=? ph) && (ph <? 2 ^ 48) && (Z.land ph PAGE_MASK + PAGE_ALIGN size <=? 2 ^ 48) = true -> area_ok ph size virt.
Proof. rewrite !andb_true_iff, !Z.leb_le, !Z.ltb_lt. intros H. split; lia. Qed.

(** Areas that follow each other are apart. *)
Lemma apart_decide a a' : (hi a <=? lo a') || (hi a' <=? lo a) = true -> apart_from a a'.
Proof. rewrite orb_true_iff, !Z.leb_le. unfold apart_from, in_area. lia. Qed.

Lemma demo_devices_ok : devices_ok demo_boot.
Proof.
  split.
  - intros address size [= <- <-]. split; [by apply area_ok_decide|]. repeat constructor. by apply apart_decide.
  - intros _. split; [by apply area_ok_decide|]. split; repeat constructor; by apply apart_decide.
Qed.

Lemma demo_fresh : fresh demo_boot cleared.
Proof. done. Qed.
Lemma demo_room : room demo_boot.
Proof. unfold room. vm_compute. done. Qed.

(** The result and the root table. *)
Definition outcome_of (m : option ((Z * option paging_structures) * pgstate)) : option (Z * option Z) :=
  match m with Some ((r, hv), _) => Some (r, root_table <$> hv) | None => None end.

Lemma outcome_code m r hv s x : m = Some ((r, hv), s) -> outcome_of m = Some (0, x) -> r = 0.
Proof. intros ->. by intros [= -> _]. Qed.

(** The first page behind the reserved ones and the bitmap. *)
Example demo_starts : outcome_of (paging_init demo_boot cleared) = Some (0, Some (JAILHOUSE_BASE + 262144 + 71 * PAGE_SIZE)).
Proof. vm_compute. reflexivity. Qed.

Definition demo_started : Prop := exists pg lab s, paging_init demo_boot cleared = Some ((0, Some pg), s) /\
  layout demo_boot (clock_areas demo_boot ++ console_areas demo_boot ++ [hyp_area demo_boot]) pg lab s /\
  temporary_prepared demo_boot pg s.

Lemma paging_init_established_witness : demo_started.
Proof.
  destruct (proj1 (paging_init_established demo_boot demo_boot_ok cleared demo_devices_ok demo_fresh) demo_room)
    as (r & hv & s & Hrun & _ & Hly).
  pose proof (outcome_code _ _ _ _ _ Hrun demo_starts) as Hr.
  destruct (Hly Hr) as (pg & lab & -> & _ & Hlay & Hp). rewrite Hr in Hrun.
  exists pg, lab, s. split; [exact Hrun|]. split; [exact Hlay|exact Hp].
Defined.

(** Three pages behind the reserved ones do not hold the bitmap of the other
    pool: its address is NULL, and is used. *)
Definition tight_boot : boot := mk_boot (JAILHOUSE_BASE + 262144) 4 65536 8192 2080374784 (262144 + 70 * 4096) None 0 0 0.

Example missing_bitmap : pool_pages tight_boot = 70 /\ reserved tight_boot = 67 /\ outcome_of (paging_init tight_boot cleared) = None.
Proof. split; [reflexivity|]. split; [reflexivity|]. vm_compute. reflexivity. Qed.

(** ** A flush *)

(** A region of 96 KB, the communication region, and one of colors 0 and 1 of
    four, whose units are 8 KB. *)
Definition demo_mems : list jailhouse_memory :=
  [mk_memory 1073741824 0 98304 7; mk_memory 0 2147483648 4096 JAILHOUSE_MEM_COMM_REGION].
Definition demo_desc : color_desc := mk_color_desc 8192 32768.
Definition demo_cols : list memory_colored := [mk_memory_colored (mk_memory 1074790400 1048576 65536 7) 12].

Lemma mem_ok_decide mem :
  (0 <=? phys_start mem) && (phys_start mem mod PAGE_SIZE =? 0) && (0 <=? mem_size mem) && (mem_size mem mod PAGE_SIZE =? 0) &&
  (phys_start mem + mem_size mem <? 2 ^ 48) = true -> mem_ok mem.
Proof. rewrite !andb_true_iff, !Z.leb_le, !Z.ltb_lt, !Z.eqb_eq. intros H. split; tauto. Qed.

(** DminLine is 4, a line has 64 bytes: 1536 lines of the first region and
    512 of the fragments. *)
Definition demo_ctr : Z := Z.shiftl 4 16.

Definition demo_flushed : Prop := exists pg s s', hv_ready demo_boot pg s /\
  arm_cell_dcaches_flush demo_boot demo_ctr pg 2 true (replicate 4 true) demo_desc demo_mems demo_cols DCACHE_INVALIDATE
    (mk_cache_state s []) = Some (tt, s') /\
  length (dc_ops s') = 2048%nat /\ dc_ops s' !! 1535%nat = Some (DCACHE_INVALIDATE, 1073741824 + 98304 - 64) /\
  dc_ops s' !! 1536%nat = Some (DCACHE_INVALIDATE, 1074790400) /\
  dc_ops s' !! 1792%nat = Some (DCACHE_INVALIDATE, 1074790400 + 32768).

Lemma demo_hv_ready : exists pg s, hv_ready demo_boot pg s.
Proof.
  destruct (paging_init_run demo_boot demo_boot_ok cleared demo_devices_ok demo_room demo_fresh) as (r & hv & s & Hrun & _ & Hly).
  pose proof (outcome_code _ _ _ _ _ Hrun demo_starts) as Hr.
  destruct (Hly Hr) as (pg & lab & _ & _ & Hlay & Hp). exists pg, s. exact (layout_ready _ _ _ _ _ Hlay Hp).
Qed.

Lemma cell_flush_complete_witness : demo_flushed.
Proof.
  destruct demo_hv_ready as (pg & s & Hr).
  destruct (cell_flush_complete demo_boot demo_ctr pg 2 demo_boot_ok ltac:(cbn; lia) ltac:(vm_compute; done) true (replicate 4 true)
    demo_desc demo_mems demo_cols DCACHE_INVALIDATE (mk_cache_state s [])) as (s' & Hrun & _ & _ & Hops).
  - repeat constructor; by apply mem_ok_decide.
  - repeat constructor; done.
  - vm_compute cached_colored. repeat constructor; by apply mem_ok_decide.
  - exact Hr.
  - exists pg, s, s'. split; [exact Hr|]. split; [exact Hrun|]. rewrite Hops. vm_compute. done.
Defined.
