(* ===== verification/Barrier.v ===== *)
(** * Counting CPUs

    The barriers of the hypervisor count the CPUs that have come to a point.
    A count of the CPUs whose state has a property, and how it changes when one
    CPU moves. *)

From Stdlib Require Import ZArith Lia.
From stdpp Require Import base tactics list option functions sets.
From S2P Require Import Prelude.

Section Count.
Context {A : Type} (cpus : list Z).

Definition count (p : A -> bool) (f : Z -> A) : Z :=
  Z.of_nat (length (filter (fun c => p (f c) = true) cpus)).

Lemma count_bounds p f : 0 <= count p f <= Z.of_nat (length cpus).
Proof. unfold count. pose proof (length_filter (fun c => p (f c) = true) cpus). lia. Qed.

Lemma count_ext p f g : (forall c, c ∈ cpus -> p (f c) = p (g c)) -> count p f = count p g.
Proof.
  unfold count. intros Heq. do 2 f_equal. induction cpus as [|c l IH]; [done|].
  rewrite !filter_cons, (Heq c) by left. rewrite IH by (intros; apply Heq; by right). done.
Qed.

Lemma count_none p f : (forall c, c ∈ cpus -> p (f c) = false) -> count p f = 0.
Proof.
  intros Hf. unfold count. replace (filter _ cpus) with (@nil Z); [done|]. symmetry.
  apply elem_of_nil_inv. intros c [Hp Hc]%list_elem_of_filter. by rewrite Hf in Hp.
Qed.

Lemma count_pos p f c : c ∈ cpus -> p (f c) = true -> 0 < count p f.
Proof.
  intros Hc Hp. unfold count. assert (c ∈ filter (fun c => p (f c) = true) cpus) as Hin
    by (by apply list_elem_of_filter). destruct (filter _ cpus); [by apply elem_of_nil in Hin|simpl; lia].
Qed.

(** All of them. *)
Lemma count_full p f : count p f = Z.of_nat (length cpus) <-> forall c, c ∈ cpus -> p (f c) = true.
Proof.
  unfold count. induction cpus as [|c l IH]; simpl; [by split; [intros _ c ?%elem_of_nil|]|].
  rewrite filter_cons. pose proof (length_filter (fun c => p (f c) = true) l) as Hl. case_decide as Hd.
  - simpl. rewrite !Nat2Z.inj_succ, Z.succ_inj_wd, IH. split.
    + intros Hx x [->|Hx']%elem_of_cons; auto.
    + intros Hx x Hx'. apply Hx. by right.
  - split; [lia|]. intros Hx. destruct Hd. apply Hx. left.
Qed.

Context (Hnd : NoDup cpus).

Lemma count_update p f c x :
  c ∈ cpus -> count p (<[c := x]> f) = count p f + (if p x then 1 else 0) - (if p (f c) then 1 else 0).
Proof.
  unfold count. revert Hnd. induction cpus as [|d l IH]; intros Hnd' Hc; [by apply elem_of_nil in Hc|].
  apply NoDup_cons in Hnd' as [Hd Hnd']. rewrite !filter_cons.
  destruct (decide (c = d)) as [->|Hne].
  - rewrite fn_lookup_insert.
    assert (filter (fun c => p (<[d := x]> f c) = true) l = filter (fun c => p (f c) = true) l) as ->.
    { clear IH Hc. induction l as [|e l IH]; [done|]. rewrite !filter_cons.
      rewrite not_elem_of_cons in Hd. apply NoDup_cons in Hnd' as [_ Hnd'].
      rewrite fn_lookup_insert_ne by apply Hd. by rewrite IH by tauto. }
    destruct (p x), (p (f d)); repeat case_decide; simpl; try done; lia.
  - rewrite fn_lookup_insert_ne by done. apply elem_of_cons in Hc as [?|Hc]; [done|].
    specialize (IH Hnd' Hc). case_decide; simpl; lia.
Qed.

End Count.
