(* ===== verification/Startup.v ===== *)
(** * Hypervisor: start-up

    [entry] (hypervisor/setup.c) as run by all online CPUs at once: one of them
    initializes the system, each initializes itself under [init_lock], and then
    all activate the hypervisor or all return an error. What a CPU does while
    it holds the lock is one step; the loops and the tests outside of it read
    the shared variables step by step.

    The results of what the initialization calls ([paging_init],
    [arch_cpu_init], the units, ...) are arguments: lists of return codes in the
    order of the calls. *)

From Stdlib Require Import ZArith Lia.
From stdpp Require Import base tactics list option functions sets relations.
From S2P Require Import Prelude Barrier Cell Mmio Irqchip.

(** The point a CPU has reached; the flag says whether it is the master. *)
Inductive point :=
| Entering                      (* before entered_cpus++ *)
| AtEntered                     (* while (entered_cpus < online_cpus) *)
| AtInitialized (master : bool) (* while (!error && initialized_cpus < online_cpus) *)
| AtChoice (master : bool)      (* if (!error && master) *)
| Late                          (* init_late *)
| AtLateCheck                   (* if (!error) activate = true *)
| AtActivate (master : bool)    (* while (!error && !activate) *)
| AtEnd (master : bool)         (* if (error) *)
| Failed (err : Z)              (* return error *)
| Activated.                    (* arch_cpu_activate_vmm *)

Record setup := mk_setup {
  entered_cpus : Z;
  initialized_cpus : Z;
  master_cpu_id : Z;
  error : Z;
  activate : bool;
  shutdown_calls : Z;
  at_ : Z -> point;
}.

(** The return codes of the calls. *)
Record codes := mk_codes {
  early_codes : list Z;             (* init_early *)
  cpu_code : Z -> Z;                (* arch_cpu_init *)
  late_codes : list Z;              (* the units, then the regions *)
}.

Section Startup.
Context (cpus : list Z) (online_cpus : Z) (root_set : cpu_set) (R : codes).

(** [error = f(); if (error) return;] *)
Definition first_error (l : list Z) : Z :=
  match list_find (fun e => e <> 0) l with Some (_, e) => e | None => 0 end.

(** [cpu_id_valid] on the CPU set of the root cell, then [arch_cpu_init]. *)
Definition cpu_init (cpu : Z) : Z :=
  if (cpu <=? max_cpu_id root_set) && test_bit cpu (bitmap root_set) then cpu_code R cpu else - EINVAL.

Definition init_late : Z :=
  match for_each_cpu root_set with
  | Some l => if online_cpus =? Z.of_nat (length l) then first_error (late_codes R) else - EINVAL
  | None => - EINVAL
  end.

Definition go (c : Z) (p : point) (s : setup) : setup :=
  mk_setup (entered_cpus s) (initialized_cpus s) (master_cpu_id s) (error s) (activate s)
    (shutdown_calls s) (<[c := p]> (at_ s)).
Definition set_error (e : Z) (s : setup) : setup :=
  mk_setup (entered_cpus s) (initialized_cpus s) (master_cpu_id s) e (activate s) (shutdown_calls s) (at_ s).

(** The second critical section. *)
Definition initialize (c : Z) (s : setup) : setup :=
  let master := master_cpu_id s =? u32 (-1) in
  let s := if master
           then mk_setup (entered_cpus s) (initialized_cpus s) c (first_error (early_codes R)) (activate s)
                  (shutdown_calls s) (at_ s)
           else s in
  let s := if error s =? 0 then
             let err := cpu_init c in
             if err =? 0
             then mk_setup (entered_cpus s) (u32 (initialized_cpus s + 1)) (master_cpu_id s) (error s)
                    (activate s) (shutdown_calls s) (at_ s)
             else set_error err s
           else s in
  go c (AtInitialized master) s.

(** The next step of a CPU; [None] while it waits or when it is done. *)
Definition next (c : Z) (s : setup) : option setup :=
  match at_ s c with
  | Entering =>
      Some (go c AtEntered (mk_setup (u32 (entered_cpus s + 1)) (initialized_cpus s) (master_cpu_id s)
              (error s) (activate s) (shutdown_calls s) (at_ s)))
  | AtEntered => if entered_cpus s <? online_cpus then None else Some (initialize c s)
  | AtInitialized master =>
      if (error s =? 0) && (initialized_cpus s <? online_cpus) then None
      else Some (go c (AtChoice master) s)
  | AtChoice master =>
      Some (go c (if (error s =? 0) && master then Late else AtActivate master) s)
  | Late => Some (go c AtLateCheck (set_error init_late s))
  | AtLateCheck =>
      Some (go c (AtEnd true)
        (if error s =? 0
         then mk_setup (entered_cpus s) (initialized_cpus s) (master_cpu_id s) (error s) true
                (shutdown_calls s) (at_ s)
         else s))
  | AtActivate master =>
      if (error s =? 0) && negb (activate s) then None else Some (go c (AtEnd master) s)
  | AtEnd master =>
      Some (if negb (error s =? 0)
            then go c (Failed (error s))
                   (mk_setup (entered_cpus s) (initialized_cpus s) (master_cpu_id s) (error s) (activate s)
                      (if master then shutdown_calls s + 1 else shutdown_calls s) (at_ s))
            else go c Activated s)
  | Failed _ | Activated => None
  end.

Definition step (s s' : setup) : Prop := exists c, c ∈ cpus /\ next c s = Some s'.

Definition boot : setup := mk_setup 0 0 (u32 (-1)) 0 false 0 (fun _ => Entering).

(** ** Invariant *)

Definition all_online : Prop :=
  NoDup cpus /\ Z.of_nat (length cpus) = online_cpus /\ 0 < online_cpus < 2 ^ 32 /\
  forall c, c ∈ cpus -> 0 <= c < u32 (-1).

Definition entered (p : point) : bool := match p with Entering => false | _ => true end.
Definition beyond (p : point) : bool := match p with Entering | AtEntered => false | _ => true end.
Definition finished (p : point) : bool := match p with Failed _ | Activated => true | _ => false end.

(** What holds for a CPU at a point. *)
Definition point_ok (s : setup) (c : Z) (p : point) : Prop :=
  match p with
  | Entering | AtEntered => True
  | AtInitialized m => m = true -> c = master_cpu_id s /\ activate s = false
  | AtChoice m =>
      (m = true -> c = master_cpu_id s /\ activate s = false) /\
      (error s <> 0 \/ initialized_cpus s = online_cpus)
  | AtActivate m =>
      (m = true -> c = master_cpu_id s) /\ (error s <> 0 \/ initialized_cpus s = online_cpus)
  | Late => c = master_cpu_id s /\ error s = 0 /\ initialized_cpus s = online_cpus /\ activate s = false
  | AtLateCheck =>
      c = master_cpu_id s /\ initialized_cpus s = online_cpus /\ activate s = false /\ error s = init_late
  | AtEnd m => (m = true -> c = master_cpu_id s) /\ (error s <> 0 \/ activate s = true)
  | Failed e => error s = e /\ e <> 0
  | Activated => activate s = true
  end.

(** Where the master is. *)
Definition chief (s : setup) (p : point) : Prop :=
  match p with
  | AtInitialized m | AtChoice m | AtEnd m => m = true
  | AtActivate m => m = true /\ error s <> 0
  | Late | AtLateCheck | Failed _ | Activated => True
  | Entering | AtEntered => False
  end.

Record inv (s : setup) : Prop := {
  in_points c : c ∈ cpus -> point_ok s c (at_ s c);
  in_entered : entered_cpus s = count cpus entered (at_ s);
  in_beyond c : c ∈ cpus -> beyond (at_ s c) = true -> entered_cpus s = online_cpus;
  in_master : master_cpu_id s = u32 (-1) ->
    error s = 0 /\ initialized_cpus s = 0 /\ forall c, c ∈ cpus -> beyond (at_ s c) = false;
  in_chief : master_cpu_id s <> u32 (-1) ->
    master_cpu_id s ∈ cpus /\ chief s (at_ s (master_cpu_id s));
  in_early : master_cpu_id s <> u32 (-1) -> error s <> 0 \/ first_error (early_codes R) = 0;
  in_ok : error s = 0 -> initialized_cpus s = count cpus beyond (at_ s) /\
    forall c, c ∈ cpus -> beyond (at_ s c) = true -> cpu_init c = 0;
  in_bound : 0 <= initialized_cpus s <= count cpus beyond (at_ s);
  in_active : activate s = true -> error s = 0 /\ initialized_cpus s = online_cpus /\ init_late = 0;
  in_shutdown : shutdown_calls s = 0 \/
    shutdown_calls s = 1 /\ master_cpu_id s ∈ cpus /\ exists e, at_ s (master_cpu_id s) = Failed e;
}.

Lemma at_go c p s c' : at_ (go c p s) c' = if decide (c' = c) then p else at_ s c'.
Proof.
  simpl. case_decide as Hd; [subst; apply fn_lookup_insert|by apply fn_lookup_insert_ne].
Qed.

Hypothesis (Hall : all_online).

Lemma count_go p c q s :
  c ∈ cpus -> count cpus p (at_ (go c q s)) =
  count cpus p (at_ s) + (if p q then 1 else 0) - (if p (at_ s c) then 1 else 0).
Proof. intros Hc. apply count_update; [apply Hall|done]. Qed.

(** A CPU that moves on without changing anything shared. *)
Lemma move_inv c p s :
  inv s -> c ∈ cpus -> beyond (at_ s c) = true -> beyond p = true -> finished (at_ s c) = false ->
  (chief s (at_ s c) -> chief s p) -> point_ok s c p -> inv (go c p s).
Proof.
  intros HI Hc Hb Hbp Hf Hch Hp. pose proof HI as [Ip Ie Ib Im Ic Iy Io In Ia Ish].
  assert (entered (at_ s c) = true /\ entered p = true) as [He Hep] by (split; [by destruct (at_ s c)|by destruct p]).
  split.
  - intros c' Hc'. rewrite at_go. case_decide as Hd; [subst; destruct p; exact Hp|].
    specialize (Ip c' Hc'). by destruct (at_ s c').
  - rewrite count_go, He, Hep by done. simpl. lia.
  - intros c' Hc' _. by apply (Ib c).
  - intros Hm. destruct (Im Hm) as (_ & _ & Hno). rewrite Hno in Hb; done.
  - intros Hm. destruct (Ic Hm) as [Hmc Hx]. split; [done|]. rewrite at_go.
    change (master_cpu_id (go c p s)) with (master_cpu_id s).
    case_decide as Hd; [rewrite Hd in Hx; destruct p; exact (Hch Hx)|].
    by destruct (at_ s (master_cpu_id s)).
  - exact Iy.
  - intros He0. destruct (Io He0) as [Hi Hci]. rewrite count_go, Hb, Hbp by done. split; [simpl; lia|].
    intros c' Hc'. rewrite at_go. case_decide as Hd; [subst; intros _; by apply Hci|by apply Hci].
  - rewrite count_go, Hb, Hbp by done. simpl. lia.
  - exact Ia.
  - destruct Ish as [?|(? & ? & e & He')]; [by left|right]. split; [done|]. split; [done|]. exists e. rewrite at_go.
    change (master_cpu_id (go c p s)) with (master_cpu_id s). case_decide as Hd; [|done].
    rewrite Hd in He'. by rewrite He' in Hf.
Qed.

Lemma count_beyond_lt c s : c ∈ cpus -> beyond (at_ s c) = false -> count cpus beyond (at_ s) < online_cpus.
Proof.
  intros Hc Hb. pose proof (count_go beyond c Late s Hc) as Hg. rewrite Hb in Hg. simpl in Hg.
  pose proof (count_bounds cpus beyond (at_ (go c Late s))). destruct Hall as (_ & Hlen & _). simpl in *. lia.
Qed.

Lemma enter_inv c s :
  inv s -> c ∈ cpus -> at_ s c = Entering ->
  inv (go c AtEntered (mk_setup (u32 (entered_cpus s + 1)) (initialized_cpus s) (master_cpu_id s)
         (error s) (activate s) (shutdown_calls s) (at_ s))).
Proof.
  intros HI Hc Hat. pose proof HI as [Ip Ie Ib Im Ic Iy Io In Ia Ish]. set (s1 := mk_setup _ _ _ _ _ _ _).
  destruct Hall as (Hnd & Hlen & Hon & Hids).
  assert (Hce : count cpus entered (at_ (go c AtEntered s1)) = entered_cpus s + 1).
  { rewrite count_go by done. change (at_ s1) with (at_ s). rewrite Hat, Ie. simpl. lia. }
  pose proof (count_bounds cpus entered (at_ (go c AtEntered s1))) as Hbd.
  assert (forall c', c' ∈ cpus -> beyond (at_ s c') = false) as Hno.
  { intros c' Hc'. destruct (beyond (at_ s c')) eqn:Hb; [|done]. specialize (Ib c' Hc' Hb).
    rewrite Ie in Ib. rewrite <- Hlen in Ib. pose proof (proj1 (count_full cpus entered (at_ s)) Ib c Hc) as Hx.
    by rewrite Hat in Hx. }
  assert (Hcb : count cpus beyond (at_ (go c AtEntered s1)) = count cpus beyond (at_ s)).
  { rewrite count_go by done. change (at_ s1) with (at_ s). rewrite Hat. simpl. lia. }
  assert (forall c', c' ∈ cpus -> beyond (at_ (go c AtEntered s1) c') = false) as Hno'.
  { intros c' Hc'. rewrite at_go. case_decide; [done|by apply Hno]. }
  split.
  - intros c' Hc'. specialize (Hno' c' Hc'). by destruct (at_ (go c AtEntered s1) c').
  - rewrite Hce. simpl. apply u32_small. lia.
  - intros c' Hc' Hb. by rewrite Hno' in Hb.
  - intros Hm. destruct (Im Hm) as (? & ? & _). done.
  - intros Hm. destruct (Ic Hm) as [Hmc Hx]. exfalso. specialize (Hno _ Hmc).
    change (master_cpu_id (go c AtEntered s1)) with (master_cpu_id s) in *.
    by destruct (at_ s (master_cpu_id s)).
  - exact Iy.
  - intros He0. destruct (Io He0) as [Hi _]. split; [by rewrite Hcb|]. intros c' Hc' Hb. by rewrite Hno' in Hb.
  - by rewrite Hcb.
  - exact Ia.
  - destruct Ish as [?|(? & ? & e & He')]; [by left|right]. split; [done|]. split; [done|]. exists e. rewrite at_go.
    change (master_cpu_id (go c AtEntered s1)) with (master_cpu_id s). change (at_ s1) with (at_ s).
    case_decide as Hd; [|done]. rewrite Hd in He'. congruence.
Qed.

(** While some CPU is not initialized yet, the others have not gone far. *)
Lemma early_points s c :
  inv s -> c ∈ cpus -> initialized_cpus s < online_cpus -> error s = 0 ->
  beyond (at_ s c) = false \/ exists m, at_ s c = AtInitialized m /\ (m = true -> c = master_cpu_id s /\ activate s = false).
Proof.
  intros HI Hc Hi He. pose proof (in_points s HI c Hc) as Hp. pose proof (in_active s HI) as Ha.
  destruct (at_ s c) as [| |m|m| | |m|m|e|]; simpl in *; eauto; exfalso.
  - destruct Hp as [_ [?|?]]; [done|lia].
  - lia.
  - lia.
  - destruct Hp as [_ [?|?]]; [done|lia].
  - destruct Hp as [_ [?|Hx]]; [done|]. apply Ha in Hx. lia.
  - destruct Hp. congruence.
  - apply Ha in Hp. lia.
Qed.

Lemma initialize_inv c s :
  inv s -> c ∈ cpus -> at_ s c = AtEntered -> (entered_cpus s <? online_cpus) = false ->
  inv (initialize c s).
Proof.
  intros HI Hc Hat Hen. pose proof HI as [Ip Ie Ib Im Ic Iy Io In Ia Ish].
  destruct Hall as (Hnd & Hlen & Hon & Hids). b2p.
  assert (entered_cpus s = online_cpus) as Hfull by (pose proof (count_bounds cpus entered (at_ s)); lia).
  assert (Hlt : count cpus beyond (at_ s) < online_cpus) by (apply (count_beyond_lt c); [done|by rewrite Hat]).
  set (m := master_cpu_id s =? u32 (-1)). set (e1 := if m then first_error (early_codes R) else error s).
  set (e2 := if e1 =? 0 then cpu_init c else e1).
  set (i2 := if e2 =? 0 then initialized_cpus s + 1 else initialized_cpus s).
  assert (initialize c s = go c (AtInitialized m) (mk_setup (entered_cpus s) i2 (if m then c else master_cpu_id s)
            e2 (activate s) (shutdown_calls s) (at_ s))) as ->.
  { unfold initialize, i2, e2, e1. fold m.
    destruct m; cbn [error master_cpu_id initialized_cpus entered_cpus activate shutdown_calls at_].
    - destruct (first_error (early_codes R) =? 0) eqn:H1; cbn [error master_cpu_id initialized_cpus entered_cpus activate shutdown_calls at_].
      + destruct (cpu_init c =? 0) eqn:H2; [|done]. b2p. rewrite u32_small by lia. by rewrite H1, H2.
      + by rewrite H1.
    - destruct (error s =? 0) eqn:H1; cbn [error master_cpu_id initialized_cpus entered_cpus activate shutdown_calls at_].
      + destruct (cpu_init c =? 0) eqn:H2; [|done]. b2p. rewrite u32_small by lia. by rewrite H1, H2.
      + rewrite H1. by destruct s. }
  set (s1 := mk_setup _ _ _ _ _ _ _).
  assert (activate s = false) as Hna by (destruct (activate s); [destruct (Ia eq_refl) as (_ & ? & _); lia|done]).
  assert (m = true -> error s = 0 /\ forall c', c' ∈ cpus -> beyond (at_ s c') = false) as Hm.
  { unfold m. intros Hm%Z.eqb_eq. destruct (Im Hm) as (? & _ & ?). done. }
  assert (Hcb : count cpus beyond (at_ (go c (AtInitialized m) s1)) = count cpus beyond (at_ s) + 1).
  { rewrite count_go by done. change (at_ s1) with (at_ s). rewrite Hat. simpl. lia. }
  assert (Hold : e2 = 0 -> error s = 0 /\ cpu_init c = 0).
  { unfold e2, e1. destruct m; [|destruct (error s =? 0) eqn:H0; b2p; [done|lia]].
    intros He. split; [by apply Hm|]. destruct (first_error (early_codes R) =? 0) eqn:H0; b2p; lia. }
  split.
  - intros c' Hc'. rewrite at_go. case_decide as Hd.
    + subst c'. intros Hmt. unfold s1. simpl. by rewrite Hmt, Hna.
    + change (at_ s1) with (at_ s). destruct m eqn:Hmv.
      { destruct (Hm eq_refl) as [_ Hno]. specialize (Hno c' Hc'). by destruct (at_ s c'). }
      destruct (decide (error s = 0)) as [He0|He0].
      * destruct (early_points s c' HI Hc' ltac:(lia) He0) as [Hb|(m' & Hp & Hx)]; [by destruct (at_ s c')|].
        rewrite Hp. exact Hx.
      * assert (e2 = error s) as He2 by (unfold e2, e1; by rewrite (proj2 (Z.eqb_neq _ _) He0)).
        assert (i2 = initialized_cpus s) as Hi2 by (unfold i2; by rewrite He2, (proj2 (Z.eqb_neq _ _) He0)).
        specialize (Ip c' Hc'). unfold s1. rewrite He2, Hi2. by destruct (at_ s c').
  - rewrite count_go by done. change (at_ s1) with (at_ s). rewrite Hat. simpl. lia.
  - intros c' _ _. exact Hfull.
  - intros Hbad. exfalso. unfold s1 in Hbad. simpl in Hbad. specialize (Hids c Hc).
    destruct m eqn:Hmv; [lia|]. by apply Z.eqb_neq in Hmv.
  - intros _. change (master_cpu_id (go c (AtInitialized m) s1)) with (if m then c else master_cpu_id s).
    rewrite at_go. change (at_ s1) with (at_ s). destruct m eqn:Hmv.
    { rewrite decide_True by done. done. }
    apply Z.eqb_neq in Hmv. destruct (Ic Hmv) as [Hmc Hx]. split; [done|].
    case_decide as Hd; [rewrite Hd, Hat in Hx; done|].
    destruct (at_ s (master_cpu_id s)); try done. destruct Hx as [? Hne]. split; [done|].
    simpl. unfold e2, e1. by rewrite (proj2 (Z.eqb_neq _ _) Hne).
  - intros _. unfold s1. simpl. unfold e2. destruct m eqn:Hmv.
    + unfold e1. destruct (first_error (early_codes R) =? 0) eqn:H0; b2p; [by right|by left].
    + unfold e1. apply Z.eqb_neq in Hmv. destruct (Iy Hmv) as [He|?]; [|by right].
      rewrite (proj2 (Z.eqb_neq _ _) He). by left.
  - intros He0. change (error (go c (AtInitialized m) s1)) with e2 in He0. destruct (Hold He0) as [Hes Hci].
    destruct (Io Hes) as [Hi Hinit]. split.
    + rewrite Hcb, <- Hi. unfold s1. simpl. unfold i2. by rewrite He0.
    + intros c' Hc'. rewrite at_go. case_decide as Hd; [by subst|]. by apply Hinit.
  - rewrite Hcb. unfold s1. simpl. unfold i2. destruct (e2 =? 0); lia.
  - intros Hx. unfold s1 in Hx. simpl in Hx. congruence.
  - destruct Ish as [?|(? & Hmc & e & He')]; [by left|right]. split; [done|].
    destruct m eqn:Hmv.
    + exfalso. destruct (Hm eq_refl) as [_ Hno]. specialize (Hno _ Hmc). by rewrite He' in Hno.
    + split; [exact Hmc|]. exists e. rewrite at_go.
      change (master_cpu_id (go c (AtInitialized false) s1)) with (master_cpu_id s).
      change (at_ s1) with (at_ s). case_decide as Hd; [|done]. rewrite Hd in He'. congruence.
Qed.

(** What the master does alone. *)
Lemma master_points c s c' :
  inv s -> c ∈ cpus -> c' ∈ cpus -> c' <> c -> c = master_cpu_id s -> initialized_cpus s = online_cpus ->
  error s = 0 -> activate s = false ->
  forall e, point_ok (set_error e s) c' (at_ s c').
Proof.
  intros HI Hc Hc' Hne Hcm Hi He Ha e. pose proof (in_points s HI c' Hc') as Hp.
  destruct (at_ s c') as [| |m|m| | |m|m|e'|]; simpl in *; try done.
  - destruct Hp as [? _]. split; [done|by right].
  - destruct Hp as (? & _). congruence.
  - destruct Hp as (? & _). congruence.
  - destruct Hp as [? _]. split; [done|by right].
  - destruct Hp as [_ [?|?]]; [done|congruence].
  - destruct Hp. congruence.
Qed.

Lemma late_inv c s : inv s -> c ∈ cpus -> at_ s c = Late -> inv (go c AtLateCheck (set_error init_late s)).
Proof.
  intros HI Hc Hat. pose proof HI as [Ip Ie Ib Im Ic Iy Io In Ia Ish].
  pose proof (Ip c Hc) as Hp. rewrite Hat in Hp. destruct Hp as (Hcm & He & Hi & Ha).
  assert (Hcb : count cpus beyond (at_ (go c AtLateCheck (set_error init_late s))) = count cpus beyond (at_ s)).
  { rewrite count_go by done. change (at_ (set_error init_late s)) with (at_ s). rewrite Hat. simpl. lia. }
  split.
  - intros c' Hc'. rewrite at_go. case_decide as Hd; [subst c'; simpl; done|].
    change (at_ (set_error init_late s)) with (at_ s).
    pose proof (master_points c s c' HI Hc Hc' Hd Hcm Hi He Ha init_late) as Hp. by destruct (at_ s c').
  - rewrite count_go by done. change (at_ (set_error init_late s)) with (at_ s). rewrite Hat. simpl. lia.
  - intros c' _ _. by apply (Ib c); [|rewrite Hat].
  - intros Hm. destruct (Im Hm) as (_ & _ & Hno). specialize (Hno c Hc). by rewrite Hat in Hno.
  - intros _. change (master_cpu_id (go _ _ _)) with (master_cpu_id s). rewrite <- Hcm, at_go.
    by rewrite decide_True by done.
  - intros Hm. destruct (Iy Hm) as [?|?]; [done|by right].
  - intros _. destruct (Io He) as [Hci Hinit]. split; [by rewrite Hcb|]. intros c' Hc'. rewrite at_go.
    case_decide as Hd; [subst c'; intros _; apply Hinit; [done|by rewrite Hat]|by apply Hinit].
  - by rewrite Hcb.
  - intros Hx. change (activate s = true) in Hx. congruence.
  - destruct Ish as [?|(? & ? & e & He')]; [by left|]. rewrite <- Hcm in He'. congruence.
Qed.

Lemma activate_inv c s :
  inv s -> c ∈ cpus -> at_ s c = AtLateCheck -> error s = 0 ->
  inv (go c (AtEnd true) (mk_setup (entered_cpus s) (initialized_cpus s) (master_cpu_id s) (error s) true
         (shutdown_calls s) (at_ s))).
Proof.
  intros HI Hc Hat He. pose proof HI as [Ip Ie Ib Im Ic Iy Io In Ia Ish]. set (s1 := mk_setup _ _ _ _ _ _ _).
  pose proof (Ip c Hc) as Hp. rewrite Hat in Hp. destruct Hp as (Hcm & Hi & Ha & Hel).
  assert (Hcb : count cpus beyond (at_ (go c (AtEnd true) s1)) = count cpus beyond (at_ s)).
  { rewrite count_go by done. change (at_ s1) with (at_ s). rewrite Hat. simpl. lia. }
  split.
  - intros c' Hc'. rewrite at_go. case_decide as Hd; [subst c'; simpl; by split; [|right]|].
    change (at_ s1) with (at_ s). pose proof (Ip c' Hc') as Hp.
    destruct (at_ s c') as [| |m|m| | |m|m|e'|]; simpl in *; try done.
    + intros Hm. destruct (Hp Hm). congruence.
    + destruct Hp as [Hx ?]. split; [|done]. intros Hm. destruct (Hx Hm). congruence.
    + destruct Hp as (? & _). congruence.
    + destruct Hp as (? & _). congruence.
    + destruct Hp as [? _]. split; [done|by right].
  - rewrite count_go by done. change (at_ s1) with (at_ s). rewrite Hat. simpl. lia.
  - intros c' _ _. by apply (Ib c); [|rewrite Hat].
  - intros Hm. destruct (Im Hm) as (_ & _ & Hno). specialize (Hno c Hc). by rewrite Hat in Hno.
  - intros _. change (master_cpu_id (go _ _ _)) with (master_cpu_id s). rewrite <- Hcm, at_go.
    by rewrite decide_True by done.
  - exact Iy.
  - intros _. destruct (Io He) as [Hci Hinit]. split; [by rewrite Hcb|]. intros c' Hc'. rewrite at_go.
    case_decide as Hd; [subst c'; intros _; apply Hinit; [done|by rewrite Hat]|by apply Hinit].
  - by rewrite Hcb.
  - intros _. simpl. split_and!; [done|done|congruence].
  - destruct Ish as [?|(? & ? & e & He')]; [by left|]. rewrite <- Hcm in He'. congruence.
Qed.

Lemma fail_inv c m s :
  inv s -> c ∈ cpus -> at_ s c = AtEnd m -> error s <> 0 ->
  inv (go c (Failed (error s)) (mk_setup (entered_cpus s) (initialized_cpus s) (master_cpu_id s) (error s)
         (activate s) (if m then shutdown_calls s + 1 else shutdown_calls s) (at_ s))).
Proof.
  intros HI Hc Hat He. destruct m.
  - pose proof HI as [Ip Ie Ib Im Ic Iy Io In Ia Ish]. pose proof (Ip c Hc) as Hp. rewrite Hat in Hp.
    destruct Hp as [Hcm _]. specialize (Hcm eq_refl).
    assert (shutdown_calls s = 0) as H0.
    { destruct Ish as [?|(? & ? & e & He')]; [done|]. rewrite <- Hcm in He'. congruence. }
    pose proof (move_inv c (Failed (error s)) s HI Hc) as Hmv. rewrite Hat in Hmv.
    destruct (Hmv eq_refl eq_refl eq_refl ltac:(done) ltac:(done)) as [Jp Je Jb Jm Jc Jy Jo Jn Ja _].
    split; try done. right. simpl. split; [lia|]. rewrite <- Hcm. split; [done|].
    exists (error s). by rewrite fn_lookup_insert.
  - assert (mk_setup (entered_cpus s) (initialized_cpus s) (master_cpu_id s) (error s) (activate s)
              (shutdown_calls s) (at_ s) = s) as -> by by destruct s.
    apply move_inv; try done; by rewrite Hat.
Qed.

Lemma next_inv c s s' : inv s -> c ∈ cpus -> next c s = Some s' -> inv s'.
Proof.
  intros HI Hc Hn. pose proof (in_points s HI c Hc) as Hp. unfold next in Hn.
  destruct (at_ s c) as [| |m|m| | |m|m|e|] eqn:Hat; simpl in Hp.
  - injection Hn as <-. by apply enter_inv.
  - destruct (entered_cpus s <? online_cpus) eqn:He; [done|]. injection Hn as <-. by apply initialize_inv.
  - destruct ((error s =? 0) && _) eqn:Hb; [done|]. injection Hn as <-.
    apply move_inv; rewrite ?Hat; try done. split; [done|].
    apply andb_false_iff in Hb as [Hb|Hb]; b2p; [by left|right].
    pose proof (in_bound s HI). pose proof (count_bounds cpus beyond (at_ s)). destruct Hall as (_ & ? & _). lia.
  - injection Hn as <-. destruct (error s =? 0) eqn:He; b2p; [destruct m|]; simpl;
      (apply move_inv; rewrite ?Hat; try done).
    + destruct Hp as [Hm [?|Hi]]; [done|]. destruct (Hm eq_refl). by split_and!.
    + destruct Hp as [_ Hp]. by split.
    + destruct Hp as [Hm Hp]. split; [|by left]. intros Hx. by destruct (Hm Hx).
  - injection Hn as <-. by apply late_inv.
  - injection Hn as <-. destruct Hp as (Hm & Hi & Ha & He).
    destruct (error s =? 0) eqn:He0; b2p; [by apply activate_inv|].
    apply move_inv; rewrite ?Hat; try done. split; [done|by left].
  - destruct ((error s =? 0) && _) eqn:Hb; [done|]. injection Hn as <-.
    apply move_inv; rewrite ?Hat; try done; [by intros [? _]|]. destruct Hp as [Hm _]. split; [done|].
    apply andb_false_iff in Hb as [Hb|Hb]; b2p; [by left|by right].
  - injection Hn as <-. destruct (error s =? 0) eqn:He; b2p; simpl.
    + apply move_inv; rewrite ?Hat; try done. by destruct Hp as [_ [?|?]].
    + by apply fail_inv.
  - done.
  - done.
Qed.

Lemma boot_inv : inv boot.
Proof.
  assert (forall p, p Entering = false -> count cpus p (at_ boot) = 0) as Hc0.
  { intros p Hp. by apply count_none. }
  split; try done.
  - by rewrite Hc0.
  - intros _. split; [by rewrite Hc0|done].
  - by rewrite Hc0.
  - by left.
Qed.

Lemma startup_reachable_inv s : rtc step boot s -> inv s.
Proof.
  assert (forall s1 s2, rtc step s1 s2 -> inv s1 -> inv s2) as Hrtc.
  { intros s1 s2 Hr. induction Hr as [|s1 s2 s3 (c & Hc & Hn) _ IH]; [done|]. intros HI. apply IH. by eapply next_inv. }
  intros Hr. eapply Hrtc; [exact Hr|apply boot_inv].
Qed.

(** C27: in every interleaving the CPUs agree. If one CPU activates the
    hypervisor then no CPU fails, all CPUs have been initialized and every call
    has succeeded; if one returns an error then no CPU activates, and all that
    return give the same error; the system is shut down at most once. *)
Theorem startup_agreement (s : setup) :
  rtc step boot s ->
  (forall c, c ∈ cpus -> at_ s c = Activated ->
     (forall c', c' ∈ cpus -> beyond (at_ s c') = true /\ cpu_init c' = 0 /\ forall e, at_ s c' <> Failed e) /\
     first_error (early_codes R) = 0 /\ init_late = 0 /\ shutdown_calls s = 0) /\
  (forall c e, c ∈ cpus -> at_ s c = Failed e ->
     e <> 0 /\ forall c', c' ∈ cpus -> at_ s c' <> Activated /\ forall e', at_ s c' = Failed e' -> e' = e) /\
  0 <= shutdown_calls s <= 1.
Proof.
  intros Hr. pose proof (startup_reachable_inv s Hr) as HI. pose proof (in_shutdown s HI) as Hsh. split; [|split].
  - intros c Hc Hat. pose proof (in_points s HI c Hc) as Hp. rewrite Hat in Hp. simpl in Hp.
    destruct (in_active s HI Hp) as (He & Hi & Hl). destruct (in_ok s HI He) as [Hcnt Hinit].
    destruct Hall as (Hnd & Hlen & Hon & _). assert (forall c', c' ∈ cpus -> beyond (at_ s c') = true) as Hb.
    { apply (proj1 (count_full cpus beyond (at_ s))). lia. }
    assert (forall c', c' ∈ cpus -> forall e, at_ s c' <> Failed e) as Hnf.
    { intros c' Hc' e Hf. pose proof (in_points s HI c' Hc') as Hp'. rewrite Hf in Hp'. destruct Hp'. congruence. }
    split_and!.
    + intros c' Hc'. split_and!; [by apply Hb|by apply Hinit; [|apply Hb]|by apply Hnf].
    + destruct (decide (master_cpu_id s = u32 (-1))) as [Hm|Hm].
      * destruct (in_master s HI Hm) as (_ & _ & Hno). specialize (Hno c Hc). by rewrite Hb in Hno.
      * by destruct (in_early s HI Hm).
    + done.
    + destruct Hsh as [?|(_ & Hm & e & Hf)]; [done|]. by destruct (Hnf _ Hm e).
  - intros c e Hc Hat. pose proof (in_points s HI c Hc) as Hp. rewrite Hat in Hp. destruct Hp as [He Hne].
    split; [done|]. intros c' Hc'. pose proof (in_points s HI c' Hc') as Hp'. split.
    + intros Ha. rewrite Ha in Hp'. destruct (in_active s HI Hp'). congruence.
    + intros e' Hf. rewrite Hf in Hp'. destruct Hp'. congruence.
  - destruct Hsh as [?|[? _]]; lia.
Qed.

(** *** Progress *)

Definition rank (p : point) : Z :=
  match p with
  | Entering => 0 | AtEntered => 1 | AtInitialized _ => 2 | AtChoice _ => 3 | Late => 4
  | AtLateCheck | AtActivate _ => 5 | AtEnd _ => 6 | Failed _ | Activated => 7
  end.

(** The sum of the ranks. *)
Definition progress (s : setup) : Z :=
  foldr (fun k n => n + count cpus (fun p => k <=? rank p) (at_ s)) 0 [1; 2; 3; 4; 5; 6; 7].

Lemma next_rank c s s' :
  next c s = Some s' -> exists p, at_ s' = <[c := p]> (at_ s) /\ 0 <= rank (at_ s c) < rank p /\ rank p <= 7.
Proof.
  unfold next. destruct (at_ s c) as [| |m|m| | |m|m|e|] eqn:Hat; intros Hn; try done.
  - injection Hn as <-. eexists. split; [reflexivity|]. simpl. lia.
  - destruct (_ <? _); [done|]. injection Hn as <-. exists (AtInitialized (master_cpu_id s =? u32 (-1))).
    split; [|simpl; lia]. unfold initialize. simpl. f_equal.
    destruct (master_cpu_id s =? u32 (-1)); simpl; repeat case_match; done.
  - destruct (_ && _); [done|]. injection Hn as <-. eexists. split; [reflexivity|]. simpl. lia.
  - injection Hn as <-. eexists. split; [reflexivity|]. destruct (_ && _); simpl; lia.
  - injection Hn as <-. eexists. split; [reflexivity|]. simpl. lia.
  - injection Hn as <-. exists (AtEnd true). split; [|simpl; lia]. by destruct (error s =? 0).
  - destruct (_ && _); [done|]. injection Hn as <-. eexists. split; [reflexivity|]. simpl. lia.
  - injection Hn as <-. destruct (negb _); (eexists; split; [reflexivity|]; simpl; lia).
Qed.

Lemma step_progress s s' : step s s' -> progress s < progress s'.
Proof.
  intros (c & Hc & Hn). destruct (next_rank c s s' Hn) as (p & Hat & Hr).
  unfold progress. simpl. rewrite Hat. destruct Hall as (Hnd & _). rewrite !count_update by done.
  destruct Hr as [Hr Hr7]. revert Hr Hr7. generalize (rank (at_ s c)) as x, (rank p) as y. intros x y Hr Hr7.
  assert (forall k, (if k <=? x then 1 else 0) <= (if k <=? y then 1 else 0)) as Hmono.
  { intros k. destruct (k <=? x) eqn:Hx, (k <=? y) eqn:Hy; b2p; lia. }
  pose proof (Hmono 1); pose proof (Hmono 2); pose proof (Hmono 3); pose proof (Hmono 4);
    pose proof (Hmono 5); pose proof (Hmono 6); pose proof (Hmono 7).
  assert (y = 1 \/ y = 2 \/ y = 3 \/ y = 4 \/ y = 5 \/ y = 6 \/ y = 7) as Hy by lia.
  clear Hmono. assert ((if y <=? x then 1 else 0) = 0) as Hyx by (by rewrite (proj2 (Z.leb_gt _ _)) by lia).
  destruct_or! Hy; subst y; rewrite Hyx in *; simpl (if _ <=? _ then 1 else 0) in *; lia.
Qed.

Lemma progress_bounds s : 0 <= progress s <= 7 * online_cpus.
Proof.
  unfold progress. simpl. destruct Hall as (_ & <- & _).
  pose proof (fun k => count_bounds cpus (fun p => k <=? rank p) (at_ s)) as Hb.
  pose proof (Hb 1); pose proof (Hb 2); pose proof (Hb 3); pose proof (Hb 4); pose proof (Hb 5);
    pose proof (Hb 6); pose proof (Hb 7). lia.
Qed.

(** the start-up ends: no run has more than seven steps per CPU, and as
    long as some CPU has neither activated the hypervisor nor returned, some
    CPU can take a step. *)
Theorem startup_ends (n : nat) (s : setup) :
  nsteps step n boot s ->
  Z.of_nat n <= 7 * online_cpus /\
  ((forall c, c ∈ cpus -> finished (at_ s c) = true) \/ exists s', step s s').
Proof.
  intros Hns. split.
  { assert (Z.of_nat n <= progress s - progress boot) as Hle.
    { clear -Hns Hall. induction Hns as [s|n s1 s2 s3 Hst _ IH]; [lia|].
      pose proof (step_progress _ _ Hst). lia. }
    pose proof (progress_bounds s). pose proof (progress_bounds boot). lia. }
  assert (rtc step boot s) as Hr by (apply rtc_nsteps; by exists n). clear n Hns.
  pose proof (startup_reachable_inv s Hr) as HI. destruct Hall as (Hnd & Hlen & Hon & Hids).
  destruct (decide (Forall (fun c => finished (at_ s c) = true) cpus)) as [Hf|Hf].
  { left. intros c Hc. by apply (proj1 (Forall_forall _ _) Hf). }
  right. destruct (decide (Exists (fun c => next c s <> None) cpus)) as [Hex|Hno].
  { apply Exists_exists in Hex as (c & Hc & Hn). destruct (next c s) as [s'|] eqn:Hs; [|done].
    exists s'. by exists c. }
  exfalso. assert (forall c, c ∈ cpus -> next c s = None) as Hstuck.
  { intros c Hc. destruct (next c s) eqn:Hs; [|done]. exfalso. apply Hno, Exists_exists. exists c. by rewrite Hs. }
  assert (entered_cpus s = online_cpus) as Hent.
  { rewrite (in_entered s HI), <- Hlen. apply count_full. intros c Hc. specialize (Hstuck c Hc).
    unfold next in Hstuck. by destruct (at_ s c). }
  assert (forall c, c ∈ cpus -> beyond (at_ s c) = true) as Hb.
  { intros c Hc. specialize (Hstuck c Hc). unfold next in Hstuck. destruct (at_ s c); try done.
    by rewrite (proj2 (Z.ltb_ge _ _)) in Hstuck by lia. }
  apply not_Forall_Exists in Hf; [|intros; apply _]. apply Exists_exists in Hf as (c & Hc & Hnf).
  change (~ finished (at_ s c) = true) in Hnf.
  pose proof (Hstuck c Hc) as Hs. pose proof (Hb c Hc) as Hbc.
  assert (error s = 0) as He.
  { destruct (Z.eq_dec (error s) 0) as [|He]; [done|]. exfalso. unfold next in Hs.
    rewrite (proj2 (Z.eqb_neq _ _) He) in Hs. by destruct (at_ s c). }
  destruct (in_ok s HI He) as [Hcnt _].
  rewrite (proj2 (count_full cpus beyond (at_ s)) Hb), Hlen in Hcnt.
  assert (activate s = false) as Ha.
  { unfold next in Hs. destruct (at_ s c); try done; rewrite He in Hs; cbn in Hs.
    - by rewrite Hcnt, Z.ltb_irrefl in Hs.
    - by destruct (activate s). }
  destruct (decide (master_cpu_id s = u32 (-1))) as [Hm|Hm].
  { destruct (in_master s HI Hm) as (_ & _ & Hno'). by rewrite Hno' in Hbc. }
  destruct (in_chief s HI Hm) as [Hmc Hch]. specialize (Hstuck _ Hmc).
  pose proof (in_points s HI _ Hmc) as Hp. unfold next in Hstuck.
  destruct (at_ s (master_cpu_id s)) as [| |m|m| | |m|m|e|]; try done; simpl in Hp, Hch.
  - rewrite He, Hcnt in Hstuck. cbn in Hstuck. by rewrite Z.ltb_irrefl in Hstuck.
  - by destruct Hch.
  - destruct Hp. congruence.
  - congruence.
Qed.
End Startup.

(** ** Concrete runs *)

Definition four_set : cpu_set := mk_cpu_set 63 15.
Definition good_codes : codes := mk_codes [0; 0; 0] (fun _ => 0) [0; 0; 0; 0].
(** The interrupt controller of CPU 2 fails. *)
Definition bad_codes : codes := mk_codes [0; 0; 0] (fun c => if c =? 2 then -12 else 0) [0].

Lemma four_booted : all_online [0; 1; 2; 3] 4.
Proof.
  split; [repeat constructor; set_solver|]. split; [done|]. split; [lia|].
  intros c Hc. change (u32 (-1)) with 4294967295. repeat (apply elem_of_cons in Hc as [->|Hc]; [lia|]).
  by apply elem_of_nil in Hc.
Qed.

(** The CPUs take turns. *)
Fixpoint turns (R : codes) (l : list Z) (s : setup) : option setup :=
  match l with
  | [] => Some s
  | c :: l => match next 4 four_set R c s with Some s' => turns R l s' | None => turns R l s end
  end.

Definition all_turns : list Z := concat (replicate 12 [0; 1; 2; 3]).
Definition end_points (R : codes) : option (list point) :=
  (fun s => at_ s <$> [0; 1; 2; 3]) <$> turns R all_turns boot.

Example all_activate : end_points good_codes = Some [Activated; Activated; Activated; Activated].
Proof. vm_compute. reflexivity. Qed.
Example all_fail :
  end_points bad_codes = Some [Failed (-12); Failed (-12); Failed (-12); Failed (-12)].
Proof. vm_compute. reflexivity. Qed.

Lemma turns_nsteps R l s s' :
  Forall (fun c => c ∈ [0; 1; 2; 3]) l -> turns R l s = Some s' ->
  exists n, nsteps (step [0; 1; 2; 3] 4 four_set R) n s s'.
Proof.
  intros Hl. revert s. induction Hl as [|c l Hc _ IH]; intros s Ht; simpl in Ht.
  - injection Ht as <-. exists 0%nat. constructor.
  - destruct (next 4 four_set R c s) as [s1|] eqn:Hn; [|by apply IH].
    destruct (IH s1 Ht) as [n Hns]. exists (S n). econstructor; [|exact Hns]. by exists c.
Qed.

Definition booted (R : codes) : setup := match turns R all_turns boot with Some s => s | None => boot end.

Lemma booted_nsteps R : exists n, nsteps (step [0; 1; 2; 3] 4 four_set R) n boot (booted R).
Proof.
  unfold booted. destruct (turns R all_turns boot) as [s|] eqn:Ht; [|exists 0%nat; constructor].
  eapply turns_nsteps; [|exact Ht].
  apply (bool_decide_unpack _). vm_compute. exact I.
Qed.

Lemma cpu_listed (c : Z) : bool_decide (c ∈ [0; 1; 2; 3]) = true -> c ∈ [0; 1; 2; 3].
Proof. apply bool_decide_eq_true_1. Qed.

Lemma startup_agreement_witness :
  rtc (step [0; 1; 2; 3] 4 four_set bad_codes) boot (booted bad_codes) /\
  at_ (booted bad_codes) 1 = Failed (-12) /\ at_ (booted bad_codes) 3 <> Activated.
Proof.
  assert (rtc (step [0; 1; 2; 3] 4 four_set bad_codes) boot (booted bad_codes)) as Hr
    by (apply rtc_nsteps, booted_nsteps).
  assert (at_ (booted bad_codes) 1 = Failed (-12)) as Hf by (vm_compute; reflexivity).
  split; [exact Hr|]. split; [exact Hf|].
  destruct (startup_agreement [0; 1; 2; 3] 4 four_set bad_codes four_booted (booted bad_codes) Hr) as (_ & Hx & _).
  destruct (Hx 1 (-12) (cpu_listed 1 eq_refl) Hf) as [_ Hy]. exact (proj1 (Hy 3 (cpu_listed 3 eq_refl))).
Defined.

Lemma startup_ends_witness :
  exists n, nsteps (step [0; 1; 2; 3] 4 four_set good_codes) n boot (booted good_codes) /\ Z.of_nat n <= 7 * 4.
Proof.
  destruct (booted_nsteps good_codes) as [n Hn]. exists n. split; [exact Hn|].
  exact (proj1 (startup_ends [0; 1; 2; 3] 4 four_set good_codes four_booted n (booted good_codes) Hn)).
Defined.
