(* ===== verification/Shutdown.v ===== *)
(** * Hypervisor: shutdown

    [hypervisor_disable] (hypervisor/control.c) as run by all CPUs of the root
    cell at once. The variables are shared; what a CPU does while it holds
    [shutdown_lock] is one step, and so is the test of the loop that waits for
    the others. A management call of another CPU can change [num_cells] as soon
    as it has suspended the other CPUs of the root cell, which it cannot while
    one of them waits here or has left the hypervisor ([CpuSuspend]).

    The steps that the CPUs take under the lock are those of the code; parts
    of the shutdown itself ([shutdown]) are only counted. *)

From Stdlib Require Import ZArith Lia.
From stdpp Require Import base tactics list option functions sets relations.
From S2P Require Import Prelude Barrier Mmio Irqchip.

Definition SHUTDOWN_NONE : Z := 0.
Definition SHUTDOWN_STARTED : Z := 1.

(** Where a CPU is: in its guest, in the loop, or back with a result; with 0
    it has left the hypervisor. *)
Inductive where_ := Outside | Waiting | Returned (ret : Z).
#[global] Instance where_eq_dec : EqDecision where_.
Proof. solve_decision. Defined.

Record vote := mk_vote {
  num_cells : Z;
  shutdown_state : Z -> Z;
  waiting_cpus : Z;
  do_common_shutdown : bool;
  shutdowns : Z;                     (* calls of shutdown() so far *)
  at_ : Z -> where_;
}.

Section Shutdown.
Context (cpus : list Z) (online_cpus : Z).

Definition set_all (f : Z -> Z) (l : list Z) (x : Z) : Z -> Z :=
  foldr (fun cpu f => <[cpu := x]> f) f l.

(** Up to the first [spin_unlock]. *)
Definition disable_vote (this : Z) (s : vote) : vote :=
  let st :=
    if shutdown_state s this =? SHUTDOWN_NONE
    then set_all (shutdown_state s) cpus (if num_cells s =? 1 then SHUTDOWN_STARTED else - EBUSY)
    else shutdown_state s in
  if st this =? SHUTDOWN_STARTED
  then mk_vote (num_cells s) st (u32 (waiting_cpus s + 1)) true (shutdowns s) (<[this := Waiting]> (at_ s))
  else mk_vote (num_cells s) (<[this := SHUTDOWN_NONE]> st) (waiting_cpus s) (do_common_shutdown s)
         (shutdowns s) (<[this := Returned (st this)]> (at_ s)).

(** [while (waiting_cpus < online_cpus)] *)
Definition may_pass (s : vote) : bool := online_cpus <=? waiting_cpus s.

(** From the second [spin_lock] on. *)
Definition disable_finish (this : Z) (s : vote) : vote :=
  mk_vote (num_cells s) (shutdown_state s) (waiting_cpus s) false
    (if do_common_shutdown s then shutdowns s + 1 else shutdowns s) (<[this := Returned 0]> (at_ s)).

(** A CPU that executes its guest, so that it can be suspended. *)
Definition in_guest (w : where_) : bool :=
  match w with Outside => true | Waiting => false | Returned r => negb (r =? 0) end.

Inductive step : vote -> vote -> Prop :=
| step_vote this s :
    this ∈ cpus -> at_ s this = Outside -> step s (disable_vote this s)
| step_finish this s :
    this ∈ cpus -> at_ s this = Waiting -> may_pass s = true -> step s (disable_finish this s)
| step_retry this r s :
    this ∈ cpus -> at_ s this = Returned r -> r <> 0 ->
    step s (mk_vote (num_cells s) (shutdown_state s) (waiting_cpus s) (do_common_shutdown s) (shutdowns s)
              (<[this := Outside]> (at_ s)))
| step_manage n s :
    (forall cpu, cpu ∈ cpus -> in_guest (at_ s cpu) = true) ->
    step s (mk_vote n (shutdown_state s) (waiting_cpus s) (do_common_shutdown s) (shutdowns s) (at_ s)).

Definition start (n : Z) : vote := mk_vote n (fun _ => SHUTDOWN_NONE) 0 false 0 (fun _ => Outside).

(** The CPUs that take part: as many as are online. *)
Definition all_online : Prop :=
  NoDup cpus /\ Z.of_nat (length cpus) = online_cpus /\ 0 < online_cpus < 2 ^ 32.

Definition has_voted (w : where_) : bool := negb (in_guest w).
Definition has_left (w : where_) : bool := bool_decide (w = Returned 0).

(** Before the decision nobody waits; after it nothing can stop it. *)
Definition undecided (s : vote) : Prop :=
  waiting_cpus s = 0 /\ do_common_shutdown s = false /\ shutdowns s = 0 /\
  forall cpu, cpu ∈ cpus -> in_guest (at_ s cpu) = true /\ shutdown_state s cpu <> SHUTDOWN_STARTED.

Definition decided (s : vote) : Prop :=
  num_cells s = 1 /\ waiting_cpus s = count cpus has_voted (at_ s) /\ 0 < waiting_cpus s /\
  (forall cpu, cpu ∈ cpus -> shutdown_state s cpu = SHUTDOWN_STARTED) /\
  (do_common_shutdown s = true /\ shutdowns s = 0 /\ count cpus has_left (at_ s) = 0 \/
   do_common_shutdown s = false /\ shutdowns s = 1 /\ waiting_cpus s = online_cpus).

Lemma set_all_in f l x cpu : cpu ∈ l -> set_all f l x cpu = x.
Proof.
  induction l as [|c l IH]; intros Hc; [by apply elem_of_nil in Hc|]. simpl.
  destruct (decide (cpu = c)) as [->|Hne]; [by rewrite fn_lookup_insert|].
  rewrite fn_lookup_insert_ne by done. apply IH. by apply elem_of_cons in Hc as [?|?].
Qed.

Hypothesis (Hall : all_online).

Lemma vote_undecided this s :
  undecided s -> this ∈ cpus -> undecided (disable_vote this s) \/ decided (disable_vote this s).
Proof.
  intros (Hw & Hd & Hs & Hg) Hin. destruct Hall as (Hnd & Hlen & Hon). unfold disable_vote.
  destruct (Hg this Hin) as [Hgt Hst]. destruct (shutdown_state s this =? SHUTDOWN_NONE) eqn:Hnone.
  - rewrite set_all_in by done. destruct (num_cells s =? 1) eqn:Hn.
    + right. rewrite Z.eqb_refl. b2p. assert (count cpus has_voted (at_ s) = 0) as Hc0.
      { apply count_none. intros c Hc. unfold has_voted. by rewrite (proj1 (Hg c Hc)). }
      unfold decided. simpl. rewrite Hw. change (u32 (0 + 1)) with 1. split_and!; try done.
      * rewrite count_update by done. assert (has_voted (at_ s this) = false) as -> by (unfold has_voted; by rewrite Hgt).
        simpl. lia.
      * intros c Hc. by apply set_all_in.
      * left. split; [done|]. split; [done|]. apply count_none. intros c Hc.
        destruct (decide (c = this)) as [->|Hne]; [by rewrite fn_lookup_insert|].
        rewrite fn_lookup_insert_ne by done. destruct (Hg c Hc) as [Hgc _]. unfold has_left.
        destruct (at_ s c) as [| |r]; try done. apply bool_decide_eq_false. intros [= ->]. done.
    + left. change (- EBUSY =? SHUTDOWN_STARTED) with false. cbv iota. unfold undecided. simpl.
      split_and!; try done. intros c Hc. destruct (decide (c = this)) as [->|Hne].
      * by rewrite !fn_lookup_insert.
      * rewrite !fn_lookup_insert_ne by done. split; [by apply Hg|]. by rewrite set_all_in.
  - left. rewrite (proj2 (Z.eqb_neq _ _) Hst). unfold undecided. simpl. b2p.
    split_and!; try done. intros c Hc. destruct (decide (c = this)) as [->|Hne].
    + rewrite !fn_lookup_insert. split; [|done]. simpl. apply negb_true_iff. by apply Z.eqb_neq.
    + rewrite !fn_lookup_insert_ne by done. by apply Hg.
Qed.

Lemma vote_decided this s :
  decided s -> this ∈ cpus -> at_ s this = Outside -> decided (disable_vote this s).
Proof.
  intros (Hn & Hw & Hpos & Hst & Hres) Hin Hat. destruct Hall as (Hnd & Hlen & Hon). unfold disable_vote.
  rewrite (Hst this Hin). change (SHUTDOWN_STARTED =? SHUTDOWN_NONE) with false. cbv iota.
  rewrite (Hst this Hin), Z.eqb_refl.
  assert (count cpus has_voted (<[this:=Waiting]> (at_ s)) = waiting_cpus s + 1) as Hc.
  { rewrite count_update by done. rewrite Hat. simpl. lia. }
  pose proof (count_bounds cpus has_voted (<[this:=Waiting]> (at_ s))) as Hb.
  unfold decided. simpl. rewrite u32_small by lia. split_and!; try done; try lia.
  destruct Hres as [(Hd & Hs & Hl)|(_ & _ & Hfull)]; [|lia].
  left. split_and!; try done. rewrite count_update by done. rewrite Hat. simpl. lia.
Qed.

Lemma finish_decided this s :
  decided s -> this ∈ cpus -> at_ s this = Waiting -> may_pass s = true -> decided (disable_finish this s).
Proof.
  intros (Hn & Hw & Hpos & Hst & Hres) Hin Hat Hp. destruct Hall as (Hnd & Hlen & Hon).
  unfold may_pass in Hp. b2p. pose proof (count_bounds cpus has_voted (at_ s)) as Hb.
  unfold decided, disable_finish. simpl. split_and!; try done.
  - rewrite count_update by done. rewrite Hat. simpl. lia.
  - right. destruct Hres as [(-> & -> & _)|(-> & -> & _)]; split_and!; done || lia.
Qed.

Lemma step_inv s s' : undecided s \/ decided s -> step s s' -> undecided s' \/ decided s'.
Proof.
  intros HI Hst. destruct Hst as [this s Hin Hat|this s Hin Hat Hp|this r s Hin Hat Hr|n s Hg].
  - destruct HI as [Hu|Hd]; [by apply vote_undecided|right; by apply vote_decided].
  - destruct HI as [(_ & _ & _ & Hg)|Hd]; [|right; by apply finish_decided].
    destruct (Hg this Hin) as [Hgt _]. by rewrite Hat in Hgt.
  - assert (in_guest (Returned r) = true) as Hgr by (simpl; apply negb_true_iff; by apply Z.eqb_neq).
    destruct HI as [(Hw & Hd & Hs & Hg)|(Hn & Hw & Hpos & Hst & Hres)]; [left|right].
    + unfold undecided. simpl. split_and!; try done. intros c Hc. split; [|by apply Hg].
      destruct (decide (c = this)) as [->|Hne]; [by rewrite fn_lookup_insert|].
      rewrite fn_lookup_insert_ne by done. by apply Hg.
    + unfold decided. simpl. destruct Hall as (Hnd & _ & _). split_and!; try done.
      * rewrite count_update by done. rewrite Hat. assert (has_voted (Returned r) = false) as -> by (unfold has_voted; by rewrite Hgr).
        simpl. lia.
      * destruct Hres as [(? & ? & Hl)|Hres]; [left|by right]. split_and!; try done.
        rewrite count_update by done. rewrite Hat.
        assert (has_left (Returned r) = false) as -> by (apply bool_decide_eq_false; congruence). simpl. lia.
  - destruct HI as [Hu|(_ & Hw & Hpos & _)]; [by left|]. exfalso.
    rewrite count_none in Hw; [lia|]. intros c Hc. unfold has_voted. by rewrite Hg.
Qed.

Lemma start_undecided n : undecided (start n).
Proof. by split_and!. Qed.

Lemma shutdown_reachable_inv n s : rtc step (start n) s -> undecided s \/ decided s.
Proof.
  remember (start n) as s0 eqn:He. intros Hr.
  assert (undecided s0 \/ decided s0) as HI by (left; subst s0; apply start_undecided).
  clear He. induction Hr as [s|s s1 s2 Hst _ IH]; [done|]. apply IH. by eapply step_inv.
Qed.

(** in every interleaving of the CPUs, retries after a refusal and
    management calls included, the hypervisor is shut down at most once, and
    only when the root cell is the only cell and every CPU has voted for it; no
    CPU leaves the hypervisor before that. *)
Theorem shutdown_once (n : Z) (s : vote) :
  rtc step (start n) s ->
  0 <= shutdowns s <= 1 /\
  (0 < shutdowns s -> num_cells s = 1 /\ forall cpu, cpu ∈ cpus -> has_voted (at_ s cpu) = true) /\
  (forall cpu, cpu ∈ cpus -> at_ s cpu = Returned 0 -> shutdowns s = 1).
Proof.
  intros Hr. destruct Hall as (Hnd & Hlen & Hon).
  destruct (shutdown_reachable_inv n s Hr) as [(Hw & Hd & Hs & Hg)|(Hn & Hw & Hpos & Hst & Hres)].
  - split; [lia|]. split; [lia|]. intros c Hc Hat. destruct (Hg c Hc) as [Hgc _]. by rewrite Hat in Hgc.
  - destruct Hres as [(Hd & Hs & Hl)|(Hd & Hs & Hfull)].
    + split; [lia|]. split; [lia|]. intros c Hc Hat. exfalso.
      assert (0 < count cpus has_left (at_ s)); [|lia].
      eapply count_pos; [exact Hc|]. by rewrite Hat.
    + split; [lia|]. split; [|done]. intros _. split; [done|].
      apply (proj1 (count_full cpus has_voted (at_ s))). lia.
Qed.

(** once a CPU waits for the others, or has left, no CPU is refused any
    more, and as long as one of them has not left some CPU can go on; when all
    have voted, every CPU that waits gets 0. *)
Theorem shutdown_proceeds (n : Z) (s : vote) (w : Z) :
  rtc step (start n) s -> w ∈ cpus -> has_voted (at_ s w) = true ->
  (forall cpu, cpu ∈ cpus -> at_ s cpu = Outside -> at_ (disable_vote cpu s) cpu = Waiting) /\
  ((forall cpu, cpu ∈ cpus -> at_ s cpu = Returned 0) \/ exists s', step s s' /\ s' <> s) /\
  ((forall cpu, cpu ∈ cpus -> has_voted (at_ s cpu) = true) -> may_pass s = true).
Proof.
  intros Hr Hw Hv. destruct Hall as (Hnd & Hlen & Hon).
  destruct (shutdown_reachable_inv n s Hr) as [(_ & _ & _ & Hg)|(Hn & Hwt & Hpos & Hst & Hres)].
  { destruct (Hg w Hw) as [Hgw _]. unfold has_voted in Hv. by rewrite Hgw in Hv. }
  assert (forall cpu, cpu ∈ cpus -> at_ s cpu = Outside -> at_ (disable_vote cpu s) cpu = Waiting) as Hvote.
  { intros c Hc Hat. unfold disable_vote. rewrite (Hst c Hc).
    change (SHUTDOWN_STARTED =? SHUTDOWN_NONE) with false. cbv iota.
    rewrite (Hst c Hc), Z.eqb_refl. simpl. by rewrite fn_lookup_insert. }
  assert ((forall cpu, cpu ∈ cpus -> has_voted (at_ s cpu) = true) -> may_pass s = true) as Hpass.
  { intros Hx. apply Z.leb_le. rewrite Hwt, (proj2 (count_full cpus has_voted (at_ s)) Hx). lia. }
  split; [exact Hvote|]. split; [|exact Hpass].
  destruct (decide (Forall (fun cpu => at_ s cpu = Returned 0) cpus)) as [Hf|Hf].
  { left. intros c Hc. by apply (proj1 (Forall_forall _ _) Hf). }
  right. destruct (decide (Exists (fun c => in_guest (at_ s c) = true) cpus)) as [Hex|Hno].
  - apply Exists_exists in Hex as (c & Hc & Hg). destruct (at_ s c) as [| |r] eqn:Hat; [|done|].
    + exists (disable_vote c s). split; [by apply step_vote|]. intros Heq.
      pose proof (Hvote c Hc Hat) as Hx. rewrite Heq in Hx. congruence.
    + simpl in Hg. apply negb_true_iff, Z.eqb_neq in Hg.
      eexists. split; [by eapply (step_retry c)|]. intros Heq. apply (f_equal (fun s => at_ s c)) in Heq.
      simpl in Heq. rewrite fn_lookup_insert in Heq. congruence.
  - assert (forall c, c ∈ cpus -> has_voted (at_ s c) = true) as Hall_v.
    { intros c Hc. unfold has_voted. destruct (in_guest (at_ s c)) eqn:Hg; [|done].
      exfalso. apply Hno, Exists_exists. by exists c. }
    apply not_Forall_Exists in Hf; [|intros; apply _]. apply Exists_exists in Hf as (c & Hc & Hne).
    assert (at_ s c = Waiting) as Hat.
    { specialize (Hall_v c Hc). destruct (at_ s c) as [| |r] eqn:Ha; [done|done|]. exfalso. apply Hne.
      unfold has_voted in Hall_v. simpl in Hall_v. rewrite negb_involutive in Hall_v.
      apply Z.eqb_eq in Hall_v. by subst r. }
    exists (disable_finish c s). split; [apply step_finish; auto|]. intros Heq.
    apply (f_equal (fun s => at_ s c)) in Heq. simpl in Heq. rewrite fn_lookup_insert in Heq. congruence.
Qed.
End Shutdown.

(** ** A concrete run *)

Lemma four_online : all_online [0; 1; 2; 3] 4.
Proof. split; [|simpl; lia]. repeat constructor; set_solver. Qed.

(** CPU 2 is refused while there is a second cell; then all vote. *)
Definition demo_vote (n : Z) : vote :=
  disable_vote [0; 1; 2; 3] 1 (disable_vote [0; 1; 2; 3] 0 (start n)).

Lemma demo_votes_reachable : rtc (step [0; 1; 2; 3] 4) (start 1) (demo_vote 1).
Proof.
  eapply rtc_l; [apply (step_vote _ _ 0); [set_solver|reflexivity]|].
  eapply rtc_l; [apply (step_vote _ _ 1); [set_solver|reflexivity]|]. apply rtc_refl.
Qed.

Example refused_vote : at_ (demo_vote 2) 0 = Returned (- EBUSY) /\ at_ (demo_vote 2) 1 = Returned (- EBUSY).
Proof. split; reflexivity. Qed.

Lemma shutdown_once_witness :
  rtc (step [0; 1; 2; 3] 4) (start 1) (demo_vote 1) /\ 0 <= shutdowns (demo_vote 1) <= 1.
Proof.
  split; [exact demo_votes_reachable|].
  exact (proj1 (shutdown_once [0; 1; 2; 3] 4 four_online 1 (demo_vote 1) demo_votes_reachable)).
Defined.

Lemma shutdown_proceeds_witness :
  has_voted (at_ (demo_vote 1) 0) = true /\
  exists s', step [0; 1; 2; 3] 4 (demo_vote 1) s' /\ s' <> demo_vote 1.
Proof.
  split; [reflexivity|].
  destruct (shutdown_proceeds [0; 1; 2; 3] 4 four_online 1 (demo_vote 1) 0 demo_votes_reachable)
    as (_ & [Hx|Hx] & _); [left|reflexivity| |exact Hx].
  exfalso. specialize (Hx 3 ltac:(set_solver)). discriminate.
Defined.
