(* ===== verification/Printk.v ===== *)
(** * Formatted output

    Models printk-core.c, which the hypervisor (hypervisor/printk.c) and the
    guest (src/printu.c) include: the conversion of numbers, the alignment and
    the loop of [__vprintk], which collects text in a buffer of 128 bytes and
    passes it to [console_write] in pieces. Characters are bytes; a format and
    a string argument are lists of bytes without the terminator. The types are
    those of LP64, so 64-bit divisions are those of the machine.

    The buffer is an array: an access outside of it is undefined, and so is
    reading the format behind its terminator. *)

From Stdlib Require Import ZArith Lia String Ascii.
From stdpp Require Import base tactics list list_numbers option sets.
From S2P Require Import Prelude StateMonad.

Definition BUF_SIZE : nat := 128.

Record console := mk_console { buf : list Z; out : list Z }.

Inductive arg := Num (v : Z) | Str (s : list Z).

Notation CON := (ST console).

Definition write (i : nat) (x : Z) : CON unit := fun s =>
  if (i <? length (buf s))%nat then Some (tt, mk_console (<[i := x]> (buf s)) (out s)) else None.
Definition read (i : nat) : CON Z := from_option (fun s => buf s !! i).

(** The text up to the first 0. *)
Fixpoint c_string (l : list Z) : option (list Z) :=
  match l with
  | [] => None
  | c :: l => if c =? 0 then Some [] else cons c <$> c_string l
  end.

(** [console_write(buf)] *)
Definition console_write_buf : CON unit := fun s =>
  txt ← c_string (buf s); Some (tt, mk_console (buf s) (out s ++ txt)).
Definition console_write (msg : list Z) : CON unit := modify (fun s => mk_console (buf s) (out s ++ msg)).

(** ** Characters *)
Definition ch_0 : Z := 48.
Definition ch_9 : Z := 57.
Definition ch_a : Z := 97.
Definition ch_percent : Z := 37.
Definition ch_minus : Z := 45.
Definition ch_space : Z := 32.
Definition ch_l : Z := 108.
Definition ch_c : Z := 99.
Definition ch_d : Z := 100.
Definition ch_p : Z := 112.
Definition ch_s : Z := 115.
Definition ch_u : Z := 117.
Definition ch_x : Z := 120.

(** [hexdigit[digit]] *)
Definition hexdigit (digit : Z) : Z := if digit <? 10 then ch_0 + digit else ch_a + digit - 10.


(** ** Numbers *)

Fixpoint uint2str_loop (fuel : nat) (value divisor : Z) (first_digit : bool) (p : nat) : CON nat :=
  if 0 <? divisor then
    match fuel with
    | O => undefined
    | S fuel =>
        let digit := value / divisor in
        let value := u64 (value - u64 (digit * divisor)) in
        if negb first_digit || (0 <? digit) || (divisor =? 1) then
          _ ← write p (ch_0 + digit);
          uint2str_loop fuel value (divisor / 10) false (S p)
        else uint2str_loop fuel value (divisor / 10) first_digit p
    end
  else mret p.
Definition uint2str (value : Z) (p : nat) : CON nat :=
  uint2str_loop 20 value 10000000000000000000 true p.

(** [- value] overflows for the least value. *)
Definition int2str (value : Z) (p : nat) : CON nat :=
  if value <? 0 then
    if value =? - 2 ^ 63 then undefined
    else _ ← write p ch_minus; uint2str (u64 (- value)) (S p)
  else uint2str (u64 value) p.

Fixpoint hex2str_loop (fuel : nat) (value divisor leading_zero_mask : Z) (first_digit : bool) (p : nat)
  : CON nat :=
  if 0 <? divisor then
    match fuel with
    | O => undefined
    | S fuel =>
        let digit := value / divisor in
        let value := u64 (value - u64 (digit * divisor)) in
        if negb first_digit || (0 <? digit) || (divisor =? 1) || negb (Z.land divisor leading_zero_mask =? 0)
        then
          _ ← write p (hexdigit digit);
          hex2str_loop fuel value (Z.shiftr divisor 4) leading_zero_mask false (S p)
        else hex2str_loop fuel value (Z.shiftr divisor 4) leading_zero_mask first_digit p
    end
  else mret p.
Definition hex2str (value : Z) (p : nat) (leading_zero_mask : Z) : CON nat :=
  hex2str_loop 16 value (2 ^ 60) leading_zero_mask true p.

(** [for (n = 1; p1 - n >= p0; n++) *(p0 + width - n) = *(p1 - n)]; [k] is the
    number of rounds left. *)
Fixpoint align_loop (k n : nat) (p1 p0 width : nat) : CON unit :=
  match k with
  | O => mret tt
  | S k => x ← read (p1 - n); _ ← write (p0 + width - n) x; align_loop k (S n) p1 p0 width
  end.
Fixpoint memset (p : nat) (x : Z) (n : nat) : CON unit :=
  match n with O => mret tt | S n => _ ← write p x; memset (S p) x n end.
Definition align (p1 p0 width : nat) (fill : Z) : CON nat :=
  if (width <=? p1 - p0)%nat then mret p1
  else
    _ ← align_loop (p1 - p0) 1 p1 p0 width;
    _ ← memset p0 fill (width - (p1 - p0));
    mret (p0 + width)%nat.

(** ** The format *)

(** [c = *fmt++] *)
Definition next_char (fmt : list Z) : option (Z * list Z) :=
  match fmt with c :: fmt => Some (c, fmt) | [] => None end.

Definition is_digit (c : Z) : bool := (ch_0 <=? c) && (c <=? ch_9).

Fixpoint width_loop (fuel : nat) (c : Z) (fmt : list Z) (width : Z) : option (Z * list Z * Z) :=
  if is_digit c then
    match fuel with
    | O => None
    | S fuel =>
        let width := u32 (width * 10 + c - ch_0) in
        '(c, fmt) ← next_char fmt;
        width_loop fuel c fmt (if 127 <=? width then 0 else width)
    end
  else Some (c, fmt, width).

Definition va_num (ap : list arg) : option (Z * list arg) :=
  match ap with Num v :: ap => Some (v, ap) | _ => None end.

(** [SZ_NORMAL], or [SZ_LONG] and [SZ_LONGLONG], which are equal here. *)
Definition length_modifier (c : Z) (fmt : list Z) : option (bool * Z * list Z) :=
  if c =? ch_l then
    '(c, fmt) ← next_char fmt;
    if c =? ch_l then '(c, fmt) ← next_char fmt; Some (true, c, fmt) else Some (true, c, fmt)
  else Some (false, c, fmt).

(** What is behind a percent sign: fill, width, length and conversion. *)
Definition directive (fmt : list Z) : option (Z * nat * bool * Z * list Z) :=
  '(c, fmt) ← next_char fmt;
  let fill := if c =? ch_0 then ch_0 else ch_space in
  '(c, fmt, width) ← width_loop (S (length fmt)) c fmt 0;
  '(long, c, fmt) ← length_modifier c fmt;
  Some (fill, Z.to_nat width, long, c, fmt).

Definition pure {A} (o : option A) : CON A := from_option (fun _ => o).

(** The [switch]; the result is the end of the text in the buffer. *)
Definition convert (c : Z) (long : bool) (width : nat) (fill : Z) (p : nat) (ap : list arg)
  : CON (nat * list arg) :=
  let p0 := p in
  if c =? ch_c then
    '(v, ap) ← pure (va_num ap); _ ← write p (wrap 8 v); mret (S p, ap)
  else if c =? ch_d then
    '(v, ap) ← pure (va_num ap);
    let v := u64 (if long : bool then s64 v else s32 v) in
    p ← int2str (s64 v) p; p ← align p p0 width fill; mret (p, ap)
  else if c =? ch_p then
    _ ← write p ch_0; _ ← write (S p) ch_x;
    '(v, ap) ← pure (va_num ap); p ← hex2str (u64 v) (S (S p)) (u64 (-1)); mret (p, ap)
  else if c =? ch_s then
    match ap with
    | Str msg :: ap => _ ← console_write msg; mret (p, ap)
    | _ => undefined
    end
  else if (c =? ch_u) || (c =? ch_x) then
    '(v, ap) ← pure (va_num ap);
    let v := if long : bool then u64 v else wrap 32 v in
    p ← (if c =? ch_u then uint2str v p else hex2str v p 0);
    p ← align p p0 width fill; mret (p, ap)
  else _ ← write p ch_percent; _ ← write (S p) c; mret (S (S p), ap).

Definition flush (p : nat) : CON unit := _ ← write p 0; console_write_buf.

Fixpoint vprintk_loop (fuel : nat) (fmt : list Z) (ap : list arg) (p : nat) : CON unit :=
  match fuel with
  | O => undefined
  | S fuel =>
      '(c, fmt) ← pure (next_char fmt);
      if c =? 0 then flush p
      else
        '(fmt, ap, p) ←
          (if c =? ch_percent then
             _ ← flush p;
             '(fill, width, long, c, fmt) ← pure (directive fmt);
             '(p, ap) ← convert c long width fill 0 ap;
             mret (fmt, ap, p)
           else _ ← write p c; mret (fmt, ap, S p));
        if (127 <=? p)%nat then _ ← flush p; vprintk_loop fuel fmt ap 0
        else vprintk_loop fuel fmt ap p
  end.

(** [__vprintk]; the format gets its terminator. *)
Definition vprintk (fmt : list Z) (ap : list arg) : CON unit :=
  vprintk_loop (S (S (length fmt))) (fmt ++ [0]) ap 0.

(** ** Reference: the text of a format *)

(** The digits of [v], the most significant first, from the power [k] of the
    base on; leading zeros are left out unless [show]. *)
Fixpoint digs (b : Z) (k : nat) (show : bool) (v : Z) : list Z :=
  let d := v / b ^ Z.of_nat k in
  let show := show || (0 <? d) || (k =? 0)%nat in
  (if show then [d] else []) ++
  match k with O => [] | S k' => digs b k' show (v mod b ^ Z.of_nat k) end.

Definition dec_text (v : Z) : list Z := (fun d => ch_0 + d) <$> digs 10 19 false v.
Definition hex_text (show : bool) (v : Z) : list Z := hexdigit <$> digs 16 15 show v.
Definition int_text (v : Z) : list Z := if v <? 0 then ch_minus :: dec_text (- v) else dec_text v.
Definition pad (width : nat) (fill : Z) (txt : list Z) : list Z :=
  replicate (width - length txt) fill ++ txt.

Definition no_zero (l : list Z) : bool := forallb (fun c => negb (c =? 0)) l.

(** The text of a conversion; [None] for a missing or wrong argument, for a
    zero byte and for the number that cannot be negated. *)
Definition conv_text (c : Z) (long : bool) (width : nat) (fill : Z) (ap : list arg)
  : option (list Z * list arg) :=
  if c =? ch_c then
    '(v, ap) ← va_num ap; if wrap 8 v =? 0 then None else Some ([wrap 8 v], ap)
  else if c =? ch_d then
    '(v, ap) ← va_num ap;
    let v := if long then s64 v else s32 v in
    if v =? - 2 ^ 63 then None else Some (pad width fill (int_text v), ap)
  else if c =? ch_p then
    '(v, ap) ← va_num ap; Some ([ch_0; ch_x] ++ hex_text true (u64 v), ap)
  else if c =? ch_s then
    match ap with Str msg :: ap => if no_zero msg then Some (msg, ap) else None | _ => None end
  else if c =? ch_u then
    '(v, ap) ← va_num ap; Some (pad width fill (dec_text (if long then u64 v else wrap 32 v)), ap)
  else if c =? ch_x then
    '(v, ap) ← va_num ap; Some (pad width fill (hex_text false (if long then u64 v else wrap 32 v)), ap)
  else if c =? 0 then None else Some ([ch_percent; c], ap).

Fixpoint render (fuel : nat) (fmt : list Z) (ap : list arg) : option (list Z) :=
  match fuel with
  | O => None
  | S fuel =>
      '(c, fmt) ← next_char fmt;
      if c =? 0 then Some []
      else if c =? ch_percent then
        '(fill, width, long, c, fmt) ← directive fmt;
        '(txt, ap) ← conv_text c long width fill ap;
        rest ← render fuel fmt ap; Some (txt ++ rest)
      else rest ← render fuel fmt ap; Some (c :: rest)
  end.

(** ** Digits *)

Definition horner (b : Z) (ds : list Z) : Z := foldl (fun a d => a * b + d) 0 ds.

Lemma foldl_horner b ds a : foldl (fun a d => a * b + d) a ds = a * b ^ Z.of_nat (length ds) + horner b ds.
Proof.
  unfold horner. revert a. induction ds as [|d ds IH]; intros a; cbn [foldl length]; [simpl; lia|].
  rewrite IH, (IH (0 * b + d)). rewrite Nat2Z.inj_succ, Z.pow_succ_r by lia. lia.
Qed.

Section Digits.
Context (b : Z) (Hb : 2 <= b).

Lemma digs_O show v : digs b 0 show v = [v].
Proof. cbn [digs]. rewrite orb_true_r, Z.div_1_r. done. Qed.

Lemma digs_S k show v :
  digs b (S k) show v =
  let d := v / b ^ Z.of_nat (S k) in
  if show || (0 <? d) then d :: digs b k true (v mod b ^ Z.of_nat (S k))
  else digs b k false (v mod b ^ Z.of_nat (S k)).
Proof. cbn [digs]. rewrite orb_false_r. by destruct (show || _). Qed.

Lemma digit_bound k v : 0 <= v < b ^ Z.of_nat (S k) -> 0 <= v / b ^ Z.of_nat k < b.
Proof.
  intros Hv. rewrite Nat2Z.inj_succ, Z.pow_succ_r in Hv by lia.
  assert (0 < b ^ Z.of_nat k) by (apply Z.pow_pos_nonneg; lia).
  split; [apply Z.div_pos; lia|apply Z.div_lt_upper_bound; lia].
Qed.

Lemma rest_bound k v : 0 <= v mod b ^ Z.of_nat k < b ^ Z.of_nat k.
Proof. apply Z.mod_pos_bound, Z.pow_pos_nonneg; lia. Qed.

Lemma length_digs k show v :
  (1 <= length (digs b k show v) <= S k)%nat /\ (show = true -> length (digs b k show v) = S k).
Proof.
  revert show v. induction k as [|k IH]; intros show v; [rewrite digs_O; simpl; lia|].
  rewrite digs_S. cbv zeta. destruct (show || _) eqn:Hs.
  - cbn [length]. destruct (IH true (v mod b ^ Z.of_nat (S k))) as [_ Hl]. rewrite Hl by done. lia.
  - destruct (IH false (v mod b ^ Z.of_nat (S k))) as [Hl _]. split; [lia|]. intros ->. done.
Qed.

Lemma digs_value k show v : 0 <= v < b ^ Z.of_nat (S k) -> horner b (digs b k show v) = v.
Proof.
  revert show v. induction k as [|k IH]; intros show v Hv; [by rewrite digs_O|].
  rewrite digs_S. cbv zeta. pose proof (rest_bound (S k) v) as Hr.
  pose proof (Z.div_mod v (b ^ Z.of_nat (S k)) ltac:(pose proof (Z.pow_pos_nonneg b (Z.of_nat (S k))); lia)) as Hdm.
  pose proof (digit_bound (S k) v Hv) as Hd.
  destruct (show || _) eqn:Hs.
  - unfold horner. cbn [foldl]. rewrite foldl_horner, IH by done.
    destruct (length_digs k true (v mod b ^ Z.of_nat (S k))) as [_ Hl]. rewrite Hl by done. lia.
  - rewrite IH by done. apply orb_false_iff in Hs as [_ Hs]. b2p. lia.
Qed.

Lemma digs_range k show v : 0 <= v < b ^ Z.of_nat (S k) -> Forall (fun d => 0 <= d < b) (digs b k show v).
Proof.
  revert show v. induction k as [|k IH]; intros show v Hv.
  - rewrite digs_O. constructor; [|constructor]. rewrite Z.pow_1_r in Hv. lia.
  - rewrite digs_S. cbv zeta. pose proof (rest_bound (S k) v) as Hr. pose proof (digit_bound (S k) v Hv).
    destruct (show || _); [constructor; [done|]|]; by apply IH.
Qed.

(** No leading zero, except for the number 0. *)
Lemma digs_canonical k v :
  0 <= v < b ^ Z.of_nat (S k) ->
  digs b k false v = [0] \/ exists d l, digs b k false v = d :: l /\ d <> 0.
Proof.
  revert v. induction k as [|k IH]; intros v Hv.
  - rewrite digs_O. destruct (decide (v = 0)) as [->|]; [by left|right; by eexists _, _].
  - rewrite digs_S. cbv zeta. cbn [orb]. destruct (0 <? _) eqn:Hd; b2p.
    + right. eexists _, _. split; [done|]. lia.
    + apply IH, rest_bound.
Qed.
End Digits.

(** ** The buffer *)

(** The buffer begins with the text. *)
Definition holds (s : console) (txt : list Z) : Prop :=
  length (buf s) = BUF_SIZE /\ take (length txt) (buf s) = txt.

Lemma holds_length s txt : holds s txt -> (length txt <= 128)%nat.
Proof. intros [Hl Ht]. rewrite <- Ht, length_take, Hl. unfold BUF_SIZE. lia. Qed.

Lemma write_end s txt x :
  holds s txt -> (length txt < 128)%nat ->
  exists s', write (length txt) x s = Some (tt, s') /\ holds s' (txt ++ [x]) /\ out s' = out s.
Proof.
  intros [Hl Ht] Hn. unfold write. rewrite Hl. unfold BUF_SIZE in *. rewrite (proj2 (Nat.ltb_lt _ _)) by lia.
  eexists. split; [done|]. split; [|done]. split; simpl; [by rewrite length_insert|].
  rewrite length_app. simpl. rewrite Nat.add_1_r.
  rewrite (take_S_r _ _ x) by (apply list_lookup_insert_eq; lia). f_equal.
  by rewrite take_insert_ge by lia.
Qed.

Lemma holds_nil s : length (buf s) = BUF_SIZE -> holds s [].
Proof. by split. Qed.

Ltac put H := let s' := fresh "s" in let Hw := fresh "Hw" in let Hh := fresh "Hh" in let Ho := fresh "Ho" in
  destruct H as (s' & Hw & Hh & Ho).

(** *** Numbers *)

Lemma u64_rest v b k : 2 <= b -> 0 <= v < 2 ^ 64 ->
  u64 (v - u64 (v / b ^ Z.of_nat k * b ^ Z.of_nat k)) = v mod b ^ Z.of_nat k.
Proof.
  intros Hb Hv. assert (0 < b ^ Z.of_nat k) by (apply Z.pow_pos_nonneg; lia).
  pose proof (Z.div_mod v (b ^ Z.of_nat k) ltac:(lia)). pose proof (Z.mod_pos_bound v (b ^ Z.of_nat k) ltac:(lia)).
  assert (0 <= v / b ^ Z.of_nat k) by (apply Z.div_pos; lia).
  assert (0 <= v / b ^ Z.of_nat k * b ^ Z.of_nat k) by nia.
  rewrite (u64_small (v / _ * _)), u64_small by lia. lia.
Qed.

(** The two loops, which differ in the base, in the digits and in the mask;
    [all] is set where the mask asks for leading zeros. *)
Definition below (b : Z) (k : nat) : Z := match k with O => 0 | S k => b ^ Z.of_nat k end.

Section Loops.
Context (b : Z) (f : Z -> Z) (all : bool) (loop : nat -> Z -> Z -> bool -> nat -> CON nat) (K : nat).
Context (Hb : 2 <= b) (HK : b ^ Z.of_nat K < 2 ^ 64).
Context (loop_end : forall n v first p, loop n v 0 first p = mret p).
Context (loop_step : forall n k v first p, (k <= K)%nat -> 0 <= v < 2 ^ 64 ->
  loop (S n) v (b ^ Z.of_nat k) first p =
  if negb first || all || (0 <? v / b ^ Z.of_nat k) || (k =? 0)%nat then
    _ ← write p (f (v / b ^ Z.of_nat k)); loop n (v mod b ^ Z.of_nat k) (below b k) false (S p)
  else loop n (v mod b ^ Z.of_nat k) (below b k) first p).

Lemma loop_run k v first txt s :
  (k <= K)%nat -> 0 <= v < 2 ^ 64 -> v < b ^ Z.of_nat (S k) ->
  holds s txt -> (length txt + S k <= 128)%nat ->
  let ds := f <$> digs b k (negb first || all) v in
  exists s', loop (S k) v (b ^ Z.of_nat k) first (length txt) s = Some (length (txt ++ ds), s') /\
    holds s' (txt ++ ds) /\ out s' = out s.
Proof.
  revert v first txt s. induction k as [|k IH]; intros v first txt s Hk Hv Hlt Hh Hlen ds; rewrite loop_step by done.
  - unfold ds. rewrite digs_O, orb_true_r, Z.div_1_r by lia. cbn [below].
    destruct (write_end s txt (f v) Hh ltac:(lia)) as (s1 & Hw & Hh1 & Ho1).
    exists s1. erewrite bind_run by exact Hw. rewrite loop_end. cbn. by rewrite length_app, Nat.add_1_r.
  - unfold ds. rewrite digs_S by lia. cbv zeta. rewrite orb_false_r. cbn [below].
    pose proof (rest_bound b Hb (S k) v) as Hr.
    assert (b ^ Z.of_nat (S k) <= b ^ Z.of_nat K) by (apply Z.pow_le_mono_r; lia).
    destruct (negb first || all || _) eqn:Hs.
    + destruct (write_end s txt (f (v / b ^ Z.of_nat (S k))) Hh ltac:(lia)) as (s1 & Hw & Hh1 & Ho1).
      erewrite bind_run by exact Hw. rewrite fmap_cons, (cons_middle _ txt), app_assoc.
      replace (S (length txt)) with (length (txt ++ [f (v / b ^ Z.of_nat (S k))]))
        by (rewrite length_app; simpl; lia).
      destruct (IH (v mod b ^ Z.of_nat (S k)) false _ s1 ltac:(lia) ltac:(lia) ltac:(lia) Hh1) as (s2 & ? & ? & ?);
        [rewrite length_app; simpl; lia|].
      exists s2. split_and!; [done|done|congruence].
    + apply orb_false_iff in Hs as [Hs _]. rewrite <- Hs. apply IH; [lia|lia|lia|done|lia].
Qed.
End Loops.

Lemma uint2str_run v txt s :
  0 <= v < 2 ^ 64 -> holds s txt -> (length txt + 20 <= 128)%nat ->
  exists s', uint2str v (length txt) s = Some (length (txt ++ dec_text v), s') /\
    holds s' (txt ++ dec_text v) /\ out s' = out s.
Proof.
  intros Hv Hh Hlen. unfold uint2str, dec_text. change 10000000000000000000 with (10 ^ Z.of_nat 19).
  apply (loop_run 10 (fun d => ch_0 + d) false uint2str_loop 19); [lia|done| | |lia|done|lia|done|lia].
  - by intros [|n].
  - intros n k w first p Hk Hw. cbn [uint2str_loop].
    assert (Hp : 0 < 10 ^ Z.of_nat k) by (apply Z.pow_pos_nonneg; lia).
    rewrite (proj2 (Z.ltb_lt _ _) Hp). cbv zeta. rewrite u64_rest by lia. rewrite orb_false_r.
    replace (10 ^ Z.of_nat k / 10) with (below 10 k).
    2: { destruct k; [done|]. cbn [below]. rewrite Nat2Z.inj_succ, Z.pow_succ_r, Z.mul_comm, Z.div_mul by lia. done. }
    replace (10 ^ Z.of_nat k =? 1) with (k =? 0)%nat; [done|].
    destruct k; [done|]. rewrite Nat2Z.inj_succ, Z.pow_succ_r by lia.
    assert (0 < 10 ^ Z.of_nat k) by (apply Z.pow_pos_nonneg; lia).
    symmetry. apply Z.eqb_neq. lia.
Qed.

Lemma hex2str_run v txt s (all : bool) :
  0 <= v < 2 ^ 64 -> holds s txt -> (length txt + 16 <= 128)%nat ->
  exists s', hex2str v (length txt) (if all then u64 (-1) else 0) s = Some (length (txt ++ hex_text all v), s') /\
    holds s' (txt ++ hex_text all v) /\ out s' = out s.
Proof.
  intros Hv Hh Hlen. unfold hex2str, hex_text. change (2 ^ 60) with (16 ^ Z.of_nat 15).
  apply (loop_run 16 hexdigit all (fun n v d => hex2str_loop n v d (if all then u64 (-1) else 0)) 15);
    [lia|done| | |lia|done|lia|done|lia].
  - by intros [|n].
  - intros n k w first p Hk Hw. cbn [hex2str_loop].
    assert (Hp : 0 < 16 ^ Z.of_nat k) by (apply Z.pow_pos_nonneg; lia).
    rewrite (proj2 (Z.ltb_lt _ _) Hp). cbv zeta. rewrite u64_rest by lia.
    replace (Z.shiftr (16 ^ Z.of_nat k) 4) with (below 16 k).
    2: { rewrite Z.shiftr_div_pow2 by lia. destruct k; [done|]. cbn [below].
         rewrite Nat2Z.inj_succ, Z.pow_succ_r, Z.mul_comm by lia. symmetry. by apply Z.div_mul. }
    replace (Z.land (16 ^ Z.of_nat k) (if all then u64 (-1) else 0) =? 0) with (negb all).
    2: { destruct all; [|by rewrite Z.land_0_r].
         change (u64 (-1)) with (Z.ones 64). rewrite Z.land_ones by lia. rewrite Z.mod_small.
         - symmetry. apply Z.eqb_neq. lia.
         - split; [lia|]. apply Z.le_lt_trans with (16 ^ Z.of_nat 15); [apply Z.pow_le_mono_r; lia|done]. }
    replace (16 ^ Z.of_nat k =? 1) with (k =? 0)%nat.
    2: { destruct k; [done|]. rewrite Nat2Z.inj_succ, Z.pow_succ_r by lia.
         assert (0 < 16 ^ Z.of_nat k) by (apply Z.pow_pos_nonneg; lia). symmetry. apply Z.eqb_neq. lia. }
    rewrite negb_involutive. destruct (negb first), all, (0 <? _), (k =? 0)%nat; done.
Qed.

(** *** Alignment *)

Lemma holds_lookup s txt :
  length (buf s) = BUF_SIZE -> (length txt <= 128)%nat ->
  (forall i, (i < length txt)%nat -> buf s !! i = txt !! i) <-> holds s txt.
Proof.
  intros Hl Hn. unfold BUF_SIZE in *. split.
  - intros H. split; [done|]. apply list_eq. intros i. rewrite lookup_take. case_decide; [by apply H|].
    symmetry. apply lookup_ge_None. lia.
  - intros [_ <-] i Hi. rewrite length_take in Hi. rewrite lookup_take, decide_True by lia. done.
Qed.

Lemma write_run i x s :
  length (buf s) = BUF_SIZE -> (i < 128)%nat ->
  write i x s = Some (tt, mk_console (<[i := x]> (buf s)) (out s)).
Proof. intros Hl Hi. unfold write. rewrite Hl. unfold BUF_SIZE. by rewrite (proj2 (Nat.ltb_lt _ _)) by lia. Qed.

Lemma align_loop_run ds width k n s :
  (k + n = S (length ds))%nat -> (1 <= n)%nat -> (length ds < width <= 128)%nat -> length (buf s) = BUF_SIZE ->
  (forall i, (i < k)%nat -> buf s !! i = ds !! i) ->
  (forall i, (k <= i < length ds)%nat -> buf s !! (width - length ds + i)%nat = ds !! i) ->
  exists s', align_loop k n (length ds) 0 width s = Some (tt, s') /\ out s' = out s /\
    length (buf s') = BUF_SIZE /\
    forall i, (i < length ds)%nat -> buf s' !! (width - length ds + i)%nat = ds !! i.
Proof.
  revert n s. induction k as [|k IH]; intros n s Hkn Hn Hw Hl Hlo Hhi; cbn [align_loop].
  { exists s. split_and!; [done|done|done|]. intros i Hi. apply Hhi. lia. }
  destruct (lookup_lt_is_Some_2 ds k) as [x Hx]; [lia|].
  erewrite bind_run.
  2: { unfold read, from_option. replace (length ds - n)%nat with k by lia. rewrite Hlo, Hx by lia. done. }
  cbv beta. erewrite bind_run by (apply write_run; [done|lia]). cbv beta.
  destruct (IH (S n) (mk_console (<[(0 + width - n)%nat := x]> (buf s)) (out s)))
    as (s' & Hr & Ho & Hl' & Hs); [lia|lia|lia|by cbn; rewrite length_insert| | |].
  - intros i Hi. cbn. rewrite list_lookup_insert_ne by lia. apply Hlo. lia.
  - intros i Hi. cbn. destruct (decide (i = k)) as [->|].
    + rewrite Hx. replace (width - length ds + k)%nat with (0 + width - n)%nat by lia.
      apply list_lookup_insert_eq. rewrite Hl. unfold BUF_SIZE. lia.
    + rewrite list_lookup_insert_ne by lia. apply Hhi. lia.
  - by exists s'.
Qed.

Lemma memset_run p x n s :
  (p + n <= 128)%nat -> length (buf s) = BUF_SIZE ->
  exists s', memset p x n s = Some (tt, s') /\ out s' = out s /\ length (buf s') = BUF_SIZE /\
    forall i, buf s' !! i = if decide (p <= i < p + n)%nat then Some x else buf s !! i.
Proof.
  revert p s. induction n as [|n IH]; intros p s Hp Hl; cbn [memset].
  { exists s. split_and!; [done|done|done|]. intros i. by rewrite decide_False by lia. }
  erewrite bind_run by (apply write_run; [done|lia]). cbv beta.
  destruct (IH (S p) (mk_console (<[p := x]> (buf s)) (out s))) as (s' & Hr & Ho & Hl' & Hs);
    [lia|by cbn; rewrite length_insert|].
  exists s'. split_and!; [done|done|done|]. intros i. rewrite Hs. cbn.
  destruct (decide (i = p)) as [->|].
  - case_decide; [lia|]. case_decide; [|lia]. apply list_lookup_insert_eq. rewrite Hl. unfold BUF_SIZE. lia.
  - rewrite list_lookup_insert_ne by lia. case_decide; case_decide; (lia || done).
Qed.

Lemma align_run ds width fill s :
  (width <= 127)%nat -> holds s ds ->
  exists s', align (length ds) 0 width fill s = Some (length (pad width fill ds), s') /\
    holds s' (pad width fill ds) /\ out s' = out s.
Proof.
  intros Hw Hh. pose proof (holds_length _ _ Hh) as Hn. destruct (Hh) as [Hl _].
  unfold align, pad. rewrite Nat.sub_0_r. destruct (Nat.leb_spec width (length ds)) as [Hle|Hgt].
  { exists s. replace (width - length ds)%nat with 0%nat by lia. done. }
  destruct (align_loop_run ds width (length ds) 1 s) as (s1 & Hr1 & Ho1 & Hl1 & H1); [lia|lia|lia|done| |lia|].
  { by apply holds_lookup. }
  destruct (memset_run 0 fill (width - length ds) s1) as (s2 & Hr2 & Ho2 & Hl2 & H2); [lia|done|].
  exists s2. erewrite bind_run by exact Hr1. cbv beta. erewrite bind_run by exact Hr2. cbv beta.
  rewrite length_app, length_replicate. split_and!; [|apply holds_lookup; [done| |]|congruence].
  - unfold mret, st_ret. do 2 f_equal. lia.
  - rewrite length_app, length_replicate. lia.
  - intros i. rewrite length_app, length_replicate. intros Hi. rewrite H2. case_decide as Hd.
    + rewrite lookup_app_l by (rewrite length_replicate; lia). symmetry. apply lookup_replicate. by split; [|lia].
    + rewrite lookup_app_r, length_replicate by (rewrite length_replicate; lia).
      rewrite <- H1 by lia. f_equal. lia.
Qed.

(** *** Pieces *)

Lemma no_zero_app l l' : no_zero (l ++ l') = no_zero l && no_zero l'.
Proof. apply forallb_app. Qed.

Lemma no_zero_pos l : Forall (fun c => 0 < c) l -> no_zero l = true.
Proof. induction 1 as [|c l Hc _ IH]; [done|]. cbn. fold (no_zero l). rewrite IH, andb_true_r. apply negb_true_iff. lia. Qed.

Lemma c_string_run l rest : no_zero l = true -> c_string (l ++ 0 :: rest) = Some l.
Proof.
  induction l as [|c l IH]; [done|]. cbn. fold (no_zero l). intros [Hc Hl]%andb_true_iff.
  apply negb_true_iff in Hc. rewrite Hc, IH by done. done.
Qed.

Lemma flush_run s pend :
  holds s pend -> no_zero pend = true -> (length pend <= 127)%nat ->
  exists s', flush (length pend) s = Some (tt, s') /\ holds s' [] /\ out s' = out s ++ pend.
Proof.
  intros Hh Hz Hn. destruct (write_end s pend 0 Hh ltac:(lia)) as (s1 & Hw & [Hl Ht] & Ho).
  assert (Hb : buf s1 = pend ++ 0 :: drop (length (pend ++ [0])) (buf s1)).
  { rewrite <- (take_drop (length (pend ++ [0])) (buf s1)) at 1. by rewrite Ht, <- app_assoc. }
  unfold flush. erewrite bind_run by exact Hw. cbv beta. unfold console_write_buf.
  assert (c_string (buf s1) = Some pend) as -> by (rewrite Hb; by apply c_string_run). eexists. split; [done|]. cbn. by rewrite Ho.
Qed.

(** *** Texts *)

Lemma dec_text_ok v :
  0 <= v < 2 ^ 64 -> no_zero (dec_text v) = true /\ (length (dec_text v) <= 20)%nat.
Proof.
  intros Hv. unfold dec_text. rewrite length_fmap. split; [|apply length_digs; lia].
  apply no_zero_pos, Forall_fmap. eapply Forall_impl; [apply digs_range; [lia|]|].
  - split; [lia|]. apply Z.lt_trans with (2 ^ 64); [lia|done].
  - cbn. unfold ch_0. lia.
Qed.

Lemma hex_text_ok show v :
  0 <= v < 2 ^ 64 -> no_zero (hex_text show v) = true /\ (length (hex_text show v) <= 16)%nat.
Proof.
  intros Hv. unfold hex_text. rewrite length_fmap. split; [|apply length_digs; lia].
  apply no_zero_pos, Forall_fmap. eapply Forall_impl; [apply digs_range; [lia|by cbn]|].
  intros d Hd. cbn in Hd |- *. unfold hexdigit, ch_0, ch_a. destruct (d <? 10) eqn:?; lia.
Qed.

Lemma int_text_ok v :
  - 2 ^ 63 < v < 2 ^ 63 -> no_zero (int_text v) = true /\ (length (int_text v) <= 21)%nat.
Proof.
  intros Hv. unfold int_text. destruct (Z.ltb_spec v 0).
  - destruct (dec_text_ok (- v)) as [Hz Hl]; [lia|]. split; [exact Hz|cbn [length]; lia].
  - destruct (dec_text_ok v) as [Hz Hl]; [lia|]. split; [done|lia].
Qed.

Lemma pad_ok width fill txt :
  fill = ch_0 \/ fill = ch_space -> no_zero txt = true -> (width <= 126)%nat -> (length txt <= 126)%nat ->
  no_zero (pad width fill txt) = true /\ (length (pad width fill txt) <= 126)%nat.
Proof.
  intros Hf Hz Hw Hl. unfold pad. rewrite no_zero_app, Hz, andb_true_r, length_app, length_replicate. split; [|lia].
  apply no_zero_pos, Forall_replicate. by destruct Hf as [-> | ->].
Qed.

Lemma wrap_range w x : 0 <= w -> 0 <= wrap w x < 2 ^ w.
Proof. intros. apply Z.mod_pos_bound, Z.pow_pos_nonneg; lia. Qed.

Lemma s64_range x : - 2 ^ 63 <= s64 x < 2 ^ 63.
Proof.
  pose proof (wrap_range 64 x ltac:(lia)) as H. unfold s64. fold (u64 x) in H.
  destruct (Z.ltb_spec (u64 x) (2 ^ 63)); lia.
Qed.

Lemma s32_range x : - 2 ^ 31 <= s32 x < 2 ^ 31.
Proof.
  pose proof (wrap_range 32 x ltac:(lia)) as H. unfold s32. cbv zeta.
  destruct (Z.ltb_spec (wrap 32 x) (2 ^ 31)); lia.
Qed.

(** The detour over an unsigned variable changes nothing. *)
Lemma s64_u64 v : - 2 ^ 63 <= v < 2 ^ 63 -> s64 (u64 v) = v.
Proof.
  intros Hv. unfold s64, u64, wrap. rewrite Zmod_mod.
  destruct (decide (0 <= v)); [rewrite Z.mod_small by lia|].
  - rewrite (proj2 (Z.ltb_lt _ _)); lia.
  - rewrite <- (Z.mod_add v 1), Z.mod_small by lia. rewrite (proj2 (Z.ltb_ge _ _)); lia.
Qed.

Lemma int2str_run v s :
  - 2 ^ 63 < v < 2 ^ 63 -> holds s [] ->
  exists s', int2str v 0 s = Some (length (int_text v), s') /\ holds s' (int_text v) /\ out s' = out s.
Proof.
  intros Hv Hh. unfold int2str, int_text. destruct (Z.ltb_spec v 0).
  - rewrite (proj2 (Z.eqb_neq _ _)) by lia.
    destruct (write_end s [] ch_minus Hh) as (s1 & Hw & Hh1 & Ho1); [cbn; lia|].
    erewrite bind_run by exact Hw. cbv beta. rewrite u64_small by lia.
    destruct (uint2str_run (- v) [ch_minus] s1) as (s2 & ? & ? & ?); [lia|done|cbn; lia|].
    exists s2. split_and!; [done|done|congruence].
  - rewrite u64_small by lia. apply (uint2str_run v []); [lia|done|cbn; lia].
Qed.

(** *** The width *)

Lemma width_loop_bound fuel c fmt w c' fmt' w' :
  0 <= w < 127 -> width_loop fuel c fmt w = Some (c', fmt', w') -> 0 <= w' < 127.
Proof.
  revert c fmt w. induction fuel as [|fuel IH]; intros c fmt w Hw; cbn [width_loop];
    (destruct (is_digit c); [|by intros [= _ _ <-]]); [done|].
  destruct (next_char fmt) as [[c1 fmt1]|]; [|done]. cbn [mbind option_bind]. apply IH.
  pose proof (wrap_range 32 (w * 10 + c - ch_0) ltac:(lia)). fold (u32 (w * 10 + c - ch_0)) in H.
  destruct (127 <=? _) eqn:?; lia.
Qed.

Lemma directive_bound fmt fill width long c fmt' :
  directive fmt = Some (fill, width, long, c, fmt') ->
  (fill = ch_0 \/ fill = ch_space) /\ (width <= 126)%nat.
Proof.
  unfold directive. destruct (next_char fmt) as [[c0 fmt0]|]; [|done]. cbn [mbind option_bind].
  destruct (width_loop _ c0 fmt0 0) as [[[c1 fmt1] w]|] eqn:Hw; [|done]. cbn [mbind option_bind].
  destruct (length_modifier c1 fmt1) as [[[l c2] fmt2]|]; [|done]. cbn [mbind option_bind].
  intros [= <- <- _ _ _]. apply width_loop_bound in Hw; [|lia]. split; [|lia].
  destruct (c0 =? ch_0); auto.
Qed.

(** *** Conversions *)

(** A conversion prints one part of its text at once and leaves the rest in
    the buffer. *)
Definition converted (r : option (nat * list arg * console)) (s : console) (txt : list Z) (ap : list arg) : Prop :=
  exists now pend s', r = Some (length pend, ap, s') /\ holds s' pend /\ out s' = out s ++ now /\
    now ++ pend = txt /\ no_zero pend = true /\ (length pend <= 126)%nat.

Lemma converted_pending s s' txt ap r :
  r = Some (length txt, ap, s') -> holds s' txt -> out s' = out s -> no_zero txt = true -> (length txt <= 126)%nat ->
  converted r s txt ap.
Proof. intros -> Hh Ho Hz Hl. exists [], txt, s'. by rewrite app_nil_r. Qed.

(** The end of the three numeric conversions. *)
Lemma aligned_run width fill txt s1 s ap :
  fill = ch_0 \/ fill = ch_space -> (width <= 126)%nat ->
  holds s1 txt -> out s1 = out s -> no_zero txt = true -> (length txt <= 126)%nat ->
  converted ((p ← align (length txt) 0 width fill; mret (p, ap)) s1) s (pad width fill txt) ap.
Proof.
  intros Hf Hw Hh Ho Hz Hl. destruct (align_run txt width fill s1) as (s2 & Hr & Hh2 & Ho2); [lia|done|].
  erewrite bind_run by exact Hr. destruct (pad_ok width fill txt) as [Hz' Hl']; [done..|].
  eapply converted_pending; [done|done|congruence|done|done].
Qed.

Lemma num_run {B} v ap (f : Z * list arg -> CON B) s : (x ← pure (va_num (Num v :: ap)); f x) s = f (v, ap) s.
Proof. done. Qed.

Lemma convert_run c long width fill ap txt ap' s :
  fill = ch_0 \/ fill = ch_space -> (width <= 126)%nat ->
  holds s [] -> conv_text c long width fill ap = Some (txt, ap') ->
  converted (convert c long width fill 0 ap s) s txt ap'.
Proof.
  intros Hf Hw Hh Ht. unfold conv_text in Ht. unfold convert. destruct (c =? ch_c).
  { destruct ap as [|[v|] ap]; [done| |done]. cbn [va_num mbind option_bind] in Ht.
    destruct (wrap 8 v =? 0) eqn:Hz; [done|]. injection Ht as <- <-. rewrite num_run.
    destruct (write_end s [] (wrap 8 v) Hh) as (s1 & Hr & Hh1 & Ho); [cbn; lia|].
    erewrite bind_run by exact Hr. eapply converted_pending; [done|done|done| |cbn; lia]. cbn. by rewrite Hz. }
  destruct (c =? ch_d).
  { destruct ap as [|[v|] ap]; [done| |done]. cbn [va_num mbind option_bind] in Ht. cbv zeta in Ht.
    set (w := if long then s64 v else s32 v) in Ht. destruct (w =? - 2 ^ 63) eqn:Hz; [done|]. injection Ht as <- <-.
    rewrite num_run. pose proof (s64_range v). pose proof (s32_range v).
    assert (Hr : - 2 ^ 63 < w < 2 ^ 63) by (subst w; destruct long; lia).
    cbv zeta. fold w. rewrite s64_u64 by lia.
    destruct (int2str_run w s) as (s1 & Hr1 & Hh1 & Ho); [done|done|]. erewrite bind_run by exact Hr1.
    destruct (int_text_ok w Hr). apply aligned_run; (done || lia). }
  destruct (c =? ch_p).
  { destruct ap as [|[v|] ap]; [done| |done]. cbn [va_num mbind option_bind] in Ht. injection Ht as <- <-.
    pose proof (wrap_range 64 v ltac:(lia)) as Hv. fold (u64 v) in Hv.
    destruct (write_end s [] ch_0 Hh) as (s1 & Hr1 & Hh1 & Ho1); [cbn; lia|]. erewrite bind_run by exact Hr1.
    destruct (write_end s1 [ch_0] ch_x Hh1) as (s2 & Hr2 & Hh2 & Ho2); [cbn; lia|]. erewrite bind_run by exact Hr2.
    rewrite num_run. destruct (hex2str_run (u64 v) [ch_0; ch_x] s2 true) as (s3 & Hr3 & Hh3 & Ho3); [done|done|cbn; lia|].
    erewrite bind_run by exact Hr3. destruct (hex_text_ok true (u64 v) Hv) as [Hz Hl].
    eapply converted_pending; [done|done|congruence|exact Hz|cbn [length app]; lia]. }
  destruct (c =? ch_s).
  { destruct ap as [|[|msg] ap]; [done|done|]. destruct (no_zero msg); [|done]. injection Ht as <- <-.
    eexists msg, [], _. split; [done|]. split; [by destruct Hh|]. rewrite app_nil_r. split_and!; [done..|cbn; lia]. }
  destruct (c =? ch_u) eqn:Hu; cbn [orb].
  { destruct ap as [|[v|] ap]; [done| |done]. cbn [va_num mbind option_bind] in Ht. injection Ht as <- <-. rewrite num_run.
    cbv zeta. set (w := if long then u64 v else wrap 32 v).
    assert (Hv : 0 <= w < 2 ^ 64) by (subst w; pose proof (wrap_range 64 v); pose proof (wrap_range 32 v); unfold u64; destruct long; lia).
    destruct (uint2str_run w [] s) as (s1 & Hr1 & Hh1 & Ho); [done|done|cbn; lia|]. erewrite bind_run by exact Hr1.
    destruct (dec_text_ok w Hv). apply aligned_run; (done || lia). }
  destruct (c =? ch_x).
  { destruct ap as [|[v|] ap]; [done| |done]. cbn [va_num mbind option_bind] in Ht. injection Ht as <- <-. rewrite num_run.
    cbv zeta. set (w := if long then u64 v else wrap 32 v).
    assert (Hv : 0 <= w < 2 ^ 64) by (subst w; pose proof (wrap_range 64 v); pose proof (wrap_range 32 v); unfold u64; destruct long; lia).
    destruct (hex2str_run w [] s false) as (s1 & Hr1 & Hh1 & Ho); [done|done|cbn; lia|]. erewrite bind_run by exact Hr1.
    destruct (hex_text_ok false w Hv). apply aligned_run; (done || lia). }
  destruct (c =? 0) eqn:Hc; [done|]. injection Ht as <- <-.
  destruct (write_end s [] ch_percent Hh) as (s1 & Hr1 & Hh1 & Ho1); [cbn; lia|]. erewrite bind_run by exact Hr1.
  destruct (write_end s1 [ch_percent] c Hh1) as (s2 & Hr2 & Hh2 & Ho2); [cbn; lia|]. erewrite bind_run by exact Hr2.
  eapply converted_pending; [done|done|congruence| |cbn; lia]. cbn. by rewrite Hc.
Qed.

(** ** The loop *)

Lemma vprintk_loop_run fuel fmt ap pend txt s :
  render fuel fmt ap = Some txt -> holds s pend -> no_zero pend = true -> (length pend <= 126)%nat ->
  exists s', vprintk_loop fuel fmt ap (length pend) s = Some (tt, s') /\ holds s' [] /\ out s' = out s ++ pend ++ txt.
Proof.
  revert fmt ap pend txt s. induction fuel as [|fuel IH]; intros fmt ap pend txt s Ht Hh Hz Hl; [done|].
  cbn [render] in Ht. cbn [vprintk_loop]. destruct fmt as [|c fmt]; [done|]. cbn [next_char mbind option_bind] in Ht.
  erewrite bind_run by reflexivity. cbv beta iota. destruct (c =? 0) eqn:Hc.
  { injection Ht as <-. destruct (flush_run s pend) as (s1 & ? & ? & ?); [done|done|lia|].
    exists s1. by rewrite app_nil_r. }
  (* a piece of text, the characters left over in the buffer and the test for a full buffer *)
  assert (Hrest : forall fmt ap now pend' rest s1,
    render fuel fmt ap = Some rest -> holds s1 pend' -> no_zero pend' = true -> (length pend' <= 127)%nat ->
    out s1 = out s ++ now -> now ++ pend' ++ rest = pend ++ txt ->
    exists s', (if (127 <=? length pend')%nat then _ ← flush (length pend'); vprintk_loop fuel fmt ap 0
                else vprintk_loop fuel fmt ap (length pend')) s1 = Some (tt, s') /\
      holds s' [] /\ out s' = out s ++ pend ++ txt).
  { intros f a now pend' rest s1 Hr Hh1 Hz1 Hl1 Ho1 <-. destruct (Nat.leb_spec 127 (length pend')).
    - destruct (flush_run s1 pend') as (s2 & Hr2 & Hh2 & Ho2); [done..|]. erewrite bind_run by exact Hr2.
      destruct (IH f a [] rest s2) as (s3 & ? & ? & Ho3); [done..|cbn; lia|].
      exists s3. split_and!; [done|done|]. by rewrite Ho3, Ho2, Ho1, <- !app_assoc.
    - destruct (IH f a pend' rest s1) as (s3 & ? & ? & Ho3); [done..|lia|].
      exists s3. split_and!; [done|done|]. by rewrite Ho3, Ho1, <- !app_assoc. }
  destruct (c =? ch_percent).
  - destruct (directive fmt) as [[[[[fill width] long] c1] fmt1]|] eqn:Hd; [|done].
    cbn [mbind option_bind] in Ht. destruct (conv_text c1 long width fill ap) as [[t1 ap1]|] eqn:Hct; [|done].
    cbn [mbind option_bind] in Ht. destruct (render fuel fmt1 ap1) as [rest|] eqn:Hrd; [|done]. injection Ht as <-.
    destruct (directive_bound _ _ _ _ _ _ Hd) as [Hf Hw].
    destruct (flush_run s pend) as (s1 & Hr1 & Hh1 & Ho1); [done|done|lia|].
    destruct (convert_run c1 long width fill ap t1 ap1 s1 Hf Hw Hh1 Hct) as (now & pend' & s2 & Hr2 & Hh2 & Ho2 & <- & Hz2 & Hl2).
    erewrite bind_run.
    2: { erewrite bind_run by exact Hr1. cbv beta. erewrite bind_run by reflexivity. cbv beta iota.
         erewrite bind_run by exact Hr2. reflexivity. }
    cbv beta iota. eapply (Hrest fmt1 ap1 (pend ++ now)); [done|done|done|lia| |by rewrite <- !app_assoc].
    by rewrite Ho2, Ho1, <- app_assoc.
  - destruct (render fuel fmt ap) as [rest|] eqn:Hrd; [|done]. injection Ht as <-.
    destruct (write_end s pend c Hh) as (s1 & Hr1 & Hh1 & Ho1); [lia|].
    erewrite bind_run by (erewrite bind_run by exact Hr1; reflexivity). cbv beta iota.
    replace (S (length pend)) with (length (pend ++ [c])) by (rewrite length_app; cbn; lia).
    apply (Hrest fmt ap [] _ rest); [done|done| |rewrite length_app; cbn; lia|by rewrite app_nil_r|by rewrite <- app_assoc].
    rewrite no_zero_app, Hz. cbn. by rewrite Hc.
Qed.

Definition text (fmt : list Z) (ap : list arg) : option (list Z) := render (S (length fmt)) (fmt ++ [0]) ap.

Lemma render_mono fuel fmt ap txt : render fuel fmt ap = Some txt -> render (S fuel) fmt ap = Some txt.
Proof.
  revert fmt ap txt. induction fuel as [|fuel IH]; intros fmt ap txt; [done|]. remember (S fuel) as fuel1.
  cbn [render]. rewrite Heqfuel1 at 1. cbn [render]. destruct (next_char fmt) as [[c fmt1]|]; [|done].
  cbn [mbind option_bind]. destruct (c =? 0); [done|]. destruct (c =? ch_percent).
  - destruct (directive fmt1) as [[[[[fill width] long] c1] fmt2]|]; [|done]. cbn [mbind option_bind].
    destruct (conv_text c1 long width fill ap) as [[t1 ap1]|]; [|done]. cbn [mbind option_bind].
    destruct (render fuel fmt2 ap1) as [rest|] eqn:Hr; [|done]. by rewrite (IH _ _ _ Hr).
  - destruct (render fuel fmt1 ap) as [rest|] eqn:Hr; [|done]. by rewrite (IH _ _ _ Hr).
Qed.

(** C24: formatted output stays inside of its buffer and prints the right text:
    whenever the format and its arguments have a text, [__vprintk] ends without
    a write behind its 128 bytes, reading or writing nothing out of bounds, and
    the pieces it hands to the console add up to that text, however they are
    cut. *)
Theorem vprintk_prints fmt ap txt s :
  text fmt ap = Some txt -> length (buf s) = BUF_SIZE ->
  exists s', vprintk fmt ap s = Some (tt, s') /\ length (buf s') = BUF_SIZE /\ out s' = out s ++ txt.
Proof.
  intros Ht Hl. destruct (vprintk_loop_run _ (fmt ++ [0]) ap [] txt s (render_mono _ _ _ _ Ht)) as (s' & ? & [Hb _] & ?);
    [by apply holds_nil|done|cbn; lia|].
  by exists s'.
Qed.

(** a number that is printed can be read back: the buffer holds the decimal
    digits of the number, at most twenty, without a zero in front unless the
    number is 0. *)
Theorem uint2str_reads_back v s :
  0 <= v < 2 ^ 64 -> length (buf s) = BUF_SIZE ->
  exists ds s', uint2str v 0 s = Some (length ds, s') /\
    take (length ds) (buf s') = (fun d => ch_0 + d) <$> ds /\ horner 10 ds = v /\
    Forall (fun d => 0 <= d < 10) ds /\ (1 <= length ds <= 20)%nat /\
    (ds = [0] \/ exists d l, ds = d :: l /\ d <> 0).
Proof.
  intros Hv Hl. destruct (uint2str_run v [] s) as (s' & Hr & [_ Ht] & _); [done|by apply holds_nil|cbn; lia|].
  assert (Hlt : 0 <= v < 10 ^ Z.of_nat 20) by (split; [lia|]; apply Z.lt_trans with (2 ^ 64); [lia|done]).
  exists (digs 10 19 false v), s'. cbn [app] in Hr, Ht. unfold dec_text in Hr, Ht. rewrite length_fmap in Hr, Ht.
  split_and!; [done|done|by apply digs_value|by apply digs_range| |..].
  1, 2: apply length_digs; lia. by apply digs_canonical.
Qed.

(** ** Concrete prints *)

Definition empty : console := mk_console (replicate BUF_SIZE 0) [].
Definition chars (s : String.string) : list Z :=
  (fun a => Z.of_N (Ascii.N_of_ascii a)) <$> String.list_ascii_of_string s.
Arguments chars s%_string.
Definition printed (fmt : String.string) (ap : list arg) : option (list Z) :=
  (fun r => out (snd r)) <$> vprintk (chars fmt) ap empty.
Arguments printed fmt%_string ap.

Lemma vprintk_prints_witness :
  exists s', vprintk (chars "cell %s: %d/%04x%%") [Str (chars "root"); Num (-7); Num 171] empty = Some (tt, s') /\
    length (buf s') = BUF_SIZE /\ out s' = [] ++ chars "cell root: -7/00ab%%".
Proof. apply (vprintk_prints _ _ _ empty); vm_compute; reflexivity. Defined.

Lemma uint2str_reads_back_witness :
  exists ds s', uint2str (2 ^ 64 - 1) 0 empty = Some (length ds, s') /\
    take (length ds) (buf s') = (fun d => ch_0 + d) <$> ds /\ horner 10 ds = 2 ^ 64 - 1 /\
    Forall (fun d => 0 <= d < 10) ds /\ (1 <= length ds <= 20)%nat /\
    (ds = [0] \/ exists d l, ds = d :: l /\ d <> 0).
Proof. apply (uint2str_reads_back (2 ^ 64 - 1) empty); [split; [lia|reflexivity]|reflexivity]. Defined.

Example print_numbers :
  printed "%u %x %p %c %lld" [Num (-1); Num 0; Num 4096; Num 65; Num (-5)] =
  Some (chars "4294967295 0 0x0000000000001000 A -5").
Proof. vm_compute. reflexivity. Qed.

(** The sign is taken for a digit when zeros are filled in. *)
Example print_negative_filled : printed "%05d" [Num (-42)] = Some (chars "00-42").
Proof. vm_compute. reflexivity. Qed.

(** A percent sign at the end makes the loop read behind the format. *)
Example print_percent_last : printed "100%" [] = None.
Proof. vm_compute. reflexivity. Qed.

(** The least number cannot be negated. *)
Example print_least : printed "%ld" [Num (- 2 ^ 63)] = None.
Proof. vm_compute. reflexivity. Qed.

(** A zero byte ends the piece it is part of. *)
Example print_zero_byte : printed "a%cb%u" [Num 0; Num 1] = Some (chars "a1").
Proof. vm_compute. reflexivity. Qed.

(** A piece of 127 characters is cut, the text is not. *)
Example print_long : printed (String.concat String.EmptyString (replicate 30 "0123456789"%string)) [] =
  Some (mjoin (replicate 30 (chars "0123456789"))).
Proof. vm_compute. reflexivity. Qed.
