(* ===== verification/ConsoleLog.v ===== *)
(** * The console page

    Models the virtual console that the hypervisor shares with the driver of
    the root cell: [console_write] of hypervisor/printk.c, which appends to a
    ring of 2048 characters without waiting for anybody, and
    [copy_console_page], [__jailhouse_console_dump_delta] and
    [jailhouse_console_read] of driver/main.c, which read it.

    The writer holds [printk_lock], so there is one. The copy is not atomic:
    writer and reader are two programs whose accesses to the page interleave
    in any order, and [memcpy] takes the fields in any order. The accesses of
    each side keep their order; the barriers of the code do not enforce this
    for the content and the tail on weakly ordered machines. *)

From Stdlib Require Import ZArith Lia.
From stdpp Require Import base tactics list list_numbers option sets.
From S2P Require Import Prelude.

(** [sizeof(console.content)] *)
Definition SIZE : Z := 2048.

(** [struct jailhouse_console] *)
Record page := mk_page { busy : bool; tail : Z; content : list Z }.

Definition set_busy (b : bool) (p : page) : page := mk_page b (tail p) (content p).
Definition set_tail (t : Z) (p : page) : page := mk_page (busy p) t (content p).
Definition set_content (l : list Z) (p : page) : page := mk_page (busy p) (tail p) l.

Definition slot (t : Z) : nat := Z.to_nat (t mod SIZE).

(** [console.content[console.tail % sizeof(console.content)] = c] *)
Definition store (c : Z) (p : page) : page := set_content (<[slot (tail p) := c]> (content p)) p.
(** [console.tail++] *)
Definition advance (p : page) : page := set_tail (u32 (tail p + 1)) p.

(** ** The writer *)

Fixpoint put (msg : list Z) (p : page) : page :=
  match msg with
  | [] => p
  | c :: msg => if c =? 0 then p else put msg (advance (store c p))
  end.
(** [console_write], without the debug output. *)
Definition console_write (virtual_console : bool) (msg : list Z) (p : page) : page :=
  if virtual_console then set_busy false (put msg (set_busy true p)) else p.

(** The same as a program: a step per access that the other side can see. *)
Inductive writer := Idle | Busy (msg : list Z) | Stored (c : Z) (msg : list Z).

(** ** The reader *)

(** A field of the page that [memcpy] copies. *)
Inductive field := Fbusy | Ftail | Fchar (i : nat).
#[global] Instance field_eq_dec : EqDecision field.
Proof. solve_decision. Defined.
Definition fields : list field := Fbusy :: Ftail :: (Fchar <$> seq 0 (Z.to_nat SIZE)).

Definition copy_field (f : field) (src dst : page) : page :=
  match f with
  | Fbusy => set_busy (busy src) dst
  | Ftail => set_tail (tail src) dst
  | Fchar i => match content src !! i with
               | Some c => set_content (<[i := c]> (content dst)) dst
               | None => dst
               end
  end.

(** [copy_console_page]: spinning, before the read of the tail, in the copy
    with the fields left, before the check of the tail, before the check of
    the flag, and left. *)
Inductive reader :=
  Spin | Read_tail | Copy (t : Z) (todo : list field) | Check_tail (t : Z) | Check_busy | Done.

(** [log] is what has been written, [seen] its length when the reader last
    read the tail. *)
Record sys := mk_sys { pg : page; wr : writer; rd : reader; dst : page; log : list Z; seen : nat }.

Definition with_rd (r : reader) (s : sys) : sys := mk_sys (pg s) (wr s) r (dst s) (log s) (seen s).
Definition with_wr (p : page) (w : writer) (s : sys) : sys := mk_sys p w (rd s) (dst s) (log s) (seen s).

(** A message arrives, the writer takes a step, the reader takes a step; in
    the copy it takes the [i]-th of the fields left. *)
Inductive action := Message (msg : list Z) | Write | Read (i : nat).

Definition write_step (s : sys) : option sys :=
  match wr s with
  | Idle => None
  | Busy [] => Some (with_wr (set_busy false (pg s)) Idle s)
  | Busy (c :: msg) =>
      Some (if c =? 0 then with_wr (set_busy false (pg s)) Idle s
            else with_wr (store c (pg s)) (Stored c msg) s)
  | Stored c msg =>
      Some (mk_sys (advance (pg s)) (Busy msg) (rd s) (dst s) (log s ++ [c]) (seen s))
  end.

Definition read_step (i : nat) (s : sys) : option sys :=
  match rd s with
  | Spin => Some (if busy (pg s) then s else with_rd Read_tail s)
  | Read_tail =>
      Some (mk_sys (pg s) (wr s) (Copy (tail (pg s)) fields) (dst s) (log s) (length (log s)))
  | Copy t [] => Some (with_rd (Check_tail t) s)
  | Copy t todo =>
      f ← todo !! i;
      Some (mk_sys (pg s) (wr s) (Copy t (delete i todo)) (copy_field f (pg s) (dst s)) (log s) (seen s))
  | Check_tail t => Some (with_rd (if tail (pg s) =? t then Check_busy else Spin) s)
  | Check_busy => Some (with_rd (if busy (pg s) then Spin else Done) s)
  | Done => None
  end.

Definition act (a : action) (s : sys) : option sys :=
  match a with
  | Message msg => match wr s with Idle => Some (with_wr (set_busy true (pg s)) (Busy msg) s) | _ => None end
  | Write => write_step s
  | Read i => read_step i s
  end.

Fixpoint acts (l : list action) (s : sys) : option sys :=
  match l with [] => Some s | a :: l => s' ← act a s; acts l s' end.

(** ** The delta *)

(** [__jailhouse_console_dump_delta]: the text and the number of characters
    that are lost. *)
Definition dump_delta (console : page) (head : Z) : list Z * Z :=
  let delta := u32 (tail console - head) in
  let '(missed, head, delta) :=
    if SIZE <? delta then (u32 (delta - SIZE), u32 (tail console - SIZE), SIZE) else (0, head, delta) in
  let head_mod := slot head in
  if SIZE <? Z.of_nat head_mod + delta then
    let ret := (Z.to_nat SIZE - head_mod)%nat in
    (take ret (drop head_mod (content console)) ++ take (Z.to_nat delta - ret) (content console), missed)
  else (take (Z.to_nat delta) (drop head_mod (content console)), missed).

(** ** Reading *)

(** [struct console_state] *)
Record user := mk_user { head : Z; last_console_id : Z }.
Definition set_head (h : Z) (u : user) : user := mk_user h (last_console_id u).
Definition set_last_id (i : Z) (u : user) : user := mk_user (head u) i.

(** What [jailhouse_console_read] sees in a round of its loop: the lock, the
    state of the driver with the copy it makes of the page, whether there is
    memory for the copy, and signals. *)
Record env := mk_env {
  lock_taken : bool;
  jailhouse_enabled : bool;
  console_available : bool;
  valid : bool; id : Z; last_page : page;
  snapshot : page;
  memory : bool;
  signal_pending : bool }.

Definition EAGAIN : Z := 11.
Definition EINTR : Z := 4.
Definition EPERM : Z := 1.
Definition ENOMEM : Z := 12.
Definition EFAULT : Z := 14.

(** A negative error, or a text and what is missed. *)
Notation dumped := (Z + list Z * Z)%type.

(** [jailhouse_console_dump_delta] *)
Definition jailhouse_console_dump_delta (e : env) (head : Z) : dumped :=
  if negb (jailhouse_enabled e) then inl (- EAGAIN)
  else if negb (console_available e) then inl (- EPERM)
  else if negb (memory e) then inl (- ENOMEM)
  else if tail (snapshot e) =? head then inr ([], 0)
  else inr (dump_delta (snapshot e) head).

(** Inside of the lock. *)
Definition poll (e : env) (u : user) : dumped * user :=
  if negb (id e =? last_console_id u) && valid e then
    let r := dump_delta (last_page e) (head u) in
    (inr r, if fst r is [] then set_last_id (id e) u else u)
  else (jailhouse_console_dump_delta e (head u), u).

Section Reading.
(** [snprintf] of the notice of missed characters, a function of the kernel. *)
Context (missed_text : Z -> list Z).

(** The end of [jailhouse_console_read]; [fault] is a failing [copy_to_user]. *)
Definition deliver (size : nat) (fault : bool) (txt : list Z) (miss : Z) (u : user) : (Z + list Z) * user :=
  let '(txt, u) :=
    if negb (miss =? 0) then (take size (missed_text miss), set_head (u32 (head u + miss)) u)
    else (take size txt, set_head (u32 (head u + Z.of_nat (length (take size txt)))) u) in
  (if fault then inl (- EFAULT) else inr txt, u).

(** [jailhouse_console_read], when its buffer could be allocated; [None] if it
    still waits after the rounds. *)
Fixpoint jailhouse_console_read (nonblock : bool) (size : nat) (fault : bool) (rounds : list env) (u : user)
  : option ((Z + list Z) * user) :=
  match rounds with
  | [] => None
  | e :: rounds =>
      if negb (lock_taken e) then Some (inl (- EINTR), u)
      else
        let '(r, u) := poll e u in
        let wait (u : user) :=
          if signal_pending e then Some (inl (- EINTR), u)
          else jailhouse_console_read nonblock size fault rounds u in
        match r with
        | inl ret =>
            if ret =? - EAGAIN then if nonblock then Some (inl ret, u) else wait (set_head 0 u)
            else Some (inl ret, u)
        | inr ([], _) => if nonblock then Some (inr [], u) else wait u
        | inr (txt, miss) => Some (deliver size fault txt miss u)
        end
  end.

End Reading.

(** ** The ring *)

(** The page shows the last characters of the log; positions from [lo] on are
    still there. *)
Record shows (lo : nat) (p : page) (L : list Z) : Prop := {
  shows_len : length (content p) = Z.to_nat SIZE;
  shows_tail : tail p = u32 (Z.of_nat (length L));
  shows_char : forall j, (lo <= j < length L)%nat -> (length L <= j + Z.to_nat SIZE)%nat ->
    content p !! slot (Z.of_nat j) = L !! j }.

Definition ring : page -> list Z -> Prop := shows 0.

Lemma slot_lt t : (slot t < Z.to_nat SIZE)%nat.
Proof. unfold slot. pose proof (Z.mod_pos_bound t SIZE ltac:(done)). unfold SIZE in *. lia. Qed.

(** The size divides the range of the tail. *)
Lemma slot_u32 x : slot (u32 x) = slot x.
Proof.
  unfold slot, u32, wrap. f_equal. symmetry. apply Znumtheory.Zmod_div_mod; [done|done|].
  by exists (2 ^ 21).
Qed.

Lemma slot_inj i j : slot (Z.of_nat i) = slot (Z.of_nat j) -> (i < j + Z.to_nat SIZE)%nat -> (j < i + Z.to_nat SIZE)%nat -> i = j.
Proof.
  unfold slot. intros He. pose proof (Z.mod_pos_bound (Z.of_nat i) SIZE ltac:(done)).
  pose proof (Z.mod_pos_bound (Z.of_nat j) SIZE ltac:(done)).
  pose proof (Z.div_mod (Z.of_nat i) SIZE ltac:(done)). pose proof (Z.div_mod (Z.of_nat j) SIZE ltac:(done)).
  unfold SIZE in *. intros. nia.
Qed.

Lemma slot_round j n : (j + Z.to_nat SIZE = n)%nat -> slot (Z.of_nat n) = slot (Z.of_nat j).
Proof.
  intros <-. unfold slot. f_equal. rewrite Nat2Z.inj_add, Z2Nat.id by done.
  rewrite <- (Z.mul_1_l SIZE) at 1. by rewrite Z.mod_add.
Qed.

Lemma u32_succ n : u32 (u32 (Z.of_nat n) + 1) = u32 (Z.of_nat (S n)).
Proof. unfold u32, wrap. rewrite Zplus_mod_idemp_l. f_equal. lia. Qed.

(** *** The two halves of a write *)

Lemma shows_store lo p L c :
  shows lo p L ->
  shows (lo `max` (S (length L) - Z.to_nat SIZE)) (store c p) L /\
  content (store c p) !! slot (Z.of_nat (length L)) = Some c.
Proof.
  intros [Hl Ht Hc]. unfold store. rewrite Ht, slot_u32. pose proof (slot_lt (Z.of_nat (length L))) as Hs.
  split; [split; cbn|cbn; apply list_lookup_insert_eq; lia].
  - by rewrite length_insert.
  - done.
  - intros j Hj HN. rewrite list_lookup_insert_ne; [apply Hc; lia|].
    intros He. apply slot_inj in He; lia.
Qed.

Lemma shows_advance lo p L c :
  shows (lo `max` (S (length L) - Z.to_nat SIZE)) p L -> content p !! slot (Z.of_nat (length L)) = Some c ->
  shows lo (advance p) (L ++ [c]).
Proof.
  intros [Hl Ht Hc] Hn. split; cbn.
  - done.
  - by rewrite Ht, u32_succ, length_app, Nat.add_1_r.
  - intros j. rewrite length_app. cbn. intros Hj HN. destruct (decide (j = length L)) as [->|].
    + by rewrite Hn, lookup_app_r, Nat.sub_diag by lia.
    + rewrite lookup_app_l by lia. apply Hc; lia.
Qed.

Lemma shows_busy lo b p L : shows lo p L -> shows lo (set_busy b p) L.
Proof. by intros [? ? ?]. Qed.

Lemma put_shows lo msg p L :
  shows lo p L -> Forall (fun c => c <> 0) msg -> shows lo (put msg p) (L ++ msg).
Proof.
  intros Hs Hm. revert p L Hs. induction Hm as [|c msg Hc _ IH]; intros p L Hs; cbn; [by rewrite app_nil_r|].
  rewrite (proj2 (Z.eqb_neq c 0)) by done. rewrite (cons_middle c), app_assoc. apply IH.
  destruct (shows_store lo p L c Hs). by apply shows_advance.
Qed.

(** ** The invariant of the protocol *)

(** What has been written, a character that is not counted yet included. *)
Definition written (s : sys) : list Z :=
  match wr s with Stored c _ => log s ++ [c] | _ => log s end.

Definition writer_ok (s : sys) : Prop :=
  match wr s with
  | Stored c _ =>
      busy (pg s) = true /\ shows (S (length (log s)) - Z.to_nat SIZE) (pg s) (log s) /\
      content (pg s) !! slot (Z.of_nat (length (log s))) = Some c
  | Busy _ => busy (pg s) = true /\ ring (pg s) (log s)
  | Idle => busy (pg s) = false /\ ring (pg s) (log s)
  end.

(** A field of the copy is right for a tail of [n]: the slot of the oldest
    character may hold the next one instead. *)
Definition copied (n : nat) (V : list Z) (d : page) (f : field) : Prop :=
  match f with
  | Fbusy => True
  | Ftail => tail d = u32 (Z.of_nat n)
  | Fchar i => forall j, (j < n <= j + Z.to_nat SIZE)%nat -> slot (Z.of_nat j) = i ->
      content d !! i = V !! j \/ (n = j + Z.to_nat SIZE)%nat /\ content d !! i = V !! n
  end.

Definition reader_ok (s : sys) : Prop :=
  length (content (dst s)) = Z.to_nat SIZE /\ (seen s <= length (log s))%nat /\
  match rd s with
  | Spin | Read_tail => True
  | Copy t todo =>
      t = u32 (Z.of_nat (seen s)) /\
      (length (log s) = seen s -> forall f, f ∈ fields -> f ∈ todo \/ copied (seen s) (written s) (dst s) f)
  | Check_tail t =>
      t = u32 (Z.of_nat (seen s)) /\
      (length (log s) = seen s -> forall f, f ∈ fields -> copied (seen s) (written s) (dst s) f)
  | Check_busy | Done =>
      Z.of_nat (length (log s)) < Z.of_nat (seen s) + 2 ^ 32 ->
      forall f, f ∈ fields -> copied (seen s) (written s) (dst s) f
  end.

Definition sys_ok (s : sys) : Prop := writer_ok s /\ reader_ok s.

Lemma copied_mono n V V' d f :
  V `prefix_of` V' -> (n <= length V)%nat -> length (content d) = Z.to_nat SIZE ->
  copied n V d f -> copied n V' d f.
Proof.
  intros [k ->] Hn Hd. destruct f as [| |i]; [done|done|]. intros H j Hj Hi. specialize (H j Hj Hi).
  rewrite lookup_app_l by lia. destruct H as [H|[He H]]; [by left|]. right. split; [done|].
  destruct (lookup_lt_is_Some_2 (content d) i) as [x Hx]; [rewrite Hd, <- Hi; apply slot_lt|].
  rewrite Hx in *. symmetry in H. by rewrite (lookup_app_l_Some _ _ _ _ H).
Qed.

(** The page seen by the reader while no character is counted. *)
Lemma page_char s j :
  writer_ok s -> (j < length (log s) <= j + Z.to_nat SIZE)%nat ->
  content (pg s) !! slot (Z.of_nat j) = written s !! j \/
  (length (log s) = j + Z.to_nat SIZE)%nat /\ content (pg s) !! slot (Z.of_nat j) = written s !! length (log s).
Proof.
  unfold writer_ok, written. destruct (wr s) as [|msg|c msg].
  1, 2: intros [_ [_ _ Hc]] Hj; left; apply Hc; lia.
  intros (_ & [_ _ Hc] & Hn) Hj. destruct (decide (length (log s) = j + Z.to_nat SIZE)%nat) as [He|].
  - right. split; [done|]. rewrite <- (slot_round j (length (log s))) by done.
    by rewrite Hn, lookup_app_r, Nat.sub_diag by lia.
  - left. rewrite lookup_app_l by lia. apply Hc; lia.
Qed.

Lemma page_tail s : writer_ok s -> tail (pg s) = u32 (Z.of_nat (length (log s))).
Proof. unfold writer_ok. destruct (wr s); [intros [_ [_ H _]]..|intros (_ & [_ H _] & _)]; done. Qed.

Lemma page_length s : writer_ok s -> length (content (pg s)) = Z.to_nat SIZE.
Proof. unfold writer_ok. destruct (wr s); [intros [_ [H _ _]]..|intros (_ & [H _ _] & _)]; done. Qed.

Lemma log_written s : log s `prefix_of` written s.
Proof. unfold written. destruct (wr s); [done|done|by eexists]. Qed.

(** *** Steps of the writer *)

Lemma message_keeps s msg s' : sys_ok s -> act (Message msg) s = Some s' -> sys_ok s'.
Proof.
  intros [Hw Hr]. cbn. destruct (wr s) eqn:Hs; [|done|done]. intros [= <-].
  unfold sys_ok, writer_ok, reader_ok, written in *. cbn. rewrite Hs in *.
  destruct Hw as [_ Hring]. split; [split; [done|by apply shows_busy]|exact Hr].
Qed.

(** The reader's part only depends on what is written. *)
Lemma reader_mono s s' :
  rd s' = rd s -> dst s' = dst s -> seen s' = seen s -> log s `prefix_of` log s' -> written s `prefix_of` written s' ->
  reader_ok s -> reader_ok s'.
Proof.
  intros Hrd Hd Hs Hl Hwr (Hlen & Hseen & H). pose proof (prefix_length _ _ Hl) as Hll.
  pose proof (prefix_length _ _ (log_written s)) as Hlw.
  assert (Hm : forall f, copied (seen s) (written s) (dst s) f -> copied (seen s) (written s') (dst s) f)
    by (intros f; apply copied_mono; [done|lia|done]).
  unfold reader_ok. rewrite Hrd, Hd, Hs. split_and!; [done|lia|].
  destruct (rd s); [done|done|..].
  - destruct H as [Ht H]. split; [done|]. intros He f Hf. destruct (H ltac:(lia) f Hf); [by left|right; auto].
  - destruct H as [Ht H]. split; [done|]. intros He f Hf. apply Hm, H; [lia|done].
  - intros He f Hf. apply Hm, H; [lia|done].
  - intros He f Hf. apply Hm, H; [lia|done].
Qed.

Lemma write_keeps s s' : sys_ok s -> act Write s = Some s' -> sys_ok s'.
Proof.
  intros [Hw Hr] Hstep. cbn in Hstep. unfold write_step in Hstep.
  destruct (wr s) as [|[|c msg]|c msg] eqn:Hs; [done|..].
  - injection Hstep as <-. split; [|apply (reader_mono s); try done].
    + unfold writer_ok in *. rewrite Hs in Hw. cbn. destruct Hw as [_ H]. split; [done|by apply shows_busy].
    + unfold written. by rewrite Hs.
  - destruct (c =? 0); injection Hstep as <-.
    + split; [|apply (reader_mono s); try done].
      * unfold writer_ok in *. rewrite Hs in Hw. cbn. destruct Hw as [_ H]. split; [done|by apply shows_busy].
      * unfold written. by rewrite Hs.
    + split; [|apply (reader_mono s); try done].
      * unfold writer_ok in *. rewrite Hs in Hw. cbn. destruct Hw as [Hb H].
        destruct (shows_store 0 _ _ c H) as [H1 H2]. rewrite Nat.max_0_l in H1. done.
      * unfold written. rewrite Hs. cbn. by eexists.
  - injection Hstep as <-. split; [|apply (reader_mono s); try done].
    + unfold writer_ok in *. rewrite Hs in Hw. cbn. destruct Hw as (Hb & H1 & H2). split; [done|].
      apply shows_advance; [by rewrite Nat.max_0_l|done].
    + by eexists.
    + unfold written. by rewrite Hs.
Qed.

(** *** Steps of the reader *)

Lemma copy_field_length f src d :
  length (content (copy_field f src d)) = length (content d).
Proof. destruct f as [| |i]; [done|done|]. cbn. destruct (_ !! i); [cbn; by rewrite length_insert|done]. Qed.

Lemma copy_field_other f g src d n V : f <> g -> copied n V d g -> copied n V (copy_field f src d) g.
Proof.
  intros Hne. destruct f as [| |i], g as [| |k]; cbn; try done; destruct (content src !! i); try done; cbn.
  intros H j Hj Hk. rewrite list_lookup_insert_ne by congruence. by apply H.
Qed.

Lemma copy_field_this s f :
  writer_ok s -> length (content (dst s)) = Z.to_nat SIZE -> length (log s) = seen s ->
  copied (seen s) (written s) (copy_field f (pg s) (dst s)) f.
Proof.
  intros Hw Hd He. destruct f as [| |i]; cbn; [done|rewrite <- He; by apply page_tail|].
  intros j Hj <-. destruct (lookup_lt_is_Some_2 (content (pg s)) (slot (Z.of_nat j))) as [x Hx];
    [rewrite page_length by done; apply slot_lt|].
  rewrite Hx. cbn. rewrite list_lookup_insert_eq by (rewrite Hd; apply slot_lt). rewrite <- Hx.
  rewrite <- He in *. destruct (page_char s j Hw) as [H|[? H]]; [lia|by left|by right].
Qed.

Lemma delete_or (i : nat) (l : list field) f g : l !! i = Some f -> g ∈ l -> g = f \/ g ∈ delete i l.
Proof. intros Hi Hg. apply delete_Permutation in Hi. rewrite Hi in Hg. by apply elem_of_cons in Hg. Qed.

Lemma read_keeps i s s' : sys_ok s -> act (Read i) s = Some s' -> sys_ok s'.
Proof.
  intros [Hw (Hlen & Hseen & Hr)] Hstep. cbn in Hstep. unfold read_step in Hstep.
  destruct (rd s) as [| |t [|g todo]|t| |] eqn:Hrd; [..|done].
  - destruct (busy (pg s)); injection Hstep as <-; split; try done; unfold reader_ok; cbn; by rewrite ?Hrd.
  - injection Hstep as <-. split; [done|]. unfold reader_ok. cbn. split_and!; [done|done|by apply page_tail|].
    intros _ f Hf. by left.
  - injection Hstep as <-. split; [done|]. unfold reader_ok. cbn. destruct Hr as [Ht H]. split_and!; [done..|].
    intros He f Hf. change (written (with_rd (Check_tail t) s)) with (written s).
    destruct (H He f Hf) as [Hin|]; [by apply elem_of_nil in Hin|done].
  - destruct ((g :: todo) !! i) as [f|] eqn:Hi; [|done]. cbn [mbind option_bind] in Hstep. injection Hstep as <-.
    split; [done|]. unfold reader_ok. cbn [rd seen log dst wr pg]. rewrite copy_field_length. destruct Hr as [Ht H].
    split_and!; [done..|]. intros He h Hh. destruct (decide (h ∈ delete i (g :: todo))); [by left|right].
    change (written _) with (written s). destruct (H He h Hh) as [Hin|Hc].
    + destruct (delete_or _ _ _ _ Hi Hin) as [->|]; [by apply copy_field_this|done].
    + destruct (decide (f = h)) as [->|]; [by apply copy_field_this|by apply copy_field_other].
  - injection Hstep as <-. split; [done|]. unfold reader_ok. cbn. destruct Hr as [Ht H]. split_and!; [done..|].
    rewrite page_tail by done. destruct (Z.eqb_spec (u32 (Z.of_nat (length (log s)))) t) as [He|]; [|done].
    rewrite Ht in He. intros Hlt. apply H. unfold u32, wrap in He.
    assert (Hmod : (Z.of_nat (length (log s)) - Z.of_nat (seen s)) mod 2 ^ 32 = 0)
      by (rewrite Zminus_mod, He, Z.sub_diag; done).
    rewrite Z.mod_small in Hmod by lia. lia.
  - injection Hstep as <-. split; [done|]. unfold reader_ok. cbn. split_and!; [done..|].
    by destruct (busy (pg s)).
Qed.

Lemma act_keeps a s s' : sys_ok s -> act a s = Some s' -> sys_ok s'.
Proof. destruct a; [apply message_keeps|apply write_keeps|apply read_keeps]. Qed.

Lemma acts_keeps l s s' : sys_ok s -> acts l s = Some s' -> sys_ok s'.
Proof.
  revert s. induction l as [|a l IH]; intros s Hs; cbn; [by intros [= <-]|].
  destruct (act a s) as [s1|] eqn:Ha; [|done]. cbn. apply IH. by eapply act_keeps.
Qed.

Lemma fields_char i : (i < Z.to_nat SIZE)%nat -> Fchar i ∈ fields.
Proof.
  intros Hi. unfold fields. rewrite !elem_of_cons, list_elem_of_fmap. right. right. exists i.
  split; [done|]. apply elem_of_seq. lia.
Qed.

(** C22: the driver's copy of the console page is consistent: however the copy
    interleaves with output of the hypervisor, when the loop of
    [copy_console_page] is left, the copy has the tail that was read and the
    last characters up to there; only the slot of the oldest one can already
    hold the next character. Less than 2^32 characters may be written
    meanwhile. *)
Theorem snapshot_consistent l s0 s :
  sys_ok s0 -> acts l s0 = Some s -> rd s = Done ->
  Z.of_nat (length (log s)) < Z.of_nat (seen s) + 2 ^ 32 ->
  (seen s <= length (log s))%nat /\ length (content (dst s)) = Z.to_nat SIZE /\
  tail (dst s) = u32 (Z.of_nat (seen s)) /\
  forall j, (j < seen s <= j + Z.to_nat SIZE)%nat ->
    content (dst s) !! slot (Z.of_nat j) = log s !! j \/
    seen s = (j + Z.to_nat SIZE)%nat /\ content (dst s) !! slot (Z.of_nat j) = written s !! seen s.
Proof.
  intros H0 Hl Hd Hlt. destruct (acts_keeps l s0 s H0 Hl) as [Hw (Hlen & Hseen & Hr)]. rewrite Hd in Hr.
  specialize (Hr Hlt). split_and!; [done|done|by apply (Hr Ftail); right; left|].
  intros j Hj. destruct (Hr (Fchar (slot (Z.of_nat j))) (fields_char _ (slot_lt _)) j Hj eq_refl) as [H|H]; [left|by right].
  rewrite H. destruct (log_written s) as [k ->]. by rewrite lookup_app_l by lia.
Qed.

(** *** The copy ends *)

Definition field_copies (src : page) : page -> list field -> page := foldl (fun d f => copy_field f src d).

Lemma copy_all t todo s :
  rd s = Copy t todo ->
  acts (replicate (length todo) (Read 0)) s =
  Some (mk_sys (pg s) (wr s) (Copy t []) (field_copies (pg s) (dst s) todo) (log s) (seen s)).
Proof.
  revert s. induction todo as [|f todo IH]; intros s Hr; cbn [replicate length acts].
  - cbn. rewrite <- Hr. by destruct s.
  - unfold act at 1, read_step. rewrite Hr. cbn [mbind option_bind]. change ((f :: todo) !! 0%nat) with (Some f).
    cbn [mbind option_bind]. rewrite IH by done. done.
Qed.

Lemma field_copies_chars src d k i :
  length (content d) = length (content src) -> (k <= length (content src))%nat ->
  content (field_copies src d (Fchar <$> seq 0 k)) !! i = (if decide (i < k)%nat then content src else content d) !! i.
Proof.
  intros Hl. induction k as [|k IH]; intros Hk; [done|].
  rewrite seq_S, fmap_app. unfold field_copies in *. rewrite foldl_app. cbn [fmap list_fmap foldl copy_field Nat.add].
  destruct (lookup_lt_is_Some_2 (content src) k) as [x Hx]; [lia|]. rewrite Hx. cbn.
  destruct (decide (i = k)) as [->|].
  - rewrite decide_True, Hx by lia. apply list_lookup_insert_eq.
    assert (Hlen : forall fs e, length (content (foldl (fun d f => copy_field f src d) e fs)) = length (content e)).
    { intros fs. induction fs as [|f fs IHf]; intros e; [done|]. cbn. by rewrite IHf, copy_field_length. }
    rewrite Hlen. lia.
  - rewrite list_lookup_insert_ne, IH by lia. by case_decide; case_decide; try lia.
Qed.

Lemma field_copies_frame src d fs :
  (forall f, f ∈ fs -> exists i, f = Fchar i) ->
  busy (field_copies src d fs) = busy d /\ tail (field_copies src d fs) = tail d.
Proof.
  unfold field_copies. revert d. induction fs as [|f fs IH]; intros d Hf; [done|]. cbn.
  destruct (Hf f ltac:(by left)) as [i ->]. rewrite !(proj1 (IH _ ltac:(intros; apply Hf; by right))).
  rewrite !(proj2 (IH _ ltac:(intros; apply Hf; by right))). cbn. by destruct (content src !! i).
Qed.

Lemma field_copies_all src d :
  length (content src) = Z.to_nat SIZE -> length (content d) = Z.to_nat SIZE -> field_copies src d fields = src.
Proof.
  intros Hs Hd. unfold fields. change (field_copies src d _)
    with (field_copies src (set_tail (tail src) (set_busy (busy src) d)) (Fchar <$> seq 0 (Z.to_nat SIZE))).
  set (d1 := set_tail _ _). set (fs := Fchar <$> _).
  destruct (field_copies_frame src d1 fs) as [Hb Ht].
  { intros f Hf. apply list_elem_of_fmap in Hf as (i & -> & _). by exists i. }
  assert (Hc : content (field_copies src d1 fs) = content src).
  { apply list_eq. intros i. subst fs. rewrite field_copies_chars by (cbn; lia). case_decide; [done|].
    cbn. rewrite !(proj2 (lookup_ge_None _ _)) by lia. done. }
  destruct (field_copies src d1 fs), src. cbn in *. congruence.
Qed.

Lemma acts_app l1 l2 s s1 : acts l1 s = Some s1 -> acts (l1 ++ l2) s = acts l2 s1.
Proof.
  revert s. induction l1 as [|a l1 IH]; intros s; cbn; [by intros [= ->]|].
  destruct (act a s) as [s2|]; [|done]. cbn. apply IH.
Qed.

(** [copy_console_page] ends, and without interference it is a copy: while
    the hypervisor writes nothing, the loop is left after one round, with the
    page itself. *)
Theorem copy_console_page_ends s :
  sys_ok s -> wr s = Idle -> rd s = Spin ->
  acts (replicate (length fields + 5) (Read 0)) s =
  Some (mk_sys (pg s) Idle Done (pg s) (log s) (length (log s))).
Proof.
  intros [Hw (Hd & _)] Hi Hr. pose proof (page_length s Hw) as Hp. unfold writer_ok in Hw. rewrite Hi in Hw.
  destruct Hw as [Hb _]. replace (length fields + 5)%nat with (2 + (length fields + 3))%nat by lia.
  rewrite replicate_add. set (s2 := mk_sys (pg s) Idle (Copy (tail (pg s)) fields) (dst s) (log s) (length (log s))).
  rewrite (acts_app _ _ s s2) by (cbn [replicate acts act read_step]; unfold read_step; rewrite Hr, Hb; cbn; by rewrite Hi).
  rewrite replicate_add. erewrite acts_app by by apply copy_all.
  subst s2. cbn [pg wr dst log seen]. rewrite field_copies_all by done.
  cbn. rewrite Z.eqb_refl. cbn. by rewrite Hb.
Qed.

(** ** The text of a delta *)

(** [memcpy]s of a window of the ring that can wrap around. *)
Lemma window_lookup p b d k :
  length (content p) = Z.to_nat SIZE -> 0 <= d <= SIZE -> (k < Z.to_nat d)%nat ->
  (if SIZE <? Z.of_nat (slot (Z.of_nat b)) + d then
     take (Z.to_nat SIZE - slot (Z.of_nat b)) (drop (slot (Z.of_nat b)) (content p)) ++
     take (Z.to_nat d - (Z.to_nat SIZE - slot (Z.of_nat b))) (content p)
   else take (Z.to_nat d) (drop (slot (Z.of_nat b)) (content p))) !! k =
  content p !! slot (Z.of_nat (b + k)).
Proof.
  intros Hl Hd Hk. pose proof (slot_lt (Z.of_nat b)) as Hs. pose proof (slot_lt (Z.of_nat (b + k))) as Hsk.
  assert (Hslot : slot (Z.of_nat (b + k)) = (if decide (slot (Z.of_nat b) + k < Z.to_nat SIZE)%nat
      then slot (Z.of_nat b) + k else slot (Z.of_nat b) + k - Z.to_nat SIZE)%nat).
  { unfold slot, SIZE in *. rewrite Nat2Z.inj_add.
    pose proof (Z.mod_pos_bound (Z.of_nat b) 2048 ltac:(done)). case_decide.
    - rewrite <- Zplus_mod_idemp_l, Z.mod_small; lia.
    - rewrite <- Zplus_mod_idemp_l, <- (Z.mod_add _ (-1)) by lia. rewrite Z.mod_small; lia. }
  rewrite Hslot. destruct (Z.ltb_spec SIZE (Z.of_nat (slot (Z.of_nat b)) + d)).
  - case_decide.
    + rewrite lookup_app_l by (rewrite length_take, length_drop; lia).
      by rewrite lookup_take, decide_True, lookup_drop by lia.
    + rewrite lookup_app_r; rewrite length_take, length_drop; [|lia].
      rewrite lookup_take, decide_True by lia. f_equal. lia.
  - rewrite decide_True by lia. by rewrite lookup_take, decide_True, lookup_drop by lia.
Qed.

Lemma window_length p b d :
  length (content p) = Z.to_nat SIZE -> 0 <= d <= SIZE ->
  length (if SIZE <? Z.of_nat (slot (Z.of_nat b)) + d then
     take (Z.to_nat SIZE - slot (Z.of_nat b)) (drop (slot (Z.of_nat b)) (content p)) ++
     take (Z.to_nat d - (Z.to_nat SIZE - slot (Z.of_nat b))) (content p)
   else take (Z.to_nat d) (drop (slot (Z.of_nat b)) (content p))) = Z.to_nat d.
Proof.
  intros Hl Hd. pose proof (slot_lt (Z.of_nat b)) as Hs.
  destruct (Z.ltb_spec SIZE (Z.of_nat (slot (Z.of_nat b)) + d)).
  - rewrite length_app, !length_take, length_drop. lia.
  - rewrite length_take, length_drop. lia.
Qed.

Lemma u32_sub a b : (b <= a)%nat -> Z.of_nat a - Z.of_nat b < 2 ^ 32 ->
  u32 (u32 (Z.of_nat a) - u32 (Z.of_nat b)) = Z.of_nat a - Z.of_nat b.
Proof.
  intros Hle Hlt. unfold u32, wrap. rewrite <- Zminus_mod. apply Z.mod_small. lia.
Qed.

(** Where the text starts that is still there. *)
Definition start (N H : nat) : nat := (H `max` (N - Z.to_nat SIZE))%nat.

Lemma dump_delta_run lo p L H :
  shows lo p L -> (H <= length L)%nat -> Z.of_nat (length L) - Z.of_nat H < 2 ^ 32 ->
  (lo <= start (length L) H)%nat ->
  dump_delta p (u32 (Z.of_nat H)) = (drop (start (length L) H) L, Z.of_nat (start (length L) H) - Z.of_nat H).
Proof.
  intros [Hl Ht Hc] HH Hlt Hlo. unfold dump_delta, start in *. rewrite Ht, u32_sub by done.
  assert (Hwin : forall d, 0 <= d <= SIZE -> forall b, (lo <= b)%nat -> Z.of_nat b + d = Z.of_nat (length L) ->
    (if SIZE <? Z.of_nat (slot (Z.of_nat b)) + d then
       take (Z.to_nat SIZE - slot (Z.of_nat b)) (drop (slot (Z.of_nat b)) (content p)) ++
       take (Z.to_nat d - (Z.to_nat SIZE - slot (Z.of_nat b))) (content p)
     else take (Z.to_nat d) (drop (slot (Z.of_nat b)) (content p))) = drop b L).
  { intros d Hd b Hb HN. apply list_eq_same_length with (n := Z.to_nat d).
    - rewrite length_drop. lia.
    - by apply window_length.
    - intros k x y Hk. rewrite window_lookup, lookup_drop, Hc by lia. congruence. }
  destruct (Z.ltb_spec SIZE (Z.of_nat (length L) - Z.of_nat H)) as [Hgt|Hle].
  - assert (Hb : Z.of_nat (H `max` (length L - Z.to_nat SIZE)) = Z.of_nat (length L) - SIZE) by (unfold SIZE in *; lia).
    rewrite Hb. replace (slot (u32 (u32 (Z.of_nat (length L)) - SIZE)))
      with (slot (Z.of_nat (H `max` (length L - Z.to_nat SIZE)))).
    2: { rewrite Hb, slot_u32. unfold slot. rewrite <- (Zminus_mod_idemp_l (u32 _)).
         f_equal. rewrite <- Zminus_mod_idemp_l. do 2 f_equal. unfold u32, wrap.
         apply Znumtheory.Zmod_div_mod; [done|done|by exists (2 ^ 21)]. }
    rewrite <- (Hwin SIZE); [|done|done|rewrite Hb; lia]. rewrite u32_small by (unfold SIZE in *; lia).
    destruct (SIZE <? _); f_equal; lia.
  - replace (H `max` (length L - Z.to_nat SIZE))%nat with H by lia. rewrite slot_u32, Z.sub_diag.
    rewrite <- (Hwin (Z.of_nat (length L) - Z.of_nat H)); [|lia|lia|lia]. by destruct (SIZE <? _).
Qed.

(** *** Reading in order *)

(** [p] is a copy of the page that [copy_console_page] can leave when it has
    read a tail of [n], while the hypervisor was writing [F]. *)
Definition taken (F : list Z) (n : nat) (p : page) : Prop :=
  exists l s0 s, sys_ok s0 /\ acts l s0 = Some s /\ rd s = Done /\ dst s = p /\ seen s = n /\ written s `prefix_of` F.

(** What a reader finds in a round: while the hypervisor runs, its page; when
    it is disabled, the last page, with the number [k]. *)
Definition finds (k : Z) (F : list Z) (n : nat) (e : env) : Prop :=
  console_available e = true /\
  if jailhouse_enabled e then valid e = false /\ taken F n (snapshot e)
  else valid e = true /\ id e = k /\ taken F n (last_page e).

(** Rounds with the number of characters that are counted: the hypervisor goes
    on writing until it is disabled, and is not enabled again. *)
Fixpoint session (k : Z) (F : list Z) (lo : nat) (stopped : bool) (rs : list (env * nat)) : Prop :=
  match rs with
  | [] => True
  | (e, n) :: rs =>
      (lo <= n)%nat /\ finds k F n e /\ (stopped = true -> jailhouse_enabled e = false /\ n = lo) /\
      session k F n (negb (jailhouse_enabled e)) rs
  end.

Fixpoint reached (lo : nat) (rs : list (env * nat)) : nat :=
  match rs with [] => lo | (_, n) :: rs => reached n rs end.
Fixpoint ended (stopped : bool) (rs : list (env * nat)) : bool :=
  match rs with [] => stopped | (e, _) :: rs => ended (negb (jailhouse_enabled e)) rs end.

Lemma session_app k F rs rs' lo st :
  session k F lo st (rs ++ rs') <-> session k F lo st rs /\ session k F (reached lo rs) (ended st rs) rs'.
Proof. revert lo st. induction rs as [|[e n] rs IH]; intros lo st; cbn; [tauto|]. rewrite IH. tauto. Qed.

(** Where the file is: at [H] of the text, or, with nothing left to read, at
    the end. *)
Definition positioned (k : Z) (lo : nat) (stopped : bool) (u : user) (H : nat) : Prop :=
  (H <= lo)%nat /\
  (last_console_id u <> k /\ head u = u32 (Z.of_nat H) \/ last_console_id u = k /\ stopped = true /\ H = lo).

Lemma positioned_mono k F lo st rs u H :
  session k F lo st rs -> positioned k lo st u H -> positioned k (reached lo rs) (ended st rs) u H.
Proof.
  revert lo st. induction rs as [|[e n] rs IH]; intros lo st; cbn; [done|].
  intros (Hn & _ & Hst & Hs) [Hle Hp]. apply IH; [done|]. split; [lia|].
  destruct Hp as [?|(? & -> & ->)]; [by left|right]. destruct (Hst eq_refl) as [-> ->]. done.
Qed.

(** The text that a copy gives: only the character at its very beginning can
    be the one that replaces it. *)
Definition piece (F : list Z) (H n : nat) (txt : list Z) : Prop :=
  length txt = n /\
  forall j, (j < n)%nat -> txt !! j = F !! (H + j)%nat \/ j = 0%nat /\ txt !! j = F !! (H + Z.to_nat SIZE)%nat.

Lemma taken_ring F n p :
  taken F n p -> Z.of_nat (length F) < 2 ^ 32 ->
  (n <= length F)%nat /\ exists L, ring p L /\ length L = n /\
    forall j, (j < n)%nat -> L !! j = F !! j \/ (j + Z.to_nat SIZE = n)%nat /\ L !! j = F !! n.
Proof.
  intros (l & s0 & s & H0 & Hl & Hd & <- & <- & HF) Hb.
  pose proof (prefix_length _ _ (log_written s)) as Hlw. pose proof (prefix_length _ _ HF) as HlF.
  destruct (acts_keeps l s0 s H0 Hl) as [_ (Hlen & Hs & Hr)]. rewrite Hd in Hr. specialize (Hr ltac:(lia)).
  split; [lia|]. pose proof (Hr Ftail ltac:(by right; left)) as Ht. cbn in Ht.
  assert (Hc' : forall j, (j < seen s <= j + Z.to_nat SIZE)%nat ->
    content (dst s) !! slot (Z.of_nat j) = F !! j \/
    (j + Z.to_nat SIZE = seen s)%nat /\ content (dst s) !! slot (Z.of_nat j) = F !! seen s).
  { intros j Hj. destruct (lookup_lt_is_Some_2 (content (dst s)) (slot (Z.of_nat j))) as [x Hx]; [rewrite Hlen; apply slot_lt|].
    destruct (Hr (Fchar (slot (Z.of_nat j))) (fields_char _ (slot_lt _)) j Hj eq_refl) as [He|[-> He]]; rewrite Hx in *.
    - left. symmetry. by apply (prefix_lookup_Some (written s)).
    - right. split; [done|]. symmetry. by apply (prefix_lookup_Some (written s)). }
  set (b := (seen s - Z.to_nat SIZE)%nat). set (c := content (dst s) !!! slot (Z.of_nat b)).
  set (L := if decide (Z.to_nat SIZE <= seen s)%nat then <[b := c]> (take (seen s) F) else take (seen s) F).
  assert (HL : length L = seen s) by (unfold L; case_decide; rewrite ?length_insert, length_take; lia).
  assert (Hch : forall j, (j < seen s <= j + Z.to_nat SIZE)%nat -> content (dst s) !! slot (Z.of_nat j) = L !! j).
  { intros j Hj. unfold L. case_decide as Hd'.
    - destruct (decide (j = b)) as [->|].
      + rewrite list_lookup_insert_eq by (rewrite length_take; lia). unfold c.
        apply list_lookup_lookup_total_lt. rewrite Hlen. apply slot_lt.
      + rewrite list_lookup_insert_ne, lookup_take, decide_True by lia.
        destruct (Hc' j Hj) as [|[? _]]; [done|lia].
    - rewrite lookup_take, decide_True by lia. destruct (Hc' j Hj) as [|[? _]]; [done|lia]. }
  exists L. split_and!; [|done|].
  - split; [done|by rewrite HL|]. rewrite HL. intros j Hj HN. apply Hch. lia.
  - intros j Hj. destruct (decide (seen s <= j + Z.to_nat SIZE)%nat).
    + rewrite <- Hch by lia. apply Hc'. lia.
    + left. unfold L. case_decide; [rewrite list_lookup_insert_ne by lia|]; by rewrite lookup_take, decide_True by lia.
Qed.

Lemma piece_drop F L H :
  (H <= length L <= H + Z.to_nat SIZE)%nat ->
  (forall j, (j < length L)%nat -> L !! j = F !! j \/ (j + Z.to_nat SIZE = length L)%nat /\ L !! j = F !! length L) ->
  piece F H (length L - H) (drop H L).
Proof.
  intros HH HL. split; [by rewrite length_drop|]. intros j Hj. rewrite lookup_drop.
  destruct (HL (H + j)%nat ltac:(lia)) as [|[He ->]]; [by left|right]. split; [lia|].
  by replace (length L) with (H + Z.to_nat SIZE)%nat by lia.
Qed.

Lemma piece_take F H n txt size : piece F H n txt -> piece F H (size `min` n) (take size txt).
Proof.
  intros [Hl Hj]. split; [rewrite length_take; lia|]. intros j Hlt. rewrite lookup_take, decide_True by lia.
  apply Hj. lia.
Qed.

(** The text of a copy from a position on. *)
Lemma dump_taken F n p H :
  taken F n p -> Z.of_nat (length F) < 2 ^ 32 -> (H <= n)%nat ->
  (n <= length F)%nat /\ tail p = u32 (Z.of_nat n) /\
  exists txt m, dump_delta p (u32 (Z.of_nat H)) = (txt, m) /\ (txt = [] <-> H = n) /\
    ((n <= H + Z.to_nat SIZE)%nat /\ m = 0 /\ piece F H (n - H) txt \/
     (H + Z.to_nat SIZE < n)%nat /\ m = Z.of_nat (n - Z.to_nat SIZE - H)).
Proof.
  intros Ht Hb HH. destruct (taken_ring F n p Ht Hb) as (HF & L & Hr & <- & HL).
  split_and!; [done|apply (shows_tail _ _ _ Hr)|]. eexists _, _.
  split; [apply (dump_delta_run 0 p L H); [done|done|lia|lia]|]. unfold start. split.
  - rewrite <- length_zero_iff_nil, length_drop. unfold SIZE. lia.
  - destruct (decide (length L <= H + Z.to_nat SIZE)%nat); [left|right; lia].
    rewrite Nat.max_l by lia. split_and!; [done|lia|]. by apply piece_drop.
Qed.

Lemma poll_finds k F n e u lo st H :
  Z.of_nat (length F) < 2 ^ 32 -> finds k F n e -> (lo <= n)%nat ->
  (st = true -> jailhouse_enabled e = false /\ n = lo) -> positioned k lo st u H ->
  poll e u = (inl (- ENOMEM), u) /\ memory e = false \/
  poll e u = (inl (- EAGAIN), u) /\ jailhouse_enabled e = false /\ last_console_id u = k /\ H = n \/
  (exists m u', poll e u = (inr ([], m), u') /\ H = n /\ positioned k n (negb (jailhouse_enabled e)) u' H) \/
  (exists txt m, poll e u = (inr (txt, m), u) /\ txt <> [] /\ (H < n)%nat /\
    last_console_id u <> k /\ head u = u32 (Z.of_nat H) /\
    ((n <= H + Z.to_nat SIZE)%nat /\ m = 0 /\ piece F H (n - H) txt \/
     (H + Z.to_nat SIZE < n)%nat /\ m = Z.of_nat (n - Z.to_nat SIZE - H))).
Proof.
  intros Hb [Ha Hf] Hlo Hst [HH Hp]. unfold poll. destruct (jailhouse_enabled e) eqn:He.
  - destruct Hf as [Hv Ht]. rewrite Hv, andb_false_r. unfold jailhouse_console_dump_delta. rewrite He, Ha. cbn [negb].
    destruct Hp as [[Hk Hh]|(_ & Hs & _)]; [|by destruct (Hst Hs)].
    destruct (memory e); cbn [negb]; [|by left]. do 2 right.
    destruct (dump_taken F n _ H Ht Hb) as (HF & Htl & txt & m & Hd & He0 & Hcase); [lia|]. rewrite Hh, Htl, Hd.
    destruct (decide (H = n)) as [->|Hne].
    + left. rewrite Z.eqb_refl. exists 0, u. by split_and!; [| |split; [|left]].
    + right. exists txt, m. split_and!; [|tauto|lia|done|done|done].
      rewrite (proj2 (Z.eqb_neq _ _)); [done|]. intros Heq. unfold u32, wrap in Heq.
      rewrite !Z.mod_small in Heq by lia. lia.
  - destruct Hf as (Hv & Hid & Ht). rewrite Hv, Hid, andb_true_r. destruct (Z.eqb_spec k (last_console_id u)) as [Hk|Hk]; cbn [negb].
    + right; left. unfold jailhouse_console_dump_delta. rewrite He. cbn [negb].
      destruct Hp as [[]|(_ & Hs & ->)]; [congruence|]. destruct (Hst Hs) as [_ ->]. done.
    + destruct Hp as [[_ Hh]|[]]; [|congruence]. do 2 right.
      destruct (dump_taken F n _ H Ht Hb) as (HF & Htl & txt & m & Hd & He0 & Hcase); [lia|]. rewrite Hh, Hd. cbn [fst].
      destruct (decide (H = n)) as [->|Hne].
      * left. rewrite (proj2 He0) by done. exists m, (set_last_id k u). split_and!; [done|done|]. split; [done|]. by right.
      * right. exists txt, m. destruct txt; [by destruct Hne; apply He0|]. by split_and!; [| |lia|congruence| |].
Qed.

(** *** What reads answer *)

(** A call of [read] on the file, with the rounds of its loop. *)
Record call := mk_call { c_nonblock : bool; c_size : nat; c_fault : bool; c_rounds : list (env * nat) }.

(** The answer of a call at a position, and the next position: text, the
    notice of missed characters, both lost if they cannot be copied to the
    user; errors; and a reader that is still waiting. *)
Inductive answer (missed_text : Z -> list Z) (F : list Z) (c : call) (H : nat) : option (Z + list Z) -> nat -> Prop :=
  | answer_text e n txt :
      (e, n) ∈ c_rounds c -> (H < n <= H + Z.to_nat SIZE)%nat -> piece F H (c_size c `min` (n - H)) txt ->
      answer missed_text F c H (Some (if c_fault c then inl (- EFAULT) else inr txt)) (H + c_size c `min` (n - H))
  | answer_missed e n :
      (e, n) ∈ c_rounds c -> (H + Z.to_nat SIZE < n)%nat ->
      answer missed_text F c H
        (Some (if c_fault c then inl (- EFAULT)
               else inr (take (c_size c) (missed_text (Z.of_nat (n - Z.to_nat SIZE - H)))))) (n - Z.to_nat SIZE)
  | answer_nothing e :
      c_nonblock c = true -> (e, H) ∈ c_rounds c ->
      answer missed_text F c H (Some (inr [])) H
  | answer_again e :
      c_nonblock c = true -> (e, H) ∈ c_rounds c -> jailhouse_enabled e = false ->
      answer missed_text F c H (Some (inl (- EAGAIN))) H
  | answer_nomem e n :
      (e, n) ∈ c_rounds c -> memory e = false -> answer missed_text F c H (Some (inl (- ENOMEM))) H
  | answer_interrupted e n :
      (e, n) ∈ c_rounds c -> lock_taken e = false \/ signal_pending e = true ->
      answer missed_text F c H (Some (inl (- EINTR))) H
  | answer_waits :
      (c_nonblock c = true -> c_rounds c = []) -> (forall e n, (e, n) ∈ c_rounds c -> n = H) ->
      answer missed_text F c H None H.

Lemma read_answer f F k c u H rs :
  Z.of_nat (length F) < 2 ^ 32 -> forall pre lo st,
  c_rounds c = pre ++ rs -> (c_nonblock c = true -> pre = []) -> (forall e n, (e, n) ∈ pre -> n = H) ->
  session k F lo st rs -> positioned k lo st u H ->
  exists H', answer f F c H (fst <$> jailhouse_console_read f (c_nonblock c) (c_size c) (c_fault c) (fst <$> rs) u) H' /\
    forall r u', jailhouse_console_read f (c_nonblock c) (c_size c) (c_fault c) (fst <$> rs) u = Some (r, u') ->
      positioned k (reached lo rs) (ended st rs) u' H'.
Proof.
  intros Hb. revert u. induction rs as [|[e n] rs IH]; intros u pre lo st Hc Hpre Hpn Hs Hp.
  { exists H. rewrite app_nil_r in Hc. split; [|done]. apply answer_waits; rewrite Hc; auto. }
  pose proof (positioned_mono k F lo st _ u H Hs Hp) as Hmono. cbn [reached ended] in *.
  destruct Hs as (Hlo & Hf & Hst & Hs). cbn [fmap list_fmap fst jailhouse_console_read].
  assert (Hin : (e, n) ∈ c_rounds c) by (rewrite Hc; set_solver).
  destruct (lock_taken e) eqn:Hlock; cbn [negb]; [|exists H; split; [eapply answer_interrupted; eauto|by intros ? ? [= <- <-]]].
  assert (Hwait : c_nonblock c = false -> H = n -> forall u1, positioned k n (negb (jailhouse_enabled e)) u1 H ->
    exists H', answer f F c H (fst <$> if signal_pending e then Some (inl (- EINTR), u1)
        else jailhouse_console_read f (c_nonblock c) (c_size c) (c_fault c) (fst <$> rs) u1) H' /\
      forall r u', (if signal_pending e then Some (inl (- EINTR), u1)
        else jailhouse_console_read f (c_nonblock c) (c_size c) (c_fault c) (fst <$> rs) u1) = Some (r, u') ->
      positioned k (reached n rs) (ended (negb (jailhouse_enabled e)) rs) u' H').
  { intros Hnb -> u1 Hp1. destruct (signal_pending e) eqn:Hsig.
    - exists n. split; [eapply answer_interrupted; eauto|]. intros ? ? [= <- <-]. by eapply positioned_mono.
    - apply (IH u1 (pre ++ [(e, n)]) n (negb (jailhouse_enabled e))); [by rewrite <- app_assoc|congruence| |done|done].
      intros e' n' [|[= -> ->]%list_elem_of_singleton]%elem_of_app; eauto. }
  destruct (poll_finds k F n e u lo st H Hb Hf Hlo Hst Hp) as [(-> & Hm)|[(-> & He & Hk & Hn)|[(m & u1 & -> & Hn & Hp1)|
    (txt & m & -> & Hne & Hlt & Hk & Hh & Hcase)]]].
  - exists H. split; [by eapply answer_nomem|by intros ? ? [= <- <-]].
  - cbn [Z.eqb EAGAIN]. rewrite Z.eqb_refl. destruct (c_nonblock c) eqn:Hnb.
    + exists H. split; [apply (answer_again _ _ _ _ e); [done|by rewrite Hn|done]|by intros ? ? [= <- <-]].
    + apply Hwait; [done|done|]. split; [lia|]. right. by rewrite He.
  - destruct (c_nonblock c) eqn:Hnb; [|by apply Hwait].
    exists H. split; [apply (answer_nothing _ _ _ _ e); [done|by rewrite Hn]|]. intros ? ? [= <- <-]. by eapply positioned_mono.
  - destruct txt as [|x txt]; [done|]. unfold deliver. set (y := x :: txt) in *. clearbody y. clear x txt.
    assert (Hpos : forall H', (H' <= n)%nat -> positioned k (reached n rs) (ended (negb (jailhouse_enabled e)) rs) (set_head (u32 (Z.of_nat H')) u) H').
    { intros H' HH'. eapply positioned_mono; [done|]. split; [done|]. by left. }
    destruct Hcase as [(Hle & -> & Hpc)|(Hgt & ->)].
    + cbn [Z.eqb negb]. apply (piece_take _ _ _ _ (c_size c)) in Hpc. eexists. split; [by eapply answer_text|].
      intros ? ? [= <- <-]. rewrite Hh, (proj1 Hpc). replace (u32 (u32 _ + _)) with (u32 (Z.of_nat (H + c_size c `min` (n - H)))); [apply Hpos; lia|].
      unfold u32, wrap. rewrite Zplus_mod_idemp_l. f_equal. lia.
    + rewrite (proj2 (Z.eqb_neq _ 0)) by lia. cbn [negb]. eexists. split; [by eapply answer_missed|].
      intros ? ? [= <- <-]. rewrite Hh. replace (u32 (u32 _ + _)) with (u32 (Z.of_nat (n - Z.to_nat SIZE))); [apply Hpos; lia|].
      unfold u32, wrap. rewrite Zplus_mod_idemp_l. f_equal. lia.
Qed.

(** Successive reads of one open file, up to one that is still waiting. *)
Fixpoint read_all (f : Z -> list Z) (cs : list call) (u : user) : list (option (Z + list Z)) * user :=
  match cs with
  | [] => ([], u)
  | c :: cs =>
      match jailhouse_console_read f (c_nonblock c) (c_size c) (c_fault c) (fst <$> c_rounds c) u with
      | None => ([None], u)
      | Some (r, u) => let '(rs, u) := read_all f cs u in (Some r :: rs, u)
      end
  end.

(** Their answers, each at the position that the one before has left. *)
Inductive covers (missed_text : Z -> list Z) (F : list Z) : list call -> nat -> list (option (Z + list Z)) -> nat -> Prop :=
  | covers_nil H : covers missed_text F [] H [] H
  | covers_waits c cs H : answer missed_text F c H None H -> covers missed_text F (c :: cs) H [None] H
  | covers_cons c cs H r H' rs H'' :
      answer missed_text F c H (Some r) H' -> covers missed_text F cs H' rs H'' ->
      covers missed_text F (c :: cs) H (Some r :: rs) H''.

Lemma read_all_covers f F k cs u H lo st :
  Z.of_nat (length F) < 2 ^ 32 -> session k F lo st (concat (c_rounds <$> cs)) -> positioned k lo st u H ->
  exists H', covers f F cs H (fst (read_all f cs u)) H' /\
    (last_console_id (snd (read_all f cs u)) <> k -> head (snd (read_all f cs u)) = u32 (Z.of_nat H')).
Proof.
  intros Hb. revert u H lo st.
  induction cs as [|c cs IH]; intros u H lo st Hs Hp; cbn [fmap list_fmap concat read_all] in *.
  { exists H. split; [constructor|]. destruct Hp as (_ & [[_ Hh]|[Hk _]]); [done|by intros []]. }
  apply session_app in Hs as [Hs Hs'].
  destruct (read_answer f F k c u H (c_rounds c) Hb [] lo st) as (H1 & Ha & Hp1); [done|done|set_solver|done|done|].
  destruct (jailhouse_console_read _ _ _ _ _ _) as [[r u1]|]; cbn [fmap option_fmap option_map fst] in Ha.
  - destruct (IH u1 H1 _ _ Hs' (Hp1 _ _ eq_refl)) as (H2 & Hc & Hh).
    destruct (read_all f cs u1) as [rs u2]. exists H2. split; [by econstructor|done].
  - assert (H1 = H) as -> by by inversion Ha. exists H. split; [by constructor|].
    destruct Hp as (_ & [[_ Hh]|[Hk _]]); [done|by intros []].
Qed.

(** C23: Successive reads of the console file return the output [F] of the
    hypervisor in order, and no gap goes unreported. The reads happen while the
    hypervisor is enabled, with a virtual console, and after it is disabled,
    when the rest is read from the last page, but not beyond the next time it
    is enabled. They can block or not, be interrupted and fail; every copy of
    the page is one that [copy_console_page] leaves in some interleaving with
    the writer. Each answer is text that begins where the answer before has
    ended and is as long as the buffer of the user and the ring allow; or the
    notice of the number of characters that are skipped, which puts the file
    back to a ring before the end; or an error, which leaves the position,
    except that a fault of the user's memory loses what would have been
    returned. A read only waits while nothing new is there, and not at all if
    it does not block. The one exception to the order is that of the copy: if a
    text begins exactly a ring before the end, its first character can be the
    one that replaces it. Less than 2^32 characters are written. *)
Theorem reads_in_order f F k cs u H :
  Z.of_nat (length F) < 2 ^ 32 ->
  session k F H false (concat (c_rounds <$> cs)) ->
  last_console_id u <> k -> head u = u32 (Z.of_nat H) ->
  exists H', covers f F cs H (fst (read_all f cs u)) H' /\
    (last_console_id (snd (read_all f cs u)) <> k -> head (snd (read_all f cs u)) = u32 (Z.of_nat H')).
Proof.
  intros Hb Hs Hk Hh. apply (read_all_covers f F k cs u H H false); [done|done|]. split; [done|by left].
Qed.

(** *** The writer alone *)

(** the program of the writer is [console_write]: without the steps of a
    reader in between, the accesses of the writer add up to the function, which
    appends the message to what the page shows and clears the flag again. *)
Theorem writer_is_console_write msg s :
  sys_ok s -> wr s = Idle -> Forall (fun c => c <> 0) msg ->
  acts (Message msg :: replicate (2 * length msg + 1) Write) s =
    Some (mk_sys (console_write true msg (pg s)) Idle (rd s) (dst s) (log s ++ msg) (seen s)) /\
  ring (console_write true msg (pg s)) (log s ++ msg) /\ busy (console_write true msg (pg s)) = false.
Proof.
  intros [Hw _] Hi Hm. unfold writer_ok in Hw. rewrite Hi in Hw. destruct Hw as [_ Hr].
  split; [|split; [apply shows_busy, put_shows; [by apply shows_busy|done]|done]].
  assert (Hloop : forall p L, acts (replicate (2 * length msg + 1) Write) (mk_sys p (Busy msg) (rd s) (dst s) L (seen s)) =
    Some (mk_sys (set_busy false (put msg p)) Idle (rd s) (dst s) (L ++ msg) (seen s))).
  { clear Hr Hi. induction Hm as [|c msg Hc _ IH]; intros p L; [cbn; by rewrite app_nil_r|].
    replace (2 * length (c :: msg) + 1)%nat with (S (S (2 * length msg + 1))) by (cbn; lia).
    cbn [replicate acts act write_step wr pg]. rewrite (proj2 (Z.eqb_neq c 0)) by done.
    cbn [mbind option_bind write_step wr with_wr pg rd dst log seen]. rewrite IH. cbn [put]. rewrite (proj2 (Z.eqb_neq c 0)) by done.
    by rewrite <- app_assoc. }
  cbn [acts act]. rewrite Hi. cbn [mbind option_bind]. apply Hloop.
Qed.

(** what the driver gives out of a copy is what the hypervisor has written:
    however the copy was interleaved with output, the text from a position less
    than a buffer behind is the part of the log from there up to the tail that
    was read, and nothing is reported as missed. *)
Theorem delta_of_snapshot l s0 s H :
  sys_ok s0 -> acts l s0 = Some s -> rd s = Done ->
  Z.of_nat (length (log s)) < Z.of_nat (seen s) + 2 ^ 32 ->
  (H <= seen s < H + Z.to_nat SIZE)%nat ->
  dump_delta (dst s) (u32 (Z.of_nat H)) = (drop H (take (seen s) (log s)), 0).
Proof.
  intros H0 Hl Hd Hlt HH. destruct (acts_keeps l s0 s H0 Hl) as [Hw (Hlen & Hseen & Hr)]. rewrite Hd in Hr.
  specialize (Hr Hlt). set (L := take (seen s) (log s)).
  assert (HL : length L = seen s) by (unfold L; rewrite length_take; lia).
  rewrite (dump_delta_run (S (seen s) - Z.to_nat SIZE) _ L H).
  - unfold start. rewrite HL, Nat.max_l, Z.sub_diag by lia. done.
  - split; [done|rewrite HL; by apply (Hr Ftail); right; left|]. rewrite HL. intros j Hj HN.
    destruct (Hr (Fchar (slot (Z.of_nat j))) (fields_char _ (slot_lt _)) j ltac:(lia) eq_refl) as [->|[? _]]; [|lia].
    destruct (log_written s) as [k ->]. unfold L. rewrite lookup_take, decide_True, lookup_app_l by lia. done.
  - rewrite HL. lia.
  - rewrite HL. unfold SIZE in HH. lia.
  - rewrite HL. unfold start. lia.
Qed.
