(* ===== verification/ConsoleScenario.v ===== *)
(** * Scenarios of the console page

    Concrete runs of [ConsoleLog]: the hypotheses of its theorems hold, and
    what goes wrong does. *)

From Stdlib Require Import ZArith Lia.
From stdpp Require Import base tactics list list_numbers option sets.
From S2P Require Import Prelude ConsoleLog.

Definition blank : page := mk_page false 0 (replicate (Z.to_nat SIZE) 0).
Definition demo (p : page) (L : list Z) : sys := mk_sys p Idle Spin blank L 0.

Lemma blank_ring : ring blank [].
Proof. split; [reflexivity|reflexivity|]. cbn. lia. Qed.

(** After some output. *)
Definition full : list Z := replicate 2048 97.
Definition full_page : page := console_write true full blank.

Lemma full_ring : ring full_page full.
Proof.
  apply shows_busy. apply (put_shows 0 full _ []); [apply shows_busy, blank_ring|].
  apply Forall_replicate. lia.
Qed.

Lemma demo_sys_ok p L : ring p L -> busy p = false -> sys_ok (demo p L).
Proof. intros Hr Hb. split; [by split|]. split_and!; [done|cbn; lia|done]. Qed.

(** The copy is made while a character is written. *)
Definition raced : list action :=
  [Read 0; Message [98]; Read 0; Write] ++ replicate 2050 (Read 0) ++ [Read 0; Read 0; Write; Write; Read 0].

Lemma raced_run : exists s, acts raced (demo full_page full) = Some s /\ rd s = Done /\ seen s = 2048%nat /\
  log s = full ++ [98] /\ written s = full ++ [98].
Proof. eexists. split; [vm_compute; reflexivity|]. repeat split. Qed.

(** The loop is left with a copy whose oldest character is the newest one. *)
Example snapshot_race : exists s,
  acts raced (demo full_page full) = Some s /\ rd s = Done /\ tail (dst s) = 2048 /\
  take 2 full = [97; 97] /\ take 2 (fst (dump_delta (dst s) 0)) = [98; 97].
Proof. eexists. split; [vm_compute; reflexivity|]. vm_compute. repeat split. Qed.

Lemma snapshot_consistent_witness : exists s,
  (seen s <= length (log s))%nat /\ length (content (dst s)) = Z.to_nat SIZE /\
  tail (dst s) = u32 (Z.of_nat (seen s)) /\
  forall j, (j < seen s <= j + Z.to_nat SIZE)%nat ->
    content (dst s) !! slot (Z.of_nat j) = log s !! j \/
    seen s = (j + Z.to_nat SIZE)%nat /\ content (dst s) !! slot (Z.of_nat j) = written s !! seen s.
Proof.
  destruct raced_run as (s & Hr & Hd & Hs & Hl & _). exists s.
  apply (snapshot_consistent raced (demo full_page full) s); [apply demo_sys_ok; [apply full_ring|reflexivity]|exact Hr|exact Hd|].
  rewrite Hl, Hs. reflexivity.
Defined.

Lemma delta_of_snapshot_witness : exists s,
  acts raced (demo full_page full) = Some s /\
  dump_delta (dst s) (u32 (Z.of_nat 1000)) = (drop 1000 (take (seen s) (log s)), 0).
Proof.
  destruct raced_run as (s & Hr & Hd & Hs & Hl & _). exists s. split; [exact Hr|].
  apply (delta_of_snapshot raced (demo full_page full) s); [apply demo_sys_ok; [apply full_ring|reflexivity]|exact Hr|exact Hd| |].
  - rewrite Hl, Hs. reflexivity.
  - rewrite Hs. change (Z.to_nat SIZE) with 2048%nat. lia.
Defined.

Lemma copy_console_page_ends_witness :
  acts (replicate (length fields + 5) (Read 0)) (demo full_page full) =
  Some (mk_sys full_page Idle Done full_page full (length full)).
Proof. apply (copy_console_page_ends (demo full_page full)); [apply demo_sys_ok; [apply full_ring|reflexivity]|reflexivity..]. Defined.

Lemma writer_is_console_write_witness :
  acts (Message [104; 105] :: replicate 5 Write) (demo blank []) =
    Some (mk_sys (console_write true [104; 105] blank) Idle Spin blank [104; 105] 0) /\
  ring (console_write true [104; 105] blank) [104; 105] /\ busy (console_write true [104; 105] blank) = false.
Proof.
  apply (writer_is_console_write [104; 105] (demo blank [])); [apply demo_sys_ok; [apply blank_ring|reflexivity]|reflexivity|].
  repeat constructor; lia.
Defined.

(** ** Reading *)

Definition notice (n : Z) : list Z := [60; n; 62].
Definition sees (p : page) : env := mk_env true true true false 0 blank p true false.

Definition text1 : list Z := [104; 105].
Definition page1 : page := console_write true text1 blank.
Definition page2 : page := console_write true full page1.

Lemma page1_ring : ring page1 text1.
Proof. apply shows_busy, (put_shows 0 text1 _ []); [apply shows_busy, blank_ring|repeat constructor; lia]. Qed.
Lemma page2_ring : ring page2 (text1 ++ full).
Proof. apply shows_busy, put_shows; [apply shows_busy, page1_ring|apply Forall_replicate; lia]. Qed.

(** The copy of a page that is not written meanwhile. *)
Lemma taken_quiet F p L : ring p L -> busy p = false -> L `prefix_of` F -> taken F (length L) p.
Proof.
  intros Hr Hb HF. exists (replicate (length fields + 5) (Read 0)), (demo p L), (mk_sys p Idle Done p L (length L)).
  split_and!; try done; [by apply demo_sys_ok|]. apply (copy_console_page_ends (demo p L)); [by apply demo_sys_ok|done|done].
Qed.

Definition output : list Z := text1 ++ full.
Definition gone : env := mk_env true false true true 1 page2 blank true true.

Lemma sees_finds L p :
  ring p L -> busy p = false -> L `prefix_of` output -> finds 1 output (length L) (sees p).
Proof. intros. split; [reflexivity|]. split; [reflexivity|]. by apply taken_quiet. Qed.

Lemma gone_finds : finds 1 output 2050 gone.
Proof. split; [reflexivity|]. split; [reflexivity|]. split; [reflexivity|]. exact (taken_quiet output page2 output page2_ring eq_refl (reflexivity _)). Qed.

(** A character is read; then the ring overflows by one; some text is lost by
    a fault; the rest is read after the hypervisor is disabled; and then there
    is nothing to come. The last two calls block. *)
Definition reads : list call :=
  [mk_call true 1 false [(sees page1, 2%nat)]; mk_call true 3 false [(sees page2, 2050%nat)];
   mk_call true 2040 true [(sees page2, 2050%nat)]; mk_call false 100 false [(gone, 2050%nat)];
   mk_call true 100 false [(gone, 2050%nat)]; mk_call false 100 false [(gone, 2050%nat)]].

Example reads_result :
  read_all notice reads (mk_user 0 0) =
  ([Some (inr [104]); Some (inr [60; 1; 62]); Some (inl (- EFAULT)); Some (inr (replicate 8 97)); Some (inr []);
    Some (inl (- EINTR))], mk_user 0 1).
Proof. vm_compute. reflexivity. Qed.

Lemma reads_session : session 1 output 0 false (concat (c_rounds <$> reads)).
Proof.
  assert (H1 : finds 1 output 2 (sees page1)) by (apply (sees_finds text1); [apply page1_ring|reflexivity|by exists full]).
  assert (H2 : finds 1 output 2050 (sees page2)) by (apply (sees_finds output); [apply page2_ring|reflexivity|done]).
  assert (H3 := gone_finds). cbn. repeat match goal with |- _ /\ _ => split end; try done; try lia.
Qed.

Lemma reads_in_order_witness : exists H',
  covers notice output reads 0 (fst (read_all notice reads (mk_user 0 0))) H' /\
  (last_console_id (snd (read_all notice reads (mk_user 0 0))) <> 1 ->
   head (snd (read_all notice reads (mk_user 0 0))) = u32 (Z.of_nat H')).
Proof.
  apply (reads_in_order notice output 1 reads (mk_user 0 0) 0); [reflexivity|exact reads_session|discriminate|reflexivity].
Defined.

(** The text that a fault of the user's memory has lost is not read again. *)
Example fault_loses_text :
  jailhouse_console_read notice true 2 true [sees page1] (mk_user 0 0) = Some (inl (- EFAULT), mk_user 2 0) /\
  jailhouse_console_read notice true 2 false [sees page1] (mk_user 2 0) = Some (inr [], mk_user 2 0).
Proof. split; vm_compute; reflexivity. Qed.

(** A file that was open while the hypervisor was disabled and enabled again,
    and that is read without blocking: its position is not reset, so that
    nearly 2^32 characters are reported as missed. *)
Definition disabled : env := mk_env true false true false 0 blank blank true false.
Example stale_position :
  jailhouse_console_read notice true 9 false [disabled] (mk_user 100 0) = Some (inl (- EAGAIN), mk_user 100 0) /\
  jailhouse_console_read notice true 9 false [sees page1] (mk_user 100 0) =
    Some (inr (notice (2 ^ 32 - 98 - 2048)), mk_user (2 ^ 32 + 2 - 2048) 0).
Proof. split; vm_compute; reflexivity. Qed.
