(* ===== verification/GicCpu.v ===== *)
(** * The CPU interface of the interrupt controller

    The part of hypervisor/arch/arm-common/gic-v2.c and irqchip.c that takes
    the CPU interface over from Linux when the hypervisor starts on a CPU, sets
    it to a defined state when a cell is reset, and gives it back when the
    hypervisor is disabled, with the interrupts that are pending in the list
    registers and in the software queue of [Irqchip]. Registers are variables;
    writes to the distributor are kept in the order they are made. The build
    is the one without TDMA, whose call in the reset is in [Tdma]. *)

From Stdlib Require Import ZArith Lia.
From stdpp Require Import base tactics list list_numbers option.
From S2P Require Import Prelude Irqchip Distributor.

Definition GICD_SPENDSGIR : Z := 3872.
Definition GICC_CTLR_GRPEN1 : Z := Z.shiftl 1 0.
Definition GICC_CTLR_EOImode : Z := Z.shiftl 1 9.
Definition GICC_PMR_DEFAULT : Z := 240.
Definition GICV_PMR_SHIFT : Z := 3.
Definition GICH_VMCR_PMR_SHIFT : Z := 27.
Definition GICH_VMCR_EN0 : Z := Z.shiftl 1 0.
Definition GICH_VMCR_EOImode : Z := Z.shiftl 1 9.
Definition GICH_HCR_EN : Z := Z.shiftl 1 0.
Definition ENODEV : Z := 19.
Definition ENOENT : Z := 2.

(** A CPU's interface and what the code keeps for it; [target] is its entry of
    [gicv2_target_cpu_map], [dist] the writes to the distributor. *)
Record gic_cpu := mk_gic_cpu {
  irq : cpu_irq;
  gicc_ctlr : Z;
  gicc_pmr : Z;
  gich_vmcr : Z;
  gich_apr : Z;
  gicc_initialized : bool;
  target : Z;
  dist : list (Z * Z);
}.

Definition set_irq (c : cpu_irq) (g : gic_cpu) : gic_cpu :=
  mk_gic_cpu c (gicc_ctlr g) (gicc_pmr g) (gich_vmcr g) (gich_apr g) (gicc_initialized g) (target g) (dist g).
Definition set_hcr (x : Z) (g : gic_cpu) : gic_cpu := set_irq (mk_cpu_irq (pending (irq g)) (lrs (irq g)) x) g.
Definition set_lrs (l : list Z) (g : gic_cpu) : gic_cpu := set_irq (mk_cpu_irq (pending (irq g)) l (gich_hcr (irq g))) g.
Definition set_pending (p : pending_irqs) (g : gic_cpu) : gic_cpu :=
  set_irq (mk_cpu_irq p (lrs (irq g)) (gich_hcr (irq g))) g.
Definition set_gicc (ctlr pmr : Z) (g : gic_cpu) : gic_cpu :=
  mk_gic_cpu (irq g) ctlr pmr (gich_vmcr g) (gich_apr g) (gicc_initialized g) (target g) (dist g).
Definition set_vmcr (x : Z) (g : gic_cpu) : gic_cpu :=
  mk_gic_cpu (irq g) (gicc_ctlr g) (gicc_pmr g) x (gich_apr g) (gicc_initialized g) (target g) (dist g).
Definition set_apr (x : Z) (g : gic_cpu) : gic_cpu :=
  mk_gic_cpu (irq g) (gicc_ctlr g) (gicc_pmr g) (gich_vmcr g) x (gicc_initialized g) (target g) (dist g).
Definition set_initialized (x : Z) (g : gic_cpu) : gic_cpu :=
  mk_gic_cpu (irq g) (gicc_ctlr g) (gicc_pmr g) (gich_vmcr g) (gich_apr g) true x (dist g).
(** [mmio_write(gicd_base + offset, value)] *)
Definition gicd_write (offset value : Z) (g : gic_cpu) : gic_cpu :=
  mk_gic_cpu (irq g) (gicc_ctlr g) (gicc_pmr g) (gich_vmcr g) (gich_apr g) (gicc_initialized g) (target g)
    (dist g ++ [(offset, value)]).

Section GicCpu.
(** The maintenance interrupt of the configuration; what GICH_VTR and the
    banked GICD_ITARGETSR of the CPU read. *)
Context (mnt_irq vtr itargetsr : Z).

(** [gic_num_lr] *)
Definition gic_num_lr : nat := Z.to_nat (Z.land vtr 63 + 1).

(** [for (n = 0; n < gic_num_lr; n++) gicv2_write_lr(n, 0)] *)
Definition gicv2_clear_pending_irqs (g : gic_cpu) : gic_cpu :=
  set_apr 0 (set_lrs (foldl (fun l n => <[n := 0]> l) (lrs (irq g)) (seq 0 gic_num_lr)) g).

Definition gicv2_cpu_reset (g : gic_cpu) : gic_cpu :=
  let g := gicv2_clear_pending_irqs g in
  let g := gicd_write GICD_ISENABLER (Z.lor (2 ^ 16 - 1) (u32 (Z.shiftl 1 mnt_irq))) g in
  let g := gicd_write GICD_ICENABLER (Z.ldiff (2 ^ 32 - 2 ^ 16) (u32 (Z.shiftl 1 mnt_irq))) g in
  let g := gicd_write GICD_ICACTIVER (2 ^ 32 - 2 ^ 16) g in
  set_vmcr 0 g.

Definition irqchip_cpu_reset (g : gic_cpu) : gic_cpu :=
  let p := pending (irq g) in
  gicv2_cpu_reset (set_pending (mk_pending_irqs (p_lock p) (p_irqs p) (p_sender p) 0 0) g).

(** [cell_gicc_ctlr] and [cell_gicc_pmr] as GICH_VMCR. *)
Definition vmcr_of (cell_gicc_ctlr cell_gicc_pmr : Z) : Z :=
  let vmcr := u32 (Z.shiftl (Z.shiftr cell_gicc_pmr GICV_PMR_SHIFT) GICH_VMCR_PMR_SHIFT) in
  let vmcr := if negb (Z.land cell_gicc_ctlr GICC_CTLR_GRPEN1 =? 0) then Z.lor vmcr GICH_VMCR_EN0 else vmcr in
  if negb (Z.land cell_gicc_ctlr GICC_CTLR_EOImode =? 0) then Z.lor vmcr GICH_VMCR_EOImode else vmcr.

Definition gicv2_cpu_init (cpu_id : Z) (g : gic_cpu) : Z * gic_cpu :=
  let g := gicd_write GICD_ISENABLER (Z.lor (2 ^ 16 - 1) (u32 (Z.shiftl 1 mnt_irq))) g in
  let cell_gicc_ctlr := gicc_ctlr g in
  let cell_gicc_pmr := gicc_pmr g in
  let g := set_gicc (Z.lor GICC_CTLR_GRPEN1 GICC_CTLR_EOImode) GICC_PMR_DEFAULT g in
  let g := set_vmcr (vmcr_of cell_gicc_ctlr cell_gicc_pmr) g in
  let g := set_hcr GICH_HCR_EN g in
  let g := gicv2_clear_pending_irqs g in
  let g := set_initialized (target g) g in
  if 8 <=? cpu_id then (- EINVAL, g)
  else
    let g := set_initialized (u8 itargetsr) g in
    if u8 itargetsr =? 0 then (- ENODEV, g) else (0, g).

Definition gicv2_cpu_shutdown (g : gic_cpu) : Z * gic_cpu :=
  let vmcr := gich_vmcr g in
  if negb (gicc_initialized g) then (- ENODEV, g)
  else
    let g := set_hcr 0 g in
    let g := gicd_write GICD_ICENABLER (u32 (Z.shiftl 1 mnt_irq)) g in
    let ctlr := if negb (Z.land vmcr GICH_VMCR_EN0 =? 0) then GICC_CTLR_GRPEN1 else 0 in
    let ctlr := if negb (Z.land vmcr GICH_VMCR_EOImode =? 0) then Z.lor ctlr GICC_CTLR_EOImode else ctlr in
    (0, set_gicc ctlr (u32 (Z.shiftl (Z.shiftr vmcr GICH_VMCR_PMR_SHIFT) GICV_PMR_SHIFT)) g).

Definition lr_is_pending (lr : Z) : bool := negb (Z.land lr GICH_LR_PENDING_BIT =? 0).

Fixpoint has_pending_loop (l : list Z) (i n : nat) : option bool :=
  match n with
  | O => Some false
  | S n => lr ← gicv2_read_lr l i; if lr_is_pending lr then Some true else has_pending_loop l (S i) n
  end.
Definition gicv2_has_pending_irqs (g : gic_cpu) : option bool := has_pending_loop (lrs (irq g)) 0 gic_num_lr.

Fixpoint get_pending_loop (l : list Z) (i n : nat) : option (Z * list Z) :=
  match n with
  | O => Some (- ENOENT, l)
  | S n =>
      lr ← gicv2_read_lr l i;
      if lr_is_pending lr then Some (Z.land lr GICH_LR_VIRT_ID_MASK, <[i := 0]> l)
      else get_pending_loop l (S i) n
  end.
Definition gicv2_get_pending_irq (g : gic_cpu) : option (Z * gic_cpu) :=
  '(r, l) ← get_pending_loop (lrs (irq g)) 0 gic_num_lr; Some (r, set_lrs l g).

Definition gicv2_inject_phys_irq (irq_id : Z) (g : gic_cpu) : gic_cpu :=
  let offset := irq_id / 32 * 4 in
  let mask := u32 (Z.shiftl 1 (irq_id mod 32)) in
  if is_sgi irq_id then gicd_write (GICD_SPENDSGIR + irq_id) 1 g
  else gicd_write (GICD_ISPENDR + offset) mask (gicd_write (GICD_ICACTIVER + offset) mask g).

(** [do { irq_id = irqchip.get_pending_irq(); ... } while (irq_id >= 0)] *)
Fixpoint migrate_lrs (fuel : nat) (g : gic_cpu) : option gic_cpu :=
  match fuel with
  | O => None
  | S fuel =>
      '(irq_id, g) ← gicv2_get_pending_irq g;
      if 0 <=? irq_id then migrate_lrs fuel (gicv2_inject_phys_irq irq_id g) else Some g
  end.

(** [while (pending->head != pending->tail)] *)
Fixpoint migrate_queue (fuel : nat) (g : gic_cpu) : option gic_cpu :=
  let p := pending (irq g) in
  if p_head p =? p_tail p then Some g
  else
    match fuel with
    | O => None
    | S fuel =>
        irq_id ← aget (p_irqs p) (p_head p);
        let g := gicv2_inject_phys_irq irq_id g in
        migrate_queue fuel
          (set_pending (mk_pending_irqs (p_lock p) (p_irqs p) (p_sender p)
             (u32 (p_head p + 1) mod MAX_PENDING_IRQS) (p_tail p)) g)
    end.

Definition irqchip_cpu_shutdown (g : gic_cpu) : option gic_cpu :=
  let '(err, g) := gicv2_cpu_shutdown g in
  if err <? 0 then Some g
  else g ← migrate_lrs (S gic_num_lr) g; migrate_queue (Z.to_nat MAX_PENDING_IRQS) g.

(** ** Taking over and giving back *)

Lemma land_pow2_bit x k : 0 <= k -> (Z.land x (Z.shiftl 1 k) =? 0) = negb (Z.testbit x k).
Proof.
  intros Hk. rewrite Z.shiftl_1_l. destruct (Z.testbit x k) eqn:Hb; cbn [negb].
  - apply Z.eqb_neq. intros H. apply (f_equal (fun y => Z.testbit y k)) in H.
    rewrite Z.land_spec, Hb, Z.pow2_bits_true, Z.bits_0 in H by lia. done.
  - apply Z.eqb_eq, Z.bits_inj'. intros n Hn. rewrite Z.land_spec, Z.pow2_bits_eqb, Z.bits_0 by lia.
    destruct (Z.eqb_spec k n) as [->|]; [by rewrite Hb|by rewrite andb_false_r].
Qed.

(** The priority mask in the five bits that GICH_VMCR has for it. *)
Definition coarse (pmr : Z) : Z := Z.shiftl (Z.shiftr pmr 3) 3.

Lemma vmcr_bits ctlr pmr :
  0 <= pmr < 256 ->
  Z.testbit (vmcr_of ctlr pmr) 0 = Z.testbit ctlr 0 /\ Z.testbit (vmcr_of ctlr pmr) 9 = Z.testbit ctlr 9 /\
  Z.shiftr (vmcr_of ctlr pmr) 27 = Z.shiftr pmr 3.
Proof.
  intros Hp. assert (Hs : 0 <= Z.shiftr pmr 3 < 32).
  { rewrite Z.shiftr_div_pow2 by lia. split; [apply Z.div_pos; lia|apply Z.div_lt_upper_bound; lia]. }
  unfold vmcr_of, GICC_CTLR_GRPEN1, GICC_CTLR_EOImode, GICH_VMCR_EN0, GICH_VMCR_EOImode, GICV_PMR_SHIFT, GICH_VMCR_PMR_SHIFT.
  rewrite !land_pow2_bit, !negb_involutive by lia.
  rewrite u32_small by (rewrite Z.shiftl_mul_pow2 by lia; lia).
  set (q := Z.shiftr pmr 3) in *.
  assert (Hlow : forall k, 0 <= k < 27 -> Z.testbit (Z.shiftl q 27) k = false)
    by (intros k Hk; apply Z.shiftl_spec_low; lia).
  assert (Hhigh : Z.shiftr (Z.shiftl q 27) 27 = q) by (rewrite Z.shiftr_shiftl_l by lia; apply Z.shiftl_0_r).
  destruct (Z.testbit ctlr 0), (Z.testbit ctlr 9); rewrite ?Z.lor_spec, ?Z.shiftr_lor, ?Hhigh, !Hlow by lia;
    split_and!; try reflexivity; by rewrite ?Z.lor_0_r.
Qed.

Lemma land_low_bits x : Z.land x (Z.lor GICC_CTLR_GRPEN1 GICC_CTLR_EOImode) =
  (let c := if Z.testbit x 0 then GICC_CTLR_GRPEN1 else 0 in if Z.testbit x 9 then Z.lor c GICC_CTLR_EOImode else c).
Proof.
  unfold GICC_CTLR_GRPEN1, GICC_CTLR_EOImode. rewrite !Z.shiftl_1_l. cbv zeta. apply Z.bits_inj'. intros n Hn.
  rewrite Z.land_spec, Z.lor_spec, !Z.pow2_bits_eqb by lia.
  destruct (Z.testbit x 0) eqn:H0, (Z.testbit x 9) eqn:H9; rewrite ?Z.lor_spec, ?Z.pow2_bits_eqb, ?Z.bits_0 by lia;
    destruct (Z.eqb_spec 0 n) as [<-|]; try destruct (Z.eqb_spec 9 n) as [<-|]; rewrite ?H0, ?H9, ?andb_false_r; done.
Qed.

(** Linux gets its CPU interface back: taking the interface over succeeds
    on every CPU that the target map has room for, and giving it back without
    a change by the guest restores group enable, EOI mode and the upper five
    bits of the priority mask; the hypervisor's interface is off. *)
Theorem init_shutdown_roundtrip (cpu_id : Z) (g : gic_cpu) :
  0 <= cpu_id < 8 -> u8 itargetsr <> 0 -> 0 <= gicc_pmr g < 256 ->
  exists g1 g2, gicv2_cpu_init cpu_id g = (0, g1) /\ gicv2_cpu_shutdown g1 = (0, g2) /\
    gicc_ctlr g2 = Z.land (gicc_ctlr g) (Z.lor GICC_CTLR_GRPEN1 GICC_CTLR_EOImode) /\
    gicc_pmr g2 = coarse (gicc_pmr g) /\ gich_hcr (irq g2) = 0.
Proof.
  intros Hc Ht Hp. unfold gicv2_cpu_init. rewrite (proj2 (Z.leb_gt _ _)) by lia.
  cbn [gicc_pmr gicc_ctlr gicd_write]. rewrite (proj2 (Z.eqb_neq _ _)) by done. eexists _, _.
  split; [reflexivity|]. split; [reflexivity|]. cbn [set_gicc gicc_ctlr gicc_pmr gich_vmcr gicv2_clear_pending_irqs
    set_apr set_lrs set_irq set_hcr set_vmcr set_initialized gicd_write irq gich_hcr].
  destruct (vmcr_bits (gicc_ctlr g) (gicc_pmr g) Hp) as (H0 & H9 & H27).
  split_and!; [| |done].
  - rewrite land_low_bits. unfold GICH_VMCR_EN0, GICH_VMCR_EOImode. rewrite !land_pow2_bit, !negb_involutive, H0, H9 by lia. done.
  - unfold GICH_VMCR_PMR_SHIFT, GICV_PMR_SHIFT, coarse. rewrite H27. apply u32_small.
    rewrite Z.shiftl_mul_pow2, Z.shiftr_div_pow2 by lia. split; [apply Z.mul_nonneg_nonneg; [apply Z.div_pos; lia|lia]|].
    apply Z.le_lt_trans with (gicc_pmr g); [|lia]. rewrite Z.mul_comm. apply Z.mul_div_le. lia.
Qed.

(** ** Migrating what is pending *)

Definition phys_writes (irq_id : Z) : list (Z * Z) :=
  let offset := irq_id / 32 * 4 in
  let mask := u32 (Z.shiftl 1 (irq_id mod 32)) in
  if is_sgi irq_id then [(GICD_SPENDSGIR + irq_id, 1)]
  else [(GICD_ICACTIVER + offset, mask); (GICD_ISPENDR + offset, mask)].

Definition gicd_writes (l : list (Z * Z)) (g : gic_cpu) : gic_cpu :=
  mk_gic_cpu (irq g) (gicc_ctlr g) (gicc_pmr g) (gich_vmcr g) (gich_apr g) (gicc_initialized g) (target g) (dist g ++ l).

Lemma inject_phys_writes i g : gicv2_inject_phys_irq i g = gicd_writes (phys_writes i) g.
Proof.
  unfold gicv2_inject_phys_irq, phys_writes. destruct (is_sgi i); [done|].
  unfold gicd_write, gicd_writes. cbn. by rewrite <- app_assoc.
Qed.

(** The interrupts that are pending in list registers, and the registers
    without them. *)
Definition pending_ids (l : list Z) : list Z :=
  (fun lr => Z.land lr GICH_LR_VIRT_ID_MASK) <$> filter (fun lr => lr_is_pending lr = true) l.
Definition silence (l : list Z) : list Z := (fun lr => if lr_is_pending lr then 0 else lr) <$> l.

Lemma get_pending_cases pre l :
  pending_ids l = [] /\ silence l = l /\
    get_pending_loop (pre ++ l) (length pre) (length l) = Some (- ENOENT, pre ++ l) \/
  exists i l', get_pending_loop (pre ++ l) (length pre) (length l) = Some (i, pre ++ l') /\ 0 <= i /\
    length l' = length l /\ pending_ids l = i :: pending_ids l' /\ silence l' = silence l.
Proof.
  revert pre. induction l as [|lr l IH]; intros pre; [by left|]. cbn [length get_pending_loop].
  unfold gicv2_read_lr. rewrite list_lookup_middle by done. cbn [mbind option_bind].
  unfold pending_ids, silence. rewrite filter_cons, !fmap_cons. fold (silence l). destruct (lr_is_pending lr) eqn:Hp.
  - right. exists (Z.land lr GICH_LR_VIRT_ID_MASK), (0 :: l). rewrite insert_app_r_alt, Nat.sub_diag by lia.
    rewrite decide_True by done. rewrite filter_cons, decide_False by done.
    split_and!; [done|by apply Z.land_nonneg; right|done|done|done].
  - rewrite decide_False by done. replace (pre ++ lr :: l) with ((pre ++ [lr]) ++ l) by by rewrite <- app_assoc.
    replace (S (length pre)) with (length (pre ++ [lr])) by (rewrite length_app; cbn; lia).
    destruct (IH (pre ++ [lr])) as [(Hids & Hs & ->)|(i & l' & -> & Hi & Hl & Hids & Hs)].
    + left. by rewrite Hs.
    + right. exists i, (lr :: l'). rewrite filter_cons, decide_False by congruence. rewrite fmap_cons, Hp. fold (silence l').
      rewrite <- app_assoc, Hs. split_and!; [done|done|cbn; by rewrite Hl|done|done].
Qed.

Lemma pending_silence l : pending_ids (silence l) = [].
Proof.
  unfold pending_ids, silence. induction l as [|lr l IH]; [done|]. rewrite fmap_cons, filter_cons.
  destruct (lr_is_pending lr) eqn:Hp; rewrite decide_False by (rewrite ?Hp; done); exact IH.
Qed.

Lemma has_pending_run pre l :
  has_pending_loop (pre ++ l) (length pre) (length l) = Some (negb (bool_decide (pending_ids l = []))).
Proof.
  revert pre. induction l as [|lr l IH]; intros pre; [done|]. cbn [length has_pending_loop].
  unfold gicv2_read_lr. rewrite list_lookup_middle by done. cbn [mbind option_bind].
  unfold pending_ids. rewrite filter_cons. destruct (lr_is_pending lr) eqn:Hp.
  - by rewrite decide_True by done.
  - rewrite decide_False by done. replace (pre ++ lr :: l) with ((pre ++ [lr]) ++ l) by by rewrite <- app_assoc.
    replace (S (length pre)) with (length (pre ++ [lr])) by (rewrite length_app; cbn; lia). apply IH.
Qed.

(** A list register is pending exactly when an interrupt would be migrated. *)
Lemma gicv2_has_pending_irqs_run g :
  length (lrs (irq g)) = gic_num_lr ->
  gicv2_has_pending_irqs g = Some (negb (bool_decide (pending_ids (lrs (irq g)) = []))).
Proof. intros Hn. unfold gicv2_has_pending_irqs. rewrite <- Hn. apply (has_pending_run []). Qed.

Lemma clear_lrs l n : (n <= length l)%nat -> foldl (fun l n => <[n := 0]> l) l (seq 0 n) = replicate n 0 ++ drop n l.
Proof.
  induction n as [|n IH]; intros Hn; [done|]. rewrite seq_S, foldl_app, IH by lia. cbn [foldl Nat.add].
  rewrite insert_app_r_alt, length_replicate, Nat.sub_diag by (rewrite length_replicate; lia).
  destruct (lookup_lt_is_Some_2 l n) as [x Hx]; [lia|]. rewrite (drop_S _ _ _ Hx).
  by rewrite replicate_S_end, <- app_assoc.
Qed.

(** A reset forgets what is pending and leaves the shared interrupts alone:
    it only writes to the banked registers of the distributor. *)
Lemma irqchip_cpu_reset_clears g :
  length (lrs (irq g)) = gic_num_lr -> ring_ok (pending (irq g)) ->
  let g' := irqchip_cpu_reset g in
  lrs (irq g') = replicate gic_num_lr 0 /\ ring_queue (pending (irq g')) = [] /\ gich_vmcr g' = 0 /\
  exists ws, dist g' = dist g ++ ws /\ (fst <$> ws) = [GICD_ISENABLER; GICD_ICENABLER; GICD_ICACTIVER].
Proof.
  intros Hn Hok g'. split_and!.
  - cbn. rewrite clear_lrs, drop_ge, app_nil_r by lia. done.
  - apply ring_empty; [|done]. destruct Hok as (? & ? & ? & _). by split_and!.
  - done.
  - eexists. cbn. rewrite <- !app_assoc. split; [done|]. done.
Qed.

Lemma migrate_lrs_run fuel g :
  length (lrs (irq g)) = gic_num_lr -> (length (pending_ids (lrs (irq g))) < fuel)%nat ->
  migrate_lrs fuel g =
  Some (set_lrs (silence (lrs (irq g))) (gicd_writes (mjoin (phys_writes <$> pending_ids (lrs (irq g)))) g)).
Proof.
  revert g. induction fuel as [|fuel IH]; intros g Hn Hf; [lia|]. cbn [migrate_lrs]. unfold gicv2_get_pending_irq.
  rewrite <- Hn. destruct (get_pending_cases [] (lrs (irq g))) as [(Hids & Hs & Hr)|(i & l' & Hr & Hi & Hl & Hids & Hs)];
    cbn [app length] in Hr; rewrite Hr; cbn [mbind option_bind].
  - rewrite (proj2 (Z.leb_gt _ _)) by done. rewrite Hids, Hs. destruct g as [[? ? ?] ? ? ? ? ? ? ?]. cbn.
    unfold gicd_writes, set_lrs, set_irq. cbn. by rewrite app_nil_r.
  - rewrite (proj2 (Z.leb_le _ _)) by done. rewrite inject_phys_writes, IH; [|cbn; by rewrite Hl|rewrite Hids in Hf; cbn [length] in Hf; cbn [lrs irq gicd_writes set_lrs set_irq]; lia].
    cbn [lrs irq gicd_writes set_lrs set_irq]. rewrite Hids, Hs. cbn [fmap list_fmap mjoin list_join].
    unfold gicd_writes, set_lrs, set_irq. cbn. by rewrite <- app_assoc.
Qed.

Definition emptied (p : pending_irqs) : pending_irqs :=
  mk_pending_irqs (p_lock p) (p_irqs p) (p_sender p) (p_tail p) (p_tail p).

Lemma migrate_queue_run fuel g :
  ring_ok (pending (irq g)) -> (length (ring_queue (pending (irq g))) <= fuel)%nat ->
  migrate_queue fuel g =
  Some (set_pending (emptied (pending (irq g)))
          (gicd_writes (mjoin (phys_writes <$> (fst <$> ring_queue (pending (irq g))))) g)).
Proof.
  revert g. induction fuel as [|fuel IH]; intros g Hok Hf; cbn [migrate_queue];
    destruct (Z.eqb_spec (p_head (pending (irq g))) (p_tail (pending (irq g)))) as [He|He].
  1, 3: pose proof (proj2 (ring_empty _ Hok) He) as ->; destruct g as [[[? ? ? ? ?] ? ?] ? ? ? ? ? ? ?]; cbn in *; subst;
    unfold set_pending, gicd_writes, set_irq, emptied; cbn; by rewrite app_nil_r.
  - exfalso. apply He, ring_empty; [done|]. apply length_zero_iff_nil. lia.
  - destruct (ring_dequeue _ Hok He) as (i & sd & Hi & _ & Hok' & Hq). rewrite Hi. cbn [mbind option_bind].
    rewrite IH; [|rewrite inject_phys_writes; cbn; exact Hok'|rewrite Hq in Hf; cbn in Hf |- *; lia].
    rewrite Hq, inject_phys_writes. cbn [fmap list_fmap fst mjoin list_join]. cbn [irq set_pending set_irq pending gicd_writes].
    unfold set_pending, gicd_writes, set_irq, emptied. cbn. by rewrite <- app_assoc.
Qed.

(** C25: no pending interrupt is lost when the hypervisor leaves a CPU: the
    loops end, and every interrupt that is pending in a list register or
    waits in the software queue is made pending in the distributor, in this
    order; then no list register is pending and the queue is empty. *)
Theorem irqchip_cpu_shutdown_migrates (g : gic_cpu) :
  gicc_initialized g = true -> length (lrs (irq g)) = gic_num_lr -> ring_ok (pending (irq g)) ->
  exists g', irqchip_cpu_shutdown g = Some g' /\
    dist g' = dist g ++ [(GICD_ICENABLER, u32 (Z.shiftl 1 mnt_irq))] ++
      mjoin (phys_writes <$> (pending_ids (lrs (irq g)) ++ (fst <$> ring_queue (pending (irq g))))) /\
    pending_ids (lrs (irq g')) = [] /\ ring_queue (pending (irq g')) = [] /\ gich_hcr (irq g') = 0.
Proof.
  intros Hi Hn Hok. unfold irqchip_cpu_shutdown, gicv2_cpu_shutdown. rewrite Hi. cbn [negb Z.ltb Z.compare].
  rewrite migrate_lrs_run; [|done|].
  2: { cbn. rewrite <- Hn. unfold pending_ids. rewrite length_fmap. pose proof (length_filter (fun lr => lr_is_pending lr = true) (lrs (irq g))). lia. }
  cbn [mbind option_bind]. rewrite migrate_queue_run; [|done|].
  2: { cbn. rewrite ring_queue_length. pose proof (ring_len_bounds (pending (irq g))). unfold MAX_PENDING_IRQS. lia. }
  eexists. split; [done|]. cbn. split_and!; [|..|done].
  - rewrite fmap_app, <- !app_assoc. do 3 f_equal. by rewrite join_app.
  - apply pending_silence.
  - apply ring_empty; [|done]. destruct Hok as (? & ? & ? & ? & ?). done.
Qed.
End GicCpu.

(** ** A concrete CPU *)

(** Two of four list registers are pending, an interrupt is queued. *)
Definition demo_pending : pending_irqs :=
  mk_pending_irqs false (<[0%nat := 77]> (replicate 256 0)) (replicate 256 0) 0 1.
Definition demo_gic : gic_cpu :=
  mk_gic_cpu (mk_cpu_irq demo_pending [Z.lor 14 (Z.shiftl 1 28); 0; Z.lor 33 (Z.shiftl 1 28); Z.lor 40 (Z.shiftl 1 29)] 1)
    1 248 0 0 true 2 [].

Lemma init_shutdown_roundtrip_witness : exists g1 g2,
  gicv2_cpu_init 25 3 2 1 demo_gic = (0, g1) /\ gicv2_cpu_shutdown 25 g1 = (0, g2) /\
  gicc_ctlr g2 = Z.land 1 (Z.lor GICC_CTLR_GRPEN1 GICC_CTLR_EOImode) /\
  gicc_pmr g2 = coarse 248 /\ gich_hcr (irq g2) = 0.
Proof. apply (init_shutdown_roundtrip 25 3 2 1 demo_gic); [lia|done|cbn; lia]. Defined.

Lemma irqchip_cpu_shutdown_migrates_witness : exists g',
  irqchip_cpu_shutdown 25 3 demo_gic = Some g' /\
  dist g' = [] ++ [(GICD_ICENABLER, u32 (Z.shiftl 1 25))] ++
    mjoin (phys_writes <$> (pending_ids (lrs (irq demo_gic)) ++ (fst <$> ring_queue (pending (irq demo_gic))))) /\
  pending_ids (lrs (irq g')) = [] /\ ring_queue (pending (irq g')) = [] /\ gich_hcr (irq g') = 0.
Proof.
  apply (irqchip_cpu_shutdown_migrates 25 3 demo_gic); [reflexivity|reflexivity|].
  split_and!; vm_compute; reflexivity || discriminate.
Defined.

Example demo_migrated : pending_ids (lrs (irq demo_gic)) = [14; 33] /\ fst <$> ring_queue (pending (irq demo_gic)) = [77] /\
  dist <$> irqchip_cpu_shutdown 25 3 demo_gic =
    Some [(384, 2 ^ 25); (3872 + 14, 1); (900, 2); (516, 2); (904, 2 ^ 13); (520, 2 ^ 13)].
Proof. vm_compute. repeat split. Qed.
