(* ===== verification/DataAbort.v ===== *)
(** * Intercepted accesses of a guest

    Models hypervisor/arch/arm64/mmio.c: an access of a guest to an address
    without a stage 2 mapping is decoded from the syndrome register, handed to
    the dispatch of [Mmio], and its result is put into the register of the
    guest. The reference is the instruction: what it loads or stores, and where
    the guest goes on. *)

From Stdlib Require Import ZArith Lia.
From stdpp Require Import base tactics list option.
From S2P Require Import Prelude Mmio.

Definition NUM_USR_REGS : nat := 31.

(** [TRAP_HANDLED], [TRAP_UNHANDLED], [TRAP_FORBIDDEN]; [Hangs] is the endless
    loop of [arch_inject_dabt]. *)
Inductive trap_result := TRAP_HANDLED | TRAP_UNHANDLED | TRAP_FORBIDDEN | Hangs.

(** [struct trap_context] with the system registers that the handler uses and
    the statistics it counts. *)
Record trap_context := mk_trap_context {
  esr : Z;
  regs : list Z;
  ELR_EL2 : Z;
  HPFAR_EL2 : Z;
  FAR_EL2 : Z;
  vmexits_mmio : Z;
}.

Definition set_regs (l : list Z) (c : trap_context) : trap_context :=
  mk_trap_context (esr c) l (ELR_EL2 c) (HPFAR_EL2 c) (FAR_EL2 c) (vmexits_mmio c).
Definition set_elr (x : Z) (c : trap_context) : trap_context :=
  mk_trap_context (esr c) (regs c) x (HPFAR_EL2 c) (FAR_EL2 c) (vmexits_mmio c).
Definition count_mmio (c : trap_context) : trap_context :=
  mk_trap_context (esr c) (regs c) (ELR_EL2 c) (HPFAR_EL2 c) (FAR_EL2 c) (u32 (vmexits_mmio c + 1)).

Definition ESR_ISS (esr : Z) : Z := Z.land esr (2 ^ 25 - 1).
Definition ESR_IL (esr : Z) : Z := Z.land (Z.shiftr esr 25) 1.
Definition ESR_EC (esr : Z) : Z := Z.land (Z.shiftr esr 26) 63.

Definition sign_extend (val size : Z) : Z :=
  if 64 <=? size then val
  else let mask := Z.shiftl 1 (size - 1) in u64 (Z.lxor val mask - mask).

Definition arch_skip_instruction (c : trap_context) : trap_context :=
  set_elr (u64 (ELR_EL2 c + (if negb (ESR_IL (esr c) =? 0) then 4 else 2))) c.

(** The syndrome fields of [arch_handle_dabt]. *)
Definition field (iss lo mask : Z) : Z := Z.land (Z.shiftr iss lo) mask.

(** The address from HPFAR_EL2 and FAR_EL2. *)
Definition fault_address (hpfar hdfar : Z) : Z := Z.lor (u64 (Z.shiftl hpfar 8)) (Z.land hdfar 4095).

Section Abort.
Context {W : Type} (call : Z -> Z -> mmio_access -> W -> option (mmio_result * mmio_access * W)).

(** On the table of the cell; [None] if the dispatch is undefined. *)
Definition arch_handle_dabt (t : mmio_table) (c : trap_context) (w : W)
    : option (trap_result * trap_context * W) :=
  let iss := ESR_ISS (esr c) in
  let isv := Z.shiftr iss 24 in
  let sas := field iss 22 3 in
  let sse := field iss 21 1 in
  let srt := field iss 16 31 in
  let ea := field iss 9 1 in
  let cm := field iss 8 1 in
  let s1ptw := field iss 7 1 in
  let is_write := field iss 6 1 in
  let size := Z.shiftl 1 sas in
  let address := fault_address (HPFAR_EL2 c) (FAR_EL2 c) in
  let c := count_mmio c in
  if isv =? 0 then Some (TRAP_UNHANDLED, c, w)
  else if negb (s1ptw =? 0) || negb (ea =? 0) || negb (cm =? 0) then Some (Hangs, c, w)
  else
    reg ← (if srt =? 31 then Some 0 else aget (regs c) srt);
    let value :=
      if negb (is_write =? 0) then if negb (sse =? 0) then sign_extend reg (8 * size) else reg else 0 in
    '(r, mmio, w) ← mmio_handle_access call t (mk_access address size (negb (is_write =? 0)) value) w;
    match r with
    | MMIO_ERROR => Some (TRAP_FORBIDDEN, c, w)
    | MMIO_UNHANDLED => Some (TRAP_UNHANDLED, c, w)
    | MMIO_HANDLED =>
        regs' ← (if (is_write =? 0) && negb (srt =? 31) then
                   aset (regs c) srt (if negb (sse =? 0) then sign_extend (Mmio.value mmio) (8 * size) else Mmio.value mmio)
                 else Some (regs c));
        Some (TRAP_HANDLED, arch_skip_instruction (set_regs regs' c), w)
    end.
End Abort.

(** ** The instruction *)

(** The fields of the syndrome of a data abort. *)
Record syndrome := mk_syndrome {
  s_ec : Z; s_il : bool; s_isv : bool; s_sas : Z; s_sse : bool; s_srt : Z; s_sf : bool;
  s_ea : bool; s_cm : bool; s_s1ptw : bool; s_wnr : bool; s_low : Z }.

Definition encode (y : syndrome) : Z :=
  s_ec y * 2 ^ 26 + Z.b2z (s_il y) * 2 ^ 25 + Z.b2z (s_isv y) * 2 ^ 24 + s_sas y * 2 ^ 22 +
  Z.b2z (s_sse y) * 2 ^ 21 + s_srt y * 2 ^ 16 + Z.b2z (s_sf y) * 2 ^ 15 + Z.b2z (s_ea y) * 2 ^ 9 +
  Z.b2z (s_cm y) * 2 ^ 8 + Z.b2z (s_s1ptw y) * 2 ^ 7 + Z.b2z (s_wnr y) * 2 ^ 6 + s_low y.

Definition syndrome_ok (y : syndrome) : Prop :=
  0 <= s_ec y < 64 /\ 0 <= s_sas y < 4 /\ 0 <= s_srt y < 32 /\ 0 <= s_low y < 64.

Lemma field_spec x lo k : 0 <= x -> 0 <= lo -> 0 <= k -> field x lo (2 ^ k - 1) = x / 2 ^ lo mod 2 ^ k.
Proof.
  intros Hx Hlo Hk. unfold field. rewrite Z.shiftr_div_pow2 by done.
  replace (2 ^ k - 1) with (Z.ones k) by (rewrite Z.ones_equiv; lia). by rewrite Z.land_ones.
Qed.

Lemma iss_spec x : 0 <= x -> ESR_ISS x = x mod 2 ^ 25.
Proof. intros Hx. unfold ESR_ISS. change (2 ^ 25 - 1) with (Z.ones 25). by rewrite Z.land_ones. Qed.

Lemma b2z_range b : 0 <= Z.b2z b <= 1.
Proof. by destruct b. Qed.

(** A field of [k] bits that stands between a high and a low part. *)
Lemma pick x hi v low lo k :
  0 <= lo -> 0 <= k -> x = (hi * 2 ^ k + v) * 2 ^ lo + low -> 0 <= low < 2 ^ lo -> 0 <= v < 2 ^ k ->
  x / 2 ^ lo mod 2 ^ k = v.
Proof.
  intros Hlo Hk -> Hl Hv. rewrite Z.div_add_l, (Z.div_small low) by lia. rewrite Z.add_0_r.
  rewrite Z.add_comm, Z.mod_add by lia. by apply Z.mod_small.
Qed.

Definition high (y : syndrome) : Z := s_ec y * 2 + Z.b2z (s_il y).
Definition iss (y : syndrome) : Z := encode y - high y * 2 ^ 25.

Ltac bits y := pose proof (b2z_range (s_il y)); pose proof (b2z_range (s_isv y)); pose proof (b2z_range (s_sse y));
  pose proof (b2z_range (s_sf y)); pose proof (b2z_range (s_ea y)); pose proof (b2z_range (s_cm y));
  pose proof (b2z_range (s_s1ptw y)); pose proof (b2z_range (s_wnr y)).

Lemma iss_range y : syndrome_ok y -> 0 <= iss y < 2 ^ 25 /\ 0 <= high y < 128.
Proof. intros (? & ? & ? & ?). unfold iss, high, encode. bits y. lia. Qed.

Lemma encode_split y : encode y = high y * 2 ^ 25 + iss y.
Proof. unfold iss. lia. Qed.

Lemma encode_iss y : syndrome_ok y -> ESR_ISS (encode y) = iss y.
Proof.
  intros Hy. destruct (iss_range y Hy). rewrite encode_split, iss_spec by lia.
  rewrite Z.add_comm, Z.mod_add by lia. by apply Z.mod_small.
Qed.

Lemma encode_il y : syndrome_ok y -> ESR_IL (encode y) = Z.b2z (s_il y).
Proof.
  intros Hy. destruct (iss_range y Hy). unfold ESR_IL. rewrite encode_split.
  change (Z.land (Z.shiftr ?x 25) 1) with (field x 25 (2 ^ 1 - 1)). rewrite field_spec by lia.
  apply (pick _ (s_ec y) _ (iss y)); [lia|lia|unfold high; lia|lia|bits y; lia].
Qed.

(** The fields that the handler extracts are those of the syndrome. *)
Lemma encode_fields y :
  syndrome_ok y ->
  Z.shiftr (iss y) 24 = Z.b2z (s_isv y) /\ field (iss y) 22 3 = s_sas y /\ field (iss y) 21 1 = Z.b2z (s_sse y) /\
  field (iss y) 16 31 = s_srt y /\ field (iss y) 9 1 = Z.b2z (s_ea y) /\ field (iss y) 8 1 = Z.b2z (s_cm y) /\
  field (iss y) 7 1 = Z.b2z (s_s1ptw y) /\ field (iss y) 6 1 = Z.b2z (s_wnr y).
Proof.
  intros Hy. destruct (iss_range y Hy) as [Hi _]. destruct (Hy) as (? & ? & ? & ?). bits y.
  set (l6 := s_low y). set (l7 := Z.b2z (s_wnr y) * 2 ^ 6 + l6). set (l8 := Z.b2z (s_s1ptw y) * 2 ^ 7 + l7).
  set (l9 := Z.b2z (s_cm y) * 2 ^ 8 + l8). set (l16 := Z.b2z (s_sf y) * 2 ^ 15 + Z.b2z (s_ea y) * 2 ^ 9 + l9).
  set (l21 := s_srt y * 2 ^ 16 + l16). set (l22 := Z.b2z (s_sse y) * 2 ^ 21 + l21). set (l24 := s_sas y * 2 ^ 22 + l22).
  assert (E : iss y = Z.b2z (s_isv y) * 2 ^ 24 + l24) by (unfold iss, high, encode; lia).
  assert (E24 : iss y / 2 ^ 24 mod 2 ^ 1 = Z.b2z (s_isv y)) by (apply (pick _ 0 _ l24); lia).
  split_and!.
  - rewrite Z.shiftr_div_pow2 by lia. rewrite E, Z.div_add_l, Z.div_small by lia. lia.
  - change 3 with (2 ^ 2 - 1). rewrite field_spec by lia. apply (pick _ (Z.b2z (s_isv y)) _ l22); lia.
  - change 1 with (2 ^ 1 - 1). rewrite field_spec by lia. apply (pick _ (Z.b2z (s_isv y) * 4 + s_sas y) _ l21); lia.
  - change 31 with (2 ^ 5 - 1). rewrite field_spec by lia.
    apply (pick _ (Z.b2z (s_isv y) * 8 + s_sas y * 2 + Z.b2z (s_sse y)) _ l16); lia.
  - change 1 with (2 ^ 1 - 1). rewrite field_spec by lia.
    apply (pick _ (Z.b2z (s_isv y) * 2 ^ 14 + s_sas y * 2 ^ 12 + Z.b2z (s_sse y) * 2 ^ 11 + s_srt y * 2 ^ 6 + Z.b2z (s_sf y) * 2 ^ 5) _ l9); lia.
  - change 1 with (2 ^ 1 - 1). rewrite field_spec by lia.
    apply (pick _ (Z.b2z (s_isv y) * 2 ^ 15 + s_sas y * 2 ^ 13 + Z.b2z (s_sse y) * 2 ^ 12 + s_srt y * 2 ^ 7 + Z.b2z (s_sf y) * 2 ^ 6 + Z.b2z (s_ea y)) _ l8); lia.
  - change 1 with (2 ^ 1 - 1). rewrite field_spec by lia.
    apply (pick _ (Z.b2z (s_isv y) * 2 ^ 16 + s_sas y * 2 ^ 14 + Z.b2z (s_sse y) * 2 ^ 13 + s_srt y * 2 ^ 8 + Z.b2z (s_sf y) * 2 ^ 7 + Z.b2z (s_ea y) * 2 + Z.b2z (s_cm y)) _ l7); lia.
  - change 1 with (2 ^ 1 - 1). rewrite field_spec by lia.
    apply (pick _ (Z.b2z (s_isv y) * 2 ^ 17 + s_sas y * 2 ^ 15 + Z.b2z (s_sse y) * 2 ^ 14 + s_srt y * 2 ^ 9 + Z.b2z (s_sf y) * 2 ^ 8 + Z.b2z (s_ea y) * 4 + Z.b2z (s_cm y) * 2 + Z.b2z (s_s1ptw y)) _ l6); lia.
Qed.

(** *** What the instruction does *)

Definition signed (n v : Z) : Z := if v <? 2 ^ (n - 1) then v else v - 2 ^ n.

Lemma sign_extend_signed n v : 1 <= n <= 64 -> 0 <= v < 2 ^ n -> sign_extend v n = u64 (signed n v).
Proof.
  intros Hn Hv. unfold sign_extend. destruct (Z.leb_spec 64 n).
  - replace n with 64 in * by lia. unfold signed. destruct (Z.ltb_spec v (2 ^ (64 - 1))); [by rewrite u64_small by lia|].
    unfold u64, wrap. rewrite <- (Z.mod_add (v - 2 ^ 64) 1), Z.mod_small by lia. lia.
  - cbv zeta. rewrite Z.shiftl_1_l. unfold signed. f_equal.
    assert (Hp : 2 ^ n = 2 * 2 ^ (n - 1)) by (rewrite <- Z.pow_succ_r by lia; f_equal; lia).
    assert (Hlow : forall x, 0 <= x < 2 ^ (n - 1) -> Z.lxor x (2 ^ (n - 1)) = x + 2 ^ (n - 1)).
    { intros x Hx. symmetry. apply Z.add_nocarry_lxor. apply Z.bits_inj'. intros k Hk.
      rewrite Z.land_spec, Z.pow2_bits_eqb, Z.bits_0 by lia. destruct (Z.eqb_spec (n - 1) k) as [<-|]; [|by rewrite andb_false_r].
      rewrite andb_true_r. rewrite Z.testbit_eqb by lia. rewrite Z.div_small by lia. done. }
    destruct (Z.ltb_spec v (2 ^ (n - 1))).
    + rewrite Hlow by lia. lia.
    + replace (Z.lxor v (2 ^ (n - 1))) with (v - 2 ^ (n - 1)); [lia|].
      pose proof (Hlow (v - 2 ^ (n - 1)) ltac:(lia)) as Hx. replace (v - 2 ^ (n - 1) + 2 ^ (n - 1)) with v in Hx by lia.
      rewrite <- Hx at 2. by rewrite Z.lxor_assoc, Z.lxor_nilpotent, Z.lxor_0_r.
Qed.

Definition access_size (y : syndrome) : Z := 2 ^ s_sas y.

(** The source register as 64 bits; register 31 reads as zero. *)
Definition source_value (y : syndrome) (l : list Z) : option Z := if s_srt y =? 31 then Some 0 else aget l (s_srt y).

(** What a load puts into its register, which has 32 or 64 bits. *)
Definition loaded (y : syndrome) (v : Z) : Z :=
  let x := if s_sse y then u64 (signed (8 * access_size y) v) else v in
  if s_sf y then x else u32 x.
Definition write_register (y : syndrome) (x : Z) (l : list Z) : list Z :=
  if s_wnr y || (s_srt y =? 31) then l else <[Z.to_nat (s_srt y) := x]> l.

(** The state after the instruction. *)
Definition executed (y : syndrome) (v : Z) (c : trap_context) : trap_context :=
  mk_trap_context (esr c) (write_register y (loaded y v) (regs c))
    (u64 (ELR_EL2 c + (if s_il y then 4 else 2))) (HPFAR_EL2 c) (FAR_EL2 c) (u32 (vmexits_mmio c + 1)).

(** A plain access: the syndrome is valid and the abort is not one of a table
    walk, of cache maintenance or an external one. Stores are not extended. *)
Definition plain (y : syndrome) : Prop :=
  syndrome_ok y /\ s_isv y = true /\ s_ea y = false /\ s_cm y = false /\ s_s1ptw y = false /\
  (s_wnr y = true -> s_sse y = false).

Lemma access_size_bounds y : syndrome_ok y -> 1 <= access_size y <= 8.
Proof.
  intros (_ & Hs & _). unfold access_size. assert (s_sas y = 0 \/ s_sas y = 1 \/ s_sas y = 2 \/ s_sas y = 3) by lia.
  destruct H as [->|[->|[->| ->]]]; lia.
Qed.

Lemma fault_address_range hpfar hdfar : 0 <= fault_address hpfar hdfar.
Proof. apply Z.lor_nonneg. split; [apply Z.mod_pos_bound; lia|apply Z.land_nonneg; lia]. Qed.

Section Emulation.
Context {W : Type} (call : Z -> Z -> mmio_access -> W -> option (mmio_result * mmio_access * W)).
Context (t : mmio_table) (Ht : table_ok t).

(** The handler up to the dispatch. *)
Lemma dabt_dispatch y c w :
  plain y -> esr c = encode y -> length (regs c) = NUM_USR_REGS ->
  let a := fault_address (HPFAR_EL2 c) (FAR_EL2 c) in
  a + access_size y < 2 ^ 64 ->
  exists x, source_value y (regs c) = Some x /\
  arch_handle_dabt call t c w =
    let m := mk_access a (access_size y) (s_wnr y) (if s_wnr y then x else 0) in
    '(r, mmio, w) ← match list_find (covers a (access_size y)) (active t) with
      | Some (_, r) => call (r_handler r) (r_arg r) (mk_access (a - r_start r) (access_size y) (s_wnr y) (if s_wnr y then x else 0)) w
      | None => Some (MMIO_UNHANDLED, m, w)
      end;
    match r with
    | MMIO_ERROR => Some (TRAP_FORBIDDEN, count_mmio c, w)
    | MMIO_UNHANDLED => Some (TRAP_UNHANDLED, count_mmio c, w)
    | MMIO_HANDLED =>
        let v := if s_sse y then sign_extend (Mmio.value mmio) (8 * access_size y) else Mmio.value mmio in
        Some (TRAP_HANDLED, arch_skip_instruction (set_regs (write_register y v (regs c)) (count_mmio c)), w)
    end.
Proof.
  intros (Hy & Hv & Hea & Hcm & Hpt & Hst) He Hl a Ha. destruct (Hy) as (_ & Hsas & Hsrt & _).
  destruct (encode_fields y Hy) as (F24 & F22 & F21 & F16 & F9 & F8 & F7 & F6).
  pose proof (access_size_bounds y Hy) as Hsz. pose proof (fault_address_range (HPFAR_EL2 c) (FAR_EL2 c)) as Ha0.
  assert (Hx : exists x, source_value y (regs c) = Some x).
  { unfold source_value. destruct (Z.eqb_spec (s_srt y) 31); [by eexists|].
    apply aget_in_range. rewrite Hl. unfold NUM_USR_REGS. lia. }
  destruct Hx as [x Hx]. exists x. split; [done|]. unfold arch_handle_dabt. rewrite He, encode_iss by done.
  cbv zeta. rewrite F24, F22, F21, F16, F9, F8, F7, F6, Hv, Hea, Hcm, Hpt. cbn [Z.b2z Z.eqb negb orb].
  change (if s_srt y =? 31 then Some 0 else aget (regs (count_mmio c)) (s_srt y)) with (source_value y (regs c)).
  rewrite Hx. cbn [mbind option_bind]. rewrite Z.shiftl_1_l. fold (access_size y). fold a.
  assert ((if negb (Z.b2z (s_wnr y) =? 0) then if negb (Z.b2z (s_sse y) =? 0) then sign_extend x (8 * access_size y) else x else 0)
    = (if s_wnr y then x else 0)) as -> by (destruct (s_wnr y); [rewrite Hst by done; done|done]).
  assert (negb (Z.b2z (s_wnr y) =? 0) = s_wnr y) as -> by by destruct (s_wnr y).
  rewrite mmio_handle_access_run; [|done|done|cbn; lia|cbn; lia]. cbn [Mmio.address Mmio.size Mmio.is_write Mmio.value].
  destruct (match list_find _ _ with Some _ => _ | None => _ end) as [[[r m'] w']|]; [|done]. cbn [mbind option_bind].
  destruct r; [done|done|].
  assert ((Z.b2z (s_wnr y) =? 0) && negb (s_srt y =? 31) = negb (s_wnr y || (s_srt y =? 31))) as ->
    by (by destruct (s_wnr y), (s_srt y =? 31)).
  assert (negb (Z.b2z (s_sse y) =? 0) = s_sse y) as -> by by destruct (s_sse y).
  unfold write_register. destruct (s_wnr y || (s_srt y =? 31)) eqn:Hw; cbn [negb]; [done|].
  rewrite aset_in_range; [done|]. apply orb_false_iff in Hw as [_ Hw]. apply Z.eqb_neq in Hw.
  cbn. rewrite Hl. unfold NUM_USR_REGS. lia.
Qed.

(** The variant of the instruction with a 64-bit register. *)
Definition widened (y : syndrome) : syndrome :=
  mk_syndrome (s_ec y) (s_il y) (s_isv y) (s_sas y) (s_sse y) (s_srt y) true
    (s_ea y) (s_cm y) (s_s1ptw y) (s_wnr y) (s_low y).

(** C26: An intercepted access with a valid syndrome that is no external abort,
    cache maintenance or table walk, that ends below the end of the address
    space and that a device of the cell handles, is emulated: the device gets the offset, the width and, for a store, the
    value of the source register; afterwards the registers are those that the
    instruction leaves, the loaded value extended as it asks, and the guest
    goes on behind it. There is one deviation: a load that extends the sign to
    a 32-bit register has the effect of its variant for 64 bits. Assumed of
    loads: the device returns a value of the width of the access, and 8 bytes
    are only loaded into a 64-bit register; of stores: no sign extension is
    asked for. *)
Theorem access_emulated y c w i r x m w' :
  plain y -> esr c = encode y -> length (regs c) = NUM_USR_REGS ->
  fault_address (HPFAR_EL2 c) (FAR_EL2 c) + access_size y < 2 ^ 64 ->
  source_value y (regs c) = Some x ->
  list_find (covers (fault_address (HPFAR_EL2 c) (FAR_EL2 c)) (access_size y)) (active t) = Some (i, r) ->
  call (r_handler r) (r_arg r)
    (mk_access (fault_address (HPFAR_EL2 c) (FAR_EL2 c) - r_start r) (access_size y) (s_wnr y) (if s_wnr y then x else 0)) w
    = Some (MMIO_HANDLED, m, w') ->
  (s_wnr y = false -> 0 <= Mmio.value m < 2 ^ (8 * access_size y) /\ (s_sf y = true \/ access_size y <= 4)) ->
  arch_handle_dabt call t c w =
    Some (TRAP_HANDLED, executed (if s_sse y && negb (s_sf y) then widened y else y) (Mmio.value m) c, w').
Proof.
  intros Hp He Hl Ha Hx Hf Hc Hload. destruct (dabt_dispatch y c w Hp He Hl Ha) as (x' & Hx' & ->).
  rewrite Hx in Hx'. injection Hx' as <-. rewrite Hf. cbv zeta. rewrite Hc. cbn [mbind option_bind].
  destruct Hp as (Hy & _). pose proof (access_size_bounds y Hy) as Hsz. do 3 f_equal.
  unfold executed, arch_skip_instruction, set_elr, set_regs, count_mmio. cbn [esr regs ELR_EL2 HPFAR_EL2 FAR_EL2 vmexits_mmio].
  rewrite He, encode_il by done. f_equal; [|by destruct (s_sse y && negb (s_sf y)); cbn [widened s_il]; destruct (s_il y)].
  unfold write_register. destruct (s_wnr y) eqn:Hw.
  { by destruct (s_sse y && negb (s_sf y)); cbn [widened s_wnr]; rewrite Hw. }
  destruct (Hload eq_refl) as [Hv Hsf]. unfold loaded, access_size in *.
  destruct (s_sse y) eqn:Hs, (s_sf y) eqn:Hsf'; cbn [andb negb widened s_wnr s_srt s_sf s_sse s_sas]; rewrite ?Hw, ?Hs, ?Hsf'; cbn [orb].
  - by rewrite sign_extend_signed by lia.
  - by rewrite sign_extend_signed by lia.
  - done.
  - rewrite u32_small; [done|]. destruct Hsf as [?|Hle]; [done|]. split; [lia|].
    apply Z.lt_le_trans with (2 ^ (8 * 2 ^ s_sas y)); [lia|]. apply Z.pow_le_mono_r; lia.
Qed.

(** an access that no device of the cell covers leaves the registers and the
    program counter alone and is reported as unhandled, so that the CPU is
    parked; so does one that a device refuses, which is reported as
    forbidden. *)
Theorem access_refused y c w :
  plain y -> esr c = encode y -> length (regs c) = NUM_USR_REGS ->
  fault_address (HPFAR_EL2 c) (FAR_EL2 c) + access_size y < 2 ^ 64 ->
  (list_find (covers (fault_address (HPFAR_EL2 c) (FAR_EL2 c)) (access_size y)) (active t) = None ->
     arch_handle_dabt call t c w = Some (TRAP_UNHANDLED, count_mmio c, w)) /\
  (forall r c' w', arch_handle_dabt call t c w = Some (r, c', w') -> r <> TRAP_HANDLED -> c' = count_mmio c).
Proof.
  intros Hp He Hl Ha. destruct (dabt_dispatch y c w Hp He Hl Ha) as (x & Hx & ->). split; [by intros ->|].
  intros r c' w'. cbv zeta. match goal with |- (?o ≫= _) = _ -> _ => destruct o as [[[k m'] w1]|]; [|done] end.
  cbn [mbind option_bind]. destruct k; by intros [= <- <- <-].
Qed.
End Emulation.

(** ** Concrete accesses *)

(** A device whose registers read as 128 and keep the last value written. *)
Definition demo_call (handler arg : Z) (m : mmio_access) (w : Z) : option (mmio_result * mmio_access * Z) :=
  Some (MMIO_HANDLED, mk_access (Mmio.address m) (Mmio.size m) (Mmio.is_write m) 128,
        if Mmio.is_write m then Mmio.value m else w).
Definition demo_table : mmio_table := mk_table 1 1 [mk_region 4096 4096 1 0].

(** [ldrsb x5, [...]], [ldrsb w5, [...]], [str x7, [...]] and [dc civac]. *)
Definition ldrsb_x : syndrome := mk_syndrome 36 true true 0 true 5 true false false false false 6.
Definition ldrsb_w : syndrome := mk_syndrome 36 true true 0 true 5 false false false false false 6.
Definition str_x : syndrome := mk_syndrome 36 true true 3 false 7 true false false false true 6.
Definition dc_civac : syndrome := mk_syndrome 36 true true 0 false 0 false false true false true 6.
Definition demo_regs : list Z := Z.of_nat <$> seq 1000 31.
Definition demo_ctx (y : syndrome) : trap_context := mk_trap_context (encode y) demo_regs 262144 16 260 0.

Lemma demo_table_ok : table_ok demo_table.
Proof.
  split; cbn; [lia|lia|reflexivity|repeat constructor; cbn; lia|repeat constructor].
Qed.

Lemma access_emulated_witness :
  arch_handle_dabt demo_call demo_table (demo_ctx ldrsb_x) 0 = Some (TRAP_HANDLED, executed ldrsb_x 128 (demo_ctx ldrsb_x), 0) /\
  arch_handle_dabt demo_call demo_table (demo_ctx ldrsb_w) 0 = Some (TRAP_HANDLED, executed ldrsb_x 128 (demo_ctx ldrsb_w), 0) /\
  arch_handle_dabt demo_call demo_table (demo_ctx str_x) 0 = Some (TRAP_HANDLED, executed str_x 128 (demo_ctx str_x), 1007).
Proof.
  split_and!.
  - apply (access_emulated demo_call demo_table demo_table_ok ldrsb_x (demo_ctx ldrsb_x) 0 0 (mk_region 4096 4096 1 0) 1005
      (mk_access 260 1 false 128) 0); try reflexivity; [unfold plain, syndrome_ok; cbn; split_and!; first [lia | done]|].
    intros _. split; [split; [vm_compute; discriminate | reflexivity]|by left].
  - apply (access_emulated demo_call demo_table demo_table_ok ldrsb_w (demo_ctx ldrsb_w) 0 0 (mk_region 4096 4096 1 0) 1005
      (mk_access 260 1 false 128) 0); try reflexivity; [unfold plain, syndrome_ok; cbn; split_and!; first [lia | done]|].
    intros _. split; [split; [vm_compute; discriminate | reflexivity]|right; vm_compute; discriminate].
  - apply (access_emulated demo_call demo_table demo_table_ok str_x (demo_ctx str_x) 0 0 (mk_region 4096 4096 1 0) 1007
      (mk_access 260 8 true 128) 1007); try reflexivity; [unfold plain, syndrome_ok; cbn; split_and!; first [lia | done]|].
    discriminate.
Defined.

Lemma access_refused_witness :
  (list_find (covers (fault_address 16 260) 8) (active (mk_table 0 0 [])) = None ->
     arch_handle_dabt demo_call (mk_table 0 0 []) (demo_ctx str_x) 0 = Some (TRAP_UNHANDLED, count_mmio (demo_ctx str_x), 0)) /\
  (forall r c' w', arch_handle_dabt demo_call (mk_table 0 0 []) (demo_ctx str_x) 0 = Some (r, c', w') ->
     r <> TRAP_HANDLED -> c' = count_mmio (demo_ctx str_x)).
Proof.
  apply (access_refused demo_call (mk_table 0 0 [])) with (y := str_x); [|unfold plain, syndrome_ok; cbn; split_and!; first [lia | done]|reflexivity..].
  split; cbn; [lia|lia|reflexivity|constructor|constructor].
Defined.

Example demo_accesses :
  (fun r => regs (snd (fst r)) !! 5%nat) <$> arch_handle_dabt demo_call demo_table (demo_ctx ldrsb_x) 0 =
    Some (Some (2 ^ 64 - 128)) /\
  (fun r => (ELR_EL2 (snd (fst r)), snd r)) <$> arch_handle_dabt demo_call demo_table (demo_ctx str_x) 0 = Some (262148, 1007).
Proof. split; vm_compute; reflexivity. Qed.

(** A load that extends the sign to 32 bits clears the upper half of its
    register; the handler fills it with ones. *)
Example sign_fills_upper_half :
  (fun r => regs (snd (fst r)) !! 5%nat) <$> arch_handle_dabt demo_call demo_table (demo_ctx ldrsb_w) 0 =
    Some (Some (2 ^ 64 - 128)) /\
  regs (executed ldrsb_w 128 (demo_ctx ldrsb_w)) !! 5%nat = Some (2 ^ 32 - 128).
Proof. split; vm_compute; reflexivity. Qed.

(** If a valid syndrome is flagged as cache maintenance the handler never
    returns. *)
Example cache_maintenance_hangs :
  fst <$> (fst <$> arch_handle_dabt demo_call demo_table (demo_ctx dc_civac) 0) = Some Hangs.
Proof. vm_compute. reflexivity. Qed.
