(* ===== verification/Application.v ===== *)
(** * The application

    The periodic benchmark tasks of main.c: the interrupt of the generic timer
    releases the tasks and counts their missed deadlines, each task waits for
    its release, runs a job and notes that it has finished. The memory phases
    of a job are those of [Dprem]; the benchmark is that of
    benchmarking/average.c.

    Times are counts of the generic timer, 64 bits wide. The timer is started
    with a countdown, of which the hardware takes 32 bits as a signed number
    that it adds to the count. *)

From Stdlib Require Import ZArith Lia.
From stdpp Require Import base tactics list list_numbers.
From S2P Require Import Prelude.

(** ** The tasks *)

(** The variables of a task, [task1_...] or [task2_...]. *)
Record task_times := mk_task_times {
  activation_period_ticks : Z;
  next_activation_ticks : Z;
  release_ticks : Z;
  finished : bool;
  deadlines_missed : Z;
}.

(** [events] are the calls of SetEvent, the last one last; [timer] is the
    last countdown. *)
Record app := mk_app { task1 : task_times; task2 : task_times; events : list Z; timer : Z }.

Definition RELEASE_EVENT_APPLICATION_TASK1 : Z := 4.
Definition RELEASE_EVENT_APPLICATION_TASK2 : Z := 8.
Definition CORE_0_BASE_FREQ : Z := 100.
Definition CORE_1_BASE_FREQ : Z := 99.
Definition CORE_2_BASE_FREQ : Z := 98.
Definition BASE_FREQ_MULT : Z := 3.
Definition NOT_BENCH_MULT : Z := 2.
Definition A57_CORE_TO_BENCHMARK : Z := 0.

Definition get_task_frequency (a57_core_id : Z) (first_task : bool) : Z :=
  let base f := if first_task then f * BASE_FREQ_MULT else f in
  let task_freq :=
    if a57_core_id =? 0 then base CORE_0_BASE_FREQ
    else if a57_core_id =? 1 then base CORE_1_BASE_FREQ
    else if a57_core_id =? 2 then base CORE_2_BASE_FREQ
    else u64 (-1) in
  if A57_CORE_TO_BENCHMARK =? a57_core_id then task_freq else u64 (task_freq * NOT_BENCH_MULT).

Definition update_activation_ticks (t : task_times) : task_times :=
  mk_task_times (activation_period_ticks t) (u64 (next_activation_ticks t + activation_period_ticks t))
    (release_ticks t) (finished t) (deadlines_missed t).

(** The release of a task in [task_activation_isr], without SetEvent. *)
Definition release_task (current_ticks : Z) (t : task_times) : task_times :=
  let t := update_activation_ticks t in
  if negb (finished t) then
    mk_task_times (activation_period_ticks t) (next_activation_ticks t) (release_ticks t) (finished t) (u64 (deadlines_missed t + 1))
  else mk_task_times (activation_period_ticks t) (next_activation_ticks t) current_ticks false 0.

Section App.
Context (USE_TASK2 : bool).

Definition get_next_timer_ticks (current_ticks : Z) (s : app) : Z :=
  if next_activation_ticks (task1 s) <? next_activation_ticks (task2 s)
  then u64 (next_activation_ticks (task1 s) - current_ticks)
  else u64 (next_activation_ticks (task2 s) - current_ticks).

Definition task_activation_isr (current_ticks : Z) (s : app) : app :=
  let s := if next_activation_ticks (task1 s) <=? current_ticks
    then mk_app (release_task current_ticks (task1 s)) (task2 s) (events s ++ [RELEASE_EVENT_APPLICATION_TASK1]) (timer s)
    else s in
  let s := if (next_activation_ticks (task2 s) <=? current_ticks) && USE_TASK2
    then mk_app (task1 s) (release_task current_ticks (task2 s)) (events s ++ [RELEASE_EVENT_APPLICATION_TASK2]) (timer s)
    else s in
  mk_app (task1 s) (task2 s) (events s)
    (if USE_TASK2 then get_next_timer_ticks current_ticks s else u64 (next_activation_ticks (task1 s) - current_ticks)).

(** What [main] does after the tasks were activated. *)
Definition start_time_keeping (current_ticks : Z) (s : app) : app :=
  let reset t := update_activation_ticks
    (mk_task_times (activation_period_ticks t) current_ticks (release_ticks t) (finished t) (deadlines_missed t)) in
  let s := mk_app (reset (task1 s)) (reset (task2 s)) (events s) (timer s) in
  mk_app (task1 s) (task2 s) (events s) (get_next_timer_ticks current_ticks s).

(** The tasks as initialized, with the periods that [main] computes. *)
Definition initial_task (ticks_per_second freq : Z) : task_times := mk_task_times (ticks_per_second / freq) 0 0 true 0.
Definition initial_app (a57_core_id ticks_per_second : Z) : app :=
  mk_app (initial_task ticks_per_second (get_task_frequency a57_core_id true))
         (initial_task ticks_per_second (get_task_frequency a57_core_id false)) [] 0.

(** Starting the timer at count [w]: the count at which it fires. *)
Definition osEE_aarch64_gtimer_start (timeout w : Z) : Z := u64 (w + s32 timeout).

End App.

(** ** The average of the data section *)
Definition SIZE_DATA_SECTION : Z := 448 * 1024.
Definition num_ints : Z := SIZE_DATA_SECTION / 4.

(** [data] are the [num_ints] elements. *)
Definition calc_avg (data : list Z) : Z := s32 (Z.quot (foldl (fun avg x => s64 (avg + x)) 0 data) num_ints).

Lemma sum_run data : forall acc n, Forall (fun x => - 2 ^ 31 <= x < 2 ^ 31) data -> Z.abs acc <= n * 2 ^ 31 -> 0 <= n ->
  n + Z.of_nat (length data) <= 2 ^ 31 ->
  foldl (fun avg x => s64 (avg + x)) acc data = acc + foldr Z.add 0 data.
Proof.
  induction data as [|x data IH]; intros acc n Hd Hacc Hn Hl; cbn [foldl foldr length] in *; [lia|].
  apply Forall_cons in Hd as [Hx Hd]. rewrite Nat2Z.inj_succ in Hl.
  assert (Hs : s64 (acc + x) = acc + x).
  { unfold s64. destruct (Z.leb_spec 0 (acc + x)).
    - rewrite u64_small by lia. by rewrite (proj2 (Z.ltb_lt _ _)) by lia.
    - assert (u64 (acc + x) = acc + x + 2 ^ 64) as ->.
      { unfold u64, wrap. rewrite <- (Z.mod_small (acc + x + 2 ^ 64) (2 ^ 64)) by lia.
        by rewrite <- (Z.add_mod_idemp_r _ (2 ^ 64)), Z.mod_same, Z.add_0_r by done. }
      rewrite (proj2 (Z.ltb_ge _ _)) by lia. lia. }
  rewrite Hs, (IH _ (n + 1)) by (done || lia). lia.
Qed.

(** The sum does not overflow, the average is the truncated quotient, and it is
    between the bounds of the data. *)
Theorem calc_avg_correct data lo hi : Z.of_nat (length data) = num_ints -> - 2 ^ 31 <= lo -> hi < 2 ^ 31 ->
  Forall (fun x => lo <= x <= hi) data ->
  calc_avg data = Z.quot (foldr Z.add 0 data) num_ints /\ lo <= calc_avg data <= hi.
Proof.
  intros Hlen Hlo Hhi Hd. unfold calc_avg.
  assert (Hn : num_ints = 114688) by reflexivity. rewrite Hn in *.
  assert (Hsum : lo * Z.of_nat (length data) <= foldr Z.add 0 data <= hi * Z.of_nat (length data)).
  { clear Hlen. induction Hd as [|x data Hx Hd IH]; cbn [foldr length]; [lia|]. rewrite Nat2Z.inj_succ. lia. }
  rewrite (sum_run data 0 0); [|by eapply Forall_impl; [exact Hd|]; cbn; lia|lia|lia|lia].
  rewrite Z.add_0_l. rewrite Hlen in Hsum.
  pose proof (Z.quot_le_mono _ _ 114688 ltac:(done) (proj1 Hsum)) as H1. pose proof (Z.quot_le_mono _ _ 114688 ltac:(done) (proj2 Hsum)) as H2.
  rewrite Z.quot_mul in H1, H2 by done. set (q := Z.quot _ _) in *.
  assert (Hq : s32 q = q); [|by rewrite Hq].
  unfold s32, wrap. destruct (Z.leb_spec 0 q).
  - rewrite Z.mod_small by lia. by rewrite (proj2 (Z.ltb_lt _ _)) by lia.
  - assert (q mod 2 ^ 32 = q + 2 ^ 32) as ->.
    { rewrite <- (Z.mod_small (q + 2 ^ 32) (2 ^ 32)) by lia. by rewrite <- (Z.add_mod_idemp_r _ (2 ^ 32)), Z.mod_same, Z.add_0_r by done. }
    rewrite (proj2 (Z.ltb_ge _ _)) by lia. lia.
Qed.

(** ** The jobs of a task *)

(** A task with its event and whether it is in a job; an activation beyond the
    one that the event holds is lost. *)
Record job_state := mk_job_state { times : task_times; event_set : bool; running : bool }.

Inductive act :=
| Isr (current_ticks : Z)        (* task_activation_isr *)
| Begin                          (* WaitEvent returns, ClearEvent *)
| Finish.                        (* task1_finished = true *)

Definition set_finished (t : task_times) : task_times :=
  mk_task_times (activation_period_ticks t) (next_activation_ticks t) (release_ticks t) true (deadlines_missed t).

Definition act_step (a : act) (s : job_state) : option job_state :=
  match a with
  | Isr current_ticks =>
      if next_activation_ticks (times s) <=? current_ticks
      then Some (mk_job_state (release_task current_ticks (times s)) true (running s)) else Some s
  | Begin => if negb (running s) && event_set s then Some (mk_job_state (times s) false true) else None
  | Finish => if running s then Some (mk_job_state (set_finished (times s)) (event_set s) false) else None
  end.

Fixpoint acts_run (l : list act) (s : job_state) : option job_state :=
  match l with [] => Some s | a :: l => s ← act_step a s; acts_run l s end.

(** A job was released that has not ended. *)
Definition outstanding (s : job_state) : bool := event_set s || running s.

(** Every release finds the job before it finished. *)
Fixpoint on_time (l : list act) (s : job_state) : Prop :=
  match l with
  | [] => True
  | a :: l =>
      (forall c, a = Isr c -> next_activation_ticks (times s) <= c -> outstanding s = false) /\
      forall s', act_step a s = Some s' -> on_time l s'
  end.

Definition flagged (s : job_state) : Prop :=
  finished (times s) = negb (outstanding s) /\ event_set s && running s = false /\ deadlines_missed (times s) = 0.

Lemma act_step_flagged a s s' : flagged s -> act_step a s = Some s' ->
  (forall c, a = Isr c -> next_activation_ticks (times s) <= c -> outstanding s = false) -> flagged s'.
Proof.
  intros (Hf & Hx & Hm) Ha Ho. unfold flagged, outstanding in *.
  destruct s as [t ev run], a as [c| |]; cbn in *.
  - destruct (Z.leb_spec (next_activation_ticks t) c) as [Hle|]; injection Ha as <-; [|done].
    specialize (Ho c eq_refl Hle). apply orb_false_iff in Ho as [-> ->]. cbn in *. unfold release_task. cbn. by rewrite Hf.
  - destruct run, ev; try done. injection Ha as <-. done.
  - destruct run; [|done]. injection Ha as <-. cbn. destruct ev; [done|]. done.
Qed.

Lemma acts_run_flagged l : forall s s', flagged s -> on_time l s -> acts_run l s = Some s' -> flagged s'.
Proof.
  induction l as [|a l IH]; intros s s' Hf Hon Hrun; cbn in Hrun; [by injection Hrun as <-|].
  destruct (act_step a s) as [s1|] eqn:Ha; [|done]. cbn in Hrun. destruct Hon as [H1 H2].
  apply (IH s1); [by eapply act_step_flagged|by apply H2|done].
Qed.

(** As long as no deadline was missed, a release counts a missed deadline
    exactly when the job before it has not ended. *)
Theorem first_miss_detected t l s s' c : finished t = true -> deadlines_missed t = 0 ->
  let s0 := mk_job_state t false false in
  on_time l s0 -> acts_run l s0 = Some s -> act_step (Isr c) s = Some s' -> next_activation_ticks (times s) <= c ->
  deadlines_missed (times s') = if outstanding s then 1 else 0.
Proof.
  intros Hf Hm s0 Hon Hrun Ha Hc. assert (Hs : flagged s) by (eapply acts_run_flagged; [|exact Hon|exact Hrun]; by repeat split).
  destruct Hs as (Hfin & _ & Hmiss). cbn in Ha. rewrite (proj2 (Z.leb_le _ _) Hc) in Ha. injection Ha as <-. cbn.
  unfold release_task, update_activation_ticks. cbn. rewrite Hfin, negb_involutive.
  destruct (outstanding s); cbn; [by rewrite Hmiss|done].
Qed.

(** Afterwards not: a task that missed its deadline takes its next job with
    the mark that it has finished, so that a deadline missed by this one is
    not counted, and the count starts again from zero. *)
Theorem later_miss_hidden s c : running s = true -> event_set s = true -> next_activation_ticks (times s) <= c ->
  exists s', acts_run [Finish; Begin; Isr c] s = Some s' /\ running s' = true /\ event_set s' = true /\ deadlines_missed (times s') = 0.
Proof.
  intros Hr He Hc. destruct s as [t ev run]; cbn in *. subst. cbn. rewrite (proj2 (Z.leb_le _ _) Hc). by eexists.
Qed.

(** ** Periodic releases *)

Lemma s32_u64 x : - 2 ^ 31 <= x < 2 ^ 31 -> s32 (u64 x) = x.
Proof.
  intros Hx. unfold s32, u64, wrap. change (2 ^ 64) with (2 ^ 32 * 2 ^ 32).
  rewrite Z.rem_mul_r by done. rewrite <- Z.add_mod_idemp_r, Z.mul_comm, Z.mod_mul, Z.add_0_r, Z.mod_mod by done.
  destruct (Z.leb_spec 0 x).
  - rewrite Z.mod_small by lia. by rewrite (proj2 (Z.ltb_lt _ _)) by lia.
  - replace (x mod 2 ^ 32) with (x + 2 ^ 32) by (rewrite <- (Z.mod_small (x + 2 ^ 32) (2 ^ 32)) by lia; rewrite <- Z.add_mod_idemp_r by done; by rewrite Z.mod_same, Z.add_0_r).
    rewrite (proj2 (Z.ltb_ge _ _)) by lia. lia.
Qed.

(** Interrupts [(c, w)] that read the count [c] and start the timer at [w]:
    each comes at most [d] after the timer fires and takes at most [e] to the
    start of the timer; the timer was started last at [w0]. *)
Fixpoint driven (d e : Z) (s : app) (w0 : Z) (l : list (Z * Z)) : Prop :=
  match l with
  | [] => True
  | (c, w) :: l =>
      let f := osEE_aarch64_gtimer_start (timer s) w0 in
      f <= c <= f + d /\ c <= w <= c + e /\ driven d e (task_activation_isr false c s) w l
  end.

Definition interrupts (s : app) (l : list (Z * Z)) : app := foldl (fun s p => task_activation_isr false p.1 s) s l.

Section Periodic.
Context (P d e : Z) (Hd : 0 <= d) (He : 0 <= e) (HP : d + e < P < 2 ^ 31).

(** The timer was started at [w0] for the activation at [n] by an interrupt
    that read the count [c0]. *)
Record armed (s : app) (n c0 w0 : Z) : Prop := {
  ar_next : next_activation_ticks (task1 s) = n;
  ar_period : activation_period_ticks (task1 s) = P;
  ar_timer : timer s = u64 (n - c0);
  ar_start : 0 <= c0 <= w0 /\ w0 <= c0 + e;
  ar_left : 0 < n - c0 <= P;
}.

Lemma armed_fires s n c0 w0 : armed s n c0 w0 -> n + e < 2 ^ 64 -> osEE_aarch64_gtimer_start (timer s) w0 = w0 + (n - c0) /\ n <= w0 + (n - c0) <= n + e.
Proof.
  intros [_ _ Ht Hs Hl] Hb. unfold osEE_aarch64_gtimer_start. rewrite Ht, s32_u64 by lia. rewrite u64_small by lia. lia.
Qed.

Lemma armed_next s n c0 w0 c w : armed s n c0 w0 -> n + P < 2 ^ 64 -> n <= c <= n + d + e -> c <= w <= c + e ->
  armed (task_activation_isr false c s) (n + P) c w /\
  events (task_activation_isr false c s) = events s ++ [RELEASE_EVENT_APPLICATION_TASK1].
Proof.
  intros [Hn Hp Ht Hs Hl] Hb Hc Hw. unfold task_activation_isr. rewrite Hn, (proj2 (Z.leb_le n c)) by lia. cbn [task1 task2 events].
  rewrite andb_false_r. cbn [task1 task2 events timer].
  assert (Hnx : next_activation_ticks (release_task c (task1 s)) = n + P /\ activation_period_ticks (release_task c (task1 s)) = P).
  { unfold release_task, update_activation_ticks. cbn [finished]. rewrite Hp, Hn, u64_small by lia.
    by destruct (negb (finished (task1 s))). }
  destruct Hnx as [Hn' Hp']. split; [|done]. split; cbn [task1 timer]; rewrite ?Hn'; try done; lia.
Qed.

Lemma driven_run l : forall s n c0 w0, armed s n c0 w0 -> n + (Z.of_nat (length l) + 1) * P < 2 ^ 64 -> driven d e s w0 l ->
  next_activation_ticks (task1 (interrupts s l)) = n + Z.of_nat (length l) * P /\
  events (interrupts s l) = events s ++ replicate (length l) RELEASE_EVENT_APPLICATION_TASK1 /\
  forall k c w, l !! k = Some (c, w) -> n + Z.of_nat k * P <= c <= n + Z.of_nat k * P + d + e.
Proof.
  induction l as [|[c w] l IH]; intros s n c0 w0 Ha Hb Hdr; unfold interrupts; cbn [foldl length replicate].
  { rewrite app_nil_r. split; [rewrite (ar_next _ _ _ _ Ha); lia|]. split; [done|]. intros k c w Hk. by destruct k. }
  destruct Hdr as (Hc & Hw & Hdr). cbn [length] in Hb. rewrite Nat2Z.inj_succ in *.
  assert (0 <= Z.of_nat (length l) * P) by nia.
  destruct (armed_fires s n c0 w0 Ha ltac:(lia)) as [Hf Hfr]. rewrite Hf in Hc.
  destruct (armed_next s n c0 w0 c w Ha ltac:(lia) ltac:(lia) Hw) as [Ha' He'].
  destruct (IH _ _ _ _ Ha' ltac:(lia) Hdr) as (H1 & H2 & H3). unfold interrupts in H1, H2. cbn [fst].
  split; [rewrite H1; lia|]. split; [rewrite H2, He'; by rewrite <- (assoc_L (++))|].
  intros [|k] c' w' Hk; cbn [lookup list_lookup] in Hk; [injection Hk as <- <-; lia|].
  specialize (H3 k c' w' Hk). lia.
Qed.

(** C30: When the handling of each interrupt of the timer starts and ends in
    less than a period altogether, every interrupt releases exactly one job of
    the task; the k-th is released k periods after the start, late by at most
    the delays of that interrupt and the one before: the delays do not
    accumulate. *)
Theorem releases_periodic (s : app) (c0 w0 : Z) (l : list (Z * Z)) :
  activation_period_ticks (task1 s) = P -> P <= activation_period_ticks (task2 s) < 2 ^ 64 ->
  0 <= c0 -> c0 + activation_period_ticks (task2 s) < 2 ^ 64 -> c0 <= w0 <= c0 + e ->
  c0 + (Z.of_nat (length l) + 2) * P < 2 ^ 64 ->
  let s0 := start_time_keeping c0 s in
  driven d e s0 w0 l ->
  events (interrupts s0 l) = events s ++ replicate (length l) RELEASE_EVENT_APPLICATION_TASK1 /\
  next_activation_ticks (task1 (interrupts s0 l)) = c0 + (Z.of_nat (length l) + 1) * P /\
  forall k c w, l !! k = Some (c, w) -> c0 + (Z.of_nat k + 1) * P <= c <= c0 + (Z.of_nat k + 1) * P + d + e.
Proof.
  intros H1 H2 Hc0 Hb2 Hw Hb s0 Hdr.
  assert (Ha : armed s0 (c0 + P) c0 w0).
  { split; cbn; rewrite ?H1, ?u64_small by nia; try lia.
    unfold get_next_timer_ticks. cbn. rewrite ?H1, !u64_small by nia. destruct (Z.ltb_spec (c0 + P) (c0 + activation_period_ticks (task2 s))); f_equal; lia. }
  destruct (driven_run l s0 (c0 + P) c0 w0 Ha ltac:(lia) Hdr) as (Hn & Hev & Hk).
  split; [exact Hev|]. split; [rewrite Hn; lia|]. intros k c w Hl. specialize (Hk k c w Hl). lia.
Qed.

(** An interrupt that comes a period or more too late still releases one job,
    and starts the timer for a count that has passed, so that the next one
    follows at once. *)
Theorem late_interrupt_catches_up (s : app) (n c w : Z) :
  next_activation_ticks (task1 s) = n -> activation_period_ticks (task1 s) = P -> 0 <= n ->
  n + P <= c -> c - (n + P) < 2 ^ 31 -> c <= w < 2 ^ 64 ->
  let s' := task_activation_isr false c s in
  next_activation_ticks (task1 s') = n + P /\ events s' = events s ++ [RELEASE_EVENT_APPLICATION_TASK1] /\
  osEE_aarch64_gtimer_start (timer s') w = w - (c - (n + P)) /\ osEE_aarch64_gtimer_start (timer s') w <= w.
Proof.
  intros Hn Hp H0 Hc Hl Hw s'. unfold s', task_activation_isr. rewrite Hn, (proj2 (Z.leb_le n c)) by lia.
  cbn [task1 task2 events]. rewrite andb_false_r. cbn [task1 task2 events timer].
  assert (Hnx : next_activation_ticks (release_task c (task1 s)) = n + P).
  { unfold release_task, update_activation_ticks. cbn [finished]. rewrite Hp, Hn, u64_small by lia.
    by destruct (negb (finished (task1 s))). }
  rewrite Hnx. unfold osEE_aarch64_gtimer_start. rewrite s32_u64, u64_small by lia. split; [done|]. split; [done|]. lia.
Qed.

End Periodic.

(** On every core the first task has the shorter period. *)
Lemma main_periods core ticks_per_second : 0 <= core <= 2 -> 0 <= ticks_per_second ->
  activation_period_ticks (task1 (initial_app core ticks_per_second)) <= activation_period_ticks (task2 (initial_app core ticks_per_second)).
Proof.
  intros Hc Ht. cbn [initial_app task1 task2 initial_task activation_period_ticks].
  assert (core = 0 \/ core = 1 \/ core = 2) as [->|[->| ->]] by lia; apply Z.div_le_compat_l; try done; vm_compute; done.
Qed.

(** ** Examples *)

(** The counter runs at 31.25 MHz, so that the task has 300 jobs in a second;
    an interrupt is handled within 1000 ticks and the timer started within
    500. *)
Definition demo_app : app := initial_app 0 31250000.
Definition demo_interrupts : list (Z * Z) := [(1104167, 1104200); (1208832, 1209332); (1312998, 1312999)].

Lemma releases_periodic_witness :
  let s0 := start_time_keeping 1000000 demo_app in
  events (interrupts s0 demo_interrupts) = replicate 3 RELEASE_EVENT_APPLICATION_TASK1 /\
  next_activation_ticks (task1 (interrupts s0 demo_interrupts)) = 1000000 + 4 * 104166.
Proof.
  destruct (releases_periodic 104166 1000 500 ltac:(lia) ltac:(lia) ltac:(lia) demo_app 1000000 1000001 demo_interrupts)
    as (H1 & H2 & _); [reflexivity|vm_compute; done|lia|vm_compute; done|lia|cbn; lia|vm_compute; done|].
  split; [exact H1|exact H2].
Defined.

(** The second job is released while the first one runs, which is counted; the
    second one runs over the third release, which is not. *)
Example missed_deadline_hidden :
  (fun s => (running s, event_set s, deadlines_missed (times s))) <$>
    acts_run [Isr 100; Begin; Isr 200; Finish; Begin; Isr 300] (mk_job_state (mk_task_times 100 100 0 true 0) false false)
  = Some (true, true, 0).
Proof. reflexivity. Qed.

Lemma first_miss_detected_witness :
  let s := mk_job_state (mk_task_times 100 200 100 false 0) false true in
  outstanding s = true /\ exists s', act_step (Isr 200) s = Some s' /\ deadlines_missed (times s') = 1.
Proof.
  split; [reflexivity|]. eexists. split; [reflexivity|].
  apply (first_miss_detected (mk_task_times 100 100 0 true 0) [Isr 100; Begin] (mk_job_state (mk_task_times 100 200 100 false 0) false true) _ 200);
    try reflexivity.
  cbn. split; [done|]. intros s' [= <-]. split; [done|]. intros s' [= <-]. done.
Defined.
